(* ===== verification/_CoqProject ===== *)
-Q . S2P
Prelude.v
L3Wire.v
L3Replay.v
GoStr.v
L3Fresh.v
L3Encap.v
L3Session.v
L3Fec.v
L3Tunnel.v
L3Path.v
Frame.v
Pck.v
Spoof.v
Xdi.v
Chain.v
GoSort.v
Watch.v
History.v
Limits.v
Forward.v
KcpIdle.v
GoHash.v
Login.v
Access.v
AuditLog.v
Panel.v
RevWire.v
RevServer.v
RevPairing.v
RevClient.v
Ports.v
Fleet.v
GoB64.v
Registry.v
GoNet.v
Settings.v
Checks.v
Startup.v
Reload.v
DirectFile.v
DirectPanel.v
Share.v
RevFile.v
RevPanel.v
ConfHist.v
DirectEngine.v
Backup.v
Update.v
RevUdp.v
RevMux.v
Proxy.v
Metrics.v
Health.v
