(* ===== verification/Prelude.v ===== *)
(** * BackPack: a verified library of the tunnel, its panel and its management

    BackPack joins two hosts, one inside a filtered network and one outside, by
    tunnels whose traffic is meant to look like something else. One binary is the
    engine of a tunnel, the monitor that watches the tunnels of a machine, the
    panel and the menus that make and change them, and the agent of a server that
    another panel manages. This development models all of these from the Go source
    under [src/], and proves what makes them correct.

    ** The program and its parts

    A tunnel process reads a configuration, fills in what was left out, refuses
    what cannot work, and runs one engine: the server or the client of a reverse
    tunnel (the side outside dials in, and keeps a pool of connections for the side
    inside to hand its clients to), an end of a direct tunnel (the side with the
    ports dials), or of a layer-3 tunnel (packets of a TUN device in sealed
    datagrams). It follows its file, and writes what it carries to a snapshot. The monitor restarts what is down. The panel
    authenticates, keeps a record, and changes tunnels through forms; a change is
    one transaction on files and services. Links carry a tunnel to the other
    machine. Managed servers are kept in a sealed registry and upgraded in stages.
    Backups, histories and updates can all be taken back.

    ** Files

    Shared by all:
    - [Prelude]: Go's integers and slices, big-endian encodings, results and
      panics, record updates, transition sequences, the tactics and the [go] hints.
    - [GoStr], [GoSort], [GoHash], [GoB64], [GoNet]: the parts in use of [strings]
      and [strconv], [sort], [crypto] and [encoding/hex], [encoding/base64], [net].

    The layer-3 tunnel ([internal/tunnel/l3]) and its carriers
    ([internal/utils/network]):
    - [L3Wire], [L3Replay], [L3Fresh], [L3Encap], [L3Session], [L3Fec],
      [L3Tunnel], [L3Path]: header, replay window, freshness and versions,
      encapsulation, sessions, forward error correction, the engine, and the path
      MTU with segmentation and several sockets.
    - [Frame], [Pck], [Spoof], [Xdi], [Chain]: buffers and checksums, the
      TCP-segment, forged-source and ping carriers, the rotation over transports.
    - [Forward], [Limits], [KcpIdle]: forwarded ports, caps, idle KCP sessions.

    The reverse tunnel ([internal/server], [internal/client]):
    - [RevWire], [RevServer], [RevPairing], [RevClient]: what the ends say, who is
      admitted, how connections are paired, addresses, the pool and its pace.
    - [RevUdp], [RevMux]: the transport over UDP, and sessions that carry many
      connections.
    - [Ports]: a mapping, from its text to the address dialled.

    The direct tunnel ([internal/tunnel/direct]): [DirectEngine].

    A tunnel process ([config], [cmd]): [Settings] (the configuration), [Checks],
    [Startup] (what is refused, what is started), [Reload] (following the file).

    Watching ([internal/manage], [internal/metrics], histories): [Watch],
    [History], [Metrics], [Health].

    The panel ([internal/webui]): [Login], [Access], [AuditLog], [Panel].

    Making and changing tunnels ([internal/manage]):
    - [DirectFile], [DirectPanel]: the file of a layer-3 tunnel and its screens.
    - [RevFile], [RevPanel]: the file of a reverse tunnel and its screens.
    - [Share]: setup links and pairs. [ConfHist]: saving, and going back.
    - [Backup], [Update]: archives of the configuration, and new versions.

    The fleet ([internal/node], [internal/control]): [Fleet], [Registry].

    Local proxies ([internal/socks], [internal/localproxy]): [Proxy].

    Each file opens with its modules and the source files they translate.
    Definitions keep the source's names; a loop or block that had to become a
    definition of its own has a name saying which. State is a record with the
    fields of the struct. What many goroutines share is advanced by one access at a
    time, in any order ([L3Tunnel.StatsOrder], [Limits], [Forward], [KcpIdle],
    [RevServer], [RevPairing], [RevUdp], [RevMux], [Fleet.Jobs], [Proxy.Associate]);
    other handlers run one after another.

    ** Interfaces

    Code of others is an interface with its documented laws, and an instance that
    computes: [L3Session.Noise] (the Noise handshake and its ciphers),
    [L3Fec.ReedSolomon], [Registry.Aead] (AES-GCM), [Share.Gzip]. [EncapLaws] is
    what the engine relies on of an encapsulation. SHA, HMAC, base64, JSON and
    textual addresses are written out and checked on test vectors.

    ** What the theorems show

    - The layer-3 engine: two ends with one token come up and carry the first
      packet; strangers change nothing; handshakes complete between equals and
      cannot be downgraded or replayed; arrivals in any order are opened exactly as
      an abstract window says; lost datagrams are rebuilt; the MTU found is exactly
      the path's; what one carrier writes the other reads, and only it.
    - The reverse tunnel: the control handshake settles; the pool has only who
      proved the token; slots are balanced under every interleaving; each UDP flow
      carries what came, in order; a mapping means the same to every engine, up to the
      thirty-two backends the reverse client keeps.
    - The direct tunnel: both ends show the token before anything is carried; a
      stream is joined to what it asked for exactly when that may be reached.
    - The process: it goes on exactly with an admissible configuration, and an
      edit that can run is running after one poll; totals are kept over restarts.
    - Watching: restarts are a cooldown apart and justified; a tunnel is shown
      online only on evidence of now.
    - The panel: who gets in ([Panel], [Login], [Access]), and a record in which
      tampering shows.
    - Management: forms make tunnels the engine opens; files are read back as
      written; an edit is one transaction and can be undone; a restore or an update
      is all or nothing; links arrive as they were made.
    - The fleet: the registry refines a map of servers with sealed passwords; a
      staged upgrade stops where it should.
    - The proxies: nobody gets past them but the configured pair.

    Theorems that state a behaviour the code's comments deny, or an outright fault,
    are part of this: [fec_index_panics] (an unauthenticated datagram can crash the
    receive pump), [held_forever], [first_datagram_panics], [queued_slot_lost],
    [datagrams_starve_pool], [reload_counts_twice], [beta_outranks_release],
    [edit_lost], [listening_never_asked] and others; the manifest lists them.

    ** Bounds and fuel

    A Go [int] is 64-bit. Integers are [Z] with the wrap-around written out
    ([u8] to [u64], [int32], [int64]) where it can happen; cursors of backends and
    sessions are followed for less than 2^63 picks and job identifiers for less than
    2^63 jobs. A quotient the code takes in floating point is exact or its two terms;
    numbers of the browser are 53-bit doubles. Loops that are not structural take
    fuel, and theorems state what is returned, so the fuel given is enough: a
    window's worth of words ([commit_fuel]), the width of the interval
    ([search_loop]), one unit per byte of a text or segment, twenty-two polls of a
    service that should come up ([ConfHist]), the hundred names the code itself tries
    ([Backup.Keep]), the lines an operator types ([Box.uniqueName]). What may run
    for ever (a reader, a negotiation, a poll) is modelled over the finite list of
    what arrives.

    ** Assumptions

    A request reads the clock once. Files are replaced whole or not at all, and a
    copy that fails leaves nothing half done. Stored text is valid UTF-8; JSON is
    that of [encoding/json], read in the form it writes. [strings.EqualFold] is
    exact when one side is ASCII. Random bytes do not fail. Where a theorem needs a
    hash to tell texts apart, it says so of the texts it is about. A stream delivers
    what is written in order and whole until it ends. Times are those of one clock.

    ** Not modelled

    Sockets, the TUN device, XDP, BPF, firewall rules, systemd, [ss], probes and
    the file system's answers are the environment: what they deliver and accept are
    arguments. So is what libraries make of text: TOML (a file is its keys and
    values), [url.Parse], the log level parser, the tar and gzip readers,
    certificates, the verification of a signature, net/http, smux, kcp-go, quic-go.
    The action of a request in the record, what a job or an upgrade does, and the
    answers of other servers are inputs. Not modelled are the other transports'
    sockets and muxers, the copying of bytes between connections, socket options,
    sysctl tuning, the interactive wizards and menus, the Telegram bot, diagnostics
    and benchmarks, templates and browser code. The manifest lists every part with
    the reason. *)

From stdpp Require Export base numbers list gmap strings fin_maps relations.
From Stdlib Require Export ZArith Lia.

#[export] Set Default Proof Using "Type".
Open Scope Z_scope.

(** ** Go integers

    A w-bit unsigned integer is a [Z]; the wrap-around of each conversion is
    written with these functions. [int] is 64-bit, as on every platform the
    program ships for. *)

Definition u8 (z : Z) : Z := z `mod` 2^8.
Definition u16 (z : Z) : Z := z `mod` 2^16.
Definition u32 (z : Z) : Z := z `mod` 2^32.
Definition u64 (z : Z) : Z := z `mod` 2^64.

(** Two's complement reinterpretation: Go's [int(x)], [int64(x)] of a 64-bit
    value and [int32(x)] of an [int]. *)
Definition int64 (z : Z) : Z := (z + 2^63) `mod` 2^64 - 2^63.
Definition int32 (z : Z) : Z := (z + 2^31) `mod` 2^32 - 2^31.

(** ** Errors and panics *)

(** The value a Go function with an [error] result returns. *)
Inductive result (E A : Type) : Type :=
| Ok (a : A)
| Err (e : E).
Arguments Ok {E A} a.
Arguments Err {E A} e.

Definition result_bind {E A B} (r : result E A) (k : A → result E B) : result E B :=
  match r with
  | Ok a => k a
  | Err e => Err e
  end.

Lemma Ok_inj {E A} (a b : A) : @Ok E A a = Ok b → a = b.
Proof. by intros [= ->]. Qed.

Definition is_ok {E A} (r : result E A) : bool :=
  match r with Ok _ => true | Err _ => false end.

(** A computation that may panic (an index out of range, in this program). *)
Inductive outcome (A : Type) : Type :=
| Ret (a : A)
| Panic.
Arguments Ret {A} a.
Arguments Panic {A}.

Declare Scope go_scope.
Delimit Scope go_scope with go.
Notation "'let?' x ':=' c 'in' k" :=
  (result_bind c (λ x, k))
  (at level 10, x name, c at level 200, k at level 200) : go_scope.
Notation "'let?' ' p ':=' c 'in' k" :=
  (result_bind c (λ x, match x with p => k end))
  (at level 10, p strict pattern, c at level 200, k at level 200) : go_scope.
Open Scope go_scope.

(** ** Record updates

    [s <| f := v |>] is [s] with [v] in the field [f]. A record says once how it
    is put together from its fields ([Eta]); [set_field] makes the update of one
    of them. *)

Class Eta (R : Type) : Type := eta : R → R.
Class Field {R T : Type} (f : R → T) : Type := assign : T → R → R.

Ltac set_field :=
  lazymatch goal with
  | |- @Field _ _ ?f =>
      let v := fresh "v" in
      let s := fresh "s" in
      intros v s;
      let e := eval hnf in (eta s) in
      let p := eval pattern (f s) in e in
      lazymatch p with ?g _ => let r := eval cbv beta in (g v) in exact r end
  end.

Notation "s <| f := v |>" := (assign (f:=f) v s) (at level 1, left associativity, f constr at level 0, v constr at level 200, only parsing).

(** ** Byte slices

    A [[]byte] is a list of [Z] in [0, 255]; [bytes_ok] is that invariant. *)

Definition byte_ok (b : Z) : Prop := 0 ≤ b < 256.
Definition bytes_ok (l : list Z) : Prop := Forall byte_ok l.

#[export] Instance byte_ok_dec b : Decision (byte_ok b).
Proof. unfold byte_ok. apply _. Defined.
#[export] Instance bytes_ok_dec l : Decision (bytes_ok l).
Proof. unfold bytes_ok. apply _. Defined.

(** [len(b)] as an [int]. *)
Definition zlen {A} (l : list A) : Z := Z.of_nat (length l).

(** [b[lo:hi]], for bounds the caller has checked. *)
Definition slice {A} (l : list A) (lo hi : nat) : list A := take (hi - lo) (drop lo l).

(** [b[i]], for an index the caller has checked. *)
Definition at_ (l : list Z) (i : nat) : Z := default 0 (l !! i).

(** ** Big-endian encodings ([encoding/binary])

    [put_be n v] is what [binary.BigEndian.PutUint16/32/64] write for [n] = 2,
    4, 8; [get_be] reads them back. *)

Fixpoint put_be (n : nat) (v : Z) : list Z :=
  match n with
  | O => []
  | S n' => (v `div` 256 ^ Z.of_nat n') `mod` 256 :: put_be n' v
  end.

Fixpoint get_be_acc (acc : Z) (l : list Z) : Z :=
  match l with
  | [] => acc
  | b :: l' => get_be_acc (acc * 256 + b) l'
  end.

Definition get_be (l : list Z) : Z := get_be_acc 0 l.

(** ** Finite transition sequences *)

Inductive star {S : Type} (R : S → S → Prop) : S → S → Prop :=
| star_refl s : star R s s
| star_step s1 s2 s3 : R s1 s2 → star R s2 s3 → star R s1 s3.
#[export] Hint Constructors star : core.

(** ** Tactics *)

Create HintDb go.
Create Rewrite HintDb go.

(** Case analysis on the innermost [match] or [if] of the goal, keeping the
    equation. *)
Ltac go_case :=
  match goal with
  | |- context [match ?x with _ => _ end] =>
      lazymatch x with
      | context [match _ with _ => _ end] => fail
      | _ => let E := fresh "E" in destruct x eqn:E
      end
  end.

(** The same in a hypothesis. *)
Ltac go_case_in H :=
  match type of H with
  | context [match ?x with _ => _ end] =>
      lazymatch x with
      | context [match _ with _ => _ end] => fail
      | _ => let E := fresh "E" in destruct x eqn:E
      end
  end.

(** Turn boolean comparisons on [Z] and [nat] into propositions. *)
Ltac bool_to_prop :=
  repeat match goal with
  | H : _ && _ = true |- _ => apply andb_true_iff in H; destruct H
  | H : _ || _ = false |- _ => apply orb_false_iff in H; destruct H
  | H : _ || _ = true |- _ => apply orb_true_iff in H
  | H : _ && _ = false |- _ => apply andb_false_iff in H
  | H : negb _ = true |- _ => apply negb_true_iff in H
  | H : negb _ = false |- _ => apply negb_false_iff in H
  | H : (_ =? _)%Z = true |- _ => apply Z.eqb_eq in H
  | H : (_ =? _)%Z = false |- _ => apply Z.eqb_neq in H
  | H : (_ <? _)%Z = true |- _ => apply Z.ltb_lt in H
  | H : (_ <? _)%Z = false |- _ => apply Z.ltb_ge in H
  | H : (_ <=? _)%Z = true |- _ => apply Z.leb_le in H
  | H : (_ <=? _)%Z = false |- _ => apply Z.leb_gt in H
  | H : (_ =? _)%nat = true |- _ => apply Nat.eqb_eq in H
  | H : (_ =? _)%nat = false |- _ => apply Nat.eqb_neq in H
  | H : (_ <? _)%nat = true |- _ => apply Nat.ltb_lt in H
  | H : (_ <? _)%nat = false |- _ => apply Nat.ltb_ge in H
  | H : (_ <=? _)%nat = true |- _ => apply Nat.leb_le in H
  | H : (_ <=? _)%nat = false |- _ => apply Nat.leb_gt in H
  | H : bool_decide _ = true |- _ => apply bool_decide_eq_true in H
  | H : bool_decide _ = false |- _ => apply bool_decide_eq_false in H
  end.

(** Rewrite a boolean comparison in the goal whose value [lia] knows. *)
Ltac zbool :=
  repeat match goal with
  | |- context [(?a <? ?b)%Z] =>
      first [ replace (a <? b)%Z with true by (symmetry; apply Z.ltb_lt; lia)
            | replace (a <? b)%Z with false by (symmetry; apply Z.ltb_ge; lia) ]
  | |- context [(?a <=? ?b)%Z] =>
      first [ replace (a <=? b)%Z with true by (symmetry; apply Z.leb_le; lia)
            | replace (a <=? b)%Z with false by (symmetry; apply Z.leb_gt; lia) ]
  | |- context [(?a =? ?b)%Z] =>
      first [ replace (a =? b)%Z with true by (symmetry; apply Z.eqb_eq; lia)
            | replace (a =? b)%Z with false by (symmetry; apply Z.eqb_neq; lia) ]
  end.

(** ** Lemmas: integers *)

Lemma u8_range z : 0 ≤ u8 z < 256.
Proof. unfold u8. apply Z.mod_pos_bound. lia. Qed.

Lemma u16_range z : 0 ≤ u16 z < 2^16.
Proof. unfold u16. apply Z.mod_pos_bound. lia. Qed.

Lemma u32_range z : 0 ≤ u32 z < 2^32.
Proof. unfold u32. apply Z.mod_pos_bound. lia. Qed.

Lemma u64_range z : 0 ≤ u64 z < 2^64.
Proof. unfold u64. apply Z.mod_pos_bound. lia. Qed.

Lemma u8_small z : 0 ≤ z < 2^8 → u8 z = z.
Proof. intros. by apply Z.mod_small. Qed.

Lemma u16_small z : 0 ≤ z < 2^16 → u16 z = z.
Proof. intros. by apply Z.mod_small. Qed.

Lemma u32_small z : 0 ≤ z < 2^32 → u32 z = z.
Proof. intros. by apply Z.mod_small. Qed.

Lemma u64_small z : 0 ≤ z < 2^64 → u64 z = z.
Proof. intros. by apply Z.mod_small. Qed.

Lemma int64_small z : -2^63 ≤ z < 2^63 → int64 z = z.
Proof. intros. unfold int64. rewrite Z.mod_small; lia. Qed.

Lemma int64_range z : -2^63 ≤ int64 z < 2^63.
Proof. unfold int64. pose proof (Z.mod_pos_bound (z + 2^63) (2^64)). lia. Qed.

Lemma int32_small z : -2^31 ≤ z < 2^31 → int32 z = z.
Proof. intros. unfold int32. rewrite Z.mod_small; lia. Qed.

#[export] Hint Resolve u8_range u16_range u32_range u64_range int64_range : go.

(** ** Lemmas: slices *)

Lemma zlen_nonneg {A} (l : list A) : 0 ≤ zlen l.
Proof. unfold zlen. lia. Qed.

Lemma zlen_app {A} (l k : list A) : zlen (l ++ k) = zlen l + zlen k.
Proof. unfold zlen. rewrite length_app. lia. Qed.

Lemma bytes_ok_app l k : bytes_ok (l ++ k) ↔ bytes_ok l ∧ bytes_ok k.
Proof. unfold bytes_ok. by rewrite Forall_app. Qed.

Lemma bytes_ok_cons b l : bytes_ok (b :: l) ↔ byte_ok b ∧ bytes_ok l.
Proof. unfold bytes_ok. by rewrite Forall_cons. Qed.

Lemma bytes_ok_take n l : bytes_ok l → bytes_ok (take n l).
Proof. apply Forall_take. Qed.

Lemma bytes_ok_drop n l : bytes_ok l → bytes_ok (drop n l).
Proof. apply Forall_drop. Qed.

Lemma bytes_ok_slice l lo hi : bytes_ok l → bytes_ok (slice l lo hi).
Proof. intros. by apply bytes_ok_take, bytes_ok_drop. Qed.

Lemma at_ok l i : bytes_ok l → 0 ≤ at_ l i < 256.
Proof.
  intros Hl. unfold at_. destruct (l !! i) as [b|] eqn:E; simpl; [|lia].
  exact (Forall_lookup_1 _ _ _ _ Hl E).
Qed.

#[export] Hint Resolve bytes_ok_take bytes_ok_drop bytes_ok_slice at_ok : go.

Lemma length_slice {A} (l : list A) lo hi :
  (lo ≤ hi ≤ length l)%nat → length (slice l lo hi) = (hi - lo)%nat.
Proof. intros. unfold slice. rewrite length_take, length_drop. lia. Qed.

Lemma slice_app_r {A} (l k : list A) lo hi :
  (length l ≤ lo)%nat →
  slice (l ++ k) lo hi = slice k (lo - length l) (hi - length l).
Proof.
  intros. unfold slice. rewrite drop_app_ge by lia. f_equal. lia.
Qed.

Lemma slice_app_l {A} (l k : list A) n :
  length l = n → slice (l ++ k) 0 n = l.
Proof. intros <-. unfold slice. rewrite drop_0, Nat.sub_0_r. by apply take_app_length. Qed.

Lemma slice_drop {A} (l : list A) n m : (n ≤ m)%nat → drop n l = slice l n m ++ drop m l.
Proof.
  intros. unfold slice. rewrite <- (take_drop (m - n) (drop n l)) at 1.
  rewrite drop_drop. by replace (n + (m - n))%nat with m by lia.
Qed.

(** ** Lemmas: big-endian encodings *)

Lemma length_put_be n v : length (put_be n v) = n.
Proof. induction n; simpl; auto. Qed.
#[export] Hint Rewrite length_put_be : go.

Lemma put_be_ok n v : bytes_ok (put_be n v).
Proof.
  induction n; simpl; constructor; [|done].
  unfold byte_ok. apply Z.mod_pos_bound. lia.
Qed.
#[export] Hint Resolve put_be_ok : go.

Lemma get_be_acc_put_be n v acc :
  get_be_acc acc (put_be n v) = acc * 256 ^ Z.of_nat n + v `mod` 256 ^ Z.of_nat n.
Proof.
  revert acc. induction n as [|n IH]; intros acc.
  - simpl. rewrite Z.mod_1_r. lia.
  - cbn [put_be get_be_acc]. rewrite IH.
    rewrite Nat2Z.inj_succ, Z.pow_succ_r by lia.
    rewrite (Z.mul_comm 256 (256 ^ _)).
    rewrite Z.rem_mul_r by lia. lia.
Qed.

Lemma get_put_be n v : get_be (put_be n v) = v `mod` 256 ^ Z.of_nat n.
Proof. unfold get_be. rewrite get_be_acc_put_be. lia. Qed.

Lemma get_put_be_small n v : 0 ≤ v < 256 ^ Z.of_nat n → get_be (put_be n v) = v.
Proof. intros. rewrite get_put_be. by apply Z.mod_small. Qed.

Lemma get_be_acc_bound l acc :
  bytes_ok l → 0 ≤ acc →
  acc * 256 ^ zlen l ≤ get_be_acc acc l < (acc + 1) * 256 ^ zlen l.
Proof.
  revert acc. induction l as [|b l IH]; intros acc Hl Hacc.
  - unfold zlen. simpl. lia.
  - inversion Hl as [|? ? Hb Hl']; subst.
    unfold byte_ok in Hb. cbn [get_be_acc].
    specialize (IH (acc * 256 + b) Hl' ltac:(lia)).
    assert (zlen (b :: l) = Z.succ (zlen l)) as -> by (unfold zlen; simpl; lia).
    rewrite Z.pow_succ_r by apply zlen_nonneg.
    pose proof (zlen_nonneg l). assert (0 < 256 ^ zlen l) by lia. nia.
Qed.

Lemma get_be_bound l : bytes_ok l → 0 ≤ get_be l < 256 ^ zlen l.
Proof. intros H. pose proof (get_be_acc_bound l 0 H). unfold get_be. lia. Qed.

Lemma put_be_mod n v : put_be n (v `mod` 256 ^ Z.of_nat n) = put_be n v.
Proof.
  assert (∀ k, (k ≤ n)%nat → put_be k (v `mod` 256 ^ Z.of_nat n) = put_be k v) as H.
  { intros k. induction k as [|k IH]; intros Hk; simpl; [done|].
    rewrite IH by lia. f_equal.
    replace (Z.of_nat n) with (Z.of_nat k + 1 + Z.of_nat (n - k - 1)) by lia.
    rewrite !Z.pow_add_r by lia. rewrite Z.pow_1_r.
    set (a := 256 ^ Z.of_nat k). set (c := 256 ^ Z.of_nat (n - k - 1)).
    assert (0 < a) by (unfold a; lia). assert (0 < c) by (unfold c; lia).
    rewrite <- Z.mul_assoc, Z.rem_mul_r by lia.
    rewrite Z.mul_comm, Z.div_add by lia.
    rewrite Z.div_small by (apply Z.mod_pos_bound; lia). simpl.
    rewrite Z.rem_mul_r by lia.
    rewrite Z.add_0_l, (Z.mul_comm 256), Z.mod_add by lia. by rewrite Z.mod_mod by lia. }
  by apply H.
Qed.

Lemma put_get_be_acc l acc :
  bytes_ok l → 0 ≤ acc → put_be (length l) (get_be_acc acc l) = l.
Proof.
  revert acc. induction l as [|b l IH]; intros acc Hl Hacc; [done|].
  inversion Hl as [|? ? Hb Hl']; subst. unfold byte_ok in Hb.
  cbn [length put_be get_be_acc].
  rewrite IH by (done || lia). f_equal.
  pose proof (get_be_acc_bound l (acc * 256 + b) Hl' ltac:(lia)) as Hb'.
  fold (zlen l).
  assert (get_be_acc (acc * 256 + b) l `div` 256 ^ zlen l = acc * 256 + b) as ->.
  { symmetry. eapply (Z.div_unique _ _ _ (get_be_acc (acc * 256 + b) l - (acc * 256 + b) * 256 ^ zlen l)); lia. }
  rewrite Z.add_comm, Z.mod_add by lia. apply Z.mod_small. lia.
Qed.

Lemma put_get_be l n : bytes_ok l → length l = n → put_be n (get_be l) = l.
Proof. intros H <-. by apply put_get_be_acc. Qed.

#[global] Arguments put_be : simpl never.
#[global] Arguments get_be : simpl never.
#[global] Arguments slice : simpl never.
#[global] Arguments at_ : simpl never.
#[global] Arguments u8 : simpl never.
#[global] Arguments u16 : simpl never.
#[global] Arguments u32 : simpl never.
#[global] Arguments u64 : simpl never.
#[global] Arguments int64 : simpl never.
#[global] Arguments int32 : simpl never.

(** ** Lemmas: transition sequences *)

Lemma star_trans {S} (R : S → S → Prop) a b c : star R a b → star R b c → star R a c.
Proof. induction 1; eauto. Qed.

Lemma star_invariant {S} (R : S → S → Prop) (I : S → Prop) :
  (∀ s s', I s → R s s' → I s') → ∀ s s', star R s s' → I s → I s'.
Proof. intros HR s s' Hs. induction Hs; eauto. Qed.

(** A sequence of events that a partial transition function accepts is a run of
    any relation the function stays in. *)
Lemma foldl_steps {E S} (exec : E → S → option S) (R : S → S → Prop) (es : list E) (s s' : S) :
  (∀ e x y, exec e x = Some y → R x y) → foldl (λ s e, s ≫= exec e) (Some s) es = Some s' → rtc R s s'.
Proof.
  intros HR. revert s'. induction es as [|e es IH] using rev_ind; intros s' H; [injection H as <-; apply rtc_refl|].
  rewrite foldl_app in H. cbn in H. apply bind_Some in H as (t & Ht & H). eapply rtc_r; [exact (IH _ Ht)|]. by eapply HR.
Qed.
