(* ===== verification/L3Wire.v ===== *)
(** The layer-3 wire format: [src/internal/tunnel/l3/wire.go].

    The 13-byte header every datagram opens with, its encoder [put]/[bytes]
    and its parser [parseHeader]. The header is also the additional data of
    the AEAD, so the round trip holds in both directions: a datagram that
    parses is, byte for byte, the encoding of what was parsed. *)

From S2P Require Import Prelude.

Module Wire.

(** ** Message kinds *)

Definition typeInit : Z := 1.
Definition typeResp : Z := 2.
Definition typeData : Z := 3.
Definition typeProbe : Z := 4.
Definition typeProbeAck : Z := 5.

Definition headerLen : nat := 13.
Definition tagLen : nat := 16.
Definition dataOverhead : nat := headerLen + tagLen.

Inductive error : Type :=
| errShortPacket
| errBadKind.

Record header : Type := mkHeader {
  kind : Z;      (* byte *)
  session : Z;   (* uint32 *)
  counter : Z    (* uint64 *)
}.

(** The ranges the Go field types give. *)
Definition header_ok (h : header) : Prop :=
  0 ≤ kind h < 256 ∧ 0 ≤ session h < 2^32 ∧ 0 ≤ counter h < 2^64.

#[export] Instance header_eq_dec : EqDecision header.
Proof. solve_decision. Defined.

(** [put] writes the header into the first [headerLen] bytes of [dst]; its
    bounds check panics on a shorter one. *)
Definition put (h : header) (dst : list Z) : outcome (list Z) :=
  if (length dst <? headerLen)%nat then Panic
  else Ret (kind h :: put_be 4 (session h) ++ put_be 8 (counter h) ++ drop headerLen dst).

(** [bytes] is [put] into a fresh array, which is long enough. *)
Definition bytes (h : header) : list Z :=
  match put h (replicate headerLen 0) with
  | Ret b => b
  | Panic => []
  end.

Definition known_kind (k : Z) : bool :=
  (k =? typeInit) || (k =? typeResp) || (k =? typeData)
  || (k =? typeProbe) || (k =? typeProbeAck).

Definition parseHeader (buf : list Z) : result error (header * list Z) :=
  if (length buf <? headerLen)%nat then Err errShortPacket
  else
    let h := mkHeader (at_ buf 0) (get_be (slice buf 1 5)) (get_be (slice buf 5 13)) in
    if known_kind (kind h) then Ok (h, drop headerLen buf)
    else Err errBadKind.

(** ** Lemmas *)

Lemma bytes_eq h : bytes h = kind h :: put_be 4 (session h) ++ put_be 8 (counter h).
Proof. unfold bytes, put. cbn -[put_be]. by rewrite app_nil_r. Qed.

Lemma length_bytes h : length (bytes h) = headerLen.
Proof. rewrite bytes_eq. cbn -[put_be]. by rewrite length_app, !length_put_be. Qed.

Lemma bytes_bytes_ok h : header_ok h → bytes_ok (bytes h).
Proof.
  intros (Hk & _). rewrite bytes_eq. constructor; [done|].
  apply bytes_ok_app; auto with go.
Qed.
#[export] Hint Rewrite length_bytes : go.

#[global] Arguments bytes : simpl never.

(** The fields of a buffer split at the header's boundaries. *)
Lemma buf_fields (b : Z) (s c rest : list Z) :
  length s = 4%nat → length c = 8%nat →
  let buf := b :: s ++ c ++ rest in
  at_ buf 0 = b ∧ slice buf 1 5 = s ∧ slice buf 5 13 = c ∧ drop headerLen buf = rest.
Proof.
  intros Hs Hc buf. unfold buf, headerLen, slice, at_.
  do 4 (destruct s as [|? s]; [discriminate|]). destruct s; [|discriminate].
  do 8 (destruct c as [|? c]; [discriminate|]). destruct c; [|discriminate].
  by simpl.
Qed.

Lemma split_header (buf : list Z) :
  (headerLen ≤ length buf)%nat →
  ∃ b s c rest, buf = b :: s ++ c ++ rest ∧ length s = 4%nat ∧ length c = 8%nat.
Proof.
  intros H. destruct buf as [|b buf]; [simpl in H; unfold headerLen in H; lia|].
  exists b, (take 4 buf), (take 8 (drop 4 buf)), (drop 12 buf).
  simpl in H. unfold headerLen in H.
  rewrite !length_take, length_drop. split; [|lia].
  f_equal. rewrite <- (take_drop 4 buf) at 1. f_equal.
  rewrite <- (take_drop 8 (drop 4 buf)) at 1. by rewrite drop_drop.
Qed.

Lemma known_kind_spec k : known_kind k = true ↔ 1 ≤ k ≤ 5.
Proof.
  unfold known_kind, typeInit, typeResp, typeData, typeProbe, typeProbeAck.
  rewrite !orb_true_iff, !Z.eqb_eq. lia.
Qed.

(** Encoding then parsing, for any body behind the header. *)
Lemma parse_bytes h body :
  header_ok h → known_kind (kind h) = true → parseHeader (bytes h ++ body) = Ok (h, body).
Proof.
  intros (Hk & Hs & Hc) Hkind. unfold parseHeader.
  rewrite length_app, length_bytes.
  replace (headerLen + length body <? headerLen)%nat with false
    by (symmetry; apply Nat.ltb_ge; lia).
  rewrite bytes_eq. cbn [app]. rewrite <- app_assoc.
  destruct (buf_fields (kind h) (put_be 4 (session h)) (put_be 8 (counter h)) body)
    as (-> & -> & -> & ->); [apply length_put_be..|].
  rewrite !get_put_be_small by lia. destruct h; simpl in *. by rewrite Hkind.
Qed.

(** Parsing then encoding. *)
Lemma parse_inv buf h body :
  bytes_ok buf → parseHeader buf = Ok (h, body) →
  buf = bytes h ++ body ∧ header_ok h ∧ known_kind (kind h) = true.
Proof.
  unfold parseHeader. intros Hok. destruct (Nat.ltb_spec (length buf) headerLen); [done|].
  destruct (split_header buf) as (b & s & c & rest & -> & Hs & Hc); [done|].
  destruct (buf_fields b s c rest Hs Hc) as (-> & -> & -> & ->). cbn [kind].
  destruct (known_kind b) eqn:Hk; [|done]. intros [= <- <-].
  apply bytes_ok_cons in Hok as [Hb Hrest].
  apply bytes_ok_app in Hrest as [Hsok [Hcok _]%bytes_ok_app].
  pose proof (get_be_bound s Hsok) as Hsb. pose proof (get_be_bound c Hcok) as Hcb.
  unfold zlen in Hsb, Hcb. rewrite Hs in Hsb. rewrite Hc in Hcb.
  rewrite bytes_eq. cbn [kind session counter]. rewrite !put_get_be by done.
  cbn [app]. rewrite <- app_assoc. split_and!; try done; cbn [kind session counter]; lia.
Qed.

(** ** Properties *)

(** The wire header round-trips exactly. Every header with a known kind
    parses back from its encoding with the body that followed it, and every
    datagram [parseHeader] accepts is the encoding of what it returned, so
    the additional data the AEAD authenticates is the prefix that arrived. *)
Theorem parseHeader_roundtrip (buf : list Z) (h : header) (body : list Z) :
  bytes_ok buf → header_ok h →
  parseHeader buf = Ok (h, body) ↔
  buf = bytes h ++ body ∧ known_kind (kind h) = true.
Proof.
  intros Hok Hh. split.
  - intros H. by destruct (parse_inv buf h body Hok H) as (? & ? & ?).
  - intros [-> Hk]. by apply parse_bytes.
Qed.

Lemma parseHeader_roundtrip_witness :
  let h := mkHeader typeData 0xdeadbeef 258 in
  parseHeader (bytes h ++ [7; 8]) = Ok (h, [7; 8]) ↔
  bytes h ++ [7; 8] = bytes h ++ [7; 8] ∧ known_kind typeData = true.
Proof.
  apply (parseHeader_roundtrip (bytes (mkHeader typeData 0xdeadbeef 258) ++ [7; 8])
           (mkHeader typeData 0xdeadbeef 258) [7; 8]).
  - by apply (bool_decide_unpack _).
  - unfold header_ok, typeData; cbn; lia.
Defined.

End Wire.
