(* ===== verification/L3Replay.v ===== *)
(** The anti-replay window: [src/internal/tunnel/l3/replay.go].

    Module [Replay] models the 2048-bit ring bitmap operation by operation.
    Module [ReplaySpec] is what the window promises: a set of the counters
    committed and the highest of them. The two are related by [rep], and
    [accept] and [commit] refine their specifications under it. *)

From S2P Require Import Prelude.

Module Replay.

Definition replayWindowBits : Z := 2048.
Definition replayWords : nat := 32.

(** The Go zero value is [zero_window]. *)
Record replayWindow : Type := mkWindow {
  max : Z;            (* uint64 *)
  seeded : bool;
  bitmap : list Z     (* [replayWords]uint64 *)
}.

Definition zero_bitmap : list Z := replicate replayWords 0.
Definition zero_window : replayWindow := mkWindow 0 false zero_bitmap.

(** [slot] maps a counter onto its word and its bit in the ring. *)
Definition slot (counter : Z) : nat * Z :=
  let idx := counter `mod` replayWindowBits in
  (Z.to_nat (idx `div` 64), Z.shiftl 1 (idx `mod` 64)).

(** [w.bitmap[word] |= bit] and [w.bitmap[word] &^= bit]. *)
Definition set_slot (bm : list Z) (counter : Z) : list Z :=
  let '(word, bit) := slot counter in <[word := Z.lor (at_ bm word) bit]> bm.
Definition clear_slot (bm : list Z) (counter : Z) : list Z :=
  let '(word, bit) := slot counter in <[word := Z.ldiff (at_ bm word) bit]> bm.

Definition accept (w : replayWindow) (counter : Z) : bool :=
  if negb (seeded w) then true
  else if max w <? counter then true
  else if replayWindowBits <=? max w - counter then false
  else let '(word, bit) := slot counter in Z.land (at_ (bitmap w) word) bit =? 0.

(** [for c := w.max + 1; c <= counter; c++]: the loop variable is a uint64, so
    its increment wraps. [None] is "still running when the fuel ran out". *)
Fixpoint clear_loop (fuel : nat) (c counter : Z) (bm : list Z) : option (list Z) :=
  match fuel with
  | O => None
  | S fuel =>
      if c <=? counter then clear_loop fuel (u64 (c + 1)) counter (clear_slot bm c)
      else Some bm
  end.

Definition commit (fuel : nat) (w : replayWindow) (counter : Z) : option replayWindow :=
  if negb (seeded w) then Some (mkWindow counter true (set_slot (bitmap w) counter))
  else if max w <? counter then
    bm ← (if replayWindowBits <=? counter - max w then Some zero_bitmap
          else clear_loop fuel (u64 (max w + 1)) counter (bitmap w));
    Some (mkWindow counter true (set_slot bm counter))
  else Some (mkWindow (max w) true (set_slot (bitmap w) counter)).

(** Fuel that is enough for every committed counter below the top of the
    range: the window is 2048 wide, and one more step sees the exit test. *)
Definition commit_fuel : nat := 2049.

(** ** The abstract specification *)

Module ReplaySpec.

(** The counters committed so far and the highest one. *)
Record t : Type := mk { hi : option Z; seen : gset Z }.

Definition init : t := mk None ∅.

(** A counter is acceptable when it is ahead of everything committed, or less
    than a window behind the highest and not committed before. *)
Definition accept (s : t) (c : Z) : bool :=
  match hi s with
  | None => true
  | Some m => bool_decide (m < c ∨ (m - c < 2048 ∧ c ∉ seen s))
  end.

Definition commit (s : t) (c : Z) : t :=
  mk (Some (match hi s with None => c | Some m => Z.max m c end)) ({[c]} ∪ seen s).

End ReplaySpec.

(** ** The bit of a counter *)

Definition test (bm : list Z) (c : Z) : bool :=
  let idx := c `mod` replayWindowBits in
  Z.testbit (at_ bm (Z.to_nat (idx `div` 64))) (idx `mod` 64).

(** The representation: the ring holds exactly the committed counters of the
    last 2048 up to [max]. *)
Record rep (w : replayWindow) (s : ReplaySpec.t) : Prop := {
  rep_len : length (bitmap w) = replayWords;
  rep_hi : ReplaySpec.hi s = if seeded w then Some (max w) else None;
  rep_fresh : seeded w = false → ReplaySpec.seen s = ∅ ∧ bitmap w = zero_bitmap;
  rep_max : 0 ≤ max w < 2^64;
  rep_seen : ∀ c, c ∈ ReplaySpec.seen s → c ≤ max w;
  rep_bits : seeded w = true →
    ∀ c, max w - 2048 < c ≤ max w → test (bitmap w) c = bool_decide (c ∈ ReplaySpec.seen s)
}.

(** ** Lemmas: words and bits *)

Lemma slot_eq c :
  slot c = (Z.to_nat ((c `mod` 2048) `div` 64), Z.shiftl 1 ((c `mod` 2048) `mod` 64)).
Proof. reflexivity. Qed.

Lemma slot_word_bound c : (Z.to_nat ((c `mod` 2048) `div` 64) < 32)%nat.
Proof.
  pose proof (Z.mod_pos_bound c 2048 ltac:(lia)).
  assert ((c `mod` 2048) `div` 64 < 32) by (apply Z.div_lt_upper_bound; lia). lia.
Qed.

Lemma same_slot c d :
  Z.to_nat ((c `mod` 2048) `div` 64) = Z.to_nat ((d `mod` 2048) `div` 64) →
  (c `mod` 2048) `mod` 64 = (d `mod` 2048) `mod` 64 → c `mod` 2048 = d `mod` 2048.
Proof.
  pose proof (Z.mod_pos_bound c 2048 ltac:(lia)). pose proof (Z.mod_pos_bound d 2048 ltac:(lia)).
  intros Hw Hb.
  assert (0 ≤ (c `mod` 2048) `div` 64) by (apply Z.div_pos; lia).
  assert (0 ≤ (d `mod` 2048) `div` 64) by (apply Z.div_pos; lia).
  pose proof (Z.div_mod (c `mod` 2048) 64). pose proof (Z.div_mod (d `mod` 2048) 64). lia.
Qed.

(** Two counters less than a window apart share a slot only if equal. *)
Lemma slot_inj c d : c `mod` 2048 = d `mod` 2048 → -2048 < c - d < 2048 → c = d.
Proof.
  intros Hm Hd. pose proof (Z.div_mod c 2048). pose proof (Z.div_mod d 2048). lia.
Qed.

Lemma testbit_one k i : 0 ≤ k → 0 ≤ i → Z.testbit (Z.shiftl 1 k) i = (i =? k).
Proof.
  intros. rewrite Z.shiftl_spec by lia.
  destruct (Z.eqb_spec i k) as [->|].
  - by rewrite Z.sub_diag.
  - destruct (Z.ltb_spec i k).
    + by rewrite Z.testbit_neg_r by lia.
    + apply Z.bits_above_log2; simpl; lia.
Qed.

Lemma land_bit_zero v k : 0 ≤ k → (Z.land v (Z.shiftl 1 k) =? 0) = negb (Z.testbit v k).
Proof.
  intros Hk. destruct (Z.testbit v k) eqn:E; simpl.
  - apply Z.eqb_neq. intros Hz.
    assert (Z.testbit (Z.land v (Z.shiftl 1 k)) k = false) as Hb by (by rewrite Hz, Z.bits_0).
    rewrite Z.land_spec, E, testbit_one, Z.eqb_refl in Hb by lia. done.
  - apply Z.eqb_eq. apply Z.bits_inj'. intros i Hi.
    rewrite Z.land_spec, Z.bits_0, testbit_one by lia.
    destruct (Z.eqb_spec i k) as [->|]; [by rewrite E|apply andb_false_r].
Qed.

Lemma at_insert (bm : list Z) i j v :
  (i < length bm)%nat → at_ (<[i := v]> bm) j = if decide (i = j) then v else at_ bm j.
Proof.
  intros Hi. unfold at_. case_decide as E; [subst|].
  - by rewrite list_lookup_insert_eq.
  - by rewrite list_lookup_insert_ne.
Qed.

(** Updating one word through its bit [k], whatever the word operation. *)
Lemma test_update (bm : list Z) c d v :
  length bm = replayWords →
  (∀ i, 0 ≤ i → i ≠ (c `mod` 2048) `mod` 64 →
        Z.testbit v i = Z.testbit (at_ bm (Z.to_nat ((c `mod` 2048) `div` 64))) i) →
  test (<[Z.to_nat ((c `mod` 2048) `div` 64) := v]> bm) d =
    if decide (c `mod` 2048 = d `mod` 2048) then Z.testbit v ((c `mod` 2048) `mod` 64)
    else test bm d.
Proof.
  intros Hlen Hv. unfold test, replayWindowBits.
  rewrite at_insert by (rewrite Hlen; apply slot_word_bound).
  case_decide as Hw; case_decide as Hc.
  - by rewrite Hc.
  - rewrite Hv; [by rewrite Hw|apply Z.mod_pos_bound; lia|].
    intros Hb. by apply Hc, same_slot.
  - by rewrite Hc in Hw.
  - done.
Qed.

Lemma test_set_slot bm c d :
  length bm = replayWords →
  test (set_slot bm c) d = if decide (c `mod` 2048 = d `mod` 2048) then true else test bm d.
Proof.
  intros Hlen. unfold set_slot. rewrite slot_eq.
  pose proof (Z.mod_pos_bound (c `mod` 2048) 64 ltac:(lia)).
  rewrite test_update; [|done|].
  - rewrite Z.lor_spec, testbit_one, Z.eqb_refl by lia. by rewrite orb_true_r.
  - intros i Hi Hne. rewrite Z.lor_spec, testbit_one by lia.
    by rewrite (proj2 (Z.eqb_neq _ _) Hne), orb_false_r.
Qed.

Lemma test_clear_slot bm c d :
  length bm = replayWords →
  test (clear_slot bm c) d = if decide (c `mod` 2048 = d `mod` 2048) then false else test bm d.
Proof.
  intros Hlen. unfold clear_slot. rewrite slot_eq.
  pose proof (Z.mod_pos_bound (c `mod` 2048) 64 ltac:(lia)).
  rewrite test_update; [|done|].
  - rewrite Z.ldiff_spec, testbit_one, Z.eqb_refl by lia. by rewrite andb_false_r.
  - intros i Hi Hne. rewrite Z.ldiff_spec, testbit_one by lia.
    by rewrite (proj2 (Z.eqb_neq _ _) Hne), andb_true_r.
Qed.

Lemma length_set_slot bm c : length (set_slot bm c) = length bm.
Proof. unfold set_slot. rewrite slot_eq. apply length_insert. Qed.

Lemma length_clear_slot bm c : length (clear_slot bm c) = length bm.
Proof. unfold clear_slot. rewrite slot_eq. apply length_insert. Qed.

Lemma test_zero c : test zero_bitmap c = false.
Proof.
  unfold test, zero_bitmap, at_. destruct (replicate _ _ !! _) as [v|] eqn:E; simpl.
  - apply lookup_replicate in E as [-> _]. apply Z.bits_0.
  - apply Z.bits_0.
Qed.
#[global] Opaque set_slot clear_slot test.

(** ** Lemmas: the clearing loop *)

Lemma mod_pred x : x `mod` 2048 ≠ 0 → (x - 1) `mod` 2048 = x `mod` 2048 - 1.
Proof.
  intros Hx. pose proof (Z.mod_pos_bound x 2048 ltac:(lia)).
  symmetry. apply (Z.mod_unique _ _ (x `div` 2048)); [lia|].
  pose proof (Z.div_mod x 2048). lia.
Qed.

(** Below the top of the range the loop ends, and what it clears is exactly
    the slots of the counters it walked over. *)
Lemma clear_loop_spec fuel a counter bm :
  length bm = replayWords → 0 ≤ a ≤ counter + 1 → counter < 2^64 - 1 →
  counter - a + 1 < Z.of_nat fuel →
  ∃ bm', clear_loop fuel a counter bm = Some bm' ∧ length bm' = replayWords ∧
    ∀ d, test bm' d = if decide ((d - a) `mod` 2048 ≤ counter - a) then false else test bm d.
Proof.
  revert a bm. induction fuel as [|fuel IH]; intros a bm Hlen Ha Hc Hf; [lia|].
  cbn [clear_loop]. destruct (Z.leb_spec a counter).
  - rewrite u64_small by lia.
    destruct (IH (a + 1) (clear_slot bm a)) as (bm' & -> & Hl & Hd);
      [by rewrite length_clear_slot|lia..|].
    exists bm'. split_and!; [done..|]. intros d. rewrite Hd, test_clear_slot by done.
    assert (a `mod` 2048 = d `mod` 2048 ↔ (d - a) `mod` 2048 = 0) as Hiff.
    { split; intros E.
      - by rewrite Zminus_mod, E, Z.sub_diag.
      - rewrite <- (Z.sub_add a d) at 1. rewrite <- (Z.mod_mod (d - a + a)) by lia.
        rewrite <- Zplus_mod_idemp_l, E, Z.add_0_l. by rewrite Z.mod_mod by lia. }
    destruct (decide ((d - a) `mod` 2048 = 0)) as [E|E].
    + rewrite E. rewrite (decide_True (P := 0 ≤ _)) by lia.
      rewrite (decide_True (P := _ = _)) by (by apply Hiff). by case_decide.
    + rewrite (decide_False (P := _ = _)) by (by rewrite Hiff).
      replace (d - (a + 1)) with (d - a - 1) by lia. rewrite mod_pred by done.
      repeat case_decide; auto; lia.
  - exists bm. split_and!; [done..|]. intros d.
    rewrite decide_False; [done|]. pose proof (Z.mod_pos_bound (d - a) 2048 ltac:(lia)). lia.
Qed.

(** At the very top of the range it does not: incrementing past the largest
    uint64 wraps to zero, so the exit test never fails. *)
Lemma clear_loop_top fuel a bm : 0 ≤ a < 2^64 → clear_loop fuel a (2^64 - 1) bm = None.
Proof.
  revert a bm. induction fuel as [|fuel IH]; intros a bm Ha; [done|].
  cbn [clear_loop]. zbool. apply IH, u64_range.
Qed.

(** ** Lemmas: the representation *)

Lemma rep_zero : rep zero_window ReplaySpec.init.
Proof. by constructor. Qed.

Lemma commit_eq_seeded w c bm :
  seeded w = true →
  (if max w <? c then
     if replayWindowBits <=? c - max w then Some zero_bitmap
     else clear_loop commit_fuel (u64 (max w + 1)) c (bitmap w)
   else Some (bitmap w)) = Some bm →
  commit commit_fuel w c = Some (mkWindow (Z.max (max w) c) true (set_slot bm c)).
Proof.
  intros Hs Hbm. unfold commit. rewrite Hs. cbn [negb].
  destruct (Z.ltb_spec (max w) c).
  - rewrite Hbm. cbn. by rewrite Z.max_r by lia.
  - injection Hbm as <-. by rewrite Z.max_l by lia.
Qed.

Lemma elem_of_added (c d : Z) (S : gset Z) : d ∈ {[c]} ∪ S ↔ d = c ∨ d ∈ S.
Proof. by rewrite elem_of_union, elem_of_singleton. Qed.

(** What the ring holds just before the new counter's bit is set: the
    committed counters still inside the window that ends at the new maximum. *)
Lemma slide w s c :
  rep w s → seeded w = true → 0 ≤ c < 2^64 - 1 →
  ∃ bm, (if max w <? c then
           if replayWindowBits <=? c - max w then Some zero_bitmap
           else clear_loop commit_fuel (u64 (max w + 1)) c (bitmap w)
         else Some (bitmap w)) = Some bm ∧ length bm = replayWords ∧
    ∀ d, Z.max (max w) c - 2048 < d ≤ Z.max (max w) c →
         test bm d = bool_decide (d ∈ ReplaySpec.seen s).
Proof.
  intros [Hlen Hhi Hfresh Hmax Hseen Hbits] Hs Hc. specialize (Hbits Hs).
  destruct (Z.ltb_spec (max w) c); cycle 1.
  { exists (bitmap w). split_and!; [done..|]. rewrite Z.max_l by lia. done. }
  rewrite Z.max_r by lia. unfold replayWindowBits.
  assert (∀ d, max w < d → bool_decide (d ∈ ReplaySpec.seen s) = false) as Habove.
  { intros d Hd. apply bool_decide_eq_false. intros Hin%Hseen. lia. }
  destruct (Z.leb_spec 2048 (c - max w)).
  - exists zero_bitmap. split_and!; [done..|]. intros d Hd.
    rewrite test_zero, Habove by lia. done.
  - rewrite u64_small by lia.
    destruct (clear_loop_spec commit_fuel (max w + 1) c (bitmap w)) as (bm & Hbm & Hl & Ht);
      [done|lia..|unfold commit_fuel; lia|].
    exists bm. split_and!; [done..|]. intros d Hd. rewrite Ht.
    destruct (Z.leb_spec d (max w)).
    + rewrite (decide_False (P := _ ≤ _)); [apply Hbits; lia|].
      rewrite <- (Z.mod_unique (d - (max w + 1)) 2048 (-1) (d - max w + 2047)) by lia. lia.
    + rewrite Z.mod_small by lia. rewrite decide_True by lia. by rewrite Habove by lia.
Qed.

Lemma accept_rep w s c : rep w s → accept w c = ReplaySpec.accept s c.
Proof.
  intros [Hlen Hhi Hfresh Hmax Hseen Hbits]. unfold accept, ReplaySpec.accept. rewrite Hhi.
  destruct (seeded w) eqn:Hs; [|done]. cbn [negb]. specialize (Hbits eq_refl).
  destruct (Z.ltb_spec (max w) c); [symmetry; apply bool_decide_eq_true; lia|].
  unfold replayWindowBits. destruct (Z.leb_spec 2048 (max w - c)).
  { symmetry. apply bool_decide_eq_false. lia. }
  rewrite slot_eq, land_bit_zero by (apply Z.mod_pos_bound; lia).
  change (Z.testbit _ _) with (test (bitmap w) c). rewrite Hbits by lia.
  rewrite <- bool_decide_not. apply bool_decide_ext. intuition lia.
Qed.

Lemma commit_rep w s c :
  rep w s → 0 ≤ c < 2^64 - 1 → accept w c = true →
  ∃ w', commit commit_fuel w c = Some w' ∧ rep w' (ReplaySpec.commit s c).
Proof.
  intros Hrep Hc Hacc. destruct (seeded w) eqn:Hs.
  - destruct (slide w s c Hrep Hs Hc) as (bm & Hbm & Hl & Ht).
    pose proof Hrep as [Hlen Hhi Hfresh Hmax Hseen Hbits].
    eexists. split; [by eapply commit_eq_seeded|]. rewrite Hs in Hhi.
    rewrite (accept_rep w s c Hrep) in Hacc. unfold ReplaySpec.accept in Hacc.
    unfold ReplaySpec.commit. rewrite Hhi in *. apply bool_decide_eq_true in Hacc.
    constructor; cbn [bitmap max seeded ReplaySpec.hi ReplaySpec.seen]; try done.
    + by rewrite length_set_slot.
    + lia.
    + intros d [->|Hd%Hseen]%elem_of_added; lia.
    + intros _ d Hd. rewrite test_set_slot by done. case_decide as E.
      * apply (slot_inj c d) in E; [|lia]. subst d.
        symmetry. apply bool_decide_eq_true, elem_of_added. auto.
      * rewrite Ht by lia. apply bool_decide_ext. rewrite elem_of_added.
        split; [auto|]. by intros [->|].
  - pose proof Hrep as [Hlen Hhi Hfresh Hmax Hseen Hbits].
    destruct (Hfresh Hs) as [Hempty Hz]. rewrite Hs in Hhi.
    unfold commit. rewrite Hs. eexists. split; [done|].
    unfold ReplaySpec.commit. rewrite Hhi, Hempty.
    constructor; cbn [bitmap max seeded ReplaySpec.hi ReplaySpec.seen negb]; try done.
    + by rewrite length_set_slot.
    + lia.
    + intros d [->|[]%not_elem_of_empty]%elem_of_added; lia.
    + intros _ d Hd. rewrite test_set_slot by done. case_decide as E.
      * apply (slot_inj c d) in E; [|lia]. subst d.
        symmetry. apply bool_decide_eq_true, elem_of_added. auto.
      * rewrite Hz, test_zero. symmetry. apply bool_decide_eq_false.
        by intros [->|[]%not_elem_of_empty]%elem_of_added.
Qed.

(** ** Properties *)

(** C6: the replay window refines its specification. Whatever a window has
    been through, [accept] answers exactly "ahead of everything committed, or
    less than 2048 behind the highest and never committed", and [commit] of
    any accepted counter below the top of the uint64 range terminates (2049
    steps of its clearing loop are always enough) and records exactly that
    counter. *)
Theorem replay_refines (w : replayWindow) (s : ReplaySpec.t) (c : Z) :
  rep w s → 0 ≤ c < 2^64 - 1 →
  accept w c = ReplaySpec.accept s c ∧
  (accept w c = true →
   ∃ w', commit commit_fuel w c = Some w' ∧ rep w' (ReplaySpec.commit s c)).
Proof. intros Hrep Hc. split; [by apply accept_rep|by apply commit_rep]. Qed.

Lemma replay_refines_witness :
  accept zero_window 5 = ReplaySpec.accept ReplaySpec.init 5 ∧
  (accept zero_window 5 = true →
   ∃ w', commit commit_fuel zero_window 5 = Some w' ∧
         rep w' (ReplaySpec.commit ReplaySpec.init 5)).
Proof. apply (replay_refines zero_window ReplaySpec.init 5); [apply rep_zero|lia]. Defined.

(** Committing the largest uint64 counter from inside the window never
    terminates: the clearing loop's variable wraps to zero and its exit test
    [c <= counter] holds for ever, whatever the fuel. *)
Theorem commit_top_diverges (w : replayWindow) (fuel : nat) :
  seeded w = true → 2^64 - 1 - 2048 < max w < 2^64 - 1 →
  commit fuel w (2^64 - 1) = None.
Proof.
  intros Hs Hm. unfold commit. rewrite Hs. cbn [negb]. unfold replayWindowBits. zbool.
  rewrite clear_loop_top; [done|apply u64_range].
Qed.

Lemma commit_top_diverges_witness :
  commit 5000 (mkWindow (2^64 - 10) true (set_slot zero_bitmap (2^64 - 10))) (2^64 - 1) = None.
Proof. apply commit_top_diverges; simpl; [reflexivity|lia]. Defined.

End Replay.
