(* ===== verification/GoStr.v ===== *)
(** The parts of Go's [strings] and [strconv] the program uses.

    A Go string is a byte string; here a Rocq [string], whose characters are
    bytes. [TrimSpace] recognises the UTF-8 encodings of every rune
    [unicode.IsSpace] accepts; [ToLower] maps the ASCII letters and the two
    other runes whose lower case is an ASCII letter, and leaves the rest of a
    string as it is. *)

From S2P Require Import Prelude.
From Stdlib Require Import Ascii String.
Open Scope string_scope.
Open Scope Z_scope.

#[global] Arguments String.append : simpl nomatch.

Module GoStr.

(** ** strconv *)

Definition digit_char (d : Z) : ascii := ascii_of_nat (Z.to_nat (48 + d)).

Definition digit_value (c : ascii) : option Z :=
  let n := Z.of_nat (nat_of_ascii c) in
  if (48 <=? n) && (n <=? 57) then Some (n - 48) else None.

(** The decimal digits of [n] in front of [acc]. *)
Fixpoint format_digits (fuel : nat) (n : Z) (acc : string) : string :=
  match fuel with
  | O => acc
  | S fuel =>
      let acc := String (digit_char (n `mod` 10)) acc in
      if n `div` 10 =? 0 then acc else format_digits fuel (n `div` 10) acc
  end.

(** [strconv.FormatUint(n, 10)]: a uint64 has at most twenty digits. *)
Definition FormatUint (n : Z) : string := format_digits 20 n "".

(** [strconv.Itoa]. *)
Definition Itoa (n : Z) : string :=
  if n <? 0 then String "-" (FormatUint (- n)) else FormatUint n.

(** A run of decimal digits, as an unbounded number. *)
Fixpoint parse_digits (acc : Z) (s : string) : option Z :=
  match s with
  | EmptyString => Some acc
  | String c s =>
      match digit_value c with
      | Some d => parse_digits (acc * 10 + d) s
      | None => None
      end
  end.

(** [strconv.ParseUint(s, 10, 64)]; [None] is its error. *)
Definition ParseUint (s : string) : option Z :=
  match s with
  | EmptyString => None
  | _ =>
      match parse_digits 0 s with
      | Some n => if n <? 2^64 then Some n else None
      | None => None
      end
  end.

(** [strconv.Atoi]: an optional sign, then digits, in the range of [int]. *)
Definition Atoi (s : string) : option Z :=
  let '(neg, rest) :=
    match s with
    | String "-" r => (true, r)
    | String "+" r => (false, r)
    | _ => (false, s)
    end in
  match ParseUint rest with
  | Some n =>
      if neg then (if n <=? 2^63 then Some (- n) else None)
      else (if n <? 2^63 then Some n else None)
  | None => None
  end.

(** ** strings *)

(** [strings.CutPrefix]: the rest, when [s] starts with [p]. *)
Fixpoint strip_prefix (p s : string) : option string :=
  match p, s with
  | EmptyString, _ => Some s
  | String a p, String b s => if Ascii.eqb a b then strip_prefix p s else None
  | String _ _, EmptyString => None
  end.

Definition HasPrefix (s p : string) : bool :=
  match strip_prefix p s with Some _ => true | None => false end.

(** [strings.HasSuffix]. *)
Definition HasSuffix (s p : string) : bool :=
  (length p <=? length s)%nat && String.eqb (substring (length s - length p) (length p) s) p.

(** [strings.TrimPrefix]. *)
Definition TrimPrefix (s p : string) : string :=
  match strip_prefix p s with Some rest => rest | None => s end.

(** [strings.Cut] around the first occurrence of [sep]; [None] is [found] false. *)
Fixpoint Cut (s sep : string) : option (string * string) :=
  match strip_prefix sep s with
  | Some rest => Some ("", rest)
  | None =>
      match s with
      | EmptyString => None
      | String c s =>
          match Cut s sep with
          | Some (a, b) => Some (String c a, b)
          | None => None
          end
      end
  end.

(** [strings.Contains]. *)
Definition Contains (s sub : string) : bool := match Cut s sub with Some _ => true | None => false end.

Fixpoint contains_char (c : ascii) (s : string) : bool :=
  match s with
  | EmptyString => false
  | String a s => Ascii.eqb a c || contains_char c s
  end.

(** [strings.Count] of a one-byte substring. *)
Fixpoint count_char (c : ascii) (s : string) : nat :=
  match s with
  | EmptyString => 0
  | String a s => (if Ascii.eqb a c then 1 else 0) + count_char c s
  end.

(** [strings.Split] on a one-byte separator: never empty. *)
Fixpoint Split (s : string) (sep : ascii) : list string :=
  match s with
  | EmptyString => [""]
  | String a s =>
      if Ascii.eqb a sep then "" :: Split s sep
      else match Split s sep with
           | [] => [String a ""]
           | x :: xs => String a x :: xs
           end
  end.

(** [strings.Join]. *)
Fixpoint Join (l : list string) (sep : string) : string :=
  match l with
  | [] => ""
  | [x] => x
  | x :: l => x +:+ sep +:+ Join l sep
  end.

(** The text before and after the last occurrence of a byte. *)
Fixpoint cut_last (s : string) (c : ascii) : option (string * string) :=
  match s with
  | EmptyString => None
  | String a s =>
      match cut_last s c with
      | Some (x, y) => Some (String a x, y)
      | None => if Ascii.eqb a c then Some ("", s) else None
      end
  end.

(** UTF-8 of the runes [unicode.IsSpace] accepts. *)
Definition chars (l : list Z) : string :=
  string_of_list_ascii (map (λ z, ascii_of_nat (Z.to_nat z)) l).
Definition spaces : list string :=
  map chars
    ([[9]; [10]; [11]; [12]; [13]; [32]; [194; 133]; [194; 160]; [225; 154; 128]]
     ++ map (λ k, [226; 128; k]) [128; 129; 130; 131; 132; 133; 134; 135; 136; 137; 138; 168; 169; 175]
     ++ [[226; 129; 159]; [227; 128; 128]])%list.

Fixpoint strip_any (ps : list string) (s : string) : option string :=
  match ps with
  | [] => None
  | p :: ps => match strip_prefix p s with Some r => Some r | None => strip_any ps s end
  end.

(** Drop leading encodings of [ps]; each step drops at least one byte, so the
    length is fuel enough. *)
Fixpoint trim_with (ps : list string) (fuel : nat) (s : string) : string :=
  match fuel with
  | O => s
  | S fuel => match strip_any ps s with Some r => trim_with ps fuel r | None => s end
  end.

(** [strings.Fields]; each step drops at least one byte. *)
Fixpoint fields (fuel : nat) (acc s : string) : list string :=
  let flush := if String.eqb acc "" then [] else [acc] in
  match fuel with
  | O => flush
  | S fuel =>
      match strip_any spaces s with
      | Some r => flush ++ fields fuel "" r
      | None => match s with String c t => fields fuel (acc +:+ String c "") t | "" => flush end
      end
  end.

Definition Fields (s : string) : list string := fields (S (String.length s)) "" s.

Definition rev_string (s : string) : string :=
  string_of_list_ascii (rev (list_ascii_of_string s)).

(** [strings.TrimSpace]. *)
Definition TrimSpace (s : string) : string :=
  let s := trim_with spaces (String.length s) s in
  rev_string (trim_with (map rev_string spaces) (String.length s) (rev_string s)).

(** [strings.ToLower]; see the head of the file. *)
Fixpoint ToLower (s : string) : string :=
  match s with
  | EmptyString => ""
  | String a s' =>
      let n := Z.of_nat (nat_of_ascii a) in
      if (65 <=? n) && (n <=? 90) then String (ascii_of_nat (Z.to_nat (n + 32))) (ToLower s')
      else match n, s' with
           | 196, String "176" r => String "i" (ToLower r)              (* U+0130 *)
           | 226, String "132" (String "170" r) => String "k" (ToLower r) (* U+212A *)
           | _, _ => String a (ToLower s')
           end
  end.

(** The case folding of [strings.EqualFold]; two strings are compared by it exactly
    as Go compares them when one of them is ASCII. *)
Fixpoint fold_case (s : string) : string :=
  match s with
  | EmptyString => ""
  | String a s' =>
      let n := Z.of_nat (nat_of_ascii a) in
      if (65 <=? n) && (n <=? 90) then String (ascii_of_nat (Z.to_nat (n + 32))) (fold_case s')
      else match n, s' with
           | 197, String "191" r => String "s" (fold_case r)              (* U+017F *)
           | 226, String "132" (String "170" r) => String "k" (fold_case r) (* U+212A *)
           | _, _ => String a (fold_case s')
           end
  end.

Definition EqualFold (s t : string) : bool := String.eqb (fold_case s) (fold_case t).

(** [[]byte(s)] and [string(b)]. *)
Definition to_bytes (s : string) : list Z :=
  map (λ c, Z.of_nat (nat_of_ascii c)) (list_ascii_of_string s).
Definition of_bytes (l : list Z) : string := chars l.

(** ** Lemmas: decimal numbers *)

Definition all_chars (P : ascii → bool) (s : string) : Prop :=
  Forall (λ c, P c = true) (list_ascii_of_string s).

Definition is_digit (c : ascii) : bool := match digit_value c with Some _ => true | None => false end.

Lemma digit_value_char d : 0 ≤ d < 10 → digit_value (digit_char d) = Some d.
Proof.
  intros. assert (d ∈ [0;1;2;3;4;5;6;7;8;9]) as H' by (rewrite !elem_of_cons; lia).
  repeat (apply elem_of_cons in H' as [->|H']; [reflexivity|]). by apply elem_of_nil in H'.
Qed.

Lemma parse_format_digits fuel n acc a :
  0 ≤ n < 10 ^ Z.of_nat fuel → (0 < fuel)%nat →
  ∃ k, 0 ≤ k ∧ parse_digits a (format_digits fuel n acc) = parse_digits (a * 10 ^ k + n) acc.
Proof.
  revert n acc a. induction fuel as [|fuel IH]; intros n acc a Hn Hf; [lia|].
  cbn [format_digits]. rewrite Nat2Z.inj_succ, Z.pow_succ_r in Hn by lia.
  pose proof (Z.div_mod n 10 ltac:(lia)) as Hdm.
  pose proof (Z.mod_pos_bound n 10 ltac:(lia)) as Hm.
  destruct (Z.eqb_spec (n `div` 10) 0) as [E|E].
  - exists 1. split; [lia|]. cbn [parse_digits]. rewrite digit_value_char by done.
    f_equal. lia.
  - destruct fuel as [|fuel]; [simpl in Hn; lia|].
    destruct (IH (n `div` 10) (String (digit_char (n `mod` 10)) acc) a) as (k & Hk & ->);
      [|lia|].
    { split; [apply Z.div_pos; lia|]. apply Z.div_lt_upper_bound; lia. }
    exists (k + 1). split; [lia|]. cbn [parse_digits]. rewrite digit_value_char by done.
    f_equal. rewrite Z.pow_add_r by lia. lia.
Qed.

Lemma format_digits_cons fuel n acc :
  (0 < fuel)%nat → ∃ c s, format_digits fuel n acc = String c s.
Proof.
  revert n acc. induction fuel as [|fuel IH]; intros n acc Hf; [lia|].
  cbn [format_digits]. destruct (_ =? 0); [by do 2 eexists|].
  destruct fuel; [by do 2 eexists|]. apply IH. lia.
Qed.

Lemma all_chars_cons P c s : all_chars P (String c s) ↔ P c = true ∧ all_chars P s.
Proof. unfold all_chars. simpl. by rewrite Forall_cons. Qed.

Lemma list_ascii_app s1 s2 :
  list_ascii_of_string (s1 +:+ s2) = (list_ascii_of_string s1 ++ list_ascii_of_string s2)%list.
Proof. induction s1 as [|c s1 IH]; [done|]. cbn. by rewrite IH. Qed.

Lemma all_chars_app P s1 s2 : all_chars P (s1 +:+ s2) ↔ all_chars P s1 ∧ all_chars P s2.
Proof.
  unfold all_chars. by rewrite list_ascii_app, Forall_app.
Qed.

Lemma format_digits_all fuel n acc :
  0 ≤ n → all_chars is_digit acc → all_chars is_digit (format_digits fuel n acc).
Proof.
  revert n acc. induction fuel as [|fuel IH]; intros n acc Hn Hacc; [done|].
  cbn [format_digits].
  assert (all_chars is_digit (String (digit_char (n `mod` 10)) acc)).
  { apply all_chars_cons. split; [|done]. unfold is_digit.
    rewrite digit_value_char; [done|apply Z.mod_pos_bound; lia]. }
  destruct (_ =? 0); [done|]. apply IH; [apply Z.div_pos; lia|done].
Qed.

Lemma FormatUint_digits n : 0 ≤ n → all_chars is_digit (FormatUint n).
Proof. intros. apply format_digits_all; [done|constructor]. Qed.

Lemma FormatUint_cons n : ∃ c s, FormatUint n = String c s.
Proof. apply format_digits_cons. lia. Qed.

Lemma ParseUint_FormatUint n : 0 ≤ n < 2^64 → ParseUint (FormatUint n) = Some n.
Proof.
  intros Hn. unfold ParseUint. destruct (FormatUint_cons n) as (c & s & E). rewrite E, <- E.
  destruct (parse_format_digits 20 n "" 0) as (k & _ & Hp); [lia..|].
  unfold FormatUint. rewrite Hp. cbn [parse_digits]. rewrite Z.mul_0_l, Z.add_0_l. by zbool.
Qed.

(** A number formatted without its sign starts with a digit, so [Atoi] reads
    no sign off it. *)
Lemma Atoi_FormatUint n : 0 ≤ n < 2^63 → Atoi (FormatUint n) = Some n.
Proof.
  intros Hn. unfold Atoi. pose proof (FormatUint_digits n ltac:(lia)) as Hd.
  destruct (FormatUint_cons n) as (c & s & E). rewrite E in *.
  apply all_chars_cons in Hd as [Hc _].
  assert (match String c s with
          | String "-" r => (true, r) | String "+" r => (false, r) | _ => (false, String c s)
          end = (false, String c s)) as ->.
  { destruct c as [[] [] [] [] [] [] [] []]; try reflexivity; discriminate Hc. }
  rewrite <- E, ParseUint_FormatUint by lia. by zbool.
Qed.

Lemma Itoa_nonneg n : 0 ≤ n → Itoa n = FormatUint n.
Proof. intros. unfold Itoa. by zbool. Qed.

Lemma Atoi_Itoa n : 0 ≤ n < 2^63 → Atoi (Itoa n) = Some n.
Proof. intros. rewrite Itoa_nonneg by lia. by apply Atoi_FormatUint. Qed.

(** ** Lemmas: cutting *)

Lemma append_assoc s1 s2 s3 : (s1 +:+ s2) +:+ s3 = s1 +:+ (s2 +:+ s3).
Proof. induction s1 as [|c s1 IH]; [done|]. cbn. by rewrite IH. Qed.

Lemma append_nil_r s : s +:+ "" = s.
Proof. induction s as [|c s IH]; [done|]. cbn. by rewrite IH. Qed.

Lemma length_append a b : String.length (a +:+ b) = (String.length a + String.length b)%nat.
Proof. induction a as [|c a IH]; [done|]. cbn. by rewrite IH. Qed.

Lemma append_inv_l a x y : a +:+ x = a +:+ y → x = y.
Proof. induction a as [|c a IH]; [done|]. by intros [= H%IH]. Qed.

Lemma append_self x d : x +:+ d = d → x = "".
Proof. intros H%(f_equal String.length). rewrite length_append in H. destruct x; [done|cbn in H; lia]. Qed.

(** A string about the first and about the last occurrence of a byte. *)
Lemma split_first c s : (∃ a b, s = a +:+ String c b ∧ all_chars (λ x, negb (Ascii.eqb x c)) a) ∨ all_chars (λ x, negb (Ascii.eqb x c)) s.
Proof.
  induction s as [|x s IH]; [right; constructor|]. destruct (Ascii.eqb x c) eqn:E.
  - apply Ascii.eqb_eq in E as ->. left. exists "", s. split; [done|constructor].
  - destruct IH as [(a & b & -> & H)|H].
    + left. exists (String x a), b. split; [done|]. constructor; [by rewrite E|done].
    + right. constructor; [by rewrite E|done].
Qed.

Lemma split_last c s : (∃ a b, s = a +:+ String c b ∧ all_chars (λ x, negb (Ascii.eqb x c)) b) ∨ all_chars (λ x, negb (Ascii.eqb x c)) s.
Proof.
  induction s as [|x s IH]; [right; constructor|]. destruct IH as [(a & b & -> & H)|H].
  - left. by exists (String x a), b.
  - destruct (Ascii.eqb x c) eqn:E; [|right; constructor; [by rewrite E|done]].
    apply Ascii.eqb_eq in E as ->. left. by exists "", s.
Qed.

Lemma cut_last_free c s : all_chars (λ x, negb (Ascii.eqb x c)) s → cut_last s c = None.
Proof.
  induction s as [|x s IH]; [done|]. intros H. inversion H as [|? ? Hx Hs]; subst. cbn [cut_last]. rewrite IH by done.
  apply negb_true_iff in Hx. by rewrite Hx.
Qed.

Lemma cut_last_app c a b : all_chars (λ x, negb (Ascii.eqb x c)) b → cut_last (a +:+ String c b) c = Some (a, b).
Proof.
  intros Hb. induction a as [|x a IH]; cbn [String.append cut_last].
  - by rewrite cut_last_free, Ascii.eqb_refl.
  - by rewrite IH.
Qed.

Lemma contains_free c s : contains_char c s = false ↔ all_chars (λ x, negb (Ascii.eqb x c)) s.
Proof.
  induction s as [|x s IH]; [split; [constructor|done]|]. cbn [contains_char]. rewrite orb_false_iff, IH. unfold all_chars.
  cbn [list_ascii_of_string]. rewrite Forall_cons, negb_true_iff. done.
Qed.

Lemma strip_prefix_app p s : strip_prefix p (p +:+ s) = Some s.
Proof. induction p as [|c p IH]; simpl; [done|]. by rewrite Ascii.eqb_refl. Qed.

Lemma strip_prefix_Some p s r : strip_prefix p s = Some r → s = p +:+ r.
Proof.
  revert s. induction p as [|c p IH]; intros s; simpl; [by intros [= ->]|].
  destruct s as [|c' s]; [done|]. destruct (Ascii.eqb_spec c c') as [->|]; [|done].
  intros H%IH. by subst.
Qed.

(** A separator whose first byte does not occur in [a] is found after it. *)
Lemma Cut_app a c sep b :
  all_chars (λ x, negb (Ascii.eqb x c)) a →
  Cut (a +:+ String c (sep +:+ b)) (String c sep) = Some (a, b).
Proof.
  induction a as [|x a IH]; intros Ha.
  - cbn [append Cut strip_prefix]. by rewrite Ascii.eqb_refl, strip_prefix_app.
  - apply all_chars_cons in Ha as [Hx Ha]. cbn [append Cut strip_prefix].
    apply negb_true_iff in Hx. by rewrite Ascii.eqb_sym, Hx, (IH Ha).
Qed.

Lemma split_unique c a b a' b' : a +:+ String c b = a' +:+ String c b' →
  all_chars (λ x, negb (Ascii.eqb x c)) a → all_chars (λ x, negb (Ascii.eqb x c)) a' → a = a' ∧ b = b'.
Proof.
  intros E Ha Ha'. pose proof (Cut_app a c "" b Ha) as H. pose proof (Cut_app a' c "" b' Ha') as H'.
  cbn [String.append] in H, H'. rewrite E, H' in H. by injection H as -> ->.
Qed.

Lemma Cut_none s c sep :
  all_chars (λ x, negb (Ascii.eqb x c)) s → Cut s (String c sep) = None.
Proof.
  induction s as [|x s IH]; intros Hs; [done|].
  apply all_chars_cons in Hs as [Hx Hs]. cbn [Cut strip_prefix].
  apply negb_true_iff in Hx. rewrite Ascii.eqb_sym, Hx, (IH Hs). done.
Qed.

Lemma Cut_Some s sep a b : Cut s sep = Some (a, b) → s = a +:+ sep +:+ b.
Proof.
  revert a b. induction s as [|c s IH]; intros a b; cbn [Cut].
  - destruct (strip_prefix sep "") eqn:E; [|done]. intros [= <- <-].
    by apply strip_prefix_Some in E.
  - destruct (strip_prefix sep (String c s)) eqn:E.
    + intros [= <- <-]. by apply strip_prefix_Some in E.
    + destruct (Cut s sep) as [[a' b']|]; [|done]. intros [= <- <-].
      simpl. by rewrite (IH a' b').
Qed.

Lemma Cut_head s sep r : strip_prefix sep s = Some r → Cut s sep = Some ("", r).
Proof. intros H. by destruct s; cbn [Cut]; rewrite H. Qed.

Lemma Cut_inside a sep b : is_Some (Cut (a +:+ sep +:+ b) sep).
Proof.
  induction a as [|c a IH].
  - cbn [String.append]. rewrite (Cut_head _ _ b); [by eexists|apply strip_prefix_app].
  - cbn [String.append Cut]. destruct (strip_prefix sep _); [by eexists|].
    destruct IH as [[x y] ->]. by eexists.
Qed.

(** A string without [c]. *)
Definition free (c : ascii) (s : string) : Prop := all_chars (λ x, negb (Ascii.eqb x c)) s.

Lemma Split_free c s : free c s → Split s c = [s].
Proof.
  induction s as [|x s IH]; intros H; [done|]. apply all_chars_cons in H as [Hx H].
  cbn [Split]. apply negb_true_iff in Hx. by rewrite Hx, (IH H).
Qed.

Lemma Split_app c s t : free c s → Split (s +:+ String c t) c = s :: Split t c.
Proof.
  induction s as [|x s IH]; intros H.
  - cbn [String.append Split]. by rewrite Ascii.eqb_refl.
  - apply all_chars_cons in H as [Hx H]. cbn [String.append Split]. apply negb_true_iff in Hx. by rewrite Hx, (IH H).
Qed.

Lemma Split_parts c s : Forall (free c) (Split s c).
Proof.
  induction s as [|x s IH]; cbn [Split]; [by repeat constructor|].
  destruct (Ascii.eqb x c) eqn:E; [by repeat constructor|].
  destruct (Split s c) as [|y ys]; [repeat constructor; by rewrite E|].
  inversion IH; subst. constructor; [|done]. apply all_chars_cons. by rewrite E.
Qed.

Lemma Join_Split s c : Join (Split s c) (String c "") = s.
Proof.
  destruct (split_first c s) as [(a & b & -> & Ha)|Hf]; [|by rewrite Split_free].
  rewrite Split_app by done. revert a Ha. induction b as [b IH] using (induction_ltof1 _ String.length). intros a Ha.
  destruct (Split b c) as [|x l] eqn:E.
  - exfalso. destruct (split_first c b) as [(a' & b' & -> & Ha')|Hf]; [by rewrite Split_app in E|by rewrite Split_free in E].
  - change (a +:+ String c "" +:+ Join (x :: l) (String c "") = a +:+ String c b). rewrite <- E.
    assert (Join (Split b c) (String c "") = b) as ->; [|done]. clear x l E. destruct (split_first c b) as [(a' & b' & -> & Ha')|Hf]; [|by rewrite Split_free].
    rewrite Split_app by done. apply IH; [|done]. unfold ltof. rewrite length_append. cbn. lia.
Qed.

Lemma substring_all n s : (String.length s ≤ n)%nat → substring 0 n s = s.
Proof. revert n. induction s as [|c s IH]; intros [|n] H; cbn [substring String.length] in *; try done; [lia|]. by rewrite IH by lia. Qed.

Lemma Split_Join l c : l ≠ [] → Forall (free c) l → Split (Join l (String c "")) c = l.
Proof.
  induction l as [|x l IH]; [done|]. intros _ [Hx Hl]%Forall_cons. destruct l as [|y l]; [by apply Split_free|].
  change (Join (x :: y :: l) (String c "")) with (x +:+ String c (Join (y :: l) (String c ""))). rewrite Split_app by done. by rewrite IH.
Qed.

Lemma free_app c s t : free c (s +:+ t) ↔ free c s ∧ free c t.
Proof. apply all_chars_app. Qed.

Lemma all_chars_impl (P Q : ascii → bool) s :
  (∀ c, P c = true → Q c = true) → all_chars P s → all_chars Q s.
Proof. intros HPQ H. eapply Forall_impl; [exact H|auto]. Qed.

(** ** Lemmas: bytes *)

Lemma of_to_bytes s : of_bytes (to_bytes s) = s.
Proof.
  unfold of_bytes, to_bytes, chars. rewrite map_map.
  erewrite map_ext; [rewrite map_id; apply string_of_list_ascii_of_string|].
  intros c. simpl. rewrite Nat2Z.id. apply ascii_nat_embedding.
Qed.

Lemma to_bytes_ok s : bytes_ok (to_bytes s).
Proof.
  unfold bytes_ok, to_bytes. apply Forall_map, Forall_forall. intros c _.
  simpl. pose proof (nat_ascii_bounded c). unfold byte_ok. lia.
Qed.

Lemma to_bytes_inj s t : to_bytes s = to_bytes t → s = t.
Proof. intros H. by rewrite <- (of_to_bytes s), H, of_to_bytes. Qed.

(** ** Lemmas: trimming *)

(** The bytes that no space encoding starts or ends with: printable ASCII. *)
Definition printable (c : ascii) : bool :=
  let n := Z.of_nat (nat_of_ascii c) in (33 <=? n) && (n <=? 126).

Lemma strip_any_printable c s :
  printable c = true → strip_any spaces (String c s) = None ∧
  strip_any (map rev_string spaces) (String c s) = None.
Proof.
  intros Hc. destruct c as [[] [] [] [] [] [] [] []]; try discriminate Hc; by vm_compute.
Qed.

Lemma trim_with_printable ps fuel c s :
  strip_any ps (String c s) = None → trim_with ps fuel (String c s) = String c s.
Proof. intros H. destruct fuel; cbn [trim_with]; [done|]. by rewrite H. Qed.

Lemma trim_with_nil ps fuel :
  Forall (λ p, p ≠ "") ps → trim_with ps fuel "" = "".
Proof.
  intros H. destruct fuel; cbn [trim_with]; [done|].
  assert (strip_any ps "" = None) as ->; [|done].
  induction H as [|p ps Hp _ IH]; simpl; [done|]. by destruct p.
Qed.

Lemma rev_string_involutive s : rev_string (rev_string s) = s.
Proof.
  unfold rev_string.
  rewrite list_ascii_of_string_of_list_ascii, rev_involutive.
  apply string_of_list_ascii_of_string.
Qed.

Lemma all_chars_rev P s : all_chars P s → all_chars P (rev_string s).
Proof.
  unfold all_chars, rev_string. rewrite list_ascii_of_string_of_list_ascii.
  intros H. by apply Forall_rev.
Qed.

Lemma nonempty_all ps : forallb (λ p, negb (String.eqb p "")) ps = true → Forall (λ p, p ≠ "") ps.
Proof.
  intros H. apply Forall_forall. intros p Hp%list_elem_of_In ->.
  rewrite forallb_forall in H. by apply H in Hp.
Qed.

Lemma spaces_nonempty : Forall (λ p, p ≠ "") spaces ∧ Forall (λ p, p ≠ "") (map rev_string spaces).
Proof. split; apply nonempty_all; by vm_compute. Qed.

#[global] Opaque spaces.

(** The two halves of [TrimSpace]. *)
Definition trim_left (s : string) : string := trim_with spaces (String.length s) s.
Definition trim_right (s : string) : string :=
  rev_string (trim_with (map rev_string spaces) (String.length s) (rev_string s)).

Lemma length_rev_string s : String.length (rev_string s) = String.length s.
Proof.
  assert (∀ l, String.length (string_of_list_ascii l) = Datatypes.length l) as H by (induction l; cbn; congruence).
  unfold rev_string. rewrite H, length_rev, <- H, string_of_list_ascii_of_string. done.
Qed.

Lemma rev_string_sep a c b : rev_string (a +:+ String c b) = rev_string b +:+ String c (rev_string a).
Proof.
  assert (∀ k l, string_of_list_ascii (k ++ l) = string_of_list_ascii k +:+ string_of_list_ascii l) as H.
  { induction k as [|x k IH]; intros l; cbn; [done|]. by rewrite IH. }
  unfold rev_string. rewrite list_ascii_app, rev_app_distr. cbn [list_ascii_of_string rev].
  rewrite !H. cbn. by rewrite append_assoc.
Qed.

Lemma strip_any_shorter ps s r : Forall (λ p, p ≠ "") ps → strip_any ps s = Some r → (String.length r < String.length s)%nat.
Proof.
  induction 1 as [|p ps Hp _ IH]; cbn [strip_any]; [done|]. destruct (strip_prefix p s) as [r'|] eqn:E; [|done].
  intros [= ->]. apply strip_prefix_Some in E as ->. destruct p as [|c p]; [done|].
  clear. cbn [String.append String.length]. induction p as [|x p IH]; cbn [String.append String.length]; lia.
Qed.

(** Trimming ends where nothing is left to strip, whatever the fuel. *)
Lemma trim_fix ps fuel : Forall (λ p, p ≠ "") ps → ∀ s, (String.length s ≤ fuel)%nat → strip_any ps (trim_with ps fuel s) = None.
Proof.
  intros Hps. induction fuel as [|fuel IH]; intros s Hs; cbn [trim_with].
  - destruct s; [|cbn in Hs; lia]. destruct (strip_any ps "") as [r|] eqn:E; [|done]. apply strip_any_shorter in E; [cbn in E; lia|done].
  - destruct (strip_any ps s) as [r|] eqn:E; [|done]. apply IH. apply strip_any_shorter in E; [lia|done].
Qed.

Lemma trim_id ps fuel s : strip_any ps s = None → trim_with ps fuel s = s.
Proof. intros H. destruct fuel; cbn [trim_with]; [done|]. by rewrite H. Qed.

Lemma trim_fuel ps : Forall (λ p, p ≠ "") ps → ∀ n m s, (String.length s ≤ n)%nat → (String.length s ≤ m)%nat →
  trim_with ps n s = trim_with ps m s.
Proof.
  intros Hps. induction n as [|n IH]; intros m s Hn Hm.
  - destruct s; [|cbn in Hn; lia]. by rewrite !trim_with_nil.
  - destruct (strip_any ps s) as [r|] eqn:E; [|by rewrite !trim_id].
    pose proof (strip_any_shorter _ _ _ Hps E) as Hr. destruct m as [|m]; [lia|]. cbn [trim_with]. rewrite E. apply IH; lia.
Qed.

Lemma strip_prefix_sep c p : free c p → ∀ a b,
  strip_prefix p (a +:+ String c b) = option_map (λ r, r +:+ String c b) (strip_prefix p a).
Proof.
  induction p as [|x p IH]; intros Hp a b; [done|]. apply all_chars_cons in Hp as [Hx Hp].
  destruct a as [|y a]; cbn [String.append strip_prefix].
  - apply negb_true_iff in Hx. by rewrite Hx.
  - destruct (Ascii.eqb x y); [by apply IH|done].
Qed.

Lemma trim_sep ps fuel c : Forall (free c) ps → ∀ a b,
  trim_with ps fuel (a +:+ String c b) = trim_with ps fuel a +:+ String c b.
Proof.
  intros Hps. assert (∀ a b, strip_any ps (a +:+ String c b) = option_map (λ r, r +:+ String c b) (strip_any ps a)) as H.
  { intros a b. induction Hps as [|p ps Hp _ IH]; [done|]. cbn [strip_any]. rewrite strip_prefix_sep by done.
    destruct (strip_prefix p a); [done|exact IH]. }
  induction fuel as [|fuel IH]; intros a b; cbn [trim_with]; [done|]. rewrite H.
  destruct (strip_any ps a) as [r|]; cbn [option_map]; [apply IH|done].
Qed.

Lemma spaces_free c : printable c = true → Forall (free c) spaces ∧ Forall (free c) (map rev_string spaces).
Proof.
  intros Hc.
  assert (∀ ps, forallb (λ p, forallb (λ x, negb (Ascii.eqb x c)) (list_ascii_of_string p)) ps = true → Forall (free c) ps) as H.
  { intros ps HF. apply Forall_forall. intros p Hp%list_elem_of_In. rewrite forallb_forall in HF. apply HF in Hp.
    apply Forall_forall. intros x Hx%list_elem_of_In. by rewrite forallb_forall in Hp; apply Hp. }
  split; apply H; destruct c as [[] [] [] [] [] [] [] []]; try discriminate Hc; by vm_compute.
Qed.

Lemma trim_printable s :
  all_chars printable s →
  (∀ fuel, trim_with spaces fuel s = s) ∧ (∀ fuel, trim_with (map rev_string spaces) fuel s = s).
Proof.
  destruct spaces_nonempty as [H1 H2]. destruct s as [|c s]; intros Hs.
  - split; intros; by apply trim_with_nil.
  - apply all_chars_cons in Hs as [Hc _].
    destruct (strip_any_printable c s Hc) as [E1 E2].
    split; intros fuel; [exact (trim_with_printable _ fuel _ _ E1)|exact (trim_with_printable _ fuel _ _ E2)].
Qed.

Lemma TrimSpace_printable s : all_chars printable s → TrimSpace s = s.
Proof.
  intros Hs. unfold TrimSpace. destruct (trim_printable s Hs) as [-> _].
  destruct (trim_printable _ (all_chars_rev _ _ Hs)) as [_ ->].
  apply rev_string_involutive.
Qed.

Lemma trim_with_sep ps c a b : Forall (λ p, p ≠ "") ps → Forall (free c) ps →
  trim_with ps (String.length (a +:+ String c b)) (a +:+ String c b) = trim_with ps (String.length a) a +:+ String c b.
Proof.
  intros Hn Hf. rewrite trim_sep by done. f_equal. apply trim_fuel; [done| |done]. rewrite length_append. lia.
Qed.

Lemma trim_left_sep a c b : printable c = true → trim_left (a +:+ String c b) = trim_left a +:+ String c b.
Proof. intros Hc. apply trim_with_sep; [apply spaces_nonempty|by apply spaces_free]. Qed.

Lemma trim_right_sep a c b : printable c = true → trim_right (a +:+ String c b) = a +:+ String c (trim_right b).
Proof.
  intros Hc. unfold trim_right. rewrite <- (length_rev_string (_ +:+ _)), rev_string_sep, trim_with_sep;
    [|apply spaces_nonempty|by apply spaces_free].
  rewrite rev_string_sep, rev_string_involutive, length_rev_string. done.
Qed.

(** White space about a separator belongs to neither side of it. *)
Lemma TrimSpace_sep a c b : printable c = true → TrimSpace (a +:+ String c b) = trim_left a +:+ String c (trim_right b).
Proof. intros Hc. change (TrimSpace ?s) with (trim_right (trim_left s)). by rewrite trim_left_sep, trim_right_sep. Qed.

Lemma TrimSpace_halves s : TrimSpace s = trim_right (trim_left s).
Proof. done. Qed.

Lemma trim_left_idem s : trim_left (trim_left s) = trim_left s.
Proof. apply trim_id, trim_fix; [apply spaces_nonempty|done]. Qed.

Lemma trim_right_idem s : trim_right (trim_right s) = trim_right s.
Proof.
  unfold trim_right. rewrite rev_string_involutive. f_equal.
  apply trim_id, trim_fix; [apply spaces_nonempty|by rewrite length_rev_string].
Qed.

Lemma trim_with_suffix ps fuel s : ∃ t, s = t +:+ trim_with ps fuel s.
Proof.
  revert s. induction fuel as [|fuel IH]; intros s; cbn [trim_with]; [by exists ""|].
  destruct (strip_any ps s) as [r|] eqn:E; [|by exists ""]. destruct (IH r) as [t Ht].
  assert (∃ p, s = p +:+ r) as [p ->].
  { clear -E. induction ps as [|p ps IH]; [done|]. cbn [strip_any] in E. destruct (strip_prefix p s) as [r'|] eqn:Ep; [|by apply IH].
    injection E as ->. exists p. by apply strip_prefix_Some. }
  exists (p +:+ t). by rewrite append_assoc, <- Ht.
Qed.

(** Trimming the right of a string leaves its beginning. *)
Lemma trim_right_prefix s : ∃ t, s = trim_right s +:+ t.
Proof.
  destruct (trim_with_suffix (map rev_string spaces) (String.length s) (rev_string s)) as [t Ht].
  exists (rev_string t). unfold trim_right. set (x := trim_with _ _ _) in *. clearbody x.
  rewrite <- (rev_string_involutive s), Ht. clear. unfold rev_string. rewrite list_ascii_app, rev_app_distr.
  induction (rev (list_ascii_of_string x)) as [|y l IH]; [done|]. cbn. by rewrite IH.
Qed.

Lemma strip_any_prefix ps s t : strip_any ps (s +:+ t) = None → strip_any ps s = None.
Proof.
  induction ps as [|p ps IH]; [done|]. cbn [strip_any]. destruct (strip_prefix p s) as [r|] eqn:E; [|by destruct (strip_prefix p (s +:+ t)); [|apply IH]].
  apply strip_prefix_Some in E as ->. by rewrite append_assoc, strip_prefix_app.
Qed.

Lemma TrimSpace_idem s : TrimSpace (TrimSpace s) = TrimSpace s.
Proof.
  rewrite !TrimSpace_halves. set (x := trim_left s). assert (strip_any spaces x = None) as Hx.
  { apply trim_fix; [apply spaces_nonempty|done]. }
  destruct (trim_right_prefix x) as [t Ht]. rewrite Ht in Hx. apply strip_any_prefix in Hx.
  unfold trim_left at 1. rewrite trim_id by exact Hx. apply trim_right_idem.
Qed.

Lemma TrimSpace_left s : TrimSpace (trim_left s) = TrimSpace s.
Proof. by rewrite !TrimSpace_halves, trim_left_idem. Qed.

Lemma trim_left_suffix s : ∃ t, s = t +:+ trim_left s.
Proof. apply trim_with_suffix. Qed.

Lemma last_char d : d ≠ "" → ∃ e c, d = e +:+ String c "".
Proof.
  induction d as [|x d IH]; [done|]. intros _. destruct d as [|y d]; [by exists "", x|].
  destruct IH as (e & c & ->); [done|]. by exists (String x e), c.
Qed.

(** Trimming the right first does not matter where something printable is
    left. *)
Lemma free_TrimSpace c s : free c s → free c (TrimSpace s).
Proof.
  intros H. rewrite TrimSpace_halves. destruct (trim_left_suffix s) as [t Et]. destruct (trim_right_prefix (trim_left s)) as [u Eu].
  unfold free in *. rewrite Et in H. apply all_chars_app in H as [_ H]. rewrite Eu in H. by apply all_chars_app in H as [? _].
Qed.

Lemma TrimSpace_right b d : d ≠ "" → all_chars printable d → TrimSpace (trim_right b) = d → TrimSpace b = d.
Proof.
  intros Hd Hp HT. destruct (last_char d Hd) as (d2 & c2 & E2). destruct d as [|c1 d1]; [done|].
  assert (printable c1 = true) as Hc1 by (by apply all_chars_cons in Hp as [? _]).
  assert (printable c2 = true) as Hc2 by (rewrite E2 in Hp; apply all_chars_app in Hp as [_ Hp]; by apply all_chars_cons in Hp as [? _]).
  rewrite TrimSpace_halves in HT. set (r := trim_right b) in *.
  destruct (trim_left_suffix r) as [t Ht]. destruct (trim_right_prefix (trim_left r)) as [u Hu]. rewrite HT in Hu.
  assert (u = "") as ->.
  { rewrite Hu, E2, append_assoc in HT. cbn [String.append] in HT. rewrite trim_right_sep in HT by done.
    assert (trim_right r = r) as Hi by apply trim_right_idem. rewrite Ht, Hu, E2, append_assoc in Hi. cbn [String.append] in Hi.
    rewrite <- append_assoc, trim_right_sep in Hi by done. apply append_inv_l in Hi. injection Hi as Hi.
    apply append_inv_l in HT. injection HT as HT. by rewrite <- Hi. }
  rewrite append_nil_r in Hu. rewrite Hu in Ht.
  assert (trim_left t = "") as Hz.
  { rewrite Ht, trim_left_sep in Hu by done. by apply append_self in Hu. }
  destruct (trim_right_prefix b) as [w Hw]. fold r in Hw. rewrite Ht in Hw.
  rewrite TrimSpace_halves, Hw, append_assoc. cbn [String.append]. rewrite trim_left_sep, Hz by done. cbn [String.append].
  change (String c1 (d1 +:+ w)) with (String c1 d1 +:+ w). rewrite E2, append_assoc. cbn [String.append]. rewrite trim_right_sep by done.
  assert (trim_right w = "") as ->; [|done].
  assert (trim_right b = r) as Hr by done. rewrite Hw, E2, append_assoc in Hr. rewrite append_assoc in Hr. cbn [String.append] in Hr.
  rewrite <- append_assoc, trim_right_sep in Hr by done. rewrite Ht, E2, <- append_assoc in Hr. apply append_inv_l in Hr. by injection Hr.
Qed.

Lemma TrimSpace_right' b d : d ≠ "" → all_chars printable d → TrimSpace b = d → TrimSpace (trim_right b) = d.
Proof.
  intros Hd Hp HT. destruct (last_char d Hd) as (d2 & c2 & E2). destruct d as [|c1 d1]; [done|].
  assert (printable c1 = true) as Hc1 by (by apply all_chars_cons in Hp as [? _]).
  assert (printable c2 = true) as Hc2 by (rewrite E2 in Hp; apply all_chars_app in Hp as [_ Hp]; by apply all_chars_cons in Hp as [? _]).
  rewrite TrimSpace_halves in HT. destruct (trim_left_suffix b) as [t Ht]. destruct (trim_right_prefix (trim_left b)) as [u Hu].
  rewrite HT in Hu. assert (trim_right u = "") as Hz.
  { rewrite Hu, E2, append_assoc in HT. cbn [String.append] in HT. rewrite trim_right_sep in HT by done.
    apply append_inv_l in HT. by injection HT. }
  rewrite Hu in Ht. assert (trim_left t = "") as Hy.
  { rewrite Ht in Hu. cbn [String.append] in Hu. rewrite trim_left_sep in Hu by done. by apply append_self in Hu. }
  assert (trim_right b = t +:+ String c1 d1) as ->.
  { rewrite Ht, E2, append_assoc. cbn [String.append]. rewrite <- append_assoc, trim_right_sep, Hz by done. by rewrite append_assoc. }
  rewrite TrimSpace_halves, trim_left_sep, Hy by done. cbn [String.append]. rewrite E2. by rewrite trim_right_sep.
Qed.

End GoStr.
