(* ===== verification/L3Fresh.v ===== *)
(** What makes a handshake fresh, and what version it speaks:
    [src/internal/tunnel/l3/initreplay.go] (Module [SeenInits]),
    [freshness.go] (Module [Freshness]) and [version.go] (Module [Version]).

    A [time.Time] is a [Z] of nanoseconds. [now.Sub(t)] is their difference:
    its saturation at the ends of [time.Duration] cannot change a comparison
    with a constant of minutes. *)

From Stdlib Require Import Ascii String Sorted.
From S2P Require Import Prelude.
From S2P Require Import GoStr.
Import GoStr.
Open Scope string_scope.
Open Scope Z_scope.

(** Durations, in nanoseconds. *)
Definition Second : Z := 1000000000.
Definition Minute : Z := 60 * Second.
Definition Millisecond : Z := 1000000.

(** ** The memory of answered handshakes *)

Module SeenInits.

Definition initMemory : nat := 64.
Definition initMemoryWindow : Z := 10 * Minute.

Record seenInits : Type := mk {
  ids : list Z;     (* []uint32 *)
  when : list Z     (* []time.Time *)
}.

Definition empty : seenInits := mk [] [].

(** The loop [for cut < len(s.when) && now.Sub(s.when[cut]) > window]. *)
Fixpoint expired_prefix (now : Z) (when : list Z) : nat :=
  match when with
  | [] => 0
  | t :: when => if initMemoryWindow <? now - t then S (expired_prefix now when) else 0
  end.

Definition expire (s : seenInits) (now : Z) : seenInits :=
  let cut := expired_prefix now (when s) in
  if (0 <? cut)%nat then mk (drop cut (ids s)) (drop cut (when s)) else s.

(** [s.ids[len(s.ids)-initMemory:]]. *)
Definition keep_last {A} (n : nat) (l : list A) : list A := drop (length l - n) l.

Definition seen (s : seenInits) (id now : Z) : bool * seenInits :=
  let s := expire s now in
  if bool_decide (id ∈ ids s) then (true, s)
  else
    let s := mk (ids s ++ [id]) (when s ++ [now]) in
    if (initMemory <? length (ids s))%nat
    then (false, mk (keep_last initMemory (ids s)) (keep_last initMemory (when s)))
    else (false, s).

(** A run of calls, each an identifier and the time of the call. *)
Definition run (s : seenInits) (calls : list (Z * Z)) : seenInits :=
  fold_left (λ s c, snd (seen s (fst c) (snd c))) calls s.

Definition wf (s : seenInits) : Prop :=
  length (ids s) = length (when s) ∧ (length (ids s) ≤ initMemory)%nat.

(** ** Lemmas *)

Lemma expire_eq s now :
  expire s now = mk (drop (expired_prefix now (when s)) (ids s))
                    (drop (expired_prefix now (when s)) (when s)).
Proof.
  unfold expire. destruct (Nat.ltb_spec 0 (expired_prefix now (when s))); [done|].
  replace (expired_prefix now (when s)) with 0%nat by lia. by destruct s.
Qed.

Lemma expire_wf s now : wf s → wf (expire s now).
Proof.
  intros [Hl Hb]. rewrite expire_eq. split; cbn [ids when]; rewrite !length_drop; lia.
Qed.

Lemma seen_wf s id now : wf s → wf (snd (seen s id now)).
Proof.
  intros Hw. apply (expire_wf s now) in Hw as [Hl Hb]. unfold seen.
  case_bool_decide; [done|]. destruct (Nat.ltb_spec initMemory (length (ids (mk (ids (expire s now) ++ [id]) (when (expire s now) ++ [now]))))) as [H1|H1];
    cbn [ids when snd] in *; unfold wf, keep_last; cbn [ids when];
    rewrite ?length_drop, ?length_app in *; simpl in *; lia.
Qed.

Lemma run_wf calls s : wf s → wf (run s calls).
Proof.
  revert s. induction calls as [|c calls IH]; intros s Hs; [exact Hs|].
  apply IH, seen_wf, Hs.
Qed.

(** An entry of [id] recorded at [t0] and what was recorded after it. *)
Definition holds (s : seenInits) (id t0 : Z) (after : nat) : Prop :=
  ∃ pre post prew postw,
    ids s = (pre ++ id :: post)%list ∧ when s = (prew ++ t0 :: postw)%list ∧
    length pre = length prew ∧ (length post ≤ after)%nat.

Lemma expired_prefix_stops now prew t0 postw :
  now - t0 ≤ initMemoryWindow →
  (expired_prefix now (prew ++ t0 :: postw) ≤ length prew)%nat.
Proof.
  intros Ht. induction prew as [|t prew IH]; simpl.
  - by zbool.
  - destruct (_ <? _); lia.
Qed.

Lemma keep_last_app {A} n (p q : list A) :
  (length q ≤ n)%nat → keep_last n (p ++ q)%list = (drop (length p + length q - n) p ++ q)%list.
Proof.
  intros. unfold keep_last. rewrite length_app. by rewrite drop_app_le by lia.
Qed.

Lemma expire_holds s id t0 n now :
  now - t0 ≤ initMemoryWindow → holds s id t0 n → holds (expire s now) id t0 n.
Proof.
  intros Ht (pre & post & prew & postw & Hi & Hw & Hl & Hp).
  rewrite expire_eq. pose proof (expired_prefix_stops now prew t0 postw Ht) as Hc.
  rewrite <- Hw in Hc. set (cut := expired_prefix now (when s)) in *.
  exists (drop cut pre), post, (drop cut prew), postw. cbn [ids when].
  rewrite Hi, Hw, !drop_app_le by lia. rewrite !length_drop, Hl. auto.
Qed.

Lemma holds_seen s id t0 n id' now :
  wf s → now - t0 ≤ initMemoryWindow → (n < initMemory - 1)%nat →
  holds s id t0 n → holds (snd (seen s id' now)) id t0 (S n).
Proof.
  intros Hwf Ht Hn Hh. apply (expire_holds _ _ _ _ now Ht) in Hh.
  apply (expire_wf s now) in Hwf as [Hlw Hb]. unfold seen. case_bool_decide as Hin.
  { destruct Hh as (pre & post & prew & postw & ?); simpl.
    exists pre, post, prew, postw. intuition lia. }
  destruct Hh as (pre & post & prew & postw & Hi & Hw & Hl & Hp).
  cbn [ids when]. rewrite Hi, Hw in *. rewrite !length_app in *. simpl in *.
  assert (length post = length postw) as Hpp by lia.
  assert (∀ A (p : list A) x q y,
    keep_last initMemory ((p ++ x :: q) ++ [y]) =
    drop (length p + S (length q) + 1 - initMemory) p ++ x :: q ++ [y]
    ∨ (initMemory < S (length q) + 1)%nat)%list as Hkeep.
  { intros A p x q y. destruct (decide (initMemory < S (length q) + 1)%nat); [by right|left].
    unfold keep_last. rewrite !length_app. simpl. rewrite <- app_assoc. simpl.
    by rewrite drop_app_le by lia. }
  destruct (Nat.ltb_spec initMemory (length pre + S (length post) + 1)) as [H1|H1]; cbn [snd].
  - unfold initMemory in *. destruct (Hkeep Z pre id post id') as [E1|]; [|lia].
    destruct (Hkeep Z prew t0 postw now) as [E2|]; [|lia].
    eexists _, _, _, _. cbn [ids when]. split_and!; [exact E1|exact E2|..].
    + rewrite !length_drop. lia.
    + rewrite length_app. simpl. lia.
  - exists pre, (post ++ [id'])%list, prew, (postw ++ [now])%list. cbn [ids when].
    rewrite <- !app_assoc. rewrite length_app. simpl. split_and!; auto; lia.
Qed.

Lemma run_holds calls s id t0 n :
  wf s → Forall (λ c, snd c - t0 ≤ initMemoryWindow) calls →
  (n + length calls < initMemory)%nat → holds s id t0 n →
  holds (run s calls) id t0 (n + length calls) ∧ wf (run s calls).
Proof.
  revert s n. induction calls as [|c calls IH]; intros s n Hwf Hts Hn Hh.
  - simpl. rewrite Nat.add_0_r. auto.
  - apply Forall_cons in Hts as [Ht Hts]. simpl in Hn. cbn [run fold_left length].
    rewrite <- Nat.add_succ_comm. apply IH; [by apply seen_wf|exact Hts|lia|].
    apply holds_seen; [exact Hwf|exact Ht|lia|exact Hh].
Qed.

Lemma holds_elem s id t0 n : holds s id t0 n → id ∈ ids s.
Proof.
  intros (pre & post & ? & ? & -> & _). rewrite elem_of_app, elem_of_cons. auto.
Qed.

Lemma seen_true s id now : id ∈ ids (expire s now) → fst (seen s id now) = true.
Proof. intros. unfold seen. by case_bool_decide. Qed.

Lemma seen_false_holds s id now :
  wf s → fst (seen s id now) = false → holds (snd (seen s id now)) id now 0.
Proof.
  intros Hwf. apply (expire_wf s now) in Hwf as [Hl Hb]. unfold seen.
  case_bool_decide as Hin; [done|]. intros _. cbn [ids when].
  destruct (Nat.ltb_spec initMemory (length (ids (expire s now) ++ [id]))) as [H1|H1]; cbn [snd].
  - assert (1 ≤ initMemory)%nat as H64 by (unfold initMemory; lia).
    exists (drop (length (ids (expire s now)) + 1 - initMemory) (ids (expire s now))), [].
    exists (drop (length (when (expire s now)) + 1 - initMemory) (when (expire s now))), [].
    cbn [ids when]. rewrite !keep_last_app by exact H64.
    rewrite !length_drop, Hl. cbn [length]. split_and!; [reflexivity..|lia].
  - exists (ids (expire s now)), [], (when (expire s now)), []. cbn [ids when length].
    split_and!; [reflexivity..|exact Hl|lia].
Qed.

(** A call made with a new identifier appends it; only front entries leave. *)
Lemma seen_new s id now :
  id ∉ ids s →
  fst (seen s id now) = false ∧
  ∃ k, ids (snd (seen s id now)) = drop k (ids s ++ [id])%list.
Proof.
  intros Hnew. unfold seen. rewrite expire_eq. cbn [ids when].
  set (cut := expired_prefix now (when s)).
  case_bool_decide as Hin.
  { exfalso. apply Hnew. exact (subseteq_drop _ _ _ Hin). }
  set (l := (drop cut (ids s) ++ [id])%list).
  assert (∃ k, l = drop k (ids s ++ [id])%list) as [k Hk].
  { destruct (decide (cut ≤ length (ids s))%nat).
    - exists cut. unfold l. rewrite drop_app_le by assumption. reflexivity.
    - exists (length (ids s)). unfold l. rewrite (drop_ge (ids s)) by lia. rewrite drop_app_length. reflexivity. }
  destruct (initMemory <? length l)%nat; cbn [fst snd ids]; split; [done| |done|].
  - unfold keep_last. rewrite Hk, drop_drop. eexists. reflexivity.
  - exists k. exact Hk.
Qed.

Lemma run_new (news : list (Z * Z)) s :
  NoDup (fst <$> news) → (∀ c, c ∈ news → fst c ∉ ids s) →
  ∃ k, ids (run s news) = drop k (ids s ++ (fst <$> news))%list.
Proof.
  revert s. induction news as [|c news IH]; intros s Hnd Hnew.
  - exists 0%nat. simpl. by rewrite app_nil_r.
  - cbn [fmap list_fmap] in *. apply NoDup_cons in Hnd as [Hc Hnd].
    destruct (seen_new s (fst c) (snd c)) as [_ [k Hk]]; [apply Hnew; set_solver|].
    cbn [run fold_left]. destruct (IH (snd (seen s (fst c) (snd c)))) as [k' Hk']; [done| |].
    { intros d Hd Hin. rewrite Hk in Hin.
      assert (fst d ∈ ids s ++ [fst c])%list as [Hs|Hs]%elem_of_app
        by exact (subseteq_drop _ _ _ Hin).
      - eapply Hnew; [|done]. set_solver.
      - apply list_elem_of_singleton in Hs. apply Hc. rewrite <- Hs.
        by apply list_elem_of_fmap_2. }
    fold (run (snd (seen s (fst c) (snd c))) news) in *. rewrite Hk', Hk.
    destruct (decide (k ≤ length (ids s ++ [fst c]))%nat).
    + rewrite <- drop_app_le by done. rewrite drop_drop, <- app_assoc. by eexists.
    + rewrite (drop_ge (ids s ++ [fst c])) by lia. simpl.
      exists (length (ids s ++ [fst c]) + k')%nat.
      change (fst c :: (fst <$> news))%list with ([fst c] ++ (fst <$> news))%list.
      rewrite app_assoc, <- drop_drop, drop_app_length. done.
Qed.

(** ** Properties *)

(** A handshake identifier recorded once is refused again for ten minutes,
    as long as fewer than 64 other calls come between: the memory can neither
    expire nor push out the entry earlier than that. *)
Theorem seen_remembers (s : seenInits) (id t0 now : Z) (calls : list (Z * Z)) :
  wf s → fst (seen s id t0) = false →
  (length calls < initMemory)%nat →
  Forall (λ c, snd c - t0 ≤ initMemoryWindow) calls → now - t0 ≤ initMemoryWindow →
  fst (seen (run (snd (seen s id t0)) calls) id now) = true.
Proof.
  intros Hwf Hnew Hlen Hts Ht.
  destruct (run_holds calls (snd (seen s id t0)) id t0 0) as [Hh _];
    [by apply seen_wf|done|lia|by apply seen_false_holds|].
  apply seen_true, (holds_elem _ id t0 (0 + length calls)), expire_holds; done.
Qed.

Lemma seen_remembers_witness :
  fst (seen (run (snd (seen empty 7 0)) [(8, Minute); (9, 2 * Minute)]) 7 (9 * Minute)) = true.
Proof.
  apply (seen_remembers empty 7 0 (9 * Minute) [(8, Minute); (9, 2 * Minute)]).
  - split; [reflexivity|unfold initMemory; simpl; lia].
  - reflexivity.
  - unfold initMemory; simpl; lia.
  - repeat constructor; vm_compute; discriminate.
  - vm_compute; discriminate.
Defined.

(** Sixty-four calls with new identifiers wipe the memory: the same
    handshake is then treated as a first contact, however recently it was
    answered. (The listener makes these calls before it authenticates the
    datagram, so anyone can make them.) *)
Theorem seen_forgets (s : seenInits) (id t0 now : Z) (news : list (Z * Z)) :
  fst (seen s id t0) = false →
  length news = initMemory → NoDup (fst <$> news) →
  (∀ c, c ∈ news → fst c ∉ ids (snd (seen s id t0)) ∧ fst c ≠ id) →
  wf (snd (seen s id t0)) →
  fst (seen (run (snd (seen s id t0)) news) id now) = false.
Proof.
  intros Hfirst Hlen Hnd Hnew Hwf. set (s1 := snd (seen s id t0)) in *.
  destruct (run_new news s1 Hnd) as [k Hk]; [intros c Hc; by apply Hnew|].
  destruct (run_wf news s1 Hwf) as [_ Hb].
  apply seen_new. rewrite Hk. intros Hin.
  rewrite Hk, length_drop, length_app, length_fmap, Hlen in Hb.
  rewrite drop_app_ge in Hin by lia.
  apply subseteq_drop in Hin.
  apply list_elem_of_fmap in Hin as (c & -> & Hc). by destruct (Hnew c Hc).
Qed.

Definition flood : list (Z * Z) := (λ n, (Z.of_nat n + 100, 1)) <$> seq 0 64.

Lemma seen_forgets_witness : fst (seen (run (snd (seen empty 7 0)) flood) 7 2) = false.
Proof.
  apply (seen_forgets empty 7 0 2 flood).
  - reflexivity.
  - reflexivity.
  - apply (bool_decide_unpack _). vm_compute. exact I.
  - intros c Hc. assert (100 ≤ fst c) as H.
    { unfold flood in Hc. apply list_elem_of_fmap in Hc as (n & -> & _). simpl. lia. }
    split; [|lia]. intros [E|[]%not_elem_of_nil]%elem_of_cons. lia.
  - split; [reflexivity|unfold initMemory; simpl; lia].
Defined.

End SeenInits.


(** ** Protocol versions *)

Module Version.

Definition versionLegacy : Z := 0.
Definition version1 : Z := 1.
Definition version2 : Z := 2.
Definition versionCurrent : Z := version2.

(** ["\x00"]. *)
Definition versionSep : string := String "000"%char "".

(** The errors of [parseReplyPayload], in the order it can return them. *)
Inductive error : Type :=
| errBlockUnreadable
| errBlockIncomplete
| errBlockNotNumbers
| errVersionNegative.

Definition replyPayloadBlock (encap : string) (mine saw : Z) : string :=
  encap +:+ versionSep +:+ "v" +:+ Itoa mine +:+ "," +:+ Itoa (Z.max saw 0).

Definition replyPayload (encap : string) (mine saw : Z) : string :=
  if saw <=? versionLegacy then encap else replyPayloadBlock encap mine saw.

Definition parseReplyPayload (payload : string) : result error (string * Z * Z) :=
  match Cut payload versionSep with
  | None => Ok (payload, versionLegacy, versionLegacy)
  | Some (encap, rest) =>
      if negb (HasPrefix rest "v") then Err errBlockUnreadable
      else
        match Cut (TrimPrefix rest "v") "," with
        | None => Err errBlockIncomplete
        | Some (mine, saw) =>
            match Atoi mine, Atoi saw with
            | Some theirs, Some sawMine =>
                if (theirs <? 0) || (sawMine <? 0) then Err errVersionNegative
                else Ok (encap, theirs, sawMine)
            | _, _ => Err errBlockNotNumbers
            end
        end
  end.

Definition agreedVersion (mine theirs : Z) : Z :=
  if theirs <? mine then theirs else mine.

(** An encapsulation name holds no NUL. *)
Definition no_nul (s : string) : Prop := all_chars (λ x, negb (Ascii.eqb x "000"%char)) s.

(** ** Lemmas *)

Lemma digits_no_comma s : all_chars is_digit s → all_chars (λ x, negb (Ascii.eqb x ","%char)) s.
Proof.
  apply all_chars_impl. intros c Hc. destruct (Ascii.eqb_spec c ","%char); [by subst|done].
Qed.

Lemma parse_block encap mine saw :
  no_nul encap → 0 ≤ mine < 2^63 → saw < 2^63 →
  parseReplyPayload (replyPayloadBlock encap mine saw) = Ok (encap, mine, Z.max saw 0).
Proof.
  intros He Hm Hs. unfold parseReplyPayload, replyPayloadBlock, versionSep.
  change (String "000"%char "" +:+ ?x) with (String "000"%char ("" +:+ x)).
  rewrite (Cut_app encap "000"%char "" _ He).
  change (HasPrefix ("v" +:+ _) "v") with true.
  change (TrimPrefix ("v" +:+ ?x) "v") with x. cbn [negb].
  change ("," +:+ ?x) with (String ","%char ("" +:+ x)). rewrite Cut_app.
  - rewrite !Atoi_Itoa by lia. by zbool.
  - rewrite Itoa_nonneg by lia. apply digits_no_comma, FormatUint_digits. lia.
Qed.

Lemma parse_legacy encap : no_nul encap → parseReplyPayload encap = Ok (encap, versionLegacy, versionLegacy).
Proof. intros He. unfold parseReplyPayload, versionSep. by rewrite Cut_none. Qed.

(** ** Properties *)

(** Version negotiation. The dialler reads the listener's reply back as it
    was written: a dialler that announced nothing gets the encapsulation alone
    and takes the listener to be legacy; one that announced [saw] gets the
    listener's version and the echo of its own, and both ends settle on the
    same version, which neither exceeds. *)
Theorem reply_roundtrip (encap : string) (mine saw : Z) :
  no_nul encap → 0 ≤ mine < 2^63 → saw < 2^63 →
  parseReplyPayload (replyPayload encap mine saw) =
    Ok (if saw <=? versionLegacy then (encap, versionLegacy, versionLegacy) else (encap, mine, saw)) ∧
  parseReplyPayload (replyPayloadBlock encap mine saw) = Ok (encap, mine, Z.max saw 0) ∧
  agreedVersion saw mine = agreedVersion mine saw ∧
  agreedVersion mine saw ≤ mine ∧ agreedVersion mine saw ≤ saw.
Proof.
  intros He Hm Hs. split_and!.
  - unfold replyPayload. destruct (Z.leb_spec saw versionLegacy) as [Hv|Hv].
    + by apply parse_legacy.
    + rewrite parse_block by done. unfold versionLegacy in Hv. by rewrite Z.max_l by lia.
  - by apply parse_block.
  - unfold agreedVersion. destruct (Z.ltb_spec saw mine), (Z.ltb_spec mine saw); lia.
  - unfold agreedVersion. destruct (Z.ltb_spec saw mine); lia.
  - unfold agreedVersion. destruct (Z.ltb_spec saw mine); lia.
Qed.

Lemma reply_roundtrip_witness :
  parseReplyPayload (replyPayload "gre:7" versionCurrent 2) = Ok ("gre:7", 2, 2).
Proof.
  apply (reply_roundtrip "gre:7" versionCurrent 2); [|split; vm_compute; congruence|reflexivity].
  unfold no_nul, all_chars. repeat constructor.
Defined.

(** Whatever reply arrives, the version taken from it is one that exists:
    [parseReplyPayload] never hands back a negative version, so the agreed
    version is never negative either. *)
Theorem reply_never_negative (payload encap : string) (theirs sawMine mine : Z) :
  parseReplyPayload payload = Ok (encap, theirs, sawMine) → 0 ≤ mine →
  0 ≤ theirs ∧ 0 ≤ sawMine ∧ 0 ≤ agreedVersion mine theirs ≤ mine.
Proof.
  intros Hp Hm. assert (0 ≤ theirs ∧ 0 ≤ sawMine) as [H1 H2].
  { unfold parseReplyPayload in Hp. repeat go_case_in Hp; simplify_eq; bool_to_prop; unfold versionLegacy; lia. }
  unfold agreedVersion. destruct (Z.ltb_spec theirs mine); lia.
Qed.

Definition zero_block : string := "ipip" +:+ versionSep +:+ "v1,0".

Lemma reply_never_negative_witness : 0 ≤ agreedVersion 2 1 ≤ 2.
Proof.
  apply (reply_never_negative zero_block "ipip" 1 0 2); [reflexivity|vm_compute; discriminate].
Defined.

End Version.

(** ** Timestamps *)

Module Freshness.
Import Version.

Definition freshSep : string := versionSep +:+ "t".
Definition legacyRetry : Z := 30 * Minute.

(** [errTimestamp] is the parse error; the other two are [admit]'s refusals. *)
Inductive error : Type :=
| errTimestamp
| errNoTimestamp
| errNotNewer (fresh last : Z).

Definition initPayload (encap : string) (fresh : Z) : string :=
  if fresh =? 0 then encap else encap +:+ freshSep +:+ FormatUint fresh.

Definition parseInitPayload (payload : string) : result error (string * Z) :=
  match Cut payload freshSep with
  | None => Ok (payload, 0)
  | Some (encap, rest) =>
      match ParseUint rest with
      | None => Err errTimestamp
      | Some fresh => if fresh =? 0 then Err errTimestamp else Ok (encap, fresh)
      end
  end.

(** [freshClock] is its one field [last]; [next] returns the timestamp, which
    is also the new [last]. [now] is [UnixNano()]. *)
Definition next (last now : Z) : Z :=
  let ts := u64 now in
  if ts <=? last then u64 (last + 1) else ts.

Record freshJudge : Type := mkJudge { last : Z; required : bool }.

Definition admit_ (j : freshJudge) (fresh : Z) : result error unit * freshJudge :=
  if fresh =? 0 then
    if required j then (Err errNoTimestamp, j) else (Ok tt, j)
  else if fresh <=? last j then (Err (errNotNewer fresh (last j)), j)
  else (Ok tt, mkJudge fresh true).

(** The timestamps a clock hands out at the given times. *)
Fixpoint clock_run (last : Z) (times : list Z) : list Z :=
  match times with
  | [] => []
  | now :: times => let ts := next last now in ts :: clock_run ts times
  end.

(** The attempts a judge admits, in order. *)
Fixpoint admitted (j : freshJudge) (attempts : list Z) : list Z :=
  match attempts with
  | [] => []
  | fresh :: attempts =>
      let '(r, j') := admit_ j fresh in
      (if is_ok r then [fresh] else []) ++ admitted j' attempts
  end.

(** ** Lemmas *)

Lemma next_spec last now :
  0 ≤ last < 2^64 - 1 →
  last < next last now < 2^64 ∧ (next last now = u64 now ∨ next last now = last + 1).
Proof.
  intros Hl. unfold next. pose proof (u64_range now).
  destruct (Z.leb_spec (u64 now) last); [rewrite u64_small by lia|]; lia.
Qed.

Lemma parse_init (encap : string) (fresh : Z) :
  no_nul encap → 0 ≤ fresh < 2^64 →
  parseInitPayload (initPayload encap fresh) = Ok (encap, fresh).
Proof.
  intros He Hf. unfold initPayload, parseInitPayload.
  change freshSep with (String "000"%char "t").
  destruct (Z.eqb_spec fresh 0) as [->|Hn].
  - by rewrite Cut_none.
  - change (String "000"%char "t" +:+ ?x) with (String "000"%char ("t" +:+ x)).
    rewrite Cut_app by done. rewrite ParseUint_FormatUint by done. by zbool.
Qed.

(** What [admit] lets through after [j]: rising, above [last], and never the
    legacy zero once a timestamp is required. *)
Lemma admitted_rising attempts j :
  Forall (λ f, 0 ≤ f) attempts → 0 ≤ last j →
  StronglySorted Z.lt (filter (λ f, f ≠ 0) (admitted j attempts)) ∧
  Forall (λ f, f ≠ 0 → last j < f) (admitted j attempts) ∧
  (required j = true → Forall (λ f, f ≠ 0) (admitted j attempts)).
Proof.
  revert j. induction attempts as [|f attempts IH]; intros j Hf Hj; [repeat constructor|].
  apply Forall_cons in Hf as [Hf Hfs]. cbn [admitted]. unfold admit_.
  destruct (Z.eqb_spec f 0) as [->|Hn].
  { destruct (IH j Hfs Hj) as (H1 & H2 & H3). destruct (required j) eqn:Er; cbn [is_ok app].
    - auto.
    - rewrite filter_cons_False by (intros H; exact (H eq_refl)).
      split_and!; [exact H1|constructor; [intros H; exfalso; exact (H eq_refl)|exact H2]|done]. }
  destruct (Z.leb_spec f (last j)) as [Hle|Hlt]; cbn [is_ok app]; [by apply IH|].
  destruct (IH (mkJudge f true) Hfs ltac:(cbn; lia)) as (H1 & H2 & H3).
  specialize (H3 eq_refl). cbn [last] in H2.
  rewrite filter_cons_True by exact Hn. split_and!.
  - constructor; [exact H1|]. apply Forall_forall. intros x Hx%list_elem_of_filter.
    destruct Hx as [Hx0 Hx]. by apply (proj1 (Forall_forall _ _) H2 x Hx).
  - constructor; [lia|]. eapply Forall_impl; [exact H2|]. cbn. intros x Hx Hx0. specialize (Hx Hx0). lia.
  - intros _. by constructor.
Qed.

(** ** Properties *)

(** The handshake payload round-trips: the listener reads back the
    encapsulation and the timestamp the dialler wrote, and a legacy payload
    reads as timestamp zero. *)
Theorem init_roundtrip (encap : string) (fresh : Z) :
  no_nul encap → 0 ≤ fresh < 2^64 →
  parseInitPayload (initPayload encap fresh) = Ok (encap, fresh).
Proof. apply parse_init. Qed.

Lemma init_roundtrip_witness :
  parseInitPayload (initPayload "ipip" 1722945600000000000) = Ok ("ipip", 1722945600000000000).
Proof.
  apply (init_roundtrip "ipip" 1722945600000000000); [|split; vm_compute; congruence].
  unfold no_nul, all_chars. repeat constructor.
Defined.

(** C12: no handshake is accepted twice. Whatever sequence of attempts reaches
    the listener (recorded ones included), the timestamps it admits rise
    strictly, so none repeats, and after the first no legacy payload is
    admitted again. *)
Theorem judge_no_replay (j : freshJudge) (fresh : Z) (attempts : list Z) :
  Forall (λ f, 0 ≤ f) attempts → 0 ≤ last j →
  StronglySorted Z.lt (filter (λ f, f ≠ 0) (admitted j attempts)) ∧
  (0 < fresh → is_ok (fst (admit_ j fresh)) = true →
   Forall (λ f, fresh < f) (admitted (snd (admit_ j fresh)) attempts)).
Proof.
  intros Hf Hj. split; [by apply admitted_rising|]. intros Hpos Hok.
  unfold admit_ in *. rewrite (proj2 (Z.eqb_neq fresh 0)) in * by lia.
  destruct (Z.leb_spec fresh (last j)) as [Hle|Hlt]; [done|]. cbn [snd].
  destruct (admitted_rising attempts (mkJudge fresh true) Hf ltac:(cbn; lia)) as (_ & H2 & H3).
  specialize (H3 eq_refl). cbn [last] in H2.
  apply Forall_forall. intros x Hx. apply (proj1 (Forall_forall _ _) H2 x Hx).
  exact (proj1 (Forall_forall _ _) H3 x Hx).
Qed.

Lemma judge_no_replay_witness :
  admitted (mkJudge 0 false) [0; 5; 5; 0; 7; 6] = [0; 5; 7] ∧
  StronglySorted Z.lt (filter (λ f, f ≠ 0) (admitted (mkJudge 0 false) [0; 5; 5; 0; 7; 6])).
Proof.
  split; [reflexivity|].
  apply (judge_no_replay (mkJudge 0 false) 5 [0; 5; 5; 0; 7; 6]); [|cbn; lia].
  repeat constructor; lia.
Defined.

(** An honest dialler is never refused: whatever its wall clock does
    between handshakes, backwards included, each timestamp its [freshClock]
    hands out is newer than all before, and a listener that has seen no more
    than the dialler sent admits every one. *)
Theorem clock_admitted (times : list Z) (j : freshJudge) (c : Z) :
  0 ≤ last j ≤ c → c + zlen times < 2^63 →
  Forall (λ now, 0 ≤ now ∧ now + zlen times < 2^63) times →
  admitted j (clock_run c times) = clock_run c times.
Proof.
  revert j c. induction times as [|now times IH]; intros j c Hc Hb Ht; [done|].
  apply Forall_cons in Ht as [Hn Ht].
  assert (zlen (now :: times) = zlen times + 1) as Hz by (unfold zlen; simpl; lia).
  rewrite Hz in *. pose proof (zlen_nonneg times).
  destruct (next_spec c now ltac:(lia)) as [Hnx Hcase]. rewrite u64_small in Hcase by lia.
  cbn [clock_run admitted]. unfold admit_.
  rewrite (proj2 (Z.eqb_neq _ 0)) by lia. rewrite (proj2 (Z.leb_gt _ _)) by lia. cbn [is_ok app].
  f_equal. apply IH; cbn [last]; [lia|lia|].
  eapply Forall_impl; [exact Ht|]. cbn. intros x Hx. lia.
Qed.

Lemma clock_admitted_witness :
  admitted (mkJudge 0 false) (clock_run 0 [100; 90; 101; 500]) = [100; 101; 102; 500].
Proof.
  rewrite (clock_admitted [100; 90; 101; 500] (mkJudge 0 false) 0); [reflexivity|cbn; lia|reflexivity|].
  repeat constructor; vm_compute; congruence.
Defined.

End Freshness.
