(* ===== verification/L3Encap.v ===== *)
(** The encapsulation: [src/internal/tunnel/l3/encap.go], whole, and
    [encapID] of [session.go].

    [Encap] is the Go interface as a record of operations; [EncapLaws] is what
    the tunnel relies on from any implementation, and [greEncap_laws]
    discharges it for the one the program ships. *)

From Stdlib Require Import Ascii String.
From S2P Require Import Prelude.
From S2P Require Import GoStr.
Import GoStr.
Open Scope string_scope.
Open Scope list_scope.
Open Scope Z_scope.

Module Encap.

Inductive error : Type :=
| errEmptyPacket
| errBadIPVersion
| errShortGRE
| errGREFlags
| errGREKeyMissing
| errGREKeyWrong
| errGREProto
| errUnknownEncap (name : string).

Definition etherIPv4 : Z := 0x0800.
Definition etherIPv6 : Z := 0x86DD.
Definition greKeyPresent : Z := 0x2000.

(** The interface. [Wrap dst pkt] appends to [dst]. *)
Record Encap : Type := mkEncap {
  Name : string;
  Overhead : nat;
  Wrap : list Z → list Z → result error (list Z);
  Unwrap : list Z → result error (list Z)
}.

Definition ipVersion (pkt : list Z) : result error Z :=
  match pkt with
  | [] => Err errEmptyPacket
  | b :: _ =>
      let v := Z.shiftr b 4 in
      if (v =? 4) || (v =? 6) then Ok v else Err errBadIPVersion
  end.

Record greEncap : Type := mkGre { key : Z; keyed : bool }.

Definition greOverhead (g : greEncap) : nat := if keyed g then 8 else 4.

Definition greWrap (g : greEncap) (dst pkt : list Z) : result error (list Z) :=
  let? version := ipVersion pkt in
  let proto := if version =? 6 then etherIPv6 else etherIPv4 in
  let flags := if keyed g then greKeyPresent else 0 in
  let hdr := put_be 2 flags ++ put_be 2 proto ++ (if keyed g then put_be 4 (key g) else put_be 4 0) in
  Ok ((dst ++ take (greOverhead g) hdr) ++ pkt)%list.

(** The key check of [Unwrap]: the offset of the inner packet. *)
Definition greOffset (g : greEncap) (flags : Z) (frame : list Z) : result error nat :=
  if negb (Z.land flags greKeyPresent =? 0) then
    if (length frame <? 8)%nat then Err errShortGRE
    else if negb (keyed g) then Err errGREKeyWrong
    else if negb (get_be (slice frame 4 8) =? key g) then Err errGREKeyWrong
    else Ok 8%nat
  else if keyed g then Err errGREKeyMissing
  else Ok 4%nat.

Definition greUnwrap (g : greEncap) (frame : list Z) : result error (list Z) :=
  if (length frame <? 4)%nat then Err errShortGRE
  else
    let flags := get_be (slice frame 0 2) in
    let proto := get_be (slice frame 2 4) in
    if negb (Z.ldiff flags greKeyPresent =? 0) then Err errGREFlags
    else if negb ((proto =? etherIPv4) || (proto =? etherIPv6)) then Err errGREProto
    else
      let? offset := greOffset g flags frame in
      let inner := drop offset frame in
      let? version := ipVersion inner in
      if negb (Bool.eqb (version =? 4) (proto =? etherIPv4)) then Err errGREProto
      else Ok inner.

Definition gre (g : greEncap) : Encap :=
  mkEncap "gre" (greOverhead g) (greWrap g) (greUnwrap g).

Definition NewEncap (name : string) (greKey : Z) : result error greEncap :=
  let n := ToLower (TrimSpace name) in
  if bool_decide (n ∈ [""; "ipip"; "gre"]) then Ok (mkGre greKey (negb (greKey =? 0)))
  else Err (errUnknownEncap name).

Definition encapID (g : greEncap) : string :=
  if keyed g then "gre:" +:+ FormatUint (key g) else Name (gre g).

(** What the rest of the program relies on from an encapsulation. *)
Class EncapLaws (e : Encap) : Prop := {
  wrap_accepts : ∀ dst pkt, is_ok (Wrap e dst pkt) = is_ok (ipVersion pkt);
  wrap_appends : ∀ dst pkt f,
    Wrap e dst pkt = Ok f → ∃ f', Wrap e [] pkt = Ok f' ∧ f = (dst ++ f')%list;
  wrap_length : ∀ pkt f, Wrap e [] pkt = Ok f → length f = (Overhead e + length pkt)%nat;
  wrap_bytes : ∀ pkt f, bytes_ok pkt → Wrap e [] pkt = Ok f → bytes_ok f;
  unwrap_wrap : ∀ pkt f, bytes_ok f → (Unwrap e f = Ok pkt ↔ bytes_ok pkt ∧ Wrap e [] pkt = Ok f)
}.

(** A [greEncap] as [NewEncap] builds it: the key is a uint32. *)
Definition gre_wf (g : greEncap) : Prop := 0 ≤ key g < 2^32.

(** ** Lemmas *)

Lemma ipVersion_Ok pkt v : ipVersion pkt = Ok v → (v = 4 ∨ v = 6) ∧ pkt ≠ [].
Proof.
  unfold ipVersion. destruct pkt as [|b pkt]; [done|].
  destruct (_ || _) eqn:E; [|done]. intros [= <-]. bool_to_prop. split; [|done].
  destruct E as [E|E]; apply Z.eqb_eq in E; auto.
Qed.

(** A word with nothing but the K bit is one of the two flag words. *)
Lemma flags_cases f : Z.ldiff f greKeyPresent = 0 → f = 0 ∨ f = greKeyPresent.
Proof.
  intros H. assert (f = if Z.testbit f 13 then greKeyPresent else 0) as E.
  { apply Z.bits_inj'. intros n Hn. apply (f_equal (λ z, Z.testbit z n)) in H.
    rewrite Z.ldiff_spec, Z.bits_0 in H. unfold greKeyPresent in *. change 0x2000 with (2^13) in *.
    rewrite Z.pow2_bits_eqb in H by lia. destruct (Z.eqb_spec 13 n) as [Heq|Hne].
    - rewrite <- Heq. destruct (Z.testbit f 13); [by rewrite Z.pow2_bits_true by lia|by rewrite Z.bits_0].
    - rewrite andb_true_r in H. rewrite H. destruct (Z.testbit f 13); [|by rewrite Z.bits_0].
      rewrite Z.pow2_bits_eqb by lia. symmetry. by apply Z.eqb_neq. }
  rewrite E. destruct (Z.testbit f 13); auto.
Qed.

(** The header [greWrap] writes before the packet. *)
Definition gre_header (g : greEncap) (proto : Z) : list Z :=
  put_be 2 (if keyed g then greKeyPresent else 0) ++ put_be 2 proto ++
  (if keyed g then put_be 4 (key g) else []).

Lemma greWrap_eq g dst pkt :
  greWrap g dst pkt =
    let? version := ipVersion pkt in
    Ok (dst ++ gre_header g (if version =? 6 then etherIPv6 else etherIPv4) ++ pkt)%list.
Proof.
  unfold greWrap, gre_header, greOverhead. destruct (ipVersion pkt) as [v|]; [|done].
  cbn [result_bind]. f_equal. rewrite <- app_assoc. f_equal. f_equal.
  destruct (keyed g).
  - apply take_ge. rewrite !length_app, !length_put_be. lia.
  - rewrite !app_assoc, take_app_le by (rewrite length_app, !length_put_be; lia).
    rewrite take_ge by (rewrite length_app, !length_put_be; lia). by rewrite app_nil_r.
Qed.

Lemma length_gre_header g p : length (gre_header g p) = greOverhead g.
Proof.
  unfold gre_header, greOverhead. rewrite !length_app, !length_put_be.
  destruct (keyed g); rewrite ?length_put_be; reflexivity.
Qed.

Lemma gre_header_ok g p : bytes_ok (gre_header g p).
Proof.
  unfold gre_header. rewrite !bytes_ok_app. destruct (keyed g); auto using put_be_ok.
  split_and!; try apply put_be_ok. constructor.
Qed.

(** The header as the three fields [Unwrap] reads. *)
Lemma gre_header_fields g p rest :
  0 ≤ p < 2^16 → gre_wf g →
  let frame := (gre_header g p ++ rest)%list in
  get_be (slice frame 0 2) = (if keyed g then greKeyPresent else 0) ∧
  get_be (slice frame 2 4) = p ∧
  (keyed g = true → get_be (slice frame 4 8) = key g) ∧
  drop (greOverhead g) frame = rest.
Proof.
  intros Hp Hk frame. unfold frame, gre_header. rewrite <- !app_assoc. split_and!.
  - rewrite slice_app_l by apply length_put_be. apply get_put_be_small. destruct (keyed g); cbv; by split.
  - rewrite slice_app_r by (rewrite length_put_be; lia). rewrite length_put_be.
    rewrite slice_app_l by (rewrite length_put_be; lia). by apply get_put_be_small.
  - intros ->. rewrite !slice_app_r by (rewrite ?length_put_be; lia). rewrite !length_put_be.
    rewrite slice_app_l by (rewrite length_put_be; lia). by apply get_put_be_small.
  - rewrite !app_assoc. apply drop_app_length'. rewrite <- (length_gre_header g p). unfold gre_header.
    by rewrite !app_assoc.
Qed.

Lemma proto_range (v : Z) : 0 ≤ (if v =? 6 then etherIPv6 else etherIPv4) < 2^16.
Proof. destruct (v =? 6); cbv; by split. Qed.

(** What [Wrap] makes, [Unwrap] undoes. *)
Lemma gre_unwrap_wrap g pkt f :
  gre_wf g → greWrap g [] pkt = Ok f → greUnwrap g f = Ok pkt.
Proof.
  intros Hg. rewrite greWrap_eq. destruct (ipVersion pkt) as [v|] eqn:Ev; [|done].
  cbn [result_bind app]. intros <-%Ok_inj. set (p := if v =? 6 then etherIPv6 else etherIPv4).
  destruct (gre_header_fields g p pkt (proto_range v) Hg) as (H1 & H2 & H3 & H4).
  unfold greUnwrap, greOffset. rewrite H1, H2.
  assert (length (gre_header g p ++ pkt) = greOverhead g + length pkt)%nat as Hlen
    by (rewrite length_app, length_gre_header; done).
  assert (4 ≤ greOverhead g)%nat by (unfold greOverhead; destruct (keyed g); lia).
  rewrite (proj2 (Nat.ltb_ge _ _)) by lia.
  replace ((p =? etherIPv4) || (p =? etherIPv6)) with true
    by (unfold p; destruct (v =? 6); reflexivity). cbn [negb].
  apply ipVersion_Ok in Ev as Hv. destruct Hv as [Hv _].
  assert (Bool.eqb (v =? 4) (p =? etherIPv4) = true) as Hvp by (destruct Hv as [-> | ->]; reflexivity).
  assert (greOverhead g = if keyed g then 8 else 4)%nat as Ho by reflexivity.
  destruct (keyed g) eqn:Ek.
  - change (Z.ldiff greKeyPresent greKeyPresent =? 0) with true.
    change (Z.land greKeyPresent greKeyPresent =? 0) with false. cbn [negb].
    rewrite (proj2 (Nat.ltb_ge _ _)) by lia. rewrite (H3 eq_refl), Z.eqb_refl. cbn [negb result_bind].
    rewrite <- Ho, H4, Ev. cbn [result_bind]. by rewrite Hvp.
  - change (Z.ldiff 0 greKeyPresent =? 0) with true.
    change (Z.land 0 greKeyPresent =? 0) with true. cbn [negb result_bind].
    rewrite <- Ho, H4, Ev. cbn [result_bind]. by rewrite Hvp.
Qed.

(** What [Unwrap] accepts is what [Wrap] makes. *)
Lemma gre_wrap_unwrap g pkt f :
  bytes_ok f → greUnwrap g f = Ok pkt → bytes_ok pkt ∧ greWrap g [] pkt = Ok f.
Proof.
  intros Hf. unfold greUnwrap. destruct (Nat.ltb_spec (length f) 4) as [|Hl]; [done|].
  destruct (Z.eqb_spec (Z.ldiff (get_be (slice f 0 2)) greKeyPresent) 0) as [Hfl|]; [|done].
  cbn [negb]. destruct (_ || _) eqn:Hp; [|done]. cbn [negb].
  destruct (greOffset g _ f) as [off|] eqn:Eo; [|done]. cbn [result_bind].
  destruct (ipVersion (drop off f)) as [v|] eqn:Ev; [|done]. cbn [result_bind].
  destruct (Bool.eqb _ _) eqn:Evp; [|done]. cbn [negb]. intros [= <-].
  split; [by apply bytes_ok_drop|]. rewrite greWrap_eq, Ev. cbn [result_bind app]. f_equal.
  apply eqb_prop in Evp. apply ipVersion_Ok in Ev as [Hv _]. bool_to_prop.
  assert (get_be (slice f 2 4) = if v =? 6 then etherIPv6 else etherIPv4) as Hproto.
  { destruct Hv as [-> | ->], Hp as [Hp|Hp]; apply Z.eqb_eq in Hp; rewrite Hp in *; done. }
  rewrite <- Hproto.
  assert (∀ lo hi, (lo ≤ hi ≤ length f)%nat → put_be (hi - lo) (get_be (slice f lo hi)) = slice f lo hi) as Hput.
  { intros lo hi Hlh. apply put_get_be; [by apply bytes_ok_slice|by apply length_slice]. }
  pose proof (Hput 0 2 ltac:(lia))%nat as H0. pose proof (Hput 2 4 ltac:(lia))%nat as H2.
  pose proof (slice_drop f 0 2 ltac:(lia)) as D0. pose proof (slice_drop f 2 4 ltac:(lia)) as D2.
  rewrite drop_0 in D0. unfold gre_header, greOffset in *.
  destruct (flags_cases _ Hfl) as [Ef|Ef]; rewrite Ef in *.
  - change (Z.land 0 greKeyPresent =? 0) with true in Eo. cbn [negb] in Eo.
    destruct (keyed g); [done|]. injection Eo as <-.
    rewrite <- !app_assoc. cbn [app]. simpl in H0, H2. by rewrite H0, H2, <- D2.
  - change (Z.land greKeyPresent greKeyPresent =? 0) with false in Eo. cbn [negb] in Eo.
    destruct (Nat.ltb_spec (length f) 8) as [|Hl8]; [done|]. destruct (keyed g); [|done].
    cbn [negb] in Eo. destruct (Z.eqb_spec (get_be (slice f 4 8)) (key g)) as [Ek|]; [|done].
    injection Eo as <-. pose proof (Hput 4 8 ltac:(lia))%nat as H4.
    pose proof (slice_drop f 4 8 ltac:(lia)) as D4. rewrite Ek in H4.
    rewrite <- !app_assoc. simpl in H0, H2, H4. by rewrite H0, H2, H4, <- D4, <- D2.
Qed.

#[export] Instance greEncap_laws g : gre_wf g → EncapLaws (gre g).
Proof.
  intros Hg. constructor; cbn [Wrap Unwrap Overhead gre].
  - intros dst pkt. rewrite greWrap_eq. by destruct (ipVersion pkt).
  - intros dst pkt f. rewrite !greWrap_eq. destruct (ipVersion pkt) as [v|]; [|done].
    cbn [result_bind app]. intros <-%Ok_inj. by eexists.
  - intros pkt f. rewrite greWrap_eq. destruct (ipVersion pkt) as [v|]; [|done].
    cbn [result_bind app]. intros <-%Ok_inj. by rewrite length_app, length_gre_header.
  - intros pkt f Hp. rewrite greWrap_eq. destruct (ipVersion pkt) as [v|]; [|done].
    cbn [result_bind app]. intros <-%Ok_inj. apply bytes_ok_app. split; [apply gre_header_ok|done].
  - intros pkt f Hf. split; [by apply gre_wrap_unwrap|]. intros [_ H]. by apply gre_unwrap_wrap.
Qed.

(** ** Properties *)

(** The GRE framing is exact in both directions: [Unwrap] accepts a frame
    and yields a packet just when [Wrap] makes that frame of that packet, so a
    frame with the wrong key, other flags, or a protocol field that disagrees
    with the packet is refused; [Wrap] adds exactly [Overhead] bytes, the
    figure the MTU is computed with, and refuses only what is not IP. *)
Theorem gre_exact (g : greEncap) (pkt f : list Z) :
  gre_wf g → bytes_ok f →
  (greUnwrap g f = Ok pkt ↔ bytes_ok pkt ∧ greWrap g [] pkt = Ok f) ∧
  (greWrap g [] pkt = Ok f → length f = (greOverhead g + length pkt)%nat) ∧
  is_ok (greWrap g [] pkt) = is_ok (ipVersion pkt).
Proof.
  intros Hg Hf. pose proof (greEncap_laws g Hg) as Laws. split_and!.
  - exact (unwrap_wrap (e := gre g) pkt f Hf).
  - exact (wrap_length (e := gre g) pkt f).
  - exact (wrap_accepts (e := gre g) [] pkt).
Qed.

Definition sample_frame : list Z := [0x20; 0; 0x08; 0; 0; 0; 0; 7; 0x45; 1; 2].

Lemma gre_exact_witness : greUnwrap (mkGre 7 true) sample_frame = Ok [0x45; 1; 2].
Proof.
  apply (gre_exact (mkGre 7 true) [0x45; 1; 2] sample_frame).
  - split; [cbn; lia|reflexivity].
  - by apply (bool_decide_unpack _).
  - split; [by apply (bool_decide_unpack _)|reflexivity].
Defined.

(** Two tunnels with different GRE keys never mix: a frame one of them
    wrapped is refused by the other, and [encapID], which the handshake
    compares, tells the two apart as well. *)
Theorem gre_key_isolates (g1 g2 : greEncap) (pkt f : list Z) :
  gre_wf g1 → gre_wf g2 → bytes_ok pkt →
  (keyed g1, if keyed g1 then key g1 else 0) ≠ (keyed g2, if keyed g2 then key g2 else 0) →
  greWrap g1 [] pkt = Ok f →
  is_ok (greUnwrap g2 f) = false ∧ encapID g1 ≠ encapID g2.
Proof.
  intros H1 H2 Hp Hne Hw. split.
  - destruct (greUnwrap g2 f) as [pkt'|] eqn:Hu; [|done]. exfalso. apply Hne.
    assert (bytes_ok f) as Hf by exact (wrap_bytes (EncapLaws := greEncap_laws g1 H1) pkt f Hp Hw).
    apply gre_wrap_unwrap in Hu as [_ Hu]; [|done]. rewrite greWrap_eq in Hw, Hu.
    destruct (ipVersion pkt) as [v|], (ipVersion pkt') as [v'|]; try done.
    cbn [result_bind app] in *. apply Ok_inj in Hw as <-. apply Ok_inj in Hu.
    destruct (gre_header_fields g1 _ pkt (proto_range v) H1) as (A1 & _ & A3 & _).
    destruct (gre_header_fields g2 _ pkt' (proto_range v') H2) as (B1 & _ & B3 & _).
    rewrite Hu, A1 in B1. rewrite Hu in B3.
    destruct (keyed g1), (keyed g2); try (exfalso; discriminate B1); [|done].
    by rewrite <- A3, <- B3 by done.
  - unfold encapID. unfold gre_wf in *. destruct (keyed g1), (keyed g2).
    + intros E. apply Hne. f_equal.
      apply (f_equal (λ s, TrimPrefix s "gre:")) in E.
      change (FormatUint (key g1) = FormatUint (key g2)) in E.
      apply (f_equal ParseUint) in E. rewrite !ParseUint_FormatUint in E by lia. by injection E.
    + intros [=].
    + intros [=].
    + by destruct Hne.
Qed.

Lemma gre_key_isolates_witness : is_ok (greUnwrap (mkGre 8 true) sample_frame) = false.
Proof.
  apply (gre_key_isolates (mkGre 7 true) (mkGre 8 true) [0x45; 1; 2] sample_frame).
  - split; [cbn; lia|reflexivity].
  - split; [cbn; lia|reflexivity].
  - by apply (bool_decide_unpack _).
  - discriminate.
  - reflexivity.
Defined.

End Encap.
