(* ===== verification/L3Session.v ===== *)
(** The cryptographic session: [src/internal/tunnel/l3/session.go].

    The Noise library and HKDF are not under [src/]: they are the record of
    operations [Noise], a parameter of every definition that calls them, and
    [NoiseLaws] is what their documentation says of them (NNpsk0's two
    messages, an AEAD that decrypts what it encrypted and nothing else). Module
    [ToyNoise] is an instance of both, for concrete runs.

    [rand.Read] is the argument [draws]; [time.Now()] is the argument [now];
    [HandshakeState]s and sessions are objects the code mutates, so each
    operation returns the new one. *)

From Stdlib Require Import Ascii String Sorted.
From S2P Require Import Prelude.
From S2P Require Import GoStr.
From S2P Require Import L3Wire.
From S2P Require Import L3Replay.
From S2P Require Import L3Fresh.
Import GoStr Wire Replay Version Freshness.
Open Scope string_scope.
Open Scope list_scope.
Open Scope Z_scope.

Module Session.

(** ** What the program calls of Noise and HKDF *)

Record Noise : Type := mkNoise {
  HandshakeState : Type;
  Cipher : Type;
  (** 32 bytes of [hkdf.New(sha256.New, token, label, nil)]. *)
  hkdf32 : string → string → list Z;
  (** [NewHandshakeState] with the fixed suite and NNpsk0: prologue, key,
      initiator, and the randomness of the ephemeral key. *)
  NewHandshakeState : string → list Z → bool → Z → HandshakeState;
  WriteMessage : HandshakeState → list Z → option (list Z * option (Cipher * Cipher) * HandshakeState);
  ReadMessage : HandshakeState → list Z → option (list Z * option (Cipher * Cipher)) * HandshakeState;
  Encrypt : Cipher → Z → list Z → list Z → list Z;
  Decrypt : Cipher → Z → list Z → list Z → option (list Z)
}.

Class NoiseLaws (N : Noise) : Prop := {
  hkdf_length : ∀ t l, length (hkdf32 N t l) = 32%nat;
  (** The two messages of NNpsk0 between holders of one key: each payload
      arrives, and both ends derive the same pair of transport keys. *)
  nnpsk0 : ∀ pro psk r1 r2 p1 p2, length psk = 32%nat → bytes_ok p1 → bytes_ok p2 →
    ∃ m1 hi hr m2 hr' c0 c1 hi',
      WriteMessage N (NewHandshakeState N pro psk true r1) p1 = Some (m1, None, hi) ∧
      ReadMessage N (NewHandshakeState N pro psk false r2) m1 = (Some (p1, None), hr) ∧
      WriteMessage N hr p2 = Some (m2, Some (c0, c1), hr') ∧
      ReadMessage N hi m2 = (Some (p2, Some (c0, c1)), hi');
  (** A first message written under another key is refused. *)
  nnpsk0_key : ∀ pro psk psk' r1 r2 p1 m1 k hi, length psk = 32%nat → length psk' = 32%nat →
    psk ≠ psk' → WriteMessage N (NewHandshakeState N pro psk true r1) p1 = Some (m1, k, hi) →
    fst (ReadMessage N (NewHandshakeState N pro psk' false r2) m1) = None;
  (** The AEAD: what decrypts is exactly what was encrypted. *)
  decrypt_iff : ∀ k n ad c p, bytes_ok p → bytes_ok c →
    (Decrypt N k n ad c = Some p ↔ c = Encrypt N k n ad p);
  decrypt_ok : ∀ k n ad c p, bytes_ok c → Decrypt N k n ad c = Some p → bytes_ok p;
  encrypt_ok : ∀ k n ad p, bytes_ok p → bytes_ok (Encrypt N k n ad p);
  encrypt_length : ∀ k n ad p, length (Encrypt N k n ad p) = (length p + tagLen)%nat
}.

(** ** Constants and errors *)

Definition l3Prologue : string := "backpack-l3-v1".
Definition l3PSKLabel : string := "backpack-l3-psk-v1".
Definition rekeyAfterMessages : Z := 2^48.
Definition rejectAfterMessages : Z := 2^60.
Definition rekeyAfterTime : Z := 2 * Minute.
Definition rejectAfterTime : Z := 5 * Minute.

Inductive error : Type :=
| errSessionExhausted
| errReplayed
| errDecrypt
| errHandshakeShort
| errHandshakeRejected
| errWriteMessage
| errBadPayload (e : Freshness.error)
| errBadReply (e : Version.error)
| errEncapMismatch (mine theirs : string)
| errDowngraded (sent seen : Z)
| errPeerLegacy
| errDrawID
| errNoDistinctID.

Section WithNoise.
Context (N : Noise).

Record session : Type := mkSession {
  id : Z;
  created : Z;
  send : Cipher N;
  recv : Cipher N;
  sendCounter : Z;
  replay : replayWindow
}.

Definition newSession (sid now : Z) (cs : option (Cipher N * Cipher N)) : result error session :=
  match cs with
  | None => Err errHandshakeShort
  | Some (sendCS, recvCS) => Ok (mkSession sid now sendCS recvCS 0 zero_window)
  end.

Definition set_counter (s : session) (c : Z) : session :=
  mkSession (id s) (created s) (send s) (recv s) c (replay s).
Definition set_replay (s : session) (w : replayWindow) : session :=
  mkSession (id s) (created s) (send s) (recv s) (sendCounter s) w.

(** [s.sendCounter.Add(1) - 1], then the refusal, then the datagram. *)
Definition sealKind (s : session) (plaintext : list Z) (k : Z) : result error (list Z) * session :=
  let s' := set_counter s (u64 (sendCounter s + 1)) in
  let counter := u64 (sendCounter s' - 1) in
  if rejectAfterMessages <=? counter then (Err errSessionExhausted, s')
  else
    let ad := bytes (mkHeader k (id s) counter) in
    (Ok (ad ++ Encrypt N (send s) counter ad plaintext), s').

Definition seal (s : session) (plaintext : list Z) : result error (list Z) * session :=
  sealKind s plaintext typeData.

(** [None] is "still clearing the replay window". *)
Definition open (s : session) (h : header) (body : list Z) : option (result error (list Z) * session) :=
  if negb (accept (replay s) (counter h)) then Some (Err errReplayed, s)
  else
    match Decrypt N (recv s) (counter h) (bytes h) body with
    | None => Some (Err errDecrypt, s)
    | Some plain =>
        w ← commit commit_fuel (replay s) (counter h);
        Some (Ok plain, set_replay s w)
    end.

Definition dueForRekey (s : session) (now : Z) : bool :=
  (rekeyAfterMessages <=? sendCounter s) || (rekeyAfterTime <=? now - created s).

Definition expired (s : session) (now : Z) : bool := rejectAfterTime <=? now - created s.

(** ** The handshake *)

Definition l3PSK (token : string) : list Z := hkdf32 N token l3PSKLabel.

Definition newHandshakeState (token : string) (initiator : bool) (rnd : Z) : HandshakeState N :=
  NewHandshakeState N l3Prologue (l3PSK token) initiator rnd.

Record initiatorHandshake : Type := mkInitiator {
  hid : Z;
  state : HandshakeState N;
  msg : list Z;
  encap : string;
  announced : Z;
  agreed : Z;
  fresh : Z
}.

(** The loop of [newSessionID]: [draws i] is the [i]-th [rand.Read] of four
    bytes, [None] its failure. *)
Fixpoint newSessionID_loop (attempts : nat) (draws : nat → option Z) (avoid : Z) : result error Z :=
  match attempts with
  | O => Err errNoDistinctID
  | S attempts =>
      match draws 0%nat with
      | None => Err errDrawID
      | Some sid =>
          if negb (sid =? 0) && negb (sid =? avoid) then Ok sid
          else newSessionID_loop attempts (λ i, draws (S i)) avoid
      end
  end.

Definition newSessionID (draws : nat → option Z) (avoid : Z) : result error Z :=
  newSessionID_loop 8 draws avoid.

Definition beginHandshakeFresh (token : string) (avoid : Z) (enc : string) (fr rnd : Z)
    (draws : nat → option Z) : result error initiatorHandshake :=
  match WriteMessage N (newHandshakeState token true rnd) (to_bytes (initPayload enc fr)) with
  | None => Err errWriteMessage
  | Some (m, _, st) =>
      let? sid := newSessionID draws avoid in
      Ok (mkInitiator sid st m enc versionCurrent versionLegacy fr)
  end.

Definition datagram (h : initiatorHandshake) : list Z :=
  bytes (mkHeader typeInit (hid h) (u64 (announced h))) ++ msg h.

(** [complete] mutates the attempt: its Noise state and, on success,
    [agreed]. *)
Definition complete (h : initiatorHandshake) (reply : list Z) (now : Z)
    : result error session * initiatorHandshake :=
  let '(r, st) := ReadMessage N (state h) reply in
  let h := mkInitiator (hid h) st (msg h) (encap h) (announced h) (agreed h) (fresh h) in
  match r with
  | None => (Err errHandshakeRejected, h)
  | Some (payload, cs) =>
      match parseReplyPayload (of_bytes payload) with
      | Err e => (Err (errBadReply e), h)
      | Ok (theirEncap, theirVersion, sawMine) =>
          if negb (String.eqb theirEncap "") && negb (String.eqb theirEncap (encap h)) then
            (Err (errEncapMismatch (encap h) theirEncap), h)
          else if (versionLegacy <? theirVersion) && negb (sawMine =? announced h) then
            (Err (errDowngraded (announced h) sawMine), h)
          else if negb (fresh h =? 0) && (theirVersion <? version2) then (Err errPeerLegacy, h)
          else
            (newSession (hid h) now cs,
             mkInitiator (hid h) (state h) (msg h) (encap h) (announced h)
               (agreedVersion (announced h) theirVersion) (fresh h))
      end
  end.

(** The four results of [respondFresh]; a mismatch returns an error and a
    reply together. *)
Record response : Type := mkResponse {
  sess : option session;
  reply : option (list Z);
  rfresh : Z;
  err : option error
}.

Definition fail (e : error) : response := mkResponse None None 0 (Some e).

Definition respondFresh (token : string) (sid peerVersion : Z) (m : list Z) (enc : string)
    (rnd now : Z) : response :=
  let '(r, st) := ReadMessage N (newHandshakeState token false rnd) m in
  match r with
  | None => fail errHandshakeRejected
  | Some (payload, _) =>
      match parseInitPayload (of_bytes payload) with
      | Err e => fail (errBadPayload e)
      | Ok (theirs, fr) =>
          let answer :=
            if negb (fr =? 0) then replyPayloadBlock enc versionCurrent peerVersion
            else replyPayload enc versionCurrent peerVersion in
          match WriteMessage N st (to_bytes answer) with
          | None => fail errWriteMessage
          | Some (rep, cs, _) =>
              let dgram := bytes (mkHeader typeResp sid 0) ++ rep in
              if negb (String.eqb theirs "") && negb (String.eqb theirs enc) then
                mkResponse None (Some dgram) 0 (Some (errEncapMismatch enc theirs))
              else
                (* newSession(id, cs1, cs0) *)
                match newSession sid now (match cs with Some (c0, c1) => Some (c1, c0) | None => None end) with
                | Err e => fail e
                | Ok s => mkResponse (Some s) (Some dgram) fr None
                end
          end
      end
  end.

End WithNoise.

Arguments id {N} _.
Arguments created {N} _.
Arguments send {N} _.
Arguments recv {N} _.
Arguments sendCounter {N} _.
Arguments replay {N} _.
Arguments mkSession {N} _ _ _ _ _ _.
Arguments set_counter {N} _ _.
Arguments set_replay {N} _ _.
Arguments dueForRekey {N} _ _.
Arguments expired {N} _ _.
Arguments hid {N} _.
Arguments state {N} _.
Arguments msg {N} _.
Arguments encap {N} _.
Arguments announced {N} _.
Arguments agreed {N} _.
Arguments fresh {N} _.
Arguments datagram {N} _.
Arguments sess {N} _.
Arguments reply {N} _.
Arguments rfresh {N} _.
Arguments err {N} _.

(** Two ends of one handshake: each sends under what the other receives
    under. *)
Definition paired {N} (a b : session N) : Prop :=
  id a = id b ∧ send a = recv b ∧ recv a = send b.

(** The ranges the Go field types give a session, and its window's meaning. *)
Definition session_ok {N} (s : session N) (sp : ReplaySpec.t) : Prop :=
  0 ≤ id s < 2^32 ∧ 0 ≤ sendCounter s < 2^64 ∧ rep (replay s) sp.

(** A run of [seal]s: the results in order, and the session left. *)
Fixpoint seal_all {N} (s : session N) (ps : list (list Z)) : list (result error (list Z)) * session N :=
  match ps with
  | [] => ([], s)
  | p :: ps =>
      let '(r, s) := seal N s p in
      let '(rs, s) := seal_all s ps in (r :: rs, s)
  end.

(** A run of arriving data messages: what [open] returned for each. *)
Fixpoint open_all {N} (s : session N) (ms : list (header * list Z)) : option (list (result error (list Z))) :=
  match ms with
  | [] => Some []
  | (h, body) :: ms =>
      '(r, s) ← open N s h body;
      rs ← open_all s ms;
      Some (r :: rs)
  end.

(** What a session promises of its receive direction: the abstract window
    decides, and an accepted counter yields the packet sealed under it. *)
Fixpoint deliver_spec (sp : ReplaySpec.t) (base : Z) (ps : list (list Z)) (idx : list nat)
    : list (result error (list Z)) :=
  match idx with
  | [] => []
  | i :: idx =>
      let c := base + Z.of_nat i in
      if ReplaySpec.accept sp c
      then Ok (default [] (ps !! i)) :: deliver_spec (ReplaySpec.commit sp c) base ps idx
      else Err errReplayed :: deliver_spec sp base ps idx
  end.

(** The data message the [i]-th of [ps] was sealed into. *)
Definition sealed_msg {N} (s : session N) (base : Z) (ps : list (list Z)) (i : nat) : header * list Z :=
  let h := mkHeader typeData (id s) (base + Z.of_nat i) in
  (h, Encrypt N (send s) (counter h) (bytes h) (default [] (ps !! i))).

(** The counters [open_all] accepted. *)
Fixpoint accepted_counters (ms : list (header * list Z)) (rs : list (result error (list Z))) : list Z :=
  match ms, rs with
  | (h, _) :: ms, r :: rs => (if is_ok r then [counter h] else []) ++ accepted_counters ms rs
  | _, _ => []
  end.

(** ** A concrete Noise *)

(** Keys travel in the clear and a sum stands for the tag: enough to satisfy
    the laws, and to run the definitions above. *)
Module ToyNoise.

Record handshake : Type := mkHS { psk : list Z; initiator : bool; rnd : Z; peer : Z }.

Definition keys (a b : Z) : Z * Z := (2 * (a * 2^64 + b), 2 * (a * 2^64 + b) + 1).

Definition hello (h : handshake) (p : list Z) : list Z := psk h ++ put_be 8 (rnd h) ++ p.

Definition write (h : handshake) (p : list Z) : option (list Z * option (Z * Z) * handshake) :=
  Some (hello h p, if initiator h then None else Some (keys (peer h) (rnd h)), h).

Definition read (h : handshake) (m : list Z) : option (list Z * option (Z * Z)) * handshake :=
  if bool_decide (take 32 m = psk h) then
    let e := get_be (slice m 32 40) in
    (Some (drop 40 m, if initiator h then Some (keys (rnd h) e) else None),
     mkHS (psk h) (initiator h) (rnd h) e)
  else (None, h).

Definition sum (l : list Z) : Z := foldr Z.add 0 l.
Definition tag (k n : Z) (ad p : list Z) : list Z := put_be 16 (k + n + sum ad + sum p).

Definition encrypt (k n : Z) (ad p : list Z) : list Z := p ++ tag k n ad p.
Definition decrypt (k n : Z) (ad c : list Z) : option (list Z) :=
  let p := take (length c - 16) c in
  if bool_decide (c = encrypt k n ad p) then Some p else None.

Definition noise : Noise := {|
  HandshakeState := handshake;
  Cipher := Z;
  hkdf32 := λ t l, take 32 (to_bytes t ++ replicate 32 0);
  NewHandshakeState := λ _ key i r, mkHS key i (u64 r) 0;
  WriteMessage := write;
  ReadMessage := read;
  Encrypt := encrypt;
  Decrypt := decrypt
|}.

Lemma decrypt_eq k n ad c p : decrypt k n ad c = Some p ↔ c = encrypt k n ad p.
Proof.
  unfold decrypt. split.
  - case_bool_decide; [|done]. by intros [= <-].
  - intros ->. unfold encrypt, tag. rewrite length_app, length_put_be.
    replace (length p + 16 - 16)%nat with (length p) by lia.
    rewrite take_app_length. by rewrite bool_decide_eq_true_2.
Qed.

#[export] Instance toy_laws : NoiseLaws noise.
Proof.
  constructor; cbn [noise HandshakeState Cipher hkdf32 NewHandshakeState WriteMessage ReadMessage Encrypt Decrypt].
  - intros t l. rewrite length_take, length_app, length_replicate. lia.
  - intros pro key r1 r2 p1 p2 Hk _ _. unfold write, read, hello. cbn [psk initiator Session.ToyNoise.rnd peer].
    assert (∀ r p, slice (key ++ put_be 8 (u64 r) ++ p) 32 40 = put_be 8 (u64 r)) as Hs.
    { intros r p. rewrite slice_app_r, Hk by lia. by rewrite slice_app_l by apply length_put_be. }
    assert (∀ r p, take 32 (key ++ put_be 8 (u64 r) ++ p) = key) as Ht by (intros; by apply take_app_length').
    assert (∀ r p, drop 40 (key ++ put_be 8 (u64 r) ++ p) = p) as Hd.
    { intros r p. rewrite app_assoc. apply drop_app_length'. rewrite length_app, length_put_be. lia. }
    eexists _, _, _, _, _, _, _, _. split_and!;
      [reflexivity|rewrite Ht, Hs, Hd, bool_decide_eq_true_2 by done; reflexivity|reflexivity|].
    cbn [psk initiator ToyNoise.rnd peer]. rewrite Ht, Hs, Hd, bool_decide_eq_true_2 by done.
    rewrite !get_put_be_small by apply u64_range. reflexivity.
  - intros pro key key' r1 r2 p1 m1 k hi Hk Hk' Hne [= <- _ _]. unfold read, hello. cbn [psk].
    rewrite take_app_length' by done. by rewrite bool_decide_eq_false_2.
  - intros k n ad c p _ _. apply decrypt_eq.
  - intros k n ad c p Hc ->%decrypt_eq. by apply bytes_ok_app in Hc as [Hc _].
  - intros k n ad p Hp. apply bytes_ok_app. split; [done|apply put_be_ok].
  - intros k n ad p. unfold encrypt, tag. by rewrite length_app, length_put_be.
Qed.

End ToyNoise.

(** ** Lemmas *)

Section Proofs.
Context {N : Noise} {Laws : NoiseLaws N}.
#[local] Set Default Proof Using "Type*".

Lemma newSessionID_ok attempts draws avoid sid :
  newSessionID_loop attempts draws avoid = Ok sid →
  sid ≠ 0 ∧ sid ≠ avoid ∧ ∃ i, (i < attempts)%nat ∧ draws i = Some sid.
Proof.
  revert draws. induction attempts as [|n IH]; intros draws; [done|]. cbn [newSessionID_loop].
  destruct (draws 0%nat) as [z|] eqn:E; [|done].
  destruct (negb _ && negb _) eqn:Ez.
  - intros <-%Ok_inj. bool_to_prop. split_and!; [done|done|]. exists 0%nat. split; [lia|done].
  - intros H. apply IH in H as (? & ? & i & ? & ?). split_and!; [done|done|]. exists (S i). split; [lia|done].
Qed.

Lemma beginHandshake_ok token avoid enc fr rnd draws h :
  beginHandshakeFresh N token avoid enc fr rnd draws = Ok h →
  ∃ st m k sid, WriteMessage N (newHandshakeState N token true rnd) (to_bytes (initPayload enc fr)) = Some (m, k, st) ∧
    newSessionID draws avoid = Ok sid ∧ h = mkInitiator N sid st m enc versionCurrent versionLegacy fr.
Proof.
  unfold beginHandshakeFresh. destruct (WriteMessage N _ _) as [[[m k] st]|] eqn:E; [|done].
  destruct (newSessionID draws avoid) as [sid|] eqn:Es; [|done]. cbn [result_bind].
  intros <-%Ok_inj. by eexists st, m, k, sid.
Qed.

(** The reply the listener writes, for a payload with timestamp [fr] and the
    version [v] its header carried. *)
Definition answer (enc : string) (fr v : Z) : string :=
  if negb (fr =? 0) then replyPayloadBlock enc versionCurrent v else replyPayload enc versionCurrent v.

Lemma parse_answer enc fr v :
  no_nul enc → v < 2^63 →
  parseReplyPayload (answer enc fr v) =
    Ok (if (fr =? 0) && (v <=? 0) then (enc, versionLegacy, versionLegacy)
        else (enc, versionCurrent, Z.max v 0)).
Proof.
  intros He Hv. assert (0 ≤ versionCurrent < 2^63) by (split; vm_compute; congruence).
  unfold answer, replyPayload. change versionLegacy with 0. destruct (Z.eqb_spec fr 0); cbn [negb andb].
  - destruct (v <=? 0); [by apply parse_legacy|by apply parse_block].
  - by apply parse_block.
Qed.

(** One exchange between two holders of the token, whatever encapsulation each
    has and whatever version the header carried: what the listener returns,
    and what the dialler reads. *)
Lemma exchange token avoid enc1 enc2 fr rnd1 rnd2 draws h sid v now :
  no_nul enc1 → 0 ≤ fr < 2^64 →
  beginHandshakeFresh N token avoid enc1 fr rnd1 draws = Ok h →
  ∃ rep c0 c1 st,
    respondFresh N token sid v (msg h) enc2 rnd2 now =
      (if negb (String.eqb enc1 "") && negb (String.eqb enc1 enc2)
       then mkResponse N None (Some (bytes (mkHeader typeResp sid 0) ++ rep)) 0 (Some (errEncapMismatch enc2 enc1))
       else mkResponse N (Some (mkSession sid now c1 c0 0 zero_window))
              (Some (bytes (mkHeader typeResp sid 0) ++ rep)) fr None) ∧
    ReadMessage N (state h) rep = (Some (to_bytes (answer enc2 fr v), Some (c0, c1)), st).
Proof.
  intros He Hf Hb. apply beginHandshake_ok in Hb as (st & m & k & hid' & Hw & _ & ->). cbn [msg state].
  destruct (nnpsk0 l3Prologue (l3PSK N token) rnd1 rnd2 (to_bytes (initPayload enc1 fr))
              (to_bytes (answer enc2 fr v)) (hkdf_length token l3PSKLabel) (to_bytes_ok _) (to_bytes_ok _))
    as (m1 & hi & hr & m2 & hr' & c0 & c1 & hi' & H1 & H2 & H3 & H4).
  unfold newHandshakeState in Hw. rewrite H1 in Hw. injection Hw as <- _ <-.
  exists m2, c0, c1, hi'. split; [|done].
  unfold respondFresh, newHandshakeState. rewrite H2, of_to_bytes.
  rewrite parse_init by done.
  fold (answer enc2 fr v). rewrite H3. by destruct (negb _ && negb _).
Qed.

(** [complete] on the reply of an exchange: the version and timestamp checks. *)
Lemma complete_exchange h rep enc2 v c0 c1 st now :
  no_nul enc2 → v < 2^63 → announced h = versionCurrent →
  ReadMessage N (state h) rep = (Some (to_bytes (answer enc2 (fresh h) v), Some (c0, c1)), st) →
  fst (complete N h rep now) =
    if negb (String.eqb enc2 "") && negb (String.eqb enc2 (encap h))
    then Err (errEncapMismatch (encap h) enc2)
    else if (fresh h =? 0) && (v <=? 0) then Ok (mkSession (hid h) now c0 c1 0 zero_window)
    else if v =? versionCurrent then Ok (mkSession (hid h) now c0 c1 0 zero_window)
    else Err (errDowngraded versionCurrent (Z.max v 0)).
Proof.
  intros He Hv Ha Hr. unfold complete. rewrite Hr, of_to_bytes, parse_answer by done.
  cbn [hid state msg encap announced agreed fresh]. rewrite Ha.
  destruct (Z.eqb_spec (fresh h) 0) as [Hf|Hf], (Z.leb_spec v 0) as [Hl|Hl]; cbn [andb negb];
    destruct (negb _ && negb _); try reflexivity;
    change (versionLegacy <? versionCurrent) with true; change (versionCurrent <? version2) with false;
    change versionCurrent with 2; cbn [andb negb fst].
  - rewrite Z.max_l by lia. by destruct (v =? 2).
  - rewrite Z.max_r by lia. zbool. reflexivity.
  - rewrite Z.max_l by lia. by destruct (v =? 2).
Qed.

Lemma complete_agreed h rep now s :
  fst (complete N h rep now) = Ok s → announced h = versionCurrent → fresh h ≠ 0 →
  agreed (snd (complete N h rep now)) = versionCurrent.
Proof.
  unfold complete. destruct (ReadMessage N (state h) rep) as [[[payload cs]|] st]; [|done].
  destruct (parseReplyPayload (of_bytes payload)) as [[[e tv] sm]|]; [|done].
  cbn [hid state msg encap announced agreed fresh]. destruct (negb _ && negb _); [done|].
  destruct (_ && negb (sm =? _)); [done|]. intros H Ha Hf.
  rewrite (proj2 (Z.eqb_neq _ _) Hf) in *. cbn [negb andb] in *.
  destruct (Z.ltb_spec tv version2); [done|]. cbn [snd agreed]. rewrite Ha. unfold agreedVersion.
  rewrite (proj2 (Z.ltb_ge _ _)); [done|]. unfold versionCurrent. lia.
Qed.

Lemma owned_counter c : 0 ≤ c < 2^64 → u64 (u64 (c + 1) - 1) = c.
Proof.
  intros Hc. destruct (decide (c = 2^64 - 1)) as [->|]; [reflexivity|].
  rewrite (u64_small (c + 1)) by lia. rewrite u64_small by lia. lia.
Qed.

Lemma sealKind_eq (s : session N) p k :
  0 ≤ sendCounter s < 2^64 →
  sealKind N s p k =
    (if rejectAfterMessages <=? sendCounter s then Err errSessionExhausted
     else let ad := bytes (mkHeader k (id s) (sendCounter s)) in
          Ok (ad ++ Encrypt N (send s) (sendCounter s) ad p),
     set_counter s (u64 (sendCounter s + 1))).
Proof.
  intros Hc. unfold sealKind. cbn [sendCounter set_counter]. rewrite owned_counter by done.
  by destruct (rejectAfterMessages <=? sendCounter s).
Qed.

Lemma seal_all_spec (s : session N) ps :
  0 ≤ sendCounter s → sendCounter s + zlen ps < 2^64 →
  ∀ i, (i < length ps)%nat →
  fst (seal_all s ps) !! i =
    Some (let c := sendCounter s + Z.of_nat i in
          if rejectAfterMessages <=? c then Err errSessionExhausted
          else let m := sealed_msg s (sendCounter s) ps i in Ok (bytes (fst m) ++ snd m)).
Proof.
  revert s. induction ps as [|p ps IH]; intros s Hc Hl i Hi; [simpl in Hi; lia|].
  assert (zlen (p :: ps) = zlen ps + 1) as Hz by (unfold zlen; simpl; lia). pose proof (zlen_nonneg ps).
  cbn [seal_all]. unfold seal. rewrite sealKind_eq by lia. rewrite u64_small by lia.
  destruct (seal_all (set_counter s (sendCounter s + 1)) ps) as [rs s'] eqn:E. cbn [fst].
  destruct i as [|i].
  - cbn [lookup list_lookup]. unfold sealed_msg. cbn [fst snd lookup list_lookup default counter].
    rewrite Z.add_0_r. reflexivity.
  - assert (∀ (r : result error (list Z)), (r :: rs) !! S i = rs !! i) as -> by done.
    pose proof (IH (set_counter s (sendCounter s + 1)) ltac:(cbn; lia) ltac:(cbn; lia) i
                  ltac:(simpl in Hi; lia)) as Hi'.
    rewrite E in Hi'. cbn [fst sendCounter set_counter] in Hi'. rewrite Hi'. unfold sealed_msg.
    cbn [set_counter id send fst snd counter].
    replace (sendCounter s + 1 + Z.of_nat i) with (sendCounter s + Z.of_nat (S i)) by lia.
    reflexivity.
Qed.

(** One arrival of a data message sealed under the paired session. *)
Lemma open_sealed_one (a b : session N) sp base ps i :
  paired a b → bytes_ok (default [] (ps !! i)) → 0 ≤ base → base + Z.of_nat i < 2^64 - 1 →
  rep (replay b) sp →
  ∃ b', open N b (fst (sealed_msg a base ps i)) (snd (sealed_msg a base ps i)) =
      Some (if ReplaySpec.accept sp (base + Z.of_nat i) then Ok (default [] (ps !! i)) else Err errReplayed, b') ∧
    paired a b' ∧
    rep (replay b') (if ReplaySpec.accept sp (base + Z.of_nat i)
                     then ReplaySpec.commit sp (base + Z.of_nat i) else sp).
Proof.
  intros (Hid & Hk & Hk') Hp Hb Hi Hrep. unfold open, sealed_msg. cbn [fst snd counter].
  rewrite (accept_rep _ _ _ Hrep). destruct (ReplaySpec.accept sp _) eqn:Ha; cbn [negb].
  - rewrite Hk. rewrite (proj2 (decrypt_iff _ _ _ _ _ Hp (encrypt_ok _ _ _ _ Hp)) eq_refl).
    destruct (commit_rep (replay b) sp (base + Z.of_nat i) Hrep ltac:(lia)) as (w & Hw & Hrep').
    { by rewrite (accept_rep _ _ _ Hrep). }
    rewrite Hw. cbn. eexists. split; [reflexivity|]. by split.
  - eexists. split; [reflexivity|]. by split.
Qed.

Lemma open_all_sealed (a b : session N) sp base ps idx :
  paired a b → Forall bytes_ok ps → 0 ≤ base → base + zlen ps < 2^64 →
  rep (replay b) sp → Forall (λ i, (i < length ps)%nat) idx →
  open_all b (sealed_msg a base ps <$> idx) = Some (deliver_spec sp base ps idx).
Proof.
  intros Hpair Hps Hb Hl Hrep Hidx. revert b sp Hpair Hrep.
  induction idx as [|i idx IH]; intros b sp Hpair Hrep; [done|].
  apply Forall_cons in Hidx as [Hi Hidx].
  assert (bytes_ok (default [] (ps !! i))) as Hp.
  { destruct (lookup_lt_is_Some_2 ps i Hi) as [p Hpi]. rewrite Hpi. exact (Forall_lookup_1 _ _ _ _ Hps Hpi). }
  destruct (open_sealed_one a b sp base ps i Hpair Hp Hb ltac:(unfold zlen in Hl; lia) Hrep)
    as (b' & Ho & Hpair' & Hrep').
  rewrite fmap_cons. cbn [open_all deliver_spec]. destruct (sealed_msg a base ps i) as [h body] eqn:Em.
  cbn [fst snd] in Ho. rewrite Ho. cbn [mbind option_bind].
  destruct (ReplaySpec.accept sp (base + Z.of_nat i)); by rewrite (IH Hidx b' _ Hpair' Hrep').
Qed.

Lemma accept_committed sp c : c ∈ ReplaySpec.seen sp → (∀ d, d ∈ ReplaySpec.seen sp → ∃ m, ReplaySpec.hi sp = Some m ∧ d ≤ m) →
  ReplaySpec.accept sp c = false.
Proof.
  intros Hc Hhi. destruct (Hhi c Hc) as (m & Hm & Hle). unfold ReplaySpec.accept. rewrite Hm.
  apply bool_decide_eq_false. intros [H|[_ H]]; [lia|done].
Qed.

Lemma rep_hi_seen w sp : rep w sp → ∀ d, d ∈ ReplaySpec.seen sp → ∃ m, ReplaySpec.hi sp = Some m ∧ d ≤ m.
Proof.
  intros Hr d Hd. destruct (seeded w) eqn:Es.
  - exists (max w). split; [by rewrite (rep_hi _ _ Hr), Es|by apply (rep_seen _ _ Hr)].
  - destruct (rep_fresh _ _ Hr Es) as [He _]. rewrite He in Hd. by apply not_elem_of_empty in Hd.
Qed.

(** [open] on any datagram: it finishes, and the window records what it
    accepted. *)
Lemma open_any (s : session N) sp h body :
  rep (replay s) sp → 0 ≤ counter h < 2^64 - 1 → bytes_ok body →
  ∃ r s', open N s h body = Some (r, s') ∧ recv s' = recv s ∧
    match r with
    | Ok p => body = Encrypt N (recv s) (counter h) (bytes h) p ∧ counter h ∉ ReplaySpec.seen sp ∧
              rep (replay s') (ReplaySpec.commit sp (counter h))
    | Err _ => rep (replay s') sp
    end.
Proof.
  intros Hrep Hc Hb. unfold open. destruct (accept (replay s) (counter h)) eqn:Ha; cbn [negb].
  2: { eexists _, _. split; [reflexivity|]. by split. }
  destruct (Decrypt N (recv s) (counter h) (bytes h) body) as [p|] eqn:Ed.
  2: { eexists _, _. split; [reflexivity|]. by split. }
  destruct (commit_rep (replay s) sp (counter h) Hrep ltac:(lia) Ha) as (w & Hw & Hrep').
  rewrite Hw. cbn. eexists _, _. split; [reflexivity|]. split; [done|]. split_and!; [| |done].
  - apply (decrypt_iff _ _ _ _ _); [by apply (decrypt_ok _ _ _ _ _ Hb Ed)|done|done].
  - intros Hin. rewrite (accept_rep _ _ _ Hrep) in Ha.
    rewrite (accept_committed _ _ Hin (rep_hi_seen _ _ Hrep)) in Ha. done.
Qed.

Lemma open_all_once (s : session N) sp ms :
  rep (replay s) sp → Forall (λ m, 0 ≤ counter (fst m) < 2^64 - 1 ∧ bytes_ok (snd m)) ms →
  ∃ rs, open_all s ms = Some rs ∧ length rs = length ms ∧
    NoDup (accepted_counters ms rs) ∧
    (∀ c, c ∈ accepted_counters ms rs → c ∉ ReplaySpec.seen sp) ∧
    ∀ i h body p, ms !! i = Some (h, body) → rs !! i = Some (Ok p) →
      body = Encrypt N (recv s) (counter h) (bytes h) p.
Proof.
  revert s sp. induction ms as [|[h body] ms IH]; intros s sp Hrep Hms.
  - exists []. split_and!; [done|done|constructor|intros c []%not_elem_of_nil|]. by intros [].
  - apply Forall_cons in Hms as [[Hc Hb] Hms]. cbn [fst snd] in *.
    destruct (open_any s sp h body Hrep Hc Hb) as (r & s' & Ho & Hrecv & Hr).
    cbn [open_all]. rewrite Ho. cbn [mbind option_bind]. destruct r as [p|e].
    + destruct Hr as (Hbody & Hfresh & Hrep'). destruct (IH s' _ Hrep' Hms) as (rs & -> & Hlen & Hnd & Hnew & Henc).
      cbn. eexists. split; [reflexivity|]. split_and!.
      * simpl. by rewrite Hlen.
      * cbn. constructor; [|done]. intros Hin. apply (Hnew _ Hin). cbn. apply elem_of_added. by left.
      * cbn. intros c [->|Hin]%elem_of_cons; [done|]. intros Hs. apply (Hnew _ Hin). cbn.
        apply elem_of_added. by right.
      * intros [|i] h' b' p' Hm Hp; cbn in Hm, Hp.
        -- by simplify_eq.
        -- rewrite <- Hrecv. by apply (Henc i).
    + destruct (IH s' _ Hr Hms) as (rs & -> & Hlen & Hnd & Hnew & Henc).
      cbn. eexists. split; [reflexivity|]. split_and!; [simpl; by rewrite Hlen|done|done|].
      intros [|i] h' b' p' Hm Hp; cbn in Hm, Hp; [done|]. rewrite <- Hrecv. by apply (Henc i).
Qed.

End Proofs.

(** ** Properties *)

Section Properties.
Context (N : Noise) (Laws : NoiseLaws N).
#[local] Set Default Proof Using "Type*".

(** C7: the handshake completes. Between two holders of the token configured
    with one encapsulation, the dialler's first datagram parses at the
    listener, which accepts it, learns the timestamp and answers; the dialler
    accepts the answer, the two agree on this build's version, and the two
    sessions are the two ends of one: each sends under the keys the other
    receives under. *)
Theorem handshake_completes (token enc : string) (avoid fr rnd1 rnd2 now1 now2 : Z)
    (draws : nat → option Z) (h : initiatorHandshake N) :
  no_nul enc → 0 < fr < 2^64 → (∀ i z, draws i = Some z → 0 ≤ z < 2^32) →
  beginHandshakeFresh N token avoid enc fr rnd1 draws = Ok h →
  hid h ≠ 0 ∧ hid h ≠ avoid ∧
  ∃ hdr, parseHeader (datagram h) = Ok (hdr, msg h) ∧ Wire.session hdr = hid h ∧
  ∃ sl rep, respondFresh N token (Wire.session hdr) (int64 (counter hdr)) (msg h) enc rnd2 now2 =
      mkResponse N (Some sl) (Some (bytes (mkHeader typeResp (hid h) 0) ++ rep)) fr None ∧
  ∃ sd, fst (complete N h rep now1) = Ok sd ∧
    agreed (snd (complete N h rep now1)) = versionCurrent ∧ paired sd sl.
Proof.
  intros He Hf Hd Hb. pose proof (beginHandshake_ok _ _ _ _ _ _ _ Hb) as (st & m & k & sid & _ & Hid & Hh).
  pose proof (newSessionID_ok _ _ _ _ Hid) as (H0 & Hav & i & _ & Hdi). pose proof (Hd i sid Hdi) as Hr.
  assert (hid h = sid ∧ announced h = versionCurrent ∧ fresh h = fr ∧ encap h = enc) as (Hhid & Ha & Hfr & Hen)
    by (by rewrite Hh).
  split_and!; [by rewrite Hhid..|]. exists (mkHeader typeInit (hid h) 2).
  assert (parseHeader (datagram h) = Ok (mkHeader typeInit (hid h) 2, msg h)) as Hp.
  { unfold datagram. rewrite Ha. apply parse_bytes; [|reflexivity].
    unfold header_ok, typeInit. cbn. lia. }
  split; [exact Hp|]. split; [done|]. change (int64 _) with 2. cbn [Wire.session].
  destruct (exchange token avoid enc enc fr rnd1 rnd2 draws h (hid h) 2 now2 He ltac:(lia) Hb)
    as (rep & c0 & c1 & st' & Hresp & Hread).
  rewrite String.eqb_refl, andb_false_r in Hresp. eexists _, rep. split; [exact Hresp|].
  assert (fst (complete N h rep now1) = Ok (mkSession (hid h) now1 c0 c1 0 zero_window)) as Hc.
  { erewrite complete_exchange; [|exact He| |exact Ha|rewrite Hfr; exact Hread]; [|lia].
    rewrite Hen, String.eqb_refl, andb_false_r, Hfr.
    rewrite (proj2 (Z.eqb_neq fr 0)) by lia. reflexivity. }
  eexists. split; [exact Hc|]. split; [|done].
  apply (complete_agreed _ _ _ _ Hc Ha). lia.
Qed.

(** A mismatch is named on both machines. When the two ends hold the token
    but are configured with different encapsulations, neither gets a session
    and each reports its own name and the other's. *)
Theorem handshake_mismatch_named (token enc1 enc2 : string) (avoid fr rnd1 rnd2 now1 now2 v : Z)
    (draws : nat → option Z) (h : initiatorHandshake N) :
  no_nul enc1 → no_nul enc2 → enc1 ≠ "" → enc2 ≠ "" → enc1 ≠ enc2 → 0 ≤ fr < 2^64 → v < 2^63 →
  beginHandshakeFresh N token avoid enc1 fr rnd1 draws = Ok h →
  ∃ rep, respondFresh N token (hid h) v (msg h) enc2 rnd2 now2 =
      mkResponse N None (Some (bytes (mkHeader typeResp (hid h) 0) ++ rep)) 0
        (Some (errEncapMismatch enc2 enc1)) ∧
    fst (complete N h rep now1) = Err (errEncapMismatch enc1 enc2).
Proof.
  intros He1 He2 Hn1 Hn2 Hne Hf Hv Hb.
  pose proof (beginHandshake_ok _ _ _ _ _ _ _ Hb) as (st & m & k & sid & _ & Hid & Hh).
  assert (announced h = versionCurrent ∧ fresh h = fr ∧ encap h = enc1) as (Ha & Hfr & Hen) by (by rewrite Hh).
  destruct (exchange token avoid enc1 enc2 fr rnd1 rnd2 draws h (hid h) v now2 He1 Hf Hb)
    as (rep & c0 & c1 & st' & Hresp & Hread).
  exists rep. rewrite (proj2 (String.eqb_neq _ _) Hn1), (proj2 (String.eqb_neq _ _) Hne) in Hresp.
  split; [exact Hresp|].
  erewrite complete_exchange; [|exact He2|exact Hv|exact Ha|rewrite Hfr; exact Hread].
  rewrite Hen, (proj2 (String.eqb_neq _ _) Hn2), (proj2 (String.eqb_neq enc2 enc1)) by congruence.
  reflexivity.
Qed.

(** C11: a rewritten header cannot force the old handshake. The announced
    version travels in the clear; if something on the path changes it to any
    other value, the dialler's timestamped attempt ends in the downgrade
    error, never in a session and never in the fallback to the replayable
    legacy handshake. *)
Theorem downgrade_refused (token enc : string) (avoid fr rnd1 rnd2 now1 now2 v : Z)
    (draws : nat → option Z) (h : initiatorHandshake N) :
  no_nul enc → 0 < fr < 2^64 → v < 2^63 → v ≠ versionCurrent →
  beginHandshakeFresh N token avoid enc fr rnd1 draws = Ok h →
  ∃ sl rep, respondFresh N token (hid h) v (msg h) enc rnd2 now2 =
      mkResponse N (Some sl) (Some (bytes (mkHeader typeResp (hid h) 0) ++ rep)) fr None ∧
    fst (complete N h rep now1) = Err (errDowngraded versionCurrent (Z.max v 0)).
Proof.
  intros He Hf Hv Hne Hb.
  pose proof (beginHandshake_ok _ _ _ _ _ _ _ Hb) as (st & m & k & sid & _ & Hid & Hh).
  assert (announced h = versionCurrent ∧ fresh h = fr ∧ encap h = enc) as (Ha & Hfr & Hen) by (by rewrite Hh).
  destruct (exchange token avoid enc enc fr rnd1 rnd2 draws h (hid h) v now2 He ltac:(lia) Hb)
    as (rep & c0 & c1 & st' & Hresp & Hread).
  rewrite String.eqb_refl, andb_false_r in Hresp. eexists _, rep. split; [exact Hresp|].
  erewrite complete_exchange; [|exact He|exact Hv|exact Ha|rewrite Hfr; exact Hread].
  rewrite Hen, String.eqb_refl, andb_false_r, Hfr, (proj2 (Z.eqb_neq fr 0)) by lia.
  cbn [andb]. by rewrite (proj2 (Z.eqb_neq _ _) Hne).
Qed.

(** Only a holder of the token is answered: a first message written under
    another key gets no reply, no session and no timestamp judged. *)
Theorem stranger_unanswered (token token' enc1 enc2 : string) (avoid fr rnd1 rnd2 now sid v : Z)
    (draws : nat → option Z) (h : initiatorHandshake N) :
  l3PSK N token' ≠ l3PSK N token →
  beginHandshakeFresh N token' avoid enc1 fr rnd1 draws = Ok h →
  respondFresh N token sid v (msg h) enc2 rnd2 now = fail N errHandshakeRejected.
Proof.
  intros Hk Hb. apply beginHandshake_ok in Hb as (st & m & k & sid' & Hw & _ & ->). cbn [msg].
  pose proof (nnpsk0_key l3Prologue (l3PSK N token') (l3PSK N token) rnd1 rnd2 _ m k st
                (hkdf_length _ _) (hkdf_length _ _) Hk Hw) as Hr.
  unfold respondFresh, newHandshakeState. destruct (ReadMessage N _ m) as [r st']. cbn in Hr. by rewrite Hr.
Qed.

(** No nonce is used twice. The [i]-th packet sealed in a session carries
    the [i]-th counter, in its header and as its nonce, until the hard stop at
    2^60, from where every further seal is refused. *)
Theorem seal_nonces (s : Session.session N) (ps : list (list Z)) (i : nat) :
  0 ≤ sendCounter s → sendCounter s + zlen ps < 2^64 → (i < length ps)%nat →
  let c := sendCounter s + Z.of_nat i in
  fst (seal_all s ps) !! i =
    Some (if 2^60 <=? c then Err errSessionExhausted
          else let ad := bytes (mkHeader typeData (id s) c) in
               Ok (ad ++ Encrypt N (send s) c ad (default [] (ps !! i)))).
Proof. intros Hc Hl Hi. by rewrite (seal_all_spec s ps Hc Hl i Hi). Qed.

(** C5: the data path delivers. Packets sealed at one end and arriving at the
    other in any order, any number of times, are opened exactly as the
    abstract window says: each accepted one yields the packet that was sealed,
    and a duplicate or one too far behind is refused. *)
Theorem data_path_delivers (a b : Session.session N) (sp : ReplaySpec.t) (ps : list (list Z)) (idx : list nat) :
  paired a b → session_ok b sp → Forall bytes_ok ps →
  0 ≤ sendCounter a → sendCounter a + zlen ps < rejectAfterMessages →
  Forall (λ i, (i < length ps)%nat) idx →
  (∀ i, (i < length ps)%nat → fst (seal_all a ps) !! i =
      Some (Ok (bytes (fst (sealed_msg a (sendCounter a) ps i)) ++ snd (sealed_msg a (sendCounter a) ps i)))) ∧
  open_all b (sealed_msg a (sendCounter a) ps <$> idx) = Some (deliver_spec sp (sendCounter a) ps idx).
Proof.
  unfold rejectAfterMessages. intros Hp (_ & _ & Hrep) Hps Hc Hl Hidx. split.
  - intros i Hi. rewrite seal_all_spec by lia. cbn zeta. unfold rejectAfterMessages, zlen in *.
    by rewrite (proj2 (Z.leb_gt _ _)) by lia.
  - apply open_all_sealed; auto; lia.
Qed.

(** Nothing is delivered twice and nothing is made up. Whatever datagrams
    reach a session, forged and replayed ones included, [open] finishes on
    each, the accepted counters are all different, none was accepted before,
    and each packet handed on is one encrypted under this session's key. *)
Theorem open_at_most_once (s : Session.session N) (sp : ReplaySpec.t) (ms : list (header * list Z)) :
  session_ok s sp →
  Forall (λ m, 0 ≤ counter (fst m) < 2^64 - 1 ∧ bytes_ok (snd m)) ms →
  ∃ rs, open_all s ms = Some rs ∧ length rs = length ms ∧
    NoDup (accepted_counters ms rs) ∧
    (∀ c, c ∈ accepted_counters ms rs → c ∉ ReplaySpec.seen sp) ∧
    ∀ i h body p, ms !! i = Some (h, body) → rs !! i = Some (Ok p) →
      body = Encrypt N (recv s) (counter h) (bytes h) p.
Proof. intros (_ & _ & Hrep) Hms. by apply open_all_once. Qed.

End Properties.

(** ** Witnesses *)

Definition draw7 (i : nat) : option Z := Some 7.

Definition toy_dial (token enc : string) : initiatorHandshake ToyNoise.noise :=
  match beginHandshakeFresh ToyNoise.noise token 0 enc 99 11 draw7 with
  | Ok h => h
  | Err _ => mkInitiator ToyNoise.noise 0 (ToyNoise.mkHS [] false 0 0) [] "" 0 0 0
  end.

Lemma draw7_range i z : draw7 i = Some z → 0 ≤ z < 2^32.
Proof. intros [= <-]. lia. Qed.

Lemma name_no_nul (s : string) : forallb (λ c, negb (Ascii.eqb c "000"%char)) (list_ascii_of_string s) = true → no_nul s.
Proof. intros H. unfold no_nul, all_chars. apply Forall_forall. intros c Hc%list_elem_of_In. by apply forallb_forall with (x := c) in H. Qed.

Lemma handshake_completes_witness :
  ∃ sl rep, respondFresh ToyNoise.noise "secret" 7 2 (msg (toy_dial "secret" "gre")) "gre" 22 5 =
      mkResponse ToyNoise.noise (Some sl) (Some (bytes (mkHeader typeResp 7 0) ++ rep)) 99 None ∧
  ∃ sd, fst (complete ToyNoise.noise (toy_dial "secret" "gre") rep 6) = Ok sd ∧ paired sd sl.
Proof.
  destruct (handshake_completes ToyNoise.noise ToyNoise.toy_laws "secret" "gre" 0 99 11 22 6 5 draw7
              (toy_dial "secret" "gre")) as (_ & _ & hdr & Hp & Hs & sl & rep & Hr & sd & Hc & _ & Hpair).
  - by apply name_no_nul.
  - lia.
  - apply draw7_range.
  - reflexivity.
  - assert (hdr = mkHeader typeInit 7 2) as ->.
    { vm_compute in Hp. by injection Hp as <-. }
    eexists sl, rep. split; [exact Hr|]. exists sd. by split.
Defined.

Lemma handshake_mismatch_named_witness :
  ∃ rep, err (respondFresh ToyNoise.noise "secret" 7 2 (msg (toy_dial "secret" "gre")) "gre:5" 22 5) =
      Some (errEncapMismatch "gre:5" "gre") ∧
    fst (complete ToyNoise.noise (toy_dial "secret" "gre") rep 6) = Err (errEncapMismatch "gre" "gre:5").
Proof.
  destruct (handshake_mismatch_named ToyNoise.noise ToyNoise.toy_laws "secret" "gre" "gre:5" 0 99 11 22 6 5 2
              draw7 (toy_dial "secret" "gre")) as (rep & Hr & Hc);
    [by apply name_no_nul..|discriminate|discriminate|discriminate|lia|lia|reflexivity|].
  exists rep. split; [|exact Hc]. change 7 with (hid (toy_dial "secret" "gre")). by rewrite Hr.
Defined.

Lemma downgrade_refused_witness :
  ∃ rep, fst (complete ToyNoise.noise (toy_dial "secret" "gre") rep 6) = Err (errDowngraded 2 0).
Proof.
  destruct (downgrade_refused ToyNoise.noise ToyNoise.toy_laws "secret" "gre" 0 99 11 22 6 5 0
              draw7 (toy_dial "secret" "gre")) as (sl & rep & Hr & Hc);
    [by apply name_no_nul|lia|lia|discriminate|reflexivity|].
  exists rep. exact Hc.
Defined.

Lemma stranger_unanswered_witness :
  respondFresh ToyNoise.noise "secret" 7 2 (msg (toy_dial "guess" "gre")) "gre" 22 5 =
    fail ToyNoise.noise errHandshakeRejected.
Proof.
  apply (stranger_unanswered ToyNoise.noise ToyNoise.toy_laws "secret" "guess" "gre" "gre" 0 99 11 22 5 7 2 draw7);
    [discriminate|reflexivity].
Defined.

Definition end_a : Session.session ToyNoise.noise := mkSession (N := ToyNoise.noise) 7 0 10 11 0 zero_window.
Definition end_b : Session.session ToyNoise.noise := mkSession (N := ToyNoise.noise) 7 0 11 10 0 zero_window.

Lemma end_b_ok : session_ok end_b ReplaySpec.init.
Proof. split_and!; cbn; try lia. exact rep_zero. Qed.

Lemma seal_nonces_witness :
  fst (seal_all end_a [[1]; [2; 3]]) !! 1%nat =
    Some (let ad := bytes (mkHeader typeData 7 1) in Ok (ad ++ ToyNoise.encrypt 10 1 ad [2; 3])).
Proof. apply (seal_nonces ToyNoise.noise ToyNoise.toy_laws end_a [[1]; [2; 3]] 1); unfold zlen; cbn; lia. Defined.

Lemma data_path_delivers_witness :
  open_all end_b (sealed_msg end_a 0 [[1]; [2; 3]] <$> [1; 0; 1]%nat) =
    Some [Ok [2; 3]; Ok [1]; Err errReplayed].
Proof.
  apply (data_path_delivers ToyNoise.noise ToyNoise.toy_laws end_a end_b ReplaySpec.init [[1]; [2; 3]] [1; 0; 1]%nat).
  - done.
  - exact end_b_ok.
  - by apply (bool_decide_unpack _).
  - cbn. lia.
  - unfold rejectAfterMessages, zlen. cbn. lia.
  - repeat constructor.
Defined.

Lemma open_at_most_once_witness :
  ∃ rs, open_all end_b [(mkHeader typeData 7 4, [9])] = Some rs ∧ NoDup (accepted_counters [(mkHeader typeData 7 4, [9])] rs).
Proof.
  destruct (open_at_most_once ToyNoise.noise ToyNoise.toy_laws end_b ReplaySpec.init [(mkHeader typeData 7 4, [9])])
    as (rs & H1 & _ & H2 & _).
  - exact end_b_ok.
  - constructor; [|constructor]. cbn. split; [lia|by apply (bool_decide_unpack _)].
  - exists rs. by split.
Defined.

End Session.
