(* ===== verification/L3Fec.v ===== *)
(** Forward error correction: [src/internal/tunnel/l3/fec.go].

    The Reed-Solomon encoder is a third-party library: [ReedSolomon] is the
    record of the operations the carrier calls, a parameter, and [RSLaws] its
    documented contract. Module [Xor21] is a concrete 2+1 code for the
    witnesses.

    A Go slice that may be nil is an [option (list Z)]; note that
    [append([]byte(nil), body...)] of an empty body is nil. The carrier below
    is its outcome: the result of its [WriteTo] and the datagrams its
    [ReadFrom] returns. *)

From S2P Require Import Prelude.

Module Fec.

Definition fecHeaderLen : nat := 6.
Definition fecLenPrefix : nat := 2.
Definition fecKindData : Z := 0.
Definition fecKindParity : Z := 1.
Definition fecOverhead : nat := fecHeaderLen + fecLenPrefix.
Definition fecWindow : nat := 16.

(** ** The scheme *)

Record FECConfig : Type := mkFEC { Data : Z; Parity : Z }.

Inductive error : Type :=
| errHalfConfigured (data parity : Z)
| errTooManyShards (n : Z)
| errParityNotSmaller (parity data : Z)
| errEncoder.

Definition Enabled (f : FECConfig) : bool := (0 <? Data f) && (0 <? Parity f).

Definition Validate (f : FECConfig) : result error unit :=
  if negb (Enabled f) then
    if negb (Data f =? 0) || negb (Parity f =? 0) then Err (errHalfConfigured (Data f) (Parity f))
    else Ok tt
  else if 256 <? Data f + Parity f then Err (errTooManyShards (Data f + Parity f))
  else if Data f <=? Parity f then Err (errParityNotSmaller (Parity f) (Data f))
  else Ok tt.

(** ** The erasure code *)

Record ReedSolomon : Type := mkRS {
  (** [reedsolomon.New(d, p)] succeeds. *)
  New : nat → nat → bool;
  (** [Encode] of [d + p] shards of one size fills in the last [p]. *)
  Encode : nat → nat → list (list Z) → option (list (list Z));
  (** [Reconstruct] fills in the nil shards. *)
  Reconstruct : nat → nat → list (option (list Z)) → option (list (option (list Z)))
}.

Fixpoint nsome {A} (l : list (option A)) : nat :=
  match l with
  | [] => 0
  | Some _ :: l => S (nsome l)
  | None :: l => nsome l
  end.

Class RSLaws (R : ReedSolomon) (d p : nat) : Prop := {
  encode_fills : ∀ shards size,
    length shards = (d + p)%nat → (0 < size)%nat → Forall (λ s, length s = size) shards →
    ∃ par, Encode R d p shards = Some (take d shards ++ par) ∧ length par = p ∧
           Forall (λ s, length s = size) par;
  reconstruct_any : ∀ shards size enc work,
    length shards = (d + p)%nat → (0 < size)%nat → Forall (λ s, length s = size) shards →
    Encode R d p shards = Some enc → length work = length enc →
    (∀ i w, work !! i = Some (Some w) → enc !! i = Some w) →
    (d ≤ nsome work)%nat →
    Reconstruct R d p work = Some (Some <$> enc)
}.

Section Carrier.
Context (R : ReedSolomon) (addr : Type).

Record fecGroup : Type := mkGroup {
  shards : list (option (list Z));
  haveData : nat;
  haveTotal : nat;
  size : nat;
  delivered : list bool;
  done : bool;
  gaddr : addr
}.

Record fecCarrier : Type := mkCarrier {
  data : nat;      (* cfg.Data and cfg.Parity, positive once Enabled *)
  parity : nat;
  sendGrp : Z;     (* uint32 *)
  sendIdx : nat;
  sendPad : option (list (option (list Z)));
  sendMax : nat;
  sendPeer : option addr;
  groups : gmap Z fecGroup;
  order : list Z;
  pending : list (list Z * addr)
}.

(** [None] is the carrier below, unwrapped. *)
Definition newFECCarrier (cfg : FECConfig) : result error (option fecCarrier) :=
  if negb (Enabled cfg) then Ok None
  else
    let? _ := Validate cfg in
    if New R (Z.to_nat (Data cfg)) (Z.to_nat (Parity cfg)) then
      Ok (Some (mkCarrier (Z.to_nat (Data cfg)) (Z.to_nat (Parity cfg)) 0 0 None 0 None ∅ [] []))
    else Err errEncoder.

Definition Overhead (below : nat) : nat := below + fecOverhead.

(** ** The frame *)

Definition putFECHeader (kind group index : Z) : list Z := kind :: put_be 4 group ++ [index].

Definition parseFECHeader (buf : list Z) : option (Z * Z * Z * list Z) :=
  if (length buf <? fecHeaderLen)%nat then None
  else
    let kind := at_ buf 0 in
    if negb (kind =? fecKindData) && negb (kind =? fecKindParity) then None
    else Some (kind, get_be (slice buf 1 5), at_ buf 5, drop fecHeaderLen buf).

Definition trimShard (shard : list Z) : option (list Z) :=
  if (length shard <? fecLenPrefix)%nat then None
  else
    let n := get_be (take fecLenPrefix shard) in
    if zlen shard - Z.of_nat fecLenPrefix <? n then None
    else Some (slice shard fecLenPrefix (fecLenPrefix + Z.to_nat n)).

(** ** Sending *)

(** [copy(make([]byte, size), s)] for [len(s) <= size]. *)
Definition pad (size : nat) (s : list Z) : list Z := take size (s ++ replicate size 0).

Definition shardOf (p : list Z) : list Z := put_be 2 (u16 (zlen p)) ++ p.

Definition reset_group (c : fecCarrier) : fecCarrier :=
  mkCarrier (data c) (parity c) (u32 (sendGrp c + 1)) 0 None 0 (sendPeer c) (groups c) (order c) (pending c).

(** What [flushParity] hands to the carrier below, and the state after. *)
Definition flushParity (c : fecCarrier) : list (list Z) * fecCarrier :=
  let sz := sendMax c in
  (if (sz =? 0)%nat then []
   else
     let sp := default [] (sendPad c) in
     let padded := (λ i, pad sz (default [] (mjoin (sp !! i)))) <$> seq 0 (data c) in
     match Encode R (data c) (parity c) (padded ++ replicate (parity c) (replicate sz 0)) with
     | None => []
     | Some sh =>
         (λ i, putFECHeader fecKindParity (sendGrp c) (u8 (Z.of_nat i)) ++ default [] (sh !! i))
           <$> seq (data c) (parity c)
     end,
   reset_group c).

(** [WriteTo]: the datagrams handed to the carrier below, in order, the result
    and the new state. [w] is what the carrier below returned for the data
    datagram. *)
Definition WriteTo {E} (c : fecCarrier) (p : list Z) (a : addr) (w : result E Z)
    : list (list Z) * result E Z * fecCarrier :=
  let pd := match sendPad c with Some pd => pd | None => replicate (data c + parity c) None end in
  let shard := shardOf p in
  let pd := <[sendIdx c := Some shard]> pd in
  let mx := if (sendMax c <? length shard)%nat then length shard else sendMax c in
  let out := putFECHeader fecKindData (sendGrp c) (u8 (Z.of_nat (sendIdx c))) ++ shard in
  let c := mkCarrier (data c) (parity c) (sendGrp c) (S (sendIdx c)) (Some pd) mx (Some a)
             (groups c) (order c) (pending c) in
  let '(par, c) := if (sendIdx c =? data c)%nat then flushParity c else ([], c) in
  (out :: par, match w with Err e => Err e | Ok _ => Ok (zlen p) end, c).

(** ** Receiving *)

(** The widening loop: [None] is its early return. *)
Fixpoint widen (sz : nat) (sh : list (option (list Z))) : option (list (option (list Z))) :=
  match sh with
  | [] => Some []
  | None :: sh => work ← widen sz sh; Some (None :: work)
  | Some s :: sh =>
      if (length s =? sz)%nat then work ← widen sz sh; Some (Some s :: work)
      else if (sz <? length s)%nat then None
      else work ← widen sz sh; Some (Some (pad sz s) :: work)
  end.

(** The loop that hands up what was missing: the new flags and the packets. *)
Fixpoint deliver_loop (del : list bool) (work : list (option (list Z))) : list bool * list (list Z) :=
  match del, work with
  | b :: del, w :: work =>
      let '(del, out) := deliver_loop del work in
      match b, w with
      | false, Some s =>
          match trimShard s with
          | Some payload => (true :: del, payload :: out)
          | None => (false :: del, out)
          end
      | _, _ => (b :: del, out)
      end
  | _, _ => (del, [])
  end.

Definition rebuild (d p : nat) (g : fecGroup) : fecGroup * list (list Z) :=
  if done g || (haveData g =? d)%nat || (haveTotal g <? d)%nat || (size g =? 0)%nat then (g, [])
  else
    match widen (size g) (shards g) with
    | None => (g, [])
    | Some work =>
        match Reconstruct R d p work with
        | None => (g, [])
        | Some work =>
            let '(del, out) := deliver_loop (delivered g) (take d work) in
            (mkGroup (shards g) (haveData g) (haveTotal g) (size g)
               (del ++ drop (length del) (delivered g)) true (gaddr g), out)
        end
    end.

Fixpoint evict_loop (n : nat) (ord : list Z) (gs : gmap Z fecGroup) : list Z * gmap Z fecGroup :=
  match n, ord with
  | S n, g :: ord => evict_loop n ord (delete g gs)
  | _, _ => (ord, gs)
  end.

(** [for len(c.order) > fecWindow]. *)
Definition evict (ord : list Z) (gs : gmap Z fecGroup) : list Z * gmap Z fecGroup :=
  evict_loop (length ord - fecWindow) ord gs.

(** [append([]byte(nil), body...)]. *)
Definition clone (body : list Z) : option (list Z) :=
  match body with [] => None | _ => Some body end.

(** Filing a shard in its group, when its slot is empty. *)
Definition file_shard (d : nat) (g : fecGroup) (kind : Z) (i : nat) (body : list Z) : fecGroup :=
  match shards g !! i with
  | Some None =>
      mkGroup (<[i := clone body]> (shards g))
        (if (i <? d)%nat then S (haveData g) else haveData g) (S (haveTotal g))
        (if (kind =? fecKindParity) && (size g =? 0)%nat then length body else size g)
        (delivered g) (done g) (gaddr g)
  | _ => g
  end.

(** [g.delivered[int(index)]] panics when a data datagram names a parity
    index. The result is the payload handed up and the new flags. *)
Definition hand_up (g : fecGroup) (kind : Z) (i : nat) (body : list Z) : outcome (option (list Z) * fecGroup) :=
  if kind =? fecKindData then
    match delivered g !! i with
    | None => Panic
    | Some true => Ret (None, g)
    | Some false =>
        Ret (trimShard body,
             mkGroup (shards g) (haveData g) (haveTotal g) (size g) (<[i := true]> (delivered g))
               (done g) (gaddr g))
    end
  else Ret (None, g).

Definition set_recv (c : fecCarrier) (gs : gmap Z fecGroup) (ord : list Z) (pend : list (list Z * addr)) : fecCarrier :=
  mkCarrier (data c) (parity c) (sendGrp c) (sendIdx c) (sendPad c) (sendMax c) (sendPeer c) gs ord pend.

Definition new_group (d p : nat) (a : addr) : fecGroup :=
  mkGroup (replicate (d + p) None) 0 0 0 (replicate d false) false a.

(** The group a shard belongs to, made on its first shard. *)
Definition group_for (c : fecCarrier) (group : Z) (a : addr) : fecGroup * fecCarrier :=
  match groups c !! group with
  | Some g => (g, c)
  | None =>
      let g := new_group (data c) (parity c) a in
      let '(ord, gs) := evict (order c ++ [group]) (<[group := g]> (groups c)) in
      (g, set_recv c gs ord (pending c))
  end.

(** [g] is a pointer into the map: what is written to it is seen there as long
    as the group has not been evicted, hence [alter]. *)
Definition absorb (c : fecCarrier) (kind group index : Z) (body : list Z) (a : addr)
    : outcome (option (list Z) * fecCarrier) :=
  let total := (data c + parity c)%nat in
  if Z.of_nat total <=? index then Ret (None, c)
  else
    let i := Z.to_nat index in
    let '(g, c) := group_for c group a in
    let g := file_shard (data c) g kind i body in
    match hand_up g kind i body with
    | Panic => Panic
    | Ret (out, g) =>
        let '(g, rebuilt) := rebuild (data c) (parity c) g in
        Ret (out, set_recv c (alter (λ _, g) group (groups c)) (order c)
                    (pending c ++ ((λ p, (p, gaddr g)) <$> rebuilt)))
    end.

Definition takePending (c : fecCarrier) (plen : nat) : option (list Z * addr * fecCarrier) :=
  match pending c with
  | [] => None
  | (dt, a) :: pend => Some (take plen dt, a, set_recv c (groups c) (order c) pend)
  end.

(** The loop of [ReadFrom] over the datagrams the carrier below returns, the
    end of the list being its error. The result is the datagram returned, the
    datagrams not read yet and the state. *)
Fixpoint read_loop (c : fecCarrier) (plen : nat) (incoming : list (list Z * addr))
    : outcome (option (list Z * addr) * list (list Z * addr) * fecCarrier) :=
  match incoming with
  | [] => Ret (None, [], c)
  | (dg, a) :: incoming =>
      match parseFECHeader (take (plen + fecHeaderLen + fecLenPrefix) dg) with
      | None => read_loop c plen incoming
      | Some (kind, group, index, body) =>
          match absorb c kind group index body a with
          | Panic => Panic
          | Ret (Some payload, c) => Ret (Some (take plen payload, a), incoming, c)
          | Ret (None, c) =>
              match takePending c plen with
              | Some (dt, a', c) => Ret (Some (dt, a'), incoming, c)
              | None => read_loop c plen incoming
              end
          end
      end
  end.

Definition ReadFrom (c : fecCarrier) (plen : nat) (incoming : list (list Z * addr))
    : outcome (option (list Z * addr) * list (list Z * addr) * fecCarrier) :=
  match takePending c plen with
  | Some (dt, a, c) => Ret (Some (dt, a), incoming, c)
  | None => read_loop c plen incoming
  end.

(** Calling [ReadFrom] until the carrier below fails: what came up, in order. *)
Inductive reads (plen : nat) : fecCarrier → list (list Z * addr) → list (list Z * addr) → fecCarrier → Prop :=
| reads_end c inc c' rest : ReadFrom c plen inc = Ret (None, rest, c') → reads plen c inc [] c'
| reads_next c inc x rest c1 xs c2 :
    ReadFrom c plen inc = Ret (Some x, rest, c1) → reads plen c1 rest xs c2 →
    reads plen c inc (x :: xs) c2.

(** Writing packets one after the other: everything handed to the carrier
    below. *)
Fixpoint write_all (c : fecCarrier) (ps : list (list Z)) (a : addr) : list (list Z) * fecCarrier :=
  match ps with
  | [] => ([], c)
  | p :: ps =>
      let '(outs, _, c) := WriteTo (E := unit) c p a (Ok 0) in
      let '(rest, c) := write_all c ps a in
      (outs ++ rest, c)
  end.

End Carrier.

Arguments shards {addr} _.
Arguments haveData {addr} _.
Arguments haveTotal {addr} _.
Arguments size {addr} _.
Arguments delivered {addr} _.
Arguments done {addr} _.
Arguments gaddr {addr} _.
Arguments mkGroup {addr} _ _ _ _ _ _ _.
Arguments data {addr} _.
Arguments parity {addr} _.
Arguments sendGrp {addr} _.
Arguments sendIdx {addr} _.
Arguments sendPad {addr} _.
Arguments sendMax {addr} _.
Arguments sendPeer {addr} _.
Arguments groups {addr} _.
Arguments order {addr} _.
Arguments pending {addr} _.
Arguments mkCarrier {addr} _ _ _ _ _ _ _ _ _ _.
Arguments set_recv {addr} _ _ _ _.
Arguments new_group {addr} _ _ _.
Arguments file_shard {addr} _ _ _ _ _.
Arguments hand_up {addr} _ _ _ _.

(** ** Lemmas: frames and shards *)

Lemma parse_put kind group index body :
  kind = fecKindData ∨ kind = fecKindParity → 0 ≤ group < 2^32 →
  parseFECHeader (putFECHeader kind group index ++ body) = Some (kind, group, index, body).
Proof.
  intros Hk Hg. unfold parseFECHeader, putFECHeader.
  pose proof (length_put_be 4 group) as Hl.
  assert (get_be (put_be 4 group) = group) as Hget by (apply get_put_be_small; lia).
  destruct (put_be 4 group) as [|b0 [|b1 [|b2 [|b3 [|]]]]]; try discriminate Hl.
  cbn [app length]. unfold at_, slice. cbn [lookup list_lookup default drop take Nat.sub fecHeaderLen].
  rewrite Hget. destruct Hk as [-> | ->]; reflexivity.
Qed.

Lemma length_shardOf p : length (shardOf p) = (2 + length p)%nat.
Proof. unfold shardOf. by rewrite length_app, length_put_be. Qed.

Lemma length_pad sz s : length (pad sz s) = sz.
Proof. unfold pad. rewrite length_take, length_app, length_replicate. lia. Qed.

Lemma pad_full sz s : length s = sz → pad sz s = s.
Proof. intros <-. unfold pad. apply take_app_length. Qed.

Lemma pad_app sz s : (length s ≤ sz)%nat → pad sz s = s ++ replicate (sz - length s) 0.
Proof.
  intros H. unfold pad. rewrite take_app, take_ge by lia. f_equal.
  rewrite take_replicate. f_equal. lia.
Qed.

(** A padded shard trims back to the packet it was. *)
Lemma trim_padded sz p :
  zlen p < 65536 → (2 + length p ≤ sz)%nat → trimShard (pad sz (shardOf p)) = Some p.
Proof.
  intros Hp Hs. rewrite pad_app by (rewrite length_shardOf; lia).
  unfold trimShard, shardOf. rewrite !length_app, length_put_be, length_replicate.
  unfold fecLenPrefix. rewrite (proj2 (Nat.ltb_ge _ _)) by lia.
  rewrite <- app_assoc, take_app_length' by (symmetry; apply length_put_be).
  pose proof (zlen_nonneg p). rewrite u16_small by lia. rewrite get_put_be_small by lia.
  unfold zlen. rewrite !length_app, length_put_be, length_replicate.
  rewrite (proj2 (Z.ltb_ge _ _)) by lia. f_equal.
  rewrite slice_app_r, length_put_be by (rewrite length_put_be; lia).
  rewrite slice_app_l by lia. reflexivity.
Qed.

Lemma trim_shardOf p : zlen p < 65536 → trimShard (shardOf p) = Some p.
Proof.
  intros Hp. rewrite <- (pad_full (2 + length p) (shardOf p)) by apply length_shardOf.
  by apply trim_padded.
Qed.

(** ** Lemmas: counting shards *)

Definition has {A} (l : list (option A)) (i : nat) : bool :=
  match l !! i with Some (Some _) => true | _ => false end.

Lemma nsome_app {A} (l k : list (option A)) : nsome (l ++ k) = (nsome l + nsome k)%nat.
Proof. induction l as [|[a|] l IH]; cbn [app nsome]; lia. Qed.

Lemma nsome_le {A} (l : list (option A)) : (nsome l ≤ length l)%nat.
Proof. induction l as [|[a|] l IH]; cbn [nsome length]; lia. Qed.

Lemma nsome_fmap {A B} (f : A → B) (l : list (option A)) : nsome (option_map f <$> l) = nsome l.
Proof. induction l as [|[a|] l IH]; cbn; [done|by rewrite IH|done]. Qed.

Lemma nsome_replicate {A} n : nsome (replicate n (@None A)) = 0%nat.
Proof. induction n; cbn; auto. Qed.

Lemma nsome_insert {A} (l : list (option A)) i x :
  l !! i = Some None → nsome (<[i := Some x]> l) = S (nsome l).
Proof.
  revert i. induction l as [|a l IH]; intros [|i]; cbn; try done.
  - by intros [= ->].
  - intros H. specialize (IH i H). change (nsome (a :: <[i := Some x]> l) = nsome (Some x :: a :: l)).
    destruct a; cbn [nsome]; lia.
Qed.

Lemma nsome_full {A} (l : list (option A)) i : nsome l = length l → (i < length l)%nat → has l i = true.
Proof.
  revert i. induction l as [|[a|] l IH]; intros i Hn Hi; cbn [nsome length] in *; [lia| |].
  - destruct i as [|i]; [done|]. apply IH; lia.
  - pose proof (nsome_le l). lia.
Qed.

Lemma has_insert {A} (l : list (option A)) i j x :
  (i < length l)%nat → has (<[i := Some x]> l) j = if decide (i = j) then true else has l j.
Proof.
  intros Hi. unfold has. case_decide as E; [subst|].
  - by rewrite list_lookup_insert_eq.
  - by rewrite list_lookup_insert_ne.
Qed.

Lemma has_lt {A} (l : list (option A)) i : has l i = true → (i < length l)%nat.
Proof. unfold has. destruct (l !! i) eqn:E; [|done]. intros _. by apply lookup_lt_Some in E. Qed.

Lemma has_delete {A} (l : list (option A)) i :
  has l i = true → nsome l = S (nsome (<[i := None]> l)).
Proof.
  revert i. induction l as [|[a|] l IH]; intros [|i]; unfold has; cbn; try done.
  - intros H. f_equal. by apply IH.
  - intros H. by apply IH.
Qed.

(** As many distinct indices as there are present shards, at most. *)
Lemma nsome_nodup {A} (l : list (option A)) (idx : list nat) :
  NoDup idx → (∀ i, i ∈ idx → has l i = true) → (length idx ≤ nsome l)%nat.
Proof.
  revert l. induction idx as [|i idx IH]; intros l Hnd Hl; [cbn; lia|].
  apply NoDup_cons in Hnd as [Hi Hnd]. assert (has l i = true) as Hli by (apply Hl, elem_of_cons; by left).
  rewrite (has_delete l i Hli). cbn [length]. apply le_n_S, IH; [done|].
  intros j Hj. unfold has. rewrite list_lookup_insert_ne.
  - apply Hl, elem_of_cons. by right.
  - intros ->. done.
Qed.

(** ** Lemmas: what has been handed up *)

(** The packets whose flag is set. *)
Fixpoint picked (del : list bool) (ps : list (list Z)) : list (list Z) :=
  match del, ps with
  | b :: del, p :: ps => (if b then [p] else []) ++ picked del ps
  | _, _ => []
  end.

Lemma picked_false n ps : picked (replicate n false) ps = [].
Proof. revert ps. induction n; intros [|p ps]; cbn; auto. Qed.

Lemma picked_insert del ps i p :
  del !! i = Some false → ps !! i = Some p → picked (<[i := true]> del) ps ≡ₚ p :: picked del ps.
Proof.
  revert ps i. induction del as [|b del IH]; intros [|q ps] [|i]; cbn; try done.
  - by intros [= ->] [= ->].
  - intros H1 H2. rewrite (IH ps i H1 H2). destruct b; cbn; [apply Permutation_swap|done].
Qed.

Lemma picked_all del ps : length del = length ps → (∀ i, (i < length del)%nat → del !! i = Some true) → picked del ps = ps.
Proof.
  revert ps. induction del as [|b del IH]; intros [|p ps] Hl Hd; cbn in *; try done.
  assert (b = true) as -> by (specialize (Hd 0%nat ltac:(lia)); cbn in Hd; by simplify_eq).
  cbn. f_equal. apply IH; [lia|]. intros i Hi. apply (Hd (S i)). lia.
Qed.

Lemma picked_compl del ps : length del = length ps → picked del ps ++ picked (negb <$> del) ps ≡ₚ ps.
Proof.
  revert ps. induction del as [|b del IH]; intros [|p ps] Hl; cbn in *; try done.
  destruct b; cbn.
  - apply perm_skip, IH. lia.
  - rewrite <- Permutation_middle. apply perm_skip, IH. lia.
Qed.

Lemma picked_sub del ps p : p ∈ picked del ps → p ∈ ps.
Proof.
  revert ps. induction del as [|b del IH]; intros [|q ps]; cbn; try by intros []%not_elem_of_nil.
  rewrite elem_of_app, elem_of_cons. intros [H|H]; [|right; by apply IH].
  destruct b; [left; by apply list_elem_of_singleton in H|by apply not_elem_of_nil in H].
Qed.

Lemma deliver_loop_spec del ps sz :
  length del = length ps → Forall (λ p, zlen p < 65536 ∧ (2 + length p ≤ sz)%nat) ps →
  deliver_loop del ((λ p, Some (pad sz (shardOf p))) <$> ps) =
    (replicate (length ps) true, picked (negb <$> del) ps).
Proof.
  revert ps. induction del as [|b del IH]; intros [|p ps] Hl Hps; try done.
  apply Forall_cons in Hps as [[Hp Hs] Hps]. cbn in Hl. rewrite fmap_cons. cbn [deliver_loop].
  rewrite IH by (done || lia). cbn [length replicate fmap list_fmap picked].
  destruct b; cbn [negb app]; [done|]. by rewrite trim_padded.
Qed.

Lemma widen_spec sz sh :
  (∀ i s, sh !! i = Some (Some s) → (length s ≤ sz)%nat) → widen sz sh = Some (option_map (pad sz) <$> sh).
Proof.
  induction sh as [|[s|] sh IH]; intros H; [done|..].
  - assert (length s ≤ sz)%nat as Hs by (by apply (H 0%nat)).
    assert (widen sz sh = Some (option_map (pad sz) <$> sh)) as E by (apply IH; intros i; apply (H (S i))).
    cbn [widen]. rewrite E, fmap_cons. cbn [option_map]. destruct (Nat.eqb_spec (length s) sz) as [Hl|Hl].
    + rewrite (pad_full sz s Hl). reflexivity.
    + rewrite (proj2 (Nat.ltb_ge _ _)) by lia. reflexivity.
  - assert (widen sz sh = Some (option_map (pad sz) <$> sh)) as E by (apply IH; intros i; apply (H (S i))).
    cbn [widen]. by rewrite E.
Qed.

(** ** One group *)

Section Group.
Context (R : ReedSolomon) (addr : Type) (d p sz : nat) (Laws : RSLaws R d p).
Context (ps enc par : list (list Z)).
#[local] Set Default Proof Using "Type*".

(** The packets of the group fit the width, and [enc] is their encoding. *)
Definition fits : Prop := Forall (λ q, zlen q < 65536 ∧ (2 + length q ≤ sz)%nat) ps.
Definition padded : list (list Z) := (λ q, pad sz (shardOf q)) <$> ps.

Hypothesis Hps : length ps = d.
Hypothesis Hfit : fits.
Hypothesis Hsz : (0 < sz)%nat.
Hypothesis Hpar : length par = p ∧ Forall (λ s, length s = sz) par.
Hypothesis Henc : Encode R d p (padded ++ replicate p (replicate sz 0)) = Some enc.
Hypothesis Hencpar : enc = padded ++ par.

(** The body the [i]-th datagram of the group carries. *)
Definition stored (i : nat) : list Z :=
  if (i <? d)%nat then shardOf (default [] (ps !! i)) else default [] (enc !! i).
Definition kindOf (i : nat) : Z := if (i <? d)%nat then fecKindData else fecKindParity.

(** The receiver's state for the group, and what it has handed up. *)
Record ginv (g : fecGroup addr) (log : list (list Z)) : Prop := {
  gi_len : length (shards g) = (d + p)%nat;
  gi_sh : ∀ i s, shards g !! i = Some (Some s) → s = stored i;
  gi_data : haveData g = nsome (take d (shards g));
  gi_total : haveTotal g = nsome (shards g);
  gi_size : size g = if (nsome (drop d (shards g)) =? 0)%nat then 0%nat else sz;
  gi_dlen : length (delivered g) = d;
  gi_del : ∀ i, (i < d)%nat → delivered g !! i = Some (has (shards g) i || done g);
  gi_log : log ≡ₚ picked (delivered g) ps
}.

(** Once enough shards are in, nothing is missing. *)
Definition complete (g : fecGroup addr) : Prop :=
  (d ≤ nsome (shards g))%nat → done g = true ∨ nsome (take d (shards g)) = d.

Lemma length_enc : length enc = (d + p)%nat.
Proof. rewrite Hencpar, length_app. unfold padded. rewrite length_fmap. lia. Qed.

Lemma input_shape :
  length (padded ++ replicate p (replicate sz 0)) = (d + p)%nat ∧
  Forall (λ s, length s = sz) (padded ++ replicate p (replicate sz 0)).
Proof.
  unfold padded. split.
  - rewrite length_app, length_replicate, length_fmap. lia.
  - apply Forall_app. split.
    + apply Forall_fmap, Forall_forall. intros q _. apply length_pad.
    + apply Forall_replicate, length_replicate.
Qed.

Lemma fits_at i q : ps !! i = Some q → zlen q < 65536 ∧ (2 + length q ≤ sz)%nat.
Proof. apply (Forall_lookup_1 _ _ _ _ Hfit). Qed.

Lemma stored_data i q : ps !! i = Some q → stored i = shardOf q.
Proof.
  intros H. unfold stored. apply lookup_lt_Some in H as Hl. rewrite Hps in Hl.
  rewrite (proj2 (Nat.ltb_lt _ _) Hl). by rewrite H.
Qed.

Lemma stored_parity i : (d ≤ i < d + p)%nat → enc !! i = Some (stored i) ∧ length (stored i) = sz.
Proof.
  intros Hi. unfold stored. rewrite (proj2 (Nat.ltb_ge _ _)) by lia.
  destruct (lookup_lt_is_Some_2 enc i) as [s Hs]; [rewrite length_enc; lia|]. rewrite Hs.
  split; [done|]. cbn. rewrite Hencpar, lookup_app_r in Hs by (unfold padded; rewrite length_fmap; lia).
  destruct Hpar as [_ Hl]. exact (Forall_lookup_1 _ _ _ _ Hl Hs).
Qed.

Lemma stored_pad i : (i < d + p)%nat → (length (stored i) ≤ sz)%nat ∧ enc !! i = Some (pad sz (stored i)).
Proof.
  intros Hi. destruct (decide (i < d)%nat) as [Hd|Hd].
  - destruct (lookup_lt_is_Some_2 ps i) as [q Hq]; [lia|].
    rewrite (stored_data i q Hq), length_shardOf. pose proof (fits_at i q Hq). split; [lia|].
    rewrite Hencpar, lookup_app_l by (unfold padded; rewrite length_fmap; lia).
    unfold padded. by rewrite list_lookup_fmap, Hq.
  - destruct (stored_parity i) as [He Hl]; [lia|]. split; [lia|]. by rewrite (pad_full sz _ Hl).
Qed.

Lemma stored_nonempty i : (i < d + p)%nat → clone (stored i) = Some (stored i).
Proof.
  intros Hi. destruct (stored i) as [|b l] eqn:E; [|done]. exfalso.
  destruct (decide (i < d)%nat) as [Hd|Hd].
  - destruct (lookup_lt_is_Some_2 ps i) as [q Hq]; [lia|]. rewrite (stored_data i q Hq) in E.
    apply (f_equal length) in E. rewrite length_shardOf in E. discriminate E.
  - destruct (stored_parity i) as [_ Hl]; [lia|]. rewrite E in Hl. cbn in Hl. lia.
Qed.

Lemma ginv_new a : ginv (new_group d p a) [] ∧ complete (new_group d p a).
Proof.
  split.
  - constructor; cbn [new_group shards haveData haveTotal size delivered done].
    + apply length_replicate.
    + intros i s H. apply lookup_replicate in H as [? _]. done.
    + rewrite take_replicate. by rewrite nsome_replicate.
    + by rewrite nsome_replicate.
    + by rewrite drop_replicate, nsome_replicate.
    + apply length_replicate.
    + intros i Hi. unfold has. rewrite !lookup_replicate_2 by lia. done.
    + by rewrite picked_false.
  - intros H. right. cbn [new_group shards] in *. rewrite nsome_replicate in H.
    rewrite take_replicate, nsome_replicate. lia.
Qed.

Lemma nsome_split (l : list (option (list Z))) : nsome l = (nsome (take d l) + nsome (drop d l))%nat.
Proof. rewrite <- nsome_app. by rewrite take_drop. Qed.

Lemma rebuild_inv g log :
  ginv g log →
  ginv (fst (rebuild R addr d p g)) (log ++ snd (rebuild R addr d p g)) ∧
  complete (fst (rebuild R addr d p g)) ∧ shards (fst (rebuild R addr d p g)) = shards g ∧
  Forall (λ q, q ∈ ps) (snd (rebuild R addr d p g)).
Proof.
  intros Hg. pose proof Hg as [Hlen Hsh Hdt Htot Hsize Hdl Hdel Hlog].
  assert (∀ (b : bool), ginv g (log ++ []) ∧ shards g = shards g ∧ Forall (λ q, q ∈ ps) []) as Hsame
    by (intros _; rewrite app_nil_r; auto).
  unfold rebuild. destruct (done g) eqn:Edone; cbn [orb].
  { destruct (Hsame true) as (? & ? & ?). split_and!; auto. by left. }
  destruct (Nat.eqb_spec (haveData g) d) as [Ed|Ed]; cbn [orb].
  { destruct (Hsame true) as (? & ? & ?). split_and!; auto. intros _. right. cbn [fst]. by rewrite <- Hdt. }
  destruct (Nat.ltb_spec (haveTotal g) d) as [Et|Et]; cbn [orb].
  { destruct (Hsame true) as (? & ? & ?). split_and!; auto. intros Hn. cbn [fst] in Hn. lia. }
  pose proof (nsome_split (shards g)) as Hsplit.
  pose proof (nsome_le (take d (shards g))) as Hle. rewrite length_take in Hle.
  destruct (Nat.eqb_spec (nsome (drop d (shards g))) 0) as [Ez|Ez]; [exfalso; lia|].
  rewrite Hsize. rewrite (proj2 (Nat.eqb_neq sz 0)) by lia.
  rewrite widen_spec.
  2: { intros i s Hi. pose proof (lookup_lt_Some _ _ _ Hi). rewrite (Hsh i s Hi). apply stored_pad. lia. }
  destruct input_shape as [Hin1 Hin2].
  rewrite (reconstruct_any (padded ++ replicate p (replicate sz 0)) sz enc _ Hin1 Hsz Hin2 Henc).
  2: { rewrite length_fmap, length_enc. done. }
  2: { intros i w. rewrite list_lookup_fmap. destruct (shards g !! i) as [[s|]|] eqn:Hi; cbn; try done.
       intros [= <-]. pose proof (lookup_lt_Some _ _ _ Hi). rewrite (Hsh i s Hi). apply stored_pad. lia. }
  2: { rewrite nsome_fmap. lia. }
  assert (take d (Some <$> enc) = (λ q, Some (pad sz (shardOf q))) <$> ps) as ->.
  { rewrite Hencpar, fmap_app, take_app_length'.
    - unfold padded. by rewrite <- list_fmap_compose.
    - unfold padded. rewrite !length_fmap. lia. }
  rewrite (deliver_loop_spec (delivered g) ps sz) by (done || lia).
  rewrite length_replicate, drop_ge, app_nil_r by lia. cbn [fst snd shards].
  split_and!; [|by left|done|].
  - constructor; cbn [shards haveData haveTotal size delivered done]; try done.
    + by rewrite (proj2 (Nat.eqb_neq _ _) Ez).
    + by rewrite length_replicate.
    + intros i Hi. rewrite lookup_replicate_2 by lia. by rewrite orb_true_r.
    + rewrite Hlog. rewrite (picked_all (replicate _ _)).
      * apply picked_compl. lia.
      * by rewrite length_replicate.
      * intros i Hi. rewrite length_replicate in Hi. by apply lookup_replicate_2.
  - apply Forall_forall. intros q Hq. by apply picked_sub in Hq.
Qed.

(** The invariant's clauses about the shards, after one more is stored. *)
Lemma store_shards (l : list (option (list Z))) i :
  length l = (d + p)%nat → l !! i = Some None → (i < d + p)%nat →
  (∀ j s, l !! j = Some (Some s) → s = stored j) →
  let l' := <[i := Some (stored i)]> l in
  length l' = (d + p)%nat ∧ (∀ j s, l' !! j = Some (Some s) → s = stored j) ∧
  nsome l' = S (nsome l) ∧
  nsome (take d l') = (if (i <? d)%nat then S (nsome (take d l)) else nsome (take d l)) ∧
  nsome (drop d l') = (if (i <? d)%nat then nsome (drop d l) else S (nsome (drop d l))).
Proof.
  intros Hlen Hi Hid Hsh l'. unfold l'. split_and!.
  - by rewrite length_insert.
  - intros j s. destruct (decide (i = j)) as [->|Hne].
    + rewrite list_lookup_insert_eq by lia. by intros [= <-].
    + rewrite list_lookup_insert_ne by done. apply Hsh.
  - by apply nsome_insert.
  - destruct (Nat.ltb_spec i d).
    + rewrite take_insert_lt by lia. apply nsome_insert. by rewrite lookup_take_lt by lia.
    + by rewrite take_insert_ge by lia.
  - destruct (Nat.ltb_spec i d).
    + by rewrite drop_insert_lt by lia.
    + rewrite drop_insert_ge by lia. apply nsome_insert. rewrite lookup_drop. rewrite <- Hi. f_equal. lia.
Qed.

Definition option_list {A} (o : option A) : list A := match o with Some a => [a] | None => [] end.

Lemma arrive_inv g log i :
  ginv g log → (i < d + p)%nat →
  ∃ out g1,
    hand_up (file_shard d g (kindOf i) i (stored i)) (kindOf i) i (stored i) = Ret (out, g1) ∧
    ginv g1 (log ++ option_list out) ∧
    (∀ j, has (shards g) j = true → has (shards g1) j = true) ∧ has (shards g1) i = true ∧
    (∀ q, out = Some q → q ∈ ps).
Proof.
  intros Hg Hi. pose proof Hg as [Hlen Hsh Hdt Htot Hsize Hdl Hdel Hlog].
  destruct (lookup_lt_is_Some_2 (shards g) i) as [o Ho]; [lia|]. unfold file_shard. rewrite Ho.
  destruct o as [s|].
  - (* a duplicate *)
    assert (has (shards g) i = true) as Hhas by (unfold has; by rewrite Ho).
    assert (hand_up g (kindOf i) i (stored i) = Ret (None, g)) as ->.
    { unfold hand_up, kindOf. destruct (Nat.ltb_spec i d); cbn; [|done]. by rewrite Hdel, Hhas by done. }
    eexists None, g. split; [reflexivity|]. cbn [option_list]. rewrite app_nil_r. split_and!; auto. by intros q [=].
  - destruct (store_shards (shards g) i Hlen Ho Hi Hsh) as (L1 & L2 & L3 & L4 & L5).
    rewrite stored_nonempty by done. set (l' := <[i := Some (stored i)]> (shards g)) in *.
    assert (∀ j, has l' j = if decide (i = j) then true else has (shards g) j) as Hhas
      by (intros j; unfold l'; apply has_insert; lia).
    assert (∀ j, has (shards g) j = true → has l' j = true) as Hmono
      by (intros j Hj; rewrite Hhas, Hj; by destruct (decide _)).
    assert (has l' i = true) as Hhi by (rewrite Hhas; by rewrite decide_True).
    assert (has (shards g) i = false) as Hold by (unfold has; by rewrite Ho).
    unfold kindOf in *. destruct (Nat.ltb_spec i d) as [Hd|Hd].
    + cbn [andb]. change (fecKindData =? fecKindParity) with false. cbn [andb].
      unfold hand_up. change (fecKindData =? fecKindData) with true. cbn [delivered].
      rewrite (Hdel i Hd), Hold. cbn [orb]. destruct (done g) eqn:Edone.
      * eexists None, _. split; [reflexivity|]. cbn [option_list]. rewrite app_nil_r.
        split_and!; [|exact Hmono|exact Hhi|by intros q [=]].
        constructor; cbn [shards haveData haveTotal size delivered done];
          rewrite ?L3, ?L4, ?L5; try done; try congruence.
        -- intros j Hj. rewrite Hdel by done. by rewrite ?Edone, !orb_true_r.
      * destruct (lookup_lt_is_Some_2 ps i) as [q Hq]; [lia|]. rewrite (stored_data i q Hq) in *.
        destruct (fits_at i q Hq) as [Hq1 Hq2]. rewrite trim_shardOf by done.
        eexists (Some q), _. split; [reflexivity|]. cbn [option_list].
        split_and!; [|exact Hmono|exact Hhi|intros ? [= <-]; by eapply list_elem_of_lookup_2].
        constructor; cbn [shards haveData haveTotal size delivered done];
          rewrite ?L3, ?L4, ?L5; try done; try congruence.
        -- by rewrite length_insert.
        -- intros j Hj. rewrite Hhas. destruct (decide (i = j)) as [->|Hne].
           ++ by rewrite list_lookup_insert_eq by lia.
           ++ rewrite list_lookup_insert_ne by done. rewrite Hdel by done. by rewrite ?Edone.
        -- rewrite (picked_insert _ _ _ q); [|rewrite Hdel by done; by rewrite Hold, ?Edone|done].
           rewrite Hlog. apply Permutation_sym, Permutation_cons_append.
    + change (fecKindParity =? fecKindParity) with true. cbn [andb].
      unfold hand_up. change (fecKindParity =? fecKindData) with false.
      eexists None, _. split; [reflexivity|]. cbn [option_list]. rewrite app_nil_r.
      split_and!; [|exact Hmono|exact Hhi|by intros q [=]].
      constructor; cbn [shards haveData haveTotal size delivered done];
        rewrite ?L3, ?L4, ?L5; try done; try congruence.
      * cbn [Nat.eqb]. destruct (stored_parity i) as [_ ->]; [lia|].
        destruct (Nat.eqb_spec (size g) 0) as [E|E]; [done|]. rewrite Hsize in *.
        by destruct (nsome (drop d (shards g)) =? 0)%nat.
      * intros j Hj. rewrite Hhas, Hdel by done. destruct (decide (i = j)); [lia|done].
Qed.

(** ** The group inside the carrier *)

Context (G : Z) (plen : nat).
Hypothesis HG : 0 ≤ G < 2^32.
Hypothesis Hdp : (d + p ≤ 256)%nat.
Hypothesis Hplen : (sz ≤ plen + 2)%nat.

(** The [i]-th datagram of the group. *)
Definition frame (i : nat) : list Z := putFECHeader (kindOf i) G (u8 (Z.of_nat i)) ++ stored i.

Definition of_scheme (c : fecCarrier addr) : Prop := data c = d ∧ parity c = p.

Definition at_group (c : fecCarrier addr) (log : list (list Z)) : Prop :=
  (∃ g, groups c !! G = Some g ∧ ginv g log ∧ complete g) ∨
  (groups c !! G = None ∧ G ∉ order c ∧ log = []).

Definition hasG (c : fecCarrier addr) (i : nat) : bool :=
  match groups c !! G with Some g => has (shards g) i | None => false end.

Lemma evict_loop_keeps n ord (gs : gmap Z (fecGroup addr)) :
  G ∉ take n ord → snd (evict_loop addr n ord gs) !! G = gs !! G.
Proof using Type.
  revert ord gs. induction n as [|n IH]; intros [|x ord] gs HnG; try done. cbn [evict_loop].
  cbn [take] in HnG. apply not_elem_of_cons in HnG as [Hx HnG].
  rewrite IH by done. by apply lookup_delete_ne.
Qed.

Lemma evict_keeps ord (gs : gmap Z (fecGroup addr)) :
  G ∉ ord → snd (evict addr (ord ++ [G]) gs) !! G = gs !! G.
Proof using Type.
  clear - addr G. intros HnG. unfold evict. apply evict_loop_keeps. rewrite length_app. cbn [length].
  unfold fecWindow. rewrite take_app_le by lia. intros Hin. apply HnG. by eapply subseteq_take.
Qed.

Lemma rebuild_gaddr g : gaddr (fst (rebuild R addr d p g)) = gaddr g.
Proof.
  unfold rebuild. destruct (_ || _); [done|]. destruct (widen _ _); [|done].
  destruct (Reconstruct _ _ _ _); [|done]. by destruct (deliver_loop _ _).
Qed.

Lemma absorb_step c log i a :
  of_scheme c → at_group c log → (i < d + p)%nat →
  ∃ out rebuilt c' g' a',
    absorb R addr c (kindOf i) G (Z.of_nat i) (stored i) a = Ret (out, c') ∧
    groups c' !! G = Some g' ∧ ginv g' (log ++ option_list out ++ rebuilt) ∧ complete g' ∧
    pending c' = pending c ++ ((λ q, (q, a')) <$> rebuilt) ∧ of_scheme c' ∧
    (∀ j, hasG c j = true → hasG c' j = true) ∧ hasG c' i = true ∧
    Forall (λ q, q ∈ ps) (option_list out ++ rebuilt).
Proof.
  intros [Hcd Hcp] Hat Hi. unfold absorb. rewrite Hcd, Hcp.
  rewrite (proj2 (Z.leb_gt _ _)) by lia. rewrite Nat2Z.id.
  assert (∃ g c0, group_for addr c G a = (g, c0) ∧ groups c0 !! G = Some g ∧ ginv g log ∧ pending c0 = pending c ∧
      of_scheme c0 ∧ (∀ j, hasG c j = true → has (shards g) j = true)) as (g & c0 & -> & Hg0 & Hinv & Hp0 & [Hd0 Hpp0] & Hm0).
  { unfold group_for. rewrite Hcd, Hcp. destruct Hat as [(g & Hg & Hinv & Hc)|(Hn & Hord & ->)].
    - rewrite Hg. exists g, c. split_and!; auto; [done|]. intros j. unfold hasG. by rewrite Hg.
    - rewrite Hn. cbn zeta. destruct (evict addr (order c ++ [G]) (<[G := new_group d p a]> (groups c))) as [ord gs] eqn:Ev.
      eexists _, _. split; [reflexivity|]. cbn [groups set_recv pending]. split_and!; try done.
      + pose proof (evict_keeps (order c) (<[G := new_group d p a]> (groups c)) Hord) as He.
        rewrite Ev in He. cbn [snd] in He. by rewrite He, lookup_insert_eq.
      + apply ginv_new.
      + intros j. unfold hasG. by rewrite Hn. }
  destruct (arrive_inv g log i Hinv Hi) as (out & g1 & Hhand & Hinv1 & Hmono1 & Hhi1 & Hq1).
  rewrite Hd0, Hhand, Hpp0. pose proof (rebuild_inv g1 _ Hinv1) as (Hinv2 & Hcomp & Hsh & Hq2).
  destruct (rebuild R addr d p g1) as [g2 rebuilt] eqn:Er. cbn [fst snd] in *.
  eexists out, rebuilt, _, g2, (gaddr g2). split; [reflexivity|]. cbn [groups set_recv pending].
  assert (alter (λ _, g2) G (groups c0) !! G = Some g2) as Hl by (rewrite lookup_alter_eq, Hg0; done).
  split_and!; [exact Hl| |exact Hcomp| |split; cbn; assumption| | |].
  - by rewrite app_assoc.
  - by rewrite Hp0.
  - intros j Hj. unfold hasG. cbn [groups set_recv]. rewrite Hl, Hsh. by apply Hmono1, Hm0.
  - unfold hasG. cbn [groups set_recv]. by rewrite Hl, Hsh.
  - apply Forall_app. split; [|exact Hq2]. destruct out as [q|]; cbn; [|constructor].
    constructor; [by apply Hq1|constructor].
Qed.

Lemma packet_short q : q ∈ ps → take plen q = q.
Proof.
  intros Hq. apply take_ge. pose proof (proj1 (Forall_forall _ _) Hfit q Hq) as [_ Hl]. cbn in Hl. lia.
Qed.

Lemma frame_parses i :
  (i < d + p)%nat →
  parseFECHeader (take (plen + fecHeaderLen + fecLenPrefix) (frame i)) = Some (kindOf i, G, Z.of_nat i, stored i).
Proof.
  intros Hi. rewrite take_ge.
  - unfold frame. rewrite u8_small by lia. rewrite parse_put; [done| |done].
    unfold kindOf. destruct (i <? d)%nat; auto.
  - unfold frame, putFECHeader, fecHeaderLen, fecLenPrefix. pose proof (stored_pad i Hi) as [Hl _].
    cbn [length app]. rewrite !length_app, length_put_be. cbn [length]. lia.
Qed.

Lemma reads_same c inc c1 inc1 xs c' :
  ReadFrom R addr c plen inc = ReadFrom R addr c1 plen inc1 →
  reads R addr plen c1 inc1 xs c' → reads R addr plen c inc xs c'.
Proof.
  intros E Hr. inversion Hr; subst.
  - eapply reads_end. by rewrite E.
  - eapply reads_next; [by rewrite E|done].
Qed.

(** Everything waiting comes up before the wire is read. *)
Lemma reads_pending c pend inc xs c' :
  reads R addr plen (set_recv c (groups c) (order c) []) inc xs c' →
  reads R addr plen (set_recv c (groups c) (order c) pend) inc
    (((λ x, (take plen x.1, x.2)) <$> pend) ++ xs) c'.
Proof.
  intros Hr. induction pend as [|[dt a] pend IH]; [done|].
  rewrite fmap_cons. cbn [app fst snd]. eapply reads_next; [reflexivity|exact IH].
Qed.

Lemma reads_all_pending c inc xs c' :
  reads R addr plen (set_recv c (groups c) (order c) []) inc xs c' →
  reads R addr plen c inc (((λ x, (take plen x.1, x.2)) <$> pending c) ++ xs) c'.
Proof. destruct c. apply reads_pending. Qed.

Lemma fst_pending (pend : list (list Z * addr)) :
  Forall (λ x, fst x ∈ ps) pend → fst <$> ((λ x, (take plen x.1, x.2)) <$> pend) = fst <$> pend.
Proof.
  intros Hpend. rewrite <- list_fmap_compose. apply list_fmap_ext.
  intros k x Hx. cbn. apply packet_short. exact (Forall_lookup_1 _ _ _ _ Hpend Hx).
Qed.

Lemma read_group idx a : ∀ c log,
  of_scheme c → at_group c log → Forall (λ i, (i < d + p)%nat) idx →
  Forall (λ x, fst x ∈ ps) (pending c) →
  ∃ xs new c', reads R addr plen c ((λ i, (frame i, a)) <$> idx) xs c' ∧
    of_scheme c' ∧ at_group c' (log ++ new) ∧ fst <$> xs ≡ₚ (fst <$> pending c) ++ new ∧
    (∀ j, hasG c j = true → hasG c' j = true) ∧ (∀ j, j ∈ idx → hasG c' j = true).
Proof.
  induction idx as [|i idx IH]; intros c log Hc Hat Hidx Hpend.
  - exists (((λ x, (take plen x.1, x.2)) <$> pending c) ++ []), [], (set_recv c (groups c) (order c) []).
    split_and!; [|done|by rewrite app_nil_r| | |].
    + change (((λ i, (frame i, a)) <$> [])) with (@nil (list Z * addr)). apply reads_all_pending. eapply reads_end. reflexivity.
    + rewrite !app_nil_r. by rewrite fst_pending.
    + done.
    + intros j []%not_elem_of_nil.
  - apply Forall_cons in Hidx as [Hi Hidx]. set (c0 := set_recv c (groups c) (order c) []).
    destruct (absorb_step c0 log i a Hc Hat Hi)
      as (out & rebuilt & c1 & g' & a' & Habs & Hg1 & Hinv1 & Hcomp1 & Hpend1 & Hc1 & Hmono & Hhi & Hq).
    cbn [pending c0 set_recv app] in Hpend1. apply Forall_app in Hq as [Hqo Hqr].
    destruct (IH c1 (log ++ option_list out ++ rebuilt)) as (xs & new & c' & Hr & Hc' & Hat' & Hperm & Hmono' & Hall).
    { done. } { left. by exists g'. } { done. }
    { rewrite Hpend1. apply Forall_fmap. eapply Forall_impl; [exact Hqr|]. by intros q Hq'. }
    assert (fst <$> ((λ q, (q, a')) <$> rebuilt) = rebuilt) as Hfr.
    { rewrite <- list_fmap_compose. apply list_fmap_id. }
    rewrite Hpend1, Hfr in Hperm. cbn [app] in Hperm.
    exists (((λ x, (take plen x.1, x.2)) <$> pending c) ++ ((λ q, (q, a)) <$> option_list out) ++ xs),
      (option_list out ++ rebuilt ++ new), c'.
    split_and!.
    + apply reads_all_pending. fold c0. rewrite fmap_cons. destruct out as [q|]; cbn [option_list fmap list_fmap app].
      * eapply reads_next; [|exact Hr]. unfold ReadFrom. cbn [takePending c0 set_recv pending read_loop].
        rewrite frame_parses by done. fold c0. rewrite Habs. rewrite packet_short; [done|].
        by apply Forall_cons in Hqo as [? _].
      * eapply reads_same; [|exact Hr]. unfold ReadFrom. cbn [takePending c0 set_recv pending read_loop].
        rewrite frame_parses by done. fold c0. rewrite Habs. unfold takePending. by destruct (pending c1) as [|[dt a''] pend].
    + done.
    + rewrite <- !app_assoc in Hat'. exact Hat'.
    + rewrite !fmap_app, Hperm. f_equiv.
      { by rewrite fst_pending. }
      rewrite <- list_fmap_compose. by destruct out.
    + intros j Hj. apply Hmono', Hmono. exact Hj.
    + intros j [->|Hj]%elem_of_cons; [by apply Hmono'|by apply Hall].
Qed.

(** A group that is complete and has enough shards has handed up every
    packet once. *)
Lemma complete_log g log :
  ginv g log → complete g → (d ≤ nsome (shards g))%nat → log ≡ₚ ps.
Proof.
  intros Hg Hc Hn. pose proof Hg as [Hlen Hsh Hdt Htot Hsize Hdl Hdel Hlog]. rewrite Hlog.
  rewrite picked_all; [done|lia|]. intros i Hi. rewrite Hdel by lia.
  destruct (Hc Hn) as [->|Hfull]; [by rewrite orb_true_r|].
  assert (has (take d (shards g)) i = true) as Hh.
  { apply nsome_full; rewrite length_take; lia. }
  unfold has in *. rewrite lookup_take_lt in Hh by lia. by destruct (shards g !! i) as [[|]|].
Qed.

Lemma read_group_complete idx a c sub :
  of_scheme c → groups c !! G = None → G ∉ order c → pending c = [] →
  Forall (λ i, (i < d + p)%nat) idx → NoDup sub → (∀ i, i ∈ sub → i ∈ idx) → (d ≤ length sub)%nat → (0 < d)%nat →
  ∃ xs c', reads R addr plen c ((λ i, (frame i, a)) <$> idx) xs c' ∧ fst <$> xs ≡ₚ ps.
Proof.
  intros Hc Hn Hord Hpend Hidx Hnd Hsub Hlen Hd0.
  destruct (read_group idx a c []) as (xs & new & c' & Hr & _ & Hat & Hperm & _ & Hall); auto.
  { right. done. } { by rewrite Hpend. }
  exists xs, c'. split; [done|]. rewrite Hpend in Hperm. cbn [fmap list_fmap app] in *. rewrite Hperm.
  destruct Hat as [(g & Hg & Hinv & Hcomp)|(Hng & _ & _)].
  - apply (complete_log g); [done|done|]. etransitivity; [exact Hlen|]. apply nsome_nodup; [done|].
    intros i Hi. specialize (Hall i (Hsub i Hi)). unfold hasG in Hall. by rewrite Hg in Hall.
  - destruct sub as [|i sub]; [cbn in Hlen; lia|]. specialize (Hall i (Hsub i ltac:(apply elem_of_cons; by left))).
    unfold hasG in Hall. by rewrite Hng in Hall.
Qed.

End Group.

(** ** Sending a group *)

Section Sending.
Context (R : ReedSolomon) (addr : Type).

(** A sender about to start group [G]. *)
Definition idle (c : fecCarrier addr) (d p : nat) (G : Z) : Prop :=
  data c = d ∧ parity c = p ∧ sendGrp c = G ∧ sendIdx c = 0%nat ∧ sendPad c = None ∧ sendMax c = 0%nat.

Fixpoint widest (ps : list (list Z)) : nat :=
  match ps with
  | [] => 0
  | q :: ps => Nat.max (2 + length q) (widest ps)
  end.

Lemma widest_app ps qs : widest (ps ++ qs) = Nat.max (widest ps) (widest qs).
Proof. induction ps as [|q ps IH]; cbn [app widest]; [lia|]. rewrite IH. lia. Qed.

Lemma widest_le ps : Forall (λ q, (2 + length q ≤ widest ps)%nat) ps.
Proof.
  induction ps as [|q ps IH]; constructor; cbn [widest]; [lia|].
  eapply Forall_impl; [exact IH|]. cbn. lia.
Qed.

(** The sender in the middle of a group: [ps1] written so far. *)
Record sending (c : fecCarrier addr) (d p : nat) (G : Z) (ps1 : list (list Z)) : Prop := {
  sn_data : data c = d;
  sn_parity : parity c = p;
  sn_grp : sendGrp c = G;
  sn_idx : sendIdx c = length ps1;
  sn_pad : length (default (replicate (d + p) None) (sendPad c)) = (d + p)%nat;
  sn_shards : ∀ i q, ps1 !! i = Some q →
    default (replicate (d + p) None) (sendPad c) !! i = Some (Some (shardOf q));
  sn_max : sendMax c = widest ps1
}.

Lemma idle_sending c d p G : idle c d p G → sending c d p G [].
Proof.
  intros (? & ? & ? & ? & Hpad & ?). constructor; auto; rewrite Hpad; cbn.
  - apply length_replicate.
  - intros i q [=].
Qed.

Lemma write_one {E} c d p G ps1 q a (w : result E Z) :
  sending c d p G ps1 → (length ps1 < d)%nat →
  ∃ c1, sending c1 d p G (ps1 ++ [q]) ∧
    WriteTo R addr c q a w =
      (let '(par, c') := if (length ps1 + 1 =? d)%nat then flushParity R addr c1 else ([], c1) in
       ((putFECHeader fecKindData G (u8 (Z.of_nat (length ps1))) ++ shardOf q) :: par,
        match w with Err e => Err e | Ok _ => Ok (zlen q) end, c')) ∧
    sendPad c1 ≠ None.
Proof.
  intros [Hd Hp HG Hidx Hpad Hsh Hmax] Hlt.
  assert (match sendPad c with Some pd => pd | None => replicate (data c + parity c) None end
          = default (replicate (d + p) None) (sendPad c)) as Hpd
    by (rewrite Hd, Hp; by destruct (sendPad c)).
  unfold WriteTo. rewrite Hpd. set (pd := default (replicate (d + p) None) (sendPad c)) in *.
  rewrite Hd, Hp, HG, Hidx, Hmax.
  set (mx := if (widest ps1 <? length (shardOf q))%nat then length (shardOf q) else widest ps1).
  set (c1 := mkCarrier d p G (S (length ps1)) (Some (<[length ps1 := Some (shardOf q)]> pd)) mx (Some a)
               (groups c) (order c) (pending c)).
  exists c1. split_and!.
  - constructor; unfold c1; cbn [data parity sendGrp sendIdx sendPad sendMax default from_option id]; try reflexivity.
    + rewrite length_app. cbn. lia.
    + by rewrite length_insert.
    + intros i q'. destruct (decide (i = length ps1)) as [->|Hne].
      * rewrite lookup_app_r, Nat.sub_diag by lia. cbn. intros [= <-].
        apply list_lookup_insert_eq. lia.
      * rewrite list_lookup_insert_ne by done. intros Hq. apply Hsh.
        apply lookup_lt_Some in Hq as Hl. rewrite length_app in Hl. cbn in Hl.
        by rewrite lookup_app_l in Hq by lia.
    + unfold mx. rewrite widest_app. cbn [widest]. rewrite length_shardOf.
      destruct (Nat.ltb_spec (widest ps1) (2 + length q)); lia.
  - cbn [sendIdx c1 data]. rewrite Nat.add_1_r. fold c1. by destruct (_ =? d)%nat.
  - done.
Qed.

Lemma write_rest c d p G ps1 ps2 a :
  sending c d p G ps1 → (length ps1 + length ps2 = d)%nat → ps2 ≠ [] →
  ∃ c1, sending c1 d p G (ps1 ++ ps2) ∧ sendPad c1 ≠ None ∧
    write_all R addr c ps2 a =
      (imap (λ i q, putFECHeader fecKindData G (u8 (Z.of_nat (length ps1 + i))) ++ shardOf q) ps2
         ++ fst (flushParity R addr c1), snd (flushParity R addr c1)).
Proof.
  revert c ps1. induction ps2 as [|q ps2 IH]; intros c ps1 Hs Hl Hne; [done|]. clear Hne.
  cbn [length] in Hl. cbn [write_all].
  destruct (write_one c d p G ps1 q a (Ok (E := unit) 0) Hs ltac:(lia)) as (c1 & Hs1 & Hw & Hp1). rewrite Hw.
  destruct ps2 as [|q2 ps2].
  - exists c1. split; [done|]. split; [done|]. cbn [length] in Hl.
    rewrite (proj2 (Nat.eqb_eq _ _)) by lia. destruct (flushParity R addr c1) as [par c2]. cbn [fst snd write_all imap].
    rewrite Nat.add_0_r, app_nil_r. reflexivity.
  - cbn [length] in Hl. rewrite (proj2 (Nat.eqb_neq _ _)) by lia.
    destruct (IH c1 (ps1 ++ [q])) as (c2 & Hs2 & Hp2 & Hw2); [done|rewrite length_app; cbn; lia|done|].
    exists c2. rewrite <- app_assoc in Hs2. split; [done|]. split; [done|].
    rewrite Hw2, (imap_cons _ q (q2 :: ps2)), Nat.add_0_r.
    rewrite (imap_ext _ ((λ i x, putFECHeader fecKindData G (u8 (Z.of_nat (length ps1 + i))) ++ shardOf x) ∘ S)
               (q2 :: ps2)); [reflexivity|].
    intros i x _. unfold compose. rewrite length_app. cbn [length].
    by replace (length ps1 + 1 + i)%nat with (length ps1 + S i)%nat by lia.
Qed.

End Sending.

Section Flagship.
Context (R : ReedSolomon) (addr : Type) (d p : nat) (Laws : RSLaws R d p).
#[local] Set Default Proof Using "Type*".

Lemma padded_lookup (pd : list (option (list Z))) ps sz :
  (∀ i q, ps !! i = Some q → pd !! i = Some (Some (shardOf q))) →
  (λ i, pad sz (default [] (mjoin (pd !! i)))) <$> seq 0 (length ps) = padded sz ps.
Proof.
  intros H. apply list_eq. intros i. unfold padded. rewrite !list_lookup_fmap.
  destruct (decide (i < length ps)%nat) as [Hi|Hi].
  - rewrite lookup_seq_lt by done. destruct (lookup_lt_is_Some_2 ps i Hi) as [q Hq].
    rewrite Hq. cbn. by rewrite (H i q Hq).
  - rewrite lookup_seq_ge by lia. by rewrite (lookup_ge_None_2 ps) by lia.
Qed.

(** What a whole group puts on the wire. *)
Lemma group_frames c ps a G :
  idle addr c d p G → length ps = d → (0 < d)%nat →
  let sz := widest ps in
  ∃ par enc c', length par = p ∧ Forall (λ s, length s = sz) par ∧
    Encode R d p (padded sz ps ++ replicate p (replicate sz 0)) = Some enc ∧ enc = padded sz ps ++ par ∧
    write_all R addr c ps a = ((λ i, frame d ps enc G i) <$> seq 0 (d + p), c') ∧
    idle addr c' d p (u32 (G + 1)).
Proof.
  intros Hidle Hps Hd sz.
  destruct (write_rest R addr c d p G [] ps a (idle_sending addr c d p G Hidle) Hps) as (c1 & [H1 H2 H3 H4 H5 H6 H7] & Hpn & Hw).
  { intros ->. cbn in Hps. lia. }
  cbn [app] in *.
  assert (0 < sz)%nat as Hsz by (unfold sz; destruct ps; cbn in *; lia).
  destruct (encode_fills (padded sz ps ++ replicate p (replicate sz 0)) sz) as (par & He & Hpl & Hps').
  { rewrite length_app, length_replicate. unfold padded. rewrite length_fmap. lia. }
  { done. }
  { apply Forall_app. split.
    - apply Forall_fmap, Forall_forall. intros q _. apply length_pad.
    - apply Forall_replicate, length_replicate. }
  rewrite take_app_length' in He by (unfold padded; rewrite length_fmap; lia).
  exists par, (padded sz ps ++ par), (reset_group addr c1). split_and!; try done.
  - rewrite Hw. unfold flushParity. rewrite H1, H2, H3, H7. fold sz. cbn [fst snd].
    rewrite (proj2 (Nat.eqb_neq sz 0)) by lia. destruct (sendPad c1) as [pd|] eqn:Epd; [|done].
    cbn [default from_option id] in H6 |- *. rewrite <- Hps at 2. rewrite (padded_lookup pd ps sz H6), He.
    f_equal. rewrite seq_app, fmap_app. f_equal.
    + apply list_eq. intros i. rewrite list_lookup_imap, list_lookup_fmap. cbn [length].
      destruct (decide (i < d)%nat) as [Hi|Hi].
      * rewrite lookup_seq_lt by lia. destruct (lookup_lt_is_Some_2 ps i) as [q Hq]; [lia|]. rewrite Hq. cbn.
        unfold frame, kindOf, stored. rewrite (proj2 (Nat.ltb_lt i d)) by lia. by rewrite Hq.
      * rewrite lookup_seq_ge by lia. by rewrite (lookup_ge_None_2 ps) by lia.
    + cbn [Nat.add]. apply list_fmap_ext. intros k i Hk. apply lookup_seq in Hk as [-> Hk].
      unfold frame, kindOf, stored. by rewrite (proj2 (Nat.ltb_ge (d + k) d)) by lia.
  - unfold idle, reset_group. cbn. by rewrite H1, H2, H3.
Qed.

End Flagship.

(** ** A concrete code: two data shards and their exclusive or *)

Module Xor21.

Fixpoint xor (a b : list Z) : list Z :=
  match a, b with
  | x :: a, y :: b => Z.lxor x y :: xor a b
  | _, _ => []
  end.

Definition encode (sh : list (list Z)) : option (list (list Z)) :=
  match sh with
  | [a; b; _] => Some [a; b; xor a b]
  | _ => None
  end.

Definition reconstruct (w : list (option (list Z))) : option (list (option (list Z))) :=
  match w with
  | [Some a; Some b; _] => Some [Some a; Some b; Some (xor a b)]
  | [None; Some b; Some c] => Some [Some (xor b c); Some b; Some c]
  | [Some a; None; Some c] => Some [Some a; Some (xor a c); Some c]
  | _ => None
  end.

Definition code : ReedSolomon := mkRS (λ d p, (d =? 2)%nat && (p =? 1)%nat) (λ _ _, encode) (λ _ _, reconstruct).

Lemma length_xor a b : length a = length b → length (xor a b) = length a.
Proof. revert b. induction a as [|x a IH]; intros [|y b] H; cbn in *; auto. Qed.

Lemma xor_left a b : length a = length b → xor a (xor a b) = b.
Proof.
  revert b. induction a as [|x a IH]; intros [|y b] H; cbn in *; try done.
  rewrite <- Z.lxor_assoc, Z.lxor_nilpotent, Z.lxor_0_l. f_equal. apply IH. lia.
Qed.

Lemma xor_right a b : length a = length b → xor b (xor a b) = a.
Proof.
  revert b. induction a as [|x a IH]; intros [|y b] H; cbn in *; try done.
  rewrite (Z.lxor_comm x y), <- Z.lxor_assoc, Z.lxor_nilpotent, Z.lxor_0_l. f_equal. apply IH. lia.
Qed.

#[export] Instance code_laws : RSLaws code 2 1.
Proof.
  constructor.
  - intros sh size Hl Hs Hall. destruct sh as [|a [|b [|c [|]]]]; try done.
    do 3 (apply Forall_cons in Hall as [? Hall]). exists [xor a b]. cbn. split_and!; [done|done|].
    constructor; [|constructor]. rewrite length_xor; congruence.
  - intros sh size enc w Hl Hs Hall He Hlw Hw Hn. destruct sh as [|a [|b [|c [|]]]]; try done.
    apply Forall_cons in Hall as [Ha Hall]. apply Forall_cons in Hall as [Hb _].
    cbn in He. injection He as <-. assert (length a = length b) as Hab by congruence.
    destruct w as [|oa [|ob [|oc [|]]]]; try done.
    pose proof (λ v, Hw 0%nat v) as W0. pose proof (λ v, Hw 1%nat v) as W1. pose proof (λ v, Hw 2%nat v) as W2.
    cbn in W0, W1, W2.
    assert (∀ (o : option (list Z)) x, (∀ v, Some o = Some (Some v) → Some x = Some v) → o = None ∨ o = Some x) as Hcase.
    { intros [v|] x Hx; [right|by left]. specialize (Hx v eq_refl). by injection Hx as ->. }
    destruct (Hcase oa a W0) as [-> | ->], (Hcase ob b W1) as [-> | ->], (Hcase oc (xor a b) W2) as [-> | ->];
      cbn in Hn; try (exfalso; lia); cbn.
    + by rewrite xor_right.
    + by rewrite xor_left.
    + done.
    + done.
Qed.

End Xor21.

(** ** Properties *)

Lemma widest_bound ps n : Forall (λ q, (length q ≤ n)%nat) ps → (widest ps ≤ n + 2)%nat.
Proof. induction 1; cbn [widest]; lia. Qed.

(** C3: forward error correction recovers losses. For every scheme [Validate]
    accepts, a full group written at one end puts [Data + Parity] datagrams on
    the wire, and whichever [Data] of them arrive, in whatever order and with
    whatever duplicates, reading at the other end hands up every packet of the
    group exactly once. *)
Theorem fec_recovers (R : ReedSolomon) (addr : Type) (cfg : FECConfig) (cs cr : fecCarrier addr)
    (G : Z) (ps : list (list Z)) (plen : nat) (a a' : addr) (idx sub : list nat) :
  let d := Z.to_nat (Data cfg) in
  let p := Z.to_nat (Parity cfg) in
  Enabled cfg = true → Validate cfg = Ok tt → RSLaws R d p →
  idle addr cs d p G → 0 ≤ G < 2^32 → length ps = d →
  Forall (λ q, zlen q < 65536 ∧ (length q ≤ plen)%nat) ps →
  data cr = d → parity cr = p → groups cr !! G = None → G ∉ order cr → pending cr = [] →
  Forall (λ i, (i < d + p)%nat) idx → NoDup sub → (∀ i, i ∈ sub → i ∈ idx) → (d ≤ length sub)%nat →
  let fs := fst (write_all R addr cs ps a) in
  length fs = (d + p)%nat ∧
  ∃ xs cr', reads R addr plen cr ((λ i, (default [] (fs !! i), a')) <$> idx) xs cr' ∧ fst <$> xs ≡ₚ ps.
Proof.
  intros d p Hen Hval Laws Hidle HG Hps Hfit Hcd Hcp Hn Hord Hpend Hidx Hnd Hsub Hlen fs.
  unfold Enabled in Hen. unfold Validate, Enabled in Hval. rewrite Hen in Hval. cbn [negb] in Hval.
  bool_to_prop. destruct (Z.ltb_spec 256 (Data cfg + Parity cfg)); [done|].
  assert (0 < d)%nat by (unfold d; lia). assert (d + p ≤ 256)%nat by (unfold d, p; lia).
  destruct (group_frames R addr d p Laws cs ps a G Hidle Hps ltac:(lia))
    as (par & enc & c' & Hpl & Hps' & He & Henc & Hw & _).
  assert (fs = (λ i, frame d ps enc G i) <$> seq 0 (d + p)) as Hfs by (unfold fs; by rewrite Hw).
  split; [by rewrite Hfs, length_fmap, length_seq|].
  assert ((λ i, (default [] (fs !! i), a')) <$> idx = (λ i, (frame d ps enc G i, a')) <$> idx) as ->.
  { apply list_fmap_ext. intros k i Hk. pose proof (Forall_lookup_1 _ _ _ _ Hidx Hk) as Hi. cbn in Hi.
    by rewrite Hfs, list_lookup_fmap, lookup_seq_lt by lia. }
  assert (widest ps ≤ plen + 2)%nat.
  { apply widest_bound. eapply Forall_impl; [exact Hfit|]. by intros q []. }
  assert (fits (widest ps) ps).
  { unfold fits. apply Forall_and. split; [eapply Forall_impl; [exact Hfit|]; by intros q []|apply widest_le]. }
  assert (0 < widest ps)%nat by (destruct ps; cbn in *; lia).
  eapply (read_group_complete R addr d p (widest ps) Laws ps enc par Hps); eauto.
  by split.
Qed.

Definition cfg21 : FECConfig := mkFEC 2 1.
Definition start21 : fecCarrier unit := mkCarrier 2 1 0 0 None 0 None ∅ [] [].

(** The first packet is lost; the second and the parity arrive. *)
Lemma fec_recovers_witness :
  let fs := fst (write_all Xor21.code unit start21 [[1; 2; 3]; [9]] tt) in
  ∃ xs cr', reads Xor21.code unit 100 start21 ((λ i, (default [] (fs !! i), tt)) <$> [2; 1]%nat) xs cr' ∧
    fst <$> xs ≡ₚ [[1; 2; 3]; [9]].
Proof.
  apply (fec_recovers Xor21.code unit cfg21 start21 start21 0 [[1; 2; 3]; [9]] 100 tt tt [2; 1]%nat [2; 1]%nat).
  - reflexivity.
  - reflexivity.
  - exact Xor21.code_laws.
  - repeat split.
  - lia.
  - reflexivity.
  - repeat constructor; cbn; lia.
  - reflexivity.
  - reflexivity.
  - reflexivity.
  - apply not_elem_of_nil.
  - reflexivity.
  - repeat constructor; cbn; lia.
  - by apply (bool_decide_unpack _).
  - done.
  - cbn. lia.
Defined.

(** One datagram crashes the process. A datagram of the data kind whose
    index is one of the parity shards passes [parseFECHeader] and the range
    check, and then indexes the [delivered] flags, which cover the data shards
    only: reading it panics, whatever the state of the carrier. Nothing about
    it is authenticated, so anyone who can reach the port can send it. *)
Theorem fec_index_panics (R : ReedSolomon) (addr : Type) (c : fecCarrier addr) (G : Z) (i plen : nat)
    (body : list Z) (a : addr) (incoming : list (list Z * addr)) :
  (∀ g, groups c !! G = Some g → length (delivered g) = data c) →
  0 ≤ G < 2^32 → (data c ≤ i < data c + parity c)%nat → (i < 256)%nat → (length body ≤ plen)%nat →
  pending c = [] →
  ReadFrom R addr c plen ((putFECHeader fecKindData G (u8 (Z.of_nat i)) ++ body, a) :: incoming) = Panic.
Proof.
  intros Hdel HG Hi H256 Hb Hpend. unfold ReadFrom, takePending. rewrite Hpend. cbn [read_loop].
  rewrite take_ge.
  2: { unfold putFECHeader, fecHeaderLen, fecLenPrefix. cbn [length app].
       rewrite !length_app, length_put_be. cbn [length]. lia. }
  rewrite parse_put by auto. rewrite u8_small by lia. unfold absorb.
  rewrite (proj2 (Z.leb_gt _ _)) by lia. rewrite Nat2Z.id.
  assert (∃ g c0, group_for addr c G a = (g, c0) ∧ data c0 = data c ∧ length (delivered g) = data c)
    as (g & c0 & -> & Hd & Hl).
  { unfold group_for. destruct (groups c !! G) as [g|] eqn:Eg; [exists g, c; auto|].
    destruct (evict _ _ _) as [ord gs]. eexists _, _. split; [reflexivity|]. split; [done|].
    apply length_replicate. }
  assert (delivered (file_shard (data c0) g fecKindData i body) !! i = None) as Hnone.
  { assert (delivered (file_shard (data c0) g fecKindData i body) = delivered g) as ->.
    { unfold file_shard. destruct (shards g !! i) as [[|]|]; reflexivity. }
    apply lookup_ge_None_2. lia. }
  unfold hand_up. change (fecKindData =? fecKindData) with true. by rewrite Hnone.
Qed.

Lemma fec_index_panics_witness :
  ReadFrom Xor21.code unit start21 100 [([0; 0; 0; 0; 0; 2; 65], tt)] = Panic.
Proof.
  apply (fec_index_panics Xor21.code unit start21 0 2 100 [65] tt []).
  - by intros g.
  - lia.
  - cbn. lia.
  - lia.
  - cbn. lia.
  - reflexivity.
Defined.

(** A restarted sender is not heard. The receiver remembers which indices
    of a recent group it has handed up, and a data datagram that names one of
    them again is swallowed whatever it carries: when the sender starts over
    at group zero while the receiver still holds its old group zero, the new
    packets, handshakes included, are dropped until the indices run past what
    the receiver saw. *)
Theorem fec_swallows_reused (R : ReedSolomon) (addr : Type) (c : fecCarrier addr) (G : Z) (i plen : nat)
    (g : fecGroup addr) (s body : list Z) (a : addr) (incoming : list (list Z * addr)) :
  groups c !! G = Some g → delivered g !! i = Some true → shards g !! i = Some (Some s) →
  done g = true ∨ haveData g = data c → 0 ≤ G < 2^32 → (i < data c)%nat → (i < 256)%nat → (length body ≤ plen)%nat → pending c = [] →
  ReadFrom R addr c plen ((putFECHeader fecKindData G (u8 (Z.of_nat i)) ++ body, a) :: incoming) =
    ReadFrom R addr c plen incoming.
Proof.
  intros Hg Hdel Hsh Hdone HG Hi H256 Hb Hpend. unfold ReadFrom at 1. unfold takePending. rewrite Hpend. cbn [read_loop].
  rewrite take_ge.
  2: { unfold putFECHeader, fecHeaderLen, fecLenPrefix. cbn [length app].
       rewrite !length_app, length_put_be. cbn [length]. lia. }
  rewrite parse_put by auto. rewrite u8_small by lia. unfold absorb.
  rewrite (proj2 (Z.leb_gt _ _)) by lia. rewrite Nat2Z.id. unfold group_for. rewrite Hg.
  assert (file_shard (data c) g fecKindData i body = g) as ->.
  { unfold file_shard. by rewrite Hsh. }
  unfold hand_up. change (fecKindData =? fecKindData) with true. rewrite Hdel.
  assert (rebuild R addr (data c) (parity c) g = (g, [])) as ->.
  { unfold rebuild. destruct Hdone as [->|Hd]; [done|]. rewrite (proj2 (Nat.eqb_eq _ _) Hd). by rewrite orb_true_r. }
  cbn [fmap list_fmap]. rewrite app_nil_r.
  assert (set_recv c (alter (λ _, g) G (groups c)) (order c) (pending c) = c) as ->.
  { rewrite alter_id by (intros y; rewrite Hg; by intros [= <-]). by destruct c. }
  unfold ReadFrom, takePending. by rewrite Hpend.
Qed.

Definition old_group : fecGroup unit := mkGroup [Some [0; 1; 5]; Some [0; 1; 6]; Some [0; 0; 3]] 2 3 3 [true; true] true tt.
Definition old_state : fecCarrier unit := mkCarrier 2 1 0 0 None 0 None {[0 := old_group]} [0] [].

Lemma fec_swallows_reused_witness :
  ReadFrom Xor21.code unit old_state 100 [([0; 0; 0; 0; 0; 0; 0; 2; 7; 8], tt)] =
    ReadFrom Xor21.code unit old_state 100 [].
Proof.
  apply (fec_swallows_reused Xor21.code unit old_state 0 0 100 old_group [0; 1; 5] [0; 2; 7; 8] tt []).
  - reflexivity.
  - reflexivity.
  - reflexivity.
  - by left.
  - lia.
  - cbn. lia.
  - lia.
  - cbn. lia.
  - reflexivity.
Defined.

End Fec.
