(* ===== verification/L3Tunnel.v ===== *)
(** The engine of the layer-3 tunnel: [src/internal/tunnel/l3/tunnel.go], and
    the message half of [mtuprobe.go].

    [Tunnel] is the mutable state of the Go struct. Sessions are pointers in
    the code, shared by the three slots and by the pumps that hold one across
    calls: here a slot is a reference into [heap]. Each handler is one
    transition; the locks of the code make the guarded blocks atomic, and
    the handlers of one receive pump run one after the other. What leaves the
    engine is recorded in [sent] (the carrier) and [injected] (the TUN
    device); log lines are left out. The configuration, the clock, the
    randomness and the results of the carrier and the device are arguments. *)

From Stdlib Require Import Ascii String.
From S2P Require Import Prelude.
From S2P Require Import GoStr.
From S2P Require Import L3Wire.
From S2P Require Import L3Replay.
From S2P Require Import L3Fresh.
From S2P Require Import L3Encap.
From S2P Require Import L3Session.
Import GoStr Wire SeenInits Freshness.
Open Scope string_scope.
Open Scope list_scope.
Open Scope Z_scope.

Module Tunnel.

Definition handshakeRetry : Z := 800 * Millisecond.
Definition handshakeAttempts : nat := 6.
Definition handshakeBackoff : Z := 3 * Second.
Definition previousGrace : Z := 30 * Second.
Definition rekeyCheck : Z := 5 * Second.
Definition peerSilentAfter : Z := 15 * Second.

(** ** Addresses *)

(** A [net.Addr]: the two types [sameAddr] knows, or another one, of which
    only its string form is used. *)
Inductive Addr : Type :=
| UDPAddr (ip : list Z) (port : Z)
| IPAddr (ip : list Z)
| OtherAddr (str : string).

#[export] Instance Addr_eq_dec : EqDecision Addr.
Proof. solve_decision. Defined.

Definition v4InV6Prefix : list Z := [0; 0; 0; 0; 0; 0; 0; 0; 0; 0; 255; 255].

(** [net.IP.Equal]: a 4-byte address equals its 16-byte form. *)
Definition ip_equal (a b : list Z) : bool :=
  if (length a =? length b)%nat then bool_decide (a = b)
  else if (length a =? 4)%nat && (length b =? 16)%nat then bool_decide (b = v4InV6Prefix ++ a)
  else if (length a =? 16)%nat && (length b =? 4)%nat then bool_decide (a = v4InV6Prefix ++ b)
  else false.

Section Engine.
Context (N : Session.Noise).
(** [net.Addr.String()]. *)
Context (addrString : Addr → string).

Definition sameAddr (a b : option Addr) : bool :=
  match a, b with
  | None, None => true
  | Some (UDPAddr x px), Some (UDPAddr y py) => (px =? py) && ip_equal x y
  | Some (UDPAddr _ _), Some _ => false
  | Some (IPAddr x), Some (IPAddr y) => ip_equal x y
  | Some (IPAddr _), Some _ => false
  | Some a, Some b => String.eqb (addrString a) (addrString b)
  | _, _ => false
  end.

Inductive mode : Type := ModeDial | ModeListen.

Record Config : Type := mkConfig {
  Mode : mode;
  Token : string;
  encap : Encap.greEncap   (* what New built from cfg.Encap and cfg.GREKey *)
}.

(** ** The state *)

Record Tunnel : Type := mkTunnel {
  heap : gmap nat (Session.session N);
  nextLoc : nat;
  current : option nat;
  pending : option nat;
  previous : option nat;
  prevFrom : Z;
  peer : option Addr;
  fresh : freshJudge;
  freshClock : Z;
  legacyUntil : Z;
  unanswered : Z;
  silentRekey : bool;
  lastInitID : Z;
  lastReply : option (list Z);
  seen : seenInits;
  replies : list (Z * list Z);
  packetsIn : Z;
  packetsOut : Z;
  bytesIn : Z;
  bytesOut : Z;
  dropped : Z;
  handshakes : Z;
  reported : option Addr;
  mtuCurrent : Z;
  probeWaiters : gmap Z (list Z);
  sent : list (list Z * Addr);
  injected : list (list Z)
}.

Definition set_heap (v : gmap nat (Session.session N)) (t : Tunnel) : Tunnel :=
  mkTunnel v (nextLoc t) (current t) (pending t) (previous t) (prevFrom t) (peer t) (fresh t)
    (freshClock t) (legacyUntil t) (unanswered t) (silentRekey t) (lastInitID t) (lastReply t) (seen
    t) (replies t) (packetsIn t) (packetsOut t) (bytesIn t) (bytesOut t) (dropped t) (handshakes t)
    (reported t) (mtuCurrent t) (probeWaiters t) (sent t) (injected t).
Definition set_nextLoc (v : nat) (t : Tunnel) : Tunnel :=
  mkTunnel (heap t) v (current t) (pending t) (previous t) (prevFrom t) (peer t) (fresh t)
    (freshClock t) (legacyUntil t) (unanswered t) (silentRekey t) (lastInitID t) (lastReply t) (seen
    t) (replies t) (packetsIn t) (packetsOut t) (bytesIn t) (bytesOut t) (dropped t) (handshakes t)
    (reported t) (mtuCurrent t) (probeWaiters t) (sent t) (injected t).
Definition set_current (v : option nat) (t : Tunnel) : Tunnel :=
  mkTunnel (heap t) (nextLoc t) v (pending t) (previous t) (prevFrom t) (peer t) (fresh t)
    (freshClock t) (legacyUntil t) (unanswered t) (silentRekey t) (lastInitID t) (lastReply t) (seen
    t) (replies t) (packetsIn t) (packetsOut t) (bytesIn t) (bytesOut t) (dropped t) (handshakes t)
    (reported t) (mtuCurrent t) (probeWaiters t) (sent t) (injected t).
Definition set_pending (v : option nat) (t : Tunnel) : Tunnel :=
  mkTunnel (heap t) (nextLoc t) (current t) v (previous t) (prevFrom t) (peer t) (fresh t)
    (freshClock t) (legacyUntil t) (unanswered t) (silentRekey t) (lastInitID t) (lastReply t) (seen
    t) (replies t) (packetsIn t) (packetsOut t) (bytesIn t) (bytesOut t) (dropped t) (handshakes t)
    (reported t) (mtuCurrent t) (probeWaiters t) (sent t) (injected t).
Definition set_previous (v : option nat) (t : Tunnel) : Tunnel :=
  mkTunnel (heap t) (nextLoc t) (current t) (pending t) v (prevFrom t) (peer t) (fresh t)
    (freshClock t) (legacyUntil t) (unanswered t) (silentRekey t) (lastInitID t) (lastReply t) (seen
    t) (replies t) (packetsIn t) (packetsOut t) (bytesIn t) (bytesOut t) (dropped t) (handshakes t)
    (reported t) (mtuCurrent t) (probeWaiters t) (sent t) (injected t).
Definition set_prevFrom (v : Z) (t : Tunnel) : Tunnel :=
  mkTunnel (heap t) (nextLoc t) (current t) (pending t) (previous t) v (peer t) (fresh t)
    (freshClock t) (legacyUntil t) (unanswered t) (silentRekey t) (lastInitID t) (lastReply t) (seen
    t) (replies t) (packetsIn t) (packetsOut t) (bytesIn t) (bytesOut t) (dropped t) (handshakes t)
    (reported t) (mtuCurrent t) (probeWaiters t) (sent t) (injected t).
Definition set_peer (v : option Addr) (t : Tunnel) : Tunnel :=
  mkTunnel (heap t) (nextLoc t) (current t) (pending t) (previous t) (prevFrom t) v (fresh t)
    (freshClock t) (legacyUntil t) (unanswered t) (silentRekey t) (lastInitID t) (lastReply t) (seen
    t) (replies t) (packetsIn t) (packetsOut t) (bytesIn t) (bytesOut t) (dropped t) (handshakes t)
    (reported t) (mtuCurrent t) (probeWaiters t) (sent t) (injected t).
Definition set_fresh (v : freshJudge) (t : Tunnel) : Tunnel :=
  mkTunnel (heap t) (nextLoc t) (current t) (pending t) (previous t) (prevFrom t) (peer t) v
    (freshClock t) (legacyUntil t) (unanswered t) (silentRekey t) (lastInitID t) (lastReply t) (seen
    t) (replies t) (packetsIn t) (packetsOut t) (bytesIn t) (bytesOut t) (dropped t) (handshakes t)
    (reported t) (mtuCurrent t) (probeWaiters t) (sent t) (injected t).
Definition set_freshClock (v : Z) (t : Tunnel) : Tunnel :=
  mkTunnel (heap t) (nextLoc t) (current t) (pending t) (previous t) (prevFrom t) (peer t) (fresh t)
    v (legacyUntil t) (unanswered t) (silentRekey t) (lastInitID t) (lastReply t) (seen t) (replies
    t) (packetsIn t) (packetsOut t) (bytesIn t) (bytesOut t) (dropped t) (handshakes t) (reported t)
    (mtuCurrent t) (probeWaiters t) (sent t) (injected t).
Definition set_legacyUntil (v : Z) (t : Tunnel) : Tunnel :=
  mkTunnel (heap t) (nextLoc t) (current t) (pending t) (previous t) (prevFrom t) (peer t) (fresh t)
    (freshClock t) v (unanswered t) (silentRekey t) (lastInitID t) (lastReply t) (seen t) (replies
    t) (packetsIn t) (packetsOut t) (bytesIn t) (bytesOut t) (dropped t) (handshakes t) (reported t)
    (mtuCurrent t) (probeWaiters t) (sent t) (injected t).
Definition set_unanswered (v : Z) (t : Tunnel) : Tunnel :=
  mkTunnel (heap t) (nextLoc t) (current t) (pending t) (previous t) (prevFrom t) (peer t) (fresh t)
    (freshClock t) (legacyUntil t) v (silentRekey t) (lastInitID t) (lastReply t) (seen t) (replies
    t) (packetsIn t) (packetsOut t) (bytesIn t) (bytesOut t) (dropped t) (handshakes t) (reported t)
    (mtuCurrent t) (probeWaiters t) (sent t) (injected t).
Definition set_silentRekey (v : bool) (t : Tunnel) : Tunnel :=
  mkTunnel (heap t) (nextLoc t) (current t) (pending t) (previous t) (prevFrom t) (peer t) (fresh t)
    (freshClock t) (legacyUntil t) (unanswered t) v (lastInitID t) (lastReply t) (seen t) (replies
    t) (packetsIn t) (packetsOut t) (bytesIn t) (bytesOut t) (dropped t) (handshakes t) (reported t)
    (mtuCurrent t) (probeWaiters t) (sent t) (injected t).
Definition set_lastInitID (v : Z) (t : Tunnel) : Tunnel :=
  mkTunnel (heap t) (nextLoc t) (current t) (pending t) (previous t) (prevFrom t) (peer t) (fresh t)
    (freshClock t) (legacyUntil t) (unanswered t) (silentRekey t) v (lastReply t) (seen t) (replies
    t) (packetsIn t) (packetsOut t) (bytesIn t) (bytesOut t) (dropped t) (handshakes t) (reported t)
    (mtuCurrent t) (probeWaiters t) (sent t) (injected t).
Definition set_lastReply (v : option (list Z)) (t : Tunnel) : Tunnel :=
  mkTunnel (heap t) (nextLoc t) (current t) (pending t) (previous t) (prevFrom t) (peer t) (fresh t)
    (freshClock t) (legacyUntil t) (unanswered t) (silentRekey t) (lastInitID t) v (seen t) (replies
    t) (packetsIn t) (packetsOut t) (bytesIn t) (bytesOut t) (dropped t) (handshakes t) (reported t)
    (mtuCurrent t) (probeWaiters t) (sent t) (injected t).
Definition set_seen (v : seenInits) (t : Tunnel) : Tunnel :=
  mkTunnel (heap t) (nextLoc t) (current t) (pending t) (previous t) (prevFrom t) (peer t) (fresh t)
    (freshClock t) (legacyUntil t) (unanswered t) (silentRekey t) (lastInitID t) (lastReply t) v
    (replies t) (packetsIn t) (packetsOut t) (bytesIn t) (bytesOut t) (dropped t) (handshakes t)
    (reported t) (mtuCurrent t) (probeWaiters t) (sent t) (injected t).
Definition set_replies (v : list (Z * list Z)) (t : Tunnel) : Tunnel :=
  mkTunnel (heap t) (nextLoc t) (current t) (pending t) (previous t) (prevFrom t) (peer t) (fresh t)
    (freshClock t) (legacyUntil t) (unanswered t) (silentRekey t) (lastInitID t) (lastReply t) (seen
    t) v (packetsIn t) (packetsOut t) (bytesIn t) (bytesOut t) (dropped t) (handshakes t) (reported
    t) (mtuCurrent t) (probeWaiters t) (sent t) (injected t).
Definition set_packetsIn (v : Z) (t : Tunnel) : Tunnel :=
  mkTunnel (heap t) (nextLoc t) (current t) (pending t) (previous t) (prevFrom t) (peer t) (fresh t)
    (freshClock t) (legacyUntil t) (unanswered t) (silentRekey t) (lastInitID t) (lastReply t) (seen
    t) (replies t) v (packetsOut t) (bytesIn t) (bytesOut t) (dropped t) (handshakes t) (reported t)
    (mtuCurrent t) (probeWaiters t) (sent t) (injected t).
Definition set_packetsOut (v : Z) (t : Tunnel) : Tunnel :=
  mkTunnel (heap t) (nextLoc t) (current t) (pending t) (previous t) (prevFrom t) (peer t) (fresh t)
    (freshClock t) (legacyUntil t) (unanswered t) (silentRekey t) (lastInitID t) (lastReply t) (seen
    t) (replies t) (packetsIn t) v (bytesIn t) (bytesOut t) (dropped t) (handshakes t) (reported t)
    (mtuCurrent t) (probeWaiters t) (sent t) (injected t).
Definition set_bytesIn (v : Z) (t : Tunnel) : Tunnel :=
  mkTunnel (heap t) (nextLoc t) (current t) (pending t) (previous t) (prevFrom t) (peer t) (fresh t)
    (freshClock t) (legacyUntil t) (unanswered t) (silentRekey t) (lastInitID t) (lastReply t) (seen
    t) (replies t) (packetsIn t) (packetsOut t) v (bytesOut t) (dropped t) (handshakes t) (reported
    t) (mtuCurrent t) (probeWaiters t) (sent t) (injected t).
Definition set_bytesOut (v : Z) (t : Tunnel) : Tunnel :=
  mkTunnel (heap t) (nextLoc t) (current t) (pending t) (previous t) (prevFrom t) (peer t) (fresh t)
    (freshClock t) (legacyUntil t) (unanswered t) (silentRekey t) (lastInitID t) (lastReply t) (seen
    t) (replies t) (packetsIn t) (packetsOut t) (bytesIn t) v (dropped t) (handshakes t) (reported
    t) (mtuCurrent t) (probeWaiters t) (sent t) (injected t).
Definition set_dropped (v : Z) (t : Tunnel) : Tunnel :=
  mkTunnel (heap t) (nextLoc t) (current t) (pending t) (previous t) (prevFrom t) (peer t) (fresh t)
    (freshClock t) (legacyUntil t) (unanswered t) (silentRekey t) (lastInitID t) (lastReply t) (seen
    t) (replies t) (packetsIn t) (packetsOut t) (bytesIn t) (bytesOut t) v (handshakes t) (reported
    t) (mtuCurrent t) (probeWaiters t) (sent t) (injected t).
Definition set_handshakes (v : Z) (t : Tunnel) : Tunnel :=
  mkTunnel (heap t) (nextLoc t) (current t) (pending t) (previous t) (prevFrom t) (peer t) (fresh t)
    (freshClock t) (legacyUntil t) (unanswered t) (silentRekey t) (lastInitID t) (lastReply t) (seen
    t) (replies t) (packetsIn t) (packetsOut t) (bytesIn t) (bytesOut t) (dropped t) v (reported t)
    (mtuCurrent t) (probeWaiters t) (sent t) (injected t).
Definition set_reported (v : option Addr) (t : Tunnel) : Tunnel :=
  mkTunnel (heap t) (nextLoc t) (current t) (pending t) (previous t) (prevFrom t) (peer t) (fresh t)
    (freshClock t) (legacyUntil t) (unanswered t) (silentRekey t) (lastInitID t) (lastReply t) (seen
    t) (replies t) (packetsIn t) (packetsOut t) (bytesIn t) (bytesOut t) (dropped t) (handshakes t)
    v (mtuCurrent t) (probeWaiters t) (sent t) (injected t).
Definition set_mtuCurrent (v : Z) (t : Tunnel) : Tunnel :=
  mkTunnel (heap t) (nextLoc t) (current t) (pending t) (previous t) (prevFrom t) (peer t) (fresh t)
    (freshClock t) (legacyUntil t) (unanswered t) (silentRekey t) (lastInitID t) (lastReply t) (seen
    t) (replies t) (packetsIn t) (packetsOut t) (bytesIn t) (bytesOut t) (dropped t) (handshakes t)
    (reported t) v (probeWaiters t) (sent t) (injected t).
Definition set_probeWaiters (v : gmap Z (list Z)) (t : Tunnel) : Tunnel :=
  mkTunnel (heap t) (nextLoc t) (current t) (pending t) (previous t) (prevFrom t) (peer t) (fresh t)
    (freshClock t) (legacyUntil t) (unanswered t) (silentRekey t) (lastInitID t) (lastReply t) (seen
    t) (replies t) (packetsIn t) (packetsOut t) (bytesIn t) (bytesOut t) (dropped t) (handshakes t)
    (reported t) (mtuCurrent t) v (sent t) (injected t).
Definition set_sent (v : list (list Z * Addr)) (t : Tunnel) : Tunnel :=
  mkTunnel (heap t) (nextLoc t) (current t) (pending t) (previous t) (prevFrom t) (peer t) (fresh t)
    (freshClock t) (legacyUntil t) (unanswered t) (silentRekey t) (lastInitID t) (lastReply t) (seen
    t) (replies t) (packetsIn t) (packetsOut t) (bytesIn t) (bytesOut t) (dropped t) (handshakes t)
    (reported t) (mtuCurrent t) (probeWaiters t) v (injected t).
Definition set_injected (v : list (list Z)) (t : Tunnel) : Tunnel :=
  mkTunnel (heap t) (nextLoc t) (current t) (pending t) (previous t) (prevFrom t) (peer t) (fresh t)
    (freshClock t) (legacyUntil t) (unanswered t) (silentRekey t) (lastInitID t) (lastReply t) (seen
    t) (replies t) (packetsIn t) (packetsOut t) (bytesIn t) (bytesOut t) (dropped t) (handshakes t)
    (reported t) (mtuCurrent t) (probeWaiters t) (sent t) v.


(** [New]: nothing is up yet. *)
Definition New (mtu : Z) : Tunnel :=
  mkTunnel ∅ 0 None None None 0 None (mkJudge 0 false) 0 0 0 false 0 None SeenInits.empty []
    0 0 0 0 0 0 None mtu ∅ [] [].

(** A counter is an [atomic.Uint64]. *)
Definition drop1 (t : Tunnel) : Tunnel := set_dropped (u64 (dropped t + 1)) t.

Definition WriteTo (dgram : list Z) (to : Addr) (t : Tunnel) : Tunnel := set_sent ((dgram, to) :: sent t) t.

(** Allocating a session, and the session behind a reference. *)
Definition alloc (s : Session.session N) (t : Tunnel) : nat * Tunnel :=
  (nextLoc t, set_heap (<[nextLoc t := s]> (heap t)) (set_nextLoc (S (nextLoc t)) t)).
Definition store (l : nat) (s : Session.session N) (t : Tunnel) : Tunnel := set_heap (<[l := s]> (heap t)) t.
Definition deref (t : Tunnel) (r : option nat) : option (Session.session N) := l ← r; heap t !! l.

(** ** State *)

Definition setPeer (a : option Addr) (t : Tunnel) : Tunnel :=
  match a with None => t | Some _ => set_peer a t end.

Definition sendSession (t : Tunnel) : option nat :=
  match current t with Some l => Some l | None => pending t end.

(** The id of the session in a slot. *)
Definition slot_is (t : Tunnel) (r : option nat) (sid : Z) : bool :=
  match deref t r with Some s => Session.id s =? sid | None => false end.

Definition sessionFor (t : Tunnel) (sid : Z) : option (nat * bool) :=
  if slot_is t (current t) sid then l ← current t; Some (l, false)
  else if slot_is t (pending t) sid then l ← pending t; Some (l, true)
  else if slot_is t (previous t) sid then l ← previous t; Some (l, false)
  else None.

Definition publishPeer (t : Tunnel) : Tunnel :=
  match peer t with Some a => set_reported (Some a) t | None => t end.

Definition noteAnswered (t : Tunnel) : Tunnel :=
  if negb (unanswered t =? 0) then set_unanswered 0 t else t.

Definition noteSent (cfg : Config) (now : Z) (t : Tunnel) : Tunnel :=
  match Mode cfg with
  | ModeListen => t
  | ModeDial => if unanswered t =? 0 then set_unanswered now t else t
  end.

Definition peerSilent (now : Z) (t : Tunnel) : bool * Tunnel :=
  if (unanswered t =? 0) || (now - unanswered t <? peerSilentAfter) then (false, t)
  else (true, set_unanswered 0 t).

(** The guarded block [installDialed] and [promote] share. *)
Definition swap_in (l : nat) (now : Z) (t : Tunnel) : Tunnel :=
  set_pending None (set_current (Some l) (set_prevFrom now (set_previous (current t) t))).

Definition count_handshake (t : Tunnel) : Tunnel := set_handshakes (u64 (handshakes t + 1)) t.

Definition installDialed (l : nat) (now : Z) (t : Tunnel) : Tunnel :=
  set_silentRekey false (noteAnswered (publishPeer (count_handshake (swap_in l now t)))).

Definition promote (l : nat) (now : Z) (t : Tunnel) : Tunnel :=
  if bool_decide (pending t = Some l) then publishPeer (count_handshake (swap_in l now t)) else t.

Definition slot_expired (t : Tunnel) (r : option nat) (now : Z) : bool :=
  match deref t r with Some s => Session.expired s now | None => false end.

Definition retireSessions (now : Z) (t : Tunnel) : Tunnel :=
  let t :=
    match previous t with
    | Some _ =>
        if (previousGrace <? now - prevFrom t) || slot_expired t (previous t) now
        then set_previous None t else t
    | None => t
    end in
  let t := if slot_expired t (pending t) now then set_pending None t else t in
  let t := if slot_expired t (current t) now then set_current None t else t in
  match current t, pending t with
  | None, None => set_reported None t
  | _, _ => t
  end.

Definition needsSession (now : Z) (t : Tunnel) : bool :=
  match deref t (current t) with
  | None => true
  | Some s => Session.dueForRekey s now
  end.

(** ** The receive side *)

Definition notePeer (from : option Addr) (t : Tunnel) : Tunnel :=
  match from with
  | None => t
  | Some _ => if sameAddr (peer t) from then t else set_peer from t
  end.

(** [handleInit], up to the handshake: what is decided before the datagram is
    authenticated. *)
Inductive init_gate : Type :=
| Retransmission (reply : list Z)
| Replayed (t : Tunnel)
| FirstContact (t : Tunnel).

Definition gateInit (sid now : Z) (t : Tunnel) : init_gate :=
  match (if sid =? lastInitID t then lastReply t else None) with
  | Some reply => Retransmission reply
  | None =>
      let '(again, mem) := SeenInits.seen (seen t) sid now in
      let t := set_seen mem t in
      if again then Replayed (drop1 t) else FirstContact t
  end.

(** The rest of [handleInit]: the handshake, the judge, and the pending
    session. *)
Definition acceptInit (cfg : Config) (h : header) (body : list Z) (from : Addr) (rnd now : Z) (t : Tunnel)
    : Tunnel :=
  let r := Session.respondFresh N (Token cfg) (session h) (int64 (counter h)) body
             (Encap.encapID (encap cfg)) rnd now in
  match Session.err r, Session.sess r, Session.reply r with
  | None, Some s, Some reply =>
      let '(why, judge) := admit_ (fresh t) (Session.rfresh r) in
      if negb (is_ok why) then drop1 t
      else
        let t := set_fresh judge t in
        let '(l, t) := alloc s t in
        let t := set_lastReply (Some reply) (set_lastInitID (session h) (set_pending (Some l) t)) in
        let t :=
          match current t, peer t with
          | None, None => set_peer (Some from) t
          | _, _ => t
          end in
        WriteTo reply from (publishPeer t)
  | _, _, Some reply => drop1 (WriteTo reply from t)
  | _, _, None => drop1 t
  end.

Definition handleInit (cfg : Config) (h : header) (body : list Z) (from : Addr) (rnd now : Z) (t : Tunnel)
    : Tunnel :=
  match Mode cfg with
  | ModeDial => t
  | ModeListen =>
      match gateInit (session h) now t with
      | Retransmission reply => WriteTo reply from t
      | Replayed t => t
      | FirstContact t => acceptInit cfg h body from rnd now t
      end
  end.

(** A send on a channel of capacity four that nobody waits behind. *)
Definition handleResp (cfg : Config) (h : header) (body : list Z) (t : Tunnel) : Tunnel :=
  match Mode cfg with
  | ModeListen => t
  | ModeDial =>
      if (length (replies t) <? 4)%nat then set_replies (replies t ++ [(session h, body)]) t else t
  end.

(** What a datagram that opened implies, for data and probes alike. *)
Definition authenticated (l : nat) (isPending : bool) (from : option Addr) (now : Z) (t : Tunnel) : Tunnel :=
  notePeer from (if isPending then promote l now t else t).

(** [sess.open] on the session behind a reference. [None] is "still clearing
    the replay window". *)
Definition open_at (l : nat) (h : header) (body : list Z) (t : Tunnel)
    : option (result Session.error (list Z) * Tunnel) :=
  s ← heap t !! l;
  '(r, s) ← Session.open N s h body;
  Some (r, store l s t).

(** The tail of [handleData], the packet being authentic. [tun] is whether the
    device takes the packet. *)
Definition deliver (cfg : Config) (opened : list Z) (tun : bool) (t : Tunnel) : Tunnel :=
  match Encap.greUnwrap (encap cfg) opened with
  | Err _ => drop1 t
  | Ok inner =>
      let t := set_bytesIn (u64 (bytesIn t + zlen inner)) t in
      let t := set_packetsIn (u64 (packetsIn t + 1)) t in
      if tun then set_injected (inner :: injected t) t else drop1 t
  end.

Definition handleData (cfg : Config) (h : header) (body : list Z) (from : option Addr) (tun : bool)
    (now : Z) (t : Tunnel) : option Tunnel :=
  match sessionFor t (session h) with
  | None => Some (drop1 t)
  | Some (l, isPending) =>
      '(r, t) ← open_at l h body t;
      match r with
      | Err _ => Some (drop1 t)
      | Ok opened => Some (deliver cfg opened tun (noteAnswered (authenticated l isPending from now t)))
      end
  end.

(** ** Probes *)

Definition probeHeaderLen : nat := 6.

(** [copy]ing into a fresh zeroed buffer; too short a buffer panics. *)
Definition buildProbe (pid p : Z) (encapOverhead : nat) : outcome (list Z) :=
  let len := Z.of_nat encapOverhead + p in
  if len <? 6 then Panic
  else Ret (put_be 4 pid ++ put_be 2 (u16 p) ++ replicate (Z.to_nat len - 6) 0).

Definition readProbe (body : list Z) : option (Z * Z) :=
  if (length body <? probeHeaderLen)%nat then None
  else Some (get_be (slice body 0 4), get_be (slice body 4 6)).

Definition buildProbeAck (pid p : Z) : list Z := put_be 4 pid ++ put_be 2 (u16 p).

Definition answerProbe (l : nat) (body : list Z) (t : Tunnel) : Tunnel :=
  match readProbe body, heap t !! l with
  | Some (pid, p), Some s =>
      let '(r, s) := Session.sealKind N s (buildProbeAck pid p) typeProbeAck in
      let t := store l s t in
      match r, peer t with
      | Ok ack, Some a => WriteTo ack a t
      | _, _ => t
      end
  | _, _ => t
  end.

Definition handleProbeAck (body : list Z) (t : Tunnel) : Tunnel :=
  match readProbe body with
  | None => t
  | Some (pid, _) =>
      match probeWaiters t !! pid with
      | Some [] => set_probeWaiters (<[pid := [pid]]> (probeWaiters t)) t
      | _ => t
      end
  end.

Definition handleProbeMessage (h : header) (body : list Z) (from : option Addr) (now : Z) (t : Tunnel)
    : option Tunnel :=
  match sessionFor t (session h) with
  | None => Some (drop1 t)
  | Some (l, isPending) =>
      '(r, t) ← open_at l h body t;
      match r with
      | Err _ => Some (drop1 t)
      | Ok opened =>
          let t := authenticated l isPending from now t in
          Some (if kind h =? typeProbe then answerProbe l opened t
                else if kind h =? typeProbeAck then handleProbeAck opened t
                else t)
      end
  end.

(** [route], for one datagram off the carrier. *)
Definition route (cfg : Config) (datagram : list Z) (from : Addr) (tun : bool) (rnd now : Z) (t : Tunnel)
    : option Tunnel :=
  match parseHeader datagram with
  | Err _ => Some (drop1 t)
  | Ok (h, body) =>
      if kind h =? typeInit then Some (handleInit cfg h body from rnd now t)
      else if kind h =? typeResp then Some (handleResp cfg h body t)
      else if kind h =? typeData then handleData cfg h body (Some from) tun now t
      else handleProbeMessage h body (Some from) now t
  end.

(** ** The send side *)

(** Sealing one round of packets read from the device, under the session and
    peer resolved once for the round: the sealed datagrams with the inner size
    of each, in order. *)
Fixpoint seal_round (cfg : Config) (sess : option nat) (to : option Addr) (pkts : list (list Z)) (t : Tunnel)
    : list (list Z * Z) * Tunnel :=
  match pkts with
  | [] => ([], t)
  | pkt :: pkts =>
      if (length pkt =? 0)%nat then seal_round cfg sess to pkts t
      else
        match sess, to with
        | Some l, Some _ =>
            match Encap.greWrap (encap cfg) [] pkt, heap t !! l with
            | Ok wrapped, Some s =>
                let '(r, s) := Session.seal N s wrapped in
                let t := store l s t in
                match r with
                | Err _ => seal_round cfg sess to pkts (drop1 t)
                | Ok out =>
                    let '(ready, t) := seal_round cfg sess to pkts t in
                    ((out, zlen pkt) :: ready, t)
                end
            | _, _ => seal_round cfg sess to pkts (drop1 t)
            end
        | _, _ => seal_round cfg sess to pkts (drop1 t)
        end
  end.

Definition payload (ready : list (list Z * Z)) : Z := foldr Z.add 0 (snd <$> ready).

Definition account (ready : list (list Z * Z)) (n : Z) (t : Tunnel) : Tunnel :=
  let t := if n <? zlen ready then set_dropped (u64 (dropped t + u64 (zlen ready - n))) t else t in
  if n <=? 0 then t
  else
    let t := set_bytesOut (u64 (bytesOut t + u64 (payload ready * n `quot` zlen ready))) t in
    set_packetsOut (u64 (packetsOut t + u64 n)) t.

(** The one-at-a-time loop of [send]: [ok] is what the carrier answers for
    each write, the context still being live. *)
Fixpoint send_each (ready : list (list Z * Z)) (to : Addr) (ok : nat → bool) (t : Tunnel) : Tunnel :=
  match ready with
  | [] => t
  | (p, n) :: ready =>
      let t :=
        if ok 0%nat then
          set_packetsOut (u64 (packetsOut t + 1)) (set_bytesOut (u64 (bytesOut t + u64 n)) (WriteTo p to t))
        else drop1 t in
      send_each ready to (λ i, ok (S i)) t
  end.

(** The batch writer's answer: sent, an error, or "no batch after all". *)
Inductive batch : Type := Sent (n : Z) | BatchError | NoBatch.

Definition send (ready : list (list Z * Z)) (to : Addr) (writer : option batch) (ok : nat → bool) (t : Tunnel)
    : Tunnel :=
  match (if (1 <? length ready)%nat then writer else None) with
  | Some (Sent n) =>
      account ready n (foldl (λ t p, WriteTo (fst p) to t) t (take (Z.to_nat n) ready))
  | Some BatchError => set_dropped (u64 (dropped t + zlen ready)) t
  | _ => send_each ready to ok t
  end.

(** One round of [pumpFromTUN]. *)
Definition pump_round (cfg : Config) (pkts : list (list Z)) (writer : option batch) (ok : nat → bool) (now : Z)
    (t : Tunnel) : Tunnel :=
  let sess := sendSession t in
  let to := peer t in
  let '(ready, t) := seal_round cfg sess to pkts t in
  match ready, to with
  | [], _ => t
  | _, None => t
  | _, Some a => send ready a writer ok (noteSent cfg now t)
  end.

(** ** The dialling side *)

(** What one wait of [negotiate] ends with. *)
Inductive wait : Type := Timeout | Reply (sid : Z) (body : list Z) | Cancelled.

Inductive neg_error : Type :=
| errResolve
| errNoPeer
| errContext
| errNoAnswer
| errSend
| errSession (e : Session.error).

(** The loop of [negotiate]: the outcome, or the legacy answer that starts it
    over. *)
Inductive neg_step : Type :=
| Done (r : result neg_error unit) (t : Tunnel)
| Legacy (t : Tunnel).

Fixpoint negotiate_loop (n : nat) (attempt : Session.initiatorHandshake N) (to : Addr) (waits : nat → wait)
    (ok : nat → bool) (now : Z) (t : Tunnel) : neg_step :=
  match n with
  | O => Done (Err errNoAnswer) t
  | S n =>
      if negb (ok 0%nat) then Done (Err errSend) t
      else
        let t := WriteTo (Session.datagram attempt) to t in
        match waits 0%nat with
        | Cancelled => Done (Err errContext) t
        | Timeout => negotiate_loop n attempt to (λ i, waits (S i)) (λ i, ok (S i)) now t
        | Reply sid body =>
            if negb (sid =? Session.hid attempt)
            then negotiate_loop n attempt to (λ i, waits (S i)) (λ i, ok (S i)) now t
            else
              match Session.complete N attempt body now with
              | (Err Session.errPeerLegacy, _) => Legacy (set_legacyUntil (now + legacyRetry) t)
              | (Err e, _) => Done (Err (errSession e)) t
              | (Ok s, _) =>
                  let '(l, t) := alloc s t in
                  Done (Ok tt) (installDialed l now t)
              end
        end
  end.

(** [resolvePeer]: [dns] is what the resolver answers. *)
Definition resolvePeer (dns : option Addr) (t : Tunnel) : bool * Tunnel :=
  match dns with
  | None => (match peer t with Some _ => true | None => false end, t)
  | Some _ => (true, setPeer dns t)
  end.

(** One round of [negotiate]: the peer, the timestamp, the first message, and
    the loop. The channel of replies is drained before the loop. *)
Definition negotiate_round (cfg : Config) (dns : option Addr) (rnd : Z) (draws : nat → option Z) (waits : nat → wait)
    (ok : nat → bool) (now : Z) (t : Tunnel) : neg_step :=
  let '(resolved, t) := resolvePeer dns t in
  if negb resolved then Done (Err errResolve) t
  else match peer t with
  | None => Done (Err errNoPeer) t
  | Some to =>
      let avoid := match deref t (current t) with Some s => Session.id s | None => 0 end in
      let '(fr, t) :=
        if legacyUntil t <? now
        then let ts := next (freshClock t) now in (ts, set_freshClock ts t)
        else (0, t) in
      match Session.beginHandshakeFresh N (Token cfg) avoid (Encap.encapID (encap cfg)) fr rnd draws with
      | Err e => Done (Err (errSession e)) t
      | Ok attempt => negotiate_loop handshakeAttempts attempt to waits ok now (set_replies [] t)
      end
  end.

(** [negotiate], with what happens in each round: it calls itself when the
    listener turns out to be legacy. *)
Fixpoint negotiate (fuel : nat) (cfg : Config) (dns : nat → option Addr) (rnd : nat → Z) (draws : nat → nat → option Z)
    (waits : nat → nat → wait) (ok : nat → nat → bool) (now : nat → Z) (t : Tunnel)
    : option (result neg_error unit * Tunnel) :=
  match fuel with
  | O => None
  | S fuel =>
      match negotiate_round cfg (dns 0%nat) (rnd 0%nat) (draws 0%nat) (waits 0%nat) (ok 0%nat) (now 0%nat) t with
      | Done r t => Some (r, t)
      | Legacy t =>
          negotiate fuel cfg (λ i, dns (S i)) (λ i, rnd (S i)) (λ i, draws (S i)) (λ i, waits (S i)) (λ i, ok (S i))
            (λ i, now (S i)) t
      end
  end.

(** ** Lemmas *)

Lemma slot_is_some t r sid : slot_is t r sid = true → ∃ l s, r = Some l ∧ heap t !! l = Some s ∧ Session.id s = sid.
Proof.
  unfold slot_is, deref. destruct r as [l|]; [|done]. cbn. destruct (heap t !! l) as [s|] eqn:E; [|done].
  intros ?%Z.eqb_eq. exists l, s. auto.
Qed.

Lemma sessionFor_some t sid l isPending :
  sessionFor t sid = Some (l, isPending) →
  ∃ s, heap t !! l = Some s ∧ Session.id s = sid ∧
    (current t = Some l ∨ pending t = Some l ∨ previous t = Some l) ∧ (isPending = true → pending t = Some l).
Proof.
  unfold sessionFor. destruct (slot_is t (current t) sid) eqn:Ec.
  { apply slot_is_some in Ec as (l' & s & Hr & Hh & Hi). rewrite Hr. cbn. intros [= -> <-]. exists s. split_and!; auto; by intros [=]. }
  destruct (slot_is t (pending t) sid) eqn:Ep.
  { apply slot_is_some in Ep as (l' & s & Hr & Hh & Hi). rewrite Hr. cbn. intros [= -> <-]. exists s. split_and!; auto; by intros [=]. }
  destruct (slot_is t (previous t) sid) eqn:Ev; [|done].
  apply slot_is_some in Ev as (l' & s & Hr & Hh & Hi). rewrite Hr. cbn. intros [= -> <-]. exists s. split_and!; auto; by intros [=].
Qed.

(** The datagram authenticates: a live session accepts its counter and opens
    it. *)
Definition authentic (t : Tunnel) (h : header) (body : list Z) : Prop :=
  ∃ l isPending s plain, sessionFor t (session h) = Some (l, isPending) ∧ heap t !! l = Some s ∧
    Replay.accept (Session.replay s) (counter h) = true ∧
    Session.Decrypt N (Session.recv s) (counter h) (bytes h) body = Some plain.

Lemma store_same l s t : heap t !! l = Some s → store l s t = t.
Proof. intros H. unfold store. rewrite insert_id by done. by destruct t. Qed.

(** A data or probe message that does not authenticate costs one [dropped]. *)
Lemma open_unauthentic t h body l isPending r t' :
  ¬ authentic t h body → sessionFor t (session h) = Some (l, isPending) →
  open_at l h body t = Some (r, t') → is_ok r = false ∧ t' = t.
Proof.
  intros Hna Hs. unfold open_at. destruct (sessionFor_some t _ l isPending Hs) as (s & Hh & _).
  rewrite Hh. cbn. unfold Session.open. destruct (Replay.accept (Session.replay s) (counter h)) eqn:Ha; cbn [negb].
  2: { cbn. intros [= <- <-]. split; [done|by apply store_same]. }
  destruct (Session.Decrypt N _ _ _ body) as [plain|] eqn:Ed.
  { exfalso. apply Hna. by exists l, isPending, s, plain. }
  cbn. intros [= <- <-]. split; [done|by apply store_same].
Qed.

Lemma handleData_unauthentic cfg h body from tun now t t' :
  ¬ authentic t h body → handleData cfg h body from tun now t = Some t' → t' = drop1 t.
Proof.
  intros Hna. unfold handleData. destruct (sessionFor t (session h)) as [[l b]|] eqn:Es; [|by intros [= <-]].
  destruct (open_at l h body t) as [[r t1]|] eqn:Eo; [|done]. cbn.
  destruct (open_unauthentic t h body l b r t1 Hna Es Eo) as [Hr ->]. destruct r; [done|]. by intros [= <-].
Qed.

Lemma handleProbe_unauthentic h body from now t t' :
  ¬ authentic t h body → handleProbeMessage h body from now t = Some t' → t' = drop1 t.
Proof.
  intros Hna. unfold handleProbeMessage. destruct (sessionFor t (session h)) as [[l b]|] eqn:Es; [|by intros [= <-]].
  destruct (open_at l h body t) as [[r t1]|] eqn:Eo; [|done]. cbn.
  destruct (open_unauthentic t h body l b r t1 Hna Es Eo) as [Hr ->]. destruct r; [done|]. by intros [= <-].
Qed.

Lemma slot_live t l s now :
  heap t !! l = Some s → Session.expired s now = false → slot_expired t (Some l) now = false.
Proof. intros Hh He. unfold slot_expired, deref. cbn. by rewrite Hh. Qed.

(** [retireSessions], slot by slot. *)
Lemma retire_slots now t :
  let t' := retireSessions now t in
  heap t' = heap t ∧ prevFrom t' = prevFrom t ∧
  current t' = (if slot_expired t (current t) now then None else current t) ∧
  pending t' = (if slot_expired t (pending t) now then None else pending t) ∧
  previous t' = (if (previousGrace <? now - prevFrom t) || slot_expired t (previous t) now then None else previous t) ∧
  reported t' = match current t', pending t' with None, None => None | _, _ => reported t end.
Proof.
  intros t'. unfold t', retireSessions. set (t1 := match previous t with Some _ => _ | None => t end).
  assert (t1 = if (previousGrace <? now - prevFrom t) || slot_expired t (previous t) now
               then set_previous None t else t) as ->.
  { unfold t1. destruct (previous t) as [l|] eqn:E; [done|].
    assert (set_previous None t = t) as -> by (rewrite <- E; by destruct t). by destruct (_ || _). }
  cbv zeta. unfold slot_expired, deref.
  destruct ((previousGrace <? now - prevFrom t) || _);
    cbn [heap pending current set_previous];
    destruct (match l ← pending t; heap t !! l with Some s => Session.expired s now | None => false end);
    cbn [heap pending current set_previous set_pending];
    destruct (match l ← current t; heap t !! l with Some s => Session.expired s now | None => false end);
    cbn [heap pending current set_current set_previous set_pending];
    destruct (current t) eqn:Rc; try destruct (pending t) eqn:Rp; cbn; rewrite ?Rc, ?Rp; by split_and!.
Qed.

(** What [installDialed] does to the slots. *)
Lemma install_slots l now t :
  let t' := installDialed l now t in
  heap t' = heap t ∧ current t' = Some l ∧ pending t' = None ∧ previous t' = current t ∧ prevFrom t' = now.
Proof.
  unfold installDialed, noteAnswered, publishPeer. cbn.
  destruct (peer t); cbn; destruct (unanswered t =? 0); cbn; by split_and!.
Qed.

(** Lookup by id, given the slots and the sessions behind them. *)
Lemma sessionFor_slots t ln lo s so :
  current t = Some ln → pending t = None → previous t = Some lo →
  heap t !! ln = Some s → heap t !! lo = Some so → Session.id so ≠ Session.id s →
  sendSession t = Some ln ∧ sessionFor t (Session.id s) = Some (ln, false) ∧
  sessionFor t (Session.id so) = Some (lo, false).
Proof.
  intros E1 E2 E3 E4 E5 Hne. unfold sendSession, sessionFor, slot_is, deref. rewrite E1, E2, E3.
  cbn [mbind option_bind]. rewrite E4, E5, !Z.eqb_refl.
  rewrite (proj2 (Z.eqb_neq (Session.id s) (Session.id so))) by congruence. by split_and!.
Qed.

(** Without a timestamp in the attempt there is nothing to fall back from. *)
Lemma complete_not_legacy (h : Session.initiatorHandshake N) reply now :
  Session.fresh h = 0 → fst (Session.complete N h reply now) ≠ Err Session.errPeerLegacy.
Proof.
  intros Hf. unfold Session.complete. destruct (Session.ReadMessage N _ reply) as [[[pl cs]|] st]; [|by intros [=]].
  destruct (Version.parseReplyPayload (of_bytes pl)) as [[[e tv] sm]|]; [|by intros [=]].
  cbn. rewrite Hf. cbn. destruct (_ && _); [by intros [=]|]. destruct (_ && _); [by intros [=]|].
  unfold Session.newSession. cbn. destruct cs as [[c0 c1]|]; by intros [=].
Qed.

Lemma negotiate_loop_ends n (h : Session.initiatorHandshake N) to waits ok now t :
  Session.fresh h = 0 → ∃ r t', negotiate_loop n h to waits ok now t = Done r t'.
Proof.
  intros Hf. revert waits ok t. induction n as [|n IH]; intros waits ok t; cbn [negotiate_loop]; [eauto|].
  destruct (ok 0%nat); cbn [negb]; [|eauto]. destruct (waits 0%nat) as [|sid body|]; [apply IH| |eauto].
  destruct (sid =? Session.hid h); cbn [negb]; [|apply IH].
  pose proof (complete_not_legacy h body now Hf) as Hc.
  destruct (Session.complete N h body now) as [[s|e] h']; cbn in Hc.
  - destruct (alloc s _). eauto.
  - by destruct e; eauto.
Qed.

Lemma negotiate_loop_legacy n (h : Session.initiatorHandshake N) to waits ok now t t' :
  negotiate_loop n h to waits ok now t = Legacy t' → legacyUntil t' = now + legacyRetry.
Proof.
  revert waits ok t. induction n as [|n IH]; intros waits ok t; cbn [negotiate_loop]; [done|].
  destruct (ok 0%nat); cbn [negb]; [|done]. destruct (waits 0%nat) as [|sid body|]; [apply IH| |done].
  destruct (sid =? Session.hid h); cbn [negb]; [|apply IH].
  destruct (Session.complete N h body now) as [[s|e] h'].
  - by destruct (alloc s _).
  - destruct e; try done. by intros [= <-].
Qed.

Lemma begin_fresh token avoid enc fr rnd draws h :
  Session.beginHandshakeFresh N token avoid enc fr rnd draws = Ok h → Session.fresh h = fr.
Proof.
  unfold Session.beginHandshakeFresh. destruct (Session.WriteMessage N _ _) as [[[m k] st]|]; [|done].
  destruct (Session.newSessionID draws avoid); [|done]. by intros <-%Ok_inj.
Qed.

Lemma negotiate_round_legacy cfg dns rnd draws waits ok now t t' :
  negotiate_round cfg dns rnd draws waits ok now t = Legacy t' → legacyUntil t' = now + legacyRetry.
Proof.
  unfold negotiate_round. destruct (resolvePeer dns t) as [[|] t1]; cbn [negb]; [|done].
  destruct (peer t1) as [to|]; [|done].
  destruct (if legacyUntil t1 <? now then _ else _) as [fr t2].
  destruct (Session.beginHandshakeFresh N _ _ _ _ _ _) as [h|]; [|done]. apply negotiate_loop_legacy.
Qed.

Lemma negotiate_round_ends cfg dns rnd draws waits ok now t :
  now ≤ legacyUntil t → ∃ r t', negotiate_round cfg dns rnd draws waits ok now t = Done r t'.
Proof.
  intros Hn. unfold negotiate_round. destruct (resolvePeer dns t) as [res t1] eqn:Er.
  assert (legacyUntil t1 = legacyUntil t) as Hl.
  { unfold resolvePeer, setPeer in Er. destruct dns; injection Er as _ <-; done. }
  destruct res; cbn [negb]; [|eauto]. destruct (peer t1) as [to|]; [|eauto].
  rewrite Hl, (proj2 (Z.ltb_ge _ _) Hn).
  destruct (Session.beginHandshakeFresh N _ _ _ _ _ _) as [h|] eqn:Eb; [|eauto].
  apply negotiate_loop_ends. by apply begin_fresh in Eb.
Qed.

(** A probe that opens, and everything it changes. *)
Lemma probe_unanswered h body fr now t t' :
  handleProbeMessage h body fr now t = Some t' → unanswered t' = unanswered t.
Proof.
  unfold handleProbeMessage. destruct (sessionFor t (session h)) as [[l b]|]; [|by intros [= <-]].
  unfold open_at. destruct (heap t !! l) as [s|]; [|done]. cbn.
  destruct (Session.open N s h body) as [[r s']|]; [|done]. cbn. destruct r as [opened|e]; [|by intros [= <-]].
  assert (∀ t1, unanswered (authenticated l b fr now t1) = unanswered t1) as Ha.
  { intros t1. unfold authenticated. assert (∀ t2, unanswered (notePeer fr t2) = unanswered t2) as Hn.
    { intros t2. unfold notePeer. destruct fr; [|done]. by destruct (sameAddr _ _). }
    rewrite Hn. destruct b; [|done]. unfold promote. destruct (bool_decide _); [|done].
    unfold publishPeer. by destruct (peer _). }
  assert (∀ t1, unanswered (answerProbe l opened t1) = unanswered t1) as Hb.
  { intros t1. unfold answerProbe. destruct (readProbe opened) as [[pid p]|]; [|done].
    destruct (heap t1 !! l) as [s1|]; [|done]. destruct (Session.sealKind N s1 _ _) as [[ack|e] s2]; [|done].
    by destruct (peer _). }
  assert (∀ t1, unanswered (handleProbeAck opened t1) = unanswered t1) as Hc.
  { intros t1. unfold handleProbeAck. destruct (readProbe opened) as [[pid p]|]; [|done].
    by destruct (probeWaiters t1 !! pid) as [[|? ?]|]. }
  intros [= <-]. destruct (kind h =? typeProbe); [by rewrite Hb, Ha|].
  destruct (kind h =? typeProbeAck); [by rewrite Hc, Ha|by rewrite Ha].
Qed.

(** What a stranger must not move. *)
Definition untouched (t t' : Tunnel) : Prop :=
  current t' = current t ∧ previous t' = previous t ∧ injected t' = injected t ∧
  unanswered t' = unanswered t ∧ packetsIn t' = packetsIn t ∧ bytesIn t' = bytesIn t ∧
  (is_Some (peer t) → peer t' = peer t) ∧ (is_Some (current t) → peer t' = peer t ∧ sendSession t' = sendSession t).

Lemma untouched_refl t : untouched t t.
Proof. unfold untouched. split_and!; auto. Qed.

Lemma untouched_drop1 t t' : untouched t t' → untouched t (drop1 t').
Proof. auto. Qed.

Lemma untouched_trans t1 t2 t3 : untouched t1 t2 → untouched t2 t3 → untouched t1 t3.
Proof.
  intros (A1 & A2 & A3 & A4 & A5 & A6 & A7 & A8) (B1 & B2 & B3 & B4 & B5 & B6 & B7 & B8).
  split_and!; try congruence.
  - intros Hp. rewrite <- (A7 Hp). apply B7. by rewrite (A7 Hp).
  - intros Hc. destruct (A8 Hc) as [E1 E2]. rewrite A1 in B8. destruct (B8 Hc) as [F1 F2]. split; congruence.
Qed.

Lemma acceptInit_untouched cfg h body from rnd now t :
  untouched t (acceptInit cfg h body from rnd now t).
Proof.
  unfold acceptInit. destruct (Session.respondFresh N _ _ _ _ _ _ _) as [ss rep fr er]. cbn.
  destruct er as [e|]; [by destruct rep|]. destruct ss as [s|]; [|by destruct rep].
  destruct rep as [reply|]; [|done]. destruct (admit_ (fresh t) fr) as [why judge].
  destruct (is_ok why); cbn [negb]; [|done]. unfold untouched, publishPeer. cbn.
  destruct (current t) as [l|] eqn:Ec, (peer t) as [a|] eqn:Ea; cbn; rewrite ?Ec, ?Ea; cbn;
    unfold sendSession; cbn; rewrite ?Ec, ?Ea; split_and!; try done; try by intros [? [=]].
Qed.

Lemma gateInit_untouched sid now t :
  match gateInit sid now t with
  | Retransmission reply => True
  | Replayed t' | FirstContact t' => untouched t t'
  end.
Proof.
  unfold gateInit. destruct (if sid =? lastInitID t then lastReply t else None); [done|].
  destruct (SeenInits.seen (seen t) sid now) as [again mem]. by destruct again.
Qed.

Lemma handleInit_untouched cfg h body from rnd now t : untouched t (handleInit cfg h body from rnd now t).
Proof.
  unfold handleInit. destruct (Mode cfg); [done|]. pose proof (gateInit_untouched (session h) now t) as Hg.
  destruct (gateInit (session h) now t) as [rep|t1|t1]; [done|done|].
  eapply untouched_trans; [exact Hg|]. apply acceptInit_untouched.
Qed.

Lemma route_untouched cfg dg from tun rnd now t t' :
  (∀ h body, parseHeader dg = Ok (h, body) → typeData ≤ kind h → ¬ authentic t h body) →
  route cfg dg from tun rnd now t = Some t' → untouched t t'.
Proof.
  intros Hna. unfold route. destruct (parseHeader dg) as [[h body]|] eqn:Ep; [|by intros [= <-]].
  assert (known_kind (kind h) = true) as Hk.
  { unfold parseHeader in Ep. destruct (length dg <? headerLen)%nat; [done|]. cbn [kind] in Ep.
    destruct (known_kind (at_ dg 0)) eqn:E; [|done]. by injection Ep as <- _. }
  apply known_kind_spec in Hk. specialize (Hna h body eq_refl). unfold typeInit, typeResp, typeData in *.
  destruct (Z.eqb_spec (kind h) 1); [intros [= <-]; apply handleInit_untouched|].
  destruct (Z.eqb_spec (kind h) 2).
  { intros [= <-]. unfold handleResp. destruct (Mode cfg); [|done]. by destruct (_ <? _)%nat. }
  specialize (Hna ltac:(lia)).
  destruct (Z.eqb_spec (kind h) 3); intros H.
  - by rewrite (handleData_unauthentic _ _ _ _ _ _ _ _ Hna H).
  - by rewrite (handleProbe_unauthentic _ _ _ _ _ _ Hna H).
Qed.

End Engine.

(** A datagram arriving: from where, whether the device takes the packet it
    may hold, the randomness and the time. *)
Record arrival : Type := mkArrival { dg : list Z; from : Addr; took : bool; arnd : Z; atime : Z }.

Section Serving.
Context (N : Session.Noise) (addrString : Addr → string).

Definition route_one (cfg : Config) (a : arrival) (t : Tunnel N) : option (Tunnel N) :=
  route N addrString cfg (dg a) (from a) (took a) (arnd a) (atime a) t.

Fixpoint serve (cfg : Config) (l : list arrival) (t : Tunnel N) : option (Tunnel N) :=
  match l with
  | [] => Some t
  | a :: l => t ← route_one cfg a t; serve cfg l t
  end.

(** No data or probe message of the run authenticates. *)
Fixpoint strangers (cfg : Config) (l : list arrival) (t : Tunnel N) : Prop :=
  match l with
  | [] => True
  | a :: l =>
      (∀ h body, parseHeader (dg a) = Ok (h, body) → typeData ≤ kind h → ¬ authentic N t h body) ∧
      ∀ t', route_one cfg a t = Some t' → strangers cfg l t'
  end.

Lemma serve_untouched cfg l t t' : strangers cfg l t → serve cfg l t = Some t' → untouched N t t'.
Proof.
  revert t. induction l as [|a l IH]; intros t Hs Hr; cbn in *.
  - injection Hr as <-. apply untouched_refl.
  - destruct Hs as [Ha Hs]. destruct (route_one cfg a t) as [t1|] eqn:E; [|done]. cbn in Hr.
    eapply untouched_trans; [|eapply IH; [by apply Hs|exact Hr]].
    by apply (route_untouched N addrString cfg (dg a) (from a) (took a) (arnd a) (atime a) t t1 Ha).
Qed.

Lemma ip_equal_refl ip : ip_equal ip ip = true.
Proof. unfold ip_equal. rewrite Nat.eqb_refl. by apply bool_decide_eq_true. Qed.

Lemma sameAddr_refl a : sameAddr addrString a a = true.
Proof.
  destruct a as [[ip port|ip|str]|]; cbn; rewrite ?ip_equal_refl, ?Z.eqb_refl, ?String.eqb_refl; done.
Qed.

Lemma notePeer_known a t : peer N t = Some a → notePeer N addrString (Some a) t = t.
Proof. intros H. unfold notePeer. by rewrite H, sameAddr_refl. Qed.

End Serving.

(** ** The whole path, from the first datagram to the first packet *)

Lemma encapID_no_nul g : Encap.gre_wf g → Version.no_nul (Encap.encapID g) ∧ Encap.encapID g ≠ "".
Proof.
  intros Hg. unfold Encap.encapID. destruct (Encap.keyed g); [|split; [by apply Session.name_no_nul|discriminate]].
  split; [|discriminate]. unfold Version.no_nul. apply all_chars_app. split; [by apply Session.name_no_nul|].
  eapply all_chars_impl; [|apply FormatUint_digits; unfold Encap.gre_wf in Hg; lia].
  intros c Hc. destruct (Ascii.eqb_spec c "000"%char) as [->|]; [discriminate Hc|done].
Qed.

Section ComesUp.
Context (N : Session.Noise) (Laws : Session.NoiseLaws N) (addrString : Addr → string).
Context (token : string) (g : Encap.greEncap) (toL fromD : Addr).
#[local] Set Default Proof Using "Type*".

Definition dial_cfg : Config := mkConfig ModeDial token g.
Definition listen_cfg : Config := mkConfig ModeListen token g.

(** The listener's state after its first handshake. *)
Definition after_init (s : Session.session N) (reply : list Z) (t' : Tunnel N) : Prop :=
  sent N t' = [(reply, fromD)] ∧ peer N t' = Some fromD ∧ current N t' = None ∧ pending N t' = Some 0%nat ∧
  heap N t' !! 0%nat = Some s ∧ previous N t' = None ∧ injected N t' = [] ∧ reported N t' = Some fromD.

Lemma listener_answers (h : Session.initiatorHandshake N) s rep fr sid rnd now mtu :
  Session.respondFresh N token sid 2 (Session.msg h) (Encap.encapID g) rnd now =
    Session.mkResponse N (Some s) (Some rep) fr None →
  0 < fr →
  after_init s rep
    (handleInit N listen_cfg (mkHeader typeInit sid 2) (Session.msg h) fromD rnd now (New N mtu)).
Proof.
  intros Hr Hf. unfold handleInit. cbn [Mode listen_cfg]. unfold gateInit. cbn [session lastInitID lastReply New].
  assert ((if sid =? 0 then @None (list Z) else None) = None) as -> by (by destruct (sid =? 0)).
  change (SeenInits.seen (seen N (New N mtu)) sid now) with (false, SeenInits.mk [sid] [now]).
  unfold acceptInit. cbn [session counter Token encap listen_cfg]. change (int64 2) with 2. rewrite Hr.
  cbn [Session.err Session.sess Session.reply Session.rfresh]. unfold admit_.
  cbn [fresh set_seen New last]. rewrite (proj2 (Z.eqb_neq fr 0)), (proj2 (Z.leb_gt fr 0)) by lia.
  by repeat split.
Qed.

(** The dialler's state once its handshake is answered. *)
Definition dialled (s : Session.session N) (t : Tunnel N) : Prop :=
  current N t = Some 0%nat ∧ heap N t !! 0%nat = Some s ∧ peer N t = Some toL.

Lemma dialler_installs h s body rnd draws now mtu :
  0 < now < 2^63 →
  Session.beginHandshakeFresh N token 0 (Encap.encapID g) now rnd draws = Ok h →
  fst (Session.complete N h body now) = Ok s →
  ∃ td, negotiate_round N dial_cfg (Some toL) rnd draws (λ _, Reply (Session.hid h) body) (λ _, true) now (New N mtu)
      = Done N (Ok tt) td ∧ dialled s td.
Proof.
  intros Hn Hb Hc. unfold negotiate_round. cbn [resolvePeer setPeer negb peer set_peer deref current New mbind option_bind].
  cbn [legacyUntil freshClock set_peer New]. rewrite (proj2 (Z.ltb_lt 0 now)) by lia.
  assert (next 0 now = now) as ->.
  { unfold next. rewrite u64_small by lia. by rewrite (proj2 (Z.leb_gt _ _)) by lia. }
  cbn [Token encap dial_cfg]. rewrite Hb. cbn [handshakeAttempts negotiate_loop negb]. rewrite Z.eqb_refl. cbn [negb].
  destruct (Session.complete N h body now) as [r h'] eqn:E. cbn [fst] in Hc. rewrite Hc. cbn [alloc].
  eexists. split; [reflexivity|]. by repeat split.
Qed.

Lemma dialler_sends s t pkt wrapped now :
  dialled s t → Session.sendCounter s = 0 → Encap.greWrap g [] pkt = Ok wrapped → pkt ≠ [] →
  ∃ rest, sent N (pump_round N dial_cfg [pkt] None (λ _, true) now t) =
    (bytes (mkHeader typeData (Session.id s) 0) ++
       Session.Encrypt N (Session.send s) 0 (bytes (mkHeader typeData (Session.id s) 0)) wrapped, toL) :: rest.
Proof.
  intros (Hc & Hh & Hp) H0 Hw Hne. unfold pump_round, sendSession. rewrite Hc, Hp. cbn [seal_round].
  destruct pkt as [|b pkt]; [done|]. cbn [length Nat.eqb]. cbn [encap dial_cfg]. rewrite Hw, Hh.
  unfold Session.seal. rewrite Session.sealKind_eq by (rewrite H0; lia). rewrite H0.
  change (Session.rejectAfterMessages <=? 0) with false. cbn [send length Nat.ltb Nat.leb send_each].
  eexists. cbn. unfold noteSent. cbn [Mode dial_cfg]. cbn. destruct (unanswered N t =? 0); reflexivity.
Qed.

Lemma listener_promotes sl rep tl wrapped pkt (sd : Session.session N) rnd now :
  after_init sl rep tl → Session.paired sd sl → Session.replay sl = Replay.zero_window →
  0 ≤ Session.id sd < 2^32 → bytes_ok wrapped → Encap.greUnwrap g wrapped = Ok pkt →
  ∃ tl', route N addrString listen_cfg
      (bytes (mkHeader typeData (Session.id sd) 0) ++
         Session.Encrypt N (Session.send sd) 0 (bytes (mkHeader typeData (Session.id sd) 0)) wrapped)
      fromD true rnd now tl = Some tl' ∧
    injected N tl' = [pkt] ∧ current N tl' = Some 0%nat ∧ pending N tl' = None ∧ peer N tl' = Some fromD.
Proof.
  intros (Hs & Hp & Hc & Hpd & Hh & Hpv & Hi & _) (Hid & Hk & Hk') Hrep Hr Hwok Hun.
  set (hd := mkHeader typeData (Session.id sd) 0). unfold route.
  rewrite parse_bytes; [|unfold hd, header_ok, typeData; cbn; lia|reflexivity].
  change (kind hd =? typeInit) with false. change (kind hd =? typeResp) with false.
  change (kind hd =? typeData) with true. unfold handleData.
  assert (sessionFor N tl (session hd) = Some (0%nat, true)) as ->.
  { unfold sessionFor, slot_is, deref. rewrite Hc, Hpd. cbn. rewrite Hh, <- Hid, Z.eqb_refl. done. }
  unfold open_at. rewrite Hh. cbn [mbind option_bind].
  destruct (Session.open_sealed_one sd sl Replay.ReplaySpec.init 0 [wrapped] 0) as (b' & Ho & _);
    [done|done|lia|lia|rewrite Hrep; exact Replay.rep_zero|].
  unfold Session.sealed_msg in Ho. cbn [fst snd counter default lookup list_lookup from_option id Z.of_nat Z.add] in Ho.
  change (0 + Z.of_nat 0) with 0 in Ho. fold hd in Ho. change (Replay.ReplaySpec.accept Replay.ReplaySpec.init 0) with true in Ho.
  cbn [counter hd]. rewrite Ho. cbn [mbind option_bind].
  unfold deliver. cbn [encap listen_cfg]. change (id wrapped) with wrapped. rewrite Hun.
  eexists. split; [reflexivity|].
  unfold authenticated, promote. rewrite bool_decide_eq_true_2 by (cbn; exact Hpd).
  rewrite (notePeer_known N addrString fromD) by (unfold publishPeer; cbn; rewrite Hp; cbn; exact Hp).
  unfold noteAnswered, publishPeer. cbn. rewrite Hp. cbn.
  destruct (unanswered N tl =? 0); cbn; by rewrite Hi.
Qed.

End ComesUp.

(** ** Properties *)

Section Properties.
Context (N : Session.Noise) (addrString : Addr → string).

(** C1: a tunnel comes up and carries packets. From two engines that have just
    started with one token and one encapsulation: the dialler's first datagram
    makes the listener answer it and remember the peer; fed that answer, the
    dialler's negotiation ends with a current session; the first packet its
    device hands it leaves as a datagram that makes the listener promote the
    session and hand exactly that packet to its own device. *)
Theorem tunnel_comes_up (Laws : Session.NoiseLaws N) (token : string) (g : Encap.greEncap) (toL fromD : Addr) (mtuD mtuL : Z)
    (rnd rnd' rnd'' now nowL now' now'' : Z) (draws : nat → option Z) (h : Session.initiatorHandshake N)
    (took : bool) (pkt : list Z) :
  Encap.gre_wf g → 0 < now < 2^63 → (∀ i z, draws i = Some z → 0 ≤ z < 2^32) →
  Session.beginHandshakeFresh N token 0 (Encap.encapID g) now rnd draws = Ok h →
  bytes_ok pkt → is_ok (Encap.ipVersion pkt) = true →
  ∃ reply tl1, route N addrString (listen_cfg token g) (Session.datagram h) fromD took rnd' nowL (New N mtuL)
      = Some tl1 ∧ sent N tl1 = [(reply, fromD)] ∧ reported N tl1 = Some fromD ∧
  ∃ body, parseHeader reply = Ok (mkHeader typeResp (Session.hid h) 0, body) ∧
  ∃ td1, negotiate_round N (dial_cfg token g) (Some toL) rnd draws (λ _, Reply (Session.hid h) body) (λ _, true)
      now (New N mtuD) = Done N (Ok tt) td1 ∧
  ∃ out rest, sent N (pump_round N (dial_cfg token g) [pkt] None (λ _, true) now' td1) = (out, toL) :: rest ∧
  ∃ tl2, route N addrString (listen_cfg token g) out fromD true rnd'' now'' tl1 = Some tl2 ∧
    injected N tl2 = [pkt] ∧ current N tl2 = pending N tl1 ∧ pending N tl2 = None ∧ peer N tl2 = Some fromD.
Proof.
  intros Hg Hn Hd Hb Hpkt Hip. destruct (encapID_no_nul g Hg) as [Hnul _].
  pose proof (Session.beginHandshake_ok _ _ _ _ _ _ _ Hb) as (st & m & k & sid & _ & Hid & Hh).
  pose proof (Session.newSessionID_ok _ _ _ _ Hid) as (_ & _ & i & _ & Hdi). pose proof (Hd i sid Hdi) as Hr.
  assert (Session.hid h = sid ∧ Session.announced h = Version.versionCurrent ∧ Session.fresh h = now ∧
          Session.encap h = Encap.encapID g) as (Hhid & Ha & Hfr & Hen) by (by rewrite Hh).
  destruct (Session.exchange token 0 (Encap.encapID g) (Encap.encapID g) now rnd rnd' draws h sid 2 nowL Hnul
              ltac:(lia) Hb) as (rep & c0 & c1 & st' & Hresp & Hread).
  rewrite String.eqb_refl, andb_false_r in Hresp.
  set (sl := Session.mkSession sid nowL c1 c0 0 Replay.zero_window) in *.
  set (dgram := bytes (mkHeader typeResp sid 0) ++ rep) in *.
  assert (fst (Session.complete N h rep now) = Ok (Session.mkSession sid now c0 c1 0 Replay.zero_window)) as Hc.
  { erewrite Session.complete_exchange; [|exact Hnul| |exact Ha|rewrite Hfr; exact Hread]; [|lia].
    rewrite Hen, String.eqb_refl, andb_false_r, Hfr, Hhid. rewrite (proj2 (Z.eqb_neq now 0)) by lia. reflexivity. }
  set (sd := Session.mkSession sid now c0 c1 0 Replay.zero_window) in *.
  pose proof (listener_answers N Laws token g fromD h sl dgram now sid rnd' nowL mtuL Hresp ltac:(lia)) as Hafter.
  exists dgram, (handleInit N (listen_cfg token g) (mkHeader typeInit sid 2) (Session.msg h) fromD rnd' nowL (New N mtuL)).
  split.
  { unfold route, Session.datagram. rewrite Ha, Hhid. change (u64 Version.versionCurrent) with 2.
    rewrite parse_bytes; [reflexivity| |reflexivity].
    unfold header_ok, typeInit. cbn. lia. }
  pose proof Hafter as (Hs & _ & _ & Hp & _ & _ & _ & Hrep). split; [exact Hs|]. split; [exact Hrep|].
  exists rep. split; [unfold dgram; rewrite Hhid; apply parse_bytes; [unfold header_ok, typeResp; cbn; lia|reflexivity]|].
  destruct (dialler_installs N Laws token g toL h sd rep rnd draws now mtuD Hn Hb Hc) as (td1 & Hneg & Hdial).
  exists td1. split; [exact Hneg|].
  pose proof (Encap.wrap_accepts (EncapLaws := Encap.greEncap_laws g Hg) [] pkt) as Hwa. cbn in Hwa.
  rewrite Hip in Hwa. destruct (Encap.greWrap g [] pkt) as [wrapped|] eqn:Hw; [|done].
  destruct (dialler_sends N Laws token g toL sd td1 pkt wrapped now' Hdial eq_refl Hw) as (rest & Hsent); [by intros ->|].
  eexists _, rest. split; [exact Hsent|].
  assert (bytes_ok wrapped) as Hwok by exact (Encap.wrap_bytes (EncapLaws := Encap.greEncap_laws g Hg) pkt wrapped Hpkt Hw).
  destruct (listener_promotes N Laws addrString token g fromD sl dgram _ wrapped pkt sd rnd'' now'' Hafter)
    as (tl2 & Ht & Hi & Hcu & Hpe & Hpr); [by repeat split|done|done|done|by apply Encap.gre_unwrap_wrap|].
  exists tl2. rewrite Hp. by repeat split.
Qed.

(** C2: datagrams nobody authenticated change nothing that matters. However
    many handshakes, replays, forged data and probe messages arrive, as long
    as none opens under a live session: the current and previous sessions, the
    packets handed to the device and the counters of what was received are as
    before, a known peer address is kept, and once a session is current the
    engine goes on sealing under the one it sealed under. *)
Theorem strangers_change_nothing (cfg : Config) (l : list arrival) (t t' : Tunnel N) :
  strangers N addrString cfg l t → serve N addrString cfg l t = Some t' →
  current N t' = current N t ∧ previous N t' = previous N t ∧ injected N t' = injected N t ∧
  unanswered N t' = unanswered N t ∧ packetsIn N t' = packetsIn N t ∧ bytesIn N t' = bytesIn N t ∧
  (is_Some (peer N t) → peer N t' = peer N t) ∧
  (is_Some (current N t) → peer N t' = peer N t ∧ sendSession N t' = sendSession N t).
Proof. apply serve_untouched. Qed.

(** A rekey drops nothing that is in flight. After the dialling side
    installs a new session it seals under that one, and what the peer still
    sends under the old one is matched to it, until 30 seconds later. *)
Theorem rekey_keeps_old (t : Tunnel N) (lo : nat) (so s : Session.session N) (now later : Z) :
  current N t = Some lo → heap N t !! lo = Some so → (lo < nextLoc N t)%nat → Session.id so ≠ Session.id s →
  later - now ≤ previousGrace → Session.expired so later = false → Session.expired s later = false →
  let '(ln, t1) := alloc N s t in
  let t2 := installDialed N ln now t1 in
  sendSession N t2 = Some ln ∧ sessionFor N t2 (Session.id s) = Some (ln, false) ∧
  sessionFor N t2 (Session.id so) = Some (lo, false) ∧
  sessionFor N (retireSessions N later t2) (Session.id so) = Some (lo, false) ∧
  sendSession N (retireSessions N later t2) = Some ln.
Proof.
  intros Hc Hh Hlt Hne Hg Ho Hs. unfold alloc.
  destruct (install_slots N (nextLoc N t) now (set_heap N (<[nextLoc N t := s]> (heap N t)) (set_nextLoc N (S (nextLoc N t)) t)))
    as (H1 & H2 & H3 & H4 & H5). cbv zeta in *.
  set (t2 := installDialed N _ _ _) in *. clearbody t2. cbn [heap current set_heap set_nextLoc] in H1, H4. rewrite Hc in H4.
  assert (heap N t2 !! nextLoc N t = Some s) as D1 by (by rewrite H1, lookup_insert_eq).
  assert (heap N t2 !! lo = Some so) as D2 by (rewrite H1, lookup_insert_ne by lia; done).
  destruct (retire_slots N later t2) as (B1 & _ & B3 & B4 & B5 & _).
  rewrite H2 in B3. rewrite H3 in B4. rewrite H4, H5, (proj2 (Z.ltb_ge _ _)) in B5 by lia.
  rewrite (slot_live N t2 _ s) in B3 by assumption. rewrite (slot_live N t2 _ so) in B5 by assumption.
  assert (heap N (retireSessions N later t2) !! nextLoc N t = Some s) as F1 by (by rewrite B1).
  assert (heap N (retireSessions N later t2) !! lo = Some so) as F2 by (by rewrite B1).
  destruct (sessionFor_slots N (retireSessions N later t2) (nextLoc N t) lo s so B3 B4 B5 F1 F2 Hne) as (? & ? & ?).
  destruct (sessionFor_slots N t2 (nextLoc N t) lo s so H2 H3 H4 D1 D2 Hne) as (? & ? & ?). by split_and!.
Qed.

(** Nothing outlives its time. After [retireSessions] no slot holds a
    session older than five minutes, the replaced one is gone 30 seconds after
    it was replaced, an unexpired current session is kept, and when nothing is
    left that could carry a packet the published peer is cleared. *)
Theorem retire_bounds (t : Tunnel N) (now : Z) :
  let t' := retireSessions N now t in
  (∀ l s, current N t' = Some l ∨ pending N t' = Some l ∨ previous N t' = Some l →
     heap N t' !! l = Some s → now - Session.created s < Session.rejectAfterTime) ∧
  (is_Some (previous N t') → now - prevFrom N t' ≤ previousGrace) ∧
  (∀ l s, current N t = Some l → heap N t !! l = Some s →
     now - Session.created s < Session.rejectAfterTime → current N t' = Some l) ∧
  (current N t' = None → pending N t' = None → reported N t' = None).
Proof.
  intros t'. destruct (retire_slots N now t) as (E1 & E2 & E3 & E4 & E5 & E6). unfold t'.
  rewrite E1, E2. split_and!.
  - intros l s Hsl Hh. apply Z.nle_gt. intros Hle. assert (slot_expired N t (Some l) now = true) as Hx.
    { unfold slot_expired, deref. cbn. rewrite Hh. by apply Z.leb_le. }
    destruct Hsl as [Hl|[Hl|Hl]].
    + rewrite E3 in Hl. destruct (current N t) as [lc|]; [|by destruct (slot_expired N t None now)].
      destruct (slot_expired N t (Some lc) now) eqn:Ex; congruence.
    + rewrite E4 in Hl. destruct (pending N t) as [lc|]; [|by destruct (slot_expired N t None now)].
      destruct (slot_expired N t (Some lc) now) eqn:Ex; congruence.
    + rewrite E5 in Hl. destruct (previous N t) as [lc|]; [|by destruct (_ || _)].
      destruct (_ || slot_expired N t (Some lc) now) eqn:Ex; [done|]. bool_to_prop. congruence.
  - rewrite E5. destruct (_ || _) eqn:Ex; [by intros []|]. bool_to_prop. lia.
  - intros l s Hl Hh Hlt. rewrite E3, Hl. unfold slot_expired, deref. cbn. rewrite Hh.
    unfold Session.expired. by rewrite (proj2 (Z.leb_gt _ _) Hlt).
  - intros Hc Hp. by rewrite E6, Hc, Hp.
Qed.

(** C13: negotiation ends. [negotiate] calls itself when a listener turns out to
    predate timestamps, and the second round cannot do so again: the fallback
    it noted keeps the timestamp out of the attempt, and without one there is
    no legacy answer, provided the second round starts within half an hour of
    the answer. *)
Theorem negotiate_at_most_twice (cfg : Config) (dns : nat → option Addr) (rnd : nat → Z)
    (draws : nat → nat → option Z) (waits : nat → nat → wait) (ok : nat → nat → bool) (now : nat → Z) (t : Tunnel N) :
  now 1%nat ≤ now 0%nat + legacyRetry →
  ∃ r t', negotiate N 2 cfg dns rnd draws waits ok now t = Some (r, t').
Proof.
  intros Hn. cbn [negotiate].
  destruct (negotiate_round N cfg (dns 0%nat) (rnd 0%nat) (draws 0%nat) (waits 0%nat) (ok 0%nat) (now 0%nat) t)
    as [r t'|t1] eqn:E; [eauto|].
  apply negotiate_round_legacy in E.
  destruct (negotiate_round_ends N cfg (dns 1%nat) (rnd 1%nat) (draws 1%nat) (waits 1%nat) (ok 1%nat) (now 1%nat) t1)
    as (r & t' & ->); [lia|eauto].
Qed.

(** A retransmitted handshake gets the identical answer. Once the listener
    has answered a first message, the same message arriving again, from
    wherever, is answered with the same bytes and changes nothing else: the
    keys of the pending session are not derived twice. *)
Theorem retransmission_same_answer (cfg : Config) (h : header) (body : list Z) (from1 from2 : Addr)
    (rnd rnd' now now' : Z) (t : Tunnel N) (reply : list Z) :
  Mode cfg = ModeListen →
  lastInitID N (handleInit N cfg h body from1 rnd now t) = session h →
  lastReply N (handleInit N cfg h body from1 rnd now t) = Some reply →
  let t' := handleInit N cfg h body from1 rnd now t in
  handleInit N cfg h body from2 rnd' now' t' = set_sent N ((reply, from2) :: sent N t') t'.
Proof.
  intros Hm Hid Hr t'. unfold handleInit at 1. rewrite Hm. unfold gateInit, t'. by rewrite Hid, Z.eqb_refl, Hr.
Qed.

(** An answered probe does not end the silence. A probe or its answer that
    authenticates proves the peer alive, yet the time since which nothing has
    been answered stays as it was: only data clears it, so a dialler whose
    peer answers every probe but sends no data still counts as unheard. *)
Theorem probes_keep_silence (h : header) (body : list Z) (fr : option Addr) (now : Z) (t t' : Tunnel N) :
  handleProbeMessage N addrString h body fr now t = Some t' →
  unanswered N t' = unanswered N t ∧
  fst (peerSilent N now t') = fst (peerSilent N now t).
Proof.
  intros H. pose proof (probe_unanswered N addrString h body fr now t t' H) as E. split; [exact E|].
  unfold peerSilent. rewrite E. by destruct (_ || _).
Qed.

End Properties.

(** ** The counters, read while they move *)

(** One pump counts packets into a pair of atomics while [Stats] reads them:
    every load and every add is a step, in any interleaving. *)
Module StatsOrder.

(** The writer adds bytes, then packets; the reader loads packets, then
    bytes. *)
Inductive reader : Type := Idle | GotPackets (p : Z) | Snapshot (p b : Z).

Record sys : Type := mkSys {
  bytes : Z;
  packets : Z;
  half : bool;      (* the bytes of a packet are in, its count is not *)
  rd : reader
}.

Inductive step : sys → sys → Prop :=
| add_bytes b p r n : 0 < n → step (mkSys b p false r) (mkSys (b + n) p true r)
| add_packet b p r : step (mkSys b p true r) (mkSys b (p + 1) false r)
| load_packets b p h : step (mkSys b p h Idle) (mkSys b p h (GotPackets p))
| load_bytes b p h q : step (mkSys b p h (GotPackets q)) (mkSys b p h (Snapshot q b))
| again b p h q c : step (mkSys b p h (Snapshot q c)) (mkSys b p h Idle).

Definition start : sys := mkSys 0 0 false Idle.

Definition inv (s : sys) : Prop :=
  0 ≤ packets s ∧ packets s + (if half s then 1 else 0) ≤ bytes s ∧
  match rd s with
  | Idle => True
  | GotPackets q => 0 ≤ q ≤ packets s
  | Snapshot q b => 0 ≤ q ≤ b
  end.

Lemma inv_step s s' : inv s → step s s' → inv s'.
Proof. unfold inv. 
  intros Hi Hs. destruct Hs as [b p r n|b p r|b p h|b p h q|b p h q c]; cbn in *;
    try destruct r; try destruct h; lia.
Qed.

(** A snapshot is never impossible. However the pump's additions and the
    reader's loads interleave, the pair [Stats] returns never shows packets
    without bytes: as every packet has at least one byte, the bytes are at
    least the packets. *)
Theorem stats_never_impossible (s : sys) (p b : Z) :
  star step start s → rd s = Snapshot p b → p ≤ b ∧ (0 < p → 0 < b).
Proof.
  intros Hs Hr. assert (inv s) as (_ & _ & Hi).
  { eapply (star_invariant step inv inv_step); [exact Hs|]. unfold inv. cbn. lia. }
  rewrite Hr in Hi. lia.
Qed.

Lemma stats_never_impossible_witness : 1 ≤ 60 ∧ (0 < 1 → 0 < 60).
Proof.
  apply (stats_never_impossible (mkSys 60 1 false (Snapshot 1 60)) 1 60); [|reflexivity].
  eapply star_step; [apply (add_bytes 0 0 Idle 60); lia|].
  eapply star_step; [apply add_packet|].
  eapply star_step; [apply load_packets|].
  eapply star_step; [apply load_bytes|]. apply star_refl.
Defined.

End StatsOrder.

(** ** Witnesses *)

Definition toy : Session.Noise := Session.ToyNoise.noise.
Definition str (a : Addr) : string := "".
Definition gre7 : Encap.greEncap := Encap.mkGre 7 true.
Definition addrD : Addr := UDPAddr [192; 0; 2; 1] 40000.
Definition addrL : Addr := UDPAddr [192; 0; 2; 2] 9000.
Definition attempt7 : Session.initiatorHandshake toy := Session.toy_dial "secret" "gre:7".

Definition is_some {A} (o : option A) : bool := match o with Some _ => true | None => false end.

Lemma some_of {A} (o : option A) : is_some o = true → o ≠ None.
Proof. by destruct o. Qed.

Lemma gre7_wf : Encap.gre_wf gre7.
Proof. unfold Encap.gre_wf, gre7. cbn. lia. Qed.

Lemma tunnel_comes_up_witness :
  ∃ (tl1 tl2 : Tunnel toy) (out : list Z),
    route toy str (listen_cfg "secret" gre7) out addrD true 5 200 tl1 = Some tl2 ∧
    injected toy tl2 = [[69; 1; 2]] ∧ current toy tl2 = pending toy tl1.
Proof.
  destruct (tunnel_comes_up toy str Session.ToyNoise.toy_laws "secret" gre7 addrL addrD 1400 1400 11 12 5 99 150 160 200
              Session.draw7 attempt7 true [69; 1; 2])
    as (reply & tl1 & _ & _ & _ & body & _ & td1 & _ & out & rest & _ & tl2 & Hr & Hi & Hc & _).
  - exact gre7_wf.
  - lia.
  - exact Session.draw7_range.
  - reflexivity.
  - by apply (bool_decide_unpack _).
  - reflexivity.
  - exists tl1, tl2, out. split; [exact Hr|]. split; [exact Hi|exact Hc].
Defined.

Definition live : Tunnel toy :=
  set_peer toy (Some addrD) (set_current toy (Some 0%nat)
    (set_heap toy {[0%nat := Session.end_b]} (set_nextLoc toy 1%nat (New toy 1400)))).

(** A forged data message, garbage, and a handshake from elsewhere. *)
Definition noise_run : list arrival :=
  [mkArrival (bytes (mkHeader typeData 7 3) ++ [1; 2; 3]) addrL true 0 50;
   mkArrival [9; 9] addrL true 0 51;
   mkArrival (Session.datagram (Session.toy_dial "guess" "gre")) addrL true 0 52].

Lemma forged_unauthentic : ∀ h body,
  parseHeader (bytes (mkHeader typeData 7 3) ++ [1; 2; 3]) = Ok (h, body) → typeData ≤ kind h → ¬ authentic toy live h body.
Proof.
  intros h body Hp _ (l & b & s & plain & Hf & Hh & _ & Hd). vm_compute in Hp. injection Hp as <- <-.
  vm_compute in Hf. injection Hf as <- <-. change (heap toy live !! 0%nat) with (Some Session.end_b) in Hh.
  injection Hh as <-. vm_compute in Hd. discriminate Hd.
Qed.

Lemma noise_strangers : strangers toy str (listen_cfg "secret" gre7) noise_run live.
Proof.
  cbn [strangers noise_run]. split; [exact forged_unauthentic|]. intros t1 _.
  split; [intros h body Hp; vm_compute in Hp; discriminate Hp|]. intros t2 _.
  split; [|done]. intros h body Hp Hk. vm_compute in Hp. injection Hp as <- <-. exfalso. by apply Hk.
Qed.

Lemma strangers_change_nothing_witness :
  ∃ t', serve toy str (listen_cfg "secret" gre7) noise_run live = Some t' ∧ peer toy t' = peer toy live.
Proof.
  destruct (serve toy str (listen_cfg "secret" gre7) noise_run live) as [t'|] eqn:E;
    [|exfalso; by eapply some_of; [|exact E]; vm_compute].
  destruct (strangers_change_nothing toy str (listen_cfg "secret" gre7) noise_run live t'
              noise_strangers E) as (_ & _ & _ & _ & _ & _ & Hp & _).
  exists t'. split; [reflexivity|]. apply Hp. by exists addrD.
Defined.

Definition next_session : Session.session toy :=
  Session.mkSession (N := toy) 9 (60 * Second) 1 2 0 Replay.zero_window.

Lemma rekey_keeps_old_witness :
  sessionFor toy (installDialed toy (fst (alloc toy next_session live)) (60 * Second)
    (snd (alloc toy next_session live))) (Session.id Session.end_b) = Some (0%nat, false).
Proof.
  pose proof (rekey_keeps_old toy live 0 Session.end_b next_session (60 * Second) (61 * Second)
                eq_refl eq_refl) as H.
  destruct (alloc toy next_session live) as [ln t1]. cbn [fst snd]. apply H.
  - apply Nat.lt_0_1.
  - discriminate.
  - vm_compute. discriminate.
  - reflexivity.
  - reflexivity.
Defined.

Lemma negotiate_at_most_twice_witness :
  ∃ r t', negotiate toy 2 (dial_cfg "secret" gre7) (λ _, Some addrL) (λ _, 11) (λ _, Session.draw7)
    (λ _ _, Timeout) (λ _ _, true) (λ n, Z.of_nat n * Second) (New toy 1400) = Some (r, t').
Proof. apply (negotiate_at_most_twice toy). vm_compute. discriminate. Defined.

Definition first_init : header := mkHeader typeInit 7 2.

Lemma retransmission_same_answer_witness :
  ∃ reply t', lastReply toy t' = Some reply ∧
    handleInit toy (listen_cfg "secret" gre7) first_init (Session.msg attempt7) addrL 0 9 t' =
      set_sent toy ((reply, addrL) :: sent toy t') t'.
Proof.
  destruct (lastReply toy (handleInit toy (listen_cfg "secret" gre7) first_init (Session.msg attempt7) addrD 5 8 (New toy 1400)))
    as [reply|] eqn:E; [|exfalso; by eapply some_of; [|exact E]; vm_compute].
  exists reply, (handleInit toy (listen_cfg "secret" gre7) first_init (Session.msg attempt7) addrD 5 8 (New toy 1400)).
  split; [exact E|].
  apply (retransmission_same_answer toy); [reflexivity|vm_compute; reflexivity|exact E].
Defined.

(** A probe the peer sealed, against a dialler that has waited since time 1. *)
Definition probe_h : header := mkHeader typeProbe 7 0.
Definition probe_body : list Z :=
  Session.ToyNoise.encrypt 10 0 (bytes probe_h) (put_be 4 77 ++ put_be 2 6 ++ [0; 0]).

Lemma probes_keep_silence_witness :
  ∃ t', handleProbeMessage toy str probe_h probe_body (Some addrD) (20 * Second) (set_unanswered toy 1 live) = Some t' ∧
    fst (peerSilent toy (20 * Second) t') = true.
Proof.
  destruct (handleProbeMessage toy str probe_h probe_body (Some addrD) (20 * Second) (set_unanswered toy 1 live))
    as [t'|] eqn:E; [|exfalso; by eapply some_of; [|exact E]; vm_compute].
  exists t'. split; [reflexivity|].
  destruct (probes_keep_silence toy str probe_h probe_body (Some addrD) (20 * Second)
              (set_unanswered toy 1 live) t' E) as [_ ->]. reflexivity.
Defined.

End Tunnel.
