(* ===== verification/L3Path.v ===== *)
(** What the path carries: the MTU search of
    [src/internal/tunnel/l3/mtuprobe.go] and [MTUFor] of [config.go] (Module
    [Mtu]), the run of datagrams one offloaded write may carry ([gso.go],
    Module [Gso]), several sockets as one carrier ([multipath.go], Module
    [Multipath]), and the reports of device overflows ([segoverflow.go],
    Module [Overflow]). *)

From Stdlib Require Import Ascii String Sorted.
From S2P Require Import Prelude.
From S2P Require Import L3Wire.
From S2P Require Import L3Replay.
From S2P Require Import L3Fresh.
From S2P Require Import L3Encap.
From S2P Require Import L3Session.
From S2P Require Import L3Tunnel.
Import Wire SeenInits Tunnel.
Open Scope list_scope.
Open Scope Z_scope.

Module Mtu.

Definition probeTimeout : Z := 2 * Second.
Definition probeAttempts : nat := 3.
Definition probeSettle : Z := 2 * Second.
Definition probeEvery : Z := 30 * Minute.
Definition probeWarnBelow : Z := 1280.
Definition minMTU : Z := 576.
Definition maxMTU : Z := 9000.

Definition MTUFor (pathMTU carrierOverhead encapOverhead : Z) : Z :=
  pathMTU - carrierOverhead - Z.of_nat dataOverhead - encapOverhead.

Section Search.
Context (N : Session.Noise).

(** What surrounds the probes: the identifier drawn for the [k]-th one,
    whether the carrier takes a datagram, whether an answer to a datagram of
    that length comes in time, and whether the context has ended by then. *)
Record env : Type := mkEnv {
  ident : nat → Z;
  takes : nat → bool;
  answered : nat → nat → bool;
  ended : nat → bool
}.

(** [sendProbe]: whether it was answered. The waiter is registered before the
    send and deleted on every way out. *)
Definition sendProbe (e : env) (cfg : Config) (k : nat) (p : Z) (t : Tunnel N) : outcome (bool * Tunnel N) :=
  match sendSession N t, peer N t with
  | Some l, Some a =>
      match heap N t !! l with
      | None => Ret (false, t)
      | Some s =>
          match buildProbe (ident e k) p (Encap.greOverhead (encap cfg)) with
          | Panic => Panic
          | Ret body =>
              let '(r, s) := Session.sealKind N s body typeProbe in
              let t := store N l s t in
              match r with
              | Err _ => Ret (false, t)
              | Ok sealed =>
                  let t := set_probeWaiters N (<[ident e k := []]> (probeWaiters N t)) t in
                  let unregister t := set_probeWaiters N (delete (ident e k) (probeWaiters N t)) t in
                  if takes e k
                  then Ret (answered e k (length sealed), unregister (WriteTo N sealed a t))
                  else Ret (false, unregister t)
              end
          end
      end
  | _, _ => Ret (false, t)
  end.

(** [probeOnce]; [k] counts the probes sent so far. *)
Fixpoint probeOnce (n : nat) (e : env) (cfg : Config) (k : nat) (p : Z) (t : Tunnel N)
    : outcome (bool * nat * Tunnel N) :=
  match n with
  | O => Ret (false, k, t)
  | S n =>
      if ended e k then Ret (false, k, t)
      else
        match sendProbe e cfg k p t with
        | Panic => Panic
        | Ret (true, t) => Ret (true, S k, t)
        | Ret (false, t) => probeOnce n e cfg (S k) p t
        end
  end.

Inductive found : Type :=
| Found (mtu : Z)
| errProbeUnanswered
| errContext
| OutOfFuel.

Fixpoint search_loop (fuel : nat) (e : env) (cfg : Config) (k : nat) (best lo hi : Z) (t : Tunnel N)
    : outcome (found * Tunnel N) :=
  if hi <? lo then Ret (Found best, t)
  else
    match fuel with
    | O => Ret (OutOfFuel, t)
    | S fuel =>
        if ended e k then Ret (errContext, t)
        else
          let mid := (lo + hi) `quot` 2 in
          match probeOnce probeAttempts e cfg k mid t with
          | Panic => Panic
          | Ret (true, k, t) => search_loop fuel e cfg k mid (mid + 1) hi t
          | Ret (false, k, t) => search_loop fuel e cfg k best lo (mid - 1) t
          end
    end.

Definition searchMTU (e : env) (cfg : Config) (carrierOverhead : Z) (t : Tunnel N)
    : outcome (found * Tunnel N) :=
  let ceiling := MTUFor 1500 carrierOverhead (Z.of_nat (Encap.greOverhead (encap cfg))) in
  let ceiling := if maxMTU <? ceiling then maxMTU else ceiling in
  let floor := minMTU in
  match probeOnce probeAttempts e cfg 0 ceiling t with
  | Panic => Panic
  | Ret (true, _, t) => Ret (Found ceiling, t)
  | Ret (false, k, t) =>
      match probeOnce probeAttempts e cfg k floor t with
      | Panic => Panic
      | Ret (false, _, t) => Ret (errProbeUnanswered, t)
      | Ret (true, k, t) => search_loop (Z.to_nat (ceiling - floor)) e cfg k floor (floor + 1) (ceiling - 1) t
      end
  end.

(** [measureAndApply]: [sets] is whether the interface takes the new MTU. *)
Definition measureAndApply (e : env) (cfg : Config) (carrierOverhead : Z) (sets : bool) (t : Tunnel N)
    : outcome (Tunnel N) :=
  match searchMTU e cfg carrierOverhead t with
  | Panic => Panic
  | Ret (Found mtu, t) =>
      Ret (if mtu =? mtuCurrent N t then t else if sets then set_mtuCurrent N mtu t else t)
  | Ret (_, t) => Ret t
  end.

(** ** Lemmas *)

(** A session is up, its peer is known, and the counter has room. *)
Definition ready (t : Tunnel N) (room : Z) : Prop :=
  ∃ l s a, sendSession N t = Some l ∧ peer N t = Some a ∧ heap N t !! l = Some s ∧
    0 ≤ Session.sendCounter s ∧ Session.sendCounter s + room < 2^60.

(** The datagram a data message with an inner packet of [p] bytes makes. *)
Definition data_size (cfg : Config) (p : Z) : nat := dataOverhead + Encap.greOverhead (encap cfg) + Z.to_nat p.

(** The path carries every sealed datagram up to [limit] bytes and none
    longer; a probe that fits may be lost, but not three times in a row. *)
Definition threshold (e : env) (limit : nat) : Prop :=
  (∀ k n, (n ≤ limit)%nat → ∃ i, (i < 3)%nat ∧ takes e (k + i) = true ∧ answered e (k + i) n = true) ∧
  (∀ k n, (limit < n)%nat → answered e k n = false) ∧ (∀ k, ended e k = false).

Context {Laws : Session.NoiseLaws N}.
#[local] Set Default Proof Using "Type*".

Lemma sendProbe_ready e cfg k p t room :
  ready t (room + 1) → 0 ≤ room → 6 ≤ p →
  ∃ t', sendProbe e cfg k p t = Ret (takes e k && answered e k (data_size cfg p), t') ∧
    ready t' room ∧ mtuCurrent N t' = mtuCurrent N t.
Proof.
  intros (l & s & a & Hs & Hp & Hh & H0 & Hr) Hroom Hpp. unfold sendProbe. rewrite Hs, Hp, Hh.
  unfold buildProbe. rewrite (proj2 (Z.ltb_ge _ _)) by lia.
  set (body := put_be 4 _ ++ put_be 2 _ ++ replicate _ 0).
  assert (length body = Encap.greOverhead (encap cfg) + Z.to_nat p)%nat as Hb.
  { unfold body. rewrite !length_app, !length_put_be, length_replicate. lia. }
  rewrite Session.sealKind_eq by lia. unfold Session.rejectAfterMessages. rewrite (proj2 (Z.leb_gt _ _)) by lia.
  cbv zeta. set (sealed := bytes _ ++ _).
  assert (length sealed = data_size cfg p) as Hl.
  { unfold sealed, data_size, dataOverhead. rewrite length_app, length_bytes, Session.encrypt_length, Hb. lia. }
  rewrite Hl.
  assert (∀ t', sendSession N t' = Some l → peer N t' = Some a →
    heap N t' !! l = Some (Session.set_counter s (u64 (Session.sendCounter s + 1))) → ready t' room) as Hready.
  { intros t' E1 E2 E3. exists l, (Session.set_counter s (u64 (Session.sendCounter s + 1))), a.
    split_and!; [exact E1|exact E2|exact E3|..]; cbn [Session.sendCounter Session.set_counter];
      rewrite u64_small by lia; lia. }
  destruct (takes e k); cbn [andb]; eexists; (split; [reflexivity|]); split; try done;
    apply Hready; try exact Hs; try exact Hp; unfold store; cbn; by rewrite lookup_insert_eq.
Qed.

(** A run of attempts answers exactly when one of its probes does. *)
Lemma probeOnce_ready n e cfg k p t room :
  (∀ j, ended e j = false) → ready t (room + Z.of_nat n) → 0 ≤ room → 6 ≤ p →
  ∃ b k' t', probeOnce n e cfg k p t = Ret (b, k', t') ∧ ready t' room ∧ mtuCurrent N t' = mtuCurrent N t ∧
    (b = true ↔ ∃ i, (i < n)%nat ∧ takes e (k + i) = true ∧ answered e (k + i) (data_size cfg p) = true).
Proof.
  intros Hend Hr Hroom Hp. revert k t Hr. induction n as [|n IH]; intros k t Hr.
  - exists false, k, t. rewrite Z.add_0_r in Hr. split_and!; try done. split; [done|]. intros (i & ? & _). lia.
  - cbn [probeOnce]. rewrite Hend.
    destruct (sendProbe_ready e cfg k p t (room + Z.of_nat n)) as (t1 & -> & Hr1 & Hm1); [|lia|lia|].
    { by replace (room + Z.of_nat n + 1) with (room + Z.of_nat (S n)) by lia. }
    destruct (takes e k && answered e k (data_size cfg p)) eqn:Eh.
    + apply andb_true_iff in Eh as [E1 E2]. exists true, (S k), t1. split_and!; [done| |done|].
      * destruct Hr1 as (l & s & a & ? & ? & ? & ? & ?). exists l, s, a. split_and!; auto; lia.
      * split; [|done]. intros _. exists 0%nat. rewrite Nat.add_0_r. split_and!; [lia|done|done].
    + destruct (IH (S k) t1 Hr1) as (b & k' & t' & -> & Hr' & Hm' & Hb). exists b, k', t'.
      split_and!; [done|done|congruence|]. rewrite Hb. split.
      * intros (i & Hi & H1 & H2). exists (S i). rewrite Nat.add_succ_r. split_and!; [lia|done|done].
      * intros (i & Hi & H1 & H2). destruct i as [|i].
        { rewrite Nat.add_0_r in *. by rewrite H1, H2 in Eh. }
        exists i. rewrite Nat.add_succ_r in *. split_and!; [lia|done|done].
Qed.

(** On a threshold path a size is found to fit exactly when it does. *)
Lemma probeOnce_threshold e cfg k p t room limit :
  threshold e limit → ready t (room + 3) → 0 ≤ room → 6 ≤ p →
  ∃ k' t', probeOnce probeAttempts e cfg k p t = Ret (bool_decide (data_size cfg p ≤ limit)%nat, k', t') ∧
    ready t' room ∧ mtuCurrent N t' = mtuCurrent N t.
Proof.
  intros (H1 & H2 & H3) Hr Hroom Hp.
  destruct (probeOnce_ready probeAttempts e cfg k p t room H3 Hr Hroom Hp) as (b & k' & t' & -> & Hr' & Hm & Hb).
  exists k', t'. split; [|done]. do 3 f_equal. case_bool_decide as Hd.
  - apply Hb. destruct (H1 k _ Hd) as (i & ? & ? & ?). by exists i.
  - destruct b; [|done]. destruct (proj1 Hb eq_refl) as (i & _ & _ & Ha). rewrite H2 in Ha by lia. done.
Qed.

(** The invariant of the search: [best] fits, everything above [hi] does
    not, everything up to [best] has been decided. *)
Lemma search_loop_finds e cfg limit : ∀ fuel k best lo hi t room,
  threshold e limit → ready t (room + 3 * Z.of_nat fuel) → 0 ≤ room →
  6 ≤ best → lo = best + 1 → hi - lo + 1 ≤ Z.of_nat fuel →
  (data_size cfg best ≤ limit)%nat → (limit < data_size cfg (hi + 1))%nat → best ≤ hi →
  ∃ m t', search_loop fuel e cfg k best lo hi t = Ret (Found m, t') ∧ ready t' room ∧ mtuCurrent N t' = mtuCurrent N t ∧
    best ≤ m ≤ hi ∧ (data_size cfg m ≤ limit)%nat ∧ (limit < data_size cfg (m + 1))%nat.
Proof.
  induction fuel as [|fuel IH]; intros k best lo hi t room Hth Hr Hroom Hb Hlo Hf Hfit Hno Hle.
  - unfold search_loop. rewrite (proj2 (Z.ltb_lt _ _)) by lia. assert (best = hi) as -> by lia.
    exists hi, t. replace (room + 3 * Z.of_nat 0) with room in Hr by lia. split_and!; try done; lia.
  - cbn [search_loop]. destruct (Z.ltb_spec hi lo) as [Hd|Hd].
    { assert (best = hi) as -> by lia. exists hi, t. split_and!; try done; try lia.
      destruct Hr as (l & s & a & ? & ? & ? & ? & ?). exists l, s, a. split_and!; auto; lia. }
    rewrite (proj2 (proj2 Hth)). set (mid := (lo + hi) `quot` 2).
    assert (lo ≤ mid ≤ hi) as Hmid.
    { unfold mid. rewrite Z.quot_div_nonneg by lia. split; [apply Z.div_le_lower_bound; lia|].
      apply Z.div_le_upper_bound; lia. }
    destruct (probeOnce_threshold e cfg k mid t (room + 3 * Z.of_nat fuel) limit Hth) as (k' & t1 & -> & Hr1 & Hm1);
      [by replace (room + 3 * Z.of_nat fuel + 3) with (room + 3 * Z.of_nat (S fuel)) by lia|lia|lia|].
    case_bool_decide as Hd2.
    + destruct (IH k' mid (mid + 1) hi t1 room) as (m & t' & -> & Hr' & Hm' & Hb' & Hf' & Hn'); auto; try lia.
      exists m, t'. split_and!; try done; try lia; congruence.
    + destruct (IH k' best lo (mid - 1) t1 room) as (m & t' & -> & Hr' & Hm' & Hb' & Hf' & Hn'); auto; try lia.
      { replace (mid - 1 + 1) with mid by lia. lia. }
      exists m, t'. split_and!; try done; try lia; congruence.
Qed.

Lemma data_size_mono cfg p q : 0 ≤ p ≤ q → (data_size cfg p ≤ data_size cfg q)%nat.
Proof. intros. unfold data_size. lia. Qed.

Definition top (cfg : Config) (carrierOverhead : Z) : Z :=
  Z.min maxMTU (MTUFor 1500 carrierOverhead (Z.of_nat (Encap.greOverhead (encap cfg)))).

Lemma search_finds e cfg co t limit :
  threshold e limit → ready t (2 ^ 20) → minMTU < top cfg co →
  ∃ t', mtuCurrent N t' = mtuCurrent N t ∧
    if decide (data_size cfg minMTU ≤ limit)%nat then
      ∃ m, searchMTU e cfg co t = Ret (Found m, t') ∧ minMTU ≤ m ≤ top cfg co ∧ (data_size cfg m ≤ limit)%nat ∧
        (m = top cfg co ∨ (limit < data_size cfg (m + 1))%nat)
    else searchMTU e cfg co t = Ret (errProbeUnanswered, t').
Proof.
  intros Hth Hr Htop. unfold searchMTU. unfold minMTU in *.
  set (mt := MTUFor 1500 co (Z.of_nat (Encap.greOverhead (encap cfg)))).
  assert ((if maxMTU <? mt then maxMTU else mt) = top cfg co) as ->.
  { unfold top. fold mt. destruct (Z.ltb_spec maxMTU mt); lia. }
  assert (top cfg co ≤ 9000) by (unfold top, maxMTU; lia).
  destruct (probeOnce_threshold e cfg 0 (top cfg co) t (2 ^ 20 - 3) limit Hth) as (k1 & t1 & -> & Hr1 & Hm1);
    [by replace (2 ^ 20 - 3 + 3) with (2 ^ 20) by lia|lia|lia|].
  case_bool_decide as Hc.
  { pose proof (data_size_mono cfg 576 (top cfg co)). exists t1. split; [done|].
    rewrite decide_True by lia. exists (top cfg co). split_and!; try done; lia. }
  destruct (probeOnce_threshold e cfg k1 576 t1 (2 ^ 20 - 6) limit Hth) as (k2 & t2 & -> & Hr2 & Hm2);
    [by replace (2 ^ 20 - 6 + 3) with (2 ^ 20 - 3) by lia|lia|lia|].
  case_bool_decide as Hf.
  - destruct (search_loop_finds e cfg limit (Z.to_nat (top cfg co - 576)) k2 576 (576 + 1) (top cfg co - 1) t2 0)
      as (m & t3 & -> & _ & Hm3 & Hb & Hfit & Hno); auto; try lia.
    { destruct Hr2 as (l & s & a & ? & ? & ? & ? & ?). exists l, s, a. split_and!; auto; lia. }
    { replace (top cfg co - 1 + 1) with (top cfg co) by lia. lia. }
    exists t3. split; [congruence|]. rewrite decide_True by done. exists m. split_and!; try done; lia.
  - exists t2. split; [congruence|]. by rewrite decide_False.
Qed.

(** C10: the interface ends at exactly what the path carries. On a path that
    carries every datagram up to [limit] bytes and none longer (losing a probe
    now and then, but never three of one size in a row), one measurement of a
    tunnel with a session and a peer always comes to an end and sets the MTU to
    the largest inner packet whose sealed data datagram fits [limit], capped by
    what a 1500-byte path or the read buffers allow; where not even the
    smallest workable packet crosses, or the interface refuses, the MTU in
    force is left as it was. *)
Theorem search_exact e cfg co t limit sets :
  threshold e limit → ready t (2 ^ 20) → minMTU < top cfg co →
  ∃ t', measureAndApply e cfg co sets t = Ret t' ∧
    mtuCurrent N t' =
      if decide (data_size cfg minMTU ≤ limit)%nat then
        if sets then Z.min (top cfg co) (Z.of_nat limit - Z.of_nat (dataOverhead + Encap.greOverhead (encap cfg)))
        else mtuCurrent N t
      else mtuCurrent N t.
Proof.
  intros Hth Hr Htop. destruct (search_finds e cfg co t limit Hth Hr Htop) as (t' & Hm & H).
  unfold measureAndApply. destruct (decide _) as [Hd|Hd].
  - destruct H as (m & -> & Hb & Hfit & Hmax). eexists. split; [reflexivity|].
    assert (m = Z.min (top cfg co) (Z.of_nat limit - Z.of_nat (dataOverhead + Encap.greOverhead (encap cfg)))) as ->.
    { unfold data_size, minMTU in *. lia. }
    rewrite Hm. destruct (Z.eqb_spec (Z.min (top cfg co) (Z.of_nat limit - Z.of_nat (dataOverhead + Encap.greOverhead (encap cfg))))
      (mtuCurrent N t)) as [->|_]; destruct sets; auto.
  - rewrite H. by eexists.
Qed.

End Search.

(** ** Witness *)

Definition path1400 : env := mkEnv Z.of_nat (λ k, negb (Nat.eqb k 1)) (λ _ n, (n <=? 1400)%nat) (λ _, false).

Lemma path1400_threshold : threshold path1400 1400.
Proof.
  split_and!; [|intros k n Hn|done].
  - intros k n Hn. cbn. destruct (decide (k = 1%nat)) as [->|].
    + exists 1%nat. split_and!; [lia|done|by apply Nat.leb_le].
    + exists 0%nat. rewrite Nat.add_0_r. split_and!; [lia| |by apply Nat.leb_le]. by apply negb_true_iff, Nat.eqb_neq.
  - cbn. apply Nat.leb_gt. lia.
Qed.

Lemma search_exact_witness :
  ∃ t', measureAndApply toy path1400 (listen_cfg "secret" gre7) 28 true live = Ret t' ∧ mtuCurrent toy t' = 1363.
Proof.
  destruct (search_exact toy (Laws := Session.ToyNoise.toy_laws) path1400 (listen_cfg "secret" gre7) 28 live 1400 true path1400_threshold)
    as (t' & H & Hm).
  - exists 0%nat, Session.end_b, addrD. split_and!; [reflexivity..| |]; vm_compute; [discriminate|reflexivity].
  - reflexivity.
  - exists t'. split; [exact H|]. rewrite Hm. reflexivity.
Defined.

End Mtu.

(** ** [gso.go]: the longest run one offloaded write may carry *)

Module Gso.

Definition gsoMaxSegments : nat := 64.
Definition gsoMaxPayload : Z := 65507.

(** The loop of [gsoRun] from index [i] on, with [n] and [total] so far. *)
Fixpoint run_loop (segment i n : nat) (total : Z) (bufs : list (list Z)) : nat :=
  match bufs with
  | [] => n
  | b :: bufs =>
      if (i =? gsoMaxSegments)%nat || (gsoMaxPayload <? total + zlen b) then n
      else if (length b =? 0)%nat then n
      else if (segment <? length b)%nat then n
      else if (length b <? segment)%nat then S i
      else run_loop segment (S i) (S i) (total + zlen b) bufs
  end.

(** [None] is [0, 0, false]. *)
Definition gsoRun (bufs : list (list Z)) : option (nat * nat) :=
  match bufs with
  | b0 :: _ :: _ =>
      let segment := length b0 in
      if (segment =? 0)%nat || (gsoMaxPayload <? zlen b0) then None
      else
        let n := run_loop segment 0 0 0 bufs in
        if (n <? 2)%nat then None else Some (n, segment)
  | _ => None
  end.

(** The kernel's side, as the comment in gso.go gives it: a buffer of length
    [L] is cut into pieces of [segment] bytes and the remainder is the last. *)
Fixpoint cut (fuel segment : nat) (buf : list Z) : list (list Z) :=
  match fuel, buf with
  | S fuel, _ :: _ => take segment buf :: cut fuel segment (drop segment buf)
  | _, _ => []
  end.

Lemma cut_exact segment n : ∀ bufs fuel,
  (0 < segment)%nat → length bufs = n → (n ≤ fuel)%nat →
  (∀ i b, bufs !! i = Some b → (S i < n)%nat → length b = segment) →
  (∀ b, last bufs = Some b → (0 < length b ≤ segment)%nat) →
  cut fuel segment (concat bufs) = bufs.
Proof.
  induction n as [|n IH]; intros bufs fuel Hs Hl Hf Hfull Hlast; destruct bufs as [|b bufs]; try done.
  - by destruct fuel.
  - destruct fuel as [|fuel]; [lia|]. cbn [concat cut]. destruct bufs as [|b' bufs].
    + specialize (Hlast b eq_refl). rewrite app_nil_r. destruct b as [|x b]; [cbn in Hlast; lia|].
      rewrite take_ge, drop_ge by (cbn in *; lia). f_equal. by destruct fuel.
    + cbn in Hl. assert (length b = segment) as Hb by (apply (Hfull 0%nat); [done|lia]).
      destruct b as [|x b]; [cbn in Hb; lia|]. cbn [app].
      change (x :: b ++ concat (b' :: bufs)) with ((x :: b) ++ concat (b' :: bufs)).
      rewrite take_app_length' by done. rewrite drop_app_length' by done. f_equal.
      apply IH; cbn; try done; try lia. intros i c Hi Hn. by apply (Hfull (S i)); [|lia].
Qed.

(** What the loop has kept, and why it stopped. *)
Definition run_ok (segment k : nat) (total : Z) (bufs : list (list Z)) : Prop :=
  (∀ i b, bufs !! i = Some b → (S i < k)%nat → length b = segment) ∧
  (∀ b, bufs !! (k - 1)%nat = Some b → (0 < k)%nat → (0 < length b ≤ segment)%nat) ∧
  (k ≤ length bufs)%nat ∧ total + zlen (concat (take k bufs)) ≤ gsoMaxPayload.

(** A datagram more could not have gone with it. *)
Definition run_max (segment i k : nat) (total : Z) (bufs : list (list Z)) : Prop :=
  ∀ b, bufs !! k = Some b →
    (i + k = gsoMaxSegments)%nat ∨ gsoMaxPayload < total + zlen (concat (take (S k) bufs)) ∨
    length b = 0%nat ∨ (segment < length b)%nat ∨
    ∃ c, (0 < k)%nat ∧ bufs !! (k - 1)%nat = Some c ∧ (length c < segment)%nat.

Lemma run_loop_spec segment : ∀ bufs i total,
  (0 < segment)%nat → total ≤ gsoMaxPayload → (i ≤ gsoMaxSegments)%nat →
  ∃ k, run_loop segment i i total bufs = (i + k)%nat ∧ (i + k ≤ gsoMaxSegments)%nat ∧
    run_ok segment k total bufs ∧ run_max segment i k total bufs.
Proof.
  intros bufs. induction bufs as [|b bufs IH]; intros i total Hs Ht Hi.
  { exists 0%nat. cbn. split_and!; [lia|lia| |done]. split_and!; [done|done|cbn; lia|cbn; unfold zlen; cbn; lia]. }
  assert (run_ok segment 0 total (b :: bufs)) as Hok0.
  { split_and!; [intros; lia|intros; lia|cbn; lia|cbn; unfold zlen; cbn; lia]. }
  cbn [run_loop].
  destruct (Nat.eqb_spec i gsoMaxSegments) as [E|E].
  { exists 0%nat. cbn [orb]. split_and!; [lia|lia|done|]. intros c _. left. lia. }
  destruct (Z.ltb_spec gsoMaxPayload (total + zlen b)) as [E1|E1]; cbn [orb].
  { exists 0%nat. split_and!; [lia|lia|done|]. intros c _. right; left. cbn. rewrite app_nil_r. done. }
  destruct (Nat.eqb_spec (length b) 0) as [E2|E2].
  { exists 0%nat. split_and!; [lia|lia|done|]. intros c [= <-]. auto. }
  destruct (Nat.ltb_spec segment (length b)) as [E3|E3].
  { exists 0%nat. split_and!; [lia|lia|done|]. intros c [= <-]. auto. }
  destruct (Nat.ltb_spec (length b) segment) as [E4|E4].
  - exists 1%nat. split_and!; [lia|lia| |].
    + split_and!; [intros; lia|intros c [= <-] _; lia|cbn; lia|cbn; rewrite app_nil_r; done].
    + intros c _. do 4 right. exists b. auto.
  - destruct (IH (S i) (total + zlen b)) as (k & -> & Hk & (H1 & H2 & H3 & H4) & Hmax); try lia.
    exists (S k). split_and!; [lia|lia| |].
    + split_and!.
      * intros [|j] c Hc Hj; [injection Hc as <-; lia|]. apply (H1 j); [done|lia].
      * intros c Hc _. destruct k as [|k]; [injection Hc as <-; lia|]. apply H2; [|lia].
        cbn in *. by rewrite Nat.sub_0_r.
      * cbn. lia.
      * cbn [take concat]. rewrite zlen_app. lia.
    + intros c Hc. cbn in Hc. destruct (Hmax c Hc) as [|[|[|[|(d & ? & ? & ?)]]]]; auto; [left; lia|..].
      * right; left. cbn [take concat]. rewrite zlen_app. lia.
      * do 4 right. exists d. split_and!; [lia| |done]. destruct k; [lia|]. cbn in *.
        by rewrite ?Nat.sub_0_r in *.
Qed.

(** Handing a run to the kernel changes nothing on the wire: the run is
    the front of the batch, has at least two and at most 64 datagrams and at
    most 65,507 bytes, and cutting its concatenation every [segment] bytes
    gives back exactly those datagrams. It is also as long as it may be: the
    datagram after it would exceed a limit, is empty, is larger than the
    segment, or comes after a short one, which must be last. *)
Theorem gso_run_exact bufs n segment :
  gsoRun bufs = Some (n, segment) →
  (2 ≤ n ≤ 64)%nat ∧ (n ≤ length bufs)%nat ∧ zlen (concat (take n bufs)) ≤ gsoMaxPayload ∧
  cut n segment (concat (take n bufs)) = take n bufs ∧
  run_max segment 0 n 0 bufs.
Proof.
  unfold gsoRun. destruct bufs as [|b0 [|b1 bufs]]; try done.
  set (l := b0 :: b1 :: bufs).
  destruct (Nat.eqb_spec (length b0) 0) as [|E0]; [done|].
  destruct (Z.ltb_spec gsoMaxPayload (zlen b0)) as [|E1]; [done|]. cbn [orb].
  destruct (run_loop_spec (length b0) l 0 0) as (k & -> & Hk & (H1 & H2 & H3 & H4) & Hmax);
    [lia|unfold gsoMaxPayload; lia|unfold gsoMaxSegments; lia|].
  cbn [Nat.add] in *. destruct (Nat.ltb_spec k 2) as [|E2]; [done|]. intros [= <- <-].
  split_and!; [lia|exact Hk|exact H3|exact H4| |exact Hmax].
  apply (cut_exact _ k); [lia|by rewrite length_take_le|lia| |].
  - intros i c Hc Hi. apply lookup_take_Some in Hc as [Hc _]. by eapply H1.
  - intros c Hc. rewrite last_lookup, length_take_le in Hc by done.
    apply lookup_take_Some in Hc as [Hc _]. apply H2; [|lia]. by replace (k - 1)%nat with (pred k) by lia.
Qed.

Lemma gso_run_exact_witness :
  let batch := [[1; 2; 3]; [4; 5; 6]; [7]; [8; 9; 10]] in
  gsoRun batch = Some (3%nat, 3%nat) ∧ cut 3 3 (concat (take 3 batch)) = take 3 batch.
Proof. split; [reflexivity|]. apply (gso_run_exact _ 3 3). reflexivity. Defined.

End Gso.


(** ** [multipath.go]: several sockets as one carrier *)

Module Multipath.

Definition maxPaths : Z := 8.
Definition pathQueue : nat := Z.to_nat 1024.

Record MultipathConfig : Type := mkConfig { Paths : Z }.

Definition Enabled (m : MultipathConfig) : bool := 1 <? Paths m.

Inductive error : Type := errNegative | errTooMany.

Definition Validate (m : MultipathConfig) : option error :=
  if Paths m <? 0 then Some errNegative
  else if maxPaths <? Paths m then Some errTooMany
  else None.

(** A path is named by its index; [sent] is what each write put where. *)
Record multipathCarrier : Type := mkCarrier {
  paths : nat;
  next : Z;
  reported : option Addr;
  queue : list (list Z * Addr);
  sent : list (nat * list Z)
}.

Definition newMultipathCarrier (paths : nat) (reported : option Addr) : multipathCarrier :=
  mkCarrier paths 0 reported [] [].

(** [pump], for one datagram a path received. *)
Definition pump (data : list Z) (addr : Addr) (c : multipathCarrier) : multipathCarrier :=
  if (length (queue c) <? pathQueue)%nat
  then mkCarrier (paths c) (next c) (reported c) (queue c ++ [(data, addr)]) (sent c)
  else c.

Definition WriteTo (p : list Z) (c : multipathCarrier) : multipathCarrier :=
  let added := u32 (next c + 1) in
  let i := (Z.to_nat (u32 (added - 1)) mod paths c)%nat in
  mkCarrier (paths c) added (reported c) (queue c) (sent c ++ [(i, p)]).

Definition stableAddr (seen : Addr) (c : multipathCarrier) : Addr * multipathCarrier :=
  match reported c with
  | Some a => (a, c)
  | None => (seen, mkCarrier (paths c) (next c) (Some seen) (queue c) (sent c))
  end.

(** [ReadFrom] when a datagram is waiting; [None] otherwise. *)
Definition ReadFrom (cap : nat) (c : multipathCarrier) : option (list Z * Addr * multipathCarrier) :=
  match queue c with
  | [] => None
  | (data, addr) :: q =>
      let c := mkCarrier (paths c) (next c) (reported c) q (sent c) in
      let '(a, c) := stableAddr addr c in
      Some (take cap data, a, c)
  end.

(** What the carrier sees, in the order it happens; a read with nothing
    waiting does nothing. The result lists the addresses reported. *)
Inductive call : Type := Write (p : list Z) | Receive (data : list Z) (addr : Addr) | Read (cap : nat).

Definition do_call (k : call) (c : multipathCarrier) : list Addr * multipathCarrier :=
  match k with
  | Write p => ([], WriteTo p c)
  | Receive data addr => ([], pump data addr c)
  | Read cap => match ReadFrom cap c with None => ([], c) | Some (_, a, c) => ([a], c) end
  end.

Fixpoint do_calls (ks : list call) (c : multipathCarrier) : list Addr * multipathCarrier :=
  match ks with
  | [] => ([], c)
  | k :: ks => let '(as1, c) := do_call k c in let '(as2, c) := do_calls ks c in (as1 ++ as2, c)
  end.

Definition writes (ks : list call) : list (list Z) :=
  omap (λ k, match k with Write p => Some p | _ => None end) ks.

(** Where the [j]-th write from counter [n] on goes. *)
Definition slot (len : nat) (n : Z) (j : nat) : nat := ((Z.to_nat n + j) mod len)%nat.

Lemma do_calls_spec : ∀ ks c,
  0 ≤ next c → next c + Z.of_nat (length (writes ks)) < 2^32 →
  let '(as_, c') := do_calls ks c in
  paths c' = paths c ∧
  sent c' = sent c ++ imap (λ j p, (slot (paths c) (next c) j, p)) (writes ks) ∧
  (∀ a, reported c = Some a → Forall (λ b, b = a) as_ ∧ reported c' = Some a) ∧
  (reported c = None → ∀ a, head as_ = Some a → Forall (λ b, b = a) as_ ∧ reported c' = Some a).
Proof.
  induction ks as [|k ks IH]; intros c H0 Hlt.
  { cbn. split_and!; [done|by rewrite app_nil_r|intros a Ha; by split|done]. }
  cbn [do_calls]. destruct k as [p|data addr|cap]; cbn [do_call].
  - change (writes (Write p :: ks)) with (p :: writes ks) in *. cbn [length] in Hlt.
    assert (next (WriteTo p c) = next c + 1) as Hn by (cbn; rewrite u32_small; lia).
    specialize (IH (WriteTo p c) ltac:(lia) ltac:(lia)). destruct (do_calls ks (WriteTo p c)) as [as_ c'].
    destruct IH as (H1 & H2 & H3 & H4). split_and!; try assumption.
    rewrite H2, Hn. cbn [WriteTo sent paths]. rewrite <- app_assoc. f_equal. cbn. f_equal.
    + f_equal. unfold slot. rewrite Nat.add_0_r. do 2 f_equal. rewrite (u32_small (next c + 1)) by lia. rewrite u32_small by lia. lia.
    + apply imap_ext. intros j x _. cbn. f_equal. unfold slot. f_equal. lia.
  - change (writes (Receive data addr :: ks)) with (writes ks) in *.
    assert (paths (pump data addr c) = paths c ∧ next (pump data addr c) = next c ∧ sent (pump data addr c) = sent c ∧
      reported (pump data addr c) = reported c) as (E1 & E2 & E3 & E4) by (unfold pump; by case_match).
    specialize (IH (pump data addr c)). rewrite E1, E2, E3, E4 in IH. specialize (IH H0 Hlt).
    by destruct (do_calls ks (pump data addr c)) as [as_ c'].
  - change (writes (Read cap :: ks)) with (writes ks) in *. unfold ReadFrom.
    destruct (queue c) as [|[data addr] q] eqn:Eq.
    { specialize (IH c H0 Hlt). by destruct (do_calls ks c). }
    unfold stableAddr. cbn [reported]. destruct (reported c) as [a|] eqn:Er.
    + specialize (IH (mkCarrier (paths c) (next c) (Some a) q (sent c)) H0 Hlt).
      destruct (do_calls ks _) as [as_ c']. cbn [paths sent reported next] in IH. destruct IH as (H1 & H2 & H3 & H4).
      destruct (H3 a eq_refl) as [H5 H6].
      split_and!; [done|done| |done]. intros b [= <-]. split; [by constructor|done].
    + specialize (IH (mkCarrier (paths c) (next c) (Some addr) q (sent c)) H0 Hlt).
      destruct (do_calls ks _) as [as_ c']. cbn [paths sent reported next] in IH. destruct IH as (H1 & H2 & H3 & H4).
      destruct (H3 addr eq_refl) as [H5 H6].
      split_and!; [done|done|done|]. intros _ b [= <-]. split; [by constructor|done].
Qed.

(** Several sockets behave as one peer and share the load. Over any
    mixture of writes, arrivals and reads (short of 2^32 writes), the layer
    above is told one and the same peer address, the configured one or else
    the first one seen; every write goes out exactly once, in order; and any
    run of consecutive writes no longer than the number of paths uses a
    different path for each. *)
Theorem multipath_one_peer n a0 ks as_ c' :
  (0 < n)%nat → Z.of_nat (length (writes ks)) < 2^32 →
  do_calls ks (newMultipathCarrier n a0) = (as_, c') →
  (∀ a b, a ∈ as_ → b ∈ as_ → a = b) ∧ (∀ a b, a0 = Some a → b ∈ as_ → b = a) ∧
  map snd (sent c') = writes ks ∧
  ∀ i j si sj, sent c' !! i = Some si → sent c' !! j = Some sj → (i < j < i + n)%nat →
    fst si ≠ fst sj ∧ (fst si < n)%nat.
Proof.
  intros Hn Hlt Hdo.
  pose proof (do_calls_spec ks (newMultipathCarrier n a0) ltac:(cbn; lia) ltac:(cbn; lia)) as H. rewrite Hdo in H.
  destruct H as (_ & Hs & Hr & Hrn). cbn [reported newMultipathCarrier paths next sent app] in *.
  assert (∀ a, a0 = Some a ∨ (a0 = None ∧ head as_ = Some a) → Forall (λ b, b = a) as_) as Hall.
  { intros a [->|[-> Ha]]; [by apply Hr|by apply Hrn]. }
  split_and!.
  - destruct a0 as [a|].
    + specialize (Hall a (or_introl eq_refl)). rewrite Forall_forall in Hall. intros x y Hx Hy.
      by rewrite (Hall x Hx), (Hall y Hy).
    + destruct as_ as [|a l]; [intros x y Hx; by apply not_elem_of_nil in Hx|].
      specialize (Hall a (or_intror (conj eq_refl eq_refl))). rewrite Forall_forall in Hall. intros x y Hx Hy.
      by rewrite (Hall x Hx), (Hall y Hy).
  - intros a b -> Hb. specialize (Hall a (or_introl eq_refl)). rewrite Forall_forall in Hall. by apply Hall.
  - rewrite Hs. apply list_eq. intros i. rewrite list_lookup_fmap, list_lookup_imap. by destruct (writes ks !! i).
  - intros i j si sj Hi Hj Hij. rewrite Hs in Hi, Hj. rewrite list_lookup_imap in Hi, Hj.
    destruct (writes ks !! i); [|done]. destruct (writes ks !! j); [|done]. injection Hi as <-. injection Hj as <-.
    cbn [fst]. unfold slot. change (Z.to_nat 0) with 0%nat. rewrite !Nat.add_0_l. split; [|by apply Nat.mod_upper_bound; lia].
    intros E. pose proof (Nat.div_mod_eq i n) as Di. pose proof (Nat.div_mod_eq j n) as Dj. rewrite E in Di.
    set (r := (j mod n)%nat) in *. set (qi := (i / n)%nat) in *. set (qj := (j / n)%nat) in *. clearbody r qi qj.
    destruct (Nat.le_gt_cases qj qi); nia.
Qed.

Lemma multipath_one_peer_witness :
  let ks := [Write [1]; Receive [9] addrD; Write [2]; Receive [8] addrL; Read 10; Read 10; Write [3]] in
  map fst (sent (snd (do_calls ks (newMultipathCarrier 2 None)))) = [0; 1; 0]%nat ∧
  map snd (sent (snd (do_calls ks (newMultipathCarrier 2 None)))) = [[1]; [2]; [3]].
Proof.
  split; [reflexivity|].
  apply (multipath_one_peer 2 None [Write [1]; Receive [9] addrD; Write [2]; Receive [8] addrL; Read 10; Read 10; Write [3]]
    [addrD; addrD]); [lia|vm_compute; reflexivity|reflexivity].
Defined.

End Multipath.

(** ** [segoverflow.go]: a read that overran its buffers *)

Module Overflow.

(** [segmentOverflow]; whether the error is the device's "too many segments". *)
Definition segmentOverflow (n : Z) (tooMany : bool) : Z * bool :=
  if negb tooMany then (0, false)
  else ((if n <? 0 then 0 else n), true).

Record reportEvery : Type := mkReport { every : Z; last_ : option Z; count : Z }.

Definition allow (now : Z) (r : reportEvery) : Z * bool * reportEvery :=
  let count := u64 (count r + 1) in
  match last_ r with
  | Some l => if now - l <? every r then (count, false, mkReport (every r) (last_ r) count)
              else (count, true, mkReport (every r) (Some now) count)
  | None => (count, true, mkReport (every r) (Some now) count)
  end.

(** The times at which a report is spoken. *)
Fixpoint spoken (nows : list Z) (r : reportEvery) : list Z :=
  match nows with
  | [] => []
  | now :: nows =>
      let '(_, said, r) := allow now r in
      if said then now :: spoken nows r else spoken nows r
  end.

(** Reports are at least [every] apart, and the first occurrence is one. *)
Lemma spoken_apart nows : ∀ r,
  Sorted (λ a b, every r ≤ b - a) (match last_ r with Some l => [l] | None => [] end ++ spoken nows r).
Proof.
  induction nows as [|now nows IH]; intros r; cbn [spoken].
  { destruct (last_ r); cbn; repeat constructor. }
  unfold allow. destruct (last_ r) as [l|] eqn:El.
  - destruct (Z.ltb_spec (now - l) (every r)).
    + specialize (IH (mkReport (every r) (Some l) (u64 (count r + 1)))). by cbn in IH.
    + specialize (IH (mkReport (every r) (Some now) (u64 (count r + 1)))). cbn in IH. cbn. constructor; [done|].
      constructor. lia.
  - specialize (IH (mkReport (every r) (Some now) (u64 (count r + 1)))). by cbn in IH.
Qed.

End Overflow.
