(* ===== verification/Frame.v ===== *)
(** What the raw-packet carriers share: writing into a byte buffer and reading
    a received one with Go's bounds checks (Module [Buf]), and the internet
    checksum of [src/internal/utils/network/spoofpacket.go] (Module [Inet]). *)

From S2P Require Import Prelude.

(** ** Buffers *)

Module Buf.

(** [copy(b[lo:hi], src)]: as many bytes as both hold, the rest of [b] as it
    was. *)
Definition blit (lo hi : nat) (src b : list Z) : list Z :=
  let src := take (hi - lo) src in
  take lo b ++ src ++ drop (lo + length src) b.

(** [b[i]] and [b[lo:hi]] of a slice whose bounds the code relies on: out of
    range is a panic. *)
Definition idx (b : list Z) (i : nat) : outcome Z :=
  match b !! i with
  | Some x => Ret x
  | None => Panic
  end.

Definition sub (b : list Z) (lo hi : nat) : outcome (list Z) :=
  if (lo <=? hi)%nat && (hi <=? length b)%nat then Ret (slice b lo hi) else Panic.

Definition obind {A B} (c : outcome A) (k : A → outcome B) : outcome B :=
  match c with
  | Ret a => k a
  | Panic => Panic
  end.

(** [net.IP.To4]; nil is the empty slice. *)
Definition To4 (ip : list Z) : list Z :=
  if (length ip =? 4)%nat then ip
  else if (length ip =? 16)%nat && bool_decide (take 12 ip = [0; 0; 0; 0; 0; 0; 0; 0; 0; 0; 255; 255])
  then drop 12 ip
  else [].

(** [PutUint16], [PutUint32] and a single byte, at an offset. *)
Definition put16 (at_off : nat) (v : Z) (b : list Z) : list Z := blit at_off (at_off + 2) (put_be 2 v) b.
Definition put32 (at_off : nat) (v : Z) (b : list Z) : list Z := blit at_off (at_off + 4) (put_be 4 v) b.
Definition put8 (at_off : nat) (v : Z) (b : list Z) : list Z := blit at_off (at_off + 1) [v] b.

(** Carry out the writes into a buffer whose first bytes are spelt out. *)
Ltac buf_cbv :=
  cbv [put8 put16 put32 blit slice sub take drop app Nat.sub Nat.add Nat.leb Nat.div Nat.divmod fst snd andb obind length
       put_be replicate].

Lemma idx_ret b i : (i < length b)%nat → idx b i = Ret (at_ b i).
Proof. intros H. unfold idx, at_. destruct (lookup_lt_is_Some_2 b i H) as [x ->]. done. Qed.

Lemma sub_ret b lo hi : (lo ≤ hi)%nat → (hi ≤ length b)%nat → sub b lo hi = Ret (slice b lo hi).
Proof. intros. unfold sub. rewrite (proj2 (Nat.leb_le _ _)), (proj2 (Nat.leb_le _ _)) by lia. done. Qed.

Lemma length_blit lo hi src b : (hi ≤ length b)%nat → (lo ≤ hi)%nat → length (blit lo hi src b) = length b.
Proof. intros. unfold blit. rewrite !length_app, length_drop, !length_take. lia. Qed.

Lemma slice_end {A} (l : list A) n : (n ≤ length l)%nat → slice l n (length l) = drop n l.
Proof. intros. unfold slice. apply take_ge. rewrite length_drop. lia. Qed.

Lemma blit_mid lo hi x a m r :
  length a = lo → length x = (hi - lo)%nat → length m = (hi - lo)%nat → blit lo hi x (a ++ m ++ r) = a ++ x ++ r.
Proof.
  intros Ha Hx Hm. unfold blit. rewrite (take_ge x) by lia. rewrite take_app_length' by done. do 2 f_equal.
  rewrite <- drop_drop. rewrite drop_app_length' by done. by rewrite drop_app_length' by lia.
Qed.

Lemma blit_tail lo hi x a r :
  length a = lo → length r = length x → hi = (lo + length x)%nat → blit lo hi x (a ++ r) = a ++ x.
Proof.
  intros Ha Hr ->. pose proof (blit_mid lo (lo + length x) x a r []) as H. rewrite !app_nil_r in H. apply H; lia.
Qed.

Lemma put16_mid n v a m r : length a = n → length m = 2%nat → put16 n v (a ++ m ++ r) = a ++ put_be 2 v ++ r.
Proof. intros Ha Hm. apply blit_mid; rewrite ?length_put_be; lia. Qed.

Lemma To4_four ip : length ip = 4%nat → To4 ip = ip.
Proof. intros H. unfold To4. by rewrite H. Qed.

Lemma To4_length ip : To4 ip ≠ [] → length (To4 ip) = 4%nat.
Proof.
  unfold To4. destruct (Nat.eqb_spec (length ip) 4) as [E|E]; [done|].
  destruct (Nat.eqb_spec (length ip) 16) as [E'|E']; [|done]. cbn [andb].
  case_bool_decide; [|done]. intros _. rewrite length_drop. lia.
Qed.

(** A list of known length as its elements. *)
Lemma length4 (l : list Z) : length l = 4%nat → ∃ a b c d, l = [a; b; c; d].
Proof. destruct l as [|a [|b [|c [|d [|]]]]]; try done. intros _. by exists a, b, c, d. Qed.

Lemma length6 (l : list Z) : length l = 6%nat → ∃ a b c d e f, l = [a; b; c; d; e; f].
Proof. destruct l as [|a [|b [|c [|d [|e [|f [|]]]]]]]; try done. intros _. by exists a, b, c, d, e, f. Qed.

End Buf.

Notation "'let!' x ':=' c 'in' k" :=
  (Buf.obind c (λ x, k)) (at level 10, x name, c at level 200, k at level 200) : go_scope.

(** ** The internet checksum *)

Module Inet.

(** The loop over one part, with the [uint32] accumulator. *)
Fixpoint sum_part (sum : Z) (b : list Z) : Z :=
  match b with
  | x :: y :: b => sum_part (u32 (sum + Z.lor (Z.shiftl x 8) y)) b
  | [x] => u32 (sum + Z.shiftl x 8)
  | [] => sum
  end.

(** [for sum>>16 != 0]; two rounds are enough for any [uint32]. *)
Fixpoint fold_carries (fuel : nat) (sum : Z) : Z :=
  match fuel with
  | O => sum
  | S fuel =>
      if Z.shiftr sum 16 =? 0 then sum
      else fold_carries fuel (u32 (Z.land sum 0xffff + Z.shiftr sum 16))
  end.

(** [^x] of a [uint16]. *)
Definition not16 (x : Z) : Z := 0xffff - x.

Definition onesComplement (parts : list (list Z)) : Z :=
  not16 (u16 (fold_carries 3 (foldl sum_part 0 parts))).

Definition pseudo_header (src dst : list Z) (proto len : Z) : list Z :=
  let pseudo := replicate 12 0 in
  let pseudo := Buf.blit 0 4 (Buf.To4 src) pseudo in
  let pseudo := Buf.blit 4 8 (Buf.To4 dst) pseudo in
  let pseudo := Buf.blit 9 10 [u8 proto] pseudo in
  Buf.blit 10 12 (put_be 2 (u16 len)) pseudo.

Definition l4Checksum (src dst : list Z) (proto : Z) (segment : list Z) : Z :=
  onesComplement [pseudo_header src dst proto (zlen segment); segment].

(** ** Lemmas *)

(** The sum of the 16-bit words, unbounded. *)
Fixpoint words (b : list Z) : Z :=
  match b with
  | x :: y :: b => x * 256 + y + words b
  | [x] => x * 256
  | [] => 0
  end.

Definition total (parts : list (list Z)) : Z := foldr (λ b n, words b + n) 0 parts.

Lemma pair_ind (P : list Z → Prop) :
  P [] → (∀ x, P [x]) → (∀ x y b, P b → P (x :: y :: b)) → ∀ b, P b.
Proof.
  intros H0 H1 H2. assert (∀ b, P b ∧ ∀ x, P (x :: b)) as H; [|apply H].
  induction b as [|y b [IH1 IH2]]; [done|]. split; [apply IH2|]. intros x. by apply H2.
Qed.

Lemma words_bound b : bytes_ok b → 0 ≤ words b ≤ 65535 * ((zlen b + 1) / 2).
Proof.
  induction b as [|x|x y b IH] using pair_ind; intros Hb.
  - cbn [words]. pose proof (Z.div_pos (zlen (@nil Z) + 1) 2). unfold zlen in *. cbn in *. lia.
  - apply bytes_ok_cons in Hb as [Hx _]. unfold byte_ok in Hx. change ((zlen [x] + 1) / 2) with 1. cbn [words]. lia.
  - apply bytes_ok_cons in Hb as [Hx Hb]. apply bytes_ok_cons in Hb as [Hy Hb]. unfold byte_ok in *.
    specialize (IH Hb). cbn [words].
    replace (zlen (x :: y :: b) + 1) with (zlen b + 1 + 1 * 2) by (unfold zlen; cbn; lia).
    rewrite Z.div_add by lia. lia.
Qed.

Lemma no_overlap x y : 0 ≤ y < 256 → Z.land (Z.shiftl x 8) y = 0.
Proof.
  intros Hy. apply Z.bits_inj'. intros n Hn. rewrite Z.land_spec, Z.shiftl_spec, Z.bits_0 by lia.
  destruct (Z.ltb_spec n 8) as [Hlt|Hge]; [by rewrite (Z.testbit_neg_r x) by lia|].
  assert (2 ^ 8 ≤ 2 ^ n) by (apply Z.pow_le_mono_r; lia).
  rewrite (Z.bits_above_log2 y n), andb_false_r; [done|lia|].
  destruct (Z.eq_dec y 0) as [->|]; [cbn; lia|]. apply Z.log2_lt_pow2; lia.
Qed.

Lemma word_lor x y : byte_ok y → Z.lor (Z.shiftl x 8) y = x * 256 + y.
Proof.
  unfold byte_ok. intros Hy. pose proof (no_overlap x y Hy).
  rewrite <- Z.lxor_lor, <- Z.add_nocarry_lxor by done. rewrite Z.shiftl_mul_pow2 by lia. reflexivity.
Qed.

Lemma sum_part_words b : ∀ sum, bytes_ok b → 0 ≤ sum → sum + words b < 2^32 → sum_part sum b = sum + words b.
Proof.
  induction b as [|x|x y b IH] using pair_ind; intros sum Hb H0 Hlt.
  - cbn. lia.
  - apply bytes_ok_cons in Hb as [Hx _]. unfold byte_ok in Hx. cbn [sum_part words] in *.
    rewrite Z.shiftl_mul_pow2 by lia. rewrite u32_small; lia.
  - apply bytes_ok_cons in Hb as [Hx Hb]. apply bytes_ok_cons in Hb as [Hy Hb].
    pose proof (words_bound b Hb). cbn [sum_part words] in *. rewrite word_lor by done.
    unfold byte_ok in *. rewrite u32_small by lia. rewrite IH by (done || lia). lia.
Qed.

Lemma foldl_words parts : ∀ sum, Forall bytes_ok parts → 0 ≤ sum → sum + total parts < 2^32 →
  foldl sum_part sum parts = sum + total parts.
Proof.
  induction parts as [|b parts IH]; intros sum Hb H0 Hlt; [cbn; lia|].
  apply Forall_cons in Hb as [Hb Hp]. cbn [foldl total foldr] in *. fold (total parts) in *.
  pose proof (words_bound b Hb).
  assert (0 ≤ total parts) as Ht.
  { clear -Hp. induction Hp as [|b' ps Hb' Hp IH]; cbn; [lia|]. pose proof (words_bound b' Hb'). fold (total ps). lia. }
  rewrite sum_part_words by (done || lia). rewrite IH by (done || lia). lia.
Qed.

(** Folding keeps the value modulo 65535, and zero only for zero. *)
Lemma fold_carries_spec s :
  0 ≤ s < 2^32 →
  let f := fold_carries 3 s in 0 ≤ f ≤ 65535 ∧ (f = 0 ↔ s = 0) ∧ ∃ k, s = f + k * 65535.
Proof.
  intros Hs.
  assert (∀ n z, 0 ≤ z < 2^32 →
    (z <= 65535 → fold_carries (S n) z = z) ∧
    (65535 < z → ∃ z', fold_carries (S n) z = fold_carries n z' ∧ 1 ≤ z' ∧ z' = z `mod` 65536 + z `div` 65536 ∧
       ∃ k, z = z' + k * 65535)) as Hstep.
  { intros n z Hz. cbn [fold_carries]. rewrite Z.shiftr_div_pow2 by lia. change (2^16) with 65536. split; intros H.
    - rewrite Z.div_small by lia. reflexivity.
    - pose proof (Z.div_mod z 65536). pose proof (Z.mod_pos_bound z 65536).
      assert (1 ≤ z `div` 65536 < 65536) as Hd by (split; [apply Z.div_le_lower_bound; lia|apply Z.div_lt_upper_bound; lia]).
      rewrite (proj2 (Z.eqb_neq _ _)) by lia. replace (Z.land z 0xffff) with (z `mod` 65536) by (symmetry; apply (Z.land_ones z 16); lia).
      rewrite u32_small by lia. eexists. split; [reflexivity|]. split; [lia|]. split; [done|].
      exists (z `div` 65536). lia. }
  cbv zeta. destruct (Hstep 2%nat s Hs) as [H1 H2].
  destruct (Z.le_gt_cases s 65535) as [L|L]; [rewrite H1 by done; split_and!; try lia; by exists 0; lia|].
  destruct (H2 L) as (s1 & -> & P1 & E1 & k1 & K1).
  pose proof (Z.mod_pos_bound s 65536).
  assert (s `div` 65536 < 65536) by (apply Z.div_lt_upper_bound; lia).
  destruct (Hstep 1%nat s1 ltac:(lia)) as [H3 H4].
  destruct (Z.le_gt_cases s1 65535) as [L1|L1]; [rewrite H3 by done; split_and!; try lia; exists k1; lia|].
  destruct (H4 L1) as (s2 & -> & P2 & E2 & k2 & K2).
  assert (s1 `div` 65536 ≤ 1) by (assert (s1 `div` 65536 < 2) by (apply Z.div_lt_upper_bound; lia); lia).
  pose proof (Z.div_mod s1 65536). pose proof (Z.mod_pos_bound s1 65536).
  assert (1 ≤ s1 `div` 65536) by (apply Z.div_le_lower_bound; lia).
  destruct (Hstep 0%nat s2 ltac:(lia)) as [Hlast _]. rewrite Hlast by lia.
  split_and!; try lia. exists (k1 + k2). lia.
Qed.

(** The one's complement of the folded sum, as a relation with the sum. *)
Lemma onesComplement_spec parts :
  Forall bytes_ok parts → 0 ≤ total parts < 2^32 →
  ∃ k, 0 ≤ onesComplement parts < 2^16 ∧ total parts + onesComplement parts = k * 65535 ∧
    (onesComplement parts = 65535 ↔ total parts = 0).
Proof.
  intros Hp Ht. unfold onesComplement. rewrite foldl_words by (done || lia). rewrite Z.add_0_l.
  destruct (fold_carries_spec (total parts) Ht) as (Hf & Hz & k & Hk).
  rewrite u16_small by lia. unfold not16. exists (k + 1). split_and!; try lia.
Qed.

Lemma words_app a b : zlen a `mod` 2 = 0 → words (a ++ b) = words a + words b.
Proof.
  induction a as [|x|x y a IH] using pair_ind; intros Ha; [done|done|].
  cbn [app words]. rewrite IH; [lia|].
  replace (zlen (x :: y :: a)) with (zlen a + 1 * 2) in Ha by (unfold zlen; cbn; lia).
  by rewrite Z.mod_add in Ha by lia.
Qed.

Lemma words_put_be2 v : 0 ≤ v < 2^16 → words (put_be 2 v) = v.
Proof.
  intros Hv. unfold put_be. cbn [words].
  replace (Z.of_nat 1) with 1 by lia. replace (Z.of_nat 0) with 0 by lia.
  rewrite Z.pow_1_r, Z.pow_0_r, Z.div_1_r.
  rewrite (Z.mod_small (v `div` 256)) by (split; [apply Z.div_pos; lia|apply Z.div_lt_upper_bound; lia]).
  pose proof (Z.div_mod v 256). lia.
Qed.

(** What a receiver computes: a message whose checksum field, at an even
    offset, holds the complement of the sum over the rest (or 0xffff for a
    zero, as UDP sends it) sums to zero. *)
Lemma checksum_verifies before pre post cs :
  bytes_ok (concat before) → bytes_ok pre → bytes_ok post → zlen pre `mod` 2 = 0 →
  let cs0 := onesComplement (before ++ [pre ++ [0; 0] ++ post]) in
  total before + words pre + words post < 2^32 - 65536 →
  cs = cs0 ∨ (cs0 = 0 ∧ cs = 65535) →
  onesComplement (before ++ [pre ++ put_be 2 cs ++ post]) = 0.
Proof.
  intros Hb Hpre Hpost Heven cs0 Hbig Hcs.
  assert (Forall bytes_ok before) as Hbf.
  { clear -Hb. induction before as [|b before IH]; [constructor|]. cbn in Hb. apply bytes_ok_app in Hb as [? ?]. auto. }
  assert (∀ x, bytes_ok x → Forall bytes_ok (before ++ [pre ++ x ++ post])) as Hall.
  { intros x Hx. apply Forall_app_2; [done|]. apply Forall_singleton. rewrite !bytes_ok_app. auto. }
  assert (∀ x, length x = 2%nat → total (before ++ [pre ++ x ++ post]) = total before + words pre + words x + words post) as Htot.
  { intros x Hx. unfold total. rewrite foldr_app. cbn [foldr]. rewrite words_app by done.
    rewrite (words_app x) by (unfold zlen; by rewrite Hx).
    clear. induction before as [|b before IH]; cbn; lia. }
  pose proof (words_bound pre Hpre). pose proof (words_bound post Hpost).
  assert (0 ≤ total before) by (clear -Hbf; induction Hbf as [|b ps Hb Hp IH]; cbn; [lia|]; pose proof (words_bound b Hb);
    fold (total ps); lia).
  destruct (onesComplement_spec (before ++ [pre ++ [0; 0] ++ post])) as (k & Hr & Hk & Hz).
  { apply Hall. by apply (bool_decide_unpack _). }
  { rewrite Htot by done. cbn [words]. lia. }
  fold cs0 in Hr, Hk, Hz. rewrite Htot in Hk, Hz by done. cbn [words] in Hk, Hz.
  assert (0 ≤ cs < 2^16) as Hcs16 by (destruct Hcs as [->|[_ ->]]; lia).
  destruct (onesComplement_spec (before ++ [pre ++ put_be 2 cs ++ post])) as (k' & Hr' & Hk' & Hz').
  { apply Hall, put_be_ok. }
  { rewrite Htot, words_put_be2 by (done || apply length_put_be). lia. }
  rewrite Htot, words_put_be2 in Hk', Hz' by (done || apply length_put_be).
  set (o := onesComplement (before ++ [pre ++ put_be 2 cs ++ post])) in *. clearbody o cs0.
  assert (∃ j, o = j * 65535) as [j Hj].
  { destruct Hcs as [->|[E ->]]; [exists (k' - k)|exists (k' - k - 1)]; cbn in *; lia. }
  destruct (Z.eq_dec o 65535) as [E|E]; [exfalso; apply Hz' in E|lia].
  assert (cs = 0) by lia. destruct Hcs as [->|[_ ->]]; [|lia]. assert (cs0 = 65535) by (apply Hz; cbn; lia). lia.
Qed.

Lemma pseudo_header_ok src dst proto len :
  bytes_ok (Buf.To4 src) → bytes_ok (Buf.To4 dst) →
  bytes_ok (pseudo_header src dst proto len) ∧ zlen (pseudo_header src dst proto len) = 12.
Proof.
  intros Hs Hd. unfold pseudo_header, Buf.blit. split.
  - repeat first [apply bytes_ok_app; split | apply bytes_ok_take | apply bytes_ok_drop]; auto using put_be_ok.
    all: try apply Hs; try apply Hd; try (by apply (bool_decide_unpack _)).
    all: constructor; [apply u8_range|constructor].
  - unfold zlen. rewrite !length_app, !length_take, !length_drop, !length_app, !length_take, !length_drop, !length_app,
      !length_take, !length_drop, !length_app, !length_take, !length_drop, !length_put_be, length_replicate.
    cbn [length]. lia.
Qed.

(** The segment a transport builds: sound at the receiver. *)
Lemma l4_verifies src dst proto pre post cs :
  bytes_ok (Buf.To4 src) → bytes_ok (Buf.To4 dst) → bytes_ok pre → bytes_ok post →
  zlen pre `mod` 2 = 0 → zlen pre + zlen post < 65000 →
  let cs0 := l4Checksum src dst proto (pre ++ [0; 0] ++ post) in
  cs = cs0 ∨ (cs0 = 0 ∧ cs = 65535) →
  onesComplement [pseudo_header src dst proto (zlen (pre ++ put_be 2 cs ++ post)); pre ++ put_be 2 cs ++ post] = 0.
Proof.
  intros Hs Hd Hpre Hpost Heven Hlen cs0 Hcs.
  destruct (pseudo_header_ok src dst proto (zlen (pre ++ [0; 0] ++ post)) Hs Hd) as [Hp Hpl].
  replace (zlen (pre ++ put_be 2 cs ++ post)) with (zlen (pre ++ [0; 0] ++ post))
    by (rewrite !zlen_app; unfold zlen; by rewrite length_put_be).
  pose proof (words_bound pre Hpre). pose proof (words_bound post Hpost). pose proof (words_bound _ Hp) as Hw.
  rewrite Hpl in Hw. change ((12 + 1) / 2) with 6 in Hw.
  assert ((zlen pre + 1) / 2 ≤ 32501 ∧ (zlen post + 1) / 2 ≤ 32501) as [? ?].
  { pose proof (zlen_nonneg pre). pose proof (zlen_nonneg post). split; apply Z.div_le_upper_bound; lia. }
  assert (total [pseudo_header src dst proto (zlen (pre ++ [0; 0] ++ post))] =
    words (pseudo_header src dst proto (zlen (pre ++ [0; 0] ++ post)))) as Ht by (unfold total; cbn [foldr]; lia).
  apply (checksum_verifies [_] pre post); rewrite ?Ht; auto; try lia. cbn [concat]. by rewrite app_nil_r.
Qed.

#[global] Arguments onesComplement : simpl never.
#[global] Arguments pseudo_header : simpl never.
#[global] Arguments l4Checksum : simpl never.
#[global] Arguments words : simpl never.

End Inet.
