(* ===== verification/Pck.v ===== *)
(** The packet-level TCP carrier of [src/internal/utils/network/pckframe.go],
    [pckconn_linux.go] and [pckport.go]: the flag spelling (Module [Flags]),
    the frames it builds and parses (Module [Pck]), the numbering it keeps per
    peer and the send and receive paths (Module [Conn]), the client's source
    ports (Module [Ports]). *)

From Stdlib Require Import Ascii String.
From S2P Require Import Prelude.
From S2P Require Import GoStr.
From S2P Require Import L3Tunnel.
From S2P Require Import Frame.
Open Scope string_scope.
Open Scope list_scope.
Open Scope Z_scope.
Import GoStr.

(** ** TCP flags *)

Module Flags.

Definition FlagFIN : Z := Z.shiftl 1 0.
Definition FlagSYN : Z := Z.shiftl 1 1.
Definition FlagRST : Z := Z.shiftl 1 2.
Definition FlagPSH : Z := Z.shiftl 1 3.
Definition FlagACK : Z := Z.shiftl 1 4.
Definition FlagURG : Z := Z.shiftl 1 5.
Definition FlagECE : Z := Z.shiftl 1 6.
Definition FlagCWR : Z := Z.shiftl 1 7.

Definition flagLetters : list (ascii * Z) :=
  [("F", FlagFIN); ("S", FlagSYN); ("R", FlagRST); ("P", FlagPSH);
   ("A", FlagACK); ("U", FlagURG); ("E", FlagECE); ("C", FlagCWR)]%char.

(** [strings.ToUpper]: the ASCII letters, and the two other runes whose upper
    case is an ASCII letter (U+0131 and U+017F); the rest as it is. *)
Fixpoint ToUpper (s : string) : string :=
  match s with
  | EmptyString => ""
  | String a s' =>
      let n := Z.of_nat (nat_of_ascii a) in
      if (97 <=? n) && (n <=? 122) then String (ascii_of_nat (Z.to_nat (n - 32))) (ToUpper s')
      else match n, s' with
           | 196, String "177" r => String "I" (ToUpper r)   (* U+0131 *)
           | 197, String "191" r => String "S" (ToUpper r)   (* U+017F *)
           | _, _ => String a (ToUpper s')
           end
  end.

Inductive error : Type :=
| errEmptyFlags
| errNotAFlag
| errTooManyFlags
| errRST
| errNoAckNorSyn.

(** The inner loop: the first letter that matches. A rune outside ASCII
    matches none, and neither does its first byte. *)
Fixpoint flag_of (c : ascii) (l : list (ascii * Z)) : option Z :=
  match l with
  | [] => None
  | (fc, f) :: l => if Ascii.eqb fc c then Some f else flag_of c l
  end.

Fixpoint parse_runes (out : Z) (s : string) : result error Z :=
  match s with
  | EmptyString => Ok out
  | String c s =>
      match flag_of c flagLetters with
      | Some f => parse_runes (Z.lor out f) s
      | None => Err errNotAFlag
      end
  end.

Definition ParseTCPFlags (s : string) : result error Z :=
  let s := TrimSpace s in
  if String.eqb s "" then Err errEmptyFlags
  else parse_runes 0 (ToUpper s).

(** [TCPFlags.String]. *)
Definition Flags_String (f : Z) : string :=
  foldr (λ fl b, if Z.land f (snd fl) =? 0 then b else String (fst fl) b) "" flagLetters.

(** The checks on one parsed combination. *)
Definition carries_data (f : Z) : result error Z :=
  if negb (Z.land f FlagRST =? 0) then Err errRST
  else if Z.land f (Z.lor FlagACK FlagSYN) =? 0 then Err errNoAckNorSyn
  else Ok f.

Fixpoint parse_list (l : list string) : result error (list Z) :=
  match l with
  | [] => Ok []
  | s :: l =>
      let? f := ParseTCPFlags s in
      let? f := carries_data f in
      let? out := parse_list l in
      Ok (f :: out)
  end.

Definition ParseTCPFlagList (l : list string) : result error (list Z) :=
  if (length l =? 0)%nat then Ok [Z.lor FlagPSH FlagACK]
  else if (64 <? length l)%nat then Err errTooManyFlags
  else parse_list l.

Definition FormatTCPFlagList (l : list Z) : list string := map Flags_String l.

(** *** Lemmas *)

Definition usable (f : Z) : Prop := 0 ≤ f < 256 ∧ carries_data f = Ok f.

Definition roundtrips (f : Z) : bool :=
  match ParseTCPFlags (Flags_String f) with Ok g => g =? f | Err _ => false end.

Lemma all_roundtrip : forallb roundtrips (seqZ 1 255) = true.
Proof. vm_compute. reflexivity. Qed.

Lemma flags_roundtrip f : 0 < f < 256 → ParseTCPFlags (Flags_String f) = Ok f.
Proof.
  intros Hf. pose proof (proj1 (forallb_forall roundtrips (seqZ 1 255)) all_roundtrip f) as H.
  unfold roundtrips in H. destruct (ParseTCPFlags (Flags_String f)) as [g|e].
  - f_equal. apply Z.eqb_eq, H, list_elem_of_In, elem_of_seqZ. lia.
  - discriminate H. apply list_elem_of_In, elem_of_seqZ. lia.
Qed.

Lemma land_range a b : 0 ≤ a < 256 → 0 ≤ b < 256 → 0 ≤ Z.lor a b < 256.
Proof.
  intros Ha Hb. split; [apply Z.lor_nonneg; lia|].
  destruct (Z.eq_dec (Z.lor a b) 0) as [->|]; [lia|].
  assert (0 ≤ Z.lor a b) by (apply Z.lor_nonneg; lia).
  apply Z.log2_lt_cancel. rewrite Z.log2_lor by lia.
  assert (∀ x, 0 ≤ x < 256 → Z.log2 x < 8) as Hlog.
  { intros x Hx. destruct (Z.eq_dec x 0) as [->|]; [cbn; lia|]. apply Z.log2_lt_pow2; lia. }
  pose proof (Hlog a Ha). pose proof (Hlog b Hb). change (Z.log2 256) with 8. lia.
Qed.

Lemma parse_runes_range s : ∀ out f, 0 ≤ out < 256 → parse_runes out s = Ok f → 0 ≤ f < 256.
Proof.
  induction s as [|c s IH]; intros out f Hout; cbn [parse_runes]; [by intros <-%Ok_inj|].
  destruct (flag_of c flagLetters) as [g|] eqn:E; [|done]. apply IH, land_range; [done|].
  assert (∀ l, Forall (λ x : ascii * Z, 0 ≤ snd x < 256) l → flag_of c l = Some g → 0 ≤ g < 256) as H.
  { intros l Hl. induction Hl as [|[fc h] l Hh Hl IHl]; cbn; [done|].
    destruct (Ascii.eqb fc c); [by intros [= ->]|done]. }
  apply (H flagLetters); [|exact E]. by apply (bool_decide_unpack _).
Qed.

Lemma parse_list_usable l : ∀ out, parse_list l = Ok out → Forall usable out ∧ length out = length l.
Proof.
  induction l as [|s l IH]; intros out; cbn [parse_list length]; [by intros <-%Ok_inj|].
  destruct (ParseTCPFlags s) as [f|] eqn:E; cbn; [|done].
  destruct (carries_data f) as [g|] eqn:Ec; cbn; [|done].
  destruct (parse_list l) as [o|]; cbn; [|done]. intros <-%Ok_inj.
  destruct (IH o eq_refl) as [H1 H2]. cbn. rewrite H2. split; [|done]. constructor; [|done].
  assert (g = f) as -> by (unfold carries_data in Ec; repeat case_match; by inversion Ec).
  split; [|done]. unfold ParseTCPFlags in E. destruct (String.eqb _ _); [done|].
  by apply (parse_runes_range _ 0 f ltac:(lia) E).
Qed.

Lemma parse_list_format l : Forall usable l → parse_list (FormatTCPFlagList l) = Ok l.
Proof.
  induction 1 as [|f l [Hf Hu] Hl IH]; [done|]. unfold FormatTCPFlagList in *. cbn [map parse_list].
  assert (f ≠ 0) by (intros ->; vm_compute in Hu; discriminate).
  rewrite flags_roundtrip by lia. cbn [result_bind]. rewrite Hu. cbn [result_bind]. by rewrite IH.
Qed.

(** Whatever list of flag combinations is accepted from a config, every
    entry of it is one a stack sends data with (an ACK or a SYN, no RST), it
    is never empty, and writing it back and reading it again gives the same
    list. *)
Theorem flag_list_roundtrip l out :
  ParseTCPFlagList l = Ok out →
  Forall usable out ∧ out ≠ [] ∧ (length out ≤ 64)%nat ∧
  ParseTCPFlagList (FormatTCPFlagList out) = Ok out.
Proof.
  unfold ParseTCPFlagList. destruct (Nat.eqb_spec (length l) 0) as [E|E].
  - intros <-%Ok_inj. split_and!; [|done|cbn; lia|vm_compute; reflexivity].
    constructor; [|constructor]. by split; [vm_compute|].
  - destruct (Nat.ltb_spec 64 (length l)) as [|E2]; [done|]. intros Hl.
    destruct (parse_list_usable l out Hl) as [Hu Hlen].
    split_and!; [done|intros ->; cbn in Hlen; lia|lia|].
    unfold FormatTCPFlagList at 1 2. rewrite length_map, Hlen.
    rewrite (proj2 (Nat.eqb_neq _ _)), (proj2 (Nat.ltb_ge _ _)) by lia. by apply parse_list_format.
Qed.

Lemma flag_list_roundtrip_witness :
  ParseTCPFlagList [" pa"; "A"; "PAU"] = Ok [24; 16; 56] ∧
  ParseTCPFlagList (FormatTCPFlagList [24; 16; 56]) = Ok [24; 16; 56].
Proof.
  assert (ParseTCPFlagList [" pa"; "A"; "PAU"] = Ok [24; 16; 56]) as H by (vm_compute; reflexivity).
  split; [exact H|]. apply (flag_list_roundtrip _ _ H).
Defined.

End Flags.

(** ** Frames *)

Module Pck.
Import Buf Inet.

Definition pckEthHeaderLen : nat := 14.
Definition ipv4HeaderLen : nat := 20.
Definition pckTCPHeaderLen : nat := 20.
Definition pckTCPOptionsLen : nat := 12.
Definition pckWindow : Z := 65535.
Definition etherTypeIPv4 : Z := 0x0800.

Record pckSegment : Type := mkSegment {
  SrcIP : list Z;
  SrcPort : Z;
  DstPort : Z;
  Seq : Z;
  TSVal : Z;
  Payload : list Z
}.

Record pckFrameParams : Type := mkParams {
  pSrcMAC : list Z; pDstMAC : list Z;
  pSrcIP : list Z; pDstIP : list Z;
  pSrcPort : Z; pDstPort : Z;
  pSeq : Z; pAck : Z;
  pFlags : Z;
  pTSVal : Z; pTSEcr : Z;
  pID : Z;
  pPayload : list Z
}.

Definition pckFrameLen (payload : nat) : nat :=
  pckEthHeaderLen + ipv4HeaderLen + pckTCPHeaderLen + pckTCPOptionsLen + payload.

Definition pckIPOffset : nat := pckEthHeaderLen.
Definition pckTCPOffset : nat := pckIPOffset + ipv4HeaderLen.
Definition pckPayloadOffset : nat := pckTCPOffset + pckTCPHeaderLen + pckTCPOptionsLen.

(** [ip] and [tcp] are windows of the frame, so their writes are writes at
    [pckIPOffset] and [pckTCPOffset]. *)
Definition assemblePckFrame (buf : list Z) (p : pckFrameParams) : outcome (list Z) :=
  let total := pckFrameLen (length (pPayload p)) in
  let! frame := sub buf 0 total in
  let ip := pckIPOffset in
  let tcp := pckTCPOffset in
  let frame := blit 0 6 (pDstMAC p) frame in
  let frame := blit 6 12 (pSrcMAC p) frame in
  let frame := put16 12 etherTypeIPv4 frame in
  let frame := put8 (ip + 0) (Z.lor (Z.shiftl 4 4) 5) frame in
  let frame := put8 (ip + 1) (Z.shiftl 46 2) frame in
  let frame := put16 (ip + 2) (u16 (Z.of_nat total - Z.of_nat pckEthHeaderLen)) frame in
  let frame := put16 (ip + 4) (pID p) frame in
  let frame := put16 (ip + 6) 0x4000 frame in
  let frame := put8 (ip + 8) 64 frame in
  let frame := put8 (ip + 9) 6 frame in
  let frame := put8 (ip + 11) 0 (put8 (ip + 10) 0 frame) in
  let frame := blit (ip + 12) (ip + 16) (To4 (pSrcIP p)) frame in
  let frame := blit (ip + 16) (ip + 20) (To4 (pDstIP p)) frame in
  let frame := put16 (ip + 10) (onesComplement [slice frame pckIPOffset pckTCPOffset]) frame in
  let off := (pckTCPHeaderLen + pckTCPOptionsLen)%nat in
  let frame := put16 (tcp + 0) (pSrcPort p) frame in
  let frame := put16 (tcp + 2) (pDstPort p) frame in
  let frame := put32 (tcp + 4) (pSeq p) frame in
  let frame := put32 (tcp + 8) (pAck p) frame in
  let frame := put8 (tcp + 12) (u8 (Z.shiftl (u8 (Z.of_nat (off / 4))) 4)) frame in
  let frame := put8 (tcp + 13) (pFlags p) frame in
  let frame := put16 (tcp + 14) pckWindow frame in
  let frame := put8 (tcp + 17) 0 (put8 (tcp + 16) 0 frame) in
  let frame := put8 (tcp + 19) 0 (put8 (tcp + 18) 0 frame) in
  let frame := put8 (tcp + 21) 1 (put8 (tcp + 20) 1 frame) in
  let frame := put8 (tcp + 23) 10 (put8 (tcp + 22) 8 frame) in
  let frame := put32 (tcp + 24) (pTSVal p) frame in
  let frame := put32 (tcp + 28) (pTSEcr p) frame in
  let frame := blit pckPayloadOffset total (pPayload p) frame in
  Ret (put16 (tcp + 16) (l4Checksum (pSrcIP p) (pDstIP p) 6 (drop pckTCPOffset frame)) frame).

(** The builders per layer. *)
Definition buildPckTCP (srcPort dstPort seq ack flags tsVal tsEcr : Z) (src dst payload : list Z) : list Z :=
  let off := (pckTCPHeaderLen + pckTCPOptionsLen)%nat in
  let b := replicate (off + length payload) 0 in
  let b := put16 0 srcPort b in
  let b := put16 2 dstPort b in
  let b := put32 4 seq b in
  let b := put32 8 ack b in
  let b := put8 12 (u8 (Z.shiftl (u8 (Z.of_nat (off / 4))) 4)) b in
  let b := put8 13 flags b in
  let b := put16 14 pckWindow b in
  let b := put8 20 1 b in
  let b := put8 21 1 b in
  let b := put8 22 8 b in
  let b := put8 23 10 b in
  let b := put32 24 tsVal b in
  let b := put32 28 tsEcr b in
  let b := blit off (length b) payload b in
  put16 16 (l4Checksum src dst 6 b) b.

Definition buildPckIPv4 (id : Z) (src dst l4 : list Z) : list Z :=
  let b := replicate (ipv4HeaderLen + length l4) 0 in
  let b := put8 0 (Z.lor (Z.shiftl 4 4) 5) b in
  let b := put8 1 (Z.shiftl 46 2) b in
  let b := put16 2 (u16 (zlen b)) b in
  let b := put16 4 id b in
  let b := put16 6 0x4000 b in
  let b := put8 8 64 b in
  let b := put8 9 6 b in
  let b := blit 12 16 (To4 src) b in
  let b := blit 16 20 (To4 dst) b in
  let b := put16 10 (onesComplement [slice b 0 ipv4HeaderLen]) b in
  blit ipv4HeaderLen (length b) l4 b.

Definition buildPckEthernet (dstMAC srcMAC ip : list Z) : list Z :=
  let b := replicate (pckEthHeaderLen + length ip) 0 in
  let b := blit 0 6 dstMAC b in
  let b := blit 6 12 srcMAC b in
  let b := put16 12 etherTypeIPv4 b in
  blit pckEthHeaderLen (length b) ip b.

(** [tcpTimestamp]: each option moves the index on, so the length of the block
    is fuel enough; running out is counted as a panic, and so excluded by
    [parse_safe]. *)
Fixpoint timestamp_loop (fuel : nat) (opts : list Z) (i : nat) : outcome Z :=
  match fuel with
  | O => Panic
  | S fuel =>
      if (length opts <=? i)%nat then Ret 0
      else
        let! kind := idx opts i in
        if kind =? 0 then Ret 0
        else if kind =? 1 then timestamp_loop fuel opts (i + 1)
        else if (length opts <=? i + 1)%nat then Ret 0
        else
          let! l := idx opts (i + 1) in
          if (l <? 2) || (zlen opts <? Z.of_nat i + l) then Ret 0
          else if (kind =? 8) && (l =? 10) then
            let! b := sub opts (i + 2) (i + 6) in
            Ret (get_be b)
          else timestamp_loop fuel opts (i + Z.to_nat l)
  end.

Definition tcpTimestamp (opts : list Z) : outcome Z := timestamp_loop (S (length opts)) opts 0.

(** [parsePckFrame]; [None] is [seg, false]. *)
Definition parsePckFrame (frame : list Z) (linkLen : nat) (wantPort : Z) : outcome (option pckSegment) :=
  if (length frame <? linkLen + ipv4HeaderLen)%nat then Ret None
  else
    let! etherType := if (linkLen =? pckEthHeaderLen)%nat then sub frame 12 14 else Ret [] in
    if (linkLen =? pckEthHeaderLen)%nat && negb (get_be etherType =? etherTypeIPv4) then Ret None
    else
    let! ip := sub frame linkLen (length frame) in
    let! ip0 := idx ip 0 in
    if negb (Z.shiftr ip0 4 =? 4) then Ret None
    else
    let ihl := (Z.to_nat (Z.land ip0 0x0f) * 4)%nat in
    if (ihl <? ipv4HeaderLen)%nat || (length ip <? ihl)%nat then Ret None
    else
    let! proto := idx ip 9 in
    if negb (proto =? 6) then Ret None
    else
    let! frag := sub ip 6 8 in
    if negb (Z.land (get_be frag) 0x1fff =? 0) then Ret None
    else
    let! len := sub ip 2 4 in
    let total := Z.to_nat (get_be len) in
    if (total <? ihl)%nat || (length ip <? total)%nat then Ret None
    else
    let! tcp := sub ip ihl total in
    if (length tcp <? pckTCPHeaderLen)%nat then Ret None
    else
    let! dport := sub tcp 2 4 in
    let dstPort := get_be dport in
    if negb (dstPort =? wantPort) then Ret None
    else
    let! doff := idx tcp 12 in
    let off := (Z.to_nat (Z.shiftr doff 4) * 4)%nat in
    if (off <? pckTCPHeaderLen)%nat || (length tcp <? off)%nat then Ret None
    else
    let! src := sub ip 12 16 in
    let! sport := sub tcp 0 2 in
    let! seq := sub tcp 4 8 in
    let! opts := sub tcp pckTCPHeaderLen off in
    let! ts := tcpTimestamp opts in
    let! payload := sub tcp off (length tcp) in
    Ret (Some (mkSegment src (get_be sport) dstPort (get_be seq) ts payload)).

(** *** Lemmas *)

Definition params_ok (p : pckFrameParams) : Prop :=
  length (pSrcMAC p) = 6%nat ∧ length (pDstMAC p) = 6%nat ∧
  length (To4 (pSrcIP p)) = 4%nat ∧ length (To4 (pDstIP p)) = 4%nat ∧
  0 ≤ pSrcPort p < 2^16 ∧ 0 ≤ pDstPort p < 2^16 ∧ 0 ≤ pSeq p < 2^32 ∧ 0 ≤ pTSVal p < 2^32.

(** The first bytes of a buffer, one by one. *)
Lemma take_cons (n : nat) (b : list Z) : (S n ≤ length b)%nat → ∃ x r, b = x :: r ∧ (n ≤ length r)%nat.
Proof. destruct b as [|x r]; cbn; [lia|]. intros H. exists x, r. split; [done|lia]. Qed.

(** The headers, with their checksum field [cs] as it stands. *)
Definition ip_bytes (len id : Z) (src dst cs : list Z) : list Z :=
  [69; 184] ++ put_be 2 (u16 len) ++ put_be 2 id ++ [64; 0; 64; 6] ++ cs ++ src ++ dst.

Definition tcp_fields (srcPort dstPort seq ack flags : Z) : list Z :=
  put_be 2 srcPort ++ put_be 2 dstPort ++ put_be 4 seq ++ put_be 4 ack ++ [128; flags; 255; 255].

Definition tcp_rest (tsVal tsEcr : Z) (payload : list Z) : list Z :=
  [0; 0; 1; 1; 8; 10] ++ put_be 4 tsVal ++ put_be 4 tsEcr ++ payload.

Definition eth_bytes (dstMAC srcMAC : list Z) : list Z := dstMAC ++ srcMAC ++ [8; 0].

Ltac frame_cbv :=
  cbv [pckFrameLen pckEthHeaderLen ipv4HeaderLen pckTCPHeaderLen pckTCPOptionsLen pckIPOffset pckTCPOffset
       pckPayloadOffset etherTypeIPv4 pckWindow ip_bytes tcp_fields tcp_rest eth_bytes]; buf_cbv.

Lemma buildPckTCP_eq sp dp seq ack flags tv te src dst payload :
  buildPckTCP sp dp seq ack flags tv te src dst payload =
    let pre := tcp_fields sp dp seq ack flags in
    let post := tcp_rest tv te payload in
    pre ++ put_be 2 (l4Checksum src dst 6 (pre ++ [0; 0] ++ post)) ++ post.
Proof.
  unfold buildPckTCP. cbv zeta. rewrite replicate_add.
  set (pre := tcp_fields sp dp seq ack flags). set (mid := [0; 0] ++ [0; 0; 1; 1; 8; 10] ++ put_be 4 tv ++ put_be 4 te).
  assert (length (replicate (length payload) 0) = length payload) as Hr by apply length_replicate.
  set (r := replicate (length payload) 0) in *. clearbody r.
  assert (length (pre ++ mid) = 32%nat) as Hl by reflexivity.
  match goal with |- context [blit _ (length ?b) payload ?b] =>
    assert (b = (pre ++ mid) ++ r) as -> by (unfold pre, mid; frame_cbv; reflexivity) end.
  change (pckTCPHeaderLen + pckTCPOptionsLen)%nat with 32%nat.
  rewrite blit_tail by (done || (rewrite length_app, Hl; lia)).
  unfold mid. rewrite <- !app_assoc. by rewrite put16_mid.
Qed.

Lemma put16_ip len id s d r v :
  put16 10 v (ip_bytes len id s d [0; 0] ++ r) = ip_bytes len id s d (put_be 2 v) ++ r.
Proof.
  unfold ip_bytes. rewrite <- !app_assoc.
  exact (put16_mid 10 v ([69; 184] ++ put_be 2 (u16 len) ++ put_be 2 id ++ [64; 0; 64; 6]) [0; 0] (s ++ d ++ r)
    eq_refl eq_refl).
Qed.

Lemma put16_frame_ip eth len id s d r v :
  length eth = 14%nat →
  put16 (pckIPOffset + 10) v (eth ++ ip_bytes len id s d [0; 0] ++ r) = eth ++ ip_bytes len id s d (put_be 2 v) ++ r.
Proof.
  intros He. unfold ip_bytes.
  pose proof (put16_mid (pckIPOffset + 10) v (eth ++ [69; 184] ++ put_be 2 (u16 len) ++ put_be 2 id ++ [64; 0; 64; 6])
    [0; 0] (s ++ d ++ r)) as H.
  rewrite <- !app_assoc in H. rewrite <- !app_assoc. apply H; [|done]. rewrite length_app, He. reflexivity.
Qed.

Lemma length_ip_bytes len id s d cs :
  length s = 4%nat → length d = 4%nat → length cs = 2%nat → length (ip_bytes len id s d cs) = 20%nat.
Proof. intros. unfold ip_bytes. rewrite !length_app, !length_put_be. cbn. lia. Qed.

Lemma length_tcp_fields sp dp seq ack flags : length (tcp_fields sp dp seq ack flags) = 16%nat.
Proof. reflexivity. Qed.

Lemma length_tcp_rest tv te payload : length (tcp_rest tv te payload) = (14 + length payload)%nat.
Proof. reflexivity. Qed.

Lemma buildPckIPv4_eq id src dst l4 :
  length (To4 src) = 4%nat → length (To4 dst) = 4%nat →
  buildPckIPv4 id src dst l4 =
    let h cs := ip_bytes (20 + zlen l4) id (To4 src) (To4 dst) cs in
    h (put_be 2 (onesComplement [h [0; 0]])) ++ l4.
Proof.
  intros Hs Hd. unfold buildPckIPv4. cbv zeta. rewrite replicate_add.
  assert (length (replicate (length l4) 0) = length l4) as Hr by apply length_replicate.
  set (r := replicate (length l4) 0) in *. clearbody r.
  assert (zlen (replicate ipv4HeaderLen 0 ++ r) = 20 + zlen l4) as Hz.
  { rewrite zlen_app. unfold zlen. rewrite Hr. reflexivity. }
  apply length4 in Hs as (s0 & s1 & s2 & s3 & Hs). apply length4 in Hd as (d0 & d1 & d2 & d3 & Hd). rewrite Hs, Hd.
  match goal with |- context [put16 10 _ ?b] =>
    assert (b = ip_bytes (20 + zlen l4) id [s0; s1; s2; s3] [d0; d1; d2; d3] [0; 0] ++ r) as ->
  end.
  { rewrite <- Hz. frame_cbv. reflexivity. }
  rewrite put16_ip, slice_app_l by done. change ipv4HeaderLen with 20%nat.
  apply blit_tail; [by apply length_ip_bytes|done|].
  rewrite length_app, length_ip_bytes by done. lia.
Qed.

Lemma buildPckEthernet_eq dstMAC srcMAC ip :
  length dstMAC = 6%nat → length srcMAC = 6%nat → buildPckEthernet dstMAC srcMAC ip = eth_bytes dstMAC srcMAC ++ ip.
Proof.
  intros Hd Hs. unfold buildPckEthernet. cbv zeta. rewrite replicate_add.
  assert (length (replicate (length ip) 0) = length ip) as Hr by apply length_replicate.
  set (r := replicate (length ip) 0) in *. clearbody r.
  apply length6 in Hs as (s0 & s1 & s2 & s3 & s4 & s5 & ->). apply length6 in Hd as (d0 & d1 & d2 & d3 & d4 & d5 & ->).
  match goal with |- context [blit _ (length ?b) ip ?b] =>
    assert (b = eth_bytes [d0; d1; d2; d3; d4; d5] [s0; s1; s2; s3; s4; s5] ++ r) as -> by (frame_cbv; reflexivity) end.
  apply blit_tail; [done|done|]. rewrite length_app. cbn. lia.
Qed.

(** The 66 bytes of headers of a buffer, one by one. *)
Lemma explicit66 n (f : list Z) : length f = (66 + n)%nat → ∃ h r, f = h ++ r ∧ length h = 66%nat ∧ length r = n.
Proof. intros H. exists (take 66 f), (drop 66 f). rewrite take_drop, length_take, length_drop. split_and!; [done|lia|lia]. Qed.

Definition frame_bytes (p : pckFrameParams) : list Z :=
  let h cs := ip_bytes (52 + zlen (pPayload p)) (pID p) (To4 (pSrcIP p)) (To4 (pDstIP p)) cs in
  let pre := tcp_fields (pSrcPort p) (pDstPort p) (pSeq p) (pAck p) (pFlags p) in
  let post := tcp_rest (pTSVal p) (pTSEcr p) (pPayload p) in
  eth_bytes (pDstMAC p) (pSrcMAC p) ++ h (put_be 2 (onesComplement [h [0; 0]])) ++
  pre ++ put_be 2 (l4Checksum (pSrcIP p) (pDstIP p) 6 (pre ++ [0; 0] ++ post)) ++ post.

Lemma assemble_eq buf p :
  params_ok p → (pckFrameLen (length (pPayload p)) ≤ length buf)%nat →
  assemblePckFrame buf p = Ret (frame_bytes p).
Proof.
  intros (Hsm & Hdm & Hs & Hd & _) Hlen. unfold assemblePckFrame.
  rewrite sub_ret by lia. cbn [obind]. cbv zeta.
  destruct (explicit66 (length (pPayload p)) (slice buf 0 (pckFrameLen (length (pPayload p))))) as (h & r & -> & Hh & Hr).
  { rewrite length_slice by lia. reflexivity. }
  do 66 (destruct h as [|? h]; [discriminate Hh|apply (f_equal pred) in Hh; cbn [length pred] in Hh]).
  destruct h; [clear Hh|discriminate Hh].
  unfold frame_bytes. cbv zeta. destruct p as [sm dm s d sp dp sq ak fl tv te id payload].
  cbn [pSrcMAC pDstMAC pSrcIP pDstIP pSrcPort pDstPort pSeq pAck pFlags pTSVal pTSEcr pID pPayload] in *.
  assert (u16 (Z.of_nat (pckFrameLen (length payload)) - Z.of_nat pckEthHeaderLen) = u16 (52 + zlen payload)) as Hu.
  { unfold zlen, pckFrameLen, pckEthHeaderLen, ipv4HeaderLen, pckTCPHeaderLen, pckTCPOptionsLen. f_equal. lia. }
  rewrite Hu. clear Hu.
  apply length6 in Hsm as (m0 & m1 & m2 & m3 & m4 & m5 & ->). apply length6 in Hdm as (n0 & n1 & n2 & n3 & n4 & n5 & ->).
  apply length4 in Hs as (s0 & s1 & s2 & s3 & Hs). apply length4 in Hd as (d0 & d1 & d2 & d3 & Hd). rewrite Hs, Hd.
  set (eth := eth_bytes [n0; n1; n2; n3; n4; n5] [m0; m1; m2; m3; m4; m5]).
  set (ip := λ cs, ip_bytes (52 + zlen payload) id [s0; s1; s2; s3] [d0; d1; d2; d3] cs).
  match goal with |- context [onesComplement [slice ?b _ _]] =>
    eassert (b = eth ++ ip [0; 0] ++ _) as -> by (unfold eth, ip; frame_cbv; reflexivity) end.
  unfold ip at 2 4. rewrite !put16_frame_ip by done. fold ip.
  replace (slice (eth ++ _) pckIPOffset pckTCPOffset) with (ip [0; 0])
    by (by rewrite slice_app_r, slice_app_l by done).
  set (cs := onesComplement [ip [0; 0]]). clearbody cs.
  set (pre := tcp_fields sp dp sq ak fl). set (mid := [0; 0] ++ [0; 0; 1; 1; 8; 10] ++ put_be 4 tv ++ put_be 4 te).
  match goal with |- context [drop pckTCPOffset (blit _ _ payload ?b)] =>
    assert (b = (eth ++ ip (put_be 2 cs) ++ pre ++ mid) ++ r) as -> by (unfold eth, ip, pre, mid; frame_cbv; reflexivity) end.
  assert (length (eth ++ ip (put_be 2 cs) ++ pre ++ mid) = 66%nat) as Hl by reflexivity.
  rewrite !(blit_tail pckPayloadOffset) by (done || (rewrite Hl; done)).
  reflexivity.
Qed.


(** Reading at a fixed offset of a list whose front is known. *)
Lemma sub_app (a m r : list Z) lo hi :
  length a = lo → length m = (hi - lo)%nat → (lo ≤ hi)%nat → sub (a ++ m ++ r) lo hi = Ret m.
Proof.
  intros Ha Hm Hle. rewrite sub_ret by (rewrite ?length_app; lia). f_equal.
  rewrite slice_app_r by lia. replace (lo - length a)%nat with 0%nat by lia. apply slice_app_l. lia.
Qed.

Lemma sub_rest (a r : list Z) lo hi : length a = lo → hi = length (a ++ r) → sub (a ++ r) lo hi = Ret r.
Proof.
  intros Ha ->. rewrite sub_ret by (rewrite ?length_app; lia). f_equal. rewrite slice_end by (rewrite length_app; lia).
  by apply drop_app_length'.
Qed.

Definition segment_of (p : pckFrameParams) : pckSegment :=
  mkSegment (To4 (pSrcIP p)) (pSrcPort p) (pDstPort p) (pSeq p) (pTSVal p) (pPayload p).

Lemma timestamp_rest tv te : 0 ≤ tv < 2^32 → tcpTimestamp ([1; 1; 8; 10] ++ put_be 4 tv ++ put_be 4 te) = Ret tv.
Proof.
  intros Ht. unfold tcpTimestamp, put_be.
  transitivity (Ret (get_be (put_be 4 tv))); [reflexivity|]. by rewrite get_put_be_small.
Qed.

(** What follows the Ethernet header: the parser reads back what was put. *)
Lemma parse_frame_bytes p pad :
  params_ok p → 52 + zlen (pPayload p) < 2^16 →
  parsePckFrame (frame_bytes p ++ pad) pckEthHeaderLen (pDstPort p) = Ret (Some (segment_of p)).
Proof.
  intros (Hsm & Hdm & Hs & Hd & Hsp & Hdp & Hsq & Htv) Hlen.
  unfold frame_bytes. cbv zeta.
  set (len := 52 + zlen (pPayload p)) in *.
  set (c := onesComplement _). set (c' := l4Checksum _ _ _ _). clearbody c c'.
  set (cs := put_be 2 c). set (cs' := put_be 2 c').
  assert (length cs = 2%nat) as Hcs by apply length_put_be. assert (length cs' = 2%nat) as Hcs' by apply length_put_be.
  set (eth := eth_bytes _ _). assert (length eth = 14%nat) as Heth.
  { unfold eth, eth_bytes. rewrite !length_app, Hsm, Hdm. reflexivity. }
  set (tcp := tcp_fields _ _ _ _ _ ++ cs' ++ tcp_rest _ _ _).
  assert (Z.of_nat (length tcp) = 32 + zlen (pPayload p)) as Htcp.
  { unfold tcp. rewrite !length_app, length_tcp_fields, length_tcp_rest, Hcs'. unfold zlen. lia. }
  set (iph := ip_bytes len (pID p) (To4 (pSrcIP p)) (To4 (pDstIP p)) cs).
  assert (length iph = 20%nat) as Hip by by apply length_ip_bytes.
  rewrite <- !app_assoc.
  unfold parsePckFrame, pckEthHeaderLen, ipv4HeaderLen, pckTCPHeaderLen. cbn [Nat.eqb].
  rewrite (proj2 (Nat.ltb_ge _ _)) by (rewrite !length_app; lia).
  assert (sub (eth ++ iph ++ tcp ++ pad) 12 14 = Ret [8; 0]) as ->.
  { unfold eth, eth_bytes. rewrite <- !app_assoc, (app_assoc (pDstMAC p)). apply sub_app; [by rewrite length_app, Hdm, Hsm|done|lia]. }
  cbn [obind]. replace (get_be [8; 0] =? etherTypeIPv4) with true by reflexivity. cbn [negb andb].
  rewrite (sub_rest eth) by done. cbn [obind].
  replace (idx (iph ++ tcp ++ pad) 0) with (Ret 69) by reflexivity. cbn [obind].
  replace (negb (Z.shiftr 69 4 =? 4)) with false by reflexivity.
  replace (Z.to_nat (Z.land 69 15) * 4)%nat with 20%nat by reflexivity.
  rewrite (proj2 (Nat.ltb_ge (length (iph ++ _)) _)) by (rewrite !length_app; lia).
  replace (20 <? 20)%nat with false by reflexivity. cbn [orb].
  replace (idx (iph ++ tcp ++ pad) 9) with (Ret 6) by reflexivity. cbn [obind].
  replace (negb (6 =? 6)) with false by reflexivity.
  assert (sub (iph ++ tcp ++ pad) 6 8 = Ret [64; 0]) as ->.
  { rewrite sub_ret by (rewrite ?length_app; lia). reflexivity. }
  cbn [obind]. replace (negb (Z.land (get_be [64; 0]) 8191 =? 0)) with false by reflexivity.
  assert (sub (iph ++ tcp ++ pad) 2 4 = Ret (put_be 2 (u16 len))) as ->.
  { rewrite sub_ret by (rewrite ?length_app; lia). reflexivity. }
  pose proof (zlen_nonneg (pPayload p)).
  cbn [obind]. rewrite u16_small, get_put_be_small by lia.
  rewrite (proj2 (Nat.ltb_ge _ _)), (proj2 (Nat.ltb_ge _ _)) by (rewrite ?length_app; lia). cbn [orb].
  rewrite sub_app by lia. cbn [obind].
  rewrite (proj2 (Nat.ltb_ge _ _)) by lia.
  assert (sub tcp 2 4 = Ret (put_be 2 (pDstPort p))) as -> by (rewrite sub_ret by lia; reflexivity).
  cbn [obind]. rewrite get_put_be_small, Z.eqb_refl by lia. cbn [negb].
  replace (idx tcp 12) with (Ret 128) by reflexivity. cbn [obind].
  replace (Z.to_nat (Z.shiftr 128 4) * 4)%nat with 32%nat by reflexivity.
  rewrite (proj2 (Nat.ltb_ge _ _)) by lia. replace (32 <? 20)%nat with false by reflexivity. cbn [orb].
  assert (sub (iph ++ tcp ++ pad) 12 16 = Ret (To4 (pSrcIP p))) as ->.
  { unfold iph, ip_bytes. rewrite <- !app_assoc.
    assert (length ([69; 184] ++ put_be 2 (u16 len) ++ put_be 2 (pID p) ++ [64; 0; 64; 6] ++ cs) = 12%nat) as Hl.
    { rewrite !length_app, !length_put_be, Hcs. reflexivity. }
    pose proof (sub_app _ (To4 (pSrcIP p)) (To4 (pDstIP p) ++ tcp ++ pad) 12 16 Hl Hs ltac:(lia)) as E.
    rewrite <- !app_assoc in E. exact E. }
  assert (sub tcp 0 2 = Ret (put_be 2 (pSrcPort p))) as -> by (rewrite sub_ret by lia; reflexivity).
  assert (sub tcp 4 8 = Ret (put_be 4 (pSeq p))) as -> by (rewrite sub_ret by lia; reflexivity).
  assert (sub tcp 20 32 = Ret ([1; 1; 8; 10] ++ put_be 4 (pTSVal p) ++ put_be 4 (pTSEcr p))) as ->.
  { rewrite sub_ret by lia. reflexivity. }
  assert (sub tcp 32 (length tcp) = Ret (pPayload p)) as ->.
  { rewrite sub_ret, slice_end by lia. reflexivity. }
  cbn [obind]. rewrite timestamp_rest by done. cbn [obind]. rewrite !get_put_be_small by lia. reflexivity.
Qed.

(** The timestamp walk ends, on any option block, without a panic. *)
Lemma timestamp_loop_ret fuel : ∀ opts i, (i ≤ length opts < fuel + i)%nat → ∃ v, timestamp_loop fuel opts i = Ret v.
Proof.
  induction fuel as [|fuel IH]; intros opts i Hf; cbn [timestamp_loop]; [exfalso; lia|].
  destruct (Nat.leb_spec (length opts) i) as [|Hi]; [by eexists|].
  rewrite idx_ret by done. cbn [obind]. case_match; [by eexists|]. case_match; [apply IH; lia|].
  destruct (Nat.leb_spec (length opts) (i + 1)) as [|Hi1]; [by eexists|].
  rewrite idx_ret by done. cbn [obind]. set (l := at_ opts (i + 1)).
  destruct (Z.ltb_spec l 2) as [|Hl]; [by eexists|].
  destruct (Z.ltb_spec (zlen opts) (Z.of_nat i + l)) as [|Hl']; [by eexists|]. cbn [orb]. unfold zlen in Hl'.
  destruct ((at_ opts i =? 8) && (l =? 10)) eqn:E.
  - bool_to_prop. rewrite sub_ret by lia. by eexists.
  - apply IH. lia.
Qed.

(** The parser, on any frame. *)
Lemma parse_total frame linkLen wantPort :
  ∃ r, parsePckFrame frame linkLen wantPort = Ret r ∧
    ∀ seg, r = Some seg →
      DstPort seg = wantPort ∧ length (SrcIP seg) = 4%nat ∧
      ∃ before after, frame = before ++ Payload seg ++ after ∧ (linkLen + 40 ≤ length before)%nat.
Proof.
  unfold parsePckFrame, ipv4HeaderLen, pckTCPHeaderLen.
  destruct (Nat.ltb_spec (length frame) (linkLen + 20)) as [|Hlen]; [by eexists|].
  assert (∃ e, (if (linkLen =? pckEthHeaderLen)%nat then sub frame 12 14 else Ret []) = Ret e) as [e ->].
  { destruct (Nat.eqb_spec linkLen pckEthHeaderLen) as [->|]; [|by eexists].
    unfold pckEthHeaderLen in Hlen. rewrite sub_ret by lia. by eexists. }
  cbn [obind]. destruct (_ && negb _); [by eexists|].
  rewrite sub_ret, slice_end by lia. cbn [obind].
  pose proof (length_drop frame linkLen) as Hip. set (ip := drop linkLen frame) in *.
  rewrite idx_ret by lia. cbn [obind]. destruct (negb _); [by eexists|].
  set (ihl := (Z.to_nat _ * 4)%nat).
  destruct (Nat.ltb_spec ihl 20) as [|Hi1]; [by eexists|].
  destruct (Nat.ltb_spec (length ip) ihl) as [|Hi2]; [by eexists|]. cbn [orb].
  rewrite idx_ret by lia. cbn [obind]. destruct (negb _); [by eexists|].
  rewrite sub_ret by lia. cbn [obind]. destruct (negb _); [by eexists|].
  rewrite sub_ret by lia. cbn [obind]. set (total := Z.to_nat _).
  destruct (Nat.ltb_spec total ihl) as [|Ht1]; [by eexists|].
  destruct (Nat.ltb_spec (length ip) total) as [|Ht2]; [by eexists|]. cbn [orb].
  rewrite sub_ret by lia. cbn [obind]. pose proof (length_slice ip ihl total ltac:(lia)) as Htl.
  set (tcp := slice ip ihl total) in *.
  destruct (Nat.ltb_spec (length tcp) 20) as [|Ht3]; [by eexists|].
  rewrite sub_ret by lia. cbn [obind]. destruct (Z.eqb_spec (get_be (slice tcp 2 4)) wantPort) as [Hport|]; [|by eexists].
  cbn [negb]. rewrite idx_ret by lia. cbn [obind]. set (off := (Z.to_nat _ * 4)%nat).
  destruct (Nat.ltb_spec off 20) as [|Ho1]; [by eexists|].
  destruct (Nat.ltb_spec (length tcp) off) as [|Ho2]; [by eexists|]. cbn [orb].
  rewrite !sub_ret by lia. cbn [obind]. unfold tcpTimestamp.
  destruct (timestamp_loop_ret (S (length (slice tcp 20 off))) (slice tcp 20 off) 0 ltac:(cbn; lia)) as [v ->]. cbn [obind].
  eexists. split; [reflexivity|]. intros seg [= <-]. cbn [DstPort SrcIP Payload].
  split; [done|]. split; [rewrite length_slice; lia|].
  exists (take linkLen frame ++ take ihl ip ++ take off tcp), (drop total ip).
  split; [|rewrite !length_app, !length_take; lia].
  rewrite slice_end by lia. rewrite <- (take_drop linkLen frame) at 1. fold ip.
  rewrite <- (take_drop ihl ip) at 1. rewrite (slice_drop ip ihl total) by lia. fold tcp.
  rewrite <- (take_drop off tcp) at 1. by rewrite <- !app_assoc.
Qed.

Lemma parse_safe_ret frame linkLen wantPort : ∃ r, parsePckFrame frame linkLen wantPort = Ret r.
Proof. destruct (parse_total frame linkLen wantPort) as (r & H & _). by exists r. Qed.

(** Nothing that arrives can crash the reader: whatever bytes a frame
    holds, whatever the link header's length, the parser comes to an end
    without an index out of range, the option walk included; and what it does
    hand up is addressed to the wanted port and lies inside the frame, after
    the link, IP and TCP headers. *)
Theorem parse_safe frame linkLen wantPort :
  ∃ r, parsePckFrame frame linkLen wantPort = Ret r ∧
    ∀ seg, r = Some seg →
      DstPort seg = wantPort ∧ length (SrcIP seg) = 4%nat ∧
      ∃ before after, frame = before ++ Payload seg ++ after ∧ (linkLen + 40 ≤ length before)%nat.
Proof. apply parse_total. Qed.

Lemma ip_checksum_verifies len id s d :
  bytes_ok s → bytes_ok d → length s = 4%nat → length d = 4%nat →
  let h := ip_bytes len id s d in onesComplement [h (put_be 2 (onesComplement [h [0; 0]]))] = 0.
Proof.
  intros Hs Hd Hls Hld. cbv zeta. unfold ip_bytes.
  set (pre := [69; 184] ++ put_be 2 (u16 len) ++ put_be 2 id ++ [64; 0; 64; 6]).
  assert (∀ cs, [69; 184] ++ put_be 2 (u16 len) ++ put_be 2 id ++ [64; 0; 64; 6] ++ cs ++ s ++ d = pre ++ cs ++ s ++ d) as Hpre.
  { intros cs. unfold pre. by rewrite <- !app_assoc. }
  rewrite !Hpre. assert (bytes_ok pre) as Hpo.
  { unfold pre. rewrite !bytes_ok_app. split_and!; auto using put_be_ok; by apply (bool_decide_unpack _). }
  assert (bytes_ok (s ++ d)) as Hsd by (rewrite bytes_ok_app; auto).
  pose proof (words_bound _ Hpo). pose proof (words_bound _ Hsd) as Hw.
  assert (zlen (s ++ d) = 8) as Hz by (rewrite zlen_app; unfold zlen; lia). rewrite Hz in Hw.
  change ((zlen pre + 1) / 2) with 5 in *. change ((8 + 1) / 2) with 4 in *.
  apply (checksum_verifies [] pre (s ++ d)); auto; cbn [total foldr concat]; try lia. by apply (bool_decide_unpack _).
Qed.

Definition params_bytes (p : pckFrameParams) : Prop :=
  bytes_ok (To4 (pSrcIP p)) ∧ bytes_ok (To4 (pDstIP p)) ∧ byte_ok (pFlags p) ∧ bytes_ok (pPayload p).

(** Both checksums of an assembled frame are right: a receiver that sums
    the IP header, or the TCP segment behind its pseudo-header, with the
    checksum field in place gets zero, whatever was in the reused buffer. *)
Theorem frame_checksums buf p frame :
  params_ok p → params_bytes p → (pckFrameLen (length (pPayload p)) ≤ length buf)%nat →
  32 + zlen (pPayload p) < 65000 → assemblePckFrame buf p = Ret frame →
  onesComplement [slice frame pckIPOffset pckTCPOffset] = 0 ∧
  let tcp := drop pckTCPOffset frame in
  onesComplement [pseudo_header (pSrcIP p) (pDstIP p) 6 (zlen tcp); tcp] = 0.
Proof.
  intros Hok (Hbs & Hbd & Hbf & Hbp) Hbuf Hlen Ha. rewrite (assemble_eq buf p Hok Hbuf) in Ha. injection Ha as <-.
  destruct Hok as (Hsm & Hdm & Hs & Hd & _). unfold frame_bytes. cbv zeta.
  set (eth := eth_bytes _ _). assert (length eth = 14%nat) as Heth.
  { unfold eth, eth_bytes. rewrite !length_app, Hsm, Hdm. reflexivity. }
  set (pre := tcp_fields _ _ _ _ _). set (post := tcp_rest _ _ _).
  split.
  - rewrite slice_app_r by (unfold pckIPOffset, pckEthHeaderLen; lia).
    rewrite Heth. change (pckIPOffset - 14)%nat with 0%nat.
    rewrite slice_app_l by (rewrite length_ip_bytes by done; reflexivity). by apply ip_checksum_verifies.
  - assert (∀ l r : list Z, length l = 20%nat → drop pckTCPOffset (eth ++ l ++ r) = r) as Hdrop.
    { intros l r Hl. rewrite app_assoc. apply drop_app_length'. rewrite length_app, Heth, Hl. reflexivity. }
    rewrite Hdrop by (by apply length_ip_bytes).
    assert (bytes_ok pre) as Hpre.
    { unfold pre, tcp_fields. rewrite !bytes_ok_app. split_and!; auto using put_be_ok.
      repeat constructor; unfold byte_ok in *; lia. }
    assert (bytes_ok post) as Hpost.
    { unfold post, tcp_rest. rewrite !bytes_ok_app. split_and!; auto using put_be_ok. by apply (bool_decide_unpack _). }
    assert (zlen post = 14 + zlen (pPayload p)) as Hzpost by (unfold zlen, post; rewrite length_tcp_rest; lia).
    apply l4_verifies; auto. change (zlen pre) with 16. lia.
Qed.

(** The frame built in place, into a buffer full of an older packet, is
    byte for byte the one the layer builders make from fresh slices. *)
Theorem assemble_is_layers buf p :
  params_ok p → (pckFrameLen (length (pPayload p)) ≤ length buf)%nat →
  assemblePckFrame buf p =
    Ret (buildPckEthernet (pDstMAC p) (pSrcMAC p)
      (buildPckIPv4 (pID p) (pSrcIP p) (pDstIP p)
        (buildPckTCP (pSrcPort p) (pDstPort p) (pSeq p) (pAck p) (pFlags p) (pTSVal p) (pTSEcr p)
          (pSrcIP p) (pDstIP p) (pPayload p)))).
Proof.
  intros Hok Hbuf. rewrite assemble_eq by done. destruct Hok as (Hsm & Hdm & Hs & Hd & _).
  rewrite buildPckEthernet_eq, buildPckIPv4_eq, buildPckTCP_eq by done. unfold frame_bytes. cbv zeta.
  do 2 f_equal. set (c := l4Checksum _ _ _ _).
  match goal with |- context [20 + zlen ?t] => assert (20 + zlen t = 52 + zlen (pPayload p)) as -> end; [|done].
  unfold zlen. rewrite !length_app, length_tcp_fields, length_tcp_rest, length_put_be. lia.
Qed.

End Pck.

(** ** The connection: numbering, sending, receiving *)

Module Conn.
Import Buf Pck.

(** [net.Addr], as far as the carrier looks into it. *)
Inductive Addr : Type :=
| UDPAddr (ip : list Z) (port : Z)
| IPAddr (ip : list Z)
| OtherAddr.

Record pckPeer : Type := mkPeer {
  seq : Z;
  ack : Z;
  lastTS : Z
}.

(** A peer's key: [addr.String()] of an IPv4 UDP address names its four bytes
    and its port. *)
Definition key : Type := list Z * Z.

(** What [openTx] left: a link-layer socket, a raw IP socket, or neither. *)
Inductive tx_path : Type := TxLink | TxRaw | TxNone.

Record pckConn : Type := mkConn {
  tx : tx_path;
  egLocalIP : list Z;
  egSrcMAC : list Z;
  egNextHop : list Z;
  egLinkLen : nat;
  local : Z;
  flags : list Z;
  flagRot : Z;
  ipID : Z;
  peers : gmap key pckPeer;
  closed : bool
}.

Definition set_peers (m : gmap key pckPeer) (c : pckConn) : pckConn :=
  mkConn (tx c) (egLocalIP c) (egSrcMAC c) (egNextHop c) (egLinkLen c) (local c) (flags c) (flagRot c) (ipID c) m (closed c).

Definition bump (c : pckConn) : pckConn :=
  mkConn (tx c) (egLocalIP c) (egSrcMAC c) (egNextHop c) (egLinkLen c) (local c) (flags c)
    (u32 (flagRot c + 1)) (u32 (ipID c + 1)) (peers c) (closed c).

(** [openTx]: whether the link has a header and a next hop, and whether the
    packet socket opens, turns non-blocking and yields a raw connection; then
    whether the raw IP socket opens. [None] is an error. *)
Definition openTx (ethernet hasNextHop socket nonblock rawconn listens control : bool) : option tx_path :=
  let fallback := if listens && control then Some TxRaw else None in
  if ethernet && hasNextHop then
    if socket then
      if nonblock then if rawconn then Some TxLink else Some TxNone
      else fallback
    else fallback
  else fallback.

Definition timestamp (tsBase ms : Z) : Z := u32 (tsBase + u32 ms).

Definition toUDPAddr (a : Addr) : option key :=
  match a with
  | UDPAddr ip port => if (length (To4 ip) =? 0)%nat then None else Some (ip, port)
  | IPAddr ip => if (length (To4 ip) =? 0)%nat then None else Some (ip, 0)
  | OtherAddr => None
  end.

(** [peerFor]; [start] is the sequence number drawn for a new peer. *)
Definition peerFor (start : Z) (addr : key) (c : pckConn) : key * pckPeer * pckConn :=
  let k := (To4 (fst addr), snd addr) in
  match peers c !! k with
  | Some p => (k, p, c)
  | None => let p := mkPeer start 0 0 in (k, p, set_peers (<[k := p]> (peers c)) c)
  end.

Inductive error : Type := ErrClosed | ErrAddress | ErrSend.

(** What leaves the host: a frame, or a segment the kernel routes. *)
Inductive wire : Type :=
| Frame (frame : list Z)
| Packet (id : Z) (src dst segment : list Z).

(** [WriteTo]: [ts] is the timestamp clock, [start] a fresh sequence number,
    [pooled] the buffer from the pool, [sends] whether the socket takes it. *)
Definition WriteTo (ts start : Z) (pooled : list Z) (sends : bool) (p : list Z) (addr : Addr) (c : pckConn)
    : outcome (result error wire * pckConn) :=
  if closed c then Ret (Err ErrClosed, c)
  else
    match toUDPAddr addr with
    | None => Ret (Err ErrAddress, c)
    | Some dst =>
        let '(k, peer, c) := peerFor start dst c in
        let c := set_peers (<[k := mkPeer (u32 (seq peer + zlen p)) (ack peer) (lastTS peer)]> (peers c)) c in
        let i := (Z.to_nat (flagRot c) mod length (flags c))%nat in
        let! f := idx (flags c) i in
        let c := bump c in
        let id := u16 (ipID c) in
        let n := pckFrameLen (length p) in
        let buf := if (length pooled <? n)%nat then replicate n 0 else pooled in
        let! frame := assemblePckFrame buf
          (mkParams (egSrcMAC c) (egNextHop c) (egLocalIP c) (To4 (fst dst)) (local c) (u16 (snd dst))
             (seq peer) (ack peer) f ts (lastTS peer) id p) in
        match tx c with
        | TxLink => Ret (if sends then Ok (Frame frame) else Err ErrSend, c)
        | TxRaw =>
            Ret (if sends then Ok (Packet id (egLocalIP c) (To4 (fst dst)) (drop pckTCPOffset frame)) else Err ErrSend, c)
        | TxNone => Panic
        end
    end.

(** One turn of the loop of [ReadFrom] on a frame; [cap] is [len(p)]. *)
Definition receive (start : Z) (cap : nat) (frame : list Z) (c : pckConn)
    : outcome (option (list Z * key) * pckConn) :=
  let! r := parsePckFrame frame (egLinkLen c) (local c) in
  match r with
  | None => Ret (None, c)
  | Some seg =>
      if (length (Payload seg) =? 0)%nat then Ret (None, c)
      else if Tunnel.ip_equal (SrcIP seg) (egLocalIP c) && (SrcPort seg =? local c) then Ret (None, c)
      else
        let addr := (SrcIP seg, SrcPort seg) in
        let '(k, peer, c) := peerFor start addr c in
        let next := u32 (Seq seg + zlen (Payload seg)) in
        let peer := if (ack peer =? 0) || (0 <? int32 (u32 (next - ack peer)))
                    then mkPeer (seq peer) next (lastTS peer) else peer in
        let peer := if negb (TSVal seg =? 0) then mkPeer (seq peer) (ack peer) (TSVal seg) else peer in
        Ret (Some (take cap (Payload seg), addr), set_peers (<[k := peer]> (peers c)) c)
  end.

(** [ReadFrom] over the frames the socket hands up; [None] is a reader still
    waiting. *)
Fixpoint ReadFrom (start : nat → Z) (cap : nat) (frames : list (list Z)) (c : pckConn)
    : outcome (option (list Z * key) * pckConn) :=
  match frames with
  | [] => Ret (None, c)
  | frame :: frames =>
      let! r := receive (start (length frames)) cap frame c in
      match r with
      | (None, c) => ReadFrom start cap frames c
      | (Some d, c) => Ret (Some d, c)
      end
  end.

(** *** Lemmas *)

Lemma receive_ret start cap frame c : ∃ r, receive start cap frame c = Ret r.
Proof.
  unfold receive. destruct (parse_safe_ret frame (egLinkLen c) (local c)) as [r ->]. cbn [obind].
  repeat case_match; by eexists.
Qed.

(** A side that can send at the link layer. *)
Definition can_send (c : pckConn) : Prop :=
  closed c = false ∧ tx c = TxLink ∧ length (egSrcMAC c) = 6%nat ∧ length (egNextHop c) = 6%nat ∧
  length (To4 (egLocalIP c)) = 4%nat ∧ 0 ≤ local c < 2^16 ∧ flags c ≠ [] ∧
  (∀ k p, peers c !! k = Some p → 0 ≤ seq p < 2^32).

Lemma peerFor_spec start addr c :
  ∃ c', peerFor start addr c =
    ((To4 (fst addr), snd addr), default (mkPeer start 0 0) (peers c !! (To4 (fst addr), snd addr)), c') ∧
    ∃ m, c' = set_peers m c ∧ ∀ p, <[(To4 (fst addr), snd addr) := p]> m = <[(To4 (fst addr), snd addr) := p]> (peers c).
Proof.
  unfold peerFor. destruct (peers c !! _) as [p|] eqn:E.
  - exists c. split; [done|]. exists (peers c). split; [by destruct c|done].
  - eexists. split; [done|]. eexists. split; [reflexivity|]. intros p. apply insert_insert_eq.
Qed.

(** Frames that are not the tunnel's are read past, whatever they hold. *)
Lemma ReadFrom_skips start cap junk frames c c' d :
  (∀ f, f ∈ junk → ∀ s, receive s cap f c = Ret (None, c)) →
  (∀ s, receive s cap d c = c') → (∃ x c2, c' = Ret (Some x, c2)) →
  ReadFrom start cap (junk ++ d :: frames) c = c'.
Proof.
  intros Hj Hd (x & c2 & ->). induction junk as [|f junk IH]; cbn [app ReadFrom].
  - by rewrite Hd.
  - rewrite Hj by apply list_elem_of_here. cbn [obind]. apply IH. intros g Hg. apply Hj. by apply list_elem_of_further.
Qed.

(** The peer's numbering as the code sees it: what is kept, or a fresh one. *)
Definition numbering (start : Z) (c : pckConn) (k : key) : pckPeer := default (mkPeer start 0 0) (peers c !! k).

Lemma WriteTo_sends ts start pooled p ip port c :
  can_send c → length (To4 ip) = 4%nat → 0 ≤ port < 2^16 → 0 ≤ ts < 2^32 → 0 ≤ start < 2^32 →
  ∃ f c', let n := numbering start c (To4 ip, port) in
    let params := mkParams (egSrcMAC c) (egNextHop c) (egLocalIP c) (To4 ip) (local c) port (seq n) (ack n) f ts (lastTS n)
                    (u16 (u32 (ipID c + 1))) p in
    params_ok params ∧
    WriteTo ts start pooled true p (UDPAddr ip port) c = Ret (Ok (Frame (frame_bytes params)), c') ∧
    peers c' = <[(To4 ip, port) := mkPeer (u32 (seq n + zlen p)) (ack n) (lastTS n)]> (peers c).
Proof.
  intros (Hcl & Htx & Hsm & Hdm & Hl & Hlp & Hfl & Hseq) Hip Hport Hts Hst.
  assert (Z.to_nat (flagRot c) mod length (flags c) < length (flags c))%nat as Hrot.
  { apply Nat.mod_upper_bound. destruct (flags c); [done|cbn; lia]. }
  destruct (lookup_lt_is_Some_2 (flags c) _ Hrot) as [f Hf].
  destruct (peerFor_spec start (ip, port) c) as (c1 & Hpf & m & -> & Hm). cbn [fst snd] in *.
  exists f. eexists. cbv zeta. set (n := numbering start c (To4 ip, port)). set (params := mkParams _ _ _ _ _ _ _ _ _ _ _ _ _).
  assert (0 ≤ seq n < 2^32) as Hsn.
  { unfold n, numbering. destruct (peers c !! _) as [q|] eqn:E; cbn; [by eapply Hseq|done]. }
  assert (To4 (To4 ip) = To4 ip) as Hii by (by apply To4_four).
  assert (params_ok params) as Hok.
  { unfold params_ok, params. cbn. rewrite Hii. split_and!; auto; lia. }
  split; [exact Hok|]. unfold WriteTo. rewrite Hcl. cbn [toUDPAddr]. rewrite Hip. cbn [Nat.eqb]. rewrite Hpf.
  cbn [set_peers bump flags flagRot ipID egSrcMAC egNextHop egLocalIP local tx peers].
  unfold idx. rewrite Hf. cbn [obind fst snd]. rewrite (u16_small port) by done.
  fold (numbering start c (To4 ip, port)). fold n. fold params.
  rewrite (assemble_eq _ params Hok); [|].
  - cbn [obind]. rewrite Htx. split; [reflexivity|]. cbn [peers]. apply Hm.
  - unfold params. cbn [pPayload]. destruct (Nat.ltb_spec (length pooled) (pckFrameLen (length p))); rewrite ?length_replicate; lia.
Qed.

Lemma receive_accepts start cap frame seg d :
  parsePckFrame frame (egLinkLen d) (local d) = Ret (Some seg) → Payload seg ≠ [] → TSVal seg ≠ 0 →
  Tunnel.ip_equal (SrcIP seg) (egLocalIP d) && (SrcPort seg =? local d) = false →
  let k := (To4 (SrcIP seg), SrcPort seg) in
  let n := numbering start d k in
  let next := u32 (Seq seg + zlen (Payload seg)) in
  ∃ d', receive start cap frame d = Ret (Some (take cap (Payload seg), (SrcIP seg, SrcPort seg)), d') ∧
    peers d' = <[k := mkPeer (seq n)
      (if (ack n =? 0) || (0 <? int32 (u32 (next - ack n))) then next else ack n) (TSVal seg)]> (peers d).
Proof.
  intros Hp Hpay Hts Hself. cbv zeta. unfold receive. rewrite Hp. cbn [obind].
  destruct (Payload seg) as [|x l] eqn:El; [done|]. cbn [length Nat.eqb]. rewrite Hself.
  destruct (peerFor_spec start (SrcIP seg, SrcPort seg) d) as (d1 & Hpf & m & -> & Hm). cbn [fst snd] in *. rewrite Hpf.
  fold (numbering start d (To4 (SrcIP seg), SrcPort seg)). rewrite (proj2 (Z.eqb_neq _ _)) by done. cbn [negb].
  eexists. split; [reflexivity|]. cbn [peers set_peers]. rewrite Hm. destruct (_ || _); reflexivity.
Qed.

(** C9: a datagram crosses and the two ends' numbers agree. What one carrier
    writes to another's address comes out of the other's read, whole and from
    the writer's own address and port, even when the capture carries trailing
    padding; the writer's sequence number moves on by exactly the bytes sent,
    and a reader that had acknowledged everything so far (or had seen nothing)
    acknowledges exactly the writer's next sequence number, and echoes its
    timestamp. *)
Theorem pck_carries ts start pooled p ip port c d pad start' cap :
  can_send c → length (To4 ip) = 4%nat → 0 ≤ port < 2^16 → 0 < ts < 2^32 → 0 ≤ start < 2^32 →
  0 < zlen p → 52 + zlen p < 2^16 → (length p ≤ cap)%nat →
  egLinkLen d = pckEthHeaderLen → local d = port →
  Tunnel.ip_equal (To4 (egLocalIP c)) (egLocalIP d) && (local c =? local d) = false →
  let from := (To4 (egLocalIP c), local c) in
  ∃ frame c' d' q q',
    WriteTo ts start pooled true p (UDPAddr ip port) c = Ret (Ok (Frame frame), c') ∧
    ReadFrom start' cap [frame ++ pad] d = Ret (Some (p, from), d') ∧
    peers c' !! (To4 ip, port) = Some q ∧ peers d' !! from = Some q' ∧
    seq q = u32 (seq (numbering start c (To4 ip, port)) + zlen p) ∧ lastTS q' = ts ∧
    (ack (numbering (start' 0%nat) d from) = 0 ∨
     ack (numbering (start' 0%nat) d from) = seq (numbering start c (To4 ip, port)) → ack q' = seq q).
Proof.
  intros Hc Hip Hport Hts Hst Hp Hlen Hcap Hlink Hloc Hself from.
  destruct (WriteTo_sends ts start pooled p ip port c Hc Hip Hport ltac:(lia) Hst) as (f & c' & Hok & HW & Hpeers).
  set (n := numbering start c (To4 ip, port)) in *. set (params := mkParams _ _ _ _ _ _ _ _ _ _ _ _ _) in *.
  pose proof (parse_frame_bytes params pad Hok Hlen) as Hparse. rewrite <- Hlink in Hparse.
  change (pDstPort params) with port in Hparse. rewrite <- Hloc in Hparse.
  destruct (receive_accepts (start' 0%nat) cap _ _ d Hparse) as (d' & Hrecv & Hd').
  { cbn. intros ->. unfold zlen in Hp. cbn in Hp. lia. }
  { cbn. lia. }
  { exact Hself. }
  change (receive (start' 0%nat) cap (frame_bytes params ++ pad) d =
    Ret (Some (take cap p, (To4 (egLocalIP c), local c)), d')) in Hrecv.
  change (let k := (To4 (To4 (egLocalIP c)), local c) in
    peers d' = <[k := mkPeer (seq (numbering (start' 0%nat) d k))
      (if (ack (numbering (start' 0%nat) d k) =? 0) ||
          (0 <? int32 (u32 (u32 (seq n + zlen p) - ack (numbering (start' 0%nat) d k))))
       then u32 (seq n + zlen p) else ack (numbering (start' 0%nat) d k)) ts]> (peers d)) in Hd'. cbv zeta in Hd'.
  rewrite To4_four in Hd' by apply Hc. fold from in Hrecv, Hd'. rewrite take_ge in Hrecv by done.
  exists (frame_bytes params), c', d'. eexists _, _. split; [exact HW|].
  split; [cbn [ReadFrom length]; rewrite Hrecv; reflexivity|].
  rewrite Hpeers, Hd', !lookup_insert_eq. split_and!; [reflexivity|reflexivity|reflexivity|reflexivity|].
  cbn [ack seq]. intros Ha. destruct (Z.eqb_spec (ack (numbering (start' 0%nat) d from)) 0) as [|Hn]; [done|].
  destruct Ha as [|Ha]; [done|]. cbn [orb]. rewrite Ha.
  replace (0 <? int32 (u32 (u32 (seq n + zlen p) - seq n))) with true; [done|].
  unfold u32. rewrite Zminus_mod_idemp_l. replace (seq n + zlen p - seq n) with (zlen p) by lia.
  rewrite Z.mod_small by lia. rewrite int32_small by lia. symmetry. apply Z.ltb_lt. lia.
Qed.

Lemma no_self : Tunnel.ip_equal (To4 [10; 0; 0; 1]) [10; 0; 0; 2] && (40000 =? 443) = false.
Proof. reflexivity. Qed.

Definition end_a : pckConn :=
  mkConn TxLink [10; 0; 0; 1] [2; 0; 0; 0; 0; 1] [2; 0; 0; 0; 0; 9] 14 40000 [24; 16] 0 0 ∅ false.
Definition end_b : pckConn :=
  mkConn TxLink [10; 0; 0; 2] [2; 0; 0; 0; 0; 2] [2; 0; 0; 0; 0; 9] 14 443 [24] 0 0 ∅ false.

Lemma pck_carries_witness :
  ∃ frame c' d',
    WriteTo 77 4294967295 [] true [1; 2; 3] (UDPAddr [10; 0; 0; 2] 443) end_a = Ret (Ok (Frame frame), c') ∧
    ReadFrom (λ _, 5) 1500 [frame ++ [0; 0; 0]] end_b = Ret (Some ([1; 2; 3], ([10; 0; 0; 1], 40000)), d').
Proof.
  destruct (pck_carries 77 4294967295 [] [1; 2; 3] [10; 0; 0; 2] 443 end_a end_b [0; 0; 0] (λ _, 5) 1500)
    as (frame & c' & d' & _ & _ & HW & HR & _).
  - unfold can_send. split_and!; try reflexivity; try done.
  - reflexivity.
  - lia.
  - lia.
  - lia.
  - reflexivity.
  - reflexivity.
  - cbn. lia.
  - reflexivity.
  - reflexivity.
  - exact no_self.
  - by exists frame, c', d'.
Defined.

Definition sample : pckFrameParams :=
  mkParams [2; 0; 0; 0; 0; 1] [2; 0; 0; 0; 0; 9] [10; 0; 0; 1] [10; 0; 0; 2] 40000 443 7 9 24 5 6 1 [1; 2; 3].

Lemma sample_ok : params_ok sample.
Proof. unfold params_ok. cbn. split_and!; reflexivity || lia. Qed.

Lemma frame_checksums_witness :
  ∃ frame, assemblePckFrame (replicate 100 255) sample = Ret frame ∧
    Inet.onesComplement [slice frame pckIPOffset pckTCPOffset] = 0.
Proof.
  assert (assemblePckFrame (replicate 100 255) sample = Ret (frame_bytes sample)) as H.
  { apply assemble_eq; [exact sample_ok|]. by apply Nat.leb_le. }
  exists (frame_bytes sample). split; [exact H|].
  refine (proj1 (frame_checksums (replicate 100 255) sample (frame_bytes sample) sample_ok _ _ _ H)).
  - unfold params_bytes. split_and!; by apply (bool_decide_unpack _).
  - by apply Nat.leb_le.
  - reflexivity.
Defined.

Lemma assemble_is_layers_witness :
  assemblePckFrame (replicate 100 255) sample =
    Ret (buildPckEthernet (pDstMAC sample) (pSrcMAC sample)
      (buildPckIPv4 1 [10; 0; 0; 1] [10; 0; 0; 2]
        (buildPckTCP 40000 443 7 9 24 5 6 [10; 0; 0; 1] [10; 0; 0; 2] [1; 2; 3]))).
Proof. apply (assemble_is_layers (replicate 100 255) sample sample_ok). apply Nat.leb_le. reflexivity. Defined.

End Conn.

(** ** The client's source ports *)

Module Ports.

Definition pckPortSpan : nat := 128.

(** [pckClientPortBase]; the first two bytes of the token's hash. *)
Definition pckClientPortBase (sum : list Z) : Z :=
  u16 (32768 + get_be (take 2 sum) `mod` (28000 - Z.of_nat pckPortSpan)).

(** The scan of [nextPckClientPort] from the [i]-th port on, [n] left. *)
Fixpoint scan (n : nat) (base i : Z) (inUse : gset Z) : option Z :=
  match n with
  | O => None
  | S n =>
      let port := u16 (base + i) in
      if decide (port ∈ inUse) then scan n base (i + 1) inUse else Some port
  end.

Definition nextPckClientPort (base : Z) (inUse : gset Z) : option Z * gset Z :=
  match scan pckPortSpan base 0 inUse with
  | Some port => (Some port, {[port]} ∪ inUse)
  | None => (None, inUse)
  end.

Definition releasePckClientPort (port : Z) (inUse : gset Z) : gset Z := inUse ∖ {[port]}.

Definition portSpec (lo hi : Z) : string :=
  if lo =? hi then Itoa lo else Itoa lo +:+ ":" +:+ Itoa hi.

Lemma scan_spec base inUse : ∀ n i, 0 ≤ base → 0 ≤ i → base + i + Z.of_nat n ≤ 2^16 →
  match scan n base i inUse with
  | Some port => base + i ≤ port < base + i + Z.of_nat n ∧ port ∉ inUse
  | None => ∀ j, base + i ≤ j < base + i + Z.of_nat n → j ∈ inUse
  end.
Proof.
  induction n as [|n IH]; intros i Hb Hi Hle; cbn [scan]; [intros; lia|].
  rewrite u16_small by lia. destruct (decide (base + i ∈ inUse)) as [Hin|Hout]; [|split; [lia|done]].
  specialize (IH (i + 1) Hb ltac:(lia) ltac:(lia)). destruct (scan n base (i + 1) inUse) as [port|].
  - destruct IH. split; [lia|done].
  - intros j Hj. destruct (decide (j = base + i)) as [->|]; [done|]. apply IH. lia.
Qed.

(** Claims and releases by the carriers of one process, in any order: [held]
    lists the ports carriers hold. *)
Inductive step (base : Z) : list Z * gset Z → list Z * gset Z → Prop :=
| step_claim held inUse port inUse' :
    nextPckClientPort base inUse = (Some port, inUse') → step base (held, inUse) (port :: held, inUse')
| step_release held1 port held2 inUse :
    step base (held1 ++ port :: held2, inUse) (held1 ++ held2, releasePckClientPort port inUse).

Definition held_ok (base : Z) (s : list Z * gset Z) : Prop :=
  NoDup (fst s) ∧ (∀ p, p ∈ snd s ↔ p ∈ fst s) ∧ (∀ p, p ∈ fst s → base ≤ p < base + Z.of_nat pckPortSpan).

Lemma base_range sum : bytes_ok sum → 32768 ≤ pckClientPortBase sum ≤ 60639.
Proof.
  intros Hs. unfold pckClientPortBase, pckPortSpan. pose proof (Z.mod_pos_bound (get_be (take 2 sum)) 27872).
  change (28000 - Z.of_nat 128) with 27872. rewrite u16_small by lia. lia.
Qed.

Lemma step_held_ok base s s' : 0 ≤ base ≤ 60639 → held_ok base s → step base s s' → held_ok base s'.
Proof.
  intros Hb (Hnd & Hin & Hr) Hstep. destruct Hstep as [held inUse port inUse' Hn|held1 port held2 inUse]; cbn [fst snd] in *.
  - unfold nextPckClientPort in Hn. pose proof (scan_spec base inUse pckPortSpan 0 ltac:(lia) ltac:(lia)) as Hs.
    unfold pckPortSpan in *. destruct (scan 128 base 0 inUse) as [q|]; [|done]. injection Hn as -> <-.
    destruct (Hs ltac:(lia)) as [Hq Hout]. split_and!; cbn [fst snd].
    + constructor; [by rewrite <- Hin|done].
    + intros p. rewrite elem_of_union, elem_of_singleton, elem_of_cons, Hin. done.
    + intros p Hp. unfold pckPortSpan. apply elem_of_cons in Hp as [->|Hp]; [lia|]. by apply Hr.
  - apply NoDup_app in Hnd as (Hn1 & Hd & Hn2). apply NoDup_cons in Hn2 as [Hp Hn2]. split_and!; cbn [fst snd].
    + apply NoDup_app. split_and!; [done| |done]. intros x Hx Hx2. apply (Hd x Hx). set_solver.
    + intros p. unfold releasePckClientPort. rewrite elem_of_difference, elem_of_singleton, Hin.
      rewrite !elem_of_app, elem_of_cons. split; [naive_solver|].
      intros [H|H]; (split; [by auto|]); intros ->; [|done]. apply (Hd port H). apply list_elem_of_here.
    + intros p Hin'. apply Hr. set_solver.
Qed.

(** No two carriers ever share a source port. From a process that holds
    none, after any sequence of claims and releases, the ports held are all
    different, all inside the tunnel's 128-port range (which stays below
    65536 whatever the token), and exactly the ones marked in use; and a claim
    fails only when all 128 are. *)
Theorem ports_never_shared sum s :
  bytes_ok sum → star (step (pckClientPortBase sum)) ([], ∅) s →
  NoDup (fst s) ∧
  (∀ p, p ∈ fst s → pckClientPortBase sum ≤ p < pckClientPortBase sum + Z.of_nat pckPortSpan ∧ p < 2^16) ∧
  (∀ inUse', nextPckClientPort (pckClientPortBase sum) (snd s) = (None, inUse') →
     ∀ p, pckClientPortBase sum ≤ p < pckClientPortBase sum + Z.of_nat pckPortSpan → p ∈ fst s).
Proof.
  intros Hsum Hstar. pose proof (base_range sum Hsum) as Hb. set (base := pckClientPortBase sum) in *.
  assert (held_ok base s) as (Hnd & Hin & Hr).
  { refine (star_invariant (step base) (held_ok base) _ _ _ Hstar _).
    - intros a b. apply step_held_ok. lia.
    - split_and!; cbn; [constructor|set_solver|]. intros p Hp. by apply not_elem_of_nil in Hp. }
  split; [done|]. split.
  - intros p Hp. specialize (Hr p Hp). unfold pckPortSpan in *. lia.
  - intros u Hn p Hp. apply Hin. unfold nextPckClientPort in Hn.
    pose proof (scan_spec base (snd s) pckPortSpan 0 ltac:(lia) ltac:(lia)) as Hs. unfold pckPortSpan in *.
    destruct (scan 128 base 0 (snd s)); [done|]. apply (Hs ltac:(lia)). lia.
Qed.

Lemma ports_never_shared_witness :
  NoDup [32769; 32768].
Proof.
  assert (star (step (pckClientPortBase [0; 0])) ([], ∅) ([32769; 32768], {[32769]} ∪ ({[32768]} ∪ ∅))) as H.
  { eapply star_step; [by apply step_claim|]. eapply star_step; [by apply step_claim|]. apply star_refl. }
  exact (proj1 (ports_never_shared [0; 0] _ ltac:(by apply (bool_decide_unpack _)) H)).
Defined.

End Ports.
