(* ===== verification/Spoof.v ===== *)
(** The forged-source carrier of [src/internal/utils/network/spoofpacket.go],
    [spoofframe.go] and [spoofconn_linux.go]: its profiles, the headers each
    one puts around a datagram and takes off again, the padding and fake TLS
    record, the splitting into IP fragments, and the send and receive paths
    (Module [Spoof]). Random choices are arguments. *)

From Stdlib Require Import Ascii String.
From S2P Require Import Prelude.
From S2P Require Import L3Tunnel.
From S2P Require Import Frame.
Open Scope string_scope.
Open Scope list_scope.
Open Scope Z_scope.

Module Spoof.
Import Buf Inet.

(** ** Profiles *)

Inductive SpoofProfile : Type :=
| SpoofProfileUDP
| SpoofProfileTCP
| SpoofProfileICMP
| SpoofProfileICMPv6
| SpoofProfileIPIP
| SpoofProfileProto58
| SpoofProfileGRE.

#[export] Instance SpoofProfile_eq_dec : EqDecision SpoofProfile.
Proof. solve_decision. Defined.

Definition is_profile (p q : SpoofProfile) : bool := bool_decide (p = q).

(** [None] is the error. *)
Definition ParseSpoofProfile (s : string) : option SpoofProfile :=
  if String.eqb s "" || String.eqb s "udp" then Some SpoofProfileUDP
  else if String.eqb s "tcp" then Some SpoofProfileTCP
  else if String.eqb s "icmp" then Some SpoofProfileICMP
  else if String.eqb s "icmpv6" then Some SpoofProfileICMPv6
  else if String.eqb s "ipip" then Some SpoofProfileIPIP
  else if String.eqb s "proto58" then Some SpoofProfileProto58
  else if String.eqb s "gre" then Some SpoofProfileGRE
  else None.

Definition ResolveSpoofDirections (profile uplink downlink : string) : SpoofProfile * SpoofProfile :=
  let pick dir :=
    let v := if String.eqb dir "" then profile else dir in
    match ParseSpoofProfile v with
    | None => SpoofProfileUDP
    | Some p => p
    end in
  (pick uplink, pick downlink).

Definition ipProtocol (p : SpoofProfile) : Z :=
  match p with
  | SpoofProfileTCP => 6
  | SpoofProfileICMP => 1
  | SpoofProfileICMPv6 | SpoofProfileProto58 => 58
  | SpoofProfileIPIP => 4
  | SpoofProfileGRE => 47
  | _ => 17
  end.

Definition hasPortDemux (p : SpoofProfile) : bool :=
  negb (is_profile p SpoofProfileIPIP) && negb (is_profile p SpoofProfileGRE) && negb (is_profile p SpoofProfileProto58).

Definition isICMPFamily (p : SpoofProfile) : bool :=
  is_profile p SpoofProfileICMP || is_profile p SpoofProfileICMPv6.

Definition icmpTypeEchoReply : Z := 0.
Definition icmpTypeEchoRequest : Z := 8.
Definition icmpv6TypeEchoRequest : Z := 128.
Definition icmpv6TypeEchoReply : Z := 129.
Definition icmpEchoHeaderLen : nat := 8.
Definition greHeaderLen : nat := 4.
Definition greProtoIPv4 : Z := 0x0800.

(** Request and reply. *)
Definition icmpEchoTypes (p : SpoofProfile) : Z * Z :=
  if is_profile p SpoofProfileICMPv6 then (icmpv6TypeEchoRequest, icmpv6TypeEchoReply)
  else (icmpTypeEchoRequest, icmpTypeEchoReply).

Definition profileL4Len (p : SpoofProfile) : nat :=
  match p with
  | SpoofProfileTCP => 20
  | SpoofProfileIPIP | SpoofProfileProto58 => 0
  | SpoofProfileGRE => greHeaderLen
  | _ => 8
  end.

Definition spoofOverhead (p : SpoofProfile) : nat := 20 + profileL4Len p.

(** [spoofIdentity]: the port half; [sum] is the hash of the token. *)
Definition identityPort (sum : list Z) : Z :=
  let port := get_be (slice sum 4 6) in
  if port <? 1024 then u16 (port + 1024) else port.

(** ** Obfuscation *)

Record SpoofDPI : Type := mkDPI {
  TTLJitter : bool;
  RandomDSCP : bool;
  ShufflePort : bool;
  PortMin : Z;
  PortMax : Z;
  Padding : bool;
  PaddingMax : Z;
  FakeTLS : bool
}.

(** What one datagram draws: the padding's length and bytes, the source port,
    the identification, the indices into the pools. *)
Record draws : Type := mkDraws {
  dPad : Z;
  dNoise : nat → Z;
  dPort : Z;
  dID : Z;
  dTTL : nat;
  dDSCP : nat
}.

Definition ttlPool : list Z := [64; 128; 255].
Definition dscpPool : list Z := [0x00; 0x28; 0x10].

Definition pickTTL (d : SpoofDPI) (r : draws) : Z := if TTLJitter d then at_ ttlPool (dTTL r) else 64.
Definition pickDSCP (d : SpoofDPI) (r : draws) : Z := if RandomDSCP d then at_ dscpPool (dDSCP r) else 0.

(** The range [pickSrcPort] draws from. *)
Definition portRange (d : SpoofDPI) : Z * Z :=
  let lo := if PortMin d =? 0 then 49152 else PortMin d in
  let hi := if PortMax d <=? lo then 65535 else PortMax d in
  (lo, hi).

Definition pickSrcPort (d : SpoofDPI) (fixed : Z) (r : draws) : Z :=
  if negb (ShufflePort d) then fixed
  else u16 (fst (portRange d) + u16 (dPort r)).

Definition tlsFakeHeaderLen : nat := 5.

Definition applyFakeTLS (p : list Z) : list Z :=
  let b := replicate (tlsFakeHeaderLen + length p) 0 in
  let b := put8 0 0x17 b in
  let b := put8 2 0x03 (put8 1 0x03 b) in
  let b := put16 3 (u16 (zlen p)) b in
  blit tlsFakeHeaderLen (length b) p b.

Definition stripFakeTLS (p : list Z) : option (list Z) :=
  if (length p <? tlsFakeHeaderLen)%nat || negb (at_ p 0 =? 0x17) || negb (at_ p 1 =? 0x03) || negb (at_ p 2 =? 0x03)
  then None
  else Some (drop tlsFakeHeaderLen p).

Definition padMax (max : Z) : Z := if max =? 0 then 64 else max.

(** [applyPadding]: [dPad] is [rand.IntN(max)]. *)
Definition applyPadding (p : list Z) (r : draws) : list Z :=
  let padLen := (Z.to_nat (dPad r) + 1)%nat in
  p ++ map (dNoise r) (seq 0 (padLen - 1)) ++ [u8 (Z.of_nat padLen)].

Definition stripPadding (p : list Z) : option (list Z) :=
  match last p with
  | None => None
  | Some padLen =>
      if (padLen =? 0) || (zlen p <? padLen) then None
      else Some (take (length p - Z.to_nat padLen) p)
  end.

(** ** Fragments *)

Record fragRange : Type := mkRange {
  off : nat;
  end_ : nat;
  more : bool
}.

Fixpoint split_loop (fuel segLen maxData off : nat) : list fragRange :=
  match fuel with
  | O => []
  | S fuel =>
      if (off <? segLen)%nat then
        let e := (off + maxData)%nat in
        let e := if (segLen <? e)%nat then segLen else e in
        mkRange off e (e <? segLen)%nat :: split_loop fuel segLen maxData (off + maxData)
      else []
  end.

(** Each round moves on by at least eight bytes. *)
Definition spoofFragments (segLen : nat) (mtu : Z) : list fragRange :=
  if 20 + Z.of_nat segLen <=? mtu then [mkRange 0 segLen false]
  else
    let maxData := (mtu - 20) `quot` 8 * 8 in
    let maxData := if maxData <=? 0 then 8 else maxData in
    split_loop (S segLen) segLen (Z.to_nat maxData) 0.

(** ** Headers *)

Definition buildGREShim (framed : list Z) : list Z :=
  let b := replicate (greHeaderLen + length framed) 0 in
  let b := put16 2 greProtoIPv4 b in
  blit greHeaderLen (length b) framed b.

Definition stripGREShim (l4 : list Z) : option (list Z) :=
  if (length l4 <? greHeaderLen)%nat then None else Some (drop greHeaderLen l4).

Definition buildUDPShimPorts (srcPort dstPort : Z) (src dst framed : list Z) : list Z :=
  let length_ := (8 + length framed)%nat in
  let b := replicate length_ 0 in
  let b := put16 0 srcPort b in
  let b := put16 2 dstPort b in
  let b := put16 4 (u16 (Z.of_nat length_)) b in
  let b := blit 8 length_ framed b in
  let csum := l4Checksum src dst 17 b in
  let csum := if csum =? 0 then 0xffff else csum in
  put16 6 csum b.

Definition tcpSpoofFlags : Z := 0x02.

Definition buildTCPShimPorts (srcPort dstPort seq : Z) (src dst framed : list Z) : list Z :=
  let length_ := (20 + length framed)%nat in
  let b := replicate length_ 0 in
  let b := put16 0 srcPort b in
  let b := put16 2 dstPort b in
  let b := put32 4 seq b in
  let b := put32 8 0 b in
  let b := put8 12 (Z.shiftl 5 4) b in
  let b := put8 13 tcpSpoofFlags b in
  let b := put16 14 0xffff b in
  let b := blit 20 length_ framed b in
  put16 16 (l4Checksum src dst 6 b) b.

Definition buildICMPEcho (typ id seq : Z) (payload : list Z) : list Z :=
  let b := replicate (icmpEchoHeaderLen + length payload) 0 in
  let b := put8 0 typ b in
  let b := put8 1 0 b in
  let b := put16 4 id b in
  let b := put16 6 seq b in
  let b := blit icmpEchoHeaderLen (length b) payload b in
  put16 2 (onesComplement [b]) b.

Definition parseICMPEcho (wantType id : Z) (msg : list Z) : option (list Z) :=
  if (length msg <? icmpEchoHeaderLen)%nat then None
  else if negb (at_ msg 0 =? wantType) then None
  else if negb (get_be (slice msg 4 6) =? id) then None
  else Some (drop icmpEchoHeaderLen msg).

Definition stripSpoofShim (profile : SpoofProfile) (port : Z) (l4 : list Z) : option (list Z) :=
  if is_profile profile SpoofProfileTCP then
    if (length l4 <? 20)%nat || negb (get_be (slice l4 2 4) =? port) then None
    else
      let off := (Z.to_nat (Z.shiftr (at_ l4 12) 4) * 4)%nat in
      if (off <? 20)%nat || (length l4 <? off)%nat then None
      else Some (drop off l4)
  else if (length l4 <? 8)%nat || negb (get_be (slice l4 2 4) =? port) then None
  else Some (drop 8 l4).

(** [nextTCPSeq]: the number to stamp, and the counter after it. *)
Definition nextTCPSeq (counter n : Z) : Z * Z :=
  let added := u32 (counter + u32 n) in
  (u32 (added - u32 n + 1), added).

(** ** The connection *)

Inductive receiver : Type := RecvXDP | RecvUDP | RecvRaw.

Record spoofConn : Type := mkConn {
  sendProfile : SpoofProfile;
  recvProfile : SpoofProfile;
  recv : receiver;
  port : Z;
  realPeer : list Z;
  spoofSrcs : list (list Z);
  mtu : Z;
  sendICMPType : Z;
  recvICMPType : Z;
  expectSrc : option (list Z);
  dpi : SpoofDPI;
  rot : Z;
  tcpSeq : Z;
  icmpSeq : Z
}.

Definition set_counters (r t i : Z) (c : spoofConn) : spoofConn :=
  mkConn (sendProfile c) (recvProfile c) (recv c) (port c) (realPeer c) (spoofSrcs c) (mtu c)
    (sendICMPType c) (recvICMPType c) (expectSrc c) (dpi c) r t i.

Definition defaultSpoofMTU : Z := 1500.

(** What [newSpoofConn] decides for one side once the addresses are parsed;
    [xdp] is whether the XDP receive attached. *)
Definition newSpoofConn (server : bool) (uplink downlink : SpoofProfile) (sum peer : list Z) (srcs : list (list Z))
    (localSource : list Z) (optMTU : Z) (replySplit xdp : bool) (expect : option (list Z)) (d : SpoofDPI) : spoofConn :=
  let mtu := if optMTU <=? Z.of_nat (20 + profileL4Len SpoofProfileTCP) then defaultSpoofMTU else optMTU in
  let srcs := if (length srcs =? 0)%nat then [localSource] else srcs in
  let send := if server then downlink else uplink in
  let receive := if server then uplink else downlink in
  let sTypes := icmpEchoTypes send in
  let rTypes := icmpEchoTypes receive in
  let sType := if replySplit && server then snd sTypes else fst sTypes in
  let rType := if replySplit && negb server then snd rTypes else fst rTypes in
  let r := if xdp then RecvXDP else if is_profile receive SpoofProfileUDP then RecvUDP else RecvRaw in
  mkConn send receive r (identityPort sum) peer srcs mtu sType rType expect d 0 0 0.

Definition sourceFor (c : spoofConn) : list Z * Z :=
  (default [] (spoofSrcs c !! (Z.to_nat (rot c) mod length (spoofSrcs c))%nat), u32 (rot c + 1)).

Definition undoDPI (d : SpoofDPI) (profile : SpoofProfile) (inner : list Z) : option (list Z) :=
  let inner := if FakeTLS d && is_profile profile SpoofProfileTCP then stripFakeTLS inner else Some inner in
  match inner with
  | None => None
  | Some inner => if Padding d then stripPadding inner else Some inner
  end.

(** One IP packet of a send: the header fields and the data. *)
Record ipPacket : Type := mkPacket {
  TOS : Z; TotalLen : Z; ID : Z; MoreFragments : bool; FragOff : Z;
  TTL : Z; Protocol : Z; Src : list Z; Dst : list Z;
  Data : list Z
}.

(** One turn of the loop of [sendIP]: the identification, the TTL and the
    service byte are drawn once for all fragments. *)
Definition fragment (r : draws) (src : list Z) (proto : Z) (shim : list Z) (c : spoofConn) (f : fragRange) : ipPacket :=
  mkPacket (pickDSCP (dpi c) r) (20 + (Z.of_nat (end_ f) - Z.of_nat (off f))) (u16 (dID r)) (more f)
    (Z.of_nat (off f) `quot` 8) (pickTTL (dpi c) r) proto src (realPeer c) (slice shim (off f) (end_ f)).

(** [sendIP]; the packets handed to the raw socket, in order. *)
Definition sendIP (r : draws) (src : list Z) (proto : Z) (shim : list Z) (c : spoofConn) : list ipPacket :=
  map (fragment r src proto shim c) (spoofFragments (length shim) (mtu c)).

(** The body of [WriteTo] down to the segment, with the counters it moves. *)
Definition wrap (r : draws) (p : list Z) (c : spoofConn) : list Z * list Z * spoofConn :=
  let '(src, rot') := sourceFor c in
  let body := p in
  let body := if Padding (dpi c) then applyPadding body r else body in
  let body := if FakeTLS (dpi c) && is_profile (sendProfile c) SpoofProfileTCP then applyFakeTLS body else body in
  let srcPort := pickSrcPort (dpi c) (port c) r in
  if isICMPFamily (sendProfile c) then
    let seq := u32 (icmpSeq c + 1) in
    (src, buildICMPEcho (sendICMPType c) (port c) (u16 seq) body, set_counters rot' (tcpSeq c) seq c)
  else
    match sendProfile c with
    | SpoofProfileTCP =>
        let '(seq, counter) := nextTCPSeq (tcpSeq c) (zlen body) in
        (src, buildTCPShimPorts srcPort (port c) seq src (realPeer c) body, set_counters rot' counter (icmpSeq c) c)
    | SpoofProfileIPIP | SpoofProfileProto58 => (src, body, set_counters rot' (tcpSeq c) (icmpSeq c) c)
    | SpoofProfileGRE => (src, buildGREShim body, set_counters rot' (tcpSeq c) (icmpSeq c) c)
    | _ => (src, buildUDPShimPorts srcPort (port c) src (realPeer c) body, set_counters rot' (tcpSeq c) (icmpSeq c) c)
    end.

Definition WriteTo (r : draws) (p : list Z) (c : spoofConn) : list ipPacket * spoofConn :=
  let '(src, shim, c') := wrap r p c in
  (sendIP r src (ipProtocol (sendProfile c)) shim c, c').

(** What the receive loop does with one read: [src] is the packet's source,
    [l4] what follows its IP header (for the UDP socket, its UDP header). *)
Definition unwrap (src : option (list Z)) (l4 : list Z) (c : spoofConn) : option (list Z) :=
  let wanted :=
    match expectSrc c, src with
    | None, _ => true
    | Some e, Some s => Tunnel.ip_equal s e
    | Some _, None => false
    end in
  if negb wanted then None
  else
    let inner :=
      match recv c with
      | RecvUDP => Some l4
      | _ =>
          if isICMPFamily (recvProfile c) then parseICMPEcho (recvICMPType c) (port c) l4
          else
            match recvProfile c with
            | SpoofProfileIPIP | SpoofProfileProto58 => Some l4
            | SpoofProfileGRE => stripGREShim l4
            | _ => stripSpoofShim (recvProfile c) (port c) l4
            end
      end in
    match inner with
    | None => None
    | Some inner =>
        match undoDPI (dpi c) (match recv c with RecvUDP => SpoofProfileUDP | _ => recvProfile c end) inner with
        | None => None
        | Some inner => if (length inner =? 0)%nat then None else Some inner
        end
    end.

(** [ReadFrom] over what its socket hands up; [None] is a reader still
    waiting. An empty read is skipped on the UDP and XDP paths. *)
Fixpoint ReadFrom (cap : nat) (reads : list (option (list Z) * list Z)) (c : spoofConn)
    : option (list Z * list Z) :=
  match reads with
  | [] => None
  | (src, l4) :: reads =>
      if (length l4 =? 0)%nat && match recv c with RecvRaw => false | _ => true end then ReadFrom cap reads c
      else
        match unwrap src l4 c with
        | None => ReadFrom cap reads c
        | Some inner => Some (take cap inner, realPeer c)
        end
  end.

(** ** Lemmas: headers *)

(** Split off the tail that the payload overwrites, name the bytes written
    before it, and put the payload in their place. *)
Ltac build_with hdr payload :=
  rewrite replicate_add;
  let Hr := fresh "Hr" in
  assert (length (replicate (length payload) 0) = length payload) as Hr by apply length_replicate;
  set (replicate (length payload) 0) in *;
  lazymatch type of Hr with length ?r = _ =>
    clearbody r;
    repeat match goal with |- context [blit ?lo ?hi payload ?b] =>
      assert (b = hdr ++ r) as -> by (buf_cbv; reflexivity);
      rewrite (blit_tail lo _ payload hdr r) by (done || (rewrite ?length_app, ?length_put_be; cbn; lia)) end
  end.

Lemma applyFakeTLS_eq p : applyFakeTLS p = [0x17; 0x03; 0x03] ++ put_be 2 (u16 (zlen p)) ++ p.
Proof.
  unfold applyFakeTLS, tlsFakeHeaderLen. cbv zeta.
  build_with ([0x17; 0x03; 0x03] ++ put_be 2 (u16 (zlen p))) p. reflexivity.
Qed.

Lemma buildGREShim_eq p : buildGREShim p = [0; 0; 8; 0] ++ p.
Proof.
  unfold buildGREShim, greHeaderLen, greProtoIPv4. cbv zeta. by build_with [0; 0; 8; 0] p.
Qed.

Lemma buildICMPEcho_eq typ id seq p :
  buildICMPEcho typ id seq p =
    let post := put_be 2 id ++ put_be 2 seq ++ p in
    [typ; 0] ++ put_be 2 (onesComplement [[typ; 0] ++ [0; 0] ++ post]) ++ post.
Proof.
  unfold buildICMPEcho, icmpEchoHeaderLen. cbv zeta.
  build_with ([typ; 0] ++ [0; 0] ++ put_be 2 id ++ put_be 2 seq) p.
  rewrite <- !app_assoc. by rewrite put16_mid.
Qed.

Lemma buildUDPShimPorts_eq sp dp src dst p :
  buildUDPShimPorts sp dp src dst p =
    let pre := put_be 2 sp ++ put_be 2 dp ++ put_be 2 (u16 (8 + zlen p)) in
    let cs := l4Checksum src dst 17 (pre ++ [0; 0] ++ p) in
    pre ++ put_be 2 (if cs =? 0 then 0xffff else cs) ++ p.
Proof.
  unfold buildUDPShimPorts. cbv zeta.
  replace (u16 (Z.of_nat (8 + length p))) with (u16 (8 + zlen p)) by (f_equal; unfold zlen; lia).
  set (pre := put_be 2 sp ++ put_be 2 dp ++ put_be 2 (u16 (8 + zlen p))).
  build_with (pre ++ [0; 0]) p. rewrite <- !app_assoc. by rewrite put16_mid.
Qed.

Lemma buildTCPShimPorts_eq sp dp seq src dst p :
  buildTCPShimPorts sp dp seq src dst p =
    let pre := put_be 2 sp ++ put_be 2 dp ++ put_be 4 seq ++ put_be 4 0 ++ [80; 2; 255; 255] in
    let post := [0; 0] ++ p in
    pre ++ put_be 2 (l4Checksum src dst 6 (pre ++ [0; 0] ++ post)) ++ post.
Proof.
  unfold buildTCPShimPorts. cbv zeta.
  set (pre := put_be 2 sp ++ put_be 2 dp ++ put_be 4 seq ++ put_be 4 0 ++ [80; 2; 255; 255]).
  build_with (pre ++ [0; 0] ++ [0; 0]) p. rewrite <- !app_assoc. by rewrite put16_mid.
Qed.

(** ** Lemmas: taking off what was put on *)

Lemma strip_fake_tls p : stripFakeTLS (applyFakeTLS p) = Some p.
Proof. rewrite applyFakeTLS_eq. unfold stripFakeTLS. reflexivity. Qed.

Lemma strip_padding p r : 0 ≤ dPad r < 255 → stripPadding (applyPadding p r) = Some p.
Proof.
  intros Hr. unfold stripPadding, applyPadding. set (n := (Z.to_nat (dPad r) + 1)%nat).
  rewrite app_assoc, last_snoc. rewrite u8_small by lia.
  assert (zlen ((p ++ map (dNoise r) (seq 0 (n - 1))) ++ [Z.of_nat n]) = zlen p + Z.of_nat n) as Hl.
  { rewrite !zlen_app. unfold zlen. rewrite length_map, length_seq. cbn. lia. }
  rewrite Hl. pose proof (zlen_nonneg p).
  rewrite (proj2 (Z.eqb_neq _ _)), (proj2 (Z.ltb_ge _ _)) by lia. cbn [orb]. f_equal.
  rewrite <- app_assoc. apply take_app_length'. rewrite !length_app, length_map, length_seq. cbn. lia.
Qed.

(** What [WriteTo] puts around the payload. *)
Definition doDPI (d : SpoofDPI) (profile : SpoofProfile) (r : draws) (p : list Z) : list Z :=
  let body := if Padding d then applyPadding p r else p in
  if FakeTLS d && is_profile profile SpoofProfileTCP then applyFakeTLS body else body.

Lemma undo_do d d' profile r p :
  Padding d' = Padding d → FakeTLS d' = FakeTLS d → 0 ≤ dPad r < 255 →
  undoDPI d' profile (doDPI d profile r p) = Some p.
Proof.
  intros Hp Hf Hr. unfold undoDPI, doDPI. rewrite Hp, Hf.
  destruct (FakeTLS d && is_profile profile SpoofProfileTCP); rewrite ?strip_fake_tls;
    destruct (Padding d); auto using strip_padding.
Qed.

Lemma doDPI_length d profile r p :
  0 ≤ dPad r < 255 → (length p ≤ length (doDPI d profile r p) ≤ length p + 260)%nat.
Proof.
  intros Hr. unfold doDPI.
  assert (length p ≤ length (if Padding d then applyPadding p r else p) ≤ length p + 255)%nat as H.
  { destruct (Padding d); [|lia]. unfold applyPadding. rewrite !length_app, length_map, length_seq. cbn. lia. }
  destruct (FakeTLS d && _); [|lia]. rewrite applyFakeTLS_eq, !length_app, length_put_be. cbn. lia.
Qed.

Lemma parse_echo typ id seq p :
  0 ≤ id < 2^16 → parseICMPEcho typ id (buildICMPEcho typ id seq p) = Some p.
Proof.
  intros Hid. rewrite buildICMPEcho_eq. cbv zeta. set (cs := onesComplement _). unfold parseICMPEcho, icmpEchoHeaderLen.
  rewrite (proj2 (Nat.ltb_ge _ _)) by (rewrite !length_app, !length_put_be; cbn; lia).
  replace (at_ _ 0) with typ by reflexivity. rewrite Z.eqb_refl. cbn [negb].
  replace (slice _ 4 6) with (put_be 2 id) by reflexivity. rewrite get_put_be_small, Z.eqb_refl by done. reflexivity.
Qed.

Lemma strip_udp profile sp dp src dst p :
  profile ≠ SpoofProfileTCP → 0 ≤ dp < 2^16 →
  stripSpoofShim profile dp (buildUDPShimPorts sp dp src dst p) = Some p ∧
  drop 8 (buildUDPShimPorts sp dp src dst p) = p.
Proof.
  intros Hprof Hdp. rewrite buildUDPShimPorts_eq. cbv zeta. set (c := l4Checksum _ _ _ _); set (cs := if c =? 0 then 65535 else c). split; [|reflexivity].
  unfold stripSpoofShim, is_profile. rewrite bool_decide_eq_false_2 by done.
  rewrite (proj2 (Nat.ltb_ge _ _)) by (rewrite !length_app, !length_put_be; cbn; lia).
  replace (slice _ 2 4) with (put_be 2 dp) by reflexivity. rewrite get_put_be_small, Z.eqb_refl by done. reflexivity.
Qed.

Lemma strip_tcp sp dp seq src dst p :
  0 ≤ dp < 2^16 → stripSpoofShim SpoofProfileTCP dp (buildTCPShimPorts sp dp seq src dst p) = Some p.
Proof.
  intros Hdp. rewrite buildTCPShimPorts_eq. cbv zeta. set (cs := l4Checksum _ _ _ _).
  unfold stripSpoofShim, is_profile. rewrite bool_decide_eq_true_2 by done.
  assert (20 ≤ length ((put_be 2 sp ++ put_be 2 dp ++ put_be 4 seq ++ put_be 4 0 ++ [80; 2; 255; 255]%Z) ++
     put_be 2 cs ++ [0; 0]%Z ++ p))%nat as Hl by (rewrite !length_app, !length_put_be; cbn; lia).
  rewrite (proj2 (Nat.ltb_ge _ _)) by done.
  replace (slice _ 2 4) with (put_be 2 dp) by reflexivity. rewrite get_put_be_small, Z.eqb_refl by done. cbn [negb orb].
  replace (at_ _ 12) with 80 by reflexivity. replace (Z.to_nat (Z.shiftr 80 4) * 4)%nat with 20%nat by reflexivity.
  rewrite (proj2 (Nat.ltb_ge _ _)) by done. replace (20 <? 20)%nat with false by reflexivity. reflexivity.
Qed.

(** ** Fragments *)

(** What a host does with the fragments of one packet, in order (RFC 791): each
    starts where the one before ended, all but the last say so and carry a
    multiple of eight bytes, and each header gives its own length. *)
Fixpoint reassemble (at_off : Z) (ps : list ipPacket) : option (list Z) :=
  match ps with
  | [] => None
  | p :: ps =>
      if negb (FragOff p * 8 =? at_off) || negb (TotalLen p =? 20 + zlen (Data p)) then None
      else if MoreFragments p then
        if zlen (Data p) `mod` 8 =? 0 then app (Data p) <$> reassemble (at_off + zlen (Data p)) ps else None
      else match ps with [] => Some (Data p) | _ :: _ => None end
  end.

(** A packet [sendIP] may emit for a segment towards [c]'s peer. *)
Definition packet_ok (r : draws) (src : list Z) (proto : Z) (c : spoofConn) (p : ipPacket) : Prop :=
  TotalLen p ≤ mtu c ∧ 0 ≤ FragOff p < 2^13 ∧ ID p = u16 (dID r) ∧ Protocol p = proto ∧
  Src p = src ∧ Dst p = realPeer c ∧ TTL p = pickTTL (dpi c) r ∧ TOS p = pickDSCP (dpi c) r.

Lemma frag_off (n : nat) : (n `mod` 8 = 0)%nat → Z.of_nat n `quot` 8 * 8 = Z.of_nat n.
Proof.
  intros H. rewrite Z.quot_div_nonneg by lia.
  assert (Z.of_nat n `mod` 8 = 0) as Hz by (change 8 with (Z.of_nat 8); by rewrite <- Nat2Z.inj_mod, H).
  pose proof (Z.div_mod (Z.of_nat n) 8). lia.
Qed.

Lemma reassemble_fragment r src proto shim c o e b ps :
  (o ≤ e ≤ length shim)%nat → (o `mod` 8 = 0)%nat →
  reassemble (Z.of_nat o) (fragment r src proto shim c (mkRange o e b) :: ps) =
    if b then
      if (Z.of_nat e - Z.of_nat o) `mod` 8 =? 0 then app (slice shim o e) <$> reassemble (Z.of_nat e) ps else None
    else match ps with [] => Some (slice shim o e) | _ :: _ => None end.
Proof.
  intros Hoe Ho8. cbn [reassemble]. unfold fragment. cbn [FragOff TotalLen Data MoreFragments off end_ more].
  assert (zlen (slice shim o e) = Z.of_nat e - Z.of_nat o) as -> by (unfold zlen; rewrite length_slice by lia; lia).
  rewrite frag_off, !Z.eqb_refl by done. cbn [negb orb].
  by replace (Z.of_nat o + (Z.of_nat e - Z.of_nat o)) with (Z.of_nat e) by lia.
Qed.

Lemma split_loop_reassembles r src proto shim c m : ∀ fuel o,
  (o < length shim)%nat → (length shim - o < fuel)%nat → (0 < m)%nat → (m `mod` 8 = 0)%nat → (o `mod` 8 = 0)%nat →
  zlen shim ≤ 65515 → 20 + Z.of_nat m ≤ mtu c →
  let ps := map (fragment r src proto shim c) (split_loop fuel (length shim) m o) in
  reassemble (Z.of_nat o) ps = Some (drop o shim) ∧ Forall (packet_ok r src proto c) ps.
Proof.
  induction fuel as [|fuel IH]; intros o Ho Hf Hm Hm8 Ho8 Hlen Hmtu; [lia|].
  cbv zeta. cbn [split_loop]. rewrite (proj2 (Nat.ltb_lt _ _)) by done.
  set (e := if (length shim <? o + m)%nat then length shim else (o + m)%nat). unfold zlen in Hlen.
  assert (e = Nat.min (length shim) (o + m)) as He by (unfold e; destruct (Nat.ltb_spec (length shim) (o + m)); lia).
  assert (packet_ok r src proto c (fragment r src proto shim c (mkRange o e (e <? length shim)%nat))) as Hok.
  { unfold packet_ok, fragment. cbn. split_and!; auto; try lia.
    - apply Z.quot_pos; lia.
    - pose proof (frag_off o Ho8). lia. }
  cbn [map]. rewrite reassemble_fragment by lia.
  destruct (Nat.ltb_spec e (length shim)) as [Hmore|Hlast].
  - assert (e = o + m)%nat as Heq by lia.
    assert ((Z.of_nat e - Z.of_nat o) `mod` 8 = 0) as ->.
    { replace (Z.of_nat e - Z.of_nat o) with (Z.of_nat m) by lia. change 8 with (Z.of_nat 8). by rewrite <- Nat2Z.inj_mod, Hm8. }
    cbn [Z.eqb]. rewrite Heq.
    destruct (IH (o + m)%nat) as [-> Hall]; try (unfold zlen; lia).
    { rewrite Nat.Div0.add_mod, Ho8, Hm8. done. }
    split; [|by constructor; [rewrite <- Heq|]]. cbn. f_equal. symmetry. apply slice_drop. lia.
  - assert (e = length shim) as Heq by lia.
    assert (split_loop fuel (length shim) m (o + m) = []) as ->.
    { destruct fuel; [done|]. cbn [split_loop]. by rewrite (proj2 (Nat.ltb_ge _ _)) by lia. }
    split; [|by constructor; [|constructor]]. cbn [map]. f_equal. rewrite Heq. unfold slice. apply take_ge. rewrite length_drop. lia.
Qed.

Lemma sendIP_reassembles r src proto shim c :
  28 ≤ mtu c → zlen shim ≤ 65515 →
  reassemble 0 (sendIP r src proto shim c) = Some shim ∧ Forall (packet_ok r src proto c) (sendIP r src proto shim c).
Proof.
  intros Hmtu Hlen. unfold zlen in Hlen. unfold sendIP, spoofFragments.
  destruct (Z.leb_spec (20 + Z.of_nat (length shim)) (mtu c)) as [Hfit|Hbig].
  - cbn [map]. change 0 with (Z.of_nat 0) at 1. rewrite reassemble_fragment by (lia || done).
    assert (slice shim 0 (length shim) = shim) as -> by (rewrite slice_end, drop_0 by lia; done).
    split; [done|]. constructor; [|constructor]. unfold packet_ok. cbn. split_and!; auto; lia || by vm_compute.
  - pose proof (Z.quot_div_nonneg (mtu c - 20) 8 ltac:(lia) ltac:(lia)) as Hq.
    assert (1 ≤ (mtu c - 20) / 8) by (apply Z.div_le_lower_bound; lia).
    pose proof (Z.mul_div_le (mtu c - 20) 8 ltac:(lia)). rewrite Hq.
    rewrite (proj2 (Z.leb_gt _ _)) by lia. set (m := Z.to_nat _).
    assert (Z.of_nat m = (mtu c - 20) / 8 * 8) as Hmz by (unfold m; rewrite Z2Nat.id; lia).
    assert (m `mod` 8 = 0)%nat as Hm8.
    { apply Nat2Z.inj. rewrite Nat2Z.inj_mod, Hmz. change (Z.of_nat 8) with 8. by rewrite Z.mod_mul. }
    apply (split_loop_reassembles r src proto shim c m (S (length shim)) 0); unfold zlen; try lia; done.
Qed.

(** ** The path *)

(** The draws [math/rand] can give, for these settings. *)
Definition draws_ok (d : SpoofDPI) (r : draws) : Prop :=
  0 ≤ dPad r < padMax (PaddingMax d) ∧ (∀ n, byte_ok (dNoise r n)) ∧
  0 ≤ dPort r ≤ snd (portRange d) - fst (portRange d).

Definition dpi_ok (d : SpoofDPI) : Prop :=
  0 ≤ PaddingMax d < 256 ∧ 0 ≤ PortMin d < 2^16 ∧ 0 ≤ PortMax d < 2^16.

Lemma draws_pad d r : dpi_ok d → draws_ok d r → 0 ≤ dPad r < 255.
Proof. unfold dpi_ok, draws_ok, padMax. intros (H & _) (Hp & _). destruct (Z.eqb_spec (PaddingMax d) 0); lia. Qed.

Lemma bytes_ok_doDPI d profile r p : draws_ok d r → bytes_ok p → bytes_ok (doDPI d profile r p).
Proof.
  intros (_ & Hn & _) Hp. unfold doDPI.
  assert (bytes_ok (if Padding d then applyPadding p r else p)) as H.
  { destruct (Padding d); [|done]. unfold applyPadding. rewrite !bytes_ok_app. split_and!; [done| |].
    - apply Forall_forall. intros x Hx. apply list_elem_of_In, in_map_iff in Hx as (k & <- & _). apply Hn.
    - constructor; [apply u8_range|constructor]. }
  destruct (FakeTLS d && _); [|done]. rewrite applyFakeTLS_eq, !bytes_ok_app. split_and!; auto using put_be_ok.
  by apply (bool_decide_unpack _).
Qed.

(** The segment of [wrap], by kind of profile. *)
Lemma wrap_segment r p c src shim c' :
  wrap r p c = (src, shim, c') →
  let body := doDPI (dpi c) (sendProfile c) r p in
  src = fst (sourceFor c) ∧
  ((∃ seq, isICMPFamily (sendProfile c) = true ∧ shim = buildICMPEcho (sendICMPType c) (port c) seq body) ∨
   (∃ sp seq, sendProfile c = SpoofProfileTCP ∧ shim = buildTCPShimPorts sp (port c) seq src (realPeer c) body) ∨
   ((sendProfile c = SpoofProfileIPIP ∨ sendProfile c = SpoofProfileProto58) ∧ shim = body) ∨
   (sendProfile c = SpoofProfileGRE ∧ shim = buildGREShim body) ∨
   (∃ sp, sendProfile c = SpoofProfileUDP ∧ shim = buildUDPShimPorts sp (port c) src (realPeer c) body)).
Proof.
  unfold wrap. destruct (sourceFor c) as [s rot']. unfold doDPI.
  destruct (isICMPFamily (sendProfile c)) eqn:Ei.
  - intros [= <- <- _]. split; [done|]. left. by eexists.
  - destruct (sendProfile c) eqn:Ep; try discriminate Ei; cbn [fst].
    + intros [= <- <- _]. split; [done|]. do 4 right. by eexists.
    + destruct (nextTCPSeq _ _) as [q n]. intros [= <- <- _]. split; [done|]. right; left. by eexists _, _.
    + intros [= <- <- _]. split; [done|]. do 2 right. left. auto.
    + intros [= <- <- _]. split; [done|]. do 2 right. left. auto.
    + intros [= <- <- _]. split; [done|]. do 3 right. left. auto.
Qed.

Lemma wrap_length r p c src shim c' :
  0 ≤ dPad r < 255 → wrap r p c = (src, shim, c') → (length p ≤ length shim ≤ length p + 280)%nat.
Proof.
  intros Hr Hw. destruct (wrap_segment _ _ _ _ _ _ Hw) as (_ & H). pose proof (doDPI_length (dpi c) (sendProfile c) r p Hr).
  destruct H as [(q & _ & ->)|[(sp & q & _ & ->)|[(_ & ->)|[(_ & ->)|(sp & _ & ->)]]]];
    rewrite ?buildICMPEcho_eq, ?buildTCPShimPorts_eq, ?buildGREShim_eq, ?buildUDPShimPorts_eq; cbv zeta;
    rewrite ?length_app, ?length_put_be; cbn [length]; lia.
Qed.

(** The three headers with a checksum, each over a body of bytes. *)
Lemma echo_verifies typ id seq body :
  byte_ok typ → bytes_ok body → zlen body ≤ 64260 → onesComplement [buildICMPEcho typ id seq body] = 0.
Proof.
  intros Hty Hb Hzl. rewrite buildICMPEcho_eq. cbv zeta. set (post := put_be 2 id ++ put_be 2 seq ++ body).
  assert (bytes_ok post) as Hpost by (unfold post; rewrite !bytes_ok_app; auto using put_be_ok).
  assert (zlen post = 4 + zlen body) as Hzp by (unfold post; rewrite !zlen_app; unfold zlen; rewrite !length_put_be; lia).
  assert (bytes_ok [typ; 0]) as Hpre by (constructor; [done|by apply (bool_decide_unpack _)]).
  pose proof (words_bound _ Hpre) as Hw1. change ((zlen [typ; 0] + 1) / 2) with 1 in Hw1.
  pose proof (words_bound _ Hpost) as Hw2.
  assert ((zlen post + 1) / 2 ≤ 32133) by (apply Z.div_le_upper_bound; lia).
  apply (checksum_verifies [] [typ; 0] post); auto; cbn [concat total foldr]; [constructor|lia].
Qed.

Lemma tcp_verifies sp dp seq src dst body :
  bytes_ok (To4 src) → bytes_ok (To4 dst) → bytes_ok body → zlen body ≤ 64260 →
  let shim := buildTCPShimPorts sp dp seq src dst body in
  onesComplement [pseudo_header src dst 6 (zlen shim); shim] = 0.
Proof.
  intros Hs Hd Hb Hzl. cbv zeta. rewrite buildTCPShimPorts_eq. cbv zeta. apply l4_verifies; auto.
  - rewrite !bytes_ok_app. split_and!; auto using put_be_ok. by apply (bool_decide_unpack _).
  - rewrite bytes_ok_app. split; [by apply (bool_decide_unpack _)|done].
  - match goal with |- zlen ?l + _ < _ => change (zlen l) with 16 end.
    rewrite zlen_app. change (zlen [0; 0]) with 2. lia.
Qed.

Lemma l4Checksum_range src dst proto seg :
  bytes_ok (To4 src) → bytes_ok (To4 dst) → bytes_ok seg → zlen seg ≤ 64300 →
  0 ≤ l4Checksum src dst proto seg < 2^16.
Proof.
  intros Hs Hd Hseg Hlen. destruct (pseudo_header_ok src dst proto (zlen seg) Hs Hd) as [Hph Hpl].
  pose proof (words_bound _ Hph) as Hw1. rewrite Hpl in Hw1. change ((12 + 1) / 2) with 6 in Hw1.
  pose proof (words_bound _ Hseg) as Hw2.
  assert ((zlen seg + 1) / 2 ≤ 32151) by (apply Z.div_le_upper_bound; lia).
  destruct (onesComplement_spec [pseudo_header src dst proto (zlen seg); seg]) as (k & Hr16 & _); [| |exact Hr16].
  - by constructor; [|constructor].
  - unfold total. cbn [foldr]. lia.
Qed.

Lemma udp_verifies sp dp src dst body :
  bytes_ok (To4 src) → bytes_ok (To4 dst) → bytes_ok body → zlen body ≤ 64260 →
  let shim := buildUDPShimPorts sp dp src dst body in
  onesComplement [pseudo_header src dst 17 (zlen shim); shim] = 0 ∧ get_be (slice shim 6 8) ≠ 0.
Proof.
  intros Hs Hd Hb Hzl. cbv zeta. rewrite buildUDPShimPorts_eq. cbv zeta.
  set (pre := put_be 2 sp ++ put_be 2 dp ++ put_be 2 (u16 (8 + zlen body))).
  set (cs := l4Checksum src dst 17 (pre ++ [0; 0] ++ body)).
  assert (bytes_ok pre) as Hpre by (unfold pre; rewrite !bytes_ok_app; auto using put_be_ok).
  assert (zlen pre = 6) as Hzp by reflexivity. split.
  - apply l4_verifies; auto; [lia|]. fold cs. destruct (Z.eqb_spec cs 0); auto.
  - replace (slice _ 6 8) with (put_be 2 (if cs =? 0 then 65535 else cs)) by reflexivity.
    assert (0 ≤ cs < 2^16).
    { apply l4Checksum_range; auto.
      - rewrite !bytes_ok_app. split_and!; auto. by apply (bool_decide_unpack _).
      - rewrite !zlen_app, Hzp. change (zlen [0; 0]) with 2. lia. }
    destruct (Z.eqb_spec cs 0); rewrite get_put_be_small by lia; lia.
Qed.

(** Every checksum the carrier writes is one the receiving kernel accepts:
    the UDP or TCP segment behind its pseudo-header, and the echo message by
    itself, sum to zero; and a UDP checksum is never the zero that means none
    was computed. *)
Theorem shim_checksums r p c src shim c' :
  wrap r p c = (src, shim, c') → dpi_ok (dpi c) → draws_ok (dpi c) r → bytes_ok p → zlen p ≤ 64000 →
  byte_ok (sendICMPType c) → bytes_ok (To4 src) → bytes_ok (To4 (realPeer c)) →
  (isICMPFamily (sendProfile c) = true → onesComplement [shim] = 0) ∧
  (sendProfile c = SpoofProfileTCP ∨ sendProfile c = SpoofProfileUDP →
     onesComplement [pseudo_header src (realPeer c) (ipProtocol (sendProfile c)) (zlen shim); shim] = 0) ∧
  (sendProfile c = SpoofProfileUDP → get_be (slice shim 6 8) ≠ 0).
Proof.
  intros Hw Hd Hr Hp Hlen Hty Hsrc Hpeer. destruct (wrap_segment _ _ _ _ _ _ Hw) as (_ & H). cbv zeta in H.
  pose proof (bytes_ok_doDPI (dpi c) (sendProfile c) r p Hr Hp) as Hb.
  pose proof (doDPI_length (dpi c) (sendProfile c) r p (draws_pad _ _ Hd Hr)) as Hbl.
  set (body := doDPI (dpi c) (sendProfile c) r p) in *.
  assert (zlen body ≤ 64260) as Hzl by (unfold zlen in *; lia).
  destruct H as [(q & Ei & ->)|[(sp & q & Ep & ->)|[([Ep|Ep] & ->)|[(Ep & ->)|(sp & Ep & ->)]]]];
    try (rewrite Ep; split_and!; [done|intros [?|?]; done|done]).
  - split_and!; [|intros [E|E]; by rewrite E in Ei|intros E; by rewrite E in Ei]. intros _. by apply echo_verifies.
  - rewrite Ep. split_and!; [done|intros _|done]. by apply tcp_verifies.
  - rewrite Ep. destruct (udp_verifies sp (port c) src (realPeer c) body Hsrc Hpeer Hb Hzl) as [H1 H2].
    split_and!; [done|intros _; exact H1|intros _; exact H2].
Qed.

Lemma identityPort_range sum : bytes_ok sum → 0 ≤ identityPort sum < 2^16.
Proof.
  intros Hs. unfold identityPort.
  assert (0 ≤ get_be (slice sum 4 6) < 2^16) as Hg.
  { pose proof (get_be_bound (slice sum 4 6) ltac:(auto with go)) as Hb.
    assert (zlen (slice sum 4 6) ≤ 2) by (unfold zlen, slice; rewrite length_take; lia).
    assert (256 ^ zlen (slice sum 4 6) ≤ 256 ^ 2) by (apply Z.pow_le_mono_r; lia). lia. }
  destruct (Z.ltb_spec (get_be (slice sum 4 6)) 1024); [|done]. rewrite u16_small; lia.
Qed.

(** What reaches the reader: an ordinary UDP socket takes the UDP header off,
    the raw socket and the XDP path hand up the whole segment. *)
Definition handed_up (k : receiver) (segment : list Z) : list Z :=
  match k with RecvUDP => drop 8 segment | _ => segment end.

(** The two ends agree on what a peer's packets look like. *)
Definition agree (c d : spoofConn) : Prop :=
  recvProfile d = sendProfile c ∧ port d = port c ∧ recvICMPType d = sendICMPType c ∧
  (recv d = RecvUDP → sendProfile c = SpoofProfileUDP) ∧ 0 ≤ port c < 2^16 ∧
  Padding (dpi d) = Padding (dpi c) ∧ FakeTLS (dpi d) = FakeTLS (dpi c).

Lemma new_agree server up down sum peer1 peer2 srcs1 srcs2 loc1 loc2 mtu1 mtu2 split xdp1 xdp2 e1 e2 d1 d2 :
  bytes_ok sum → Padding d2 = Padding d1 → FakeTLS d2 = FakeTLS d1 →
  agree (newSpoofConn server up down sum peer1 srcs1 loc1 mtu1 split xdp1 e1 d1)
        (newSpoofConn (negb server) up down sum peer2 srcs2 loc2 mtu2 split xdp2 e2 d2).
Proof.
  intros Hs Hp Hf. pose proof (identityPort_range sum Hs). unfold newSpoofConn, agree.
  destruct server, split; cbn [negb andb sendProfile recvProfile recv port recvICMPType sendICMPType dpi];
    (split_and!; try done; try lia); destruct xdp2; try done; unfold is_profile; case_bool_decide; done.
Qed.

Lemma set_counters_agree r t i c d : agree c d → agree (set_counters r t i c) d.
Proof. done. Qed.

Lemma unwrap_wrap r p c d src shim c' :
  agree c d → 0 ≤ dPad r < 255 → p ≠ [] → wrap r p c = (src, shim, c') →
  match expectSrc d with None => True | Some e => Tunnel.ip_equal src e = true end →
  unwrap (Some src) (handed_up (recv d) shim) d = Some p.
Proof.
  intros (Hprof & Hport & Hty & Hudp & Hpr & Hpad & Htls) Hr Hp Hw Hexp.
  destruct (wrap_segment _ _ _ _ _ _ Hw) as (_ & H). cbv zeta in H. unfold unwrap.
  assert ((match expectSrc d with None => true | Some e => Tunnel.ip_equal src e end) = true) as ->.
  { by destruct (expectSrc d). }
  cbn [negb]. set (body := doDPI (dpi c) (sendProfile c) r p) in *.
  assert (match recv d with RecvUDP => SpoofProfileUDP | _ => recvProfile d end = sendProfile c) as Hq.
  { destruct (recv d) eqn:E; auto. symmetry. by apply Hudp. }
  assert (undoDPI (dpi d) (sendProfile c) body = Some p) as Hundo by (by apply undo_do).
  assert ((length p =? 0)%nat = false) as Hl by (destruct p; done).
  match goal with |- match ?i with _ => _ end = _ => assert (i = Some body) as -> end.
  2: { by rewrite Hq, Hundo, Hl. }
  rewrite Hprof, Hport, Hty. rewrite <- Hq in H.
  destruct H as [(q & Ei & ->)|[(sp & q & Ep & ->)|[([Ep|Ep] & ->)|[(Ep & ->)|(sp & Ep & ->)]]]]; rewrite Hq in *.
  - destruct (recv d) eqn:E; cbn [handed_up]; [|by rewrite Hudp in Ei|]; by rewrite Ei, parse_echo.
  - destruct (recv d) eqn:E; cbn [handed_up]; [|by rewrite Hudp in Ep|]; rewrite Ep;
      change (isICMPFamily SpoofProfileTCP) with false; cbv iota; by rewrite strip_tcp.
  - destruct (recv d) eqn:E; cbn [handed_up]; [|by rewrite Hudp in Ep|]; rewrite Ep; done.
  - destruct (recv d) eqn:E; cbn [handed_up]; [|by rewrite Hudp in Ep|]; rewrite Ep; done.
  - destruct (recv d) eqn:E; cbn [handed_up]; [|by rewrite Hudp in Ep|]; rewrite Ep; by rewrite buildGREShim_eq.
  - destruct (strip_udp SpoofProfileUDP sp (port c) src (realPeer c) body ltac:(done) Hpr) as [Hs1 Hs2].
    destruct (recv d) eqn:E; cbn [handed_up]; [rewrite Ep; exact Hs1|by rewrite Hs2|rewrite Ep; exact Hs1].
Qed.

Lemma undoDPI_empty d q : undoDPI d q [] = None ∨ undoDPI d q [] = Some [].
Proof.
  unfold undoDPI. destruct (FakeTLS d && is_profile q SpoofProfileTCP); [by left|]. destruct (Padding d); [by left|by right].
Qed.

Lemma unwrap_empty src d : unwrap src [] d = None.
Proof.
  unfold unwrap. destruct (negb _); [done|].
  match goal with |- match ?i with _ => _ end = _ => assert (i = None ∨ i = Some []) as [->| ->]; [|done|] end.
  - destruct (recv d); try (by right); destruct (isICMPFamily (recvProfile d)); try (by left);
      destruct (recvProfile d); try (by left); try (by right).
  - destruct (undoDPI_empty (dpi d) (match recv d with RecvUDP => SpoofProfileUDP | _ => recvProfile d end)) as [->| ->]; done.
Qed.

(** C4: the forged-source tunnel carries, under every profile. Take two ends
    set up from the same token, profiles, echo split, padding and fake-TLS
    settings, one the server and one the client, with MTUs, source pools and
    receive paths (socket or XDP) of their own. A datagram one end writes
    leaves as IP packets no larger than its MTU which carry one identification
    and put together to one segment; and the other end's read, after anything
    it discards, returns exactly that datagram from the real peer, unless its
    operator pinned a source the sender does not use. *)
Theorem spoof_carries server up down sum peer1 peer2 srcs1 srcs2 loc1 loc2 mtu1 mtu2 split xdp1 xdp2 e1 e2 d1 d2
    rot_ tcp_ icmp_ r p cap junk pkts c' :
  let c := set_counters rot_ tcp_ icmp_ (newSpoofConn server up down sum peer1 srcs1 loc1 mtu1 split xdp1 e1 d1) in
  let d := newSpoofConn (negb server) up down sum peer2 srcs2 loc2 mtu2 split xdp2 e2 d2 in
  bytes_ok sum → Padding d2 = Padding d1 → FakeTLS d2 = FakeTLS d1 → dpi_ok d1 → draws_ok d1 r →
  p ≠ [] → zlen p ≤ 64000 → (length p ≤ cap)%nat →
  match e2 with None => True | Some e => ∀ s, s ∈ spoofSrcs c → Tunnel.ip_equal s e = true end →
  Forall (λ j, unwrap (fst j) (snd j) d = None) junk →
  WriteTo r p c = (pkts, c') →
  ∃ src segment,
    reassemble 0 pkts = Some segment ∧
    Forall (packet_ok r src (ipProtocol (sendProfile c)) c) pkts ∧ src ∈ spoofSrcs c ∧
    ReadFrom cap (junk ++ [(Some src, handed_up (recv d) segment)]) d = Some (p, peer2).
Proof.
  intros c d Hsum Hpad Htls Hdpi Hr Hp Hlen Hcap Hexp Hjunk HW.
  assert (agree c d) as Hag by (apply set_counters_agree; by apply new_agree).
  unfold WriteTo in HW. destruct (wrap r p c) as [[src shim] c''] eqn:Ew. injection HW as <- <-.
  assert (28 ≤ mtu c) as Hmtu.
  { unfold c, newSpoofConn. cbn [mtu set_counters profileL4Len]. unfold defaultSpoofMTU.
      destruct (Z.leb_spec mtu1 (Z.of_nat (20 + 20))); lia. }
  assert (dpi c = d1) as Hdc.
  { reflexivity. }
  assert (0 ≤ dPad r < 255) as Hpadr by (by eapply draws_pad).
  pose proof (wrap_length r p c src shim c'' Hpadr Ew) as Hsl.
  assert (src ∈ spoofSrcs c) as Hsrc.
  { destruct (wrap_segment _ _ _ _ _ _ Ew) as (-> & _). unfold sourceFor. cbn [fst].
    assert (spoofSrcs c ≠ []) as Hne.
    { unfold c, newSpoofConn. cbn [spoofSrcs set_counters]. by destruct srcs1. }
    assert (Z.to_nat (rot c) mod length (spoofSrcs c) < length (spoofSrcs c))%nat as Hlt.
    { apply Nat.mod_upper_bound. by destruct (spoofSrcs c). }
    destruct (lookup_lt_is_Some_2 _ _ Hlt) as [x Hx]. rewrite Hx. cbn. by apply list_elem_of_lookup_2 in Hx. }
  destruct (sendIP_reassembles r src (ipProtocol (sendProfile c)) shim c Hmtu) as [Hre Hall].
  { unfold zlen in *. lia. }
  exists src, shim. split_and!; auto.
  assert (expectSrc d = e2 ∧ realPeer d = peer2) as [He Hpd].
  { done. }
  assert (unwrap (Some src) (handed_up (recv d) shim) d = Some p) as Hun.
  { eapply unwrap_wrap; eauto. rewrite He. destruct e2; auto. }
  clear -Hun Hjunk Hcap Hpd. induction junk as [|[s l] junk IH]; cbn [app ReadFrom].
  - rewrite Hun, take_ge, Hpd by done. destruct (handed_up (recv d) shim); [by rewrite unwrap_empty in Hun|done].
  - apply Forall_cons in Hjunk as [Hj Hjunk]. cbn in Hj. rewrite Hj. case_match; by apply IH.
Qed.

(** ** Witnesses *)

Definition noisy : SpoofDPI := mkDPI true true true 0 0 true 16 true.
Definition draw1 : draws := mkDraws 3 (λ n, Z.of_nat n `mod` 256) 100 777 1 2.
Definition hash : list Z := [1; 2; 3; 4; 5; 6].
Definition client : spoofConn :=
  newSpoofConn false SpoofProfileTCP SpoofProfileUDP hash [10; 0; 0; 2] [[192; 0; 2; 1]] [] 60 false false None noisy.
Definition payload40 : list Z := replicate 40 7.

Lemma noisy_ok : dpi_ok noisy.
Proof. unfold dpi_ok. cbn. lia. Qed.

Lemma draw1_ok : draws_ok noisy draw1.
Proof.
  unfold draws_ok. cbn [dPad dNoise dPort draw1]. split; [by vm_compute|]. split; [|by vm_compute].
  intros n. unfold byte_ok. apply Z.mod_pos_bound. lia.
Qed.

Lemma spoof_carries_witness :
  ∃ src segment,
    reassemble 0 (fst (WriteTo draw1 payload40 client)) = Some segment ∧
    ReadFrom 1500 [(Some src, segment)]
      (newSpoofConn true SpoofProfileTCP SpoofProfileUDP hash [10; 0; 0; 1] [] [10; 0; 0; 2] 0 false false
         (Some [192; 0; 2; 1]) noisy) = Some (payload40, [10; 0; 0; 1]).
Proof.
  destruct (spoof_carries false SpoofProfileTCP SpoofProfileUDP hash [10; 0; 0; 2] [10; 0; 0; 1] [[192; 0; 2; 1]] []
    [] [10; 0; 0; 2] 60 0 false false false None (Some [192; 0; 2; 1]) noisy noisy 0 0 0 draw1 payload40 1500 []
    (fst (WriteTo draw1 payload40 client)) (snd (WriteTo draw1 payload40 client)))
    as (src & segment & H1 & _ & _ & H2).
  - by apply (bool_decide_unpack _).
  - reflexivity.
  - reflexivity.
  - exact noisy_ok.
  - exact draw1_ok.
  - discriminate.
  - by apply Z.leb_le.
  - by apply Nat.leb_le.
  - intros s Hs. apply list_elem_of_singleton in Hs as ->. reflexivity.
  - constructor.
  - exact (surjective_pairing (WriteTo draw1 payload40 client)).
  - exists src, segment. split; [exact H1|exact H2].
Defined.

Lemma shim_checksums_witness :
  let '(src, shim, _) := wrap draw1 payload40 client in
  onesComplement [pseudo_header src [10; 0; 0; 2] 6 (zlen shim); shim] = 0.
Proof.
  destruct (wrap draw1 payload40 client) as [[src shim] c'] eqn:E.
  assert (src = [192; 0; 2; 1]) as Hs by (destruct (wrap_segment _ _ _ _ _ _ E) as [-> _]; reflexivity).
  destruct (shim_checksums draw1 payload40 client src shim c' E) as (_ & H & _).
  - exact noisy_ok.
  - exact draw1_ok.
  - by apply (bool_decide_unpack _).
  - by apply Z.leb_le.
  - by apply (bool_decide_unpack _).
  - rewrite Hs. by apply (bool_decide_unpack _).
  - by apply (bool_decide_unpack _).
  - apply H. left. reflexivity.
Defined.

End Spoof.
