(* ===== verification/Xdi.v ===== *)
(** The tunnel inside ping: the framing of
    [src/internal/utils/network/icmpframe.go] and the connection of
    [icmpconn_linux.go] (Module [Xdi]); and the datagrams a stream carries,
    [udpframe.go] (Module [Datagram]). *)

From Stdlib Require Import Ascii String.
From S2P Require Import Prelude.
From S2P Require Import GoStr.
From S2P Require Import Frame.
Open Scope string_scope.
Open Scope list_scope.
Open Scope Z_scope.

Module Xdi.
Import Buf Inet.

Definition xdiTagLen : nat := 4.
Definition xdiHeaderLen : nat := xdiTagLen + 1.
Definition xdiDirServer : Z := 83.
Definition xdiDirClient : Z := 67.
Definition icmpEchoRequest : Z := 8.
Definition icmpEchoReply : Z := 0.

(** [xdiTag]; [sum] is the hash of the token. *)
Definition xdiTag (sum : list Z) : list Z := take xdiTagLen sum.

(** ** Identifiers *)

(** The walk over the whole space when the random source fails. *)
Fixpoint walk (n : nat) (id : Z) (used : gset Z) : option Z :=
  match n with
  | O => None
  | S n => if decide (id ∈ used) then walk n (u16 (id + 1)) used else Some id
  end.

(** [acquireXdiSessionID]; [reads] are the results of [rand.Read], [None] a
    failure. With no read left the loop is still running. *)
Fixpoint acquireXdiSessionID (reads : list (option (list Z))) (used : gset Z) : option (Z * gset Z) :=
  match reads with
  | [] => None
  | None :: _ =>
      match walk (Z.to_nat 65535) 1 used with
      | Some id => Some (id, {[id]} ∪ used)
      | None => Some (1, used)
      end
  | Some b :: reads =>
      let id := get_be b in
      if id =? 0 then acquireXdiSessionID reads used
      else if decide (id ∈ used) then acquireXdiSessionID reads used
      else Some (id, {[id]} ∪ used)
  end.

Definition releaseXdiSessionID (id : Z) (used : gset Z) : gset Z := used ∖ {[id]}.

(** ** Framing *)

Definition outboundDir (server : bool) : Z := if server then xdiDirServer else xdiDirClient.
Definition inboundDir (server : bool) : Z := if server then xdiDirClient else xdiDirServer.

Definition encodeXdiPayload (tag : list Z) (dir : Z) (payload : list Z) : list Z :=
  let out := replicate (xdiHeaderLen + length payload) 0 in
  let out := blit 0 xdiTagLen tag out in
  let out := put8 xdiTagLen dir out in
  blit xdiHeaderLen (length out) payload out.

Definition appendXdiPayload (dst tag : list Z) (dir : Z) (payload : list Z) : list Z :=
  let dst := dst ++ tag in
  let dst := dst ++ [dir] in
  dst ++ payload.

Definition decodeXdiPayload (tag : list Z) (wantDir : Z) (data : list Z) : option (list Z) :=
  if (length data <? xdiHeaderLen)%nat then None
  else if negb (forallb (λ i, at_ data i =? at_ tag i) (seq 0 xdiTagLen)) then None
  else if negb (at_ data xdiTagLen =? wantDir) then None
  else Some (drop xdiHeaderLen data).

Definition appendEcho (dst : list Z) (typ id seq : Z) : list Z :=
  dst ++ [typ; 0; 0; 0; u8 (Z.shiftr id 8); u8 id; u8 (Z.shiftr seq 8); u8 seq].

(** [setICMPChecksum]: the sum over the pairs and the odd byte, folded. *)
Definition setICMPChecksum (msg : list Z) : list Z :=
  let sum := sum_part 0 msg in
  let cs := not16 (u16 (fold_carries 3 sum)) in
  put8 3 (u8 cs) (put8 2 (u8 (Z.shiftr cs 8)) msg).

(** ** The connection *)

Record icmpConn : Type := mkConn {
  server : bool;
  id : Z;
  tag : list Z;
  seq_ : Z
}.

Definition newICMPServerConn (sum : list Z) : icmpConn := mkConn true 0 (xdiTag sum) 0.
Definition newICMPClientConn (sum : list Z) (sessionID : Z) : icmpConn := mkConn false sessionID (xdiTag sum) 0.

(** The addresses KCP hands back: one this carrier reported with an
    identifier in its port, or a bare IP. *)
Inductive Addr : Type :=
| UDPAddr (ip : list Z) (port : Z)
| IPAddr (ip : list Z).

Definition toIPAddr (a : Addr) : list Z := match a with UDPAddr ip _ => ip | IPAddr ip => ip end.

Definition echoIDFor (dst : Addr) (c : icmpConn) : Z :=
  if negb (server c) then id c
  else match dst with UDPAddr _ p => p | IPAddr _ => 0 end.

Definition peerAddr (peer : Addr) (echoID : Z) (c : icmpConn) : Addr :=
  if negb (server c) then peer else UDPAddr (toIPAddr peer) echoID.

(** [WriteTo]: the message and where it goes. *)
Definition WriteTo (p : list Z) (dst : Addr) (c : icmpConn) : list Z * list Z * icmpConn :=
  let typ := if server c then icmpEchoReply else icmpEchoRequest in
  let seq := u32 (seq_ c + 1) in
  let wire := appendEcho [] typ (u16 (echoIDFor dst c)) (u16 seq) in
  let wire := appendXdiPayload wire (tag c) (outboundDir (server c)) p in
  (setICMPChecksum wire, toIPAddr dst, mkConn (server c) (id c) (tag c) seq).

(** One turn of the loop of [ReadFrom]. *)
Definition receive (msg : list Z) (peer : Addr) (c : icmpConn) : option (list Z * Addr) :=
  let wantType := if server c then icmpEchoRequest else icmpEchoReply in
  if (length msg <? 8)%nat || negb (at_ msg 0 =? wantType) then None
  else
    let echoID := Z.lor (Z.shiftl (at_ msg 4) 8) (at_ msg 5) in
    if negb (server c) && negb (echoID =? id c) then None
    else
      match decodeXdiPayload (tag c) (inboundDir (server c)) (drop 8 msg) with
      | None => None
      | Some payload => Some (payload, peerAddr peer echoID c)
      end.

Fixpoint ReadFrom (cap : nat) (reads : list (list Z * Addr)) (c : icmpConn) : option (list Z * Addr) :=
  match reads with
  | [] => None
  | (msg, peer) :: reads =>
      match receive msg peer c with
      | None => ReadFrom cap reads c
      | Some (payload, a) => Some (take cap payload, a)
      end
  end.

(** ** Lemmas: identifiers *)

Lemma walk_spec used : ∀ n i, 1 ≤ i → i + Z.of_nat n ≤ 2^16 →
  match walk n i used with
  | Some j => i ≤ j < i + Z.of_nat n ∧ j ∉ used
  | None => ∀ j, i ≤ j < i + Z.of_nat n → j ∈ used
  end.
Proof.
  induction n as [|n IH]; intros i Hi Hle; cbn [walk]; [intros; lia|].
  destruct (decide (i ∈ used)) as [Hin|Hout]; [|split; [lia|done]].
  destruct n as [|n]; [cbn [walk]; intros j Hj; by replace j with i by lia|].
  rewrite u16_small by lia. specialize (IH (i + 1) ltac:(lia) ltac:(lia)).
  destruct (walk (S n) (i + 1) used) as [j|].
  - destruct IH. split; [lia|done].
  - intros j Hj. destruct (decide (j = i)) as [->|]; [done|]. apply IH. lia.
Qed.

(** An identifier is its own unless every one is taken. *)
Lemma acquire_fresh reads used i used' :
  Forall (λ r, match r with None => True | Some b => bytes_ok b ∧ length b = 2%nat end) reads →
  acquireXdiSessionID reads used = Some (i, used') →
  (1 ≤ i < 2^16 ∧ i ∉ used ∧ used' = {[i]} ∪ used) ∨ (∀ j, 1 ≤ j < 2^16 → j ∈ used).
Proof.
  induction 1 as [|r reads Hr Hreads IH]; cbn [acquireXdiSessionID]; [done|].
  destruct r as [b|].
  - destruct Hr as [Hb Hl]. pose proof (get_be_bound b Hb) as Hg. unfold zlen in Hg. rewrite Hl in Hg.
    destruct (Z.eqb_spec (get_be b) 0); [done|]. destruct (decide (get_be b ∈ used)); [done|].
    intros [= <- <-]. left. split_and!; [lia|change (2^16) with (256^2); lia|done|done].
  - pose proof (walk_spec used (Z.to_nat 65535) 1 ltac:(lia) ltac:(lia)) as Hw.
    destruct (walk _ 1 used) as [j|]; intros [= <- <-].
    + destruct Hw. left. split_and!; [lia|lia|done|done].
    + right. intros j Hj. apply Hw. lia.
Qed.

(** ** Lemmas: framing *)

Lemma echo_bytes v : 0 ≤ v < 2^16 → [u8 (Z.shiftr v 8); u8 v] = put_be 2 v.
Proof.
  intros Hv. unfold put_be. rewrite Z.shiftr_div_pow2 by lia. unfold u8. change (2^8) with 256.
  replace (Z.of_nat 1) with 1 by lia. replace (Z.of_nat 0) with 0 by lia. by rewrite Z.pow_1_r, Z.pow_0_r, Z.div_1_r.
Qed.

Lemma encode_append tag dir p : length tag = 4%nat → encodeXdiPayload tag dir p = appendXdiPayload [] tag dir p.
Proof.
  intros Ht. unfold encodeXdiPayload, appendXdiPayload, xdiHeaderLen, xdiTagLen. cbv zeta. rewrite replicate_add.
  apply length4 in Ht as (a & b & c & d & ->).
  assert (length (replicate (length p) 0) = length p) as Hr by apply length_replicate.
  set (r := replicate (length p) 0) in *. clearbody r.
  match goal with |- blit _ (length ?b0) p ?b0 = _ =>
    assert (b0 = [a; b; c; d; dir] ++ r) as -> by (buf_cbv; reflexivity) end.
  rewrite (blit_tail 5 _ p [a; b; c; d; dir] r) by (done || (rewrite length_app; cbn; lia)). reflexivity.
Qed.

Lemma decode_own tag dir d p : length tag = 4%nat →
  decodeXdiPayload tag dir (tag ++ [d] ++ p) = if d =? dir then Some p else None.
Proof.
  intros Ht. apply length4 in Ht as (a & b & c & e & ->). unfold decodeXdiPayload. cbn.
  rewrite !Z.eqb_refl. cbn. unfold at_ at 1. cbn. by destruct (d =? dir).
Qed.

Lemma decode_other tag tag' dir d p : length tag = 4%nat → length tag' = 4%nat → tag ≠ tag' →
  decodeXdiPayload tag' dir (tag ++ [d] ++ p) = None.
Proof.
  intros Ht Ht' Hne. apply length4 in Ht as (a & b & c & e & ->). apply length4 in Ht' as (a' & b' & c' & e' & ->).
  unfold decodeXdiPayload. cbn. unfold at_. cbn.
  destruct (Z.eqb_spec a a') as [->|]; [|done]. destruct (Z.eqb_spec b b') as [->|]; [|done].
  destruct (Z.eqb_spec c c') as [->|]; [|done]. destruct (Z.eqb_spec e e') as [->|]; [|done]. done.
Qed.

Lemma setICMPChecksum_eq pre2 r : length pre2 = 2%nat → bytes_ok (pre2 ++ [0; 0] ++ r) → zlen r < 65000 →
  setICMPChecksum (pre2 ++ [0; 0] ++ r) = pre2 ++ put_be 2 (onesComplement [pre2 ++ [0; 0] ++ r]) ++ r.
Proof.
  intros Hp Hb Hl. destruct pre2 as [|a [|b [|]]]; try discriminate Hp.
  assert (total [[a; b] ++ [0; 0] ++ r] = words ([a; b] ++ [0; 0] ++ r)) as Ht by (unfold total; cbn [foldr]; lia).
  pose proof (words_bound _ Hb) as Hw.
  assert (zlen ([a; b] ++ [0; 0] ++ r) = 4 + zlen r) as Hz by (rewrite !zlen_app; unfold zlen; cbn; lia). rewrite Hz in Hw.
  assert ((4 + zlen r + 1) / 2 ≤ 32502) by (apply Z.div_le_upper_bound; lia).
  destruct (onesComplement_spec [[a; b] ++ [0; 0] ++ r]) as (k & Hr & _); [by constructor|rewrite Ht; lia|].
  unfold setICMPChecksum. change (not16 _) with (onesComplement [[a; b] ++ [0; 0] ++ r]).
  cbv zeta. rewrite <- echo_bytes by done. set (cs := onesComplement _). clearbody cs. buf_cbv. reflexivity.
Qed.

(** The whole message, and its checksum. *)
Definition message (typ i q : Z) (tag : list Z) (dir : Z) (p : list Z) (cs : list Z) : list Z :=
  [typ; 0] ++ cs ++ put_be 2 i ++ put_be 2 q ++ tag ++ [dir] ++ p.

Lemma WriteTo_message p dst c :
  length (tag c) = 4%nat → bytes_ok (tag c) → bytes_ok p → zlen p ≤ 64000 →
  ∃ cs q, fst (fst (WriteTo p dst c)) =
    message (if server c then 0 else 8) (u16 (echoIDFor dst c)) q (tag c) (outboundDir (server c)) p cs ∧
    length cs = 2%nat ∧ onesComplement [fst (fst (WriteTo p dst c))] = 0.
Proof.
  intros Ht Hbt Hbp Hl. unfold WriteTo. cbn [fst].
  set (typ := if server c then icmpEchoReply else icmpEchoRequest). set (i := u16 (echoIDFor dst c)).
  set (q := u16 (u32 (seq_ c + 1))).
  set (r := put_be 2 i ++ put_be 2 q ++ tag c ++ [outboundDir (server c)] ++ p).
  assert (appendXdiPayload (appendEcho [] typ i q) (tag c) (outboundDir (server c)) p = [typ; 0] ++ [0; 0] ++ r) as ->.
  { unfold appendXdiPayload, appendEcho, r. rewrite <- !echo_bytes by apply u16_range. by rewrite <- !app_assoc. }
  assert (bytes_ok [typ; 0] ∧ bytes_ok [outboundDir (server c)]) as [Hty Hdir].
  { unfold typ. destruct (server c); by split; apply (bool_decide_unpack _). }
  assert (bytes_ok r) as Hr by (unfold r; rewrite !bytes_ok_app; auto using put_be_ok).
  assert (zlen r = 9 + zlen p) as Hzr.
  { unfold r. rewrite !zlen_app. unfold zlen at 1 2 3 4. rewrite !length_put_be, Ht. cbn [length]. lia. }
  assert (bytes_ok ([typ; 0] ++ [0; 0] ++ r)) as Hall.
  { rewrite !bytes_ok_app. split_and!; auto. by apply (bool_decide_unpack _). }
  rewrite setICMPChecksum_eq by (done || lia).
  exists (put_be 2 (onesComplement [[typ; 0] ++ [0; 0] ++ r])), q. split_and!; [|done|].
  - unfold message, r, typ. by destruct (server c).
  - pose proof (words_bound _ Hty) as Hw1. change ((zlen [typ; 0] + 1) / 2) with 1 in Hw1.
    pose proof (words_bound _ Hr) as Hw2. assert ((zlen r + 1) / 2 ≤ 32005) by (apply Z.div_le_upper_bound; lia).
    apply (checksum_verifies [] [typ; 0] r); auto; cbn [concat total foldr]; [constructor|lia].
Qed.

Lemma receive_message typ i q tg dir p cs peer c :
  0 ≤ i < 2^16 → length cs = 2%nat → length tg = 4%nat →
  receive (message typ i q tg dir p cs) peer c =
    if negb (typ =? if server c then 8 else 0) then None
    else if negb (server c) && negb (i =? id c) then None
    else match decodeXdiPayload (tag c) (inboundDir (server c)) (tg ++ [dir] ++ p) with
         | None => None
         | Some payload => Some (payload, peerAddr peer i c)
         end.
Proof.
  intros Hi Hcs Htg. unfold receive, message. destruct cs as [|c0 [|c1 [|]]]; try discriminate Hcs.
  rewrite (proj2 (Nat.ltb_ge _ _)) by (rewrite !length_app, !length_put_be, Htg; cbn [length]; lia). cbn [orb].
  replace (at_ _ 0) with typ by reflexivity. change (if server c then icmpEchoRequest else icmpEchoReply) with (if server c then 8 else 0).
  replace (drop 8 _) with (tg ++ [dir] ++ p) by reflexivity.
  destruct (negb _); [done|].
  assert (Z.lor (Z.shiftl (at_ ([typ; 0] ++ [c0; c1] ++ put_be 2 i ++ put_be 2 q ++ tg ++ [dir] ++ p) 4) 8)
            (at_ ([typ; 0] ++ [c0; c1] ++ put_be 2 i ++ put_be 2 q ++ tg ++ [dir] ++ p) 5) = i) as ->; [|done].
  rewrite <- (echo_bytes i) by done. change (at_ _ 4) with (u8 (Z.shiftr i 8)). change (at_ _ 5) with (u8 i).
  rewrite word_lor by apply u8_range. rewrite Z.shiftr_div_pow2 by lia. unfold u8.
  assert (i `div` 256 < 256) by (apply Z.div_lt_upper_bound; lia). pose proof (Z.div_pos i 256).
  change (2^8) with 256. rewrite (Z.mod_small (i `div` 256)) by lia. pose proof (Z.div_mod i 256). lia.
Qed.

(** C8: sessions inside ping stay apart. Of a tunnel's messages, whatever the
    payload: the server reads a client's message whole and learns the client's
    address and session identifier; its answer to that address is read whole
    by the client of that session, and by no client holding another identifier
    (a client that draws its identifier while this one is in use always holds
    another, unless all 65535 are taken); the answer the server's own kernel
    gives to a client's message, which copies everything but the type, is read
    by no client; a tunnel with another tag reads nothing of it; and the
    checksums verify. *)
Theorem xdi_carries sum i q p p' cip sip peer :
  (4 ≤ length sum)%nat → bytes_ok sum → 1 ≤ i < 2^16 → bytes_ok p → bytes_ok p' → zlen p ≤ 64000 → zlen p' ≤ 64000 →
  let s := newICMPServerConn sum in
  let c := mkConn false i (xdiTag sum) q in
  let msg := fst (fst (WriteTo p (IPAddr sip) c)) in
  let answer := fst (fst (WriteTo p' (UDPAddr cip i) s)) in
  receive msg (IPAddr cip) s = Some (p, UDPAddr cip i) ∧
  (∀ j q', receive answer peer (mkConn false j (xdiTag sum) q') = if i =? j then Some (p', peer) else None) ∧
  (∀ reads used j used',
     Forall (λ r, match r with None => True | Some b => bytes_ok b ∧ length b = 2%nat end) reads →
     i ∈ used → ¬ (∀ k, 1 ≤ k < 2^16 → k ∈ used) → acquireXdiSessionID reads used = Some (j, used') →
     receive answer peer (newICMPClientConn sum j) = None) ∧
  (∀ cs j q', length cs = 2%nat → receive ([0; 0] ++ cs ++ drop 4 msg) peer (mkConn false j (xdiTag sum) q') = None) ∧
  (∀ sum', (4 ≤ length sum')%nat → xdiTag sum' ≠ xdiTag sum → receive msg peer (newICMPServerConn sum') = None) ∧
  onesComplement [msg] = 0 ∧ onesComplement [answer] = 0.
Proof.
  intros Hs Hbs Hi Hp Hp' Hl Hl'. cbv zeta. set (t := xdiTag sum).
  assert (length t = 4%nat) as Ht by (unfold t, xdiTag, xdiTagLen; rewrite length_take; lia).
  assert (bytes_ok t) as Hbt by (unfold t, xdiTag; auto with go).
  destruct (WriteTo_message p (IPAddr sip) (mkConn false i t q)) as (cs & n & Hm & Hcs & Hc1); auto.
  destruct (WriteTo_message p' (UDPAddr cip i) (newICMPServerConn sum)) as (cs' & n' & Hm' & Hcs' & Hc2); auto.
  cbn [server tag id echoIDFor negb newICMPServerConn outboundDir] in Hm, Hm'. fold t in Hm'. rewrite u16_small in Hm, Hm' by lia.
  assert (∀ j q', receive (message 0 i n' t xdiDirServer p' cs') peer (mkConn false j t q') =
    if i =? j then Some (p', peer) else None) as Hans.
  { intros j q'. rewrite receive_message by (done || lia). cbn [server id tag negb andb Z.eqb inboundDir].
    destruct (i =? j); cbn [negb]; [|done]. by rewrite decode_own. }
  rewrite Hm, Hm' in *. split_and!.
  - rewrite receive_message by (done || lia). cbn [newICMPServerConn server tag negb andb inboundDir]. fold t.
    by rewrite decode_own.
  - exact Hans.
  - intros reads used j used' Hr Hin Hfree Hacq. unfold newICMPClientConn. fold t. rewrite Hans.
    destruct (acquire_fresh reads used j used' Hr Hacq) as [(_ & Hj & _)|Hall]; [|done].
    destruct (Z.eqb_spec i j) as [->|]; done.
  - intros cs0 j q' Hcs0.
    change ([0; 0] ++ cs0 ++ drop 4 (message 8 i n t xdiDirClient p cs)) with
      ([0; 0] ++ cs0 ++ drop 4 ([8; 0] ++ cs ++ put_be 2 i ++ put_be 2 n ++ t ++ [xdiDirClient] ++ p)).
    rewrite (app_assoc [8; 0]), drop_app_length' by (rewrite length_app, Hcs; done).
    fold (message 0 i n t xdiDirClient p cs0). rewrite receive_message by (done || lia).
    cbn [server tag id negb andb Z.eqb inboundDir]. destruct (negb (i =? j)); [done|]. by rewrite decode_own.
  - intros sum' Hs' Hne. rewrite receive_message by (done || lia).
    cbn [newICMPServerConn server tag negb andb inboundDir]. rewrite decode_other; [done|done| |done].
    unfold xdiTag, xdiTagLen. rewrite length_take. lia.
  - exact Hc1.
  - exact Hc2.
Qed.

Lemma xdi_carries_witness :
  receive (fst (fst (WriteTo [1; 2; 3] (IPAddr [10; 0; 0; 2]) (mkConn false 7 (xdiTag [9; 8; 7; 6]) 0))))
    (IPAddr [10; 0; 0; 1]) (newICMPServerConn [9; 8; 7; 6]) = Some ([1; 2; 3], UDPAddr [10; 0; 0; 1] 7).
Proof.
  apply (xdi_carries [9; 8; 7; 6] 7 0 [1; 2; 3] [] [10; 0; 0; 1] [10; 0; 0; 2] (IPAddr []));
    try (by apply (bool_decide_unpack _)); try (by vm_compute); try lia.
Defined.

End Xdi.

(** ** Datagrams over a stream *)

Module Datagram.
Import GoStr.

Definition MaxDatagram : nat := Z.to_nat 65535.
Definition udpScheme : string := "udp://".

Definition MarkUDP (addr : string) : string := udpScheme +:+ addr.

Definition SplitUDPTarget (addr : string) : string * bool :=
  match strip_prefix udpScheme addr with
  | Some rest => (rest, true)
  | None => (addr, false)
  end.

Inductive error : Type :=
| errTooLarge
| errDoesNotFit
| EOF
| ErrUnexpectedEOF.

(** What [WriteDatagram] writes; the frame goes out in one write. *)
Definition WriteDatagram (payload : list Z) : result error (list Z) :=
  if (MaxDatagram <? length payload)%nat then Err errTooLarge
  else
    let frame := replicate (2 + length payload) 0 in
    let frame := Buf.put16 0 (u16 (zlen payload)) frame in
    Ok (Buf.blit 2 (length frame) payload frame).

(** [io.ReadFull] of [n] bytes from what a stream still holds. *)
Definition ReadFull (n : nat) (stream : list Z) : result error (list Z) * list Z :=
  if (n <=? length stream)%nat then (Ok (take n stream), drop n stream)
  else (Err (if (length stream =? 0)%nat then EOF else ErrUnexpectedEOF), []).

(** [ReadDatagram] into a buffer of [cap] bytes; the stream after it. *)
Definition ReadDatagram (cap : nat) (stream : list Z) : result error (list Z) * list Z :=
  match ReadFull 2 stream with
  | (Err e, stream) => (Err e, stream)
  | (Ok hdr, stream) =>
      let size := Z.to_nat (get_be hdr) in
      if (cap <? size)%nat then (Err errDoesNotFit, stream)
      else if (size =? 0)%nat then (Ok [], stream)
      else
        match ReadFull size stream with
        | (Err e, stream) => (Err e, stream)
        | (Ok p, stream) => (Ok p, stream)
        end
  end.

(** A peer writing one after the other, and one reading until an error. *)
Fixpoint write_all (ps : list (list Z)) : result error (list Z) :=
  match ps with
  | [] => Ok []
  | p :: ps => let? f := WriteDatagram p in let? r := write_all ps in Ok (f ++ r)
  end.

Fixpoint read_all (fuel cap : nat) (stream : list Z) : list (list Z) * option error :=
  match fuel with
  | O => ([], None)
  | S fuel =>
      match ReadDatagram cap stream with
      | (Err e, _) => ([], Some e)
      | (Ok p, stream) => let '(ps, e) := read_all fuel cap stream in (p :: ps, e)
      end
  end.

Lemma WriteDatagram_eq p : (length p ≤ MaxDatagram)%nat → WriteDatagram p = Ok (put_be 2 (zlen p) ++ p).
Proof.
  intros Hp. unfold WriteDatagram. rewrite (proj2 (Nat.ltb_ge _ _)) by done. cbv zeta. rewrite replicate_add.
  unfold MaxDatagram in Hp. rewrite u16_small by (unfold zlen; lia).
  assert (length (replicate (length p) 0) = length p) as Hr by apply length_replicate.
  set (r := replicate (length p) 0) in *. clearbody r.
  assert (Buf.put16 0 (zlen p) (replicate 2 0 ++ r) = put_be 2 (zlen p) ++ r) as -> by reflexivity.
  f_equal. apply Buf.blit_tail; [done|done|]. rewrite length_app, length_put_be. lia.
Qed.

Lemma ReadDatagram_frame cap p rest :
  (length p ≤ MaxDatagram)%nat → (length p ≤ cap)%nat →
  ReadDatagram cap ((put_be 2 (zlen p) ++ p) ++ rest) = (Ok p, rest).
Proof.
  intros Hp Hc. unfold ReadDatagram, ReadFull. rewrite <- app_assoc. unfold MaxDatagram in Hp.
  rewrite (proj2 (Nat.leb_le _ _)) by (rewrite length_app, length_put_be; lia).
  rewrite take_app_length', drop_app_length' by done. rewrite get_put_be_small by (unfold zlen; lia).
  unfold zlen. rewrite Nat2Z.id, (proj2 (Nat.ltb_ge _ _)) by lia.
  destruct (Nat.eqb_spec (length p) 0) as [E|E]; [by destruct p|].
  rewrite (proj2 (Nat.leb_le _ _)) by (rewrite length_app; lia).
  by rewrite take_app_length, drop_app_length.
Qed.

(** Forwarded datagrams keep their boundaries. Whatever datagrams one end
    writes, the empty ones included, the other end, reading into a buffer of
    the documented size, gets exactly those, in order, and then the end of the
    stream; a stream cut anywhere inside a datagram ends in an error after the
    whole ones, never in a wrong datagram; and only a datagram longer than
    65535 bytes is refused. *)
Theorem datagram_stream ps cap :
  Forall (λ p, (length p ≤ MaxDatagram)%nat) ps → (MaxDatagram ≤ cap)%nat →
  ∃ stream, write_all ps = Ok stream ∧
    read_all (S (length ps)) cap stream = (ps, Some EOF) ∧
    ∀ p n, (length p ≤ MaxDatagram)%nat → (0 < n < 2 + length p)%nat →
      read_all (S (length ps)) cap (stream ++ take n (put_be 2 (zlen p) ++ p)) =
        (ps, Some (if (n =? 2)%nat then EOF else ErrUnexpectedEOF)).
Proof.
  intros Hps Hcap. induction Hps as [|p0 ps Hp0 Hps IH].
  - exists []. split; [done|]. split; [done|]. intros p n Hp Hn. cbn [app read_all length].
    unfold ReadDatagram, ReadFull. rewrite length_take, length_app, length_put_be.
    destruct (Nat.leb_spec 2 (Nat.min n (2 + length p))) as [H2|H2].
    + rewrite take_take, Nat.min_l by lia. rewrite take_app_length' by done.
      unfold MaxDatagram in *. rewrite get_put_be_small by (unfold zlen; lia). unfold zlen. rewrite Nat2Z.id.
      rewrite (proj2 (Nat.ltb_ge _ _)), (proj2 (Nat.eqb_neq _ _)) by lia.
      rewrite (proj2 (Nat.leb_gt _ _)) by (rewrite length_drop, length_take, length_app, length_put_be; lia).
      rewrite length_drop, length_take, length_app, length_put_be.
      destruct (Nat.eqb_spec n 2) as [->|]; [by rewrite (proj2 (Nat.eqb_eq _ _)) by lia|].
      by rewrite (proj2 (Nat.eqb_neq _ _)) by lia.
    + assert (n = 1%nat) as -> by lia. done.
  - destruct IH as (stream & Hw & Hr & Hcut). exists ((put_be 2 (zlen p0) ++ p0) ++ stream).
    cbn [write_all]. rewrite WriteDatagram_eq by done. cbn [result_bind]. rewrite Hw. cbn [result_bind].
    split; [done|]. change (length (p0 :: ps)) with (S (length ps)). set (k := S (length ps)) in *. clearbody k. split.
    + cbn [read_all]. rewrite ReadDatagram_frame by lia. by rewrite Hr.
    + intros p n Hp Hn. rewrite <- app_assoc. cbn [read_all]. rewrite ReadDatagram_frame by lia. by rewrite Hcut.
Qed.

Lemma datagram_stream_witness :
  ∃ stream, write_all [[1; 2]; []; [3]] = Ok stream ∧ read_all 4 MaxDatagram stream = ([[1; 2]; []; [3]], Some EOF).
Proof.
  destruct (datagram_stream [[1; 2]; []; [3]] MaxDatagram) as (stream & H1 & H2 & _).
  - rewrite !Forall_cons. unfold MaxDatagram. cbn [length]. split_and!; [lia|lia|lia|apply Forall_nil; done].
  - apply Nat.le_refl.
  - by exists stream.
Defined.

End Datagram.
