(* ===== verification/Chain.v ===== *)
(** The transport chain of [src/internal/tunnel/chain/chain.go]: the list of
    candidates, the window each one gets, and one attempt as a state machine
    fed with what its [select] sees (Module [Chain]). Times are nanoseconds. *)

From Stdlib Require Import Ascii String.
From S2P Require Import Prelude.
Open Scope string_scope.
Open Scope list_scope.
Open Scope Z_scope.

Module Chain.

Definition Millisecond : Z := 1000 * 1000.
Definition Second : Z := 1000 * Millisecond.
Definition Minute : Z := 60 * Second.

Record Chain : Type := mkChain {
  candidates : list string;
  dwell : Z;
  regrace : Z;
  teardown : Z;
  poll : Z;
  windowFloor : Z
}.

(** The loop of [New]; [seen] is the map of names already taken. *)
Fixpoint collect (seen : list string) (names : list string) : list string :=
  match names with
  | [] => []
  | name :: names =>
      if String.eqb name "" || existsb (String.eqb name) seen then collect seen names
      else name :: collect (name :: seen) names
  end.

Definition New (primary : string) (fallbacks : list string) (dwell : Z) : Chain :=
  mkChain (collect [] (primary :: fallbacks)) dwell (5 * Minute) (3 * Second) (250 * Millisecond) (5 * Second).

Definition Single (c : Chain) : bool := (length (candidates c) <=? 1)%nat.

Definition attemptWindow (sweep : bool) (c : Chain) : Z :=
  if negb sweep || (length (candidates c) <? 2)%nat then dwell c
  else
    let w := dwell c `quot` Z.of_nat (length (candidates c)) in
    if w <? windowFloor c then windowFloor c else w.

(** [Run]: the name of the [i]-th attempt; [None] when there is nothing to
    run and [Run] only waits for its context. *)
Definition candidate (c : Chain) (i : nat) : option string :=
  candidates c !! (i mod length (candidates c))%nat.

(** ** One attempt *)

(** Why [attempt] returns. *)
Inductive ending : Type :=
| Cancelled
| DidNotComeUp
| TakenAway.

(** Where [attempt] stands: watching for the candidate to settle, waiting for
    the context only, holding a settled candidate ([downSince] of [hold]), or
    returned. *)
Inductive phase : Type :=
| Watching
| Parked
| Holding (downSince : option Z)
| Ended (why : ending).

(** What a [select] receives: the context's end, the deadline, or a tick, with
    what [Settled] answers then and the time. *)
Inductive event : Type :=
| Done
| Deadline
| Tick (settled : bool) (now : Z).

(** [Settled] may be nil. *)
Definition start (hasSettled : bool) : phase := if hasSettled then Watching else Parked.

Definition step (c : Chain) (p : phase) (e : event) : phase :=
  match p, e with
  | Ended w, _ => Ended w
  | _, Done => Ended Cancelled
  | Watching, Deadline => if (length (candidates c) =? 1)%nat then Parked else Ended DidNotComeUp
  | Watching, Tick settled _ => if settled then Holding None else Watching
  | Parked, _ => Parked
  | Holding d, Deadline => Holding d
  | Holding d, Tick settled now =>
      if settled then Holding None
      else
        match d with
        | None => Holding (Some now)
        | Some since => if regrace c <=? now - since then Ended TakenAway else Holding d
        end
  end.

Definition attempt (c : Chain) (p : phase) (es : list event) : phase := foldl (step c) p es.

(** The wait of the deferred function, once an attempt has returned. *)
Definition settleDown (c : Chain) : Z := if (1 <? length (candidates c))%nat then teardown c else 0.

(** When the [i]-th attempt of a sweep starts, and when its deadline fires, if
    no candidate settles. *)
Fixpoint startTime (c : Chain) (sweep : bool) (i : nat) : Z :=
  match i with
  | O => 0
  | S i => startTime c sweep i + attemptWindow sweep c + settleDown c
  end.

Definition deadlineTime (c : Chain) (sweep : bool) (i : nat) : Z := startTime c sweep i + attemptWindow sweep c.

(** ** Lemmas *)

Lemma existsb_in name seen : existsb (String.eqb name) seen = true ↔ name ∈ seen.
Proof.
  rewrite existsb_exists. setoid_rewrite String.eqb_eq. split.
  - intros (x & Hx & ->). by apply list_elem_of_In.
  - intros H. exists name. split; [by apply list_elem_of_In|done].
Qed.

Lemma collect_spec names : ∀ seen,
  NoDup (collect seen names) ∧
  ∀ x, x ∈ collect seen names ↔ x ∈ names ∧ x ≠ "" ∧ x ∉ seen.
Proof.
  induction names as [|name names IH]; intros seen; cbn [collect].
  { split; [constructor|]. intros x. rewrite elem_of_nil. tauto. }
  destruct (String.eqb_spec name "") as [->|Hne]; cbn [orb].
  { destruct (IH seen) as [H1 H2]. split; [done|]. intros x. rewrite H2, elem_of_cons. split; [tauto|].
    intros ([->|Hx] & Hx2 & Hx3); [done|tauto]. }
  destruct (existsb (String.eqb name) seen) eqn:E.
  - apply existsb_in in E. destruct (IH seen) as [H1 H2]. split; [done|]. intros x. rewrite H2, elem_of_cons.
    split; [tauto|]. intros ([->|Hx] & Hx2 & Hx3); [done|tauto].
  - assert (name ∉ seen) as Hn by (intros H; apply existsb_in in H; congruence).
    destruct (IH (name :: seen)) as [H1 H2]. split.
    + constructor; [|done]. rewrite H2. intros (_ & _ & H). apply H. apply list_elem_of_here.
    + intros x. rewrite !elem_of_cons, H2, not_elem_of_cons. split.
      * intros [->|(Hx & Hx2 & Hx3 & Hx4)]; auto.
      * intros ([->|Hx] & Hx2 & Hx3); auto. destruct (decide (x = name)) as [->|]; auto.
Qed.

(** A tick that finds the candidate down. *)
Definition down (e : event) : Prop := match e with Tick s _ => s = false | Deadline => True | Done => False end.

Lemma attempt_app c p es es' : attempt c p (es ++ es') = attempt c (attempt c p es) es'.
Proof. apply foldl_app. Qed.

Lemma attempt_ended c w es : attempt c (Ended w) es = Ended w.
Proof. induction es; done. Qed.

(** While it holds, [downSince] is the first tick of an unbroken run of ticks
    that found it down. *)
Definition down_run (es : list event) (d : option Z) : Prop :=
  match d with
  | None => True
  | Some since => ∃ pre mid, es = pre ++ Tick false since :: mid ∧ Forall down mid
  end.

Lemma holding_run c es : ∀ d,
  attempt c (Holding None) es = Holding d → down_run es d.
Proof.
  induction es as [|e es IH] using rev_ind; intros d; [by intros [= <-]|].
  rewrite attempt_app. destruct (attempt c (Holding None) es) as [| |d0|w] eqn:E; cbn.
  - destruct e as [| |[] ?]; try done; [by destruct (_ =? _)%nat|by intros [= <-]].
  - by destruct e.
  - specialize (IH d0 eq_refl). destruct e as [| |[] now]; try done.
    + intros [= <-]. destruct d0 as [since|]; [|done]. destruct IH as (pre & mid & -> & Hmid).
      exists pre, (mid ++ [Deadline]). rewrite <- app_assoc. split; [done|]. apply Forall_app_2; [done|by constructor].
    + by intros [= <-].
    + destruct d0 as [since|].
      * destruct (regrace c <=? now - since); [done|]. intros [= <-]. destruct IH as (pre & mid & -> & Hmid).
        exists pre, (mid ++ [Tick false now]). rewrite <- app_assoc. split; [done|]. apply Forall_app_2; [done|by constructor].
      * intros [= <-]. exists es, []. done.
  - done.
Qed.

Lemma never_down_again c es : attempt c (Holding None) es ≠ Watching ∧ attempt c (Holding None) es ≠ Parked.
Proof.
  induction es as [|e es [IH1 IH2]] using rev_ind; [done|]. rewrite attempt_app.
  destruct (attempt c (Holding None) es) as [| |d|w]; try done. cbn.
  destruct e as [| |[] now]; try done. destruct d; [|done]. by destruct (regrace c <=? now - z).
Qed.

(** A settled candidate is given up only when it has really been taken
    away. From the moment a candidate settles, [attempt] returns on its own
    only on a tick that finds it down, after an unbroken run of ticks that
    found it down and that began at least [regrace] earlier; and such a run
    always makes it return. *)
Theorem hold_patience c es e :
  (∃ d, attempt c (Holding None) es = Holding d) → e ≠ Done →
  (attempt c (Holding None) (es ++ [e]) = Ended TakenAway ↔
   ∃ now since, e = Tick false now ∧ regrace c ≤ now - since ∧ attempt c (Holding None) es = Holding (Some since)) ∧
  (attempt c (Holding None) (es ++ [e]) = Ended TakenAway →
   ∃ now since pre mid, e = Tick false now ∧ regrace c ≤ now - since ∧
     es = pre ++ Tick false since :: mid ∧ Forall down mid).
Proof.
  intros [d Hd] He. rewrite attempt_app, Hd. cbn.
  assert (step c (Holding d) e = Ended TakenAway ↔
    ∃ now since, e = Tick false now ∧ regrace c ≤ now - since ∧ Holding d = Holding (Some since)) as H.
  { destruct e as [| |[] now]; cbn; try done.
    - split; [done|]. by intros (? & ? & ? & _).
    - split; [done|]. by intros (? & ? & ? & _).
    - destruct d as [since|].
      + destruct (Z.leb_spec (regrace c) (now - since)).
        * split; [|done]. intros _. by exists now, since.
        * split; [done|]. intros (n & s & [= <-] & Hr & [= <-]). lia.
      + split; [done|]. by intros (? & ? & _ & _ & ?). }
  split; [exact H|]. intros He'. apply H in He' as (now & since & -> & Hr & [= ->]).
  destruct (holding_run c es _ Hd) as (pre & mid & -> & Hmid). by exists now, since, pre, mid.
Qed.

Lemma hold_patience_witness :
  attempt (New "tcp" ["kcp"] (60 * Second)) (Holding None) [Tick false 0; Tick false (5 * Minute)] = Ended TakenAway.
Proof.
  apply (hold_patience (New "tcp" ["kcp"] (60 * Second)) [Tick false 0] (Tick false (5 * Minute))).
  - by eexists.
  - done.
  - exists (5 * Minute), 0. done.
Defined.

Lemma startTime_eq c sweep i : startTime c sweep i = Z.of_nat i * (attemptWindow sweep c + settleDown c).
Proof. induction i as [|i IH]; [done|]. cbn [startTime]. rewrite IH. lia. Qed.

(** The sweep does not fit the dwell. The package comment promises that
    the client tries every candidate at least once inside one server dwell;
    but the client also waits out the teardown between attempts, which the
    division of the dwell does not allow for: with two candidates or more the
    last one's window always ends after the dwell has, and by the floor of
    five seconds it may not even have started by then. The rotation itself is
    sound: no name is blank or tried twice in a sweep, each one configured is
    tried, and the list wraps. *)
Theorem sweep_exceeds_dwell primary fallbacks d :
  0 ≤ d → let c := New primary fallbacks d in
  (2 ≤ length (candidates c))%nat →
  d < deadlineTime c true (length (candidates c) - 1) ∧
  (d < 8 * Second * (Z.of_nat (length (candidates c)) - 1) → d < 5 * Second * Z.of_nat (length (candidates c)) →
     d < startTime c true (length (candidates c) - 1)) ∧
  NoDup (candidates c) ∧ (∀ x, x ∈ candidates c ↔ x ∈ primary :: fallbacks ∧ x ≠ "") ∧
  (∀ i, candidate c (i + length (candidates c)) = candidate c i) ∧
  (∀ x, x ∈ candidates c → ∃ i, (i < length (candidates c))%nat ∧ candidate c i = Some x).
Proof.
  intros Hd c Hn. destruct (collect_spec (primary :: fallbacks) []) as [Hnd Hin].
  fold (candidates c) in Hnd, Hin. change (collect [] (primary :: fallbacks)) with (candidates c) in *.
  set (n := length (candidates c)) in *.
  assert (dwell c = d ∧ windowFloor c = 5 * Second ∧ teardown c = 3 * Second) as (Hdw & Hfl & Htd) by done.
  assert (settleDown c = 3 * Second) as Hs by (unfold settleDown; fold n; by rewrite (proj2 (Nat.ltb_lt _ _)) by lia).
  assert (attemptWindow true c = Z.max (d `quot` Z.of_nat n) (5 * Second)) as Hw.
  { unfold attemptWindow. fold n. rewrite (proj2 (Nat.ltb_ge _ _)) by lia. cbn [negb orb]. rewrite Hdw, Hfl.
    destruct (Z.ltb_spec (d `quot` Z.of_nat n) (5 * Second)); lia. }
  pose proof (Z.quot_div_nonneg d (Z.of_nat n) Hd ltac:(lia)) as Hq.
  pose proof (Z.div_mod d (Z.of_nat n) ltac:(lia)) as Hdm. pose proof (Z.mod_pos_bound d (Z.of_nat n) ltac:(lia)).
  set (w := attemptWindow true c) in *.
  assert (d `div` Z.of_nat n ≤ w ∧ 5 * Second ≤ w) as [Hw1 Hw2] by lia.
  assert (Z.of_nat (n - 1) = Z.of_nat n - 1) as Hn1 by lia.
  unfold deadlineTime. rewrite startTime_eq, Hs, Hn1. fold w. unfold Second, Millisecond in *. split_and!.
  - nia.
  - intros H8 H5. nia.
  - exact Hnd.
  - intros x. rewrite Hin. split; [tauto|]. intros [? ?]. split_and!; auto. apply not_elem_of_nil.
  - intros i. unfold candidate. fold n. f_equal. replace (i + n)%nat with (i + 1 * n)%nat by lia. apply Nat.Div0.mod_add.
  - intros x Hx. apply list_elem_of_lookup_1 in Hx as [i Hi]. exists i. pose proof (lookup_lt_Some _ _ _ Hi) as Hlt.
    split; [done|]. unfold candidate. fold n. by rewrite Nat.mod_small.
Qed.

Lemma sweep_exceeds_dwell_witness :
  let c := New "tcp" ["kcp"; "ws"; "quic"; "udp"] (20 * Second) in
  20 * Second < startTime c true 4 ∧ 60 * Second < deadlineTime (New "tcp" ["kcp"; "kcp"; ""] (60 * Second)) true 1.
Proof.
  split.
  - apply (sweep_exceeds_dwell "tcp" ["kcp"; "ws"; "quic"; "udp"] (20 * Second)); vm_compute; first [done | lia].
  - apply (sweep_exceeds_dwell "tcp" ["kcp"; "kcp"; ""] (60 * Second)); vm_compute; first [done | lia].
Defined.

End Chain.
