(* ===== verification/GoSort.v ===== *)
(** Go's [sort.Strings] and the order on strings it sorts by. *)

From Stdlib Require Import Ascii String.
From stdpp Require Import sorting.
From S2P Require Import Prelude.
Open Scope list_scope.
Open Scope Z_scope.

Module GoSort.

(** [a <= b] on Go strings: byte by byte, a prefix first. *)
Definition str_le (a b : string) : Prop := String.leb a b = true.

#[export] Instance str_le_dec a b : Decision (str_le a b).
Proof. unfold str_le. apply _. Defined.

(** [a < b]. *)
Definition str_ltb (a b : string) : bool := String.ltb a b.

(** [sort.Strings]. *)
Definition Strings (l : list string) : list string := merge_sort str_le l.

(** ** Lemmas *)

Lemma ascii_compare a b : Ascii.compare a b = N.compare (N_of_ascii a) (N_of_ascii b).
Proof. done. Qed.

Lemma N_of_ascii_inj a b : N_of_ascii a = N_of_ascii b → a = b.
Proof. intros H. by rewrite <- (ascii_N_embedding a), H, ascii_N_embedding. Qed.

Lemma str_le_cons a s b t :
  str_le (String a s) (String b t) ↔ (N_of_ascii a < N_of_ascii b)%N ∨ a = b ∧ str_le s t.
Proof.
  unfold str_le, String.leb. cbn [String.compare]. rewrite ascii_compare.
  destruct (N.compare_spec (N_of_ascii a) (N_of_ascii b)) as [E|E|E].
  - apply N_of_ascii_inj in E as ->. split; [auto|]. intros [H|[_ H]]; [lia|done].
  - split; auto.
  - split; [done|]. intros [H|[-> _]]; lia.
Qed.

#[export] Instance str_le_total : Total str_le.
Proof. intros x y. destruct (leb_total x y); auto. Qed.

#[export] Instance str_le_trans : Transitive str_le.
Proof.
  intros x. induction x as [|a x IH]; intros [|b y] [|c z] H1 H2; try done.
  apply str_le_cons in H1, H2. apply str_le_cons.
  destruct H1 as [H1|[-> H1]], H2 as [H2|[-> H2]]; [left; lia|by left|by left|right; eauto].
Qed.

#[export] Instance str_le_antisymm : AntiSymm (=) str_le.
Proof. intros x y. apply leb_antisym. Qed.

Lemma Strings_Permutation l : Strings l ≡ₚ l.
Proof. apply merge_sort_Permutation. Qed.

Lemma Strings_sorted l : StronglySorted str_le (Strings l).
Proof. apply StronglySorted_merge_sort; apply _. Qed.

(** The result does not depend on the order of the input. *)
Lemma Strings_unique l k : l ≡ₚ k → Strings l = Strings k.
Proof.
  intros H. apply (StronglySorted_unique str_le); [apply Strings_sorted..|].
  by rewrite !Strings_Permutation.
Qed.

Lemma Strings_elem l x : x ∈ Strings l ↔ x ∈ l.
Proof. by rewrite Strings_Permutation. Qed.

End GoSort.
