(* ===== verification/Watch.v ===== *)
(** The watchdog of [src/internal/manage]: health by what a tunnel carries
    ([throughputhealth.go], Module [Flow]) and the loop that restarts tunnels
    ([watchdog.go], Module [Watchdog]).

    Times are nanoseconds since the Unix epoch; Go's zero [time.Time] is [None].
    A message is the arguments of its format. *)

From Stdlib Require Import Ascii String.
From S2P Require Import Prelude GoSort.
Open Scope string_scope.
Open Scope list_scope.
Open Scope Z_scope.

Module Flow.

Definition Second : Z := 1000 * 1000 * 1000.
Definition Minute : Z := 60 * Second.

Definition stallProgress : Z := 64 * 1024.
Definition stallChecks : Z := 5.
Definition stallRestartAfter : Z := 3 * Minute.
Definition stallGiveUpAfter : Z := 2.
Definition stallQuietFor : Z := 30 * Minute.

Inductive flowState : Type := flowUnknown | flowIdle | flowOK | flowStalled.

Record flowReading : Type := mkReading {
  rin : Z;
  rout : Z;
  runs : Z;
  since : option Z;
  direction : string;
  restarts : Z;
  reloaded : bool;
  quietUntil : option Z;
  reported : bool
}.

(** [newFlowWatch().seen]: the map holds pointers, one per name. *)
Notation flowWatch := (gmap string flowReading).

Definition newFlowWatch : flowWatch := ∅.

Definition forget (w : flowWatch) (name : string) : flowWatch := delete name w.

Definition delta (prev now : Z) : Z := if now <? prev then 0 else u64 (now - prev).

(** [clear], and the same with a run of [runs] lopsided checks. *)
Definition clear (r : flowReading) : flowReading :=
  mkReading (rin r) (rout r) 0 None "" 0 (reloaded r) None false.

Definition lopsided (r : flowReading) (dir : string) : flowReading :=
  mkReading (rin r) (rout r) (runs r + 1) (since r) dir (restarts r) (reloaded r) (quietUntil r) (reported r).

(** What the deltas of one reading say. *)
Inductive movement : Type := Nothing | OnlyIn | OnlyOut | Moving.

Definition moved (dIn dOut : Z) : movement :=
  if (dIn =? 0) && (dOut =? 0) then Nothing
  else if (stallProgress <=? dIn) && (dOut =? 0) then OnlyIn
  else if (stallProgress <=? dOut) && (dIn =? 0) then OnlyOut
  else Moving.

(** The tail of [observe], after a lopsided reading has been counted. *)
Definition judged (r : flowReading) (now : Z) : flowReading * flowState :=
  if runs r <? stallChecks then (r, flowOK)
  else
    (mkReading (rin r) (rout r) (runs r) (Some (default now (since r))) (direction r) (restarts r)
       (reloaded r) (quietUntil r) (reported r), flowStalled).

(** [observe] on a tunnel seen before. *)
Definition observe_reading (r : flowReading) (i o now : Z) : flowReading * flowState :=
  let m := moved (delta (rin r) i) (delta (rout r) o) in
  let r := mkReading i o (runs r) (since r) (direction r) (restarts r) (reloaded r) (quietUntil r) (reported r) in
  match m with
  | Nothing => (r, if stallChecks <=? runs r then flowStalled else flowIdle)
  | OnlyIn => judged (lopsided r "nothing is going out") now
  | OnlyOut => judged (lopsided r "nothing is coming back") now
  | Moving => (clear r, flowOK)
  end.

Definition fresh (i o : Z) : flowReading := mkReading i o 0 None "" 0 false None false.

Definition observe (w : flowWatch) (name : string) (i o now : Z) : flowWatch * flowState :=
  match w !! name with
  | None => (<[name := fresh i o]> w, flowUnknown)
  | Some r => let x := observe_reading r i o now in (<[name := fst x]> w, snd x)
  end.

Inductive stallAction : Type := stallWatch | stallReport | stallReload | stallRestart | stallGiveUp.

#[export] Instance stallAction_eq_dec : EqDecision stallAction.
Proof. solve_decision. Defined.

(** What the watchdog says: the arguments of the format. *)
Inductive message : Type :=
| NoMessage
| ConnectedBut (name dir : string)
| AskingReload (name dir : string)
| StillStalled (name : string) (restarts : Z) (dir : string)
| Restarting (name dir : string) (restarts : Z).

(** [decide] on a tunnel seen before. *)
Definition decide_reading (name : string) (r : flowReading) (now : Z) : flowReading * (stallAction * message) :=
  match since r with
  | None => (r, (stallWatch, NoMessage))
  | Some s =>
      if match quietUntil r with Some q => now <? q | None => false end then (r, (stallWatch, NoMessage))
      else if negb (reported r) then
        (mkReading (rin r) (rout r) (runs r) (Some s) (direction r) (restarts r) (reloaded r) (quietUntil r) true,
         (stallReport, ConnectedBut name (direction r)))
      else if now - s <? stallRestartAfter then (r, (stallWatch, NoMessage))
      else if negb (reloaded r) then
        (mkReading (rin r) (rout r) (runs r) (Some now) (direction r) (restarts r) true (quietUntil r) true,
         (stallReload, AskingReload name (direction r)))
      else if stallGiveUpAfter <=? restarts r then
        (mkReading (rin r) (rout r) (runs r) (Some s) (direction r) (restarts r) true (Some (now + stallQuietFor)) true,
         (stallGiveUp, StillStalled name (restarts r) (direction r)))
      else
        (mkReading (rin r) (rout r) (runs r) (Some now) (direction r) (restarts r + 1) true (quietUntil r) true,
         (stallRestart, Restarting name (direction r) (restarts r + 1)))
  end.

Definition decide (w : flowWatch) (name : string) (now : Z) : flowWatch * (stallAction * message) :=
  match w !! name with
  | None => (w, (stallWatch, NoMessage))
  | Some r => let x := decide_reading name r now in (<[name := fst x]> w, snd x)
  end.

(** ** Keeping the ladder across a restart

    The file is a map of [persistedReading]; encoding and decoding JSON give
    the map back, so [save] is what is written and [load] what is read. *)

Record persistedReading : Type := mkPersisted {
  In : Z;
  Out : Z;
  Runs : Z;
  Since : Z;
  Direction : string;
  Restarts : Z;
  QuietUntil : Z;
  Reported : bool;
  Reloaded : bool
}.

Definition Unix (t : Z) : Z := t `div` Second.

Definition unix_or_zero (t : option Z) : Z := match t with Some t => Unix t | None => 0 end.

Definition persist (r : flowReading) : persistedReading :=
  mkPersisted (rin r) (rout r) (runs r) (unix_or_zero (since r)) (direction r) (restarts r)
    (unix_or_zero (quietUntil r)) (reported r) (reloaded r).

Definition save (w : flowWatch) : gmap string persistedReading := persist <$> w.

Definition time_or_zero (s : Z) : option Z := if s =? 0 then None else Some (s * Second).

Definition restore (p : persistedReading) : flowReading :=
  mkReading (In p) (Out p) (Runs p) (time_or_zero (Since p)) (Direction p) (Restarts p)
    (Reloaded p) (time_or_zero (QuietUntil p)) (Reported p).

(** [load] into [w]; [None] is a file that cannot be read. *)
Definition load (w : flowWatch) (file : option (gmap string persistedReading)) : flowWatch :=
  match file with
  | None => w
  | Some f => (restore <$> f) ∪ w
  end.

(** ** One tunnel, check by check

    What [checkThroughput] does with one reading of the counters: [observe],
    and [decide] when it says the tunnel is stalled. *)
Definition check (name : string) (r : flowReading) (c : Z * Z * Z) : flowReading * stallAction :=
  let '(i, o, now) := c in
  let x := observe_reading r i o now in
  match snd x with
  | flowStalled => let y := decide_reading name (fst x) now in (fst y, fst (snd y))
  | _ => (fst x, stallWatch)
  end.

Fixpoint checks (name : string) (r : flowReading) (cs : list (Z * Z * Z)) : flowReading * list (Z * stallAction) :=
  match cs with
  | [] => (r, [])
  | c :: cs =>
      let x := check name r c in
      let y := checks name (fst x) cs in
      (fst y, (snd c, snd x) :: snd y)
  end.

(** The readings of [cs] never show both directions moving, or too little to
    say: the stall, if there is one, has not ended. *)
Fixpoint unbroken (i o : Z) (cs : list (Z * Z * Z)) : Prop :=
  match cs with
  | [] => True
  | (i', o', _) :: cs => moved (delta i i') (delta o o') ≠ Moving ∧ unbroken i' o' cs
  end.

(** How many of them show one direction moving and the other frozen. *)
Fixpoint lopsided_count (i o : Z) (cs : list (Z * Z * Z)) : Z :=
  match cs with
  | [] => 0
  | (i', o', _) :: cs =>
      match moved (delta i i') (delta o o') with OnlyIn | OnlyOut => 1 | _ => 0 end + lopsided_count i' o' cs
  end.

(** ** Lemmas: the ladder *)

Definition acts (a : stallAction) : Prop := a = stallReload ∨ a = stallRestart ∨ a = stallGiveUp.

(** [observe] while the stall has not ended: it counts, and keeps the rest. *)
Lemma observe_spec r i o now :
  moved (delta (rin r) i) (delta (rout r) o) ≠ Moving →
  let r' := fst (observe_reading r i o now) in
  rin r' = i ∧ rout r' = o ∧ runs r' = runs r + lopsided_count (rin r) (rout r) [(i, o, now)] ∧
  restarts r' = restarts r ∧ reloaded r' = reloaded r ∧ quietUntil r' = quietUntil r ∧ reported r' = reported r ∧
  (since r' = since r ∨ since r = None ∧ since r' = Some now) ∧
  (snd (observe_reading r i o now) = flowStalled → stallChecks ≤ runs r').
Proof.
  intros Hm. unfold observe_reading, lopsided_count.
  destruct (moved _ _); try done; unfold judged; cbn [lopsided runs since].
  - cbn. split_and!; auto; [lia|]. destruct (Z.leb_spec stallChecks (runs r)); auto; done.
  - destruct (Z.ltb_spec (runs r + 1) stallChecks); cbn; split_and!; auto; try lia; try done.
    destruct (since r); cbn; auto.
  - destruct (Z.ltb_spec (runs r + 1) stallChecks); cbn; split_and!; auto; try lia; try done.
    destruct (since r); cbn; auto.
Qed.

Definition quiet_over (r : flowReading) (now : Z) : Prop := ∀ q, quietUntil r = Some q → q ≤ now.

(** The rungs of [decide]: what each one needs and what it changes. *)
Inductive decided (r : flowReading) (now : Z) : flowReading → stallAction → Prop :=
| rung_watch : decided r now r stallWatch
| rung_report r' :
    quiet_over r now → reported r = false → reported r' = true → since r' = since r → restarts r' = restarts r →
    reloaded r' = reloaded r → quietUntil r' = quietUntil r → decided r now r' stallReport
| rung_reload r' s :
    quiet_over r now → since r = Some s → s + stallRestartAfter ≤ now → reported r' = reported r → reloaded r = false →
    since r' = Some now → restarts r' = restarts r → reloaded r' = true → quietUntil r' = quietUntil r →
    decided r now r' stallReload
| rung_giveup r' s :
    quiet_over r now → since r = Some s → s + stallRestartAfter ≤ now → reported r' = reported r → reloaded r = true →
    stallGiveUpAfter ≤ restarts r → since r' = Some s → restarts r' = restarts r → reloaded r' = true →
    quietUntil r' = Some (now + stallQuietFor) → decided r now r' stallGiveUp
| rung_restart r' s :
    quiet_over r now → since r = Some s → s + stallRestartAfter ≤ now → reported r' = reported r → reloaded r = true →
    restarts r < stallGiveUpAfter → since r' = Some now → restarts r' = restarts r + 1 → reloaded r' = true →
    quietUntil r' = quietUntil r → decided r now r' stallRestart.

Lemma decide_spec name r now :
  let x := decide_reading name r now in
  decided r now (fst x) (fst (snd x)) ∧
  rin (fst x) = rin r ∧ rout (fst x) = rout r ∧ runs (fst x) = runs r.
Proof.
  cbv zeta. unfold decide_reading. destruct (since r) as [s|] eqn:Es; [|split; [constructor|done]].
  destruct (match quietUntil r with Some q => now <? q | None => false end) eqn:Eq; [split; [constructor|done]|].
  assert (quiet_over r now) as Hq.
  { intros q Hq. rewrite Hq in Eq. by apply Z.ltb_ge in Eq. }
  destruct (reported r) eqn:Ep; cbn [negb]; [|split; [by apply rung_report|done]].
  destruct (Z.ltb_spec (now - s) stallRestartAfter); [split; [constructor|done]|].
  destruct (reloaded r) eqn:El; cbn [negb].
  - destruct (Z.leb_spec stallGiveUpAfter (restarts r)); (split; [|done]).
    + eapply rung_giveup; try done. lia.
    + eapply rung_restart; try done. lia.
  - split; [|done]. eapply rung_reload; try done. lia.
Qed.

(** One check while the stall has not ended. *)
Lemma check_spec name r i o now :
  moved (delta (rin r) i) (delta (rout r) o) ≠ Moving →
  ∃ r1, let r' := fst (check name r (i, o, now)) in let a := snd (check name r (i, o, now)) in
  rin r' = i ∧ rout r' = o ∧ runs r' = runs r + lopsided_count (rin r) (rout r) [(i, o, now)] ∧
  restarts r1 = restarts r ∧ reloaded r1 = reloaded r ∧ quietUntil r1 = quietUntil r ∧ reported r1 = reported r ∧
  (since r1 = since r ∨ since r = None ∧ since r1 = Some now) ∧
  decided r1 now r' a ∧ (a ≠ stallWatch → stallChecks ≤ runs r').
Proof.
  intros Hm. exists (fst (observe_reading r i o now)). cbv zeta.
  destruct (observe_spec r i o now Hm) as (H1 & H2 & H3 & H4 & H5 & H6 & H7 & H8 & H9).
  unfold check. destruct (snd (observe_reading r i o now)) eqn:Es; cbn [fst snd].
  1-3: split_and!; auto; first [by apply rung_watch|done].
  destruct (decide_spec name (fst (observe_reading r i o now)) now) as (D & D1 & D2 & D3).
  rewrite D1, D2, D3. split_and!; auto.
Qed.


(** Against the two clocks of the ladder. *)
Lemma check_clocks name r i o now s q :
  moved (delta (rin r) i) (delta (rout r) o) ≠ Moving →
  let x := check name r (i, o, now) in
  (since r = Some s →
     (acts (snd x) → s + stallRestartAfter ≤ now) ∧ ∃ s', since (fst x) = Some s' ∧ s ≤ s') ∧
  (quietUntil r = Some q →
     (snd x ≠ stallWatch → q ≤ now) ∧ ∃ q', quietUntil (fst x) = Some q' ∧ q ≤ q').
Proof.
  intros Hm. cbv zeta. destruct (check_spec name r i o now Hm) as (r1 & _ & _ & _ & _ & _ & Hq & _ & Hs & D & _).
  destruct (check name r (i, o, now)) as [r' a]. cbn [fst snd] in *.
  assert (0 ≤ stallQuietFor ∧ 0 ≤ stallRestartAfter) as [Hp1 Hp2] by done. split.
  - intros E. rewrite E in Hs. destruct Hs as [Hs|[? _]]; [|done]. unfold acts.
    destruct D; (split; [|eexists; split; [first [eassumption|etrans; eassumption]|]]);
      try (by intros [?|[?|?]]); simplify_eq; lia.
  - intros E. rewrite E in Hq. assert (quiet_over r1 now → q ≤ now) as Hq' by (intros H; by apply H).
    destruct D; (split; [auto; done|eexists; split; [first [eassumption|etrans; eassumption]|]]);
      try lia. specialize (Hq' ltac:(done)). lia.
Qed.

(** How often a step of the ladder is taken in a trace. *)
Definition taken (a : stallAction) (tr : list (Z * stallAction)) : Z :=
  zlen (filter (λ x, snd x = a) tr).

Lemma taken_cons a x tr : taken a (x :: tr) = (if base.decide (snd x = a) then 1 else 0) + taken a tr.
Proof. unfold taken, zlen. rewrite filter_cons. case_decide; cbn [length]; lia. Qed.

(** Unfold one check of an unbroken run. *)
Ltac one_check IH name r c cs Hu :=
  destruct c as [[i o] now]; destruct Hu as [Hm Hu]; cbn [checks fst snd];
  destruct (check_spec name r i o now Hm) as (? & Hi & Ho & _);
  specialize (IH (fst (check name r (i, o, now)))); rewrite Hi, Ho in IH; specialize (IH Hu).

Lemma trace_clocks name cs : ∀ r, unbroken (rin r) (rout r) cs →
  (∀ s, since r = Some s → Forall (λ x, acts (snd x) → s + stallRestartAfter ≤ fst x) (snd (checks name r cs))) ∧
  (∀ q, quietUntil r = Some q → Forall (λ x, snd x ≠ stallWatch → q ≤ fst x) (snd (checks name r cs))).
Proof.
  induction cs as [|c cs IH]; intros r Hu; [by split; constructor|]. one_check IH name r c cs Hu.
  split; intros z Hz.
  - destruct (check_clocks name r i o now z 0 Hm) as [[Ha (s' & Hs' & Hle)] _]; [done|].
    constructor; [exact Ha|]. eapply Forall_impl; [exact (proj1 IH s' Hs')|]. intros [t a] H Hx. specialize (H Hx). lia.
  - destruct (check_clocks name r i o now 0 z Hm) as [_ [Ha (q' & Hq' & Hle)]]; [done|].
    constructor; [exact Ha|]. eapply Forall_impl; [exact (proj2 IH q' Hq')|]. intros [t a] H Hx. specialize (H Hx). lia.
Qed.

Lemma trace_counts name cs : ∀ r, unbroken (rin r) (rout r) cs → restarts r ≤ stallGiveUpAfter →
  taken stallReload (snd (checks name r cs)) ≤ (if reloaded r then 0 else 1) ∧
  restarts r + taken stallRestart (snd (checks name r cs)) ≤ stallGiveUpAfter ∧
  taken stallReport (snd (checks name r cs)) ≤ (if reported r then 0 else 1).
Proof.
  induction cs as [|c cs IH]; intros r Hu Hr; [unfold taken, zlen; cbn; destruct (reloaded r), (reported r); lia|]. one_check IH name r c cs Hu.
  rewrite !taken_cons. cbn [snd].
  destruct (check_spec name r i o now Hm) as (r1 & _ & _ & _ & E1 & E2 & _ & E4 & _ & D & _).
  destruct (check name r (i, o, now)) as [r' a]. cbn [fst snd] in *.
  destruct D; repeat case_decide; try done; unfold stallGiveUpAfter in *;
    (destruct IH as (IH1 & IH2 & IH3); [lia|]);
    repeat match goal with
    | H : reloaded ?x = _ |- _ => rewrite H in *; clear H
    | H : reported ?x = _ |- _ => rewrite H in *; clear H
    end; destruct (reloaded r), (reported r); simplify_eq; split_and!; lia.
Qed.

Lemma trace_evidence name cs : ∀ r k t a, unbroken (rin r) (rout r) cs →
  snd (checks name r cs) !! k = Some (t, a) → a ≠ stallWatch →
  stallChecks ≤ runs r + lopsided_count (rin r) (rout r) (take (S k) cs).
Proof.
  induction cs as [|c cs IH]; intros r k t a Hu Hk Ha; [done|].
  destruct c as [[i o] now]. destruct Hu as [Hm Hu]. cbn [checks fst snd] in Hk.
  destruct (check_spec name r i o now Hm) as (r1 & Ei & Eo & Er & _ & _ & _ & _ & _ & _ & H).
  destruct k as [|k]; cbn [take].
  - injection Hk as <- <-. specialize (H Ha). rewrite Er in H. simpl in H |- *. lia.
  - cbn [lookup list_lookup] in Hk. specialize (IH (fst (check name r (i, o, now))) k t a).
    rewrite Ei, Eo in IH. specialize (IH Hu Hk Ha). rewrite Er in IH. cbn [lopsided_count] in *. lia.
Qed.

Lemma trace_spacing name cs : ∀ r i j ti tj a b, unbroken (rin r) (rout r) cs → (i < j)%nat →
  snd (checks name r cs) !! i = Some (ti, a) → snd (checks name r cs) !! j = Some (tj, b) →
  (a = stallReload ∨ a = stallRestart → acts b → ti + stallRestartAfter ≤ tj) ∧
  (a = stallGiveUp → b ≠ stallWatch → ti + stallQuietFor ≤ tj).
Proof.
  induction cs as [|c cs IH]; intros r k j tk tj a b Hu Hlt Hk Hj; [done|].
  destruct c as [[i o] now]. destruct Hu as [Hm Hu]. cbn [checks fst snd] in Hk, Hj.
  destruct (check_spec name r i o now Hm) as (r1 & Ei & Eo & _ & _ & _ & _ & _ & _ & D & _).
  destruct (check name r (i, o, now)) as [r' a']. cbn [fst snd] in *. subst i o.
  destruct j as [|j]; [lia|]. cbn [lookup list_lookup] in Hj. destruct k as [|k].
  - injection Hk as <- <-. destruct (trace_clocks name cs r' Hu) as [Hs Hq]. split.
    + intros Ha Hb. assert (since r' = Some now) as Es by (by destruct D; destruct Ha).
      exact (Forall_lookup_1 _ _ _ _ (Hs _ Es) Hj Hb).
    + intros Ha Hb. assert (quietUntil r' = Some (now + stallQuietFor)) as Eq by (by destruct D).
      exact (Forall_lookup_1 _ _ _ _ (Hq _ Eq) Hj Hb).
  - eapply IH; [exact Hu| |exact Hk|exact Hj]. lia.
Qed.

(** The ladder is bounded. From a reading with no stall, and until the
    counters recover: nothing is said or done before five checks have each
    shown 64 KiB or more one way and not a byte the other (so an idle tunnel
    is never touched); the stall is announced once, its transport is restarted
    at most once and the process at most twice; a restart comes three minutes
    or more after the one before it; and once the watchdog has given up,
    thirty minutes pass before it says anything again. *)
Theorem ladder_bounded name r cs :
  runs r = 0 → restarts r = 0 → unbroken (rin r) (rout r) cs →
  let tr := snd (checks name r cs) in
  (∀ k t a, tr !! k = Some (t, a) → a ≠ stallWatch → 5 ≤ lopsided_count (rin r) (rout r) (take (S k) cs)) ∧
  taken stallReport tr ≤ 1 ∧ taken stallReload tr ≤ 1 ∧ taken stallRestart tr ≤ 2 ∧
  (∀ i j ti tj a b, (i < j)%nat → tr !! i = Some (ti, a) → tr !! j = Some (tj, b) →
     (a = stallReload ∨ a = stallRestart → acts b → ti + stallRestartAfter ≤ tj) ∧
     (a = stallGiveUp → b ≠ stallWatch → ti + stallQuietFor ≤ tj)).
Proof.
  intros H0 Hr Hu tr. destruct (trace_counts name cs r Hu) as (H1 & H2 & H3); [unfold stallGiveUpAfter; lia|].
  fold tr in H1, H2, H3. unfold stallGiveUpAfter in H2. split_and!.
  - intros k t a Hk Ha. pose proof (trace_evidence name cs r k t a Hu Hk Ha) as H. unfold stallChecks in H. lia.
  - destruct (reported r); lia.
  - destruct (reloaded r); lia.
  - lia.
  - intros i j ti tj a b Hlt Hi Hj. by eapply trace_spacing.
Qed.

(** Twelve minutes of sending with nothing coming back, a check every 25 s. *)
Definition stuck (n : nat) : list (Z * Z * Z) :=
  map (λ k, (0, 65536 * Z.of_nat (S k), 25 * Second * Z.of_nat k)) (seq 0 n).

Lemma ladder_bounded_witness :
  let tr := snd (checks "t" (fresh 0 0) (stuck 60)) in
  taken stallReport tr = 1 ∧ taken stallReload tr = 1 ∧ taken stallRestart tr = 2 ∧ taken stallGiveUp tr = 1 ∧
  taken stallRestart tr ≤ 2.
Proof.
  assert (unbroken 0 0 (stuck 60)) as Hu by (vm_compute; repeat split; discriminate).
  destruct (ladder_bounded "t" (fresh 0 0) (stuck 60) eq_refl eq_refl Hu) as (_ & _ & _ & H & _).
  split_and!; [by vm_compute..|exact H].
Defined.

(** recovery does not give the cheap rung back. [reloaded] is documented
    as spent "on this stall", but [clear] keeps it: once a tunnel's transport
    has been restarted, no later stall of it, however far apart, is ever
    answered by a transport restart again; the process is restarted straight
    away. *)
Theorem reload_never_again name r cs :
  reloaded r = true → taken stallReload (snd (checks name r cs)) = 0.
Proof.
  revert r. induction cs as [|c cs IH]; intros r Hr; [done|].
  cbn [checks fst snd]. rewrite taken_cons. cbn [snd].
  assert (snd (check name r c) ≠ stallReload ∧ reloaded (fst (check name r c)) = true) as [Ha Hr'].
  { destruct c as [[i o] now]. unfold check.
    assert (reloaded (fst (observe_reading r i o now)) = true) as Ho.
    { unfold observe_reading, judged. destruct (moved _ _); cbn; try done; by destruct (_ <? _). }
    destruct (snd (observe_reading r i o now)); cbn [fst snd]; try done.
    destruct (decide_spec name (fst (observe_reading r i o now)) now) as (D & _).
    by destruct D; split; try done; congruence. }
  case_decide; [done|]. rewrite (IH _ Hr'). lia.
Qed.

Lemma reload_never_again_witness :
  let r := clear (fst (checks "t" (fresh 0 0) (stuck 20))) in
  reloaded r = true ∧ taken stallReload (snd (checks "t" r (stuck 20))) = 0.
Proof.
  split; [by vm_compute|].
  apply (reload_never_again "t" (clear (fst (checks "t" (fresh 0 0) (stuck 20)))) (stuck 20)). by vm_compute.
Defined.

(** ** Lemmas: persistence *)

Definition whole (t : option Z) : option Z := (λ t, Unix t * Second) <$> t.

(** A reading with its times cut to the second. *)
Definition whole_seconds (r : flowReading) : flowReading :=
  mkReading (rin r) (rout r) (runs r) (whole (since r)) (direction r) (restarts r) (reloaded r)
    (whole (quietUntil r)) (reported r).

(** Not within the first second of 1970, whose Unix time is the zero that
    stands for no time at all. *)
Definition datable (t : option Z) : Prop := match t with Some t => Second ≤ t | None => True end.

Lemma time_roundtrip t : datable t → time_or_zero (unix_or_zero t) = whole t.
Proof.
  destruct t as [t|]; cbn; [|done]. intros H. unfold time_or_zero, Unix.
  assert (1 ≤ t `div` Second) by (apply Z.div_le_lower_bound; unfold Second in *; lia).
  destruct (Z.eqb_spec (t `div` Second) 0); [lia|done].
Qed.

(** Restarting the watchdog forgets nothing. What is written and read back
    is every ladder, with its two times cut to the second; so a tunnel that
    was given up on is still left alone until its quiet time is over. *)
Theorem restart_keeps_ladder w :
  (∀ name r, w !! name = Some r → datable (since r) ∧ datable (quietUntil r)) →
  load newFlowWatch (Some (save w)) = whole_seconds <$> w ∧
  (∀ name r q now, w !! name = Some r → quietUntil r = Some q → now + Second ≤ q →
     fst (snd (decide (load newFlowWatch (Some (save w))) name now)) = stallWatch).
Proof.
  intros Hw. assert (load newFlowWatch (Some (save w)) = whole_seconds <$> w) as E.
  { unfold load, save, newFlowWatch. rewrite (right_id_L ∅ (∪)), <- map_fmap_compose.
    apply map_fmap_ext. intros name r El. cbn.
    destruct (Hw _ _ El) as [H1 H2]. unfold restore, persist, whole_seconds. cbn. by rewrite !time_roundtrip. }
  split; [done|]. intros name r q now El Hq Hn. rewrite E. unfold decide.
  rewrite (lookup_fmap whole_seconds w name), El. cbn.
  unfold decide_reading, whole_seconds. cbn. destruct (since r) as [s|]; cbn; [|done].
  rewrite Hq. cbn. assert (now < Unix q * Second) as Hlt.
  { unfold Unix. pose proof (Z.div_mod q Second ltac:(done)). pose proof (Z.mod_pos_bound q Second ltac:(done)). lia. }
  apply Z.ltb_lt in Hlt. by rewrite Hlt.
Qed.

Lemma restart_keeps_ladder_witness :
  let r := fst (checks "t" (fresh 0 0) (map (λ c, (fst c, snd c + 60 * Second)) (stuck 60))) in
  is_Some (quietUntil r) ∧
  load newFlowWatch (Some (save {["t" := r]})) = whole_seconds <$> {["t" := r]}.
Proof.
  split; [by eexists; vm_compute|].
  apply (restart_keeps_ladder {["t" := fst (checks "t" (fresh 0 0) (map (λ c, (fst c, snd c + 60 * Second)) (stuck 60)))]}).
  intros name r [<- <-]%lookup_singleton_Some. split; vm_compute; discriminate.
Defined.

End Flow.

(** ** The loop *)

Module Watchdog.

Definition wdInterval : Z := 25 * Flow.Second.
Definition wdThreshold : Z := 2.
Definition wdCooldown : Z := 3 * Flow.Minute.
Definition flapWindow : Z := 60 * Flow.Minute.
Definition flapThreshold : Z := 4.
Definition fleetFlapTunnels : Z := 3.
Definition fleetFlapEach : Z := 2.

(** The local variables of [RunWatchdog]. A key a Go map does not have reads
    as zero: no failures, the zero time, no restarts. *)
Record Watchdog : Type := mkWatchdog {
  fails : gmap string Z;
  lastRestart : gmap string Z;
  restartsAt : gmap string (list Z);
  lastFlapReport : gmap string Z;
  seenHealthy : gset string;
  flow : Flow.flowWatch
}.

Definition start (f : Flow.flowWatch) : Watchdog := mkWatchdog ∅ ∅ ∅ ∅ ∅ f.

(** One tunnel of one pass, with what the system answers about it: [IsActive],
    [tunnelHealthy], [IsDirectKind], [tunnelFlow], whether the engine takes
    the request of [enginectl.Ask], and the two readings of the clock. *)
Record visit : Type := mkVisit {
  Name : string;
  active : bool;
  healthy : bool;
  direct : bool;
  counters : option (Z * Z);
  askOK : bool;
  t1 : Z;
  t2 : Z
}.

(** What goes to the alert history. *)
Inductive alert : Type :=
| RestartedTunnel (name : string)
| TunnelFlapping (name : string) (times : Z)
| FleetFlapping (names : list string)
| Stall (m : Flow.message).

(** What a visit does. A restart carries the instant the cooldown was checked
    and the one written to [lastRestart]; [reportRecovery] is started. *)
Inductive effect : Type :=
| RestartService (name : string) (checked stored : Z)
| AskReload (name : string)
| RecordEvent (a : alert)
| ReportRecovery (name : string).

(** [time.Since(lastRestart[name]) > wdCooldown] at [now]. *)
Definition cooled (s : Watchdog) (name : string) (now : Z) : bool :=
  match lastRestart s !! name with
  | None => true
  | Some t => wdCooldown <? now - t
  end.

Definition recentRestarts (prev : list Z) (now : Z) : list Z :=
  filter (λ t, now - t < flapWindow) prev ++ [now].

Definition countWithinWindow (at_ : list Z) (now : Z) : Z := zlen (filter (λ t, now - t < flapWindow) at_).

(** A report under [key] is due unless one was made inside the window. *)
Definition report_due (last : gmap string Z) (key : string) (now : Z) : bool :=
  match last !! key with
  | Some t => negb (now - t <? flapWindow)
  | None => true
  end.

Definition reportRestart (name : string) (at_ : list Z) (last : gmap string Z) (now : Z) :
    gmap string Z * list effect :=
  if zlen at_ <? flapThreshold then (last, [RecordEvent (RestartedTunnel name)])
  else if report_due last name now then (<[name := now]> last, [RecordEvent (TunnelFlapping name (zlen at_))])
  else (last, []).

(** The names with [fleetFlapEach] restarts in the window, sorted. *)
Definition affected (restarts : gmap string (list Z)) (now : Z) : list string :=
  GoSort.Strings (map fst (filter (λ x, fleetFlapEach ≤ countWithinWindow (snd x) now) (map_to_list restarts))).

Definition reportFleetFlap (restarts : gmap string (list Z)) (last : gmap string Z) (now : Z) :
    gmap string Z * list effect :=
  if zlen (affected restarts now) <? fleetFlapTunnels then (last, [])
  else if report_due last "" now then (<["" := now]> last, [RecordEvent (FleetFlapping (affected restarts now))])
  else (last, []).

Definition set_fails (s : Watchdog) (name : string) (n : Z) : Watchdog :=
  mkWatchdog (<[name := n]> (fails s)) (lastRestart s) (restartsAt s) (lastFlapReport s) (seenHealthy s) (flow s).
Definition set_flow (s : Watchdog) (f : Flow.flowWatch) : Watchdog :=
  mkWatchdog (fails s) (lastRestart s) (restartsAt s) (lastFlapReport s) (seenHealthy s) f.
Definition set_last (s : Watchdog) (name : string) (t : Z) : Watchdog :=
  mkWatchdog (fails s) (<[name := t]> (lastRestart s)) (restartsAt s) (lastFlapReport s) (seenHealthy s) (flow s).
Definition see_healthy (s : Watchdog) (name : string) : Watchdog :=
  mkWatchdog (fails s) (lastRestart s) (restartsAt s) (lastFlapReport s) ({[name]} ∪ seenHealthy s) (flow s).

(** The [stallRestart] arm of [checkThroughput], which a failed request of the
    [stallReload] arm falls through to. *)
Definition stall_restart (s : Watchdog) (v : visit) (m : Flow.message) : Watchdog * list effect :=
  if negb (cooled s (Name v) (t2 v)) then (s, [])
  else
    (set_last s (Name v) (t1 v),
     [RecordEvent (Stall m); RestartService (Name v) (t2 v) (t1 v); ReportRecovery (Name v)]).

Definition checkThroughput (s : Watchdog) (v : visit) : Watchdog * list effect :=
  if direct v then (s, [])
  else
    match counters v with
    | None => (s, [])
    | Some (i, o) =>
        let x := Flow.observe (flow s) (Name v) i o (t1 v) in
        match snd x with
        | Flow.flowStalled =>
            let y := Flow.decide (fst x) (Name v) (t1 v) in
            let s := set_flow s (fst y) in
            let m := snd (snd y) in
            match fst (snd y) with
            | Flow.stallReport | Flow.stallGiveUp => (s, [RecordEvent (Stall m)])
            | Flow.stallReload =>
                if askOK v then (s, [AskReload (Name v); RecordEvent (Stall m); ReportRecovery (Name v)])
                else stall_restart s v m
            | Flow.stallRestart => stall_restart s v m
            | Flow.stallWatch => (s, [])
            end
        | _ => (set_flow s (fst x), [])
        end
    end.

(** The restart of a tunnel that has dropped. *)
Definition restartDropped (s : Watchdog) (v : visit) : Watchdog * list effect :=
  let name := Name v in
  let now := t2 v in
  let at_ := recentRestarts (default [] (restartsAt s !! name)) now in
  let restarts := <[name := at_]> (restartsAt s) in
  let r := reportRestart name at_ (lastFlapReport s) now in
  let f := reportFleetFlap restarts (fst r) now in
  (mkWatchdog (<[name := 0]> (fails s)) (<[name := now]> (lastRestart s)) restarts (fst f) (seenHealthy s) (flow s),
   [RestartService name (t1 v) now] ++ snd r ++ snd f ++ [ReportRecovery name]).

(** The body of the loop over [List()]. *)
Definition visitTunnel (s : Watchdog) (v : visit) : Watchdog * list effect :=
  let name := Name v in
  if negb (active v) then (set_flow (set_fails s name 0) (Flow.forget (flow s) name), [])
  else if healthy v then checkThroughput (see_healthy (set_fails s name 0) name) v
  else if negb (bool_decide (name ∈ seenHealthy s)) then (s, [])
  else
    let n := default 0 (fails s !! name) + 1 in
    let s := set_fails s name n in
    if (wdThreshold <=? n) && cooled s name (t1 v) then restartDropped s v else (s, []).

(** A run: the effects of each visit, in order. *)
Fixpoint watch (s : Watchdog) (vs : list visit) : Watchdog * list effect :=
  match vs with
  | [] => (s, [])
  | v :: vs =>
      let x := visitTunnel s v in
      let y := watch (fst x) vs in
      (fst y, snd x ++ snd y)
  end.

(** ** Lemmas *)

(** The restarts among some effects: the tunnel, when the cooldown was checked
    and what was stored. *)
Definition restarts_in (es : list effect) : list (string * Z * Z) :=
  omap (λ e, match e with RestartService n c st => Some (n, c, st) | _ => None end) es.

Lemma restarts_in_app es es' : restarts_in (es ++ es') = restarts_in es ++ restarts_in es'.
Proof. apply omap_app. Qed.

Lemma stall_restart_spec s v m :
  let x := stall_restart s v m in
  restarts_in (snd x) = [] ∧ lastRestart (fst x) = lastRestart s ∨
  restarts_in (snd x) = [(Name v, t2 v, t1 v)] ∧ cooled s (Name v) (t2 v) = true ∧
  lastRestart (fst x) = <[Name v := t1 v]> (lastRestart s).
Proof. unfold stall_restart. destruct (cooled s (Name v) (t2 v)) eqn:E; cbn; auto. Qed.

Lemma checkThroughput_spec s v :
  let x := checkThroughput s v in
  fails (fst x) = fails s ∧ seenHealthy (fst x) = seenHealthy s ∧
  (restarts_in (snd x) = [] ∧ lastRestart (fst x) = lastRestart s ∨
   restarts_in (snd x) = [(Name v, t2 v, t1 v)] ∧ cooled s (Name v) (t2 v) = true ∧
   lastRestart (fst x) = <[Name v := t1 v]> (lastRestart s) ∧ direct v = false ∧ is_Some (counters v)).
Proof.
  unfold checkThroughput. destruct (direct v); [cbn; auto|]. destruct (counters v) as [[i o]|]; [|cbn; auto].
  destruct (snd (Flow.observe _ _ _ _ _)); [cbn; auto..|].
  assert (∀ f m, let x := stall_restart (set_flow s f) v m in
    fails (fst x) = fails s ∧ seenHealthy (fst x) = seenHealthy s ∧
    (restarts_in (snd x) = [] ∧ lastRestart (fst x) = lastRestart s ∨
     restarts_in (snd x) = [(Name v, t2 v, t1 v)] ∧ cooled s (Name v) (t2 v) = true ∧
     lastRestart (fst x) = <[Name v := t1 v]> (lastRestart s) ∧ false = false ∧ is_Some (Some (i, o)))) as H.
  { intros f m. cbv zeta. pose proof (stall_restart_spec (set_flow s f) v m) as H.
    assert (fails (fst (stall_restart (set_flow s f) v m)) = fails s ∧
      seenHealthy (fst (stall_restart (set_flow s f) v m)) = seenHealthy s) as [E1 E2]
      by (unfold stall_restart; destruct (negb _); done).
    split_and!; [done..|]. destruct H as [H|(H1 & H2 & H3)]; [by left|right]. split_and!; eauto. }
  destruct (fst (snd (Flow.decide _ _ _))); try (cbn; auto; fail).
  destruct (askOK v); [cbn; auto|]. apply H.
Qed.

Lemma report_no_restart name at_ restarts last now :
  restarts_in (snd (reportRestart name at_ last now)) = [] ∧
  restarts_in (snd (reportFleetFlap restarts last now)) = [].
Proof.
  unfold reportRestart, reportFleetFlap.
  split; repeat (destruct (_ <? _) || destruct (report_due _ _ _)); done.
Qed.

(** What one visit can do to the restarts. *)
Lemma visit_spec s v :
  let x := visitTunnel s v in
  restarts_in (snd x) = [] ∧ lastRestart (fst x) = lastRestart s ∨
  ∃ c st, restarts_in (snd x) = [(Name v, c, st)] ∧ cooled s (Name v) c = true ∧
    lastRestart (fst x) = <[Name v := st]> (lastRestart s) ∧ (c = t1 v ∧ st = t2 v ∨ c = t2 v ∧ st = t1 v) ∧
    active v = true ∧
    (healthy v = true → direct v = false ∧ is_Some (counters v)) ∧
    (healthy v = false → Name v ∈ seenHealthy s ∧ 1 ≤ default 0 (fails s !! Name v)).
Proof.
  unfold visitTunnel. destruct (active v) eqn:Ea; cbn [negb]; [|left; done].
  destruct (healthy v) eqn:Eh.
  - destruct (checkThroughput_spec (see_healthy (set_fails s (Name v) 0) (Name v)) v) as (_ & _ & [H|(H1 & H2 & H3 & H4)]);
      [by left|right]. exists (t2 v), (t1 v). split_and!; auto. done.
  - destruct (bool_decide (Name v ∈ seenHealthy s)) eqn:Es; cbn [negb]; [|left; done].
    apply bool_decide_eq_true in Es. destruct (Z.leb_spec wdThreshold (default 0 (fails s !! Name v) + 1)) as [Hn|]; [|left; done].
    cbn [andb]. destruct (cooled _ _ _) eqn:Ec; [|left; done]. right. exists (t1 v), (t2 v).
    unfold restartDropped. cbv zeta. cbn [fst snd fails lastRestart]. rewrite !restarts_in_app.
    destruct (report_no_restart (Name v) (recentRestarts (default [] (restartsAt s !! Name v)) (t2 v))
      ∅ (lastFlapReport s) (t2 v)) as [Hr _].
    split_and!; [|exact Ec|reflexivity|auto|done|done|].
    + cbn [set_fails restartsAt lastFlapReport]. rewrite Hr.
      rewrite (proj2 (report_no_restart "" [] _ _ _)). done.
    + intros _. split; [done|]. unfold wdThreshold in Hn. lia.
Qed.

(** The clock does not run backwards. *)
Fixpoint clocked (lo : Z) (vs : list visit) : Prop :=
  match vs with
  | [] => True
  | v :: vs => lo ≤ t1 v ∧ t1 v ≤ t2 v ∧ clocked (t2 v) vs
  end.

Lemma cooled_after s name t c : cooled s name c = true → lastRestart s !! name = Some t → t + wdCooldown < c.
Proof. unfold cooled. intros H E. rewrite E in H. apply Z.ltb_lt in H. lia. Qed.

Lemma restarts_after vs : ∀ s lo, clocked lo vs → (∀ n t, lastRestart s !! n = Some t → t ≤ lo) →
  Forall (λ x, ∀ t, lastRestart s !! x.1.1 = Some t → t + wdCooldown < x.1.2) (restarts_in (snd (watch s vs))).
Proof.
  induction vs as [|v vs IH]; intros s lo Hc Hl; [constructor|]. destruct Hc as (H1 & H2 & Hc).
  cbn [watch snd]. rewrite restarts_in_app. apply Forall_app.
  destruct (visit_spec s v) as [[E1 E2]|(c & st & E1 & E2 & E3 & E4 & _)]; rewrite E1.
  - split; [constructor|]. rewrite <- E2. apply (IH _ (t2 v) Hc). rewrite E2. intros n t Hn. specialize (Hl n t Hn). lia.
  - split; [constructor; [|constructor]; cbn; intros t Ht; by eapply cooled_after|].
    assert (lo ≤ st ≤ t2 v) as Hst by (destruct E4 as [[_ ->]|[_ ->]]; lia).
    eapply Forall_impl; [apply (IH _ (t2 v) Hc)|].
    + rewrite E3. intros n t [[<- <-]|[_ Hn]]%lookup_insert_Some; [lia|]. specialize (Hl n t Hn). lia.
    + rewrite E3. intros [[n c'] st'] H t Ht. cbn in *. destruct (base.decide (Name v = n)) as [<-|Hne].
      * specialize (H st ltac:(apply lookup_insert_eq)). specialize (Hl _ _ Ht). lia.
      * apply H. by rewrite lookup_insert_ne.
Qed.

Lemma restarts_pairwise vs : ∀ s lo i j n ci sti cj stj, clocked lo vs → (∀ n t, lastRestart s !! n = Some t → t ≤ lo) →
  (i < j)%nat → restarts_in (snd (watch s vs)) !! i = Some (n, ci, sti) →
  restarts_in (snd (watch s vs)) !! j = Some (n, cj, stj) → sti + wdCooldown < cj.
Proof.
  induction vs as [|v vs IH]; intros s lo i j n ci sti cj stj Hc Hl Hij Hi Hj; [done|].
  destruct Hc as (H1 & H2 & Hc). cbn [watch snd] in Hi, Hj. rewrite restarts_in_app in Hi, Hj.
  destruct (visit_spec s v) as [[E1 E2]|(c & st & E1 & E2 & E3 & E4 & _)]; rewrite E1 in Hi, Hj; cbn [app] in Hi, Hj.
  - eapply (IH _ (t2 v)); [exact Hc| |exact Hij|exact Hi|exact Hj]. rewrite E2. intros n' t Hn. specialize (Hl n' t Hn). lia.
  - assert (lo ≤ st ≤ t2 v) as Hst by (destruct E4 as [[_ ->]|[_ ->]]; lia).
    assert (∀ n' t, lastRestart (fst (visitTunnel s v)) !! n' = Some t → t ≤ t2 v) as Hl'.
    { rewrite E3. intros n' t [[<- <-]|[_ Hn]]%lookup_insert_Some; [lia|]. specialize (Hl n' t Hn). lia. }
    destruct j as [|j]; [lia|]. cbn in Hj. destruct i as [|i].
    + injection Hi as <- <- <-. pose proof (restarts_after vs _ _ Hc Hl') as HF.
      apply (Forall_lookup_1 _ _ _ _ HF Hj). cbn. rewrite E3. apply lookup_insert_eq.
    + eapply (IH _ (t2 v)); [exact Hc|exact Hl'| |exact Hi|exact Hj]. lia.
Qed.

(** What the counters of failures say about the visits made so far. *)
Definition remembers (s : Watchdog) (vs : list visit) : Prop :=
  (∀ n, n ∈ seenHealthy s → ∃ h, h ∈ vs ∧ Name h = n ∧ active h = true ∧ healthy h = true) ∧
  (∀ n, 1 ≤ default 0 (fails s !! n) → ∃ vs1 u vs2, vs = vs1 ++ u :: vs2 ∧ Name u = n ∧ active u = true ∧
     healthy u = false ∧ Forall (λ w, Name w ≠ n) vs2).

Lemma visit_memory s v :
  let s' := fst (visitTunnel s v) in
  (∀ n, n ≠ Name v → fails s' !! n = fails s !! n) ∧
  (default 0 (fails s' !! Name v) = 0 ∨ active v = true ∧ healthy v = false) ∧
  (seenHealthy s' = seenHealthy s ∨ seenHealthy s' = {[Name v]} ∪ seenHealthy s ∧ active v = true ∧ healthy v = true).
Proof.
  assert (∀ n m, n ≠ Name v → <[Name v := m]> (fails s) !! n = fails s !! n) as Hne
    by (intros; by apply lookup_insert_ne).
  unfold visitTunnel. destruct (active v) eqn:Ea; cbn [negb].
  2:{ cbn. rewrite lookup_insert_eq. auto. }
  destruct (healthy v) eqn:Eh.
  - destruct (checkThroughput_spec (see_healthy (set_fails s (Name v) 0) (Name v)) v) as (E1 & E2 & _).
    rewrite E1, E2. cbn. rewrite lookup_insert_eq. split_and!; auto.
  - destruct (bool_decide (Name v ∈ seenHealthy s)); cbn [negb fst]; [|auto].
    destruct (_ && _); cbn; [|auto]. split_and!; auto. intros n Hn. by rewrite !lookup_insert_ne by auto.
Qed.

Lemma visit_remembers s vs v : remembers s vs → remembers (fst (visitTunnel s v)) (vs ++ [v]).
Proof.
  intros [Hseen Hf]. destruct (visit_memory s v) as (H1 & H2 & H3). split.
  - intros n Hn. assert (n ∈ seenHealthy s ∨ n = Name v ∧ active v = true ∧ healthy v = true) as [Hn'|(-> & ? & ?)].
    { destruct H3 as [H3|(H3 & ? & ?)]; rewrite H3 in Hn; [by left|]. apply elem_of_union in Hn as [Hn|Hn]; [|by left].
      apply elem_of_singleton in Hn. auto. }
    + destruct (Hseen n Hn') as (h & Hh & ?). exists h. split; [|done]. apply elem_of_app. by left.
    + exists v. split; [|done]. apply elem_of_app. right. by apply list_elem_of_singleton.
  - intros n Hn. destruct (base.decide (n = Name v)) as [->|Hne].
    + destruct H2 as [H2|[Ha Hh]]; [lia|]. exists vs, v, []. split_and!; try done.
    + rewrite H1 in Hn by done. destruct (Hf n Hn) as (vs1 & u & vs2 & -> & Hu & Ha & Hh & HF).
      exists vs1, u, (vs2 ++ [v]). rewrite <- app_assoc. split_and!; try done. apply Forall_app. split; [done|].
      by constructor.
Qed.

Lemma watch_remembers vs : ∀ s us, remembers s us → remembers (fst (watch s vs)) (us ++ vs).
Proof.
  induction vs as [|v vs IH]; intros s us H; [by rewrite app_nil_r|].
  cbn [watch fst]. replace (us ++ v :: vs) with ((us ++ [v]) ++ vs) by (by rewrite <- app_assoc).
  apply IH. by apply visit_remembers.
Qed.

(** *** What the visits show of a tunnel's counters

    Told from the answers of the system alone: the counters last read, and the
    instants, in order, of the readings of the stretch under way that found 64 KiB
    or more gone one way and not a byte the other. A reading that finds nothing
    moved leaves the stretch as it is, any other ends it, and so does finding the
    tunnel stopped; one that is not connected, or whose counters cannot be read, is
    not judged by them. *)

Definition one_way (i o i' o' : Z) : bool :=
  (i + 65536 <=? i') && (o' <=? o) || (o + 65536 <=? o') && (i' <=? i).

Definition still (i o i' o' : Z) : bool := (i' <=? i) && (o' <=? o).

Definition told (h : option (Z * Z * list Z)) (v : visit) : option (Z * Z * list Z) :=
  if negb (active v) then None
  else if negb (healthy v) || direct v then h
  else match counters v with
       | None => h
       | Some (i', o') =>
           match h with
           | None => Some (i', o', [])
           | Some (i, o, ts) => Some (i', o', if still i o i' o' then ts else if one_way i o i' o' then ts ++ [t1 v] else [])
           end
       end.

Definition story (n : string) (vs : list visit) : option (Z * Z * list Z) :=
  foldl (λ h v, if base.decide (Name v = n) then told h v else h) None vs.

(** The counters are of 64 bits. *)
Definition uint64 (x : Z) : Prop := 0 ≤ x < 2^64.
Definition counted (v : visit) : Prop := match counters v with Some (i, o) => uint64 i ∧ uint64 o | None => True end.

(** What the watchdog keeps of a tunnel is its story. *)
Definition kept (r : option Flow.flowReading) (h : option (Z * Z * list Z)) : Prop :=
  match r, h with
  | None, None => True
  | Some r, Some (i, o, ts) =>
      Flow.rin r = i ∧ Flow.rout r = o ∧ uint64 i ∧ uint64 o ∧ Flow.runs r = zlen ts ∧
      match Flow.since r with
      | None => zlen ts < 5
      | Some x => ∃ t5, ts !! 4%nat = Some t5 ∧ t5 ≤ x
      end
  | _, _ => False
  end.

Lemma delta_spec p x : uint64 p → uint64 x →
  (Flow.delta p x =? 0) = (x <=? p) ∧ (Flow.stallProgress <=? Flow.delta p x) = (p + 65536 <=? x).
Proof.
  unfold uint64, Flow.delta, Flow.stallProgress, u64. intros Hp Hx. destruct (Z.ltb_spec x p).
  - split; [|by destruct (Z.leb_spec (p + 65536) x); [lia|]]. by destruct (Z.leb_spec x p); [|lia].
  - rewrite Z.mod_small by lia. split.
    + destruct (Z.eqb_spec (x - p) 0), (Z.leb_spec x p); lia.
    + destruct (Z.leb_spec (64 * 1024) (x - p)), (Z.leb_spec (p + 65536) x); lia.
Qed.

Lemma moved_spec i o i' o' : uint64 i → uint64 o → uint64 i' → uint64 o' →
  match Flow.moved (Flow.delta i i') (Flow.delta o o') with
  | Flow.Nothing => still i o i' o' = true
  | Flow.OnlyIn | Flow.OnlyOut => still i o i' o' = false ∧ one_way i o i' o' = true
  | Flow.Moving => still i o i' o' = false ∧ one_way i o i' o' = false
  end.
Proof.
  intros Hi Ho Hi' Ho'. destruct (delta_spec i i' Hi Hi') as [E1 E2], (delta_spec o o' Ho Ho') as [E3 E4].
  unfold Flow.moved, still, one_way. rewrite E1, E2, E3, E4.
  destruct (Z.leb_spec i' i), (Z.leb_spec o' o), (Z.leb_spec (i + 65536) i'), (Z.leb_spec (o + 65536) o'); cbn; first [done|lia].
Qed.

(** The fifth reading of a stretch keeps its place. *)
Lemma fifth_snoc ts (t now : Z) : zlen ts < 5 → ¬ zlen (ts ++ [now]) < 5 → (ts ++ [now]) !! 4%nat = Some now.
Proof.
  unfold zlen. rewrite length_app. cbn [length]. intros H1 H2. rewrite lookup_app_r by lia.
  replace (4 - length ts)%nat with 0%nat by lia. done.
Qed.

Lemma observe_kept r i o ts i' o' now : kept (Some r) (Some (i, o, ts)) → uint64 i' → uint64 o' →
  kept (Some (fst (Flow.observe_reading r i' o' now)))
    (Some (i', o', if still i o i' o' then ts else if one_way i o i' o' then ts ++ [now] else [])).
Proof.
  intros (<- & <- & Hi & Ho & Hn & Hs) Hi' Ho'. pose proof (moved_spec _ _ _ _ Hi Ho Hi' Ho') as HM.
  unfold Flow.observe_reading, Flow.judged. destruct (Flow.moved _ _); [rewrite HM|destruct HM as [-> ->]..]; [done| | |done];
    cbn [Flow.lopsided Flow.runs Flow.since].
  all: assert (Flow.runs r + 1 = zlen (ts ++ [now])) as EZ by (rewrite Hn; unfold zlen; rewrite length_app; cbn [length]; lia).
  all: rewrite EZ; destruct (Z.ltb_spec (zlen (ts ++ [now])) Flow.stallChecks) as [HL|HL]; cbn [fst]; (split_and!; [done..|]); cbn [Flow.since].
  all: change Flow.stallChecks with 5 in HL; destruct (Flow.since r) as [x|]; cbn [default from_option id].
  all: try (destruct Hs as (t5 & H5 & Hle); exists t5; split; [by apply lookup_app_l_Some|done]).
  all: try done.
  all: exists now; split; [apply (fifth_snoc ts now now Hs); lia|lia].
Qed.

(** The stretch is of five readings, the fifth three minutes old or more. *)
Definition stalled_for (h : option (Z * Z * list Z)) (now : Z) : Prop :=
  ∃ i o ts t5, h = Some (i, o, ts) ∧ ts !! 4%nat = Some t5 ∧ t5 + 3 * Flow.Minute ≤ now.

Lemma decide_kept name r h now : kept (Some r) h →
  let x := Flow.decide_reading name r now in
  kept (Some (fst x)) h ∧ (fst (snd x) = Flow.stallReload ∨ fst (snd x) = Flow.stallRestart → stalled_for h now).
Proof.
  cbv zeta. destruct h as [[[i o] ts]|]; [|done]. intros (Hi & Ho & Ri & Ro & Hn & Hs).
  destruct (Flow.decide_spec name r now) as (D & E1 & E2 & E3). unfold kept. rewrite E1, E2, E3. clear E1 E2 E3.
  assert (∀ x, Flow.since r = Some x → x + 3 * Flow.Minute ≤ now → stalled_for (Some (i, o, ts)) now) as HS.
  { intros x E Hx. rewrite E in Hs. destruct Hs as (t5 & H5 & Hle). exists i, o, ts, t5. split_and!; [done..|lia]. }
  destruct D as [|r' ? ? ? Es|r' x ? Ex Hx ? ? Es|r' x ? Ex Hx ? ? ? Es|r' x ? Ex Hx ? ? ? Es]; [| | | |]; (split; [split_and!; try done|try (by intros [?|?]); intros _; by apply (HS x)]).
  - by rewrite Es.
  - rewrite Es. rewrite Ex in Hs. destruct Hs as (t5 & HF & Hle). exists t5. split; [done|]. unfold Flow.stallRestartAfter, Flow.Minute, Flow.Second in *. lia.
  - rewrite Es. by rewrite Ex in Hs.
  - rewrite Es. rewrite Ex in Hs. destruct Hs as (t5 & HF & Hle). exists t5. split; [done|]. unfold Flow.stallRestartAfter, Flow.Minute, Flow.Second in *. lia.
Qed.

(** C14: when the watchdog restarts a tunnel. Over any sequence of visits on a
    clock that does not run backwards, two restarts of one tunnel, by either
    half of the watchdog, are more than the three minutes' cooldown apart. A
    tunnel that is stopped is never restarted. One that is not connected is
    restarted only if it was connected at an earlier visit and the visit of it
    before this one also found it running and not connected; one that is
    connected, only on the evidence of its counters. *)
(** One visit, for the tunnel it is of and for the others. *)
Lemma throughput_kept s v h : kept (flow s !! Name v) h → counted v → active v = true → healthy v = true →
  let x := checkThroughput s v in
  kept (flow (fst x) !! Name v) (told h v) ∧ (restarts_in (snd x) ≠ [] → direct v = false ∧ stalled_for (told h v) (t1 v)).
Proof.
  unfold counted, checkThroughput, told. intros HK HC -> ->. cbn [negb orb]. destruct (direct v); [by split|].
  destruct (counters v) as [[i' o']|]; [|by split]. destruct HC as [Hi Ho]. unfold Flow.observe.
  destruct (flow s !! Name v) as [r|], h as [[[i o] ts]|]; try done; cbn [fst snd set_flow flow].
  2:{ split; [|done]. cbn. rewrite lookup_insert_eq. by split_and!. }
  pose proof (observe_kept r i o ts i' o' (t1 v) HK Hi Ho) as HK'. destruct (Flow.observe_reading r i' o' (t1 v)) as [r1 st]. cbn [fst snd] in *.
  destruct st; [cbn [fst snd set_flow flow]; (split; [by rewrite lookup_insert_eq|done])..|].
  unfold Flow.decide. rewrite lookup_insert_eq. destruct (decide_kept (Name v) r1 _ (t1 v) HK') as [HD HS].
  destruct (Flow.decide_reading (Name v) r1 (t1 v)) as [r2 [a m]]. cbn [fst snd] in *. rewrite insert_insert_eq.
  assert (∀ s', (stall_restart s' v m).1.(flow) = flow s') as HF by (intros s'; unfold stall_restart; by destruct (negb _)).
  destruct a; try (cbn [fst snd set_flow flow]; split; [by rewrite lookup_insert_eq|done]).
  - destruct (askOK v); [cbn [fst snd set_flow flow]; split; [by rewrite lookup_insert_eq|done]|].
    rewrite HF. cbn [set_flow flow]. rewrite lookup_insert_eq. split; [done|]. intros _. split; [done|]. apply HS. by left.
  - rewrite HF. cbn [set_flow flow]. rewrite lookup_insert_eq. split; [done|]. intros _. split; [done|]. apply HS. by right.
Qed.

Lemma throughput_others s v n : n ≠ Name v → flow (fst (checkThroughput s v)) !! n = flow s !! n.
Proof.
  intros Hn. unfold checkThroughput. destruct (direct v); [done|]. destruct (counters v) as [[i o]|]; [|done].
  assert (∀ w, fst (Flow.observe w (Name v) i o (t1 v)) !! n = w !! n) as H1
    by (intros w; unfold Flow.observe; destruct (w !! Name v); by apply lookup_insert_ne).
  assert (∀ w, fst (Flow.decide w (Name v) (t1 v)) !! n = w !! n) as H2
    by (intros w; unfold Flow.decide; destruct (w !! Name v); [by apply lookup_insert_ne|done]).
  assert (∀ s' m, flow (fst (stall_restart s' v m)) = flow s') as H3 by (intros s' m; unfold stall_restart; by destruct (negb _)).
  destruct (snd (Flow.observe _ _ _ _ _)); cbn [fst set_flow flow]; [by rewrite H1..|].
  destruct (fst (snd (Flow.decide _ _ _))); [| | |rewrite H3|]; cbn [fst set_flow flow]; [by rewrite H2, H1..| | |by rewrite H2, H1].
  - destruct (askOK v); [|rewrite H3]; cbn [fst set_flow flow]; by rewrite H2, H1.
  - by rewrite H2, H1.
Qed.

Lemma visit_kept s v n h : kept (flow s !! n) h → counted v → kept (flow (fst (visitTunnel s v)) !! n) (if base.decide (Name v = n) then told h v else h).
Proof.
  intros HK HC. unfold visitTunnel. destruct (active v) eqn:Ea; cbn [negb].
  2:{ cbn. unfold Flow.forget, told. rewrite Ea. destruct (base.decide (Name v = n)) as [<-|Hne]; [by rewrite lookup_delete_eq|by rewrite lookup_delete_ne]. }
  destruct (healthy v) eqn:Eh.
  - destruct (base.decide (Name v = n)) as [<-|Hne]; [by apply (throughput_kept (see_healthy (set_fails s (Name v) 0) (Name v)) v h)|].
    by rewrite throughput_others by auto.
  - assert ((if base.decide (Name v = n) then told h v else h) = h) as -> by (unfold told; rewrite Ea, Eh; by destruct (base.decide _)).
    destruct (negb _); [done|]. by destruct (_ && _).
Qed.

Lemma watch_kept n vs : ∀ s h, kept (flow s !! n) h → Forall counted vs →
  kept (flow (fst (watch s vs)) !! n) (foldl (λ h v, if base.decide (Name v = n) then told h v else h) h vs).
Proof.
  induction vs as [|v vs IH]; intros s h HK HC; [done|]. apply Forall_cons in HC as [H1 H2]. cbn [watch fst foldl]. apply IH; [|done]. by apply visit_kept.
Qed.

(** C14: when the watchdog restarts a tunnel. Over any sequence of visits on a
    clock that does not run backwards, two restarts of one tunnel, by either
    half of the watchdog, are more than the three minutes' cooldown apart. A
    tunnel that is stopped is never restarted. One that is not connected is
    restarted only if it was connected at an earlier visit and the visit of it
    before this one also found it running and not connected. One that is
    connected, and of which the watchdog's file said nothing when it started, is
    restarted only for a stall: it is no direct tunnel, five readings of its
    counters or more, of 64 KiB one way and not a byte the other, have come with
    nothing else moving in between and the tunnel running throughout, and the
    fifth of them was three minutes ago or more. *)
Theorem restarts_justified f vs v :
  clocked 0 (vs ++ [v]) →
  let s := fst (watch (start f) vs) in
  (∀ i j n ci sti cj stj, (i < j)%nat →
     restarts_in (snd (watch (start f) (vs ++ [v]))) !! i = Some (n, ci, sti) →
     restarts_in (snd (watch (start f) (vs ++ [v]))) !! j = Some (n, cj, stj) → sti + wdCooldown < cj) ∧
  (∀ n c st, (n, c, st) ∈ restarts_in (snd (visitTunnel s v)) →
     n = Name v ∧ active v = true ∧
     (healthy v = true → direct v = false ∧ is_Some (counters v) ∧
        (f !! n = None → Forall counted (vs ++ [v]) →
         ∃ i o ts t5, story n (vs ++ [v]) = Some (i, o, ts) ∧ ts !! 4%nat = Some t5 ∧ t5 + 3 * Flow.Minute ≤ t1 v)) ∧
     (healthy v = false →
        (∃ h, h ∈ vs ∧ Name h = n ∧ active h = true ∧ healthy h = true) ∧
        ∃ vs1 u vs2, vs = vs1 ++ u :: vs2 ∧ Name u = n ∧ active u = true ∧ healthy u = false ∧
          Forall (λ w, Name w ≠ n) vs2)).
Proof.
  intros Hc s. split.
  - intros i j n ci sti cj stj Hij Hi Hj. eapply restarts_pairwise; [exact Hc| |exact Hij|exact Hi|exact Hj].
    intros ? ? H. cbn in H. by rewrite lookup_empty in H.
  - intros n c st Hin. destruct (visit_spec s v) as [[E _]|(c' & st' & E & _ & _ & _ & Ha & Hh & Hu)]; rewrite E in Hin.
    { by apply elem_of_nil in Hin. }
    apply list_elem_of_singleton in Hin as [= -> -> ->]. split_and!; auto.
    + intros Hv. destruct (Hh Hv) as [Hd Hs]. split_and!; [done..|]. intros Hf [HC [HV _]%Forall_cons]%Forall_app.
      assert (kept (flow s !! Name v) (story (Name v) vs)) as HK by (apply watch_kept; [cbn; by rewrite Hf|done]).
      unfold story. rewrite foldl_snoc, decide_True by done.
      apply (throughput_kept (see_healthy (set_fails s (Name v) 0) (Name v)) v _ HK HV Ha Hv).
      unfold visitTunnel in E. rewrite Ha, Hv in E. cbn [negb] in E. by rewrite E.
    + intros Hv. destruct (Hu Hv) as [Hs Hf]. assert (remembers s vs) as [HA HB].
      { apply (watch_remembers vs (start f) []). split; cbn; [intros n Hn; by apply elem_of_empty in Hn|].
        intros n Hn. rewrite lookup_empty in Hn. cbn in Hn. lia. }
      auto.
Qed.

(** A tunnel found up at the first visit and not connected at the ones after. *)
Definition dropping_visit (k : nat) : visit :=
  let t := wdInterval * Z.of_nat k in mkVisit "t" true (k =? 0)%nat false None false t t.
Definition dropping : list visit := map dropping_visit (seq 0 24).

(** And one that is connected, and sends 64 KiB between visits, and nothing comes
    back. *)
Definition stuck_visit (k : nat) : visit :=
  let t := wdInterval * Z.of_nat k in mkVisit "t" true true false (Some (0, 65536 * Z.of_nat k)) true t t.
Definition stuck_visits : list visit := map stuck_visit (seq 0 21).

Lemma restarts_justified_witness :
  let s := fst (watch (start ∅) dropping) in
  let s' := fst (watch (start ∅) stuck_visits) in
  length (restarts_in (snd (watch (start ∅) (dropping ++ [dropping_visit 24])))) = 3%nat ∧
  (∀ n c st, (n, c, st) ∈ restarts_in (snd (visitTunnel s (dropping_visit 24))) →
    ∃ h, h ∈ dropping ∧ Name h = n ∧ healthy h = true) ∧
  restarts_in (snd (visitTunnel s' (stuck_visit 21))) = [("t", t2 (stuck_visit 21), t1 (stuck_visit 21))] ∧
  ∃ i o ts t5, story "t" (stuck_visits ++ [stuck_visit 21]) = Some (i, o, ts) ∧ ts !! 4%nat = Some t5 ∧ t5 + 3 * Flow.Minute ≤ t1 (stuck_visit 21).
Proof.
  intros s s'. split; [by vm_compute|]. split.
  { intros n c st H. destruct (restarts_justified ∅ dropping (dropping_visit 24)) as [_ J].
    { vm_compute. repeat split; discriminate. }
    destruct (J n c st H) as (-> & _ & _ & Hu). destruct (Hu eq_refl) as [(h & ? & ? & _ & ?) _]. by exists h. }
  assert (restarts_in (snd (visitTunnel s' (stuck_visit 21))) = [("t", t2 (stuck_visit 21), t1 (stuck_visit 21))]) as E by (by vm_compute).
  split; [exact E|]. destruct (restarts_justified ∅ stuck_visits (stuck_visit 21)) as [_ J].
  { vm_compute. repeat split; discriminate. }
  destruct (J "t" (t2 (stuck_visit 21)) (t1 (stuck_visit 21))) as (_ & _ & Hu & _).
  { change (("t", t2 (stuck_visit 21), t1 (stuck_visit 21)) ∈ restarts_in (snd (visitTunnel s' (stuck_visit 21)))). rewrite E. by apply list_elem_of_singleton. }
  destruct (Hu eq_refl) as (_ & _ & H). apply H; [done|].
  change (Forall counted (map stuck_visit (seq 0 22))). apply List.Forall_map, Forall_forall. intros k Hk%elem_of_seq.
  unfold counted, stuck_visit, uint64. cbn [counters]. lia.
Defined.

End Watchdog.
