(* ===== verification/History.v ===== *)
(** Bounded histories on disk: the uptime samples of
    [src/internal/tunhist] (Module [Tunhist]), the alert record of
    [src/internal/alerthist] (Module [Alerthist]) and the crontab of
    [src/internal/schedule] (Module [Schedule]). *)

From Stdlib Require Import Ascii String.
From stdpp Require Import sorting.
From S2P Require Import Prelude GoStr.
Open Scope string_scope.
Open Scope list_scope.
Open Scope Z_scope.

(** The last [n] elements: Go's [l = l[len(l)-n:]] when [len(l) > n]. *)
Definition keep_last {A} (n : nat) (l : list A) : list A :=
  if (n <? length l)%nat then drop (length l - n) l else l.

Lemma keep_last_drop {A} n (l : list A) : keep_last n l = drop (length l - n) l.
Proof.
  unfold keep_last. destruct (Nat.ltb_spec n (length l)); [done|].
  by replace (length l - n)%nat with 0%nat by lia.
Qed.

Lemma length_keep_last {A} n (l : list A) : length (keep_last n l) = Nat.min n (length l).
Proof. rewrite keep_last_drop, length_drop. lia. Qed.

Lemma keep_last_snoc {A} n (l : list A) x : (0 < n)%nat → keep_last n (keep_last n l ++ [x]) = keep_last n (l ++ [x]).
Proof.
  intros Hn. rewrite !keep_last_drop, !length_app, length_drop. cbn [length].
  rewrite <- drop_app_le by lia. rewrite drop_drop. f_equal. lia.
Qed.

Module Tunhist.

Definition Second : Z := 1000 * 1000 * 1000.
Definition Hour : Z := 3600 * Second.

Definition keepRecent : nat := 288.
Definition keepHourly : nat := 720.

Record Sample : Type := mkSample { T : Z; In : Z; Out : Z; Up : bool }.

Record Bucket : Type := mkHour { HT : Z; HIn : Z; HOut : Z; UpN : Z; N : Z }.

Record History : Type := mkHistory { Recent : list Sample; Hourly : list Bucket }.

(** [File.Tunnels]. *)
Notation Tunnels := (gmap string History).

Definition Unix (t : Z) : Z := t `div` Second.

(** [now.Truncate(time.Hour).Unix()]. *)
Definition hourStart (now : Z) : Z := Unix (now `div` Hour * Hour).

Definition bool_Z (b : bool) : Z := if b then 1 else 0.

(** The hourly half of [Record]. *)
Definition record_hour (hs : list Bucket) (i o : Z) (up : bool) (now : Z) : list Bucket :=
  match last hs with
  | Some b =>
      if HT b =? hourStart now then
        removelast hs ++ [mkHour (HT b) i o (UpN b + bool_Z up) (N b + 1)]
      else keep_last keepHourly (hs ++ [mkHour (hourStart now) i o (bool_Z up) 1])
  | None => keep_last keepHourly (hs ++ [mkHour (hourStart now) i o (bool_Z up) 1])
  end.

Definition record_history (h : History) (i o : Z) (up : bool) (now : Z) : History :=
  mkHistory (keep_last keepRecent (Recent h ++ [mkSample (Unix now) i o up]))
    (record_hour (Hourly h) i o up now).

Definition Record_ (f : Tunnels) (name : string) (i o : Z) (up : bool) (now : Z) : Tunnels :=
  <[name := record_history (default (mkHistory [] []) (f !! name)) i o up now]> f.

Definition prune (f : Tunnels) (current : gset string) : Tunnels :=
  filter (λ x, fst x ∈ current) f.

Definition lastHourStart (h : History) : Z :=
  match last (Hourly h) with
  | None => 0
  | Some b => foldl (λ newest b, if newest <? HT b then HT b else newest) (HT b) (Hourly h) + 3600
  end.

(** [Uptime] of a history: the checks that found it up and all of them, whose
    quotient is the percentage; [None] when there are none. *)
Definition Uptime (h : History) (now window : Z) : option (Z * Z) :=
  let cutoff := Unix (now - window) in
  let '(up, total) :=
    foldl (λ '(up, total) b,
      if (HT b <? cutoff) || (N b =? 0) then (up, total) else (up + UpN b, total + N b))
      (0, 0) (Hourly h) in
  let '(up, total) :=
    foldl (λ '(up, total) s,
      if (T s <? cutoff) || (T s <? lastHourStart h) then (up, total) else (up + bool_Z (Up s), total + 1))
      (up, total) (Recent h) in
  if total =? 0 then None else Some (up, total).

(** One reading of a tunnel. *)
Record reading : Type := mkReading { rin : Z; rout : Z; rup : bool; rat : Z }.

Definition recorded (h : History) (rs : list reading) : History :=
  foldl (λ h r, record_history h (rin r) (rout r) (rup r) (rat r)) h rs.

(** The readings whose hour starts at or after the cutoff. *)
Definition in_window (cutoff : Z) (rs : list reading) : list reading :=
  filter (λ r, cutoff ≤ hourStart (rat r)) rs.

Definition ups (rs : list reading) : Z := zlen (filter (λ r, rup r = true) rs).

(** ** Lemmas *)

(** The buckets before any is dropped, newest last. *)
Definition add_bucket (hs : list Bucket) (r : reading) : list Bucket :=
  match last hs with
  | Some b =>
      if HT b =? hourStart (rat r) then
        removelast hs ++ [mkHour (HT b) (rin r) (rout r) (UpN b + bool_Z (rup r)) (N b + 1)]
      else hs ++ [mkHour (hourStart (rat r)) (rin r) (rout r) (bool_Z (rup r)) 1]
  | None => hs ++ [mkHour (hourStart (rat r)) (rin r) (rout r) (bool_Z (rup r)) 1]
  end.

Definition buckets (rs : list reading) : list Bucket := foldl add_bucket [] rs.

Lemma last_keep {A} n (l : list A) : (0 < n)%nat → last (keep_last n l) = last l.
Proof.
  intros Hn. destruct l as [|x l _] using rev_ind; [by destruct n|].
  rewrite <- keep_last_snoc by done. rewrite keep_last_drop, length_app. cbn [length].
  rewrite last_snoc. rewrite drop_app_le by (rewrite ?length_keep_last; lia). apply last_snoc.
Qed.

Lemma removelast_snoc {A} (l : list A) x : removelast (l ++ [x]) = l.
Proof. apply removelast_last. Qed.

Lemma keep_last_replace {A} n (l : list A) x y :
  (0 < n)%nat → removelast (keep_last n (l ++ [x])) ++ [y] = keep_last n (l ++ [y]).
Proof.
  intros Hn. rewrite !keep_last_drop, !length_app. cbn [length].
  rewrite !drop_app_le by lia. by rewrite removelast_snoc.
Qed.

Lemma recorded_hourly rs : Hourly (recorded (mkHistory [] []) rs) = keep_last keepHourly (buckets rs).
Proof.
  induction rs as [|r rs IH] using rev_ind; [done|].
  unfold recorded, buckets in *. rewrite !foldl_snoc. cbn [Hourly record_history].
  rewrite IH. set (bs := foldl add_bucket [] rs). unfold record_hour, add_bucket.
  assert (0 < keepHourly)%nat by (unfold keepHourly; lia). rewrite last_keep by done.
  destruct (last bs) as [b|] eqn:El; [|by apply keep_last_snoc].
  destruct (HT b =? hourStart (rat r)); [|by apply keep_last_snoc].
  apply last_Some in El as [bs' ->]. rewrite removelast_snoc. by apply keep_last_replace.
Qed.

(** The checks of the buckets from the cutoff on. *)
Definition sum_from (cutoff : Z) (f : Bucket → Z) (hs : list Bucket) : Z :=
  foldr (λ b a, (if HT b <? cutoff then 0 else f b) + a) 0 hs.

Lemma sum_from_app cutoff f hs hs' : sum_from cutoff f (hs ++ hs') = sum_from cutoff f hs + sum_from cutoff f hs'.
Proof. unfold sum_from. induction hs as [|b hs IH]; [done|]. cbn. rewrite IH. lia. Qed.

Lemma sum_from_old cutoff f hs : Forall (λ b, HT b < cutoff) hs → sum_from cutoff f hs = 0.
Proof. unfold sum_from. induction 1 as [|b hs Hb _ IH]; [done|]. cbn. zbool. lia. Qed.

Lemma fold_hours cutoff hs : Forall (λ b, 1 ≤ N b) hs → ∀ up total,
  foldl (λ '(up, total) b,
    if (HT b <? cutoff) || (N b =? 0) then (up, total) else (up + UpN b, total + N b)) (up, total) hs =
  (up + sum_from cutoff UpN hs, total + sum_from cutoff N hs).
Proof.
  induction 1 as [|b hs Hb _ IH]; intros up total; [cbn; f_equal; lia|]. cbn [foldl sum_from foldr].
  replace (N b =? 0) with false by (symmetry; apply Z.eqb_neq; lia). rewrite orb_false_r.
  destruct (HT b <? cutoff); rewrite IH; fold (sum_from cutoff UpN hs) (sum_from cutoff N hs); f_equal; lia.
Qed.

Lemma buckets_snoc rs r : buckets (rs ++ [r]) = add_bucket (buckets rs) r.
Proof. unfold buckets. by rewrite foldl_snoc. Qed.

Lemma add_bucket_sum cutoff bs r :
  sum_from cutoff UpN (add_bucket bs r) =
    sum_from cutoff UpN bs + (if hourStart (rat r) <? cutoff then 0 else bool_Z (rup r)) ∧
  sum_from cutoff N (add_bucket bs r) = sum_from cutoff N bs + (if hourStart (rat r) <? cutoff then 0 else 1).
Proof.
  unfold add_bucket. destruct (last bs) as [b|] eqn:El; [destruct (Z.eqb_spec (HT b) (hourStart (rat r))) as [E|E]|].
  - apply last_Some in El as [bs' ->]. rewrite removelast_snoc, !sum_from_app. cbn. rewrite E.
    destruct (hourStart (rat r) <? cutoff); lia.
  - rewrite !sum_from_app. cbn. destruct (hourStart (rat r) <? cutoff); lia.
  - rewrite !sum_from_app. cbn. destruct (hourStart (rat r) <? cutoff); lia.
Qed.

Lemma ups_app rs rs' : ups (rs ++ rs') = ups rs + ups rs'.
Proof. unfold ups. by rewrite filter_app, zlen_app. Qed.

Lemma ups_one r : ups [r] = bool_Z (rup r).
Proof. unfold ups. rewrite filter_cons, filter_nil. by destruct (rup r); case_decide. Qed.

(** The buckets count every reading of the window exactly once. *)
Lemma buckets_sum cutoff rs :
  sum_from cutoff UpN (buckets rs) = ups (in_window cutoff rs) ∧
  sum_from cutoff N (buckets rs) = zlen (in_window cutoff rs).
Proof.
  induction rs as [|r rs [IH1 IH2]] using rev_ind; [done|].
  destruct (add_bucket_sum cutoff (buckets rs) r) as [H1 H2]. unfold in_window in *.
  rewrite buckets_snoc, H1, H2, IH1, IH2, !filter_app, ups_app, zlen_app, !filter_cons, !filter_nil.
  case_decide; destruct (Z.ltb_spec (hourStart (rat r)) cutoff); try lia.
  - rewrite ups_one. done.
  - done.
Qed.

Lemma buckets_N rs : Forall (λ b, 1 ≤ N b) (buckets rs).
Proof.
  induction rs as [|r rs IH] using rev_ind; [constructor|]. rewrite buckets_snoc. unfold add_bucket.
  destruct (last (buckets rs)) as [b|] eqn:El; [destruct (_ =? _)|].
  - apply last_Some in El as [bs' E]. rewrite E in IH |- *. rewrite removelast_snoc.
    apply Forall_app in IH as [IH Hb]. apply Forall_app. split; [done|]. constructor; [|done].
    inversion Hb; subst. cbn in *. lia.
  - apply Forall_app. split; [done|]. by constructor.
  - apply Forall_app. split; [done|]. by constructor.
Qed.

(** Readings in the order of their times. *)
Definition in_order (rs : list reading) : Prop := Sorted (λ a b, rat a ≤ rat b) rs.

Lemma in_order_snoc rs r r' : in_order (rs ++ [r; r']) → in_order (rs ++ [r]) ∧ rat r ≤ rat r'.
Proof.
  unfold in_order. intros H. induction rs as [|x rs IH]; cbn in *.
  - inversion H as [|? ? _ Hd]; subst. inversion Hd; subst. split; [by repeat constructor|done].
  - inversion H as [|? ? H' Hd]; subst. destruct (IH H') as [H1 H2]. split; [|done]. constructor; [done|].
    destruct rs; cbn in *; inversion Hd; by constructor.
Qed.

Lemma hourStart_eq now : hourStart now = now `div` Hour * 3600.
Proof.
  unfold hourStart, Unix. unfold Hour. rewrite Z.mul_assoc. rewrite Z.div_mul by done. done.
Qed.

(** Consecutive buckets are whole hours apart, and the last one is the hour of
    the last reading. *)
Lemma buckets_spaced rs : in_order rs →
  (∀ r, last rs = Some r → ∃ b, last (buckets rs) = Some b ∧ HT b = hourStart (rat r)) ∧
  (∀ i b c, buckets rs !! i = Some b → buckets rs !! S i = Some c → HT b + 3600 ≤ HT c).
Proof.
  induction rs as [|r' rs IH] using rev_ind; [intros _; split; [done|done]|].
  intros Ho. destruct rs as [|r rs _] using rev_ind.
  { cbn. split; [intros r [= <-]; eexists; split; [done|done]|]. intros i b c _ H. by destruct i. }
  rewrite <- app_assoc in Ho. cbn [app] in Ho. apply in_order_snoc in Ho as [Ho Hle].
  destruct (IH Ho) as [Hl Hs]. destruct (Hl r ltac:(apply last_snoc)) as (b & Eb & Hb).
  rewrite buckets_snoc. unfold add_bucket. rewrite Eb. apply last_Some in Eb as [bs Ebs].
  rewrite Ebs in Hs |- *. rewrite last_snoc.
  assert (HT b ≤ hourStart (rat r')) as Hmono.
  { rewrite Hb, !hourStart_eq. apply Z.mul_le_mono_nonneg_r; [lia|]. by apply Z.div_le_mono. }
  destruct (Z.eqb_spec (HT b) (hourStart (rat r'))) as [E|E]; (split; [intros x [= <-]|]).
  - rewrite removelast_snoc, last_snoc. by eexists.
  - rewrite removelast_snoc. intros i x y Hx Hy. apply lookup_snoc_Some in Hx, Hy. cbn in *.
    destruct Hx as [[Hx1 Hx]|[Hx1 Hx]], Hy as [[Hy1 Hy]|[Hy1 Hy]]; try lia.
    + apply (Hs i); apply lookup_snoc_Some; auto.
    + subst y. cbn. assert (HT x + 3600 ≤ HT b); [|lia]. apply (Hs i); apply lookup_snoc_Some; auto.
  - rewrite last_snoc. by eexists.
  - intros i x y Hx Hy. apply lookup_snoc_Some in Hx, Hy.
    destruct Hx as [[Hx1 Hx]|[Hx1 Hx]], Hy as [[Hy1 Hy]|[Hy1 Hy]]; try lia.
    + by apply (Hs i).
    + subst y. cbn. rewrite length_app in *. cbn in *. apply lookup_snoc_Some in Hx as [[? _]|[_ ->]]; [lia|].
      rewrite Hb in *. rewrite !hourStart_eq in *. lia.
Qed.

Lemma spaced_far (bs : list Bucket) : (∀ i b c, bs !! i = Some b → bs !! S i = Some c → HT b + 3600 ≤ HT c) →
  ∀ k i b c, bs !! i = Some b → bs !! (i + k)%nat = Some c → HT b + 3600 * Z.of_nat k ≤ HT c.
Proof.
  intros Hs. induction k as [|k IH]; intros i b c Hb Hc.
  - rewrite Nat.add_0_r in Hc. simplify_eq. lia.
  - destruct (bs !! (i + k)%nat) as [d|] eqn:Ed.
    + specialize (IH i b d Hb Ed). replace (i + S k)%nat with (S (i + k)) in Hc by lia. specialize (Hs _ _ _ Ed Hc). lia.
    + apply lookup_ge_None in Ed. apply lookup_lt_Some in Hc. lia.
Qed.

(** Dropping all but the newest 720 hours drops nothing a window of less than
    720 hours can see. *)
Lemma kept_sum cutoff f bs b :
  (∀ i b c, bs !! i = Some b → bs !! S i = Some c → HT b + 3600 ≤ HT c) →
  last bs = Some b → HT b - 3600 * 720 < cutoff →
  sum_from cutoff f (keep_last keepHourly bs) = sum_from cutoff f bs.
Proof.
  intros Hs Hl Hc. rewrite keep_last_drop. rewrite <- (take_drop (length bs - keepHourly) bs) at 3.
  rewrite sum_from_app, (sum_from_old _ _ (take _ _)); [lia|].
  apply Forall_lookup. intros i x Hx. apply lookup_take_Some in Hx as [Hx Hi].
  rewrite last_lookup in Hl. pose proof (spaced_far bs Hs (pred (length bs) - i) i x b Hx) as H.
  replace (i + (pred (length bs) - i))%nat with (pred (length bs)) in H by lia.
  specialize (H Hl). unfold keepHourly in *. lia.
Qed.

Lemma newest_ge bs : ∀ n, n ≤ foldl (λ newest b, if newest <? HT b then HT b else newest) n bs.
Proof.
  induction bs as [|b bs IH]; intros n; [done|]. cbn. specialize (IH (if n <? HT b then HT b else n)).
  destruct (Z.ltb_spec n (HT b)); lia.
Qed.

Lemma recent_recorded rs s : s ∈ Recent (recorded (mkHistory [] []) rs) → ∃ r, r ∈ rs ∧ T s = Unix (rat r).
Proof.
  induction rs as [|r rs IH] using rev_ind; [by intros ?%elem_of_nil|].
  unfold recorded in *. rewrite foldl_snoc. cbn [Recent record_history]. rewrite keep_last_drop.
  intros [Hs|Hs]%(subseteq_drop _ _ _)%elem_of_app.
  - destruct (IH Hs) as (x & Hx & ?). exists x. split; [|done]. apply elem_of_app. by left.
  - apply list_elem_of_singleton in Hs as ->. exists r. split; [|done]. apply elem_of_app. right. apply list_elem_of_here.
Qed.

Lemma fold_recent cutoff bound ss : Forall (λ s, T s < bound) ss → ∀ x,
  foldl (λ '(up, total) s,
    if (T s <? cutoff) || (T s <? bound) then (up, total) else (up + bool_Z (Up s), total + 1)) x ss = x.
Proof.
  induction 1 as [|s ss Hs _ IH]; intros [up total]; [done|]. cbn. zbool. rewrite orb_true_r. apply IH.
Qed.

Lemma in_order_last rs r x : in_order (rs ++ [r]) → x ∈ rs ++ [r] → rat x ≤ rat r.
Proof.
  intros Ho. unfold in_order in Ho.
  assert (StronglySorted (λ a b, rat a ≤ rat b) (rs ++ [r])) as HS
    by (apply Sorted_StronglySorted; [intros ????; lia|done]).
  clear Ho. induction rs as [|y rs IH]; cbn in *; [intros ->%list_elem_of_singleton; lia|].
  inversion HS as [|? ? HS' HF]; subst. intros [->|Hx]%elem_of_cons; [|by apply IH].
  rewrite Forall_forall in HF. apply (HF r). apply elem_of_app. right. apply list_elem_of_here.
Qed.

(** No five-minute sample is newer than the last bucket: the samples are
    counted by their hour and by nothing else. *)
Lemma recent_inside rs : in_order rs →
  let h := recorded (mkHistory [] []) rs in Forall (λ s, T s < lastHourStart h) (Recent h).
Proof.
  intros Ho h. apply Forall_forall. intros s Hs. destruct (recent_recorded rs s Hs) as (x & Hx & ->).
  destruct rs as [|r rs _] using rev_ind; [by apply elem_of_nil in Hx|].
  destruct (proj1 (buckets_spaced _ Ho) r ltac:(apply last_snoc)) as (b & Eb & Hb).
  unfold lastHourStart. unfold h. rewrite recorded_hourly, last_keep, Eb by (unfold keepHourly; lia).
  pose proof (newest_ge (keep_last keepHourly (buckets (rs ++ [r]))) (HT b)) as Hn.
  pose proof (in_order_last rs r x Ho Hx) as Hle. rewrite Hb, hourStart_eq in *.
  assert (Unix (rat x) < rat r `div` Hour * 3600 + 3600); [|lia].
  unfold Unix. apply Z.div_lt_upper_bound; [done|].
  pose proof (Z.mod_pos_bound (rat r) Hour ltac:(done)). pose proof (Z.div_mod (rat r) Hour ltac:(done)).
  unfold Hour in *. lia.
Qed.

(** The uptime figure is exact. For readings recorded on a clock that does
    not run backwards, and any window shorter than thirty days, [Uptime]
    counts every reading whose hour began inside the window exactly once, and
    of them exactly those that saw the tunnel up, though only 288 samples and
    720 hours are kept; with no such reading it says not measured, not down. *)
Theorem uptime_exact rs now window :
  in_order rs → Forall (λ r, rat r ≤ now) rs → window ≤ 720 * Hour - Second →
  let w := in_window (Unix (now - window)) rs in
  Uptime (recorded (mkHistory [] []) rs) now window = if zlen w =? 0 then None else Some (ups w, zlen w).
Proof.
  intros Ho Hn Hw w. unfold Uptime. rewrite fold_hours.
  2:{ rewrite recorded_hourly, keep_last_drop. apply Forall_drop, buckets_N. }
  rewrite (fold_recent _ _ _ (recent_inside rs Ho)), recorded_hourly.
  set (cutoff := Unix (now - window)) in *. destruct (buckets_sum cutoff rs) as [E1 E2].
  destruct rs as [|r rs _] using rev_ind; [done|].
  destruct (buckets_spaced _ Ho) as [Hl Hs]. destruct (Hl r ltac:(apply last_snoc)) as (b & Eb & Hb).
  assert (HT b - 3600 * 720 < cutoff) as Hc.
  { rewrite Hb, hourStart_eq. apply Forall_app in Hn as [_ Hn]. inversion Hn as [|? ? Hr _]; subst.
    unfold cutoff, Unix. apply Z.le_succ_l, Z.div_le_lower_bound; [done|].
    pose proof (Z.mod_pos_bound (rat r) Hour ltac:(done)). pose proof (Z.div_mod (rat r) Hour ltac:(done)).
    unfold Hour, Second in *. lia. }
  rewrite !(kept_sum cutoff _ _ b Hs Eb Hc), E1, E2. done.
Qed.

(** Thirty-one days of readings, one an hour, down every fourth. *)
Definition month : list reading :=
  map (λ k, mkReading 0 0 (negb (Z.of_nat k `mod` 4 =? 0)) (Hour * Z.of_nat k)) (seq 0 744).

Lemma uptime_exact_witness :
  Uptime (recorded (mkHistory [] []) month) (743 * Hour) (24 * Hour) = Some (19, 25) ∧
  Uptime (recorded (mkHistory [] []) month) (800 * Hour) (24 * Hour) =
    if zlen (in_window (Unix (800 * Hour - 24 * Hour)) month) =? 0 then None
    else Some (ups (in_window (Unix (800 * Hour - 24 * Hour)) month), zlen (in_window (Unix (800 * Hour - 24 * Hour)) month)).
Proof.
  split; [by vm_compute|]. apply (uptime_exact month (800 * Hour) (24 * Hour)).
  - unfold in_order. apply (bool_decide_unpack _). by vm_compute.
  - apply (bool_decide_unpack _). by vm_compute.
  - by vm_compute.
Defined.

End Tunhist.

(** ** The crontab *)

Module Schedule.
Import GoStr.

Definition EffectiveHours (hours : Z) : Z :=
  if hours <=? 0 then 0
  else if hours <=? 24 then hours
  else hours `quot` 24 * 24.

Definition HourlySpec (hours : Z) : string :=
  if hours <=? 0 then ""
  else if hours =? 1 then "0 * * * *"
  else if hours <? 24 then "0 */" +:+ Itoa hours +:+ " * * *"
  else if hours =? 24 then "0 0 * * *"
  else "0 0 */" +:+ Itoa (hours `quot` 24) +:+ " * *".

Definition newline : ascii := "010".

(** What [crontab -l] answers: its output, a failure that says there is no
    crontab (see [noCrontabYet]), or any other failure with what it printed. *)
Inductive listing : Type :=
| Output (text : string)
| Failed (stderr : string)
| NotRun.

Definition noCrontabYet (stderr : string) : bool := Contains (ToLower stderr) "no crontab".

Definition lines_of (text : string) : list string :=
  filter (λ l, TrimSpace l ≠ "") (Split text newline).

(** [readCrontab]; [None] is its error. *)
Definition readCrontab (l : listing) : option (list string) :=
  match l with
  | Output text => Some (lines_of text)
  | Failed stderr => if noCrontabYet stderr then Some [] else None
  | NotRun => None
  end.

(** What [writeCrontab] gives [crontab -] to read. *)
Definition writeCrontab (lines : list string) : string := Join lines (String newline "") +:+ String newline "".

Definition marked (marker l : string) : bool := Contains l ("# " +:+ marker).

(** [SetCron]: the crontab it installs; [None] when it installs none. *)
Definition SetCron (current : listing) (marker spec command : string) : option string :=
  match readCrontab current with
  | None => None
  | Some lines =>
      let kept := filter (λ l, marked marker l = false) lines in
      let kept :=
        if String.eqb spec "" then kept
        else kept ++ [spec +:+ " " +:+ command +:+ " # " +:+ marker] in
      Some (writeCrontab kept)
  end.

Definition RemoveCron (current : listing) (marker : string) : option string := SetCron current marker "" "".

(** The longest run of digits a string starts with, and the rest. *)
Fixpoint take_digits (s : string) : string * string :=
  match s with
  | String c s' =>
      if is_digit c then let x := take_digits s' in (String c (fst x), snd x) else ("", s)
  | EmptyString => ("", "")
  end.

(** A match of [^pre(\d+)post]: the digits. *)
Definition match_digits (pre post s : string) : option string :=
  match strip_prefix pre s with
  | None => None
  | Some s =>
      let x := take_digits s in
      if String.eqb (fst x) "" then None
      else if HasPrefix (snd x) post then Some (fst x) else None
  end.

(** [n, _ := strconv.Atoi(m)] of a run of digits: out of range is the largest
    [int]. *)
Definition Atoi_digits (m : string) : Z := match Atoi m with Some n => n | None => 2^63 - 1 end.

Definition intervalFromLine (l : string) : Z :=
  if HasPrefix l "0 * * * *" then 1
  else if HasPrefix l "0 0 * * *" then 24
  else
    match match_digits "0 */" " * * *" l with
    | Some m => Atoi_digits m
    | None =>
        match match_digits "0 0 */" " * *" l with
        | Some m => int64 (Atoi_digits m * 24)
        | None => 0
        end
    end.

(** [GetIntervalHours]; a crontab that cannot be read has no lines. *)
Definition GetIntervalHours (current : listing) (marker : string) : Z :=
  match filter (λ l, marked marker l = true) (default [] (readCrontab current)) with
  | l :: _ => intervalFromLine l
  | [] => 0
  end.

(** ** Lemmas *)

Lemma Contains_inside a sep b : Contains (a +:+ sep +:+ b) sep = true.
Proof. unfold Contains. by destruct (Cut_inside a sep b) as [? ->]. Qed.

Lemma Split_lines ls : Forall (free newline) ls → Split (writeCrontab ls) newline = ls ++ (if decide (ls = []) then [""; ""] else [""]).
Proof.
  unfold writeCrontab. induction 1 as [|l ls Hl Hls IH]; [done|]. destruct ls as [|k ls].
  - cbn [Join app]. by rewrite Split_app.
  - assert (Join (l :: k :: ls) (String newline "") = l +:+ String newline (Join (k :: ls) (String newline ""))) as -> by done.
    rewrite append_assoc. cbn [String.append]. rewrite Split_app by done.
    cbn [String.append] in IH. rewrite IH. done.
Qed.

Lemma filter_all {A} (P : A → Prop) `{!∀ x, Decision (P x)} l : Forall P l → filter P l = l.
Proof. induction 1 as [|x l Hx _ IH]; [done|]. rewrite filter_cons, decide_True by done. by rewrite IH. Qed.

Lemma filter_none {A} (P : A → Prop) `{!∀ x, Decision (P x)} l : Forall (λ x, ¬ P x) l → filter P l = [].
Proof. induction 1 as [|x l Hx _ IH]; [done|]. by rewrite filter_cons, decide_False by done. Qed.

(** What is written is what is read back. *)
Lemma read_written ls : Forall (free newline) ls → Forall (λ l, TrimSpace l ≠ "") ls →
  readCrontab (Output (writeCrontab ls)) = Some ls.
Proof.
  intros Hf Hb. cbn. f_equal. unfold lines_of. rewrite (Split_lines ls Hf), filter_app.
  assert (filter (λ l, TrimSpace l ≠ "") (if decide (ls = []) then [""; ""] else [""]) = []) as ->
    by (case_decide; by vm_compute).
  rewrite app_nil_r. by apply filter_all.
Qed.

(** A string with a printable character is not blank. *)
Definition has_printable (s : string) : Prop := Exists (λ c, printable c = true) (list_ascii_of_string s).

Lemma strip_keeps ps s r :
  Forall (all_chars (λ c, negb (printable c))) ps → strip_any ps s = Some r → has_printable s → has_printable r.
Proof.
  induction 1 as [|p ps Hp _ IH]; [done|]. cbn [strip_any].
  destruct (strip_prefix p s) as [r'|] eqn:E; [|done]. intros [= <-] H. apply strip_prefix_Some in E as ->.
  unfold has_printable in *. rewrite list_ascii_app in H. apply Exists_app in H as [H|H]; [|done].
  apply Exists_exists in H as (c & Hc & Hp'). unfold all_chars in Hp. rewrite Forall_forall in Hp.
  apply Hp in Hc. by rewrite Hp' in Hc.
Qed.

Lemma trim_keeps ps fuel : Forall (all_chars (λ c, negb (printable c))) ps → ∀ s,
  has_printable s → has_printable (trim_with ps fuel s).
Proof.
  intros Hps. induction fuel as [|fuel IH]; intros s Hs; [done|]. cbn [trim_with].
  destruct (strip_any ps s) eqn:E; [|done]. apply IH. by eapply strip_keeps.
Qed.

#[local] Transparent spaces.
Lemma spaces_blank :
  Forall (all_chars (λ c, negb (printable c))) spaces ∧
  Forall (all_chars (λ c, negb (printable c))) (map rev_string spaces).
Proof. split; apply (bool_decide_unpack _); by vm_compute. Qed.
#[local] Opaque spaces.

Lemma rev_has_printable s : has_printable s → has_printable (rev_string s).
Proof.
  unfold has_printable, rev_string. rewrite list_ascii_of_string_of_list_ascii, !Exists_exists.
  intros (c & Hc & ?). exists c. split; [|done]. apply list_elem_of_In. apply -> in_rev. by apply list_elem_of_In.
Qed.

Lemma printable_not_blank c s : printable c = true → TrimSpace (String c s) ≠ "".
Proof.
  intros Hc H. assert (has_printable (TrimSpace (String c s))) as Hp.
  { destruct spaces_blank as [H1 H2]. unfold TrimSpace.
    apply rev_has_printable, trim_keeps, rev_has_printable, trim_keeps; try done. by apply Exists_cons_hd. }
  rewrite H in Hp. by apply Exists_nil in Hp.
Qed.

Lemma take_digits_app s t :
  all_chars is_digit s → (∀ c t', t = String c t' → is_digit c = false) → take_digits (s +:+ t) = (s, t).
Proof.
  intros Hs Ht. induction s as [|c s IH].
  - cbn [String.append]. destruct t as [|c t]; [done|]. cbn [take_digits]. by rewrite (Ht c t).
  - apply all_chars_cons in Hs as [Hc Hs]. cbn [String.append take_digits]. by rewrite Hc, (IH Hs).
Qed.

Lemma match_digits_written pre post n rest : 0 ≤ n →
  (∀ c t', post +:+ rest = String c t' → is_digit c = false) →
  match_digits pre post (pre +:+ Itoa n +:+ post +:+ rest) = Some (Itoa n).
Proof.
  intros Hn Hp. unfold match_digits. rewrite strip_prefix_app, Itoa_nonneg by done.
  rewrite take_digits_app; [|by apply FormatUint_digits|done]. cbn [fst snd].
  destruct (FormatUint_cons n) as (c & s & ->). cbn [String.eqb]. unfold HasPrefix. by rewrite strip_prefix_app.
Qed.

(** The first digit of a number is not a star. *)
Lemma Itoa_no_star n rest : 0 ≤ n → strip_prefix "*" (Itoa n +:+ rest) = None ∧ strip_prefix " " (Itoa n +:+ rest) = None.
Proof.
  intros Hn. rewrite Itoa_nonneg by done. pose proof (FormatUint_digits n Hn) as Hd.
  destruct (FormatUint_cons n) as (c & s & E). rewrite E in *. apply all_chars_cons in Hd as [Hc _].
  cbn [String.append strip_prefix]. split.
  - destruct (Ascii.eqb_spec "*" c) as [<-|]; [by vm_compute in Hc|done].
  - destruct (Ascii.eqb_spec " " c) as [<-|]; [by vm_compute in Hc|done].
Qed.

Lemma interval_written hours rest : 0 < hours < 2^63 →
  intervalFromLine (HourlySpec hours +:+ " " +:+ rest) = EffectiveHours hours.
Proof.
  intros Hh. unfold HourlySpec, EffectiveHours.
  destruct (Z.leb_spec hours 0); [lia|]. destruct (Z.eqb_spec hours 1) as [->|]; [done|].
  destruct (Z.ltb_spec hours 24).
  - destruct (Z.leb_spec hours 24); [|lia]. rewrite !append_assoc. unfold intervalFromLine.
    assert (∀ p, HasPrefix ("0 */" +:+ p) "0 * * * *" = false ∧ HasPrefix ("0 */" +:+ p) "0 0 * * *" = false) as Hp
      by (intros; split; reflexivity).
    destruct (Hp (Itoa hours +:+ " * * *" +:+ " " +:+ rest)) as [-> ->].
    rewrite match_digits_written; [|lia|by intros c t [= <- _]].
    unfold Atoi_digits. by rewrite Atoi_Itoa by lia.
  - destruct (Z.eqb_spec hours 24) as [->|]; [done|]. destruct (Z.leb_spec hours 24); [lia|].
    rewrite !append_assoc. unfold intervalFromLine.
    assert (∀ p, HasPrefix ("0 0 */" +:+ p) "0 * * * *" = false ∧ HasPrefix ("0 0 */" +:+ p) "0 0 * * *" = false ∧
      match_digits "0 */" " * * *" ("0 0 */" +:+ p) = None) as Hp by (intros; split_and!; reflexivity).
    destruct (Hp (Itoa (hours `quot` 24) +:+ " * *" +:+ " " +:+ rest)) as (-> & -> & ->).
    pose proof (Z.quot_div_nonneg hours 24 ltac:(lia) ltac:(lia)) as Hq.
    pose proof (Z.div_mod hours 24 ltac:(lia)). pose proof (Z.mod_pos_bound hours 24 ltac:(lia)).
    rewrite match_digits_written; [|lia|by intros c t [= <- _]].
    unfold Atoi_digits. rewrite Atoi_Itoa by lia. apply int64_small. lia.
Qed.

Lemma Itoa_free n : 0 ≤ n → free newline (Itoa n).
Proof.
  intros Hn. rewrite Itoa_nonneg by done. eapply all_chars_impl; [|by apply FormatUint_digits].
  intros c Hc. destruct (Ascii.eqb_spec c newline) as [->|]; [by vm_compute in Hc|done].
Qed.

Lemma HourlySpec_free hours : free newline (HourlySpec hours).
Proof.
  unfold HourlySpec. destruct (Z.leb_spec hours 0); [constructor|].
  repeat (destruct (_ =? _) || destruct (_ <? _)); rewrite ?free_app; split_and?;
    try (apply Itoa_free; first [lia|apply Z.quot_pos; lia]); repeat constructor.
Qed.

Lemma HourlySpec_shape hours : 0 < hours → ∃ s, HourlySpec hours = String "0" s.
Proof.
  intros Hh. unfold HourlySpec. destruct (Z.leb_spec hours 0); [lia|].
  repeat (destruct (_ =? _) || destruct (_ <? _)); by eexists.
Qed.

Lemma readCrontab_lines current lines : readCrontab current = Some lines →
  Forall (free newline) lines ∧ Forall (λ l, TrimSpace l ≠ "") lines.
Proof.
  destruct current as [text|e|]; cbn; [|by destruct (noCrontabYet e); intros [= <-]|done]. intros [= <-].
  unfold lines_of. split.
  - apply Forall_forall. intros l [_ Hl]%list_elem_of_filter. exact (proj1 (Forall_forall _ _) (Split_parts newline text) l Hl).
  - apply Forall_forall. by intros l [Hl _]%list_elem_of_filter.
Qed.

(** Scheduling a job is safe and reads back. A crontab that could not be
    read is never written over. Otherwise what is installed is every line that
    was there and does not carry the marker, in order and unchanged, and after
    them one line that does; read back, the interval is the one
    [EffectiveHours] announces. Removing the job leaves the other lines only,
    and reads back as not scheduled. *)
Theorem schedule_installed current marker hours command :
  0 < hours < 2^63 → free newline marker → free newline command →
  match readCrontab current with
  | None => SetCron current marker (HourlySpec hours) command = None ∧ RemoveCron current marker = None
  | Some lines =>
      let others := filter (λ l, marked marker l = false) lines in
      (∃ text line, SetCron current marker (HourlySpec hours) command = Some text ∧
         readCrontab (Output text) = Some (others ++ [line]) ∧ marked marker line = true ∧
         GetIntervalHours (Output text) marker = EffectiveHours hours) ∧
      (∃ text, RemoveCron current marker = Some text ∧ readCrontab (Output text) = Some others ∧
         GetIntervalHours (Output text) marker = 0)
  end.
Proof.
  intros Hh Hm Hc. destruct (readCrontab current) as [lines|] eqn:E; [|unfold RemoveCron, SetCron; by rewrite E].
  cbv zeta. set (others := filter (λ l, marked marker l = false) lines).
  destruct (readCrontab_lines _ _ E) as [Hf Hb].
  assert (Forall (free newline) others ∧ Forall (λ l, TrimSpace l ≠ "") others) as [Hf' Hb'].
  { split; apply Forall_forall; intros l [_ Hl]%list_elem_of_filter;
      [by eapply (proj1 (Forall_forall _ _) Hf)|by eapply (proj1 (Forall_forall _ _) Hb)]. }
  assert (filter (λ l, marked marker l = true) others = []) as Hno.
  { apply filter_none, Forall_forall. intros l [Hl _]%list_elem_of_filter. by rewrite Hl. }
  destruct (HourlySpec_shape hours ltac:(lia)) as [s Es]. split.
  - set (line := HourlySpec hours +:+ " " +:+ command +:+ " # " +:+ marker).
    assert (marked marker line = true) as Hline.
    { unfold marked, line. replace (_ +:+ _) with ((HourlySpec hours +:+ " " +:+ command +:+ " ") +:+ ("# " +:+ marker) +:+ "")
        by (rewrite append_nil_r, !append_assoc; done). apply Contains_inside. }
    assert (readCrontab (Output (writeCrontab (others ++ [line]))) = Some (others ++ [line])) as Hr.
    { apply read_written; apply Forall_app; (split; [done|constructor; [|constructor]]).
      - unfold line. rewrite !free_app. split_and!; try done; first [apply HourlySpec_free|by repeat constructor].
      - unfold line. rewrite Es. by apply printable_not_blank. }
    exists (writeCrontab (others ++ [line])), line. split_and!; [|done|done|].
    + unfold SetCron. rewrite E, Es. cbn [String.eqb]. by rewrite <- Es.
    + unfold GetIntervalHours. rewrite Hr. cbn [from_option id]. rewrite filter_app, Hno, filter_all by (by constructor).
      cbn [app]. by apply interval_written.
  - assert (readCrontab (Output (writeCrontab others)) = Some others) as Hr by (by apply read_written).
    exists (writeCrontab others). split_and!; [|done|].
    + unfold RemoveCron, SetCron. by rewrite E.
    + unfold GetIntervalHours. rewrite Hr. cbn [from_option id]. by rewrite Hno.
Qed.

Definition crontab_example : string := "@reboot /root/x" +:+ String newline "0 * * * * b # backpack-auto-refresh".

Lemma schedule_installed_witness :
  (∃ text, SetCron (Output crontab_example) "backpack-auto-refresh" (HourlySpec 36) "b --restart-all" = Some text ∧
     readCrontab (Output text) = Some ["@reboot /root/x"; "0 0 */1 * * b --restart-all # backpack-auto-refresh"] ∧
     GetIntervalHours (Output text) "backpack-auto-refresh" = 24) ∧
  ∃ text, RemoveCron (Output crontab_example) "backpack-auto-refresh" = Some text ∧
    GetIntervalHours (Output text) "backpack-auto-refresh" = 0.
Proof.
  split; [by eexists; split_and!; [vm_compute; reflexivity|vm_compute; reflexivity|vm_compute; reflexivity]|].
  assert (free newline "backpack-auto-refresh" ∧ free newline "b --restart-all") as [Hm Hc]
    by (split; apply (bool_decide_unpack _); by vm_compute).
  pose proof (schedule_installed (Output crontab_example) "backpack-auto-refresh" 36 "b --restart-all"
    ltac:(lia) Hm Hc) as H.
  destruct H as (_ & text & H1 & _ & H2). by exists text.
Defined.

End Schedule.

(** ** The alert record *)

Module Alerthist.

Definition maxEvents : nat := 100.

Record Event : Type := mkEvent { Time : Z; Message : string }.

Record State : Type := mkState { Updated : option Z; Active : list string; Events : list Event }.

(** [Load] of a missing or damaged file. *)
Definition empty : State := mkState None [] [].

(** [RecordEvent] from the state it has loaded to the one it writes. *)
Definition RecordEvent (st : State) (msg : string) (now : Z) : State :=
  mkState (Some now) (Active st) (keep_last maxEvents (Events st ++ [mkEvent now msg])).

(** [Record]; [None] when nothing is written. *)
Definition Record_ (st : State) (msgs active : list string) (now : Z) : option State :=
  if bool_decide (msgs = []) && bool_decide (active = Active st) && bool_decide (Updated st ≠ None) then None
  else Some (mkState (Some now) active (keep_last maxEvents (Events st ++ map (mkEvent now) msgs))).

Definition Since (st : State) (t : Z) : list Event := filter (λ e, t < Time e) (Events st).

(** Several writers at once. Nothing orders them: each loads the file, then
    replaces it, and a process or a goroutine may do so between the two. *)
Inductive writer : Type :=
| Calling (msg : string)
| Loaded (msg : string) (st : State)
| Returned.

Inductive wstep : State * list writer → State * list writer → Prop :=
| wstep_load f ws i msg :
    ws !! i = Some (Calling msg) → wstep (f, ws) (f, <[i := Loaded msg f]> ws)
| wstep_write f ws i msg st now :
    ws !! i = Some (Loaded msg st) → wstep (f, ws) (RecordEvent st msg now, <[i := Returned]> ws).

(** One writer at a time keeps everything: the newest hundred events are there,
    and [Since] gives exactly those of them recorded after the time asked. *)
Lemma one_at_a_time msgs :
  Events (foldl (λ st m, RecordEvent st (snd m) (fst m)) empty msgs) =
    keep_last maxEvents (map (λ m, mkEvent (fst m) (snd m)) msgs).
Proof.
  induction msgs as [|[now m] msgs IH] using rev_ind; [done|].
  rewrite foldl_snoc, map_app. cbn [Events RecordEvent fst snd]. rewrite IH. cbn [map].
  apply keep_last_snoc. unfold maxEvents. lia.
Qed.

(** Two at once lose an event: both return, and the file holds one of the two. *)
Theorem alert_lost (m1 m2 : string) :
  m1 ≠ m2 →
  ∃ f, star wstep (empty, [Calling m1; Calling m2]) (f, [Returned; Returned]) ∧
    m1 ∉ map Message (Events f) ∧ m2 ∈ map Message (Events f).
Proof.
  intros Hne. exists (RecordEvent empty m2 1). split.
  - eapply star_step; [by apply (wstep_load _ _ 0)|]. eapply star_step; [by apply (wstep_load _ _ 1)|].
    eapply star_step; [by apply (wstep_write _ _ 0 m1 empty 0)|].
    eapply star_step; [by apply (wstep_write _ _ 1 m2 empty 1)|]. constructor.
  - cbn. split; [|apply list_elem_of_here]. by intros ?%list_elem_of_singleton.
Qed.

End Alerthist.
