(* ===== verification/Limits.v ===== *)
(** The caps on a tunnel: the limiter of [src/internal/tunnel/limits/limits.go]
    and of [src/internal/server/transport/limits.go] (Module [Limits]). Many
    goroutines use one, so its atomic operations are taken one at a time, in
    any order. *)

From Stdlib Require Import Ascii String.
From S2P Require Import Prelude.
Open Scope string_scope.
Open Scope list_scope.
Open Scope Z_scope.

(** How many elements of a list pass a test. *)
Definition count {A} (P : A → bool) (l : list A) : Z :=
  foldr (λ x n, (if P x then 1 else 0) + n) 0 l.

Lemma count_cons {A} (P : A → bool) x l : count P (x :: l) = (if P x then 1 else 0) + count P l.
Proof. done. Qed.

Lemma count_bounds {A} (P : A → bool) l : 0 ≤ count P l ≤ zlen l.
Proof.
  unfold zlen. induction l as [|x l IH]; [done|]. rewrite count_cons. cbn [length]. destruct (P x); lia.
Qed.

(** One element replaced. *)
Lemma count_insert {A} (P : A → bool) l i x y :
  l !! i = Some x →
  count P (<[i := y]> l) = count P l - (if P x then 1 else 0) + (if P y then 1 else 0).
Proof.
  revert i. induction l as [|z l IH]; intros i Hi; [done|]. destruct i as [|i].
  - change (<[0%nat := y]> (z :: l)) with (y :: l). rewrite !count_cons. cbn in Hi. simplify_eq. lia.
  - change (<[S i := y]> (z :: l)) with (z :: <[i := y]> l). rewrite !count_cons, (IH i Hi). lia.
Qed.

Lemma count_two {A} (P Q : A → bool) l : (∀ x, P x = true → Q x = false) → count P l + count Q l ≤ zlen l.
Proof.
  intros H. unfold zlen. induction l as [|x l IH]; [done|]. rewrite !count_cons. cbn [length].
  specialize (H x). destruct (P x), (Q x); try lia; exfalso; by specialize (H eq_refl).
Qed.

Lemma count_none {A} (P : A → bool) l : Forall (λ x, P x = false) l → count P l = 0.
Proof. induction 1 as [|x l Hx _ IH]; [done|]. by rewrite count_cons, Hx, IH. Qed.

Lemma count_le {A} (P Q : A → bool) l : (∀ x, P x = true → Q x = true) → count P l ≤ count Q l.
Proof.
  intros H. induction l as [|x l IH]; [done|]. rewrite !count_cons. specialize (H x).
  destruct (P x), (Q x); try lia; exfalso; by specialize (H eq_refl).
Qed.

Lemma zlen_insert {A} (l : list A) i x : zlen (<[i := x]> l) = zlen l.
Proof. unfold zlen. by rewrite length_insert. Qed.

Module Limits.

Record Config : Type := mkConfig { MaxConnections : Z; BandwidthMbps : Z }.

(** [bucket] is the burst of the [rate.Limiter], when there is one. *)
Record Limiter : Type := mkLimiter { maxConns : Z; active : Z; bucket : option Z }.

(** [int(float64(mbps) * 1_000_000 / 8)], exact for any rate below 2^33. *)
Definition bytesPerSecond (mbps : Z) : Z := mbps * 1000000 / 8.

(** [None] is the nil limiter. *)
Definition New (c : Config) : option Limiter :=
  if (MaxConnections c <=? 0) && (BandwidthMbps c <=? 0) then None
  else Some (mkLimiter (int32 (MaxConnections c)) 0
    (if 0 <? BandwidthMbps c then Some (bytesPerSecond (BandwidthMbps c)) else None)).

(** Whether [Acquire] and [Release] count at all. *)
Definition counts (l : option Limiter) : bool :=
  match l with None => false | Some l => negb (maxConns l <=? 0) end.

(** [l.active.Add(d)]: the limiter after, and the value returned. *)
Definition Add (l : Limiter) (d : Z) : Limiter * Z :=
  let v := int32 (active l + d) in (mkLimiter (maxConns l) v (bucket l), v).

Definition Active (l : option Limiter) : Z := match l with None => 0 | Some l => active l end.

(** Where a goroutine stands: outside, past an [Add(1)] that went over the cap
    and before its [Add(-1)], or holding a slot. *)
Inductive pc : Type := Outside | Over | Holding.

(** One atomic step of [Acquire] or [Release]. Those that do not count change
    nothing that is shared. *)
Definition advance (l : Limiter) (p : pc) : Limiter * pc :=
  match p with
  | Outside => let x := Add l 1 in (fst x, if maxConns l <? snd x then Over else Holding)
  | Over => (fst (Add l (-1)), Outside)
  | Holding => (fst (Add l (-1)), Outside)
  end.

Inductive step : Limiter * list pc → Limiter * list pc → Prop :=
| step_one l ps i p :
    ps !! i = Some p → step (l, ps) (fst (advance l p), <[i := snd (advance l p)]> ps).

Definition holding (p : pc) : bool := match p with Holding => true | _ => false end.
Definition over (p : pc) : bool := match p with Over => true | _ => false end.

(** ** The bandwidth cap

    [bucket.WaitN] is the rate limiter's: it blocks, and returns nil, or an
    error when the context ends or [n] exceeds the burst. [waitN] says which,
    for the chunks asked so far and the next one. *)
Section wait.
Context (burst : Z) (waitN : list Z → Z → bool).

(** The loop of [wait] and [waitFor]: the chunks charged. Each round charges
    at least one byte, so [n] rounds are enough. *)
Fixpoint wait_loop (fuel : nat) (charged : list Z) (n : Z) : list Z :=
  match fuel with
  | O => charged
  | S fuel =>
      if n <=? 0 then charged
      else
        let chunk := if (0 <? burst) && (burst <? n) then burst else n in
        if waitN charged chunk then wait_loop fuel (charged ++ [chunk]) (n - chunk) else charged
  end.

Definition wait (n : Z) : list Z := wait_loop (Z.to_nat n) [] n.

Definition total (l : list Z) : Z := foldr Z.add 0 l.

Lemma paid_app l k : total (l ++ k) = total l + total k.
Proof. unfold total. induction l as [|x l IH]; [done|]. cbn. rewrite IH. lia. Qed.

Lemma wait_loop_all fuel : ∀ charged n,
  0 < burst → (∀ l c, 0 < c ≤ burst → waitN l c = true) → n ≤ Z.of_nat fuel →
  Forall (λ c, 0 < c ≤ burst) charged →
  total (wait_loop fuel charged n) = total charged + Z.max 0 n ∧
  Forall (λ c, 0 < c ≤ burst) (wait_loop fuel charged n).
Proof.
  induction fuel as [|fuel IH]; intros charged n Hb Hw Hn Hc; cbn [wait_loop]; [split; [lia|done]|].
  destruct (Z.leb_spec n 0); [split; [lia|done]|].
  set (chunk := if (0 <? burst) && (burst <? n) then burst else n).
  assert (0 < chunk ≤ burst ∧ chunk ≤ n) as [H1 H2].
  { unfold chunk. destruct (Z.ltb_spec 0 burst), (Z.ltb_spec burst n); cbn; lia. }
  rewrite Hw by done. destruct (IH (charged ++ [chunk]) (n - chunk)) as [E HF]; auto; [lia|..].
  { apply Forall_app. split; [done|]. by constructor. }
  rewrite E, paid_app. cbn. split; [lia|done].
Qed.
End wait.

(** The bandwidth cap charges every byte. A read or write of any size, also
    one larger than a second's worth, is charged in full before it goes on, in
    pieces no larger than the bucket, which is what the rate limiter never
    refuses; the loop ends. *)
Theorem wait_charges_all burst waitN n :
  0 < burst → (∀ charged c, 0 < c ≤ burst → waitN charged c = true) → 0 ≤ n →
  total (wait burst waitN n) = n ∧ Forall (λ c, 0 < c ≤ burst) (wait burst waitN n).
Proof.
  intros Hb Hw Hn. destruct (wait_loop_all burst waitN (Z.to_nat n) [] n Hb Hw) as [E HF]; [lia|constructor|].
  unfold wait. rewrite E. cbn. split; [lia|done].
Qed.

Lemma wait_charges_all_witness :
  let waitN := λ (_ : list Z) c, c <=? 125000 in
  wait 125000 waitN 300000 = [125000; 125000; 50000] ∧ total (wait 125000 waitN 300000) = 300000.
Proof.
  assert (wait 125000 (λ (_ : list Z) c, c <=? 125000) 300000 = [125000; 125000; 50000]) as E.
  { unfold wait. replace (Z.to_nat 300000) with (S (S (S (S (Z.to_nat 299996))))) by lia. reflexivity. }
  split; [exact E|]. apply (wait_charges_all 125000 (λ (_ : list Z) c, c <=? 125000) 300000).
  - lia.
  - intros _ c Hc. apply Z.leb_le. lia.
  - lia.
Defined.

(** ** Lemmas: the connection cap *)

Definition slots_ok (m : Z) (s : Limiter * list pc) : Prop :=
  maxConns (fst s) = m ∧ active (fst s) = count holding (snd s) + count over (snd s) ∧ count holding (snd s) ≤ m.

Lemma step_slots m n s s' : 0 < m → n < 2^31 → zlen (snd s) = n → step s s' →
  slots_ok m s → slots_ok m s' ∧ zlen (snd s') = n.
Proof.
  intros Hm Hn Hl Hs. revert Hl. destruct Hs as [l ps i p Hi]. intros Hl (Em & Ea & Hh). cbn [fst snd] in *.
  pose proof (count_two holding over ps ltac:(by intros [])) as H2.
  pose proof (count_bounds holding ps). pose proof (count_bounds over ps).
  split; [|rewrite zlen_insert; lia].
  assert (∀ P : pc → bool, count P (<[i := snd (advance l p)]> ps) =
    count P ps - (if P p then 1 else 0) + (if P (snd (advance l p)) then 1 else 0)) as HC
    by (intros; by apply count_insert).
  pose proof (count_two holding over (<[i := snd (advance l p)]> ps) ltac:(by intros [])) as H3.
  pose proof (zlen_insert ps i (snd (advance l p))) as Hl'.
  pose proof (count_bounds holding (<[i := snd (advance l p)]> ps)).
  pose proof (count_bounds over (<[i := snd (advance l p)]> ps)).
  unfold slots_ok. cbn [fst snd]. rewrite !HC in *.
  destruct p; cbn [advance Add fst snd holding over maxConns active] in *; rewrite Ea in *.
  - assert (count holding ps + count over ps + 1 ≤ n) as Hle.
    { destruct (maxConns l <? _); cbn [holding over] in *; lia. }
    rewrite int32_small in * by lia.
    destruct (Z.ltb_spec (maxConns l) (count holding ps + count over ps + 1)); cbn [holding over] in *; lia.
  - rewrite int32_small by lia. lia.
  - rewrite int32_small by lia. lia.
Qed.

Definition start (l : Limiter) (n : nat) : Limiter * list pc := (l, replicate n Outside).

Lemma count_replicate (P : pc → bool) n x : P x = false → count P (replicate n x) = 0.
Proof. intros H. apply count_none, Forall_replicate. exact H. Qed.

(** The connection cap holds under any interleaving. However many
    goroutines acquire and release at once, no more than [MaxConnections]
    slots are ever held; the counter is never negative, and once no refusal is
    under way it is exactly the number of slots held. A goroutine that asks
    while fewer than the cap are held or being refused gets one. *)
Theorem cap_respected c l n s :
  New c = Some l → 0 < MaxConnections c < 2^31 → Z.of_nat n < 2^31 → star step (start l n) s →
  count holding (snd s) ≤ MaxConnections c ∧ 0 ≤ Active (Some (fst s)) ∧
  (count over (snd s) = 0 → Active (Some (fst s)) = count holding (snd s)) ∧
  (count holding (snd s) + count over (snd s) < MaxConnections c → snd (advance (fst s) Outside) = Holding).
Proof.
  intros Hc Hm Hn Hs.
  assert (slots_ok (MaxConnections c) s ∧ zlen (snd s) = Z.of_nat n) as [(Em & Ea & Hh) Hl].
  { revert Hs. generalize (eq_refl (start l n)). generalize (start l n) at 1 3 as s0. intros s0 E0 Hs.
    assert (slots_ok (MaxConnections c) s0 ∧ zlen (snd s0) = Z.of_nat n) as H0.
    { rewrite E0. unfold slots_ok, start, zlen. cbn [fst snd]. rewrite !count_replicate, length_replicate by done.
      revert Hc. unfold New. destruct (_ && _); [done|]. intros [= <-]. cbn. rewrite int32_small by lia. lia. }
    clear E0. induction Hs as [|s1 s2 s3 H1 _ IH]; [done|]. apply IH. destruct H0 as [Hok Hlen].
    eapply step_slots; [| |exact Hlen|exact H1|exact Hok]; lia. }
  pose proof (count_bounds holding (snd s)). pose proof (count_bounds over (snd s)).
  pose proof (count_two holding over (snd s) ltac:(by intros [])).
  cbn [Active]. rewrite Ea. split_and!; try lia. intros Hlt. cbn [advance Add snd]. rewrite Ea, Em.
  rewrite int32_small by lia. destruct (Z.ltb_spec (MaxConnections c) (count holding (snd s) + count over (snd s) + 1)); [lia|done].
Qed.

Lemma cap_respected_witness :
  let l := mkLimiter 1 0 None in
  star step (start l 2) (mkLimiter 1 1 None, [Holding; Outside]) ∧ 1 ≤ MaxConnections (mkConfig 1 0).
Proof.
  assert (star step (start (mkLimiter 1 0 None) 2) (mkLimiter 1 1 None, [Holding; Outside])) as Hs.
  { eapply star_step; [by apply (step_one _ _ 0)|]. eapply star_step; [by apply (step_one _ _ 1)|].
    eapply star_step; [by apply (step_one _ _ 1)|]. constructor. }
  split; [exact Hs|].
  apply (cap_respected (mkConfig 1 0) (mkLimiter 1 0 None) 2 (mkLimiter 1 1 None, [Holding; Outside])); [done..|exact Hs].
Defined.

(** The cap may refuse below itself: while one goroutine is taking back an
    [Add] that went over, a freed slot is refused to another. *)
Example refused_below_cap :
  ∃ s, star step (start (mkLimiter 1 0 None) 2) s ∧ count holding (snd s) = 0 ∧ snd (advance (fst s) Outside) = Over.
Proof.
  exists (mkLimiter 1 1 None, [Outside; Over]). split; [|done].
  eapply star_step; [by apply (step_one _ _ 0)|]. eapply star_step; [by apply (step_one _ _ 1)|].
  eapply star_step; [by apply (step_one _ _ 0)|]. constructor.
Qed.

(** A cap is cut to 32 bits: one of 2^32 is no cap at all, and one of 2^32+1
    admits a single connection. *)
Example cap_truncated :
  counts (New (mkConfig (2^32) 0)) = false ∧ option_map maxConns (New (mkConfig (2^32 + 1) 0)) = Some 1.
Proof. done. Qed.

End Limits.
