(* ===== verification/Forward.v ===== *)
(** The port forwarder of [src/internal/tunnel/l3/forward.go], Module
    [Forward]: choosing a backend, what is said about one that does not answer,
    and the life of every forwarded connection and flow, taken one atomic
    operation at a time. Times are nanoseconds. *)

From Stdlib Require Import Ascii String.
From S2P Require Import Prelude Limits.
Open Scope string_scope.
Open Scope list_scope.
Open Scope Z_scope.

Module Forward.

Definition Second : Z := 1000 * 1000 * 1000.
Definition deadBackendRepeat : Z := 60 * Second.
Definition udpFlowIdle : Z := 120 * Second.

(** ** Choosing a backend *)

(** [targets[i]] with Go's bounds check. *)
Definition index {A} (l : list A) (i : Z) : outcome A :=
  if i <? 0 then Panic else match l !! Z.to_nat i with Some x => Ret x | None => Panic end.

(** Errors of [dialBackend]: no target at all, or that of the last dial. *)
Inductive dialError (E : Type) : Type := NoBackends | LastErr (e : E).
Arguments NoBackends {E}.
Arguments LastErr {E} e.

Section dial.
(** [dialer.DialContext]: a connection, or an error. *)
Context {C E : Type} (dial : string → result E C).

Fixpoint dial_loop (targets : list string) (start : Z) (ks : list Z) (lastErr : option E) :
    outcome (option (result (dialError E) C)) :=
  match ks with
  | [] => Ret (option_map (λ e, Err (LastErr e)) lastErr)
  | k :: ks =>
      match index targets (Z.rem (start + k) (zlen targets)) with
      | Panic => Panic
      | Ret target =>
          match dial target with
          | Ok conn => Ret (Some (Ok conn))
          | Err e => dial_loop targets start ks (Some e)
          end
      end
  end.

(** [dialBackend]: the cursor after, and what it returns. *)
Definition dialBackend (targets : list string) (cursor : Z) :
    Z * outcome (option (result (dialError E) C)) :=
  if (length targets =? 0)%nat then (cursor, Ret (Some (Err NoBackends)))
  else
    let cursor := u64 (cursor + 1) in
    let start := Z.rem (int64 (u64 (cursor - 1))) (zlen targets) in
    (cursor, dial_loop targets start (map Z.of_nat (seq 0 (length targets))) None).

(** The targets from the [k]-th on, around. *)
Definition rotated (targets : list string) (k : nat) : list string := drop k targets ++ take k targets.

(** The first of [ts] that answers, or the error of the last. *)
Fixpoint first_answer (ts : list string) (lastErr : option E) : option (result (dialError E) C) :=
  match ts with
  | [] => option_map (λ e, Err (LastErr e)) lastErr
  | t :: ts => match dial t with Ok c => Some (Ok c) | Err e => first_answer ts (Some e) end
  end.

Lemma rotated_lookup targets k i : (k < length targets)%nat → (i < length targets)%nat →
  index targets (Z.rem (Z.of_nat k + Z.of_nat i) (zlen targets)) =
    match rotated targets k !! i with Some x => Ret x | None => Panic end.
Proof.
  intros Hk Hi. unfold index, rotated, zlen. rewrite Z.rem_mod_nonneg by lia.
  rewrite <- Nat2Z.inj_add, <- Nat2Z.inj_mod.
  destruct (Z.ltb_spec (Z.of_nat ((k + i) mod length targets)) 0); [lia|]. rewrite Nat2Z.id.
  destruct (decide (k + i < length targets)%nat) as [Hlt|Hge].
  - rewrite Nat.mod_small by done. rewrite lookup_app_l by (rewrite length_drop; lia). by rewrite lookup_drop.
  - rewrite lookup_app_r by (rewrite length_drop; lia). rewrite length_drop, lookup_take_lt by lia.
    replace ((k + i) mod length targets)%nat with (i - (length targets - k))%nat; [done|].
    apply (Nat.mod_unique _ _ 1); lia.
Qed.

Lemma dial_loop_rotated targets k : (k < length targets)%nat → ∀ n last, (n ≤ length targets)%nat →
  dial_loop targets (Z.of_nat k) (map Z.of_nat (seq (length targets - n) n)) last =
    Ret (first_answer (drop (length targets - n) (rotated targets k)) last).
Proof.
  intros Hk. assert (length (rotated targets k) = length targets) as HL.
  { unfold rotated. rewrite length_app, length_drop, length_take. lia. }
  induction n as [|n IH]; intros last Hn.
  - rewrite drop_ge by lia. done.
  - cbn [seq map dial_loop]. rewrite rotated_lookup by lia.
    destruct (rotated targets k !! (length targets - S n)%nat) as [t|] eqn:Et.
    2:{ apply lookup_ge_None in Et. lia. }
    rewrite (drop_S _ t) by done. cbn [first_answer].
    destruct (dial t) as [c|e]; [done|]. replace (S (length targets - S n)) with (length targets - n)%nat by lia.
    apply IH. lia.
Qed.
End dial.

(** Every connection tries each backend once, in turn. The [k]-th
    connection of a mapping starts at target [k] modulo their number and goes
    round; it gets the first that answers, so one that refuses is skipped, and
    an error only when every one refused (that of the last). *)
Theorem dial_rotates {C E} (dial : string → result E C) targets cursor :
  (0 < length targets)%nat → 0 ≤ cursor < 2^63 →
  let k := Z.to_nat (cursor `mod` zlen targets) in
  dialBackend dial targets cursor = (cursor + 1, Ret (first_answer dial (rotated targets k) None)) ∧
  rotated targets k ≡ₚ targets ∧ rotated targets k !! 0%nat = targets !! k ∧
  ((∃ c, first_answer dial (rotated targets k) None = Some (Ok c)) ↔ ∃ t c, t ∈ targets ∧ dial t = Ok c).
Proof.
  intros Hn Hc k. assert (0 < zlen targets) as Hz by (unfold zlen; lia).
  pose proof (Z.mod_pos_bound cursor (zlen targets) Hz) as Hm.
  assert (k < length targets)%nat as Hk by (unfold k, zlen in *; lia).
  assert (rotated targets k ≡ₚ targets) as HP.
  { unfold rotated. rewrite Permutation_app_comm. by rewrite take_drop. }
  split_and!.
  - unfold dialBackend. destruct (Nat.eqb_spec (length targets) 0); [lia|].
    rewrite (u64_small (cursor + 1)) by lia. replace (cursor + 1 - 1) with cursor by lia.
    rewrite u64_small, int64_small, Z.rem_mod_nonneg by lia.
    assert (cursor `mod` zlen targets = Z.of_nat k) as -> by (unfold k; lia).
    pose proof (dial_loop_rotated dial targets k Hk (length targets) None ltac:(lia)) as H.
    rewrite Nat.sub_diag in H. by rewrite H.
  - done.
  - unfold rotated. rewrite lookup_app_l by (rewrite length_drop; lia). rewrite lookup_drop. f_equal. lia.
  - assert (∀ ts last, (∃ c, first_answer dial ts last = Some (Ok c)) ↔ ∃ t c, t ∈ ts ∧ dial t = Ok c) as HF.
    { induction ts as [|t ts IH]; intros last; cbn [first_answer].
      - split; [by intros [c H]; destruct last|by intros (t & c & ?%elem_of_nil & _)].
      - destruct (dial t) as [c|e] eqn:Ed.
        + split; [|by eexists]. intros _. exists t, c. split; [apply list_elem_of_here|done].
        + rewrite IH. split; intros (t' & c & Ht & Hd); exists t', c; (split; [|done]).
          * by apply list_elem_of_further.
          * apply elem_of_cons in Ht as [->|Ht]; [congruence|done]. }
    rewrite HF. by setoid_rewrite HP.
Qed.

Lemma dial_rotates_witness :
  let dial t := if String.eqb t "b" then Err tt else Ok t in
  dialBackend dial ["a"; "b"; "c"] 7 = (8, Ret (Some (Ok "c"))) ∧
  rotated ["a"; "b"; "c"] 1 ≡ₚ ["a"; "b"; "c"].
Proof.
  split; [by vm_compute|].
  apply (dial_rotates (λ t, if String.eqb t "b" then Err tt else Ok t) ["a"; "b"; "c"] 7); cbn; lia.
Defined.

(** ** What is said about a backend *)

Record backendState : Type := mkBackend { down : bool; said : option Z; failures : Z }.

(** A line of the log. *)
Inductive line : Type :=
| AnsweringAgain (listen : string) (failures : Z)
| NothingAnswering (listen : string)
| StillNotAnswering (listen : string) (failures : Z).

(** [noteBackend]; [failed] is whether there is an error. *)
Definition noteBackend (state : gmap string backendState) (listen : string) (failed : bool) (now : Z) :
    gmap string backendState * list line :=
  let st := default (mkBackend false None 0) (state !! listen) in
  if negb failed then
    (<[listen := mkBackend false (said st) 0]> state,
     if down st then [AnsweringAgain listen (failures st)] else [])
  else
    let n := u64 (failures st + 1) in
    if down st && match said st with Some t => now - t <? deadBackendRepeat | None => false end then
      (<[listen := mkBackend (down st) (said st) n]> state, [])
    else
      (<[listen := mkBackend true (Some now) n]> state,
       [if negb (down st) then NothingAnswering listen else StillNotAnswering listen n]).

(** The outcomes of the dials of one mapping, in order: [(failed, now)]. *)
Definition noted (listen : string) (os : list (bool * Z)) : gmap string backendState * list (Z * line) :=
  foldl (λ (s : gmap string backendState * list (Z * line)) (o : bool * Z),
    let x := noteBackend (fst s) listen (fst o) (snd o) in (fst x, snd s ++ map (pair (snd o)) (snd x)))
    (∅, []) os.

(** The failures since the last success. *)
Definition trailing (os : list (bool * Z)) : Z :=
  foldl (λ n (o : bool * Z), if fst o then n + 1 else 0) 0 os.

(** When something was last said about a backend that was down. *)
Definition down_line (x : Z * line) : option Z :=
  match snd x with AnsweringAgain _ _ => None | _ => Some (fst x) end.

Lemma trailing_bounds os : 0 ≤ trailing os ≤ zlen os.
Proof.
  unfold trailing, zlen. induction os as [|o os IH] using rev_ind; [done|].
  rewrite foldl_snoc, length_app. cbn [length]. destruct (fst o); lia.
Qed.

Lemma noted_snoc listen os o :
  noted listen (os ++ [o]) =
    let x := noteBackend (fst (noted listen os)) listen (fst o) (snd o) in
    (fst x, snd (noted listen os) ++ map (pair (snd o)) (snd x)).
Proof. unfold noted. by rewrite foldl_snoc. Qed.

Lemma trailing_snoc os o : trailing (os ++ [o]) = if fst o then trailing os + 1 else 0.
Proof. unfold trailing. by rewrite foldl_snoc. Qed.

Lemma noted_state listen os : zlen os < 2^64 →
  let st := default (mkBackend false None 0) (fst (noted listen os) !! listen) in
  failures st = trailing os ∧ down st = (0 <? trailing os) ∧
  said st = last (omap down_line (snd (noted listen os))).
Proof.
  induction os as [|[failed now] os IH] using rev_ind; [done|]. rewrite zlen_app. unfold zlen at 2. cbn [length].
  intros Hl. destruct IH as (E1 & E2 & E3); [lia|]. pose proof (trailing_bounds os) as Hb.
  rewrite noted_snoc, trailing_snoc. cbv zeta. cbn [fst snd]. revert E1 E2 E3.
  set (state := fst (noted listen os)). set (st := default _ (state !! listen)). intros E1 E2 E3.
  unfold noteBackend. fold st. destruct failed; cbn [negb].
  - rewrite E1. rewrite (u64_small (trailing os + 1)) by lia.
    destruct (down st && _) eqn:Ed; cbn [fst snd]; rewrite lookup_insert_eq; cbn.
    + apply andb_true_iff in Ed as [Ed _]. rewrite app_nil_r. split_and!; [done|zbool; done|done].
    + rewrite omap_app. cbn. destruct (negb (down st)); cbn; rewrite last_snoc; split_and!; try done; by zbool.
  - cbn [fst snd]. rewrite lookup_insert_eq. cbn. split_and!; [done|done|]. rewrite omap_app.
    destruct (down st); cbn; by rewrite app_nil_r.
Qed.

(** What is said about a backend. After any outcomes so far, a success is
    reported exactly when it ends a run of failures, with how many they were;
    the first failure of a run is reported at once, and a later one, with the
    count, only when a minute has passed since the last report. *)
Theorem backend_reported listen os failed now :
  zlen os < 2^64 - 1 →
  let n := trailing os in
  snd (noteBackend (fst (noted listen os)) listen failed now) =
    if failed then
      if n =? 0 then [NothingAnswering listen]
      else match last (omap down_line (snd (noted listen os))) with
           | Some t => if now - t <? deadBackendRepeat then [] else [StillNotAnswering listen (n + 1)]
           | None => [StillNotAnswering listen (n + 1)]
           end
    else if n =? 0 then [] else [AnsweringAgain listen n].
Proof.
  intros Hl n. destruct (noted_state listen os ltac:(lia)) as (E1 & E2 & E3). pose proof (trailing_bounds os) as Hb.
  unfold noteBackend. fold n in E1, E2, Hb. rewrite E1, E2, E3.
  destruct failed; cbn [negb]; destruct (Z.ltb_spec 0 n), (Z.eqb_spec n 0); try lia; cbn [andb negb]; try done.
  rewrite u64_small by lia. destruct (last _) as [t|]; [|done]. by destruct (now - t <? deadBackendRepeat).
Qed.

Lemma backend_reported_witness :
  let os := [(true, 0); (true, 10 * Second); (true, 70 * Second)] in
  trailing os = 3 ∧ map fst (snd (noted ":80" os)) = [0; 70 * Second] ∧
  snd (noteBackend (fst (noted ":80" os)) ":80" false (80 * Second)) = [AnsweringAgain ":80" 3].
Proof.
  split_and!; [done|by vm_compute|].
  apply (backend_reported ":80" [(true, 0); (true, 10 * Second); (true, 70 * Second)] false (80 * Second)). done.
Defined.

(** ** The life of a connection

    What the goroutines of a [Forwarder] share: the limiter's counter, the
    statistics, and the flow table of a mapping, which here gives the number
    of the goroutine whose flow it is. *)

Record shared : Type := mkShared {
  slots : Z;
  accepted : Z;
  refused : Z;
  active : Z;
  flows : gmap string nat
}.

Inductive ending : Type := Accepted | Refused | Reused.

(** Where the handling of one TCP connection ([handleTCP]) or of one datagram
    of a client ([udpFlowFor], then the flow's pump) stands, before its next
    operation on what is shared. *)
Inductive pc : Type :=
| Tcp                          (* [Acquire] *)
| TcpOver                      (* its [Add(-1)] *)
| TcpRefuse                    (* [refused.Add(1)] *)
| TcpSlot                      (* [active.Add(1)] *)
| TcpDialling                  (* [dialBackend], then [accepted] or [refused] *)
| TcpPipe                      (* [pipe], until it ends *)
| TcpUndo (e : ending)         (* the deferred [active.Add(-1)] *)
| TcpRelease (e : ending)      (* the deferred [Release] *)
| Udp (key : string)           (* [flows.Load] *)
| UdpMiss (key : string)       (* [Acquire] *)
| UdpOver                      (* its [Add(-1)] *)
| UdpRefuse                    (* [refused.Add(1)] *)
| UdpSlot (key : string)       (* [dialBackend] *)
| UdpBack                      (* [Release] after a failed dial *)
| UdpDialled (key : string)    (* [flows.LoadOrStore] *)
| UdpLost                      (* [Release] after losing it *)
| UdpStored (key : string)     (* [accepted.Add(1)] *)
| UdpCounted (key : string)    (* [active.Add(1)] *)
| UdpPump (key : string)       (* the pump, then [flows.Delete] *)
| UdpGone                      (* the deferred [active.Add(-1)] *)
| UdpInactive                  (* the deferred [Release] *)
| Finished (e : ending).

Definition add_slots (sh : shared) (d : Z) : shared :=
  mkShared (int32 (slots sh + d)) (accepted sh) (refused sh) (active sh) (flows sh).
Definition add_accepted (sh : shared) : shared :=
  mkShared (slots sh) (u64 (accepted sh + 1)) (refused sh) (active sh) (flows sh).
Definition add_refused (sh : shared) : shared :=
  mkShared (slots sh) (accepted sh) (u64 (refused sh + 1)) (active sh) (flows sh).
Definition add_active (sh : shared) (d : Z) : shared :=
  mkShared (slots sh) (accepted sh) (refused sh) (int64 (active sh + d)) (flows sh).
Definition set_flows (sh : shared) (f : gmap string nat) : shared :=
  mkShared (slots sh) (accepted sh) (refused sh) (active sh) f.

(** [Acquire] up to its comparison; [cap] is [None] when nothing is capped. *)
Definition acquire (cap : option Z) (sh : shared) (over slot : pc) : shared * pc :=
  match cap with
  | None => (sh, slot)
  | Some m => let sh := add_slots sh 1 in (sh, if m <? slots sh then over else slot)
  end.

Definition release (cap : option Z) (sh : shared) : shared :=
  match cap with None => sh | Some _ => add_slots sh (-1) end.

(** The next operation of goroutine [i]; [ok] is whether a dial succeeds. *)
Definition advance (cap : option Z) (i : nat) (ok : bool) (sh : shared) (p : pc) : shared * pc :=
  match p with
  | Tcp => acquire cap sh TcpOver TcpSlot
  | TcpOver => (add_slots sh (-1), TcpRefuse)
  | TcpRefuse => (add_refused sh, Finished Refused)
  | TcpSlot => (add_active sh 1, TcpDialling)
  | TcpDialling => if ok then (add_accepted sh, TcpPipe) else (add_refused sh, TcpUndo Refused)
  | TcpPipe => (sh, TcpUndo Accepted)
  | TcpUndo e => (add_active sh (-1), TcpRelease e)
  | TcpRelease e => (release cap sh, Finished e)
  | Udp key => (sh, match flows sh !! key with Some _ => Finished Reused | None => UdpMiss key end)
  | UdpMiss key => acquire cap sh UdpOver (UdpSlot key)
  | UdpOver => (add_slots sh (-1), UdpRefuse)
  | UdpRefuse => (add_refused sh, Finished Refused)
  | UdpSlot key => (sh, if ok then UdpDialled key else UdpBack)
  | UdpBack => (release cap sh, UdpRefuse)
  | UdpDialled key =>
      match flows sh !! key with
      | Some _ => (sh, UdpLost)
      | None => (set_flows sh (<[key := i]> (flows sh)), UdpStored key)
      end
  | UdpLost => (release cap sh, Finished Reused)
  | UdpStored key => (add_accepted sh, UdpCounted key)
  | UdpCounted key => (add_active sh 1, UdpPump key)
  | UdpPump key => (set_flows sh (delete key (flows sh)), UdpGone)
  | UdpGone => (add_active sh (-1), UdpInactive)
  | UdpInactive => (release cap sh, Finished Accepted)
  | Finished e => (sh, Finished e)
  end.

Inductive step (cap : option Z) : shared * list pc → shared * list pc → Prop :=
| step_one sh ts i p ok :
    ts !! i = Some p → step cap (sh, ts) (fst (advance cap i ok sh p), <[i := snd (advance cap i ok sh p)]> ts).

(** ** What each place owns *)

Definition holds (p : pc) : bool :=
  match p with
  | TcpSlot | TcpDialling | TcpPipe | TcpUndo _ | TcpRelease _ | UdpSlot _ | UdpBack | UdpDialled _ | UdpLost
  | UdpStored _ | UdpCounted _ | UdpPump _ | UdpGone | UdpInactive => true
  | _ => false
  end.
Definition goes_over (p : pc) : bool := match p with TcpOver | UdpOver => true | _ => false end.
Definition is_active (p : pc) : bool :=
  match p with TcpDialling | TcpPipe | TcpUndo _ | UdpPump _ | UdpGone => true | _ => false end.
Definition was_accepted (p : pc) : bool :=
  match p with
  | TcpPipe | TcpUndo Accepted | TcpRelease Accepted | UdpCounted _ | UdpPump _ | UdpGone | UdpInactive
  | Finished Accepted => true
  | _ => false
  end.
Definition was_refused (p : pc) : bool :=
  match p with TcpUndo Refused | TcpRelease Refused | Finished Refused => true | _ => false end.
Definition flow_of (p : pc) : option string :=
  match p with UdpStored k | UdpCounted k | UdpPump k => Some k | _ => None end.

(** Bytes are being forwarded. *)
Definition forwarding (p : pc) : bool := match p with TcpPipe | UdpPump _ => true | _ => false end.

(** The counters are the sums of what the goroutines own. *)
Definition balanced (cap : option Z) (s : shared * list pc) : Prop :=
  let '(sh, ts) := s in
  (∀ m, cap = Some m → slots sh = count holds ts + count goes_over ts ∧ count holds ts ≤ m) ∧
  active sh = count is_active ts ∧ accepted sh = count was_accepted ts ∧ refused sh = count was_refused ts ∧
  (cap = None → count goes_over ts = 0) ∧
  (∀ k i, flows sh !! k = Some i ↔ ∃ p, ts !! i = Some p ∧ flow_of p = Some k).

(** The flow table when a goroutine that owns no flow before owns none after. *)
Lemma flows_keep (f : gmap string nat) (ts : list pc) i p p' :
  ts !! i = Some p → flow_of p' = flow_of p →
  (∀ k j, f !! k = Some j ↔ ∃ q, ts !! j = Some q ∧ flow_of q = Some k) →
  (∀ k j, f !! k = Some j ↔ ∃ q, <[i := p']> ts !! j = Some q ∧ flow_of q = Some k).
Proof.
  intros Hi Hp Hf k j. rewrite Hf. pose proof (lookup_lt_Some _ _ _ Hi) as Hlt.
  destruct (decide (j = i)) as [->|Hne].
  - rewrite list_lookup_insert_eq by done. rewrite Hi. split; intros (q & [= <-] & Hq); eexists; (split; [done|congruence]).
  - by rewrite list_lookup_insert_ne by done.
Qed.

Lemma step_flows cap i ok sh (ts : list pc) p :
  ts !! i = Some p →
  (∀ k j, flows sh !! k = Some j ↔ ∃ q, ts !! j = Some q ∧ flow_of q = Some k) →
  (∀ k j, flows (fst (advance cap i ok sh p)) !! k = Some j ↔
     ∃ q, <[i := snd (advance cap i ok sh p)]> ts !! j = Some q ∧ flow_of q = Some k).
Proof.
  intros Hi Hf. pose proof (lookup_lt_Some _ _ _ Hi) as Hlt.
  assert (∀ p', flow_of p' = flow_of p → ∀ k j, flows sh !! k = Some j ↔
    ∃ q, <[i := p']> ts !! j = Some q ∧ flow_of q = Some k) as Hkeep
    by (intros p' Hp'; by apply (flows_keep _ ts i p p')).
  assert (∀ over slot, flow_of over = flow_of p → flow_of slot = flow_of p → ∀ k j,
    flows (fst (acquire cap sh over slot)) !! k = Some j ↔
    ∃ q, <[i := snd (acquire cap sh over slot)]> ts !! j = Some q ∧ flow_of q = Some k) as Hacq.
  { intros o s Ho Hs. unfold acquire. destruct cap as [m|]; [cbv zeta; cbn [fst snd]; destruct (m <? _)|]; by apply Hkeep. }
  assert (∀ p', flow_of p' = flow_of p → ∀ k j, flows (release cap sh) !! k = Some j ↔
    ∃ q, <[i := p']> ts !! j = Some q ∧ flow_of q = Some k) as Hrel
    by (intros p' Hp'; destruct cap; by apply Hkeep).
  destruct p as [| | | | | |e|e|key|key| | |key| |key| |key|key|key| | |e]; cbn [advance];
    try (by apply Hkeep); try (by apply Hacq); try (by apply Hrel); try (destruct ok; by apply Hkeep).
  - destruct (flows sh !! key); by apply Hkeep.
  - destruct (flows sh !! key) as [o|] eqn:Ek; [by apply Hkeep|].
    intros k j. cbn. destruct (decide (k = key)) as [->|Hk].
    + rewrite lookup_insert_eq. split.
      * intros [= <-]. exists (UdpStored key). by rewrite list_lookup_insert_eq.
      * intros (q & Hq & Hk). destruct (decide (j = i)) as [->|Hj]; [done|].
        rewrite list_lookup_insert_ne in Hq by done. assert (flows sh !! key = Some j) by (apply Hf; by eexists). congruence.
    + rewrite lookup_insert_ne by done. rewrite Hf. destruct (decide (j = i)) as [->|Hj].
      * rewrite list_lookup_insert_eq, Hi by done. split; intros (q & [= <-] & Hq); cbn in Hq; congruence.
      * by rewrite list_lookup_insert_ne.
  - intros k j. cbn. assert (flows sh !! key = Some i) as Ek by (apply Hf; by eexists).
    destruct (decide (k = key)) as [->|Hk].
    + rewrite lookup_delete_eq. split; [done|]. intros (q & Hq & Hk). destruct (decide (j = i)) as [->|Hj].
      * rewrite list_lookup_insert_eq in Hq by done. by simplify_eq.
      * rewrite list_lookup_insert_ne in Hq by done. assert (flows sh !! key = Some j) by (apply Hf; by eexists). congruence.
    + rewrite lookup_delete_ne by done. rewrite Hf. destruct (decide (j = i)) as [->|Hj].
      * rewrite list_lookup_insert_eq, Hi by done. split; intros (q & [= <-] & Hq); cbn in Hq; congruence.
      * by rewrite list_lookup_insert_ne.
Qed.

(** The counters across one operation. *)
Lemma step_counters cap i ok sh (ts : list pc) p :
  ts !! i = Some p → zlen ts < 2^31 → (∀ m, cap = Some m → 0 < m < 2^31) →
  (∀ m, cap = Some m → slots sh = count holds ts + count goes_over ts ∧ count holds ts ≤ m) →
  active sh = count is_active ts → accepted sh = count was_accepted ts → refused sh = count was_refused ts →
  (cap = None → count goes_over ts = 0) →
  let sh' := fst (advance cap i ok sh p) in
  let ts' := <[i := snd (advance cap i ok sh p)]> ts in
  (∀ m, cap = Some m → slots sh' = count holds ts' + count goes_over ts' ∧ count holds ts' ≤ m) ∧
  active sh' = count is_active ts' ∧ accepted sh' = count was_accepted ts' ∧ refused sh' = count was_refused ts' ∧
  (cap = None → count goes_over ts' = 0).
Proof.
  intros Hi Hn Hcap Hs Ha Hacc Href Hov sh' ts'.
  assert (∀ P : pc → bool, count P ts' = count P ts - (if P p then 1 else 0) +
    (if P (snd (advance cap i ok sh p)) then 1 else 0)) as HC by (intros; by apply count_insert).
  assert (zlen ts' = zlen ts) as Hl by apply zlen_insert.
  pose proof (count_two holds goes_over ts' ltac:(by intros [])) as Hho.
  pose proof (count_bounds holds ts'). pose proof (count_bounds goes_over ts').
  pose proof (count_bounds is_active ts'). pose proof (count_bounds was_accepted ts').
  pose proof (count_bounds was_refused ts').
  rewrite !HC in *. subst sh' ts'. clear HC.
  destruct p as [| | | | | |[]|[]|key|key| | |key| |key| |key|key|key| | |[]]; cbn [advance] in *; unfold acquire, release in *;
    try (destruct (flows sh !! key)); try (destruct ok); destruct cap as [m|];
    try (destruct (Hs m eq_refl) as [Hs1 Hs2]; specialize (Hcap m eq_refl));
    cbv zeta in *; cbn [fst snd add_slots add_active add_accepted add_refused set_flows slots active accepted refused
      holds goes_over is_active was_accepted was_refused] in *;
    try (specialize (Hov eq_refl));
    rewrite ?Ha, ?Hacc, ?Href, ?Hs1 in *.
  all: try (destruct (Z.ltb_spec m (int32 (count holds ts + count goes_over ts + 1))) as [Hm|Hm];
    cbn [holds goes_over is_active was_accepted was_refused] in *; rewrite int32_small in Hm by lia).
  all: rewrite ?int32_small, ?int64_small, ?u64_small by lia.
  all: split_and!; try (intros ? [= <-]); try (intros [=]); try lia.
Qed.

Lemma balanced_star cap n s s' :
  n < 2^31 → (∀ m, cap = Some m → 0 < m < 2^31) → star (step cap) s s' →
  zlen (snd s) = n → balanced cap s → balanced cap s' ∧ zlen (snd s') = n.
Proof.
  intros Hn Hcap Hs. induction Hs as [|s1 s2 s3 H1 _ IH]; [done|]. intros Hl Hb. apply IH.
  - destruct H1. cbn [snd] in *. by rewrite zlen_insert.
  - destruct H1 as [sh ts i p ok Hi]. destruct Hb as (B1 & B2 & B3 & B4 & B5 & B6). cbn [snd] in *.
    destruct (step_counters cap i ok sh ts p Hi ltac:(lia) Hcap B1 B2 B3 B4 B5) as (C1 & C2 & C3 & C4 & C5).
    split_and!; try done. by apply step_flows.
Qed.

(** A goroutine that has just been started. *)
Definition starting (p : pc) : bool := match p with Tcp | Udp _ => true | _ => false end.
Definition finished (p : pc) : bool := match p with Finished _ => true | _ => false end.
Definition reused (p : pc) : bool := match p with Finished Reused => true | _ => false end.

Lemma balanced_start cap ts : Forall (λ p, starting p = true) ts → (∀ m, cap = Some m → 0 < m < 2^31) →
  balanced cap (mkShared 0 0 0 0 ∅, ts).
Proof.
  intros Hs Hcap. assert (∀ P : pc → bool, (∀ p, starting p = true → P p = false) → count P ts = 0) as HC.
  { intros P HP. apply count_none. eapply Forall_impl; [exact Hs|auto]. }
  unfold balanced. cbn. rewrite !HC by (by intros []). split_and!; try done.
  - intros m Hm. specialize (Hcap m Hm). lia.
  - intros k i. rewrite lookup_empty. split; [done|]. intros (p & Hp & Hk).
    pose proof (Forall_lookup_1 _ _ _ _ Hs Hp) as H. cbn in H. by destruct p.
Qed.

(** C15: the forwarder's slots and counters balance under any interleaving of
    connections, flows and pumps. Never are more connections and flows being
    forwarded than the cap; one client never has two flows; the statistics are
    the connections and flows in those states. When everything has ended every
    slot has been given back, nothing is active, the flow table is empty, and
    what was handled is what was accepted, refused or joined to a flow that
    was there. *)
Theorem forwarder_balanced cap ts s :
  Forall (λ p, starting p = true) ts → zlen ts < 2^31 → (∀ m, cap = Some m → 0 < m < 2^31) →
  star (step cap) (mkShared 0 0 0 0 ∅, ts) s →
  (∀ m, cap = Some m → count forwarding (snd s) ≤ m) ∧
  (∀ i j p q k, snd s !! i = Some p → snd s !! j = Some q → flow_of p = Some k → flow_of q = Some k → i = j) ∧
  active (fst s) = count is_active (snd s) ∧ accepted (fst s) = count was_accepted (snd s) ∧
  refused (fst s) = count was_refused (snd s) ∧
  (Forall (λ p, finished p = true) (snd s) →
     (∀ m, cap = Some m → slots (fst s) = 0) ∧ active (fst s) = 0 ∧ flows (fst s) = ∅ ∧
     accepted (fst s) + refused (fst s) + count reused (snd s) = zlen ts).
Proof.
  intros Hts Hn Hcap Hs.
  destruct (balanced_star cap (zlen ts) _ s Hn Hcap Hs eq_refl (balanced_start cap ts Hts Hcap)) as [Hb Hl].
  destruct s as [sh ts']. destruct Hb as (B1 & B2 & B3 & B4 & B5 & B6). cbn [fst snd] in *. split_and!; try done.
  - intros m Hm. destruct (B1 m Hm) as [_ H]. pose proof (count_le forwarding holds ts' ltac:(by intros [])). lia.
  - intros i j p q k Hi Hj Hp Hq. assert (flows sh !! k = Some i) by (apply B6; by eexists).
    assert (flows sh !! k = Some j) by (apply B6; by eexists). congruence.
  - intros Hf. assert (∀ P : pc → bool, (∀ p, finished p = true → P p = false) → count P ts' = 0) as HC.
    { intros P HP. apply count_none. eapply Forall_impl; [exact Hf|auto]. }
    split_and!.
    + intros m Hm. destruct (B1 m Hm) as [-> _]. rewrite !HC by (by intros []). done.
    + rewrite B2. apply HC. by intros [].
    + apply map_empty. intros k. destruct (flows sh !! k) as [i|] eqn:Ek; [|done].
      apply B6 in Ek as (p & Hp & Hk). pose proof (Forall_lookup_1 _ _ _ _ Hf Hp) as H. cbn in H. by destruct p.
    + rewrite B3, B4, <- Hl. clear - Hf. unfold zlen. induction Hf as [|p ts Hp _ IH]; [done|].
      rewrite !count_cons. cbn [length]. destruct p as [| | | | | |[]|[]| | | | | | | | | | | | | |[]];
        cbn [finished] in Hp; try done; cbn [was_accepted was_refused reused]; lia.
Qed.

(** Two datagrams of one client and a connection, with one slot: the second
    datagram joins the flow of the first, and the connection is refused. *)
Lemma forwarder_balanced_witness :
  let ts := [Udp "c"; Udp "c"; Tcp] in
  let s := (mkShared 1 1 1 1 {["c" := 0%nat]}, [UdpPump "c"; Finished Reused; Finished Refused]) in
  star (step (Some 1)) (mkShared 0 0 0 0 ∅, ts) s ∧ count forwarding (snd s) ≤ 1.
Proof.
  assert (star (step (Some 1)) (mkShared 0 0 0 0 ∅, [Udp "c"; Udp "c"; Tcp])
    (mkShared 1 1 1 1 {["c" := 0%nat]}, [UdpPump "c"; Finished Reused; Finished Refused])) as Hs.
  { do 6 (eapply star_step; [eapply (step_one _ _ _ 0 _ true); reflexivity|]). eapply star_step; [eapply (step_one _ _ _ 1 _ true); reflexivity|].
    do 3 (eapply star_step; [eapply (step_one _ _ _ 2 _ true); reflexivity|]). constructor. }
  split; [exact Hs|].
  refine (proj1 (forwarder_balanced (Some 1) [Udp "c"; Udp "c"; Tcp] _ _ _ _ Hs) 1 eq_refl).
  - by repeat constructor.
  - done.
  - by intros m [= <-].
Defined.

End Forward.
