(* ===== verification/KcpIdle.v ===== *)
(** Idle-aware KCP sessions, [src/internal/utils/network/kcpidle.go] (Module
    [KcpIdle]): traffic and the governor switch a session between its own
    timers and the idle ones without a lock around the traffic. Every atomic
    operation, and every call on the session, is a step of its own. *)

From S2P Require Import Prelude Limits.
Open Scope list_scope.
Open Scope Z_scope.

Module KcpIdle.

Definition Second : Z := 1000 * 1000 * 1000.
Definition idleAfter : Z := 3 * Second.
Definition idleInterval : Z := 200.

(** An [idleKCP]: the two atomics, its mutex, and what the session was last
    told: the interval of [SetNoDelay] and the flag of [SetACKNoDelay]. *)
Record idleKCP : Type := mkIdle {
  last : Z;
  idle : bool;
  mu : bool;
  tunedInterval : Z;
  tunedAck : bool
}.

Section session.
(** The tunnel's own [kcp_interval] and [ack_nodelay]. *)
Context (interval : Z) (ack : bool).

(** [IdleAwareKCP], whose session was set up with the tunnel's settings. *)
Definition IdleAwareKCP (now : Z) : idleKCP := mkIdle now false false interval ack.

(** Where a goroutine stands in [touch] or [sweep], before its next step. *)
Inductive pc : Type :=
| Touch (now : Z)   (* last.Store(now) *)
| TCheck            (* idle.Load() *)
| TLock             (* mu.Lock() *)
| TRecheck          (* idle.Load() under the lock *)
| TClear            (* idle.Store(false) *)
| TBusy1            (* busy: SetNoDelay *)
| TBusy2            (* busy: SetACKNoDelay *)
| TUnlock           (* mu.Unlock() *)
| Sweep (q : Z)     (* idle.Load(); q is quietSince *)
| SQuiet (q : Z)    (* last.Load() > quietSince *)
| SLock (q : Z)     (* mu.Lock() *)
| SRecheck (q : Z)  (* idle.Load() under the lock *)
| SSet (q : Z)      (* idle.Store(true) *)
| SAck (q : Z)      (* SetACKNoDelay(true) *)
| SDelay (q : Z)    (* SetNoDelay(idleInterval) *)
| SAgain (q : Z)    (* last.Load() > quietSince, again *)
| SClear            (* idle.Store(false) *)
| SBusy1            (* busy: SetNoDelay *)
| SBusy2            (* busy: SetACKNoDelay *)
| SUnlock           (* the deferred mu.Unlock() *)
| Done.

(** [quietSince], for a tick at [now]. *)
Definition quietSince (now after : Z) : Z := now - after.

Definition set_last (c : idleKCP) (t : Z) : idleKCP := mkIdle t (idle c) (mu c) (tunedInterval c) (tunedAck c).
Definition set_idle (c : idleKCP) (b : bool) : idleKCP := mkIdle (last c) b (mu c) (tunedInterval c) (tunedAck c).
Definition set_mu (c : idleKCP) (b : bool) : idleKCP := mkIdle (last c) (idle c) b (tunedInterval c) (tunedAck c).
Definition SetNoDelay (c : idleKCP) (i : Z) : idleKCP := mkIdle (last c) (idle c) (mu c) i (tunedAck c).
Definition SetACKNoDelay (c : idleKCP) (b : bool) : idleKCP := mkIdle (last c) (idle c) (mu c) (tunedInterval c) b.

(** The next step of a goroutine; [None] while it waits for the mutex. *)
Definition advance (c : idleKCP) (p : pc) : option (idleKCP * pc) :=
  match p with
  | Touch now => Some (set_last c now, TCheck)
  | TCheck => Some (c, if idle c then TLock else Done)
  | TLock => if mu c then None else Some (set_mu c true, TRecheck)
  | TRecheck => Some (c, if idle c then TClear else TUnlock)
  | TClear => Some (set_idle c false, TBusy1)
  | TBusy1 => Some (SetNoDelay c interval, TBusy2)
  | TBusy2 => Some (SetACKNoDelay c ack, TUnlock)
  | TUnlock => Some (set_mu c false, Done)
  | Sweep q => Some (c, if idle c then Done else SQuiet q)
  | SQuiet q => Some (c, if q <? last c then Done else SLock q)
  | SLock q => if mu c then None else Some (set_mu c true, SRecheck q)
  | SRecheck q => Some (c, if idle c then SUnlock else SSet q)
  | SSet q => Some (set_idle c true, SAck q)
  | SAck q => Some (SetACKNoDelay c true, SDelay q)
  | SDelay q => Some (SetNoDelay c idleInterval, SAgain q)
  | SAgain q => Some (c, if q <? last c then SClear else SUnlock)
  | SClear => Some (set_idle c false, SBusy1)
  | SBusy1 => Some (SetNoDelay c interval, SBusy2)
  | SBusy2 => Some (SetACKNoDelay c ack, SUnlock)
  | SUnlock => Some (set_mu c false, Done)
  | Done => None
  end.

Inductive step : idleKCP * list pc → idleKCP * list pc → Prop :=
| step_one c ps i p c' p' :
    ps !! i = Some p → advance c p = Some (c', p') → step (c, ps) (c', <[i := p']> ps).

(** ** Invariants *)

Definition holds (p : pc) : bool :=
  match p with
  | TRecheck | TClear | TBusy1 | TBusy2 | TUnlock | SRecheck _ | SSet _ | SAck _ | SDelay _ | SAgain _ | SClear
  | SBusy1 | SBusy2 | SUnlock => true
  | _ => false
  end.

(** The session's settings agree with the flag. *)
Definition settled (c : idleKCP) : Prop :=
  if idle c then tunedInterval c = idleInterval ∧ tunedAck c = true
  else tunedInterval c = interval ∧ tunedAck c = ack.

(** What the holder of the mutex knows. *)
Definition owner_sees (c : idleKCP) (p : pc) : Prop :=
  match p with
  | TRecheck | TUnlock | SRecheck _ | SUnlock => settled c
  | TClear | SAgain _ | SClear => idle c = true ∧ tunedInterval c = idleInterval ∧ tunedAck c = true
  | TBusy1 | SBusy1 => idle c = false ∧ tunedInterval c = idleInterval ∧ tunedAck c = true
  | TBusy2 | SBusy2 => idle c = false ∧ tunedInterval c = interval ∧ tunedAck c = true
  | SSet _ => idle c = false ∧ tunedInterval c = interval ∧ tunedAck c = ack
  | SAck _ => idle c = true ∧ tunedInterval c = interval ∧ tunedAck c = ack
  | SDelay _ => idle c = true ∧ tunedInterval c = interval ∧ tunedAck c = true
  | _ => True
  end.

(** A touch that has stored its time and not yet looked at the flag for good. *)
Definition touching (p : pc) : bool :=
  match p with TCheck | TLock | TRecheck | TClear => true | _ => false end.

(** A sweep that has set the flag and will look at the time again. *)
Definition switching (p : pc) : bool :=
  match p with SAck _ | SDelay _ | SAgain _ | SClear => true | _ => false end.

(** The horizon of a sweep. *)
Definition horizon (p : pc) : option Z :=
  match p with
  | Sweep q | SQuiet q | SLock q | SRecheck q | SSet q | SAck q | SDelay q | SAgain q => Some q
  | _ => None
  end.

Definition within (Q : Z) (p : pc) : bool := match horizon p with Some q => q <=? Q | None => true end.

Lemma holder_unique ps i p j q : count holds ps ≤ 1 → ps !! i = Some p → holds p = true →
  ps !! j = Some q → holds q = true → i = j.
Proof.
  revert i j. induction ps as [|x ps IH]; intros i j Hc Hi Hp Hj Hq; [done|]. rewrite count_cons in Hc.
  assert (∀ k y, ps !! k = Some y → holds y = true → 1 ≤ count holds ps) as Hin.
  { clear. intros k y. revert k. induction ps as [|z ps IH]; intros k Hk Hy; [done|].
    rewrite count_cons. pose proof (count_bounds holds ps). destruct k as [|k]; cbn in Hk.
    - simplify_eq. rewrite Hy. lia.
    - specialize (IH k Hk Hy). destruct (holds z); lia. }
  destruct i as [|i], j as [|j]; cbn in Hi, Hj; simplify_eq; try done.
  - specialize (Hin _ _ Hj Hq). rewrite Hp in Hc. lia.
  - specialize (Hin _ _ Hi Hp). rewrite Hq in Hc. lia.
  - f_equal. eapply IH; eauto. pose proof (count_bounds holds ps). destruct (holds x); lia.
Qed.

(** Take one step, by where the goroutine stands. *)
Ltac by_place Ha :=
  match type of Ha with advance _ ?p = _ => destruct p end; cbn [advance] in Ha; try discriminate Ha;
  repeat match type of Ha with context [if ?b then _ else _] =>
    let E := fresh "E" in destruct b eqn:E; try discriminate Ha end;
  injection Ha as <- <-;
  cbn [holds touching switching horizon within owner_sees set_last set_idle set_mu SetNoDelay SetACKNoDelay
    mu idle last tunedInterval tunedAck] in *.

(** A goroutine that holds the mutex is the only one. *)
Lemma holder_locks (mu_ : bool) ps i p : count holds ps = (if mu_ then 1 else 0) → ps !! i = Some p → holds p = true →
  mu_ = true ∧ ∀ j q, j ≠ i → ps !! j = Some q → holds q = false.
Proof.
  intros Hc Hi Hp. split.
  - destruct mu_; [done|]. pose proof (count_insert holds ps i p Done Hi) as E. rewrite Hp in E. cbn in E.
    pose proof (count_bounds holds (<[i := Done]> ps)). lia.
  - intros j q Hj Hq. destruct (holds q) eqn:E; [|done]. exfalso. apply Hj.
    eapply holder_unique; eauto. destruct mu_; lia.
Qed.

Lemma step_lock s s' : step s s' →
  count holds (snd s) = (if mu (fst s) then 1 else 0) → count holds (snd s') = (if mu (fst s') then 1 else 0).
Proof.
  intros [c ps i p c' p' Hi Ha] I1. cbn [fst snd] in *. rewrite (count_insert holds ps i p p' Hi).
  assert (holds p = true → mu c = true) as Hmu by (intros Hp; by destruct (holder_locks _ _ _ _ I1 Hi Hp)).
  by_place Ha; try rewrite (Hmu eq_refl) in *; try rewrite E in *; lia.
Qed.

(** What the session was told, after a step: whoever holds the mutex knows, and
    when nobody does it agrees with the flag. *)
Lemma advance_owner c p c' p' : advance c p = Some (c', p') →
  (mu c = false → settled c) → (holds p = true → mu c = true ∧ owner_sees c p) →
  (mu c' = false → settled c') ∧ (holds p' = true → owner_sees c' p').
Proof.
  intros Ha I2 Hown. destruct c as [l b m ti ta]. unfold owner_sees, settled in *. cbn in I2, Hown.
  destruct p; cbn in Ha, Hown; try discriminate Ha; destruct b; try destruct (_ <? l); destruct m; try discriminate Ha;
    injection Ha as <- <-; cbn; naive_solver.
Qed.

Lemma advance_others c p c' p' q : advance c p = Some (c', p') → holds p = false → mu c = true →
  owner_sees c q → owner_sees c' q.
Proof. intros Ha Hp Hm Hq. by_place Ha; try done; try congruence. Qed.

Lemma step_owner s s' : step s s' →
  count holds (snd s) = (if mu (fst s) then 1 else 0) →
  (mu (fst s) = false → settled (fst s)) ∧
    (∀ i p, snd s !! i = Some p → holds p = true → owner_sees (fst s) p) →
  (mu (fst s') = false → settled (fst s')) ∧
    (∀ i p, snd s' !! i = Some p → holds p = true → owner_sees (fst s') p).
Proof.
  intros [c ps i p c' p' Hi Ha] I1 [I2 I3]. cbn [fst snd] in *. pose proof (lookup_lt_Some _ _ _ Hi) as Hlt.
  destruct (advance_owner c p c' p' Ha I2) as [H1 H2].
  { intros Hp. split; [by destruct (holder_locks _ _ _ _ I1 Hi Hp)|eauto]. }
  split; [done|]. intros j q Hj Hq. destruct (decide (j = i)) as [->|Hne].
  - rewrite list_lookup_insert_eq in Hj by done. simplify_eq. auto.
  - rewrite list_lookup_insert_ne in Hj by done. destruct (holder_locks _ _ _ _ I1 Hj Hq) as [Hm Hal].
    apply (advance_others c p c' p' q Ha); eauto.
Qed.

(** A touch or sweep under way, after a step: traffic newer than every horizon
    is never left behind an idle flag that nobody is about to clear. *)
Lemma step_pending Q s s' : step s s' →
  (∀ i p, snd s !! i = Some p → holds p = true → owner_sees (fst s) p) →
  Forall (λ p, within Q p = true) (snd s) ∧
    (Q < last (fst s) → idle (fst s) = true → 0 < count touching (snd s) + count switching (snd s)) →
  Forall (λ p, within Q p = true) (snd s') ∧
    (Q < last (fst s') → idle (fst s') = true → 0 < count touching (snd s') + count switching (snd s')).
Proof.
  intros [c ps i p c' p' Hi Ha] I3 [I4 I5]. cbn [fst snd] in *.
  specialize (I3 i p Hi). pose proof (Forall_lookup_1 _ _ _ _ I4 Hi) as Hw. cbn in Hw.
  assert (within Q p' = true) as Hw' by (unfold within in *; by_place Ha; done).
  split; [by apply Forall_insert|]. rewrite (count_insert touching ps i p p' Hi), (count_insert switching ps i p p' Hi).
  pose proof (count_bounds touching ps). pose proof (count_bounds switching ps).
  pose proof (count_bounds touching (<[i := Done]> ps)) as B1. rewrite (count_insert touching ps i p Done Hi) in B1.
  pose proof (count_bounds switching (<[i := Done]> ps)) as B2. rewrite (count_insert switching ps i p Done Hi) in B2.
  cbn [touching switching] in B1, B2. clear Hw' I4. unfold within in Hw.
  intros HQ Hidle. by_place Ha; try discriminate Hidle; try specialize (I5 HQ Hidle);
    try (specialize (I3 eq_refl)); bool_to_prop; try lia; destruct_and?; try congruence.
Qed.

Definition starting (p : pc) : bool := match p with Touch _ | Sweep _ | Done => true | _ => false end.

Lemma run_inv Q s s' : star step s s' →
  count holds (snd s) = (if mu (fst s) then 1 else 0) →
  (mu (fst s) = false → settled (fst s)) ∧
    (∀ i p, snd s !! i = Some p → holds p = true → owner_sees (fst s) p) →
  Forall (λ p, within Q p = true) (snd s) ∧
    (Q < last (fst s) → idle (fst s) = true → 0 < count touching (snd s) + count switching (snd s)) →
  count holds (snd s') = (if mu (fst s') then 1 else 0) ∧
  (mu (fst s') = false → settled (fst s')) ∧
  (Q < last (fst s') → idle (fst s') = true → 0 < count touching (snd s') + count switching (snd s')).
Proof.
  induction 1 as [s|s1 s2 s3 H1 _ IH]; [tauto|]. intros I1 I2 I3. apply IH.
  - by eapply step_lock.
  - by eapply step_owner.
  - eapply step_pending; [done|apply I2|done].
Qed.

(** Traffic is never left on idle timers. In every interleaving of reads
    and writes (each of which calls [touch] first) with sweeps, whenever the
    mutex is free what the session was last told agrees with the flag; and if
    no [touch] is under way and the last traffic is newer than the horizon of
    every sweep there was, the flag is clear and the session runs on the
    tunnel's own settings. At most one goroutine is ever between the lock and
    the unlock. *)
Theorem traffic_not_stranded t0 ps s Q :
  Forall (λ p, starting p = true ∧ within Q p = true) ps → star step (IdleAwareKCP t0, ps) s →
  count holds (snd s) ≤ 1 ∧
  (mu (fst s) = false →
     settled (fst s) ∧
     (count touching (snd s) = 0 → Q < last (fst s) →
        idle (fst s) = false ∧ tunedInterval (fst s) = interval ∧ tunedAck (fst s) = ack)).
Proof.
  intros Hps Hs.
  assert (count holds ps = 0) as H0.
  { apply count_none. eapply Forall_impl; [exact Hps|]. by intros [] [??]. }
  destruct (run_inv Q _ _ Hs) as (I1 & I2 & I3); cbn [fst snd IdleAwareKCP mu idle].
  - exact H0.
  - split; [done|]. intros i p Hi Hp. destruct (Forall_lookup_1 _ _ _ _ Hps Hi) as [Hst _]. by destruct p.
  - split; [|done]. eapply Forall_impl; [exact Hps|]. by intros p [??].
  - split; [destruct (mu (fst s)); lia|]. intros Hm. split; [auto|]. intros Ht HQ. specialize (I2 Hm).
    unfold settled in I2. destruct (idle (fst s)); [|done]. exfalso. specialize (I3 HQ eq_refl).
    pose proof (count_le switching holds (snd s) ltac:(by intros [])) as H. rewrite Hm in I1. lia.
Qed.

End session.

(** A write races a sweep whose horizon it is past: the sweep sets the flag,
    sees the write, and takes it back. *)
Lemma traffic_not_stranded_witness :
  let s := (mkIdle 9 false false 40 true, [Done; Done]) in
  star (step 40 true) (IdleAwareKCP 40 true 1, [Touch 9; Sweep 5]) s ∧
  idle (fst s) = false ∧ tunedInterval (fst s) = 40.
Proof.
  assert (star (step 40 true) (IdleAwareKCP 40 true 1, [Touch 9; Sweep 5]) (mkIdle 9 false false 40 true, [Done; Done])) as Hs.
  { do 4 (eapply star_step; [eapply (step_one _ _ _ _ 1); reflexivity|]).
    do 2 (eapply star_step; [eapply (step_one _ _ _ _ 0); reflexivity|]).
    do 8 (eapply star_step; [eapply (step_one _ _ _ _ 1); reflexivity|]). constructor. }
  split; [exact Hs|].
  destruct (traffic_not_stranded 40 true 1 [Touch 9; Sweep 5] _ 5 ltac:(by repeat constructor) Hs) as [_ H].
  destruct (H eq_refl) as [_ H']. by destruct (H' eq_refl eq_refl) as (? & ? & _).
Defined.

End KcpIdle.
