(* ===== verification/GoHash.v ===== *)
(** The parts of Go's [crypto] and [encoding] the web panel uses, executable:
    SHA-1 and SHA-256 (Module [Sha]), HMAC, and the hexadecimal and unpadded
    base32 encodings. A byte string is a [list Z]; the examples are the test
    vectors of FIPS 180, RFC 2202 and RFC 4648. *)

From Stdlib Require Import Ascii String.
From S2P Require Import Prelude GoStr.
Import GoStr.
Open Scope string_scope.
Open Scope list_scope.
Open Scope Z_scope.

(** ** Merkle-Damgård hashes on 64-byte blocks *)
Module Sha.

Definition rotl (n x : Z) : Z := u32 (Z.lor (Z.shiftl x n) (Z.shiftr x (32 - n))).
Definition rotr (n x : Z) : Z := rotl (32 - n) x.

(** [msg], a one bit, zeros up to eight bytes short of a block, the length. *)
Definition pad (msg : list Z) : list Z :=
  msg ++ [128] ++ replicate (Z.to_nat ((55 - zlen msg) `mod` 64)) 0 ++ put_be 8 (8 * zlen msg).

Fixpoint words (n : nat) (l : list Z) : list Z :=
  match n with O => [] | S n => get_be (take 4 l) :: words n (drop 4 l) end.

Fixpoint blocks (n : nat) (l : list Z) : list (list Z) :=
  match n with O => [] | S n => words 16 (take 64 l) :: blocks n (drop 64 l) end.

Definition blocks_of (msg : list Z) : list (list Z) := blocks (length (pad msg) / 64) (pad msg).

(** The next state of the registers, given the constant and the word of a
    round; [sched] is the word that enters the sixteen-word window. *)
Fixpoint rounds (step : list Z → Z → Z → list Z) (sched : list Z → Z) (ks : list Z)
    (window regs : list Z) : list Z :=
  match ks with
  | [] => regs
  | k :: ks => rounds step sched ks (tail window ++ [sched window]) (step regs k (at_ window 0))
  end.

Definition compress step sched ks (h : list Z) (block : list Z) : list Z :=
  zip_with (λ a b, u32 (a + b)) h (rounds step sched ks block h).

Definition digest step sched ks (iv msg : list Z) : list Z :=
  concat (map (put_be 4) (foldl (compress step sched ks) iv (blocks_of msg))).

(** *** SHA-1 *)

(** A round carries its function with its constant: 0 choose, 1 parity,
    2 majority, 3 parity. *)
Definition k1 (i : Z) : Z := at_ [0x5a827999; 0x6ed9eba1; 0x8f1bbcdc; 0xca62c1d6] (Z.to_nat i).

Definition step1 (r : list Z) (i w : Z) : list Z :=
  match r with
  | [a; b; c; d; e] =>
      let f :=
        if i =? 0 then Z.lor (Z.land b c) (Z.land (Z.lxor b (2^32 - 1)) d)
        else if i =? 2 then Z.lor (Z.lor (Z.land b c) (Z.land b d)) (Z.land c d)
        else Z.lxor (Z.lxor b c) d in
      [u32 (rotl 5 a + f + e + k1 i + w); a; rotl 30 b; c; d]
  | _ => r
  end.

Definition sched1 (w : list Z) : Z :=
  rotl 1 (Z.lxor (Z.lxor (Z.lxor (at_ w 13) (at_ w 8)) (at_ w 2)) (at_ w 0)).

Definition sha1 (msg : list Z) : list Z :=
  digest step1 sched1 (replicate 20 0 ++ replicate 20 1 ++ replicate 20 2 ++ replicate 20 3)
    [0x67452301; 0xefcdab89; 0x98badcfe; 0x10325476; 0xc3d2e1f0] msg.

(** *** SHA-256 *)

(** The first [n] primes from [p] on, by trial division. *)
Fixpoint primes (fuel n : nat) (p : Z) : list Z :=
  match fuel, n with
  | S fuel, S n' =>
      if existsb (λ d, p `mod` d =? 0) (map Z.of_nat (seq 2 (Z.to_nat p - 2))) then primes fuel n (p + 1)
      else p :: primes fuel n' (p + 1)
  | _, _ => []
  end.

(** The whole part of a cube root below [2^bits], bit by bit. *)
Fixpoint cube_root (bits : nat) (r n : Z) : Z :=
  match bits with
  | O => r
  | S bits =>
      let t := r + 2 ^ Z.of_nat bits in
      cube_root bits (if t * t * t <=? n then t else r) n
  end.

(** The round constants: 32 bits of the fractions of the cube roots of the
    first 64 primes. *)
Definition k256 : list Z := Eval vm_compute in map (λ p, u32 (cube_root 40 0 (p * 2^96))) (primes 400 64 2).

(** The initial state: likewise of the square roots of the first eight. *)
Definition iv256 : list Z := Eval vm_compute in map (λ p, u32 (Z.sqrt (p * 2^64))) (primes 20 8 2).

Definition xor3 (a b c : Z) : Z := Z.lxor (Z.lxor a b) c.

Definition step256 (r : list Z) (k w : Z) : list Z :=
  match r with
  | [a; b; c; d; e; f; g; h] =>
      let t1 := h + xor3 (rotr 6 e) (rotr 11 e) (rotr 25 e) +
        Z.lxor (Z.land e f) (Z.land (Z.lxor e (2^32 - 1)) g) + k + w in
      let t2 := xor3 (rotr 2 a) (rotr 13 a) (rotr 22 a) + xor3 (Z.land a b) (Z.land a c) (Z.land b c) in
      [u32 (t1 + t2); a; b; c; u32 (d + t1); e; f; g]
  | _ => r
  end.

Definition sched256 (w : list Z) : Z :=
  let s0 := xor3 (rotr 7 (at_ w 1)) (rotr 18 (at_ w 1)) (Z.shiftr (at_ w 1) 3) in
  let s1 := xor3 (rotr 17 (at_ w 14)) (rotr 19 (at_ w 14)) (Z.shiftr (at_ w 14) 10) in
  u32 (s1 + at_ w 9 + s0 + at_ w 0).

Definition sha256 (msg : list Z) : list Z :=
  digest step256 sched256 k256 iv256 msg.

Lemma length_rounds step sched ks : (∀ r k w, length (step r k w) = length r) →
  ∀ window regs, length (rounds step sched ks window regs) = length regs.
Proof.
  intros Hs. induction ks as [|k ks IH]; intros window regs; [done|]. cbn [rounds]. by rewrite IH, Hs.
Qed.

Lemma length_concat_words l : length (concat (map (put_be 4) l)) = (4 * length l)%nat.
Proof.
  induction l as [|x l IH]; [done|]. cbn [map concat]. rewrite length_app, IH, length_put_be. cbn [length]. lia.
Qed.

Lemma length_digest step sched ks iv msg : (∀ r k w, length (step r k w) = length r) →
  length (digest step sched ks iv msg) = (4 * length iv)%nat.
Proof.
  intros Hs. unfold digest. rewrite length_concat_words. f_equal.
  generalize (blocks_of msg). intros bs. revert iv. induction bs as [|b bs IH]; intros h; [done|].
  cbn [foldl]. rewrite IH. unfold compress. rewrite length_zip_with, length_rounds by done. lia.
Qed.

Lemma length_sha1 msg : length (sha1 msg) = 20%nat.
Proof. apply (length_digest step1). intros r k w. do 6 (destruct r as [|? r]; [done|]). done. Qed.

Lemma length_sha256 msg : length (sha256 msg) = 32%nat.
Proof. apply (length_digest step256). intros r k w. do 9 (destruct r as [|? r]; [done|]). done. Qed.

Lemma digest_ok step sched ks iv msg : bytes_ok (digest step sched ks iv msg).
Proof.
  unfold digest, bytes_ok. induction (foldl _ _ _) as [|x l IH]; cbn [map concat]; [constructor|].
  apply Forall_app. split; [apply put_be_ok|done].
Qed.

End Sha.

(** ** [crypto/hmac] with SHA-1 *)
Definition hmac_sha1 (key msg : list Z) : list Z :=
  let key := if (64 <? zlen key) then Sha.sha1 key else key in
  let key := key ++ replicate (64 - length key) 0 in
  Sha.sha1 (map (Z.lxor 0x5c) key ++ Sha.sha1 (map (Z.lxor 0x36) key ++ msg)).

(** ** [encoding/hex] *)
Definition hex_digit (d : Z) : ascii :=
  match String.get (Z.to_nat d) "0123456789abcdef" with Some c => c | None => "0"%char end.

Fixpoint hex (l : list Z) : string :=
  match l with
  | [] => ""
  | b :: l => String (hex_digit (b `div` 16)) (String (hex_digit (b `mod` 16)) (hex l))
  end.

(** ** [base32.StdEncoding.WithPadding(NoPadding)]

    Eight characters carry five bytes; a last group of one to four bytes takes
    two, four, five or seven. *)
Definition b32_alphabet : string := "ABCDEFGHIJKLMNOPQRSTUVWXYZ234567".

Definition b32_char (d : Z) : ascii :=
  match String.get (Z.to_nat d) b32_alphabet with Some c => c | None => "A"%char end.

Definition b32_value (c : ascii) : option Z :=
  let n := Z.of_nat (nat_of_ascii c) in
  if (65 <=? n) && (n <=? 90) then Some (n - 65)
  else if (50 <=? n) && (n <=? 55) then Some (n - 24)
  else None.

(** The [n] base-32 digits of [v], first digit first. *)
Fixpoint digits32 (n : nat) (v : Z) : list Z :=
  match n with
  | O => []
  | S n => (v `div` 32 ^ Z.of_nat n) `mod` 32 :: digits32 n v
  end.

Definition b32_group (l : list Z) : string :=
  string_of_list_ascii (map b32_char
    (take (match length l with 0 => 0 | 1 => 2 | 2 => 4 | 3 => 5 | 4 => 7 | _ => 8 end)%nat
       (digits32 8 (get_be (l ++ replicate (5 - length l) 0))))).

Fixpoint b32_encode (fuel : nat) (l : list Z) : string :=
  match fuel, l with
  | O, _ | _, [] => ""
  | S fuel, _ => b32_group (take 5 l) +:+ b32_encode fuel (drop 5 l)
  end.

Definition EncodeToString (l : list Z) : string := b32_encode (length l) l.

(** One group of digits to bytes: a group cut short in the middle of a byte
    gives none, and only a whole one is followed by another. *)
Definition b32_bytes (ds : list Z) : list Z :=
  let v := foldl (λ acc d, acc * 32 + d) 0 (ds ++ replicate (8 - length ds) 0) in
  take (match length ds with 2 => 1 | 4 => 2 | 5 => 3 | 7 => 4 | 8 => 5 | _ => 0 end)%nat (put_be 5 v).

(** [DecodeString]: line ends are ignored; [None] is a corrupt input. *)
Definition b32_values (s : string) : option (list Z) :=
  mapM b32_value
    (filter (λ c, negb (Ascii.eqb c "010" || Ascii.eqb c "013") = true) (list_ascii_of_string s)).

Fixpoint b32_decode (fuel : nat) (ds : list Z) : list Z :=
  match fuel, ds with
  | O, _ | _, [] => []
  | S fuel, _ => b32_bytes (take 8 ds) ++ b32_decode fuel (drop 8 ds)
  end.

Definition DecodeString (s : string) : option (list Z) := (λ ds, b32_decode (length ds) ds) <$> b32_values s.

(** ** Lemmas: base32 *)

Lemma b32_value_char d : 0 ≤ d < 32 → b32_value (b32_char d) = Some d.
Proof.
  intros Hd. assert (Forall (λ d, b32_value (b32_char d) = Some d) (map Z.of_nat (seq 0 32))) as H
    by (apply (bool_decide_unpack _); by vm_compute).
  rewrite Forall_forall in H. apply H. apply list_elem_of_In, in_map_iff. exists (Z.to_nat d).
  split; [lia|]. apply in_seq. lia.
Qed.

(** Every character written is a digit 2 to 7 or an upper-case letter. *)
Definition b32_letter (c : ascii) : bool := match b32_value c with Some _ => true | None => false end.

Lemma digits32_range n v : Forall (λ d, 0 ≤ d < 32) (digits32 n v).
Proof. induction n as [|n IH]; cbn [digits32]; constructor; [apply Z.mod_pos_bound; lia|done]. Qed.

Lemma length_digits32 n v : length (digits32 n v) = n.
Proof. induction n as [|n IH]; [done|]. cbn [digits32 length]. by rewrite IH. Qed.

Lemma fold_digits32 n v : ∀ a, foldl (λ acc d, acc * 32 + d) a (digits32 n v) = a * 32 ^ Z.of_nat n + v `mod` 32 ^ Z.of_nat n.
Proof.
  induction n as [|n IH]; intros a; cbn [digits32 foldl]; [rewrite Z.mod_1_r; lia|].
  rewrite IH, Nat2Z.inj_succ, Z.pow_succ_r by lia. set (p := 32 ^ Z.of_nat n).
  assert (0 < p) as Hp by (unfold p; lia). rewrite (Z.mul_comm 32 p), Z.rem_mul_r by lia. lia.
Qed.

Lemma b32_values_app s t : b32_values (s +:+ t) = (ds ← b32_values s; es ← b32_values t; Some (ds ++ es)).
Proof.
  unfold b32_values. rewrite list_ascii_app, filter_app. generalize (filter (λ c, negb (Ascii.eqb c "010" || Ascii.eqb c "013") = true) (list_ascii_of_string s)).
  generalize (filter (λ c, negb (Ascii.eqb c "010" || Ascii.eqb c "013") = true) (list_ascii_of_string t)).
  intros k l. induction l as [|c l IH]; simpl.
  - by destruct (mapM b32_value k).
  - destruct (b32_value c); simpl; [|reflexivity]. rewrite IH. clear IH.
    destruct (mapM b32_value l); simpl; [|reflexivity]. by destruct (mapM b32_value k).
Qed.

Lemma b32_values_digits ds : Forall (λ d, 0 ≤ d < 32) ds →
  b32_values (string_of_list_ascii (map b32_char ds)) = Some ds.
Proof.
  intros H. unfold b32_values. rewrite list_ascii_of_string_of_list_ascii.
  induction H as [|d ds Hd _ IH]; [done|]. cbn [map]. rewrite filter_cons.
  assert (negb (Ascii.eqb (b32_char d) "010" || Ascii.eqb (b32_char d) "013") = true) as E.
  { destruct (Ascii.eqb_spec (b32_char d) "010") as [E|]; [|destruct (Ascii.eqb_spec (b32_char d) "013") as [E|]; [|done]];
      pose proof (b32_value_char d Hd) as Hv; by rewrite E in Hv. }
  destruct (decide _); [|done]. cbn [mapM]. rewrite b32_value_char by done. cbn. by rewrite IH.
Qed.

(** A secret of whole groups is written so that it reads back. *)
Lemma b32_roundtrip k : ∀ l, length l = (5 * k)%nat → bytes_ok l → ∀ f g, (k ≤ f)%nat → (8 * k ≤ g)%nat →
  ∃ ds, b32_values (b32_encode f l) = Some ds ∧ length ds = (8 * k)%nat ∧ b32_decode g ds = l.
Proof.
  induction k as [|k IH]; intros l Hl Hok f g Hf Hg.
  { destruct l; [|done]. exists []. by destruct f, g. }
  destruct f as [|f]; [lia|]. destruct l as [|b0 [|b1 [|b2 [|b3 [|b4 l]]]]]; try (cbn in Hl; lia).
  assert (length l = (5 * k)%nat) as Hl' by (cbn in Hl; lia).
  assert (bytes_ok l ∧ bytes_ok [b0; b1; b2; b3; b4]) as [Hok' Hg5].
  { apply Forall_app. rewrite Permutation_app_comm. exact Hok. }
  destruct (IH l Hl' Hok' f (g - 1)%nat ltac:(lia)) as (ds & E & Hds & Hd).
  { destruct k; lia. }
  cbn [b32_encode]. change (take 5 (b0 :: b1 :: b2 :: b3 :: b4 :: l)) with [b0; b1; b2; b3; b4].
  change (drop 5 (b0 :: b1 :: b2 :: b3 :: b4 :: l)) with l. set (v := get_be [b0; b1; b2; b3; b4]).
  assert (b32_group [b0; b1; b2; b3; b4] = string_of_list_ascii (map b32_char (digits32 8 v))) as ->.
  { unfold b32_group. cbn [length Nat.sub replicate app]. fold v. by rewrite take_ge by (by rewrite length_digits32). }
  exists (digits32 8 v ++ ds). rewrite b32_values_app, b32_values_digits, E by apply digits32_range. cbn [mbind option_bind].
  split_and!; [done|rewrite length_app, length_digits32; lia|].
  destruct g as [|g]; [lia|]. replace (S g - 1)%nat with g in Hd by lia.
  change (digits32 8 v ++ ds) with (at_ (digits32 8 v) 0 :: (tail (digits32 8 v) ++ ds)) at 1.
  cbn [b32_decode]. change (at_ (digits32 8 v) 0 :: (tail (digits32 8 v) ++ ds)) with (digits32 8 v ++ ds).
  rewrite take_app_length', drop_app_length' by (by rewrite length_digits32). rewrite Hd.
  change (b0 :: b1 :: b2 :: b3 :: b4 :: l) with ([b0; b1; b2; b3; b4] ++ l). f_equal.
  unfold b32_bytes. rewrite length_digits32. cbn [Nat.sub replicate]. rewrite app_nil_r, fold_digits32.
  rewrite take_ge by (by rewrite length_put_be). rewrite Z.mul_0_l, Z.add_0_l.
  assert (0 ≤ v < 2^40) as Hv.
  { pose proof (get_be_bound [b0; b1; b2; b3; b4] Hg5) as H. unfold v. exact H. }
  rewrite Z.mod_small by (cbn; lia). by apply put_get_be.
Qed.

(** ** Test vectors *)
Example sha1_abc : hex (Sha.sha1 (to_bytes "abc")) = "a9993e364706816aba3e25717850c26c9cd0d89d".
Proof. by vm_compute. Qed.
Example sha1_two_blocks :
  hex (Sha.sha1 (to_bytes "abcdbcdecdefdefgefghfghighijhijkijkljklmklmnlmnomnopnopq")) =
  "84983e441c3bd26ebaae4aa1f95129e5e54670f1".
Proof. by vm_compute. Qed.
Example sha256_abc :
  hex (Sha.sha256 (to_bytes "abc")) = "ba7816bf8f01cfea414140de5dae2223b00361a396177a9cb410ff61f20015ad".
Proof. by vm_compute. Qed.
Example sha256_two_blocks :
  hex (Sha.sha256 (to_bytes "abcdbcdecdefdefgefghfghighijhijkijkljklmklmnlmnomnopnopq")) =
  "248d6a61d20638b8e5c026930c3e6039a33ce45964ff2167f6ecedd419db06c1".
Proof. by vm_compute. Qed.
Example hmac_jefe :
  hex (hmac_sha1 (to_bytes "Jefe") (to_bytes "what do ya want for nothing?")) =
  "effcdf6ae5eb2fa2d27416d5f184df9c259a7c79".
Proof. by vm_compute. Qed.
Example base32_rfc :
  map (λ s, EncodeToString (to_bytes s)) ["f"; "fo"; "foo"; "foob"; "fooba"; "foobar"] =
  ["MY"; "MZXQ"; "MZXW6"; "MZXW6YQ"; "MZXW6YTB"; "MZXW6YTBOI"].
Proof. by vm_compute. Qed.
Example base32_back :
  map DecodeString ["MY"; "MZXQ"; "MZXW6"; "MZXW6YQ"; "MZXW6YTB"; "MZXW6YTBOI"; "M1"] =
  map (λ s, Some (to_bytes s)) ["f"; "fo"; "foo"; "foob"; "fooba"; "foobar"] ++ [None].
Proof. by vm_compute. Qed.
