(* ===== verification/Login.v ===== *)
(** What stands before the web panel ([src/internal/webui]): the limiter of
    login attempts ([handlers_security.go], Module [Limiter]), the second
    factor and its recovery codes ([totp.go], Module [Totp], with its
    properties in Module [TotpFacts]). What spends them is in Panel.v.

    Times are nanoseconds; the zero [time.Time] is [None]. Random bytes are
    arguments, and so is the order in which Go walks a map. *)

From Stdlib Require Import Ascii String.
From S2P Require Import Prelude GoStr GoHash.
Import GoStr.
Open Scope string_scope.
Open Scope list_scope.
Open Scope Z_scope.

Definition Second : Z := 1000 * 1000 * 1000.
Definition Minute : Z := 60 * Second.

Module Limiter.

Definition loginMaxFails : Z := 5.
Definition loginBlockPeriod : Z := 10 * Minute.
Definition loginMaxTracked : nat := 4096.

Record loginAttempt : Type := mkAttempt { fails : Z; until : option Z; seen : Z }.

(** [byIP]: the map holds pointers, one per address. *)
Notation loginLimiter := (gmap string loginAttempt).

Definition isBlocked (a : loginAttempt) (now : Z) : bool :=
  match until a with Some u => now <? u | None => false end.

(** [blocked] at [now]; how much longer is read off the clock again. *)
Definition blocked (l : loginLimiter) (ip : string) (now now' : Z) : loginLimiter * option Z :=
  match l !! ip with
  | None => (l, None)
  | Some a =>
      if isBlocked a now then (l, Some (default 0 (until a) - now'))
      else (match until a with Some _ => delete ip l | None => l end, None)
  end.

(** An entry the first loop of [evictLocked] keeps. *)
Definition alive (now : Z) (x : string * loginAttempt) : Prop :=
  isBlocked (snd x) now = true ∨ now - seen (snd x) ≤ loginBlockPeriod.

#[export] Instance alive_dec now x : Decision (alive now x).
Proof. unfold alive. apply _. Defined.

(** [t.Before(u)], where the zero time is before every other. *)
Definition Before (t u : option Z) : bool :=
  match t, u with
  | _, None => false
  | None, Some _ => true
  | Some t, Some u => t <? u
  end.

(** One round of the second and of the third loop. *)
Definition older (now : Z) (v : string * Z) (x : string * loginAttempt) : string * Z :=
  if isBlocked (snd x) now then v
  else if String.eqb (fst v) "" || (seen (snd x) <? snd v) then (fst x, seen (snd x)) else v.

Definition sooner (v : string * option Z) (x : string * loginAttempt) : string * option Z :=
  if String.eqb (fst v) "" || Before (until (snd x)) (snd v) then (fst x, until (snd x)) else v.

Section range.
(** The order in which a loop over the map visits it. *)
Context (range : loginLimiter → list (string * loginAttempt)).

Definition evictLocked (l : loginLimiter) (now : Z) : loginLimiter :=
  if (size l <? loginMaxTracked)%nat then l
  else
    let l := filter (alive now) l in
    if (size l <? loginMaxTracked)%nat then l
    else
      let victim := fst (foldl (older now) ("", 0) (range l)) in
      if negb (String.eqb victim "") then delete victim l
      else delete (fst (foldl sooner ("", None) (range l))) l.

(** [fail]; the clock is read in [evictLocked] and for [seen]. *)
Definition fail (l : loginLimiter) (ip : string) (now now' : Z) : loginLimiter :=
  let '(l, a) :=
    match l !! ip with
    | Some a => (l, a)
    | None => (evictLocked l now, mkAttempt 0 None 0)
    end in
  let n := fails a + 1 in
  <[ip := mkAttempt n (if loginMaxFails <=? n then Some (now' + loginBlockPeriod) else until a) now']> l.

Definition reset (l : loginLimiter) (ip : string) : loginLimiter := delete ip l.

(** ** A wrong guess, as [handleLogin] and [guard] treat it: the address is
    checked, and the failure is counted if it was not blocked. *)
Record guess : Type := mkGuess { gip : string; checked : Z; evicting : Z; stamped : Z }.

Definition wrong (l : loginLimiter) (g : guess) : loginLimiter * bool :=
  let x := blocked l (gip g) (checked g) (checked g) in
  match snd x with
  | Some _ => (fst x, false)
  | None => (fail (fst x) (gip g) (evicting g) (stamped g), true)
  end.

(** The guesses that were let through. *)
Fixpoint guesses (l : loginLimiter) (gs : list guess) : loginLimiter * list guess :=
  match gs with
  | [] => (l, [])
  | g :: gs =>
      let x := wrong l g in
      let y := guesses (fst x) gs in
      (fst y, if snd x then g :: snd y else snd y)
  end.

(** ** Lemmas: eviction *)
Context (range_ok : ∀ l, range l ≡ₚ map_to_list l).

Lemma range_In l ip a : (ip, a) ∈ range l ↔ l !! ip = Some a.
Proof using range_ok. rewrite range_ok. apply elem_of_map_to_list. Qed.

(** The victim of a loop is one of the entries it may take. *)
Lemma older_victim now xs : ∀ v, Forall (λ x, fst x ≠ "") xs → 
  let w := foldl (older now) v xs in
  w = v ∨ ∃ x, x ∈ xs ∧ fst w = fst x ∧ isBlocked (snd x) now = false.
Proof.
  induction xs as [|x xs IH]; intros v HF; [by left|]. inversion HF as [|? ? Hx HF']; subst. cbn [foldl].
  assert (older now v x = v ∨ fst (older now v x) = fst x ∧ isBlocked (snd x) now = false) as Hv.
  { unfold older. destruct (isBlocked (snd x) now); [by left|]. destruct (_ || _); [by right|by left]. }
  destruct (IH (older now v x) HF') as [->|(y & Hy & E & Hb)].
  - destruct Hv as [->|[E Hb]]; [by left|]. right. exists x. split_and!; auto. apply list_elem_of_here.
  - right. exists y. split_and!; auto. by apply list_elem_of_further.
Qed.

Lemma older_found now xs : ∀ v, Forall (λ x, fst x ≠ "") xs →
  fst v ≠ "" ∨ (∃ x, x ∈ xs ∧ isBlocked (snd x) now = false) → fst (foldl (older now) v xs) ≠ "".
Proof.
  induction xs as [|x xs IH]; intros v HF H; [destruct H as [H|(x & Hx & _)]; [done|by apply elem_of_nil in Hx]|].
  inversion HF as [|? ? Hx HF']; subst. cbn [foldl]. apply IH; [done|]. unfold older.
  destruct H as [H|(y & Hy & Hb)].
  - left. destruct (isBlocked _ _); [done|]. by destruct (_ || _).
  - apply elem_of_cons in Hy as [->|Hy]; [|right; by exists y]. left. rewrite Hb.
    destruct (String.eqb_spec (fst v) ""); cbn; [done|]. by destruct (_ <? _).
Qed.

Lemma sooner_victim xs : ∀ v, Forall (λ x, fst x ≠ "") xs →
  let w := foldl sooner v xs in w = v ∧ fst v ≠ "" ∨ xs = [] ∨ ∃ x, x ∈ xs ∧ fst w = fst x.
Proof.
  induction xs as [|x xs IH]; intros v HF; [by right; left|]. inversion HF as [|? ? Hx HF']; subst. cbn [foldl].
  assert (sooner v x = v ∧ fst v ≠ "" ∨ fst (sooner v x) = fst x) as Hv.
  { unfold sooner. destruct (String.eqb_spec (fst v) ""); cbn; [by right|]. destruct (Before _ _); [by right|by left]. }
  destruct (IH (sooner v x) HF') as [[-> Hn]|[->|(y & Hy & E)]].
  - destruct Hv as [[-> ?]|E]; [by left|]. right. right. exists x. split; [apply list_elem_of_here|done].
  - destruct Hv as [[E ?]|E]; [left; cbn; by rewrite E|]. right. right. exists x. split; [apply list_elem_of_here|done].
  - right. right. exists y. split; [by apply list_elem_of_further|done].
Qed.

Lemma range_named l : l !! "" = None → Forall (λ x, fst x ≠ "") (range l).
Proof using range_ok.
  intros H. apply Forall_forall. intros [ip a] Hx E. cbn in E. subst. apply range_In in Hx. congruence.
Qed.

Lemma size_delete_lt (l : loginLimiter) ip a : l !! ip = Some a → S (size (delete ip l)) = size l.
Proof. intros H. rewrite map_size_delete, H. assert (size l ≠ 0%nat); [|lia]. by eapply map_size_ne_0_lookup_2. Qed.

Lemma evict_sub l now ip : evictLocked l now !! ip = l !! ip ∨ evictLocked l now !! ip = None.
Proof.
  unfold evictLocked. destruct (_ <? _)%nat; [by left|].
  assert (filter (alive now) l !! ip = l !! ip ∨ filter (alive now) l !! ip = None) as Hf.
  { destruct (filter (alive now) l !! ip) as [a|] eqn:E; [|by right]. apply map_lookup_filter_Some in E as [E _]. left. by rewrite E. }
  destruct (_ <? _)%nat; [done|].
  destruct (negb _); rewrite lookup_delete; case_decide; auto.
Qed.

(** It makes room, unless there was room. *)
Lemma evict_room l now : l !! "" = None → (size l ≤ loginMaxTracked)%nat → (size (evictLocked l now) < loginMaxTracked)%nat.
Proof using range_ok.
  intros Hn Hs. unfold evictLocked. destruct (Nat.ltb_spec (size l) loginMaxTracked); [done|].
  set (k := filter (alive now) l). assert (size k ≤ size l)%nat as Hk by apply map_subseteq_size, map_filter_subseteq.
  assert (k !! "" = None) as Hkn.
  { unfold k. by rewrite map_lookup_filter, Hn. }
  destruct (Nat.ltb_spec (size k) loginMaxTracked); [done|].
  assert (0 < loginMaxTracked)%nat as Hpos by (unfold loginMaxTracked; lia).
  destruct (older_victim now (range k) ("", 0) (range_named k Hkn)) as [E|([ip a] & Hx & E & _)].
  - rewrite E. cbn [fst String.eqb negb]. destruct (sooner_victim (range k) ("", None) (range_named k Hkn)) as [[_ H']|[E'|([ip a] & Hx & E')]].
    + done.
    + exfalso. assert (map_to_list k = []) as E2 by (apply Permutation_nil_r; rewrite <- E'; symmetry; apply range_ok).
      apply map_to_list_empty_iff in E2. rewrite E2, map_size_empty in *. lia.
    + rewrite E'. cbn [fst]. apply range_In in Hx. pose proof (size_delete_lt k ip a Hx). lia.
  - rewrite E. cbn [fst]. destruct (String.eqb_spec ip "") as [->|]; cbn [negb].
    + apply range_In in Hx. congruence.
    + apply range_In in Hx. pose proof (size_delete_lt k ip a Hx). lia.
Qed.

(** What is kept out stays out, while there is anything else to give up. *)
Lemma evict_keeps_blocked l now ip a : l !! "" = None → (size l ≤ loginMaxTracked)%nat →
  l !! ip = Some a → isBlocked a now = true →
  (∃ ip' a', l !! ip' = Some a' ∧ isBlocked a' now = false) → evictLocked l now !! ip = Some a.
Proof using range_ok.
  intros Hn Hs Ha Hb (ip' & a' & Ha' & Hb'). unfold evictLocked. destruct (Nat.ltb_spec (size l) loginMaxTracked) as [|_]; [done|].
  set (k := filter (alive now) l). assert (k !! ip = Some a) as Hk by (apply map_lookup_filter_Some; split; [done|by left]).
  assert (k !! "" = None) as Hkn by (unfold k; by rewrite map_lookup_filter, Hn).
  destruct (Nat.ltb_spec (size k) loginMaxTracked) as [|Hks]; [done|].
  destruct (older_victim now (range k) ("", 0) (range_named k Hkn)) as [E|([v b] & Hx & E & Hv)].
  - (* nothing unblocked is left: [ip'] was dropped, and there was room *)
    exfalso. assert (k !! ip' = None) as Hd.
    { destruct (k !! ip') as [b|] eqn:Eb; [|done]. exfalso. apply (older_found now (range k) ("", 0)); [by apply range_named| |by rewrite E].
      right. exists (ip', b). split; [by apply range_In|]. apply map_lookup_filter_Some in Eb as [Eb _]. cbn. congruence. }
    assert (k ⊆ delete ip' l) as Hsub.
    { apply map_subseteq_spec. intros j x Hj. rewrite lookup_delete_ne by (intros <-; congruence).
      by apply map_lookup_filter_Some in Hj as [? _]. }
    apply map_subseteq_size in Hsub. pose proof (size_delete_lt l ip' a' Ha'). lia.
  - rewrite E. cbn [fst snd] in *. apply range_In in Hx. destruct (String.eqb_spec v "") as [->|]; [congruence|]. cbn [negb].
    rewrite lookup_delete_ne; [done|]. intros ->. congruence.
Qed.

(** ** Lemmas: one address *)

(** Every address is named and none is tracked past the bound. *)
Definition tracked (l : loginLimiter) : Prop := l !! "" = None ∧ (size l ≤ loginMaxTracked)%nat.

Lemma fail_tracked l ip now now' : ip ≠ "" → tracked l → tracked (fail l ip now now').
Proof using range_ok.
  intros Hip [Hn Hs]. unfold fail. destruct (l !! ip) as [a|] eqn:Ea; (split; [rewrite lookup_insert_ne by done|]).
  - done.
  - by rewrite map_size_insert_Some by (by eexists).
  - by destruct (evict_sub l now "") as [-> | ->].
  - pose proof (evict_room l now Hn Hs). rewrite map_size_insert_None; [lia|].
    by destruct (evict_sub l now ip) as [-> | ->].
Qed.

Lemma wrong_tracked l g : gip g ≠ "" → tracked l → tracked (fst (wrong l g)).
Proof using range_ok.
  intros Hip Ht. unfold wrong, blocked. destruct (l !! gip g) as [a|]; [|by apply fail_tracked].
  destruct (isBlocked a (checked g)); [done|]. cbn [fst snd]. apply fail_tracked; [done|].
  destruct (until a); [|done]. destruct Ht as [Hn Hs]. split; [by rewrite lookup_delete_ne|].
  etrans; [apply map_subseteq_size, delete_subseteq|done].
Qed.

(** What a wrong guess does to the entry of its own address. *)
Definition wrong_entry (e : option loginAttempt) (g : guess) : option loginAttempt * bool :=
  let count a := 
    let n := fails a + 1 in
    Some (mkAttempt n (if loginMaxFails <=? n then Some (stamped g + loginBlockPeriod) else until a) (stamped g)) in
  match e with
  | None => (count (mkAttempt 0 None 0), true)
  | Some a =>
      if isBlocked a (checked g) then (Some a, false)
      else match until a with Some _ => (count (mkAttempt 0 None 0), true) | None => (count a, true) end
  end.

Lemma wrong_own l g : fst (wrong l g) !! gip g = fst (wrong_entry (l !! gip g) g) ∧ snd (wrong l g) = snd (wrong_entry (l !! gip g) g).
Proof.
  unfold wrong, wrong_entry, blocked. destruct (l !! gip g) as [a|] eqn:Ea; cbn [fst snd].
  2:{ unfold fail. rewrite Ea. by rewrite lookup_insert_eq. }
  destruct (isBlocked a (checked g)); cbn [fst snd]; [done|].
  destruct (until a) eqn:Eu; unfold fail; cbn [fst snd].
  - rewrite lookup_delete_eq. by rewrite lookup_insert_eq.
  - rewrite Ea, Eu. by rewrite lookup_insert_eq.
Qed.

(** The others are left alone while there is room. *)
Lemma wrong_other l g ip : ip ≠ gip g → (l !! gip g = None → (size l < loginMaxTracked)%nat) →
  (size l ≤ loginMaxTracked)%nat → fst (wrong l g) !! ip = l !! ip.
Proof.
  intros Hne Hroom Hs. unfold wrong, blocked. destruct (l !! gip g) as [a|] eqn:Ea; cbn [fst snd].
  - destruct (isBlocked a (checked g)); [done|]. cbn [fst snd]. destruct (until a); unfold fail.
    + rewrite lookup_delete_eq, lookup_insert_ne by done. unfold evictLocked.
      assert (S (size (delete (gip g) l)) = size l) by (by eapply size_delete_lt).
      destruct (Nat.ltb_spec (size (delete (gip g) l)) loginMaxTracked); [|lia]. by rewrite lookup_delete_ne.
    + by rewrite Ea, lookup_insert_ne.
  - specialize (Hroom eq_refl). unfold fail. rewrite Ea, lookup_insert_ne by done. unfold evictLocked.
    by destruct (Nat.ltb_spec (size l) loginMaxTracked); [|lia].
Qed.

Lemma wrong_dom l g : dom (fst (wrong l g)) ⊆ {[gip g]} ∪ dom l.
Proof.
  clear range_ok. intros ip Hip. destruct (decide (ip = gip g)) as [->|Hne]; [set_solver|]. apply elem_of_union. right.
  apply elem_of_dom in Hip as [b Hb]. apply elem_of_dom. revert Hb. unfold wrong, blocked.
  assert (∀ k : loginLimiter, fail k (gip g) (evicting g) (stamped g) !! ip = Some b → k !! ip = Some b) as Hf.
  { intros k. unfold fail. destruct (k !! gip g); rewrite lookup_insert_ne by done; [done|].
    by destruct (evict_sub k (evicting g) ip) as [-> | ->]. }
  destruct (l !! gip g) as [a|]; cbn [fst snd]; [|intros H%Hf; by eexists].
  destruct (isBlocked a (checked g)); cbn [fst snd]; [by eexists|]. intros H%Hf. destruct (until a); [|by eexists].
  rewrite lookup_delete_ne in H by done. by eexists.
Qed.

(** The guesses of one address, against its entry alone. *)
Fixpoint entry_guesses (e : option loginAttempt) (gs : list guess) : list guess :=
  match gs with
  | [] => []
  | g :: gs =>
      let x := wrong_entry e g in
      if snd x then g :: entry_guesses (fst x) gs else entry_guesses (fst x) gs
  end.

Lemma guesses_entry (S : gset string) ip gs : (size S ≤ loginMaxTracked)%nat → Forall (λ g, gip g ∈ S) gs → ∀ l, dom l ⊆ S →
  filter (λ g, gip g = ip) (snd (guesses l gs)) = entry_guesses (l !! ip) (filter (λ g, gip g = ip) gs).
Proof.
  clear range_ok. intros HS. induction 1 as [|g gs Hg _ IH]; intros l Hl; [done|]. cbn [guesses fst snd].
  assert (dom (fst (wrong l g)) ⊆ S) as Hl' by (pose proof (wrong_dom l g); set_solver).
  assert (size l ≤ loginMaxTracked)%nat as Hsz.
  { etrans; [|exact HS]. rewrite <- size_dom. by apply subseteq_size. }
  specialize (IH _ Hl'). rewrite filter_cons. destruct (decide (gip g = ip)) as [<-|Hne].
  - cbn [entry_guesses]. destruct (wrong_own l g) as [E1 E2]. rewrite <- E1, <- E2.
    destruct (snd (wrong l g)); [|done].
    rewrite filter_cons, decide_True by done. by rewrite IH.
  - assert (fst (wrong l g) !! ip = l !! ip) as E.
    { apply wrong_other; [done| |done]. intros Hn. eapply Nat.lt_le_trans; [|exact HS]. rewrite <- size_dom.
      apply subset_size. split; [done|]. intros H. apply H in Hg. apply elem_of_dom in Hg as [? ?]. congruence. }
    rewrite <- E, <- IH. destruct (snd (wrong l g)); [|done]. by rewrite filter_cons, decide_False.
Qed.

Fixpoint clocked (lo : Z) (gs : list guess) : Prop :=
  match gs with [] => True | g :: gs => lo ≤ checked g ≤ stamped g ∧ clocked (stamped g) gs end.

Lemma entry_after gs : ∀ lo e, clocked lo gs → Forall (λ g, lo ≤ checked g) (entry_guesses e gs).
Proof.
  induction gs as [|g gs IH]; intros lo e Hc; [constructor|]. destruct Hc as [Hg Hc]. cbn [entry_guesses].
  assert (Forall (λ g, lo ≤ checked g) (entry_guesses (fst (wrong_entry e g)) gs)) as H.
  { eapply Forall_impl; [exact (IH _ _ Hc)|]. cbn. lia. }
  destruct (snd (wrong_entry e g)); [constructor; [lia|done]|done].
Qed.

Lemma entry_blocked gs : ∀ lo n u s, clocked lo gs →
  Forall (λ g, u ≤ checked g) (entry_guesses (Some (mkAttempt n (Some u) s)) gs).
Proof.
  induction gs as [|g gs IH]; intros lo n u s Hc; [constructor|]. destruct Hc as [Hg Hc]. cbn [entry_guesses wrong_entry].
  unfold isBlocked. cbn [until]. destruct (Z.ltb_spec (checked g) u); cbn [fst snd]; [by eapply IH|].
  constructor; [done|]. eapply Forall_impl; [exact (entry_after gs (stamped g) _ Hc)|]. cbn. lia.
Qed.

(** The entry of an address that is not kept out, after [n] failures. *)
Definition counting (e : option loginAttempt) (n : Z) : Prop :=
  match e with None => n = 0 | Some a => fails a = n ∧ until a = None ∧ 0 < n end.

Lemma entry_crosses gs : ∀ lo e n i j x y, clocked lo gs → counting e n → n < loginMaxFails →
  Z.of_nat i < loginMaxFails - n ≤ Z.of_nat j →
  entry_guesses e gs !! i = Some x → entry_guesses e gs !! j = Some y → checked x + loginBlockPeriod ≤ checked y.
Proof.
  unfold loginMaxFails. induction gs as [|g gs IH]; intros lo e n i j x y Hc He Hn Hij Hi Hj; [done|].
  destruct Hc as [Hg Hc]. cbn [entry_guesses] in Hi, Hj.
  assert (∃ a, fst (wrong_entry e g) = Some a ∧ snd (wrong_entry e g) = true ∧ fails a = n + 1 ∧
    until a = if 5 <=? n + 1 then Some (stamped g + loginBlockPeriod) else None) as (a & Ea & Es & Ef & Eu).
  { destruct e as [[f u s]|]; cbn in He; [destruct He as (<- & -> & _)|subst n]; cbn; by eexists. }
  rewrite Es, Ea in Hi, Hj. destruct j as [|j]; [lia|]. cbn [lookup list_lookup] in Hj.
  destruct (Z.leb_spec 5 (n + 1)) as [Hb|Hb].
  - destruct i as [|i]; [|lia]. injection Hi as <-. destruct a as [f u s]. cbn in Eu. subst u.
    pose proof (Forall_lookup_1 _ _ _ _ (entry_blocked gs (stamped g) f _ s Hc) Hj) as H. cbn in H. lia.
  - assert (counting (Some a) (n + 1)) as He'.
    { cbn. split_and!; [done|done|]. destruct e; cbn in He; lia. }
    destruct i as [|i].
    + injection Hi as <-. destruct (lookup_lt_is_Some_2 (entry_guesses (Some a) gs) 0) as [z Hz].
      { apply lookup_lt_Some in Hj. lia. }
      pose proof (IH (stamped g) (Some a) (n + 1) 0%nat j z y Hc He' ltac:(lia) ltac:(lia) Hz Hj) as H.
      pose proof (Forall_lookup_1 _ _ _ _ (entry_after gs (stamped g) (Some a) Hc) Hz) as H'. cbn in H'. lia.
    + exact (IH (stamped g) (Some a) (n + 1) i j x y Hc He' ltac:(lia) ltac:(lia) Hi Hj).
Qed.

(** An entry as the guesses leave it. *)
Definition entry_ok (e : option loginAttempt) : Prop :=
  (∃ n, counting e n ∧ n < loginMaxFails) ∨ ∃ n u s, e = Some (mkAttempt n (Some u) s).

Lemma entry_spaced gs : ∀ lo e i x y, clocked lo gs → entry_ok e →
  entry_guesses e gs !! i = Some x → entry_guesses e gs !! (i + 5)%nat = Some y → checked x + loginBlockPeriod ≤ checked y.
Proof.
  induction gs as [|g gs IH]; intros lo e i x y Hc He Hi Hj; [done|].
  assert (∀ e, (∃ n, counting e n ∧ n < loginMaxFails) → entry_guesses e (g :: gs) !! i = Some x →
    entry_guesses e (g :: gs) !! (i + 5)%nat = Some y → checked x + loginBlockPeriod ≤ checked y) as Hcount.
  { clear e He Hi Hj. intros e (n & Hn & Hlt) Hi Hj.
    destruct (decide (Z.of_nat i < loginMaxFails - n)) as [Hb|Hb].
    - eapply (entry_crosses (g :: gs) lo e n i (i + 5)%nat); try done. unfold loginMaxFails in *. destruct e; cbn in Hn; lia.
    - destruct Hc as [Hg Hc]. cbn [entry_guesses] in Hi, Hj. destruct i as [|i]; [lia|].
      assert (snd (wrong_entry e g) = true ∧ entry_ok (fst (wrong_entry e g))) as [Es Eo].
      { destruct e as [[f u s]|]; cbn in Hn.
        - destruct Hn as (<- & -> & Hp). cbn. split; [done|]. destruct (Z.leb_spec loginMaxFails (f + 1)); [right; by eauto|].
          left. exists (f + 1). cbn. split_and!; try done; lia.
        - cbn. split; [done|]. left. exists 1. by cbn. }
      rewrite Es in Hi, Hj. exact (IH _ _ _ _ _ Hc Eo Hi Hj). }
  destruct He as [He|(n & u & s & ->)]; [by apply (Hcount e)|].
  destruct (Z.ltb_spec (checked g) u) as [Hu|Hu].
  - destruct Hc as [Hg Hc]. cbn [entry_guesses wrong_entry] in Hi, Hj. unfold isBlocked in Hi, Hj. cbn [until] in Hi, Hj.
    destruct (Z.ltb_spec (checked g) u); [|lia]. cbn [fst snd] in Hi, Hj. eapply (IH _ _ _ _ _ Hc); [|exact Hi|exact Hj].
    right. by eauto.
  - apply (Hcount None); [by exists 0|..]; (etrans; [|first [exact Hi|exact Hj]]); cbn [entry_guesses wrong_entry];
      unfold isBlocked; cbn [until]; (destruct (Z.ltb_spec (checked g) u); [lia|done]).
Qed.

End range.

(** What reaches the limiter: a wrong guess, or a right one. *)
Inductive op : Type := Wrong (g : guess) | Right (ip : string).

Definition op_ip (o : op) : string := match o with Wrong g => gip g | Right ip => ip end.

Definition act (range : loginLimiter → list (string * loginAttempt)) (l : loginLimiter) (o : op) : loginLimiter :=
  match o with Wrong g => fst (wrong range l g) | Right ip => reset l ip end.

Lemma act_tracked range ops : (∀ l, range l ≡ₚ map_to_list l) → Forall (λ o, op_ip o ≠ "") ops →
  tracked (foldl (act range) ∅ ops).
Proof.
  intros Hr. induction ops as [|o ops IH] using rev_ind; intros HF.
  - split; [done|]. cbn. rewrite map_size_empty. lia.
  - rewrite foldl_snoc. apply Forall_app in HF as [HF Ho]. inversion Ho as [|? ? Hip _]; subst. specialize (IH HF).
    destruct o as [g|ip]; cbn [act op_ip] in *; [by apply wrong_tracked|]. destruct IH as [Hn Hs].
    split; [unfold reset; by rewrite lookup_delete_ne|]. etrans; [apply map_subseteq_size, delete_subseteq|done].
Qed.

(** The limiter is bounded and cannot be flushed. Whatever addresses guess
    and in whatever order Go walks its map, at most 4096 of them are
    remembered; and a failure from a new address never makes it forget one
    that is being kept out, as long as any address that is not is tracked. *)
Theorem limiter_safe range ops :
  (∀ l, range l ≡ₚ map_to_list l) → Forall (λ o, op_ip o ≠ "") ops →
  let l := foldl (act range) ∅ ops in
  (size l ≤ loginMaxTracked)%nat ∧
  ∀ ip now now' other a, other ≠ ip → l !! other = Some a → isBlocked a now = true →
    (∃ ip' a', l !! ip' = Some a' ∧ isBlocked a' now = false) → fail range l ip now now' !! other = Some a.
Proof.
  intros Hr HF l. destruct (act_tracked range ops Hr HF) as [Hn Hs]. split; [done|].
  intros ip now now' other a Hne Ha Hb Hu. unfold fail. destruct (l !! ip) as [b|]; rewrite lookup_insert_ne by done; [done|].
  by apply evict_keeps_blocked.
Qed.

Lemma limiter_safe_witness :
  let range := λ l : loginLimiter, map_to_list l in
  let attack := map (λ k, Wrong (mkGuess "a" k k k)) [1; 2; 3; 4; 5] ++ [Wrong (mkGuess "b" 6 6 6)] in
  fail range (foldl (act range) ∅ attack) "c" 7 7 !! "a" = Some (mkAttempt 5 (Some (5 + loginBlockPeriod)) 5).
Proof.
  intros range attack. destruct (limiter_safe range attack) as [_ H]; [done|by repeat constructor|].
  apply H; [done|by vm_compute|done|]. exists "b", (mkAttempt 1 None 6). split; [by vm_compute|done].
Defined.

(** Brute force is held to five guesses in ten minutes. While no more than
    4096 addresses guess, and requests are handled one at a time, any six
    guesses from one address that are let through span ten minutes or more,
    whatever the others do. *)
Theorem guesses_spaced range (S : gset string) gs ip i x y :
  (size S ≤ loginMaxTracked)%nat → Forall (λ g, gip g ∈ S) gs → clocked 0 gs →
  let let_through := filter (λ g, gip g = ip) (snd (guesses range ∅ gs)) in
  let_through !! i = Some x → let_through !! (i + 5)%nat = Some y → checked x + loginBlockPeriod ≤ checked y.
Proof.
  intros HS HF Hc let_through. unfold let_through. rewrite (guesses_entry range S ip gs HS HF ∅) by (by rewrite dom_empty).
  rewrite lookup_empty. intros Hi Hj. eapply (entry_spaced _ 0 None); [|left; by exists 0|exact Hi|exact Hj].
  clear -Hc. revert Hc. generalize 0. induction gs as [|g gs IH]; intros lo Hc; [done|]. destruct Hc as [Hg Hc].
  assert (∀ lo', lo' ≤ stamped g → clocked lo' (filter (λ g, gip g = ip) gs)) as Hw.
  { intros lo' Hle. specialize (IH _ Hc). destruct (filter _ gs); [done|]. destruct IH. split; [lia|done]. }
  rewrite filter_cons. destruct (decide _); [split; [done|]; apply Hw; lia|apply Hw; lia].
Qed.

(** A guess a second: five are let through, then none until ten minutes later. *)
Definition hammer : list guess := map (λ k, let t := Second * Z.of_nat k in mkGuess "a" t t t) (seq 1 700).

Lemma guesses_spaced_witness :
  let let_through := filter (λ g, gip g = "a") (snd (guesses map_to_list ∅ hammer)) in
  length let_through = 10%nat ∧
  ∃ x y, let_through !! 4%nat = Some x ∧ let_through !! 9%nat = Some y ∧ checked x + loginBlockPeriod ≤ checked y.
Proof.
  intros lt. split; [by vm_compute|]. eexists _, _. split; [by vm_compute|]. split; [by vm_compute|].
  apply (guesses_spaced map_to_list {["a"]} hammer "a" 4).
  - rewrite size_singleton. apply Nat.leb_le. by vm_compute.
  - apply (bool_decide_unpack _). by vm_compute.
  - vm_compute. repeat (split; [split; discriminate|]). exact I.
  - by vm_compute.
  - by vm_compute.
Defined.

(** At once, the same five-guess limit does not hold: the check and the count
    are two critical sections, so any number of requests pass the first before
    one of them reaches the second. *)
Example parallel_guesses : ∀ n l, l !! "a" = None →
  Forall (λ x, x = (l, None)) (map (λ now, blocked l "a" now now) (map Z.of_nat (seq 0 n))).
Proof.
  intros n l Hl. apply Forall_forall. intros x Hx. apply list_elem_of_In, in_map_iff in Hx as (now & <- & _).
  unfold blocked. by rewrite Hl.
Qed.

End Limiter.

(** ** One-time codes *)
Module Totp.

Definition totpDigits : nat := 6.
Definition totpStep : Z := 30 * Second.
Definition totpSkew : Z := 1.
Definition totpSecretBytes : nat := 20.
Definition recoveryCodeCount : nat := 10.

Definition Unix (t : Z) : Z := t `div` Second.

(** [strings.ToUpper] as far as base32 can tell: what is not ASCII and does
    not become ASCII is no digit either way. *)
Fixpoint ToUpper (s : string) : string :=
  match s with
  | EmptyString => ""
  | String a s' =>
      let n := Z.of_nat (nat_of_ascii a) in
      if (97 <=? n) && (n <=? 122) then String (ascii_of_nat (Z.to_nat (n - 32))) (ToUpper s')
      else match n, s' with
           | 196, String "177" r => String "I" (ToUpper r) (* U+0131 *)
           | 197, String "191" r => String "S" (ToUpper r) (* U+017F *)
           | _, _ => String a (ToUpper s')
           end
  end.

Definition newTOTPSecret (raw : list Z) : string := EncodeToString raw.

(** [binary.BigEndian.PutUint64(counter, uint64(at.Unix()/30))]. *)
Definition counter (at_ : Z) : list Z := put_be 8 (u64 (Z.quot (Unix at_) 30)).

(** [fmt.Sprintf("%0*d", n, v)]. *)
Fixpoint zeros (k : nat) (s : string) : string := match k with O => s | S k => String "0" (zeros k s) end.

Definition zero_padded (n : nat) (v : Z) : string :=
  let s := FormatUint v in zeros (n - String.length s) s.

(** The dynamic truncation of an HMAC. *)
Definition truncated (sum : list Z) : Z :=
  let offset := Z.to_nat (Z.land (at_ sum (length sum - 1)) 15) in
  Z.land (get_be (slice sum offset (offset + 4))) 0x7fffffff.

Definition code_of (key : list Z) (t : Z) : string :=
  zero_padded totpDigits (truncated (hmac_sha1 key (counter t)) `mod` 10^6).

(** [totpCode]; [None] is a secret that is not base32. *)
Definition totpCode (secret : string) (t : Z) : option string :=
  key ← DecodeString (ToUpper (TrimSpace secret)); Some (code_of key t).

Fixpoint totp_loop (secret given : string) (now : Z) (steps : list Z) : bool :=
  match steps with
  | [] => false
  | step :: steps =>
      match totpCode secret (now + step * totpStep) with
      | None => false
      | Some want => if String.eqb want given then true else totp_loop secret given now steps
      end
  end.

Definition totpValid (secret given : string) (now : Z) : bool :=
  let given := TrimSpace given in
  if negb (String.length given =? totpDigits)%nat then false
  else totp_loop secret given now [-totpSkew; 0; totpSkew].

(** ** Recovery codes *)

Fixpoint remove_dashes (s : string) : string :=
  match s with
  | EmptyString => ""
  | String c s => if Ascii.eqb c "-" then remove_dashes s else String c (remove_dashes s)
  end.

Definition normaliseRecoveryCode (s : string) : string := ToLower (remove_dashes (TrimSpace s)).

Definition hashRecoveryCode (code : string) : string := hex (Sha.sha256 (to_bytes (normaliseRecoveryCode code))).

(** [code[:5] + "-" + code[5:]], as the operator is shown it. *)
Definition shown (raw : list Z) : string :=
  let code := hex raw in substring 0 5 code +:+ "-" +:+ substring 5 (String.length code - 5) code.

(** [newRecoveryCodes]: the codes and their hashes, from ten random draws. *)
Definition newRecoveryCodes (raws : list (list Z)) : list string * list string :=
  (map shown raws, map (λ raw, hashRecoveryCode (hex raw)) raws).

Fixpoint use_loop (want : string) (hashes : list string) (ok : bool) : list string * bool :=
  match hashes with
  | [] => ([], ok)
  | h :: hashes =>
      if negb ok && String.eqb h want then use_loop want hashes true
      else let x := use_loop want hashes ok in (h :: fst x, snd x)
  end.

Definition useRecoveryCode (hashes : list string) (given : string) : list string * bool :=
  use_loop (hashRecoveryCode given) hashes false.

(** The test vectors of RFC 6238, appendix B, to six digits. *)
Example rfc6238 :
  map (λ t, code_of (to_bytes "12345678901234567890") (Second * t)) [59; 1111111109; 1111111111; 1234567890; 2000000000; 20000000000] =
  ["287082"; "081804"; "050471"; "005924"; "279037"; "353130"].
Proof. by vm_compute. Qed.

End Totp.

Module TotpFacts.
Import Totp.

Lemma b32_char_letter d : 0 ≤ d < 32 → b32_letter (b32_char d) = true.
Proof. intros H. unfold b32_letter. by rewrite b32_value_char. Qed.

Lemma all_chars_of_list P (l : list ascii) : Forall (λ c, P c = true) l → all_chars P (string_of_list_ascii l).
Proof. intros H. unfold all_chars. by rewrite list_ascii_of_string_of_list_ascii. Qed.

Lemma b32_group_letters l : all_chars b32_letter (b32_group l).
Proof.
  unfold b32_group. apply all_chars_of_list, Forall_map, Forall_take.
  eapply Forall_impl; [apply digits32_range|]. apply b32_char_letter.
Qed.

Lemma b32_encode_letters f : ∀ l, all_chars b32_letter (b32_encode f l).
Proof.
  induction f as [|f IH]; intros l; [constructor|]. destruct l as [|b l]; [constructor|].
  cbn [b32_encode]. apply all_chars_app. split; [apply b32_group_letters|apply IH].
Qed.

Lemma ToUpper_letters s : all_chars b32_letter s → ToUpper s = s.
Proof.
  induction s as [|c s IH]; intros H; [done|]. apply all_chars_cons in H as [Hc H]. specialize (IH H).
  cbn [ToUpper]. rewrite IH. revert Hc. unfold b32_letter, b32_value.
  destruct c as [[] [] [] [] [] [] [] []]; vm_compute; intros; first [discriminate|reflexivity].
Qed.

Lemma letter_printable c : b32_letter c = true → printable c = true.
Proof. unfold b32_letter, b32_value. destruct c as [[] [] [] [] [] [] [] []]; cbn; done. Qed.

(** The secret shown on enrolment is the key, exactly. *)
Lemma enrolled_key raw : length raw = totpSecretBytes → bytes_ok raw →
  DecodeString (ToUpper (TrimSpace (newTOTPSecret raw))) = Some raw.
Proof.
  intros Hl Hok. assert (all_chars b32_letter (newTOTPSecret raw)) as HL by apply b32_encode_letters.
  rewrite TrimSpace_printable by (eapply all_chars_impl; [|exact HL]; apply letter_printable).
  rewrite ToUpper_letters by done. unfold newTOTPSecret, EncodeToString, DecodeString.
  destruct (b32_roundtrip 4 raw Hl Hok (length raw) 32) as (ds & E & Hd & D); [rewrite Hl; unfold totpSecretBytes; lia|lia|].
  rewrite E. cbn [fmap option_fmap option_map]. rewrite Hd. f_equal. exact D.
Qed.

Lemma format_digits_length n : ∀ fuel v acc, 0 ≤ v < 10 ^ Z.of_nat n → (0 < n)%nat →
  (String.length (format_digits fuel v acc) ≤ n + String.length acc)%nat.
Proof.
  induction n as [|n IH]; intros fuel v acc Hv Hn; [lia|]. destruct fuel as [|fuel]; cbn [format_digits]; [lia|].
  destruct (Z.eqb_spec (v `div` 10) 0); [cbn; lia|]. destruct n as [|n].
  { exfalso. assert (v `div` 10 = 0) by (apply Z.div_small; cbn in Hv; lia). done. }
  assert (0 ≤ v `div` 10 < 10 ^ Z.of_nat (S n)) as H.
  { rewrite (Nat2Z.inj_succ (S n)), Z.pow_succ_r in Hv by lia. revert Hv. generalize (10 ^ Z.of_nat (S n)). intros p Hv.
    split; [apply Z.div_pos; lia|apply Z.div_lt_upper_bound; lia]. }
  specialize (IH fuel (v `div` 10) (String (digit_char (v `mod` 10)) acc) H ltac:(lia)). cbn [String.length] in IH. lia.
Qed.

Lemma zero_padded_spec n v : 0 ≤ v < 10 ^ Z.of_nat n → (0 < n)%nat →
  String.length (zero_padded n v) = n ∧ all_chars is_digit (zero_padded n v).
Proof.
  intros Hv Hn. unfold zero_padded. pose proof (format_digits_length n 20 v "" Hv Hn) as H.
  change (format_digits 20 v "") with (FormatUint v) in H. change (String.length "") with 0%nat in H. split.
  - assert (∀ k s, String.length (zeros k s) = (k + String.length s)%nat) as Hk.
    { intros k s. induction k as [|k IH]; [done|]. cbn. by rewrite IH. }
    rewrite Hk. lia.
  - generalize (n - String.length (FormatUint v))%nat. intros k. induction k as [|k IH]; [apply FormatUint_digits; lia|].
    cbn. by apply all_chars_cons.
Qed.

Lemma code_spec key t : String.length (code_of key t) = totpDigits ∧ TrimSpace (code_of key t) = code_of key t.
Proof.
  destruct (zero_padded_spec totpDigits (truncated (hmac_sha1 key (counter t)) `mod` 10^6)) as [H1 H2].
  - apply Z.mod_pos_bound. lia.
  - unfold totpDigits. lia.
  - split; [exact H1|]. apply TrimSpace_printable. eapply all_chars_impl; [|exact H2].
    intros c. unfold is_digit, digit_value. destruct c as [[] [] [] [] [] [] [] []]; vm_compute; done.
Qed.

(** What [totpValid] accepts, for a secret that is base32. *)
Lemma totpValid_iff secret given now key : DecodeString (ToUpper (TrimSpace secret)) = Some key →
  totpValid secret given now = true ↔ ∃ k, k ∈ [-1; 0; 1] ∧ TrimSpace given = code_of key (now + k * totpStep).
Proof.
  intros Hk. unfold totpValid. assert (∀ steps, totp_loop secret (TrimSpace given) now steps = true ↔
    ∃ k, k ∈ steps ∧ TrimSpace given = code_of key (now + k * totpStep)) as HL.
  { induction steps as [|k steps IH]; cbn [totp_loop].
    - split; [done|]. by intros (k & ?%elem_of_nil & _).
    - unfold totpCode. rewrite Hk. cbn [mbind option_bind].
      destruct (String.eqb_spec (code_of key (now + k * totpStep)) (TrimSpace given)) as [E|E].
      + split; [|done]. intros _. exists k. split; [apply list_elem_of_here|done].
      + rewrite IH. split; intros (j & Hj & Ej); exists j; (split; [|done]); [by apply list_elem_of_further|].
        apply elem_of_cons in Hj as [->|Hj]; [congruence|done]. }
  change [-totpSkew; 0; totpSkew] with [-1; 0; 1]. destruct (Nat.eqb_spec (String.length (TrimSpace given)) totpDigits) as [E|E]; cbn [negb].
  - apply HL.
  - split; [done|]. intros (k & _ & Ek). rewrite Ek in E. destruct E. apply code_spec.
Qed.

Lemma counter_near t t' : totpStep ≤ t → totpStep ≤ t' → Z.abs (t - t') ≤ totpStep →
  ∃ k, k ∈ [-1; 0; 1] ∧ counter t = counter (t' + k * totpStep).
Proof.
  intros Ht Ht' Hd. unfold counter, Unix. set (q := t `div` totpStep). set (q' := t' `div` totpStep).
  assert (∀ s, 0 ≤ s → Z.quot (s `div` Second) 30 = s `div` totpStep) as HQ.
  { intros s Hs. rewrite Z.quot_div_nonneg by (try apply Z.div_pos; done || lia). rewrite Z.div_div by done. done. }
  assert (0 < totpStep) as Hp by done.
  assert (q' - 1 ≤ q ≤ q' + 1) as Hq.
  { unfold q, q'. pose proof (Z.div_mod t totpStep ltac:(done)). pose proof (Z.mod_pos_bound t totpStep Hp).
    pose proof (Z.div_mod t' totpStep ltac:(done)). pose proof (Z.mod_pos_bound t' totpStep Hp). nia. }
  exists (q - q'). split.
  - assert (q - q' = -1 ∨ q - q' = 0 ∨ q - q' = 1) as [-> | [-> | ->]] by lia; rewrite !elem_of_cons; auto.
  - rewrite !HQ by nia. do 2 f_equal. rewrite Z.div_add by lia. unfold q, q'. lia.
Qed.

(** An enrolled phone is let in. For any twenty random bytes, the base32
    secret the operator is shown is read back as exactly those bytes; the code
    an app computes from them is six digits long, and the panel accepts it
    whenever its own clock is within thirty seconds of the app's. What is
    accepted at all is the code of the present half minute or of one of the
    two beside it. *)
Theorem enrolled_phone_accepted raw t now given :
  length raw = totpSecretBytes → bytes_ok raw → totpStep ≤ t → totpStep ≤ now → Z.abs (t - now) ≤ totpStep →
  totpCode (newTOTPSecret raw) t = Some (code_of raw t) ∧ String.length (code_of raw t) = 6%nat ∧
  totpValid (newTOTPSecret raw) (code_of raw t) now = true ∧
  (totpValid (newTOTPSecret raw) given now = true ↔
     ∃ k, k ∈ [-1; 0; 1] ∧ totpCode (newTOTPSecret raw) (now + k * totpStep) = Some (TrimSpace given)).
Proof.
  intros Hl Hok Ht Hn Hd. pose proof (enrolled_key raw Hl Hok) as Hk. destruct (code_spec raw t) as [H6 HT].
  unfold totpCode. rewrite Hk. cbn [mbind option_bind]. split_and!; [done|done| |].
  - apply (totpValid_iff _ _ _ _ Hk). destruct (counter_near t now Ht Hn Hd) as (k & Hin & Ec).
    exists k. split; [done|]. rewrite HT. unfold code_of. rewrite Ec. reflexivity.
  - rewrite (totpValid_iff _ given now raw Hk). split; intros (k & Hin & E); exists k; (split; [done|congruence]).
Qed.

Lemma enrolled_phone_accepted_witness :
  let raw := to_bytes "12345678901234567890" in
  newTOTPSecret raw = "GEZDGNBVGY3TQOJQGEZDGNBVGY3TQOJQ" ∧
  totpValid (newTOTPSecret raw) "287082" (Second * 89) = true.
Proof.
  intros raw. split; [by vm_compute|].
  assert (code_of raw (Second * 59) = "287082") as E by (by vm_compute). rewrite <- E.
  refine (proj1 (proj2 (proj2 (enrolled_phone_accepted raw (Second * 59) (Second * 89) "" _ _ _ _ _)))).
  - by vm_compute.
  - apply (bool_decide_unpack _). by vm_compute.
  - by vm_compute.
  - by vm_compute.
  - by vm_compute.
Defined.

(** ** Lemmas: recovery codes *)

Lemma use_loop_spent want hashes : use_loop want hashes true = (hashes, true).
Proof. induction hashes as [|h hs IH]; [done|]. cbn [use_loop negb andb]. by rewrite IH. Qed.

(** One use: the matching hash goes, if there is one, and nothing else. *)
Lemma useRecoveryCode_spec hashes given : NoDup hashes →
  useRecoveryCode hashes given =
    (filter (λ h, h ≠ hashRecoveryCode given) hashes, bool_decide (hashRecoveryCode given ∈ hashes)).
Proof.
  unfold useRecoveryCode. generalize (hashRecoveryCode given). intros want. 
  induction 1 as [|h hs Hh _ IH]; [done|]. cbn [use_loop negb andb]. rewrite filter_cons.
  destruct (String.eqb_spec h want) as [->|Hne].
  - rewrite use_loop_spent, decide_False by auto. f_equal.
    + clear IH. induction hs as [|x hs IH]; [done|]. rewrite filter_cons.
      apply not_elem_of_cons in Hh as [Hx Hh]. rewrite decide_True by done. by rewrite <- IH.
    + symmetry. apply bool_decide_eq_true. apply list_elem_of_here.
  - rewrite IH, decide_True by done. cbn [fst snd]. f_equal. apply bool_decide_ext. rewrite elem_of_cons. naive_solver.
Qed.

Definition hex_char (c : ascii) : bool :=
  let n := Z.of_nat (nat_of_ascii c) in (48 <=? n) && (n <=? 57) || (97 <=? n) && (n <=? 102).

Lemma hex_digit_char d : 0 ≤ d < 16 → hex_char (hex_digit d) = true.
Proof.
  intros Hd. assert (Forall (λ d, hex_char (hex_digit d) = true) (map Z.of_nat (seq 0 16))) as H
    by (apply (bool_decide_unpack _); by vm_compute).
  rewrite Forall_forall in H. apply H, list_elem_of_In, in_map_iff. exists (Z.to_nat d). split; [lia|]. apply in_seq. lia.
Qed.

Lemma hex_chars l : bytes_ok l → all_chars hex_char (hex l).
Proof.
  induction 1 as [|b l Hb _ IH]; [constructor|]. cbn [hex]. rewrite !all_chars_cons. unfold byte_ok in Hb.
  split_and!; [apply hex_digit_char|apply hex_digit_char|done].
  - split; [apply Z.div_pos; lia|apply Z.div_lt_upper_bound; lia].
  - apply Z.mod_pos_bound. lia.
Qed.

Lemma normalise_hex s : all_chars hex_char s → remove_dashes s = s ∧ ToLower s = s.
Proof.
  induction s as [|c s IH]; intros H; [done|]. apply all_chars_cons in H as [Hc H]. destruct (IH H) as [E1 E2].
  cbn [remove_dashes ToLower]. rewrite E1, E2. revert Hc.
  destruct c as [[] [] [] [] [] [] [] []]; vm_compute; intros; first [discriminate|done].
Qed.

Lemma remove_dashes_app s t : remove_dashes (s +:+ t) = remove_dashes s +:+ remove_dashes t.
Proof. induction s as [|c s IH]; [done|]. cbn. destruct (Ascii.eqb c "-"); [done|]. cbn. by rewrite IH. Qed.

(** A code as shown and a code as hashed are the same code. *)
Lemma shown_normal raw : length raw = 5%nat → bytes_ok raw → hashRecoveryCode (shown raw) = hashRecoveryCode (hex raw).
Proof.
  intros Hl Hok. unfold hashRecoveryCode. do 3 f_equal. unfold normaliseRecoveryCode.
  destruct raw as [|a [|b [|c [|d [|e [|]]]]]]; try done. pose proof (hex_chars _ Hok) as HX.
  cbn [hex] in HX |- *. unfold shown. cbn [hex String.length substring Nat.sub].
  repeat (apply all_chars_cons in HX as [? HX]).
  assert (∀ s, all_chars (λ c, hex_char c || Ascii.eqb c "-") s → TrimSpace s = s) as HT.
  { intros s Hs. apply TrimSpace_printable. eapply all_chars_impl; [|exact Hs].
    intros x. destruct x as [[] [] [] [] [] [] [] []]; vm_compute; done. }
  rewrite !HT.
  - assert (∀ x, hex_char x = true → Ascii.eqb x "-" = false) as HD.
    { intros x. destruct x as [[] [] [] [] [] [] [] []]; vm_compute; done. }
    cbn [String.append remove_dashes]. rewrite !HD by done. reflexivity.
  - unfold all_chars. cbn [list_ascii_of_string]. rewrite !Forall_cons, Forall_nil. rewrite !orb_true_iff. tauto.
  - unfold all_chars. cbn [String.append list_ascii_of_string]. rewrite !Forall_cons, Forall_nil. rewrite !orb_true_iff. tauto.
Qed.

(** A recovery code works once, and every code shown works. Each code of a
    fresh set is accepted however it is typed (case, spaces and the dash do not
    matter); accepting it removes its hash and no other, so that from then on
    no spelling of it is accepted, while every other code still is; a code
    that is not one of them changes nothing. *)
Theorem recovery_code_once raws i raw typed :
  Forall (λ r, length r = 5%nat ∧ bytes_ok r) raws → NoDup (snd (newRecoveryCodes raws)) → raws !! i = Some raw →
  normaliseRecoveryCode typed = normaliseRecoveryCode (shown raw) →
  let hashes := snd (newRecoveryCodes raws) in
  let left := fst (useRecoveryCode hashes typed) in
  snd (useRecoveryCode hashes typed) = true ∧ S (length left) = length hashes ∧
  (∀ again, normaliseRecoveryCode again = normaliseRecoveryCode typed → useRecoveryCode left again = (left, false)) ∧
  (∀ j other, j ≠ i → raws !! j = Some other → snd (useRecoveryCode left (shown other)) = true) ∧
  (∀ wrong, hashRecoveryCode wrong ∉ hashes → useRecoveryCode hashes wrong = (hashes, false)).
Proof.
  intros Hok Hnd Hi Ht hashes left. assert (hashRecoveryCode typed = hashRecoveryCode (hex raw)) as Eh.
  { destruct (Forall_lookup_1 _ _ _ _ Hok Hi) as [H1 H2]. rewrite <- (shown_normal raw) by done. unfold hashRecoveryCode. by rewrite Ht. }
  assert (∀ k r, raws !! k = Some r → hashes !! k = Some (hashRecoveryCode (hex r))) as Hlook.
  { intros k r Hk. unfold hashes. cbn [snd newRecoveryCodes]. change (map ?f raws) with (f <$> raws). by rewrite list_lookup_fmap, Hk. }
  assert (hashRecoveryCode typed ∈ hashes) as Hin by (rewrite Eh; eapply list_elem_of_lookup_2; by apply Hlook).
  unfold left. rewrite useRecoveryCode_spec by done. cbn [fst snd].
  assert (NoDup (filter (λ h, h ≠ hashRecoveryCode typed) hashes)) as Hnd' by (by apply NoDup_filter).
  assert (∀ want, want ∉ hashes → filter (λ h, h ≠ want) hashes = hashes) as Hnone.
  { intros want Hw. clear -Hw. induction hashes as [|h hs IH]; [done|]. apply not_elem_of_cons in Hw as [? ?].
    rewrite filter_cons, decide_True by auto. f_equal. by apply IH. }
  split_and!.
  - by apply bool_decide_eq_true.
  - fold hashes in Hnd. clear -Hin Hnd. revert Hin. generalize (hashRecoveryCode typed). intros want Hin.
    induction Hnd as [|h hs Hh Hnd IH]; [by apply elem_of_nil in Hin|]. rewrite filter_cons. destruct (decide (h ≠ want)) as [Hne|He].
    + apply elem_of_cons in Hin as [?|Hin]; [by destruct Hne|]. cbn. by rewrite IH.
    + apply dec_stable in He as ->. cbn. f_equal. clear IH Hnd Hin. induction hs as [|x hs IH]; [done|].
      apply not_elem_of_cons in Hh as [Hx Hh]. rewrite filter_cons, decide_True by auto. cbn. by rewrite IH.
  - intros again Ha. rewrite useRecoveryCode_spec by done. assert (hashRecoveryCode again = hashRecoveryCode typed) as ->
      by (unfold hashRecoveryCode; by rewrite Ha).
    f_equal.
    + rewrite list_filter_filter. apply list_filter_iff. intros x. tauto.
    + apply bool_decide_eq_false. intros [? _]%list_elem_of_filter. done.
  - intros j other Hj Ho. rewrite useRecoveryCode_spec by done. cbn [snd]. apply bool_decide_eq_true.
    destruct (Forall_lookup_1 _ _ _ _ Hok Ho) as [H1 H2]. rewrite shown_normal by done.
    apply list_elem_of_filter. split; [|eapply list_elem_of_lookup_2; by apply Hlook]. rewrite Eh. intros E.
    apply Hj. eapply NoDup_lookup; [exact Hnd|apply Hlook; exact Ho|]. rewrite E. by apply Hlook.
  - intros wrong Hw. rewrite useRecoveryCode_spec by done. f_equal; [by apply Hnone|by apply bool_decide_eq_false].
Qed.

Lemma recovery_code_once_witness :
  let raws := [[1; 2; 3; 4; 5]; [171; 205; 239; 0; 17]] in
  let hashes := snd (newRecoveryCodes raws) in
  fst (newRecoveryCodes raws) = ["01020-30405"; "abcde-f0011"] ∧
  snd (useRecoveryCode hashes " ABCDEF0011 ") = true ∧
  useRecoveryCode (fst (useRecoveryCode hashes " ABCDEF0011 ")) "abcde-f0011" =
    (fst (useRecoveryCode hashes " ABCDEF0011 "), false).
Proof.
  intros raws hashes. split; [by vm_compute|].
  destruct (recovery_code_once raws 1 [171; 205; 239; 0; 17] " ABCDEF0011 ") as (H1 & _ & H2 & _).
  - apply (bool_decide_unpack _). by vm_compute.
  - apply (bool_decide_unpack _). by vm_compute.
  - done.
  - by vm_compute.
  - split; [exact H1|]. apply H2. by vm_compute.
Defined.

End TotpFacts.
