(* ===== verification/Access.v ===== *)
(** Who may do what through the web panel: scopes and API tokens,
    [src/internal/webui/access.go] (Module [Access]). The token file is the
    list of tokens; the clock, the random bytes and whether the file could be
    written are arguments. Times are seconds where the code keeps seconds. *)

From Stdlib Require Import Ascii String.
From S2P Require Import Prelude GoStr GoHash.
Import GoStr.
Open Scope string_scope.
Open Scope list_scope.
Open Scope Z_scope.

Module Access.

Definition Second : Z := 1000 * 1000 * 1000.
Definition Unix (t : Z) : Z := t `div` Second.

Inductive Scope : Type := ScopeRead | ScopeWrite | ScopeAdmin.

#[export] Instance Scope_eq_dec : EqDecision Scope.
Proof. solve_decision. Defined.

(** Scopes are integers in the code, in this order. *)
Definition rank (s : Scope) : Z := match s with ScopeRead => 0 | ScopeWrite => 1 | ScopeAdmin => 2 end.

Definition String_ (s : Scope) : string :=
  match s with ScopeRead => "read" | ScopeWrite => "write" | ScopeAdmin => "admin" end.

(** [ParseScope]; [None] is its error. *)
Definition ParseScope (text : string) : option Scope :=
  let t := ToLower (TrimSpace text) in
  if bool_decide (t ∈ ["read"; "readonly"; "read-only"; "ro"]) then Some ScopeRead
  else if bool_decide (t ∈ ["write"; "rw"]) then Some ScopeWrite
  else if bool_decide (t ∈ ["admin"; "owner"]) then Some ScopeAdmin
  else None.

Record APIToken : Type := mkToken {
  Name : string;
  Hash : string;
  scope : Scope;
  Created : Z;
  Expires : Z;
  LastUsed : Z
}.

Definition Expired (t : APIToken) (now : Z) : bool := Expires t <=? Unix now.

Definition hashToken (secret : string) : string := hex (Sha.sha256 (to_bytes secret)).

(** [base64.RawURLEncoding.EncodeToString]: six bits a character, a last group
    of one or two bytes cut to two or three. *)
Definition b64_char (d : Z) : ascii :=
  match String.get (Z.to_nat d) "ABCDEFGHIJKLMNOPQRSTUVWXYZabcdefghijklmnopqrstuvwxyz0123456789-_" with
  | Some c => c
  | None => "A"%char
  end.

Fixpoint base64url (l : list Z) : string :=
  match l with
  | a :: b :: c :: l =>
      String (b64_char (a `div` 4)) (String (b64_char (a `mod` 4 * 16 + b `div` 16))
        (String (b64_char (b `mod` 16 * 4 + c `div` 64)) (String (b64_char (c `mod` 64)) (base64url l))))
  | [a; b] => String (b64_char (a `div` 4)) (String (b64_char (a `mod` 4 * 16 + b `div` 16)) (String (b64_char (b `mod` 16 * 4)) ""))
  | [a] => String (b64_char (a `div` 4)) (String (b64_char (a `mod` 4 * 16)) "")
  | [] => ""
  end.

Inductive tokenError : Type := Unnamed | NoExpiry | AlreadyCalled (name : string) | NotSaved | NoToken (name : string).

(** [IssueToken]: the tokens after, and the secret with its token. *)
Definition IssueToken (s : list APIToken) (name : string) (sc : Scope) (ttl : Z) (raw : list Z) (now : Z) (saved : bool) :
    list APIToken * result tokenError (string * APIToken) :=
  let name := TrimSpace name in
  if String.eqb name "" then (s, Err Unnamed)
  else if ttl <=? 0 then (s, Err NoExpiry)
  else
    let secret := base64url raw in
    let tok := mkToken name (hashToken secret) sc (Unix now) (Unix (now + ttl)) 0 in
    if existsb (λ t, String.eqb (Name t) name) s then (s, Err (AlreadyCalled name))
    else if saved then (s ++ [tok], Ok (secret, tok)) else (s, Err NotSaved).

(** [RevokeToken]; [None] is no error. *)
Definition RevokeToken (s : list APIToken) (name : string) (saved : bool) : list APIToken * option tokenError :=
  if existsb (λ t, String.eqb (Name t) name) s then
    if saved then (filter (λ t, Name t ≠ name) s, None) else (s, Some NotSaved)
  else (s, Some (NoToken name)).

(** The loop of [checkToken]: the last match wins. *)
Fixpoint check_loop (want : string) (now : Z) (s : list APIToken) (found : option APIToken) : option APIToken :=
  match s with
  | [] => found
  | t :: s =>
      if negb (String.eqb (Hash t) want) then check_loop want now s found
      else if Expired t now then check_loop want now s found
      else check_loop want now s (Some t)
  end.

Definition used (t : APIToken) (now : Z) : APIToken :=
  mkToken (Name t) (Hash t) (scope t) (Created t) (Expires t) (Unix now).

(** [noteTokenUse]. *)
Fixpoint noteTokenUse (s : list APIToken) (name : string) (now : Z) (saved : bool) : list APIToken :=
  match s with
  | [] => []
  | t :: s' =>
      if negb (String.eqb (Name t) name) then t :: noteTokenUse s' name now saved
      else if Unix now - LastUsed t <? 60 then s
      else if saved then used t now :: s' else s
  end.

Definition checkToken (s : list APIToken) (secret : string) (now : Z) (saved : bool) : list APIToken * option APIToken :=
  if String.eqb secret "" then (s, None)
  else
    match check_loop (hashToken secret) now s None with
    | Some t => (noteTokenUse s (Name t) now saved, Some t)
    | None => (s, None)
    end.

(** [bearer], of the [Authorization] header. *)
Definition bearer (authorization : string) : string :=
  if String.eqb authorization "" then ""
  else match strip_prefix "Bearer " authorization with Some rest => TrimSpace rest | None => "" end.

(** ** Lemmas *)

(** What a token grants, apart from when it was last used. *)
Definition grant (t : APIToken) : string * string * Scope * Z * Z := (Name t, Hash t, scope t, Created t, Expires t).

Lemma noteTokenUse_grants s name now saved : map grant (noteTokenUse s name now saved) = map grant s.
Proof.
  induction s as [|t s IH]; [done|]. cbn [noteTokenUse]. destruct (negb _); cbn [map]; [by rewrite IH|].
  destruct (_ <? 60); [done|]. by destruct saved.
Qed.

Lemma checkToken_grants s secret now saved : map grant (fst (checkToken s secret now saved)) = map grant s.
Proof.
  unfold checkToken. destruct (String.eqb secret ""); [done|]. destruct (check_loop _ _ _ _); [|done]. apply noteTokenUse_grants.
Qed.

Lemma check_loop_spec want now s : ∀ found,
  check_loop want now s found =
    match last (filter (λ t, Hash t = want ∧ Expired t now = false) s) with Some t => Some t | None => found end.
Proof.
  induction s as [|t s IH]; intros found; [done|]. cbn [check_loop]. rewrite filter_cons.
  destruct (String.eqb_spec (Hash t) want) as [E|E]; cbn [negb].
  - destruct (Expired t now) eqn:Ee; rewrite IH.
    + by rewrite decide_False by (by intros [_ ?]).
    + rewrite decide_True by done. rewrite last_cons. by destruct (last _).
  - rewrite IH, decide_False; [done|]. by intros [? _].
Qed.

(** A secret opens exactly what an unexpired token with its hash grants. *)
Lemma checkToken_spec s secret now saved :
  snd (checkToken s secret now saved) =
    if String.eqb secret "" then None
    else last (filter (λ t, Hash t = hashToken secret ∧ Expired t now = false) s).
Proof.
  unfold checkToken. destruct (String.eqb secret ""); [done|]. rewrite check_loop_spec.
  by destruct (last _).
Qed.

Lemma existsb_name s name : existsb (λ t, String.eqb (Name t) name) s = bool_decide (name ∈ map Name s).
Proof.
  induction s as [|t s IH]; [done|]. cbn [existsb map]. rewrite IH.
  destruct (String.eqb_spec (Name t) name) as [->|Hn]; cbn [orb].
  - symmetry. apply bool_decide_eq_true, list_elem_of_here.
  - apply bool_decide_ext. rewrite elem_of_cons. naive_solver.
Qed.

Lemma base64url_nonempty l : l ≠ [] → base64url l ≠ "".
Proof. destruct l as [|a [|b [|c l]]]; done. Qed.

Lemma last_none {A} (P : A → Prop) `{!∀ x, Decision (P x)} l : (∀ x, x ∈ l → ¬ P x) → last (filter P l) = None.
Proof.
  intros HP. assert (filter P l = []) as ->; [|done]. induction l as [|x l IH]; [done|].
  rewrite filter_cons, decide_False by (apply HP, list_elem_of_here). apply IH. intros y Hy. apply HP. by apply list_elem_of_further.
Qed.

(** The life of a token. A token is issued only under a name no other has
    and with an expiry; its secret then opens its scope until that second and
    not from it on; the other secrets open what they did; and once it is
    revoked its secret opens nothing, whatever was done with it before. *)
Theorem token_lifecycle s name sc ttl raw now :
  NoDup (map Name s) → raw ≠ [] → (∀ t, t ∈ s → Hash t ≠ hashToken (base64url raw)) →
  match IssueToken s name sc ttl raw now true with
  | (s', Err e) => s' = s ∧
      (e = Unnamed ∧ TrimSpace name = "" ∨ e = NoExpiry ∧ ttl ≤ 0 ∨ e = AlreadyCalled (TrimSpace name) ∧ TrimSpace name ∈ map Name s)
  | (s', Ok (secret, tok)) =>
      NoDup (map Name s') ∧
      (∀ later saved, snd (checkToken s' secret later saved) = if Unix later <? Unix (now + ttl) then Some tok else None) ∧
      scope tok = sc ∧
      (∀ other later saved, hashToken other ≠ hashToken secret →
         snd (checkToken s' other later saved) = snd (checkToken s other later saved)) ∧
      (∀ t1 saved1, let s1 := fst (checkToken s' secret t1 saved1) in
         snd (RevokeToken s1 (Name tok) true) = None ∧
         ∀ later saved, snd (checkToken (fst (RevokeToken s1 (Name tok) true)) secret later saved) = None)
  end.
Proof.
  intros Hnd Hraw Hfresh. unfold IssueToken. destruct (String.eqb_spec (TrimSpace name) ""); [split; [done|by left]|].
  destruct (Z.leb_spec ttl 0); [split; [done|by right; left]|].
  rewrite existsb_name. case_bool_decide as Hn; [split; [done|by right; right]|].
  set (tok := mkToken (TrimSpace name) _ sc _ _ 0). set (secret := base64url raw).
  assert (String.eqb secret "" = false) as Es by (apply String.eqb_neq; by apply base64url_nonempty).
  assert (∀ later saved s0, (∀ t, t ∈ s0 → Hash t ≠ hashToken secret) → snd (checkToken s0 secret later saved) = None) as Hnone.
  { intros later saved s0 H0. rewrite checkToken_spec, Es. apply last_none. intros t Ht [E _]. by eapply H0. }
  split_and!.
  - rewrite map_app, NoDup_app. split_and!; [done| |apply NoDup_singleton]. intros x Hx. cbn. by intros ->%list_elem_of_singleton.
  - intros later saved. rewrite checkToken_spec, Es, filter_app. rewrite filter_cons.
    assert (Expired tok later = negb (Unix later <? Unix (now + ttl))) as Ee.
    { unfold Expired. cbn [Expires tok]. destruct (Z.ltb_spec (Unix later) (Unix (now + ttl))), (Z.leb_spec (Unix (now + ttl)) (Unix later)); done || lia. }
    destruct (Unix later <? Unix (now + ttl)) eqn:El; cbn [negb] in Ee.
    + rewrite decide_True by done. cbn [filter list_filter]. by rewrite last_snoc.
    + rewrite decide_False by (rewrite Ee; by intros [_ ?]). cbn [filter list_filter]. rewrite app_nil_r.
      apply last_none. intros t Ht [E _]. by apply (Hfresh t).
  - done.
  - intros other later saved Ho. rewrite !checkToken_spec. destruct (String.eqb other ""); [done|].
    rewrite filter_app, filter_cons, decide_False; [by rewrite app_nil_r|]. intros [E _]. by apply Ho.
  - intros t1 saved1. cbv zeta. set (s1 := fst (checkToken (s ++ [tok]) secret t1 saved1)). assert (map grant s1 = map grant (s ++ [tok])) as Hg by apply checkToken_grants.
    assert (map Name s1 = map Name (s ++ [tok]) ∧ ∀ t, t ∈ s1 → ∃ t', t' ∈ s ++ [tok] ∧ grant t' = grant t) as [HN HG].
    { split.
      - apply (f_equal (map (λ g : string * string * Scope * Z * Z, let '(n, _, _, _, _) := g in n))) in Hg. by rewrite !map_map in Hg.
      - intros t Ht. assert (grant t ∈ map grant s1) as Hin by (apply list_elem_of_In, in_map, list_elem_of_In, Ht).
        rewrite Hg in Hin. apply list_elem_of_In, in_map_iff in Hin as (t' & E & Ht'). exists t'. split; [by apply list_elem_of_In|done]. }
    unfold RevokeToken. rewrite existsb_name, HN. rewrite bool_decide_eq_true_2.
    2:{ rewrite map_app. apply elem_of_app. right. apply list_elem_of_here. }
    split; [done|]. cbn [fst]. intros later saved. apply Hnone. intros t [Hne Ht]%list_elem_of_filter E.
    destruct (HG t Ht) as (t' & Ht' & Eg). injection Eg as En Eh _ _ _. apply elem_of_app in Ht' as [Ht'|Ht'%list_elem_of_singleton].
    + apply (Hfresh t' Ht'). by rewrite Eh.
    + apply Hne. by rewrite <- En, Ht'.
Qed.

Lemma token_lifecycle_witness :
  let raw := [0; 1; 2; 250; 251] in
  base64url raw = "AAEC-vs" ∧
  snd (checkToken [mkToken "prometheus" (hashToken "AAEC-vs") ScopeRead 0 90 0] "AAEC-vs" (89 * Second) true) =
    Some (mkToken "prometheus" (hashToken "AAEC-vs") ScopeRead 0 90 0).
Proof.
  intros raw. split; [by vm_compute|].
  assert (NoDup (map Name [])) as H1 by constructor. assert (raw ≠ []) as H2 by discriminate.
  assert (∀ t, t ∈ [] → Hash t ≠ hashToken (base64url raw)) as H3 by (intros t Ht; exfalso; apply elem_of_nil in Ht; exact Ht).
  pose proof (token_lifecycle [] " prometheus" ScopeRead (90 * Second) raw 0 H1 H2 H3) as H.
  assert (IssueToken [] " prometheus" ScopeRead (90 * Second) raw 0 true =
    ([mkToken "prometheus" (hashToken "AAEC-vs") ScopeRead 0 90 0],
     Ok ("AAEC-vs", mkToken "prometheus" (hashToken "AAEC-vs") ScopeRead 0 90 0))) as E by (vm_compute; reflexivity).
  rewrite E in H. exact (proj1 (proj2 H) (89 * Second) true).
Defined.

End Access.
