(* ===== verification/AuditLog.v ===== *)
(** The record of what was done through the web panel, [src/internal/webui/audit.go]
    (Module [Audit]), and the part of [encoding/json] it is hashed and stored
    with (Module [Json]). The record is a hash chain: every entry carries the
    hash of the one before, and its own covers that.

    JSON is written byte by byte as Go writes it (Go 1.26, the default
    [encoding/json]): what is not UTF-8 becomes the escape of U+FFFD, and what
    is read back is U+FFFD itself. *)

From Stdlib Require Import Ascii String.
From S2P Require Import Prelude GoStr GoHash.
Import GoStr.
Open Scope string_scope.
Open Scope list_scope.
Open Scope Z_scope.

Module Json.

Definition byte (a : ascii) : Z := Z.of_nat (nat_of_ascii a).

(** How many bytes the rune at the head of a string takes, by the tables of
    [unicode/utf8]; zero for a byte that starts none. *)
Definition within (lo hi : Z) (s : string) : bool :=
  match s with String a _ => (lo <=? byte a) && (byte a <=? hi) | EmptyString => false end.

Definition after (s : string) : string := match s with String _ s => s | EmptyString => "" end.

Definition rune_len (s : string) : nat :=
  match s with
  | EmptyString => 0
  | String a s1 =>
      let b := byte a in
      let s2 := after s1 in
      let s3 := after s2 in
      let second :=
        if b =? 224 then within 160 191 s1 else if b =? 237 then within 128 159 s1
        else if b =? 240 then within 144 191 s1 else if b =? 244 then within 128 143 s1
        else within 128 191 s1 in
      if b <? 128 then 1
      else if (194 <=? b) && (b <=? 223) then (if second then 2 else 0)
      else if (224 <=? b) && (b <=? 239) then (if second && within 128 191 s2 then 3 else 0)
      else if (240 <=? b) && (b <=? 244) then (if second && within 128 191 s2 && within 128 191 s3 then 4 else 0)
      else 0
  end.

(** A string as it is read back: each byte that is no UTF-8 is U+FFFD. The
    first [k] bytes belong to a rune already begun. *)
Definition replacement : string := of_bytes [239; 191; 189].

Fixpoint sanitize (k : nat) (s : string) : string :=
  match s with
  | EmptyString => ""
  | String a s' =>
      match k with
      | S k => String a (sanitize k s')
      | O =>
          match rune_len s with
          | O => replacement +:+ sanitize 0 s'
          | S k => String a (sanitize k s')
          end
      end
  end.

Definition utf8 (s : string) : Prop := sanitize 0 s = s.
#[export] Instance utf8_dec s : Decision (utf8 s).
Proof. unfold utf8. apply _. Defined.

Definition quote : ascii := "034".
Definition backslash : ascii := "092".

(** One ASCII byte of a string, HTML escaping on. *)
Definition escape_ascii (a : ascii) : string :=
  let b := byte a in
  if (b =? 34) || (b =? 92) then String backslash (String a "")
  else if b =? 8 then String backslash "b"
  else if b =? 12 then String backslash "f"
  else if b =? 10 then String backslash "n"
  else if b =? 13 then String backslash "r"
  else if b =? 9 then String backslash "t"
  else if (b <? 32) || (b =? 60) || (b =? 62) || (b =? 38) then String backslash ("u00" +:+ hex [b])
  else String a "".

Fixpoint escape (k : nat) (s : string) : string :=
  match s with
  | EmptyString => ""
  | String a s' =>
      match k with
      | S k => String a (escape k s')
      | O =>
          if byte a <? 128 then escape_ascii a +:+ escape 0 s'
          else
            match rune_len s with
            | O => String backslash "ufffd" +:+ escape 0 s'
            | S k =>
                match s with
                | String "226" (String "128" (String "168" r)) => String backslash "u2028" +:+ escape 0 r
                | String "226" (String "128" (String "169" r)) => String backslash "u2029" +:+ escape 0 r
                | _ => String a (escape k s')
                end
            end
      end
  end.

(** A JSON string. *)
Definition quoted (s : string) : string := String quote (escape 0 s +:+ String quote "").

(** A member, with the comma that is before all but the first. *)
Definition member (comma : bool) (key value : string) : string :=
  (if comma then "," else "") +:+ String quote (key +:+ String quote (":" +:+ value)).

Definition member_omitempty (key s : string) : string :=
  if String.eqb s "" then "" else member true key (quoted s).

(** ** Reading it back *)

Definition hex_value (a : ascii) : option Z :=
  let b := byte a in
  if (48 <=? b) && (b <=? 57) then Some (b - 48)
  else if (97 <=? b) && (b <=? 102) then Some (b - 87) else None.

(** The rune of [\uXXXX], in UTF-8. *)
Definition utf8_of (r : Z) : string :=
  if r <? 128 then of_bytes [r]
  else if r <? 2048 then of_bytes [192 + r `div` 64; 128 + r `mod` 64]
  else of_bytes [224 + r `div` 4096; 128 + (r `div` 64) `mod` 64; 128 + r `mod` 64].

Definition unescaped (a : ascii) : string :=
  if Ascii.eqb a "b" then of_bytes [8] else if Ascii.eqb a "f" then of_bytes [12]
  else if Ascii.eqb a "n" then of_bytes [10] else if Ascii.eqb a "r" then of_bytes [13]
  else if Ascii.eqb a "t" then of_bytes [9] else String a "".

(** A string up to its closing quote, and the rest. *)
Fixpoint unquote (s : string) : option (string * string) :=
  match s with
  | EmptyString => None
  | String a s1 =>
      if Ascii.eqb a quote then Some ("", s1)
      else if Ascii.eqb a backslash then
        match s1 with
        | String "u" (String h1 (String h2 (String h3 (String h4 s5)))) =>
            match hex_value h1, hex_value h2, hex_value h3, hex_value h4 with
            | Some d1, Some d2, Some d3, Some d4 =>
                match unquote s5 with
                | Some (x, r) => Some (utf8_of (((d1 * 16 + d2) * 16 + d3) * 16 + d4) +:+ x, r)
                | None => None
                end
            | _, _, _, _ => None
            end
        | String c s2 => match unquote s2 with Some (x, r) => Some (unescaped c +:+ x, r) | None => None end
        | EmptyString => None
        end
      else match unquote s1 with Some (x, r) => Some (String a x, r) | None => None end
  end.

(** A number up to the comma or brace after it. *)
Definition numeric (a : ascii) : bool := is_digit a || Ascii.eqb a "-".

Fixpoint span_number (s : string) : string * string :=
  match s with
  | String a s' => if numeric a then (String a (fst (span_number s')), snd (span_number s')) else ("", s)
  | EmptyString => ("", "")
  end.

Definition read_number (s : string) : option (Z * string) :=
  n ← Atoi (fst (span_number s)); Some (n, snd (span_number s)).

Definition read_string (s : string) : option (string * string) := s ← strip_prefix (String quote "") s; unquote s.

Definition key_of (comma : bool) (key : string) : string := member comma key "".

(** A member that may be absent. *)
Definition read_optional {A} (key : string) (zero : A) (read : string → option (A * string)) (s : string) :
    option (A * string) :=
  match strip_prefix (key_of true key) s with Some s => read s | None => Some (zero, s) end.

(** ** Lemmas *)

(** The bytes still to be copied of a rune are not ASCII. *)
Fixpoint continues (k : nat) (s : string) : Prop :=
  match k, s with
  | S k, String a s => 128 ≤ byte a ∧ continues k s
  | S _, EmptyString => False
  | O, _ => True
  end.

Lemma unquote_raw a s : 128 ≤ byte a →
  unquote (String a s) = match unquote s with Some (x, r) => Some (String a x, r) | None => None end.
Proof.
  intros H. cbn [unquote]. destruct (Ascii.eqb_spec a quote) as [->|]; [by vm_compute in H|].
  destruct (Ascii.eqb_spec a backslash) as [->|]; [by vm_compute in H|]. done.
Qed.

Lemma unquote_ascii a s : byte a < 128 →
  unquote (escape_ascii a +:+ s) = match unquote s with Some (x, r) => Some (String a x, r) | None => None end.
Proof.
  intros H. destruct a as [[] [] [] [] [] [] [] []]; try (by vm_compute in H); clear H;
    cbn -[unquote]; cbn [unquote]; cbn; by destruct (unquote s) as [[x r]|].
Qed.

Lemma within_cont lo hi s : 128 ≤ lo → within lo hi s = true → ∃ a t, s = String a t ∧ 128 ≤ byte a.
Proof. intros Hlo. destruct s as [|a t]; cbn [within]; [done|]. intros H. bool_to_prop. exists a, t. split; [done|lia]. Qed.

Lemma rune_continues a s k : 128 ≤ byte a → rune_len (String a s) = S k → continues k s.
Proof.
  intros Ha. cbn [rune_len]. destruct (Z.ltb_spec (byte a) 128); [lia|].
  set (second := if byte a =? 224 then _ else _).
  assert (second = true → ∃ b t, s = String b t ∧ 128 ≤ byte b) as Hs.
  { unfold second. repeat match goal with |- context [if ?c then _ else _] => destruct c end; by apply within_cont. }
  destruct ((194 <=? byte a) && (byte a <=? 223)).
  - destruct second; [|done]. intros [= <-]. destruct (Hs eq_refl) as (b & t & -> & Hb). by split.
  - destruct ((224 <=? byte a) && (byte a <=? 239)).
    + destruct second; [|done]. destruct (Hs eq_refl) as (b & t & -> & Hb). cbn [after andb].
      destruct (within 128 191 t) eqn:E2; [|done]. intros [= <-].
      destruct (within_cont 128 191 t ltac:(lia) E2) as (c & u & -> & Hc). by split_and!.
    + destruct ((240 <=? byte a) && (byte a <=? 244)); [|done].
      destruct second; [|done]. destruct (Hs eq_refl) as (b & t & -> & Hb). cbn [after andb].
      destruct (within 128 191 t) eqn:E2; [|done]. destruct (within_cont 128 191 t ltac:(lia) E2) as (c & u & -> & Hc).
      cbn [after andb]. destruct (within 128 191 u) eqn:E3; [|done]. intros [= <-].
      destruct (within_cont 128 191 u ltac:(lia) E3) as (d & v & -> & Hd). by split_and!.
Qed.

Lemma unquote_fffd r : unquote (String backslash "ufffd" +:+ r) =
  match unquote r with Some (x, r) => Some (replacement +:+ x, r) | None => None end.
Proof. cbn -[unquote]. cbn [unquote]. cbn. by destruct (unquote r) as [[x ?]|]. Qed.

Lemma unquote_line r :
  unquote (String backslash "u2028" +:+ r) =
    match unquote r with Some (x, r) => Some (String "226" (String "128" (String "168" x)), r) | None => None end ∧
  unquote (String backslash "u2029" +:+ r) =
    match unquote r with Some (x, r) => Some (String "226" (String "128" (String "169" x)), r) | None => None end.
Proof. split; cbn -[unquote]; cbn [unquote]; cbn; by destruct (unquote r) as [[x ?]|]. Qed.

(** One rune that is not ASCII: as it is, except for the two line separators. *)
Lemma escape_rune a s k : 128 ≤ byte a → rune_len (String a s) = S k →
  escape 0 (String a s) = String a (escape k s) ∨
  ∃ b r, (b = "168"%char ∨ b = "169"%char) ∧ String a s = String "226" (String "128" (String b r)) ∧ k = 2%nat ∧
    escape 0 (String a s) = String backslash (if Ascii.eqb b "168" then "u2028" else "u2029") +:+ escape 0 r.
Proof.
  intros Ha Hk. cbn [escape]. destruct (Z.ltb_spec (byte a) 128); [lia|]. rewrite Hk.
  destruct (Ascii.eqb_spec a "226") as [->|Hn]; [|left; by destruct a as [[] [] [] [] [] [] [] []]].
  destruct s as [|b s]; [by left|].
  destruct (Ascii.eqb_spec b "128") as [->|Hn]; [|left; by destruct b as [[] [] [] [] [] [] [] []]].
  destruct s as [|c s]; [by left|].
  destruct (Ascii.eqb_spec c "168") as [->|Hn]; [right; exists "168"%char, s; split_and!; auto; vm_compute in Hk; congruence|].
  destruct (Ascii.eqb_spec c "169") as [->|Hn2]; [right; exists "169"%char, s; split_and!; auto; vm_compute in Hk; congruence|].
  left. by destruct c as [[] [] [] [] [] [] [] []].
Qed.

Lemma unquote_escape n : ∀ s k rest, (String.length s ≤ n)%nat → continues k s →
  unquote (escape k s +:+ String quote rest) = Some (sanitize k s, rest).
Proof.
  induction n as [|n IH]; intros s k rest Hn Hk.
  - destruct s; [by destruct k|cbn in Hn; lia].
  - destruct s as [|a s]; [by destruct k|]. cbn [String.length] in Hn. destruct k as [|k].
    + destruct (Z.ltb_spec (byte a) 128) as [Hb|Hb].
      * assert (rune_len (String a s) = 1%nat) as E by (cbn [rune_len]; by zbool).
        cbn [escape sanitize]. rewrite E. zbool. rewrite append_assoc, unquote_ascii by done. rewrite IH; [done|lia|done].
      * destruct (rune_len (String a s)) as [|k] eqn:E.
        -- cbn [escape sanitize]. rewrite E. zbool. rewrite append_assoc, unquote_fffd. rewrite IH; [done|lia|done].
        -- destruct (escape_rune a s k Hb E) as [->|(b & r & Hbr & Es & -> & ->)].
           ++ cbn [sanitize]. rewrite E. cbn [String.append]. rewrite unquote_raw by done.
              rewrite IH; [done|lia|]. by eapply rune_continues.
           ++ injection Es as -> ->. cbn [String.length] in Hn. rewrite append_assoc.
              assert (sanitize 0 (String "226" (String "128" (String b r))) = String "226" (String "128" (String b (sanitize 0 r)))) as ->.
              { cbn [sanitize]. by rewrite E. }
              destruct Hbr as [-> | ->]; cbn [Ascii.eqb Bool.eqb]; [rewrite (proj1 (unquote_line _))|rewrite (proj2 (unquote_line _))];
                (rewrite IH; [done|lia|done]).
    + destruct Hk as [Hb Hk]. cbn [escape sanitize String.append]. rewrite unquote_raw by done. rewrite IH; [done|lia|done].
Qed.

(** A string is read back as it was written, its stray bytes replaced. *)
Lemma read_quoted s rest : read_string (quoted s +:+ rest) = Some (sanitize 0 s, rest).
Proof.
  unfold read_string, quoted. cbn [String.append strip_prefix]. rewrite Ascii.eqb_refl. cbn [mbind option_bind].
  rewrite append_assoc. cbn [String.append]. by apply (unquote_escape (String.length s)).
Qed.

Lemma span_numeric d c rest : all_chars numeric d → numeric c = false →
  span_number (d +:+ String c rest) = (d, String c rest).
Proof.
  intros Hd Hc. induction d as [|x d IH]; cbn [String.append span_number]; [by rewrite Hc|].
  apply all_chars_cons in Hd as [Hx Hd]. rewrite Hx, (IH Hd). done.
Qed.

Lemma Itoa_numeric n : all_chars numeric (Itoa n).
Proof.
  assert (∀ m, 0 ≤ m → all_chars numeric (FormatUint m)) as H.
  { intros m Hm. eapply all_chars_impl; [|by apply FormatUint_digits]. intros c Hc. unfold numeric. by rewrite Hc. }
  unfold Itoa. destruct (Z.ltb_spec n 0); [apply all_chars_cons; split; [done|]|]; apply H; lia.
Qed.

Lemma Atoi_Itoa_int n : -2^63 ≤ n < 2^63 → Atoi (Itoa n) = Some n.
Proof.
  intros Hn. destruct (Z.ltb_spec n 0); [|apply Atoi_Itoa; lia]. unfold Itoa. zbool. unfold Atoi.
  rewrite ParseUint_FormatUint by lia. zbool. f_equal. lia.
Qed.

Lemma read_written_number n c rest : -2^63 ≤ n < 2^63 → numeric c = false →
  read_number (Itoa n +:+ String c rest) = Some (n, String c rest).
Proof.
  intros Hn Hc. unfold read_number. rewrite span_numeric by first [apply Itoa_numeric|done].
  cbn [fst snd]. by rewrite Atoi_Itoa_int.
Qed.

Lemma strip_member comma key value rest :
  strip_prefix (key_of comma key) (member comma key value +:+ rest) = Some (value +:+ rest).
Proof.
  assert (member comma key value +:+ rest = key_of comma key +:+ (value +:+ rest)) as ->.
  { unfold key_of, member. destruct comma; cbn [String.append]; repeat (f_equal; rewrite ?append_assoc; cbn [String.append]). }
  apply strip_prefix_app.
Qed.

(** A member that is left out when empty. *)
Lemma read_omitempty key s rest : strip_prefix (key_of true key) rest = None →
  read_optional key "" read_string (member_omitempty key s +:+ rest) = Some (sanitize 0 s, rest).
Proof.
  intros Hr. unfold read_optional, member_omitempty. destruct (String.eqb_spec s "") as [->|].
  - cbn [String.append]. by rewrite Hr.
  - rewrite strip_member. apply read_quoted.
Qed.

End Json.

Module Audit.
Import Json.

Record auditEntry : Type := mkEntry {
  At : Z;
  Who : string;
  IP : string;
  Method : string;
  Path : string;
  Action : string;
  Status : Z;
  Prev : string;
  Hash : string
}.

(** [json.Marshal] of an entry. *)
Definition Marshal (e : auditEntry) : string :=
  String "{"
    (member false "at" (Itoa (At e)) +:+ member true "who" (quoted (Who e)) +:+ member_omitempty "ip" (IP e) +:+
     member true "method" (quoted (Method e)) +:+ member true "path" (quoted (Path e)) +:+
     member_omitempty "action" (Action e) +:+
     (if Status e =? 0 then "" else member true "status" (Itoa (Status e))) +:+
     member_omitempty "prev" (Prev e) +:+ member_omitempty "hash" (Hash e) +:+ "}").

(** [json.Unmarshal] of what [Marshal] writes. *)
Definition Unmarshal (s : string) : option auditEntry :=
  s ← strip_prefix ("{" +:+ key_of false "at") s; '(at_, s) ← read_number s;
  s ← strip_prefix (key_of true "who") s; '(who, s) ← read_string s;
  '(ip, s) ← read_optional "ip" "" read_string s;
  s ← strip_prefix (key_of true "method") s; '(method, s) ← read_string s;
  s ← strip_prefix (key_of true "path") s; '(path, s) ← read_string s;
  '(action, s) ← read_optional "action" "" read_string s;
  '(status, s) ← read_optional "status" 0 read_number s;
  '(prev, s) ← read_optional "prev" "" read_string s;
  '(hash, s) ← read_optional "hash" "" read_string s;
  if String.eqb s "}" then Some (mkEntry at_ who ip method path action status prev hash) else None.

Definition with_hash (e : auditEntry) (h : string) : auditEntry :=
  mkEntry (At e) (Who e) (IP e) (Method e) (Path e) (Action e) (Status e) (Prev e) h.
Definition with_prev (e : auditEntry) (p : string) : auditEntry :=
  mkEntry (At e) (Who e) (IP e) (Method e) (Path e) (Action e) (Status e) p (Hash e).

Definition auditHash (e : auditEntry) : string :=
  hex (take 16 (Sha.sha256 (to_bytes (Marshal (with_hash e ""))))).

Definition chainAudit (prev : list auditEntry) (e : auditEntry) : auditEntry :=
  let e := match last prev with Some p => with_prev e (Hash p) | None => e end in
  with_hash e (auditHash e).

(** The loop of [verifyAudit] over the entries from the [i]-th on; [before] is
    the [Hash] of the one before. *)
Fixpoint verify_loop (i : Z) (started : bool) (before : string) (all : list auditEntry) : bool * Z :=
  match all with
  | [] => (true, -1)
  | e :: all =>
      if String.eqb (Hash e) "" then
        if started then (false, i) else verify_loop (i + 1) started (Hash e) all
      else if negb (String.eqb (auditHash e) (Hash e)) then (false, i)
      else if started && negb (String.eqb (Prev e) before) then (false, i)
      else verify_loop (i + 1) true (Hash e) all
  end.

Definition verifyAudit (all : list auditEntry) : bool * Z := verify_loop 0 false "" all.

Definition auditKeep : nat := 5000.

(** An entry after it has been through the file. *)
Definition reload (e : auditEntry) : auditEntry :=
  mkEntry (At e) (sanitize 0 (Who e)) (sanitize 0 (IP e)) (sanitize 0 (Method e)) (sanitize 0 (Path e))
    (sanitize 0 (Action e)) (Status e) (sanitize 0 (Prev e)) (sanitize 0 (Hash e)).

(** [record]: what [readAudit] gives afterwards; [saved] is whether the file
    could be written. *)
Definition record (all : list auditEntry) (e : auditEntry) (saved : bool) : list auditEntry :=
  let l := all ++ [chainAudit all e] in
  let l := if (auditKeep <? length l)%nat then drop (length l - auditKeep) l else l in
  if saved then map reload l else all.

(** [Audit]: the newest first, at most [limit] of them if that is positive. *)
Definition Audit (all : list auditEntry) (limit : Z) : list auditEntry :=
  let limit := if (limit <=? 0) || (zlen all <? limit) then zlen all else limit in
  take (Z.to_nat limit) (reverse all).

Definition AuditIntegrity (all : list auditEntry) : bool * Z * string :=
  let '(intact, i) := verifyAudit all in
  (intact, if 0 <=? i then zlen all - 1 - i else i, match last all with Some e => Hash e | None => "" end).

Definition auditable (method : string) : bool := negb (String.eqb method "GET") && negb (String.eqb method "HEAD").

(** [worthForwarding]. *)
Definition worthForwarding (e : auditEntry) : bool :=
  if 400 <=? Status e then true
  else if String.eqb (Path e) "/api/tokens" then true
  else if bool_decide (Path e ∈ ["/api/password"; "/api/totp"; "/api/sessions"; "/api/telegram";
                                 "/api/backup/import"; "/api/panelport"; "/api/panelcert"]) then true
  else String.eqb (Path e) "/api/nodes" &&
       bool_decide (Action e ∈ ["add"; "remove"; "credentials"; "upgradeall"; "pin"; "unpin"]).

(** Seven-bit text, such as every hash, is UTF-8. *)
Definition ascii_text (s : string) : Prop := all_chars (λ a, byte a <? 128) s.

Lemma ascii_utf8 s : ascii_text s → utf8 s.
Proof.
  unfold utf8. induction s as [|a s IH]; intros H; [done|]. apply all_chars_cons in H as [Ha H]. apply Z.ltb_lt in Ha.
  cbn [sanitize]. assert (rune_len (String a s) = 1%nat) as -> by (cbn [rune_len]; by zbool). by rewrite IH.
Qed.

Lemma hex_ascii l : bytes_ok l → ascii_text (hex l).
Proof.
  assert (∀ d, 0 ≤ d < 16 → (byte (hex_digit d) <? 128) = true) as H.
  { intros d Hd. assert (Forall (λ d, (byte (hex_digit d) <? 128) = true) (map Z.of_nat (seq 0 16))) as H
      by (apply (bool_decide_unpack _); by vm_compute).
    rewrite Forall_forall in H. apply H, list_elem_of_In, in_map_iff. exists (Z.to_nat d). split; [lia|]. apply in_seq. lia. }
  induction 1 as [|b l Hb _ IH]; [constructor|]. unfold byte_ok in Hb. cbn [hex]. unfold ascii_text. rewrite !all_chars_cons.
  split_and!; [apply H|apply H|done].
  - split; [apply Z.div_pos; lia|apply Z.div_lt_upper_bound; lia].
  - apply Z.mod_pos_bound. lia.
Qed.

Lemma auditHash_text e : utf8 (auditHash e) ∧ auditHash e ≠ "".
Proof.
  unfold auditHash. set (d := Sha.sha256 _). split.
  - apply ascii_utf8, hex_ascii, Forall_take, Sha.digest_ok.
  - assert (length d = 32%nat) as H by apply Sha.length_sha256. by destruct d.
Qed.

(** ** Lemmas: through the file *)

Lemma omitempty_head key s t : (∃ c r, t = String c r ∧ numeric c = false) →
  ∃ c r, member_omitempty key s +:+ t = String c r ∧ numeric c = false.
Proof.
  intros H. unfold member_omitempty. destruct (String.eqb s ""); [done|].
  unfold member. cbn [String.append]. by do 2 eexists.
Qed.

(** The key of one member is not the beginning of another that is there. *)
Lemma other_key k key s t : strip_prefix (key_of true k) (member true key (quoted s) +:+ t) = None →
  strip_prefix (key_of true k) t = None → strip_prefix (key_of true k) (member_omitempty key s +:+ t) = None.
Proof. intros H1 H2. unfold member_omitempty. by destruct (String.eqb s ""). Qed.

Ltac keys := repeat first [apply other_key; [by cbn|]|by cbn].

Lemma read_member key s rest :
  strip_prefix (key_of true key) (member true key (quoted s) +:+ rest) = Some (quoted s +:+ rest).
Proof. apply strip_member. Qed.

(** Every entry is read back as [reload] says. *)
Lemma unmarshal_marshal e : -2^63 ≤ At e < 2^63 → -2^63 ≤ Status e < 2^63 → Unmarshal (Marshal e) = Some (reload e).
Proof.
  intros Ha Hs. unfold Marshal, Unmarshal.
  set (T_hash := member_omitempty "hash" (Hash e) +:+ "}").
  set (T_prev := member_omitempty "prev" (Prev e) +:+ T_hash).
  set (T_status := (if Status e =? 0 then "" else member true "status" (Itoa (Status e))) +:+ T_prev).
  assert (strip_prefix (key_of true "prev") T_hash = None) as N1 by (unfold T_hash; keys).
  assert (strip_prefix (key_of true "status") T_prev = None) as N2 by (unfold T_prev, T_hash; keys).
  assert (strip_prefix (key_of true "action") T_status = None) as N3.
  { unfold T_status, T_prev, T_hash. destruct (Status e =? 0); [cbn [String.append]; keys|by cbn]. }
  assert (∃ c r, T_prev = String c r ∧ numeric c = false) as (c & r & Ec & Hc).
  { apply omitempty_head, omitempty_head. by do 2 eexists. }
  change (String "{" (member false "at" (Itoa (At e)) +:+ ?t)) with ("{" +:+ (member false "at" (Itoa (At e)) +:+ t)).
  set (T_who := member true "who" _ +:+ _).
  assert (strip_prefix ("{" +:+ key_of false "at") ("{" +:+ (member false "at" (Itoa (At e)) +:+ T_who)) = Some (Itoa (At e) +:+ T_who)) as ->.
  { cbn [String.append strip_prefix]. rewrite Ascii.eqb_refl. apply strip_member. }
  cbn [mbind option_bind]. assert (∃ r, T_who = String "," r) as (rw & Ew) by (unfold T_who, member; cbn [String.append]; by eexists).
  rewrite Ew, read_written_number by done. rewrite <- Ew. unfold T_who. cbn [mbind option_bind].
  rewrite read_member. cbn [mbind option_bind]. rewrite read_quoted. cbn [mbind option_bind].
  rewrite read_omitempty by (by cbn). cbn [mbind option_bind].
  rewrite read_member. cbn [mbind option_bind]. rewrite read_quoted. cbn [mbind option_bind].
  rewrite read_member. cbn [mbind option_bind]. rewrite read_quoted. cbn [mbind option_bind].
  rewrite read_omitempty by exact N3. cbn [mbind option_bind].
  assert (read_optional "status" 0 read_number T_status = Some (Status e, T_prev)) as ->.
  { unfold T_status, read_optional. destruct (Z.eqb_spec (Status e) 0) as [->|].
    - cbn [String.append]. by rewrite N2.
    - rewrite strip_member, Ec. by apply read_written_number. }
  cbn [mbind option_bind]. unfold T_prev. rewrite read_omitempty by exact N1. cbn [mbind option_bind].
  unfold T_hash. rewrite read_omitempty by (by cbn). done.
Qed.

(** An entry a file can hold: its numbers are Go integers, its strings UTF-8. *)
Definition storable (e : auditEntry) : Prop :=
  (-2^63 ≤ At e < 2^63 ∧ -2^63 ≤ Status e < 2^63) ∧
  Forall utf8 [Who e; IP e; Method e; Path e; Action e; Prev e; Hash e].

#[export] Instance storable_dec e : Decision (storable e).
Proof. unfold storable. apply _. Defined.

Lemma reload_storable e : storable e → reload e = e.
Proof.
  intros [_ H]. unfold reload. destruct e. cbn in *. rewrite !Forall_cons in H. unfold utf8 in H.
  destruct H as (-> & -> & -> & -> & -> & -> & -> & _). done.
Qed.

(** The encoding tells entries apart. *)
Lemma Marshal_inj e e' : storable e → storable e' → Marshal e = Marshal e' → e = e'.
Proof.
  intros He He' E. rewrite <- (reload_storable e), <- (reload_storable e') by done.
  apply (f_equal Unmarshal) in E. rewrite !unmarshal_marshal in E by apply He || apply He'. congruence.
Qed.

(** ** Lemmas: the chain *)

Fixpoint linked (before : option string) (all : list auditEntry) : Prop :=
  match all with
  | [] => True
  | e :: all =>
      auditHash e = Hash e ∧ Hash e ≠ "" ∧ (∀ h, before = Some h → Prev e = h) ∧ linked (Some (Hash e)) all
  end.

Lemma verify_linked all : ∀ i before, 0 ≤ i →
  (verify_loop i true before all = (true, -1) ↔ linked (Some before) all).
Proof.
  induction all as [|e all IH]; intros i before Hi; cbn [verify_loop linked]; [done|].
  destruct (String.eqb_spec (Hash e) "") as [E|E].
  { split; [by intros [=]|]. by intros (_ & ? & _). }
  destruct (String.eqb_spec (auditHash e) (Hash e)) as [Eh|Eh]; cbn [negb].
  2:{ split; [by intros [=]|]. by intros (? & _). }
  destruct (String.eqb_spec (Prev e) before) as [Ep|Ep]; cbn [andb negb].
  2:{ split; [by intros [=]|]. intros (_ & _ & H & _). by destruct Ep, (H _ eq_refl). }
  rewrite IH by lia. split; [|tauto]. intros H. split_and!; try done. by intros h [= <-].
Qed.

Lemma verifyAudit_linked e all : Hash e ≠ "" → (verifyAudit (e :: all) = (true, -1) ↔ linked None (e :: all)).
Proof.
  intros He. unfold verifyAudit. cbn [verify_loop linked]. destruct (String.eqb_spec (Hash e) ""); [done|].
  destruct (String.eqb_spec (auditHash e) (Hash e)) as [Eh|Eh]; cbn [negb andb].
  - rewrite verify_linked by lia. split; [|tauto]. by intros H.
  - split; [by intros [=]|]. by intros (? & _).
Qed.

Lemma linked_weaken b all : linked b all → linked None all.
Proof. destruct all; [done|]. cbn. by intros (? & ? & _ & ?). Qed.

Lemma linked_drop n all : ∀ b, linked b all → linked None (drop n all).
Proof.
  revert all. induction n as [|n IH]; intros all b H; [by apply linked_weaken in H|].
  destruct all as [|e all]; [done|]. destruct H as (_ & _ & _ & H). by eapply IH.
Qed.

Lemma auditHash_with_hash e h : auditHash (with_hash e h) = auditHash e.
Proof. done. Qed.

Lemma linked_snoc all e : ∀ b, linked b all →
  (∀ h, match last all with Some p => Some (Hash p) | None => b end = Some h → Prev e = h) →
  auditHash e = Hash e → Hash e ≠ "" → linked b (all ++ [e]).
Proof.
  induction all as [|x all IH]; intros b H Hp Hh Hn; [by cbn|]. destruct H as (H1 & H2 & H3 & H4).
  cbn [app linked]. split_and!; try done. apply IH; try done. intros h E. apply Hp. destruct all as [|a all]; [done|].
  rewrite last_cons_cons. destruct (last (a :: all)) eqn:El; [exact E|by apply last_None in El].
Qed.

Lemma chainAudit_linked all e : linked None all → linked None (all ++ [chainAudit all e]).
Proof.
  intros H. unfold chainAudit. apply linked_snoc; [done| | |].
  - intros h. destruct (last all) as [p|]; [by intros [= <-]|done].
  - done.
  - apply auditHash_text.
Qed.

(** ** What the record promises *)

Definition bare (e : auditEntry) : auditEntry := with_hash (with_prev e "") "".

(** An entry as the guard makes it: no link yet. *)
Definition fresh (e : auditEntry) : Prop := storable e ∧ bare e = e.

Definition keep (all : list auditEntry) : list auditEntry :=
  if (auditKeep <? length all)%nat then drop (length all - auditKeep) all else all.

Lemma keep_drop all : keep all = drop (length all - auditKeep) all.
Proof. unfold keep. destruct (Nat.ltb_spec auditKeep (length all)); [done|]. by replace (length all - auditKeep)%nat with 0%nat by lia. Qed.

(** The record after some entries, each of which reached the disk or did not. *)
Definition recorded (es : list (auditEntry * bool)) : list auditEntry :=
  foldl (λ all x, record all (fst x) (snd x)) [] es.

Definition written (es : list (auditEntry * bool)) : list auditEntry :=
  map fst (filter (λ x, snd x = true) es).

Lemma keep_keep (l : list auditEntry) x : keep (keep l ++ [x]) = keep (l ++ [x]).
Proof.
  rewrite !keep_drop. destruct (decide (length l ≤ auditKeep)%nat).
  - by replace (length l - auditKeep)%nat with 0%nat by lia.
  - rewrite !length_app, length_drop. cbn [length]. rewrite !drop_app, drop_drop, length_drop.
    f_equal; [f_equal; lia|]. f_equal. lia.
Qed.

Lemma map_keep {f : auditEntry → auditEntry} l : map f (keep l) = keep (map f l).
Proof. rewrite !keep_drop, length_map. apply map_drop || (unfold map; apply fmap_drop). Qed.

Lemma chain_storable all e : Forall storable all → fresh e → storable (chainAudit all e) ∧ bare (chainAudit all e) = e.
Proof.
  intros Ha [[Hn Hs] Hb]. unfold chainAudit. set (e' := match last all with Some p => with_prev e (Hash p) | None => e end).
  assert (storable e' ∧ bare e' = e) as [[Hn' Hs'] Hb'].
  { unfold e'. destruct (last all) as [p|] eqn:El; [|by split].
    split; [|by rewrite <- Hb]. split; [done|]. cbn. rewrite !Forall_cons in Hs |- *.
    apply last_Some_elem_of in El. pose proof (proj1 (Forall_forall _ _) Ha p El) as [_ Hp]. rewrite !Forall_cons in Hp. tauto. }
  split; [|by rewrite <- Hb']. split; [done|]. cbn. rewrite !Forall_cons in Hs' |- *.
  pose proof (auditHash_text e') as [? _]. tauto.
Qed.

Lemma recorded_spec es : Forall (λ x, fresh (fst x)) es →
  linked None (recorded es) ∧ Forall storable (recorded es) ∧ map bare (recorded es) = keep (written es).
Proof.
  induction es as [|[e saved] es IH] using rev_ind; intros HF.
  - split_and!; [done|constructor|by rewrite keep_drop].
  - apply Forall_app in HF as [HF He]. inversion He as [|? ? Hf _]; subst. cbn [fst] in Hf.
    destruct (IH HF) as (HL & HS & HB). unfold recorded, written. rewrite foldl_snoc, filter_app. fold (recorded es).
    cbn [fst snd record]. unfold record. destruct saved.
    2:{ rewrite filter_cons, decide_False by done. cbn [filter list_filter]. rewrite app_nil_r. by split_and!. }
    destruct (chain_storable (recorded es) e HS Hf) as [Hst Hba].
    change (if (auditKeep <? length (recorded es ++ [chainAudit (recorded es) e]))%nat then _ else _)
      with (keep (recorded es ++ [chainAudit (recorded es) e])).
    assert (Forall storable (keep (recorded es ++ [chainAudit (recorded es) e]))) as HK.
    { rewrite keep_drop. apply Forall_drop, Forall_app. split; [done|]. by constructor. }
    assert (map reload (keep (recorded es ++ [chainAudit (recorded es) e])) = keep (recorded es ++ [chainAudit (recorded es) e])) as ->.
    { clear -HK. induction HK as [|x l Hx _ IH]; [done|]. cbn [map]. by rewrite IH, reload_storable. }
    split_and!; [|done|].
    + rewrite keep_drop. eapply linked_drop, chainAudit_linked, HL.
    + rewrite map_keep, map_app, HB. cbn [map]. rewrite Hba, keep_keep, map_app. done.
Qed.

Lemma recorded_verifies es : Forall (λ x, fresh (fst x)) es → verifyAudit (recorded es) = (true, -1).
Proof.
  intros HF. destruct (recorded_spec es HF) as (HL & _ & _). destruct (recorded es) as [|e l]; [done|].
  apply verifyAudit_linked; [apply HL|done].
Qed.

(** The record keeps what was done and verifies. After any entries of
    UTF-8 text, some of which could not be written to disk, the file holds the
    newest 5000 of those that were, in order and unchanged but for their
    links, and the chain is reported intact. *)
Theorem audit_chain_intact es :
  Forall (λ x, fresh (fst x)) es →
  verifyAudit (recorded es) = (true, -1) ∧ map bare (recorded es) = keep (written es) ∧
  (length (recorded es) ≤ auditKeep)%nat.
Proof.
  intros HF. destruct (recorded_spec es HF) as (_ & _ & HB). split_and!; [by apply recorded_verifies|done|].
  apply (f_equal length) in HB. rewrite length_map, keep_drop, length_drop in HB. lia.
Qed.

Definition entry (path action : string) (status : Z) : auditEntry :=
  mkEntry 1700000000 "the panel (session 0a1b2c)" "192.0.2.7" "POST" path action status "" "".

Definition some_entries : list (auditEntry * bool) :=
  [(entry "/api/tunnel/action" "restart" 200, true); (entry "/api/nodes" "<add>" 200, false); (entry "/api/tokens" "" 403, true)].

Lemma audit_chain_intact_witness :
  map Path (recorded some_entries) = ["/api/tunnel/action"; "/api/tokens"] ∧ verifyAudit (recorded some_entries) = (true, -1).
Proof.
  split; [by vm_compute|]. apply (audit_chain_intact some_entries). apply Forall_forall. intros x Hx.
  unfold some_entries in Hx. rewrite !elem_of_cons in Hx. destruct Hx as [-> | [-> | [-> | Hx]]].
  1-3: split; [apply (bool_decide_unpack _); by vm_compute|by vm_compute].
  by apply elem_of_nil in Hx.
Defined.

(** What an entry's hash is taken of, and the hash of a text. *)
Definition hashed (e : auditEntry) : string := Marshal (with_hash e "").
Definition digest (s : string) : string := hex (take 16 (Sha.sha256 (to_bytes s))).

(** SHA-256, cut to half its length, tells these entries from those: none of the one
    list and one of the other that are different texts have the same hash. Of two
    given lists that is a fact about finitely many texts. *)
Definition told_apart (l l' : list auditEntry) : Prop :=
  ∀ e e', e ∈ l → e' ∈ l' → digest (hashed e) = digest (hashed e') → hashed e = hashed e'.

Lemma told_apart_init l l' e e' : told_apart (l ++ [e]) (l' ++ [e']) → told_apart l l'.
Proof. intros H x y Hx Hy. apply H; apply elem_of_app; by left. Qed.

Lemma same_hash e e' : storable e → storable e' → (digest (hashed e) = digest (hashed e') → hashed e = hashed e') →
  auditHash e = auditHash e' → with_hash e "" = with_hash e' "".
Proof.
  intros He He' HD E. assert (∀ e, storable e → storable (with_hash e "")) as Hw.
  { intros x [Hn Hs]. split; [done|]. cbn. rewrite !Forall_cons in Hs |- *. by destruct_and?. }
  apply Marshal_inj; [by apply Hw..|]. by apply HD.
Qed.

(** The last entry of an intact chain: its hash is its own, and it is tied to the one
    before. *)
Lemma linked_init l e : linked None (l ++ [e]) → auditHash e = Hash e ∧ linked None l ∧ ∀ p, last l = Some p → Prev e = Hash p.
Proof.
  assert (∀ b, linked b (l ++ [e]) → auditHash e = Hash e ∧ linked b l ∧
    ∀ h, match last l with Some p => Some (Hash p) | None => b end = Some h → Prev e = h) as H.
  { induction l as [|x l IH]; intros b; cbn [app linked]; [tauto|]. intros (H1 & H2 & H3 & H4).
    destruct (IH _ H4) as (H5 & H6 & H7). split_and!; try done. intros h E. apply H7.
    destruct l as [|y l]; [done|]. rewrite last_cons_cons in E. destruct (last (y :: l)) eqn:El; [done|by apply last_None in El]. }
  intros HL. destruct (H None HL) as (H1 & H2 & H3). split_and!; try done. intros p Hp. apply H3. by rewrite Hp.
Qed.

(** Two intact chains with one head agree on every entry both have. *)
Lemma same_head n : ∀ all all', length all' = n → (n ≤ length all)%nat → linked None all → linked None all' →
  Forall storable all → Forall storable all' → told_apart all' all → option_map Hash (last all) = option_map Hash (last all') →
  all' = drop (length all - n) all.
Proof.
  induction n as [|n IH]; intros all all' Hn Hle HL HL' HS HS' HD Hh.
  { apply nil_length_inv in Hn. subst. by rewrite drop_ge by lia. }
  destruct all' as [|e' l' _] using rev_ind; [done|]. destruct all as [|e l _] using rev_ind; [cbn in Hle; lia|].
  rewrite !last_snoc in Hh. injection Hh as Hh. rewrite length_app in Hn, Hle. cbn [length] in Hn, Hle.
  apply linked_init in HL as (E1 & L1 & P1), HL' as (E2 & L2 & P2).
  apply Forall_app in HS as [HS He]. apply Forall_app in HS' as [HS' He']. inversion He; inversion He'; subst.
  assert (with_hash e' "" = with_hash e "") as E.
  { apply same_hash; [done..| |congruence]. apply HD; apply elem_of_app; right; by left. }
  assert (e = e') as <-.
  { destruct e, e'. cbn in Hh. unfold with_hash in E. cbn in E. congruence. }
  destruct (decide (l' = [])) as [->|Hne].
  { rewrite length_app. cbn [length app] in *. replace (length l + 1 - S n)%nat with (length l) by lia. by rewrite drop_app_length. }
  assert (l' = drop (length l - n) l) as El.
  { apply IH; try done; [lia|lia|by eapply told_apart_init|].
    destruct (last l') as [p'|] eqn:Ep'; [|by apply last_None in Ep'].
    destruct (last l) as [p|] eqn:Ep; [|apply last_None in Ep; subst; destruct l'; [done|cbn in *; lia]].
    cbn. f_equal. rewrite <- (P1 p), <- (P2 p'); done. }
  rewrite length_app. cbn [length]. replace (length l + 1 - S n)%nat with (length l - n)%nat by lia.
  rewrite drop_app_le by lia. by rewrite <- El.
Qed.

(** C16: tampering shows. If what is in the file verifies, and its head is the
    head that was forwarded off the machine, then the file agrees entry for
    entry with the record as it was, except that its oldest entries may be
    gone (or the record's, if the file has more). So no line can be edited,
    inserted, or dropped from the middle, but by one who finds, for an entry of
    the record, another text with the same hash: the hash is supposed to tell
    the entries of these two lists apart. *)
Theorem tampering_shows (file real : list auditEntry) e r :
  head file = Some e → head real = Some r → Hash e ≠ "" → Hash r ≠ "" →
  Forall storable file → Forall storable real → told_apart file real →
  verifyAudit file = (true, -1) → verifyAudit real = (true, -1) →
  snd (AuditIntegrity file) = snd (AuditIntegrity real) →
  file = drop (length real - length file) real ∨ real = drop (length file - length real) file.
Proof.
  intros He Hr Hhe Hhr HS HS' HD HV HV' Hh.
  destruct file as [|e0 file]; [done|]. destruct real as [|r0 real]; [done|]. injection He as ->. injection Hr as ->.
  apply verifyAudit_linked in HV, HV'; try done.
  assert (option_map Hash (last (e :: file)) = option_map Hash (last (r :: real))) as Hl.
  { unfold AuditIntegrity in Hh. destruct (verifyAudit _), (verifyAudit _). cbn [snd] in Hh.
    destruct (last (e :: file)) eqn:E1; [|by apply last_None in E1]. destruct (last (r :: real)) eqn:E2; [|by apply last_None in E2].
    cbn. by f_equal. }
  destruct (decide (length (e :: file) ≤ length (r :: real))%nat) as [Hle|Hle]; [left|right].
  - by apply (same_head (length (e :: file)) (r :: real) (e :: file)).
  - apply (same_head (length (r :: real)) (e :: file) (r :: real)); try done; [lia|]. intros x y Hx Hy E. symmetry. by apply HD.
Qed.

(** A file that has lost its oldest line and one that was the record's own. *)
Lemma tampering_shows_witness :
  let real := recorded some_entries in
  let file := drop 1 real in
  length file = 1%nat ∧ told_apart file real ∧ (file = drop (length real - length file) real ∨ real = drop (length file - length real) file).
Proof.
  assert (told_apart (drop 1 (recorded some_entries)) (recorded some_entries)) as HD.
  { assert (forallb (λ e, forallb (λ e', bool_decide (digest (hashed e) = digest (hashed e') → hashed e = hashed e')) (recorded some_entries))
      (drop 1 (recorded some_entries)) = true) as HB by (vm_compute; reflexivity).
    intros e e' He%list_elem_of_In He'%list_elem_of_In. rewrite forallb_forall in HB. specialize (HB e He).
    rewrite forallb_forall in HB. specialize (HB e' He'). by apply bool_decide_eq_true in HB. }
  split; [by vm_compute|]. split; [exact HD|].
  assert (Forall storable (recorded some_entries)) as HS by (apply (bool_decide_unpack _); by vm_compute).
  apply (tampering_shows (drop 1 (recorded some_entries)) (recorded some_entries)
    (default (entry "" "" 0) (recorded some_entries !! 1%nat)) (default (entry "" "" 0) (recorded some_entries !! 0%nat))).
  - by vm_compute.
  - by vm_compute.
  - by vm_compute.
  - by vm_compute.
  - by apply Forall_drop.
  - exact HS.
  - exact HD.
  - by vm_compute.
  - by vm_compute.
  - by vm_compute.
Defined.

(** What the record stores is what is read back. For any entry, the JSON
    written for it decodes to the same entry with every byte that is not
    UTF-8 replaced by U+FFFD, so to the entry itself when its text is UTF-8:
    no text can end its string early or forge another member. *)
Theorem audit_entry_roundtrip e :
  -2^63 ≤ At e < 2^63 → -2^63 ≤ Status e < 2^63 →
  Unmarshal (Marshal e) = Some (reload e) ∧ (storable e → Unmarshal (Marshal e) = Some e).
Proof.
  intros H1 H2. rewrite unmarshal_marshal by done. split; [done|]. intros H. by rewrite reload_storable.
Qed.

Lemma audit_entry_roundtrip_witness :
  let e := mkEntry 1 "a" "" (String quote (String backslash "<")) (of_bytes [226; 128; 168; 10; 127]) "" (-5) "" "ff" in
  Marshal e = of_bytes [123] +:+ String quote "at" +:+ String quote ":1," +:+ String quote "who" +:+ String quote ":" +:+
    String quote "a" +:+ String quote "," +:+ String quote "method" +:+ String quote ":" +:+ String quote (String backslash
    (String quote (String backslash (String backslash (String backslash "u003c")))))
    +:+ String quote "," +:+ String quote "path" +:+ String quote ":" +:+ String quote (String backslash "u2028") +:+
    String backslash "n" +:+ of_bytes [127] +:+ String quote "," +:+ String quote "status" +:+ String quote ":-5," +:+
    String quote "hash" +:+ String quote ":" +:+ String quote "ff" +:+ String quote "}" ∧
  Unmarshal (Marshal e) = Some e.
Proof.
  split; [by vm_compute|].
  apply (audit_entry_roundtrip (mkEntry 1 "a" "" (String quote (String backslash "<")) (of_bytes [226; 128; 168; 10; 127]) "" (-5) "" "ff")).
  - cbn. lia.
  - cbn. lia.
  - apply (bool_decide_unpack _). by vm_compute.
Defined.

(** An action that is not UTF-8 ([?action=%ff], from a caller allowed no more
    than to be refused) is hashed before it goes to the file and differs after:
    the record reports tampering nobody did. *)
Example stray_byte_breaks_chain :
  verifyAudit (record [] (entry "/api/tokens" (of_bytes [255]) 403) true) = (false, 0).
Proof. by vm_compute. Qed.

End Audit.
