(* ===== verification/Panel.v ===== *)
(** The web panel's door, [src/internal/webui]: its configuration
    ([config.go]), sessions and half-finished logins ([server.go],
    [totpauth.go]), the guard every request goes through ([server.go]), the
    handlers that decide who can get in, the route table and the wrappers
    around it ([panelsecurity.go]), all in Module [Panel].

    A request is what net/http hands over; [env] is what one request reads off
    the clock and the random source and whether its files could be written.
    One reading of the clock serves a whole request. *)

From Stdlib Require Import Ascii String.
From S2P Require Import Prelude GoStr GoHash Login Access AuditLog.
Import GoStr.
Open Scope string_scope.
Open Scope list_scope.
Open Scope Z_scope.

Module Panel.

(** ** Configuration *)

Record Config : Type := mkConfig {
  Password : string;
  Port : Z;
  BasePath : string;
  HTTPS : bool;
  TLSDomain : string;
  TLSEmail : string;
  TOTPSecret : string;
  RecoveryHashes : list string;
  TLSSelfHost : string;
  TLSCertFile : string;
  TLSKeyFile : string
}.

Definition set_password (c : Config) (pw : string) : Config :=
  mkConfig pw (Port c) (BasePath c) (HTTPS c) (TLSDomain c) (TLSEmail c) (TOTPSecret c) (RecoveryHashes c)
    (TLSSelfHost c) (TLSCertFile c) (TLSKeyFile c).
Definition set_port (c : Config) (p : Z) : Config :=
  mkConfig (Password c) p (BasePath c) (HTTPS c) (TLSDomain c) (TLSEmail c) (TOTPSecret c) (RecoveryHashes c)
    (TLSSelfHost c) (TLSCertFile c) (TLSKeyFile c).
Definition set_second (c : Config) (secret : string) (hashes : list string) : Config :=
  mkConfig (Password c) (Port c) (BasePath c) (HTTPS c) (TLSDomain c) (TLSEmail c) secret hashes
    (TLSSelfHost c) (TLSCertFile c) (TLSKeyFile c).

(** [strings.Trim(s, "/")]. *)
Fixpoint trim_left (s : string) : string :=
  match s with String a s' => if Ascii.eqb a "/" then trim_left s' else s | EmptyString => "" end.
Definition trim_slashes (s : string) : string := rev_string (trim_left (rev_string (trim_left s))).

Definition PathPrefix (c : Config) : string :=
  let p := trim_slashes (TrimSpace (BasePath c)) in
  if String.eqb p "" then "" else String "/" p.

(** [twoFactorOn]. *)
Definition twoFactorOn (c : Config) : bool := negb (String.eqb (TOTPSecret c) "").

(** [checkSecondFactor]: the configuration after, and the answer. *)
Definition checkSecondFactor (c : Config) (given : string) (now : Z) (saved : bool) : Config * bool :=
  if String.eqb (TOTPSecret c) "" then (c, false)
  else if Totp.totpValid (TOTPSecret c) given now then (c, true)
  else
    let x := Totp.useRecoveryCode (RecoveryHashes c) given in
    if negb (snd x) then (c, false)
    else if saved then (set_second c (TOTPSecret c) (fst x), true)
    else (c, false).

(** ** State *)

Record sessionInfo : Type := mkSession { expires : Z; created : Z; sip : string }.
Record pendingEntry : Type := mkPending { pip : string; pexpires : Z }.

Definition sessionTTL : Z := 12 * 3600 * Second.
Definition twoFactorTTL : Z := 3 * Minute.

Notation sessionStore := (gmap string sessionInfo).
Notation pendingStore := (gmap string pendingEntry).

(** The [server], with the limiter and the three files it shares with it. *)
Record server : Type := mkServer {
  sessions : sessionStore;
  pending : pendingStore;
  enrolling : string;
  limiter : gmap string Limiter.loginAttempt;
  config : Config;
  tokens : list Access.APIToken;
  trail : list Audit.auditEntry
}.

Definition newServer (c : Config) (ts : list Access.APIToken) (a : list Audit.auditEntry) : server :=
  mkServer ∅ ∅ "" ∅ c ts a.

Definition set_sessions (s : server) (x : sessionStore) : server :=
  mkServer x (pending s) (enrolling s) (limiter s) (config s) (tokens s) (trail s).
Definition set_pending (s : server) (x : pendingStore) : server :=
  mkServer (sessions s) x (enrolling s) (limiter s) (config s) (tokens s) (trail s).
Definition set_enrolling (s : server) (x : string) : server :=
  mkServer (sessions s) (pending s) x (limiter s) (config s) (tokens s) (trail s).
Definition set_limiter (s : server) (x : gmap string Limiter.loginAttempt) : server :=
  mkServer (sessions s) (pending s) (enrolling s) x (config s) (tokens s) (trail s).
Definition set_config (s : server) (x : Config) : server :=
  mkServer (sessions s) (pending s) (enrolling s) (limiter s) x (tokens s) (trail s).
Definition set_tokens (s : server) (x : list Access.APIToken) : server :=
  mkServer (sessions s) (pending s) (enrolling s) (limiter s) (config s) x (trail s).
Definition set_trail (s : server) (x : list Audit.auditEntry) : server :=
  mkServer (sessions s) (pending s) (enrolling s) (limiter s) (config s) (tokens s) x.

(** [sessionStore]. *)
Definition live (now : Z) (x : string * sessionInfo) : Prop := now ≤ expires (snd x).
#[export] Instance live_dec now x : Decision (live now x).
Proof. unfold live. apply _. Defined.

Definition session_create (m : sessionStore) (tok ip : string) (now : Z) : sessionStore :=
  <[tok := mkSession (now + sessionTTL) now ip]> (filter (live now) m).

Definition session_valid (m : sessionStore) (tok : string) (now : Z) : sessionStore * bool :=
  match m !! tok with
  | None => (m, false)
  | Some si => if expires si <? now then (delete tok m, false) else (m, true)
  end.

Definition sessionID (tok : string) : string := hex (take 6 (Sha.sha256 (to_bytes tok))).

(** [revokeID]: the first in the walk over the map with that identifier. *)
Fixpoint revoke_first (m : sessionStore) (id : string) (walk : list string) : sessionStore :=
  match walk with
  | [] => m
  | tok :: walk => if String.eqb (sessionID tok) id then delete tok m else revoke_first m id walk
  end.

Definition revokeOthers (m : sessionStore) (currentTok : string) : sessionStore :=
  filter (λ x : string * sessionInfo, fst x = currentTok) m.

(** [pendingStore]. *)
Definition open_ (now : Z) (x : string * pendingEntry) : Prop := now ≤ pexpires (snd x).
#[export] Instance open_dec now x : Decision (open_ now x).
Proof. unfold open_. apply _. Defined.

Definition pending_create (m : pendingStore) (tok ip : string) (now : Z) : pendingStore :=
  <[tok := mkPending ip (now + twoFactorTTL)]> (filter (open_ now) m).

Definition pending_valid (m : pendingStore) (tok ip : string) (now : Z) : pendingStore * bool :=
  match m !! tok with
  | None => (m, false)
  | Some e => if pexpires e <? now then (delete tok m, false) else (m, String.eqb (pip e) ip)
  end.

(** ** Requests *)

Record request : Type := mkRequest {
  Method : string;
  Path : string;
  ClientIP : string;              (* clientIP(r) *)
  Authorization : string;
  SessionCookie : option string;
  TwoFactorCookie : option string;
  SecFetchSite : string;
  Form : option (gmap string string);  (* None: ParseForm fails, or the body is too large *)
  Action : string                 (* what auditAction finds *)
}.

Record env : Type := mkEnv {
  now : Z;
  randomHex : string;             (* a new session or pending token *)
  secretRaw : list Z;             (* a new TOTP secret *)
  recoveryRaws : list (list Z);   (* the new recovery codes *)
  tokenRaw : list Z;              (* a new API token *)
  saved : bool                    (* whether a file could be written *)
}.

(** What is answered: a status, or an answer that carries something. *)
Inductive reply : Type :=
| Answer (code : Z)
| Redirect (code : Z) (to : string)
| SignedIn (tok : string)            (* 303 to the panel, with the session cookie *)
| AskCode (tok : string)             (* 200, the code page, with the pending cookie *)
| Enrol (secret : string)            (* 200 *)
| Recovery (codes : list string)     (* 200 *)
| Issued (secret : string).          (* 200 *)

Definition code (a : reply) : Z :=
  match a with Answer c | Redirect c _ => c | SignedIn _ => 303 | _ => 200 end.

Definition FormValue (f : gmap string string) (key : string) : string := default "" (f !! key).

(** [r.FormValue], which ignores the error of parsing. *)
Definition value (r : request) (key : string) : string :=
  match Form r with Some f => FormValue f key | None => "" end.

Definition crossSiteNavigation (r : request) : bool := String.eqb (SecFetchSite r) "cross-site".

Section walk.
(** The orders in which Go walks the limiter's map and the session map. *)
Context (range : gmap string Limiter.loginAttempt → list (string * Limiter.loginAttempt)).
Context (walk : sessionStore → list string).

Definition limiter_blocked (s : server) (ip : string) (e : env) : server * bool :=
  let x := Limiter.blocked (limiter s) ip (now e) (now e) in
  (set_limiter s (fst x), match snd x with Some _ => true | None => false end).
Definition limiter_fail (s : server) (ip : string) (e : env) : server :=
  set_limiter s (Limiter.fail range (limiter s) ip (now e) (now e)).
Definition limiter_reset (s : server) (ip : string) : server :=
  set_limiter s (Limiter.reset (limiter s) ip).

(** The pending cookie of a request, checked against the store. *)
Definition pending_cookie (s : server) (r : request) (e : env) : server * option string :=
  match TwoFactorCookie r with
  | None => (s, None)
  | Some tok =>
      let x := pending_valid (pending s) tok (ClientIP r) (now e) in
      (set_pending s (fst x), if snd x then Some tok else None)
  end.

(** [handleLogin], up to what it does with the code of the second step. *)
Definition second_step (s : server) (r : request) (e : env) (f : gmap string string) (tok : string) : server * reply :=
  let ip := ClientIP r in
  let x := checkSecondFactor (config s) (FormValue f "code") (now e) (saved e) in
  let s := set_config s (fst x) in
  if snd x then
    let s := limiter_reset (set_pending s (delete tok (pending s))) ip in
    (set_sessions s (session_create (sessions s) (randomHex e) ip (now e)), SignedIn (randomHex e))
  else (limiter_fail s ip e, Answer 401).

(** The first step, the password. *)
Definition first_step (s : server) (r : request) (e : env) (f : gmap string string) : server * reply :=
  let ip := ClientIP r in
  if String.eqb (FormValue f "password") (Password (config s)) then
    let s := limiter_reset s ip in
    if twoFactorOn (config s) then
      (set_pending s (pending_create (pending s) (randomHex e) ip (now e)), AskCode (randomHex e))
    else (set_sessions s (session_create (sessions s) (randomHex e) ip (now e)), SignedIn (randomHex e))
  else (limiter_fail s ip e, Answer 401).

Definition handleLogin (s : server) (r : request) (e : env) : server * reply :=
  if String.eqb (Method r) "POST" then
    let x := limiter_blocked s (ClientIP r) e in
    if snd x then (fst x, Answer 429)
    else
      match Form r with
      | None => (fst x, Answer 400)
      | Some f =>
          let y := pending_cookie (fst x) r e in
          match snd y with
          | Some tok => second_step (fst y) r e f tok
          | None => first_step (fst y) r e f
          end
      end
  else let y := pending_cookie s r e in (fst y, Answer 200).

Definition handleLogout (s : server) (r : request) : server * reply :=
  if crossSiteNavigation r then (s, Redirect 303 "/")
  else
    (match SessionCookie r with Some tok => set_sessions s (delete tok (sessions s)) | None => s end,
     Redirect 303 "/login").

(** ** The guard *)

Record caller : Type := mkCaller { Kind : string; Name : string; scope : Access.Scope; IP : string }.

Definition describe (c : caller) : string :=
  if String.eqb (Kind c) "token" then "token " +:+ Name c
  else if negb (String.eqb (Name c) "") then "the panel (session " +:+ Name c +:+ ")"
  else "the panel".

(** [note]. *)
Definition note (s : server) (r : request) (e : env) (who : caller) (status : Z) : server :=
  set_trail s (Audit.record (trail s)
    (Audit.mkEntry (Access.Unix (now e)) (describe who) (IP who) (Method r) (Path r) (Action r) status "" "") (saved e)).

Definition session_cookie (s : server) (r : request) (e : env) : server * option string :=
  match SessionCookie r with
  | None => (s, None)
  | Some tok =>
      let x := session_valid (sessions s) tok (now e) in
      (set_sessions s (fst x), if snd x then Some tok else None)
  end.

Definition identify (s : server) (r : request) (e : env) : server * option caller :=
  let ip := ClientIP r in
  let x := session_cookie s r e in
  match snd x with
  | Some tok => (fst x, Some (mkCaller "session" (sessionID tok) Access.ScopeAdmin ip))
  | None =>
      let s := fst x in
      let secret := Access.bearer (Authorization r) in
      if String.eqb secret "" then (s, None)
      else
        let y := Access.checkToken (tokens s) secret (now e) (saved e) in
        let s := set_tokens s (fst y) in
        match snd y with
        | Some t => (limiter_reset s ip, Some (mkCaller "token" (Access.Name t) (Access.scope t) ip))
        | None => (limiter_fail s ip e, None)
        end
  end.

Definition guarded : Type := server → request → env → server * reply.

Definition guard (need : Access.Scope) (next : guarded) : guarded := λ s r e,
  let secret := Access.bearer (Authorization r) in
  let b := if String.eqb secret "" then (s, false) else limiter_blocked s (ClientIP r) e in
  if snd b then (fst b, Answer 429)
  else
    let x := identify (fst b) r e in
    let s := fst x in
    let refused :=
      if HasPrefix (Path r) "/api" || String.eqb (Path r) "/metrics" || negb (String.eqb secret "") then
        match snd x with
        | Some who => (note s r e who 403, Answer 403)
        | None => (s, Answer 401)
        end
      else (s, Redirect 303 "/login") in
    match snd x with
    | None => refused
    | Some who =>
        if Access.rank (scope who) <? Access.rank need then refused
        else if negb (Audit.auditable (Method r)) then next s r e
        else let y := next s r e in (note (fst y) r e who (code (snd y)), snd y)
    end.

(** ** The handlers that decide who gets in *)

Definition passwordMatches (s : server) (given : string) : bool := String.eqb given (Password (config s)).

Definition handleTOTP : guarded := λ s r e,
  if String.eqb (Method r) "GET" then (s, Answer 200)
  else if negb (String.eqb (Method r) "POST") then (s, Answer 405)
  else
    match Form r with
    | None => (s, Answer 400)
    | Some f =>
        let action := FormValue f "action" in
        if String.eqb action "start" then
          let secret := Totp.newTOTPSecret (secretRaw e) in (set_enrolling s secret, Enrol secret)
        else if String.eqb action "confirm" then
          let secret := enrolling s in
          if String.eqb secret "" then (s, Answer 409)
          else if negb (Totp.totpValid secret (FormValue f "code") (now e)) then (s, Answer 400)
          else
            let codes := Totp.newRecoveryCodes (recoveryRaws e) in
            if saved e then (set_enrolling (set_config s (set_second (config s) secret (snd codes))) "", Recovery (fst codes))
            else (s, Answer 500)
        else if String.eqb action "disable" then
          if negb (passwordMatches s (FormValue f "password")) then (s, Answer 403)
          else if saved e then (set_config s (set_second (config s) "" []), Answer 200) else (s, Answer 500)
        else if String.eqb action "recovery" then
          if negb (passwordMatches s (FormValue f "password")) then (s, Answer 403)
          else if String.eqb (TOTPSecret (config s)) "" then (s, Answer 409)
          else
            let codes := Totp.newRecoveryCodes (recoveryRaws e) in
            if saved e then (set_config s (set_second (config s) (TOTPSecret (config s)) (snd codes)), Recovery (fst codes))
            else (s, Answer 500)
        else (s, Answer 400)
    end.

Definition handlePassword : guarded := λ s r e,
  if negb (String.eqb (Method r) "POST") then (s, Answer 405)
  else
    let pw := TrimSpace (value r "password") in
    let n := Z.of_nat (String.length pw) in
    if (n <? 4) || (128 <? n) then (s, Answer 400)
    else if saved e then (set_sessions (set_config s (set_password (config s) pw)) ∅, Answer 200)
    else (s, Answer 500).

Definition handleSessions : guarded := λ s r e,
  let cur := default "" (SessionCookie r) in
  if String.eqb (Method r) "GET" then (s, Answer 200)
  else if negb (String.eqb (Method r) "POST") then (s, Answer 405)
  else
    let action := value r "action" in
    if String.eqb action "revoke" then
      (set_sessions s (revoke_first (sessions s) (value r "id") (walk (sessions s))), Answer 200)
    else if String.eqb action "others" then (set_sessions s (revokeOthers (sessions s) cur), Answer 200)
    else (s, Answer 400).

(** [strconv.Atoi] with its error dropped: what could not be parsed is zero,
    what does not fit is the nearest integer that does. *)
Fixpoint atoi_scan (neg : bool) (acc : Z) (s : string) : Z :=
  match s with
  | EmptyString =>
      if neg then (if 2^63 <? acc then -2^63 else - acc) else (if 2^63 <=? acc then 2^63 - 1 else acc)
  | String c s =>
      match digit_value c with
      | None => 0
      | Some d => if 2^64 <=? acc * 10 + d then (if neg then -2^63 else 2^63 - 1) else atoi_scan neg (acc * 10 + d) s
      end
  end.

Definition atoi (s : string) : Z :=
  match s with
  | String "-" r => atoi_scan true 0 r
  | String "+" r => atoi_scan false 0 r
  | _ => atoi_scan false 0 s
  end.

Definition handleTokens : guarded := λ s r e,
  if String.eqb (Method r) "GET" then (s, Answer 200)
  else if negb (String.eqb (Method r) "POST") then (s, Answer 405)
  else
    match Form r with
    | None => (s, Answer 400)
    | Some f =>
        if String.eqb (FormValue f "action") "revoke" then
          let x := Access.RevokeToken (tokens s) (TrimSpace (FormValue f "name")) (saved e) in
          (set_tokens s (fst x), match snd x with None => Answer 200 | Some _ => Answer 400 end)
        else
          match Access.ParseScope (FormValue f "scope") with
          | None => (s, Answer 400)
          | Some sc =>
              let days := atoi (FormValue f "days") in
              let days := if days <=? 0 then 90 else days in
              if 3650 <? days then (s, Answer 400)
              else
                let x := Access.IssueToken (tokens s) (FormValue f "name") sc (days * 24 * 3600 * Second)
                  (tokenRaw e) (now e) (saved e) in
                (set_tokens s (fst x), match snd x with Ok (secret, _) => Issued secret | Err _ => Answer 400 end)
          end
    end.

(** [handlePanelPort]; whether the new port is taken is the system's answer. *)
Definition handlePanelPort (inUse : Z → bool) : guarded := λ s r e,
  if negb (String.eqb (Method r) "POST") then (s, Answer 405)
  else
    match Atoi (TrimSpace (value r "port")) with
    | None => (s, Answer 400)
    | Some p =>
        if (p <? 1) || (65535 <? p) then (s, Answer 400)
        else if p =? Port (config s) then (s, Answer 200)
        else if inUse p then (s, Answer 400)
        else if saved e then (set_config s (set_port (config s) p), Answer 200)
        else (s, Answer 500)
    end.

(** ** Routes

    What the panel does apart from this (tunnels, servers, statistics) is
    [other]. A certificate is chosen by [certify], which rewrites the
    configuration, and a backup is put back by [restore], which replaces any of
    the files: [None] where it is refused. *)
Context (inUse : Z → bool) (other : server → request → Z) (certify : Config → request → Config * Z).
Context (restore : server → request → option (Config * list Access.APIToken * list Audit.auditEntry)).

Definition admin_paths : list string := ["/api/backup/export"; "/api/telegram"; "/api/audit"].

Definition read_paths : list string :=
  ["/api/stats"; "/api/tunnels"; "/metrics"; "/api/fleet/drift"; "/api/alerts"].

Definition open_paths : list string := ["/manifest.json"; "/icon.svg"; "/sw.js"].

Definition handle_other : guarded := λ s r e, (s, Answer (other s r)).
Definition handlePanelCert : guarded := λ s r e, let x := certify (config s) r in (set_config s (fst x), Answer (snd x)).

Definition handleBackupImport : guarded := λ s r e,
  if negb (String.eqb (Method r) "POST") then (s, Answer 405)
  else
    match restore s r with
    | None => (s, Answer 400)
    | Some (c, ts, a) => (set_sessions (set_trail (set_tokens (set_config s c) ts) a) ∅, Answer 200)
    end.

(** The mux: an exact path first, then the longest prefix, and "/" for the
    rest. Its paths are clean; net/http redirects the others. *)
Definition mux : guarded := λ s r e,
  let p := Path r in
  if String.eqb p "/login" then handleLogin s r e
  else if String.eqb p "/logout" then handleLogout s r
  else if String.eqb p "/api/totp" then guard Access.ScopeAdmin handleTOTP s r e
  else if String.eqb p "/api/password" then guard Access.ScopeAdmin handlePassword s r e
  else if String.eqb p "/api/sessions" then guard Access.ScopeAdmin handleSessions s r e
  else if String.eqb p "/api/tokens" then guard Access.ScopeAdmin handleTokens s r e
  else if String.eqb p "/api/panelport" then guard Access.ScopeAdmin (handlePanelPort inUse) s r e
  else if String.eqb p "/api/panelcert" then guard Access.ScopeAdmin handlePanelCert s r e
  else if String.eqb p "/api/backup/import" then guard Access.ScopeAdmin handleBackupImport s r e
  else if bool_decide (p ∈ admin_paths) then guard Access.ScopeAdmin handle_other s r e
  else if bool_decide (p ∈ read_paths) then guard Access.ScopeRead handle_other s r e
  else if bool_decide (p ∈ open_paths) || HasPrefix p "/icons/" then (s, Answer (other s r))
  else guard Access.ScopeWrite handle_other s r e.

(** [withPanelSecurity]. *)
Definition withPanelSecurity (next : guarded) : guarded := λ s r e,
  if negb (bool_decide (Method r ∈ ["GET"; "HEAD"; "OPTIONS"])) && crossSiteNavigation r then (s, Answer 403)
  else next s r e.

Definition set_path (r : request) (p : string) : request :=
  mkRequest (Method r) p (ClientIP r) (Authorization r) (SessionCookie r) (TwoFactorCookie r) (SecFetchSite r)
    (Form r) (Action r).

(** [withBasePath]. *)
Definition withBasePath (prefix : string) (next : guarded) : guarded := λ s r e,
  if String.eqb prefix "" then next s r e
  else if String.eqb (Path r) prefix then (s, Redirect 301 (prefix +:+ "/"))
  else if HasPrefix (Path r) (prefix +:+ "/") then next s (set_path r (TrimPrefix (Path r) prefix)) e
  else (s, Answer 404).

(** The panel, as [Serve] builds it. *)
Definition ServeHTTP (prefix : string) : guarded := withBasePath prefix (withPanelSecurity mux).

Fixpoint serve (prefix : string) (s : server) (xs : list (request * env)) : server * list reply :=
  match xs with
  | [] => (s, [])
  | x :: xs =>
      let y := ServeHTTP prefix s (fst x) (snd x) in
      let z := serve prefix (fst y) xs in
      (fst z, snd y :: snd z)
  end.

(** ** Lemmas: sessions and half-finished logins *)

(** Nothing new in either store. *)
Definition no_more (s s' : server) : Prop := sessions s' ⊆ sessions s ∧ pending s' ⊆ pending s.

#[local] Instance no_more_refl : Reflexive no_more.
Proof. by split. Qed.
#[local] Instance no_more_trans : Transitive no_more.
Proof. intros s1 s2 s3 [H1 H2] [H3 H4]. split; by etrans. Qed.

Lemma session_valid_sub m tok t : fst (session_valid m tok t) ⊆ m.
Proof.
  unfold session_valid. destruct (m !! tok) as [si|]; [|done]. destruct (_ <? _); [apply delete_subseteq|done].
Qed.

Lemma pending_valid_sub m tok ip t : fst (pending_valid m tok ip t) ⊆ m.
Proof.
  unfold pending_valid. destruct (m !! tok) as [si|]; [|done]. destruct (_ <? _); [apply delete_subseteq|done].
Qed.

Lemma session_cookie_sub s r e : no_more s (fst (session_cookie s r e)).
Proof. unfold session_cookie. destruct (SessionCookie r); [|done]. split; [apply session_valid_sub|done]. Qed.

Lemma identify_sub s r e : no_more s (fst (identify s r e)).
Proof.
  unfold identify. pose proof (session_cookie_sub s r e) as H. destruct (snd (session_cookie s r e)); [done|].
  destruct (String.eqb _ ""); [done|]. by destruct (snd (Access.checkToken _ _ _ _)).
Qed.

Lemma guard_sub need next : (∀ s r e, no_more s (fst (next s r e))) → ∀ s r e, no_more s (fst (guard need next s r e)).
Proof.
  intros Hn s r e. unfold guard.
  set (b := if String.eqb _ "" then (s, false) else _). assert (no_more s (fst b)) as Hb.
  { unfold b. by destruct (String.eqb _ ""). }
  destruct (snd b); [done|]. pose proof (identify_sub (fst b) r e) as Hi.
  set (x := identify (fst b) r e) in *. assert (no_more s (fst x)) as Hx by (by etrans).
  destruct (snd x) as [who|].
  - destruct (_ <? _); [by destruct (_ || _ || _)|]. destruct (negb (Audit.auditable _)); [by etrans|]. cbn [fst].
    etrans; [exact Hx|]. etrans; [apply (Hn _ r e)|by split].
  - by destruct (_ || _ || _).
Qed.

Lemma revoke_first_sub m id tokens : revoke_first m id tokens ⊆ m.
Proof. induction tokens as [|tok toks IH]; cbn; [done|]. destruct (String.eqb _ _); [apply delete_subseteq|done]. Qed.

Lemma handleTOTP_sub s r e : no_more s (fst (handleTOTP s r e)).
Proof.
  unfold handleTOTP. repeat match goal with
  | |- context [match Form r with _ => _ end] => destruct (Form r)
  | |- context [if ?c then _ else _] => destruct c
  end; done.
Qed.

Lemma handlePassword_sub s r e : no_more s (fst (handlePassword s r e)).
Proof.
  unfold handlePassword. repeat match goal with |- context [if ?c then _ else _] => destruct c end; try done.
  split; [apply map_empty_subseteq|done].
Qed.

Lemma handleSessions_sub s r e : no_more s (fst (handleSessions s r e)).
Proof.
  unfold handleSessions. repeat match goal with |- context [if ?c then _ else _] => destruct c end; try done.
  - split; [apply revoke_first_sub|done].
  - split; [apply map_filter_subseteq|done].
Qed.

Lemma handleTokens_sub s r e : no_more s (fst (handleTokens s r e)).
Proof.
  unfold handleTokens. repeat match goal with
  | |- context [match Form r with _ => _ end] => destruct (Form r)
  | |- context [match Access.ParseScope ?x with _ => _ end] => destruct (Access.ParseScope x)
  | |- context [if ?c then _ else _] => destruct c
  end; done.
Qed.

Lemma handlePanelPort_sub s r e : no_more s (fst (handlePanelPort inUse s r e)).
Proof.
  unfold handlePanelPort. destruct (negb _); [done|]. destruct (Atoi _); [|done].
  repeat match goal with |- context [if ?c then _ else _] => destruct c end; done.
Qed.

Lemma handleBackupImport_sub s r e : no_more s (fst (handleBackupImport s r e)).
Proof.
  unfold handleBackupImport. destruct (negb _); [done|]. destruct (restore s r) as [[[c ts] a]|]; [|done].
  split; [apply map_empty_subseteq|done].
Qed.

Lemma handleLogout_sub s r : no_more s (fst (handleLogout s r)).
Proof.
  unfold handleLogout. destruct (crossSiteNavigation r); [done|]. destruct (SessionCookie r); [|done].
  split; [apply delete_subseteq|done].
Qed.

(** Everything but the login page only takes away. *)
Lemma mux_sub s r e : Path r ≠ "/login" → no_more s (fst (mux s r e)).
Proof.
  intros Hp. unfold mux. destruct (String.eqb_spec (Path r) "/login"); [done|].
  destruct (String.eqb _ "/logout"); [apply handleLogout_sub|].
  destruct (String.eqb _ "/api/totp"); [apply guard_sub, handleTOTP_sub|].
  destruct (String.eqb _ "/api/password"); [apply guard_sub, handlePassword_sub|].
  destruct (String.eqb _ "/api/sessions"); [apply guard_sub, handleSessions_sub|].
  destruct (String.eqb _ "/api/tokens"); [apply guard_sub, handleTokens_sub|].
  destruct (String.eqb _ "/api/panelport"); [apply guard_sub, handlePanelPort_sub|].
  destruct (String.eqb _ "/api/panelcert"); [by apply guard_sub|].
  destruct (String.eqb _ "/api/backup/import"); [apply guard_sub, handleBackupImport_sub|].
  repeat match goal with |- context [if ?c then _ else _] => destruct c end; try apply guard_sub; done.
Qed.

(** The request as the handlers see it. *)
Definition inner (prefix : string) (r : request) : request :=
  if String.eqb prefix "" then r else set_path r (TrimPrefix (Path r) prefix).

(** A half-finished login: the password was right, where a code is wanted. *)
Definition password_given (s : server) (r : request) : Prop :=
  ∃ f, Form r = Some f ∧ FormValue f "password" = Password (config s) ∧ twoFactorOn (config s) = true.

(** What it takes to be signed in. *)
Inductive signs_in (s : server) (r : request) (e : env) : Prop :=
| by_password f :
    Form r = Some f → FormValue f "password" = Password (config s) → twoFactorOn (config s) = false → signs_in s r e
| by_code f tok pe :
    Form r = Some f → TwoFactorCookie r = Some tok → pending s !! tok = Some pe → pip pe = ClientIP r →
    now e ≤ pexpires pe → twoFactorOn (config s) = true →
    snd (checkSecondFactor (config s) (FormValue f "code") (now e) (saved e)) = true → signs_in s r e.

Lemma pending_valid_true m tok ip t : snd (pending_valid m tok ip t) = true →
  ∃ pe, m !! tok = Some pe ∧ pip pe = ip ∧ t ≤ pexpires pe.
Proof.
  unfold pending_valid. destruct (m !! tok) as [pe|] eqn:E; [|done]. destruct (Z.ltb_spec (pexpires pe) t); [done|].
  cbn. intros Hp%String.eqb_eq. by exists pe.
Qed.

(** Reduce the fields of an updated state. *)
Ltac reduce :=
  cbn [fst snd sessions pending enrolling limiter config tokens trail set_sessions set_pending set_enrolling set_limiter
       set_config set_tokens set_trail limiter_reset limiter_fail].

Lemma handleLogin_spec s r e :
  let s' := fst (handleLogin s r e) in
  (∀ tok si, sessions s' !! tok = Some si → sessions s !! tok = Some si ∨
     si = mkSession (now e + sessionTTL) (now e) (ClientIP r) ∧ Method r = "POST" ∧ snd (limiter_blocked s (ClientIP r) e) = false ∧ signs_in s r e) ∧
  (∀ tok pe, pending s' !! tok = Some pe → pending s !! tok = Some pe ∨
     pe = mkPending (ClientIP r) (now e + twoFactorTTL) ∧ Method r = "POST" ∧ snd (limiter_blocked s (ClientIP r) e) = false ∧ password_given s r).
Proof.
  cbv zeta. assert (∀ s0, sessions s0 = sessions s → pending s0 = pending s → config s0 = config s →
    let y := pending_cookie s0 r e in sessions (fst y) = sessions s ∧ config (fst y) = config s ∧ pending (fst y) ⊆ pending s ∧
      (∀ tok, snd y = Some tok → TwoFactorCookie r = Some tok ∧ ∃ pe, pending s !! tok = Some pe ∧ pip pe = ClientIP r ∧ now e ≤ pexpires pe)) as HC.
  { intros s0 E1 E2 E3. unfold pending_cookie. destruct (TwoFactorCookie r) as [tok|]; cbn; [|rewrite E2; split_and!; done].
    split_and!; [done|done|rewrite E2; apply pending_valid_sub|]. intros t. destruct (snd _) eqn:E; [|done]. intros [= <-].
    rewrite E2 in E. split; [done|]. by apply pending_valid_true. }
  unfold handleLogin. destruct (String.eqb_spec (Method r) "POST") as [Em|].
  2:{ destruct (HC s eq_refl eq_refl eq_refl) as (E1 & _ & E3 & _). cbn [fst]. rewrite E1.
      split; [by left|]. intros tok pe Hp. left. by eapply lookup_weaken. }
  set (x := limiter_blocked s (ClientIP r) e). assert (sessions (fst x) = sessions s ∧ pending (fst x) = pending s ∧ config (fst x) = config s)
    as (X1 & X2 & X3) by (by unfold x, limiter_blocked).
  destruct (snd x) eqn:Eb; [cbn [fst]; rewrite X1, X2; by split; left|].
  destruct (Form r) as [f|] eqn:Ef; [|cbn [fst]; rewrite X1, X2; by split; left].
  destruct (HC (fst x) X1 X2 X3) as (E1 & E2 & E3 & E4). set (y := pending_cookie (fst x) r e) in *.
  destruct (snd y) as [tok|] eqn:Ey.
  - destruct (E4 tok eq_refl) as (Et & pe & Hpe & Hip & Hex). unfold second_step. rewrite E2.
    destruct (snd (checkSecondFactor (config s) (FormValue f "code") (now e) (saved e))) eqn:Ec; reduce; rewrite E1.
    + split.
      * intros t si. unfold session_create. rewrite lookup_insert_Some. intros [[<- <-]|[_ Hs]].
        -- right. split_and!; try done. apply (by_code s r e f tok pe); try done.
           unfold checkSecondFactor in Ec. unfold twoFactorOn. by destruct (String.eqb (TOTPSecret (config s)) "").
        -- left. by apply map_lookup_filter_Some in Hs as [? _].
      * intros t p Hp. left. eapply lookup_weaken; [|exact E3]. by apply lookup_delete_Some in Hp as [_ ?].
    + split; [by left|]. intros t p Hp. left. by eapply lookup_weaken.
  - unfold first_step. rewrite E2. destruct (String.eqb_spec (FormValue f "password") (Password (config s))) as [Ew|].
    + reduce. rewrite E2. destruct (twoFactorOn (config s)) eqn:E2f; reduce; rewrite E1.
      * split; [by left|]. intros t p. unfold pending_create. rewrite lookup_insert_Some. intros [[<- <-]|[_ Hp]].
        -- right. split_and!; try done. exists f. by split_and!.
        -- left. apply map_lookup_filter_Some in Hp as [Hp _]. by eapply lookup_weaken.
      * split.
        -- intros t si. unfold session_create. rewrite lookup_insert_Some. intros [[<- <-]|[_ Hs]].
           ++ right. split_and!; try done. by apply (by_password s r e f).
           ++ left. by apply map_lookup_filter_Some in Hs as [? _].
        -- intros t p Hp. left. by eapply lookup_weaken.
    + reduce. rewrite E1. split; [by left|]. intros t p Hp. left. by eapply lookup_weaken.
Qed.

(** A request is answered by a wrapper or reaches the mux. *)
Lemma ServeHTTP_cases prefix s r e :
  fst (ServeHTTP prefix s r e) = s ∨ ServeHTTP prefix s r e = mux s (inner prefix r) e.
Proof.
  unfold ServeHTTP, withBasePath, inner. destruct (String.eqb prefix "").
  - unfold withPanelSecurity. destruct (_ && _); [by left|by right].
  - destruct (String.eqb (Path r) prefix); [by left|]. destruct (HasPrefix _ _); [|by left].
    unfold withPanelSecurity. destruct (_ && _); [by left|by right].
Qed.

Lemma inner_same prefix r : ClientIP (inner prefix r) = ClientIP r ∧ Method (inner prefix r) = Method r ∧ Form (inner prefix r) = Form r.
Proof. unfold inner. by destruct (String.eqb prefix ""). Qed.

Lemma serve_snoc prefix xs x : ∀ s,
  fst (serve prefix s (xs ++ [x])) = fst (ServeHTTP prefix (fst (serve prefix s xs)) (fst x) (snd x)).
Proof. induction xs as [|y xs IH]; intros s; [done|]. cbn [app serve fst]. apply IH. Qed.

(** What is new in a store after one request. *)
Lemma ServeHTTP_spec prefix s r e :
  let s' := fst (ServeHTTP prefix s r e) in let q := inner prefix r in
  (∀ tok si, sessions s' !! tok = Some si → sessions s !! tok = Some si ∨
     Path q = "/login" ∧ si = mkSession (now e + sessionTTL) (now e) (ClientIP q) ∧ Method q = "POST" ∧
     snd (limiter_blocked s (ClientIP q) e) = false ∧ signs_in s q e) ∧
  (∀ tok pe, pending s' !! tok = Some pe → pending s !! tok = Some pe ∨
     Path q = "/login" ∧ pe = mkPending (ClientIP q) (now e + twoFactorTTL) ∧ Method q = "POST" ∧ 
     snd (limiter_blocked s (ClientIP q) e) = false ∧ password_given s q).
Proof.
  cbv zeta. destruct (ServeHTTP_cases prefix s r e) as [-> | ->]; [by split; left|].
  destruct (decide (Path (inner prefix r) = "/login")) as [Ep|Ep].
  - unfold mux. rewrite Ep. cbn [String.eqb]. destruct (handleLogin_spec s (inner prefix r) e) as [H1 H2].
    split; intros tok x Hx; [destruct (H1 tok x Hx); auto|destruct (H2 tok x Hx); auto].
  - destruct (mux_sub s (inner prefix r) e Ep) as [H1 H2]. split; intros tok x Hx; left; by eapply lookup_weaken.
Qed.

(** Where a half-finished login comes from. *)
Lemma pending_origin prefix c ts a xs : ∀ tok pe,
  pending (fst (serve prefix (newServer c ts a) xs)) !! tok = Some pe →
  ∃ pre y post, xs = pre ++ y :: post ∧ pe = mkPending (ClientIP (fst y)) (now (snd y) + twoFactorTTL) ∧
    password_given (fst (serve prefix (newServer c ts a) pre)) (inner prefix (fst y)).
Proof.
  induction xs as [|x xs IH] using rev_ind; intros tok pe Hp; [cbn in Hp; by rewrite lookup_empty in Hp|].
  rewrite serve_snoc in Hp. destruct (proj2 (ServeHTTP_spec prefix _ (fst x) (snd x)) _ _ Hp) as [H|(_ & -> & _ & _ & H)].
  - destruct (IH _ _ H) as (pre & y & post & -> & Hy). exists pre, y, (post ++ [x]). split; [by rewrite <- app_assoc|done].
  - exists xs, x, []. split_and!; try done. by rewrite (proj1 (inner_same prefix (fst x))).
Qed.

(** Nobody gets in without the credentials. Whatever requests reach a
    freshly started panel, each session there is was made by a sign-in from
    the address it names, which the limiter let through: by the password,
    while no second factor was on; or, while one was, by a code or a recovery
    code that the panel accepted, from an address that had given the password
    within the three minutes before. *)
Theorem login_needs_both prefix c ts a xs tok si :
  let panel := λ l, fst (serve prefix (newServer c ts a) l) in
  sessions (panel xs) !! tok = Some si →
  ∃ pre x post, xs = pre ++ x :: post ∧
    let r := inner prefix (fst x) in let e := snd x in
    Method r = "POST" ∧ Path r = "/login" ∧ sip si = ClientIP r ∧ created si = now e ∧ expires si = now e + sessionTTL ∧
    snd (limiter_blocked (panel pre) (ClientIP r) e) = false ∧
    ∃ f, Form r = Some f ∧
      (twoFactorOn (config (panel pre)) = false ∧ FormValue f "password" = Password (config (panel pre)) ∨
       twoFactorOn (config (panel pre)) = true ∧
       snd (checkSecondFactor (config (panel pre)) (FormValue f "code") (now e) (saved e)) = true ∧
       ∃ pre' y post', pre = pre' ++ y :: post' ∧ ClientIP (fst y) = ClientIP r ∧
         password_given (panel pre') (inner prefix (fst y)) ∧ now e ≤ now (snd y) + twoFactorTTL).
Proof.
  intros panel. revert tok si. unfold panel. induction xs as [|x xs IH] using rev_ind; intros tok si Hs; [cbn in Hs; by rewrite lookup_empty in Hs|].
  rewrite serve_snoc in Hs.
  destruct (proj1 (ServeHTTP_spec prefix _ (fst x) (snd x)) _ _ Hs) as [H|(Hp & -> & Hm & Hb & Hi)].
  { destruct (IH _ _ H) as (pre & y & post & -> & Hy). exists pre, y, (post ++ [x]). split; [by rewrite <- app_assoc|exact Hy]. }
  exists xs, x, []. cbv zeta. cbn [sip created expires]. split_and!; try done.
  destruct Hi as [f Hf Hw Ht|f ptok pe Hf Hc Hpe Hip Hx Ht Hok]; exists f; (split; [done|]); [by left|]. right. split_and!; try done.
  destruct (pending_origin prefix c ts a xs _ _ Hpe) as (pre & y & post & -> & -> & Hy).
  exists pre, y, post. split_and!; done.
Qed.

(** ** Lemmas: who may change the door *)

(** What lets people in, apart from sessions: the configuration, the secret
    being enrolled, and what the tokens grant. *)
Definition same_door (s s' : server) : Prop :=
  config s' = config s ∧ enrolling s' = enrolling s ∧ map Access.grant (tokens s') = map Access.grant (tokens s).

(** A caller the panel knows: a live session, or a token that has not expired. *)
Inductive proven (s : server) (r : request) (e : env) : Access.Scope → Prop :=
| proven_session tok si :
    SessionCookie r = Some tok → sessions s !! tok = Some si → now e ≤ expires si → proven s r e Access.ScopeAdmin
| proven_token t :
    t ∈ tokens s → Access.Hash t = Access.hashToken (Access.bearer (Authorization r)) →
    Access.bearer (Authorization r) ≠ "" → Access.Expired t (now e) = false →
    snd (limiter_blocked s (ClientIP r) e) = false → proven s r e (Access.scope t).

Lemma session_cookie_spec s r e :
  let x := session_cookie s r e in
  set_sessions (fst x) (sessions s) = s ∧ ∀ tok, snd x = Some tok → proven s r e Access.ScopeAdmin.
Proof.
  unfold session_cookie. destruct (SessionCookie r) as [tok|] eqn:Ec; [|by destruct s].
  split; [by destruct s|]. intros t. unfold session_valid. destruct (sessions s !! tok) as [si|] eqn:El; [|done].
  destruct (Z.ltb_spec (expires si) (now e)); [done|]. intros _. by eapply proven_session.
Qed.

Lemma identify_spec s r e :
  (Access.bearer (Authorization r) ≠ "" → snd (limiter_blocked s (ClientIP r) e) = false) →
  let x := identify s r e in
  same_door s (fst x) ∧ trail (fst x) = trail s ∧ ∀ who, snd x = Some who → IP who = ClientIP r ∧ proven s r e (scope who).
Proof.
  intros Hb. cbv zeta. destruct (session_cookie_spec s r e) as [E H]. unfold identify.
  set (y := session_cookie s r e) in *. assert (same_door s (fst y) ∧ trail (fst y) = trail s ∧ tokens (fst y) = tokens s) as (Hd & Ht & Hk).
  { rewrite <- E. by destruct (fst y). }
  destruct (snd y) as [tok|]; [split_and!; try done; intros who [= <-]; split; [done|by eapply H]|].
  destruct (String.eqb_spec (Access.bearer (Authorization r)) "") as [|Hn]; [by split_and!|].
  pose proof (Access.checkToken_spec (tokens (fst y)) (Access.bearer (Authorization r)) (now e) (saved e)) as Hs.
  pose proof (Access.checkToken_grants (tokens (fst y)) (Access.bearer (Authorization r)) (now e) (saved e)) as Hg.
  destruct Hd as (D1 & D2 & D3).
  destruct (snd (Access.checkToken _ _ _ _)) as [t|]; reduce; (split_and!; [split_and!; reduce; congruence|done|]); [|done].
  intros who [= <-]. split; [done|]. cbn [scope]. destruct (String.eqb_spec (Access.bearer (Authorization r)) ""); [done|].
  symmetry in Hs. apply last_Some_elem_of in Hs. apply list_elem_of_filter in Hs as [[Hh He] Hin]. rewrite Hk in Hin.
  apply proven_token; auto.
Qed.

(** A guarded handler: refused, or run for a caller who may. *)
Lemma guard_spec need next s r e :
  let x := guard need next s r e in
  same_door s (fst x) ∨
  ∃ s1 who, same_door s s1 ∧ trail s1 = trail s ∧ IP who = ClientIP r ∧ proven s r e (scope who) ∧
    Access.rank need ≤ Access.rank (scope who) ∧ snd x = snd (next s1 r e) ∧
    fst x = if Audit.auditable (Method r) then note (fst (next s1 r e)) r e who (code (snd x)) else fst (next s1 r e).
Proof.
  cbv zeta. unfold guard. set (b := if String.eqb (Access.bearer (Authorization r)) "" then (s, false) else limiter_blocked s (ClientIP r) e).
  assert (same_door s (fst b) ∧ trail (fst b) = trail s ∧ tokens (fst b) = tokens s ∧ sessions (fst b) = sessions s) as (Hd & Ht & Hk & Hse).
  { unfold b. by destruct (String.eqb _ ""). }
  destruct (snd b) eqn:Eb; [by left|].
  assert (Access.bearer (Authorization r) ≠ "" → snd (limiter_blocked s (ClientIP r) e) = false ∧ fst b = fst (limiter_blocked s (ClientIP r) e)) as Hb.
  { intros Hn. unfold b in *. by destruct (String.eqb_spec (Access.bearer (Authorization r)) ""). }
  assert (Access.bearer (Authorization r) ≠ "" → snd (limiter_blocked (fst b) (ClientIP r) e) = false) as Hb2.
  { intros Hn. destruct (Hb Hn) as [H ->]. revert H. unfold limiter_blocked. reduce. unfold Limiter.blocked.
    destruct (limiter s !! ClientIP r) as [x|] eqn:El; reduce; [|by rewrite El].
    destruct (Limiter.isBlocked x (now e)) eqn:Ei; reduce; [done|]. intros _.
    destruct (Limiter.until x); reduce; [by rewrite lookup_delete_eq|rewrite El]. by rewrite Ei. }
  destruct (identify_spec (fst b) r e Hb2) as (Hd2 & Ht2 & Hw). set (x := identify (fst b) r e) in *.
  assert (same_door s (fst x)) as Hd3 by (destruct Hd as (?&?&?), Hd2 as (?&?&?); split_and!; congruence).
  destruct (snd x) as [who|] eqn:Ex.
  2:{ left. destruct (_ || _ || _); done. }
  destruct (Hw who eq_refl) as [Hip Hp].
  destruct (Z.ltb_spec (Access.rank (scope who)) (Access.rank need)).
  { left. destruct (_ || _ || _); done. }
  right. exists (fst x), who. split_and!; [done|congruence|done| |lia| |].
  - inversion Hp as [tok si H1 H2 H3|t H1 H2 H3 H4 H5]; [eapply proven_session; [done|by rewrite <- Hse|done]|].
    rewrite Hk in H1. apply proven_token; try done. by apply Hb.
  - by destruct (Audit.auditable (Method r)).
  - by destruct (Audit.auditable (Method r)).
Qed.

(** A handler that keeps no record of its own. *)
Definition quiet (next : guarded) : Prop := ∀ s r e, trail (fst (next s r e)) = trail s.

Lemma quiet_admin : quiet handleTOTP ∧ quiet handlePassword ∧ quiet handleSessions ∧ quiet handleTokens ∧
  quiet (handlePanelPort inUse) ∧ quiet handlePanelCert.
Proof.
  unfold quiet. split_and!; intros s r e; unfold handleTOTP, handlePassword, handleSessions, handleTokens, handlePanelPort, handlePanelCert;
  repeat match goal with
  | |- context [match Form r with _ => _ end] => destruct (Form r)
  | |- context [match Access.ParseScope ?x with _ => _ end] => destruct (Access.ParseScope x)
  | |- context [match Atoi ?x with _ => _ end] => destruct (Atoi x)
  | |- context [if ?c then _ else _] => destruct c
  end; done.
Qed.

Definition door_paths : list string :=
  ["/api/totp"; "/api/password"; "/api/sessions"; "/api/tokens"; "/api/panelport"; "/api/panelcert"; "/api/backup/import"] ++ admin_paths.

(** On the record: who, from where, what, and how it ended. The record goes
    on, except after a backup was put back, where it goes on from the backup's. *)
Definition recorded_as (s s' : server) (r : request) (e : env) (status : Z) : Prop :=
  ∃ who before, (Path r ≠ "/api/backup/import" → before = trail s) ∧
    trail s' = Audit.record before
      (Audit.mkEntry (Access.Unix (now e)) who (ClientIP r) (Method r) (Path r) (Action r) status "" "") (saved e).

Lemma admin_door next s r e :
  (∀ s, Path r ≠ "/api/backup/import" → trail (fst (next s r e)) = trail s) → Path r ∈ door_paths →
  let x := guard Access.ScopeAdmin next s r e in
  same_door s (fst x) ∨ proven s r e Access.ScopeAdmin ∧ Path r ∈ door_paths ∧
    (Audit.auditable (Method r) = true → recorded_as s (fst x) r e (code (snd x))).
Proof.
  intros Hq Hin. cbv zeta. destruct (guard_spec Access.ScopeAdmin next s r e) as [H|(s1 & who & Hd & Ht & Hip & Hp & Hr & Es & Ef)]; [by left|].
  right. split_and!; [|done|].
  - destruct (scope who); cbn in Hr; [lia|lia|done].
  - intros Ha. rewrite Ef, Ha. exists (describe who), (trail (fst (next s1 r e))). unfold note. reduce. rewrite Hip.
    split; [|done]. intros Hne. by rewrite (Hq s1 Hne), Ht.
Qed.

Lemma handleLogin_door s r e :
  let s' := fst (handleLogin s r e) in
  tokens s' = tokens s ∧ enrolling s' = enrolling s ∧
  (config s' = config s ∨ ∃ f, Form r = Some f ∧ twoFactorOn (config s) = true ∧
     snd (Totp.useRecoveryCode (RecoveryHashes (config s)) (FormValue f "code")) = true ∧
     config s' = set_second (config s) (TOTPSecret (config s)) (fst (Totp.useRecoveryCode (RecoveryHashes (config s)) (FormValue f "code")))).
Proof.
  cbv zeta. assert (∀ s0, let y := fst (pending_cookie s0 r e) in tokens y = tokens s0 ∧ enrolling y = enrolling s0 ∧ config y = config s0) as HP.
  { intros s0. unfold pending_cookie. by destruct (TwoFactorCookie r). }
  unfold handleLogin. destruct (String.eqb (Method r) "POST"); [|destruct (HP s) as (?&?&?); cbn [fst]; auto].
  set (x := limiter_blocked s (ClientIP r) e). assert (tokens (fst x) = tokens s ∧ enrolling (fst x) = enrolling s ∧ config (fst x) = config s)
    as (X1 & X2 & X3) by done.
  destruct (snd x); [cbn [fst]; auto|]. destruct (Form r) as [f|]; [|cbn [fst]; auto].
  destruct (HP (fst x)) as (Y1 & Y2 & Y3). set (y := pending_cookie (fst x) r e) in *. rewrite X1 in Y1. rewrite X2 in Y2. rewrite X3 in Y3.
  destruct (snd y) as [tok|].
  - unfold second_step. rewrite Y3. unfold checkSecondFactor.
    destruct (String.eqb_spec (TOTPSecret (config s)) "") as [|Hn]; [reduce; auto|].
    destruct (Totp.totpValid _ _ _); [reduce; auto|].
    destruct (snd (Totp.useRecoveryCode (RecoveryHashes (config s)) (FormValue f "code"))) eqn:Eu; cbn [negb]; [|reduce; auto].
    destruct (saved e); reduce; [|auto]. split_and!; [done|done|]. right. exists f. split_and!; try done.
    unfold twoFactorOn. by destruct (String.eqb_spec (TOTPSecret (config s)) "").
  - unfold first_step. rewrite Y3. destruct (String.eqb _ _); [|reduce; auto]. reduce. rewrite Y3. destruct (twoFactorOn (config s)); reduce; auto.
Qed.

Lemma mux_door s q e : Path q ≠ "/login" →
  same_door s (fst (mux s q e)) ∨ proven s q e Access.ScopeAdmin ∧ Path q ∈ door_paths ∧
    (Audit.auditable (Method q) = true → recorded_as s (fst (mux s q e)) q e (code (snd (mux s q e)))).
Proof.
  intros El. destruct quiet_admin as (Q1 & Q2 & Q3 & Q4 & Q5 & Q6). unfold mux.
  destruct (String.eqb_spec (Path q) "/login"); [done|].
  destruct (String.eqb_spec (Path q) "/logout") as [_|_].
  { left. unfold handleLogout. destruct (crossSiteNavigation q); [done|]. by destruct (SessionCookie q). }
  assert (∀ p, Path q = p → p ∈ door_paths → Path q ∈ door_paths) as HI by congruence.
  destruct (String.eqb_spec (Path q) "/api/totp"); [apply admin_door; [intros; auto|eapply HI; [done|by apply (bool_decide_unpack _)]]|].
  destruct (String.eqb_spec (Path q) "/api/password"); [apply admin_door; [intros; auto|eapply HI; [done|by apply (bool_decide_unpack _)]]|].
  destruct (String.eqb_spec (Path q) "/api/sessions"); [apply admin_door; [intros; auto|eapply HI; [done|by apply (bool_decide_unpack _)]]|].
  destruct (String.eqb_spec (Path q) "/api/tokens"); [apply admin_door; [intros; auto|eapply HI; [done|by apply (bool_decide_unpack _)]]|].
  destruct (String.eqb_spec (Path q) "/api/panelport"); [apply admin_door; [intros; auto|eapply HI; [done|by apply (bool_decide_unpack _)]]|].
  destruct (String.eqb_spec (Path q) "/api/panelcert"); [apply admin_door; [intros; auto|eapply HI; [done|by apply (bool_decide_unpack _)]]|].
  destruct (String.eqb_spec (Path q) "/api/backup/import") as [Ei|].
  { apply admin_door; [by intros ? Hn|eapply HI; [done|by apply (bool_decide_unpack _)]]. }
  case_bool_decide as Ha; [apply admin_door; [intros; auto|apply elem_of_app; by right]|].
  assert (∀ need, same_door s (fst (guard need handle_other s q e))) as HO.
  { intros need. destruct (guard_spec need handle_other s q e) as [?|(s1 & who & Hd & _ & _ & _ & _ & _ & ->)]; [done|].
    by destruct (Audit.auditable (Method q)). }
  left. case_bool_decide; [apply HO|]. destruct (_ || _); [done|apply HO].
Qed.

(** Only an administrator changes who can get in. Whatever request reaches
    the panel, the password, the second factor and the rest of the
    configuration, the secret being enrolled and what the tokens grant stay as
    they are, unless a sign-in spends one recovery code, or the caller has
    proved to be an administrator (a live session, or an unexpired token of
    that scope, from an address that is not kept out) on one of the routes for
    it; and unless the method is a plain read, that request is on the record
    with its outcome (on the backup's record, where it put a backup back). *)
Theorem credentials_need_admin prefix s r e :
  let s' := fst (ServeHTTP prefix s r e) in
  let q := inner prefix r in
  same_door s s' ∨
  (Path q = "/login" ∧ map Access.grant (tokens s') = map Access.grant (tokens s) ∧ enrolling s' = enrolling s ∧
   ∃ f, Form q = Some f ∧ twoFactorOn (config s) = true ∧
     let x := Totp.useRecoveryCode (RecoveryHashes (config s)) (FormValue f "code") in
     snd x = true ∧ config s' = set_second (config s) (TOTPSecret (config s)) (fst x)) ∨
  proven s q e Access.ScopeAdmin ∧ Path q ∈ door_paths ∧
    (Audit.auditable (Method q) = true → recorded_as s s' q e (code (snd (ServeHTTP prefix s r e)))).
Proof.
  cbv zeta. destruct (ServeHTTP_cases prefix s r e) as [-> | ->]; [by left|].
  destruct (decide (Path (inner prefix r) = "/login")) as [El|El].
  - assert (mux s (inner prefix r) e = handleLogin s (inner prefix r) e) as -> by (unfold mux; by rewrite El).
    destruct (handleLogin_door s (inner prefix r) e) as (H1 & H2 & [H3|(f & H3 & H4 & H5 & H6)]);
      [left; split_and!; [exact H3|exact H2|by rewrite H1]|].
    right; left. split_and!; [done|by rewrite H1|done|]. exists f. by split_and!.
  - destruct (mux_door s (inner prefix r) e El) as [H|H]; [by left|by right; right].
Qed.

(** ** What the panel's comments promise and its code does not *)

(** With the second factor on, guessing codes is not limited. Somebody who
    has the password and guesses codes is never refused: giving the password
    again clears the count of wrong codes, so any number of guesses are tried
    in one and the same instant, where the comments count on the limiter. *)
Theorem code_guesses_unlimited n c ts a ip guess tok t sv :
  twoFactorOn c = true → snd (checkSecondFactor c guess t sv) = false →
  let login := λ form cookie, mkRequest "POST" "/login" ip "" None cookie "" (Some form) "" in
  let e := mkEnv t tok [] [] [] sv in
  let round := [(login {["password" := Password c]} None, e); (login {["code" := guess]} (Some tok), e)] in
  snd (serve "" (newServer c ts a) (concat (replicate n round))) = concat (replicate n [AskCode tok; Answer 401]).
Proof.
  intros H2 Hc login e round.
  assert (fst (checkSecondFactor c guess t sv) = c) as Hcfg.
  { revert Hc. unfold checkSecondFactor. destruct (String.eqb _ ""); [done|]. destruct (Totp.totpValid _ _ _); [done|].
    destruct (negb _); [done|]. by destruct sv. }
  assert (∀ form cookie s, ServeHTTP "" s (login form cookie) e = handleLogin s (login form cookie) e) as HS by done.
  set (one := {[ip := Limiter.mkAttempt 1 None t]} : gmap string Limiter.loginAttempt).
  assert (∀ s, config s = c → limiter s = ∅ ∨ limiter s = one →
    let y := serve "" s round in config (fst y) = c ∧ limiter (fst y) = one ∧ snd y = [AskCode tok; Answer 401]) as HR.
  { intros s Es Hl. unfold round. cbn [serve fst snd]. rewrite !HS.
    assert (limiter_blocked s ip e = (s, false)) as Hb.
    { unfold limiter_blocked, Limiter.blocked. destruct s as [se pe en li co to tr]. cbn [limiter] in *.
      destruct Hl as [-> | ->]; [by rewrite lookup_empty|]. unfold one. by rewrite lookup_singleton_eq. }
    set (s1 := fst (handleLogin s (login {["password" := Password c]} None) e)).
    assert (handleLogin s (login {["password" := Password c]} None) e =
      (set_pending (set_limiter s ∅) (pending_create (pending s) tok ip t), AskCode tok)) as E1.
    { unfold handleLogin. cbn [Method login ClientIP String.eqb Ascii.eqb Bool.eqb]. rewrite Hb. cbn [fst snd Form pending_cookie TwoFactorCookie login].
      unfold first_step, FormValue. rewrite lookup_singleton_eq. cbn [from_option id]. rewrite Es, String.eqb_refl.
      assert (delete ip (limiter s) = ∅) as Ed by (destruct Hl as [-> | ->]; [apply delete_empty|apply delete_singleton_eq]).
      unfold limiter_reset, Limiter.reset. cbn [ClientIP login]. rewrite Ed. reduce. by rewrite Es, H2. }
    unfold s1. rewrite E1. cbn [fst snd]. set (s2 := set_pending (set_limiter s ∅) (pending_create (pending s) tok ip t)).
    assert (handleLogin s2 (login {["code" := guess]} (Some tok)) e = (set_limiter (set_config s2 c) one, Answer 401)) as E2.
    { unfold handleLogin. cbn [Method login ClientIP String.eqb Ascii.eqb Bool.eqb].
      assert (limiter_blocked s2 ip e = (s2, false)) as -> by (unfold limiter_blocked, Limiter.blocked; unfold s2; reduce; by rewrite lookup_empty).
      cbn [fst snd Form login]. unfold pending_cookie. cbn [TwoFactorCookie login ClientIP].
      assert (pending_valid (pending s2) tok ip t = (pending s2, true)) as Ev.
      { unfold pending_valid, s2. reduce. unfold pending_create. rewrite lookup_insert_eq. cbn [pexpires pip].
        destruct (Z.ltb_spec (t + twoFactorTTL) t) as [Hx|_]; [unfold twoFactorTTL, Minute, Second in Hx; lia|]. by rewrite String.eqb_refl. }
      change (now e) with t. rewrite Ev. cbn [fst snd]. unfold second_step, FormValue. change (now e) with t. rewrite lookup_singleton_eq. cbn [from_option id].
      assert (config (set_pending s2 (pending s2)) = c) as -> by done. change (saved e) with sv. cbv zeta. rewrite Hcfg, Hc.
      unfold limiter_fail, Limiter.fail, s2. reduce. rewrite lookup_empty. cbn [Limiter.fails Z.add].
      unfold Limiter.evictLocked. rewrite map_size_empty. done. }
    rewrite E2. cbn [fst snd]. by split_and!. }
  assert (∀ s, config s = c → limiter s = ∅ ∨ limiter s = one →
    snd (serve "" s (concat (replicate n round))) = concat (replicate n [AskCode tok; Answer 401])) as HG.
  { assert (∀ xs ys s, snd (serve "" s (xs ++ ys)) = snd (serve "" s xs) ++ snd (serve "" (fst (serve "" s xs)) ys)) as Happ.
    { induction xs as [|x xs IH]; intros ys s; [done|]. cbn [app serve fst snd]. by rewrite IH. }
    induction n as [|n IH]; intros s Es Hl; [done|]. cbn [replicate concat]. rewrite Happ.
    destruct (HR s Es Hl) as (R1 & R2 & R3). rewrite R3, IH by auto. done. }
  apply HG; [done|by left].
Qed.

(** A failed sign-in and a refused credential leave no trace: only what was
    granted, or refused to a known caller, is recorded. *)
Theorem refusals_unrecorded s r e need next :
  trail (fst (handleLogin s r e)) = trail s ∧
  (snd (guard need next s r e) = Answer 429 → snd (limiter_blocked s (ClientIP r) e) = true →
   Access.bearer (Authorization r) ≠ "" → trail (fst (guard need next s r e)) = trail s) ∧
  (Access.bearer (Authorization r) ≠ "" → snd (limiter_blocked s (ClientIP r) e) = false →
   snd (identify (fst (limiter_blocked s (ClientIP r) e)) r e) = None →
   snd (guard need next s r e) = Answer 401 ∧ trail (fst (guard need next s r e)) = trail s).
Proof.
  assert (∀ s0, trail (fst (pending_cookie s0 r e)) = trail s0) as HP by (intros s0; unfold pending_cookie; by destruct (TwoFactorCookie r)).
  split_and!.
  - unfold handleLogin. destruct (String.eqb (Method r) "POST"); [|apply HP].
    destruct (snd _); [done|]. destruct (Form r) as [f|]; [|done].
    destruct (snd (pending_cookie _ _ _)).
    + unfold second_step. destruct (snd (checkSecondFactor _ _ _ _)); reduce; exact (HP (fst (limiter_blocked s (ClientIP r) e))).
    + unfold first_step. destruct (String.eqb _ _); [|reduce; exact (HP (fst (limiter_blocked s (ClientIP r) e)))]. destruct (twoFactorOn _); reduce; exact (HP (fst (limiter_blocked s (ClientIP r) e))).
  - intros _ Hb Hn. unfold guard. destruct (String.eqb_spec (Access.bearer (Authorization r)) ""); [done|]. by rewrite Hb.
  - intros Hn Hb Hi. unfold guard. destruct (String.eqb_spec (Access.bearer (Authorization r)) ""); [done|]. rewrite Hb, Hi.
    cbn [negb orb]. rewrite orb_true_r. split; [done|]. cbn [fst].
    assert (trail (fst (identify (fst (limiter_blocked s (ClientIP r) e)) r e)) = trail (fst (limiter_blocked s (ClientIP r) e))) as ->; [|done].
    unfold identify. destruct (session_cookie_spec (fst (limiter_blocked s (ClientIP r) e)) r e) as [E _].
    assert (trail (fst (session_cookie (fst (limiter_blocked s (ClientIP r) e)) r e)) = trail (fst (limiter_blocked s (ClientIP r) e))) as Et.
    { rewrite <- E at 2. done. }
    destruct (snd (session_cookie _ _ _)); [done|]. destruct (String.eqb _ ""); [done|]. by destruct (snd (Access.checkToken _ _ _ _)).
Qed.

End walk.

(** The panel with nothing behind it, and a sign-in in two steps. *)
Definition plain_panel (c : Config) (xs : list (request * env)) : server :=
  fst (serve map_to_list (λ m, []) (λ _, false) (λ _ _, 200) (λ c _, (c, 200)) (λ _ _, None) "/bp" (newServer c [] []) xs).

Definition demo_config : Config :=
  mkConfig "hunter2!" 7777 "bp" false "" "" "GEZDGNBVGY3TQOJQGEZDGNBVGY3TQOJQ" [] "" "" "".

Definition demo_login (form : gmap string string) (cookie : option string) (t : Z) (tok : string) : request * env :=
  (mkRequest "POST" "/bp/login" "192.0.2.7" "" None cookie "same-origin" (Some form) "", mkEnv t tok [] [] [] true).

Definition demo : list (request * env) :=
  [demo_login {["password" := "hunter2!"]} None (Second * 57) "aa";
   demo_login {["code" := "287082"]} (Some "aa") (Second * 59) "bb"].

Lemma login_needs_both_witness :
  let si := mkSession (Second * 59 + sessionTTL) (Second * 59) "192.0.2.7" in
  sessions (plain_panel demo_config demo) = {["bb" := si]} ∧
  ∃ pre x post, demo = pre ++ x :: post ∧ Path (fst x) = "/bp/login" ∧ now (snd x) = Second * 59 ∧
    twoFactorOn (config (plain_panel demo_config pre)) = true ∧
    ∃ f, Form (fst x) = Some f ∧
      snd (checkSecondFactor (config (plain_panel demo_config pre)) (FormValue f "code") (now (snd x)) true) = true.
Proof.
  intros si. assert (sessions (plain_panel demo_config demo) = {["bb" := si]}) as E by (vm_compute; reflexivity).
  split; [exact E|].
  assert (sessions (plain_panel demo_config demo) !! "bb" = Some si) as Hs by (rewrite E; apply lookup_singleton_eq).
  unfold plain_panel in Hs.
  pose proof (login_needs_both map_to_list (λ m, []) (λ _, false) (λ _ _, 200) (λ c _, (c, 200)) (λ _ _, None) "/bp" demo_config [] [] demo "bb" si) as HN.
  cbv zeta in HN. specialize (HN Hs). destruct HN as (pre & x & post & Hd & H).
  destruct H as (_ & _ & _ & Hc & _ & _ & f & Hf & H).
  assert (twoFactorOn (config (plain_panel demo_config pre)) = true ∧ x ∈ demo) as [H2 Hx].
  { split; [|rewrite Hd; apply elem_of_app; right; apply list_elem_of_here].
    clear -Hd. destruct pre as [|p [|q pre]]; [by vm_compute| |].
    - injection Hd as <- _. by vm_compute.
    - injection Hd as _ _ Hd. by destruct pre. }
  exists pre, x, post. split; [exact Hd|].
  destruct H as [[Hn _]|(_ & Hok & _)]; [exfalso; unfold plain_panel in H2; congruence|].
  assert (Path (fst x) = "/bp/login" ∧ saved (snd x) = true) as [Hp Hsv].
  { clear -Hx. unfold demo in Hx. repeat (apply elem_of_cons in Hx as [-> | Hx]; [done|]). by apply elem_of_nil in Hx. }
  assert (Form (fst x) = Some f) as Hf' by (unfold inner in Hf; exact Hf).
  split; [exact Hp|]. split; [symmetry; exact Hc|]. split; [exact H2|]. exists f. split; [exact Hf'|].
  rewrite Hsv in Hok. exact Hok.
Defined.

(** ** A recovery code, twice at once

    [checkSecondFactor] reads the configuration and writes it back with
    nothing to order two sign-ins: [Load], then [Save] of what was left. *)
Inductive signin : Type :=
| Checking (given : string)
| Loaded (given : string) (c : Config)
| Answered (ok : bool).

(** Whether [checkSecondFactor] saves: an answer by recovery code does. *)
Definition spends (c : Config) (given : string) (t : Z) : bool :=
  twoFactorOn c && negb (Totp.totpValid (TOTPSecret c) given t) && snd (Totp.useRecoveryCode (RecoveryHashes c) given).

Inductive sstep (t : Z) : Config * list signin → Config * list signin → Prop :=
| sstep_load c ps i given :
    ps !! i = Some (Checking given) → sstep t (c, ps) (c, <[i := Loaded given c]> ps)
| sstep_answer c ps i given c0 :
    ps !! i = Some (Loaded given c0) →
    sstep t (c, ps) (if spends c0 given t then fst (checkSecondFactor c0 given t true) else c,
                     <[i := Answered (snd (checkSecondFactor c0 given t true))]> ps).

(** The steps are the code: run on its own, a sign-in is [checkSecondFactor]. *)
Lemma alone c given t :
  rtc (sstep t) (c, [Checking given]) (fst (checkSecondFactor c given t true), [Answered (snd (checkSecondFactor c given t true))]).
Proof.
  eapply rtc_l; [exact (sstep_load t c [Checking given] 0 given eq_refl)|].
  eapply rtc_l; [exact (sstep_answer t c [Loaded given c] 0 given c eq_refl)|].
  assert ((if spends c given t then fst (checkSecondFactor c given t true) else c) = fst (checkSecondFactor c given t true)) as ->; [|done].
  unfold spends, checkSecondFactor, twoFactorOn. destruct (String.eqb (TOTPSecret c) ""); [done|]. cbn [negb andb].
  destruct (Totp.totpValid _ _ _); [done|]. cbn [negb andb]. by destruct (snd (Totp.useRecoveryCode _ _)).
Qed.

(** Two sign-ins at once both get in with one and the same recovery code, and
    it is spent once. *)
Theorem recovery_code_twice c given t :
  spends c given t = true →
  let c' := set_second c (TOTPSecret c) (fst (Totp.useRecoveryCode (RecoveryHashes c) given)) in
  rtc (sstep t) (c, [Checking given; Checking given]) (c', [Answered true; Answered true]).
Proof.
  intros Hs. cbv zeta.
  assert (checkSecondFactor c given t true = (set_second c (TOTPSecret c) (fst (Totp.useRecoveryCode (RecoveryHashes c) given)), true)) as E.
  { revert Hs. unfold spends, checkSecondFactor, twoFactorOn. destruct (String.eqb (TOTPSecret c) ""); [done|].
    destruct (Totp.totpValid _ _ _); [done|]. by destruct (snd (Totp.useRecoveryCode _ _)). }
  eapply rtc_l; [exact (sstep_load t c [Checking given; Checking given] 0 given eq_refl)|].
  eapply rtc_l; [exact (sstep_load t c [Loaded given c; Checking given] 1 given eq_refl)|].
  eapply rtc_l; [exact (sstep_answer t c [Loaded given c; Loaded given c] 0 given c eq_refl)|].
  eapply rtc_l; [exact (sstep_answer t _ [Answered _; Loaded given c] 1 given c eq_refl)|].
  rewrite Hs, E. apply rtc_refl.
Qed.

(** A code from the phone is not spent: it is accepted again for as long as
    its window lasts. *)
Lemma phone_code_replays c given t saved :
  twoFactorOn c = true → Totp.totpValid (TOTPSecret c) given t = true →
  checkSecondFactor c given t saved = (c, true).
Proof. unfold checkSecondFactor, twoFactorOn. destruct (String.eqb _ ""); [done|]. by intros _ ->. Qed.

End Panel.
