(* ===== verification/RevWire.v ===== *)
(** What the two ends of a reverse tunnel say to each other:
    - Module [Wire]: the framing of a string, a string with a signal byte and
      a single byte ([internal/utils/binary.go], [signals.go]);
    - Module [Ack]: the control handshake, from the announcement
      ([internal/server/transport/announce.go]) to the answer and what the
      client makes of it ([internal/client/transport/handshake.go],
      [internal/utils/network/poolnonce.go], [mux.go]);
    - Module [Probe]: which handshake the client asks for ([legacyProbe]);
    - Module [Beat]: the heartbeat of the server ([control.go]) and how the
      client judges silence by it ([beatClock]).

    A connection is the list of bytes still to be read from it. *)

From Stdlib Require Import Ascii String.
From S2P Require Import Prelude GoStr GoHash.
Import GoStr.
Open Scope string_scope.
Open Scope list_scope.
Open Scope Z_scope.

Module Wire.

(** [signals.go]. *)
Definition SG_HB : Z := 0.
Definition SG_Chan : Z := 1.
Definition SG_Ping : Z := 2.
Definition SG_Closed : Z := 3.
Definition SG_TCP : Z := 4.
Definition SG_UDP : Z := 5.
Definition SG_RTT : Z := 6.
Definition SG_ChanV2 : Z := 7.
Definition SG_Pool : Z := 8.
Definition SG_Refused : Z := 9.

Definition RefusedBadToken : string := "token".
Definition RefusedInUse : string := "in-use".
Definition RefusedRestarting : string := "restarting".

(** [WebSocketSignal]; a frame's type is binary or not. *)
Definition WebSocketSignal (binary : bool) (payload : list Z) : option Z :=
  if negb binary then None else match payload with [b] => Some b | _ => None end.

(** [io.ReadFull] of [n] bytes: [None] when the stream ends before. *)
Definition ReadFull (n : nat) (s : list Z) : option (list Z * list Z) :=
  if (length s <? n)%nat then None else Some (take n s, drop n s).

Definition SendBinaryString (message : string) : list Z :=
  put_be 2 (u16 (zlen (to_bytes message))) ++ to_bytes message.

Definition ReceiveBinaryString (s : list Z) : option (string * list Z) :=
  x ← ReadFull 2 s;
  y ← ReadFull (Z.to_nat (get_be (fst x))) (snd x);
  Some (of_bytes (fst y), snd y).

Definition SendBinaryTransportString (message : string) (transport : Z) : list Z :=
  put_be 2 (u16 (zlen (to_bytes message))) ++ transport :: to_bytes message.

Definition ReceiveBinaryTransportString (s : list Z) : option (string * Z * list Z) :=
  x ← ReadFull 3 s;
  y ← ReadFull (Z.to_nat (get_be (take 2 (fst x)))) (snd x);
  Some (of_bytes (fst y), at_ (fst x) 2, snd y).

Definition SendBinaryByte (message : Z) : list Z := [message].

Definition ReceiveBinaryByte (s : list Z) : option (Z * list Z) :=
  x ← ReadFull 1 s; Some (at_ (fst x) 0, snd x).

(** ** Lemmas *)

Lemma ReadFull_app a b : ReadFull (length a) (a ++ b) = Some (a, b).
Proof.
  unfold ReadFull. rewrite length_app. destruct (Nat.ltb_spec (length a + length b) (length a)); [lia|].
  by rewrite take_app_length, drop_app_length.
Qed.

Lemma length_to_bytes s : length (to_bytes s) = String.length s.
Proof.
  unfold to_bytes. rewrite length_map. induction s as [|c s IH]; [done|]. cbn. by rewrite IH.
Qed.

Lemma receive_transport m t rest : Z.of_nat (String.length m) < 2^16 →
  ReceiveBinaryTransportString (SendBinaryTransportString m t ++ rest) = Some (m, t, rest).
Proof.
  intros H. unfold ReceiveBinaryTransportString, SendBinaryTransportString, zlen. rewrite length_to_bytes.
  set (h := put_be 2 _). assert (length h = 2%nat) as Eh by apply length_put_be.
  replace ((h ++ t :: to_bytes m) ++ rest) with ((h ++ [t]) ++ (to_bytes m ++ rest)) by (by rewrite <- !app_assoc).
  assert (3%nat = length (h ++ [t])) as -> by (rewrite length_app, Eh; done).
  rewrite ReadFull_app. cbn [mbind option_bind fst snd].
  replace (take 2 (h ++ [t])) with h by (rewrite take_app_le, take_ge; [done|lia|lia]).
  assert (get_be h = Z.of_nat (String.length m)) as ->.
  { unfold h. rewrite u16_small by lia. apply get_put_be_small. cbn. lia. }
  rewrite Nat2Z.id, <- length_to_bytes, ReadFull_app. cbn [mbind option_bind fst snd].
  rewrite of_to_bytes. unfold at_. rewrite lookup_app_r, Eh by lia. done.
Qed.

Lemma receive_string m rest : Z.of_nat (String.length m) < 2^16 →
  ReceiveBinaryString (SendBinaryString m ++ rest) = Some (m, rest).
Proof.
  intros H. unfold ReceiveBinaryString, SendBinaryString, zlen. rewrite length_to_bytes.
  set (h := put_be 2 _). assert (length h = 2%nat) as Eh by apply length_put_be.
  rewrite <- app_assoc, <- Eh, ReadFull_app. cbn [mbind option_bind fst snd].
  assert (get_be h = Z.of_nat (String.length m)) as ->.
  { unfold h. rewrite u16_small by lia. apply get_put_be_small. cbn. lia. }
  rewrite Nat2Z.id, <- length_to_bytes, ReadFull_app. cbn [mbind option_bind fst snd]. by rewrite of_to_bytes.
Qed.

(** A stream that ends inside a message is an error, never a shorter message. *)
Lemma receive_cut m t k : Z.of_nat (String.length m) < 2^16 →
  (k < length (SendBinaryTransportString m t))%nat →
  ReceiveBinaryTransportString (take k (SendBinaryTransportString m t)) = None.
Proof.
  intros H Hk. unfold ReceiveBinaryTransportString, SendBinaryTransportString, zlen in *. rewrite length_to_bytes in *.
  set (h := put_be 2 _) in *. assert (length h = 2%nat) as Eh by apply length_put_be.
  rewrite length_app, Eh in Hk. cbn [length] in Hk. rewrite length_to_bytes in Hk.
  assert (get_be h = Z.of_nat (String.length m)) as Eg.
  { unfold h. rewrite u16_small by lia. apply get_put_be_small. cbn. lia. }
  assert (∀ n l, ReadFull n l = if (length l <? n)%nat then None else Some (take n l, drop n l)) as HR by done.
  rewrite (HR 3%nat), length_take, length_app, Eh. cbn [length]. rewrite length_to_bytes.
  destruct (Nat.ltb_spec (k `min` (2 + S (String.length m))) 3); [done|]. cbn [mbind option_bind fst snd].
  rewrite take_take, (Nat.min_l 3 k) by lia. rewrite take_take.
  assert (take (2 `min` 3) (h ++ t :: to_bytes m) = h) as -> by (rewrite Nat.min_l, take_app_le, take_ge by lia; done). rewrite Eg, Nat2Z.id.
  rewrite HR, length_drop, length_take, length_app, Eh. cbn [length]. rewrite length_to_bytes.
  destruct (Nat.ltb_spec (k `min` (2 + S (String.length m)) - 3) (String.length m)); [done|lia].
Qed.

End Wire.

Module Ack.
Import Wire.

Definition poolNonceBytes : nat := 32.
Definition poolNonceHexLen : nat := 64.

(** [NewPoolNonce], of the random bytes read. *)
Definition NewPoolNonce (raw : list Z) : string := hex raw.

(** [mux.go]. *)
Definition MuxVersionAuto : Z := 0.
Definition ResolveMuxVersion (configured : Z) : Z :=
  if (configured =? 1) || (configured =? 2) then configured else 2.
Definition ResolveStaticMuxVersion (configured : Z) : Z :=
  if (configured =? 1) || (configured =? 2) then configured else 1.

(** [string(rune('0'+muxVersion))], for the one-byte runes it is used with. *)
Definition digit (v : Z) : string := String (ascii_of_nat (Z.to_nat (48 + v))) "".

Definition EncodeControlAck (token nonce : string) (muxVersion : Z) : string :=
  nonce +:+ digit muxVersion +:+ token.

Fixpoint str_take (n : nat) (s : string) : string :=
  match n, s with S n, String c s => String c (str_take n s) | _, _ => "" end.
Fixpoint str_drop (n : nat) (s : string) : string :=
  match n, s with S n, String _ s => str_drop n s | _, _ => s end.

(** [DecodeControlAck]: token, nonce and mux version. The subtraction is a
    byte's, so it is never negative. *)
Definition DecodeControlAck (ack : string) : string * string * Z :=
  if (String.length ack <? poolNonceHexLen + 1)%nat then ("", "", 0)
  else
    match str_drop poolNonceHexLen ack with
    | EmptyString => ("", "", 0)
    | String d token =>
        let v := u8 (Z.of_nat (nat_of_ascii d) - 48) in
        if (v <? 0) || (9 <? v) then ("", "", 0) else (token, str_take poolNonceHexLen ack, v)
    end.

Definition isControlSignal (sig : Z) : bool := (sig =? SG_Chan) || (sig =? SG_ChanV2).
Definition tokenMatches (got want : string) : bool := String.eqb got want.

(** [controlAck]: the answer, the nonce and the version promised. *)
Definition controlAck (sig : Z) (token : string) (muxVersion : Z) (raw : list Z) : string * string * Z :=
  if negb (sig =? SG_ChanV2) then (token, "", 0)
  else let nonce := NewPoolNonce raw in (EncodeControlAck token nonce muxVersion, nonce, muxVersion).

(** [PoolNonce.Verify]. *)
Definition Verify (want got : string) : bool :=
  if String.eqb want "" then false else String.eqb got want.

(** The client: [refusalReason], [restartingRefusal], [decodeControlAck]. *)
Inductive refusal : Type := BadToken | InUse | Refused (why : string).

Definition refusalReason (ack : string) (signal : Z) : option refusal :=
  if negb (signal =? SG_Refused) then None
  else if String.eqb ack RefusedBadToken then Some BadToken
  else if String.eqb ack RefusedInUse then Some InUse
  else Some (Refused ack).

Definition restartingRefusal (ack : string) (signal : Z) : bool :=
  (signal =? SG_Refused) && String.eqb ack RefusedRestarting.

Definition decodeControlAck (ack : string) (signal : Z) : string * string * Z :=
  if negb (signal =? SG_ChanV2) then (ack, "", 0) else DecodeControlAck ack.

(** [announcePoolConn]: what a fresh pool connection says. *)
Definition announcePoolConn (nonce : string) : list Z :=
  if String.eqb nonce "" then [] else SendBinaryTransportString nonce SG_Pool.

(** ** The two halves

    The server's answer to what a connection announces
    ([admitTunnelConn] up to the answer, with no control channel up), and what
    the client's [channelDialer] concludes from the bytes that come back. *)
Inductive verdict : Type :=
| Granted (nonce : string) (mux : Z)
| RefusedToken
| NotControl (signal : Z) (payload : string)
| Silent.

Definition server_answer (token : string) (mux : Z) (raw : list Z) (wire : list Z) : list Z * verdict * list Z :=
  match ReceiveBinaryTransportString wire with
  | None => ([], Silent, wire)
  | Some (payload, signal, rest) =>
      if isControlSignal signal then
        if tokenMatches payload token then
          let x := controlAck signal token mux raw in
          (SendBinaryTransportString (fst (fst x)) signal, Granted (snd (fst x)) (snd x), rest)
        else (SendBinaryTransportString RefusedBadToken SG_Refused, RefusedToken, rest)
      else ([], NotControl signal payload, rest)
  end.

Inductive outcome : Type :=
| Connected (nonce : string) (mux : Z)
| Turned (why : refusal)
| WrongToken
| Unanswered.

Definition client_reads (token : string) (wire : list Z) : outcome * list Z :=
  match ReceiveBinaryTransportString wire with
  | None => (Unanswered, wire)
  | Some (message, signal, rest) =>
      match refusalReason message signal with
      | Some why => (Turned why, rest)
      | None =>
          let '(got, nonce, mux) := decodeControlAck message signal in
          (if String.eqb got token then Connected nonce mux else WrongToken, rest)
      end
  end.

(** ** Lemmas *)

Lemma length_hex l : String.length (hex l) = (2 * length l)%nat.
Proof. induction l as [|b l IH]; [done|]. cbn [hex String.length length]. rewrite IH. lia. Qed.

Lemma str_drop_append n a b : String.length a = n → str_drop n (a +:+ b) = b.
Proof. intros <-. induction a as [|c a IH]; [by destruct b|done]. Qed.

Lemma str_take_append n a b : String.length a = n → str_take n (a +:+ b) = a.
Proof. intros <-. induction a as [|c a IH]; [by destruct b|]. cbn. by f_equal. Qed.

Lemma decode_encode token nonce v : String.length nonce = poolNonceHexLen → 0 ≤ v ≤ 9 →
  DecodeControlAck (EncodeControlAck token nonce v) = (token, nonce, v).
Proof.
  intros Hn Hv. unfold DecodeControlAck, EncodeControlAck.
  destruct (Nat.ltb_spec (String.length (nonce +:+ digit v +:+ token)) (poolNonceHexLen + 1)) as [H|_].
  { rewrite !length_append, Hn in H. cbn in H. lia. }
  rewrite (str_drop_append _ _ _ Hn). unfold digit. cbn [String.append].
  rewrite nat_ascii_embedding by lia.
  replace (Z.of_nat (Z.to_nat (48 + v)) - 48) with v by lia. rewrite u8_small by lia.
  destruct (Z.ltb_spec v 0); [lia|]. destruct (Z.ltb_spec 9 v); [lia|]. cbn [orb]. by rewrite (str_take_append _ _ _ Hn).
Qed.

Lemma resolved_range c : 1 ≤ ResolveMuxVersion c ≤ 2 ∧ 1 ≤ ResolveStaticMuxVersion c ≤ 2.
Proof.
  unfold ResolveMuxVersion, ResolveStaticMuxVersion.
  destruct (Z.eqb_spec c 1), (Z.eqb_spec c 2); cbn [orb]; lia.
Qed.

(** C17: the control handshake settles. Whatever tokens the two ends hold and
    whichever handshake the client speaks, the server reads the claim to its
    last byte and no further, and the client reads the answer likewise; where
    the tokens are the same both sides end up with the same nonce and the same
    mux version, the server's (none of either for the older handshake); where
    they differ the client is told it is the token, and nothing is granted. *)
Theorem handshake_settles ct st sig configured raw extra extra' :
  Z.of_nat (String.length ct) < 2^16 - 65 → Z.of_nat (String.length st) < 2^16 - 65 → isControlSignal sig = true →
  length raw = poolNonceBytes →
  let '(answer, v, rest) := server_answer st (ResolveMuxVersion configured) raw (SendBinaryTransportString ct sig ++ extra) in
  let '(o, rest') := client_reads ct (answer ++ extra') in
  rest = extra ∧ rest' = extra' ∧
  if String.eqb ct st then
    let nonce := if sig =? SG_ChanV2 then NewPoolNonce raw else "" in
    let mux := if sig =? SG_ChanV2 then ResolveMuxVersion configured else 0 in
    v = Granted nonce mux ∧ o = Connected nonce mux ∧
    ∀ got, Verify nonce got = true ↔ sig = SG_ChanV2 ∧ got = nonce
  else v = RefusedToken ∧ o = Turned BadToken.
Proof.
  intros Hct Hst Hsig Hraw. unfold server_answer. rewrite receive_transport by lia. rewrite Hsig. unfold tokenMatches.
  destruct (String.eqb_spec ct st) as [<-|Hne].
  2:{ unfold client_reads. rewrite receive_transport by done. done. }
  unfold controlAck. destruct (Z.eqb_spec sig SG_ChanV2) as [->|Hn]; cbn [negb fst snd].
  - assert (String.length (NewPoolNonce raw) = poolNonceHexLen) as Hl by (unfold NewPoolNonce; rewrite length_hex, Hraw; done).
    destruct (resolved_range configured) as [Hr _].
    unfold client_reads. rewrite receive_transport.
    2:{ unfold EncodeControlAck. rewrite !length_append, Hl. unfold digit, poolNonceHexLen. cbn [String.length]. lia. }
    cbn [refusalReason negb]. change (refusalReason _ SG_ChanV2) with (@None refusal). cbn [decodeControlAck negb].
    change (decodeControlAck ?a SG_ChanV2) with (DecodeControlAck a). rewrite decode_encode by (done || lia).
    rewrite String.eqb_refl. split_and!; try done. intros got. unfold Verify.
    destruct (String.eqb_spec (NewPoolNonce raw) "") as [E|]; [rewrite E in Hl; done|]. rewrite String.eqb_eq. by split; [intros ->|intros [_ ->]].
  - unfold isControlSignal in Hsig. assert (sig = SG_Chan) as ->.
    { destruct (Z.eqb_spec sig SG_Chan); [done|]. destruct (Z.eqb_spec sig SG_ChanV2); done. }
    unfold client_reads. rewrite receive_transport by lia.
    change (refusalReason ct SG_Chan) with (@None refusal). change (decodeControlAck ct SG_Chan) with (ct, "", 0).
    cbn iota beta. rewrite String.eqb_refl. split_and!; try done. intros got. unfold Verify. by split; [|intros [? _]].
Qed.

Lemma handshake_settles_witness :
  let raw := map Z.of_nat (seq 0 32) in
  let '(answer, v, rest) := server_answer "s3cret" 2 raw (SendBinaryTransportString "s3cret" SG_ChanV2) in
  v = Granted (NewPoolNonce raw) 2 ∧ fst (client_reads "s3cret" (answer ++ [])) = Connected (NewPoolNonce raw) 2.
Proof.
  intros raw. pose proof (handshake_settles "s3cret" "s3cret" SG_ChanV2 MuxVersionAuto raw [] [] eq_refl eq_refl eq_refl eq_refl) as H.
  change (ResolveMuxVersion MuxVersionAuto) with 2 in H. rewrite app_nil_r in H.
  destruct (server_answer "s3cret" 2 raw (SendBinaryTransportString "s3cret" SG_ChanV2)) as [[answer v] rest].
  destruct (client_reads "s3cret" (answer ++ [])) as [o rest']. destruct H as (_ & _ & H1 & H2 & _). by split.
Defined.

End Ack.

Module Probe.
Import Wire.

Definition legacyMissThreshold : Z := 2.

Record legacyProbe : Type := mkProbe { legacy : bool; answered : bool; misses : Z; warned : bool }.

Definition fresh : legacyProbe := mkProbe false false 0 false.

Definition signal (p : legacyProbe) : Z := if legacy p then SG_Chan else SG_ChanV2.

Definition ack (p : legacyProbe) (ackSignal : Z) : legacyProbe :=
  if ackSignal =? SG_ChanV2 then mkProbe false true 0 (warned p)
  else mkProbe (legacy p) (answered p) 0 (warned p).

(** [miss]; the second result is whether the warning is logged. *)
Definition miss (p : legacyProbe) (sent : Z) : legacyProbe * bool :=
  if negb (sent =? SG_ChanV2) then (p, false)
  else if answered p then (p, false)
  else
    let p := mkProbe (legacy p) (answered p) (misses p + 1) (warned p) in
    if misses p <? legacyMissThreshold then (p, false)
    else if legacy p then (p, false)
    else if warned p then (mkProbe true (answered p) (misses p) true, false)
    else (mkProbe true (answered p) (misses p) true, true).

Definition reset (p : legacyProbe) : legacyProbe := mkProbe false (answered p) 0 (warned p).

(** What a round of [channelDialer] meets with: the server closes without an
    answer, answers (a grant or a refusal), or nothing comes back in time; and
    [Restart] between rounds. Each round asks with the probe's signal. *)
Inductive event : Type := Closed | AnsweredWith (ackSignal : Z) | TimedOut | Restarted.

Definition round (p : legacyProbe) (e : event) : legacyProbe :=
  match e with
  | Closed => fst (miss p (signal p))
  | AnsweredWith sig => ack p sig
  | TimedOut => p
  | Restarted => reset p
  end.

Definition run (es : list event) : legacyProbe := fold_left round es fresh.

Definition is_closed (e : event) : bool := match e with Closed => true | _ => false end.

(** How many closed attempts there were in a stretch. *)
Definition closes (es : list event) : nat := length (filter (λ e, is_closed e = true) es).

Definition proved (es : list event) : Prop := AnsweredWith SG_ChanV2 ∈ es.

(** What the probe knows, by the events behind it. *)
Record knows (es : list event) (p : legacyProbe) : Prop := {
  knows_answered : answered p = true ↔ proved es;
  knows_legacy : answered p = true → legacy p = false;
  knows_misses : legacy p = false → ∃ pre post, es = pre ++ post ∧ Restarted ∉ post ∧ misses p ≤ Z.of_nat (closes post);
  knows_two : legacy p = true → ∃ pre post, es = pre ++ post ∧ Restarted ∉ post ∧ (2 ≤ closes post)%nat;
}.

Lemma closes_snoc es e : closes (es ++ [e]) = (closes es + if is_closed e then 1 else 0)%nat.
Proof. unfold closes. rewrite filter_app, length_app, filter_cons, filter_nil. by destruct e. Qed.

(** A stretch after the last restart goes on with the next event. *)
Lemma stretch es e n :
  (∃ pre post, es = pre ++ post ∧ Restarted ∉ post ∧ (n ≤ closes post)%nat) → e ≠ Restarted →
  ∃ pre post, es ++ [e] = pre ++ post ∧ Restarted ∉ post ∧ (n + (if is_closed e then 1 else 0) ≤ closes post)%nat.
Proof.
  intros (pre & post & -> & Hp & Hn) He. exists pre, (post ++ [e]). split_and!; [by rewrite app_assoc| |rewrite closes_snoc; lia].
  rewrite elem_of_app, list_elem_of_singleton. by intros [?|<-].
Qed.

Lemma stretch_nil es e : ∃ pre post, es ++ [e] = pre ++ post ∧ Restarted ∉ post ∧ (0 ≤ closes post)%nat.
Proof. exists (es ++ [e]), []. rewrite app_nil_r. split_and!; [done|by apply not_elem_of_nil|lia]. Qed.

Lemma proved_snoc es e : proved (es ++ [e]) ↔ proved es ∨ e = AnsweredWith SG_ChanV2.
Proof. unfold proved. rewrite elem_of_app, list_elem_of_singleton. firstorder congruence. Qed.

Lemma knows_round es p e : knows es p → 0 ≤ misses p → knows (es ++ [e]) (round p e) ∧ 0 ≤ misses (round p e).
Proof.
  intros [Ka Kl Km Kt] Hm0.
  assert (∀ n : nat, (∃ pre post, es ++ [e] = pre ++ post ∧ Restarted ∉ post ∧ (n ≤ closes post)%nat) → ∀ z, z ≤ Z.of_nat n →
    ∃ pre post, es ++ [e] = pre ++ post ∧ Restarted ∉ post ∧ z ≤ Z.of_nat (closes post)) as HZ.
  { intros n (pre & post & H1 & H2 & H3) z Hz. exists pre, post. split_and!; [done|done|lia]. }
  assert (legacy p = false → ∃ pre post, es = pre ++ post ∧ Restarted ∉ post ∧ (Z.to_nat (misses p) ≤ closes post)%nat) as Km'.
  { intros Hl. destruct (Km Hl) as (pre & post & H1 & H2 & H3). exists pre, post. split_and!; [done|done|lia]. }
  assert (∀ n m : nat, (m ≤ n)%nat → (∃ pre post, es ++ [e] = pre ++ post ∧ Restarted ∉ post ∧ (n ≤ closes post)%nat) →
    ∃ pre post, es ++ [e] = pre ++ post ∧ Restarted ∉ post ∧ (m ≤ closes post)%nat) as HN.
  { intros n m Hnm (pre & post & H1 & H2 & H3). exists pre, post. split_and!; [done|done|lia]. }
  destruct e as [|sig| |]; cbn [round].
  - (* closed *)
    unfold miss. destruct (Z.eqb_spec (signal p) SG_ChanV2) as [Es|Es]; cbn [negb].
    2:{ (* the older handshake was asked for *)
      assert (legacy p = true) as El by (unfold signal in Es; destruct (legacy p); done). cbn [fst]. split; [|done]. split.
      - rewrite proved_snoc, <- Ka. split; [auto|by intros [?|?]].
      - done.
      - congruence.
      - intros _. eapply HN; [|apply (stretch _ Closed _ (Kt El)); done]. lia. }
    assert (legacy p = false) as El by (unfold signal in Es; destruct (legacy p); done).
    destruct (answered p) eqn:Ea; cbn [fst].
    { split; [|done]. split.
      - rewrite proved_snoc, <- Ka. split; [auto|by intros [?|?]].
      - done.
      - intros _. eapply HZ; [apply (stretch _ Closed _ (Km' El)); done|lia].
      - congruence. }
    pose proof (stretch _ Closed _ (Km' El)) as Hs. cbn [is_closed] in Hs. specialize (Hs ltac:(done)).
    assert (proved (es ++ [Closed]) → False) as Hp.
    { rewrite proved_snoc, <- Ka. by intros [?|?]. }
    cbn [misses legacy warned]. rewrite El.
    destruct (Z.ltb_spec (misses p + 1) legacyMissThreshold) as [Hlt|Hge].
    { cbn [fst misses]. split; [|lia]. split; cbn [answered legacy misses]; rewrite ?Ea; [by split|done| |congruence].
      intros _. eapply HZ; [exact Hs|lia]. }
    assert (2 ≤ Z.to_nat (misses p) + 1)%nat as H2 by (unfold legacyMissThreshold in Hge; lia).
    destruct (warned p); cbn [fst misses]; (split; [|lia]); (split; cbn [answered legacy misses]; rewrite ?Ea; [by split|done|done|]);
    intros _; by eapply HN.
  - (* an answer *)
    unfold ack. destruct (Z.eqb_spec sig SG_ChanV2) as [->|Hn]; (split; [|done]).
    + split; cbn [answered legacy misses].
      * rewrite proved_snoc. split; [by right|done].
      * done.
      * intros _. eapply HZ; [apply stretch_nil|lia].
      * done.
    + split; cbn [answered legacy misses].
      * rewrite Ka, proved_snoc. split; [auto|]. intros [?|[= ->]]; done.
      * exact Kl.
      * intros _. eapply HZ; [apply stretch_nil|lia].
      * intros El. eapply HN; [|apply (stretch _ (AnsweredWith sig) _ (Kt El)); done]. lia.
  - (* nothing in time *)
    split; [|done]. split.
    + rewrite Ka, proved_snoc. split; [auto|by intros [?|?]].
    + exact Kl.
    + intros El. eapply HZ; [apply (stretch _ TimedOut _ (Km' El)); done|lia].
    + intros El. eapply HN; [|apply (stretch _ TimedOut _ (Kt El)); done]. lia.
  - (* a fresh run *)
    split; [|done]. split; cbn [reset answered legacy misses].
    + rewrite Ka, proved_snoc. split; [auto|by intros [?|?]].
    + done.
    + intros _. eapply HZ; [apply stretch_nil|lia].
    + done.
Qed.

Lemma knows_run es : knows es (run es) ∧ 0 ≤ misses (run es).
Proof.
  unfold run. induction es as [|e es IH] using rev_ind.
  - split; [|done]. split; cbn.
    + by split; [|intros ?%elem_of_nil].
    + done.
    + intros _. exists [], []. split_and!; [done|by apply not_elem_of_nil|done].
    + done.
  - rewrite fold_left_app. cbn [fold_left]. destruct IH. by apply knows_round.
Qed.

(** The client asks for the older handshake only with reason. Whatever a
    client has met with so far, it asks for the current handshake unless at
    least two attempts have been closed unanswered since it last restarted;
    and a server that has once answered the current handshake is asked for it
    for ever after. *)
Theorem fallback_has_reason es :
  (proved es → signal (run es) = SG_ChanV2) ∧
  (signal (run es) = SG_Chan → ∃ pre post, es = pre ++ post ∧ Restarted ∉ post ∧ (2 ≤ closes post)%nat).
Proof.
  destruct (knows_run es) as [[Ka Kl _ Kt] _]. unfold signal. split.
  - intros Hp. by rewrite Kl by (by apply Ka).
  - destruct (legacy (run es)) eqn:El; [|done]. intros _. by apply Kt.
Qed.

Lemma fallback_has_reason_witness :
  signal (run [Closed; Closed]) = SG_Chan ∧ signal (run [AnsweredWith SG_ChanV2; Closed; Closed; Closed]) = SG_ChanV2.
Proof.
  split; [by vm_compute|]. apply (fallback_has_reason [AnsweredWith SG_ChanV2; Closed; Closed; Closed]). apply list_elem_of_here.
Defined.

End Probe.

Module Beat.

Definition Millisecond : Z := 1000 * 1000.
Definition Second : Z := 1000 * Millisecond.

(** ** The server: [control.go] *)

Definition maxLivenessBeat : Z := 10 * Second.

Definition livenessBeat (configured : Z) : Z :=
  if (configured <=? 0) || (maxLivenessBeat <? configured) then maxLivenessBeat else configured.

Definition livenessWarmup : list Z := map (Z.mul Millisecond) [100; 200; 400; 800; 1600; 3200; 6400].

(** The wait before heartbeat [i]. *)
Definition livenessGap (i : nat) (steady : Z) : Z :=
  match livenessWarmup !! i with Some w => Z.min w steady | None => steady end.

(** ** The client: [handshake.go] *)

Definition controlIdleFallback : Z := 120 * Second.
Definition controlIdleFloor : Z := 30 * Second.

Definition controlDeadline (keepAlive : Z) : Z :=
  if keepAlive <=? 0 then controlIdleFallback
  else let d := keepAlive + keepAlive `quot` 2 in if controlIdleFloor <? d then d else controlIdleFloor.

Definition warmupEvidence : Z := 700 * Millisecond.
Definition beatHistory : nat := 4.
Definition beatsToLearn : nat := 3.
Definition livenessFloor : Z := 15 * Second.

(** [last] is [None] for the zero time. *)
Record beatClock : Type := mkClock { opened : Z; last_ : option Z; gaps : list Z; quick : bool }.

Definition newBeatClock (now : Z) : beatClock := mkClock now None [] false.

Definition beat (b : beatClock) (now : Z) : beatClock :=
  match last_ b with
  | None => mkClock (opened b) (Some now) (gaps b) (if now - opened b <? warmupEvidence then true else quick b)
  | Some t =>
      let gs := gaps b ++ [now - t] in
      mkClock (opened b) (Some now) (if (beatHistory <? length gs)%nat then drop 1 gs else gs) (quick b)
  end.

Definition worst (gs : list Z) : Z := fold_left Z.max gs 0.

Definition deadline (b : beatClock) (keepAlive : Z) : Z :=
  let base := controlDeadline keepAlive in
  if (length (gaps b) <? beatsToLearn)%nat then
    if quick b then Z.min livenessFloor base else base
  else Z.min (Z.max (3 * worst (gaps b)) livenessFloor) base.

(** The reader of [channelHandler]: it gives up when nothing has come within
    the deadline set when it began to wait. What comes is a heartbeat or
    another signal; [inr] is when it gave up, [inl] what it is left with. *)
Fixpoint listen (keepAlive : Z) (b : beatClock) (t : Z) (arrivals : list (Z * bool)) : (beatClock * Z) + Z :=
  match arrivals with
  | [] => inl (b, t)
  | (a, hb) :: arrivals =>
      if t + deadline b keepAlive <? a then inr (t + deadline b keepAlive)
      else listen keepAlive (if hb then beat b a else b) a arrivals
  end.

(** When the client gives up on a server from which nothing more comes. *)
Definition gives_up (keepAlive opened : Z) (beats : list Z) : Z :=
  match listen keepAlive (newBeatClock opened) opened (map (λ a, (a, true)) beats) with
  | inl (b, t) => t + deadline b keepAlive
  | inr t => t
  end.

(** Heartbeats number [k] and on, of a server whose previous one was sent at
    [sent] and arrived at [prev]: each arrives in order and within [J]. *)
Fixpoint beats_arrive (steady J : Z) (k : nat) (sent prev : Z) (arr : list Z) : Prop :=
  match arr with
  | [] => True
  | a :: arr =>
      let sent := sent + livenessGap k steady in
      sent ≤ a ≤ sent + J ∧ prev ≤ a ∧ beats_arrive steady J (S k) sent a arr
  end.

(** ** Lemmas *)

Lemma controlDeadline_floor k : 30 * Second ≤ controlDeadline k.
Proof.
  unfold controlDeadline, controlIdleFallback, controlIdleFloor, Second, Millisecond. destruct (Z.leb_spec k 0); [lia|].
  destruct (Z.ltb_spec (30 * (1000 * (1000 * 1000))) (k + k `quot` 2)); lia.
Qed.

Lemma deadline_bounds b k : 15 * Second ≤ deadline b k ≤ controlDeadline k.
Proof.
  pose proof (controlDeadline_floor k) as H. unfold deadline, livenessFloor. unfold Second, Millisecond in *.
  destruct (_ <? _)%nat; [destruct (quick b); lia|lia].
Qed.

Lemma livenessGap_range i steady : 0 < steady ≤ 10 * Second → 0 < livenessGap i steady ≤ 10 * Second.
Proof.
  intros H. unfold livenessGap. destruct (livenessWarmup !! i) as [w|] eqn:E; [|done].
  assert (0 < w) as Hw.
  { apply list_elem_of_lookup_2, list_elem_of_In, in_map_iff in E as (x & <- & Hx).
    assert (0 < x) by (cbn in Hx; lia). unfold Millisecond. lia. }
  lia.
Qed.

Lemma livenessBeat_range c : 0 < livenessBeat c ≤ 10 * Second.
Proof.
  unfold livenessBeat, maxLivenessBeat. destruct (Z.leb_spec c 0), (Z.ltb_spec (10 * Second) c); cbn [orb];
    unfold Second, Millisecond in *; lia.
Qed.

Lemma worst_le m gs : 0 ≤ m → Forall (λ g, g ≤ m) gs → worst gs ≤ m.
Proof.
  unfold worst. intros Hm H. assert (∀ a, a ≤ m → fold_left Z.max gs a ≤ m) as HF; [|by apply HF].
  induction H as [|g gs Hg _ IH]; intros a Ha; [done|]. cbn [fold_left]. apply IH. lia.
Qed.

(** What the clock holds after some beats. *)
Definition tempo (m : Z) (b : beatClock) (t : Z) : Prop := last_ b = Some t ∧ Forall (λ g, g ≤ m) (gaps b).

Lemma beat_tempo m b t a : tempo m b t → a - t ≤ m → tempo m (beat b a) a ∧ quick (beat b a) = quick b.
Proof.
  intros [Hl Hg] Ha. unfold tempo, beat. rewrite Hl. cbn [last_ gaps quick]. split; [|done]. split; [done|].
  assert (Forall (λ g, g ≤ m) (gaps b ++ [a - t])) by (apply Forall_app; split; [done|by apply Forall_singleton]).
  destruct (_ <? _)%nat; [by apply Forall_drop|done].
Qed.

Lemma tempo_deadline m b t k : 0 ≤ m → tempo m b t → quick b = true → deadline b k ≤ Z.max (3 * m) (15 * Second).
Proof.
  intros Hm [_ Hg] Hq. unfold deadline. rewrite Hq. pose proof (worst_le m _ Hm Hg).
  destruct (_ <? _)%nat; unfold livenessFloor; lia.
Qed.

Lemma last_cons_default {A} (a d : A) l : default d (last (a :: l)) = default a (last l).
Proof. rewrite last_cons. by destruct (last l). Qed.

(** While beats come on time the client goes on listening. *)
Lemma listen_on keepAlive steady J : 0 < steady ≤ 10 * Second → 0 ≤ J ≤ 5 * Second →
  ∀ arr k sent prev b, sent ≤ prev → beats_arrive steady J k sent prev arr → tempo (10 * Second + J) b prev →
  ∃ b', listen keepAlive b prev (map (λ a, (a, true)) arr) = inl (b', default prev (last arr)) ∧
    tempo (10 * Second + J) b' (default prev (last arr)) ∧ quick b' = quick b.
Proof.
  intros Hs HJ. induction arr as [|a arr IH]; intros k sent prev b Hsp Ha Ht; [by exists b|].
  cbn [beats_arrive] in Ha. destruct Ha as (Hsent & Hord & Ha).
  pose proof (livenessGap_range k steady Hs) as Hg. pose proof (deadline_bounds b keepAlive) as Hd. cbn [map listen].
  destruct (Z.ltb_spec (prev + deadline b keepAlive) a); [unfold Second, Millisecond in *; lia|].
  destruct (beat_tempo (10 * Second + J) b prev a Ht) as [Ht' Hq]; [lia|].
  destruct (IH _ _ _ (beat b a) (proj1 Hsent) Ha Ht') as (b' & E & Hb & Hq'). exists b'.
  rewrite last_cons_default. split_and!; [done|done|congruence].
Qed.

(** Silence is judged rightly. As long as a server of this version keeps
    beating, at whatever rate it is set to, and each beat arrives within five
    seconds, no client gives it up, whatever its keepalive: it waits fifteen
    seconds or more from the last beat. It never waits longer than the
    keepalive rule; and when the server dies, however soon after its first
    beat, a client to which beats came within [J] (less than 600 ms) notices
    within thirty seconds and three times [J]. *)
Theorem silence_judged configured keepAlive o arr J :
  0 ≤ J ≤ 5 * Second → beats_arrive (livenessBeat configured) J 0 o o arr →
  let heard := default o (last arr) in
  heard + 15 * Second ≤ gives_up keepAlive o arr ≤ heard + controlDeadline keepAlive ∧
  (arr ≠ [] → J < 600 * Millisecond → gives_up keepAlive o arr ≤ heard + 30 * Second + 3 * J).
Proof.
  intros HJ Ha. cbv zeta. unfold gives_up. destruct arr as [|a arr].
  { cbn [map listen last from_option id]. pose proof (deadline_bounds (newBeatClock o) keepAlive). split; [lia|done]. }
  pose proof (livenessBeat_range configured) as Hs. set (steady := livenessBeat configured) in *.
  cbn [beats_arrive] in Ha. destruct Ha as (Hsent & Hord & Ha). pose proof (livenessGap_range 0 steady Hs) as Hg.
  assert (livenessGap 0 steady ≤ 100 * Millisecond) as Hg0 by (unfold livenessGap; cbn [livenessWarmup map lookup list_lookup]; lia).
  cbn [map listen]. pose proof (deadline_bounds (newBeatClock o) keepAlive) as Hd.
  destruct (Z.ltb_spec (o + deadline (newBeatClock o) keepAlive) a); [unfold Second, Millisecond in *; lia|].
  assert (tempo (10 * Second + J) (beat (newBeatClock o) a) a) as Ht by (split; [done|constructor]).
  destruct (listen_on keepAlive steady J Hs HJ arr _ _ a _ (proj1 Hsent) Ha Ht) as (b & -> & Hb & Hq).
  rewrite last_cons_default. set (heard := default a (last arr)) in *. pose proof (deadline_bounds b keepAlive).
  split; [lia|]. intros _ HJ'. assert (quick b = true) as Hq1.
  { rewrite Hq. unfold beat, newBeatClock. cbn [last_ opened quick]. unfold warmupEvidence.
    destruct (Z.ltb_spec (a - o) (700 * Millisecond)); [done|unfold Millisecond in *; lia]. }
  pose proof (tempo_deadline (10 * Second + J) b heard keepAlive) as HT. unfold Second, Millisecond in *.
  specialize (HT ltac:(lia) Hb Hq1). lia.
Qed.

Lemma silence_judged_witness :
  let arr := map (Z.mul Millisecond) [150; 310; 700; 1500; 3300; 6300; 12700; 22900] in
  gives_up (75 * Second) 0 arr = 22900 * Millisecond + 3 * (10200 * Millisecond) ∧
  gives_up (75 * Second) 0 arr ≤ 22900 * Millisecond + 30 * Second + 3 * (200 * Millisecond).
Proof.
  intros arr. split; [by vm_compute|].
  destruct (silence_judged (40 * Second) (75 * Second) 0 arr (200 * Millisecond)) as [_ H].
  - by vm_compute.
  - vm_compute. repeat split; discriminate.
  - apply H; done.
Defined.

(** The comment on [beatClock] tolerates two lost beats in a row. During the
    warm-up the gaps double, so three times the longest one is not enough: with
    one beat lost (the one due at 12.7 s) the client gives up before the next. *)
Example one_lost_beat :
  let due := map (Z.mul Millisecond) [100; 300; 700; 1500; 3100; 6300; 12700; 22700] in
  let heard := take 6 due ++ drop 7 due in
  beats_arrive (livenessBeat (40 * Second)) 0 0 0 0 due ∧
  listen (75 * Second) (newBeatClock 0) 0 (map (λ a, (a, true)) heard) = inr (21300 * Millisecond).
Proof. split; [vm_compute; repeat split; discriminate|by vm_compute]. Qed.

End Beat.
