(* ===== verification/RevServer.v ===== *)
(** The server end of a reverse tunnel over TCP
    ([internal/server/transport/tcp.go], [control.go], [announce.go]): who is
    admitted as the control channel and into the pool, and how a run of the
    transport is replaced by the next (Module [Control]).

    Every goroutine is a job, and a job advances by one access to what they
    share at a time: [IsSet], [Get] and [RemoteAddr] are different steps. A
    state is what is shared (the control channel, the nonce, the runs with
    their channels) and the jobs in flight; an execution interleaves them in
    any order. [proved] is a history: the claims that presented the token, with
    the nonce each was answered with. The parent context does not end, and a
    connection's announcement is whatever its peer chooses to send. *)

From Stdlib Require Import Ascii String.
From S2P Require Import Prelude GoStr RevWire.
Import Wire Ack.
Open Scope string_scope.
Open Scope list_scope.
Open Scope Z_scope.

Module Control.

(** A connection, and its host as [sameHost] compares it. *)
Record conn : Type := mkConn { cid : nat; host : string }.

#[export] Instance conn_eq_dec : EqDecision conn.
Proof. solve_decision. Defined.

Definition sameHost (a b : conn) : bool := String.eqb (host a) (host b).

(** [controlCandidate]; a transport over TCP settles no mux version. *)
Record controlCandidate : Type := mkCandidate { cconn : conn; cnonce : string }.

(** What let a connection into the pool: the nonce it presented, or the
    address of the control channel beside it ([None] where that was gone). *)
Inductive pass : Type := Presented (nonce : string) | Beside (peer : option conn).

(** [tcpGen]: one run. *)
Record tcpGen : Type := mkGen {
  cancelled : bool;                        (* ctx *)
  handshakeChannel : option controlCandidate;   (* a buffer of one *)
  tunnelChannel : list (conn * pass)
}.

Definition newGen : tcpGen := mkGen false None [].

Record shared : Type := mkShared {
  controlChannel : option conn;
  poolNonce : string;
  gens : list tcpGen;                      (* the last one is the current run *)
  restartMutex : bool;
  proved : list (conn * string)
}.

Inductive job : Type :=
(* admitTunnelConn *)
| Admitting (g : nat) (c : conn)
| AskNonce (g : nat) (c : conn)
| AskPeer (g : nat) (c : conn)
| Reading (g : nat) (c : conn)
| Verifying (g : nat) (c : conn) (payload : string)
| Delivering (g : nat) (c : conn) (p : pass)
(* admitControlChannel, once the token is right *)
| Answering (g : nat) (c : conn) (nonce : string)
| Offering (g : nat) (c : conn) (nonce : string)
(* start and channelHandshake *)
| Handshaking (g : nat)
| SetNonce (g : nat) (x : controlCandidate)
| SetControl (g : nat) (x : controlCandidate)
| Started (g : nat)
(* channelHandler: its reader, and the rest *)
| Reader (g : nat)
| Handler (g : nat)
(* Restart *)
| Restart
| Stop
| Close
| ClearControl
| ClearNonce
| Launch.

(** What a step depends on besides the shared state: the announcement that
    arrived, if any, a fresh nonce, and which way a [select] or a write goes. *)
Record input : Type := mkInput { announced : option (string * Z); fresh : string; other : bool }.

Definition is_set (s : shared) : bool := match controlChannel s with Some _ => true | None => false end.

Definition gen_of (s : shared) (g : nat) : tcpGen := default newGen (gens s !! g).

Definition set_gen (s : shared) (g : nat) (G : tcpGen) : shared :=
  mkShared (controlChannel s) (poolNonce s) (<[g := G]> (gens s)) (restartMutex s) (proved s).
Definition set_control (s : shared) (c : option conn) : shared :=
  mkShared c (poolNonce s) (gens s) (restartMutex s) (proved s).
Definition set_nonce (s : shared) (n : string) : shared :=
  mkShared (controlChannel s) n (gens s) (restartMutex s) (proved s).
Definition set_mutex (s : shared) (b : bool) : shared :=
  mkShared (controlChannel s) (poolNonce s) (gens s) b (proved s).
Definition prove (s : shared) (c : conn) (n : string) : shared :=
  mkShared (controlChannel s) (poolNonce s) (gens s) (restartMutex s) ((c, n) :: proved s).

Definition cancel (G : tcpGen) : tcpGen := mkGen true (handshakeChannel G) (tunnelChannel G).
Definition offer (G : tcpGen) (x : option controlCandidate) : tcpGen := mkGen (cancelled G) x (tunnelChannel G).
Definition pool_add (G : tcpGen) (x : conn * pass) : tcpGen :=
  mkGen (cancelled G) (handshakeChannel G) (tunnelChannel G ++ [x]).

Section server.
Context (token : string) (ChannelSize : nat).

(** One step of a goroutine: the shared state after, and what it goes on as.
    [None] while it is blocked. *)
Definition advance (i : input) (s : shared) (j : job) : option (shared * list job) :=
  match j with
  | Admitting g c => Some (s, [if is_set s then AskNonce g c else Reading g c])
  | AskNonce g c => Some (s, [if String.eqb (poolNonce s) "" then AskPeer g c else Reading g c])
  | AskPeer g c =>
      match controlChannel s with
      | Some peer => Some (s, if sameHost peer c then [Delivering g c (Beside (Some peer))] else [])
      | None => Some (s, [Delivering g c (Beside None)])
      end
  | Reading g c =>
      match announced i with
      | None => Some (s, [])
      | Some (payload, signal) =>
          if isControlSignal signal then
            if tokenMatches payload token then
              let nonce := if signal =? SG_ChanV2 then fresh i else "" in
              Some (prove s c nonce, [Answering g c nonce])
            else Some (s, [])
          else if signal =? SG_Pool then Some (s, [Verifying g c payload])
          else Some (s, [])
      end
  | Verifying g c payload => Some (s, if Verify (poolNonce s) payload then [Delivering g c (Presented payload)] else [])
  | Delivering g c p =>
      let G := gen_of s g in
      Some (if (length (tunnelChannel G) <? ChannelSize)%nat then set_gen s g (pool_add G (c, p)) else s, [])
  | Answering g c nonce =>
      if other i then Some (s, [])                       (* the answer could not be written *)
      else Some (s, [if is_set s then Restart else Offering g c nonce])
  | Offering g c nonce =>
      let G := gen_of s g in
      Some (match handshakeChannel G with None => set_gen s g (offer G (Some (mkCandidate c nonce))) | Some _ => s end, [])
  | Handshaking g =>
      let G := gen_of s g in
      match handshakeChannel G with
      | Some x => if other i && cancelled G then Some (s, [Started g]) else Some (set_gen s g (offer G None), [SetNonce g x])
      | None => if cancelled G then Some (s, [Started g]) else None
      end
  | SetNonce g x => Some (set_nonce s (cnonce x), [SetControl g x])
  | SetControl g x => Some (set_control s (Some (cconn x)), [Started g])
  | Started g => Some (s, if is_set s then [Reader g; Handler g] else [])
  | Reader g => Some (s, if cancelled (gen_of s g) then [] else [Restart])   (* the read failed *)
  | Handler g =>
      if other i then Some (s, [Restart])                (* a write failed, or the client closed *)
      else if cancelled (gen_of s g) then Some (s, []) else None
  | Restart => if restartMutex s then Some (s, []) else Some (set_mutex s true, [Stop])
  | Stop => let g := (length (gens s) - 1)%nat in Some (set_gen s g (cancel (gen_of s g)), [Close])
  | Close => Some (s, [ClearControl])
  | ClearControl => Some (set_control s None, [ClearNonce])
  | ClearNonce => Some (set_nonce s "", [Launch])
  | Launch =>
      Some (mkShared (controlChannel s) (poolNonce s) (gens s ++ [newGen]) false (proved s), [Handshaking (length (gens s))])
  end.

Definition state : Type := shared * list job.

(** Any job may be next; a connection may be accepted by any run's listener;
    and the pairing loops take from a run's pool. *)
Inductive step : state → state → Prop :=
| step_job i s pre j post s' js :
    advance i s j = Some (s', js) → step (s, pre ++ j :: post) (s', pre ++ js ++ post)
| step_accept s js g c :
    (g < length (gens s))%nat → step (s, js) (s, js ++ [Admitting g c])
| step_take s js g x rest :
    tunnelChannel (gen_of s g) = x :: rest →
    step (s, js) (set_gen s g (mkGen (cancelled (gen_of s g)) (handshakeChannel (gen_of s g)) rest), js).

(** [NewTCPServer], and [Start]. *)
Definition initial : state := (mkShared None "" [newGen] false [], [Handshaking 0]).

(** An execution in a chosen order: a connection is accepted, or the [k]-th job
    goes on. *)
Inductive action : Type := Accept (g : nat) (c : conn) | Run (k : nat) (i : input).

Definition exec1 (x : action) (st : state) : option state :=
  match x with
  | Accept g c => if (g <? length (gens (fst st)))%nat then Some (fst st, snd st ++ [Admitting g c]) else None
  | Run k i =>
      j ← snd st !! k;
      r ← advance i (fst st) j;
      Some (fst r, take k (snd st) ++ snd r ++ drop (S k) (snd st))
  end.

Fixpoint exec (xs : list action) (st : state) : option state :=
  match xs with [] => Some st | x :: xs => st ← exec1 x st; exec xs st end.

(** ** Lemmas: what every reachable state keeps *)

Definition knows (s : shared) (c : conn) (n : string) : Prop := (c, n) ∈ proved s.

(** A nonce somebody who had the token was given, or none. *)
Definition issued (s : shared) (n : string) : Prop := n = "" ∨ ∃ c, knows s c n.

(** A pass is good: an issued nonce, or the host of a claim that had the token. *)
Definition good (s : shared) (c : conn) (p : pass) : Prop :=
  match p with
  | Presented n => n ≠ "" ∧ ∃ d, knows s d n
  | Beside (Some peer) => host peer = host c ∧ ∃ n, knows s peer n
  | Beside None => False
  end.

Definition job_gen (j : job) : option nat :=
  match j with
  | Admitting g _ | AskNonce g _ | AskPeer g _ | Reading g _ | Verifying g _ _ | Delivering g _ _ | Answering g _ _
  | Offering g _ _ | Handshaking g | SetNonce g _ | SetControl g _ | Started g | Reader g | Handler g => Some g
  | _ => None
  end.

(** A restart between stopping a run and launching the next. *)
Definition restarting (j : job) : bool :=
  match j with Close | ClearControl | ClearNonce | Launch => true | _ => false end.

Definition launches (j : job) : bool := match j with Launch => true | _ => false end.

Definition locked_job (j : job) : bool := match j with Stop => true | _ => restarting j end.

Definition ended (s : shared) (g : nat) : Prop := cancelled (gen_of s g) = true.

(** What is true of one job. *)
Definition job_ok (s : shared) (j : job) : Prop :=
  match j with
  | AskNonce g c | AskPeer g c => controlChannel s = None → ended s g
  | Delivering g c p => good s c p ∨ ended s g
  | Answering g c n | Offering g c n => knows s c n
  | SetNonce g x | SetControl g x => knows s (cconn x) (cnonce x)
  | Close | ClearControl | ClearNonce | Launch => ended s (length (gens s) - 1)
  | _ => True
  end.

Record safe (st : state) : Prop := {
  safe_runs : gens (fst st) ≠ [];
  safe_old : ∀ g, (S g < length (gens (fst st)))%nat → ended (fst st) g;
  safe_bound : ∀ j g, j ∈ snd st → job_gen j = Some g → (g < length (gens (fst st)))%nat;
  safe_lock : length (filter (λ j, locked_job j = true) (snd st)) = if restartMutex (fst st) then 1%nat else 0%nat;
  safe_control : ∀ c, controlChannel (fst st) = Some c → ∃ n, knows (fst st) c n;
  safe_nonce : issued (fst st) (poolNonce (fst st));
  safe_offer : ∀ g x, handshakeChannel (gen_of (fst st) g) = Some x → knows (fst st) (cconn x) (cnonce x);
  safe_pool : ∀ g c p, (c, p) ∈ tunnelChannel (gen_of (fst st) g) → good (fst st) c p ∨ ended (fst st) g;
  safe_jobs : ∀ j, j ∈ snd st → job_ok (fst st) j;
}.

Lemma gen_of_set s g G g' :
  gen_of (set_gen s g G) g' = if base.decide (g = g' ∧ (g < length (gens s))%nat) then G else gen_of s g'.
Proof.
  unfold gen_of, set_gen. cbn [gens]. destruct (base.decide _) as [[<- H]|H]; [by rewrite list_lookup_insert_eq|].
  destruct (base.decide (g = g')) as [<-|Hne]; [|by rewrite list_lookup_insert_ne].
  rewrite list_insert_ge by (destruct (base.decide (g < length (gens s))%nat); [by destruct H|lia]). done.
Qed.

Lemma ended_set s g G g' : (ended s g → cancelled G = true) → ended s g' → ended (set_gen s g G) g'.
Proof. intros H He. unfold ended. rewrite gen_of_set. by destruct (base.decide _) as [[<- _]|_]; [apply H|]. Qed.

Lemma good_mono s s' c p : proved s ⊆ proved s' → good s c p → good s' c p.
Proof.
  unfold good, knows. intros H. destruct p as [n|[peer|]]; [intros (Hn & d & Hd); split; [done|exists d; by apply H]|
    intros (Hh & n & Hn); split; [done|exists n; by apply H]|done].
Qed.

Lemma issued_mono s s' n : proved s ⊆ proved s' → issued s n → issued s' n.
Proof. unfold issued, knows. intros H [->|(c & Hc)]; [by left|right; exists c; by apply H]. Qed.

(** What one step of a job gives. *)
Record moves (s : shared) (j : job) (s' : shared) (js : list job) : Prop := {
  moves_proved : proved s ⊆ proved s';
  moves_ended : ∀ g, ended s g → ended s' g;
  moves_length : length (gens s') = (length (gens s) + if launches j then 1 else 0)%nat;
  moves_last : launches j = true → ended s (length (gens s) - 1);
  moves_none : controlChannel s' = None → controlChannel s = None ∨ ∀ g, (g < length (gens s'))%nat → ended s' g;
  moves_count : (length (filter (λ j, locked_job j = true) js) + (if restartMutex s then 1 else 0) =
    (if locked_job j then 1 else 0) + (if restartMutex s' then 1 else 0))%nat;
  moves_bound : ∀ k g, k ∈ js → job_gen k = Some g → (g < length (gens s'))%nat;
  moves_control : ∀ c, controlChannel s' = Some c → ∃ n, knows s' c n;
  moves_nonce : issued s' (poolNonce s');
  moves_offer : ∀ g x, handshakeChannel (gen_of s' g) = Some x → knows s' (cconn x) (cnonce x);
  moves_pool : ∀ g c p, (c, p) ∈ tunnelChannel (gen_of s' g) → good s' c p ∨ ended s' g;
  moves_jobs : ∀ k, k ∈ js → job_ok s' k;
}.

Definition locks (js : list job) : nat := length (filter (λ j, locked_job j = true) js).

(** A step that leaves what is shared alone. *)
Lemma moves_same s js0 j js :
  safe (s, js0) → launches j = false → locks js = (if locked_job j then 1 else 0)%nat →
  (∀ k g, k ∈ js → job_gen k = Some g → (g < length (gens s))%nat) → (∀ k, k ∈ js → job_ok s k) → moves s j s js.
Proof.
  intros [] Hl Hc Hb Hk. cbn [fst snd] in *. unfold locks in Hc. split; auto; try congruence.
  rewrite Hl. lia.
Qed.

Lemma in_one (P : job → Prop) j : P j → ∀ k, k ∈ [j] → P k.
Proof. by intros H k ->%list_elem_of_singleton. Qed.

(** Nothing to show of no job. *)
Ltac no_job :=
  let k := fresh "k" in intros k; intros; match goal with H : k ∈ [] |- _ => by apply elem_of_nil in H end.

Lemma bound_one s g j : job_gen j = Some g → (g < length (gens s))%nat → ∀ k h, k ∈ [j] → job_gen k = Some h → (h < length (gens s))%nat.
Proof. intros E H k h ->%list_elem_of_singleton. rewrite E. by intros [= <-]. Qed.

(** All the runs there have been are over once the last one is. *)
Lemma all_ended st g : safe st → ended (fst st) (length (gens (fst st)) - 1) → (g < length (gens (fst st)))%nat → ended (fst st) g.
Proof.
  intros [] He Hg. destruct (base.decide (S g < length (gens (fst st)))%nat); [auto|].
  by replace g with (length (gens (fst st)) - 1)%nat by lia.
Qed.

Lemma advance_moves i s pre j post s' js :
  safe (s, pre ++ j :: post) → advance i s j = Some (s', js) → moves s j s' js.
Proof.
  intros HS. pose proof HS as [Hr Ho Hb Hlk Hc Hn Hof Hp Hj]. cbn [fst snd] in *.
  assert (j ∈ pre ++ j :: post) as Hin by (rewrite elem_of_app, elem_of_cons; auto).
  specialize (Hb j). pose proof (Hj j Hin) as Hjok. clear Hj.
  assert (∀ g, job_gen j = Some g → (g < length (gens s))%nat) as Hg by (intros g; by apply Hb). clear Hb.
  destruct j as [g c|g c|g c|g c|g c payload|g c p|g c n|g c n|g|g x|g x|g|g|g| | | | | |]; cbn [advance job_ok job_gen] in *;
    try specialize (Hg g eq_refl).
  - (* Admitting *)
    intros [= <- <-]. eapply moves_same; [exact HS|done|by destruct (is_set s)| |].
    + destruct (is_set s); by eapply bound_one.
    + unfold is_set. destruct (controlChannel s) eqn:E; apply in_one; [|done]. cbn [job_ok]. by rewrite E.
  - (* AskNonce *)
    intros [= <- <-]. eapply moves_same; [exact HS|done|by destruct (String.eqb _ _)| |].
    + destruct (String.eqb _ _); by eapply bound_one.
    + destruct (String.eqb _ _); by apply in_one.
  - (* AskPeer *)
    destruct (controlChannel s) as [peer|] eqn:E.
    + intros [= <- <-]. eapply moves_same; [exact HS|done|by destruct (sameHost _ _)| |].
      * destruct (sameHost _ _); [by eapply bound_one|no_job].
      * destruct (sameHost peer c) eqn:Eh; [apply in_one|no_job]. cbn [job_ok good]. left.
        split; [by apply String.eqb_eq|]. by apply Hc.
    + intros [= <- <-]. eapply moves_same; [exact HS|done|done|by eapply bound_one|]. apply in_one. right. by apply Hjok.
  - (* Reading *)
    destruct (announced i) as [[payload signal]|].
    2:{ intros [= <- <-]. eapply moves_same; [exact HS|done|done|no_job|no_job]. }
    destruct (isControlSignal signal).
    2:{ destruct (signal =? SG_Pool); intros [= <- <-]; (eapply moves_same; [exact HS|done|done| |]);
        [by eapply bound_one|by apply in_one|no_job|no_job]. }
    destruct (tokenMatches payload token).
    2:{ intros [= <- <-]. eapply moves_same; [exact HS|done|done|no_job|no_job]. }
    set (n := if signal =? SG_ChanV2 then fresh i else ""). intros [= <- <-].
    assert (proved s ⊆ proved (prove s c n)) as Hsub by (intros y Hy; by apply list_elem_of_further).
    split; try done; cbn [prove gens controlChannel poolNonce restartMutex locked_job launches] in *.
    + by left.
    + by eapply bound_one.
    + intros d Hd. destruct (Hc d Hd) as [m Hm]. exists m. by apply Hsub.
    + by eapply issued_mono.
    + intros h x Hx. by apply Hsub, (Hof h x).
    + intros h d p Hd. destruct (Hp h d p Hd); [left; by eapply good_mono|by right].
    + apply in_one. cbn [job_ok]. unfold knows. cbn. apply list_elem_of_here.
  - (* Verifying *)
    intros [= <- <-]. eapply moves_same; [exact HS|done|by destruct (Verify _ _)| |].
    + destruct (Verify _ _); [by eapply bound_one|no_job].
    + destruct (Verify (poolNonce s) payload) eqn:E; [apply in_one|no_job]. cbn [job_ok good]. left.
      unfold Verify in E. destruct (String.eqb_spec (poolNonce s) "") as [|Hne]; [done|]. apply String.eqb_eq in E as ->.
      split; [done|]. by destruct Hn.
  - (* Delivering *)
    destruct (_ <? _)%nat; intros [= <- <-].
    2:{ eapply moves_same; [exact HS|done|done|no_job|no_job]. }
    assert (∀ h, ended s h → ended (set_gen s g (pool_add (gen_of s g) (c, p))) h) as He by (intros h; by apply ended_set).
    split; try done; cbn [set_gen gens locked_job launches] in *.
    + rewrite length_insert. lia.
    + by left.
    + no_job.
    + intros h x. rewrite gen_of_set. destruct (base.decide _) as [[<- _]|_]; apply Hof.
    + intros h d q. rewrite gen_of_set. destruct (base.decide _) as [[<- _]|_].
      * cbn [pool_add tunnelChannel]. rewrite elem_of_app, list_elem_of_singleton. intros [H|[= -> ->]].
        -- destruct (Hp g d q H); auto.
        -- destruct Hjok; auto.
      * intros H. destruct (Hp h d q H); auto.
    + no_job.
  - (* Answering *)
    destruct (other i); intros [= <- <-]; (eapply moves_same; [exact HS|done| | |]).
    + done.
    + no_job.
    + no_job.
    + by destruct (is_set s).
    + destruct (is_set s); [by intros k h ->%list_elem_of_singleton|by eapply bound_one].
    + destruct (is_set s); by apply in_one.
  - (* Offering *)
    destruct (handshakeChannel (gen_of s g)) as [y|] eqn:Eo; intros [= <- <-].
    { eapply moves_same; [exact HS|done|done|no_job|no_job]. }
    assert (∀ h, ended s h → ended (set_gen s g (offer (gen_of s g) (Some (mkCandidate c n)))) h) as He by (intros h; by apply ended_set).
    split; try done; cbn [set_gen gens locked_job launches] in *.
    + rewrite length_insert. lia.
    + by left.
    + no_job.
    + intros h x. rewrite gen_of_set. destruct (base.decide _) as [[<- _]|_]; [by intros [= <-]|apply Hof].
    + intros h d q. rewrite gen_of_set. destruct (base.decide _) as [[<- _]|_]; intros H; (destruct (Hp _ d q H); auto).
    + no_job.
  - (* Handshaking *)
    destruct (handshakeChannel (gen_of s g)) as [y|] eqn:Eo.
    2:{ destruct (cancelled (gen_of s g)); [|done]. intros [= <- <-]. eapply moves_same; [exact HS|done|done|by eapply bound_one|by apply in_one]. }
    destruct (other i && cancelled (gen_of s g)); intros [= <- <-].
    { eapply moves_same; [exact HS|done|done|by eapply bound_one|by apply in_one]. }
    assert (∀ h, ended s h → ended (set_gen s g (offer (gen_of s g) None)) h) as He by (intros h; by apply ended_set).
    split; try done; cbn [set_gen gens locked_job launches] in *.
    + rewrite length_insert. lia.
    + by left.
    + intros k h ->%list_elem_of_singleton [= <-]. by rewrite length_insert.
    + intros h x. rewrite gen_of_set. destruct (base.decide _) as [[<- _]|_]; [done|apply Hof].
    + intros h d q. rewrite gen_of_set. destruct (base.decide _) as [[<- _]|_]; intros H; (destruct (Hp _ d q H); auto).
    + apply in_one. cbn [job_ok]. by apply (Hof g).
  - (* SetNonce *)
    intros [= <- <-]. split; try done; cbn [set_nonce gens poolNonce locked_job launches] in *.
    + by left.
    + by eapply bound_one.
    + right. by exists (cconn x).
    + by apply in_one.
  - (* SetControl *)
    intros [= <- <-]. split; try done; cbn [set_control gens controlChannel locked_job launches] in *.
    + by eapply bound_one.
    + intros d [= <-]. by exists (cnonce x).
    + by apply in_one.
  - (* Started *)
    intros [= <- <-]. eapply moves_same; [exact HS|done|by destruct (is_set s)| |].
    + destruct (is_set s); [|no_job]. intros k h [->|[->|[]%elem_of_nil]%elem_of_cons]%elem_of_cons; cbn [job_gen]; by intros [= <-].
    + destruct (is_set s); [|no_job]. by intros k [->|[->|[]%elem_of_nil]%elem_of_cons]%elem_of_cons.
  - (* Reader *)
    intros [= <- <-]. eapply moves_same; [exact HS|done|by destruct (cancelled _)| |]; (destruct (cancelled _); [no_job|]).
    + by intros k h ->%list_elem_of_singleton.
    + by apply in_one.
  - (* Handler *)
    destruct (other i); [|destruct (cancelled _); [|done]]; intros [= <- <-]; (eapply moves_same; [exact HS|done|done| |]).
    + by intros k h ->%list_elem_of_singleton.
    + by apply in_one.
    + no_job.
    + no_job.
  - (* Restart *)
    destruct (restartMutex s) eqn:Em; intros [= <- <-].
    { eapply moves_same; [exact HS|done|done|no_job|no_job]. }
    split; try done; cbn [set_mutex gens restartMutex locked_job launches] in *.
    + by left.
    + by rewrite Em.
    + by intros k h ->%list_elem_of_singleton.
    + by apply in_one.
  - (* Stop *)
    set (l := (length (gens s) - 1)%nat). intros [= <- <-].
    assert (∀ h, ended s h → ended (set_gen s l (cancel (gen_of s l))) h) as He by (intros h; by apply ended_set).
    split; try done; cbn [set_gen gens locked_job launches restarting restartMutex] in *.
    + rewrite length_insert. lia.
    + by left.
    + by intros k h ->%list_elem_of_singleton.
    + intros h x. rewrite gen_of_set. destruct (base.decide _) as [[<- _]|_]; apply Hof.
    + intros h d q. rewrite gen_of_set. destruct (base.decide _) as [[<- _]|_]; intros H; (destruct (Hp _ d q H); auto).
    + apply in_one. cbn [job_ok set_gen gens]. rewrite length_insert. fold l. unfold ended. rewrite gen_of_set.
      rewrite decide_True; [done|]. split; [done|]. destruct (gens s); [done|]. cbn [length] in l. cbn [length]. lia.
  - (* Close *)
    intros [= <- <-]. eapply moves_same; [exact HS|done|done| |by apply in_one]. by intros k h ->%list_elem_of_singleton.
  - (* ClearControl *)
    intros [= <- <-]. split; try done; cbn [set_control gens controlChannel locked_job launches restarting] in *.
    + intros _. right. intros h Hh. by apply (all_ended (s, pre ++ ClearControl :: post)).
    + by intros k h ->%list_elem_of_singleton.
    + by apply in_one.
  - (* ClearNonce *)
    intros [= <- <-]. split; try done; cbn [set_nonce gens poolNonce locked_job launches restarting] in *.
    + by left.
    + by intros k h ->%list_elem_of_singleton.
    + by left.
    + by apply in_one.
  - (* Launch *)
    intros [= <- <-].
    assert (∀ h, ended s h → ended (mkShared (controlChannel s) (poolNonce s) (gens s ++ [newGen]) false (proved s)) h) as He.
    { intros h. unfold ended, gen_of. cbn [gens]. destruct (gens s !! h) as [G|] eqn:E; [|done].
      by rewrite (lookup_app_l_Some _ _ _ _ E). }
    assert (restartMutex s = true) as Em.
    { destruct (restartMutex s); [done|]. rewrite filter_app, filter_cons, length_app, decide_True in Hlk by done. cbn [length] in Hlk. lia. }
    assert (∀ h, gen_of (mkShared (controlChannel s) (poolNonce s) (gens s ++ [newGen]) false (proved s)) h = gen_of s h) as Eg.
    { intros h. unfold gen_of. cbn [gens]. destruct (gens s !! h) as [G|] eqn:E; [by rewrite (lookup_app_l_Some _ _ _ _ E)|].
      apply lookup_ge_None in E. rewrite lookup_app_r by done. by destruct (h - length (gens s))%nat. }
    split; try done; cbn [gens controlChannel poolNonce locked_job launches restarting restartMutex] in *.
    + by rewrite length_app.
    + intros Hnone. by left.
    + by rewrite Em.
    + intros k h ->%list_elem_of_singleton [= <-]. rewrite length_app. cbn. lia.
    + intros h x. rewrite Eg. apply Hof.
    + intros h d q. rewrite Eg. intros H. destruct (Hp h d q H); auto.
    + by apply in_one.
Qed.

(** What was true of another job still is. *)
Lemma keep_job s j s' js k :
  moves s j s' js → (∀ g, job_gen k = Some g → (g < length (gens s))%nat) → (launches j = true → restarting k = false) →
  job_ok s k → job_ok s' k.
Proof.
  intros [Mp Me Ml _ Mn _ _ _ _ _ _ _] Hg Hr Hk. unfold knows in *.
  assert (∀ g, job_gen k = Some g → (controlChannel s = None → ended s g) → controlChannel s' = None → ended s' g) as HN.
  { intros g Eg H H'. destruct (Mn H') as [?|Ha]; [by apply Me, H|]. apply Ha. rewrite Ml. specialize (Hg g Eg). lia. }
  destruct k; cbn [job_ok job_gen restarting] in *; try done; try by eauto.
  - destruct Hk; [left; by eapply good_mono|right; auto].
  - by apply Mp.
  - by apply Mp.
  - by apply Mp.
  - by apply Mp.
  - rewrite Ml. destruct (launches j); [by specialize (Hr eq_refl)|]. rewrite Nat.add_0_r. auto.
  - rewrite Ml. destruct (launches j); [by specialize (Hr eq_refl)|]. rewrite Nat.add_0_r. auto.
  - rewrite Ml. destruct (launches j); [by specialize (Hr eq_refl)|]. rewrite Nat.add_0_r. auto.
  - rewrite Ml. destruct (launches j); [by specialize (Hr eq_refl)|]. rewrite Nat.add_0_r. auto.
Qed.

Lemma locks_app xs ys : locks (xs ++ ys) = (locks xs + locks ys)%nat.
Proof. unfold locks. by rewrite filter_app, length_app. Qed.

Lemma locks_cons j js : locks (j :: js) = ((if locked_job j then 1 else 0) + locks js)%nat.
Proof. unfold locks. rewrite filter_cons. destruct (locked_job j); [by rewrite decide_True|by rewrite decide_False]. Qed.

Lemma locks_in j js : j ∈ js → locked_job j = true → (1 ≤ locks js)%nat.
Proof. intros (a & b & ->)%list_elem_of_split E. rewrite locks_app, locks_cons, E. lia. Qed.

Lemma job_safe i s pre j post s' js :
  safe (s, pre ++ j :: post) → advance i s j = Some (s', js) → safe (s', pre ++ js ++ post).
Proof.
  intros HS HA. pose proof (advance_moves _ _ _ _ _ _ _ HS HA) as HM. pose proof HM as [Mp Me Ml Mlast Mn Mc Mb Mct Mno Mof Mpo Mj].
  destruct HS as [Hr Ho Hb Hlk Hc Hn Hof Hp Hj]. cbn [fst snd] in *. fold (locks js) in Mc. fold (locks (pre ++ j :: post)) in Hlk.
  rewrite locks_app, locks_cons in Hlk.
  assert (∀ k, k ∈ pre ++ post → k ∈ pre ++ j :: post) as Hin by (intros k; rewrite !elem_of_app, elem_of_cons; tauto).
  assert (∀ k, k ∈ pre ++ js ++ post → k ∈ js ∨ k ∈ pre ++ post) as Hcase by (intros k; rewrite !elem_of_app; tauto).
  split; cbn [fst snd].
  - intros E. rewrite E in Ml. destruct (gens s); [done|]. cbn in Ml. lia.
  - intros g Hg. rewrite Ml in Hg. apply Me. destruct (launches j) eqn:El.
    + destruct (base.decide (S g < length (gens s))%nat); [auto|]. replace g with (length (gens s) - 1)%nat by lia. auto.
    + apply Ho. lia.
  - intros k g [Hk|Hk]%Hcase Eg; [by eapply Mb|]. rewrite Ml. specialize (Hb k g (Hin k Hk) Eg). lia.
  - fold (locks (pre ++ js ++ post)). rewrite !locks_app. destruct (restartMutex s), (restartMutex s'), (locked_job j); lia.
  - done.
  - done.
  - done.
  - done.
  - intros k [Hk|Hk]%Hcase; [auto|]. eapply keep_job; [exact HM|intros g; apply Hb; auto| |apply Hj; auto].
    intros El. destruct (restarting k) eqn:Er; [|done]. exfalso.
    assert (1 ≤ locks (pre ++ post))%nat as H1 by (eapply locks_in; [exact Hk|destruct k; done]).
    rewrite locks_app in H1. destruct j; try done. cbn [locked_job restarting] in Hlk. destruct (restartMutex s); lia.
Qed.

Lemma step_safe st st' : step st st' → safe st → safe st'.
Proof.
  intros [i s pre j post s' js HA|s js g c Hg|s js g x rest Ht] HS.
  - by eapply job_safe.
  - destruct HS as [Hr Ho Hb Hlk Hc Hn Hof Hp Hj]. cbn [fst snd] in *. split; cbn [fst snd]; try done.
    + intros k h [Hk| ->%list_elem_of_singleton]%elem_of_app Eg; [by eapply Hb|]. cbn [job_gen] in Eg. by injection Eg as <-.
    + fold (locks (js ++ [Admitting g c])). fold (locks js) in Hlk. rewrite locks_app, locks_cons, Hlk. unfold locks. cbn. destruct (restartMutex s); done.
    + intros k [Hk| ->%list_elem_of_singleton]%elem_of_app; [auto|done].
  - destruct HS as [Hr Ho Hb Hlk Hc Hn Hof Hp Hj]. cbn [fst snd] in *.
    set (G := mkGen _ _ rest). assert (∀ h, ended s h ↔ ended (set_gen s g G) h) as He.
    { intros h. unfold ended. rewrite gen_of_set. by destruct (base.decide _) as [[<- _]|_]. }
    split; cbn [fst snd set_gen gens controlChannel poolNonce restartMutex]; rewrite ?length_insert; try done.
    + intros E. apply Hr. apply (f_equal length) in E. rewrite length_insert in E. by destruct (gens s).
    + intros h Hh. apply He. auto.
    + intros h y. rewrite gen_of_set. destruct (base.decide _) as [[<- _]|_]; apply Hof.
    + intros h d q. rewrite <- He, gen_of_set. destruct (base.decide _) as [[<- _]|_]; [|apply Hp]. cbn [G tunnelChannel].
      intros H. apply Hp. rewrite Ht. by apply list_elem_of_further.
    + intros k Hk. specialize (Hj k Hk). destruct k; cbn [job_ok set_gen gens controlChannel] in *; rewrite ?length_insert, <- ?He; done.
Qed.

Lemma initial_safe : safe initial.
Proof.
  split; cbn [fst snd initial gens controlChannel poolNonce restartMutex].
  - done.
  - intros g. cbn. lia.
  - intros k g ->%list_elem_of_singleton. cbn. intros [= <-]. lia.
  - done.
  - done.
  - by left.
  - intros g x. unfold gen_of. cbn. by destruct g.
  - intros g c p. unfold gen_of. cbn. by destruct g; intros ?%elem_of_nil.
  - by apply in_one.
Qed.

Lemma reachable_safe st : rtc step initial st → safe st.
Proof.
  assert (∀ a b, rtc step a b → safe a → safe b) as H; [|intros Hr; eapply H; [exact Hr|apply initial_safe]].
  induction 1 as [|a b c Hs _ IH]; [done|]. intros Ha. by eapply IH, step_safe.
Qed.

(** C18: strangers never reach the pool. However the goroutines of the accept
    path, the handshake, the handlers and the restarts interleave, every
    connection in the pool of a run that is still going either presented a
    nonce that was given to somebody who had shown the token, or comes from
    the host of somebody who had; and whoever holds the control channel had
    shown the token. *)
Theorem pool_members_proved st :
  rtc step initial st →
  (∀ g G c p, gens (fst st) !! g = Some G → cancelled G = false → (c, p) ∈ tunnelChannel G →
    match p with
    | Presented n => n ≠ "" ∧ ∃ d, (d, n) ∈ proved (fst st)
    | Beside peer => ∃ d n, peer = Some d ∧ host d = host c ∧ (d, n) ∈ proved (fst st)
    end) ∧
  (∀ c, controlChannel (fst st) = Some c → ∃ n, (c, n) ∈ proved (fst st)).
Proof.
  intros H%reachable_safe. destruct H as [_ _ _ _ Hc _ _ Hp _]. split; [|exact Hc].
  intros g G c p EG Hl Hin. assert (gen_of (fst st) g = G) as Eg by (unfold gen_of; by rewrite EG).
  destruct (Hp g c p) as [Hg|Hg]; [by rewrite Eg| |unfold ended in Hg; congruence].
  destruct p as [n|[peer|]]; cbn [good] in Hg; [done| |done]. destruct Hg as (Hh & n & Hn). by exists peer, n.
Qed.

(** ** A client that comes back *)

(** A run that is up: its handshake is done and its handlers listen. *)
Definition up (s : shared) (g : nat) (c : conn) (n : string) : Prop :=
  length (gens s) = S g ∧ cancelled (gen_of s g) = false ∧ handshakeChannel (gen_of s g) = None ∧
  controlChannel s = Some c ∧ poolNonce s = n ∧ restartMutex s = false.

Lemma step_one i s j s' js : advance i s j = Some (s', js) → ∀ pre post, step (s, pre ++ j :: post) (s', pre ++ js ++ post).
Proof. intros H pre post. by eapply step_job. Qed.

Lemma steps_one i s j s' j' js t pre post :
  advance i s j = Some (s', [j']) → rtc step (s', pre ++ j' :: post) (t, js) → rtc step (s, pre ++ j :: post) (t, js).
Proof. intros H Hr. eapply rtc_l; [by apply (step_one _ _ _ _ _ H)|exact Hr]. Qed.

Lemma steps_none i s j s' js t pre post :
  advance i s j = Some (s', []) → rtc step (s', pre ++ post) (t, js) → rtc step (s, pre ++ j :: post) (t, js).
Proof. intros H Hr. eapply rtc_l; [by apply (step_one _ _ _ _ _ H)|exact Hr]. Qed.

Definition claims (sig : Z) (n : string) : input := mkInput (Some (token, sig)) n false.
Definition nothing : input := mkInput None "" false.

(** A claim with the token, read to its end, while a control channel with a
    nonce is up: the run is restarted. *)
Lemma claim_restarts s g old n (c : conn) (f : string) :
  up s g old n → n ≠ "" →
  ∃ s', rtc step (s, [Reader g; Handler g]) (s', [Handshaking (S g)]) ∧
    length (gens s') = S (S g) ∧ gen_of s' (S g) = newGen ∧ controlChannel s' = None ∧ poolNonce s' = "" ∧ restartMutex s' = false.
Proof.
  intros (Hlen & Hlive & Hoff & Hc & Hn & Hm) Hne.
  set (s1 := prove s c f).
  set (s2 := set_mutex s1 true). set (s3 := set_gen s2 (length (gens s2) - 1) (cancel (gen_of s2 (length (gens s2) - 1)))).
  set (s4 := set_control s3 None). set (s5 := set_nonce s4 "").
  set (s6 := mkShared (controlChannel s5) (poolNonce s5) (gens s5 ++ [newGen]) false (proved s5)).
  assert (length (gens s) - 1 = g)%nat as Eg by lia.
  assert (length (gens s5) = S g) as El by (cbn; by rewrite length_insert).
  assert (gen_of s5 g = cancel (gen_of s g)) as Ec.
  { change (gen_of s5 g) with (gen_of s3 g). unfold s3. rewrite gen_of_set. rewrite decide_True; [by cbn; rewrite Eg|].
    cbn. rewrite Eg, Hlen. split; [done|lia]. }
  assert (gen_of s6 g = cancel (gen_of s g)) as Ec6.
  { rewrite <- Ec. unfold gen_of, s6. cbn [gens]. rewrite lookup_app_l; [done|]. rewrite El. lia. }
  exists s6. split.
  { eapply rtc_l; [apply (step_accept s _ g c); lia|]. cbn [app].
    eapply (steps_one nothing s _ s (AskNonce g c) _ _ [Reader g; Handler g] []);
      [cbn [advance]; unfold is_set; by rewrite Hc|].
    eapply (steps_one nothing s _ s (Reading g c) _ _ [Reader g; Handler g] []).
    { cbn [advance]. rewrite Hn. by destruct (String.eqb_spec n ""). }
    eapply (steps_one (claims SG_ChanV2 f) s _ s1 (Answering g c f) _ _ [Reader g; Handler g] []).
    { cbn [advance claims announced fresh]. unfold tokenMatches. by rewrite String.eqb_refl. }
    eapply (steps_one nothing s1 _ s1 Restart _ _ [Reader g; Handler g] []).
    { cbn [advance other nothing]. unfold is_set, s1. cbn [prove controlChannel]. by rewrite Hc. }
    eapply (steps_one nothing s1 _ s2 Stop _ _ [Reader g; Handler g] []).
    { cbn [advance]. unfold s1. cbn [prove restartMutex]. by rewrite Hm. }
    eapply (steps_one nothing s2 _ s3 Close _ _ [Reader g; Handler g] []); [done|].
    eapply (steps_one nothing s3 _ s3 ClearControl _ _ [Reader g; Handler g] []); [done|].
    eapply (steps_one nothing s3 _ s4 ClearNonce _ _ [Reader g; Handler g] []); [done|].
    eapply (steps_one nothing s4 _ s5 Launch _ _ [Reader g; Handler g] []); [done|].
    eapply (steps_one nothing s5 _ s6 (Handshaking (S g)) _ _ [Reader g; Handler g] []); [cbn [advance]; by rewrite El|].
    eapply (steps_none nothing s6 _ s6 _ _ [] [Handler g; Handshaking (S g)]); [cbn [advance]; by rewrite Ec6|].
    eapply (steps_none nothing s6 _ s6 _ _ [] [Handshaking (S g)]); [cbn [advance other nothing]; by rewrite Ec6|].
    apply rtc_refl. }
  split_and!; try done.
  - unfold s6. cbn [gens]. rewrite length_app, El. cbn. lia.
  - unfold gen_of, s6. cbn [gens]. rewrite lookup_app_r, El by lia. by rewrite Nat.sub_diag.
Qed.

(** A claim with the token while none is up becomes the control channel. *)
Lemma claim_taken s g c f :
  length (gens s) = S g → gen_of s g = newGen → controlChannel s = None → restartMutex s = false →
  ∃ s', rtc step (s, [Handshaking g]) (s', [Reader g; Handler g]) ∧ up s' g c f.
Proof.
  intros Hlen Hgen Hc Hm. set (s1 := prove s c f). set (s2 := set_gen s1 g (offer (gen_of s1 g) (Some (mkCandidate c f)))).
  set (s3 := set_gen s2 g (offer (gen_of s2 g) None)). set (s4 := set_nonce s3 f). set (s5 := set_control s4 (Some c)).
  assert (gen_of s1 g = newGen) as E1 by exact Hgen.
  assert (gen_of s2 g = mkGen false (Some (mkCandidate c f)) []) as E2.
  { unfold s2. rewrite gen_of_set, decide_True by (cbn; lia). unfold s1. change (gen_of (prove s c f) g) with (gen_of s g). by rewrite Hgen. }
  assert (gen_of s3 g = newGen) as E3.
  { unfold s3. rewrite gen_of_set, decide_True by (cbn; rewrite ?length_insert; lia). by rewrite E2. }
  exists s5. split.
  { eapply rtc_l; [apply (step_accept s _ g c); lia|]. cbn [app].
    eapply (steps_one nothing s _ s (Reading g c) _ _ [Handshaking g] []); [cbn [advance]; unfold is_set; by rewrite Hc|].
    eapply (steps_one (claims SG_ChanV2 f) s _ s1 (Answering g c f) _ _ [Handshaking g] []).
    { cbn [advance claims announced fresh]. unfold tokenMatches. by rewrite String.eqb_refl. }
    eapply (steps_one nothing s1 _ s1 (Offering g c f) _ _ [Handshaking g] []).
    { cbn [advance other nothing]. unfold is_set, s1. cbn [prove controlChannel]. by rewrite Hc. }
    eapply (steps_none nothing s1 _ s2 _ _ [Handshaking g] []).
    { cbn [advance]. unfold s2. by rewrite E1. }
    eapply (steps_one nothing s2 _ s3 (SetNonce g (mkCandidate c f)) _ _ [] []).
    { cbn [advance]. rewrite E2. cbn [handshakeChannel other nothing andb]. unfold s3. by rewrite E2. }
    eapply (steps_one nothing s3 _ s4 (SetControl g (mkCandidate c f)) _ _ [] []); [done|].
    eapply (steps_one nothing s4 _ s5 (Started g) _ _ [] []); [done|].
    eapply rtc_l; [|apply rtc_refl]. by apply (step_one nothing s5 (Started g) s5 [Reader g; Handler g] eq_refl [] []). }
  unfold up. change (gen_of s5 g) with (gen_of s3 g). rewrite E3. split_and!; try done.
  cbn. by rewrite !length_insert.
Qed.

(** A client that comes back is taken in. While a run that issued a nonce
    is up, whatever became of the connection it holds, a client with the token
    that dials again gets the run restarted by its first claim, and holds the
    control channel of the new run, with a nonce of its own, by its second. *)
Theorem redial_adopted s g old n (c c' : conn) (f f' : string) :
  up s g old n → n ≠ "" →
  ∃ s', rtc step (s, [Reader g; Handler g]) (s', [Reader (S g); Handler (S g)]) ∧ up s' (S g) c' f'.
Proof.
  intros Hu Hn. destruct (claim_restarts s g old n c f Hu Hn) as (s1 & H1 & Hl & Hg & Hc & _ & Hm).
  destruct (claim_taken s1 (S g) c' f' Hl Hg Hc Hm) as (s2 & H2 & Hu2). exists s2. split; [by etrans|done].
Qed.

(** ** What the restart does not cover *)

(** Beside a control channel of the older handshake a claim is not read: a
    connection from the same host is filed in the pool with whatever it said
    still to be read, the token included, and one from elsewhere is dropped. *)
Lemma claim_beside_legacy i s g c peer :
  controlChannel s = Some peer → poolNonce s = "" →
  advance i s (Admitting g c) = Some (s, [AskNonce g c]) ∧
  advance i s (AskNonce g c) = Some (s, [AskPeer g c]) ∧
  advance i s (AskPeer g c) = Some (s, if sameHost peer c then [Delivering g c (Beside (Some peer))] else []).
Proof. intros Hc Hn. cbn [advance]. unfold is_set. by rewrite Hc, Hn. Qed.

Lemma exec_steps xs : ∀ st st', exec xs st = Some st' → rtc step st st'.
Proof.
  induction xs as [|x xs IH]; intros st st'; cbn [exec]; [by intros [= <-]|].
  destruct (exec1 x st) as [st1|] eqn:E; [|done]. cbn [mbind option_bind]. intros H%IH. eapply rtc_l; [|exact H].
  destruct st as [s js]. destruct x as [g c|k i]; cbn [exec1 fst snd] in E.
  - destruct (Nat.ltb_spec g (length (gens s))); [|done]. injection E as <-. by apply step_accept.
  - destruct (js !! k) as [j|] eqn:Ej; [|done]. cbn [mbind option_bind] in E.
    destruct (advance i s j) as [[s1 js1]|] eqn:Ea; [|done]. cbn [mbind option_bind fst snd] in E. injection E as <-.
    rewrite <- (take_drop_middle js k j Ej) at 1. by eapply step_job.
Qed.

(** Where nothing reads what a connection announces: the control channel of
    one run, the nonce cleared for the next, whose handshake waits. *)
Definition stranded_job (g : nat) (j : job) : Prop :=
  match j with Handshaking h => h = g | Admitting _ _ | AskNonce _ _ | AskPeer _ _ | Delivering _ _ _ => True | _ => False end.

Definition stranded (g : nat) (c : conn) (st : state) : Prop :=
  controlChannel (fst st) = Some c ∧ poolNonce (fst st) = "" ∧ cancelled (gen_of (fst st) g) = false ∧
  handshakeChannel (gen_of (fst st) g) = None ∧ ∀ j, j ∈ snd st → stranded_job g j.

Lemma stranded_step g c st st' : step st st' → stranded g c st → stranded g c st'.
Proof.
  intros Hs (Hc & Hn & Hl & Ho & Hj). destruct Hs as [i s pre j post s' js HA|s js h d Hh|s js h x rest Ht]; cbn [fst snd] in *.
  - assert (∀ k, k ∈ pre ++ post → stranded_job g k) as Hrest.
    { intros k Hk. apply Hj. rewrite elem_of_app, elem_of_cons. apply elem_of_app in Hk. tauto. }
    assert (s' = s ∨ ∃ h x, s' = set_gen s h (pool_add (gen_of s h) x)) as Hs'.
    { specialize (Hj j ltac:(rewrite elem_of_app, elem_of_cons; auto)). destruct j; cbn [stranded_job advance] in *; try done.
      - injection HA as <- <-. by left.
      - injection HA as <- <-. by left.
      - rewrite Hc in HA. injection HA as <- <-. by left.
      - destruct (_ <? _)%nat; injection HA as <- <-; [right; eauto|by left].
      - subst. by rewrite Ho, Hl in HA. }
    assert (∀ k, k ∈ js → stranded_job g k) as Hnew.
    { specialize (Hj j ltac:(rewrite elem_of_app, elem_of_cons; auto)). destruct j; cbn [stranded_job advance] in *; try done.
      - injection HA as <- <-. unfold is_set. rewrite Hc. by intros k ->%list_elem_of_singleton.
      - injection HA as <- <-. rewrite Hn. by intros k ->%list_elem_of_singleton.
      - rewrite Hc in HA. injection HA as <- <-. destruct (sameHost _ _); [by intros k ->%list_elem_of_singleton|no_job].
      - destruct (_ <? _)%nat; injection HA as <- <-; no_job.
      - subst. by rewrite Ho, Hl in HA. }
    assert (∀ k, k ∈ pre ++ js ++ post → stranded_job g k) as Hall.
    { intros k. rewrite !elem_of_app. intros [?|[?|?]]; [apply Hrest, elem_of_app; by left|by apply Hnew|apply Hrest, elem_of_app; by right]. }
    unfold stranded. cbn [fst snd]. destruct Hs' as [->|(h & x & ->)]; [done|]. rewrite gen_of_set.
    destruct (base.decide _) as [[-> _]|_]; done.
  - unfold stranded. cbn [fst snd]. split_and!; try done. intros k [?| ->%list_elem_of_singleton]%elem_of_app; [auto|done].
  - unfold stranded. cbn [fst snd]. rewrite gen_of_set. destruct (base.decide _) as [[-> _]|_]; done.
Qed.

End server.

(** ** Executions *)

Definition home : conn := mkConn 1 "198.51.100.7".

(** A control channel and one pool connection. *)
Definition one_member : list action :=
  [Accept 0 home; Run 1 nothing; Run 1 (claims "s3cret" SG_ChanV2 "beef"); Run 1 nothing; Run 1 nothing;
   Run 0 nothing; Run 0 nothing; Run 0 nothing; Run 0 nothing;
   Accept 0 (mkConn 2 "203.0.113.9"); Run 2 nothing; Run 2 nothing;
   Run 2 (mkInput (Some ("beef", SG_Pool)) "" false); Run 2 nothing; Run 2 nothing].

Lemma pool_members_proved_witness :
  ∃ st, exec "s3cret" 8 one_member initial = Some st ∧
    tunnelChannel (gen_of (fst st) 0) = [(mkConn 2 "203.0.113.9", Presented "beef")] ∧ ∃ d, (d, "beef") ∈ proved (fst st).
Proof.
  eexists. split; [vm_compute; reflexivity|]. split; [by vm_compute|].
  match goal with |- ∃ d, _ ∈ proved (fst ?st) => pose proof (pool_members_proved "s3cret" 8 st) as [H _] end.
  { apply (exec_steps "s3cret" 8 one_member). vm_compute. reflexivity. }
  specialize (H 0%nat _ (mkConn 2 "203.0.113.9") (Presented "beef") eq_refl eq_refl). apply H. apply list_elem_of_here.
Defined.

Lemma redial_adopted_witness :
  let s := mkShared (Some home) "beef" [newGen] false [] in
  ∃ s', rtc (step "s3cret" 8) (s, [Reader 0; Handler 0]) (s', [Reader 1; Handler 1]) ∧
    up s' 1 (mkConn 4 "203.0.113.9") "f00d".
Proof.
  intros s. apply (redial_adopted "s3cret" 8 s 0 home "beef" (mkConn 3 "203.0.113.9") (mkConn 4 "203.0.113.9") "cafe" "f00d"); [|done].
  by split_and!.
Defined.

(** The reader and the heartbeat of one run both ask for a restart, and the
    second to be served comes after the run that replaced theirs has taken a
    new claim and set its nonce, and before it has set its control channel. *)
Definition late_restart : list action :=
  [Accept 0 home; Run 1 nothing; Run 1 (claims "s3cret" SG_ChanV2 "beef"); Run 1 nothing; Run 1 nothing;
   Run 0 nothing; Run 0 nothing; Run 0 nothing; Run 0 nothing;
   Run 0 nothing; Run 1 (mkInput None "" true);                                (* both ask *)
   Run 0 nothing; Run 0 nothing; Run 0 nothing; Run 0 nothing; Run 0 nothing; Run 0 nothing;  (* the first is served *)
   Accept 1 home; Run 2 nothing; Run 2 (claims "s3cret" SG_ChanV2 "f00d"); Run 2 nothing; Run 2 nothing;
   Run 0 nothing; Run 0 nothing;                                               (* the nonce is set *)
   Run 1 nothing; Run 1 nothing; Run 1 nothing; Run 1 nothing; Run 1 nothing; Run 1 nothing;  (* the second is served *)
   Run 0 nothing; Run 0 nothing; Run 0 nothing; Run 0 nothing].               (* the control channel is set *)

(** A late restart strands the tunnel: a state is reached from which, whatever
    the goroutines and the peers do, the control channel stays the one of a run
    that is over, no claim is ever read and no nonce ever issued. *)
Theorem late_restart_strands :
  ∃ st, rtc (step "s3cret" 8) initial st ∧
    ∀ st', rtc (step "s3cret" 8) st st' → controlChannel (fst st') = Some home ∧ poolNonce (fst st') = "" ∧
      ∀ g c, Reading g c ∉ snd st'.
Proof.
  assert (∃ st, exec "s3cret" 8 late_restart initial = Some st ∧ stranded 2 home st) as (st & He & Hs).
  { eexists. split; [vm_compute; reflexivity|]. unfold stranded. cbn. split_and!; try done. by intros j ->%list_elem_of_singleton. }
  exists st. split; [by eapply exec_steps|]. intros st' Hr.
  assert (stranded 2 home st') as (H1 & H2 & _ & _ & H3).
  { clear He. induction Hr as [|a b c Hab _ IH]; [done|]. apply IH. by eapply stranded_step. }
  split_and!; [done|done|]. intros g c Hin. by apply H3 in Hin.
Qed.

End Control.
