(* ===== verification/RevPairing.v ===== *)
(** Forwarded connections on the server end of a reverse tunnel: the limiter
    (Module [Slots]), and those of a tunnel over TCP (Module [Pairing]): accepting one and taking its slot
    ([internal/server/transport/tcp.go], [limits.go]), waiting for a tunnel
    connection ([pairing.go], [pairloop.go]), and giving the slot back.

    Goroutines are jobs and advance one operation on the shared state at a
    time, in any order, as in RevServer.v. Times are milliseconds. The counter
    is an [int32]; it stays far from its bounds, since it counts goroutines. *)

From S2P Require Import Prelude.
Open Scope list_scope.
Open Scope Z_scope.

(** The limiter of [limits.go], an operation at a time: [acquire] gives the counter with the slot taken, [None] when there is none. *)
Module Slots.

Definition limited (maxConns : Z) : bool := 0 <? maxConns.

Definition acquire (maxConns n : Z) : option Z :=
  if limited maxConns then if n + 1 <=? maxConns then Some (n + 1) else None else Some n.

Definition release (maxConns n : Z) : Z := if limited maxConns then n - 1 else n.

Lemma acquired maxConns n m :
  acquire maxConns n = Some m → (limited maxConns = true → m = n + 1) ∧ release maxConns m = n.
Proof.
  unfold acquire, release. destruct limited; [|intros [= ->]; done]. destruct (_ <=? _); [|done]. intros [= <-]. split; [done|lia].
Qed.

Lemma released maxConns n : limited maxConns = true → release maxConns n = n - 1.
Proof. unfold release. by intros ->. Qed.

End Slots.

Module Pairing.

(** [pairingTimeout], in milliseconds. *)
Definition pairingTimeout : Z := 3000.

(** [LocalTCPConn]. *)
Record LocalTCPConn : Type := mkLocal { lid : nat; timeCreated : Z }.

Definition pairingWait (now createdMillis : Z) : Z :=
  let left := pairingTimeout - (now - createdMillis) in if left <=? 0 then 1 else left.

Definition expired (now : Z) (l : LocalTCPConn) : bool := pairingTimeout <? now - timeCreated l.

(** One run: whether its context is done, and its [localChannel]. *)
Record run_ : Type := mkRun { done_ : bool; localChannel : list LocalTCPConn }.

(** The limiter's counter outlives the runs. *)
Record shared : Type := mkShared { active : Z; runs : list run_ }.

Definition run_of (s : shared) (g : nat) : run_ := default (mkRun true []) (runs s !! g).
Definition set_run (s : shared) (g : nat) (r : run_) : shared := mkShared (active s) (<[g := r]> (runs s)).

Inductive job : Type :=
| Dialled (g : nat) (l : LocalTCPConn)     (* accepted; about to take a slot *)
| Refusing (l : LocalTCPConn)              (* one too many was counted *)
| Queueing (g : nat) (l : LocalTCPConn)
| Dropping (l : LocalTCPConn)              (* the queue is full *)
| Loop (g : nat)                           (* handleLoop *)
| Holding (g : nat) (l : LocalTCPConn)
| Waiting (g : nat) (l : LocalTCPConn)     (* the select of pairing.run *)
| Abandoning (g : nat) (l : LocalTCPConn)
| Relaying (l : LocalTCPConn).             (* the data path; it releases at the end *)

(** Which case of a [select] goes on. *)
Inductive choice : Type := Done_ | Timer | Tunnel (announced : bool).

Record input : Type := mkInput { now : Z; which : choice }.

Section server.
(** [MaxConnections] (zero or less is no limit) and [ChannelSize]. *)
Context (maxConns : Z) (ChannelSize : nat).

Definition limited : bool := 0 <? maxConns.

(** [acquire], its first [Add]. *)
Definition acquire (s : shared) : shared * bool :=
  if limited then (mkShared (active s + 1) (runs s), active s + 1 <=? maxConns) else (s, true).

(** [release], and the second [Add] of [acquire]. *)
Definition release (s : shared) : shared := if limited then mkShared (active s - 1) (runs s) else s.

Definition advance (i : input) (s : shared) (j : job) : option (shared * list job) :=
  match j with
  | Dialled g l => let x := acquire s in Some (fst x, [if snd x then Queueing g l else Refusing l])
  | Refusing l => Some (release s, [])
  | Queueing g l =>
      let r := run_of s g in
      if (length (localChannel r) <? ChannelSize)%nat then
        Some (set_run s g (mkRun (done_ r) (localChannel r ++ [l])), [])
      else Some (s, [Dropping l])
  | Dropping l => Some (release s, [])
  | Loop g =>
      let r := run_of s g in
      match which i, localChannel r with
      | Done_, _ => if done_ r then Some (s, []) else None
      | _, l :: q => Some (set_run s g (mkRun (done_ r) q), [Holding g l])
      | _, [] => None
      end
  | Holding g l => Some (s, [if expired (now i) l then Abandoning g l else Waiting g l])
  | Waiting g l =>
      match which i with
      | Done_ => if done_ (run_of s g) then Some (s, [Abandoning g l]) else None
      | Timer => Some (s, [Abandoning g l])
      | Tunnel true => Some (s, [Relaying l; Loop g])
      | Tunnel false => Some (s, [Waiting g l])        (* discarded; another is asked for *)
      end
  | Abandoning g l => Some (release s, [Loop g])
  | Relaying l => Some (release s, [])
  end.

Definition state : Type := shared * list job.

(** A job goes on; a connection comes to a run's listener, until the listener
    is closed; a run is replaced by the next, with its [n] loops. *)
Inductive step : state → state → Prop :=
| step_job i s pre j post s' js :
    advance i s j = Some (s', js) → step (s, pre ++ j :: post) (s', pre ++ js ++ post)
| step_accept s js g l :
    (g < length (runs s))%nat → step (s, js) (s, js ++ [Dialled g l])
| step_restart s js g r n :
    length (runs s) = S g → runs s !! g = Some r →
    step (s, js) (mkShared (active s) (<[g := mkRun true (localChannel r)]> (runs s) ++ [mkRun false []]), js ++ replicate n (Loop (S g))).

Definition initial (n : nat) : state := (mkShared 0 [mkRun false []], replicate n (Loop 0)).

(** ** Lemmas: the slots are counted *)

(** Whether a job is inside a slot, and whether it was let in. *)
Definition slot (j : job) : nat := match j with Dialled _ _ | Loop _ => 0 | _ => 1 end.
Definition admitted (j : job) : nat := match j with Dialled _ _ | Loop _ | Refusing _ => 0 | _ => 1 end.

Definition total (f : job → nat) (js : list job) : nat := sum_list_with f js.
Definition queued (s : shared) : nat := sum_list_with (λ r, length (localChannel r)) (runs s).

Lemma total_app f a b : total f (a ++ b) = (total f a + total f b)%nat.
Proof. apply sum_list_with_app. Qed.

Lemma total_cons f j js : total f (j :: js) = (f j + total f js)%nat.
Proof. done. Qed.

Lemma sum_insert {A} (f : A → nat) l : ∀ k x y, l !! k = Some x → (sum_list_with f (<[k := y]> l) + f x = sum_list_with f l + f y)%nat.
Proof.
  induction l as [|a l IH]; intros [|k] x y H; [done|done| |].
  - injection H as ->. cbn. lia.
  - specialize (IH k x y H). change (<[S k:=y]> (a :: l)) with (a :: <[k:=y]> l). cbn [sum_list_with]. lia.
Qed.

Lemma queued_set s g r : (g < length (runs s))%nat →
  (queued (set_run s g r) + length (localChannel (run_of s g)) = queued s + length (localChannel r))%nat.
Proof.
  intros Hg. apply lookup_lt_is_Some_2 in Hg as [x Hx]. unfold queued, run_of. rewrite Hx. cbn [set_run runs from_option id].
  by apply (sum_insert (λ r, length (localChannel r))).
Qed.

Definition job_run (j : job) : option nat :=
  match j with Dialled g _ | Queueing g _ | Loop g | Holding g _ | Waiting g _ | Abandoning g _ => Some g | _ => None end.

Record counted (st : state) : Prop := {
  counted_active : limited = true → active (fst st) = Z.of_nat (total slot (snd st) + queued (fst st));
  counted_cap : limited = true → Z.of_nat (total admitted (snd st) + queued (fst st)) ≤ maxConns;
  counted_runs : ∀ j g, j ∈ snd st → job_run j = Some g → (g < length (runs (fst st)))%nat;
}.

Lemma admitted_slot js : (total admitted js ≤ total slot js)%nat.
Proof. unfold total. induction js as [|j js IH]; cbn; [done|]. destruct j; cbn in *; lia. Qed.

Lemma advance_counted i s pre j post s' js :
  counted (s, pre ++ j :: post) → advance i s j = Some (s', js) → counted (s', pre ++ js ++ post).
Proof.
  intros [Ha Hc Hr] HA. cbn [fst snd] in *.
  rewrite total_app, total_cons in Ha, Hc.
  assert (∀ k, k ∈ pre ++ post → k ∈ pre ++ j :: post) as Hin by (intros k; rewrite !elem_of_app, elem_of_cons; tauto).
  assert (∀ g, job_run j = Some g → (g < length (runs s))%nat) as Hg.
  { intros g. apply Hr. rewrite elem_of_app, elem_of_cons. auto. }
  assert (length (runs s') = length (runs s) ∧ (∀ k g, k ∈ js → job_run k = Some g → (g < length (runs s))%nat)) as [Hlen Hjs].
  { clear Ha Hc Hr. destruct j; cbn [advance job_run] in *; unfold acquire, release in *;
    repeat match goal with
    | H : context [match ?x with _ => _ end] |- _ => destruct x eqn:?
    | H : Some _ = Some _ |- _ => injection H as <- <-
    | H : None = Some _ |- _ => done
    | |- context [match ?x with _ => _ end] => destruct x eqn:?
    end; cbn [fst snd set_run runs]; rewrite ?length_insert; (split; [done|]); intros k h Hk Eh;
    repeat (apply elem_of_cons in Hk as [-> | Hk]; [cbn in Eh; (done || (injection Eh as <-; by apply Hg))|]); by apply elem_of_nil in Hk. }
  assert (limited = true → active s' = Z.of_nat (total slot pre + (total slot js + total slot post) + queued s') ∧
    Z.of_nat (total admitted pre + (total admitted js + total admitted post) + queued s') ≤ maxConns) as HK.
  { intros HL. specialize (Ha HL). specialize (Hc HL).
    assert (∀ r, (g ← job_run j; Some (queued (set_run s g r) + length (localChannel (run_of s g)))%nat) =
      (g ← job_run j; Some (queued s + length (localChannel r))%nat)) as HQ.
    { intros r. destruct (job_run j) as [g|] eqn:E; [|done]. cbn [mbind option_bind]. by rewrite queued_set by (by apply Hg). }
    pose proof (admitted_slot pre). pose proof (admitted_slot post).
    destruct j as [g l|l|g l|l|g|g l|g l|g l|l]; cbn [advance job_run mbind option_bind slot admitted] in *; unfold acquire, release in HA; rewrite ?HL in HA.
    - injection HA as <- <-. cbn [fst snd active queued runs]. unfold queued in *. cbn [runs].
      destruct (Z.leb_spec (active s + 1) maxConns); cbn; lia.
    - injection HA as <- <-. cbn. unfold queued in *. cbn [runs]. lia.
    - destruct (_ <? _)%nat; injection HA as <- <-; [|cbn; lia].
      specialize (HQ (mkRun (done_ (run_of s g)) (localChannel (run_of s g) ++ [l]))). injection HQ as HQ.
      cbn [localChannel] in HQ. rewrite length_app in HQ. cbn in *. lia.
    - injection HA as <- <-. cbn. unfold queued in *. cbn [runs]. lia.
    - destruct (localChannel (run_of s g)) as [|l q] eqn:El.
      { destruct (which i); try done. destruct (done_ _); [|done]. injection HA as <- <-. cbn. lia. }
      assert (Some (set_run s g (mkRun (done_ (run_of s g)) q), [Holding g l]) = Some (s', js) ∨ (s', js) = (s, [])) as [E|E].
      { destruct (which i); [|by left|by left]. destruct (done_ _); [|done]. right. by injection HA as <- <-. }
      + injection E as <- <-. specialize (HQ (mkRun (done_ (run_of s g)) q)). injection HQ as HQ. cbn in *. lia.
      + injection E as -> ->. cbn. lia.
    - injection HA as <- <-. destruct (expired _ _); cbn; lia.
    - destruct (which i) as [| |[]]; [destruct (done_ _); [|done]| | |]; injection HA as <- <-; cbn; lia.
    - injection HA as <- <-. cbn. unfold queued in *. cbn [runs]. lia.
    - injection HA as <- <-. cbn. unfold queued in *. cbn [runs]. lia. }
  split; cbn [fst snd]; rewrite ?total_app.
  - intros HL. by apply HK.
  - intros HL. by apply HK.
  - intros k g. rewrite !elem_of_app. rewrite Hlen. intros [Hk|[Hk|Hk]] Eg; [|by eapply Hjs|];
      (eapply Hr; [apply Hin, elem_of_app; eauto|done]).
Qed.

Lemma total_loops f g n : f (Loop g) = 0%nat → total f (replicate n (Loop g)) = 0%nat.
Proof. intros H. unfold total. induction n as [|n IH]; [done|]. cbn. by rewrite H. Qed.

Lemma step_counted st st' : step st st' → counted st → counted st'.
Proof.
  intros [i s pre j post s' js HA|s js g l Hg|s js g r n Hlen Hr] HC; [by eapply advance_counted| |]; destruct HC as [Ha Hc Hj]; cbn [fst snd] in *.
  - split; cbn [fst snd]; rewrite ?total_app, ?Nat.add_0_r; cbn [total sum_list_with slot admitted]; rewrite ?Nat.add_0_r; try done.
    intros k h [Hk| ->%list_elem_of_singleton]%elem_of_app Eh; [by eapply Hj|]. cbn in Eh. by injection Eh as <-.
  - assert (∀ A, queued (mkShared A (<[g:=mkRun true (localChannel r)]> (runs s) ++ [mkRun false []])) = queued s) as HQ.
    { intros A. unfold queued. cbn [runs]. rewrite sum_list_with_app. cbn.
      pose proof (sum_insert (λ r, length (localChannel r)) (runs s) g r (mkRun true (localChannel r)) Hr) as H. cbn in H. lia. }
    split; cbn [fst snd active runs]; rewrite ?total_app, ?total_loops, ?HQ, ?Nat.add_0_r by done; try done.
    intros k h [Hk|Hk]%elem_of_app Eh.
    + specialize (Hj k h Hk Eh). rewrite length_app, length_insert. lia.
    + apply elem_of_replicate in Hk as [-> _]. cbn in Eh. injection Eh as <-. rewrite length_app, length_insert. cbn. lia.
Qed.

Lemma reachable_counted n st : 0 ≤ maxConns → rtc step (initial n) st → counted st.
Proof.
  intros Hm. assert (∀ a b, rtc step a b → counted a → counted b) as H.
  { induction 1 as [|a b c Hs _ IH]; [done|]. intros Ha. by eapply IH, step_counted. }
  intros Hr. eapply H; [exact Hr|]. split; cbn [fst snd initial active runs].
  - intros _. by rewrite total_loops.
  - intros HL. rewrite total_loops by done. cbn. lia.
  - intros k g [-> _]%elem_of_replicate. cbn. intros [= <-]. lia.
Qed.

(** The connection limit counts what it should. However connections
    arrive, wait, time out, are relayed and end, and however often the run is
    replaced, the counter is the number of connections that hold a slot (with
    those just being refused), so none is given back twice or lost to a path
    of the loops; and those let in are never more than the limit. *)
Theorem slots_counted n st :
  0 < maxConns → rtc step (initial n) st →
  active (fst st) = Z.of_nat (total slot (snd st) + queued (fst st)) ∧
  Z.of_nat (total admitted (snd st) + queued (fst st)) ≤ maxConns.
Proof.
  intros Hm Hr. destruct (reachable_counted n st ltac:(lia) Hr) as [Ha Hc _].
  assert (limited = true) as HL by (unfold limited; by apply Z.ltb_lt). auto.
Qed.

(** A run that is over, whose loops are gone, and what is left in its queue. *)
Definition loops_of (g : nat) (j : job) : bool :=
  match j with Loop h | Holding h _ | Waiting h _ | Abandoning h _ => Nat.eqb h g | _ => false end.

Definition left_behind (g : nat) (k : nat) (st : state) : Prop :=
  (g < length (runs (fst st)))%nat ∧ (S g < length (runs (fst st)))%nat ∧
  (k ≤ length (localChannel (run_of (fst st) g)))%nat ∧ ∀ j, j ∈ snd st → loops_of g j = false.

Lemma run_of_set s g r h : (g < length (runs s))%nat → run_of (set_run s g r) h = if base.decide (g = h) then r else run_of s h.
Proof.
  intros Hg. unfold run_of. cbn [set_run runs]. destruct (base.decide (g = h)) as [<-|Hne];
    [by rewrite list_lookup_insert_eq|by rewrite list_lookup_insert_ne].
Qed.

Lemma left_behind_step g k st st' : step st st' → left_behind g k st → left_behind g k st'.
Proof.
  intros Hs (Hg & Hg' & Hk & Hj). destruct Hs as [i s pre j post s' js HA|s js h l Hh|s js h r n Hlen Hr]; cbn [fst snd] in *.
  - assert (loops_of g j = false) as Hjg by (apply Hj; rewrite elem_of_app, elem_of_cons; auto).
    assert (∀ x, x ∈ pre ++ post → loops_of g x = false) as Hrest.
    { intros x Hx. apply Hj. rewrite elem_of_app, elem_of_cons. apply elem_of_app in Hx. tauto. }
    assert (length (runs s') = length (runs s) ∧ (length (localChannel (run_of s g)) ≤ length (localChannel (run_of s' g)))%nat ∧
      ∀ x, x ∈ js → loops_of g x = false) as (H1 & H2 & H3).
    { assert (∀ b, run_of (mkShared b (runs s)) g = run_of s g) as Hrun by done.
      destruct j as [h l|l|h l|l|h|h l|h l|h l|l]; cbn [advance loops_of] in *; unfold acquire, release in HA.
      - destruct limited; injection HA as <- <-; rewrite ?Hrun; (split_and!; [done|done|]); intros x ->%list_elem_of_singleton;
          [by destruct (_ <=? _)|done].
      - destruct limited; injection HA as <- <-; rewrite ?Hrun; (split_and!; [done|done|]); by intros x ?%elem_of_nil.
      - destruct (_ <? _)%nat; injection HA as <- <-.
        2:{ split_and!; [done|done|]. by intros x ->%list_elem_of_singleton. }
        split_and!; [cbn; apply length_insert| |by intros x ?%elem_of_nil].
        destruct (base.decide (h < length (runs s))%nat) as [Hh|Hh].
        + rewrite run_of_set by done. destruct (base.decide (h = g)) as [->|]; [|done]. cbn [localChannel]. rewrite length_app. lia.
        + unfold run_of at 2. cbn [set_run runs]. by rewrite list_insert_ge by lia.
      - destruct limited; injection HA as <- <-; rewrite ?Hrun; (split_and!; [done|done|]); by intros x ?%elem_of_nil.
      - apply Nat.eqb_neq in Hjg. assert (∀ r, run_of (set_run s h r) g = run_of s g) as HR.
        { intros r. unfold run_of. cbn [set_run runs]. by rewrite list_lookup_insert_ne. }
        destruct (localChannel (run_of s h)) as [|l q].
        { destruct (which i); try done. destruct (done_ _); [|done]. injection HA as <- <-. split_and!; [done|done|]. by intros x ?%elem_of_nil. }
        destruct (which i); [destruct (done_ _); [|done]| |]; injection HA as <- <-;
          [split_and!; [done|done|]; by intros x ?%elem_of_nil| |];
          (rewrite HR; split_and!; [cbn; apply length_insert|done|intros x ->%list_elem_of_singleton; by apply Nat.eqb_neq]).
      - injection HA as <- <-. split_and!; [done|done|]. intros x ->%list_elem_of_singleton. by destruct (expired _ _).
      - destruct (which i) as [| |[]]; [destruct (done_ _); [|done]| | |]; injection HA as <- <-; (split_and!; [done|done|]).
        + by intros x ->%list_elem_of_singleton.
        + by intros x ->%list_elem_of_singleton.
        + by intros x [-> |[-> |[]%elem_of_nil]%elem_of_cons]%elem_of_cons.
        + by intros x ->%list_elem_of_singleton.
      - destruct limited; injection HA as <- <-; rewrite ?Hrun; (split_and!; [done|done|]); by intros x ->%list_elem_of_singleton.
      - destruct limited; injection HA as <- <-; rewrite ?Hrun; (split_and!; [done|done|]); by intros x ?%elem_of_nil. }
    unfold left_behind. cbn [fst snd]. rewrite H1. split_and!; [done|done|lia|].
    intros x. rewrite !elem_of_app. intros [?|[?|?]]; [apply Hrest, elem_of_app; by left|by apply H3|apply Hrest, elem_of_app; by right].
  - unfold left_behind. cbn [fst snd]. split_and!; try done. intros x [?| ->%list_elem_of_singleton]%elem_of_app; [auto|done].
  - unfold left_behind. cbn [fst snd runs]. rewrite length_app, length_insert. split_and!; [lia|lia| |].
    + unfold run_of in *. cbn [runs]. rewrite lookup_app_l by (rewrite length_insert; lia).
      destruct (base.decide (h = g)) as [->|Hne]; [lia|by rewrite list_lookup_insert_ne].
    + intros x [?|[-> _]%elem_of_replicate]%elem_of_app; [auto|]. cbn [loops_of]. apply Nat.eqb_neq. lia.
Qed.

Lemma queued_at_least s g : (length (localChannel (run_of s g)) ≤ queued s)%nat.
Proof.
  unfold run_of, queued. destruct (runs s !! g) as [r|] eqn:E; [|cbn; lia]. cbn [from_option id].
  apply list_elem_of_lookup_2 in E. revert E. generalize (runs s). induction l as [|x l IH]; [by intros ?%elem_of_nil|].
  intros [-> |H]%elem_of_cons; cbn; [lia|]. specialize (IH H). cbn in *. lia.
Qed.

(** Once as many connections as the limit are left in the queue of a run that
    is over, every connection is refused, for good: their slots are held by
    nobody who would give them back. *)
Lemma left_behind_refuses n st g st' :
  0 < maxConns → rtc step (initial n) st → left_behind g (Z.to_nat maxConns) st → rtc step st st' →
  snd (acquire (fst st')) = false.
Proof.
  intros Hm Hr Hl Hs.
  assert (left_behind g (Z.to_nat maxConns) st') as (_ & _ & Hk & _).
  { clear Hr. induction Hs as [|a b c Hab _ IH]; [done|]. apply IH. by eapply left_behind_step. }
  destruct (reachable_counted n st' ltac:(lia) ltac:(by etrans)) as [Ha _ _].
  assert (limited = true) as HL by (unfold limited; by apply Z.ltb_lt). specialize (Ha HL).
  pose proof (queued_at_least (fst st') g). unfold acquire. rewrite HL. cbn [snd]. apply Z.leb_gt. lia.
Qed.

End server.

(** With room for two, one connection waits for the pool and is relayed; the
    other's wait ends. *)
Lemma slots_counted_witness :
  let l := mkLocal 1 0 in
  let st := (mkShared 1 [mkRun false []], [Relaying l; Loop 0]) in
  rtc (step 2 4) (initial 1) st ∧ active (fst st) = Z.of_nat (total slot (snd st) + queued (fst st)).
Proof.
  intros l st. assert (rtc (step 2 4) (initial 1) st) as Hr.
  { eapply rtc_l; [apply (step_accept 2 4 _ _ 0 l); cbn; lia|].
    eapply rtc_l; [by apply (step_job 2 4 (mkInput 0 Timer) _ [Loop 0] (Dialled 0 l) [])|].
    eapply rtc_l; [by apply (step_job 2 4 (mkInput 0 Timer) _ [Loop 0] (Queueing 0 l) [])|].
    eapply rtc_l; [by apply (step_job 2 4 (mkInput 0 Timer) _ [] (Loop 0) [])|].
    eapply rtc_l; [by apply (step_job 2 4 (mkInput 5 Timer) _ [] (Holding 0 l) [])|].
    eapply rtc_l; [by apply (step_job 2 4 (mkInput 9 (Tunnel false)) _ [] (Waiting 0 l) [])|].
    eapply rtc_l; [by apply (step_job 2 4 (mkInput 9 (Tunnel true)) _ [] (Waiting 0 l) [])|]. apply rtc_refl. }
  split; [exact Hr|]. by apply (slots_counted 2 4 1 st).
Defined.

(** A restart loses the slots of the connections still in the queue: with a
    limit of one, a single connection that was queued when the run ended keeps
    every later one out, for as long as the process lives. *)
Theorem restart_loses_slots :
  ∃ st, rtc (step 1 4) (initial 1) st ∧ ∀ st', rtc (step 1 4) st st' → snd (acquire 1 (fst st')) = false.
Proof.
  set (l := mkLocal 1 0). set (st := (mkShared 1 [mkRun true [l]; mkRun false []], [Loop 1]) : state).
  assert (rtc (step 1 4) (initial 1) st) as Hr.
  { eapply rtc_l; [apply (step_accept 1 4 _ _ 0 l); cbn; lia|].
    eapply rtc_l; [by apply (step_job 1 4 (mkInput 0 Timer) _ [Loop 0] (Dialled 0 l) [])|].
    eapply rtc_l; [by apply (step_job 1 4 (mkInput 0 Timer) _ [Loop 0] (Queueing 0 l) [])|].
    eapply rtc_l; [by apply (step_restart 1 4 _ _ 0 (mkRun false [l]) 1)|].
    eapply rtc_l; [by apply (step_job 1 4 (mkInput 0 Done_) _ [] (Loop 0) [Loop 1])|]. apply rtc_refl. }
  exists st. split; [exact Hr|]. intros st' Hs. eapply (left_behind_refuses 1 4 1 st 0); [done|exact Hr| |exact Hs].
  split_and!; try (cbn; lia). by intros j ->%list_elem_of_singleton.
Qed.

End Pairing.
