(* ===== verification/RevClient.v ===== *)
(** The client end of a reverse tunnel:
    - Module [Endpoints]: the addresses of the server and which is dialled
      ([internal/utils/network/endpoints.go]), and the steering by health
      ([healthscore.go]);
    - Module [Racing]: dialling several at once ([race.go]);
    - Module [PoolSize]: how many connections the pool keeps
      ([internal/client/transport/poolmaintain.go], [poolload.go]);
    - Module [Pace]: how retries are spaced
      ([internal/utils/acceptloop], [internal/server/transport/bindfail.go]). *)

From Stdlib Require Import Ascii String.
From S2P Require Import Prelude GoStr.
Import GoStr.
Open Scope string_scope.
Open Scope list_scope.
Open Scope Z_scope.

Module Endpoints.

(** The cursors are 64-bit counters. *)
Record Endpoints : Type := mkEndpoints {
  list_ : list string;
  idx : Z;
  spreadIdx : Z;
  spread : bool;
  steer : bool;
  preferred : Z
}.

(** The [add] of [NewEndpoints]; [seen] is what is in the list. *)
Definition add (l : list string) (a : string) : list string :=
  let a := TrimSpace a in
  if String.eqb a "" || bool_decide (a ∈ l) then l else l ++ [a].

Definition NewEndpoints (primary : string) (fallbacks : list string) : Endpoints :=
  mkEndpoints (fold_left add fallbacks (add [] primary)) 0 0 false false 0.

Definition Len (e : Endpoints) : Z := zlen (list_ e).

(** Go's [%], which takes the sign of the dividend. *)
Definition clampIdx (e : Endpoints) (v : Z) : Z :=
  let i := Z.rem v (Len e) in if i <? 0 then i + Len e else i.

(** [e.list[i]]; an index out of range would panic. *)
Definition at_index (e : Endpoints) (i : Z) : option string := if i <? 0 then None else list_ e !! Z.to_nat i.

Definition Current (e : Endpoints) : option string :=
  if Len e =? 0 then Some ""
  else if steer e then at_index e (clampIdx e (preferred e))
  else at_index e (Z.rem (idx e) (Len e)).

Definition Rotate (e : Endpoints) : Endpoints :=
  if Len e <=? 1 then e
  else if steer e then mkEndpoints (list_ e) (idx e) (spreadIdx e) (spread e) (steer e) (clampIdx e (int64 (preferred e + 1)))
  else mkEndpoints (list_ e) (int64 (idx e + 1)) (spreadIdx e) (spread e) (steer e) (preferred e).

(** [Next]: the endpoint of a new data connection. *)
Definition Next (e : Endpoints) : Endpoints * option string :=
  if Len e =? 0 then (e, Some "")
  else if steer e then (e, at_index e (clampIdx e (preferred e)))
  else if negb (spread e) || (Len e =? 1) then (e, Current e)
  else
    let i := Z.rem (spreadIdx e) (Len e) in
    (mkEndpoints (list_ e) (idx e) (int64 (spreadIdx e + 1)) (spread e) (steer e) (preferred e),
     at_index e (if i <? 0 then 0 else i)).

Fixpoint find_index (i : nat) (cur : string) (l : list string) : option nat :=
  match l with [] => None | a :: l => if String.eqb a cur then Some i else find_index (S i) cur l end.

(** [InPreferenceOrder], from where [Current] is. *)
Definition start_of (e : Endpoints) : nat :=
  match Current e with
  | Some cur => if String.eqb cur "" then 0%nat else default 0%nat (find_index 0 cur (list_ e))
  | None => 0%nat
  end.

Definition InPreferenceOrder (e : Endpoints) : list string :=
  if Len e <? 2 then list_ e
  else map (λ i, default "" (list_ e !! ((start_of e + i) `mod` length (list_ e))%nat)) (seq 0 (length (list_ e))).

Definition Prefer (e : Endpoints) (addr : string) : Endpoints :=
  if String.eqb addr "" || (Len e <? 2) || steer e then e
  else
    match find_index 0 addr (list_ e) with
    | Some i => mkEndpoints (list_ e) (Z.of_nat i) (spreadIdx e) (spread e) (steer e) (preferred e)
    | None => e
    end.

(** ** Lemmas *)

Definition well_formed (e : Endpoints) : Prop :=
  NoDup (list_ e) ∧ "" ∉ list_ e ∧ 0 ≤ idx e ∧ 0 ≤ spreadIdx e ∧ 0 ≤ preferred e.

Lemma add_spec l a : NoDup l → "" ∉ l →
  NoDup (add l a) ∧ "" ∉ add l a ∧ ∀ x, x ∈ add l a ↔ x ∈ l ∨ x = TrimSpace a ∧ x ≠ "".
Proof.
  intros Hd He. unfold add. destruct (String.eqb_spec (TrimSpace a) "") as [E|Hn]; cbn [orb].
  { split_and!; [done|done|]. intros x. rewrite E. split; [by left|]. by intros [?|[-> ?]]. }
  case_bool_decide as Hin.
  { split_and!; [done|done|]. intros x. split; [by left|]. by intros [?|[-> _]]. }
  split_and!.
  - apply NoDup_app. split_and!; [done| |apply NoDup_singleton]. intros x Hx ->%list_elem_of_singleton. done.
  - rewrite elem_of_app, list_elem_of_singleton. by intros [?|?].
  - intros x. rewrite elem_of_app, list_elem_of_singleton. split; [intros [?| ->]; auto|]. intros [?|[-> _]]; auto.
Qed.

Lemma find_index_spec cur l : ∀ k, 
  match find_index k cur l with
  | Some i => (k ≤ i)%nat ∧ l !! (i - k)%nat = Some cur
  | None => cur ∉ l
  end.
Proof.
  induction l as [|a l IH]; intros k; cbn [find_index]; [apply not_elem_of_nil|].
  destruct (String.eqb_spec a cur) as [->|Hn]; [split; [lia|by rewrite Nat.sub_diag]|].
  specialize (IH (S k)). destruct (find_index (S k) cur l) as [i|].
  - destruct IH as [H1 H2]. split; [lia|]. by replace (i - k)%nat with (S (i - S k))%nat by lia.
  - apply not_elem_of_cons. by split.
Qed.

(** Going once round a list from anywhere. *)
Lemma rotation (l : list string) s : (s < length l)%nat →
  map (λ i, default "" (l !! ((s + i) `mod` length l)%nat)) (seq 0 (length l)) = drop s l ++ take s l.
Proof.
  intros Hs. apply list_eq_same_length with (length l).
  { rewrite length_app, length_drop, length_take. lia. }
  { by rewrite length_map, length_seq. }
  intros j x y Hj. rewrite list_lookup_fmap, lookup_seq_lt by lia. cbn [fmap option_fmap option_map]. rewrite Nat.add_0_l. intros [= <-].
  assert (∀ k, (k < length l)%nat → default "" (l !! k) = y ↔ l !! k = Some y) as HD.
  { intros k Hk. destruct (lookup_lt_is_Some_2 l k Hk) as [z ->]. cbn. split; [by intros ->|by intros [= ->]]. }
  destruct (base.decide (s + j < length l)%nat) as [Hlt|Hge].
  - rewrite Nat.mod_small by done. rewrite lookup_app_l by (rewrite length_drop; lia). rewrite lookup_drop. intros H. by apply HD.
  - replace ((s + j) `mod` length l)%nat with (s + j - length l)%nat.
    2:{ symmetry. rewrite <- (Nat.mod_small (s + j - length l) (length l)) by lia.
        replace (s + j)%nat with ((s + j - length l) + 1 * length l)%nat at 1 by lia. apply Nat.Div0.mod_add. }
    rewrite lookup_app_r, length_drop by (rewrite length_drop; lia).
    intros H. apply HD; [lia|]. rewrite lookup_take in H. destruct (base.decide _); [|done]. rewrite <- H. f_equal. lia.
Qed.

Lemma rotation_perm (l : list string) s : drop s l ++ take s l ≡ₚ l.
Proof. rewrite Permutation_app_comm. by rewrite take_drop. Qed.

(** [f] applied [n] times, and what [out] showed along the way. *)
Fixpoint trace {A B} (f : A → A) (out : A → B) (n : nat) (a : A) : list B :=
  match n with O => [] | S n => out a :: trace f out n (f a) end.

Lemma clampIdx_small e v : 0 ≤ v → 0 < Len e → clampIdx e v = v `mod` Len e ∧ 0 ≤ clampIdx e v < Len e.
Proof.
  intros Hv Hl. unfold clampIdx. rewrite Z.rem_mod_nonneg by lia. pose proof (Z.mod_pos_bound v (Len e) Hl).
  destruct (Z.ltb_spec (v `mod` Len e) 0); lia.
Qed.

(** The [i]-th endpoint from the one that is current. *)
Definition from (e : Endpoints) (v : Z) (i : nat) : option string := list_ e !! Z.to_nat ((v + Z.of_nat i) `mod` Len e).

Lemma cursor_nat v n i : 0 ≤ v → (0 < n)%nat →
  Z.to_nat ((v + Z.of_nat i) `mod` Z.of_nat n) = ((Z.to_nat (v `mod` Z.of_nat n) + i) `mod` n)%nat.
Proof.
  intros Hv Hn. pose proof (Z.mod_pos_bound v (Z.of_nat n) ltac:(lia)). apply Nat2Z.inj.
  rewrite Nat2Z.inj_mod, Nat2Z.inj_add, !Z2Nat.id by (try apply Z.mod_pos_bound; lia). by rewrite Zplus_mod_idemp_l.
Qed.

(** Once round the endpoints, from wherever the cursor is. *)
Lemma from_all e v : 0 < Len e → 0 ≤ v → map (from e v) (seq 0 (length (list_ e))) ≡ₚ map Some (list_ e).
Proof.
  intros Hl Hv. assert (Len e = Z.of_nat (length (list_ e))) as El by done. set (l := list_ e) in *.
  set (s := Z.to_nat (v `mod` Len e)).
  assert (s < length l)%nat as Hs by (pose proof (Z.mod_pos_bound v (Len e) Hl); lia).
  assert (map (from e v) (seq 0 (length l)) = map Some (map (λ i, default "" (l !! ((s + i) `mod` length l)%nat)) (seq 0 (length l)))) as ->.
  { rewrite map_map. apply map_ext_in. intros i _. unfold from. fold l. rewrite El, cursor_nat by lia. rewrite <- El. fold s.
    destruct (lookup_lt_is_Some_2 l ((s + i) `mod` length l)%nat) as [x ->]; [|done]. apply Nat.mod_upper_bound. lia. }
  rewrite rotation by done. apply Permutation_map, rotation_perm.
Qed.

(** No endpoint is left out. The list holds the addresses that were
    configured, each once, without the blank ones. Failing over goes through
    every one of them in as many attempts as there are; with spreading on, the
    data connections go through every one of them likewise, and do not move
    the one the control channel is on; a race tries every one, the preferred
    one first; and once an address is preferred it is the one in use. *)
Theorem no_endpoint_left_out primary fallbacks e :
  (let l := list_ (NewEndpoints primary fallbacks) in
   NoDup l ∧ ∀ x, x ∈ l ↔ x ≠ "" ∧ x ∈ map TrimSpace (primary :: fallbacks)) ∧
  (well_formed e → 2 ≤ Len e → idx e + Len e < 2^63 → spreadIdx e + Len e < 2^63 →
   (steer e = false → trace Rotate Current (length (list_ e)) e ≡ₚ map Some (list_ e)) ∧
   (steer e = false → spread e = true →
      trace (λ e, fst (Next e)) (λ e, snd (Next e)) (length (list_ e)) e ≡ₚ map Some (list_ e) ∧ Current (fst (Next e)) = Current e) ∧
   InPreferenceOrder e ≡ₚ list_ e ∧ head (InPreferenceOrder e) = Current e ∧
   (∀ a, a ∈ list_ e → steer e = false → Current (Prefer e a) = Some a)).
Proof.
  split.
  { cbv zeta. unfold NewEndpoints. cbn [list_].
    assert (∀ fs l, NoDup l → "" ∉ l → NoDup (fold_left add fs l) ∧ ∀ x, x ∈ fold_left add fs l ↔ x ∈ l ∨ x ≠ "" ∧ x ∈ map TrimSpace fs) as HF.
    { induction fs as [|f fs IH]; intros l Hd He; cbn [fold_left map].
      - split; [done|]. intros x. rewrite elem_of_nil. tauto.
      - destruct (add_spec l f Hd He) as (H1 & H2 & H3). destruct (IH _ H1 H2) as [H4 H5]. split; [done|].
        intros x. rewrite H5, H3, elem_of_cons. tauto. }
    destruct (add_spec [] primary) as (H1 & H2 & H3); [constructor|apply not_elem_of_nil|].
    destruct (HF fallbacks _ H1 H2) as [H4 H5]. split; [done|]. intros x. rewrite H5, H3, elem_of_nil. cbn [map]. rewrite elem_of_cons. tauto. }
  intros (Hd & He & Hi & Hs & Hp) Hl Hib Hsb.
  assert (Len e = Z.of_nat (length (list_ e))) as El by done.
  assert (∀ v, 0 ≤ v → at_index e (Z.rem v (Len e)) = from e v 0) as Hat.
  { intros v Hv. unfold at_index, from. rewrite Z.rem_mod_nonneg, Z.add_0_r by lia. pose proof (Z.mod_pos_bound v (Len e) ltac:(lia)).
    destruct (Z.ltb_spec (v `mod` Len e) 0); [lia|done]. }
  split_and!.
  - intros Hst. rewrite <- (from_all e (idx e)) by lia.
    assert (∀ n k i, list_ k = list_ e → steer k = false → 0 ≤ idx k → idx k = idx e + Z.of_nat i → (i + n ≤ length (list_ e))%nat →
      trace Rotate Current n k = map (from e (idx e)) (seq i n)) as HT.
    { induction n as [|n IH]; intros k i El' Es' Hk Ek Hn; [done|]. cbn [trace seq map].
      assert (Len k = Len e) as ELk by (unfold Len; by rewrite El'). f_equal.
      - unfold Current. rewrite Es', ELk. destruct (Z.eqb_spec (Len e) 0); [lia|].
        assert (at_index k (Z.rem (idx k) (Len e)) = at_index e (Z.rem (idx k) (Len e))) as -> by (unfold at_index; by rewrite El').
        rewrite Hat by done. unfold from. by rewrite Ek, Z.add_0_r.
      - unfold Rotate. rewrite Es', ELk. destruct (Z.leb_spec (Len e) 1); [lia|].
        apply IH; cbn [list_ steer idx]; try done; rewrite ?int64_small by lia; lia. }
    rewrite (HT _ e 0%nat) by (done || lia). done.
  - intros Hst Hsp. rewrite <- (from_all e (spreadIdx e)) by lia.
    assert (∀ n k i, list_ k = list_ e → steer k = false → spread k = true → spreadIdx k = spreadIdx e + Z.of_nat i → (i + n ≤ length (list_ e))%nat →
      trace (λ e, fst (Next e)) (λ e, snd (Next e)) n k = map (from e (spreadIdx e)) (seq i n)) as HT.
    { induction n as [|n IH]; intros k i El' Es' Ep' Ek Hn; [done|]. cbn [trace seq map].
      assert (Len k = Len e) as ELk by (unfold Len; by rewrite El').
      unfold Next. rewrite Es', Ep', ELk. destruct (Z.eqb_spec (Len e) 0); [lia|]. destruct (Z.eqb_spec (Len e) 1); [lia|]. cbn [negb orb fst snd]. f_equal.
      - assert (∀ i, at_index k i = at_index e i) as -> by (intros; unfold at_index; by rewrite El').
        rewrite Z.rem_mod_nonneg by lia. pose proof (Z.mod_pos_bound (spreadIdx k) (Len e) ltac:(lia)).
        destruct (Z.ltb_spec (spreadIdx k `mod` Len e) 0); [lia|]. rewrite <- (Z.rem_mod_nonneg (spreadIdx k)) by lia. rewrite Hat by lia.
        unfold from. by rewrite Ek, Z.add_0_r.
      - apply IH; cbn [list_ steer spread spreadIdx]; try done; rewrite ?int64_small by lia; lia. }
    rewrite (HT _ e 0%nat) by (done || lia). split; [done|].
    unfold Next. rewrite Hst, Hsp. destruct (Z.eqb_spec (Len e) 0); [lia|]. destruct (Z.eqb_spec (Len e) 1); [lia|]. cbn [negb orb fst]. unfold Current. cbn [list_ steer idx]. by rewrite Hst.
  - unfold InPreferenceOrder. destruct (Z.ltb_spec (Len e) 2); [lia|].
    assert (start_of e < length (list_ e))%nat as Hst.
    { unfold start_of. destruct (Current e) as [cur|]; [|lia]. destruct (String.eqb cur ""); [lia|].
      pose proof (find_index_spec cur (list_ e) 0) as HF. destruct (find_index 0 cur (list_ e)); cbn; [|lia].
      destruct HF as [_ HF]. apply lookup_lt_Some in HF. lia. }
    rewrite rotation by done. apply rotation_perm.
  - unfold InPreferenceOrder, start_of. destruct (Z.ltb_spec (Len e) 2); [lia|].
    assert (∃ cur, Current e = Some cur ∧ cur ∈ list_ e) as (cur & Ec & Hc).
    { unfold Current. destruct (Z.eqb_spec (Len e) 0); [lia|]. unfold at_index.
      destruct (steer e).
      - destruct (clampIdx_small e (preferred e)) as [_ Hb]; [done|lia|]. destruct (Z.ltb_spec (clampIdx e (preferred e)) 0); [lia|].
        destruct (lookup_lt_is_Some_2 (list_ e) (Z.to_nat (clampIdx e (preferred e)))) as [x E]; [lia|]. exists x. split; [done|].
        by eapply list_elem_of_lookup_2.
      - rewrite Z.rem_mod_nonneg by lia. pose proof (Z.mod_pos_bound (idx e) (Len e) ltac:(lia)). destruct (Z.ltb_spec (idx e `mod` Len e) 0); [lia|].
        destruct (lookup_lt_is_Some_2 (list_ e) (Z.to_nat (idx e `mod` Len e))) as [x E]; [lia|]. exists x. split; [done|].
        by eapply list_elem_of_lookup_2. }
    rewrite Ec. destruct (String.eqb_spec cur "") as [->|_]; [done|].
    pose proof (find_index_spec cur (list_ e) 0) as HF. destruct (find_index 0 cur (list_ e)) as [i|]; [|done].
    destruct HF as [_ HF]. rewrite Nat.sub_0_r in HF. cbn [from_option id]. pose proof (lookup_lt_Some _ _ _ HF).
    rewrite rotation by done. rewrite (drop_S _ _ _ HF). done.
  - intros x Hx Hst. unfold Prefer. destruct (String.eqb_spec x "") as [->|Hn]; [done|]. destruct (Z.ltb_spec (Len e) 2); [lia|]. rewrite Hst. cbn [orb].
    pose proof (find_index_spec x (list_ e) 0) as HF. destruct (find_index 0 x (list_ e)) as [i|]; [|done].
    destruct HF as [_ HF]. rewrite Nat.sub_0_r in HF. pose proof (lookup_lt_Some _ _ _ HF).
    unfold Current, Len. cbn [list_ steer idx]. destruct (Z.eqb_spec (zlen (list_ e)) 0); [unfold Len in *; lia|].
    unfold at_index. cbn [list_]. rewrite Z.rem_mod_nonneg, Z.mod_small by (unfold Len in *; lia).
    destruct (Z.ltb_spec (Z.of_nat i) 0); [lia|]. by rewrite Nat2Z.id.
Qed.

Lemma no_endpoint_left_out_witness :
  let e := mkEndpoints ["a:1"; "b:1"; "c:1"] 1 5 true false 0 in
  list_ (NewEndpoints " a:1" ["b:1"; ""; "a:1 "; "c:1"]) = list_ e ∧
  trace (λ e, fst (Next e)) (λ e, snd (Next e)) 3 e = [Some "c:1"; Some "a:1"; Some "b:1"] ∧
  trace (λ e, fst (Next e)) (λ e, snd (Next e)) 3 e ≡ₚ [Some "a:1"; Some "b:1"; Some "c:1"] ∧
  InPreferenceOrder e = ["b:1"; "c:1"; "a:1"] ∧ Current (Prefer e "c:1") = Some "c:1".
Proof.
  intros e. split; [by vm_compute|]. split; [by vm_compute|].
  destruct (no_endpoint_left_out "" [] e) as [_ H].
  assert (well_formed e) as Hw.
  { split_and!; try (vm_compute; discriminate); [|]; apply (bool_decide_unpack _); by vm_compute. }
  destruct (H Hw) as (_ & H2 & _ & _ & H5); [by vm_compute|by vm_compute|by vm_compute|].
  split; [by apply H2|]. split; [by vm_compute|]. apply H5; [|done]. apply (bool_decide_unpack _). by vm_compute.
Defined.

End Endpoints.

Module Steering.

(** A round's score of one exit: whether it answered, and its score in
    hundredths; the code keeps floating-point numbers. *)
Record EndpointScore : Type := mkScore { Reachable : bool; Score : Z }.

Definition needStreak : Z := 3.

(** A challenger's score is at most 85% of the incumbent's. *)
Definition clearlyBetter (best cur : EndpointScore) : bool := 100 * Score best <=? 85 * Score cur.

(** The best that answered: the first of the lowest scores. *)
Fixpoint best_of (i : nat) (best : option (nat * EndpointScore)) (scores : list EndpointScore) : option (nat * EndpointScore) :=
  match scores with
  | [] => best
  | s :: scores =>
      best_of (S i)
        (if Reachable s && match best with None => true | Some (_, b) => Score s <? Score b end then Some (i, s) else best) scores
  end.

(** What [steerLoop] keeps between rounds: the preferred exit, and the
    challenger with its streak. *)
Record steering : Type := mkSteering { preferred : nat; candidate : option nat; streak : Z }.

(** One round; the score of the preferred exit is looked up, the index being
    in range. *)
Definition round (st : steering) (scores : list EndpointScore) : steering :=
  match best_of 0 None scores with
  | None => st
  | Some (best, bs) =>
      if Nat.eqb best (preferred st) then mkSteering (preferred st) None 0
      else
        let cs := default (mkScore false 0) (scores !! preferred st) in
        let curDead := negb (Reachable cs) in
        if negb curDead && negb (clearlyBetter bs cs) then mkSteering (preferred st) None 0
        else
          let k := if bool_decide (candidate st = Some best) then streak st + 1 else 1 in
          if curDead || (needStreak <=? k) then mkSteering best None 0
          else mkSteering (preferred st) (Some best) k
  end.

(** A round in which [b] was the best and clearly better than [cur], which answered. *)
Definition challenges (b cur : nat) (scores : list EndpointScore) : Prop :=
  ∃ bs cs, best_of 0 None scores = Some (b, bs) ∧ scores !! cur = Some cs ∧ Reachable cs = true ∧ clearlyBetter bs cs = true.

Definition dead (cur : nat) (scores : list EndpointScore) : Prop :=
  Reachable (default (mkScore false 0) (scores !! cur)) = false.

(** ** Lemmas *)

Lemma best_of_spec scores : ∀ i best, 
  match best_of i best scores with
  | None => best = None ∧ ∀ s, s ∈ scores → Reachable s = false
  | Some (k, b) => (best = Some (k, b) ∨ (i ≤ k)%nat ∧ scores !! (k - i)%nat = Some b ∧ Reachable b = true) ∧
      (∀ s, s ∈ scores → Reachable s = true → Score b ≤ Score s) ∧ (∀ j c, best = Some (j, c) → Score b ≤ Score c)
  end.
Proof.
  induction scores as [|s scores IH]; intros i best; cbn [best_of].
  - destruct best as [[k b]|]; [|split; [done|by intros s ?%elem_of_nil]].
    split_and!; [by left|by intros s ?%elem_of_nil|by intros j c [= <- <-]].
  - set (best' := if _ && _ then Some (i, s) else best). specialize (IH (S i) best').
    destruct (best_of (S i) best' scores) as [[k b]|].
    + destruct IH as (H1 & H2 & H3).
      assert (Score b ≤ Score s ∨ Reachable s = false) as Hs.
      { unfold best' in H3. destruct (Reachable s); [|by right]. left. cbn [andb] in H3. destruct best as [[j c]|]; [|by eapply H3].
        destruct (Z.ltb_spec (Score s) (Score c)); [by eapply H3|]. specialize (H3 j c eq_refl). lia. }
      split_and!.
      * destruct H1 as [H1|(H1 & H4 & H5)].
        -- unfold best' in H1. destruct (Reachable s) eqn:Er; cbn [andb] in H1; [|by left].
           destruct (match best with None => true | Some (_, b0) => Score s <? Score b0 end); [|by left].
           injection H1 as <- <-. right. rewrite Nat.sub_diag. done.
        -- right. split; [lia|]. split; [|done]. by replace (k - i)%nat with (S (k - S i))%nat by lia.
      * intros x [-> |Hx]%elem_of_cons Hr; [|by apply H2]. destruct Hs; [done|congruence].
      * intros j c ->. unfold best' in H3. destruct (Reachable s); cbn [andb] in H3; [|by eapply H3].
        destruct (Z.ltb_spec (Score s) (Score c)); [|by eapply H3]. specialize (H3 i s eq_refl). lia.
    + destruct IH as [H1 H2]. unfold best' in H1. destruct (Reachable s) eqn:Er; cbn [andb] in H1.
      * destruct best as [[j c]|]; [|done]. by destruct (_ <? _).
      * split; [done|]. by intros x [-> |Hx]%elem_of_cons; [|apply H2].
Qed.

(** The rounds in which anything answered; the others are passed over. *)
Definition heard (rounds : list (list EndpointScore)) : list (list EndpointScore) :=
  filter (λ r, is_Some (best_of 0 None r)) rounds.

(** The streak, by the rounds behind it. *)
Definition streak_ok (rounds : list (list EndpointScore)) (st : steering) : Prop :=
  match candidate st with
  | None => streak st = 0
  | Some b => 1 ≤ streak st < needStreak ∧ ∃ older recent, heard rounds = older ++ recent ∧ zlen recent = streak st ∧
      Forall (challenges b (preferred st)) recent
  end.

Definition run (st : steering) (rounds : list (list EndpointScore)) : steering := fold_left round rounds st.

(** One round, by what it can come to. *)
Lemma round_cases st r :
  match best_of 0 None r with
  | None => round st r = st
  | Some (b, _) =>
      round st r = mkSteering (preferred st) None 0 ∨
      b ≠ preferred st ∧ dead (preferred st) r ∧ round st r = mkSteering b None 0 ∨
      b ≠ preferred st ∧ challenges b (preferred st) r ∧
        let k := if bool_decide (candidate st = Some b) then streak st + 1 else 1 in
        round st r = if needStreak <=? k then mkSteering b None 0 else mkSteering (preferred st) (Some b) k
  end.
Proof.
  unfold round. destruct (best_of 0 None r) as [[b bs]|] eqn:Eb; [|done].
  destruct (Nat.eqb_spec b (preferred st)) as [|Hb]; [by left|]. cbv zeta.
  set (cs := default (mkScore false 0) (r !! preferred st)). destruct (Reachable cs) eqn:Er; cbn [negb andb orb].
  - destruct (clearlyBetter bs cs) eqn:Ec; cbn [negb]; [|by left]. right; right. split_and!; [done| |done].
    unfold cs in *. destruct (r !! preferred st) as [c|] eqn:El; [|done]. by exists bs, c.
  - right; left. by split_and!.
Qed.

Lemma heard_snoc rounds r : heard (rounds ++ [r]) = heard rounds ++ (if best_of 0 None r then [r] else []).
Proof.
  unfold heard. rewrite filter_app, filter_cons, filter_nil. f_equal.
  destruct (best_of 0 None r); [rewrite decide_True; [done|by eexists]|by rewrite decide_False by (by intros [? ?])].
Qed.

Lemma run_streak p rounds : streak_ok rounds (run (mkSteering p None 0) rounds).
Proof.
  unfold run. induction rounds as [|r rounds IH] using rev_ind; [done|]. rewrite fold_left_app. cbn [fold_left].
  set (s := fold_left round rounds (mkSteering p None 0)) in *. clearbody s. unfold streak_ok in *. rewrite heard_snoc.
  pose proof (round_cases s r) as HR. destruct (best_of 0 None r) as [[b bs]|]; [|by rewrite HR, app_nil_r].
  destruct HR as [-> |[(_ & _ & ->)|(_ & Hc & ->)]]; [done|done|].
  case_bool_decide as Ed; [rewrite Ed in IH; destruct IH as (Hk & older & recent & E & Hl & HF)|].
  - destruct (Z.leb_spec needStreak (streak s + 1)); [done|]. cbn [candidate streak preferred]. split; [lia|].
    exists older, (recent ++ [r]). rewrite E, <- app_assoc, zlen_app, Hl. split_and!; [done|done|].
    apply Forall_app. split; [done|by apply Forall_singleton].
  - change (needStreak <=? 1) with false. cbn [candidate streak preferred]. split; [unfold needStreak; lia|].
    exists (heard rounds), [r]. split_and!; [done|done|by apply Forall_singleton].
Qed.

(** Traffic is moved to another exit only with reason. From one round to
    the next the preferred exit changes only when it did not answer, or when
    one and the same other exit has been the best, and clearly better, in three
    rounds running (those in which nothing answered apart); and what it changes
    to answered, and scored best. *)
Theorem steering_has_reason p rounds scores :
  let st := run (mkSteering p None 0) rounds in
  let st' := round st scores in
  preferred st' ≠ preferred st →
  (∃ s, scores !! preferred st' = Some s ∧ Reachable s = true ∧ ∀ x, x ∈ scores → Reachable x = true → Score s ≤ Score x) ∧
  (dead (preferred st) scores ∨
   ∃ older r1 r2, heard rounds = older ++ [r1; r2] ∧ Forall (challenges (preferred st') (preferred st)) [r1; r2; scores]).
Proof.
  cbv zeta. pose proof (run_streak p rounds) as Hst. set (st := run (mkSteering p None 0) rounds) in *. clearbody st.
  pose proof (round_cases st scores) as HR. pose proof (best_of_spec scores 0 None) as HB.
  destruct (best_of 0 None scores) as [[b bs]|]; [|by rewrite HR].
  destruct HB as ([?|(_ & Hl & Hre)] & Hmin & _); [done|]. rewrite Nat.sub_0_r in Hl.
  destruct HR as [-> |[(Hb & Hd & ->)|(Hb & Hc & ->)]]; [done|intros _; cbn [preferred]; split; [by exists bs|by left]|].
  case_bool_decide as Ed; cycle 1.
  { by change (needStreak <=? 1) with false. }
  destruct (Z.leb_spec needStreak (streak st + 1)) as [Hk|]; [|done]. intros _. cbn [preferred]. split; [by exists bs|]. right.
  unfold streak_ok in Hst. rewrite Ed in Hst. destruct Hst as (Hk' & older & recent & E & Hlen & HF).
  assert (streak st = 2) as E2 by (unfold needStreak in *; lia). rewrite E2 in Hlen. unfold zlen in Hlen.
  destruct recent as [|r1 [|r2 [|]]]; cbn [length] in Hlen; try lia. exists older, r1, r2. split; [done|].
  apply Forall_cons in HF as [H1 [H2 _]%Forall_cons]. by repeat constructor.
Qed.

Lemma steering_has_reason_witness :
  let ok := mkScore true in
  let rounds := [[ok 9000; ok 9000]; [ok 9000; ok 7000]; [mkScore false 0; mkScore false 0]; [ok 9000; ok 7100]] in
  let scores := [ok 8800; ok 7200] in
  let st := run (mkSteering 0 None 0) rounds in
  preferred st = 0%nat ∧ preferred (round st scores) = 1%nat ∧
  ∃ older r1 r2, heard rounds = older ++ [r1; r2] ∧ Forall (challenges 1 0) [r1; r2; scores].
Proof.
  intros ok rounds scores st. split; [by vm_compute|]. split; [by vm_compute|].
  destruct (steering_has_reason 0 rounds scores) as [_ [H|H]]; [by vm_compute|exfalso; vm_compute in H; discriminate|exact H].
Defined.

End Steering.

Module Racing.

(** What a dial gives: a connection, nothing at all, or an error. *)
Inductive dialled : Type := Conn (c : nat) | Nothing | Failed (err : string).

Record result : Type := mkResult { addr : string; got : dialled }.

(** What the loop over the results has so far. *)
Record race : Type := mkRace { winner : option (nat * string); closed : list nat; failures : list string }.

Definition receive (st : race) (r : result) : race :=
  match got r with
  | Conn c =>
      match winner st with
      | None => mkRace (Some (c, addr r)) (closed st) (failures st)
      | Some _ => mkRace (winner st) (closed st ++ [c]) (failures st)
      end
  | Nothing => st
  | Failed err =>
      match winner st with
      | None => mkRace None (closed st) (failures st ++ [addr r +:+ ": " +:+ err])
      | Some _ => st
      end
  end.

Inductive outcome : Type :=
| Won (c : nat) (addr : string)
| Empty (addr : string)              (* no connection and no error, from the only address *)
| Lost (why : string).

(** [Race]: the results come in the order the dials end; [Race] waits for all
    of them. What it closes is the second result. *)
Definition Race (addrs : list string) (results : list result) : outcome * list nat :=
  match addrs, results with
  | [], _ => (Lost "no address to dial", [])
  | [a], r :: _ =>
      (match got r with Conn c => Won c a | Nothing => Empty a | Failed err => Lost err end, [])
  | _, _ =>
      let st := fold_left receive results (mkRace None [] []) in
      (match winner st with
       | Some (c, a) => Won c a
       | None => Lost ("no address answered — " +:+ Join (failures st) "; ")
       end, closed st)
  end.

Definition conns (results : list result) : list nat :=
  omap (λ r, match got r with Conn c => Some c | _ => None end) results.

Lemma receive_all results : ∀ st,
  let st' := fold_left receive results st in
  match winner st with
  | Some w => winner st' = Some w ∧ closed st' = closed st ++ conns results
  | None =>
      match conns results with
      | [] => winner st' = None ∧ closed st' = closed st ∧
          failures st' = failures st ++ omap (λ r, match got r with Failed err => Some (addr r +:+ ": " +:+ err) | _ => None end) results
      | c :: cs => (∃ r, r ∈ results ∧ got r = Conn c ∧ winner st' = Some (c, addr r)) ∧ closed st' = closed st ++ cs
      end
  end.
Proof.
  induction results as [|r results IH]; intros st; cbv zeta; cbn [fold_left].
  { cbn [conns omap list_omap]. rewrite !app_nil_r. by destruct (winner st). }
  specialize (IH (receive st r)). cbv zeta in IH. unfold conns in *. cbn [omap list_omap]. unfold receive in *.
  destruct (got r) as [c| |err] eqn:Eg; destruct (winner st) as [w|] eqn:Ew; cbn [winner closed failures] in *; rewrite ?Ew in IH.
  - destruct IH as [-> ->]. by rewrite <- app_assoc.
  - destruct IH as [-> ->]. split; [|done]. exists r. split_and!; [apply list_elem_of_here|done|done].
  - done.
  - destruct (omap (λ r, match got r with Conn c => Some c | _ => None end) results); [done|]. destruct IH as [(x & H1 & H2) H3]. split; [|done]. exists x. split; [by apply list_elem_of_further|done].
  - done.
  - destruct (omap (λ r, match got r with Conn c => Some c | _ => None end) results).
    + destruct IH as (H1 & H2 & H3). rewrite H3, <- app_assoc. done.
    + destruct IH as [(x & H1 & H2) H3]. split; [|done]. exists x. split; [by apply list_elem_of_further|done].
Qed.

(** Exactly one connection survives a race. Whatever the dials give and in
    whatever order they end, the first connection to come is the one returned,
    with its own address, and every other one is closed, once; and where none
    came nothing is returned, with what each address said. *)
Theorem one_survivor addrs results :
  length results = length addrs → (2 ≤ length addrs)%nat →
  match Race addrs results with
  | (Won c a, closed) => conns results = c :: closed ∧ ∃ r, r ∈ results ∧ got r = Conn c ∧ addr r = a
  | (Lost why, closed) => conns results = [] ∧ closed = [] ∧
      why = "no address answered — " +:+ Join (omap (λ r, match got r with Failed err => Some (addr r +:+ ": " +:+ err) | _ => None end) results) "; "
  | (Empty _, _) => False
  end.
Proof.
  intros Hl H2. destruct addrs as [|a1 [|a2 addrs]]; cbn in H2; [lia|lia|]. unfold Race.
  pose proof (receive_all results (mkRace None [] [])) as H. cbv zeta in H. cbn [winner closed failures app] in H.
  destruct results as [|r results]; [done|]. set (rs := r :: results) in *. clearbody rs.
  destruct (conns rs) as [|c cs].
  - by destruct H as (-> & -> & ->).
  - destruct H as [(x & Hx & Hg & ->) ->]. split; [done|]. by exists x.
Qed.

Lemma one_survivor_witness :
  Race ["a"; "b"; "c"] [mkResult "b" (Failed "refused"); mkResult "c" (Conn 7); mkResult "a" (Conn 5)] = (Won 7 "c", [5%nat]) ∧
  conns [mkResult "b" (Failed "refused"); mkResult "c" (Conn 7); mkResult "a" (Conn 5)] = [7; 5]%nat.
Proof.
  split; [by vm_compute|].
  apply (one_survivor ["a"; "b"; "c"] [mkResult "b" (Failed "refused"); mkResult "c" (Conn 7); mkResult "a" (Conn 5)]); [done|cbn; lia].
Defined.

End Racing.

Module PoolSize.

Definition poolScaleMbpsPerConn : Z := 12.
Definition poolGrowthLimit : Z := 4.

Definition poolCanGrow (poolSize configuredSize : Z) : bool :=
  if configuredSize <=? 0 then false else poolSize <? configuredSize * poolGrowthLimit.

(** [poolLoad]; the reading in Mbit/s comes from the byte counters and the
    clock, [None] where the counters give no opinion. *)
Record poolLoad : Type := mkLoad { lastIn : Z; lastOut : Z; lastAt : option Z }.

(** [mbps]: bits over seconds; the code rounds in floating point, here the
    quotient is exact. *)
Definition mbps (p : poolLoad) (in_ out now : Z) : poolLoad * Z :=
  (mkLoad in_ out (Some now),
   match lastAt p with
   | None => 0
   | Some at_ =>
       if (in_ <? lastIn p) || (out <? lastOut p) || (now - at_ <=? 0) then 0
       else ((in_ - lastIn p) + (out - lastOut p)) * 8 * 1000 `div` (now - at_)
   end).

Definition wantsMore (mbps liveConns poolSize configuredSize : Z) : bool :=
  if (mbps <=? 0) || (liveConns <=? 0) then false
  else if negb (poolCanGrow poolSize configuredSize) then false
  else poolScaleMbpsPerConn <=? mbps `quot` liveConns.

(** [poolSizer]: the size aimed at, the dials begun and the connections retired. *)
Record poolSizer : Type := mkSizer { newPoolSize : Z; dials : Z; shrinks : Z }.

(** The initial filling. *)
Definition fill (size : Z) : poolSizer := mkSizer size (Z.max 0 size) 0.

(** One tick of the load ticker: connections taken and summed up in the last
    ten seconds, and the throughput. [float64(taken+x) < float64(openAvg)*y]
    for [y] 4 or 0.75 is exact on counts this small. *)
Definition tick (size : Z) (aggressive : bool) (st : poolSizer) (taken10 open10 mbps : Z) : poolSizer :=
  let taken := (taken10 + 9) `quot` 10 in
  let openAvg := (open10 + 9) `quot` 10 in
  let '(a, b, x) := if aggressive then (1, 2, 0) else (4, 5, 3) in
  let grow := ((openAvg * b <? taken + a) && poolCanGrow (newPoolSize st) size) || wantsMore mbps openAvg (newPoolSize st) size in
  if grow then mkSizer (newPoolSize st + 1) (dials st + 1) (shrinks st)
  else if (if aggressive then 4 * (taken + x) <? 3 * openAvg else taken + x <? 4 * openAvg) && (size <? newPoolSize st)
       then mkSizer (newPoolSize st - 1) (dials st) (shrinks st + 1)
  else st.

Definition run (size : Z) (aggressive : bool) (loads : list (Z * Z * Z)) : poolSizer :=
  fold_left (λ st x, tick size aggressive st (fst (fst x)) (snd (fst x)) (snd x)) loads (fill size).

(** The pool keeps its bounds. Whatever the load, the size aimed at stays
    between the configured size and four times it, and it is what was dialled
    less what was retired. *)
Theorem pool_bounded size aggressive loads :
  0 < size →
  let st := run size aggressive loads in
  size ≤ newPoolSize st ≤ poolGrowthLimit * size ∧ newPoolSize st = dials st - shrinks st.
Proof.
  intros Hs. cbv zeta. unfold run, poolGrowthLimit. induction loads as [|[[t o] m] loads IH] using rev_ind.
  { cbn [fold_left fill newPoolSize dials shrinks]. lia. }
  rewrite fold_left_app. cbn [fold_left fst snd]. set (st := fold_left _ loads _) in *. clearbody st.
  assert (∀ g, (g && poolCanGrow (newPoolSize st) size = true → newPoolSize st < 4 * size)) as Hg.
  { intros g [_ H]%andb_true_iff. unfold poolCanGrow, poolGrowthLimit in H. destruct (Z.leb_spec size 0); [done|]. apply Z.ltb_lt in H. lia. }
  assert (∀ a b, wantsMore a b (newPoolSize st) size = true → newPoolSize st < 4 * size) as Hw.
  { intros a b H. unfold wantsMore in H. destruct (_ || _); [done|]. apply (Hg true). cbn. by destruct (poolCanGrow _ _). }
  unfold tick. destruct aggressive.
  - set (g := (_ && _) || _). destruct g eqn:Eg.
    + apply orb_true_iff in Eg as [H%Hg|H%Hw]; cbn [newPoolSize dials shrinks]; lia.
    + destruct (_ && (size <? newPoolSize st)) eqn:E; [|exact IH]. apply andb_true_iff in E as [_ E%Z.ltb_lt]. cbn [newPoolSize dials shrinks]. lia.
  - set (g := (_ && _) || _). destruct g eqn:Eg.
    + apply orb_true_iff in Eg as [H%Hg|H%Hw]; cbn [newPoolSize dials shrinks]; lia.
    + destruct (_ && (size <? newPoolSize st)) eqn:E; [|exact IH]. apply andb_true_iff in E as [_ E%Z.ltb_lt]. cbn [newPoolSize dials shrinks]. lia.
Qed.

Lemma pool_bounded_witness :
  let st := run 2 true (replicate 20 (50, 10, 500)) in
  newPoolSize st = 8 ∧ newPoolSize st = dials st - shrinks st.
Proof. intros st. split; [by vm_compute|]. by apply (pool_bounded 2 true (replicate 20 (50, 10, 500))). Defined.

End PoolSize.

Module Pace.

Definition Millisecond : Z := 1000 * 1000.

(** One more failure: the first pause, then twice the last, up to a ceiling.
    [acceptloop.Backoff] and [listenBackoff] are the two of this shape. *)
Definition grown (first max delay : Z) : Z :=
  if delay =? 0 then first
  else if delay <? max then (if max <? delay * 2 then max else delay * 2)
  else delay.

Definition accept_first : Z := 5 * Millisecond.
Definition accept_max : Z := 100 * Millisecond.
Definition Fail_ (delay : Z) : Z := grown accept_first accept_max delay.
Definition OK (delay : Z) : Z := 0.

Definition listenRetryFirst : Z := 2 * 1000 * Millisecond.
Definition listenRetryMax : Z := 30 * 1000 * Millisecond.
Definition wait_ (delay : Z) : Z := grown listenRetryFirst listenRetryMax delay.

(** The pause after [n] failures in a row. *)
Lemma grown_iter first max n : 0 < first ≤ max →
  Nat.iter (S n) (grown first max) 0 = Z.min max (first * 2 ^ Z.of_nat n).
Proof.
  intros H. induction n as [|n IH]; [cbn; lia|]. cbn [Nat.iter nat_rect] in *. change (Nat.iter (S (S n)) (grown first max) 0) with (grown first max (Nat.iter (S n) (grown first max) 0)).
  rewrite IH. rewrite Nat2Z.inj_succ, Z.pow_succ_r by lia. pose proof (Z.pow_pos_nonneg 2 (Z.of_nat n) ltac:(lia) ltac:(lia)) as Hp.
  unfold grown. destruct (Z.eqb_spec (Z.min max (first * 2 ^ Z.of_nat n)) 0); [nia|].
  destruct (Z.ltb_spec (Z.min max (first * 2 ^ Z.of_nat n)) max); [|lia].
  destruct (Z.ltb_spec max (Z.min max (first * 2 ^ Z.of_nat n) * 2)); lia.
Qed.

(** A broken listener costs next to nothing. After [n + 1] failures in a
    row an accept loop pauses for 5 ms doubled [n] times, and no longer than
    100 ms, and a listener that cannot be bound is tried again after 2 s
    doubled likewise, and after 30 s at the latest; one success clears it. *)
Theorem retries_paced n d :
  Nat.iter (S n) Fail_ 0 = Z.min (100 * Millisecond) (5 * Millisecond * 2 ^ Z.of_nat n) ∧
  Nat.iter (S n) wait_ 0 = Z.min (30000 * Millisecond) (2000 * Millisecond * 2 ^ Z.of_nat n) ∧
  Fail_ (OK d) = 5 * Millisecond.
Proof. split_and!; [by apply grown_iter|by apply grown_iter|done]. Qed.

End Pace.
