(* ===== verification/Ports.v ===== *)
(** Forwarded ports, from the text of a mapping to the address that is dialled:
    - Module [Net]: the two functions of Go's [net] the readers use;
    - Module [Spec]: what the management layer accepts, and the ports it
      reserves ([internal/manage/spec/ports.go], [internal/manage/reserved.go]);
    - Module [Engine]: what the reverse tunnel does with a mapping, on the
      server ([internal/server/transport/shared.go], [parsePortMappings] of
      [tcp.go]) and on the client ([internal/utils/network/resolver.go]);
    - Module [Portmap]: what the direct and the layer-3 tunnel do with it
      ([internal/tunnel/portmap/portmap.go]);
    - Module [Backends]: choosing a backend of several
      ([internal/client/transport/backendpool.go]);
    - Module [Readers]: how the readers agree. *)

From Stdlib Require Import Ascii String.
From S2P Require Import Prelude GoStr.
Import GoStr.
Open Scope string_scope.
Open Scope list_scope.
Open Scope Z_scope.

Module Net.

(** [net.SplitHostPort]; its errors are not told apart. *)
Definition SplitHostPort (hostport : string) : option (string * string) :=
  match cut_last hostport ":" with
  | None => None
  | Some (before, port) =>
      match hostport with
      | String "[" rest =>
          match Cut rest "]" with
          | Some (host, String ":" p) =>
              if contains_char ":" p || contains_char "[" rest || contains_char "]" p then None else Some (host, p)
          | _ => None
          end
      | _ =>
          if contains_char ":" before || contains_char "[" hostport || contains_char "]" hostport then None
          else Some (before, port)
      end
  end.

(** [net.JoinHostPort]. *)
Definition JoinHostPort (host port : string) : string :=
  if contains_char ":" host then "[" +:+ host +:+ "]:" +:+ port else host +:+ ":" +:+ port.

End Net.

Module Spec.
Import Net.

Definition ValidPort (s : string) : bool :=
  match Atoi s with Some n => (1 <=? n) && (n <=? 65535) | None => false end.

Definition ParsePorts (raw : string) : list string :=
  filter (λ p, p ≠ "") (map TrimSpace (Split raw ",")).

(** [strings.SplitN(s, "=", 2)]: what is left of the first one, and what is
    right of it, if there is one. *)
Definition halves (s : string) : string * option string :=
  match Cut s "=" with Some (a, b) => (a, Some b) | None => (s, None) end.

Definition ValidPortSpec (spec : string) : bool :=
  let spec := TrimSpace spec in
  let '(lhs, rhs) := halves spec in
  let local := TrimSpace lhs in
  if String.eqb local "" then false
  else if match rhs with Some r => String.eqb (TrimSpace r) "" | None => false end then false
  else
    match SplitHostPort local with
    | Some (String c h, p) => match rhs with Some _ => ValidPort p | None => false end
    | _ =>
        if contains_char "-" local then
          match Split local "-" with
          | [lo; hi] =>
              let lo := TrimSpace lo in
              let hi := TrimSpace hi in
              if negb (ValidPort lo) || negb (ValidPort hi) then false
              else default 0 (Atoi lo) <=? default 0 (Atoi hi)
          | _ => false
          end
        else ValidPort local
    end.

(** [ValidatePortSpecs]: the first entry that is refused. *)
Definition ValidatePortSpecs (ports : list string) : option string :=
  head (filter (λ p, ValidPortSpec p = false) ports).

(** [portNumber]: zero for what is not a port. *)
Definition portNumber (s : string) : Z :=
  match Atoi (TrimSpace s) with
  | Some n => if (n <? 1) || (65535 <? n) then 0 else n
  | None => 0
  end.

(** The numbers from [a] to [b]. *)
Definition range (a b : Z) : list Z := map (λ i, a + Z.of_nat i) (seq 0 (Z.to_nat (b - a + 1))).

(** The ports an entry listens on. *)
Definition listenPortsOf (spec : string) : list Z :=
  let local := TrimSpace spec in
  let local := match Cut local "=" with Some (a, _) => TrimSpace a | None => local end in
  if String.eqb local "" then []
  else
    let local :=
      match cut_last local "]" with
      | Some (_, after) => match Cut after ":" with Some (_, p) => p | None => local end
      | None => match cut_last local ":" with Some (_, p) => p | None => local end
      end in
    let '(lo, hi) := match Cut local "-" with Some (a, b) => (a, Some b) | None => (local, None) end in
    let first := portNumber lo in
    if first =? 0 then []
    else
      match hi with
      | None => [first]
      | Some hi => let last := portNumber hi in if last <? first then [first] else range first last
      end.

End Spec.

Module Engine.

Inductive error : Type := InvalidPort (s : string) | EndsBeforeItStarts (spec : string).

Record portListen : Type := mkListen { addr : string; port : string }.

Definition splitListenHost (spec : string) : string * string :=
  match cut_last spec "]" with
  | Some (before, after) =>
      match Cut after ":" with
      | Some (x, p) => (before +:+ "]" +:+ x, p)
      | None => (spec, "")
      end
  | None => match cut_last spec ":" with Some (h, p) => (h, p) | None => ("", spec) end
  end.

Definition parseListenPort (s : string) : result error Z :=
  let s := TrimSpace s in
  match Atoi s with
  | Some p => if (p <? 1) || (65535 <? p) then Err (InvalidPort s) else Ok p
  | None => Err (InvalidPort s)
  end.

Definition parsePortRange (spec : string) : result error (Z * Z) :=
  let spec := TrimSpace spec in
  match Cut spec "-" with
  | None => match parseListenPort spec with Ok p => Ok (p, p) | Err e => Err e end
  | Some (lo, hi) =>
      match parseListenPort lo with
      | Err e => Err e
      | Ok start =>
          match parseListenPort hi with
          | Err e => Err e
          | Ok end_ => if end_ <? start then Err (EndsBeforeItStarts spec) else Ok (start, end_)
          end
      end
  end.

Definition expandListenSpec (spec : string) : result error (list portListen) :=
  let '(host, ports) := splitListenHost (TrimSpace spec) in
  match parsePortRange ports with
  | Err e => Err e
  | Ok (start, end_) => Ok (map (λ p, mkListen (host +:+ ":" +:+ Itoa p) (Itoa p)) (Spec.range start end_))
  end.

(** One entry of [parsePortMappings]: the listeners it starts, each with the
    target it names to the client. *)
Definition mapping (portMapping : string) : list (string * string) :=
  let parts := Split portMapping "=" in
  if (2 <? length parts)%nat then []
  else
    match expandListenSpec (default "" (parts !! 0%nat)) with
    | Err _ => []
    | Ok listens =>
        let remoteAddr := match parts !! 1%nat with Some r => TrimSpace r | None => "" end in
        map (λ l, (addr l, if String.eqb remoteAddr "" then port l else remoteAddr)) listens
    end.

Definition parsePortMappings (ports : list string) : list (string * string) := concat (map mapping ports).

(** [ResolveRemoteAddr] of a target that is not a list. *)
Definition resolve_one (remoteAddr : string) : option (Z * string) :=
  match Split remoteAddr ":" with
  | _ :: p :: _ => match Atoi p with Some port => Some (port, remoteAddr) | None => None end
  | [p] => match Atoi p with Some port => Some (port, "127.0.0.1:" +:+ Itoa port) | None => None end
  | [] => None
  end.

(** The loop over the parts of a list; a part holds no [|]. *)
Fixpoint resolve_parts (i : nat) (parts : list string) (firstPort : Z) (resolved : list string) : option (Z * string) :=
  match parts with
  | [] => Some (firstPort, Join resolved "|")
  | part :: parts =>
      let part := TrimSpace part in
      if String.eqb part "" then resolve_parts (S i) parts firstPort resolved
      else
        match resolve_one part with
        | None => None
        | Some (p, full) => resolve_parts (S i) parts (if Nat.eqb i 0 then p else firstPort) (resolved ++ [full])
        end
  end.

(** [None] is its error. *)
Definition ResolveRemoteAddr (remoteAddr : string) : option (Z * string) :=
  if contains_char "|" remoteAddr then resolve_parts 0 (Split remoteAddr "|") 0 [] else resolve_one remoteAddr.

End Engine.

Module Portmap.
Import Net.

Definition MaxPortsPerMapping : Z := 1024.
Definition MaxExpandedPorts : Z := 4096.

Record Mapping : Type := mkMapping { Listen : string; Targets : list string }.

Record portRange : Type := mkRange { host : string; lo : Z; hi : Z; hasHost : bool; explicit : bool }.

Definition count (r : portRange) : Z := hi r - lo r + 1.

Inductive error : Type :=
| EmptyEndpoint
| NotBracketed (text : string)
| LooksIPv6 (text : string)
| NotAPort (s : string)
| EndsBefore (text : string)
| TooWide (text : string)
| RangeWithBackends
| BackendRange
| Widths (l r : Z)
| NoHost.

Definition parsePort (s : string) : result error Z :=
  match Atoi (TrimSpace s) with
  | Some n => if (n <? 1) || (65535 <? n) then Err (NotAPort s) else Ok n
  | None => Err (NotAPort s)
  end.

Definition parsePortSpan (text : string) : result error (Z * Z) :=
  let '(lo, hi) := match Cut text "-" with Some (a, b) => (a, Some b) | None => (text, None) end in
  match parsePort lo with
  | Err e => Err e
  | Ok start =>
      match hi with
      | None => Ok (start, start)
      | Some hi =>
          match parsePort hi with
          | Err e => Err e
          | Ok end_ =>
              if end_ <? start then Err (EndsBefore text)
              else if MaxPortsPerMapping <? end_ - start + 1 then Err (TooWide text)
              else Ok (start, end_)
          end
      end
  end.

Definition parsePortRange (text : string) : result error portRange :=
  let text := TrimSpace text in
  if String.eqb text "" then Err EmptyEndpoint
  else
    match
      match text with
      | String "[" rest =>
          match Cut rest "]" with
          | Some (host, String ":" ports) => Ok (host, ports)
          | _ => Err (NotBracketed text)
          end
      | _ =>
          match cut_last text ":" with
          | Some (host, ports) => if (1 <? count_char ":" text)%nat then Err (LooksIPv6 text) else Ok (host, ports)
          | None => Ok ("", text)
          end
      end
    with
    | Err e => Err e
    | Ok (host, ports) =>
        match parsePortSpan ports with
        | Err e => Err e
        | Ok (lo, hi) =>
            let named := negb (String.eqb host "") in
            Ok (mkRange host lo hi named (named || contains_char ":" text))
        end
    end.

Definition listenAddr (r : portRange) (port : Z) : string :=
  if hasHost r then JoinHostPort (host r) (Itoa port) else ":" +:+ Itoa port.

Definition targetAddr (r : portRange) (port : Z) (defaultHost : string) : result error string :=
  if String.eqb (host r) "" then
    if String.eqb defaultHost "" then Err NoHost else Ok (JoinHostPort defaultHost (Itoa port))
  else Ok (JoinHostPort (host r) (Itoa port)).

(** The loop over the backends of an entry. *)
Fixpoint backends (alternatives : list string) (defaultHost : string) : result error (list string) :=
  match alternatives with
  | [] => Ok []
  | alt :: alternatives =>
      match parsePortRange alt with
      | Err e => Err e
      | Ok r =>
          if 1 <? count r then Err BackendRange
          else
            match targetAddr r (lo r) defaultHost with
            | Err e => Err e
            | Ok a => match backends alternatives defaultHost with Err e => Err e | Ok l => Ok (a :: l) end
            end
      end
  end.

(** The loop over the ports of an entry, [i] being the next. *)
Fixpoint pairs (n : nat) (i : Z) (listen to : portRange) (defaultHost : string) : result error (list Mapping) :=
  match n with
  | O => Ok []
  | S n =>
      match targetAddr to (if 1 <? count to then lo to + i else lo to) defaultHost with
      | Err e => Err e
      | Ok a =>
          match pairs n (i + 1) listen to defaultHost with
          | Err e => Err e
          | Ok l => Ok (mkMapping (listenAddr listen (lo listen + i)) [a] :: l)
          end
      end
  end.

Definition expandOne (listen : portRange) (target defaultHost : string) : result error (list Mapping) :=
  let alternatives := Split target "|" in
  if (1 <? length alternatives)%nat && (1 <? count listen) then Err RangeWithBackends
  else if (1 <? length alternatives)%nat then
    match backends alternatives defaultHost with
    | Err e => Err e
    | Ok targets => Ok [mkMapping (listenAddr listen (lo listen)) targets]
    end
  else
    match parsePortRange target with
    | Err e => Err e
    | Ok to =>
        if (1 <? count to) && negb (count to =? count listen) then Err (Widths (count listen) (count to))
        else pairs (Z.to_nat (count listen)) 0 listen to defaultHost
    end.

Inductive failure : Type := InMapping (spec : string) (why : error) | TooManyPorts.

(** One entry of [Expand], trimmed and not blank. *)
Definition entry (spec defaultHost : string) : result error (list Mapping) :=
  let '(lhs, rhs) := Spec.halves spec in
  match parsePortRange lhs with
  | Err e => Err e
  | Ok listen =>
      let target :=
        match rhs with
        | Some r => r
        | None => if 1 <? count listen then Itoa (lo listen) +:+ "-" +:+ Itoa (hi listen) else Itoa (lo listen)
        end in
      expandOne listen target defaultHost
  end.

Fixpoint expand_loop (specs : list string) (defaultHost : string) (out : list Mapping) : result failure (list Mapping) :=
  match specs with
  | [] => Ok out
  | spec :: specs =>
      let spec := TrimSpace spec in
      if String.eqb spec "" then expand_loop specs defaultHost out
      else
        match entry spec defaultHost with
        | Err e => Err (InMapping spec e)
        | Ok mappings =>
            let out := out ++ mappings in
            if MaxExpandedPorts <? zlen out then Err TooManyPorts else expand_loop specs defaultHost out
        end
  end.

Definition Expand (specs : list string) (defaultHost : string) : result failure (list Mapping) :=
  expand_loop specs defaultHost [].

End Portmap.

Module Backends.

Definition Second : Z := 1000 * 1000 * 1000.
Definition backendCheckInterval : Z := 10 * Second.
Definition backendMaxFailed : Z := 3.
Definition backendMaxGroups : nat := 256.
Definition backendMaxMembers : nat := 32.

Definition splitBackends (list_ : string) : list string := filter (λ p, p ≠ "") (map TrimSpace (Split list_ "|")).

Definition firstBackend (target : string) : string := default target (head (splitBackends target)).

(** [backendGroup]. [probing] is how far the check that is running has come:
    the next member to probe. *)
Record backendGroup : Type := mkGroup {
  members : list string;
  healthy : list bool;
  fails : list Z;
  next : Z;
  checking : bool;
  probing : nat;
  lastCheck : option Z;
  lastUsed : Z
}.

Definition newGroup (l : list string) (now : Z) : backendGroup :=
  mkGroup l (replicate (length l) true) (replicate (length l) 0) 0 false 0 None now.

Definition touch (g : backendGroup) (now : Z) : backendGroup :=
  mkGroup (members g) (healthy g) (fails g) (next g) (checking g) (probing g) (lastCheck g) now.

(** [startCheck]: a pass begins, unless one is running or the last is recent. *)
Definition startCheck (g : backendGroup) (now : Z) : backendGroup :=
  if checking g || match lastCheck g with Some t => now - t <? backendCheckInterval | None => false end then g
  else mkGroup (members g) (healthy g) (fails g) (next g) true 0 (Some now) (lastUsed g).

Definition set_next (g : backendGroup) (n : Z) : backendGroup :=
  mkGroup (members g) (healthy g) (fails g) n (checking g) (probing g) (lastCheck g) (lastUsed g).

(** The loop of [pick]: the cursor after, and the index of a healthy member. *)
Fixpoint pick_loop (fuel : nat) (n : Z) (healthy : list bool) (next : Z) : Z * option nat :=
  match fuel with
  | O => (next, None)
  | S fuel =>
      let idx := Z.to_nat (Z.rem next n) in
      if default false (healthy !! idx) then (int64 (next + 1), Some idx)
      else pick_loop fuel n healthy (int64 (next + 1))
  end.

(** [backendGroup.pick]: the clock is read by [startCheck], and again. *)
Definition pick (g : backendGroup) (now now' : Z) : backendGroup * string :=
  let g := touch (startCheck g now) now' in
  let n := zlen (members g) in
  if n =? 0 then (g, "")
  else
    match pick_loop (length (members g)) n (healthy g) (next g) with
    | (next', Some idx) => (set_next g next', default "" (members g !! idx))
    | (next', None) => (set_next g (int64 (next' + 1)), default "" (members g !! Z.to_nat (Z.rem next' n)))
    end.

(** One round of [check]: the next member was probed. *)
Definition probed (g : backendGroup) (ok : bool) : backendGroup :=
  let i := probing g in
  if checking g && (i <? length (members g))%nat then
    let f := default 0 (fails g !! i) + 1 in
    mkGroup (members g)
      (if ok then <[i := true]> (healthy g) else if backendMaxFailed <=? f then <[i := false]> (healthy g) else healthy g)
      (<[i := if ok then 0 else f]> (fails g))
      (next g) true (S i) (lastCheck g) (lastUsed g)
  else g.

(** The end of a pass. *)
Definition checked (g : backendGroup) (now : Z) : backendGroup :=
  if checking g && (probing g =? length (members g))%nat then
    mkGroup (members g) (healthy g) (fails g) (next g) false (probing g) (Some now) (lastUsed g)
  else g.

(** [backendPool]: the groups live in a heap and the map holds pointers to
    them, so a pass that outlives its group's eviction goes on by itself. *)
Record backendPool : Type := mkPool { heap : list backendGroup; groups : gmap string nat }.

Definition emptyPool : backendPool := mkPool [] ∅.

Definition used (p : backendPool) (ptr : nat) : Z := default 0 (lastUsed <$> heap p !! ptr).

Section range.
(** The order in which a loop over the map visits it. *)
Context (range : gmap string nat → list (string * nat)).

Definition oldest (p : backendPool) : string :=
  fst (fold_left (λ v x, if String.eqb (fst v) "" || (used p (snd x) <? snd v) then (fst x, used p (snd x)) else v)
    (range (groups p)) ("", 0)).

Definition evictOldest (p : backendPool) : backendPool := mkPool (heap p) (delete (oldest p) (groups p)).

(** [backendPool.group]: the pool after, and the group's pointer. *)
Definition group (p : backendPool) (key : string) (l : list string) (now : Z) : backendPool * nat :=
  match groups p !! key with
  | Some ptr => (mkPool (alter (λ g, touch g now) ptr (heap p)) (groups p), ptr)
  | None =>
      let p := if (backendMaxGroups <=? size (groups p))%nat then evictOldest p else p in
      (mkPool (heap p ++ [newGroup l now]) (<[key := length (heap p)]> (groups p)), length (heap p))
  end.

(** What [backendPool.pick] makes of a target: an address, or the members of a group. *)
Definition parse (target : string) : string + list string :=
  if contains_char "|" target then
    match splitBackends target with
    | [] => inl target
    | [a] => inl a
    | l => inr (if (backendMaxMembers <? length l)%nat then take backendMaxMembers l else l)
    end
  else inl target.

(** What may happen, in any order: a target is looked up, a group is picked
    from, a member was probed, a pass ends. *)
Inductive op : Type :=
| Look (target : string) (now : Z)
| Pick (ptr : nat) (now now' : Z)
| Probed (ptr : nat) (ok : bool)
| Checked (ptr : nat) (now : Z).

Definition act (p : backendPool) (o : op) : backendPool :=
  match o with
  | Look target now =>
      match parse target with inl _ => p | inr l => fst (group p (Join l "|") l now) end
  | Pick ptr now now' => mkPool (alter (λ g, fst (pick g now now')) ptr (heap p)) (groups p)
  | Probed ptr ok => mkPool (alter (λ g, probed g ok) ptr (heap p)) (groups p)
  | Checked ptr now => mkPool (alter (λ g, checked g now) ptr (heap p)) (groups p)
  end.

(** [backendPool.pick], with nothing in between. *)
Definition pool_pick (p : backendPool) (target : string) (now now' now'' : Z) : backendPool * string :=
  match parse target with
  | inl a => (p, a)
  | inr l =>
      let x := group p (Join l "|") l now in
      match heap (fst x) !! snd x with
      | Some g => (act (fst x) (Pick (snd x) now' now''), snd (pick g now' now''))
      | None => (fst x, "")
      end
  end.

(** ** Lemmas *)

(** A group, whose cursor has moved at most [N] times. *)
Record group_ok (N : Z) (g : backendGroup) : Prop := {
  ok_members : (2 ≤ length (members g) ≤ backendMaxMembers)%nat;
  ok_texts : Forall (λ m, m ≠ "" ∧ free "|" m) (members g);
  ok_healthy : length (healthy g) = length (members g);
  ok_fails : length (fails g) = length (members g);
  ok_judged : ∀ i f, fails g !! i = Some f → healthy g !! i = Some (f <? backendMaxFailed);
  ok_next : 0 ≤ next g ≤ N;
}.

Lemma group_ok_mono N N' g : N ≤ N' → group_ok N g → group_ok N' g.
Proof. intros H []. split; auto. lia. Qed.

Lemma startCheck_ok N g now : group_ok N g → group_ok N (startCheck g now).
Proof. unfold startCheck. destruct (_ || _); [done|]. by intros []. Qed.

Lemma pick_loop_spec n hs : 0 < n → ∀ fuel next, 0 ≤ next → next + Z.of_nat fuel < 2^63 →
  match pick_loop fuel n hs next with
  | (next', Some idx) => next < next' ≤ next + Z.of_nat fuel ∧ (idx < Z.to_nat n)%nat ∧ hs !! idx = Some true
  | (next', None) => next' = next + Z.of_nat fuel ∧
      ∀ j, 0 ≤ j < Z.of_nat fuel → hs !! Z.to_nat ((next + j) `mod` n) ≠ Some true
  end.
Proof.
  intros Hn. induction fuel as [|fuel IH]; intros next H0 Hb; cbn [pick_loop]; [split; [lia|lia]|].
  rewrite Z.rem_mod_nonneg by lia. pose proof (Z.mod_pos_bound next n Hn) as Hm.
  rewrite int64_small by lia. destruct (hs !! Z.to_nat (next `mod` n)) as [[]|] eqn:E; cbn [default].
  - split_and!; [lia|lia|lia|done].
  - specialize (IH (next + 1) ltac:(lia) ltac:(lia)). destruct (pick_loop fuel n hs (next + 1)) as [next' [idx|]]; [destruct IH as (? & ? & ?); split_and!; (done || lia)|].
    destruct IH as [-> HN]. split; [lia|]. intros j Hj. destruct (base.decide (j = 0)) as [->|]; [rewrite Z.add_0_r, E; congruence|].
    replace (next + j) with (next + 1 + (j - 1)) by lia. apply HN. lia.
  - specialize (IH (next + 1) ltac:(lia) ltac:(lia)). destruct (pick_loop fuel n hs (next + 1)) as [next' [idx|]]; [destruct IH as (? & ? & ?); split_and!; (done || lia)|].
    destruct IH as [-> HN]. split; [lia|]. intros j Hj. destruct (base.decide (j = 0)) as [->|]; [rewrite Z.add_0_r, E; congruence|].
    replace (next + j) with (next + 1 + (j - 1)) by lia. apply HN. lia.
Qed.

(** Going once round passes everywhere. *)
Lemma round_covers next n i : 0 < n → 0 ≤ i < n → ∃ j, 0 ≤ j < n ∧ (next + j) `mod` n = i.
Proof.
  intros Hn Hi. exists ((i - next) `mod` n). split; [by apply Z.mod_pos_bound|].
  rewrite Zplus_mod_idemp_r. replace (next + (i - next)) with i by lia. by apply Z.mod_small.
Qed.

Lemma pick_spec N g now now' : group_ok N g → N + 33 < 2^63 →
  let s := snd (pick g now now') in
  group_ok (N + 33) (fst (pick g now now')) ∧ members (fst (pick g now now')) = members g ∧ s ∈ members g ∧
  ∀ i, healthy g !! i = Some true → ∃ j, members g !! j = Some s ∧ healthy g !! j = Some true.
Proof.
  intros HG HN. cbv zeta. unfold pick. set (g' := touch (startCheck g now) now').
  assert (group_ok N g') as HG' by (destruct (startCheck_ok N g now HG); by split).
  assert (members g' = members g ∧ healthy g' = healthy g) as [Em Eh] by (unfold g', startCheck; by destruct (_ || _)).
  clearbody g'. rewrite <- Em, <- Eh. clear HG Em Eh g.
  pose proof HG' as [Hm Ht Hh Hf Hj Hx]. unfold backendMaxMembers in Hm.
  assert (0 < zlen (members g')) as Hz by (unfold zlen; lia). destruct (Z.eqb_spec (zlen (members g')) 0); [lia|].
  pose proof (pick_loop_spec (zlen (members g')) (healthy g') Hz (length (members g')) (next g') ltac:(lia) ltac:(lia)) as HL.
  destruct (pick_loop _ _ _ _) as [next' [idx|]]; cbn [fst snd].
  - destruct HL as (H1 & H2 & H3). assert (idx < length (members g'))%nat as Hi by (unfold zlen in H2; lia).
    destruct (lookup_lt_is_Some_2 _ _ Hi) as [m Em]. rewrite Em. cbn [default from_option].
    split_and!; [split; cbn; auto; lia|done|by eapply list_elem_of_lookup_2|]. intros _ _. by exists idx.
  - destruct HL as [-> HL]. rewrite int64_small by lia. rewrite Z.rem_mod_nonneg by lia.
    pose proof (Z.mod_pos_bound (next g' + Z.of_nat (length (members g'))) (zlen (members g')) Hz) as Hb.
    assert (Z.to_nat ((next g' + Z.of_nat (length (members g'))) `mod` zlen (members g')) < length (members g'))%nat as Hi by (unfold zlen in *; lia).
    destruct (lookup_lt_is_Some_2 _ _ Hi) as [m Em]. rewrite Em. cbn [default from_option].
    split_and!; [split; cbn; auto; lia|done|by eapply list_elem_of_lookup_2|].
    intros i Hit. exfalso. assert (i < length (members g'))%nat as Hil by (rewrite <- Hh; by eapply lookup_lt_Some).
    destruct (round_covers (next g') (zlen (members g')) (Z.of_nat i) Hz ltac:(unfold zlen; lia)) as (j & Hj1 & Hj2).
    apply (HL j ltac:(unfold zlen in Hj1; lia)). by rewrite Hj2, Nat2Z.id.
Qed.

Lemma probed_ok N g ok : group_ok N g → group_ok N (probed g ok).
Proof.
  intros HG. pose proof HG as [Hm Ht Hh Hf Hj Hx]. unfold probed. destruct (_ && _) eqn:E; [|done].
  apply andb_true_iff in E as [_ Hi%Nat.ltb_lt]. destruct (lookup_lt_is_Some_2 (fails g) (probing g) ltac:(lia)) as [f Ef].
  rewrite Ef. cbn [default from_option]. split; cbn; auto.
  - destruct ok; [by rewrite length_insert|]. destruct (_ <=? _); [by rewrite length_insert|done].
  - by rewrite length_insert.
  - intros i x. destruct (base.decide (i = probing g)) as [->|Hne].
    + rewrite list_lookup_insert_eq by lia. intros [= <-]. specialize (Hj _ _ Ef).
      destruct ok; [by rewrite list_lookup_insert_eq by lia|]. unfold backendMaxFailed in *.
      destruct (Z.leb_spec 3 (f + 1)), (Z.ltb_spec (f + 1) 3); try lia; [by rewrite list_lookup_insert_eq by lia|].
      rewrite Hj. destruct (Z.ltb_spec f 3); [done|lia].
    + rewrite list_lookup_insert_ne by done. intros H%Hj. destruct ok; [by rewrite list_lookup_insert_ne|].
      destruct (_ <=? _); [by rewrite list_lookup_insert_ne|done].
Qed.

Lemma checked_ok N g now : group_ok N g → group_ok N (checked g now).
Proof. intros HG. unfold checked. destruct (_ && _); [|done]. by destruct HG. Qed.

Lemma parse_members target l : parse target = inr l →
  (2 ≤ length l ≤ backendMaxMembers)%nat ∧ Forall (λ m, m ≠ "" ∧ free "|" m) l.
Proof.
  unfold parse. destruct (contains_char _ _); [|done].
  assert (Forall (λ m, m ≠ "" ∧ free "|" m) (splitBackends target)) as HF.
  { apply Forall_forall. intros m [Hm Hin]%list_elem_of_filter. split; [done|].
    apply list_elem_of_In, in_map_iff in Hin as (x & <- & Hx). apply free_TrimSpace.
    apply list_elem_of_In in Hx. exact (proj1 (Forall_forall _ _) (Split_parts "|" target) x Hx). }
  destruct (splitBackends target) as [|a [|b rest]] eqn:Es; [done|done|]. rewrite <- Es in *. intros E.
  assert (l = if (backendMaxMembers <? length (splitBackends target))%nat then take backendMaxMembers (splitBackends target) else splitBackends target) as -> by congruence.
  assert (2 ≤ length (splitBackends target))%nat as H2 by (rewrite Es; cbn [length]; lia). clear E Es.
  unfold backendMaxMembers. destruct (Nat.ltb_spec 32 (length (splitBackends target))) as [H|H]; split; try done.
  - rewrite length_take. lia.
  - by apply Forall_take.
Qed.

Lemma texts_free l : Forall (λ m, m ≠ "" ∧ free "|" m) l → Forall (free "|") l.
Proof. intros H. eapply Forall_impl; [exact H|]. by intros m [_ ?]. Qed.

Record pool_ok (N : Z) (p : backendPool) : Prop := {
  ok_groups : ∀ ptr g, heap p !! ptr = Some g → group_ok N g;
  ok_keys : ∀ key ptr, groups p !! key = Some ptr → ∃ g, heap p !! ptr = Some g ∧ key = Join (members g) "|";
  ok_size : (size (groups p) ≤ backendMaxGroups)%nat;
}.

Context (range_ok : ∀ m, range m ≡ₚ map_to_list m).

Lemma oldest_in p : groups p ≠ ∅ → (∀ key ptr, groups p !! key = Some ptr → key ≠ "") → is_Some (groups p !! oldest p).
Proof using range_ok.
  intros Hne Hk. unfold oldest.
  assert (∀ xs v, (fst v = "" ∨ is_Some (groups p !! fst v)) → Forall (λ x, groups p !! fst x = Some (snd x)) xs →
    (xs ≠ [] ∨ fst v ≠ "") →
    is_Some (groups p !! fst (fold_left (λ v x, if String.eqb (fst v) "" || (used p (snd x) <? snd v) then (fst x, used p (snd x)) else v) xs v))) as H.
  { induction xs as [|x xs IH]; intros v Hv HF Hn; cbn [fold_left].
    - destruct Hv as [E|?]; [by destruct Hn|done].
    - inversion HF as [|? ? Hx HF']; subst. pose proof (Hk _ _ Hx) as Hxn. destruct (String.eqb_spec (fst v) "") as [E|E]; cbn [orb].
      + apply IH; [right; by eexists|done|by right].
      + destruct (_ <? _); (apply IH; [|done|by right]); [right; by eexists|done]. }
  apply H; [by left| |left; intros E].
  - apply Forall_forall. intros [k ptr]. rewrite range_ok. apply elem_of_map_to_list.
  - apply Hne, map_to_list_empty_iff. apply Permutation_nil. by rewrite <- E, range_ok.
Qed.

Lemma keys_named N p key ptr : pool_ok N p → groups p !! key = Some ptr → key ≠ "".
Proof.
  intros HP Hk ->. destruct (ok_keys _ _ HP _ _ Hk) as (g & Hg & E). destruct (ok_groups _ _ HP _ _ Hg) as [Hm Ht _ _ _ _].
  destruct (members g) as [|a [|b l]]; [cbn in Hm; lia|cbn in Hm; lia|].
  change (Join (a :: b :: l) "|") with (a +:+ "|" +:+ Join (b :: l) "|") in E. by destruct a.
Qed.

Lemma alter_ok N N' p ptr f : N ≤ N' → (∀ g, group_ok N g → group_ok N' (f g) ∧ members (f g) = members g) →
  pool_ok N p → pool_ok N' (mkPool (alter f ptr (heap p)) (groups p)).
Proof.
  intros HN Hf [Hg Hk Hs]. split; cbn [heap groups]; [| |done].
  - intros q g. destruct (base.decide (q = ptr)) as [->|Hne].
    + rewrite list_lookup_alter_eq. destruct (heap p !! ptr) as [g0|] eqn:E; [|done]. intros [= <-]. apply Hf. by apply (Hg ptr).
    + rewrite list_lookup_alter_ne by done. intros H. eapply group_ok_mono; [exact HN|by eapply Hg].
  - intros key q H. destruct (Hk key q H) as (g & Hq & ->). destruct (base.decide (q = ptr)) as [->|Hne].
    + exists (f g). rewrite list_lookup_alter_eq, Hq. split; [done|]. by destruct (Hf g) as [_ ->]; [by apply (Hg ptr)|].
    + exists g. by rewrite list_lookup_alter_ne.
Qed.

Lemma newGroup_ok N l now : 0 ≤ N → (2 ≤ length l ≤ backendMaxMembers)%nat → Forall (λ m, m ≠ "" ∧ free "|" m) l →
  group_ok N (newGroup l now).
Proof.
  intros HN Hl HF. split; cbn; auto; rewrite ?length_replicate; try done.
  intros i f [-> Hi]%lookup_replicate. by apply lookup_replicate.
Qed.

Lemma group_step N p l now : 0 ≤ N → (2 ≤ length l ≤ backendMaxMembers)%nat → Forall (λ m, m ≠ "" ∧ free "|" m) l → pool_ok N p →
  let x := group p (Join l "|") l now in
  pool_ok N (fst x) ∧ ∃ g, heap (fst x) !! snd x = Some g ∧ members g = l.
Proof using range_ok.
  intros HN Hl HF HP. cbv zeta. unfold group. destruct (groups p !! Join l "|") as [ptr|] eqn:E; cbn [fst snd].
  - split; [apply (alter_ok N N); [lia| |done]; intros g HG; split; [by destruct HG|done]|].
    destruct (ok_keys _ _ HP _ _ E) as (g & Hg & EJ). exists (touch g now). cbn [heap]. rewrite list_lookup_alter_eq, Hg. split; [done|].
    cbn [members touch]. pose proof (ok_groups _ _ HP _ _ Hg) as [Hm Ht _ _ _ _].
    rewrite <- (Split_Join l "|"), <- (Split_Join (members g) "|"); [by rewrite EJ|..]; try (by apply texts_free);
      intros EN; rewrite EN in *; cbn in *; lia.
  - set (q := if (backendMaxGroups <=? size (groups p))%nat then evictOldest p else p).
    assert (heap q = heap p ∧ groups q ⊆ groups p ∧ (size (groups q) < backendMaxGroups)%nat) as (Eh & Hsub & Hs).
    { unfold q. pose proof (ok_size _ _ HP) as Hs. destruct (Nat.leb_spec backendMaxGroups (size (groups p))) as [H|H]; [|by split_and!].
      unfold evictOldest. cbn [heap groups]. split_and!; [done|apply delete_subseteq|].
      assert (groups p ≠ ∅) as Hne by (intros E0; rewrite E0, map_size_empty in H; unfold backendMaxGroups in H; lia).
      rewrite map_size_delete_Some; [unfold backendMaxGroups in *; lia|]. apply oldest_in; [done|intros key ptr; by apply (keys_named N)]. }
    clearbody q. split.
    2:{ exists (newGroup l now). cbn [heap]. rewrite lookup_app_r, Nat.sub_diag by done. done. }
    split; cbn [heap groups].
    + intros ptr g. rewrite lookup_app_Some. intros [H|[Hge H]]; [rewrite Eh in H; by eapply ok_groups|].
      destruct (ptr - length (heap q))%nat as [|k]; cbn in H; [|done]. injection H as <-. by apply newGroup_ok.
    + intros key ptr. rewrite lookup_insert_Some. intros [[<- <-]|[Hne H]].
      * exists (newGroup l now). by rewrite lookup_app_r, Nat.sub_diag by done.
      * destruct (ok_keys _ _ HP key ptr) as (g & Hg & ->); [by eapply lookup_weaken|]. exists g.
        rewrite lookup_app_l by (rewrite Eh; by eapply lookup_lt_Some). by rewrite Eh.
    + rewrite map_size_insert. destruct (groups q !! _); cbn; lia.
Qed.

Lemma act_ok N p o : 0 ≤ N → N + 33 < 2^63 → pool_ok N p → pool_ok (N + 33) (act p o).
Proof using range_ok.
  intros HN Hb HP. destruct o as [target now|ptr now now'|ptr ok|ptr now]; cbn [act].
  - assert (pool_ok (N + 33) p) as HP' by (destruct HP; split; auto; intros ptr g Hg; apply (group_ok_mono N); [lia|eauto]).
    destruct (parse target) as [a|l] eqn:E; [done|]. destruct (parse_members _ _ E) as [? ?]. by apply group_step; [lia|..].
  - apply (alter_ok N); [lia| |done]. intros g HG. by destruct (pick_spec N g now now' HG Hb) as (? & ? & _).
  - apply (alter_ok N); [lia| |done]. intros g HG. split; [apply (group_ok_mono N); [lia|by apply probed_ok]|].
    unfold probed. by destruct (_ && _).
  - apply (alter_ok N); [lia| |done]. intros g HG. split; [apply (group_ok_mono N); [lia|by apply checked_ok]|].
    unfold checked. by destruct (_ && _).
Qed.

Lemma acts_ok ops : 33 * Z.of_nat (length ops) < 2^63 → pool_ok (33 * Z.of_nat (length ops)) (fold_left act ops emptyPool).
Proof using range_ok.
  induction ops as [|o ops IH] using rev_ind; intros H.
  - split; cbn; [done|intros ? ?; by rewrite lookup_empty|rewrite map_size_empty; unfold backendMaxGroups; lia].
  - rewrite fold_left_app, length_app. cbn [fold_left length]. rewrite length_app in H. cbn [length] in H.
    replace (33 * Z.of_nat (length ops + 1)) with (33 * Z.of_nat (length ops) + 33) by lia. apply act_ok; [lia|lia|]. apply IH. lia.
Qed.

(** A group none of whose members has failed gives them in turn. *)
Lemma pick_turn g k now now' : (2 ≤ length (members g) ≤ backendMaxMembers)%nat → healthy g = replicate (length (members g)) true →
  next g = Z.of_nat k → (k < length (members g))%nat →
  snd (pick g now now') = default "" (members g !! k) ∧
  let g' := fst (pick g now now') in members g' = members g ∧ healthy g' = healthy g ∧ next g' = Z.of_nat (S k).
Proof.
  intros Hm Hh Hn Hk. unfold pick. set (g0 := touch (startCheck g now) now').
  assert (members g0 = members g ∧ healthy g0 = healthy g ∧ next g0 = next g) as (E1 & E2 & E3) by (unfold g0, startCheck; by destruct (_ || _)).
  clearbody g0. rewrite E1, E2, E3, Hh, Hn. unfold zlen, backendMaxMembers in *. destruct (Z.eqb_spec (Z.of_nat (length (members g))) 0); [lia|].
  destruct (length (members g)) as [|m] eqn:El; [lia|]. cbn [pick_loop]. rewrite Z.rem_small by lia. rewrite Nat2Z.id.
  rewrite lookup_replicate_2 by lia. cbn [default from_option id fst snd set_next members healthy next]. rewrite int64_small by lia. rewrite E1, E2, Hh.
  split_and!; [done..|lia].
Qed.

(** A pool in which only this list was picked from, [k] times, and nothing probed. *)
Definition turned (l : list string) (k : nat) (p : backendPool) : Prop :=
  k = O ∧ p = emptyPool ∨
  ∃ g, p = mkPool [g] {[Join l "|" := O]} ∧ members g = l ∧ healthy g = replicate (length l) true ∧ next g = Z.of_nat k.

Lemma pool_turn target l k p now now' now'' : parse target = inr l → turned l k p → (k < length l)%nat →
  snd (pool_pick p target now now' now'') = default "" (l !! k) ∧ turned l (S k) (fst (pool_pick p target now now' now'')).
Proof.
  intros E HT Hk. destruct (parse_members _ _ E) as [Hl _]. unfold pool_pick. rewrite E.
  assert (∃ g, group p (Join l "|") l now = (mkPool [g] {[Join l "|" := O]}, O) ∧ members g = l ∧ healthy g = replicate (length l) true ∧ next g = Z.of_nat k) as (g & Eg & Hm & Hh & Hn).
  { destruct HT as [[-> ->]|(g & -> & Hm & Hh & Hn)]; unfold group; cbn [groups heap emptyPool].
    - rewrite lookup_empty, map_size_empty. by exists (newGroup l now).
    - rewrite lookup_singleton_eq. by exists (touch g now). }
  rewrite Eg. cbn [fst snd heap lookup list_lookup act alter list_alter groups].
  subst l. destruct (pick_turn g k now' now'' Hl Hh Hn Hk) as (E1 & E2 & E3 & E4). split; [exact E1|]. right.
  exists (fst (pick g now' now'')). rewrite E2, E3. by split_and!.
Qed.

(** What is picked is of the list, whatever happened before. *)
Lemma pool_pick_member ops target l now now' now'' : 33 * (Z.of_nat (length ops) + 1) < 2^63 → parse target = inr l →
  snd (pool_pick (fold_left act ops emptyPool) target now now' now'') ∈ l.
Proof using range_ok.
  intros H E. pose proof (acts_ok ops ltac:(lia)) as HP. unfold pool_pick. rewrite E. destruct (parse_members _ _ E) as [Hl HF].
  destruct (group_step (33 * Z.of_nat (length ops)) _ l now ltac:(lia) Hl HF HP) as [HP' (g & Hg & Hm)]. rewrite Hg. cbn [snd].
  destruct (pick_spec _ g now' now'' (ok_groups _ _ HP' _ _ Hg) ltac:(lia)) as (_ & _ & Hs & _). by rewrite Hm in Hs.
Qed.

(** The backend pool is bounded and picks what answers. Whatever targets
    the peer names, and however picks, probes and the ends of passes
    interleave, there are at most 256 groups of two to 32 members each; a
    member is out of the rotation exactly while its last three probes or more
    failed; a pick gives a member of its group, and a healthy one whenever
    there is one; and looking a target up gives the group of its own members. *)
Theorem backends_sound ops :
  33 * (Z.of_nat (length ops) + 1) < 2^63 →
  let p := fold_left act ops emptyPool in
  (size (groups p) ≤ backendMaxGroups)%nat ∧
  (∀ ptr g, heap p !! ptr = Some g →
     (2 ≤ length (members g) ≤ backendMaxMembers)%nat ∧
     (∀ i f, fails g !! i = Some f → healthy g !! i = Some (f <? backendMaxFailed)) ∧
     ∀ now now', let s := snd (pick g now now') in
       s ∈ members g ∧ ∀ i, healthy g !! i = Some true → ∃ j, members g !! j = Some s ∧ healthy g !! j = Some true) ∧
  ∀ target l now, parse target = inr l →
    let x := group p (Join l "|") l now in ∃ g, heap (fst x) !! snd x = Some g ∧ members g = l.
Proof using range_ok.
  intros H. cbv zeta. pose proof (acts_ok ops ltac:(lia)) as HP. set (p := fold_left _ _ _) in *. clearbody p. split_and!.
  - by destruct HP.
  - intros ptr g Hg. pose proof (ok_groups _ _ HP _ _ Hg) as HG. split_and!; try apply HG.
    intros now now'. destruct (pick_spec _ g now now' HG ltac:(lia)) as (_ & _ & H1 & H2). by split.
  - intros target l now E. destruct (parse_members _ _ E) as [? ?]. by apply (group_step (33 * Z.of_nat (length ops))); [lia|..].
Qed.

End range.

Lemma backends_sound_witness :
  let ops := [Look "10.0.0.1:80|10.0.0.2:80" 0; Pick 0 0 0; Probed 0 false; Probed 0 true; Checked 0 1] in
  let p := fold_left (act map_to_list) ops emptyPool in
  (size (groups p) ≤ backendMaxGroups)%nat ∧
  ∀ g, heap p !! 0%nat = Some g → (∀ i f, fails g !! i = Some f → healthy g !! i = Some (f <? backendMaxFailed)).
Proof.
  intros ops p. destruct (backends_sound map_to_list (λ m, Permutation_refl _) ops) as (H1 & H2 & _); [by vm_compute|].
  split; [exact H1|]. intros g Hg. apply (H2 0%nat g Hg).
Defined.

End Backends.

Module Readers.
Import Net Spec Engine.

(** ** Lemmas: ports *)

(** The bytes of a port: digits, and the sign [Atoi] takes. *)
Definition port_char (c : ascii) : bool := is_digit c || Ascii.eqb c "+".

Lemma port_char_facts c : port_char c = true →
  printable c = true ∧ Ascii.eqb c ":" = false ∧ Ascii.eqb c "-" = false ∧ Ascii.eqb c "]" = false ∧ Ascii.eqb c "=" = false ∧ Ascii.eqb c "|" = false.
Proof. destruct c as [[] [] [] [] [] [] [] []]; intros H; try discriminate H; by vm_compute. Qed.

Lemma parse_digits_chars s : ∀ a n, parse_digits a s = Some n → all_chars is_digit s.
Proof.
  induction s as [|c s IH]; intros a n H; [constructor|]. cbn [parse_digits] in H.
  destruct (digit_value c) as [d|] eqn:E; [|done]. apply all_chars_cons. split; [unfold is_digit; by rewrite E|by eapply IH].
Qed.

Lemma Atoi_chars s n : Atoi s = Some n → 1 ≤ n → s ≠ "" ∧ all_chars port_char s.
Proof.
  intros H Hn.
  assert (∀ r m, ParseUint r = Some m → 0 ≤ m ∧ r ≠ "" ∧ all_chars port_char r) as HP.
  { intros r m Hr. unfold ParseUint in Hr. destruct r as [|c r]; [done|].
    destruct (parse_digits 0 (String c r)) as [k|] eqn:E; [|done]. destruct (k <? 2^64); [|done]. injection Hr as ->.
    split_and!; [|done|].
    - clear -E. assert (∀ s a n, 0 ≤ a → parse_digits a s = Some n → 0 ≤ n) as HG.
      { induction s as [|x s IH]; cbn [parse_digits]; intros a n Ha H; [by injection H as <-|].
        unfold digit_value in H. destruct (_ && _) eqn:Ed; [|done]. apply andb_true_iff in Ed as [? ?]. eapply IH; [|exact H]. lia. }
      by eapply HG; [|exact E].
    - eapply all_chars_impl; [|by eapply parse_digits_chars]. intros x Hx. unfold port_char. by rewrite Hx. }
  destruct (ascii_dec (match s with String c _ => c | _ => "0" end) "-") as [E|Hm].
  { destruct s as [|c s]; [done|]. subst c. cbn [Atoi] in H. destruct (ParseUint s) as [m|] eqn:E; [|done].
    destruct (HP _ _ E) as [? _]. destruct (m <=? 2^63); [|done]. injection H as H. lia. }
  destruct (ascii_dec (match s with String c _ => c | _ => "0" end) "+") as [E|Hp].
  { destruct s as [|c s]; [done|]. subst c. cbn [Atoi] in H. destruct (ParseUint s) as [m|] eqn:E; [|done].
    destruct (HP _ _ E) as (_ & _ & Hc). split; [done|]. apply all_chars_cons. by split. }
  assert (ParseUint s = Some n) as HU.
  { destruct s as [|c s]; [done|]. destruct c as [[] [] [] [] [] [] [] []]; try (by destruct Hm); try (by destruct Hp);
      cbn [Atoi] in H; destruct (ParseUint _) as [m|]; try done; by destruct (m <? 2^63). }
  by destruct (HP _ _ HU) as (_ & ? & ?).
Qed.

Lemma port_free s c : all_chars port_char s → port_char c = false → free c s.
Proof.
  intros H Hc. eapply all_chars_impl; [|exact H]. intros x Hx. destruct (Ascii.eqb_spec x c) as [->|]; [congruence|done].
Qed.

Lemma port_printable s : all_chars port_char s → all_chars printable s.
Proof. apply all_chars_impl. intros c Hc. by apply port_char_facts. Qed.

(** The three tests of a port are one. *)
Definition port_value (s : string) (n : Z) : Prop :=
  Atoi s = Some n ∧ 1 ≤ n ≤ 65535 ∧ s ≠ "" ∧ all_chars port_char s.

Lemma port_value_intro s n : Atoi s = Some n → 1 ≤ n ≤ 65535 → port_value s n.
Proof. intros H Hn. destruct (Atoi_chars s n H) as [? ?]; [lia|]. split_and!; (done || lia). Qed.

Lemma ValidPort_value s : ValidPort s = true ↔ ∃ n, port_value s n.
Proof.
  unfold ValidPort. split.
  - destruct (Atoi s) as [n|] eqn:E; [|done]. intros [? ?]%andb_true_iff. exists n. apply port_value_intro; [done|lia].
  - intros (n & -> & ? & _). apply andb_true_iff. lia.
Qed.

Lemma parseListenPort_value s p : parseListenPort s = Ok p ↔ port_value (TrimSpace s) p.
Proof.
  unfold parseListenPort. split.
  - destruct (Atoi (TrimSpace s)) as [n|] eqn:E; [|done]. destruct (_ || _) eqn:Ec; [done|]. intros [= ->].
    apply orb_false_iff in Ec as [? ?]. apply port_value_intro; [done|lia].
  - intros (-> & ? & _). destruct (Z.ltb_spec p 1), (Z.ltb_spec 65535 p); cbn [orb]; (done || lia).
Qed.

Lemma portNumber_value s p : port_value (TrimSpace s) p → portNumber s = p.
Proof.
  intros (E & Hp & _). unfold portNumber. rewrite E. destruct (Z.ltb_spec p 1), (Z.ltb_spec 65535 p); cbn [orb]; (done || lia).
Qed.

(** ** Lemmas: the listening half *)

(** What is left of the first [=], trimmed. *)
Definition local_of (spec : string) : string := TrimSpace (default "" (Split spec "=" !! 0%nat)).

Lemma local_halves spec : TrimSpace (fst (halves (TrimSpace spec))) = local_of spec.
Proof.
  unfold local_of, halves. destruct (split_first "=" spec) as [(a & b & -> & Ha)|H].
  - rewrite Split_app by done. rewrite TrimSpace_sep by done.
    destruct (trim_left_suffix a) as [t Et]. assert (free "=" (trim_left a)) as Hf by (rewrite Et in Ha; by apply free_app in Ha as [_ ?]).
    pose proof (Cut_app (trim_left a) "=" "" (trim_right b) Hf) as HC. cbn [String.append] in HC. rewrite HC. cbn [fst].
    by rewrite TrimSpace_left.
  - rewrite Split_free by done. pose proof (free_TrimSpace _ _ H) as Hf.
    rewrite (Cut_none _ "=" ""); [|done]. cbn [fst]. apply TrimSpace_idem.
Qed.

(** The ports the management layer reads in a listening half. *)
Definition ports_text (local : string) : string := snd (splitListenHost local).

Lemma expand_spec spec listens :
  expandListenSpec (default "" (Split spec "=" !! 0%nat)) = Ok listens ↔
  ∃ a b, parsePortRange (ports_text (local_of spec)) = Ok (a, b) ∧
    listens = map (λ p, mkListen (fst (splitListenHost (local_of spec)) +:+ ":" +:+ Itoa p) (Itoa p)) (range a b).
Proof.
  unfold expandListenSpec, ports_text. fold (local_of spec). destruct (splitListenHost (local_of spec)) as [h ps]. cbn [fst snd].
  destruct (parsePortRange ps) as [[a b]|e]; split; try done.
  - intros [= <-]. by exists a, b.
  - intros (x & y & [= <- <-] & ->). done.
  - by intros (x & y & ? & _).
Qed.

(** A range that parses: one port, or two about a dash. *)
Lemma parsePortRange_value ps a b : parsePortRange ps = Ok (a, b) ↔
  (free "-" ps ∧ a = b ∧ port_value (TrimSpace ps) a) ∨
  (∃ lo hi, ps = lo +:+ String "-" hi ∧ free "-" lo ∧ port_value (TrimSpace lo) a ∧ port_value (TrimSpace hi) b ∧ a ≤ b).
Proof.
  unfold parsePortRange. destruct (split_first "-" ps) as [(lo & hi & -> & Hlo)|H].
  - rewrite TrimSpace_sep by done. destruct (trim_left_suffix lo) as [t Et].
    assert (free "-" (trim_left lo)) as Hf by (rewrite Et in Hlo; by apply free_app in Hlo as [_ ?]).
    pose proof (Cut_app (trim_left lo) "-" "" (trim_right hi) Hf) as HC. cbn [String.append] in HC. rewrite HC.
    assert (¬ free "-" (lo +:+ String "-" hi)) as Hn by (unfold free; rewrite all_chars_app, all_chars_cons; by intros (_ & ? & _)).
    assert (∀ p, port_value (TrimSpace (trim_right hi)) p ↔ port_value (TrimSpace hi) p) as HR.
    { intros p. split; intros HV.
      - destruct HV as (E & Hp & Hne & Hc). by rewrite (TrimSpace_right hi _ Hne (port_printable _ Hc) eq_refl).
      - destruct HV as (E & Hp & Hne & Hc). by rewrite (TrimSpace_right' hi _ Hne (port_printable _ Hc) eq_refl). }
    split.
    + destruct (parseListenPort (trim_left lo)) as [x|] eqn:E1; [|done]. destruct (parseListenPort (trim_right hi)) as [y|] eqn:E2; [|done].
      destruct (Z.ltb_spec y x); [done|]. intros [= <- <-]. right. exists lo, hi.
      apply parseListenPort_value in E1, E2. rewrite TrimSpace_left in E1. apply HR in E2. by split_and!.
    + intros [(? & _)|(lo' & hi' & E & Hlo' & H1 & H2 & Hle)]; [done|].
      destruct (split_unique "-" lo hi lo' hi') as [<- <-]; [done..|].
      rewrite <- TrimSpace_left in H1. apply parseListenPort_value in H1 as ->. apply HR, parseListenPort_value in H2 as ->.
      by destruct (Z.ltb_spec b a); [lia|].
  - pose proof (free_TrimSpace _ _ H) as Hf.
    rewrite (Cut_none _ "-" "") by done. split.
    + destruct (parseListenPort (TrimSpace ps)) as [x|] eqn:E; [|done]. intros [= <- <-]. left.
      apply parseListenPort_value in E. rewrite TrimSpace_idem in E. by split_and!.
    + intros [(_ & <- & HV)|(lo & hi & E & _)].
      * rewrite <- TrimSpace_idem in HV. by apply parseListenPort_value in HV as ->.
      * unfold free in H. rewrite E, all_chars_app, all_chars_cons in H. by destruct H as (_ & ? & _).
Qed.

Lemma SplitHostPort_port s h p : SplitHostPort s = Some (h, p) → ports_text s = p.
Proof.
  unfold SplitHostPort, ports_text, splitListenHost. destruct (cut_last s ":") as [[before port]|] eqn:Ec; [|done].
  assert ((if contains_char ":" before || contains_char "[" s || contains_char "]" s then None else Some (before, port)) = Some (h, p) →
    snd (match cut_last s "]" with
         | Some (b, after) => match Cut after ":" with Some (x, q) => (b +:+ "]" +:+ x, q) | None => (s, "") end
         | None => (before, port) end) = p) as HN.
  { destruct (contains_char ":" before || contains_char "[" s) eqn:E1; [done|]. destruct (contains_char "]" s) eqn:E2; [done|].
    intros [= _ <-]. apply contains_free in E2. by rewrite cut_last_free. }
  destruct s as [|c rest]; [exact HN|]. destruct (ascii_dec c "[") as [->|Hc].
  2:{ clear Ec. destruct c as [[] [] [] [] [] [] [] []]; first [by destruct Hc|exact HN]. }
  clear HN. destruct (Cut rest "]") as [[host after]|] eqn:E; [|done]. destruct after as [|c after]; [done|].
  destruct (ascii_dec c ":") as [->|Hc].
  2:{ destruct c as [[] [] [] [] [] [] [] []]; first [by destruct Hc|done]. }
  destruct (contains_char ":" after || contains_char "[" rest) eqn:E1; [done|]. destruct (contains_char "]" after) eqn:E2; [done|].
  intros [= _ <-]. apply contains_free in E2. apply Cut_Some in E. cbn [String.append] in E. rewrite E.
  change (String "[" (host +:+ String "]" (String ":" after))) with (String "[" host +:+ String "]" (String ":" after)).
  rewrite cut_last_app by (apply all_chars_cons; by split). rewrite (Cut_head (String ":" after) ":" after) by done. done.
Qed.

Lemma range_one a : range a a = [a].
Proof. unfold range. replace (Z.to_nat (a - a + 1)) with 1%nat by lia. cbn [seq map]. f_equal. lia. Qed.

Lemma listenPortsOf_local spec a b : parsePortRange (ports_text (local_of spec)) = Ok (a, b) → listenPortsOf spec = range a b.
Proof.
  intros H. unfold listenPortsOf.
  assert (match Cut (TrimSpace spec) "=" with Some (x, _) => TrimSpace x | None => TrimSpace spec end = local_of spec) as ->.
  { rewrite <- local_halves. unfold halves. destruct (Cut (TrimSpace spec) "=") as [[x y]|]; [done|]. cbn [fst]. by rewrite TrimSpace_idem. }
  set (l := local_of spec) in *. clearbody l.
  assert (∀ n, ¬ port_value (TrimSpace "") n) as H0 by (intros n (_ & _ & ? & _); done).
  destruct (String.eqb_spec l "") as [->|Hl].
  { change (ports_text "") with "" in H. apply parsePortRange_value in H as [(_ & _ & HV)|(lo & hi & E & _)]; [by destruct (H0 a)|by destruct lo]. }
  assert (match cut_last l "]" with
    | Some (_, after) => match Cut after ":" with Some (_, p) => p | None => l end
    | None => match cut_last l ":" with Some (_, p) => p | None => l end end = ports_text l) as ->.
  { unfold ports_text, splitListenHost in *. destruct (cut_last l "]") as [[x y]|]; [|by destruct (cut_last l ":") as [[x y]|]].
    destruct (Cut y ":") as [[u v]|]; [done|]. cbn [snd] in H.
    apply parsePortRange_value in H as [(_ & _ & HV)|(lo & hi & E & _)]; [by destruct (H0 a)|by destruct lo]. }
  assert (∀ x n, port_value (TrimSpace x) n → portNumber x = n ∧ n ≠ 0) as HN.
  { intros x n HV. split; [by apply portNumber_value|]. destruct HV as (_ & ? & _). lia. }
  apply parsePortRange_value in H as [(Hf & <- & HV)|(lo & hi & -> & Hlo & H1 & H2 & Hle)].
  - rewrite (Cut_none _ "-" "") by done. destruct (HN _ _ HV) as [-> Hz]. destruct (Z.eqb_spec a 0); [done|].
    by rewrite range_one.
  - pose proof (Cut_app lo "-" "" hi Hlo) as HC. cbn [String.append] in HC. rewrite HC.
    destruct (HN _ _ H1) as [-> Hz]. destruct (HN _ _ H2) as [-> _]. destruct (Z.eqb_spec a 0); [done|]. by destruct (Z.ltb_spec b a); [lia|].
Qed.

Lemma valid_parses spec : ValidPortSpec spec = true → ∃ a b, parsePortRange (ports_text (local_of spec)) = Ok (a, b).
Proof.
  unfold ValidPortSpec. pose proof (local_halves spec) as HL. destruct (halves (TrimSpace spec)) as [lhs rhs]. cbn [fst] in HL. rewrite HL.
  set (l := local_of spec) in *. assert (TrimSpace l = l) as Hi by apply TrimSpace_idem. clearbody l. clear HL.
  destruct (String.eqb_spec l "") as [|Hne]; [done|]. destruct (match rhs with Some _ => _ | None => _ end); [done|].
  assert (∀ p, ValidPort p = true → TrimSpace p = p ∧ free "-" p ∧ ∃ n, port_value (TrimSpace p) n) as HV.
  { intros p (n & HV)%ValidPort_value. assert (TrimSpace p = p) as E by (apply TrimSpace_printable, port_printable; apply HV).
    split_and!; [done| |exists n; by rewrite E]. apply port_free; [apply HV|done]. }
  assert (∀ p, ValidPort p = true → ∃ a b, parsePortRange p = Ok (a, b)) as HO.
  { intros p Hp. destruct (HV p Hp) as (E & Hf & n & Hn). exists n, n. apply parsePortRange_value. left. by split_and!. }
  assert (free ":" l → free "]" l → ports_text l = l) as HT.
  { intros H1 H2. unfold ports_text, splitListenHost. by rewrite !cut_last_free. }
  assert (∀ c p, ValidPort (TrimSpace p) = true → printable c = true → port_char c = false → free c p) as HF.
  { intros c p (n & HV')%ValidPort_value Hc Hpc. destruct (split_first c p) as [(x & y & -> & _)|]; [|done].
    rewrite TrimSpace_sep in HV' by done. destruct HV' as (_ & _ & _ & Ha). apply all_chars_app in Ha as [_ Ha].
    apply all_chars_cons in Ha as [Ha _]. congruence. }
  intros H.
  assert ((if contains_char "-" l then
      match Split l "-" with
      | [lo; hi] =>
          if negb (ValidPort (TrimSpace lo)) || negb (ValidPort (TrimSpace hi)) then false
          else default 0 (Atoi (TrimSpace lo)) <=? default 0 (Atoi (TrimSpace hi))
      | _ => false end
    else ValidPort l) = true ∨ ∃ h p, SplitHostPort l = Some (h, p) ∧ ValidPort p = true) as [HR|(h & p & E & Hp)].
  { destruct (SplitHostPort l) as [[[|c h] p]|]; [by left| |by left]. destruct rhs; [|done]. right. by exists (String c h), p. }
  2:{ rewrite (SplitHostPort_port _ _ _ E). by apply HO. }
  clear H. destruct (contains_char "-" l) eqn:Ed.
  - destruct (split_first "-" l) as [(lo & hi & -> & Hlo)|Hf]; [|apply contains_free in Hf; congruence].
    rewrite Split_app in HR by done. destruct (Split hi "-") as [|hi' [|? ?]] eqn:Eh; try done.
    assert (free "-" hi ∧ hi' = hi) as [Hhi ->].
    { destruct (split_first "-" hi) as [(x & y & -> & Hx)|Hx]; [rewrite Split_app in Eh by done; by destruct (Split y "-") eqn:Ey; [destruct y; cbn in Ey; [done|destruct (Ascii.eqb _ _); [done|by destruct (Split y "-")]]|]|].
      split; [done|]. rewrite Split_free in Eh by done. by injection Eh. }
    destruct (ValidPort (TrimSpace lo)) eqn:E1; [|done]. destruct (ValidPort (TrimSpace hi)) eqn:E2; [|done]. cbn [negb orb] in HR.
    rewrite HT.
    2,3: unfold free; apply all_chars_app; (split; [by apply HF|]); apply all_chars_cons; (split; [done|by apply HF]).
    destruct (HV _ E1) as (_ & _ & a & Ha). destruct (HV _ E2) as (_ & _ & b & Hb). rewrite TrimSpace_idem in Ha, Hb.
    rewrite (proj1 Ha), (proj1 Hb) in HR. cbn [default] in HR. apply Z.leb_le in HR.
    exists a, b. apply parsePortRange_value. right. by exists lo, hi.
  - assert (all_chars port_char l) as Hc by (apply ValidPort_value in HR as (n & HV'); apply HV').
    rewrite HT by (by apply port_free). by apply HO.
Qed.

(** An entry the management layer accepts is opened, and what is opened is
    what is reserved. The server reads the listening half of every accepted
    entry. And whatever entry it reads, the ports it listens on are exactly
    those the kernel is told to keep free for it, at least one, all of them
    ports and no port twice; an entry with one [=] at most gives each of them a
    listener. *)
Theorem accepted_is_opened spec :
  (ValidPortSpec spec = true → ∃ listens, expandListenSpec (default "" (Split spec "=" !! 0%nat)) = Ok listens) ∧
  ∀ listens, expandListenSpec (default "" (Split spec "=" !! 0%nat)) = Ok listens →
    listens ≠ [] ∧ map port listens = map Itoa (listenPortsOf spec) ∧
    Forall (λ p, 1 ≤ p ≤ 65535) (listenPortsOf spec) ∧ NoDup (listenPortsOf spec) ∧
    ((length (Split spec "=") ≤ 2)%nat → map fst (mapping spec) = map addr listens).
Proof.
  split.
  - intros (a & b & H)%valid_parses. eexists. apply expand_spec. by exists a, b.
  - intros listens HE. pose proof HE as (a & b & HP & ->)%expand_spec. rewrite (listenPortsOf_local _ _ _ HP).
    assert (1 ≤ a ∧ a ≤ b ≤ 65535) as Hab.
    { apply parsePortRange_value in HP as [(_ & <- & _ & ? & _)|(lo & hi & _ & _ & (_ & ? & _) & (_ & ? & _) & ?)]; lia. }
    split_and!.
    + intros E%(f_equal length). rewrite length_map in E. unfold range in E. rewrite length_map, length_seq in E. cbn in E. lia.
    + rewrite map_map. apply map_ext. done.
    + apply Forall_forall. intros x (i & <- & Hi%list_elem_of_In)%list_elem_of_In%in_map_iff. apply elem_of_seq in Hi. lia.
    + apply NoDup_ListNoDup, Finite.Injective_map_NoDup; [intros x y; lia|apply seq_NoDup].
    + intros Hl. unfold mapping. destruct (Nat.ltb_spec 2 (length (Split spec "="))); [lia|].
      rewrite HE, map_map. apply map_ext. done.
Qed.

Lemma accepted_is_opened_witness :
  map port (match expandListenSpec "10.0.0.5:443-445 " with Ok l => l | Err _ => [] end) = ["443"; "444"; "445"] ∧
  map Itoa (listenPortsOf "10.0.0.5:443-445 = 8443") = ["443"; "444"; "445"] ∧
  ∃ listens, expandListenSpec (default "" (Split " 443 = 10.0.0.5:80" "=" !! 0%nat)) = Ok listens.
Proof.
  split; [by vm_compute|]. split.
  - destruct (accepted_is_opened "10.0.0.5:443-445 = 8443") as [_ H].
    destruct (H (map (λ p, mkListen ("10.0.0.5:" +:+ Itoa p) (Itoa p)) [443; 444; 445])) as (_ & E & _); [by vm_compute|].
    rewrite <- E. by vm_compute.
  - apply (accepted_is_opened " 443 = 10.0.0.5:80"). by vm_compute.
Defined.

(** ** One syntax, three tunnels

    What a mapping means, by its abstract syntax: listeners with the backends
    behind each. A mapping names a port and its backends, or a range of ports
    that go to themselves; either may name the address to listen on. *)
Definition endpoint : Type := option string * Z.

Inductive form : Type :=
| Named (bind : option string) (q : Z) (backends : list endpoint)
| Same (bind : option string) (a b : Z).

Definition at_host (h : option string) (p : Z) : string :=
  match h with Some h => h +:+ ":" +:+ Itoa p | None => Itoa p end.

Definition local_host : string := "127.0.0.1".

Definition backend (e : endpoint) : string := default local_host (fst e) +:+ ":" +:+ Itoa (snd e).
Definition listener (h : option string) (p : Z) : string := default "" h +:+ ":" +:+ Itoa p.

Definition denote (f : form) : list (string * list string) :=
  match f with
  | Named h q ts => [(listener h q, map backend ts)]
  | Same h a b => map (λ p, (listener h p, [backend (None, p)])) (range a b)
  end.

Definition show (f : form) : string :=
  match f with
  | Named h q ts => at_host h q +:+ "=" +:+ Join (map (λ e, at_host (fst e) (snd e)) ts) "|"
  | Same h a b => at_host h a +:+ "-" +:+ Itoa b
  end.

(** A host that is not an IPv6 literal. *)
Definition host_char (c : ascii) : bool :=
  printable c && negb (existsb (Ascii.eqb c) [":"; "["; "]"; "="; "|"]%char).
Definition host_ok (h : option string) : Prop := match h with Some h => h ≠ "" ∧ all_chars host_char h | None => True end.
Definition is_port (p : Z) : Prop := 1 ≤ p ≤ 65535.

Definition form_ok (f : form) : Prop :=
  match f with
  | Named h q ts => host_ok h ∧ is_port q ∧ ts ≠ [] ∧ Forall (λ e, host_ok (fst e) ∧ is_port (snd e)) ts
  | Same h a b => host_ok h ∧ is_port a ∧ is_port b ∧ a ≤ b ≤ a + Portmap.MaxPortsPerMapping - 1
  end.

(** What the client of a reverse tunnel draws from for a target, what it dials for
    one connection and for several in a row, and what it dials for a flow of
    datagrams: [localDialer]. *)
Definition dialled (target : string) : list string :=
  match ResolveRemoteAddr target with
  | Some (_, full) => match Backends.parse full with inl a => [a] | inr l => l end
  | None => []
  end.

Definition dial (range : gmap string nat → list (string * nat)) (p : Backends.backendPool) (target : string) (c : Z * Z * Z) : Backends.backendPool * option string :=
  match ResolveRemoteAddr target with
  | Some (_, full) => let x := Backends.pool_pick range p full c.1.1 c.1.2 c.2 in (fst x, Some (snd x))
  | None => (p, None)
  end.

Fixpoint dials (range : gmap string nat → list (string * nat)) (p : Backends.backendPool) (target : string) (cs : list (Z * Z * Z)) : list (option string) :=
  match cs with
  | [] => []
  | c :: cs => let x := dial range p target c in snd x :: dials range (fst x) target cs
  end.

Definition dialled_udp (target : string) : option string :=
  match ResolveRemoteAddr target with Some (_, full) => Some (Backends.firstBackend full) | None => None end.

(** ** Lemmas: canonical texts *)

Definition pre (h : option string) : string := match h with Some h => h +:+ ":" | None => "" end.

Lemma at_host_pre h p : at_host h p = pre h +:+ Itoa p.
Proof. destruct h as [h|]; cbn [at_host pre]; [by rewrite append_assoc|done]. Qed.

Lemma host_free h c : all_chars host_char h → host_char c = false → free c h.
Proof.
  intros H Hc. eapply all_chars_impl; [|exact H]. intros x Hx. destruct (Ascii.eqb_spec x c) as [->|]; [congruence|done].
Qed.

Lemma host_printable h : all_chars host_char h → all_chars printable h.
Proof. apply all_chars_impl. by intros c [? _]%andb_true_iff. Qed.

Lemma pre_printable h : host_ok h → all_chars printable (pre h).
Proof.
  destruct h as [h|]; [|constructor]. intros [_ H]. apply all_chars_app. split; [by apply host_printable|by repeat constructor].
Qed.

Lemma pre_free h c : host_ok h → host_char c = false → c ≠ ":"%char → free c (pre h).
Proof.
  destruct h as [h|]; [|constructor]. intros [_ H] Hc Hn. apply all_chars_app. split; [by apply host_free|].
  apply all_chars_cons. split; [|constructor]. by destruct (Ascii.eqb_spec ":" c) as [<-|].
Qed.

Lemma Itoa_port p : is_port p → port_value (Itoa p) p.
Proof. unfold is_port. intros H. apply port_value_intro; [apply Atoi_Itoa; lia|done]. Qed.

Lemma Itoa_trim p : is_port p → TrimSpace (Itoa p) = Itoa p.
Proof. intros (_ & _ & _ & H)%Itoa_port. by apply TrimSpace_printable, port_printable. Qed.

Lemma Itoa_port_free p c : is_port p → port_char c = false → free c (Itoa p).
Proof. intros (_ & _ & _ & H)%Itoa_port. by apply port_free. Qed.

(** The text of the ports of a listener. *)
Definition span_text (a b : Z) (t : string) : Prop :=
  is_port a ∧ is_port b ∧ a ≤ b ≤ a + Portmap.MaxPortsPerMapping - 1 ∧ (t = Itoa a +:+ "-" +:+ Itoa b ∨ a = b ∧ t = Itoa a).

Lemma span_chars a b t c : span_text a b t → port_char c = false → c ≠ "-"%char → free c t.
Proof.
  intros (Ha & Hb & _ & [->|[<- ->]]) Hc Hn; [|by apply Itoa_port_free].
  apply free_app. split; [by apply Itoa_port_free|]. apply all_chars_cons. split; [|by apply Itoa_port_free].
  by destruct (Ascii.eqb_spec "-" c) as [<-|].
Qed.

Lemma span_printable a b t : span_text a b t → all_chars printable t ∧ t ≠ "".
Proof.
  intros (Ha & Hb & _ & HT). destruct (Itoa_port a Ha) as (_ & _ & Na & Ca). destruct (Itoa_port b Hb) as (_ & _ & Nb & Cb).
  destruct HT as [->|[<- ->]]; [|split; [by apply port_printable|done]].
  split; [apply all_chars_app; split; [by apply port_printable|apply all_chars_cons; split; [done|by apply port_printable]]|by destruct (Itoa a)].
Qed.

Lemma span_engine a b t : span_text a b t → parsePortRange t = Ok (a, b).
Proof.
  intros (Ha & Hb & Hab & HT). apply parsePortRange_value. destruct HT as [->|[<- ->]].
  - right. exists (Itoa a), (Itoa b). rewrite !Itoa_trim by done. split_and!; [done|by apply Itoa_port_free|by apply Itoa_port..|lia].
  - left. rewrite Itoa_trim by done. split_and!; [by apply Itoa_port_free|done|by apply Itoa_port].
Qed.

Lemma parsePort_Itoa p : is_port p → Portmap.parsePort (Itoa p) = Ok p.
Proof.
  intros H. unfold Portmap.parsePort. rewrite Itoa_trim by done. destruct (Itoa_port p H) as (-> & Hp & _).
  destruct (Z.ltb_spec p 1), (Z.ltb_spec 65535 p); cbn [orb]; (done || lia).
Qed.

Lemma span_portmap a b t : span_text a b t → Portmap.parsePortSpan t = Ok (a, b).
Proof.
  intros (Ha & Hb & Hab & HT). unfold Portmap.parsePortSpan. destruct HT as [->|[<- ->]].
  - pose proof (Cut_app (Itoa a) "-" "" (Itoa b) ltac:(by apply Itoa_port_free)) as HC. cbn [String.append] in *. rewrite HC.
    rewrite !parsePort_Itoa by done. destruct (Z.ltb_spec b a); [lia|]. by destruct (Z.ltb_spec Portmap.MaxPortsPerMapping (b - a + 1)); [lia|].
  - rewrite (Cut_none _ "-" "") by (by apply Itoa_port_free). by rewrite parsePort_Itoa.
Qed.

Lemma splitListenHost_pre h t : host_ok h → free ":" t → free "]" t → splitListenHost (pre h +:+ t) = (default "" h, t).
Proof.
  intros Hh H1 H2. unfold splitListenHost. rewrite cut_last_free.
  2:{ apply free_app. split; [by apply pre_free|done]. }
  destruct h as [h|]; cbn [pre default]; [|by rewrite cut_last_free].
  rewrite append_assoc. cbn [String.append]. by rewrite cut_last_app.
Qed.

Lemma count_char_free c s : free c s → count_char c s = 0%nat.
Proof. induction s as [|x s IH]; intros H; [done|]. apply all_chars_cons in H as [Hx H]. cbn [count_char]. apply negb_true_iff in Hx. by rewrite Hx, IH. Qed.

Lemma count_char_app c s t : count_char c (s +:+ t) = (count_char c s + count_char c t)%nat.
Proof. induction s as [|x s IH]; [done|]. cbn [String.append count_char]. rewrite IH. lia. Qed.

Lemma portmap_range h a b t : host_ok h → span_text a b t →
  ∃ r, Portmap.parsePortRange (pre h +:+ t) = Ok r ∧ Portmap.host r = default "" h ∧ Portmap.lo r = a ∧ Portmap.hi r = b ∧
    Portmap.hasHost r = negb (String.eqb (default "" h) "").
Proof.
  intros Hh HS. destruct (span_printable a b t HS) as [Hp Hn]. unfold Portmap.parsePortRange.
  assert (all_chars printable (pre h +:+ t)) as HP by (apply all_chars_app; split; [by apply pre_printable|done]).
  rewrite TrimSpace_printable by done. destruct (String.eqb_spec (pre h +:+ t) "") as [E|_].
  { exfalso. destruct (pre h); [done|discriminate E]. }
  assert (free "[" (pre h +:+ t)) as HB by (apply free_app; split; [by apply pre_free|by eapply span_chars]).
  assert (match cut_last (pre h +:+ t) ":" with
          | Some (host, ports) => if (1 <? count_char ":" (pre h +:+ t))%nat then Err (Portmap.LooksIPv6 (pre h +:+ t)) else Ok (host, ports)
          | None => Ok ("", pre h +:+ t)
          end = Ok (default "" h, t)) as E.
  { assert (free ":" t) as Ht by (by eapply span_chars). destruct h as [h|]; cbn [pre default].
    - rewrite append_assoc. cbn [String.append]. rewrite cut_last_app by done. destruct Hh as [_ Hh].
      rewrite count_char_app. cbn [count_char]. rewrite (count_char_free ":" t), (count_char_free ":" h) by (done || by apply host_free). done.
    - cbn [String.append]. by rewrite cut_last_free. }
  destruct (pre h +:+ t) as [|c s] eqn:Es; [exfalso; destruct (pre h); [done|discriminate Es]|].
  apply all_chars_cons in HB as [Hc _]. apply negb_true_iff, Ascii.eqb_neq in Hc.
  destruct c as [[] [] [] [] [] [] [] []]; try (exfalso; by apply Hc); rewrite E; rewrite (span_portmap a b t HS); eexists; (split; [reflexivity|done]).
Qed.

Lemma at_host_printable h p : host_ok h → is_port p → all_chars printable (at_host h p) ∧ at_host h p ≠ "".
Proof.
  intros Hh Hp. rewrite at_host_pre. destruct (Itoa_port p Hp) as (_ & _ & Hn & Hc). split.
  - apply all_chars_app. split; [by apply pre_printable|by apply port_printable].
  - by destruct (pre h).
Qed.

Lemma at_host_free h p c : host_ok h → is_port p → host_char c = false → port_char c = false → c ≠ ":"%char → free c (at_host h p).
Proof. intros Hh Hp Hc Hc' Hn. rewrite at_host_pre. apply free_app. split; [by apply pre_free|by apply Itoa_port_free]. Qed.

Lemma port_span p : is_port p → span_text p p (Itoa p).
Proof. intros H. unfold span_text, Portmap.MaxPortsPerMapping. split_and!; try done; try lia. by right. Qed.

(** *** The reverse tunnel *)

Lemma expand_pre h a b t : host_ok h → span_text a b t →
  expandListenSpec (pre h +:+ t) = Ok (map (λ p, mkListen (listener h p) (Itoa p)) (range a b)).
Proof.
  intros Hh HS. destruct (span_printable a b t HS) as [Hp _]. unfold expandListenSpec.
  rewrite TrimSpace_printable by (apply all_chars_app; split; [by apply pre_printable|done]).
  rewrite splitListenHost_pre by (done || by eapply span_chars). by rewrite (span_engine a b t HS).
Qed.

Lemma resolve_endpoint h p : host_ok h → is_port p → resolve_one (at_host h p) = Some (p, backend (h, p)).
Proof.
  intros Hh Hp. unfold resolve_one. destruct (Itoa_port p Hp) as (E & _). destruct h as [h|]; cbn [at_host backend fst snd default].
  - cbn [String.append]. rewrite Split_app by (by apply host_free; [apply Hh|]). rewrite Split_free by (by apply Itoa_port_free). by rewrite E.
  - rewrite Split_free by (by apply Itoa_port_free). by rewrite E.
Qed.

Lemma backend_text h p : host_ok h → is_port p → all_chars printable (backend (h, p)) ∧ backend (h, p) ≠ "" ∧ free "|" (backend (h, p)).
Proof.
  intros Hh Hp. assert (host_ok (Some (default local_host h))) as Hd by (destruct h; [done|split; [done|by repeat constructor]]).
  change (backend (h, p)) with (at_host (Some (default local_host h)) p).
  destruct (at_host_printable _ _ Hd Hp) as [? ?]. split_and!; [done|done|by apply at_host_free].
Qed.

Lemma resolve_list ts : Forall (λ e, host_ok (fst e) ∧ is_port (snd e)) ts → ∀ i fp acc,
  ∃ p, resolve_parts i (map (λ e, at_host (fst e) (snd e)) ts) fp acc = Some (p, Join (acc ++ map backend ts) "|").
Proof.
  induction 1 as [|[h p] ts [Hh Hp] _ IH]; intros i fp acc; cbn [map resolve_parts fst snd] in *; [exists fp; by rewrite app_nil_r|].
  destruct (at_host_printable h p Hh Hp) as [Hc Hn]. rewrite TrimSpace_printable by done.
  destruct (String.eqb_spec (at_host h p) ""); [done|]. rewrite resolve_endpoint by done.
  destruct (IH (S i) (if Nat.eqb i 0 then p else fp) (acc ++ [backend (h, p)])) as [q ->]. exists q. by rewrite <- app_assoc.
Qed.

Lemma splitBackends_Join l : l ≠ [] → Forall (λ m, all_chars printable m ∧ m ≠ "" ∧ free "|" m) l →
  Backends.splitBackends (Join l "|") = l.
Proof.
  intros Hl HF. unfold Backends.splitBackends. rewrite Split_Join; [|done|by eapply Forall_impl; [exact HF|intros m (_ & _ & ?)]].
  clear Hl. induction HF as [|m l (Hp & Hn & _) _ IH]; [done|]. cbn [map]. rewrite TrimSpace_printable by done.
  by rewrite filter_cons, decide_True, IH by done.
Qed.

Lemma backends_text ts : Forall (λ e, host_ok (fst e) ∧ is_port (snd e)) ts →
  Forall (λ m, all_chars printable m ∧ m ≠ "" ∧ free "|" m) (map backend ts).
Proof. induction 1 as [|[h p] ts [Hh Hp] _ IH]; constructor; [by apply backend_text|done]. Qed.

Lemma contains_sep x c y : contains_char c (x +:+ String c y) = true.
Proof. induction x as [|z x IH]; cbn; [by rewrite Ascii.eqb_refl|]. rewrite IH. apply orb_true_r. Qed.

Lemma targets_text ts : ts ≠ [] → Forall (λ e, host_ok (fst e) ∧ is_port (snd e)) ts →
  let target := Join (map (λ e, at_host (fst e) (snd e)) ts) "|" in
  all_chars printable target ∧ target ≠ "" ∧ free "=" target ∧ Split target "|" = map (λ e, at_host (fst e) (snd e)) ts.
Proof.
  intros Hn HF. cbv zeta.
  assert (Split (Join (map (λ e, at_host (fst e) (snd e)) ts) "|") "|" = map (λ e, at_host (fst e) (snd e)) ts) as HSp.
  { apply Split_Join; [by destruct ts|]. clear Hn. induction HF as [|[h p] ts [Hh Hp] _ IH]; constructor; [by apply at_host_free|done]. }
  split_and!; [| | |exact HSp]; clear HSp.
  - clear Hn. induction HF as [|[h p] ts [Hh Hp] _ IH]; [constructor|]. destruct ts as [|e ts]; [by apply at_host_printable|].
    cbn [map fst snd] in *. cbn [Join]. apply all_chars_app. split; [by apply at_host_printable|]. apply all_chars_cons. by split.
  - destruct HF as [|[h p] ts [Hh Hp] _]; [done|]. destruct (at_host_printable h p Hh Hp) as [_ Hx].
    destruct ts as [|e ts]; [done|]. cbn [map fst snd Join]. by destruct (at_host h p).
  - clear Hn. induction HF as [|[h p] ts [Hh Hp] _ IH]; [constructor|]. destruct ts as [|e ts]; [by apply at_host_free|].
    cbn [map fst snd] in *. cbn [Join]. apply free_app. split; [by apply at_host_free|]. apply all_chars_cons. by split.
Qed.

(** What a list of backends resolves to. *)
Lemma targets_resolved ts : ts ≠ [] → Forall (λ e, host_ok (fst e) ∧ is_port (snd e)) ts →
  ∃ p, ResolveRemoteAddr (Join (map (λ e, at_host (fst e) (snd e)) ts) "|") = Some (p, Join (map backend ts) "|").
Proof.
  intros Hn HF. destruct (targets_text ts Hn HF) as (_ & _ & _ & HSp). unfold ResolveRemoteAddr.
  destruct (contains_char "|" _) eqn:Ec.
  - rewrite HSp. apply (resolve_list ts HF 0 0 []).
  - destruct ts as [|[h p] [|e ts]]; [done| |].
    + inversion HF as [|? ? [Hh Hp] _]; subst. cbn [map Join fst snd] in *. rewrite resolve_endpoint by done. by exists p.
    + exfalso. rewrite (contains_sep (at_host h p) "|" (Join (map (λ e, at_host (fst e) (snd e)) (e :: ts)) "|") : contains_char _ (Join (map (λ e, at_host (fst e) (snd e)) ((h, p) :: e :: ts)) "|") = true) in Ec. done.
Qed.

Lemma parse_Join l : l ≠ [] → Forall (λ m, all_chars printable m ∧ m ≠ "" ∧ free "|" m) l →
  match Backends.parse (Join l "|") with inl a => [a] | inr m => m end = take Backends.backendMaxMembers l.
Proof.
  intros Hn HF. unfold Backends.parse. rewrite (splitBackends_Join l Hn HF). destruct l as [|a [|b l]]; [done| |].
  - cbn [Join]. by destruct (contains_char _ _).
  - change (Join (a :: b :: l) "|") with (a +:+ "|" +:+ Join (b :: l) "|"). cbn [String.append]. rewrite contains_sep.
    destruct (Nat.ltb_spec Backends.backendMaxMembers (length (a :: b :: l))); [done|]. by rewrite take_ge.
Qed.

Lemma dialled_targets ts : ts ≠ [] → Forall (λ e, host_ok (fst e) ∧ is_port (snd e)) ts →
  let target := Join (map (λ e, at_host (fst e) (snd e)) ts) "|" in
  dialled target = take Backends.backendMaxMembers (map backend ts) ∧ dialled_udp target = head (map backend ts).
Proof.
  intros Hn HF. cbv zeta. destruct (targets_resolved ts Hn HF) as [p E]. unfold dialled, dialled_udp. rewrite E.
  assert (map backend ts ≠ []) as Hb by (by destruct ts). pose proof (backends_text ts HF) as HT.
  split; [by apply parse_Join|]. unfold Backends.firstBackend. rewrite splitBackends_Join by done. by destruct (map backend ts).
Qed.

(** *** The client of the reverse tunnel *)

Lemma dial_member range ops target c a : (∀ m, range m ≡ₚ map_to_list m) → 33 * (Z.of_nat (length ops) + 1) < 2^63 →
  snd (dial range (fold_left (Backends.act range) ops Backends.emptyPool) target c) = Some a → a ∈ dialled target.
Proof.
  intros Hr Hl. unfold dial, dialled. destruct (ResolveRemoteAddr target) as [[p full]|]; [|done]. cbn [snd]. intros [= <-].
  destruct (Backends.parse full) as [x|l] eqn:E; [unfold Backends.pool_pick; rewrite E; by apply list_elem_of_singleton|].
  by apply Backends.pool_pick_member.
Qed.

Lemma dials_turn range target full q l cs : ResolveRemoteAddr target = Some (q, full) → Backends.parse full = inr l →
  ∀ k p, Backends.turned l k p → (k + length cs ≤ length l)%nat →
  dials range p target cs = map Some (take (length cs) (drop k l)).
Proof.
  intros E1 E2. induction cs as [|c cs IH]; intros k p HT Hk; [done|]. cbn [dials length] in *. unfold dial. rewrite E1. cbn [fst snd].
  destruct (Backends.pool_turn range full l k p c.1.1 c.1.2 c.2 E2 HT ltac:(lia)) as [-> HT'].
  destruct (lookup_lt_is_Some_2 l k ltac:(lia)) as [a Ea]. rewrite (drop_S _ _ _ Ea), Ea. cbn [take map default from_option id].
  f_equal. apply IH; [done|lia].
Qed.

(** From the start, one connection after another goes to each in turn. *)
Lemma dials_all range target cs : (length cs ≤ length (dialled target))%nat →
  dials range Backends.emptyPool target cs = map Some (take (length cs) (dialled target)).
Proof.
  unfold dialled. destruct (ResolveRemoteAddr target) as [[q full]|] eqn:E; [|by destruct cs; cbn; [|lia]].
  destruct (Backends.parse full) as [a|l] eqn:Ep; intros Hl.
  - destruct cs as [|c [|? cs]]; [done| |cbn in Hl; lia]. cbn [dials]. unfold dial. rewrite E. unfold Backends.pool_pick. by rewrite Ep.
  - rewrite (dials_turn range target full q l cs E Ep 0 Backends.emptyPool); [done|by left|done].
Qed.

Lemma reverse_reads {B} (g : string → B) (d : list string → B) f :
  (∀ ts, ts ≠ [] → Forall (λ e, host_ok (fst e) ∧ is_port (snd e)) ts → g (Join (map (λ e, at_host (fst e) (snd e)) ts) "|") = d (map backend ts)) →
  form_ok f → map (λ m, (fst m, g (snd m))) (mapping (show f)) = map (λ x, (fst x, d (snd x))) (denote f).
Proof.
  intros HG. destruct f as [h q ts|h a b]; cbn [form_ok show denote].
  - intros (Hh & Hq & Hn & HF). destruct (targets_text ts Hn HF) as (Hp & Hne & Hf & _). pose proof (HG ts Hn HF) as HD.
    set (target := Join _ "|") in *. unfold mapping. cbn [String.append]. rewrite Split_app by (by apply at_host_free).
    rewrite Split_free by done. cbn [length Nat.ltb Nat.leb lookup list_lookup default from_option id].
    rewrite at_host_pre, (expand_pre h q q) by (done || by apply port_span). rewrite range_one, (TrimSpace_printable target) by done.
    cbn [map fst snd addr port]. destruct (String.eqb_spec target ""); [done|]. by rewrite HD.
  - intros (Hh & Ha & Hb & Hab). assert (span_text a b (Itoa a +:+ "-" +:+ Itoa b)) as HS by (split_and!; [done..|lia|lia|by left]).
    rewrite at_host_pre, append_assoc. assert (free "=" (pre h +:+ Itoa a +:+ "-" +:+ Itoa b)) as Hf.
    { apply free_app. split; [by apply pre_free|by eapply span_chars]. }
    unfold mapping. rewrite Split_free by done. cbn [length Nat.ltb Nat.leb lookup list_lookup default from_option id].
    rewrite (expand_pre h a b) by done. rewrite !map_map. apply map_ext_in. intros p Hin%list_elem_of_In. cbn [fst snd addr port]. f_equal.
    assert (is_port p) as Hpt.
    { apply list_elem_of_In, in_map_iff in Hin as (i & <- & Hi%in_seq). unfold is_port in *. lia. }
    apply (HG [(None, p)]); [done|]. constructor; [done|constructor].
Qed.

(** *** The direct and the layer-3 tunnel *)

Lemma JoinHostPort_plain h p : host_ok (Some h) → Net.JoinHostPort h p = h +:+ ":" +:+ p.
Proof.
  intros [_ H]. unfold Net.JoinHostPort. assert (contains_char ":" h = false) as -> by (apply contains_free; by apply host_free). done.
Qed.

Lemma listenAddr_of h r p : host_ok h → Portmap.host r = default "" h → Portmap.hasHost r = negb (String.eqb (default "" h) "") →
  Portmap.listenAddr r p = listener h p.
Proof.
  intros Hh E1 E2. unfold Portmap.listenAddr. rewrite E1, E2. destruct h as [h|]; cbn [default from_option id]; [|done].
  destruct (String.eqb_spec h ""); [by destruct Hh|]. cbn [negb]. by rewrite JoinHostPort_plain.
Qed.

Lemma targetAddr_of h r p : host_ok h → Portmap.host r = default "" h → Portmap.targetAddr r p local_host = Ok (backend (h, p)).
Proof.
  intros Hh E1. unfold Portmap.targetAddr. rewrite E1. destruct h as [h|]; cbn [default from_option id]; [|done].
  destruct (String.eqb_spec h ""); [by destruct Hh|]. by rewrite JoinHostPort_plain.
Qed.

Lemma portmap_endpoint h p : host_ok h → is_port p →
  ∃ r, Portmap.parsePortRange (at_host h p) = Ok r ∧ Portmap.host r = default "" h ∧ Portmap.lo r = p ∧ Portmap.hi r = p ∧
    Portmap.hasHost r = negb (String.eqb (default "" h) "").
Proof. intros Hh Hp. rewrite at_host_pre. apply portmap_range; [done|by apply port_span]. Qed.

Lemma backends_read ts : Forall (λ e, host_ok (fst e) ∧ is_port (snd e)) ts →
  Portmap.backends (map (λ e, at_host (fst e) (snd e)) ts) local_host = Ok (map backend ts).
Proof.
  induction 1 as [|[h p] ts [Hh Hp] _ IH]; cbn [map Portmap.backends fst snd] in *; [done|].
  destruct (portmap_endpoint h p Hh Hp) as (r & -> & E1 & E2 & E3 & _). unfold Portmap.count. rewrite E2, E3.
  destruct (Z.ltb_spec 1 (p - p + 1)); [lia|]. by rewrite (targetAddr_of h), IH.
Qed.

Lemma pairs_read h listen to a b t : host_ok h →
  Portmap.host listen = default "" h → Portmap.hasHost listen = negb (String.eqb (default "" h) "") → Portmap.lo listen = a →
  Portmap.host to = default "" t → host_ok t → Portmap.lo to = b → ∀ n i,
  Portmap.pairs n i listen to local_host =
    Ok (map (λ j, Portmap.mkMapping (listener h (a + i + Z.of_nat j))
      [backend (t, if 1 <? Portmap.count to then b + i + Z.of_nat j else b)]) (seq 0 n)).
Proof.
  intros Hh E1 E2 E3 E4 Ht E5. induction n as [|n IH]; intros i; [done|]. cbn [Portmap.pairs seq map].
  rewrite (targetAddr_of t) by done. rewrite IH, (listenAddr_of h) by done. rewrite E3, E5.
  rewrite <- seq_shift, map_map. cbn [Z.of_nat]. rewrite !Z.add_0_r. apply f_equal, f_equal, map_ext. intros j.
  replace (a + (i + 1) + Z.of_nat j) with (a + i + Z.of_nat (S j)) by lia.
  by replace (b + (i + 1) + Z.of_nat j) with (b + i + Z.of_nat (S j)) by lia.
Qed.

Lemma range_seq a b : range a b = map (λ j, a + Z.of_nat j) (seq 0 (Z.to_nat (b - a + 1))).
Proof. done. Qed.

Lemma entry_reads f : form_ok f →
  Portmap.entry (show f) local_host = Ok (map (λ x, Portmap.mkMapping (fst x) (snd x)) (denote f)).
Proof.
  destruct f as [h q ts|h a b]; cbn [form_ok show denote]; unfold Portmap.entry, Spec.halves.
  - intros (Hh & Hq & Hn & HF). destruct (targets_text ts Hn HF) as (Hp & Hne & Hf & HS).
    pose proof (Cut_app (at_host h q) "=" "" (Join (map (λ e, at_host (fst e) (snd e)) ts) "|") ltac:(by apply at_host_free)) as HC.
    cbn [String.append] in *. rewrite HC. destruct (portmap_endpoint h q Hh Hq) as (r & -> & E1 & E2 & E3 & E4).
    unfold Portmap.expandOne. rewrite HS, length_map.
    assert (Portmap.count r = 1) as Ec by (unfold Portmap.count; lia). rewrite Ec. cbn [Z.ltb Z.compare Pos.compare Pos.compare_cont]. rewrite andb_false_r.
    destruct ts as [|[h1 p1] [|e ts]]; [done| |].
    + cbn [length Nat.ltb Nat.leb map Join fst snd] in *. apply Forall_cons in HF as [[Hh1 Hp1] _]. cbn [fst snd] in *.
      destruct (portmap_endpoint h1 p1 Hh1 Hp1) as (t & -> & T1 & T2 & T3 & T4).
      assert (Portmap.count t = 1) as Et by (unfold Portmap.count; lia). rewrite Et. cbn [Z.ltb Z.compare Pos.compare Pos.compare_cont andb].
      rewrite (pairs_read h r t q p1 h1) by done. rewrite Et. change (Z.to_nat 1) with 1%nat. cbn [seq map Z.of_nat fst snd Z.ltb Z.compare Pos.compare Pos.compare_cont].
      by rewrite !Z.add_0_r.
    + cbn [length Nat.ltb Nat.leb]. rewrite backends_read by done. cbn [map fst snd]. rewrite (listenAddr_of h) by done. by rewrite E2.
  - intros (Hh & Ha & Hb & Hab). assert (span_text a b (Itoa a +:+ "-" +:+ Itoa b)) as HS by (split_and!; [done..|lia|lia|by left]).
    rewrite at_host_pre, append_assoc. rewrite (Cut_none _ "=" "").
    2:{ apply free_app. split; [by apply pre_free|by eapply span_chars]. }
    destruct (portmap_range h a b _ Hh HS) as (r & -> & E1 & E2 & E3 & E4). rewrite E2, E3.
    assert (Portmap.count r = b - a + 1) as Ec by (unfold Portmap.count; lia). rewrite Ec. unfold Portmap.expandOne.
    set (target := if 1 <? b - a + 1 then _ else _).
    assert (span_text a b target) as HT.
    { unfold target. destruct (Z.ltb_spec 1 (b - a + 1)); [done|]. assert (a = b) as -> by lia. by apply port_span. }
    assert (free "|" target) as Hf by (by eapply span_chars). rewrite Split_free by done. cbn [length Nat.ltb Nat.leb andb].
    destruct (portmap_range None a b target I HT) as (t & Et & T1 & T2 & T3 & _). cbn [pre String.append] in Et. rewrite Et.
    assert (Portmap.count t = b - a + 1) as Ect by (unfold Portmap.count; lia). rewrite Ec, Ect, Z.eqb_refl. cbn [negb]. rewrite andb_false_r.
    rewrite (pairs_read h r t a a None) by done. rewrite range_seq, !map_map. f_equal. apply map_ext_in. intros j Hj%in_seq. cbn [fst snd].
    rewrite Ect, !Z.add_0_r. destruct (Z.ltb_spec 1 (b - a + 1)); [done|]. by replace (a + Z.of_nat j) with a by lia.
Qed.



(** Where the readers part, though the documentation says the syntax is one:
    a range to a range is accepted and opened by the reverse tunnel, but each
    of its ports names the whole range as its target and the client refuses
    it; so does the client every IPv6 target; an entry with two [=] is accepted
    and opens nothing; a range bound to an address is refused on entry though
    every tunnel reads it; a wide range is accepted for a layer-3 tunnel that then
    does not start; and of thirty-three backends the client of the reverse tunnel
    never dials the last. *)
Example where_they_part :
  Spec.ValidPortSpec "10000-10001=20000-20001" = true ∧
  Portmap.Expand ["10000-10001=20000-20001"] local_host =
    Ok [Portmap.mkMapping ":10000" ["127.0.0.1:20000"]; Portmap.mkMapping ":10001" ["127.0.0.1:20001"]] ∧
  mapping "10000-10001=20000-20001" = [(":10000", "20000-20001"); (":10001", "20000-20001")] ∧
  ResolveRemoteAddr "20000-20001" = None ∧
  Portmap.Expand ["443=[::1]:80"] local_host = Ok [Portmap.mkMapping ":443" ["[::1]:80"]] ∧
  ResolveRemoteAddr "[::1]:80" = None ∧
  Spec.ValidPortSpec "443=80=81" = true ∧ mapping "443=80=81" = [] ∧
  Spec.ValidPortSpec "85.11.12.13:10000-10001" = false ∧ length (mapping "85.11.12.13:10000-10001") = 2%nat ∧
  Spec.ValidPortSpec "1-65535" = true ∧ is_ok (Portmap.Expand ["1-65535"] local_host) = false ∧
  let many := Join (map (λ n, Itoa (Z.of_nat n)) (seq 1 33)) "|" in
  match Portmap.Expand ["443=" +:+ many] local_host with Ok [m] => length (Portmap.Targets m) | _ => O end = 33%nat ∧ length (dialled many) = 32%nat.
Proof. split_and!; by vm_compute. Qed.

End Readers.
