(* ===== verification/Fleet.v ===== *)
(** The fleet a panel manages:
    - Module [Rollout]: a staged upgrade of every server
      ([internal/node/rollout.go], with the panel's health check and report of
      [internal/webui/rollout.go]);
    - Module [Jobs]: operations that outlive the request that started them
      ([internal/control/job.go]);
    - Module [Desired]: what each server should be running, against what it is
      ([internal/control/desired.go]).

    Errors are the text an operator reads. Durations are seconds. *)

From Stdlib Require Import Ascii String.
From stdpp Require Import sorting.
From S2P Require Import Prelude GoStr GoSort.
Import GoStr GoSort.
Open Scope string_scope.
Open Scope list_scope.
Open Scope Z_scope.

(** What a server says of itself and of its tunnels
    ([internal/node/protocol.go]). *)
Module Protocol.

(** The facts the program acts on; the rest of what a server reports is shown and
    not read. [ServerName] is the name it has in the panel. *)
Record Info : Type := mkInfo { ServerName : string; Hostname : string; Version : string }.

Record TunnelState : Type := mkState {
  Name : string;
  Active : bool;
  Enabled : bool;
  Role : string;
  TunnelPort : string;
  ServiceDown : string;
  Connected : option bool
}.

End Protocol.

Module Rollout.

Definition DefaultSoak : Z := 180.
Definition DefaultWave : Z := 4.
Definition DefaultTolerance : Z := 0.

Record Skip : Type := mkSkip { SName : string; Version : string; Reason : string }.

Record Plan : Type := mkPlan { Canary : string; Waves : list (list string); Skipped : list Skip }.

Definition Total (p : Plan) : Z :=
  fold_left (λ n w, n + zlen w) (Waves p) (if String.eqb (Canary p) "" then 0 else 1).

(** [sort.Slice] by name; the names of a fleet are different. *)
Definition skip_le (a b : Skip) : Prop := str_le (SName a) (SName b).

#[export] Instance skip_le_dec a b : Decision (skip_le a b).
Proof. unfold skip_le. apply _. Defined.

(** The loop over the rest: at least one server goes each round, so the length
    is fuel enough. *)
Fixpoint waves_of (fuel : nat) (wave : nat) (rest : list string) : list (list string) :=
  match fuel, rest with
  | S fuel, _ :: _ => let n := Nat.min wave (length rest) in take n rest :: waves_of fuel wave (drop n rest)
  | _, _ => []
  end.

Definition PlanRollout (names : list string) (wave : Z) (pinned : string → option Skip) : Plan :=
  let wave := if wave <? 1 then DefaultWave else wave in
  let skipped := omap (λ n, option_map (λ s, mkSkip n (Version s) (Reason s)) (pinned n)) names in
  let eligible := Strings (filter (λ n, pinned n = None) names) in
  let skipped := merge_sort skip_le skipped in
  match eligible with
  | [] => mkPlan "" [] skipped
  | c :: rest => mkPlan c (waves_of (length rest) (Z.to_nat wave) rest) skipped
  end.

Record Event : Type := mkEvent { Stage : string; Node : string; Message : string; EErr : option string }.

Record Result : Type := mkResult {
  Upgraded : list string;
  Failed : list string;
  Halted : string;
  Untouched : list string
}.

Definition OK (r : Result) : bool := String.eqb (Halted r) "" && (length (Failed r) =? 0)%nat.

(** A rollout on its way: the result so far, the commentary, and the servers
    [Upgrade] was called for, in order. *)
Record progress : Type := mkProgress { res : Result; events : list Event; tried : list string }.

Definition emit (e : Event) (p : progress) : progress := mkProgress (res p) (events p ++ [e]) (tried p).
Definition set_res (r : Result) (p : progress) : progress := mkProgress r (events p) (tried p).
Definition try (name : string) (p : progress) : progress := mkProgress (res p) (events p) (tried p ++ [name]).

Definition upgraded (name : string) (r : Result) : Result :=
  mkResult (Upgraded r ++ [name]) (Failed r) (Halted r) (Untouched r).
Definition failed (name : string) (r : Result) : Result :=
  mkResult (Upgraded r) (Failed r ++ [name]) (Halted r) (Untouched r).
Definition halted (why : string) (untouched : list string) (r : Result) : Result :=
  mkResult (Upgraded r) (Failed r) why untouched.

Section rollout.
(** What is injected. [Upgrade], [Verify] and the sleep are asked about the
    [k]-th server tried; [stopped k] is whether the context is done once [k]
    servers have been tried. *)
Context (Upgrade : nat → string → option string) (Verify : option (nat → string → option string))
  (sleep : nat → Z → option string) (stopped : nat → bool) (Soak Tolerance : Z).

Definition soak : Z := if Soak <=? 0 then DefaultSoak else Soak.

Definition verify (k : nat) (name : string) : option string :=
  match Verify with Some f => f k name | None => None end.

Definition upgradeOne (k : nat) (name : string) (soak : Z) : option string :=
  match Upgrade k name with
  | Some err => Some err
  | None =>
      match (if 0 <? soak then sleep k soak else None) with
      | Some err => Some ("the soak was interrupted: " +:+ err)
      | None => verify k name
      end
  end.

(** The loop over a wave: the progress, and the servers that failed in it. *)
Fixpoint wave_loop (stage : string) (wave : list string) (p : progress) (bad : list string) : progress * list string :=
  match wave with
  | [] => (p, bad)
  | name :: wave =>
      let r := upgradeOne (length (tried p)) name 0 in
      let p := try name p in
      match r with
      | Some err => wave_loop stage wave (emit (mkEvent stage name "failed" (Some err)) (set_res (failed name (res p)) p)) (bad ++ [name])
      | None => wave_loop stage wave (emit (mkEvent stage name "healthy" None) (set_res (upgraded name (res p)) p)) bad
      end
  end.

Definition halt (why : string) (untouched : list string) (p : progress) : progress :=
  emit (mkEvent "halt" "" why None) (set_res (halted why untouched (res p)) p).

Fixpoint waves_loop (i : nat) (waves : list (list string)) (p : progress) : progress :=
  match waves with
  | [] => emit (mkEvent "done" "" (Itoa (zlen (Upgraded (res p))) +:+ " server(s) upgraded") None) p
  | wave :: rest =>
      let stage := "wave " +:+ Itoa (Z.of_nat i + 2) in
      if stopped (length (tried p)) then halt "the rollout was stopped" (concat (wave :: rest)) p
      else
        let p := emit (mkEvent stage "" ("upgrading " +:+ Itoa (zlen wave) +:+ " server(s)") None) p in
        let '(p, bad) := wave_loop stage wave p [] in
        if Tolerance <? zlen bad then
          halt (stage +:+ ": " +:+ Itoa (zlen bad) +:+ " server(s) failed (" +:+ Join bad ", " +:+
            "), which is past the tolerance of " +:+ Itoa Tolerance) (concat rest) p
        else waves_loop (S i) rest p
  end.

Definition Run (plan : Plan) : progress :=
  let p := mkProgress (mkResult [] [] "" []) [] [] in
  match Verify with
  | None =>
      halt "this rollout cannot check whether a server came back, so it will not stage one"
        (Canary plan :: concat (Waves plan)) p
  | Some _ =>
      if String.eqb (Canary plan) "" then waves_loop 0 (Waves plan) p
      else
        let c := Canary plan in
        let r := upgradeOne 0 c soak in
        let p := try c (emit (mkEvent "canary" c "upgrading" None) p) in
        match r with
        | Some err =>
            let why := "the canary " +:+ c +:+ " did not come back: " +:+ err in
            emit (mkEvent "halt" c why (Some err)) (set_res (halted why (concat (Waves plan)) (failed c (res p))) p)
        | None => waves_loop 0 (Waves plan) (emit (mkEvent "canary" c "healthy" None) (set_res (upgraded c (res p)) p))
        end
  end.

(** ** Lemmas *)

Definition nodes (p : Plan) : list string := (if String.eqb (Canary p) "" then [] else [Canary p]) ++ concat (Waves p).

(** What holds of a rollout on its way: every server tried is told where it
    ended, by what its own attempt gave. *)
Record told (p : progress) : Prop := {
  told_all : Upgraded (res p) ++ Failed (res p) ≡ₚ tried p;
  told_up : ∀ x, x ∈ Upgraded (res p) → ∃ k, tried p !! k = Some x ∧ ∃ s, (s = 0 ∨ s = soak) ∧ upgradeOne k x s = None;
  told_down : ∀ x, x ∈ Failed (res p) → ∃ k, tried p !! k = Some x ∧ ∃ s e, (s = 0 ∨ s = soak) ∧ upgradeOne k x s = Some e;
}.

Lemma told_emit e p : told p → told (emit e p).
Proof. by intros []. Qed.

Lemma told_halt why u p : told p → told (halt why u p).
Proof. by intros []. Qed.

Lemma told_try name s p :
  told p → (s = 0 ∨ s = soak) →
  told (match upgradeOne (length (tried p)) name s with
        | Some _ => set_res (failed name (res (try name p))) (try name p)
        | None => set_res (upgraded name (res (try name p))) (try name p)
        end).
Proof.
  intros [Ha Hu Hd] Hs.
  assert (∀ x k, tried p !! k = Some x → (tried p ++ [name]) !! k = Some x) as Hk by (intros x k H; by apply lookup_app_l_Some).
  assert ((tried p ++ [name]) !! length (tried p) = Some name) as Hl by (by rewrite lookup_app_r, Nat.sub_diag by done).
  destruct (upgradeOne (length (tried p)) name s) as [e|] eqn:E; split; cbn [res tried set_res failed upgraded try Upgraded Failed].
  - by rewrite app_assoc, Ha.
  - intros x (k & H & H')%Hu. exists k. split; [by apply Hk|done].
  - intros x [(k & H & H')%Hd|Hx]%elem_of_app; [exists k; split; [by apply Hk|done]|]. apply list_elem_of_singleton in Hx as ->.
    exists (length (tried p)). split; [done|]. by exists s, e.
  - rewrite <- app_assoc, (Permutation_app_comm [name]), app_assoc. by rewrite Ha.
  - intros x [(k & H & H')%Hu|Hx]%elem_of_app; [exists k; split; [by apply Hk|done]|]. apply list_elem_of_singleton in Hx as ->.
    exists (length (tried p)). split; [done|]. by exists s.
  - intros x (k & H & H')%Hd. exists k. split; [by apply Hk|done].
Qed.

Lemma wave_loop_spec stage wave : ∀ p bad, told p →
  let x := wave_loop stage wave p bad in
  told (fst x) ∧ tried (fst x) = tried p ++ wave ∧ Halted (res (fst x)) = Halted (res p) ∧ Untouched (res (fst x)) = Untouched (res p) ∧
  (length (Failed (res (fst x))) + length bad = length (Failed (res p)) + length (snd x))%nat ∧
  (length (snd x) ≤ length bad + length wave)%nat.
Proof.
  induction wave as [|name wave IH]; intros p bad Hp; cbv zeta; cbn [wave_loop fst snd].
  { rewrite app_nil_r. split_and!; (done || lia). }
  pose proof (told_try name 0 p Hp (or_introl eq_refl)) as HT.
  destruct (upgradeOne (length (tried p)) name 0) as [e|].
  - destruct (IH (emit (mkEvent stage name "failed" (Some e)) (set_res (failed name (res (try name p))) (try name p))) (bad ++ [name]) (told_emit _ _ HT)) as (H1 & H2 & H3 & H4 & H5 & H6).
    split_and!; [done| |done|done| |].
    + rewrite H2. cbn. by rewrite <- app_assoc.
    + cbn in H5 |- *. rewrite !length_app in H5. cbn in H5. lia.
    + rewrite length_app in H6. cbn in H6 |- *. lia.
  - destruct (IH (emit (mkEvent stage name "healthy" None) (set_res (upgraded name (res (try name p))) (try name p))) bad (told_emit _ _ HT)) as (H1 & H2 & H3 & H4 & H5 & H6).
    split_and!; [done| |done|done| |].
    + rewrite H2. cbn. by rewrite <- app_assoc.
    + cbn in H5 |- *. lia.
    + cbn in H6 |- *. lia.
Qed.

(** The waves, from any point: the servers tried and those left are the plan's,
    in its order, and all but the last wave stayed within the tolerance. *)
Lemma waves_loop_spec waves w : 0 ≤ Tolerance → Forall (λ l, (length l ≤ w)%nat) waves → ∀ i p, told p → Halted (res p) = "" → Untouched (res p) = [] →
  let q := waves_loop i waves p in
  told q ∧ tried q ++ Untouched (res q) = tried p ++ concat waves ∧ (Halted (res q) = "" → Untouched (res q) = []) ∧
  Z.of_nat (length (Failed (res q))) ≤ Z.of_nat (length (Failed (res p))) + Tolerance * zlen waves + Z.of_nat w.
Proof.
  intros HT. induction 1 as [|wave rest Hw _ IH]; intros i p Hp Hh Hu; cbv zeta; cbn [waves_loop].
  { split_and!; [by apply told_emit|cbn; by rewrite Hu|done|]. cbn. rewrite Z.mul_0_r. lia. }
  assert (0 ≤ Tolerance * zlen rest) as HTr by (unfold zlen; nia).
  assert (zlen (wave :: rest) = zlen rest + 1) as Ez by (unfold zlen; cbn [length]; lia). rewrite Ez.
  destruct (stopped _).
  { split_and!; [by apply told_halt|done|done|cbn; lia]. }
  set (p1 := emit _ p). assert (told p1) as Hp1 by (by apply told_emit).
  destruct (wave_loop_spec ("wave " +:+ Itoa (Z.of_nat i + 2)) wave p1 [] Hp1) as (H1 & H2 & H3 & H4 & H5 & H6).
  destruct (wave_loop _ wave p1 []) as [q bad]. cbn [fst snd length] in *.
  assert (tried p1 = tried p ∧ Failed (res p1) = Failed (res p) ∧ Halted (res p1) = Halted (res p) ∧ Untouched (res p1) = Untouched (res p)) as (E1 & E2 & E3 & E4) by done.
  rewrite E1, E2, E3, E4 in *. destruct (Z.ltb_spec Tolerance (zlen bad)) as [Hb|Hb].
  - split_and!; [by apply told_halt| |done|cbn; unfold zlen in *; lia].
    cbn. rewrite H2. by rewrite <- app_assoc.
  - destruct (IH (S i) q H1) as (K1 & K2 & K3 & K4); [congruence|congruence|]. split_and!; [done| |done|unfold zlen in *; lia].
    rewrite K2, H2. cbn [concat]. by rewrite <- app_assoc.
Qed.

Lemma upgradeOne_healthy k x s : upgradeOne k x s = None → Upgrade k x = None ∧ verify k x = None.
Proof. unfold upgradeOne. destruct (Upgrade k x); [done|]. by destruct (if 0 <? s then sleep k s else None). Qed.

Lemma told_upgraded p x : told p → x ∈ Upgraded (res p) → ∃ k, tried p !! k = Some x ∧ Upgrade k x = None ∧ verify k x = None.
Proof. intros [_ Hu _] (k & H & s & _ & H')%Hu. exists k. split; [done|]. by eapply upgradeOne_healthy. Qed.

Lemma told_failed p x : told p → x ∈ Failed (res p) → ∃ k s e, tried p !! k = Some x ∧ upgradeOne k x s = Some e.
Proof. intros [_ _ Hd] (k & H & s & e & _ & H')%Hd. by exists k, s, e. Qed.

Lemma Run_spec plan w : 0 ≤ Tolerance → is_Some Verify → Forall (λ l, (length l ≤ w)%nat) (Waves plan) →
  let p := Run plan in
  told p ∧ tried p ++ Untouched (res p) = nodes plan ∧
  (Canary plan ≠ "" → is_Some (upgradeOne 0 (Canary plan) soak) → tried p = [Canary plan]) ∧
  Z.of_nat (length (Failed (res p))) ≤ 1 + Tolerance * zlen (Waves plan) + Z.of_nat w ∧
  (Halted (res p) = "" → Untouched (res p) = []).
Proof.
  intros HT [V HV] HW. cbv zeta.
  assert (0 ≤ Tolerance * zlen (Waves plan)) as HTw by (unfold zlen; nia).
  unfold Run, nodes. rewrite HV. set (p0 := mkProgress _ _ _). assert (told p0) as H0 by (split; cbn; [done|intros ? []%elem_of_nil..]).
  destruct (String.eqb_spec (Canary plan) "") as [E|E].
  - destruct (waves_loop_spec (Waves plan) w HT HW 0 p0 H0) as (H1 & H2 & H3 & H4); [done|done|].
    split_and!; [exact H1|exact H2|done|cbn in H4 |- *; lia|exact H3].
  - pose proof (told_try (Canary plan) soak (emit (mkEvent "canary" (Canary plan) "upgrading" None) p0) (told_emit _ _ H0) (or_intror eq_refl)) as HTr.
    change (length (tried (emit _ p0))) with 0%nat in HTr.
    destruct (upgradeOne 0 (Canary plan) soak) as [e|] eqn:Eu.
    + destruct HTr as [Ha Hu Hd]. cbn in Ha, Hu, Hd.
      split_and!; [by split|done|done|cbn; lia|done].
    + destruct (waves_loop_spec (Waves plan) w HT HW 0 _ (told_emit (mkEvent "canary" (Canary plan) "healthy" None) _ HTr)) as (H1 & H2 & H3 & H4); [done|done|].
      split_and!; [exact H1|exact H2|by intros _ [? ?]|cbn in H4 |- *; lia|exact H3].
Qed.

(** C20: a rollout contains its damage and accounts for every server. Servers
    are tried in the order of the plan, each once, and those it did not come to
    are named as untouched; a server tried is reported as upgraded if its own
    upgrade and check succeeded, and as failed if not. If the canary fails
    nothing else is tried. No more servers fail than the tolerance for each wave
    and one wave more; and it stops early only with a reason. *)
Theorem rollout_contained plan w : 0 ≤ Tolerance → is_Some Verify → Forall (λ l, (length l ≤ w)%nat) (Waves plan) →
  let p := Run plan in
  tried p ++ Untouched (res p) = nodes plan ∧ Upgraded (res p) ++ Failed (res p) ≡ₚ tried p ∧
  (∀ x, x ∈ Upgraded (res p) → ∃ k, tried p !! k = Some x ∧ Upgrade k x = None ∧ verify k x = None) ∧
  (∀ x, x ∈ Failed (res p) → ∃ k s e, tried p !! k = Some x ∧ upgradeOne k x s = Some e) ∧
  (Canary plan ≠ "" → is_Some (upgradeOne 0 (Canary plan) soak) → tried p = [Canary plan]) ∧
  Z.of_nat (length (Failed (res p))) ≤ 1 + Tolerance * zlen (Waves plan) + Z.of_nat w ∧
  (Halted (res p) = "" → Untouched (res p) = []).
Proof.
  intros HT HV HW p. destruct (Run_spec plan w HT HV HW) as (H1 & H2 & H3 & H4 & H5).
  split_and!; [done|by destruct H1| | |done..].
  - intros x. by apply told_upgraded.
  - intros x. by apply told_failed.
Qed.

End rollout.

Lemma rollout_contained_witness :
  let p := Run (λ _ _, None) (Some (λ _ n, if String.eqb n "b" then Some "no peer" else None)) (λ _ _, None) (λ _, false) 0 0
    (PlanRollout ["d"; "a"; "c"; "b"] 2 (λ n, if String.eqb n "d" then Some (mkSkip "" "v1" "migrating") else None)) in
  tried p = ["a"; "b"; "c"] ∧ Upgraded (res p) = ["a"; "c"] ∧ Failed (res p) = ["b"] ∧
  Z.of_nat (length (Failed (res p))) ≤ 3 + 1.
Proof.
  intros p. split_and!; [by vm_compute..|].
  pose proof (rollout_contained (λ _ _, None) (Some (λ _ n, if String.eqb n "b" then Some "no peer" else None)) (λ _ _, None) (λ _, false) 0 0
    (PlanRollout ["d"; "a"; "c"; "b"] 2 (λ n, if String.eqb n "d" then Some (mkSkip "" "v1" "migrating") else None)) 2) as H.
  destruct H as (_ & _ & _ & _ & _ & H & _); [lia|done| |etransitivity; [exact H|by vm_compute]].
  apply (bool_decide_unpack _). by vm_compute.
Defined.

(** ** The plan *)

Lemma waves_of_spec wave : (0 < wave)%nat → ∀ fuel rest, (length rest ≤ fuel)%nat →
  concat (waves_of fuel wave rest) = rest ∧ Forall (λ l, l ≠ [] ∧ (length l ≤ wave)%nat) (waves_of fuel wave rest).
Proof.
  intros Hw. induction fuel as [|fuel IH]; intros rest Hr.
  { destruct rest; [done|cbn in Hr; lia]. }
  destruct rest as [|x rest]; [done|]. cbn [waves_of]. set (n := Nat.min wave (length (x :: rest))).
  assert (1 ≤ n ≤ length (x :: rest))%nat as Hn by (unfold n; cbn [length] in *; lia).
  destruct (IH (drop n (x :: rest))) as [H1 H2]; [rewrite length_drop; lia|]. split.
  - cbn [concat]. rewrite H1. apply take_drop.
  - constructor; [|done]. split; [destruct n; [lia|done]|]. rewrite length_take. unfold n. lia.
Qed.

(** The plan takes every server that is not pinned, and no other, once. The
    canary is the first by name, the waves after it are in order of name, none
    is empty and none larger than asked; every pinned server is listed with
    what holds it. *)
Theorem plan_complete names wave pinned : (∀ n, n ∈ names → n ≠ "") →
  let plan := PlanRollout names wave pinned in
  nodes plan = Strings (filter (λ n, pinned n = None) names) ∧
  Forall (λ l, l ≠ [] ∧ zlen l ≤ (if wave <? 1 then DefaultWave else wave)) (Waves plan) ∧
  (Canary plan = "" → nodes plan = []) ∧
  Total plan = zlen (filter (λ n, pinned n = None) names) ∧
  map SName (Skipped plan) ≡ₚ filter (λ n, pinned n ≠ None) names ∧
  ∀ s, s ∈ Skipped plan → ∃ k, pinned (SName s) = Some k ∧ Version k = Version s ∧ Reason k = Reason s.
Proof.
  intros Hne. cbv zeta. unfold PlanRollout. set (w := if wave <? 1 then DefaultWave else wave).
  assert (1 ≤ w) as Hw by (unfold w, DefaultWave; destruct (Z.ltb_spec wave 1); lia).
  set (elig := Strings _). set (sk := merge_sort skip_le _).
  assert (zlen elig = zlen (filter (λ n, pinned n = None) names)) as EL.
  { unfold zlen, elig. by rewrite (Permutation_length (Strings_Permutation (filter (λ n, pinned n = None) names))). }
  assert (sk ≡ₚ omap (λ n, option_map (λ s, mkSkip n (Version s) (Reason s)) (pinned n)) names) as HP by apply merge_sort_Permutation.
  assert (map SName sk ≡ₚ filter (λ n, pinned n ≠ None) names ∧
    ∀ s, s ∈ sk → ∃ k, pinned (SName s) = Some k ∧ Version k = Version s ∧ Reason k = Reason s) as [HS1 HS2].
  { split.
    - rewrite HP. clear. induction names as [|n names IH]; [done|]. cbn [omap list_omap]. rewrite filter_cons.
      destruct (pinned n) as [s|]; cbn [option_map]; [rewrite decide_True by done; cbn [map SName]; by rewrite IH|].
      rewrite decide_False by (intros H; by apply H). exact IH.
    - intros s. rewrite HP. intros (n & _ & Hs)%list_elem_of_omap. destruct (pinned n) as [k|] eqn:E; [|done]. injection Hs as <-. by exists k. }
  assert (∀ (ws : list (list string)) (n : Z), fold_left (λ n w, n + zlen w) ws n = n + zlen (concat ws)) as HF.
  { induction ws as [|l ws IH]; intros n; cbn [fold_left concat]; [unfold zlen; cbn; lia|]. rewrite IH, zlen_app. lia. }
  destruct elig as [|c rest] eqn:Ee.
  - by split_and!.
  - destruct (waves_of_spec (Z.to_nat w) ltac:(lia) (length rest) rest ltac:(done)) as [H1 H2].
    assert (c ≠ "") as Hc.
    { apply Hne. assert (c ∈ elig) as Hin by (rewrite Ee; apply list_elem_of_here). unfold elig in Hin. apply Strings_elem, list_elem_of_filter in Hin. tauto. }
    unfold nodes, Total. cbn [Canary Waves Skipped]. destruct (String.eqb_spec c ""); [done|]. split_and!; try done.
    + cbn [app]. by rewrite H1.
    + eapply Forall_impl; [exact H2|]. intros l [? ?]. split; [done|]. unfold zlen. lia.
    + rewrite HF, H1. rewrite <- EL. unfold zlen. cbn [length]. lia.
Qed.

Lemma plan_complete_witness :
  let plan := PlanRollout ["d"; "a"; "c"; "b"] 2 (λ n, if String.eqb n "d" then Some (mkSkip "" "v1" "migrating") else None) in
  nodes plan = ["a"; "b"; "c"] ∧ map SName (Skipped plan) ≡ₚ ["d"].
Proof.
  intros plan. split; [by vm_compute|].
  apply (plan_complete ["d"; "a"; "c"; "b"] 2 (λ n, if String.eqb n "d" then Some (mkSkip "" "v1" "migrating") else None)).
  intros n Hn ->. by repeat (apply elem_of_cons in Hn as [Hn|Hn]; [discriminate Hn|]); apply elem_of_nil in Hn.
Defined.

(** ** The panel's health check and its report *)

(** [strings.TrimRight (s, newline)]. *)
Fixpoint trim_newlines (s : string) : string :=
  match s with
  | "" => ""
  | String c s =>
      match trim_newlines s with
      | "" => if Ascii.eqb c "010" then "" else String c ""
      | t => String c t
      end
  end.

Definition newline : string := String "010" "".

Definition describeRollout (r : Result) : string :=
  if OK r then Itoa (zlen (Upgraded r)) +:+ " server(s) upgraded."
  else
    let line (what : string) (l : list string) := if (0 <? length l)%nat then what +:+ Join l ", " +:+ newline else "" in
    trim_newlines (
      (if String.eqb (Halted r) "" then "" else "Rollout halted: " +:+ Halted r +:+ newline) +:+
      line "On the new version: " (Upgraded r) +:+
      line "Failed (each rolled itself back): " (Failed r) +:+
      line "Not attempted, still on the old version: " (Untouched r)).

(** What a runner answers for a server: who it is, and what it is running. *)
Record Runner : Type := mkRunner {
  hello : string → result string Protocol.Info;
  list_tunnels : string → result string (list Protocol.TunnelState)
}.

(** The three ways a tunnel is not back. *)
Record faults : Type := mkFaults { down : list string; unpaired : list string; deliverNil : list string }.

Definition inspect (f : faults) (t : Protocol.TunnelState) : faults :=
  if negb (Protocol.Enabled t) then f
  else if negb (Protocol.Active t) then mkFaults (down f ++ [Protocol.Name t]) (unpaired f) (deliverNil f)
  else if match Protocol.Connected t with Some c => negb c | None => false end then
    mkFaults (down f) (unpaired f ++ [Protocol.Name t]) (deliverNil f)
  else if negb (String.eqb (Protocol.ServiceDown t) "") then
    mkFaults (down f) (unpaired f) (deliverNil f ++ [Protocol.Name t +:+ " (" +:+ Protocol.ServiceDown t +:+ ")"])
  else f.

(** The error, if any, and what is noted of the server in the registry. *)
Definition verifyNode (run : option Runner) (name : string) : option string * option Protocol.Info :=
  match run with
  | None => (Some "managed servers are turned off", None)
  | Some run =>
      match hello run name with
      | Err e => (Some (name +:+ " did not answer after the upgrade: " +:+ e), None)
      | Ok info =>
          (match list_tunnels run name with
           | Err e => Some (name +:+ " answered but would not say what it is running: " +:+ e)
           | Ok tunnels =>
               let f := fold_left inspect tunnels (mkFaults [] [] []) in
               if (0 <? length (down f))%nat then
                 Some (name +:+ " answered but " +:+ Itoa (zlen (down f)) +:+ " tunnel(s) did not come back: " +:+ Join (down f) ", ")
               else if (0 <? length (unpaired f))%nat then
                 Some (name +:+ " answered and " +:+ Itoa (zlen (unpaired f)) +:+ " tunnel(s) are running without a peer: " +:+ Join (unpaired f) ", ")
               else if (0 <? length (deliverNil f))%nat then
                 Some (name +:+ " answered and " +:+ Itoa (zlen (deliverNil f)) +:+ " tunnel(s) are up but delivering into nothing: " +:+ Join (deliverNil f) ", ")
               else None
           end, Some info)
      end
  end.

(** A server that is back: every tunnel meant to run does, has its peer unless
    the server is too old to say, and delivers to a service. *)
Definition carries (t : Protocol.TunnelState) : Prop :=
  Protocol.Enabled t = true →
  Protocol.Active t = true ∧ Protocol.Connected t ≠ Some false ∧ Protocol.ServiceDown t = "".

Definition quiet (f : faults) : Prop := down f = [] ∧ unpaired f = [] ∧ deliverNil f = [].

Lemma inspect_quiet f t : quiet (inspect f t) ↔ quiet f ∧ carries t.
Proof.
  unfold quiet, inspect, carries.
  destruct (Protocol.Enabled t), (Protocol.Active t), (Protocol.Connected t) as [[]|], (String.eqb_spec (Protocol.ServiceDown t) "") as [E|E];
    cbn [negb down unpaired deliverNil]; rewrite ?app_nil; naive_solver.
Qed.

Lemma inspect_all l : ∀ f, quiet (fold_left inspect l f) ↔ quiet f ∧ Forall carries l.
Proof.
  induction l as [|t l IH]; intros f; cbn [fold_left]; [naive_solver|].
  rewrite IH, inspect_quiet, Forall_cons. tauto.
Qed.

Lemma verify_healthy run name :
  fst (verifyNode run name) = None ↔
  ∃ r info l, run = Some r ∧ hello r name = Ok info ∧ list_tunnels r name = Ok l ∧ Forall carries l.
Proof.
  unfold verifyNode. destruct run as [r|]; [|split; [done|by intros (? & ? & ? & ? & _)]].
  destruct (hello r name) as [info|e] eqn:Eh; [|split; [done|intros (? & ? & ? & [= <-] & ? & ? & ?); congruence]].
  destruct (list_tunnels r name) as [l|e] eqn:El; cbn [fst]; [|split; [done|intros (? & ? & ? & [= <-] & ? & ? & ?); congruence]].
  assert (quiet (fold_left inspect l (mkFaults [] [] [])) ↔ Forall carries l) as HQ by (rewrite inspect_all; unfold quiet; naive_solver).
  destruct (fold_left inspect l _) as [d u n]. unfold quiet in HQ. cbn [down unpaired deliverNil] in *.
  split.
  - intros H. exists r, info, l. split_and!; try done. apply HQ.
    destruct d; [|done]. destruct u; [|done]. by destruct n.
  - intros (r' & i' & l' & [= <-] & _ & E & HF). assert (l' = l) as -> by congruence.
    apply HQ in HF as (-> & -> & ->). done.
Qed.

(** A server is reported as upgraded only if, asked after its own upgrade, it
    said who it is and that every tunnel meant to run is running, with its peer
    if it can tell, and delivering to a service. *)
Theorem upgraded_carries Upgrade (runs : nat → option Runner) sleep stopped Soak Tolerance plan w :
  0 ≤ Tolerance → Forall (λ l, (length l ≤ w)%nat) (Waves plan) →
  let p := Run Upgrade (Some (λ k name, fst (verifyNode (runs k) name))) sleep stopped Soak Tolerance plan in
  ∀ x, x ∈ Upgraded (res p) →
  ∃ k r info l, tried p !! k = Some x ∧ Upgrade k x = None ∧ runs k = Some r ∧ hello r x = Ok info ∧
    list_tunnels r x = Ok l ∧ Forall carries l.
Proof.
  intros HT HW p x Hx. destruct (Run_spec Upgrade (Some (λ k name, fst (verifyNode (runs k) name))) sleep stopped Soak Tolerance plan w HT ltac:(done) HW) as (H1 & _).
  destruct (told_upgraded _ _ _ _ _ x H1 Hx) as (k & Hk & HU & HV). apply verify_healthy in HV as (r & info & l & ?).
  exists k, r, info, l. tauto.
Qed.

Definition demo_runner : Runner := mkRunner
  (λ _, Ok (Protocol.mkInfo "" "host" "v2"))
  (λ n, Ok [Protocol.mkState "t1" true true "client" "443" "" (if String.eqb n "b" then Some false else None)]).

Lemma upgraded_carries_witness :
  let p := Run (λ _ _, None) (Some (λ _ name, fst (verifyNode (Some demo_runner) name))) (λ _ _, None) (λ _, false) 0 0
    (mkPlan "a" [["b"; "c"]; ["d"]] []) in
  Upgraded (res p) = ["a"; "c"] ∧ Failed (res p) = ["b"] ∧ Untouched (res p) = ["d"] ∧
  ∃ k r info l, tried p !! k = Some "c" ∧ (None : option string) = None ∧ Some demo_runner = Some r ∧ hello r "c" = Ok info ∧
    list_tunnels r "c" = Ok l ∧ Forall carries l.
Proof.
  intros p. split_and!; [by vm_compute..|].
  apply (upgraded_carries (λ _ _, None) (λ _, Some demo_runner) (λ _ _, None) (λ _, false) 0 0 (mkPlan "a" [["b"; "c"]; ["d"]] []) 2).
  - lia.
  - apply (bool_decide_unpack _). by vm_compute.
  - apply (bool_decide_unpack _). by vm_compute.
Defined.

End Rollout.

Module Jobs.

Inductive state : Type := Running | Succeeded | Failed | Cancelled.

#[export] Instance state_eq_dec : EqDecision state.
Proof. solve_decision. Defined.

Definition Done (s : state) : bool := negb (bool_decide (s = Running)).

Section jobs.
(** [A] is what operations produce: Go's [any], a nil one being [None]. *)
Context {A : Type}.

Record Job : Type := mkJob {
  ID : string;
  Kind : string;
  Target : string;
  State : state;
  Step : string;
  Started : Z;
  Ended : option Z;
  Result : option A;
  Err : string
}.

(** The registry, behind its mutex. A live entry's [cancel] is the job's context,
    held in [world] below. *)
Record Jobs : Type := mkJobs {
  live : gmap string Job;
  byKind : gmap string string;
  history : list Job;
  keep : nat;
  seq : Z
}.

Definition NewJobs : Jobs := mkJobs ∅ ∅ [] 50 0.

Inductive outcome : Type := StartedJob (j : Job) | ErrBusy (running : Job) | Panicked.

(** The part of [Start] before the goroutine; [now] is [j.now ()]. *)
Definition Start (js : Jobs) (kind target : string) (now : Z) : Jobs * outcome :=
  match byKind js !! kind with
  | Some id => (js, match live js !! id with Some job => ErrBusy job | None => Panicked end)
  | None =>
      let seq := seq js + 1 in
      let id := kind +:+ "-" +:+ Itoa seq in
      let job := mkJob id kind target Running "" now None None "" in
      (mkJobs (<[id := job]> (live js)) (<[kind := id]> (byKind js)) (history js) (keep js) seq, StartedJob job)
  end.

Definition ended (job : Job) (now : Z) (result : option A) (err : option string) (cancelled : bool) : Job :=
  mkJob (ID job) (Kind job) (Target job)
    (if cancelled then Cancelled else match err with Some _ => Failed | None => Succeeded end)
    (Step job) (Started job) (Some now) result
    (if cancelled then "" else match err with Some e => e | None => Err job end).

(** [history[len(history)-keep:]]. *)
Definition trim (n : nat) (l : list Job) : list Job := if (n <? length l)%nat then drop (length l - n) l else l.

Definition finish (js : Jobs) (id : string) (now : Z) (result : option A) (err : option string) (cancelled : bool) : Jobs :=
  match live js !! id with
  | None => js
  | Some job =>
      let job := ended job now result err cancelled in
      mkJobs (delete id (live js))
        (if bool_decide (byKind js !! Kind job = Some id) then delete (Kind job) (byKind js) else byKind js)
        (trim (keep js) (history js ++ [job])) (keep js) (seq js)
  end.

Definition set_step (job : Job) (text : string) : Job :=
  mkJob (ID job) (Kind job) (Target job) (State job) text (Started job) (Ended job) (Result job) (Err job).

Definition step (js : Jobs) (id text : string) : Jobs :=
  mkJobs (alter (λ job, set_step job text) id (live js)) (byKind js) (history js) (keep js) (seq js).

(** The newest finished job that satisfies [P]. *)
Definition newest (P : Job → bool) (l : list Job) : option Job := head (filter (λ job, P job = true) (reverse l)).

Definition Get (js : Jobs) (id : string) : option Job :=
  match live js !! id with Some job => Some job | None => newest (λ job, String.eqb (ID job) id) (history js) end.

(** A kind that names a job no longer live would read a nil entry. *)
Definition Current (js : Jobs) (kind : string) : option Job := id ← byKind js !! kind; live js !! id.

Definition Latest (js : Jobs) (kind : string) : option Job :=
  match Current js kind with Some job => Some job | None => newest (λ job, String.eqb (Kind job) kind) (history js) end.

Definition History (js : Jobs) (kind : string) (limit : Z) : list Job :=
  let l := filter (λ job, (kind = "" ∨ Kind job = kind)) (reverse (history js)) in
  if 0 <? limit then take (Z.to_nat limit) l else l.

Definition ResultOf {T} (cast : A → option T) (job : Job) : option T :=
  if bool_decide (State job = Succeeded) then Result job ≫= cast else None.

(** ** The registry at work

    A goroutine for each job started: in its work, or on its way into [finish]
    with [ctx.Err() != nil] as it read it. *)
Inductive goroutine : Type := Working | Finishing (result : option A) (err : option string) (cancelled : bool).

(** [done] are the contexts cancelled on their own, [stopped] is the panel's. *)
Record world : Type := mkWorld {
  jobs : Jobs;
  done : gset string;
  stopped : bool;
  procs : gmap string goroutine
}.

Definition init : world := mkWorld NewJobs ∅ false ∅.

(** [Return] is the work returning; [Stop] is the panel's own context. *)
Inductive event : Type :=
  | StartE (kind target : string) (now : Z)
  | StepE (id text : string)
  | CancelE (id : string)
  | Stop
  | Return (id : string) (result : option A) (err : option string)
  | Finish (id : string) (now : Z).

Definition Cancel (w : world) (id : string) : world * bool :=
  match live (jobs w) !! id with
  | Some _ => (mkWorld (jobs w) (done w ∪ {[id]}) (stopped w) (procs w), true)
  | None => (w, false)
  end.

Definition run (w : world) (e : event) : world :=
  match e with
  | StartE kind target now =>
      match Start (jobs w) kind target now with
      | (js, StartedJob job) => mkWorld js (done w) (stopped w) (<[ID job := Working]> (procs w))
      | (js, _) => mkWorld js (done w) (stopped w) (procs w)
      end
  | StepE id text => mkWorld (step (jobs w) id text) (done w) (stopped w) (procs w)
  | CancelE id => fst (Cancel w id)
  | Stop => mkWorld (jobs w) (done w) true (procs w)
  | Return id result err =>
      match procs w !! id with
      | Some Working =>
          mkWorld (jobs w) (done w) (stopped w)
            (<[id := Finishing result err (stopped w || bool_decide (id ∈ done w))]> (procs w))
      | _ => w
      end
  | Finish id now =>
      match procs w !! id with
      | Some (Finishing result err cancelled) =>
          mkWorld (finish (jobs w) id now result err cancelled) (done w ∪ {[id]}) (stopped w) (delete id (procs w))
      | _ => w
      end
  end.

Definition runs (es : list event) : world := fold_left run es init.

(** ** Lemmas *)

Definition numbered (kind id : string) (n : Z) : Prop := 0 < n ∧ id = kind +:+ "-" +:+ Itoa n.

Lemma numbered_inj k k' id n m : n < 2^63 → m < 2^63 → numbered k id n → numbered k' id m → k = k' ∧ n = m.
Proof.
  intros Hn Hm [? ->] [? E].
  assert (∀ x, 0 < x → all_chars (λ c, negb (Ascii.eqb c "-")) (Itoa x)) as HF.
  { intros x Hx. rewrite Itoa_nonneg by lia. eapply all_chars_impl; [|by apply FormatUint_digits; lia].
    intros c Hc. apply negb_true_iff. by destruct (Ascii.eqb_spec c "-") as [->|]. }
  pose proof (cut_last_app "-" k (Itoa n) (HF n ltac:(lia))) as C1.
  pose proof (cut_last_app "-" k' (Itoa m) (HF m ltac:(lia))) as C2.
  change (k +:+ "-" +:+ Itoa n) with (k +:+ String "-" (Itoa n)) in E. change (k' +:+ "-" +:+ Itoa m) with (k' +:+ String "-" (Itoa m)) in E.
  rewrite E, C2 in C1. injection C1 as -> Ei. split; [done|].
  pose proof (Atoi_Itoa n ltac:(lia)) as A1. pose proof (Atoi_Itoa m ltac:(lia)) as A2. congruence.
Qed.

(** What holds of the registry and its goroutines between steps. *)
Record ok (w : world) : Prop := {
  ok_live : ∀ id job, live (jobs w) !! id = Some job →
    ID job = id ∧ State job = Running ∧ Err job = "" ∧ byKind (jobs w) !! Kind job = Some id ∧ is_Some (procs w !! id) ∧
    ∃ n, n ≤ seq (jobs w) ∧ numbered (Kind job) id n;
  ok_kind : ∀ kind id, byKind (jobs w) !! kind = Some id → ∃ job, live (jobs w) !! id = Some job ∧ Kind job = kind;
  ok_proc : ∀ id, is_Some (procs w !! id) → is_Some (live (jobs w) !! id);
  ok_past : ∀ job, job ∈ history (jobs w) → Done (State job) = true ∧ live (jobs w) !! ID job = None ∧
    ∃ n, n ≤ seq (jobs w) ∧ numbered (Kind job) (ID job) n;
  ok_nodup : NoDup (map ID (history (jobs w)));
  ok_keep : keep (jobs w) = 50%nat ∧ (length (history (jobs w)) ≤ 50)%nat ∧ 0 ≤ seq (jobs w)
}.

Lemma trim_incl n (l : list Job) x : x ∈ trim n l → x ∈ l.
Proof.
  unfold trim. destruct (n <? length l)%nat; [|exact id]. intros H. rewrite <- (take_drop (length l - n) l). apply elem_of_app. by right.
Qed.

Lemma trim_nodup n (l : list Job) : NoDup (map ID l) → NoDup (map ID (trim n l)).
Proof.
  unfold trim. destruct (n <? length l)%nat; [|exact id]. intros H. rewrite <- (take_drop (length l - n) l), map_app in H.
  by apply NoDup_app in H as (_ & _ & ?).
Qed.

Lemma trim_length n (l : list Job) : (length (trim n l) ≤ n)%nat.
Proof. unfold trim. destruct (Nat.ltb_spec n (length l)); [rewrite length_drop|]; lia. Qed.

(** The newest entry is never trimmed. *)
Lemma trim_last n (l : list Job) x : (0 < n)%nat → ∃ k, trim n (l ++ [x]) = k ++ [x].
Proof.
  intros Hn. unfold trim. destruct (Nat.ltb_spec n (length (l ++ [x]))) as [H|H]; [|by exists l].
  rewrite length_app in *. cbn [length] in *. rewrite drop_app_le by lia. eauto.
Qed.

Lemma run_seq w e : seq (jobs w) ≤ seq (jobs (run w e)) ≤ seq (jobs w) + 1.
Proof.
  destruct e as [kind target now|id text|id| |id result err|id now]; cbn [run].
  - unfold Start. destruct (byKind _ !! kind) as [i|]; [destruct (live _ !! i)|]; cbn; lia.
  - cbn; lia.
  - unfold Cancel. destruct (live _ !! id); cbn; lia.
  - cbn; lia.
  - destruct (procs w !! id) as [[|]|]; cbn; lia.
  - destruct (procs w !! id) as [[|r x c]|]; cbn; [lia| |lia]. unfold finish. destruct (live _ !! id); cbn; lia.
Qed.

Lemma ok_init : ok init.
Proof.
  split; cbn [jobs procs live byKind history keep seq init NewJobs].
  - intros id job E. by rewrite lookup_empty in E.
  - intros kind id E. by rewrite lookup_empty in E.
  - intros id [g E]. by rewrite lookup_empty in E.
  - by intros job ?%elem_of_nil.
  - by apply NoDup_nil_2.
  - cbn. lia.
Qed.

(** A job started has an id nothing has had. *)
Lemma fresh_id w kind : ok w → seq (jobs w) + 1 < 2^63 →
  let id := kind +:+ "-" +:+ Itoa (seq (jobs w) + 1) in
  live (jobs w) !! id = None ∧ ∀ job, job ∈ history (jobs w) → ID job ≠ id.
Proof.
  intros H Hs id. assert (numbered kind id (seq (jobs w) + 1)) as Hn by (pose proof (ok_keep w H); split; [lia|done]). split.
  - destruct (live (jobs w) !! id) as [job|] eqn:E; [|done].
    destruct (ok_live w H _ _ E) as (_ & _ & _ & _ & _ & n & ? & H').
    assert (seq (jobs w) + 1 = n) by (eapply numbered_inj; [| |exact Hn|exact H']; lia). lia.
  - intros job Hj E. destruct (ok_past w H job Hj) as (_ & _ & n & ? & H'). rewrite E in H'.
    assert (seq (jobs w) + 1 = n) by (eapply numbered_inj; [| |exact Hn|exact H']; lia). lia.
Qed.

Lemma ok_start w kind target now : ok w → seq (jobs w) + 1 < 2^63 → ok (run w (StartE kind target now)).
Proof.
  intros H Hs. destruct (fresh_id w kind H Hs) as [HL HP]. destruct H as [Hl Hk Hp Hh Hn [Hk1 [Hk2 Hk3]]].
  cbn [run]. unfold Start. destruct (byKind (jobs w) !! kind) as [i|] eqn:EK.
  { destruct (Hk _ _ EK) as (job & Ej & _). rewrite Ej. split; cbn; auto. }
  set (id := kind +:+ "-" +:+ Itoa (seq (jobs w) + 1)) in *. split; cbn [jobs procs live byKind history keep seq ID].
  - intros i job [[<- <-]|[Hne Hi]]%lookup_insert_Some.
    + cbn. split_and!; try done; [by rewrite lookup_insert_eq|by rewrite lookup_insert_eq|].
      exists (seq (jobs w) + 1). split; [lia|]. split; [lia|done].
    + destruct (Hl _ _ Hi) as (? & ? & ? & HK & ? & n & ? & ?). split_and!; try done.
      * rewrite lookup_insert_ne; [done|]. intros E. rewrite <- E in HK. congruence.
      * by rewrite lookup_insert_ne.
      * exists n. split; [lia|done].
  - intros k i [[<- <-]|[Hne Hi]]%lookup_insert_Some.
    + eexists. split; [apply lookup_insert_eq|done].
    + destruct (Hk _ _ Hi) as (job & Ej & ?). exists job. split; [|done]. rewrite lookup_insert_ne; [done|]. intros <-. congruence.
  - intros i. destruct (decide (id = i)) as [<-|Hne]; [rewrite !lookup_insert_eq; eauto|]. rewrite !lookup_insert_ne by done. apply Hp.
  - intros job Hj. destruct (Hh job Hj) as (? & ? & n & ? & ?). split_and!; [done| |exists n; split; [lia|done]].
    rewrite lookup_insert_ne; [done|]. intros E. by apply (HP job Hj).
  - done.
  - lia.
Qed.

Lemma ok_step w id text : ok w → ok (run w (StepE id text)).
Proof.
  intros [Hl Hk Hp Hh Hn Hk1]. split; cbn [run jobs procs step live byKind history keep seq]; try done.
  - intros i job. rewrite lookup_alter_Some. intros [(<- & j & Ej & ->)|[Hne Hi]]; [|by apply Hl].
    destruct (Hl _ _ Ej) as (? & ? & ? & ? & ? & ?). cbn. done.
  - intros k i Hi. destruct (Hk _ _ Hi) as (job & Ej & ?). destruct (decide (id = i)) as [<-|Hne].
    + rewrite lookup_alter_eq, Ej. cbn. eexists. split; [done|]. done.
    + rewrite lookup_alter_ne by done. by exists job.
  - intros i Hi. apply Hp in Hi as [job Ej]. destruct (decide (id = i)) as [<-|Hne].
    + rewrite lookup_alter_eq, Ej. cbn. eauto.
    + rewrite lookup_alter_ne by done. eauto.
  - intros job Hj. destruct (Hh job Hj) as (? & E & ?). split_and!; [done| |done].
    rewrite lookup_alter_None. done.
Qed.

Lemma ended_fields job now result err cancelled :
  let j := ended job now result err cancelled in
  ID j = ID job ∧ Kind j = Kind job ∧ Done (State j) = true.
Proof. split_and!; [done..|]. by destruct cancelled, err. Qed.

Lemma ok_finish w id now : ok w → ok (run w (Finish id now)).
Proof.
  intros H. cbn [run]. destruct (procs w !! id) as [[|result err c]|] eqn:EP; [done| |done].
  destruct H as [Hl Hk Hp Hh Hn [Hk1 [Hk2 Hk3]]].
  assert (is_Some (live (jobs w) !! id)) as [job EJ] by (apply Hp; rewrite EP; eauto).
  destruct (Hl _ _ EJ) as (HID & HS & _ & HK & _ & n & Hn1 & Hn2). unfold finish. rewrite EJ, bool_decide_true by done.
  destruct (ended_fields job now result err c) as (F1 & F2 & F3). set (j' := ended job now result err c) in *.
  split; cbn [jobs procs live byKind history keep seq].
  - intros i k [Hne Hi]%lookup_delete_Some. destruct (Hl _ _ Hi) as (? & ? & ? & HK' & ? & ?). split_and!; try done.
    + rewrite lookup_delete_ne; [done|]. intros E. rewrite F2 in E. rewrite E in HK. congruence.
    + by rewrite lookup_delete_ne.
  - intros k i [Hne Hi]%lookup_delete_Some. destruct (Hk _ _ Hi) as (k' & Ej & ?). exists k'. split; [|done].
    rewrite lookup_delete_ne; [done|]. intros <-. congruence.
  - intros i [g [Hne Hi]%lookup_delete_Some]. rewrite lookup_delete_ne by done. apply Hp. eauto.
  - intros k [Hj|Hj%list_elem_of_singleton]%trim_incl%elem_of_app.
    + destruct (Hh k Hj) as (? & ? & ?). split_and!; [done| |done]. by apply lookup_delete_None; right.
    + subst k. split_and!; [done|rewrite F1, HID; apply lookup_delete_eq|]. exists n. rewrite F1, F2, HID. done.
  - apply trim_nodup. rewrite map_app. apply NoDup_app. split_and!; [done| |apply NoDup_singleton].
    intros x (k & -> & Hj)%list_elem_of_fmap Hx%list_elem_of_singleton. destruct (Hh k Hj) as (_ & E & _).
    rewrite Hx, F1, HID in E. congruence.
  - split_and!; [done| |done]. rewrite Hk1. apply trim_length.
Qed.

Lemma ok_run w e : ok w → seq (jobs (run w e)) < 2^63 → ok (run w e).
Proof.
  intros H Hs. destruct e as [kind target now|id text|id| |id result err|id now].
  - destruct (decide (byKind (jobs w) !! kind = None)) as [E|E].
    + apply ok_start; [done|]. revert Hs. cbn [run]. unfold Start. rewrite E. cbn. lia.
    + apply not_eq_None_Some in E as [i E]. cbn [run]. unfold Start. rewrite E.
      destruct (ok_kind w H _ _ E) as (job & -> & _). by destruct w, H; split.
  - by apply ok_step.
  - cbn [run]. unfold Cancel. destruct (live (jobs w) !! id); [|done]. by destruct H; split.
  - by destruct H; split.
  - cbn [run]. destruct (procs w !! id) as [[|]|] eqn:E; [|done..]. destruct H as [Hl Hk Hp Hh Hn Hk1]. split; cbn; try done.
    + intros i job Hi. destruct (Hl _ _ Hi) as (? & ? & ? & ? & HP & ?). split_and!; try done.
      destruct (decide (id = i)) as [<-|Hne]; [rewrite lookup_insert_eq; eauto|by rewrite lookup_insert_ne].
    + intros i Hi. apply Hp. destruct (decide (id = i)) as [<-|Hne]; [rewrite E; eauto|by rewrite lookup_insert_ne in Hi].
  - by apply ok_finish.
Qed.

Lemma ok_runs es : ∀ w, ok w → seq (jobs w) + zlen es < 2^63 → ok (fold_left run es w) ∧ seq (jobs (fold_left run es w)) ≤ seq (jobs w) + zlen es.
Proof.
  induction es as [|e es IH]; intros w H Hs; cbn [fold_left]; [split; [done|unfold zlen; cbn; lia]|].
  assert (zlen (e :: es) = zlen es + 1) as Ez by (unfold zlen; cbn [length]; lia).
  pose proof (zlen_nonneg es). pose proof (run_seq w e). destruct (IH (run w e)) as [K1 K2]; [apply ok_run; [done|lia]|lia|]. split; [done|lia].
Qed.

Lemma newest_last P l (x : Job) : P x = true → newest P (l ++ [x]) = Some x.
Proof. intros H. unfold newest. rewrite reverse_app. cbn. rewrite decide_True by done. done. Qed.

Lemma newest_none P (l : list Job) : (∀ x, x ∈ l → P x = false) → newest P l = None.
Proof.
  intros H. unfold newest. destruct (filter _ (reverse l)) as [|x k] eqn:E; [done|].
  assert (x ∈ filter (λ job, P job = true) (reverse l)) as Hx by (rewrite E; apply list_elem_of_here).
  apply list_elem_of_filter in Hx as [Hp Hx]. rewrite elem_of_reverse in Hx. rewrite H in Hp by done. done.
Qed.

(** In any interleaving of starts, steps, cancellations and goroutines that
    return, at most one job of a kind is live, and a job is live exactly while
    a goroutine is there to finish it. A start is refused, with the running
    job, if and only if one is live; otherwise the new job has an id no job
    live or remembered has, and is what the registry then names for its kind.
    At most fifty finished jobs are remembered, each once. *)
Theorem one_job_per_kind es : zlen es + 1 < 2^63 →
  let w := runs es in let js := jobs w in
  (∀ id, is_Some (procs w !! id) ↔ is_Some (live js !! id)) ∧
  (∀ id id' job job', live js !! id = Some job → live js !! id' = Some job' → Kind job = Kind job' → id = id') ∧
  (∀ kind target now, match Start js kind target now with
    | (js', StartedJob job) => Current js kind = None ∧ Current js' kind = Some job ∧ Get js (ID job) = None ∧ State job = Running
    | (js', ErrBusy job) => js' = js ∧ Current js kind = Some job ∧ State job = Running
    | (_, Panicked) => False
    end) ∧
  NoDup (map ID (history js)) ∧ (length (history js) ≤ 50)%nat ∧ Forall (λ job, Done (State job) = true) (history js).
Proof.
  intros Hz w js. destruct (ok_runs es init ok_init) as [H Hs]; [cbn in *; lia|]. fold (runs es) in H, Hs. fold w in H, Hs.
  split_and!.
  - intros id. split; [apply (ok_proc w H)|]. intros [job E]. by destruct (ok_live w H _ _ E) as (_ & _ & _ & _ & ? & _).
  - intros id id' job job' E E' EK. destruct (ok_live w H _ _ E) as (_ & _ & _ & HK & _), (ok_live w H _ _ E') as (_ & _ & _ & HK' & _).
    unfold js in *. rewrite EK in HK. congruence.
  - intros kind target now. unfold Start. destruct (byKind js !! kind) as [i|] eqn:EK.
    + destruct (ok_kind w H _ _ EK) as (job & Ej & _). fold js in Ej. rewrite Ej. unfold Current. rewrite EK. cbn.
      split_and!; [done..|]. by destruct (ok_live w H _ _ Ej) as (_ & ? & _).
    + destruct (fresh_id w kind H) as [F1 F2]; [cbn in Hs; lia|]. fold js in F1, F2. unfold Current. cbn [byKind live].
      rewrite EK, lookup_insert_eq. cbn. rewrite lookup_insert_eq. split_and!; [done..| |done].
      change (Get js (kind +:+ "-" +:+ Itoa (seq js + 1)) = None). unfold Get. rewrite F1. apply newest_none. intros x Hx. by apply String.eqb_neq, F2.
  - by destruct H.
  - by destruct H as [_ _ _ _ _ (_ & ? & _)].
  - apply Forall_forall. intros job Hj. by destruct (ok_past w H job Hj).
Qed.

(** What a job's work returned is what the panel is told. Once its goroutine
    has finished it, no job of the kind is current, the job is what [Get],
    [Latest] and [History] give, with the outcome its work and its context
    had, and a job of the kind can be started again. *)
Theorem job_reported es id result err cancelled now : zlen es < 2^63 →
  procs (runs es) !! id = Some (Finishing result err cancelled) →
  ∃ job, live (jobs (runs es)) !! id = Some job ∧
    let js := jobs (run (runs es) (Finish id now)) in
    let job' := ended job now result err cancelled in
    Current js (Kind job) = None ∧ Latest js (Kind job) = Some job' ∧ Get js id = Some job' ∧
    History js (Kind job) 1 = [job'] ∧
    (State job' = Cancelled ↔ cancelled = true) ∧
    (cancelled = false → State job' = (if err then Failed else Succeeded) ∧ Err job' = default "" err) ∧
    ∀ target now', ∃ new, snd (Start js (Kind job) target now') = StartedJob new.
Proof.
  intros Hz EP. destruct (ok_runs es init ok_init) as [H Hs]; [cbn in *; lia|]. fold (runs es) in H, Hs.
  set (w := runs es) in *. destruct (ok_proc w H id) as [job EJ]; [rewrite EP; eauto|]. exists job. split; [done|].
  destruct (ok_live w H _ _ EJ) as (HID & HS & HE & HK & _ & _). cbv zeta. cbn [run]. rewrite EP. cbn [jobs]. unfold finish. rewrite EJ.
  set (j' := ended job now result err cancelled). change (Kind j') with (Kind job). rewrite bool_decide_true by done.
  assert (keep (jobs w) = 50%nat) as -> by apply (ok_keep w H).
  destruct (trim_last 50 (history (jobs w)) j' ltac:(lia)) as [k ->].
  unfold Latest, Get, History, Current, Start. cbn [byKind live history]. rewrite !lookup_delete_eq. cbn [mbind option_bind].
  split_and!; try done.
  - apply newest_last, String.eqb_refl.
  - apply newest_last. change (ID j') with (ID job). rewrite HID. apply String.eqb_refl.
  - rewrite reverse_app. cbn [reverse rev_append app]. change (reverse [j'] ++ reverse k) with (j' :: reverse k).
    rewrite filter_cons_True by (right; done). done.
  - unfold j', ended. cbn. by destruct cancelled, err.
  - intros ->. unfold j', ended. cbn. by destruct err.
  - intros target now'. eexists. done.
Qed.

End jobs.

(** What the panel's [rolloutstatus] answers for the rollout's job: its text is
    the result if there is one, and the error if there is one. *)
Definition rollout_message (job : Job (A := string)) : option string :=
  if String.eqb (Err job) "" then ResultOf Some job else Some (Err job).

Definition demo_events : list (event (A := string)) :=
  [StartE "rollout" "" 100; StartE "rollout" "" 101; StepE "rollout-1" "checking a"; StartE "speed" "t" 102;
   CancelE "speed-2"; Return "speed-2" None (Some "context canceled"); Finish "speed-2" 103;
   Return "rollout-1" (Some "2 server(s) upgraded.") None].

Lemma one_job_per_kind_witness :
  let js := jobs (runs demo_events) in
  map ID (history js) = ["speed-2"] ∧ match Start js "rollout" "" 104 with (_, ErrBusy job) => ID job = "rollout-1" | _ => False end ∧
  (∀ id id' job job', live js !! id = Some job → live js !! id' = Some job' → Kind job = Kind job' → id = id').
Proof.
  assert (zlen demo_events + 1 < 2^63) as Hz by (vm_compute; reflexivity).
  destruct (one_job_per_kind demo_events Hz) as (_ & H & _). split; [by vm_compute|]. split; [by vm_compute|exact H].
Defined.

Lemma job_reported_witness :
  ∃ job, live (jobs (runs demo_events)) !! "rollout-1" = Some job ∧
    Latest (jobs (run (runs demo_events) (Finish "rollout-1" 105))) (Kind job) = Some (ended job 105 (Some "2 server(s) upgraded.") None false).
Proof.
  destruct (job_reported demo_events "rollout-1" (Some "2 server(s) upgraded.") None false 105) as (job & H & _ & H' & _).
  - by vm_compute.
  - by vm_compute.
  - by exists job.
Defined.

(** A rollout of three servers, stopped by the operator while the last of them is
    being upgraded: every server is on the new version, and the panel is told
    the rollout was cancelled and nothing else. *)
Example cancelled_rollout_is_silent :
  let p := Rollout.Run (λ _ _, None) (Some (λ _ _, None)) (λ _ _, None) (λ k, 3 <=? k)%nat 0 0 (Rollout.mkPlan "a" [["b"; "c"]] []) in
  let report := Rollout.describeRollout (Rollout.res p) in
  let w := runs [StartE "rollout" "" 100; CancelE "rollout-1"; Return "rollout-1" (Some report) None; Finish "rollout-1" 700] in
  report = "3 server(s) upgraded." ∧ Rollout.OK (Rollout.res p) = true ∧
  match Latest (jobs w) "rollout" with
  | Some job => State job = Cancelled ∧ Result job = Some report ∧ rollout_message job = None
  | None => False
  end.
Proof. by vm_compute. Qed.

(** A rollout cancelled while its first wave is under way upgrades the whole wave. *)
Example cancelled_wave_runs_on :
  let p := Rollout.Run (λ _ _, None) (Some (λ _ _, None)) (λ _ _, None) (λ k, 2 <=? k)%nat 0 0
    (Rollout.mkPlan "a" [["b"; "c"; "d"; "e"]; ["f"]] []) in
  Rollout.tried p = ["a"; "b"; "c"; "d"; "e"] ∧ Rollout.Untouched (Rollout.res p) = ["f"].
Proof. by vm_compute. Qed.

End Jobs.

Module Desired.

Record TunnelIntent : Type := mkIntent {
  Name : string;
  Role : string;
  TunnelPort : string;
  Running : bool;
  Recorded : Z
}.

Inductive DriftKind : Type := DriftMissing | DriftStopped | DriftRunning | DriftChanged | DriftUnexpected.

#[export] Instance drift_kind_eq_dec : EqDecision DriftKind.
Proof. solve_decision. Defined.

(** The word of each kind, which the report is ordered by. *)
Definition word (k : DriftKind) : string :=
  match k with
  | DriftMissing => "missing" | DriftStopped => "stopped" | DriftRunning => "running"
  | DriftChanged => "changed" | DriftUnexpected => "unexpected"
  end.

Record Drift : Type := mkDrift { Node : string; Tunnel : string; DKind : DriftKind; Detail : string }.

Notation intents := (gmap string (gmap string TunnelIntent)).

(** The intent in memory, and what was last written of it. *)
Record Desired : Type := mkDesired { nodes : intents; file : option intents }.

Definition NewDesiredAt (file : option intents) : Desired := mkDesired (default ∅ file) file.

(** [write] is the error of writing the file, if it fails. *)
Definition save (d : Desired) (write : option string) : Desired * option string :=
  match write with
  | None => (mkDesired (nodes d) (Some (nodes d)), None)
  | Some e => (d, Some e)
  end.

(** The intents of a node; one that is not there is a nil map. *)
Definition of_node (d : Desired) (n : string) : gmap string TunnelIntent := default ∅ (nodes d !! n).

Definition set_node (d : Desired) (n : string) (m : gmap string TunnelIntent) : Desired := mkDesired (<[n := m]> (nodes d)) (file d).

Definition Record_ (d : Desired) (nodeName : string) (t : TunnelIntent) (now : Z) (write : option string) : Desired * option string :=
  if String.eqb nodeName "" || String.eqb (Name t) "" then (d, Some "an intent needs a node and a tunnel name")
  else
    let t := mkIntent (Name t) (Role t) (TunnelPort t) (Running t) now in
    save (set_node d nodeName (<[Name t := t]> (of_node d nodeName))) write.

Definition SetRunning (d : Desired) (nodeName tunnel : string) (running : bool) (now : Z) (write : option string) : Desired * option string :=
  match of_node d nodeName !! tunnel with
  | None => (d, None)
  | Some t =>
      let t := mkIntent (Name t) (Role t) (TunnelPort t) running now in
      save (set_node d nodeName (<[tunnel := t]> (of_node d nodeName))) write
  end.

Definition Forget (d : Desired) (nodeName tunnel : string) (write : option string) : Desired * option string :=
  match nodes d !! nodeName with
  | None => (d, None)
  | Some m =>
      let m := delete tunnel m in
      save (if (size m =? 0)%nat then mkDesired (delete nodeName (nodes d)) (file d) else set_node d nodeName m) write
  end.

Definition ForgetNode (d : Desired) (nodeName : string) (write : option string) : Desired * option string :=
  save (mkDesired (delete nodeName (nodes d)) (file d)) write.

Definition intent_le (a b : TunnelIntent) : Prop := str_le (Name a) (Name b).

#[export] Instance intent_le_dec a b : Decision (intent_le a b).
Proof. unfold intent_le. apply _. Defined.

Definition Intent (d : Desired) (nodeName : string) : list TunnelIntent :=
  merge_sort intent_le (map snd (map_to_list (of_node d nodeName))).

Definition Nodes (d : Desired) : list string := Strings (map fst (map_to_list (nodes d))).

(** What a tunnel expected under [name] shows, given what the server reports. *)
Definition wanted (node name : string) (w : TunnelIntent) (got : option Protocol.TunnelState) : list Drift :=
  let add kind detail := [mkDrift node name kind detail] in
  match got with
  | None => add DriftMissing ("this panel created " +:+ name +:+ " on " +:+ node +:+ " and the server does not have it — it was removed there, or an apply reported success and did not last")
  | Some g =>
      (if negb (String.eqb (TunnelPort w) "") && negb (String.eqb (Protocol.TunnelPort g) "") && negb (String.eqb (TunnelPort w) (Protocol.TunnelPort g))
       then add DriftChanged (name +:+ " meets its pair on port " +:+ TunnelPort w +:+ " here and on port " +:+ Protocol.TunnelPort g +:+ " there — the two ends no longer name the same port")
       else []) ++
      (if negb (String.eqb (Role w) "") && negb (String.eqb (Protocol.Role g) "") && negb (EqualFold (Role w) (Protocol.Role g))
       then add DriftChanged (name +:+ " was created as the " +:+ Role w +:+ " end and the server holds the " +:+ Protocol.Role g +:+ " end")
       else []) ++
      (if Running w && negb (Protocol.Active g)
       then add DriftStopped (name +:+ " is not running on " +:+ node +:+ ", and nothing here asked for it to be stopped")
       else if negb (Running w) && Protocol.Active g
       then add DriftRunning (name +:+ " was stopped from here and is running on " +:+ node)
       else [])
  end.

Definition unexpected (node name : string) : Drift :=
  mkDrift node name DriftUnexpected (name +:+ " is running on " +:+ node +:+ " and this panel did not create it — made on the machine itself, or left from a panel restored from a backup").

Definition drift_le (a b : Drift) : Prop :=
  if decide (Tunnel a = Tunnel b) then str_le (word (DKind a)) (word (DKind b)) else str_le (Tunnel a) (Tunnel b).

#[export] Instance drift_le_dec a b : Decision (drift_le a b).
Proof. unfold drift_le. destruct (decide (Tunnel a = Tunnel b)); apply _. Defined.

(** What the server reports, by name; a name reported twice is what it was last. *)
Definition reported (actual : list Protocol.TunnelState) : gmap string Protocol.TunnelState :=
  fold_left (λ m t, <[Protocol.Name t := t]> m) actual ∅.

(** The report; two changes of one tunnel are in an order the code leaves open. *)
Definition Reconcile (d : Desired) (nodeName : string) (actual : list Protocol.TunnelState) : list Drift :=
  let want := of_node d nodeName in
  let have := reported actual in
  merge_sort drift_le (
    concat (map (λ p, wanted nodeName (fst p) (snd p) (have !! fst p)) (map_to_list want)) ++
    map (λ p, unexpected nodeName (fst p)) (filter (λ p, want !! fst p = None) (map_to_list have))).

(** ** The report *)

#[export] Instance drift_le_trans : Transitive drift_le.
Proof.
  intros a b c. unfold drift_le.
  destruct (decide (Tunnel a = Tunnel b)) as [E|E], (decide (Tunnel b = Tunnel c)) as [E'|E']; rewrite ?E.
  - rewrite decide_True by done. apply transitivity.
  - intros _ H. by rewrite decide_False.
  - intros H _. rewrite decide_False by congruence. by rewrite <- E'.
  - intros H1 H2. destruct (decide (Tunnel a = Tunnel c)) as [E2|E2]; [|by etransitivity].
    exfalso. apply E'. apply (anti_symm str_le); [done|]. by rewrite <- E2.
Qed.

#[export] Instance drift_le_total : Total drift_le.
Proof.
  intros a b. unfold drift_le. destruct (decide (Tunnel a = Tunnel b)) as [E|E].
  - rewrite (decide_True (P := Tunnel b = Tunnel a)) by done. apply total, _.
  - rewrite (decide_False (P := Tunnel b = Tunnel a)) by done. apply total, _.
Qed.

Lemma reported_name l name t : reported l !! name = Some t → Protocol.Name t = name.
Proof.
  unfold reported. assert (∀ m : gmap string Protocol.TunnelState, (∀ n t, m !! n = Some t → Protocol.Name t = n) →
    ∀ n t, fold_left (λ m t, <[Protocol.Name t := t]> m) l m !! n = Some t → Protocol.Name t = n) as H.
  { induction l as [|x l IH]; intros m Hm; [exact Hm|]. apply IH. intros n u [[<- <-]|[_ Hu]]%lookup_insert_Some; [done|by apply Hm]. }
  apply H. intros ?? E. by rewrite lookup_empty in E.
Qed.

Lemma wanted_fields node name w got x : x ∈ wanted node name w got → Node x = node ∧ Tunnel x = name.
Proof.
  unfold wanted. destruct got as [g|]; [|by intros ->%list_elem_of_singleton].
  intros [H|[H|H]%elem_of_app]%elem_of_app.
  1,2: by destruct (_ && _) in H; [apply list_elem_of_singleton in H as ->|apply elem_of_nil in H].
  destruct (_ && _) in H; [by apply list_elem_of_singleton in H as ->|].
  by destruct (_ && _) in H; [apply list_elem_of_singleton in H as ->|apply elem_of_nil in H].
Qed.

Lemma reconcile_elem d n actual x :
  x ∈ Reconcile d n actual ↔
  (∃ w, of_node d n !! Tunnel x = Some w ∧ x ∈ wanted n (Tunnel x) w (reported actual !! Tunnel x)) ∨
  (of_node d n !! Tunnel x = None ∧ is_Some (reported actual !! Tunnel x) ∧ x = unexpected n (Tunnel x)).
Proof.
  unfold Reconcile. rewrite merge_sort_Permutation, elem_of_app. apply Morphisms_Prop.or_iff_morphism.
  - rewrite list_elem_of_In, in_concat. setoid_rewrite <- list_elem_of_In. split.
    + intros (l & Hl & Hx). apply list_elem_of_fmap in Hl as ([name w] & -> & Hp%elem_of_map_to_list). cbn [fst snd] in Hx.
      destruct (wanted_fields _ _ _ _ _ Hx) as [_ ->]. by exists w.
    + intros (w & Hw & Hx). exists (wanted n (Tunnel x) w (reported actual !! Tunnel x)). split; [|done].
      apply list_elem_of_fmap. exists (Tunnel x, w). split; [done|]. by apply elem_of_map_to_list.
  - rewrite list_elem_of_fmap. split.
    + intros ([name g] & -> & [Hn Hp%elem_of_map_to_list]%list_elem_of_filter). cbn [fst Tunnel unexpected] in *. eauto.
    + intros (Hn & [g Hg] & E). exists (Tunnel x, g). split; [done|]. apply list_elem_of_filter. split; [done|].
      by apply elem_of_map_to_list.
Qed.

(** What each kind of difference means of one tunnel: what is expected of it, and
    what is reported. *)
Definition drifts (k : DriftKind) (w : option TunnelIntent) (g : option Protocol.TunnelState) : Prop :=
  match k, w, g with
  | DriftMissing, Some _, None => True
  | DriftUnexpected, None, Some _ => True
  | DriftStopped, Some w, Some g => Running w = true ∧ Protocol.Active g = false
  | DriftRunning, Some w, Some g => Running w = false ∧ Protocol.Active g = true
  | DriftChanged, Some w, Some g =>
      (TunnelPort w ≠ "" ∧ Protocol.TunnelPort g ≠ "" ∧ TunnelPort w ≠ Protocol.TunnelPort g) ∨
      (Role w ≠ "" ∧ Protocol.Role g ≠ "" ∧ EqualFold (Role w) (Protocol.Role g) = false)
  | _, _, _ => False
  end.

Lemma elem_of_if {B} (b : bool) (x y : B) : x ∈ (if b then [y] else []) ↔ b = true ∧ x = y.
Proof. destruct b; rewrite ?list_elem_of_singleton, ?elem_of_nil; naive_solver. Qed.

Lemma differs a b : negb (String.eqb a "") && negb (String.eqb b "") && negb (String.eqb a b) = true ↔ a ≠ "" ∧ b ≠ "" ∧ a ≠ b.
Proof. rewrite !andb_true_iff, !negb_true_iff, !String.eqb_neq. tauto. Qed.

Lemma differs_role a b : negb (String.eqb a "") && negb (String.eqb b "") && negb (EqualFold a b) = true ↔ a ≠ "" ∧ b ≠ "" ∧ EqualFold a b = false.
Proof. rewrite !andb_true_iff, !negb_true_iff, !String.eqb_neq. tauto. Qed.

Lemma wanted_kinds node name w got k :
  (∃ x, x ∈ wanted node name w got ∧ DKind x = k) ↔ drifts k (Some w) got.
Proof.
  unfold wanted. destruct got as [g|].
  2: { split; [by intros (x & ->%list_elem_of_singleton & <-)|]. destruct k; try done. intros _. eexists. by rewrite list_elem_of_singleton. }
  setoid_rewrite elem_of_app. setoid_rewrite elem_of_app. setoid_rewrite elem_of_if. setoid_rewrite differs. setoid_rewrite differs_role.
  split.
  - intros (x & [[H ->]|[[H ->]|H]] & <-); cbn [DKind drifts]; [by left|by right|].
    destruct (Running w) eqn:ER, (Protocol.Active g) eqn:EA; cbn in H;
      (apply elem_of_nil in H || apply list_elem_of_singleton in H as ->); done.
  - destruct k; cbn [drifts]; try done.
    + intros [-> ->]. eexists. split; [right; right; apply list_elem_of_singleton; reflexivity|done].
    + intros [-> ->]. eexists. split; [right; right; apply list_elem_of_singleton; reflexivity|done].
    + intros [H|H]; eexists; (split; [|]); [by left|done|by right; left|done].
Qed.

(** A report names a difference of a kind in a tunnel exactly when what is
    expected of the tunnel and what the server says of it differ in that way:
    it is gone, is there unasked, is stopped or running against what was last
    asked, or holds another port or role. Nothing else is reported; the report
    is ordered by tunnel and kind, and empty only if nothing differs. *)
Theorem reconcile_exact d n actual :
  let out := Reconcile d n actual in let want := of_node d n in let have := reported actual in
  (∀ t k, (∃ x, x ∈ out ∧ Tunnel x = t ∧ DKind x = k) ↔ drifts k (want !! t) (have !! t)) ∧
  (∀ x, x ∈ out → Node x = n) ∧ StronglySorted drift_le out ∧
  (out = [] ↔ ∀ t k, ¬ drifts k (want !! t) (have !! t)).
Proof.
  intros out want have.
  assert (∀ t k, (∃ x, x ∈ out ∧ Tunnel x = t ∧ DKind x = k) ↔ drifts k (want !! t) (have !! t)) as HK.
  { intros t k. unfold out. setoid_rewrite reconcile_elem. fold want have. split.
    - intros (x & [(w & Hw & Hx)|(Hw & [g Hg] & E)] & <- & <-).
      + rewrite Hw. apply (wanted_kinds n (Tunnel x)). eauto.
      + rewrite Hw, Hg, E. done.
    - destruct (want !! t) as [w|] eqn:Ew.
      + intros (x & Hx & <-)%(wanted_kinds n t). destruct (wanted_fields _ _ _ _ _ Hx) as [_ <-]. exists x. split_and!; [left|done..]. eauto.
      + destruct k, (have !! t) as [g|] eqn:Eg; try done. intros _. exists (unexpected n t). split_and!; [|done..].
        right. cbn [Tunnel unexpected]. rewrite Eg. eauto. }
  split_and!; [done| | |].
  - intros x [(w & _ & Hx)|(_ & _ & ->)]%reconcile_elem; [by apply wanted_fields in Hx as [-> _]|done].
  - apply StronglySorted_merge_sort; apply _.
  - split.
    + intros E t k H. apply HK in H as (x & Hx & _). rewrite E in Hx. by apply elem_of_nil in Hx.
    + intros H. destruct out as [|x l]; [done|]. exfalso. apply (H (Tunnel x) (DKind x)), HK. exists x. split; [apply list_elem_of_here|done].
Qed.

(** ** The record *)

Inductive op : Type :=
  | RecordO (node : string) (t : TunnelIntent) (now : Z)
  | SetRunningO (node tunnel : string) (running : bool) (now : Z)
  | ForgetO (node tunnel : string)
  | ForgetNodeO (node : string).

Definition apply (d : Desired) (o : op * option string) : Desired :=
  match o with
  | (RecordO n t now, write) => fst (Record_ d n t now write)
  | (SetRunningO n t r now, write) => fst (SetRunning d n t r now write)
  | (ForgetO n t, write) => fst (Forget d n t write)
  | (ForgetNodeO n, write) => fst (ForgetNode d n write)
  end.

(** What the instructions so far come to, for one tunnel of one server. *)
Definition tell (f : string → string → option TunnelIntent) (o : op) (n t : string) : option TunnelIntent :=
  match o with
  | RecordO n' i now =>
      if negb (String.eqb n' "") && negb (String.eqb (Name i) "") && String.eqb n n' && String.eqb t (Name i)
      then Some (mkIntent (Name i) (Role i) (TunnelPort i) (Running i) now) else f n t
  | SetRunningO n' t' r now =>
      if String.eqb n n' && String.eqb t t' then option_map (λ i, mkIntent (Name i) (Role i) (TunnelPort i) r now) (f n t) else f n t
  | ForgetO n' t' => if String.eqb n n' && String.eqb t t' then None else f n t
  | ForgetNodeO n' => if String.eqb n n' then None else f n t
  end.

Definition told (os : list op) : string → string → option TunnelIntent := fold_left tell os (λ _ _, None).

Record kept (d : Desired) (f : string → string → option TunnelIntent) : Prop := {
  kept_map : ∀ n t, of_node d n !! t = f n t;
  kept_name : ∀ n t i, f n t = Some i → Name i = t;
  kept_nonempty : ∀ n m, nodes d !! n = Some m → m ≠ ∅
}.

Lemma save_nodes d write : nodes (fst (save d write)) = nodes d.
Proof. by destruct write. Qed.

Lemma kept_save d write f : kept d f → kept (fst (save d write)) f.
Proof. by destruct write; intros []. Qed.

Lemma kept_set d n m f g : kept d f → m ≠ ∅ →
  (∀ t, m !! t = g n t) → (∀ n' t, n' ≠ n → g n' t = f n' t) → (∀ t i, g n t = Some i → Name i = t) →
  kept (set_node d n m) g.
Proof.
  intros [Hm Hn He] Hne H1 H2 H3. split; unfold of_node; cbn [nodes set_node].
  - intros n' t. destruct (decide (n = n')) as [<-|Hd]; [rewrite lookup_insert_eq; apply H1|].
    rewrite lookup_insert_ne, H2 by done. apply Hm.
  - intros n' t i. destruct (decide (n = n')) as [<-|Hd]; [apply H3|]. rewrite H2 by done. apply Hn.
  - intros n' m' [[<- <-]|[_ H]]%lookup_insert_Some; [done|by eapply He].
Qed.

Lemma kept_delete d n f g : kept d f →
  (∀ t, g n t = None) → (∀ n' t, n' ≠ n → g n' t = f n' t) → kept (mkDesired (delete n (nodes d)) (file d)) g.
Proof.
  intros [Hm Hn He] H1 H2. split; unfold of_node; cbn [nodes].
  - intros n' t. destruct (decide (n = n')) as [<-|Hd]; [by rewrite lookup_delete_eq, H1|].
    rewrite lookup_delete_ne, H2 by done. apply Hm.
  - intros n' t i. destruct (decide (n = n')) as [<-|Hd]; [by rewrite H1|]. rewrite H2 by done. apply Hn.
  - intros n' m' [_ H]%lookup_delete_Some. by eapply He.
Qed.

Lemma kept_ext d f g : kept d f → (∀ n t, g n t = f n t) → kept d g.
Proof. intros [Hm Hn He] H. split; [by intros; rewrite H|intros n t i; rewrite H; apply Hn|done]. Qed.

Lemma kept_record d f n i now write : kept d f → kept (fst (Record_ d n i now write)) (tell f (RecordO n i now)).
Proof.
  intros H.
  unfold Record_. destruct (String.eqb_spec n "") as [->|Hn]; [|destruct (String.eqb_spec (Name i) "") as [Hi|Hi]]; cbn [orb fst].
  1,2: (eapply kept_ext; [done|]; intros n' t; cbn [tell]; rewrite ?Hi; cbn; by rewrite ?andb_false_r).
  apply kept_save. eapply kept_set; [done|apply insert_non_empty| | |].
  + intros t. cbn [tell]. apply String.eqb_neq in Hn as ->. apply String.eqb_neq in Hi as ->. cbn [negb andb]. rewrite String.eqb_refl. cbn [andb].
    destruct (String.eqb_spec t (Name i)) as [->|Ht]; [apply lookup_insert_eq|]. rewrite lookup_insert_ne by done. apply (kept_map _ _ H).
  + intros n' t Hne. cbn [tell]. apply String.eqb_neq in Hne as ->. by rewrite andb_false_r.
  + intros t j. cbn [tell]. rewrite String.eqb_refl, andb_true_r. destruct (_ && _ && _) eqn:E; [|apply (kept_name _ _ H)].
    apply andb_true_iff in E as [_ E]. apply String.eqb_eq in E as ->. by intros [= <-].
Qed.

Lemma kept_running d f n t r now write : kept d f → kept (fst (SetRunning d n t r now write)) (tell f (SetRunningO n t r now)).
Proof.
  intros H.
  unfold SetRunning. destruct (of_node d n !! t) as [i|] eqn:E; cbn [fst].
  + apply kept_save. eapply kept_set; [done|apply insert_non_empty| | |].
    * intros t'. cbn [tell]. rewrite String.eqb_refl. cbn [andb]. destruct (String.eqb_spec t' t) as [->|Ht].
      -- rewrite lookup_insert_eq. by rewrite <- (kept_map _ _ H), E.
      -- rewrite lookup_insert_ne by done. apply (kept_map _ _ H).
    * intros n' t' Hne. cbn [tell]. by apply String.eqb_neq in Hne as ->.
    * intros t' j. cbn [tell]. rewrite String.eqb_refl. cbn [andb]. destruct (String.eqb_spec t' t) as [->|Ht]; [|apply (kept_name _ _ H)].
      destruct (f n t) as [k|] eqn:Ek; [|done]. intros [= <-]. cbn. by apply (kept_name _ _ H n).
  + eapply kept_ext; [done|]. intros n' t'. cbn [tell]. destruct (String.eqb_spec n' n) as [->|]; [|done].
    destruct (String.eqb_spec t' t) as [->|]; [|done]. cbn. rewrite <- (kept_map _ _ H), E. done.
Qed.

Lemma kept_forget d f n t write : kept d f → kept (fst (Forget d n t write)) (tell f (ForgetO n t)).
Proof.
  intros H.
  unfold Forget. destruct (nodes d !! n) as [m|] eqn:E; cbn [fst].
  + assert (∀ t', delete t m !! t' = tell f (ForgetO n t) n t') as HD.
    { intros t'. cbn [tell]. rewrite String.eqb_refl. cbn [andb]. destruct (String.eqb_spec t' t) as [->|Ht]; [apply lookup_delete_eq|].
      rewrite lookup_delete_ne, <- (kept_map _ _ H) by done. unfold of_node. by rewrite E. }
    assert (∀ n' t', n' ≠ n → tell f (ForgetO n t) n' t' = f n' t') as HO by (intros n' t' Hne; cbn [tell]; by apply String.eqb_neq in Hne as ->).
    apply kept_save. destruct (size (delete t m) =? 0)%nat eqn:Es.
    * apply Nat.eqb_eq, map_size_empty_inv in Es. eapply kept_delete; [done| |exact HO]. intros t'. by rewrite <- HD, Es, lookup_empty.
    * eapply kept_set; [done| |exact HD|exact HO|].
      -- intros Em. by rewrite Em, map_size_empty in Es.
      -- intros t' i. cbn [tell]. rewrite String.eqb_refl. cbn [andb]. destruct (String.eqb t' t); [done|]. apply (kept_name _ _ H).
  + eapply kept_ext; [done|]. intros n' t'. cbn [tell]. destruct (String.eqb_spec n' n) as [->|]; [|done].
    destruct (String.eqb_spec t' t) as [->|]; [|done]. cbn. rewrite <- (kept_map _ _ H). unfold of_node. by rewrite E.
Qed.

Lemma kept_forget_node d f n write : kept d f → kept (fst (ForgetNode d n write)) (tell f (ForgetNodeO n)).
Proof.
  intros H.
  apply kept_save. eapply kept_delete; [done| |].
  + intros t. cbn [tell]. by rewrite String.eqb_refl.
  + intros n' t Hne. cbn [tell]. by apply String.eqb_neq in Hne as ->.
Qed.

Lemma kept_apply d f o write : kept d f → kept (apply d (o, write)) (tell f o).
Proof. destruct o; [apply kept_record|apply kept_running|apply kept_forget|apply kept_forget_node]. Qed.

Lemma apply_file d o : nodes d = default ∅ (file d) → nodes (apply d (o, None)) = default ∅ (file (apply d (o, None))).
Proof.
  intros H. destruct o as [n i now|n t r now|n t|n]; cbn [apply].
  - unfold Record_. by destruct (_ || _).
  - unfold SetRunning. by destruct (of_node d n !! t).
  - unfold Forget. by destruct (nodes d !! n).
  - done.
Qed.

(** The panel's record is what it was last told, per server and tunnel, for
    any sequence of instructions whether or not the file can be written: a
    start or stop changes only what was recorded, a deletion leaves nothing.
    [Intent] and [Nodes] list exactly that, and when the writes succeed a panel
    started again has the same record. *)
Theorem intent_kept (os : list (op * option string)) :
  let d := fold_left apply os (NewDesiredAt None) in
  let f := told (map fst os) in
  (∀ n t, of_node d n !! t = f n t) ∧
  (∀ n i, i ∈ Intent d n ↔ f n (Name i) = Some i) ∧
  (∀ n, n ∈ Nodes d ↔ ∃ t, is_Some (f n t)) ∧
  (Forall (λ o, snd o = None) os → nodes (NewDesiredAt (file d)) = nodes d).
Proof.
  intros d f.
  assert (kept d f) as [Hm Hn He].
  { unfold d, f, told. assert (kept (NewDesiredAt None) (λ _ _, None)) as H by (split; [done|done|intros n m E; destruct (lookup_empty_Some (M := gmap string) n m E)]).
    revert H. generalize (NewDesiredAt None) (λ (_ _ : string), @None TunnelIntent). induction os as [|[o w] os IH]; intros d' f' H; [done|].
    cbn [fold_left map fst]. apply IH. by apply kept_apply. }
  split_and!; [done| | |].
  - intros n i. unfold Intent. rewrite merge_sort_Permutation, list_elem_of_fmap, <- Hm. split.
    + intros ([t j] & -> & H%elem_of_map_to_list). cbn [snd]. rewrite Hm in H. rewrite Hm. by rewrite (Hn _ _ _ H).
    + intros H. exists (Name i, i). split; [done|]. by apply elem_of_map_to_list.
  - intros n. unfold Nodes. rewrite Strings_elem, list_elem_of_fmap. split.
    + intros ([n' m] & -> & H%elem_of_map_to_list). cbn [fst]. destruct (map_choose m (He _ _ H)) as (t & i & Hi).
      exists t. rewrite <- Hm. unfold of_node. rewrite H. cbn. eauto.
    + intros (t & i & Hi). rewrite <- Hm in Hi. unfold of_node in Hi. destruct (nodes d !! n) as [m|] eqn:E; [|cbn in Hi; by rewrite lookup_empty in Hi].
      exists (n, m). split; [done|]. by apply elem_of_map_to_list.
  - intros HF. clear Hm Hn He. cbn [NewDesiredAt nodes]. symmetry. unfold d. clear d f. assert (nodes (NewDesiredAt None) = default ∅ (file (NewDesiredAt None))) as H by done.
    revert H. generalize (NewDesiredAt None). induction HF as [|[o w] os Hw _ IH]; intros d' H; [done|]. cbn [snd] in Hw. subst w.
    apply IH. by apply apply_file.
Qed.

End Desired.
