(* ===== verification/GoB64.v ===== *)
(** Go's [encoding/base64]: the standard alphabet with padding
    ([StdEncoding]) and the URL alphabet without ([RawURLEncoding]).

    Decoding skips carriage returns and newlines wherever they are and does not
    look at the bits a last group leaves over, as the package does. *)

From Stdlib Require Import Ascii String.
From S2P Require Import Prelude GoStr.
Import GoStr.
Open Scope string_scope.
Open Scope list_scope.
Open Scope Z_scope.

Module GoB64.

Inductive encoding : Type := StdEncoding | RawURLEncoding.

(** The character of six bits, and back. *)
Definition digit (e : encoding) (d : Z) : ascii :=
  if d <? 26 then ascii_of_nat (Z.to_nat (65 + d))
  else if d <? 52 then ascii_of_nat (Z.to_nat (97 + (d - 26)))
  else if d <? 62 then ascii_of_nat (Z.to_nat (48 + (d - 52)))
  else match e with
       | StdEncoding => if d =? 62 then "+"%char else "/"%char
       | RawURLEncoding => if d =? 62 then "-"%char else "_"%char
       end.

Definition value (e : encoding) (c : ascii) : option Z :=
  let n := Z.of_nat (nat_of_ascii c) in
  if (65 <=? n) && (n <=? 90) then Some (n - 65)
  else if (97 <=? n) && (n <=? 122) then Some (n - 97 + 26)
  else if (48 <=? n) && (n <=? 57) then Some (n - 48 + 52)
  else match e, c with
       | StdEncoding, "+"%char => Some 62
       | StdEncoding, "/"%char => Some 63
       | RawURLEncoding, "-"%char => Some 62
       | RawURLEncoding, "_"%char => Some 63
       | _, _ => None
       end.

Definition padded (e : encoding) : bool := match e with StdEncoding => true | RawURLEncoding => false end.

(** [EncodeToString]. *)
Fixpoint EncodeToString (e : encoding) (l : list Z) : string :=
  match l with
  | a :: b :: c :: l =>
      String (digit e (a `div` 4)) (String (digit e (a `mod` 4 * 16 + b `div` 16))
        (String (digit e (b `mod` 16 * 4 + c `div` 64)) (String (digit e (c `mod` 64)) (EncodeToString e l))))
  | [a; b] =>
      String (digit e (a `div` 4)) (String (digit e (a `mod` 4 * 16 + b `div` 16))
        (String (digit e (b `mod` 16 * 4)) (if padded e then "=" else "")))
  | [a] => String (digit e (a `div` 4)) (String (digit e (a `mod` 4 * 16)) (if padded e then "==" else ""))
  | [] => ""
  end.

Fixpoint strip_newlines (s : string) : string :=
  match s with
  | "" => ""
  | String c s => if Ascii.eqb c "010" || Ascii.eqb c "013" then strip_newlines s else String c (strip_newlines s)
  end.

(** The bytes of a group of two, three or four values. *)
Definition two (x y : Z) : list Z := [x * 4 + y `div` 16].
Definition three (x y z : Z) : list Z := two x y ++ [y `mod` 16 * 16 + z `div` 4].
Definition four (x y z w : Z) : list Z := three x y z ++ [z `mod` 4 * 64 + w].

Fixpoint groups (e : encoding) (s : string) : option (list Z) :=
  match s with
  | "" => Some []
  | String a (String b s) =>
      x ← value e a; y ← value e b;
      match s with
      | "" => if padded e then None else Some (two x y)
      | String c "" => if padded e then None else z ← value e c; Some (three x y z)
      | String c (String d r) =>
          if padded e && Ascii.eqb d "=" then
            if negb (String.eqb r "") then None
            else if Ascii.eqb c "=" then Some (two x y) else z ← value e c; Some (three x y z)
          else z ← value e c; w ← value e d; rest ← groups e r; Some (four x y z w ++ rest)
      end
  | _ => None
  end.

Definition DecodeString (e : encoding) (s : string) : option (list Z) := groups e (strip_newlines s).

(** ** Lemmas *)

Lemma digit_check e :
  forallb (λ n, let d := Z.of_nat n in
    match value e (digit e d) with Some v => v =? d | None => false end &&
    negb (Ascii.eqb (digit e d) "=") && negb (Ascii.eqb (digit e d) "010") && negb (Ascii.eqb (digit e d) "013")) (seq 0 64) = true.
Proof. by destruct e; vm_compute. Qed.

Lemma digit_spec e d : 0 ≤ d < 64 →
  value e (digit e d) = Some d ∧ Ascii.eqb (digit e d) "=" = false ∧
  Ascii.eqb (digit e d) "010" || Ascii.eqb (digit e d) "013" = false.
Proof.
  intros Hd. pose proof (digit_check e) as H. rewrite forallb_forall in H. specialize (H (Z.to_nat d)). rewrite Z2Nat.id in H by lia.
  cbv zeta in H. rewrite !andb_true_iff, !negb_true_iff in H. destruct H as [[[H ?] H1] H2]; [apply in_seq; lia|].
  rewrite H1, H2. destruct (value e (digit e d)) as [v|]; [|done]. apply Z.eqb_eq in H as ->. done.
Qed.

Lemma strip_digit e d s : 0 ≤ d < 64 → strip_newlines (String (digit e d) s) = String (digit e d) (strip_newlines s).
Proof. intros H. cbn [strip_newlines]. by destruct (digit_spec e d H) as (_ & _ & ->). Qed.

Lemma list_ind3 {A} (P : list A → Prop) :
  P [] → (∀ a, P [a]) → (∀ a b, P [a; b]) → (∀ a b c l, P l → P (a :: b :: c :: l)) → ∀ l, P l.
Proof.
  intros H0 H1 H2 H3 l. assert (P l ∧ (∀ a, P (a :: l)) ∧ ∀ a b, P (a :: b :: l)) as [? _]; [|done].
  induction l as [|x l (IH0 & IH1 & IH2)]; [done|]. split_and!; [apply IH1|intros a; apply IH2|intros a b; by apply H3].
Qed.

(** What is decoded is what was encoded. *)
Lemma DecodeString_EncodeToString e l : bytes_ok l → DecodeString e (EncodeToString e l) = Some l.
Proof.
  unfold DecodeString. induction l as [|a|a b|a b c l IH] using list_ind3; intros Hl; [done| | |];
    rewrite !bytes_ok_cons in Hl; unfold byte_ok in Hl; cbn [EncodeToString];
    repeat (rewrite strip_digit by (Z.to_euclidean_division_equations; lia)); cbn [groups];
    repeat (match goal with |- context [value e (digit e ?d)] => destruct (digit_spec e d) as (-> & ? & _); [Z.to_euclidean_division_equations; lia|] end).
  - assert (strip_newlines (if padded e then "==" else "") = if padded e then "==" else "") as -> by (by destruct e).
    destruct e; cbn; unfold two; repeat f_equal; Z.to_euclidean_division_equations; lia.
  - assert (strip_newlines (if padded e then "=" else "") = if padded e then "=" else "") as -> by (by destruct e).
    destruct (digit_spec e (b `mod` 16 * 4)) as (_ & He & _); [Z.to_euclidean_division_equations; lia|].
    destruct e; cbn [padded]; [cbn [Ascii.eqb Bool.eqb andb String.eqb negb]; rewrite He|]; cbn [mbind option_bind];
      unfold three, two; cbn [app]; f_equal; repeat (apply (f_equal2 cons); [Z.to_euclidean_division_equations; lia|]); done.
  - rewrite IH by tauto. destruct (digit_spec e (c `mod` 64)) as (_ & -> & _); [Z.to_euclidean_division_equations; lia|].
    rewrite andb_false_r. cbn [mbind option_bind]. unfold four, three, two. cbn [app]. f_equal.
    repeat (apply (f_equal2 cons); [Z.to_euclidean_division_equations; lia|]). done.
Qed.

End GoB64.
