(* ===== verification/Registry.v ===== *)
(** The servers a panel manages:
    - Module [Seal]: the files of the registry and the sealing of the passwords
      in it ([internal/node/seal.go]);
    - Module [Store]: reading, changing and writing the fleet
      ([internal/node/registry.go]);
    - Module [Remote]: calling a server over SSH ([internal/node/runner.go],
      [internal/node/ssh.go]) and adding one ([internal/control/join.go]).

    The files are state, and so is what writing them can do: a file is replaced
    whole or not at all, with the error an input. AES-GCM is the class [Aead],
    with the one law sealing relies on. What is stored is JSON of strings that
    are valid UTF-8 and of integers, which comes back as it was written. A
    random key or nonce is an input; [crypto/rand] does not fail. *)

From Stdlib Require Import Ascii String.
From stdpp Require Import sorting.
From S2P Require Import Prelude GoStr GoSort GoB64 Fleet.
Import GoStr GoSort GoB64.
Open Scope string_scope.
Open Scope list_scope.
Open Scope Z_scope.

(** [cipher.NewGCM] over [aes.NewCipher], for keys of 32 bytes. *)
Class Aead : Type := {
  seal_bytes : list Z → list Z → list Z → list Z;
  open_bytes : list Z → list Z → list Z → option (list Z);
  open_seal k n p : bytes_ok p → open_bytes k n (seal_bytes k n p) = Some p;
  seal_bytes_ok k n p : bytes_ok (seal_bytes k n p)
}.

(** A stand-in, for examples: the key's first byte stamps what it sealed. *)
Definition stamp_open (k c : list Z) : option (list Z) :=
  match c with b :: p => if b =? u8 (at_ k 0) then Some p else None | [] => None end.

Lemma map_u8 p : bytes_ok p → map u8 p = p.
Proof. induction 1 as [|b p Hb _ IH]; [done|]. cbn [map]. by rewrite u8_small, IH. Qed.

Lemma map_u8_ok p : bytes_ok (map u8 p).
Proof. apply Forall_forall. intros b (x & -> & _)%list_elem_of_fmap. apply u8_range. Qed.

Definition stamp : Aead.
Proof.
  refine {| seal_bytes := λ k _ p, u8 (at_ k 0) :: map u8 p; open_bytes := λ k _ c, stamp_open k c |}.
  - intros k n p H. cbn [stamp_open]. by rewrite Z.eqb_refl, map_u8.
  - intros k n p. apply bytes_ok_cons. split; [apply u8_range|apply map_u8_ok].
Defined.

Module Seal.

Definition NonceSize : nat := 12.
Definition sealPrefix : string := "enc:v1:".

Record Node : Type := mkNode {
  Name : string;
  Host : string;
  SSHPort : Z;
  User : string;
  Password : string;
  Sealed : string;
  Fingerprint : string;
  Added : Z;
  LastSeen : Z;
  Info : Protocol.Info;
  PinnedVersion : string;
  PinReason : string
}.

(** The two files: [nodes.json] and [node.key]. *)
Record disk : Type := mkDisk { nodes_json : option (list Node); node_key : option (list Z) }.

(** What a change to the files is given: the time, what is drawn at random (the
    nonce of the [i]-th password of the file), and whether each file can be
    written. *)
Record env : Type := mkEnv {
  now : Z;
  fresh_key : list Z;
  nonce : nat → list Z;
  write_key : option string;
  write_store : option string
}.

(** Why a registry operation is refused. *)
Inductive error : Type :=
  | NeedsName | LongName | BadName | NeedsAddress | NotAddress (host : string) | BadPort | NeedsUser | NeedsPassword
  | Taken (name : string) | TakenHost (host name : string) | NoServer (name : string)
  | HostKeyChanged (name had got : string) | NeedsReason (name : string)
  | KeyWrite (e : string) | StoreWrite (e : string)
  | NoKey | DamagedKey (n : Z) | NotAKey | WrongKeySize (n : Z) | KeyPresent.

Section seal.
Context {G : Aead}.

Definition key_of (d : disk) : option (list Z) :=
  match node_key d with Some k => if (length k =? 32)%nat then Some k else None | None => None end.

Definition sealingKey (d : disk) (e : env) : disk * result error (list Z) :=
  match key_of d with
  | Some k => (d, Ok k)
  | None =>
      match write_key e with
      | Some x => (d, Err (KeyWrite x))
      | None => (mkDisk (nodes_json d) (Some (fresh_key e)), Ok (fresh_key e))
      end
  end.

(** [seal], for the [i]-th password. *)
Definition seal (d : disk) (e : env) (i : nat) (password : string) : disk * result error string :=
  if String.eqb password "" then (d, Ok "")
  else
    match sealingKey d e with
    | (d, Ok k) => (d, Ok (sealPrefix +:+ EncodeToString StdEncoding (nonce e i ++ seal_bytes k (nonce e i) (to_bytes password))))
    | (d, Err x) => (d, Err x)
    end.

Definition unseal (d : disk) (stored : string) : string :=
  match strip_prefix sealPrefix stored with
  | None => stored
  | Some r =>
      match DecodeString StdEncoding r, key_of d with
      | Some raw, Some k =>
          if (length raw <? NonceSize)%nat then ""
          else match open_bytes k (take NonceSize raw) (drop NonceSize raw) with
               | Some plain => of_bytes plain
               | None => ""
               end
      | _, _ => ""
      end
  end.

Definition ExportSealKey (d : disk) : result error string :=
  match node_key d with
  | None => Err NoKey
  | Some b => if (length b =? 32)%nat then Ok (EncodeToString StdEncoding b) else Err (DamagedKey (zlen b))
  end.

Definition ImportSealKey (d : disk) (encoded : string) (write : option string) : disk * option error :=
  match DecodeString StdEncoding (TrimSpace encoded) with
  | None => (d, Some NotAKey)
  | Some key =>
      if negb (length key =? 32)%nat then (d, Some (WrongKeySize (zlen key)))
      else match node_key d with
           | Some ((_ :: _) as b) => (d, if bool_decide (b = key) then None else Some KeyPresent)
           | _ =>
               match write with
               | Some x => (d, Some (KeyWrite x))
               | None => (mkDisk (nodes_json d) (Some key), None)
               end
           end
  end.

Definition with_secret (n : Node) (password sealed : string) : Node :=
  mkNode (Name n) (Host n) (SSHPort n) (User n) password sealed (Fingerprint n) (Added n) (LastSeen n) (Info n) (PinnedVersion n) (PinReason n).

Definition open_node (d : disk) (n : Node) : Node :=
  with_secret n (if String.eqb (Sealed n) "" then Password n else unseal d (Sealed n)) "".

Definition LoadStore (d : disk) : list Node := map (open_node d) (default [] (nodes_json d)).

Fixpoint seal_all (d : disk) (e : env) (i : nat) (s : list Node) : disk * result error (list Node) :=
  match s with
  | [] => (d, Ok [])
  | n :: s =>
      match seal d e i (Password n) with
      | (d, Err x) => (d, Err x)
      | (d, Ok sealed) =>
          match seal_all d e (S i) s with
          | (d, Err x) => (d, Err x)
          | (d, Ok out) => (d, Ok (with_secret n "" sealed :: out))
          end
      end
  end.

Definition SaveStore (d : disk) (e : env) (s : list Node) : disk * option error :=
  match seal_all d e 0 s with
  | (d, Err x) => (d, Some x)
  | (d, Ok out) =>
      match write_store e with
      | Some x => (d, Some (StoreWrite x))
      | None => (mkDisk (Some out) (node_key d), None)
      end
  end.

(** ** Lemmas *)

(** What is drawn at random has the size asked for. *)
Definition drawn (e : env) : Prop :=
  length (fresh_key e) = 32%nat ∧ ∀ i, length (nonce e i) = NonceSize ∧ bytes_ok (nonce e i).

Lemma key_of_length d k : key_of d = Some k → length k = 32%nat.
Proof. unfold key_of. destruct (node_key d) as [k'|]; [|done]. destruct (Nat.eqb_spec (length k') 32); [|done]. by intros [= <-]. Qed.

(** Sealing opens again, on this disk and on any with the same key. *)
Lemma seal_spec d e i p d' s : drawn e → seal d e i p = (d', Ok s) →
  nodes_json d' = nodes_json d ∧ (p = "" → s = "" ∧ d' = d) ∧
  (p ≠ "" → s ≠ "" ∧ HasPrefix s sealPrefix = true ∧ is_Some (key_of d') ∧ ∀ d2, key_of d2 = key_of d' → unseal d2 s = p) ∧
  (is_Some (key_of d) → d' = d).
Proof.
  intros [Hk Hn] H. unfold seal in H. destruct (String.eqb_spec p "") as [->|Hp]; [injection H as <- <-; done|].
  assert (∃ k, key_of d' = Some k ∧ nodes_json d' = nodes_json d ∧ (is_Some (key_of d) → d' = d) ∧
    s = sealPrefix +:+ EncodeToString StdEncoding (nonce e i ++ seal_bytes k (nonce e i) (to_bytes p))) as (k & Hkd & Hj & Hs & ->).
  { unfold sealingKey in H. destruct (key_of d) as [k|] eqn:E.
    - injection H as <- <-. by exists k.
    - destruct (write_key e); [done|]. injection H as <- <-. exists (fresh_key e). split_and!; [|done|by intros [? ?]|done].
      unfold key_of. cbn [node_key]. by rewrite Hk. }
  split_and!; [done|done| |done]. intros _. split_and!; [done|by unfold HasPrefix; rewrite strip_prefix_app|by rewrite Hkd|].
  intros d2 E2. unfold unseal. rewrite strip_prefix_app, E2, Hkd.
  destruct (Hn i) as [Hl Hb]. rewrite DecodeString_EncodeToString by (apply bytes_ok_app; split; [done|apply seal_bytes_ok]).
  rewrite length_app, Hl. destruct (Nat.ltb_spec (NonceSize + length (seal_bytes k (nonce e i) (to_bytes p))) NonceSize); [lia|].
  rewrite take_app_length', drop_app_length' by done. rewrite open_seal by apply to_bytes_ok. apply of_to_bytes.
Qed.

Lemma seal_all_opens e : drawn e → ∀ s d i d' out, seal_all d e i s = (d', Ok out) →
  nodes_json d' = nodes_json d ∧ (is_Some (key_of d) → d' = d) ∧
  Forall (λ n, Password n = "" ∧ (Sealed n = "" ∨ HasPrefix (Sealed n) sealPrefix = true)) out ∧
  (Forall (λ n, Sealed n = "") s → map (open_node d') out = s).
Proof.
  intros He. induction s as [|n s IH]; intros d i d' out H; cbn [seal_all] in H.
  { injection H as <- <-. done. }
  destruct (seal d e i (Password n)) as [d1 [sealed|x]] eqn:E1; [|done].
  destruct (seal_all d1 e (S i) s) as [d2 [out'|x]] eqn:E2; [|done]. injection H as <- <-.
  destruct (seal_spec _ _ _ _ _ _ He E1) as (J1 & P0 & P1 & K1). destruct (IH _ _ _ _ E2) as (J2 & K2 & F2 & O2).
  split_and!.
  - congruence.
  - intros Hk. rewrite (K1 Hk) in K2. by apply K2.
  - constructor; [|done]. cbn. split; [done|]. destruct (decide (Password n = "")) as [Ep|Ep]; [left; by apply P0|right; by apply P1].
  - intros [Hn Hs]%Forall_cons. cbn [map]. rewrite (O2 Hs). f_equal. unfold open_node, with_secret. cbn.
    assert ((if String.eqb sealed "" then "" else unseal d2 sealed) = Password n) as ->.
    { destruct (decide (Password n = "")) as [Ep|Ep]; [by destruct (P0 Ep) as [-> _]|].
      destruct (P1 Ep) as (Hne & _ & Hk & Hu). apply String.eqb_neq in Hne as ->. apply Hu. by rewrite (K2 Hk). }
    destruct n. cbn in *. by subst.
Qed.

Lemma LoadStore_unsealed d : Forall (λ n, Sealed n = "") (LoadStore d).
Proof. unfold LoadStore. apply Forall_forall. by intros n (m & -> & _)%list_elem_of_fmap. Qed.

(** What is saved is what is read back, passwords included, and no password is
    in the file. *)
Lemma SaveStore_LoadStore d e s d' : drawn e → Forall (λ n, Sealed n = "") s → SaveStore d e s = (d', None) →
  LoadStore d' = s ∧
  Forall (λ n, Password n = "" ∧ (Sealed n = "" ∨ HasPrefix (Sealed n) sealPrefix = true)) (default [] (nodes_json d')).
Proof.
  intros He Hs H. unfold SaveStore in H. destruct (seal_all d e 0 s) as [d1 [out|x]] eqn:E; [|done].
  destruct (write_store e); [done|]. injection H as <-. destruct (seal_all_opens e He _ _ _ _ _ E) as (_ & _ & HF & HO).
  split; [|done]. unfold LoadStore. cbn [nodes_json default]. rewrite <- (HO Hs). apply map_ext. intros n. done.
Qed.

End seal.

End Seal.

Module Store.
Import Seal.

(** ** Names *)

Definition name_char (c : ascii) : bool :=
  let n := Z.of_nat (nat_of_ascii c) in
  Ascii.eqb c "-" || Ascii.eqb c "_" || ((97 <=? n) && (n <=? 122)) || ((65 <=? n) && (n <=? 90)) || ((48 <=? n) && (n <=? 57)).

Definition validName (name : string) : option error :=
  let name := TrimSpace name in
  if String.eqb name "" then Some NeedsName
  else if 40 <? Z.of_nat (String.length name) then Some LongName
  else if forallb name_char (list_ascii_of_string name) then None
  else Some BadName.

(** ** The operations, as changes of the fleet in memory *)

Fixpoint clash (s : list Node) (name host : string) (port : Z) : option error :=
  match s with
  | [] => None
  | n :: s =>
      if EqualFold (Name n) name then Some (Taken name)
      else if EqualFold (Host n) host && (SSHPort n =? port) then Some (TakenHost host (Name n))
      else clash s name host port
  end.

Definition blanks : list ascii := [" "; "009"; "/"; "092"]%char.

(** The checks of [Add] that need no registry; what they let through is
    trimmed. *)
Definition checked (name host : string) (port : Z) (user password : string) : result error (string * string * string) :=
  let name := TrimSpace name in
  match validName name with
  | Some x => Err x
  | None =>
      let host := TrimSpace host in
      if String.eqb host "" then Err NeedsAddress
      else if existsb (λ c, contains_char c host) blanks then Err (NotAddress host)
      else if (port <? 0) || (65535 <? port) then Err BadPort
      else
        let user := TrimSpace user in
        if String.eqb user "" then Err NeedsUser
        else if String.eqb password "" then Err NeedsPassword
        else Ok (name, host, user)
  end.

Definition new_node (name host : string) (port : Z) (user password : string) (now : Z) : Node :=
  mkNode name host port user password "" "" now 0 (Protocol.mkInfo "" "" "") "" "".

(** The first server that [P] holds of, changed by [f]. *)
Fixpoint on_first (P : Node → bool) (f : Node → result error Node) (name : string) (s : list Node) : result error (list Node) :=
  match s with
  | [] => Err (NoServer name)
  | n :: s =>
      if P n then match f n with Ok n => Ok (n :: s) | Err x => Err x end
      else match on_first P f name s with Ok s => Ok (n :: s) | Err x => Err x end
  end.

Definition called (name : string) (n : Node) : bool := EqualFold (Name n) name.

Definition set_fingerprint (fp : string) (n : Node) : Node :=
  mkNode (Name n) (Host n) (SSHPort n) (User n) (Password n) (Sealed n) fp (Added n) (LastSeen n) (Info n) (PinnedVersion n) (PinReason n).

Definition note_fingerprint (name fp : string) (n : Node) : result error Node :=
  if negb (String.eqb (Fingerprint n) "") && negb (String.eqb (Fingerprint n) fp) then Err (HostKeyChanged name (Fingerprint n) fp)
  else Ok (set_fingerprint fp n).

Definition note_info (info : Protocol.Info) (now : Z) (n : Node) : result error Node :=
  Ok (mkNode (Name n) (Host n) (SSHPort n) (User n) (Password n) (Sealed n) (Fingerprint n) (Added n) now
        (Protocol.mkInfo (Name n) (Protocol.Hostname info) (Protocol.Version info)) (PinnedVersion n) (PinReason n)).

Definition set_credentials (host : string) (port : Z) (user password : string) (n : Node) : result error Node :=
  let moved := negb (String.eqb host "") && negb (EqualFold host (Host n)) in
  Ok (mkNode (Name n) (if moved then host else Host n) (if 0 <? port then port else SSHPort n)
        (if String.eqb user "" then User n else user) (if String.eqb password "" then Password n else password)
        (Sealed n) (if moved then "" else Fingerprint n) (Added n) (LastSeen n) (Info n) (PinnedVersion n) (PinReason n)).

Definition set_pin (version reason : string) (n : Node) : Node :=
  mkNode (Name n) (Host n) (SSHPort n) (User n) (Password n) (Sealed n) (Fingerprint n) (Added n) (LastSeen n) (Info n) version reason.

Definition pin (reason : string) (n : Node) : result error Node :=
  let v := Protocol.Version (Info n) in
  Ok (set_pin (if String.eqb v "" then "its current version" else v) reason n).

Definition remove (name : string) (s : list Node) : result error (list Node) :=
  if existsb (called name) s then Ok (filter (λ n, called name n = false) s) else Err (NoServer name).

(** The operations of the package. *)
Inductive op : Type :=
  | Add (name host : string) (port : Z) (user password : string)
  | NoteFingerprint (name fp : string)
  | NoteInfo (name : string) (info : Protocol.Info)
  | SetCredentials (name host : string) (port : Z) (user password : string)
  | Remove (name : string)
  | Pin (name reason : string)
  | Unpin (name : string).

(** What the function given to [update] does. [Add] and [Pin] check their
    arguments before it is called, which comes to the same. *)
Definition change (o : op) (now : Z) (s : list Node) : result error (list Node) :=
  match o with
  | Add name host port user password =>
      match checked name host port user password with
      | Err x => Err x
      | Ok (name, host, user) =>
          match clash s name host port with
          | Some x => Err x
          | None => Ok (s ++ [new_node name host port user password now])
          end
      end
  | NoteFingerprint name fp => on_first (called name) (note_fingerprint name fp) name s
  | NoteInfo name info => on_first (called name) (note_info info now) name s
  | SetCredentials name host port user password => on_first (called name) (set_credentials host port user password) name s
  | Remove name => remove name s
  | Pin name reason =>
      let reason := TrimSpace reason in
      if String.eqb reason "" then Err (NeedsReason name)
      else on_first (λ n, String.eqb (Name n) name) (pin reason) name s
  | Unpin name => on_first (λ n, String.eqb (Name n) name) (λ n, Ok (set_pin "" "" n)) name s
  end.

Section store.
Context {G : Aead}.

(** [update]: read, change, and write back what was read and changed. *)
Definition update (d : disk) (e : env) (o : op) : disk * option error :=
  match change o (now e) (LoadStore d) with
  | Err x => (d, Some x)
  | Ok s => SaveStore d e s
  end.

Definition blank (n : Node) : Node := with_secret n "" "".

Definition added_le (a b : Node) : Prop := Added a ≤ Added b.

#[export] Instance added_le_dec a b : Decision (added_le a b).
Proof. unfold added_le. apply _. Defined.

(** [List]; servers added in the same second are in an order the code leaves
    open. *)
Definition ListNodes (d : disk) : list Node := merge_sort added_le (map blank (LoadStore d)).

Definition findWithSecret (d : disk) (name : string) : option Node := List.find (called name) (LoadStore d).

Definition Find (d : disk) (name : string) : option Node := option_map blank (findWithSecret d name).

Definition Pinned (n : Node) : option Rollout.Skip :=
  if String.eqb (PinnedVersion n) "" then None else Some (Rollout.mkSkip (Name n) (PinnedVersion n) (PinReason n)).

Definition HasSealedPasswords (d : disk) : bool := existsb (λ n, HasPrefix (Sealed n) sealPrefix) (ListNodes d).

(** What a staged upgrade of the fleet would do now ([rolloutPlan] of
    [internal/webui/rollout.go]). *)
Definition rolloutPlan (d : disk) : Rollout.Plan :=
  let list := ListNodes d in
  let pins := fold_left (λ m n, match Pinned n with Some k => <[Name n := k]> m | None => m end) list (∅ : gmap string Rollout.Skip) in
  Rollout.PlanRollout (map Name list) Rollout.DefaultWave (λ name, pins !! name).

(** ** Lemmas *)

(** What every fleet is: names that can name a unit and a path, no two alike. *)
Record fleet_ok (s : list Node) : Prop := {
  fleet_names : Forall (λ n, validName (Name n) = None) s;
  fleet_distinct : NoDup (map (λ n, fold_case (Name n)) s);
  fleet_open : Forall (λ n, Sealed n = "") s
}.

Lemma clash_none s name host port : clash s name host port = None → fold_case name ∉ map (λ n, fold_case (Name n)) s.
Proof.
  induction s as [|n s IH]; intros H; [apply not_elem_of_nil|]. cbn [clash] in H. unfold EqualFold in H.
  destruct (String.eqb_spec (fold_case (Name n)) (fold_case name)) as [|Hne]; [done|].
  destruct (_ && _); [done|]. cbn [map]. rewrite not_elem_of_cons. split; [congruence|by apply IH].
Qed.

Lemma Forall_filter' {A} (P Q : A → Prop) `{!∀ x, Decision (Q x)} l : Forall P l → Forall P (filter Q l).
Proof. rewrite !Forall_forall. intros HP x [_ Hx]%list_elem_of_filter. by apply HP. Qed.

Lemma on_first_fields P f name s s' : (∀ n n', f n = Ok n' → Name n' = Name n ∧ Sealed n' = Sealed n) →
  on_first P f name s = Ok s' → Forall2 (λ n n', Name n' = Name n ∧ Sealed n' = Sealed n) s s'.
Proof.
  intros Hf. revert s'. induction s as [|n s IH]; intros s' H; [done|]. cbn [on_first] in H. destruct (P n).
  - destruct (f n) as [n'|] eqn:E; [|done]. injection H as <-. constructor; [by apply Hf|]. clear. induction s; constructor; done.
  - destruct (on_first P f name s) as [s2|]; [|done]. injection H as <-. constructor; [done|by apply IH].
Qed.

Lemma fleet_ok_fields s s' : Forall2 (λ n n', Name n' = Name n ∧ Sealed n' = Sealed n) s s' → fleet_ok s → fleet_ok s'.
Proof.
  intros H [H1 H2 H3].
  assert (map (λ n, fold_case (Name n)) s' = map (λ n, fold_case (Name n)) s) as E.
  { clear -H. induction H as [|n n' s s' [E _] _ IH]; [done|]. cbn [map]. by rewrite E, IH. }
  split; [|by rewrite E|].
  - clear -H H1. induction H as [|n n' s s' [E _] _ IH]; [done|]. apply Forall_cons in H1 as [? ?]. constructor; [by rewrite E|by apply IH].
  - clear -H H3. induction H as [|n n' s s' [_ E] _ IH]; [done|]. apply Forall_cons in H3 as [? ?]. constructor; [by rewrite E|by apply IH].
Qed.

Lemma checked_name name host port user password a b c :
  checked name host port user password = Ok (a, b, c) → a = TrimSpace name ∧ validName a = None.
Proof.
  unfold checked. destruct (validName (TrimSpace name)) eqn:E; [done|]. repeat (destruct (_ : bool); [done|]). by intros [= <- _ _].
Qed.

Lemma checked_fields name host port user password a b c :
  checked name host port user password = Ok (a, b, c) → a = TrimSpace name ∧ b = TrimSpace host ∧ c = TrimSpace user.
Proof. unfold checked. destruct (validName (TrimSpace name)); [done|]. repeat (destruct (_ : bool); [done|]). by intros [= <- <- <-]. Qed.

Lemma change_ok o t s s' : fleet_ok s → change o t s = Ok s' → fleet_ok s'.
Proof.
  intros Hs H. destruct o as [name host port user password|name fp|name info|name host port user password|name|name reason|name]; cbn [change] in H.
  - destruct (checked _ _ _ _ _) as [[[a b] c]|] eqn:Ec; [|done]. destruct (clash s a b port) eqn:El; [done|].
    injection H as <-. destruct (checked_name _ _ _ _ _ _ _ _ Ec) as [_ Hv]. apply clash_none in El. destruct Hs as [H1 H2 H3]. split.
    + apply Forall_app. split; [done|by constructor].
    + rewrite map_app. apply NoDup_app. split_and!; [done| |apply NoDup_singleton].
      intros x Hx ->%list_elem_of_singleton. done.
    + apply Forall_app. split; [done|by constructor].
  - eapply fleet_ok_fields; [|done]. eapply on_first_fields; [|done]. intros n n'. unfold note_fingerprint. destruct (_ && _); [done|]. by intros [= <-].
  - eapply fleet_ok_fields; [|done]. eapply on_first_fields; [|done]. by intros n n' [= <-].
  - eapply fleet_ok_fields; [|done]. eapply on_first_fields; [|done]. by intros n n' [= <-].
  - unfold remove in H. destruct (existsb _ s); [|done]. injection H as <-. destruct Hs as [H1 H2 H3]. split.
    + eapply Forall_filter'; eassumption.
    + eapply sublist_NoDup; [exact H2|]. eapply fmap_sublist, sublist_filter.
    + eapply Forall_filter'; eassumption.
  - destruct (String.eqb _ _); [done|]. eapply fleet_ok_fields; [|done]. eapply on_first_fields; [|done]. by intros n n' [= <-].
  - eapply fleet_ok_fields; [|done]. eapply on_first_fields; [|done]. by intros n n' [= <-].
Qed.

(** A password in the file is sealed. *)
Definition sealed_file (d : disk) : Prop :=
  Forall (λ n, Password n = "" ∧ (Sealed n = "" ∨ HasPrefix (Sealed n) sealPrefix = true)) (default [] (nodes_json d)).

Lemma seal_all_json e : ∀ s d i, nodes_json (fst (seal_all d e i s)) = nodes_json d ∧
  (write_key e = None → ∃ out, snd (seal_all d e i s) = Ok out).
Proof.
  induction s as [|n s IH]; intros d i; cbn [seal_all]; [split; [done|eauto]|].
  assert (nodes_json (fst (seal d e i (Password n))) = nodes_json d ∧
    (write_key e = None → ∃ x, snd (seal d e i (Password n)) = Ok x)) as [J K].
  { unfold seal, sealingKey. destruct (String.eqb _ _); [split; [done|eauto]|].
    destruct (key_of d); [split; [done|eauto]|]. destruct (write_key e); [done|]. split; [done|eauto]. }
  destruct (seal d e i (Password n)) as [d1 [x|x]]; cbn [fst snd] in J, K.
  2: { split; [done|]. intros Hw. by destruct (K Hw). }
  destruct (IH d1 (S i)) as [J1 K1]. destruct (seal_all d1 e (S i) s) as [d2 [out|y]]; cbn [fst snd] in *; split; try congruence.
  - eauto.
  - intros Hw. by destruct (K1 Hw).
Qed.

Lemma update_fails d e o x : snd (update d e o) = Some x → nodes_json (fst (update d e o)) = nodes_json d.
Proof.
  unfold update. destruct (change o (now e) (LoadStore d)) as [s|]; [|done]. unfold SaveStore.
  destruct (seal_all_json e s d 0) as [J _]. destruct (seal_all d e 0 s) as [d1 [out|y]]; cbn [fst snd] in *; [|done].
  by destruct (write_store e).
Qed.

Lemma update_done d e o : drawn e → fleet_ok (LoadStore d) → snd (update d e o) = None →
  ∃ s, change o (now e) (LoadStore d) = Ok s ∧ LoadStore (fst (update d e o)) = s ∧ fleet_ok s ∧ sealed_file (fst (update d e o)).
Proof.
  intros He Hd. unfold update. destruct (change o (now e) (LoadStore d)) as [s|] eqn:E; [|done]. intros H.
  pose proof (change_ok _ _ _ _ Hd E) as Hs. exists s. destruct (SaveStore d e s) as [d' r] eqn:E'. cbn [fst snd] in *. subst r.
  by destruct (SaveStore_LoadStore d e s d' He (fleet_open _ Hs) E').
Qed.

(** What is drawn has its size, and the files can be written. *)
Definition env_ok (e : env) : Prop := drawn e ∧ write_key e = None ∧ write_store e = None.

Lemma update_ok d e o : env_ok e → fleet_ok (LoadStore d) →
  match change o (now e) (LoadStore d) with
  | Err x => update d e o = (d, Some x)
  | Ok s => ∃ d', update d e o = (d', None) ∧ LoadStore d' = s ∧ fleet_ok (LoadStore d')
  end.
Proof.
  intros (He & Hk & Hw) Hd. destruct (change o (now e) (LoadStore d)) as [s|x] eqn:E; [|unfold update; by rewrite E].
  assert (snd (update d e o) = None) as Hn.
  { unfold update. rewrite E. unfold SaveStore. destruct (seal_all_json e s d 0) as [_ K]. destruct (K Hk) as [out Ho].
    destruct (seal_all d e 0 s) as [d1 r]. cbn [snd] in Ho. by rewrite Ho, Hw. }
  destruct (update_done d e o He Hd Hn) as (s' & Es & H1 & H2 & _). destruct (update d e o) as [d' r]. cbn [fst snd] in *.
  exists d'. split_and!; [congruence|congruence|by rewrite H1].
Qed.

(** C21: an operation on the registry is the change it names, made to the fleet
    with its passwords readable: read back after it, the fleet is what the
    change gives, with every password, and if the change is refused nothing is
    written. Only a file that cannot be written stands in the way, and then the
    registry is the one before. *)
Theorem update_refines d e o : drawn e → fleet_ok (LoadStore d) →
  match change o (now e) (LoadStore d) with
  | Err x => update d e o = (d, Some x)
  | Ok s =>
      (snd (update d e o) = None → LoadStore (fst (update d e o)) = s ∧ sealed_file (fst (update d e o))) ∧
      (write_key e = None → write_store e = None → snd (update d e o) = None) ∧
      (∀ x, snd (update d e o) = Some x → nodes_json (fst (update d e o)) = nodes_json d)
  end.
Proof.
  intros He Hd. destruct (change o (now e) (LoadStore d)) as [s|x] eqn:E; [|unfold update; by rewrite E].
  split_and!.
  - intros H. destruct (update_done d e o He Hd H) as (s' & Es & H1 & _ & H2). split; [congruence|done].
  - intros Hk Hw. pose proof (update_ok d e o (conj He (conj Hk Hw)) Hd) as H. rewrite E in H. by destruct H as (d' & -> & _).
  - intros x. apply update_fails.
Qed.

Definition run (d : disk) (es : list (env * op)) : disk := fold_left (λ d x, fst (update d (fst x) (snd x))) es d.

(** C22: Whatever is done to the registry, refused or failing to be written
    included, no two servers have names alike but for case, every name can name
    a unit and a path, and the file holds no password that is not sealed. *)
Theorem fleet_kept es : Forall (λ x, drawn (fst x)) es →
  let d := run (mkDisk None None) es in
  NoDup (map (λ n, fold_case (Name n)) (default [] (nodes_json d))) ∧
  Forall (λ n, validName (Name n) = None) (default [] (nodes_json d)) ∧ sealed_file d.
Proof.
  intros He.
  assert (∀ d, fleet_ok (LoadStore d) ∧ sealed_file d → fleet_ok (LoadStore (run d es)) ∧ sealed_file (run d es)) as H.
  { induction He as [|[e o] es Hx _ IH]; intros d [H1 H2]; [done|]. cbn [run fold_left fst snd]. apply IH.
    destruct (snd (update d e o)) as [x|] eqn:E.
    - apply update_fails in E. unfold sealed_file. rewrite E. split; [|done].
      assert (Forall2 (λ n n', Name n' = Name n ∧ Sealed n' = Sealed n) (LoadStore d) (LoadStore (fst (update d e o)))) as HF.
      { unfold LoadStore. rewrite E. clear. induction (default [] (nodes_json d)) as [|n l IH]; cbn [map]; constructor; done. }
      by eapply fleet_ok_fields.
    - destruct (update_done d e o Hx H1 E) as (s & _ & -> & ? & ?). done. }
  destruct (H (mkDisk None None)) as [[H1 H2 _] H3]; [split; [split; by constructor|by constructor]|].
  cbv zeta. unfold LoadStore in H1, H2. rewrite Forall_map in H1. rewrite map_map in H2. done.
Qed.

(** ** The key *)

Lemma digit_printable e d : 0 ≤ d < 64 → printable (digit e d) = true.
Proof.
  intros Hd. assert (forallb (λ n, printable (digit e (Z.of_nat n))) (seq 0 64) = true) as H by (destruct e; by vm_compute).
  rewrite forallb_forall in H. specialize (H (Z.to_nat d)). rewrite Z2Nat.id in H by lia. apply H, in_seq. lia.
Qed.

Lemma EncodeToString_printable e l : bytes_ok l → all_chars printable (EncodeToString e l).
Proof.
  induction l as [|a|a b|a b c l IH] using list_ind3; intros Hl; [constructor| | |];
    rewrite !bytes_ok_cons in Hl; unfold byte_ok in Hl; cbn [EncodeToString];
    repeat (apply all_chars_cons; split; [apply digit_printable; Z.to_euclidean_division_equations; lia|]).
  - destruct e; cbn; repeat constructor.
  - destruct e; cbn; repeat constructor.
  - apply IH. tauto.
Qed.

(** The fleet survives the machine. With the key exported from it and the
    registry from a backup, a machine that has neither reads the fleet back
    with every password; importing the key again changes nothing, and a key
    that is there is never replaced. *)
Theorem key_recovers d k : key_of d = Some k → bytes_ok k →
  ∃ text, ExportSealKey d = Ok text ∧
  let restored := mkDisk (nodes_json d) None in
  snd (ImportSealKey restored text None) = None ∧
  LoadStore (fst (ImportSealKey restored text None)) = LoadStore d ∧
  ImportSealKey d text None = (d, None) ∧
  ∀ other write, key_of (fst (ImportSealKey d other write)) = Some k.
Proof.
  intros Hk Hb. pose proof (key_of_length d k Hk) as Hl.
  assert (node_key d = Some k) as Hn by (unfold key_of in Hk; destruct (node_key d) as [k'|]; [|done]; destruct (_ =? _)%nat; congruence).
  exists (EncodeToString StdEncoding k). unfold ExportSealKey, ImportSealKey. rewrite Hn, Hl. split; [done|].
  rewrite TrimSpace_printable by by apply EncodeToString_printable. rewrite DecodeString_EncodeToString by done. rewrite Hl. cbn [Nat.eqb negb].
  split_and!; try done.
  - cbn [fst node_key]. unfold LoadStore. cbn [nodes_json]. apply map_ext. intros n. unfold open_node. do 2 f_equal.
    unfold unseal. rewrite Hk. unfold key_of. cbn [node_key]. by rewrite Hl.
  - destruct k as [|b k]; [done|]. by rewrite bool_decide_true.
  - intros other write. destruct (DecodeString StdEncoding (TrimSpace other)) as [key|]; [|done].
    destruct (negb _); [done|]. destruct k as [|b k]; [done|]. exact Hk.
Qed.

(** [HasSealedPasswords] looks for what [LoadStore] has cleared. *)
Lemma sealed_never_reported d : HasSealedPasswords d = false.
Proof.
  unfold HasSealedPasswords. apply not_true_is_false. intros (n & Hn & H)%existsb_exists.
  apply list_elem_of_In in Hn. unfold ListNodes in Hn. rewrite merge_sort_Permutation in Hn.
  by apply list_elem_of_fmap in Hn as (m & -> & _).
Qed.

End store.

(** ** At work *)

Definition demo_env : env := mkEnv 1000 (repeat 7 32) (λ i, repeat (u8 (Z.of_nat i)) 12) None None.

Lemma demo_drawn : drawn demo_env.
Proof. split; [done|]. intros i. split; [done|]. apply Forall_forall. intros b Hb. apply list_elem_of_In, repeat_spec in Hb as ->. apply u8_range. Qed.

Definition demo_ops : list (env * op) :=
  [(demo_env, Add "a" "10.0.0.1" 22 "root" "secret"); (demo_env, Add "A" "10.0.0.2" 22 "root" "x");
   (demo_env, Add "b" "10.0.0.2" 22 "root" "hunter2"); (demo_env, NoteFingerprint "a" "SHA256:k")].

Definition demo_disk : disk := run (G := stamp) (mkDisk None None) demo_ops.

Lemma demo_ops_drawn : Forall (λ x, drawn (fst x)) demo_ops.
Proof. repeat (constructor; [apply demo_drawn|]). constructor. Qed.

Lemma fleet_kept_witness :
  map Name (default [] (nodes_json demo_disk)) = ["a"; "b"] ∧ sealed_file demo_disk.
Proof. split; [by vm_compute|]. apply (fleet_kept (G := stamp) demo_ops demo_ops_drawn). Defined.

Lemma demo_fleet_ok : fleet_ok (LoadStore (G := stamp) demo_disk).
Proof. split; apply (bool_decide_unpack _); by vm_compute. Qed.

Lemma update_refines_witness :
  let d := fst (update (G := stamp) demo_disk demo_env (SetCredentials "B" "10.0.0.3" 0 "" "correct horse")) in
  map Password (LoadStore (G := stamp) d) = ["secret"; "correct horse"] ∧
  snd (update (G := stamp) demo_disk demo_env (SetCredentials "B" "10.0.0.3" 0 "" "correct horse")) = None.
Proof.
  split; [by vm_compute|].
  pose proof (update_refines (G := stamp) demo_disk demo_env (SetCredentials "B" "10.0.0.3" 0 "" "correct horse") demo_drawn demo_fleet_ok) as H.
  destruct (change _ _ _) as [s|x] eqn:E; [by apply H|]. vm_compute in E. discriminate E.
Defined.

Lemma key_recovers_witness :
  ∃ text, ExportSealKey demo_disk = Ok text ∧
  map Password (LoadStore (G := stamp) (fst (ImportSealKey (mkDisk (nodes_json demo_disk) None) text None))) = ["secret"; "hunter2"].
Proof.
  destruct (key_recovers (G := stamp) demo_disk (repeat 7 32)) as (text & H1 & _ & H2 & _).
  - by vm_compute.
  - apply (bool_decide_unpack _). by vm_compute.
  - exists text. split; [exact H1|]. rewrite H2. by vm_compute.
Defined.

(** A backup restored where its key is not: any change to the registry before
    the key is put back, here a pin, writes the passwords it could not read
    back as none, and the key no longer recovers them. *)
Example touched_backup_is_lost :
  let restored := mkDisk (nodes_json demo_disk) None in
  let touched := fst (update (G := stamp) restored demo_env (Pin "a" "migrating")) in
  match ExportSealKey demo_disk with
  | Ok text =>
      map Password (LoadStore (G := stamp) (fst (ImportSealKey restored text None))) = ["secret"; "hunter2"] ∧
      map Password (LoadStore (G := stamp) (fst (ImportSealKey touched text None))) = [""; ""]
  | Err _ => False
  end.
Proof. by vm_compute. Qed.

(** A server is found by its name in any case, and pinned only by the case it was
    added in. *)
Example pin_minds_case :
  option_map Name (Find (G := stamp) demo_disk "A") = Some "a" ∧
  snd (update (G := stamp) demo_disk demo_env (Pin "A" "migrating")) = Some (NoServer "A").
Proof. by vm_compute. Qed.

End Store.

Module Remote.
Import Seal Store.

Definition sshIdle : Z := 90.
Definition reachTTL : Z := 20.

Record SSHTarget : Type := mkTarget { THost : string; TPort : Z; TUser : string; TPassword : string; TFingerprint : string }.

(** A connection in the pool. The machine it goes to and the host key that
    machine presented are facts of the connection that the pool does not
    keep. *)
Record pooled : Type := mkPooled { peer : string * Z; hostKey : string; used : Z }.

(** Why a server could not be reached. *)
Inductive why : Type :=
  | Unreachable (e : string) | KeyChanged (name had got : string) | LoginRefused (host user : string) | Handshake (e : string)
  | Output (e : string) | NotInstalled | TooOld | SaidNothing (name : string) | Unreadable (name : string).

Record reach : Type := mkReach { RWhy : option why; RWhen : Z }.

Record runner : Type := mkRunner { conns : gmap string pooled; status : gmap string reach }.

Definition NewSSHRunner : runner := mkRunner ∅ ∅.

(** What the network and the servers answer: to the [k]-th connection of an
    operation, and to the [k]-th command, on the machine it goes to. *)
Inductive dialled : Type := NoRoute (e : string) | Presents (key : string) (auth : option string).

Record net : Type := mkNet {
  dial : nat → string * Z → dialled;
  command : nat → string * Z → result string string
}.

Definition addr (t : SSHTarget) : string * Z := (THost t, if TPort t =? 0 then 22 else TPort t).

Definition dialSSH (name : string) (t : SSHTarget) (x : dialled) : result why string :=
  match x with
  | NoRoute e => Err (Unreachable e)
  | Presents key auth =>
      if negb (String.eqb (TFingerprint t) "") && negb (String.eqb key (TFingerprint t)) then Err (KeyChanged name (TFingerprint t) key)
      else match auth with
           | Some e => Err (if Contains e "unable to authenticate" then LoginRefused (THost t) (TUser t) else Handshake e)
           | None => Ok key
           end
  end.

Definition set_conns (r : runner) (m : gmap string pooled) : runner := mkRunner m (status r).

(** [get]: the connection and the key seen, if it had to dial. *)
Definition get (r : runner) (now : Z) (name : string) (t : SSHTarget) (x : dialled) : runner * result why (pooled * string) :=
  let fresh (r : runner) :=
    match dialSSH name t x with
    | Err w => (r, Err w)
    | Ok key => let c := mkPooled (addr t) key now in (set_conns r (<[name := c]> (conns r)), Ok (c, key))
    end in
  match conns r !! name with
  | Some c =>
      if now - used c <? sshIdle then
        let c := mkPooled (peer c) (hostKey c) now in (set_conns r (<[name := c]> (conns r)), Ok (c, ""))
      else fresh (set_conns r (delete name (conns r)))
  | None => fresh r
  end.

Definition drop_conn (r : runner) (name : string) : runner := set_conns r (delete name (conns r)).

Definition outdatedBackpack (msg : string) : bool :=
  Contains msg ("unknown command " +:+ String "034" ("exec" +:+ String "034" "")) ||
  (Contains msg "backpack node" && (Contains msg "node setup" || Contains msg "--setup-key")).

Definition backpackMissing (msg : string) : why :=
  if Contains msg "not found" || Contains msg "No such file" then NotInstalled
  else if outdatedBackpack msg then TooOld
  else Output msg.

Definition lastLine (s : string) : string :=
  match cut_last s "010" with Some (_, r) => TrimSpace r | None => s end.

Record Response : Type := mkResponse { ROK : bool; RErr : string; Body : string }.

Inductive callErr : Type := NotListed (name : string) | NoAddress (name : string) | Offline (name : string) (w : why) | Refused (msg : string) | BadBody.

(** [errors.Is (err, ErrNeedsInstall)]. *)
Definition needsInstall (x : callErr) : bool :=
  match x with Offline _ NotInstalled | Offline _ TooOld => true | _ => false end.

Section remote.
Context {G : Aead}.
(** [json.Unmarshal] into a response, and of its body into what a server says of
    itself. *)
Context (unmarshal : list Z → option Response) (unmarshal_info : string → option Protocol.Info).

Definition targetFor (d : disk) (name : string) : result callErr SSHTarget :=
  match findWithSecret d name with
  | None => Err (NotListed name)
  | Some n =>
      if String.eqb (Host n) "" then Err (NoAddress name)
      else Ok (mkTarget (Host n) (SSHPort n) (User n) (Password n) (Fingerprint n))
  end.

(** The first key a server shows is noted; an error of that is only logged. *)
Definition note_key (d : disk) (e : env) (name : string) (t : SSHTarget) (seen : string) : disk :=
  if negb (String.eqb seen "") && String.eqb (TFingerprint t) "" then fst (update d e (NoteFingerprint name seen)) else d.

Definition decode (name stdout : string) : result why Response :=
  let line := TrimSpace stdout in
  if String.eqb line "" then Err (SaidNothing name)
  else match DecodeString StdEncoding (lastLine line) with
       | None => Err (Unreadable name)
       | Some raw => match unmarshal raw with Some resp => Ok resp | None => Err (Unreadable name) end
       end.

Definition exec (d : disk) (e : env) (r : runner) (now : Z) (n : net) (name : string) (t : SSHTarget) : disk * runner * result why Response :=
  match get r now name t (dial n 0%nat (addr t)) with
  | (r, Err w) => (d, r, Err w)
  | (r, Ok (c, seen)) =>
      let d := note_key d e name t seen in
      match command n 0%nat (peer c) with
      | Ok out => (d, r, decode name out)
      | Err err =>
          match get (drop_conn r name) now name t (dial n 1%nat (addr t)) with
          | (r, Err _) => (d, r, Err (Output err))
          | (r, Ok (c, _)) =>
              match command n 1%nat (peer c) with
              | Err err => (d, r, Err (backpackMissing err))
              | Ok out => (d, r, decode name out)
              end
          end
      end
  end.

Definition note (r : runner) (name : string) (w : option why) (now : Z) : runner := mkRunner (conns r) (<[name := mkReach w now]> (status r)).

(** [Call] of [OpHello]. *)
Definition Call (d : disk) (e : env) (r : runner) (now : Z) (n : net) (name : string) : disk * runner * result callErr Protocol.Info :=
  match targetFor d name with
  | Err x => (d, r, Err x)
  | Ok t =>
      match exec d e r now n name t with
      | (d, r, Err w) => (d, note r name (Some w) now, Err (Offline name w))
      | (d, r, Ok resp) =>
          (d, note r name None now,
           if negb (ROK resp) then Err (Refused (RErr resp))
           else if String.eqb (Body resp) "" then Ok (Protocol.mkInfo "" "" "")
           else match unmarshal_info (Body resp) with Some info => Ok info | None => Err BadBody end)
      end
  end.

Definition IsOnline (d : disk) (e : env) (r : runner) (now : Z) (n : net) (name : string) : disk * runner * bool :=
  let ask := match Call d e r now n name with (d, r, x) => (d, r, is_ok x) end in
  match status r !! name with
  | Some s => if now - RWhen s <? reachTTL then (d, r, match RWhy s with None => true | Some _ => false end) else ask
  | None => ask
  end.

Definition Forget (r : runner) (name : string) : runner := mkRunner (delete name (conns r)) (delete name (status r)).

Inductive installErr : Type := InstallCall (x : callErr) | InstallDial (w : why) | InstallRun (e : string).

Definition Install (d : disk) (e : env) (r : runner) (now : Z) (n : net) (name : string) : disk * runner * option installErr :=
  match targetFor d name with
  | Err x => (d, r, Some (InstallCall x))
  | Ok t =>
      match get r now name t (dial n 0%nat (addr t)) with
      | (r, Err w) => (d, r, Some (InstallDial w))
      | (r, Ok (c, seen)) =>
          (note_key d e name t seen, r, match command n 0%nat (peer c) with Ok _ => None | Err x => Some (InstallRun x) end)
      end
  end.

(** ** Adding a server *)

Inductive joinErr : Type := Register (x : option error) | ReachErr (x : option callErr) | InstallFailed (x : installErr).

Record Joining : Type := mkJoining { JInfo : Protocol.Info; Installed : bool }.

(** [E] is what each change to the registry is given, [T] the time of each
    operation on the server and [N] what it meets; [running] is whether the
    fleet's runner is started. *)
Definition Join (d : disk) (r : runner) (running : bool) (E : nat → env) (T : nat → Z) (N : nat → net)
    (name host : string) (port : Z) (user password : string) (install : bool) : disk * runner * result joinErr Joining :=
  let name := TrimSpace name in
  let host := TrimSpace host in
  let user := if String.eqb (TrimSpace user) "" then "root" else TrimSpace user in
  let port := if port =? 0 then 22 else port in
  if (port <? 1) || (65535 <? port) then (d, r, Err (Register None))
  else
    match update d (E 0%nat) (Add name host port user password) with
    | (d, Some x) => (d, r, Err (Register (Some x)))
    | (d, None) =>
        let take_back d := fst (update d (E 4%nat) (Remove name)) in
        if negb running then (take_back d, r, Err (ReachErr None))
        else
          match Call d (E 1%nat) r (T 0%nat) (N 0%nat) name with
          | (d, r, Ok info) => (fst (update d (E 5%nat) (NoteInfo name info)), r, Ok (mkJoining info false))
          | (d, r, Err x) =>
              if needsInstall x && install then
                match Install d (E 2%nat) r (T 1%nat) (N 1%nat) name with
                | (d, r, Some x) => (take_back d, r, Err (InstallFailed x))
                | (d, r, None) =>
                    match Call d (E 3%nat) r (T 2%nat) (N 2%nat) name with
                    | (d, r, Ok info) => (fst (update d (E 5%nat) (NoteInfo name info)), r, Ok (mkJoining info true))
                    | (d, r, Err x) => (take_back d, r, Err (ReachErr (Some x)))
                    end
                end
              else (take_back d, r, Err (ReachErr (Some x)))
          end
    end.

(** ** Lemmas *)

(** The fleet [s] and one more server, added as [n0]; what is known of it since is
    its host key and what it said. *)
Definition with_new (s : list Node) (n0 : Node) (d : disk) : Prop :=
  fleet_ok (LoadStore d) ∧ ∃ n, LoadStore d = s ++ [n] ∧ Name n = Name n0 ∧ Host n = Host n0 ∧ SSHPort n = SSHPort n0 ∧
    User n = User n0 ∧ Password n = Password n0.

Lemma on_first_new P f name s n : Forall (λ m, P m = false) s → P n = true →
  on_first P f name (s ++ [n]) = match f n with Ok n' => Ok (s ++ [n']) | Err x => Err x end.
Proof.
  induction 1 as [|m s Hm _ IH]; intros Hn; cbn [on_first app]; [rewrite Hn; by destruct (f n)|].
  rewrite Hm, (IH Hn). by destruct (f n).
Qed.

(** The new server is the only one of its name. *)
Lemma new_alone s n name : fleet_ok (s ++ [n]) → Name n = name → Forall (λ m, called name m = false) s ∧ called name n = true.
Proof.
  intros [_ HD _] <-. unfold called, EqualFold. split; [|apply String.eqb_refl].
  rewrite map_app in HD. apply NoDup_app in HD as (_ & HD & _). apply Forall_forall. intros m Hm. apply String.eqb_neq. intros E.
  apply (HD (fold_case (Name m))); [by apply (list_elem_of_fmap_2 (λ n, fold_case (Name n)))|]. rewrite E. apply list_elem_of_here.
Qed.

Lemma note_key_new s n0 d e t seen : env_ok e → with_new s n0 d → with_new s n0 (note_key d e (Name n0) t seen).
Proof.
  intros He [Hf (n & HL & HN)]. unfold note_key. destruct (_ && _); [|by split; [|exists n]].
  pose proof (update_ok d e (NoteFingerprint (Name n0) seen) He Hf) as HU. rewrite HL in Hf. destruct (new_alone s n (Name n0) Hf (proj1 HN)) as [H1 H2].
  cbn [change] in HU. rewrite HL, on_first_new in HU by done. unfold note_fingerprint in HU. destruct (_ && _).
  - rewrite HU. cbn [fst]. split; [by rewrite HL|]. by exists n.
  - destruct HU as (d' & -> & HL' & Hf'). split; [done|]. cbn [fst]. exists (set_fingerprint seen n). done.
Qed.

Lemma exec_new s n0 d e r now n t : env_ok e → with_new s n0 d → with_new s n0 (fst (fst (exec d e r now n (Name n0) t))).
Proof.
  intros He Hd. unfold exec. destruct (get r now (Name n0) t _) as [r1 [[c seen]|w]]; [|done].
  pose proof (note_key_new s n0 d e t seen He Hd) as HN.
  destruct (command n 0%nat (peer c)); [done|]. destruct (get _ now (Name n0) t _) as [r2 [[c2 seen2]|w]]; [|done].
  by destruct (command n 1%nat (peer c2)).
Qed.

Lemma Call_new s n0 d e r now n : env_ok e → with_new s n0 d → with_new s n0 (fst (fst (Call d e r now n (Name n0)))).
Proof.
  intros He Hd. unfold Call. destruct (targetFor d (Name n0)) as [t|x]; [|done].
  pose proof (exec_new s n0 d e r now n t He Hd) as H. by destruct (exec d e r now n (Name n0) t) as [[d' r'] [resp|w]].
Qed.

Lemma Install_new s n0 d e r now n : env_ok e → with_new s n0 d → with_new s n0 (fst (fst (Install d e r now n (Name n0)))).
Proof.
  intros He Hd. unfold Install. destruct (targetFor d (Name n0)) as [t|x]; [|done].
  destruct (get r now (Name n0) t _) as [r1 [[c seen]|w]]; [|done]. by apply note_key_new.
Qed.

Lemma remove_new s n0 d e : env_ok e → with_new s n0 d → LoadStore (fst (update d e (Remove (Name n0)))) = s.
Proof.
  intros He [Hf (n & HL & HN)]. pose proof (update_ok d e (Remove (Name n0)) He Hf) as HU. rewrite HL in Hf.
  destruct (new_alone s n (Name n0) Hf (proj1 HN)) as [H1 H2]. cbn [change] in HU. unfold remove in HU.
  rewrite HL, existsb_app in HU. cbn [existsb] in HU. rewrite H2, orb_true_l, orb_true_r in HU.
  destruct HU as (d' & -> & HL' & _). cbn [fst]. rewrite HL', filter_app, filter_cons_False, filter_nil, app_nil_r by congruence.
  clear -H1. induction H1 as [|m s Hm _ IH]; [done|]. by rewrite filter_cons_True, IH.
Qed.

Lemma note_info_new s n0 d e info : env_ok e → with_new s n0 d →
  with_new s n0 (fst (update d e (NoteInfo (Name n0) info))) ∧
  ∃ n, last (LoadStore (fst (update d e (NoteInfo (Name n0) info)))) = Some n ∧ LastSeen n = now e ∧
    Info n = Protocol.mkInfo (Name n0) (Protocol.Hostname info) (Protocol.Version info).
Proof.
  intros He [Hf (n & HL & HN)]. pose proof (update_ok d e (NoteInfo (Name n0) info) He Hf) as HU. rewrite HL in Hf.
  destruct (new_alone s n (Name n0) Hf (proj1 HN)) as [H1 H2]. cbn [change] in HU. rewrite HL, on_first_new in HU by done.
  cbn [note_info] in HU. destruct HU as (d' & -> & HL' & Hf'). cbn [fst]. split; [split; [done|]|]; rewrite HL'.
  - eexists. split; [done|]. done.
  - rewrite last_snoc. eexists. split; [done|]. cbn. destruct HN as (-> & _). done.
Qed.

(** Adding a server is all or nothing. If any step fails, the name, the
    address, the reach, the install or the answer, the fleet is exactly the
    one before, passwords included. If it succeeds, the fleet has one more
    server at its end, under the trimmed name and address, with the login
    given, and with what the server itself said. *)
Theorem join_all_or_nothing d r running E T N name host port user password install :
  (∀ i, env_ok (E i)) → fleet_ok (LoadStore d) →
  let '(d', _, x) := Join d r running E T N name host port user password install in
  match x with
  | Err _ => LoadStore d' = LoadStore d
  | Ok joined => fleet_ok (LoadStore d') ∧ ∃ n, LoadStore d' = LoadStore d ++ [n] ∧ Name n = TrimSpace name ∧ Host n = TrimSpace host ∧
      SSHPort n = (if port =? 0 then 22 else port) ∧ Password n = password ∧ LastSeen n = now (E 5%nat) ∧
      Info n = Protocol.mkInfo (Name n) (Protocol.Hostname (JInfo joined)) (Protocol.Version (JInfo joined))
  end.
Proof.
  intros He Hf. unfold Join. destruct (_ || _); [done|]. set (u := if String.eqb (TrimSpace user) "" then _ else _). set (p := if port =? 0 then 22 else port).
  pose proof (update_ok d (E 0%nat) (Add (TrimSpace name) (TrimSpace host) p u password) (He 0%nat) Hf) as HU.
  cbn [change] in HU. destruct (checked _ _ _ _ _) as [[[a b] c]|x] eqn:Ec; [|by rewrite HU].
  destruct (clash _ a b p) as [x|]; [by rewrite HU|]. destruct HU as (d1 & -> & HL & Hf1).
  apply checked_fields in Ec as (-> & -> & ->). rewrite !TrimSpace_idem in HL. set (n0 := new_node _ _ _ _ _ _) in HL.
  assert (with_new (LoadStore d) n0 d1) as W1 by (split; [done|]; rewrite HL; by exists n0).
  change (TrimSpace name) with (Name n0).
  assert (∀ d2, with_new (LoadStore d) n0 d2 → LoadStore (fst (update d2 (E 4%nat) (Remove (Name n0)))) = LoadStore d) as HR by (intros d2; by apply remove_new).
  assert (∀ d2 info inst, with_new (LoadStore d) n0 d2 →
    let d3 := fst (update d2 (E 5%nat) (NoteInfo (Name n0) info)) in
    fleet_ok (LoadStore d3) ∧ ∃ n, LoadStore d3 = LoadStore d ++ [n] ∧ Name n = Name n0 ∧ Host n = TrimSpace host ∧
      SSHPort n = p ∧ Password n = password ∧ LastSeen n = now (E 5%nat) ∧
      Info n = Protocol.mkInfo (Name n) (Protocol.Hostname (JInfo (mkJoining info inst))) (Protocol.Version (JInfo (mkJoining info inst)))) as HI.
  { intros d2 info inst Hd2. destruct (note_info_new _ _ _ (E 5%nat) info (He 5%nat) Hd2) as [[Hf3 (n & HL3 & HN)] (m & Hm & HS & Hin)].
    cbv zeta. split; [done|]. exists n. rewrite HL3, last_snoc in Hm. injection Hm as <-. destruct HN as (HN1 & HN2 & HN3 & _ & HN5).
    split_and!; try done. by rewrite HN1. }
  destruct (negb running); [by apply HR|].
  pose proof (Call_new _ n0 d1 (E 1%nat) r (T 0%nat) (N 0%nat) (He 1%nat) W1) as W2.
  destruct (Call d1 (E 1%nat) r (T 0%nat) (N 0%nat) (Name n0)) as [[d2 r2] [info|x]]; [by apply (HI d2 info false)|].
  destruct (needsInstall x && install); [|by apply HR].
  pose proof (Install_new _ n0 d2 (E 2%nat) r2 (T 1%nat) (N 1%nat) (He 2%nat) W2) as W3.
  destruct (Install d2 (E 2%nat) r2 (T 1%nat) (N 1%nat) (Name n0)) as [[d3 r3] [y|]]; [by apply HR|].
  pose proof (Call_new _ n0 d3 (E 3%nat) r3 (T 2%nat) (N 2%nat) (He 3%nat) W3) as W4.
  destruct (Call d3 (E 3%nat) r3 (T 2%nat) (N 2%nat) (Name n0)) as [[d4 r4] [info|z]]; [by apply (HI d4 info true)|by apply HR].
Qed.

End remote.

(** ** At work *)

Definition demo_unmarshal (raw : list Z) : option Response := Some (mkResponse true "" (of_bytes raw)).
Definition demo_info (body : string) : option Protocol.Info := Some (Protocol.mkInfo "" body "v2").

(** A network with a server that answers, at [10.0.0.9], and one that lets the
    panel in and prints nothing, at [10.0.0.8]. *)
Definition demo_net : net := mkNet
  (λ _ a, if String.eqb (fst a) "10.0.0.9" then Presents "SHA256:nine" None else Presents "SHA256:eight" None)
  (λ _ a, Ok (if String.eqb (fst a) "10.0.0.9" then EncodeToString StdEncoding (to_bytes "nine") else "")).

Definition demo_join (d : disk) (r : runner) (t : Z) (host : string) : disk * runner * result joinErr Joining :=
  Join (G := stamp) demo_unmarshal demo_info d r true (λ _, demo_env) (λ _, t) (λ _, demo_net) "c" host 0 "" "pw" true.

Lemma demo_env_ok : env_ok demo_env.
Proof. split; [apply demo_drawn|done]. Qed.

Lemma join_all_or_nothing_witness :
  let '(d', _, x) := demo_join demo_disk NewSSHRunner 0 " 10.0.0.9" in
  x = Ok (mkJoining (Protocol.mkInfo "" "nine" "v2") false) ∧
  map Name (LoadStore (G := stamp) d') = ["a"; "b"; "c"] ∧ map Fingerprint (LoadStore (G := stamp) d') = ["SHA256:k"; ""; "SHA256:nine"] ∧
  LoadStore (G := stamp) (fst (fst (demo_join demo_disk NewSSHRunner 0 "10.0.0.8"))) = LoadStore (G := stamp) demo_disk.
Proof.
  assert (snd (demo_join demo_disk NewSSHRunner 0 " 10.0.0.9") = Ok (mkJoining (Protocol.mkInfo "" "nine" "v2") false) ∧
    map Name (LoadStore (G := stamp) (fst (fst (demo_join demo_disk NewSSHRunner 0 " 10.0.0.9")))) = ["a"; "b"; "c"] ∧
    map Fingerprint (LoadStore (G := stamp) (fst (fst (demo_join demo_disk NewSSHRunner 0 " 10.0.0.9")))) = ["SHA256:k"; ""; "SHA256:nine"])
    as (H1 & H2 & H3) by (split_and!; by vm_compute).
  destruct (demo_join demo_disk NewSSHRunner 0 " 10.0.0.9") as [[d' r'] x]. cbn [fst snd] in *. split_and!; [exact H1|exact H2|exact H3|].
  pose proof (join_all_or_nothing (G := stamp) demo_unmarshal demo_info demo_disk NewSSHRunner true (λ _, demo_env) (λ _, 0) (λ _, demo_net)
    "c" "10.0.0.8" 0 "" "pw" true (λ _, demo_env_ok) demo_fleet_ok) as H.
  fold (demo_join demo_disk NewSSHRunner 0 "10.0.0.8") in H.
  assert (is_ok (snd (demo_join demo_disk NewSSHRunner 0 "10.0.0.8")) = false) as Hx by (by vm_compute).
  destruct (demo_join demo_disk NewSSHRunner 0 "10.0.0.8") as [[d2 r2] [y|y]]; [discriminate Hx|exact H].
Defined.

(** A server added with a wrong address and taken back out, then added again
    within ninety seconds under the same name with the right one: the
    connection to the wrong machine is still in the pool and is the one asked,
    so adding the right machine fails. With a pool that has forgotten it, it
    succeeds. *)
Example readded_server_is_another :
  let '(d1, r1, x1) := demo_join demo_disk NewSSHRunner 0 "10.0.0.8" in
  x1 = Err (ReachErr (Some (Offline "c" (SaidNothing "c")))) ∧
  snd (demo_join d1 r1 60 "10.0.0.9") = Err (ReachErr (Some (Offline "c" (SaidNothing "c")))) ∧
  snd (demo_join d1 (Forget r1 "c") 60 "10.0.0.9") = Ok (mkJoining (Protocol.mkInfo "" "nine" "v2") false).
Proof. by vm_compute. Qed.

(** The first call to a server notes the key of the first machine that answers.
    If that connection breaks, the call is tried again on a second one, which
    is not checked against the key just noted: here another machine is sent
    the password, and its answer is the server's. *)
Example retry_is_unchecked :
  let n := mkNet (λ k _, Presents (if (k =? 0)%nat then "SHA256:one" else "SHA256:two") None)
                 (λ k _, if (k =? 0)%nat then Err "broken pipe" else Ok (EncodeToString StdEncoding (to_bytes "two"))) in
  let '(d, r, x) := Call (G := stamp) demo_unmarshal demo_info demo_disk demo_env NewSSHRunner 0 n "b" in
  x = Ok (Protocol.mkInfo "" "two" "v2") ∧
  option_map Fingerprint (findWithSecret (G := stamp) d "b") = Some "SHA256:one" ∧
  option_map hostKey (conns r !! "b") = Some "SHA256:two".
Proof. by vm_compute. Qed.

End Remote.
