(* ===== verification/GoNet.v ===== *)
(** Go's textual addresses, as the program checks them: [net.ParseIP],
    [net.IP.To4], [net.ParseCIDR] and [net.ParseMAC].

    An address is its sixteen bytes, an IPv4 one mapped into them; errors are
    not told apart. *)

From Stdlib Require Import Ascii String.
From S2P Require Import Prelude GoStr.
Import GoStr.
Open Scope string_scope.
Open Scope list_scope.
Open Scope Z_scope.

Module GoNet.

Definition hex_value (c : ascii) : option Z :=
  let n := Z.of_nat (nat_of_ascii c) in
  if (48 <=? n) && (n <=? 57) then Some (n - 48)
  else if (97 <=? n) && (n <=? 102) then Some (n - 97 + 10)
  else if (65 <=? n) && (n <=? 70) then Some (n - 65 + 10)
  else None.

(** One field of a dotted quad: digits, no leading zero, at most 255. *)
Definition octet (s : string) : option Z :=
  match s with
  | "" => None
  | String "0" "" => Some 0
  | String "0" _ => None
  | _ => if (3 <? String.length s)%nat then None
         else match parse_digits 0 s with Some v => if v <=? 255 then Some v else None | None => None end
  end.

Definition parseIPv4 (s : string) : option (list Z) :=
  match Split s "." with
  | [a; b; c; d] => a ← octet a; b ← octet b; c ← octet c; d ← octet d; Some [a; b; c; d]
  | _ => None
  end.

(** The hexadecimal digits a group starts with: how many, their value, and the
    rest. More than four of them is an error. *)
Fixpoint hex_group (s : string) (off : nat) (acc : Z) : option (nat * Z * string) :=
  match s with
  | "" => Some (off, acc, "")
  | String c r =>
      match hex_value c with
      | None => Some (off, acc, s)
      | Some v => if (3 <? off)%nat then None else hex_group r (S off) (acc * 16 + v)
      end
  end.

(** The loop of [parseIPv6]: the bytes so far, where the ellipsis is among them,
    and what is left of the text. Eight groups fill an address. *)
Fixpoint ipv6_loop (fuel : nat) (s : string) (ip : list Z) (ellipsis : option nat) : option (list Z * option nat * string) :=
  match fuel with
  | O => Some (ip, ellipsis, s)
  | S fuel =>
      match hex_group s 0 0 with
      | None | Some (O, _, _) => None
      | Some (_, _, String "." _) =>
          let i := length ip in
          if match ellipsis with None => negb (i =? 12)%nat | Some _ => false end then None
          else if (16 <? i + 4)%nat then None
          else v4 ← parseIPv4 s; Some (ip ++ v4, ellipsis, "")
      | Some (_, v, r) =>
          let ip := ip ++ [v `div` 256; v `mod` 256] in
          match r with
          | "" => Some (ip, ellipsis, "")
          | String ":" "" => None
          | String ":" (String ":" r) =>
              match ellipsis with
              | Some _ => None
              | None => if String.eqb r "" then Some (ip, Some (length ip), "") else ipv6_loop fuel r ip (Some (length ip))
              end
          | String ":" r => ipv6_loop fuel r ip ellipsis
          | _ => None
          end
      end
  end.

(** The zeros an ellipsis stands for. *)
Definition expand (ip : list Z) (ellipsis : option nat) : option (list Z) :=
  if (length ip <? 16)%nat then
    match ellipsis with
    | None => None
    | Some e => Some (take e ip ++ repeat 0 (16 - length ip) ++ drop e ip)
    end
  else match ellipsis with Some _ => None | None => Some ip end.

(** [parseIPv6] of a text without a zone. *)
Definition parseIPv6 (s : string) : option (list Z) :=
  let go (s : string) (ellipsis : option nat) :=
    match ipv6_loop 8 s [] ellipsis with
    | Some (ip, ellipsis, "") => expand ip ellipsis
    | _ => None
    end in
  match s with
  | String ":" (String ":" r) => if String.eqb r "" then Some (repeat 0 16) else go r (Some 0%nat)
  | _ => go s None
  end.

Definition mapped (v4 : list Z) : list Z := repeat 0 10 ++ [255; 255] ++ v4.

(** What the first of the characters that tell the kinds apart is. *)
Fixpoint address_kind (s : string) : option ascii :=
  match s with
  | "" => None
  | String c s => if bool_decide (c ∈ ["."; ":"; "%"]%char) then Some c else address_kind s
  end.

(** [net.ParseIP]; an address with a zone is none. *)
Definition ParseIP (s : string) : option (list Z) :=
  match address_kind s with
  | Some "."%char => option_map mapped (parseIPv4 s)
  | Some ":"%char => if contains_char "%" s then None else parseIPv6 s
  | _ => None
  end.

Definition To4 (ip : list Z) : option (list Z) :=
  if bool_decide (take 12 ip = repeat 0 10 ++ [255; 255]) then Some (drop 12 ip) else None.

(** [net.ParseIP(s).To4() != nil]. *)
Definition isIPv4 (s : string) : bool := match ParseIP s ≫= To4 with Some _ => true | None => false end.

(** [net.ParseCIDR], of which only whether it is one is used. *)
Definition ParseCIDR (s : string) : bool :=
  match Cut s "/" with
  | None => false
  | Some (addr, mask) =>
      let bits :=
        match address_kind addr with
        | Some "."%char => match parseIPv4 addr with Some _ => Some 32 | None => None end
        | Some ":"%char => if contains_char "%" addr then None else match parseIPv6 addr with Some _ => Some 128 | None => None end
        | _ => None
        end in
      match bits, mask with
      | Some bits, String _ _ =>
          match parse_digits 0 mask with Some n => n <=? bits | None => false end
      | _, _ => false
      end
  end.

Definition hex2 (s : string) : bool :=
  match s with
  | String a (String b "") => match hex_value a, hex_value b with Some _, Some _ => true | _, _ => false end
  | _ => false
  end.

Definition hex4 (s : string) : bool :=
  match s with
  | String a (String b (String c (String d ""))) => hex2 (String a (String b "")) && hex2 (String c (String d ""))
  | _ => false
  end.

(** [net.ParseMAC]: six, eight or twenty bytes, in pairs behind colons or hyphens
    or in fours behind dots. *)
Definition ParseMAC (s : string) : bool :=
  let pairs (c : ascii) := let l := Split s c in forallb hex2 l && bool_decide (length l ∈ [6; 8; 20]%nat) in
  match String.get 2 s, String.get 4 s with
  | Some ":"%char, _ => pairs ":"%char
  | Some "-"%char, _ => pairs "-"%char
  | _, Some "."%char => let l := Split s "." in forallb hex4 l && bool_decide (length l ∈ [3; 4; 10]%nat)
  | _, _ => false
  end.

(** ** Checked against the package *)

Example addresses :
  map ParseIP ["10.0.0.1"; "010.0.0.1"; "1.2.3"; "256.1.1.1"; "1.2.3.4."; ""; "host"] =
    [Some (mapped [10; 0; 0; 1]); None; None; None; None; None; None] ∧
  map ParseIP ["::"; "::1"; "2001:db8::ff00:42:8329"; "::ffff:1.2.3.4"; "1:2:3:4:5:6:7:8"; "1::2::3"; "1:2:3:4:5:6:7"; "fe80::1%eth0"; ":1"; "12345::"; "1:2:3:4:5:6:7::"] =
    [Some (repeat 0 16); Some (repeat 0 15 ++ [1]); Some [32; 1; 13; 184; 0; 0; 0; 0; 0; 0; 255; 0; 0; 66; 131; 41];
     Some (mapped [1; 2; 3; 4]); Some [0; 1; 0; 2; 0; 3; 0; 4; 0; 5; 0; 6; 0; 7; 0; 8]; None; None; None; None; None;
     Some [0; 1; 0; 2; 0; 3; 0; 4; 0; 5; 0; 6; 0; 7; 0; 0]] ∧
  map isIPv4 ["1.2.3.4"; "::ffff:1.2.3.4"; "::1"; ""] = [true; true; false; false] ∧
  map ParseCIDR ["10.10.0.1/30"; "10.10.0.1/33"; "fd00::1/64"; "10.10.0.1/"; "10.10.0.1"; "10.10.0.1/3x"] = [true; false; true; false; false; false] ∧
  map ParseMAC ["02:42:ac:11:00:02"; "02-42-AC-11-00-02"; "0242.ac11.0002"; "02:42:ac:11:00"; "02:42-ac:11:00:02"] = [true; true; true; false; false].
Proof. by vm_compute. Qed.

(** ** Lemmas *)

Lemma octet_range s v : octet s = Some v → 0 ≤ v ≤ 255.
Proof.
  unfold octet. destruct s as [|c s]; [done|].
  assert (∀ t a n, 0 ≤ a → parse_digits a t = Some n → 0 ≤ n) as HP.
  { induction t as [|x t IH]; intros a n Ha H; cbn [parse_digits] in H; [congruence|].
    destruct (digit_value x) as [k|] eqn:E; [|done]. apply IH in H; [done|].
    unfold digit_value in E. destruct (_ && _) eqn:Eb in E; [|done]. apply andb_true_iff in Eb as [?%Z.leb_le _]. injection E as <-. lia. }
  assert ((if (3 <? String.length (String c s))%nat then None
     else match parse_digits 0 (String c s) with Some v => if v <=? 255 then Some v else None | None => None end) = Some v → 0 ≤ v ≤ 255) as HG.
  { destruct (3 <? _)%nat; [done|]. destruct (parse_digits 0 (String c s)) as [n|] eqn:E; [|done]. destruct (Z.leb_spec n 255); [|done].
    intros [= <-]. split; [|done]. by eapply HP. }
  destruct c as [[] [] [] [] [] [] [] []]; try exact HG. destruct s; [|done]. intros [= <-]. lia.
Qed.

End GoNet.
