(* ===== verification/Settings.v ===== *)
(** The configuration of a tunnel ([config/config.go], [config/l3.go],
    [config/direct.go], [config/fallback.go]).

    A configuration holds the settings of all four engines, of which a file
    names one. Each table is a record in a module of its own, with the fields
    of the source; an embedded struct is a field. An optional key that was not
    written is [None]. *)

From Stdlib Require Import Ascii String.
From S2P Require Import Prelude GoStr.
Import GoStr.
Open Scope string_scope.
Open Scope list_scope.
Open Scope Z_scope.

(** A list as a file holds it: [None] where it was not written, which is not
    the same as an empty one. *)
Definition Strings : Type := option (list string).
Definition items (s : Strings) : list string := default [] s.

Module Tuning.

Record KCPConfig : Type := mkKCP {
  MTU : Z;
  Interval : Z;
  Resend : Z;
  NoDelay : Z;
  NoCongestion : Z;
  SndWnd : Z;
  RcvWnd : Z;
  AckNoDelay : bool;
  DataShards : Z;
  ParityShards : Z
}.

(** [WithDefaults]. *)
Definition WithDefaults (k : KCPConfig) : KCPConfig :=
  let half := (DataShards k <=? 0) || (ParityShards k <=? 0) in
  let d := if half then 0 else DataShards k in
  let p := if half then 0 else ParityShards k in
  let or (v least dflt : Z) := if v <? least then dflt else v in
  {|
    MTU := or (MTU k) 1 (if 0 <? d then 1250 else 1350);
    Interval := or (Interval k) 1 20;
    Resend := or (Resend k) 0 2;
    NoDelay := NoDelay k;
    NoCongestion := NoCongestion k;
    SndWnd := or (SndWnd k) 1 1024;
    RcvWnd := or (RcvWnd k) 1 1024;
    AckNoDelay := AckNoDelay k;
    DataShards := d;
    ParityShards := p
  |}.

Record SpoofConfig : Type := mkSpoof {
  SpoofProfile : string;
  SpoofUplink : string;
  SpoofDownlink : string;
  SpoofSrcIP : string;
  SpoofSrcPool : Strings;
  SpoofPeerIP : string;
  SpoofInterface : string;
  SpoofXDPInterface : string;
  SpoofSockBuf : Z;
  SpoofPeerSrcIP : string;
  SpoofICMPReply : bool;
  SpoofMTU : Z;
  SpoofTTLJitter : bool;
  SpoofRandomDSCP : bool;
  SpoofShufflePort : bool;
  SpoofPortMin : Z;
  SpoofPortMax : Z;
  SpoofPadding : bool;
  SpoofPaddingMax : Z;
  SpoofFakeTLS : bool
}.

Record PckConfig : Type := mkPck {
  PckInterface : string;
  PckGatewayMAC : string;
  PckFlags : Strings
}.

Definition no_kcp : KCPConfig := {|
    MTU := 0;
    Interval := 0;
    Resend := 0;
    NoDelay := 0;
    NoCongestion := 0;
    SndWnd := 0;
    RcvWnd := 0;
    AckNoDelay := false;
    DataShards := 0;
    ParityShards := 0
  |}.

Definition no_spoof : SpoofConfig := {|
    SpoofProfile := "";
    SpoofUplink := "";
    SpoofDownlink := "";
    SpoofSrcIP := "";
    SpoofSrcPool := None;
    SpoofPeerIP := "";
    SpoofInterface := "";
    SpoofXDPInterface := "";
    SpoofSockBuf := 0;
    SpoofPeerSrcIP := "";
    SpoofICMPReply := false;
    SpoofMTU := 0;
    SpoofTTLJitter := false;
    SpoofRandomDSCP := false;
    SpoofShufflePort := false;
    SpoofPortMin := 0;
    SpoofPortMax := 0;
    SpoofPadding := false;
    SpoofPaddingMax := 0;
    SpoofFakeTLS := false
  |}.

Definition no_pck : PckConfig := {|
    PckInterface := "";
    PckGatewayMAC := "";
    PckFlags := None
  |}.

End Tuning.

Module Transport.

Definition TCP : string := "tcp".
Definition TCPMUX : string := "tcpmux".
Definition WS : string := "ws".
Definition WSS : string := "wss".
Definition WSMUX : string := "wsmux".
Definition WSSMUX : string := "wssmux".
Definition UDP : string := "udp".
Definition KCP : string := "kcp".
Definition QUIC : string := "quic".
Definition STEALTH : string := "stealth".
Definition XDI : string := "xdi".
Definition SPOOF : string := "spoof".
Definition PCK : string := "pck".

(** Seconds. *)
Definition DefaultFallbackDwell : Z := 60.

Definition Dwell (seconds : Z) : Z := if seconds <=? 0 then DefaultFallbackDwell else seconds.

Definition fallbackCapable : list string := [TCP; TCPMUX; STEALTH; WS; WSS; WSMUX; WSSMUX; KCP; QUIC; UDP; XDI; PCK].

Inductive error : Type := NoPart (t : string) | NotReverse (t : string) | Twice (t : string).

Fixpoint validate_list (seen l : list string) : option error :=
  match l with
  | [] => None
  | t :: l =>
      if negb (bool_decide (t ∈ fallbackCapable)) then Some (NotReverse t)
      else if bool_decide (t ∈ seen) then Some (Twice t)
      else validate_list (t :: seen) l
  end.

Definition ValidateFallbackTransports (primary : string) (l : list string) : option error :=
  match l with
  | [] => None
  | _ => if negb (bool_decide (primary ∈ fallbackCapable)) then Some (NoPart primary) else validate_list [] l
  end.

Lemma validate_list_spec l : ∀ seen, NoDup seen → validate_list seen l = None ↔
  Forall (λ t, t ∈ fallbackCapable) l ∧ NoDup (l ++ seen).
Proof.
  induction l as [|t l IH]; intros seen Hs; cbn [validate_list app]; [split; [done|done]|].
  destruct (decide (t ∈ fallbackCapable)) as [Ht|Ht]; [rewrite (bool_decide_true _ Ht)|rewrite (bool_decide_false _ Ht)]; cbn [negb].
  2: { split; [done|]. by intros [[? _]%Forall_cons _]. }
  destruct (decide (t ∈ seen)) as [Hd|Hd]; [rewrite (bool_decide_true _ Hd)|rewrite (bool_decide_false _ Hd)].
  { split; [done|]. intros [_ [Hn _]%NoDup_cons]. exfalso. apply Hn, elem_of_app. by right. }
  rewrite IH by (by apply NoDup_cons). rewrite Forall_cons.
  assert (l ++ t :: seen ≡ₚ t :: l ++ seen) as -> by (symmetry; apply Permutation_middle). tauto.
Qed.

End Transport.

Module ServerCfg.

Record ServerConfig : Type := mkServer {
  BindAddr : string;
  Transport : string;
  FallbackTransports : Strings;
  FallbackDwell : Z;
  Token : string;
  Nodelay : bool;
  Keepalive : Z;
  ChannelSize : Z;
  LogLevel : string;
  LogFormat : string;
  Ports : Strings;
  PPROF : bool;
  MuxSession : Z;
  MuxVersion : Z;
  MaxFrameSize : Z;
  MaxReceiveBuffer : Z;
  MaxStreamBuffer : Z;
  Sniffer : bool;
  WebPort : Z;
  WebBind : string;
  SnifferLog : string;
  TLSCertFile : string;
  TLSKeyFile : string;
  ACMEDomain : string;
  ACMEEmail : string;
  SimpleAuth : bool;
  Heartbeat : Z;
  MuxCon : Z;
  AcceptUDP : option bool;
  SkipOptz : bool;
  MSS : Z;
  SO_RCVBUF : Z;
  SO_SNDBUF : Z;
  SOPinTCP : bool;
  ZeroCopy : bool;
  ProxyProtocol : bool;
  MaxConnections : Z;
  BandwidthMbps : Z;
  Preset : string;
  Kcp : Tuning.KCPConfig;
  Pck : Tuning.PckConfig
}.

Definition ForwardsUDP (s : ServerConfig) : bool := match AcceptUDP s with Some b => b | None => false end.

Definition none : ServerConfig := {|
    BindAddr := "";
    Transport := "";
    FallbackTransports := None;
    FallbackDwell := 0;
    Token := "";
    Nodelay := false;
    Keepalive := 0;
    ChannelSize := 0;
    LogLevel := "";
    LogFormat := "";
    Ports := None;
    PPROF := false;
    MuxSession := 0;
    MuxVersion := 0;
    MaxFrameSize := 0;
    MaxReceiveBuffer := 0;
    MaxStreamBuffer := 0;
    Sniffer := false;
    WebPort := 0;
    WebBind := "";
    SnifferLog := "";
    TLSCertFile := "";
    TLSKeyFile := "";
    ACMEDomain := "";
    ACMEEmail := "";
    SimpleAuth := false;
    Heartbeat := 0;
    MuxCon := 0;
    AcceptUDP := None;
    SkipOptz := false;
    MSS := 0;
    SO_RCVBUF := 0;
    SO_SNDBUF := 0;
    SOPinTCP := false;
    ZeroCopy := false;
    ProxyProtocol := false;
    MaxConnections := 0;
    BandwidthMbps := 0;
    Preset := "";
    Kcp := Tuning.no_kcp;
    Pck := Tuning.no_pck
  |}.

End ServerCfg.

Module ClientCfg.

Record ClientConfig : Type := mkClient {
  RemoteAddr : string;
  FallbackAddrs : Strings;
  Transport : string;
  FallbackTransports : Strings;
  FallbackDwell : Z;
  Token : string;
  ConnectionPool : Z;
  RetryInterval : Z;
  Nodelay : bool;
  Keepalive : Z;
  LogLevel : string;
  LogFormat : string;
  PPROF : bool;
  MuxSession : Z;
  MuxVersion : Z;
  MaxFrameSize : Z;
  MaxReceiveBuffer : Z;
  MaxStreamBuffer : Z;
  Sniffer : bool;
  WebPort : Z;
  WebBind : string;
  SnifferLog : string;
  DialTimeout : Z;
  AggressivePool : bool;
  EdgeIP : string;
  SimpleAuth : bool;
  SkipOptz : bool;
  MSS : Z;
  SO_RCVBUF : Z;
  SO_SNDBUF : Z;
  Proxy : string;
  LocalAddr : string;
  Interface : string;
  SOMark : Z;
  SOPinTCP : bool;
  ZeroCopy : bool;
  Preset : string;
  LoadBalance : bool;
  HealthFailover : bool;
  Kcp : Tuning.KCPConfig;
  Pck : Tuning.PckConfig
}.

Definition none : ClientConfig := {|
    RemoteAddr := "";
    FallbackAddrs := None;
    Transport := "";
    FallbackTransports := None;
    FallbackDwell := 0;
    Token := "";
    ConnectionPool := 0;
    RetryInterval := 0;
    Nodelay := false;
    Keepalive := 0;
    LogLevel := "";
    LogFormat := "";
    PPROF := false;
    MuxSession := 0;
    MuxVersion := 0;
    MaxFrameSize := 0;
    MaxReceiveBuffer := 0;
    MaxStreamBuffer := 0;
    Sniffer := false;
    WebPort := 0;
    WebBind := "";
    SnifferLog := "";
    DialTimeout := 0;
    AggressivePool := false;
    EdgeIP := "";
    SimpleAuth := false;
    SkipOptz := false;
    MSS := 0;
    SO_RCVBUF := 0;
    SO_SNDBUF := 0;
    Proxy := "";
    LocalAddr := "";
    Interface := "";
    SOMark := 0;
    SOPinTCP := false;
    ZeroCopy := false;
    Preset := "";
    LoadBalance := false;
    HealthFailover := false;
    Kcp := Tuning.no_kcp;
    Pck := Tuning.no_pck
  |}.

End ClientCfg.

Module L3Cfg.

Record L3Config : Type := mkL3 {
  Mode : string;
  Addr : string;
  Token : string;
  Carrier : string;
  Encap : string;
  GREKey : Z;
  SNIDomain : string;
  Iface : string;
  LocalIP : string;
  PeerIP : string;
  MTU : Z;
  SockBuf : Z;
  FECData : Z;
  FECParity : Z;
  Paths : Z;
  Preset : string;
  TxQueueLen : Z;
  Qdisc : string;
  AutoMTU : option bool;
  MSSClamp : Z;
  Ports : Strings;
  AcceptUDP : bool;
  MaxConnections : Z;
  BandwidthMbps : Z;
  Spoof : Tuning.SpoofConfig;
  Pck : Tuning.PckConfig
}.

Definition Enabled (l : L3Config) : bool := negb (String.eqb (TrimSpace (Mode l)) "").

Definition AutoMTUEnabled (l : L3Config) : bool := match AutoMTU l with Some b => b | None => true end.

Definition none : L3Config := {|
    Mode := "";
    Addr := "";
    Token := "";
    Carrier := "";
    Encap := "";
    GREKey := 0;
    SNIDomain := "";
    Iface := "";
    LocalIP := "";
    PeerIP := "";
    MTU := 0;
    SockBuf := 0;
    FECData := 0;
    FECParity := 0;
    Paths := 0;
    Preset := "";
    TxQueueLen := 0;
    Qdisc := "";
    AutoMTU := None;
    MSSClamp := 0;
    Ports := None;
    AcceptUDP := false;
    MaxConnections := 0;
    BandwidthMbps := 0;
    Spoof := Tuning.no_spoof;
    Pck := Tuning.no_pck
  |}.

End L3Cfg.

Module DirectCfg.

Record DirectConfig : Type := mkDirect {
  Role : string;
  Addr : string;
  Token : string;
  Transport : string;
  ServerName : string;
  TLSCertFile : string;
  TLSKeyFile : string;
  ACMEDomain : string;
  ACMEEmail : string;
  Ports : Strings;
  AcceptUDP : bool;
  MaxConnections : Z;
  BandwidthMbps : Z;
  Preset : string;
  Sessions : Z;
  DialTimeout : Z;
  RetryInterval : Z;
  Keepalive : Z;
  Nodelay : bool;
  MSS : Z;
  MuxVersion : Z;
  MaxFrameSize : Z;
  MaxReceiveBuffer : Z;
  MaxStreamBuffer : Z
}.

Definition Enabled (d : DirectConfig) : bool := negb (String.eqb (TrimSpace (Role d)) "").

Definition ResolvedRole (d : DirectConfig) : string :=
  let r := ToLower (TrimSpace (Role d)) in
  if bool_decide (r ∈ ["iran"; "edge"]) then "edge"
  else if bool_decide (r ∈ ["kharej"; "origin"]) then "origin"
  else r.

Definition none : DirectConfig := {|
    Role := "";
    Addr := "";
    Token := "";
    Transport := "";
    ServerName := "";
    TLSCertFile := "";
    TLSKeyFile := "";
    ACMEDomain := "";
    ACMEEmail := "";
    Ports := None;
    AcceptUDP := false;
    MaxConnections := 0;
    BandwidthMbps := 0;
    Preset := "";
    Sessions := 0;
    DialTimeout := 0;
    RetryInterval := 0;
    Keepalive := 0;
    Nodelay := false;
    MSS := 0;
    MuxVersion := 0;
    MaxFrameSize := 0;
    MaxReceiveBuffer := 0;
    MaxStreamBuffer := 0
  |}.

End DirectCfg.

Module Settings.

Record Config : Type := mkConfig {
  Server : ServerCfg.ServerConfig;
  Client : ClientCfg.ClientConfig;
  L3 : L3Cfg.L3Config;
  Direct : DirectCfg.DirectConfig
}.

Definition empty : Config := mkConfig ServerCfg.none ClientCfg.none L3Cfg.none DirectCfg.none.

#[export] Instance kcp_eq_dec : EqDecision Tuning.KCPConfig.
Proof. solve_decision. Defined.

#[export] Instance spoof_eq_dec : EqDecision Tuning.SpoofConfig.
Proof. solve_decision. Defined.

#[export] Instance pck_eq_dec : EqDecision Tuning.PckConfig.
Proof. solve_decision. Defined.

#[export] Instance server_eq_dec : EqDecision ServerCfg.ServerConfig.
Proof. solve_decision. Defined.

#[export] Instance client_eq_dec : EqDecision ClientCfg.ClientConfig.
Proof. solve_decision. Defined.

#[export] Instance l3_eq_dec : EqDecision L3Cfg.L3Config.
Proof. solve_decision. Defined.

#[export] Instance direct_eq_dec : EqDecision DirectCfg.DirectConfig.
Proof. solve_decision. Defined.

(** [reflect.DeepEqual] of two configurations. *)
#[export] Instance config_eq_dec : EqDecision Config.
Proof. solve_decision. Defined.

End Settings.
