(* ===== verification/Checks.v ===== *)
(** What an engine makes of its configuration before it opens anything:
    - Module [MssClamp]: the firewall rules that cap segment sizes
      ([internal/tunnel/mssclamp/mssclamp.go]);
    - Module [L3Checks]: [internal/tunnel/l3/config.go];
    - Module [DirectChecks]: [internal/tunnel/direct/config.go].

    [Validate] gives the configuration with what was left out filled in, or
    why it cannot work. *)

From Stdlib Require Import Ascii String.
From S2P Require Import Prelude GoStr L3Encap L3Fec L3Path Ports GoNet Settings.
Import GoStr GoNet.
Open Scope string_scope.
Open Scope list_scope.
Open Scope Z_scope.

(** A check that stops with [e] unless [b]. *)
Definition require {E} (b : bool) (e : E) : result E unit := if b then Ok tt else Err e.

Lemma require_Ok {E} (b : bool) (e : E) : require b e = Ok tt ↔ b = true.
Proof. by destruct b. Qed.

Lemma require_Ok' {E} (b : bool) (e : E) u : require b e = Ok u ↔ b = true.
Proof. destruct u. apply require_Ok. Qed.

Lemma bind_Ok {E A B} (r : result E A) (k : A → result E B) (b : B) :
  result_bind r k = Ok b ↔ ∃ a, r = Ok a ∧ k a = Ok b.
Proof. destruct r as [a|e]; cbn [result_bind]; [|split; [done|by intros (? & ? & _)]]. split; [by exists a|]. intros (a' & [= <-] & H). exact H. Qed.

Definition is_blank (s : string) : bool := String.eqb (TrimSpace s) "".

(** What stands where a setting was left at nothing. *)
Definition or_positive (v d : Z) : Z := if v <=? 0 then d else v.
Definition or_string (s d : string) : string := if String.eqb s "" then d else s.

Lemma or_positive_spec v d : 0 < d → 0 < or_positive v d ∧ (0 < v → or_positive v d = v).
Proof. unfold or_positive. destruct (Z.leb_spec v 0); lia. Qed.

Lemma or_string_spec s d : d ≠ "" → or_string s d ≠ "" ∧ (s ≠ "" → or_string s d = s).
Proof. unfold or_string. intros Hd. by destruct (String.eqb_spec s ""). Qed.

Module MssClamp.

Definition Off : Z := -1.
Definition OverheadV4 : Z := 40.
Definition OverheadV6 : Z := 60.

Definition For (configured mtu overhead : Z) : Z := if 0 <? configured then configured else mtu - overhead.

Record Rule : Type := mkRule { Cmd : string; Table : string; Chain : string; Label : string; MSS : Z; Spec : list string }.

Definition Args (r : Rule) (verb : string) : list string := ["-t"; Table r; verb; Chain r] ++ Spec r.

Definition spec (kind iface : string) (mss : Z) : list string :=
  ["-o"; iface; "-p"; "tcp"; "--tcp-flags"; "SYN,RST"; "SYN"; "-m"; "comment"; "--comment";
   "backpack-" +:+ kind +:+ "-mss-" +:+ iface; "-j"; "TCPMSS"; "--set-mss"; Itoa mss].

Definition families : list (string * string * Z) := [("iptables", "IPv4", OverheadV4); ("ip6tables", "IPv6", OverheadV6)].

Definition Rules (kind iface : string) (mtu configured : Z) : list Rule :=
  concat (map (λ f,
    let '(cmd, label, overhead) := f in
    let mss := For configured mtu overhead in
    if mss <=? 0 then [] else map (λ chain, mkRule cmd "mangle" chain label mss (spec kind iface mss)) ["FORWARD"; "OUTPUT"]) families).

(** Every rule names its chain behind its verb, and when the size is left to the
    tunnel a segment of it with its headers fits the interface. *)
Lemma rules_fit kind iface mtu r : r ∈ Rules kind iface mtu 0 →
  MSS r + (if String.eqb (Cmd r) "iptables" then OverheadV4 else OverheadV6) = mtu ∧ 0 < MSS r ∧
  Chain r ∈ ["FORWARD"; "OUTPUT"] ∧ ∀ verb, take 4 (Args r verb) = ["-t"; "mangle"; verb; Chain r].
Proof.
  unfold Rules, families, For. change (0 <? 0) with false. cbn [map concat]. rewrite app_nil_r.
  assert (0 < OverheadV4 ∧ 0 < OverheadV6) as HO by done.
  intros [H|H]%elem_of_app.
  - destruct (Z.leb_spec (mtu - OverheadV4) 0); [by apply elem_of_nil in H|].
    repeat (apply elem_of_cons in H as [->|H]; [cbn [MSS Cmd Chain]; split_and!; [cbn; lia|done|set_solver|done]|]); by apply elem_of_nil in H.
  - destruct (Z.leb_spec (mtu - OverheadV6) 0); [by apply elem_of_nil in H|].
    repeat (apply elem_of_cons in H as [->|H]; [cbn [MSS Cmd Chain]; split_and!; [cbn; lia|done|set_solver|done]|]); by apply elem_of_nil in H.
Qed.

(** The size every rule of a family carries. *)
Lemma Rules_size kind iface mtu configured r : r ∈ Rules kind iface mtu configured →
  MSS r = For configured mtu (if String.eqb (Cmd r) "iptables" then OverheadV4 else OverheadV6) ∧ 0 < MSS r.
Proof.
  unfold Rules, families. cbn [map concat]. rewrite app_nil_r. intros [H|H]%elem_of_app.
  all: destruct (Z.leb_spec (For configured mtu OverheadV4) 0), (Z.leb_spec (For configured mtu OverheadV6) 0);
    try (by apply elem_of_nil in H).
  all: repeat (apply elem_of_cons in H as [->|H]; [cbn [MSS Cmd]; by split|]); by apply elem_of_nil in H.
Qed.

End MssClamp.

Module L3Checks.

Definition ModeDial : string := "dial".
Definition ModeListen : string := "listen".
Definition defaultIfaceName : string := "bp0".
Definition defaultMTU : Z := 1400.
Definition defaultTxQueueLen : Z := 4096.
Definition defaultQdisc : string := "fq_codel".
Definition minMTU : Z := 576.
Definition maxMTU : Z := 9000.

Definition CarrierUDP : string := "udp".
Definition CarrierPck : string := "pck".
Definition CarrierXdi : string := "xdi".
Definition CarrierSpoof : string := "spoof".
Definition CarrierQuic : string := "quic".
Definition CarrierSNI : string := "sni".

Definition knownCarrier (name : string) : bool :=
  bool_decide (name ∈ [CarrierUDP; CarrierPck; CarrierXdi; CarrierSpoof; CarrierQuic; CarrierSNI]).

(** [network.PcapCarrier], as far as a configuration sets it. *)
Record PcapCarrier : Type := mkPcap { PInterface : string; PGatewayMAC : string; PFlags : list Z }.

Record Config : Type := mkConfig {
  Mode : string;
  Addr : string;
  Token : string;
  Carrier : string;
  Encap : string;
  GREKey : Z;
  Iface : string;
  LocalIP : string;
  PeerIP : string;
  MTU : Z;
  SockBuf : Z;
  FEC : Fec.FECConfig;
  Multipath : Multipath.MultipathConfig;
  TxQueueLen : Z;
  Qdisc : string;
  AutoMTU : bool;
  MSSClamp : Z;
  Ports : list string;
  AcceptUDP : bool;
  MaxConnections : Z;
  BandwidthMbps : Z;
  Spoof : Tuning.SpoofConfig;
  Pck : PcapCarrier;
  SNIDomain : string
}.

Inductive error : Type :=
  | ModeRequired | UnknownMode (m : string) | AddrRequired | AddrNotHostPort (a : string) | TokenRequired
  | BadEncap (e : Encap.error) | NoCarrier (c : string) | NeedsPeerIP
  | BadFEC (e : Fec.error) | BadPaths (e : Multipath.error) | PathsNotUDP (c : string)
  | IPRequired (field : string) | NotBare (field v : string) | NotAPrefix (field v : string) | NotAnIP (field v : string)
  | PeerRequired (local : string) | AbsurdQueue (n : Z) | MTURange (n : Z) | ClampTooLarge (n : Z) | ClampNotASize (n : Z)
  | BadPorts (e : Portmap.failure).

Definition validateTunnelAddr (field value : string) (allowPrefix : bool) : result error unit :=
  let value := TrimSpace value in
  if String.eqb value "" then Err (IPRequired field)
  else if contains_char "/" value then
    if negb allowPrefix then Err (NotBare field value)
    else require (ParseCIDR value) (NotAPrefix field value)
  else require (match ParseIP value with Some _ => true | None => false end) (NotAnIP field value).

Definition to_error {E A} (f : E → error) (r : result E A) : result error A :=
  match r with Ok a => Ok a | Err e => Err (f e) end.

Definition or_default (v : Z) (d : Z) : Z := if v =? 0 then d else v.

Definition Validate (c : Config) : result error Config :=
  let mode := ToLower (TrimSpace (Mode c)) in
  let? _ := require (negb (String.eqb mode "")) ModeRequired in
  let? _ := require (String.eqb mode ModeDial || String.eqb mode ModeListen) (UnknownMode mode) in
  let? _ := require (negb (is_blank (Addr c))) AddrRequired in
  let? _ := require (match Net.SplitHostPort (Addr c) with Some _ => true | None => false end) (AddrNotHostPort (Addr c)) in
  let? _ := require (negb (is_blank (Token c))) TokenRequired in
  let? _ := to_error BadEncap (Encap.NewEncap (Encap c) (GREKey c)) in
  let carrier := or_string (ToLower (TrimSpace (Carrier c))) CarrierUDP in
  let? _ := require (knownCarrier carrier) (NoCarrier carrier) in
  let? _ := require (negb (String.eqb carrier CarrierSpoof && String.eqb mode ModeListen && String.eqb (Tuning.SpoofPeerIP (Spoof c)) "")) NeedsPeerIP in
  let? _ := to_error BadFEC (Fec.Validate (FEC c)) in
  let? _ := match Multipath.Validate (Multipath c) with Some e => Err (BadPaths e) | None => Ok tt end in
  let? _ := require (negb (Multipath.Enabled (Multipath c) && negb (String.eqb carrier CarrierUDP))) (PathsNotUDP carrier) in
  let iface := or_string (Iface c) defaultIfaceName in
  let? _ := validateTunnelAddr "local_ip" (LocalIP c) true in
  let? _ := if String.eqb (PeerIP c) "" then Ok tt else validateTunnelAddr "peer_ip" (PeerIP c) false in
  let? _ := require (contains_char "/" (LocalIP c) || negb (String.eqb (PeerIP c) "")) (PeerRequired (LocalIP c)) in
  let tx := or_positive (TxQueueLen c) defaultTxQueueLen in
  let? _ := require (tx <=? 2^20) (AbsurdQueue tx) in
  let qdisc := or_string (Qdisc c) defaultQdisc in
  let mtu := or_default (MTU c) defaultMTU in
  let? _ := require ((minMTU <=? mtu) && (mtu <=? maxMTU)) (MTURange mtu) in
  let? _ := require (negb ((0 <? MSSClamp c) && (mtu - MssClamp.OverheadV4 <? MSSClamp c))) (ClampTooLarge (MSSClamp c)) in
  let? _ := require (negb ((MSSClamp c <? 0) && negb (MSSClamp c =? MssClamp.Off))) (ClampNotASize (MSSClamp c)) in
  let? _ := if (0 <? length (Ports c))%nat then let? _ := to_error BadPorts (Portmap.Expand (Ports c) (PeerIP c)) in Ok tt else Ok tt in
  Ok {| Mode := mode; Addr := Addr c; Token := Token c; Carrier := carrier; Encap := "gre"; GREKey := GREKey c; Iface := iface;
        LocalIP := LocalIP c; PeerIP := PeerIP c; MTU := mtu; SockBuf := SockBuf c; FEC := FEC c; Multipath := Multipath c;
        TxQueueLen := tx; Qdisc := qdisc; AutoMTU := AutoMTU c; MSSClamp := MSSClamp c; Ports := Ports c; AcceptUDP := AcceptUDP c;
        MaxConnections := MaxConnections c; BandwidthMbps := BandwidthMbps c; Spoof := Spoof c; Pck := Pck c; SNIDomain := SNIDomain c |}.

(** ** Lemmas *)

(** A configuration an engine can be built from. *)
Record sound (c : Config) : Prop := {
  s_mode : Mode c = ModeDial ∨ Mode c = ModeListen;
  s_addr : is_Some (Net.SplitHostPort (Addr c)) ∧ TrimSpace (Addr c) ≠ "";
  s_token : TrimSpace (Token c) ≠ "";
  s_carrier : Carrier c ∈ [CarrierUDP; CarrierPck; CarrierXdi; CarrierSpoof; CarrierQuic; CarrierSNI];
  s_encap : Encap c = "gre";
  s_peer : Carrier c = CarrierSpoof → Mode c = ModeListen → Tuning.SpoofPeerIP (Spoof c) ≠ "";
  s_fec : Fec.Validate (FEC c) = Ok tt;
  s_paths : 0 ≤ Multipath.Paths (Multipath c) ≤ 8 ∧ (1 < Multipath.Paths (Multipath c) → Carrier c = CarrierUDP);
  s_iface : Iface c ≠ "";
  s_local : validateTunnelAddr "local_ip" (LocalIP c) true = Ok tt;
  s_peer_ip : PeerIP c ≠ "" → validateTunnelAddr "peer_ip" (PeerIP c) false = Ok tt;
  s_prefix : PeerIP c = "" → contains_char "/" (LocalIP c) = true;
  s_queue : 1 ≤ TxQueueLen c ≤ 2^20;
  s_qdisc : Qdisc c ≠ "";
  s_mtu : minMTU ≤ MTU c ≤ maxMTU;
  s_clamp : MSSClamp c = MssClamp.Off ∨ 0 ≤ MSSClamp c ≤ MTU c - MssClamp.OverheadV4;
  s_ports : Ports c ≠ [] → ∃ ms, Portmap.Expand (Ports c) (PeerIP c) = Ok ms
}.

Lemma l3_sound c c' : Validate c = Ok c' → sound c'.
Proof.
  unfold Validate. intros H.
  apply bind_Ok in H as ([] & _ & H). apply bind_Ok in H as ([] & Hm & H). apply bind_Ok in H as ([] & Ha & H).
  apply bind_Ok in H as ([] & Hs & H). apply bind_Ok in H as ([] & Ht & H). apply bind_Ok in H as (enc & _ & H).
  apply bind_Ok in H as ([] & Hk & H). apply bind_Ok in H as ([] & Hp & H). apply bind_Ok in H as ([] & Hf & H).
  apply bind_Ok in H as ([] & Hn & H). apply bind_Ok in H as ([] & Hu & H). apply bind_Ok in H as ([] & Hl & H).
  apply bind_Ok in H as ([] & Hi & H). apply bind_Ok in H as ([] & Hx & H). apply bind_Ok in H as ([] & Hq & H).
  apply bind_Ok in H as ([] & Hr & H). apply bind_Ok in H as ([] & Hc & H). apply bind_Ok in H as ([] & Ho & H).
  apply bind_Ok in H as ([] & He & H). injection H as <-.
  apply require_Ok in Hm, Ha, Hs, Ht, Hk, Hp, Hu, Hx, Hq, Hr, Hc, Ho.
  set (carrier := or_string _ CarrierUDP) in *.
  split; cbn [Mode Addr Token Carrier Encap Spoof FEC Multipath Iface LocalIP PeerIP TxQueueLen Qdisc MTU MSSClamp Ports].
  - apply orb_true_iff in Hm as [Hm|Hm]; apply String.eqb_eq in Hm; auto.
  - split; [by destruct (Net.SplitHostPort (Addr c))|]. unfold is_blank in Ha. by destruct (String.eqb_spec (TrimSpace (Addr c)) "").
  - unfold is_blank in Ht. by destruct (String.eqb_spec (TrimSpace (Token c)) "").
  - by apply bool_decide_eq_true in Hk.
  - done.
  - intros -> E2 E3. rewrite E2, E3 in Hp. done.
  - destruct (Fec.Validate (FEC c)) as [[]|]; done.
  - unfold Multipath.Validate, Multipath.maxPaths in Hn. unfold Multipath.Enabled in Hu.
    destruct (Z.ltb_spec (Multipath.Paths (Multipath c)) 0); [done|]. destruct (Z.ltb_spec 8 (Multipath.Paths (Multipath c))); [done|].
    split; [lia|]. intros Hgt. apply Z.ltb_lt in Hgt. rewrite Hgt in Hu. cbn [andb negb] in Hu.
    by destruct (String.eqb_spec carrier CarrierUDP).
  - by apply or_string_spec.
  - exact Hl.
  - intros E. destruct (String.eqb_spec (PeerIP c) ""); done.
  - intros E. rewrite E in Hx. cbn [String.eqb negb] in Hx. by rewrite orb_false_r in Hx.
  - apply Z.leb_le in Hq. pose proof (or_positive_spec (TxQueueLen c) defaultTxQueueLen ltac:(done)). lia.
  - by apply or_string_spec.
  - apply andb_true_iff in Hr as [?%Z.leb_le ?%Z.leb_le]. done.
  - apply negb_true_iff, andb_false_iff in Hc. apply negb_true_iff, andb_false_iff in Ho. unfold MssClamp.Off in *.
    rewrite !Z.ltb_ge in Hc. rewrite Z.ltb_ge, negb_false_iff, Z.eqb_eq in Ho.
    destruct (decide (MSSClamp c = -1)); [by left|right]. apply andb_true_iff in Hr as [?%Z.leb_le ?%Z.leb_le].
    unfold minMTU, MssClamp.OverheadV4 in *. lia.
  - intros Hne. destruct (Ports c) as [|p ps]; [done|]. cbn [length] in He. change (0 <? S (length ps))%nat with true in He. cbv iota in He.
    apply bind_Ok in He as (ms & He & _). destruct (Portmap.Expand (p :: ps) (PeerIP c)) as [m|]; [by exists m|done].
Qed.

(** What can be worked with is left as it is. *)
Lemma l3_fixed c : sound c → Validate c = Ok c.
Proof.
  intros [Hm [Ha1 Ha2] Ht Hk He Hp Hf [Hn Hu] Hi Hl Hpi Hx Hq Hqd Hr Hc Ho]. unfold Validate.
  assert (ToLower (TrimSpace (Mode c)) = Mode c ∧ String.eqb (Mode c) "" = false ∧ (String.eqb (Mode c) ModeDial || String.eqb (Mode c) ModeListen) = true) as (-> & -> & ->)
    by (destruct Hm as [-> | ->]; done).
  assert (is_blank (Addr c) = false) as -> by by apply String.eqb_neq. destruct Ha1 as [hp ->].
  assert (is_blank (Token c) = false) as -> by by apply String.eqb_neq.
  rewrite He. change (Encap.NewEncap "gre" (GREKey c)) with (@Ok Encap.error _ (Encap.mkGre (GREKey c) (negb (GREKey c =? 0)))).
  cbn [negb require result_bind to_error].
  assert (or_string (ToLower (TrimSpace (Carrier c))) CarrierUDP = Carrier c ∧ knownCarrier (Carrier c) = true) as (-> & ->).
  { clear -Hk. repeat (apply elem_of_cons in Hk as [->|Hk]; [done|]). by apply elem_of_nil in Hk. }
  assert (String.eqb (Carrier c) CarrierSpoof && String.eqb (Mode c) ModeListen && String.eqb (Tuning.SpoofPeerIP (Spoof c)) "" = false) as ->.
  { apply not_true_is_false. intros [[E1%String.eqb_eq E2%String.eqb_eq]%andb_true_iff E3%String.eqb_eq]%andb_true_iff. by apply Hp. }
  rewrite Hf. cbn [negb require result_bind to_error].
  assert (Multipath.Validate (Multipath c) = None) as ->.
  { unfold Multipath.Validate, Multipath.maxPaths. rewrite (proj2 (Z.ltb_ge _ _)) by lia. by rewrite (proj2 (Z.ltb_ge _ _)) by lia. }
  assert (Multipath.Enabled (Multipath c) && negb (String.eqb (Carrier c) CarrierUDP) = false) as ->.
  { apply andb_false_iff. destruct (Z.ltb_spec 1 (Multipath.Paths (Multipath c))) as [H|H]; [right; by rewrite Hu|left]. by apply Z.ltb_ge. }
  rewrite (proj2 (or_string_spec (Iface c) defaultIfaceName ltac:(done))), (proj2 (or_string_spec (Qdisc c) defaultQdisc ltac:(done))) by done. rewrite Hl. cbn [negb require result_bind].
  assert ((if String.eqb (PeerIP c) "" then Ok tt else validateTunnelAddr "peer_ip" (PeerIP c) false) = Ok tt) as ->.
  { destruct (String.eqb_spec (PeerIP c) ""); [done|by apply Hpi]. }
  assert (contains_char "/" (LocalIP c) || negb (String.eqb (PeerIP c) "") = true) as ->.
  { destruct (String.eqb_spec (PeerIP c) ""); [by rewrite Hx|by rewrite orb_true_r]. }
  cbn [negb require result_bind]. rewrite (proj2 (or_positive_spec (TxQueueLen c) defaultTxQueueLen ltac:(done))) by lia. rewrite (proj2 (Z.leb_le (TxQueueLen c) (2^20))) by lia.
  unfold or_default. unfold minMTU, maxMTU in *. rewrite (proj2 (Z.eqb_neq (MTU c) 0)) by lia.
  rewrite (proj2 (Z.leb_le 576 (MTU c))), (proj2 (Z.leb_le (MTU c) 9000)) by lia. cbn [andb negb require result_bind].
  assert ((0 <? MSSClamp c) && (MTU c - MssClamp.OverheadV4 <? MSSClamp c) = false) as ->.
  { unfold MssClamp.Off in Hc. apply andb_false_iff. rewrite !Z.ltb_ge. lia. }
  assert ((MSSClamp c <? 0) && negb (MSSClamp c =? MssClamp.Off) = false) as ->.
  { apply andb_false_iff. rewrite Z.ltb_ge, negb_false_iff, Z.eqb_eq. lia. }
  cbn [negb require result_bind].
  assert ((if (0 <? length (Ports c))%nat then let? _ := to_error BadPorts (Portmap.Expand (Ports c) (PeerIP c)) in Ok tt else Ok tt) = Ok tt) as ->.
  { destruct (Ports c) as [|p ps] eqn:E; [done|]. destruct (Ho ltac:(done)) as [ms ->]. done. }
  cbn [result_bind]. rewrite <- He. by destruct c.
Qed.

(** A configuration at hand: a plain tunnel between two private addresses. *)
Definition plain_config (clamp : Z) : Config :=
  mkConfig " Dial " "203.0.113.7:4433" "secret" "" "ipip" 0 "" "10.10.0.1/30" "10.10.0.2" 0 0
    (Fec.mkFEC 0 0) (Multipath.mkConfig 0) 0 "" false clamp ["443"] false 0 0 Tuning.no_spoof (mkPcap "" "" []) "".

(** An l3 configuration that passes its check is one an engine can be built
    from (a role, a carrier that exists, addresses that parse, a usable MTU, ports
    that expand), checking it again changes nothing, whatever can be worked with
    passes unchanged, and unless clamping is off both IPv4 clamp rules are there
    with a segment that fits the interface beneath its headers. *)
Theorem l3_config_sound c c' (H : Validate c = Ok c') :
  sound c' ∧ Validate c' = Ok c' ∧
  (MSSClamp c' ≠ MssClamp.Off → ∀ r, r ∈ MssClamp.Rules "l3" (Iface c') (MTU c') (MSSClamp c') →
    MssClamp.Cmd r = "iptables" → 0 < MssClamp.MSS r ∧ MssClamp.MSS r + MssClamp.OverheadV4 ≤ MTU c').
Proof.
  pose proof (l3_sound c c' H) as Hs. split_and!; [exact Hs|by apply l3_fixed|].
  intros Ho r Hr Hv. destruct (s_clamp c' Hs) as [?|Hc]; [done|].
  apply MssClamp.Rules_size in Hr as (Hm & Hp). rewrite Hm in *. rewrite Hv in *. cbn [String.eqb Ascii.eqb Bool.eqb] in *.
  unfold MssClamp.For in *. destruct (Z.ltb_spec 0 (MSSClamp c')); lia.
Qed.

Lemma l3_config_sound_witness :
  ∃ c', Validate (plain_config 1360) = Ok c' ∧ sound c' ∧ (Mode c', Carrier c', Encap c', Iface c', MTU c', Qdisc c') = ("dial", "udp", "gre", "bp0", 1400, "fq_codel").
Proof.
  destruct (Validate (plain_config 1360)) as [c'|] eqn:E; [|by vm_compute in E].
  exists c'. split; [done|]. split; [exact (proj1 (l3_config_sound _ _ E))|]. revert E. vm_compute. by intros [= <-].
Defined.

(** The check measures a configured clamp against the IPv4 headers alone: 1360
    beneath an MTU of 1400 passes, and the IPv6 rule then promises segments of
    1420 bytes. *)
Lemma clamp_ignores_v6 : ∃ c' r, Validate (plain_config 1360) = Ok c' ∧
  r ∈ MssClamp.Rules "l3" (Iface c') (MTU c') (MSSClamp c') ∧ MssClamp.Cmd r = "ip6tables" ∧ MTU c' < MssClamp.MSS r + MssClamp.OverheadV6.
Proof.
  destruct (Validate (plain_config 1360)) as [c'|] eqn:E; [|by vm_compute in E]. vm_compute in E. injection E as <-.
  eexists _, _. split; [reflexivity|]. cbn [Iface MTU MSSClamp]. split; [|split].
  2: shelve. unfold MssClamp.Rules, MssClamp.families. cbn. do 2 apply list_elem_of_further. apply list_elem_of_here. Unshelve. all: by vm_compute.
Qed.

(** The encapsulation is no choice: what is configured is replaced. *)
Lemma encap_is_gre c c' : Validate c = Ok c' → Encap c' = "gre".
Proof. intros H. exact (s_encap _ (l3_sound _ _ H)). Qed.

End L3Checks.

Module DirectChecks.

Definition RoleEdge : string := "edge".
Definition RoleOrigin : string := "origin".
Definition TransportTCP : string := "tcp".
Definition TransportStealth : string := "stealth".
Definition TransportWS : string := "ws".
Definition TransportWSS : string := "wss".
Definition DefaultBackendHost : string := "127.0.0.1".

(** Durations in nanoseconds. *)
Definition second : Z := 10^9.
Definition defaultDialTimeout : Z := 10 * second.
Definition defaultRetryDelay : Z := 3 * second.
Definition defaultMaxFrameSize : Z := 32768.
Definition defaultMaxReceive : Z := 4194304.
Definition defaultMaxStream : Z := 65536.
Definition defaultACMECacheDir : string := "/etc/backpack/acme".

Record Config : Type := mkConfig {
  Role : string;
  Addr : string;
  Token : string;
  Transport : string;
  ServerName : string;
  TLSCertFile : string;
  TLSKeyFile : string;
  ACMEDomain : string;
  ACMEEmail : string;
  ACMECacheDir : string;
  Ports : list string;
  AcceptUDP : bool;
  MaxConnections : Z;
  BandwidthMbps : Z;
  Sessions : Z;
  DialTimeout : Z;
  RetryDelay : Z;
  MaxFrameSize : Z;
  MaxReceiveBuffer : Z;
  MaxStreamBuffer : Z;
  MuxVersion : Z;
  Nodelay : bool;
  Keepalive : Z;
  MSS : Z
}.

Inductive error : Type :=
  | RoleRequired | UnknownRole (r : string) | AddrRequired (role : string) | AddrNotHostPort (a : string) | TokenRequired
  | NoTransport (t : string) | HalfACertificate | NeedsPorts | BadPorts (e : Portmap.failure) | TooManySessions (n : Z).

Definition knownTransport (t : string) : bool := bool_decide (t ∈ [TransportTCP; TransportStealth; TransportWS; TransportWSS]).

Definition Validate (c : Config) : result error Config :=
  let role := ToLower (TrimSpace (Role c)) in
  let? _ := require (negb (String.eqb role "")) RoleRequired in
  let? _ := require (String.eqb role RoleEdge || String.eqb role RoleOrigin) (UnknownRole role) in
  let? _ := require (negb (is_blank (Addr c))) (AddrRequired role) in
  let? _ := require (match Net.SplitHostPort (Addr c) with Some _ => true | None => false end) (AddrNotHostPort (Addr c)) in
  let? _ := require (negb (is_blank (Token c))) TokenRequired in
  let transport := or_string (ToLower (TrimSpace (Transport c))) TransportTCP in
  let? _ := require (knownTransport transport) (NoTransport transport) in
  let? _ := require (Bool.eqb (String.eqb (TLSCertFile c) "") (String.eqb (TLSKeyFile c) "")) HalfACertificate in
  let cache := or_string (ACMECacheDir c) defaultACMECacheDir in
  let? _ := if String.eqb role RoleEdge then
              let? _ := require (negb (length (Ports c) =? 0)%nat) NeedsPorts in
              match Portmap.Expand (Ports c) DefaultBackendHost with Ok _ => Ok tt | Err e => Err (BadPorts e) end
            else Ok tt in
  let sessions := or_positive (Sessions c) 1 in
  let? _ := require (sessions <=? 64) (TooManySessions sessions) in
  Ok {| Role := role; Addr := Addr c; Token := Token c; Transport := transport; ServerName := ServerName c;
        TLSCertFile := TLSCertFile c; TLSKeyFile := TLSKeyFile c; ACMEDomain := ACMEDomain c; ACMEEmail := ACMEEmail c;
        ACMECacheDir := cache; Ports := Ports c; AcceptUDP := AcceptUDP c; MaxConnections := MaxConnections c;
        BandwidthMbps := BandwidthMbps c; Sessions := sessions;
        DialTimeout := or_positive (DialTimeout c) defaultDialTimeout; RetryDelay := or_positive (RetryDelay c) defaultRetryDelay;
        MaxFrameSize := or_positive (MaxFrameSize c) defaultMaxFrameSize;
        MaxReceiveBuffer := or_positive (MaxReceiveBuffer c) defaultMaxReceive;
        MaxStreamBuffer := or_positive (MaxStreamBuffer c) defaultMaxStream;
        MuxVersion := MuxVersion c; Nodelay := Nodelay c; Keepalive := Keepalive c; MSS := MSS c |}.

(** ** Lemmas *)

(** One an edge or an origin can be opened with. *)
Record sound (c : Config) : Prop := {
  d_role : Role c = RoleEdge ∨ Role c = RoleOrigin;
  d_addr : is_Some (Net.SplitHostPort (Addr c)) ∧ is_blank (Addr c) = false;
  d_token : is_blank (Token c) = false;
  d_transport : Transport c ∈ [TransportTCP; TransportStealth; TransportWS; TransportWSS];
  d_pair : TLSCertFile c = "" ↔ TLSKeyFile c = "";
  d_cache : ACMECacheDir c ≠ "";
  d_ports : Role c = RoleEdge → Ports c ≠ [] ∧ ∃ ms, Portmap.Expand (Ports c) DefaultBackendHost = Ok ms;
  d_sessions : 1 ≤ Sessions c ≤ 64;
  d_times : 0 < DialTimeout c ∧ 0 < RetryDelay c;
  d_mux : 0 < MaxFrameSize c ∧ 0 < MaxReceiveBuffer c ∧ 0 < MaxStreamBuffer c
}.

Lemma pair_eqb s t : Bool.eqb (String.eqb s "") (String.eqb t "") = true ↔ (s = "" ↔ t = "").
Proof. rewrite Bool.eqb_true_iff. destruct (String.eqb_spec s ""), (String.eqb_spec t ""); naive_solver. Qed.

Lemma direct_sound c c' : Validate c = Ok c' → sound c'.
Proof.
  unfold Validate. intros H.
  apply bind_Ok in H as ([] & _ & H). apply bind_Ok in H as ([] & Hr & H). apply bind_Ok in H as ([] & Ha & H).
  apply bind_Ok in H as ([] & Hs & H). apply bind_Ok in H as ([] & Ht & H). apply bind_Ok in H as ([] & Hk & H).
  apply bind_Ok in H as ([] & Hp & H). apply bind_Ok in H as ([] & He & H). apply bind_Ok in H as ([] & Hn & H). injection H as <-.
  apply require_Ok in Hr, Ha, Hs, Ht, Hk, Hp, Hn.
  split; cbn [Role Addr Token Transport TLSCertFile TLSKeyFile ACMECacheDir Ports Sessions DialTimeout RetryDelay MaxFrameSize MaxReceiveBuffer MaxStreamBuffer].
  - apply orb_true_iff in Hr as [Hr|Hr]; apply String.eqb_eq in Hr; auto.
  - split; [by destruct (Net.SplitHostPort (Addr c))|by apply negb_true_iff].
  - by apply negb_true_iff.
  - by apply bool_decide_eq_true in Hk.
  - by apply pair_eqb.
  - by apply or_string_spec.
  - intros E. rewrite E in He. change (String.eqb RoleEdge RoleEdge) with true in He. cbv iota in He.
    apply bind_Ok in He as ([] & Hl%require_Ok & He). split; [by destruct (Ports c)|].
    destruct (Portmap.Expand (Ports c) DefaultBackendHost) as [m|]; [by exists m|done].
  - apply Z.leb_le in Hn. pose proof (or_positive_spec (Sessions c) 1 ltac:(lia)). lia.
  - split; by apply or_positive_spec.
  - split_and!; by apply or_positive_spec.
Qed.

Lemma direct_fixed c : sound c → Validate c = Ok c.
Proof.
  intros [Hr [[hp Ha1] Ha2] Ht Hk Hp Hc Ho Hn [Hd1 Hd2] (Hm1 & Hm2 & Hm3)]. unfold Validate.
  assert (ToLower (TrimSpace (Role c)) = Role c ∧ String.eqb (Role c) "" = false ∧ (String.eqb (Role c) RoleEdge || String.eqb (Role c) RoleOrigin) = true) as (-> & -> & ->)
    by (destruct Hr as [-> | ->]; done).
  rewrite Ha1, Ha2, Ht. cbn [negb require result_bind].
  assert (or_string (ToLower (TrimSpace (Transport c))) TransportTCP = Transport c ∧ knownTransport (Transport c) = true) as (-> & ->).
  { clear -Hk. repeat (apply elem_of_cons in Hk as [->|Hk]; [done|]). by apply elem_of_nil in Hk. }
  apply pair_eqb in Hp. rewrite Hp. rewrite (proj2 (or_string_spec _ defaultACMECacheDir ltac:(done)) Hc). cbn [require result_bind].
  assert ((if String.eqb (Role c) RoleEdge then
             let? _ := require (negb (length (Ports c) =? 0)%nat) NeedsPorts in
             match Portmap.Expand (Ports c) DefaultBackendHost with Ok _ => Ok tt | Err e => Err (BadPorts e) end
           else Ok tt) = Ok tt) as ->.
  { destruct (String.eqb_spec (Role c) RoleEdge) as [E|]; [|done]. destruct (Ho E) as [Hne [ms ->]]. by destruct (Ports c). }
  cbn [result_bind]. rewrite (proj2 (or_positive_spec (Sessions c) 1 ltac:(done))) by lia.
  rewrite (proj2 (Z.leb_le (Sessions c) 64)) by lia. cbn [require result_bind].
  rewrite !(λ v d (H : 0 < d), proj2 (or_positive_spec v d H)) by done. by destruct c.
Qed.

(** A tunnel carrying one port. *)
Definition small_config (role : string) (sessions : Z) (ports : list string) : Config :=
  mkConfig role "198.51.100.2:8443" "secret" "" "" "" "" "" "" "" ports false 0 0 sessions 0 0 0 0 0 0 true 0 0.

(** A direct tunnel's configuration that passes its check has everything
    either end needs (on the edge at least one mapping that expands, one to 64
    sessions, positive timeouts and buffers, a whole certificate pair or none),
    checking it again changes nothing, and whatever has all that passes as it
    is. *)
Theorem direct_config_sound c :
  (∀ c', Validate c = Ok c' → sound c' ∧ Validate c' = Ok c') ∧ (sound c → Validate c = Ok c).
Proof. split; [|apply direct_fixed]. intros c' H%direct_sound. split; [done|by apply direct_fixed]. Qed.

Lemma direct_config_sound_witness :
  (∃ c', Validate (small_config " EDGE" 0 ["443"]) = Ok c' ∧ sound c' ∧ (Role c', Transport c', Sessions c') = ("edge", "tcp", 1)) ∧
  Validate (small_config "edge" 65 ["443"]) = Err (TooManySessions 65) ∧
  Validate (small_config "edge" 1 []) = Err NeedsPorts.
Proof.
  split_and!; [|by vm_compute|by vm_compute].
  destruct (Validate (small_config " EDGE" 0 ["443"])) as [c'|] eqn:E; [|by vm_compute in E].
  exists c'. split; [done|]. split; [exact (proj1 (proj1 (direct_config_sound _) _ E))|]. revert E. vm_compute. by intros [= <-].
Defined.

End DirectChecks.
