(* ===== verification/Startup.v ===== *)
(** How a tunnel process starts: what is filled into a configuration, what is
    refused before anything is opened, and which engine it names.
    - Module [Outbound]: the route a client leaves by
      ([internal/utils/network/outbound.go], [proxy.go]);
    - Module [Defaults]: [cmd/defaults.go];
    - Module [Dispatch]: [runEngine] of [cmd/cmd.go], with the conversions of
      [cmd/l3.go] and [cmd/direct.go].

    What the machine says is an argument of every check that asks: a [host].
    A check that stops the process ([logger.Fatalf]) is a verdict with a
    [fatal]; what it says otherwise is a list of notices. *)

From Stdlib Require Import Ascii String.
From S2P Require Import Prelude GoStr Pck Spoof L3Encap L3Fec L3Path Ports GoNet Settings Checks.
Import GoStr GoNet.
Open Scope string_scope.
Open Scope list_scope.
Open Scope Z_scope.

(** The machine: its system, whether we are root, its network devices, which
    names resolve, its binaries, files under [/proc], the device that holds the
    address the kernel picks toward a destination, [url.Parse] and
    [logrus.ParseLevel]. *)
Record URL : Type := mkURL { Scheme : string; Host : string; UserInfo : option (string * option string) }.

Record host : Type := mkHost {
  goos : string;
  euid : Z;
  has_interface : string → bool;
  resolves : string → bool;
  look_path : string → bool;
  read_file : string → option string;
  route_device : list Z → string;
  parse_url : string → option URL;
  parse_level : string → bool
}.

Module Outbound.

Record ProxyConfig : Type := mkProxy { PScheme : string; Address : string; User : string; Password : string }.

Inductive proxy_error : Type := NotAURL (raw : string) | UnknownScheme (s : string) | NoHost (raw : string) | NeedsAPort (raw : string).

(** [ParseProxy]; [Ok None] is no proxy. *)
Definition ParseProxy (h : host) (raw : string) : result proxy_error (option ProxyConfig) :=
  let raw := TrimSpace raw in
  if String.eqb raw "" then Ok None
  else match parse_url h raw with
  | None => Err (NotAURL raw)
  | Some u =>
      let scheme := ToLower (Scheme u) in
      let known :=
        if String.eqb scheme "socks5" || String.eqb scheme "socks5h" then Some "socks5"
        else if String.eqb scheme "http" then Some "http" else None in
      match known with
      | None => Err (UnknownScheme (Scheme u))
      | Some scheme =>
          if String.eqb (Host u) "" then Err (NoHost raw)
          else match Net.SplitHostPort (Host u) with
          | None => Err (NeedsAPort raw)
          | Some _ =>
              let (name, secret) := match UserInfo u with Some (n, p) => (n, default "" p) | None => ("", "") end in
              Ok (Some (mkProxy scheme (Host u) name secret))
          end
      end
  end.

(** [ProxyConfig.String]: never the password. *)
Definition proxy_String (p : ProxyConfig) : string :=
  if negb (String.eqb (User p) "") then PScheme p +:+ "://" +:+ User p +:+ ":***@" +:+ Address p
  else PScheme p +:+ "://" +:+ Address p.

Record Outbound : Type := mkOutbound { Proxy : option ProxyConfig; LocalAddr : string; Interface : string; Mark : Z }.

Definition strip_brackets (s : string) : string :=
  if HasPrefix s "[" && HasSuffix s "]" then substring 1 (String.length s - 2) s else s.

(** The address [localTCPAddr] resolves. *)
Definition local_target (addr : string) : string :=
  match Net.SplitHostPort addr with
  | Some _ => addr
  | None => Net.JoinHostPort (strip_brackets addr) "0"
  end.

Definition localTCPAddr (h : host) (o : Outbound) : bool :=
  String.eqb (LocalAddr o) "" || resolves h (local_target (LocalAddr o)).

Definition IsSet (o : Outbound) : bool :=
  match Proxy o with Some _ => true | None => false end || negb (String.eqb (LocalAddr o) "") ||
  negb (String.eqb (Interface o) "") || negb (Mark o =? 0).

Definition dialAddress (o : Outbound) (remote : string) : string :=
  match Proxy o with Some p => Address p | None => remote end.

Inductive error : Type := BadLocalAddr (a : string) | NoInterface (i : string) | NegativeMark (m : Z).

Definition Validate (h : host) (o : Outbound) : result error unit :=
  let? _ := require (localTCPAddr h o) (BadLocalAddr (LocalAddr o)) in
  let? _ := require (String.eqb (Interface o) "" || has_interface h (Interface o)) (NoInterface (Interface o)) in
  require (negb (Mark o <? 0)) (NegativeMark (Mark o)).

(** ** Lemmas *)

Lemma ParseProxy_Some h raw p : ParseProxy h raw = Ok (Some p) →
  PScheme p ∈ ["socks5"; "http"] ∧ is_Some (Net.SplitHostPort (Address p)).
Proof.
  unfold ParseProxy. destruct (String.eqb (TrimSpace raw) ""); [done|].
  destruct (parse_url h (TrimSpace raw)) as [u|]; [|done].
  assert (∀ k, (if String.eqb (ToLower (Scheme u)) "socks5" || String.eqb (ToLower (Scheme u)) "socks5h" then Some "socks5"
    else if String.eqb (ToLower (Scheme u)) "http" then Some "http" else None) = Some k → k ∈ ["socks5"; "http"]) as Hk.
  { intros k. destruct (_ || _); [intros [= <-]; set_solver|]. destruct (String.eqb _ "http"); [intros [= <-]; set_solver|done]. }
  destruct (if _ || _ then _ else _) as [k|]; [|done]. specialize (Hk k eq_refl).
  destruct (String.eqb (Host u) ""); [done|]. destruct (Net.SplitHostPort (Host u)) as [hp|] eqn:E; [|done].
  destruct (match UserInfo u with Some _ => _ | None => _ end) as [name secret]. intros [= <-]. cbn. split; [done|by rewrite E].
Qed.

Lemma Validate_Ok h o : Validate h o = Ok tt ↔
  localTCPAddr h o = true ∧ (Interface o ≠ "" → has_interface h (Interface o) = true) ∧ 0 ≤ Mark o.
Proof.
  unfold Validate. rewrite bind_Ok. setoid_rewrite bind_Ok. setoid_rewrite require_Ok'. split.
  - intros (_ & H1 & _ & H2 & H3). split; [done|]. split; [|by apply negb_true_iff, Z.ltb_ge in H3].
    intros Hi. apply String.eqb_neq in Hi. by rewrite Hi in H2.
  - intros (H1 & H2 & H3). exists tt. split; [done|]. exists tt. split; [|by apply negb_true_iff, Z.ltb_ge].
    destruct (String.eqb_spec (Interface o) ""); [done|]. by apply H2.
Qed.

End Outbound.

Module Defaults.

Definition defaultToken : string := "backpack".
Definition defaultChannelSize : Z := 2048.
Definition defaultRetryInterval : Z := 3.
Definition defaultConnectionPool : Z := 8.
Definition defaultLogLevel : string := "info".
Definition defaultMuxSession : Z := 1.
Definition defaultKeepAlive : Z := 75.
Definition defaultHeartbeat : Z := 40.
Definition defaultDatagramSockBuf : Z := 4 * 2^20.
Definition defaultDialTimeout : Z := 10.
Definition defaultMaxFrameSize : Z := 32768.
Definition defaultMaxReceiveBuffer : Z := 4194304.
Definition defaultMaxStreamBuffer : Z := 65536.
Definition defaultSnifferLog : string := "backpack.json".
Definition defaultMuxCon : Z := 8.
Definition MuxVersionAuto : Z := 0.

Inductive side : Type := OnServer | OnClient.

(** What stops the process. *)
Inductive fatal : Type :=
  | BadProxy (e : Outbound.proxy_error) | BadOutbound (e : Outbound.error) | OutboundUnused (transport : string)
  | NotLinux (what : string) | NotRoot (what : string)
  | SpoofNotReverse | BadSpoofProfile (p : string) | NeedsPeerIP | BadSrcPool (ip : string)
  | BadPckFlags (e : Flags.error) | BadGatewayMAC (m : string) | NoSuchInterface (i : string)
  | BadFallback (s : side) (e : Transport.error).

(** What is said. *)
Inductive notice : Type :=
  | UnusedStreamBuffer | ReachedVia (route : string) | XdiExperimental
  | SpoofAsymmetric (up down : Spoof.SpoofProfile) | NoIptables (what : string) | RuleInstalled (what : string)
  | RPFilterStrict (key : string) | RPFilterAdvice | ICMPv6Profile | PinTheSource | SpoofExperimental
  | FallbackEnabled (l : list string).

#[local] Existing Instance Spoof.SpoofProfile_eq_dec.

#[export] Instance notice_eq_dec : EqDecision notice.
Proof. solve_decision. Defined.

Definition verdict : Type := list notice * option fatal.

Definition pass : verdict := ([], None).
Definition stop (b : bool) (f : fatal) : verdict := if b then ([], Some f) else pass.
Definition say (b : bool) (n : notice) : verdict := if b then ([n], None) else pass.
Definition also (v w : verdict) : verdict :=
  match snd v with Some f => v | None => (fst v ++ fst w, snd w) end.
Definition all (l : list verdict) : verdict := foldr also pass l.
Definition when (b : bool) (v : verdict) : verdict := if b then v else pass.

Section on_host.
Context (h : host).

(** ** Filling in *)

Definition datagram (t : string) : bool :=
  bool_decide (t ∈ [Transport.KCP; Transport.XDI; Transport.PCK; Transport.QUIC; Transport.UDP]).

Definition sock_buf (t : string) (n : Z) : Z := if datagram t then or_positive n defaultDatagramSockBuf else n.
Definition level (l : string) : string := if parse_level h l then l else defaultLogLevel.
Definition mux_version (v : Z) : Z := if negb (v =? 1) && negb (v =? 2) then MuxVersionAuto else v.

Definition server_defaults (s : ServerCfg.ServerConfig) : ServerCfg.ServerConfig :=
  {|
    ServerCfg.BindAddr := ServerCfg.BindAddr s;
    ServerCfg.Transport := ServerCfg.Transport s;
    ServerCfg.FallbackTransports := ServerCfg.FallbackTransports s;
    ServerCfg.FallbackDwell := ServerCfg.FallbackDwell s;
    ServerCfg.Token := or_string (ServerCfg.Token s) defaultToken;
    ServerCfg.Nodelay := ServerCfg.Nodelay s;
    ServerCfg.Keepalive := or_positive (ServerCfg.Keepalive s) defaultKeepAlive;
    ServerCfg.ChannelSize := or_positive (ServerCfg.ChannelSize s) defaultChannelSize;
    ServerCfg.LogLevel := level (ServerCfg.LogLevel s);
    ServerCfg.LogFormat := ServerCfg.LogFormat s;
    ServerCfg.Ports := ServerCfg.Ports s;
    ServerCfg.PPROF := ServerCfg.PPROF s;
    ServerCfg.MuxSession := or_positive (ServerCfg.MuxSession s) defaultMuxSession;
    ServerCfg.MuxVersion := mux_version (ServerCfg.MuxVersion s);
    ServerCfg.MaxFrameSize := or_positive (ServerCfg.MaxFrameSize s) defaultMaxFrameSize;
    ServerCfg.MaxReceiveBuffer := or_positive (ServerCfg.MaxReceiveBuffer s) defaultMaxReceiveBuffer;
    ServerCfg.MaxStreamBuffer := or_positive (ServerCfg.MaxStreamBuffer s) defaultMaxStreamBuffer;
    ServerCfg.Sniffer := ServerCfg.Sniffer s;
    ServerCfg.WebPort := ServerCfg.WebPort s;
    ServerCfg.WebBind := ServerCfg.WebBind s;
    ServerCfg.SnifferLog := or_string (ServerCfg.SnifferLog s) defaultSnifferLog;
    ServerCfg.TLSCertFile := ServerCfg.TLSCertFile s;
    ServerCfg.TLSKeyFile := ServerCfg.TLSKeyFile s;
    ServerCfg.ACMEDomain := ServerCfg.ACMEDomain s;
    ServerCfg.ACMEEmail := ServerCfg.ACMEEmail s;
    ServerCfg.SimpleAuth := ServerCfg.SimpleAuth s;
    ServerCfg.Heartbeat := or_positive (ServerCfg.Heartbeat s) defaultHeartbeat;
    ServerCfg.MuxCon := or_positive (ServerCfg.MuxCon s) defaultMuxCon;
    ServerCfg.AcceptUDP := ServerCfg.AcceptUDP s;
    ServerCfg.SkipOptz := ServerCfg.SkipOptz s;
    ServerCfg.MSS := ServerCfg.MSS s;
    ServerCfg.SO_RCVBUF := sock_buf (ServerCfg.Transport s) (ServerCfg.SO_RCVBUF s);
    ServerCfg.SO_SNDBUF := sock_buf (ServerCfg.Transport s) (ServerCfg.SO_SNDBUF s);
    ServerCfg.SOPinTCP := ServerCfg.SOPinTCP s;
    ServerCfg.ZeroCopy := ServerCfg.ZeroCopy s;
    ServerCfg.ProxyProtocol := ServerCfg.ProxyProtocol s;
    ServerCfg.MaxConnections := ServerCfg.MaxConnections s;
    ServerCfg.BandwidthMbps := ServerCfg.BandwidthMbps s;
    ServerCfg.Preset := ServerCfg.Preset s;
    ServerCfg.Kcp := ServerCfg.Kcp s;
    ServerCfg.Pck := ServerCfg.Pck s
  |}.

Definition client_defaults (c : ClientCfg.ClientConfig) : ClientCfg.ClientConfig :=
  {|
    ClientCfg.RemoteAddr := ClientCfg.RemoteAddr c;
    ClientCfg.FallbackAddrs := ClientCfg.FallbackAddrs c;
    ClientCfg.Transport := ClientCfg.Transport c;
    ClientCfg.FallbackTransports := ClientCfg.FallbackTransports c;
    ClientCfg.FallbackDwell := ClientCfg.FallbackDwell c;
    ClientCfg.Token := or_string (ClientCfg.Token c) defaultToken;
    ClientCfg.ConnectionPool := or_positive (ClientCfg.ConnectionPool c) defaultConnectionPool;
    ClientCfg.RetryInterval := or_positive (ClientCfg.RetryInterval c) defaultRetryInterval;
    ClientCfg.Nodelay := ClientCfg.Nodelay c;
    ClientCfg.Keepalive := or_positive (ClientCfg.Keepalive c) defaultKeepAlive;
    ClientCfg.LogLevel := level (ClientCfg.LogLevel c);
    ClientCfg.LogFormat := ClientCfg.LogFormat c;
    ClientCfg.PPROF := ClientCfg.PPROF c;
    ClientCfg.MuxSession := or_positive (ClientCfg.MuxSession c) defaultMuxSession;
    ClientCfg.MuxVersion := mux_version (ClientCfg.MuxVersion c);
    ClientCfg.MaxFrameSize := or_positive (ClientCfg.MaxFrameSize c) defaultMaxFrameSize;
    ClientCfg.MaxReceiveBuffer := or_positive (ClientCfg.MaxReceiveBuffer c) defaultMaxReceiveBuffer;
    ClientCfg.MaxStreamBuffer := or_positive (ClientCfg.MaxStreamBuffer c) defaultMaxStreamBuffer;
    ClientCfg.Sniffer := ClientCfg.Sniffer c;
    ClientCfg.WebPort := ClientCfg.WebPort c;
    ClientCfg.WebBind := ClientCfg.WebBind c;
    ClientCfg.SnifferLog := or_string (ClientCfg.SnifferLog c) defaultSnifferLog;
    ClientCfg.DialTimeout := or_positive (ClientCfg.DialTimeout c) defaultDialTimeout;
    ClientCfg.AggressivePool := ClientCfg.AggressivePool c;
    ClientCfg.EdgeIP := ClientCfg.EdgeIP c;
    ClientCfg.SimpleAuth := ClientCfg.SimpleAuth c;
    ClientCfg.SkipOptz := ClientCfg.SkipOptz c;
    ClientCfg.MSS := ClientCfg.MSS c;
    ClientCfg.SO_RCVBUF := sock_buf (ClientCfg.Transport c) (ClientCfg.SO_RCVBUF c);
    ClientCfg.SO_SNDBUF := sock_buf (ClientCfg.Transport c) (ClientCfg.SO_SNDBUF c);
    ClientCfg.Proxy := ClientCfg.Proxy c;
    ClientCfg.LocalAddr := ClientCfg.LocalAddr c;
    ClientCfg.Interface := ClientCfg.Interface c;
    ClientCfg.SOMark := ClientCfg.SOMark c;
    ClientCfg.SOPinTCP := ClientCfg.SOPinTCP c;
    ClientCfg.ZeroCopy := ClientCfg.ZeroCopy c;
    ClientCfg.Preset := ClientCfg.Preset c;
    ClientCfg.LoadBalance := ClientCfg.LoadBalance c;
    ClientCfg.HealthFailover := ClientCfg.HealthFailover c;
    ClientCfg.Kcp := ClientCfg.Kcp c;
    ClientCfg.Pck := ClientCfg.Pck c
  |}.

(** ** The checks *)

Definition warnUnusedStreamBuffer (c : Settings.Config) : verdict :=
  let s := Settings.Server c in
  let k := Settings.Client c in
  all [say ((0 <? ServerCfg.MaxStreamBuffer s) && (ServerCfg.MuxVersion s =? 1) && negb (String.eqb (ServerCfg.BindAddr s) "")) UnusedStreamBuffer;
       say ((0 <? ClientCfg.MaxStreamBuffer k) && (ClientCfg.MuxVersion k =? 1) && negb (String.eqb (ClientCfg.RemoteAddr k) "")) UnusedStreamBuffer].

Definition transportIgnoresOutbound (t : string) : bool :=
  bool_decide (t ∈ [Transport.UDP; Transport.KCP; Transport.XDI; Transport.PCK; Transport.QUIC; Transport.SPOOF]).

(** [Outbound.String] of a route that is set. *)
Definition route_String (o : Outbound.Outbound) : string :=
  if negb (Outbound.IsSet o) then "direct"
  else String.concat ", " (
    match Outbound.Proxy o with Some p => ["via " +:+ Outbound.proxy_String p] | None => [] end ++
    (if String.eqb (Outbound.LocalAddr o) "" then [] else ["from " +:+ Outbound.LocalAddr o]) ++
    (if String.eqb (Outbound.Interface o) "" then [] else ["on " +:+ Outbound.Interface o]) ++
    (if Outbound.Mark o =? 0 then [] else ["fwmark " +:+ Itoa (Outbound.Mark o)])).

Definition outbound_of (k : ClientCfg.ClientConfig) (p : option Outbound.ProxyConfig) : Outbound.Outbound :=
  Outbound.mkOutbound p (ClientCfg.LocalAddr k) (ClientCfg.Interface k) (ClientCfg.SOMark k).

Definition checkOutbound (c : Settings.Config) : verdict :=
  let k := Settings.Client c in
  match Outbound.ParseProxy h (ClientCfg.Proxy k) with
  | Err e => stop true (BadProxy e)
  | Ok proxy =>
      let out := outbound_of k proxy in
      if negb (Outbound.IsSet out) then pass
      else match Outbound.Validate h out with
      | Err e => stop true (BadOutbound e)
      | Ok _ =>
          all [stop (transportIgnoresOutbound (ClientCfg.Transport k)) (OutboundUnused (ClientCfg.Transport k));
               say true (ReachedVia (route_String out))]
      end
  end.

Definition l3Carrier (c : Settings.Config) : string :=
  if negb (L3Cfg.Enabled (Settings.L3 c)) then "" else ToLower (TrimSpace (L3Cfg.Carrier (Settings.L3 c))).

(** A raw socket: Linux, and root. *)
Definition raw_socket (what : string) : verdict :=
  all [stop (negb (String.eqb (goos h) "linux")) (NotLinux what); stop (negb (euid h =? 0)) (NotRoot what)].

Definition reverse_uses (t : string) (c : Settings.Config) : bool :=
  String.eqb (ServerCfg.Transport (Settings.Server c)) t || String.eqb (ClientCfg.Transport (Settings.Client c)) t.

Definition usesXdi (c : Settings.Config) : bool :=
  reverse_uses Transport.XDI c || String.eqb (l3Carrier c) L3Checks.CarrierXdi.

Definition checkXdi (c : Settings.Config) : verdict :=
  if negb (usesXdi c) then pass else also (raw_socket "xdi") (say true XdiExperimental).

(** [EffectiveRPFilter]. *)
Definition readRPFilterKey (key : string) : Z :=
  match read_file h ("/proc/sys/net/ipv4/conf/" +:+ key +:+ "/rp_filter") with
  | None => -1
  | Some b =>
      let v := TrimSpace b in
      if String.eqb v "0" then 0 else if String.eqb v "1" then 1 else if String.eqb v "2" then 2 else -1
  end.

Definition EffectiveRPFilter (iface : string) : Z * string :=
  let value := readRPFilterKey "all" in
  let key := "net.ipv4.conf.all.rp_filter" in
  if String.eqb iface "" then (value, key)
  else let v := readRPFilterKey iface in
  if value <? v then (v, "net.ipv4.conf." +:+ iface +:+ ".rp_filter") else (value, key).

Definition InterfaceTowardPeer (peerReal : string) : string :=
  match ParseIP (TrimSpace peerReal) with None => "" | Some ip => route_device h ip end.

Definition iptables_note (b : bool) (what : string) : verdict :=
  when b (if look_path h "iptables" then say true (RuleInstalled what) else say true (NoIptables what)).

Definition checkSpoofCarrier (sc : Tuning.SpoofConfig) (listening : bool) (peerReal : string) : verdict :=
  let profiles := [Tuning.SpoofProfile sc; Tuning.SpoofUplink sc; Tuning.SpoofDownlink sc] in
  let (up, down) := Spoof.ResolveSpoofDirections (Tuning.SpoofProfile sc) (Tuning.SpoofUplink sc) (Tuning.SpoofDownlink sc) in
  let either p := Spoof.is_profile up p || Spoof.is_profile down p in
  let rxIface := if String.eqb (Tuning.SpoofInterface sc) "" then InterfaceTowardPeer peerReal else Tuning.SpoofInterface sc in
  let (v, key) := EffectiveRPFilter rxIface in
  all ([raw_socket "spoof"] ++
    map (λ p, stop (match Spoof.ParseSpoofProfile p with None => true | Some _ => false end) (BadSpoofProfile p)) profiles ++
    [say (negb (Spoof.is_profile up down)) (SpoofAsymmetric up down);
     iptables_note (either Spoof.SpoofProfileTCP) "tcp";
     stop (listening && negb (isIPv4 (Tuning.SpoofPeerIP sc))) NeedsPeerIP] ++
    map (λ ip, stop (negb (isIPv4 ip)) (BadSrcPool ip)) (items (Tuning.SpoofSrcPool sc)) ++
    [say true (if v =? 1 then RPFilterStrict key else RPFilterAdvice);
     iptables_note (either Spoof.SpoofProfileICMP) "icmp";
     say (either Spoof.SpoofProfileICMPv6) ICMPv6Profile;
     say ((either Spoof.SpoofProfileIPIP || either Spoof.SpoofProfileGRE) && negb (isIPv4 (Tuning.SpoofPeerSrcIP sc))) PinTheSource;
     say true SpoofExperimental]).

Definition spoof_listens (c : Settings.Config) : bool := EqualFold (TrimSpace (L3Cfg.Mode (Settings.L3 c))) "listen".

Definition checkSpoof (c : Settings.Config) : verdict :=
  also (stop (reverse_uses Transport.SPOOF c) SpoofNotReverse)
  (if negb (String.eqb (l3Carrier c) L3Checks.CarrierSpoof) then pass
   else
     let l := Settings.L3 c in
     let listening := spoof_listens c in
     let told := Tuning.SpoofPeerIP (L3Cfg.Spoof l) in
     let peerReal :=
       if negb listening then match Net.SplitHostPort (L3Cfg.Addr l) with Some (host, _) => host | None => told end
       else told in
     checkSpoofCarrier (L3Cfg.Spoof l) listening peerReal).

Definition usesPck (c : Settings.Config) : bool :=
  reverse_uses Transport.PCK c || bool_decide (l3Carrier c ∈ [L3Checks.CarrierPck; L3Checks.CarrierSNI]).

(** The packet settings [checkPck] reads. *)
Definition pck_settings (c : Settings.Config) : Tuning.PckConfig :=
  if negb (reverse_uses Transport.PCK c) then L3Cfg.Pck (Settings.L3 c)
  else if String.eqb (ClientCfg.Transport (Settings.Client c)) Transport.PCK then ClientCfg.Pck (Settings.Client c)
  else ServerCfg.Pck (Settings.Server c).

Definition checkPck (c : Settings.Config) : verdict :=
  if negb (usesPck c) then pass
  else
    let pc := pck_settings c in
    all [raw_socket "pck";
         match Flags.ParseTCPFlagList (items (Tuning.PckFlags pc)) with Err e => stop true (BadPckFlags e) | Ok _ => pass end;
         stop (negb (String.eqb (Tuning.PckGatewayMAC pc) "") && negb (ParseMAC (Tuning.PckGatewayMAC pc))) (BadGatewayMAC (Tuning.PckGatewayMAC pc));
         stop (negb (String.eqb (Tuning.PckInterface pc) "") && negb (has_interface h (Tuning.PckInterface pc))) (NoSuchInterface (Tuning.PckInterface pc));
         iptables_note true "pck"].

Definition fallback_check (s : side) (t : string) (l : list string) : verdict :=
  match Transport.ValidateFallbackTransports t l with Some e => stop true (BadFallback s e) | None => pass end.

Definition checkFallbackChain (c : Settings.Config) : verdict :=
  let s := Settings.Server c in
  let k := Settings.Client c in
  let l := items (ClientCfg.FallbackTransports k) in
  all [fallback_check OnServer (ServerCfg.Transport s) (items (ServerCfg.FallbackTransports s));
       fallback_check OnClient (ClientCfg.Transport k) l;
       say (0 <? length l)%nat (FallbackEnabled l)].

(** [applyDefaults]. *)
Definition defaults (c : Settings.Config) : Settings.Config :=
  Settings.mkConfig (server_defaults (Settings.Server c)) (client_defaults (Settings.Client c)) (Settings.L3 c) (Settings.Direct c).

Definition checks (c : Settings.Config) : verdict :=
  all [warnUnusedStreamBuffer c; checkOutbound c; checkXdi c; checkSpoof c; checkPck c; checkFallbackChain c].

Definition applyDefaults (c : Settings.Config) : Settings.Config * verdict :=
  let c := defaults c in (c, checks c).

End on_host.

(** ** Lemmas *)

Lemma also_clear v w : snd (also v w) = None ↔ snd v = None ∧ snd w = None.
Proof. unfold also. destruct v as [n [f|]], w as [n' [f'|]]; cbn; intuition congruence. Qed.

Lemma all_clear l : snd (all l) = None ↔ Forall (λ v, snd v = None) l.
Proof. induction l as [|v l IH]; cbn [all foldr]; [split; [constructor|done]|]. by rewrite also_clear, Forall_cons, <- IH. Qed.

Lemma stop_clear b f : snd (stop b f) = None ↔ b = false.
Proof. by destruct b. Qed.

Lemma say_clear b n : snd (say b n) = None ↔ True.
Proof. by destruct b. Qed.

Lemma stops_clear {A} (p : A → bool) (f : A → fatal) l :
  Forall (λ v, snd v = None) (map (λ x, stop (p x) (f x)) l) ↔ Forall (λ x, p x = false) l.
Proof. rewrite Forall_map. apply Forall_proper; [intros x; cbn; by rewrite stop_clear|done]. Qed.

(** What a side has once it is filled in. *)
Record server_settled (h : host) (s : ServerCfg.ServerConfig) : Prop := {
  ss_names : ServerCfg.Token s ≠ "" ∧ ServerCfg.SnifferLog s ≠ "" ∧ parse_level h (ServerCfg.LogLevel s) = true;
  ss_sizes : 0 < ServerCfg.ChannelSize s ∧ 0 < ServerCfg.MaxFrameSize s ∧ 0 < ServerCfg.MaxReceiveBuffer s ∧ 0 < ServerCfg.MaxStreamBuffer s;
  ss_counts : 0 < ServerCfg.MuxSession s ∧ 0 < ServerCfg.MuxCon s;
  ss_times : 0 < ServerCfg.Keepalive s ∧ 0 < ServerCfg.Heartbeat s;
  ss_mux : 0 ≤ ServerCfg.MuxVersion s ≤ 2;
  ss_buf : datagram (ServerCfg.Transport s) = true → 0 < ServerCfg.SO_RCVBUF s ∧ 0 < ServerCfg.SO_SNDBUF s
}.

Record client_settled (h : host) (k : ClientCfg.ClientConfig) : Prop := {
  cs_names : ClientCfg.Token k ≠ "" ∧ ClientCfg.SnifferLog k ≠ "" ∧ parse_level h (ClientCfg.LogLevel k) = true;
  cs_sizes : 0 < ClientCfg.MaxFrameSize k ∧ 0 < ClientCfg.MaxReceiveBuffer k ∧ 0 < ClientCfg.MaxStreamBuffer k;
  cs_counts : 0 < ClientCfg.MuxSession k ∧ 0 < ClientCfg.ConnectionPool k;
  cs_times : 0 < ClientCfg.Keepalive k ∧ 0 < ClientCfg.RetryInterval k ∧ 0 < ClientCfg.DialTimeout k;
  cs_mux : 0 ≤ ClientCfg.MuxVersion k ≤ 2;
  cs_buf : datagram (ClientCfg.Transport k) = true → 0 < ClientCfg.SO_RCVBUF k ∧ 0 < ClientCfg.SO_SNDBUF k
}.

Definition settled (h : host) (c : Settings.Config) : Prop :=
  server_settled h (Settings.Server c) ∧ client_settled h (Settings.Client c).

Lemma or_positive_pos v d : 0 < d → 0 < or_positive v d.
Proof. intros H. by apply or_positive_spec. Qed.

Lemma or_positive_id v d : 0 < v → or_positive v d = v.
Proof. unfold or_positive. destruct (Z.leb_spec v 0); lia. Qed.

Lemma or_string_set s d : d ≠ "" → or_string s d ≠ "".
Proof. intros H. by apply or_string_spec. Qed.

Lemma or_string_id s d : s ≠ "" → or_string s d = s.
Proof. unfold or_string. by intros ->%String.eqb_neq. Qed.

Lemma level_ok h l : parse_level h "info" = true → parse_level h (level h l) = true.
Proof. unfold level. by destruct (parse_level h l) eqn:E. Qed.

Lemma level_id h l : parse_level h l = true → level h l = l.
Proof. unfold level. by intros ->. Qed.

Lemma mux_version_range v : 0 ≤ mux_version v ≤ 2.
Proof. unfold mux_version, MuxVersionAuto. destruct (Z.eqb_spec v 1), (Z.eqb_spec v 2); cbn; lia. Qed.

Lemma mux_version_id v : 0 ≤ v ≤ 2 → mux_version v = v.
Proof. unfold mux_version, MuxVersionAuto. destruct (Z.eqb_spec v 1), (Z.eqb_spec v 2); cbn; lia. Qed.

Lemma sock_buf_pos t n : datagram t = true → 0 < sock_buf t n.
Proof. unfold sock_buf. intros ->. by apply or_positive_pos. Qed.

Lemma sock_buf_id t n : (datagram t = true → 0 < n) → sock_buf t n = n.
Proof. unfold sock_buf. destruct (datagram t); [|done]. intros H. by apply or_positive_id, H. Qed.

Ltac filled_in := first [by apply or_positive_pos | by apply or_string_set | by apply level_ok | by apply mux_version_range | by apply sock_buf_pos].

Lemma server_defaults_settled h s : parse_level h "info" = true → server_settled h (server_defaults h s).
Proof. intros Hl. split; cbn [server_defaults ServerCfg.Token ServerCfg.SnifferLog ServerCfg.LogLevel ServerCfg.ChannelSize ServerCfg.MaxFrameSize ServerCfg.MaxReceiveBuffer ServerCfg.MaxStreamBuffer ServerCfg.MuxSession ServerCfg.MuxCon ServerCfg.Keepalive ServerCfg.Heartbeat ServerCfg.MuxVersion ServerCfg.Transport ServerCfg.SO_RCVBUF ServerCfg.SO_SNDBUF]; intros; split_and?; filled_in. Qed.

Lemma client_defaults_settled h k : parse_level h "info" = true → client_settled h (client_defaults h k).
Proof. intros Hl. split; cbn [client_defaults ClientCfg.Token ClientCfg.SnifferLog ClientCfg.LogLevel ClientCfg.MaxFrameSize ClientCfg.MaxReceiveBuffer ClientCfg.MaxStreamBuffer ClientCfg.MuxSession ClientCfg.ConnectionPool ClientCfg.Keepalive ClientCfg.RetryInterval ClientCfg.DialTimeout ClientCfg.MuxVersion ClientCfg.Transport ClientCfg.SO_RCVBUF ClientCfg.SO_SNDBUF]; intros; split_and?; filled_in. Qed.

Lemma server_defaults_id h s : server_settled h s → server_defaults h s = s.
Proof.
  intros [(? & ? & ?) (? & ? & ? & ?) (? & ?) (? & ?) ? Hb]. unfold server_defaults.
  rewrite !or_positive_id, !or_string_id, level_id, mux_version_id, !sock_buf_id by (done || apply Hb). by destruct s.
Qed.

Lemma client_defaults_id h k : client_settled h k → client_defaults h k = k.
Proof.
  intros [(? & ? & ?) (? & ? & ?) (? & ?) (? & ? & ?) ? Hb]. unfold client_defaults.
  rewrite !or_positive_id, !or_string_id, level_id, mux_version_id, !sock_buf_id by (done || apply Hb). by destruct k.
Qed.

(** ** Properties of the defaults *)

(** Whatever a file leaves out or gets out of range is filled in: both sides
    come out with a token, a log level, positive sizes, counts and times, a mux
    version that exists and, on a datagram transport, socket buffers; what was
    settled already is left exactly as it was written, so that filling in twice is
    filling in once. The system's parser is relied on for the default level
    being one. *)
Theorem defaults_settled h c (Hl : parse_level h defaultLogLevel = true) :
  settled h (defaults h c) ∧ (settled h c ↔ defaults h c = c) ∧ defaults h (defaults h c) = defaults h c.
Proof.
  assert (∀ c, settled h (defaults h c)) as Hs by (intros c'; split; [by apply server_defaults_settled|by apply client_defaults_settled]).
  assert (∀ c, settled h c → defaults h c = c) as Hi.
  { intros c' [H1 H2]. unfold defaults. rewrite server_defaults_id, client_defaults_id by done. by destruct c'. }
  split_and!; [done| |by apply Hi]. split; [apply Hi|]. by intros <-.
Qed.

(** A machine like most: Linux and root, with one device. *)
Definition linux_host : host :=
  mkHost "linux" 0 (λ i, String.eqb i "eth0") (λ _, true) (λ _, true) (λ _, Some ("0" +:+ String "010" "")) (λ _, "eth0")
    (λ u, if String.eqb u "socks5://127.0.0.1:1080" then Some (mkURL "socks5" "127.0.0.1:1080" None) else None)
    (λ l, bool_decide (ToLower l ∈ ["panic"; "fatal"; "error"; "warn"; "warning"; "info"; "debug"; "trace"])).

Lemma defaults_settled_witness :
  parse_level linux_host "info" = true ∧ settled linux_host (defaults linux_host Settings.empty) ∧ defaults linux_host Settings.empty ≠ Settings.empty.
Proof.
  destruct (defaults_settled linux_host Settings.empty eq_refl) as (H & _ & _).
  split_and!; [done|exact H|]. intros E. apply (f_equal (λ c, ServerCfg.Token (Settings.Server c))) in E. by vm_compute in E.
Defined.

(** ** Properties of the checks *)

(** What a configuration must be for the process not to stop. *)
Record admissible (h : host) (c : Settings.Config) : Prop := {
  a_route : ∃ p, Outbound.ParseProxy h (ClientCfg.Proxy (Settings.Client c)) = Ok p ∧
    (Outbound.IsSet (outbound_of (Settings.Client c) p) = true →
     Outbound.Validate h (outbound_of (Settings.Client c) p) = Ok tt ∧ transportIgnoresOutbound (ClientCfg.Transport (Settings.Client c)) = false);
  a_root : usesXdi c = true ∨ usesPck c = true ∨ l3Carrier c = L3Checks.CarrierSpoof → goos h = "linux" ∧ euid h = 0;
  a_direct : ServerCfg.Transport (Settings.Server c) ≠ Transport.SPOOF ∧ ClientCfg.Transport (Settings.Client c) ≠ Transport.SPOOF;
  a_spoof : l3Carrier c = L3Checks.CarrierSpoof →
    let sc := L3Cfg.Spoof (Settings.L3 c) in
    Forall (λ p, is_Some (Spoof.ParseSpoofProfile p)) [Tuning.SpoofProfile sc; Tuning.SpoofUplink sc; Tuning.SpoofDownlink sc] ∧
    (spoof_listens c = true → isIPv4 (Tuning.SpoofPeerIP sc) = true) ∧
    Forall (λ ip, isIPv4 ip = true) (items (Tuning.SpoofSrcPool sc));
  a_pck : usesPck c = true →
    let pc := pck_settings c in
    (∃ fl, Flags.ParseTCPFlagList (items (Tuning.PckFlags pc)) = Ok fl) ∧
    (Tuning.PckGatewayMAC pc ≠ "" → ParseMAC (Tuning.PckGatewayMAC pc) = true) ∧
    (Tuning.PckInterface pc ≠ "" → has_interface h (Tuning.PckInterface pc) = true);
  a_chain :
    Transport.ValidateFallbackTransports (ServerCfg.Transport (Settings.Server c)) (items (ServerCfg.FallbackTransports (Settings.Server c))) = None ∧
    Transport.ValidateFallbackTransports (ClientCfg.Transport (Settings.Client c)) (items (ClientCfg.FallbackTransports (Settings.Client c))) = None
}.

Lemma raw_socket_clear h what : snd (raw_socket h what) = None ↔ goos h = "linux" ∧ euid h = 0.
Proof.
  unfold raw_socket. rewrite all_clear, !Forall_cons, Forall_nil, !stop_clear, !negb_false_iff, String.eqb_eq, Z.eqb_eq. tauto.
Qed.

Lemma checkOutbound_clear h c : snd (checkOutbound h c) = None ↔
  ∃ p, Outbound.ParseProxy h (ClientCfg.Proxy (Settings.Client c)) = Ok p ∧
    (Outbound.IsSet (outbound_of (Settings.Client c) p) = true →
     Outbound.Validate h (outbound_of (Settings.Client c) p) = Ok tt ∧ transportIgnoresOutbound (ClientCfg.Transport (Settings.Client c)) = false).
Proof.
  unfold checkOutbound. destruct (Outbound.ParseProxy h _) as [p|e]; [|split; [done|by intros (? & ? & _)]].
  transitivity (Outbound.IsSet (outbound_of (Settings.Client c) p) = true →
     Outbound.Validate h (outbound_of (Settings.Client c) p) = Ok tt ∧ transportIgnoresOutbound (ClientCfg.Transport (Settings.Client c)) = false).
  2: { split; [intros H; by exists p|by intros (? & [= <-] & H)]. }
  destruct (Outbound.IsSet _); cbn [negb]; [|done].
  destruct (Outbound.Validate h _) as [[]|e]; [|split; [done|by intros [? _]]].
  rewrite all_clear, !Forall_cons, stop_clear, say_clear, Forall_nil. tauto.
Qed.

Lemma checkXdi_clear h c : snd (checkXdi h c) = None ↔ (usesXdi c = true → goos h = "linux" ∧ euid h = 0).
Proof. unfold checkXdi. destruct (usesXdi c); cbn [negb]; [|done]. rewrite also_clear, raw_socket_clear, say_clear. tauto. Qed.

Lemma iptables_note_clear h b what : snd (iptables_note h b what) = None ↔ True.
Proof. unfold iptables_note. by destruct b, (look_path h "iptables"). Qed.

Lemma checkSpoofCarrier_clear h sc listening peer : snd (checkSpoofCarrier h sc listening peer) = None ↔
  (goos h = "linux" ∧ euid h = 0) ∧
  Forall (λ p, is_Some (Spoof.ParseSpoofProfile p)) [Tuning.SpoofProfile sc; Tuning.SpoofUplink sc; Tuning.SpoofDownlink sc] ∧
  (listening = true → isIPv4 (Tuning.SpoofPeerIP sc) = true) ∧
  Forall (λ ip, isIPv4 ip = true) (items (Tuning.SpoofSrcPool sc)).
Proof.
  unfold checkSpoofCarrier. destruct (Spoof.ResolveSpoofDirections _ _ _) as [up down], (EffectiveRPFilter h _) as [v key].
  rewrite all_clear, !Forall_app, !stops_clear, !Forall_cons, !Forall_nil, raw_socket_clear, !say_clear, !iptables_note_clear, stop_clear, andb_false_iff, negb_false_iff.
  assert (∀ p, (match Spoof.ParseSpoofProfile p with None => true | Some _ => false end) = false ↔ is_Some (Spoof.ParseSpoofProfile p)) as Hp.
  { intros p. destruct (Spoof.ParseSpoofProfile p); [by split; [eexists|]|]. split; [done|by intros [? ?]]. }
  rewrite !Hp. assert (Forall (λ x, negb (isIPv4 x) = false) (items (Tuning.SpoofSrcPool sc)) ↔ Forall (λ ip, isIPv4 ip = true) (items (Tuning.SpoofSrcPool sc))) as ->.
  { apply Forall_proper; [intros x; apply negb_false_iff|done]. }
  destruct listening; intuition congruence.
Qed.

Lemma checkSpoof_clear h c : snd (checkSpoof h c) = None ↔
  (ServerCfg.Transport (Settings.Server c) ≠ Transport.SPOOF ∧ ClientCfg.Transport (Settings.Client c) ≠ Transport.SPOOF) ∧
  (l3Carrier c = L3Checks.CarrierSpoof → let sc := L3Cfg.Spoof (Settings.L3 c) in
  (goos h = "linux" ∧ euid h = 0) ∧
  Forall (λ p, is_Some (Spoof.ParseSpoofProfile p)) [Tuning.SpoofProfile sc; Tuning.SpoofUplink sc; Tuning.SpoofDownlink sc] ∧
  (spoof_listens c = true → isIPv4 (Tuning.SpoofPeerIP sc) = true) ∧
  Forall (λ ip, isIPv4 ip = true) (items (Tuning.SpoofSrcPool sc))).
Proof.
  unfold checkSpoof. rewrite also_clear, stop_clear. unfold reverse_uses. rewrite orb_false_iff, !String.eqb_neq.
  destruct (String.eqb_spec (l3Carrier c) L3Checks.CarrierSpoof) as [E|E]; cbn [negb].
  - rewrite checkSpoofCarrier_clear. cbv zeta. tauto.
  - cbn [pass snd]. tauto.
Qed.

Lemma unless_empty s b : negb (String.eqb s "") && negb b = false ↔ (s ≠ "" → b = true).
Proof. destruct (String.eqb_spec s ""), b; cbn; naive_solver. Qed.

Lemma checkPck_clear h c : snd (checkPck h c) = None ↔
  (usesPck c = true → let pc := pck_settings c in
    (goos h = "linux" ∧ euid h = 0) ∧
    (∃ fl, Flags.ParseTCPFlagList (items (Tuning.PckFlags pc)) = Ok fl) ∧
    (Tuning.PckGatewayMAC pc ≠ "" → ParseMAC (Tuning.PckGatewayMAC pc) = true) ∧
    (Tuning.PckInterface pc ≠ "" → has_interface h (Tuning.PckInterface pc) = true)).
Proof.
  unfold checkPck. destruct (usesPck c); cbn [negb]; [|done].
  rewrite all_clear, !Forall_cons, Forall_nil, raw_socket_clear, !stop_clear, iptables_note_clear, !unless_empty. cbv zeta.
  destruct (Flags.ParseTCPFlagList _) as [fl|e]; cbn [snd pass].
  - assert (∃ fl' : list Z, @Ok Flags.error _ fl = Ok fl') by (by eexists). tauto.
  - split; [intros (_ & H & _); done|intros H; by destruct (proj1 (proj2 (H eq_refl)))].
Qed.

Lemma fallback_check_clear s t l : snd (fallback_check s t l) = None ↔ Transport.ValidateFallbackTransports t l = None.
Proof. unfold fallback_check. by destruct (Transport.ValidateFallbackTransports t l). Qed.

Lemma admissible_iff h c : snd (checks h c) = None ↔ admissible h c.
Proof.
  unfold checks, warnUnusedStreamBuffer, checkFallbackChain. cbn [all foldr].
  rewrite !also_clear, !say_clear, !fallback_check_clear, checkOutbound_clear, checkXdi_clear, checkSpoof_clear, checkPck_clear.
  cbv zeta. split.
  - intros (_ & Ho & Hx & (Hd & Hs) & Hp & (Hf1 & Hf2 & _) & _). split; cbv zeta; [done| |done|intros H; exact (proj2 (Hs H))|intros H; exact (proj2 (Hp H))|done].
    intros [?%Hx | [(? & _)%Hp | (? & _)%Hs]]; done.
  - intros [Ho Hr Hd Hs Hp [Hf1 Hf2]]. cbv zeta in *. split_and?; try done.
    + intros H. apply Hr. by left.
    + apply Hd.
    + apply Hd.
    + intros H. split; [apply Hr; auto|]. by apply Hs.
    + intros H. split; [apply Hr; auto|]. by apply Hp.
Qed.

Lemma admissible_defaults h c : admissible h (defaults h c) ↔ admissible h c.
Proof. split; intros [? ? ? ? ? ?]; split; done. Qed.

(** C23: the process goes on with a configuration exactly when it is admissible as
    it was written: the route out exists and the transport honours it, no reverse
    tunnel forges its source, a carrier that needs a raw socket has Linux and
    root, every forged profile and address reads, the packet carrier's flags,
    gateway and device are real, and no transport chain names what cannot be in
    one. None of that depends on what is filled in. *)
Theorem startup_gate h c : snd (snd (applyDefaults h c)) = None ↔ admissible h c.
Proof. unfold applyDefaults. cbn [snd]. rewrite admissible_iff. apply admissible_defaults. Qed.

(** A reverse client that leaves by one device and may fall back to KCP. *)
Definition pinned_client : Settings.Config :=
  Settings.mkConfig ServerCfg.none
    (ClientCfg.mkClient "203.0.113.7:443" None "tcp" (Some ["kcp"]) 0 "secret" 0 0 false 0 "" "" false 0 1 0 0 0 false 0 "" "" 0 false "" false
       false 0 0 0 "" "" "eth0" 0 false false "" false false Tuning.no_kcp Tuning.no_pck)
    L3Cfg.none DirectCfg.none.

(** The route is checked against the first transport only: a chain that holds one
    which ignores it is admitted. *)
Lemma chain_escapes_route :
  snd (snd (applyDefaults linux_host pinned_client)) = None ∧
  Outbound.IsSet (outbound_of (Settings.Client pinned_client) None) = true ∧
  ∃ t, t ∈ items (ClientCfg.FallbackTransports (Settings.Client pinned_client)) ∧ transportIgnoresOutbound t = true.
Proof. split_and!; [by vm_compute|by vm_compute|]. exists "kcp". split; [apply list_elem_of_here|done]. Qed.

(** It warns of a stream buffer the file never named. *)
Lemma warns_for_nothing :
  ClientCfg.MaxStreamBuffer (Settings.Client pinned_client) = 0 ∧
  UnusedStreamBuffer ∈ fst (snd (applyDefaults linux_host pinned_client)).
Proof. split; [done|]. apply (bool_decide_unpack _); by vm_compute. Qed.

End Defaults.

Module Dispatch.

(** ** Conversions *)

Inductive fatal : Type :=
  | BadPckFlags (e : Flags.error) | UnusableL3 (e : L3Checks.error) | UnusablePorts (e : Portmap.failure)
  | UnusableDirect (e : DirectChecks.error) | NoSuchRole (r : string) | NeitherSide.

(** The [l3.Config] of [runL3Tunnel], its flag cycle still empty. *)
Definition l3_config (l : L3Cfg.L3Config) (flags : list Z) : L3Checks.Config := {|
    L3Checks.Mode := L3Cfg.Mode l;
    L3Checks.Addr := L3Cfg.Addr l;
    L3Checks.Token := L3Cfg.Token l;
    L3Checks.Carrier := L3Cfg.Carrier l;
    L3Checks.Encap := L3Cfg.Encap l;
    L3Checks.GREKey := L3Cfg.GREKey l;
    L3Checks.Iface := L3Cfg.Iface l;
    L3Checks.LocalIP := L3Cfg.LocalIP l;
    L3Checks.PeerIP := L3Cfg.PeerIP l;
    L3Checks.MTU := L3Cfg.MTU l;
    L3Checks.SockBuf := L3Cfg.SockBuf l;
    L3Checks.FEC := Fec.mkFEC (L3Cfg.FECData l) (L3Cfg.FECParity l);
    L3Checks.Multipath := Multipath.mkConfig (L3Cfg.Paths l);
    L3Checks.TxQueueLen := L3Cfg.TxQueueLen l;
    L3Checks.Qdisc := L3Cfg.Qdisc l;
    L3Checks.AutoMTU := L3Cfg.AutoMTUEnabled l;
    L3Checks.MSSClamp := L3Cfg.MSSClamp l;
    L3Checks.Ports := items (L3Cfg.Ports l);
    L3Checks.AcceptUDP := L3Cfg.AcceptUDP l;
    L3Checks.MaxConnections := L3Cfg.MaxConnections l;
    L3Checks.BandwidthMbps := L3Cfg.BandwidthMbps l;
    L3Checks.Spoof := L3Cfg.Spoof l;
    L3Checks.Pck := L3Checks.mkPcap (Tuning.PckInterface (L3Cfg.Pck l)) (Tuning.PckGatewayMAC (L3Cfg.Pck l)) flags;
    L3Checks.SNIDomain := L3Cfg.SNIDomain l
  |}.

(** [time.Duration(n) * time.Second]. *)
Definition seconds (n : Z) : Z := int64 (u64 (n * DirectChecks.second)).

(** The [direct.Config] of [runDirectTunnel]. *)
Definition direct_config (d : DirectCfg.DirectConfig) : DirectChecks.Config := {|
    DirectChecks.Role := DirectCfg.ResolvedRole d;
    DirectChecks.Addr := DirectCfg.Addr d;
    DirectChecks.Token := DirectCfg.Token d;
    DirectChecks.Transport := DirectCfg.Transport d;
    DirectChecks.ServerName := DirectCfg.ServerName d;
    DirectChecks.TLSCertFile := DirectCfg.TLSCertFile d;
    DirectChecks.TLSKeyFile := DirectCfg.TLSKeyFile d;
    DirectChecks.ACMEDomain := DirectCfg.ACMEDomain d;
    DirectChecks.ACMEEmail := DirectCfg.ACMEEmail d;
    DirectChecks.ACMECacheDir := "";
    DirectChecks.Ports := items (DirectCfg.Ports d);
    DirectChecks.AcceptUDP := DirectCfg.AcceptUDP d;
    DirectChecks.MaxConnections := DirectCfg.MaxConnections d;
    DirectChecks.BandwidthMbps := DirectCfg.BandwidthMbps d;
    DirectChecks.Sessions := DirectCfg.Sessions d;
    DirectChecks.DialTimeout := seconds (DirectCfg.DialTimeout d);
    DirectChecks.RetryDelay := seconds (DirectCfg.RetryInterval d);
    DirectChecks.MaxFrameSize := DirectCfg.MaxFrameSize d;
    DirectChecks.MaxReceiveBuffer := DirectCfg.MaxReceiveBuffer d;
    DirectChecks.MaxStreamBuffer := DirectCfg.MaxStreamBuffer d;
    DirectChecks.MuxVersion := DirectCfg.MuxVersion d;
    DirectChecks.Nodelay := DirectCfg.Nodelay d;
    DirectChecks.Keepalive := seconds (DirectCfg.Keepalive d);
    DirectChecks.MSS := DirectCfg.MSS d
  |}.

Definition l3LogLevel (c : Settings.Config) : string :=
  if negb (String.eqb (ServerCfg.LogLevel (Settings.Server c)) "") then ServerCfg.LogLevel (Settings.Server c) else ClientCfg.LogLevel (Settings.Client c).

Definition l3LogFormat (c : Settings.Config) : string :=
  if negb (String.eqb (ServerCfg.LogFormat (Settings.Server c)) "") then ServerCfg.LogFormat (Settings.Server c) else ClientCfg.LogFormat (Settings.Client c).

(** [directLogLevel] and [directLogFormat] read the same. *)
Definition directLogLevel : Settings.Config → string := l3LogLevel.
Definition directLogFormat : Settings.Config → string := l3LogFormat.

Definition l3Role (mode : string) : string := if String.eqb mode L3Checks.ModeDial then "iran-edge" else "kharej-origin".

(** The identity a tunnel's metrics are recorded under: transport and role. *)
Record identity : Type := mkIdentity { transport : string; role : string }.

Inductive engine : Type :=
  | RunsL3 (c : L3Checks.Config) (forwards : list Portmap.Mapping) (i : identity)
  | RunsDirect (c : DirectChecks.Config) (i : identity)
  | RunsServer (s : ServerCfg.ServerConfig) (tunes : bool) (i : identity)
  | RunsClient (k : ClientCfg.ClientConfig) (tunes : bool) (i : identity).

Definition fail {E A} (f : E → fatal) (r : result E A) : result fatal A := match r with Ok a => Ok a | Err e => Err (f e) end.

(** [l3.NewForwarder], as far as it can refuse. *)
Definition NewForwarder (c : L3Checks.Config) : result Portmap.failure (list Portmap.Mapping) :=
  if (length (L3Checks.Ports c) =? 0)%nat then Ok [] else Portmap.Expand (L3Checks.Ports c) (L3Checks.PeerIP c).

Definition runL3Tunnel (c : Settings.Config) : result fatal engine :=
  let l := Settings.L3 c in
  let? flags := if (0 <? length (items (Tuning.PckFlags (L3Cfg.Pck l))))%nat
                then fail BadPckFlags (Flags.ParseTCPFlagList (items (Tuning.PckFlags (L3Cfg.Pck l)))) else Ok [] in
  let cfg := l3_config l flags in
  let? tunnel := fail UnusableL3 (L3Checks.Validate cfg) in
  let? forwards := fail UnusablePorts (NewForwarder cfg) in
  Ok (RunsL3 tunnel forwards (mkIdentity ("l3-" +:+ L3Checks.Carrier cfg) (l3Role (L3Checks.Mode cfg)))).

(** [NewEdge] and [NewOrigin] set the role they are. *)
Definition newDirectRunner (c : DirectChecks.Config) : result fatal (DirectChecks.Config * string) :=
  if String.eqb (DirectChecks.Role c) DirectChecks.RoleOrigin then
    let? o := fail UnusableDirect (DirectChecks.Validate c) in Ok (o, "kharej-origin")
  else if String.eqb (DirectChecks.Role c) DirectChecks.RoleEdge then
    let? e := fail UnusableDirect (DirectChecks.Validate c) in
    let? _ := fail UnusablePorts (Portmap.Expand (DirectChecks.Ports e) DirectChecks.DefaultBackendHost) in
    Ok (e, "iran-edge")
  else Err (NoSuchRole (DirectChecks.Role c)).

Definition runDirectTunnel (c : Settings.Config) : result fatal engine :=
  let cfg := direct_config (Settings.Direct c) in
  let? r := newDirectRunner cfg in
  Ok (RunsDirect (fst r) (mkIdentity ("direct-" +:+ DirectChecks.Transport cfg) (snd r))).

Definition runEngine (c : Settings.Config) (applyTuning : bool) : result fatal engine :=
  let s := Settings.Server c in
  let k := Settings.Client c in
  if L3Cfg.Enabled (Settings.L3 c) then runL3Tunnel c
  else if DirectCfg.Enabled (Settings.Direct c) then runDirectTunnel c
  else if negb (String.eqb (ServerCfg.BindAddr s) "") then
    Ok (RunsServer s (applyTuning && negb (ServerCfg.SkipOptz s)) (mkIdentity (ServerCfg.Transport s) "server"))
  else if negb (String.eqb (ClientCfg.RemoteAddr k) "") then
    Ok (RunsClient k (applyTuning && negb (ClientCfg.SkipOptz k)) (mkIdentity (ClientCfg.Transport k) "client"))
  else Err NeitherSide.

(** ** Lemmas *)

Lemma fail_Ok {E A} (f : E → fatal) (r : result E A) a : fail f r = Ok a ↔ r = Ok a.
Proof. destruct r; split; cbn; congruence. Qed.

(** A mapping the check lets through is one the forwarder can serve. *)
Lemma forwarder_never_refuses c c' : L3Checks.Validate c = Ok c' →
  ∃ ms, NewForwarder c = Ok ms ∧ (L3Checks.Ports c' ≠ [] → Portmap.Expand (L3Checks.Ports c') (L3Checks.PeerIP c') = Ok ms).
Proof.
  intros H. assert (L3Checks.Ports c' = L3Checks.Ports c ∧ L3Checks.PeerIP c' = L3Checks.PeerIP c) as [E1 E2].
  { unfold L3Checks.Validate in H. repeat (apply bind_Ok in H as (? & _ & H)). by injection H as <-. }
  pose proof (L3Checks.s_ports _ (L3Checks.l3_sound _ _ H)) as Hp. unfold NewForwarder. rewrite E1, E2 in *.
  destruct (L3Checks.Ports c) as [|p ps]; [by exists []|]. destruct (Hp ltac:(done)) as [ms Hm]. exists ms. by split.
Qed.

(** Which table an engine was built from. *)
Definition named_by (c : Settings.Config) (e : engine) : Prop :=
  match e with
  | RunsL3 l fs _ => L3Cfg.Enabled (Settings.L3 c) = true ∧ L3Checks.sound l ∧
      (L3Checks.Ports l ≠ [] → Portmap.Expand (L3Checks.Ports l) (L3Checks.PeerIP l) = Ok fs)
  | RunsDirect d i => L3Cfg.Enabled (Settings.L3 c) = false ∧ DirectCfg.Enabled (Settings.Direct c) = true ∧ DirectChecks.sound d ∧
      DirectChecks.Role d = DirectCfg.ResolvedRole (Settings.Direct c) ∧
      role i = (if String.eqb (DirectChecks.Role d) DirectChecks.RoleEdge then "iran-edge" else "kharej-origin")
  | RunsServer s _ _ => L3Cfg.Enabled (Settings.L3 c) = false ∧ DirectCfg.Enabled (Settings.Direct c) = false ∧
      s = Settings.Server c ∧ ServerCfg.BindAddr s ≠ ""
  | RunsClient k _ _ => L3Cfg.Enabled (Settings.L3 c) = false ∧ DirectCfg.Enabled (Settings.Direct c) = false ∧
      k = Settings.Client c ∧ ClientCfg.RemoteAddr k ≠ "" ∧ ServerCfg.BindAddr (Settings.Server c) = ""
  end.

Lemma runL3_named c e : runL3Tunnel c = Ok e → L3Cfg.Enabled (Settings.L3 c) = true → named_by c e.
Proof.
  unfold runL3Tunnel. intros H He. apply bind_Ok in H as (flags & _ & H). apply bind_Ok in H as (t & Ht%fail_Ok & H).
  apply bind_Ok in H as (fs & Hf%fail_Ok & H). injection H as <-. cbn [named_by].
  destruct (forwarder_never_refuses _ _ Ht) as (ms & Hm & Hp). rewrite Hf in Hm. injection Hm as <-.
  split; [done|]. split; [by eapply L3Checks.l3_sound|done].
Qed.

Lemma direct_role c d : DirectChecks.Validate c = Ok d → DirectChecks.Role d = ToLower (TrimSpace (DirectChecks.Role c)).
Proof. unfold DirectChecks.Validate. intros H. repeat (apply bind_Ok in H as (? & _ & H)). by injection H as <-. Qed.

Lemma runDirect_named c e : runDirectTunnel c = Ok e → L3Cfg.Enabled (Settings.L3 c) = false → DirectCfg.Enabled (Settings.Direct c) = true → named_by c e.
Proof.
  unfold runDirectTunnel. intros H H1 H2. apply bind_Ok in H as ([d r] & H & [= <-]). cbn [named_by fst snd role].
  unfold newDirectRunner in H. cbn [DirectChecks.Role direct_config] in H.
  destruct (String.eqb_spec (DirectCfg.ResolvedRole (Settings.Direct c)) DirectChecks.RoleOrigin) as [E|_];
    [|destruct (String.eqb_spec (DirectCfg.ResolvedRole (Settings.Direct c)) DirectChecks.RoleEdge) as [E|_]; [|done]].
  - apply bind_Ok in H as (o & Ho%fail_Ok & [= <- <-]). pose proof (direct_role _ _ Ho) as Hr. cbn [DirectChecks.Role direct_config] in Hr.
    rewrite E in *. rewrite Hr. split_and!; try done. by eapply DirectChecks.direct_sound.
  - apply bind_Ok in H as (o & Ho%fail_Ok & H). apply bind_Ok in H as (ms & _ & [= <- <-]).
    pose proof (direct_role _ _ Ho) as Hr. cbn [DirectChecks.Role direct_config] in Hr.
    rewrite E in *. rewrite Hr. split_and!; try done. by eapply DirectChecks.direct_sound.
Qed.

(** A configuration runs one engine: the layer-3 one when its table is there,
    else the direct one, else the server, else the client, built from exactly that
    table; what the layer-3 and direct engines are given is sound and, for a
    direct tunnel, has the role its table resolves to and is recorded under it;
    and the process has nothing to run only when no table names an end. *)
Theorem engine_named c tune :
  (∀ e, runEngine c tune = Ok e → named_by c e) ∧
  (runEngine c tune = Err NeitherSide →
   L3Cfg.Enabled (Settings.L3 c) = false ∧ DirectCfg.Enabled (Settings.Direct c) = false ∧
   ServerCfg.BindAddr (Settings.Server c) = "" ∧ ClientCfg.RemoteAddr (Settings.Client c) = "").
Proof.
  unfold runEngine. destruct (L3Cfg.Enabled (Settings.L3 c)) eqn:E1.
  { split; [intros e H; by apply runL3_named|]. unfold runL3Tunnel, fail.
    destruct (if (0 <? _)%nat then _ else _) as [fl|f] eqn:Ef; cbn [result_bind].
    - by destruct (L3Checks.Validate _), (NewForwarder _).
    - intros [= ->]. destruct (0 <? _)%nat; [|done]. by destruct (Flags.ParseTCPFlagList _). }
  destruct (DirectCfg.Enabled (Settings.Direct c)) eqn:E2.
  { split; [intros e H; by apply runDirect_named|]. unfold runDirectTunnel, newDirectRunner, fail.
    destruct (String.eqb _ DirectChecks.RoleOrigin); [by destruct (DirectChecks.Validate _)|].
    destruct (String.eqb _ DirectChecks.RoleEdge); [|done]. destruct (DirectChecks.Validate _) as [d|]; [|done]. cbn [result_bind].
    by destruct (Portmap.Expand _ _). }
  destruct (String.eqb_spec (ServerCfg.BindAddr (Settings.Server c)) "") as [Eb|Eb]; cbn [negb].
  2: { split; [intros e [= <-]; by cbn [named_by]|done]. }
  destruct (String.eqb_spec (ClientCfg.RemoteAddr (Settings.Client c)) "") as [Er|Er]; cbn [negb].
  - by split.
  - split; [intros e [= <-]; by cbn [named_by]|done].
Qed.

(** A layer-3 tunnel on one mapped port, with a level set by its client table. *)
Definition l3_settings (mode level : string) : Settings.Config :=
  Settings.mkConfig ServerCfg.none
    (ClientCfg.mkClient "" None "" None 0 "" 0 0 false 0 level "" false 0 0 0 0 0 false 0 "" "" 0 false "" false
       false 0 0 0 "" "" "" 0 false false "" false false Tuning.no_kcp Tuning.no_pck)
    (L3Cfg.mkL3 mode "203.0.113.7:4433" "secret" "udp" "" 0 "" "" "10.10.0.1/30" "10.10.0.2" 0 0 0 0 0 "" 0 "" None 0 (Some ["443"])
       false 0 0 Tuning.no_spoof Tuning.no_pck) DirectCfg.none.

Lemma engine_named_witness :
  ∃ l fs i, runEngine (Defaults.defaults Defaults.linux_host (l3_settings "dial" "debug")) true = Ok (RunsL3 l fs i) ∧
    named_by (Defaults.defaults Defaults.linux_host (l3_settings "dial" "debug")) (RunsL3 l fs i) ∧ fs = [Portmap.mkMapping ":443" ["10.10.0.2:443"]].
Proof.
  set (c := Defaults.defaults Defaults.linux_host (l3_settings "dial" "debug")).
  destruct (runEngine c true) as [[l fs i|d i|s t i|k t i]|f] eqn:E; [|by vm_compute in E..].
  exists l, fs, i. split; [done|]. split; [exact (proj1 (engine_named c true) _ E)|]. revert E. vm_compute. by intros [= <- <- <-].
Defined.

(** The level an [l3] or direct tunnel logs at is always the server table's: by
    the time it is read the defaults have filled it, so the client table's is
    never borrowed. *)
Lemma client_level_unread h c : parse_level h "" = false →
  l3LogLevel (Defaults.defaults h c) = Defaults.level h (ServerCfg.LogLevel (Settings.Server c)) ∧
  (ServerCfg.LogLevel (Settings.Server c) = "" → l3LogLevel (Defaults.defaults h c) = "info").
Proof.
  intros He. assert (l3LogLevel (Defaults.defaults h c) = Defaults.level h (ServerCfg.LogLevel (Settings.Server c))) as ->.
  { unfold l3LogLevel, Defaults.defaults. cbn [Settings.Server]. unfold Defaults.server_defaults. cbn [ServerCfg.LogLevel].
    destruct (String.eqb_spec (Defaults.level h (ServerCfg.LogLevel (Settings.Server c))) "") as [E|_]; cbn [negb]; [|done].
    exfalso. unfold Defaults.level, Defaults.defaultLogLevel in E. destruct (parse_level h (ServerCfg.LogLevel (Settings.Server c))) eqn:Ep; [|done].
    rewrite E in Ep. congruence. }
  split; [done|]. intros E. unfold Defaults.level. by rewrite E, He.
Qed.

(** A mode written [Dial] dials, and is recorded as the other end. *)
Lemma role_minds_case : ∃ l fs i, runEngine (l3_settings "Dial" "") true = Ok (RunsL3 l fs i) ∧
  L3Checks.Mode l = L3Checks.ModeDial ∧ role i = "kharej-origin".
Proof.
  destruct (runEngine (l3_settings "Dial" "") true) as [[l fs i|d i|s t i|k t i]|f] eqn:E; [|by vm_compute in E..].
  exists l, fs, i. split; [done|]. revert E. vm_compute. by intros [= <- <- <-].
Qed.

End Dispatch.
