(* ===== verification/Reload.v ===== *)
(** Keeping one tunnel running from a file that changes ([cmd/reload.go], [Run]
    of [cmd/cmd.go], [cmd/enginesocket.go], [internal/enginectl]).
    - Module [PortsInUse]: the addresses a restart waits for;
    - Module [EngineCtl]: what the control socket answers;
    - Module [Run]: the life of the process, from one generation of the tunnel
      to the next, as a machine that takes one event at a time: an edit of the
      file, a restart asked for, a poll, a load.

    The engine of a generation is what [runEngine] makes of its configuration.
    The loop that waits for ports to come free, and the file system's times,
    are events of the environment: that a generation has stopped and its ports
    are free is the event [Settle]. *)

From Stdlib Require Import Ascii String.
From S2P Require Import Prelude GoStr Ports GoNet Settings Checks Startup.
Import GoStr.
Open Scope string_scope.
Open Scope list_scope.
Open Scope Z_scope.

Module PortsInUse.

Record listenerBinding : Type := mkBinding { network : string; address : string }.

(** [tunnelNetwork]; [EmptyString] where there is no listener to probe. *)
Definition tunnelNetwork (t : string) : string :=
  if bool_decide (t ∈ [Transport.UDP; Transport.KCP; Transport.QUIC]) then "udp"
  else if bool_decide (t ∈ [Transport.XDI; Transport.SPOOF; Transport.PCK]) then ""
  else "tcp".

(** [itoa], which fills a buffer of eight bytes from its end: [free] of them are
    left. *)
Fixpoint itoa_loop (free : nat) (n : Z) (acc : string) : outcome string :=
  if n <=? 0 then Ret acc
  else match free with
  | O => Panic
  | S free => itoa_loop free (n `div` 10) (String (digit_char (n `mod` 10)) acc)
  end.

Definition itoa (n : Z) : outcome string := if n =? 0 then Ret "0" else itoa_loop 8 n "".

Definition web_binding (port : Z) : outcome (list listenerBinding) :=
  if 0 <? port then
    match itoa port with Ret p => Ret [mkBinding "tcp" (Net.JoinHostPort "" p)] | Panic => Panic end
  else Ret [].

Definition portsInUse (c : Settings.Config) : outcome (list listenerBinding) :=
  let s := Settings.Server c in
  if negb (String.eqb (ServerCfg.BindAddr s) "") then
    let net := tunnelNetwork (ServerCfg.Transport s) in
    let tunnel := if negb (String.eqb net "") then [mkBinding net (ServerCfg.BindAddr s)] else [] in
    match web_binding (ServerCfg.WebPort s) with Ret web => Ret (tunnel ++ web) | Panic => Panic end
  else web_binding (ClientCfg.WebPort (Settings.Client c)).

(** ** Lemmas *)

Lemma itoa_loop_format (free : nat) : ∀ n acc, 0 < n < 10 ^ Z.of_nat free →
  itoa_loop free n acc = Ret (format_digits free n acc).
Proof.
  induction free as [|free IH]; intros n acc H; [cbn in H; lia|].
  cbn [itoa_loop format_digits]. rewrite (proj2 (Z.leb_gt n 0)) by lia.
  rewrite Nat2Z.inj_succ, Z.pow_succ_r in H by lia.
  assert (0 ≤ n `div` 10 < 10 ^ Z.of_nat free) as Hd by (split; [apply Z.div_pos; lia|apply Z.div_lt_upper_bound; lia]).
  destruct (Z.eqb_spec (n `div` 10) 0) as [E|E]; [|apply IH; lia].
  rewrite E. destruct free; reflexivity.
Qed.

Lemma itoa_loop_full (free : nat) : ∀ n acc, 10 ^ Z.of_nat free ≤ n → itoa_loop free n acc = Panic.
Proof.
  induction free as [|free IH]; intros n acc H; cbn [itoa_loop].
  - cbn in H. by rewrite (proj2 (Z.leb_gt n 0)) by lia.
  - rewrite Nat2Z.inj_succ, Z.pow_succ_r in H by lia. pose proof (Z.pow_pos_nonneg 10 (Z.of_nat free) ltac:(lia) ltac:(lia)).
    rewrite (proj2 (Z.leb_gt n 0)) by lia. apply IH. apply Z.div_le_lower_bound; lia.
Qed.

Lemma format_digits_more (f g : nat) : ∀ n acc, 0 ≤ n < 10 ^ Z.of_nat f → (f ≤ g)%nat → (0 < f)%nat →
  format_digits g n acc = format_digits f n acc.
Proof.
  revert g. induction f as [|f IH]; intros [|g] n acc H Hg Hf; [lia..|]. cbn [format_digits].
  destruct (Z.eqb_spec (n `div` 10) 0) as [E|E]; [done|].
  rewrite Nat2Z.inj_succ, Z.pow_succ_r in H by lia.
  assert (0 ≤ n `div` 10 < 10 ^ Z.of_nat f) as Hd by (split; [apply Z.div_pos; lia|apply Z.div_lt_upper_bound; lia]).
  destruct f; [cbn in Hd; lia|]. apply IH; lia.
Qed.

(** The digits are those of [strconv.Itoa] while they fit the buffer; the ninth
    does not. *)
Lemma itoa_spec n : 0 ≤ n → itoa n = if n <? 10 ^ 8 then Ret (Itoa n) else Panic.
Proof.
  intros H. unfold itoa. destruct (Z.eqb_spec n 0) as [->|E]; [reflexivity|].
  destruct (Z.ltb_spec n (10 ^ 8)) as [Hn|Hn]; [|by apply itoa_loop_full].
  rewrite itoa_loop_format by (change (Z.of_nat 8) with 8; lia). f_equal. rewrite Itoa_nonneg by lia. unfold FormatUint.
  symmetry. apply format_digits_more; [change (Z.of_nat 8) with 8; lia|lia|lia].
Qed.

Lemma web_binding_spec port : port < 10 ^ 8 →
  web_binding port = Ret (if 0 <? port then [mkBinding "tcp" (":" +:+ Itoa port)] else []).
Proof.
  intros H. unfold web_binding. destruct (Z.ltb_spec 0 port) as [Hp|]; [|done].
  rewrite itoa_spec by lia. by rewrite (proj2 (Z.ltb_lt port (10 ^ 8))) by lia.
Qed.

(** A restart waits for the server's own listener on the protocol it really
    binds (nothing where it reads a raw socket) and for the web page's TCP port,
    on the client for the web page's alone; it never fails for a web port below
    10^8, and above that the process panics instead. *)
Theorem ports_probed c :
  let s := Settings.Server c in
  let k := Settings.Client c in
  let web p := if 0 <? p then [mkBinding "tcp" (":" +:+ Itoa p)] else [] in
  (ServerCfg.BindAddr s ≠ "" → ServerCfg.WebPort s < 10 ^ 8 →
   portsInUse c = Ret ((if bool_decide (ServerCfg.Transport s ∈ [Transport.XDI; Transport.SPOOF; Transport.PCK]) then []
     else [mkBinding (if bool_decide (ServerCfg.Transport s ∈ [Transport.UDP; Transport.KCP; Transport.QUIC]) then "udp" else "tcp") (ServerCfg.BindAddr s)])
     ++ web (ServerCfg.WebPort s))) ∧
  (ServerCfg.BindAddr s = "" → ClientCfg.WebPort k < 10 ^ 8 → portsInUse c = Ret (web (ClientCfg.WebPort k))) ∧
  (ServerCfg.BindAddr s ≠ "" → 10 ^ 8 ≤ ServerCfg.WebPort s → portsInUse c = Panic).
Proof.
  cbv zeta. unfold portsInUse. split_and!.
  - intros Hb Hw. apply String.eqb_neq in Hb as ->. cbn [negb]. rewrite web_binding_spec by done. f_equal. f_equal. unfold tunnelNetwork.
    destruct (decide (ServerCfg.Transport (Settings.Server c) ∈ [Transport.UDP; Transport.KCP; Transport.QUIC])) as [H|H].
    + rewrite (bool_decide_true _ H). rewrite bool_decide_false; [done|]. intros H'.
      repeat (apply elem_of_cons in H as [E|H]; [rewrite E in H'; by apply (bool_decide_pack _) in H'; vm_compute in H'|]). by apply elem_of_nil in H.
    + rewrite (bool_decide_false _ H). by destruct (bool_decide _).
  - intros -> Hw. cbn [String.eqb negb]. by apply web_binding_spec.
  - intros Hb Hw. apply String.eqb_neq in Hb as ->. cbn [negb]. unfold web_binding.
    rewrite (proj2 (Z.ltb_lt 0 _)) by lia. rewrite itoa_spec by lia. by rewrite (proj2 (Z.ltb_ge _ (10 ^ 8))) by lia.
Qed.

(** A KCP server with its page on 8080. *)
Definition kcp_server (web : Z) : Settings.Config :=
  Settings.mkConfig
    (ServerCfg.mkServer "0.0.0.0:4000" "kcp" None 0 "secret" true 0 0 "" "" (Some ["443"]) false 0 0 0 0 0 false web "" "" "" "" "" "" false 0 0 None
      false 0 0 0 false false false 0 0 "" Tuning.no_kcp Tuning.no_pck)
    ClientCfg.none L3Cfg.none DirectCfg.none.

Lemma ports_probed_witness :
  portsInUse (kcp_server 8080) = Ret [mkBinding "udp" "0.0.0.0:4000"; mkBinding "tcp" ":8080"] ∧
  portsInUse (kcp_server 100000000) = Panic.
Proof.
  split.
  - destruct (ports_probed (kcp_server 8080)) as (H & _ & _). exact (H ltac:(done) ltac:(done)).
  - destruct (ports_probed (kcp_server 100000000)) as (_ & _ & H). exact (H ltac:(done) ltac:(done)).
Defined.

(** The listener of a direct tunnel is the tunnel's own, and is not waited for. *)
Lemma direct_listener_unprobed d :
  portsInUse (Settings.mkConfig ServerCfg.none ClientCfg.none L3Cfg.none d) = Ret [].
Proof. reflexivity. Qed.

End PortsInUse.

Module EngineCtl.

Definition OpPing : string := "ping".
Definition OpStatus : string := "status".
Definition OpRestartTransport : string := "restart-transport".

Record Status : Type := mkStatus {
  Name : string;
  Role : string;
  Transport : string;
  Connected : bool;
  Peer : string;
  BytesIn : Z;
  BytesOut : Z;
  Generation : Z
}.

(** A response carries a status where the source carries its JSON. *)
Record Response : Type := mkResponse { OK : bool; Error : string; Body : option Status }.

(** [engineControl]; [restart] is the generation it would cancel. *)
Record engineControl : Type := mkControl {
  name : string;
  role : string;
  transport : string;
  restart : option Z;
  generation : Z
}.

Definition errNoGeneration : string := "the tunnel is between transports; ask again in a moment".

(** [metrics.Traffic], [SnapshotConnected] and [SnapshotPeer], as they read. *)
Record reading : Type := mkReading { bytes_in : Z; bytes_out : Z; connected : option bool; peer : string }.

Definition engine_Status (e : engineControl) (m : reading) : Status :=
  mkStatus (name e) (role e) (transport e) (default false (connected m)) (peer m) (bytes_in m) (bytes_out m) (generation e).

(** [RestartTransport]: the generation it cancelled, or why not. *)
Definition RestartTransport (e : engineControl) : result string Z :=
  match restart e with None => Err errNoGeneration | Some g => Ok g end.

(** [setGeneration], cancelling generation [g]. *)
Definition setGeneration (e : engineControl) (g : Z) : engineControl :=
  mkControl (name e) (role e) (transport e) (Some g) (generation e + 1).

(** [answer]: the response, and the generation it cancelled. *)
Definition answer (op : string) (e : engineControl) (m : reading) : Response * option Z :=
  if String.eqb op OpPing then (mkResponse true "" None, None)
  else if String.eqb op OpStatus then (mkResponse true "" (Some (engine_Status e m)), None)
  else if String.eqb op OpRestartTransport then
    match RestartTransport e with
    | Err err => (mkResponse false err None, None)
    | Ok g => (mkResponse true "" None, Some g)
    end
  else (mkResponse false ("this engine does not do " +:+ op) None, None).

End EngineCtl.

Module Run.
Import EngineCtl.

Definition fingerprint : Type := Z * Z.
Definition no_fingerprint : fingerprint := (0, 0).

(** A version of the file: its size and time, and what decoding it gives. *)
Record File : Type := mkFile { size : Z; modTime : Z; content : result string Settings.Config }.

Definition fileFingerprint (f : File) : fingerprint := (size f, modTime f).

Inductive death : Type :=
  | FirstLoad (e : string) | InDefaults (f : Defaults.fatal) | InEngine (f : Dispatch.fatal) | InPorts.

(** Where the loop of [Run] and [awaitConfigChange] stand. *)
Inductive phase : Type :=
  | Starting
  | Begun
  | Watching (last lastComplaint : fingerprint)
  | Loading (last lastComplaint : fingerprint)
  | Settling (next : option Settings.Config)
  | Stopped
  | Killed (why : death).

Record state : Type := mkState {
  disk : option File;
  cfg : Settings.Config;
  at_phase : phase;
  ctl : engineControl;
  gen : Z;
  cancelled : bool;
  stopping : bool;
  tuned : bool;
  running : option Dispatch.engine;
  complaints : list string
}.

Inductive event : Type :=
  | Edit (d : option File)
  | Request (op : string) (m : reading)
  | Shutdown
  | Begin
  | FirstStat
  | Poll
  | Load
  | Ended
  | Settle
  | Quit.

#[local] Existing Instance Settings.config_eq_dec.

Section on_host.
Context (h : host).

Definition go (p : phase) (s : state) : state :=
  mkState (disk s) (cfg s) p (ctl s) (gen s) (cancelled s) (stopping s) (tuned s) (running s) (complaints s).

(** Out of the generation: its context is cancelled, and it has returned. *)
Definition leave (p : phase) (s : state) : state :=
  mkState (disk s) (cfg s) p (ctl s) (gen s) true (stopping s) (tuned s) None (complaints s).

(** A file that does not parse is reported once. *)
Definition complain (last lastComplaint : fingerprint) (e : string) (s : state) : state :=
  if decide (last = lastComplaint) then go (Watching last lastComplaint) s
  else mkState (disk s) (cfg s) (Watching last last) (ctl s) (gen s) (cancelled s) (stopping s) (tuned s) (running s) (e :: complaints s).

Definition load (last lastComplaint : fingerprint) (s : state) : state :=
  match disk s with
  | None => complain last lastComplaint "no such file" s
  | Some f =>
      match content f with
      | Err e => complain last lastComplaint e s
      | Ok raw =>
          let (next, v) := Defaults.applyDefaults h raw in
          match snd v with
          | Some why => leave (Killed (InDefaults why)) s
          | None => if decide (cfg s = next) then go (Watching last lastComplaint) s else leave (Settling (Some next)) s
          end
      end
  end.

Definition begin (s : state) : state :=
  match Dispatch.runEngine (cfg s) (negb (tuned s)) with
  | Err f => leave (Killed (InEngine f)) s
  | Ok e => mkState (disk s) (cfg s) Begun (setGeneration (ctl s) (gen s + 1)) (gen s + 1) false (stopping s) true (Some e) (complaints s)
  end.

Definition settle (next : option Settings.Config) (s : state) : state :=
  match PortsInUse.portsInUse (cfg s) with
  | Panic => leave (Killed InPorts) s
  | Ret _ => mkState (disk s) (default (cfg s) next) Starting (ctl s) (gen s) (cancelled s) (stopping s) (tuned s) (running s) (complaints s)
  end.

Definition step (s : state) (e : event) : state :=
  match e, at_phase s with
  | Edit d, _ => mkState d (cfg s) (at_phase s) (ctl s) (gen s) (cancelled s) (stopping s) (tuned s) (running s) (complaints s)
  | Request op m, _ =>
      match snd (answer op (ctl s) m) with
      | Some g => mkState (disk s) (cfg s) (at_phase s) (ctl s) (gen s) (cancelled s || (g =? gen s)) (stopping s) (tuned s) (running s) (complaints s)
      | None => s
      end
  | Shutdown, _ => mkState (disk s) (cfg s) (at_phase s) (ctl s) (gen s) (cancelled s) true (tuned s) (running s) (complaints s)
  | Begin, Starting => begin s
  | FirstStat, Begun => go (Watching (match disk s with Some f => fileFingerprint f | None => no_fingerprint end) no_fingerprint) s
  | Poll, Watching last lastComplaint =>
      match disk s with
      | None => s
      | Some f => if decide (fileFingerprint f = last) then s else go (Loading (fileFingerprint f) lastComplaint) s
      end
  | Load, Loading last lastComplaint => load last lastComplaint s
  | Ended, Watching _ _ => if cancelled s || stopping s then leave (Settling None) s else s
  | Settle, Settling next => settle next s
  | Quit, Watching _ _ => if stopping s then leave Stopped s else s
  | _, _ => s
  end.

Definition exec (s : state) (evs : list event) : state := fold_left step evs s.

(** [Run], up to its loop: the first load must succeed. *)
Definition boot (name : string) (d : option File) : state :=
  let dead c why := mkState d c (Killed why) (mkControl name "" "" None 0) 0 false false false None [] in
  match d with
  | None => dead Settings.empty (FirstLoad "no such file")
  | Some f =>
      match content f with
      | Err e => dead Settings.empty (FirstLoad e)
      | Ok raw =>
          let (c, v) := Defaults.applyDefaults h raw in
          match snd v with
          | Some why => dead c (InDefaults why)
          | None => mkState d c Starting (mkControl name "" "" None 0) 0 false false false None []
          end
      end
  end.

End on_host.

(** ** Lemmas *)

Lemma exec_app h s l1 l2 : exec h s (l1 ++ l2) = exec h (exec h s l1) l2.
Proof. apply fold_left_app. Qed.

(** The versions the file had by the end of a run. *)
Definition edits (evs : list event) : list File := omap (λ e, match e with Edit d => d | _ => None end) evs.
Definition versions (d : option File) (evs : list event) : list File := option_list d ++ edits evs.

Definition from_file (h : host) (l : list File) (c : Settings.Config) : Prop :=
  ∃ f raw, f ∈ l ∧ content f = Ok raw ∧ c = Defaults.defaults h raw ∧ Defaults.admissible h c.

(** What is true of the process at every point: the versions the file had are [l]. *)
Record faithful (h : host) (l : list File) (s : state) : Prop := {
  f_disk : ∀ f, disk s = Some f → f ∈ l;
  f_cfg : match at_phase s with Killed _ => True | _ => from_file h l (cfg s) end;
  f_next : ∀ c, at_phase s = Settling (Some c) → from_file h l c ∧ c ≠ cfg s;
  f_engine : ∀ e, running s = Some e → (∃ t, Dispatch.runEngine (cfg s) t = Ok e) ∧ ∃ a b, at_phase s ∈ [Begun; Watching a b; Loading a b];
  f_up : match at_phase s with Begun | Watching _ _ | Loading _ _ => is_Some (running s) | _ => running s = None end;
  f_control : role (ctl s) = "" ∧ transport (ctl s) = "" ∧ generation (ctl s) = gen s ∧ 0 ≤ gen s ∧
    restart (ctl s) = if gen s =? 0 then None else Some (gen s)
}.

Lemma from_file_mono h l l' c : (∀ f, f ∈ l → f ∈ l') → from_file h l c → from_file h l' c.
Proof. intros Hl (f & raw & Hf & ?). exists f, raw. split; [by apply Hl|done]. Qed.

Lemma applied_from_file h l f raw : f ∈ l → content f = Ok raw → snd (Defaults.checks h (Defaults.defaults h raw)) = None →
  from_file h l (Defaults.defaults h raw).
Proof.
  intros Hf Hc Hv. exists f, raw. split_and!; try done. apply Defaults.admissible_iff. exact Hv.
Qed.

Lemma faithful_mono h l l' s : (∀ f, f ∈ l → f ∈ l') → faithful h l s → faithful h l' s.
Proof.
  intros Hl [H1 H2 H3 H4 H5 H6]. split; try done.
  - intros f Hf. by apply Hl, H1.
  - destruct (at_phase s); try done; by eapply from_file_mono.
  - intros c Hc. destruct (H3 c Hc) as [? ?]. split; [by eapply from_file_mono|done].
Qed.

(** Leaving the generation. *)
Lemma leave_faithful h l s p : faithful h l s →
  match p with Stopped | Killed _ => True | Settling next => ∀ c, next = Some c → from_file h l c ∧ c ≠ cfg s | _ => False end →
  match at_phase s with Killed _ => False | _ => True end →
  faithful h l (leave p s).
Proof.
  intros [H1 H2 H3 H4 H5 H6] Hp Hk. unfold leave. split; cbn [disk cfg at_phase ctl gen running]; try done.
  - by destruct p, (at_phase s).
  - intros c Hc. subst p. by apply Hp.
  - by destruct p.
Qed.

(** Staying in it. *)
Lemma go_faithful h l s p : faithful h l s → is_Some (running s) →
  match p with Begun | Watching _ _ | Loading _ _ => True | _ => False end → faithful h l (go p s).
Proof.
  intros [H1 H2 H3 H4 H5 H6] Hr Hp. unfold go. split; cbn [disk cfg at_phase ctl gen running]; try done.
  - destruct Hr as [e He]. destruct (H4 e He) as (_ & a & b & Hin).
    assert (match at_phase s with Killed _ => False | _ => True end) by (by destruct (at_phase s); try done; repeat (apply elem_of_cons in Hin as [?|Hin]; [done|]); apply elem_of_nil in Hin).
    destruct p; try done; by destruct (at_phase s).
  - intros c ->. done.
  - intros e He. destruct (H4 e He) as [Ht _]. split; [done|].
    destruct p as [| |a b|a b| | |]; try done; [exists no_fingerprint, no_fingerprint|exists a, b|exists a, b]; set_solver.
  - by destruct p.
Qed.

Lemma up_alive h l s : faithful h l s → is_Some (running s) → match at_phase s with Killed _ => False | _ => True end.
Proof. intros [_ _ _ H4 H5 _] [e He]. destruct (at_phase s); try done. congruence. Qed.

Lemma complain_faithful h l s a b e : faithful h l s → is_Some (running s) → faithful h l (complain a b e s).
Proof.
  intros Hf Hr. unfold complain. destruct (decide (a = b)); [by apply go_faithful|].
  pose proof (go_faithful h l s (Watching a a) Hf Hr I) as [H1 H2 H3 H4 H5 H6]. by split.
Qed.

Lemma load_faithful h l s a b : faithful h l s → is_Some (running s) → faithful h l (load h a b s).
Proof.
  intros Hf Hr. pose proof (up_alive _ _ _ Hf Hr) as Ha. unfold load. destruct (disk s) as [f|] eqn:Ed; [|by apply complain_faithful].
  destruct (content f) as [raw|e] eqn:Ec; [|by apply complain_faithful].
  unfold Defaults.applyDefaults. destruct (snd (Defaults.checks h (Defaults.defaults h raw))) as [why|] eqn:Ev; [by apply leave_faithful|].
  destruct (decide (cfg s = Defaults.defaults h raw)) as [|Hne]; [by apply go_faithful|]. apply leave_faithful; [done| |done].
  intros c [= <-]. split; [|done]. eapply applied_from_file; [by apply (f_disk _ _ _ Hf)|done|done].
Qed.

Lemma begin_faithful h l s : faithful h l s → at_phase s = Starting → faithful h l (begin s).
Proof.
  intros Hf Hp. unfold begin. destruct (Dispatch.runEngine (cfg s) (negb (tuned s))) as [e|f] eqn:E; [|apply leave_faithful; [done..|by rewrite Hp]].
  destruct Hf as [H1 H2 H3 H4 H5 (H6 & H7 & H8 & H9 & H10)]. rewrite Hp in *.
  split; cbn [disk cfg at_phase ctl gen running setGeneration role transport generation restart]; try done.
  - intros e' [= <-]. split; [by exists (negb (tuned s))|]. exists no_fingerprint, no_fingerprint. set_solver.
  - split_and!; [done|done|lia|lia|]. by rewrite (proj2 (Z.eqb_neq (gen s + 1) 0)) by lia.
Qed.

Lemma settle_faithful h l s next : faithful h l s → at_phase s = Settling next → faithful h l (settle next s).
Proof.
  intros Hf Hp. unfold settle. destruct (PortsInUse.portsInUse (cfg s)); [|apply leave_faithful; [done..|by rewrite Hp]].
  destruct Hf as [H1 H2 H3 H4 H5 H6]. rewrite Hp in *. split; cbn [disk cfg at_phase ctl gen running]; try done.
  - destruct next as [c|]; [by apply H3|done].
  - intros e He. rewrite H5 in He. done.
Qed.

Lemma step_faithful h l s e : faithful h l s → (∀ f, e = Edit (Some f) → f ∈ l) → faithful h l (step h s e).
Proof.
  intros Hf He. pose proof Hf as [H1 H2 H3 H4 H5 H6]. destruct e as [d|op m| | | | | | | |]; cbn [step].
  - split; cbn [disk cfg at_phase ctl gen running]; try done. intros f ->. by apply He.
  - destruct (snd (answer op (ctl s) m)); [|done]. by split.
  - by split.
  - destruct (at_phase s) eqn:Ep; try done. by apply begin_faithful.
  - destruct (at_phase s) eqn:Ep; try done. by apply go_faithful.
  - destruct (at_phase s) eqn:Ep; try done. destruct (disk s); [|done]. destruct (decide _); [done|]. by apply go_faithful.
  - destruct (at_phase s) eqn:Ep; try done. by apply load_faithful.
  - destruct (at_phase s) eqn:Ep; try done. destruct (cancelled s || stopping s); [|done]. apply leave_faithful; [done|done|by rewrite Ep].
  - destruct (at_phase s) eqn:Ep; try done. by apply settle_faithful.
  - destruct (at_phase s) eqn:Ep; try done. destruct (stopping s); [|done]. apply leave_faithful; [done|done|by rewrite Ep].
Qed.

Lemma exec_faithful h l evs : ∀ s, faithful h l s → (∀ f, f ∈ edits evs → f ∈ l) → faithful h l (exec h s evs).
Proof.
  induction evs as [|e evs IH]; intros s Hf He; [done|]. apply IH.
  - apply step_faithful; [done|]. intros f ->. apply He. apply list_elem_of_here.
  - intros f Hin. apply He. destruct e as [[d|]| | | | | | | | |]; cbn [edits omap list_omap]; try done. by apply list_elem_of_further.
Qed.

Lemma boot_faithful h name d : faithful h (option_list d) (boot h name d).
Proof.
  unfold boot. destruct d as [f|]; [|by split]. destruct (content f) as [raw|e] eqn:Ec; [|split; cbn; try done; intros ? [= <-]; apply list_elem_of_here].
  unfold Defaults.applyDefaults. destruct (snd (Defaults.checks h (Defaults.defaults h raw))) eqn:Ev.
  all: split; cbn [disk cfg at_phase ctl gen running]; try done; try (intros ? [= <-]; apply list_elem_of_here).
  eapply applied_from_file; [apply list_elem_of_here|done|done].
Qed.

(** A version that says nothing new: gone, unreadable, or the same once it is
    filled in. *)
Definition harmless (h : host) (c : Settings.Config) (d : option File) : Prop :=
  match d with
  | None => True
  | Some f => match content f with Err _ => True | Ok raw => Defaults.defaults h raw = c ∧ Defaults.admissible h raw end
  end.

(** Nobody asks for anything, and what is written says nothing new. *)
Definition quiet (h : host) (c : Settings.Config) (e : event) : Prop :=
  match e with
  | Edit d => harmless h c d
  | Request op _ => op ≠ OpRestartTransport
  | Shutdown => False
  | _ => True
  end.

Definition up (s : state) : Prop :=
  match at_phase s with Begun | Watching _ _ | Loading _ _ => cancelled s = false ∧ stopping s = false | _ => False end.

(** The same generation still runs. *)
Definition undisturbed (s s' : state) : Prop :=
  running s' = running s ∧ cfg s' = cfg s ∧ gen s' = gen s ∧ ctl s' = ctl s.

Lemma undisturbed_trans s1 s2 s3 : undisturbed s1 s2 → undisturbed s2 s3 → undisturbed s1 s3.
Proof. unfold undisturbed. intuition congruence. Qed.

Lemma answer_quiet op e m : op ≠ OpRestartTransport → snd (answer op e m) = None.
Proof. intros H%String.eqb_neq. unfold answer. by destruct (String.eqb op OpPing), (String.eqb op OpStatus); rewrite ?H. Qed.

Lemma load_quiet h a b s : up s → harmless h (cfg s) (disk s) → up (load h a b s) ∧ undisturbed s (load h a b s) ∧ disk (load h a b s) = disk s.
Proof.
  intros Hu Hh. unfold load, harmless in *. assert (cancelled s = false ∧ stopping s = false) as Hc by (unfold up in Hu; by destruct (at_phase s)).
  assert (∀ e, up (complain a b e s) ∧ undisturbed s (complain a b e s) ∧ disk (complain a b e s) = disk s) as Hb
    by (intros e; unfold complain; by destruct (decide (a = b))).
  destruct (disk s) as [f|] eqn:Ed; [|apply Hb]. destruct (content f) as [raw|e]; [|apply Hb]. destruct Hh as [Hd Ha].
  unfold Defaults.applyDefaults. rewrite <- Defaults.admissible_defaults, <- Defaults.admissible_iff in Ha. rewrite Ha.
  destruct (decide (cfg s = Defaults.defaults h raw)) as [_|[]]; [|done]. by split_and!.
Qed.

Lemma step_quiet h s e : up s → harmless h (cfg s) (disk s) → quiet h (cfg s) e →
  up (step h s e) ∧ undisturbed s (step h s e) ∧ harmless h (cfg s) (disk (step h s e)).
Proof.
  intros Hu Hh Hq. assert (cancelled s = false ∧ stopping s = false) as [Hc Hs] by (unfold up in Hu; by destruct (at_phase s)).
  destruct e as [d|op m| | | | | | | |]; cbn [step]; try done.
  - rewrite answer_quiet by done. done.
  - by destruct (at_phase s) eqn:Ep; unfold up in *; rewrite ?Ep in *.
  - destruct (at_phase s) eqn:Ep; try done.
  - destruct (at_phase s) eqn:Ep; try done. destruct (disk s) as [f|] eqn:Ed; [|by rewrite Ed]. destruct (decide _); [by rewrite Ed|]. unfold go. cbn [disk]. rewrite Ed. done.
  - destruct (at_phase s) as [| |a b|a b| | |] eqn:Ep; try done. by destruct (load_quiet h a b s Hu Hh) as (? & ? & ->).
  - destruct (at_phase s) eqn:Ep; try done. by rewrite Hc, Hs.
  - by destruct (at_phase s) eqn:Ep; unfold up in *; rewrite ?Ep in *.
  - destruct (at_phase s) eqn:Ep; try done. by rewrite Hs.
Qed.

Lemma exec_quiet h evs : ∀ s, up s → harmless h (cfg s) (disk s) → Forall (quiet h (cfg s)) evs →
  up (exec h s evs) ∧ undisturbed s (exec h s evs).
Proof.
  induction evs as [|e evs IH]; intros s Hu Hh Hq; [done|]. apply Forall_cons in Hq as [He Hq].
  destruct (step_quiet h s e Hu Hh He) as (Hu' & Hd & Hh'). pose proof Hd as (_ & Hc & _).
  destruct (IH (step h s e)) as [? ?]; [done|by rewrite Hc|by rewrite Hc|]. split; [done|]. by eapply undisturbed_trans.
Qed.

(** ** Properties *)

(** At every point of the process's life, whatever was written to the file and
    asked of it, the configuration is one of the versions the file had, filled in
    and admissible; an engine is running exactly while its generation is, and it is
    the one that configuration names; what a reload is about to start came from
    the file too and differs from what ran; and the control socket cancels the
    latest generation begun, of which it knows the number. *)
Theorem run_faithful h name d evs : faithful h (versions d evs) (exec h (boot h name d) evs).
Proof.
  apply exec_faithful; [|intros f Hf; apply elem_of_app; by right].
  eapply faithful_mono; [|apply boot_faithful]. intros f Hf. apply elem_of_app. by left.
Qed.

(** While only versions are written that do not parse, or mean the same, and
    nobody asks for a restart, the generation goes on untouched, however long and
    in whatever order the file is edited and polled; and a new version that does
    not parse is said to. *)
Theorem harmless_edits h s evs (Hu : up s) (Hh : harmless h (cfg s) (disk s)) (Hq : Forall (quiet h (cfg s)) evs) :
  undisturbed s (exec h s evs) ∧
  ∀ f e a b, at_phase s = Watching a b → fileFingerprint f ≠ a → fileFingerprint f ≠ b → content f = Err e →
    complaints (exec h s [Edit (Some f); Poll; Load]) = e :: complaints s ∧ undisturbed s (exec h s [Edit (Some f); Poll; Load]).
Proof.
  split; [by apply exec_quiet|]. intros f e a b Hp Ha Hb Hc. split.
  - cbn [exec fold_left step]. rewrite Hp. cbn [step at_phase disk]. destruct (decide (fileFingerprint f = a)); [done|].
    cbn [go at_phase]. unfold load, complain. cbn [disk go]. rewrite Hc. by destruct (decide (fileFingerprint f = b)).
  - apply (exec_quiet h [Edit (Some f); Poll; Load] s Hu Hh). repeat constructor. cbn. by rewrite Hc.
Qed.

(** C24: a version that parses, is admissible and means something else is picked up:
    one poll and one load end the generation, and once its ports are free the next
    one runs the new configuration, with the socket pointing at it. *)
Theorem edit_applied h s f raw a b e
    (Hp : at_phase s = Watching a b) (Hd : disk s = Some f) (Hs : fileFingerprint f ≠ a) (Hc : content f = Ok raw)
    (Ha : Defaults.admissible h raw) (Hn : cfg s ≠ Defaults.defaults h raw)
    (Hports : PortsInUse.portsInUse (cfg s) ≠ Panic) (He : Dispatch.runEngine (Defaults.defaults h raw) (negb (tuned s)) = Ok e) :
  let s' := exec h s [Poll; Load; Settle; Begin] in
  at_phase s' = Begun ∧ cfg s' = Defaults.defaults h raw ∧ running s' = Some e ∧ gen s' = gen s + 1 ∧ cancelled s' = false ∧
  restart (ctl s') = Some (gen s + 1) ∧ generation (ctl s') = generation (ctl s) + 1.
Proof.
  cbn [exec fold_left step]. rewrite Hp, Hd. destruct (decide (fileFingerprint f = a)); [done|].
  unfold load, go. cbn [at_phase disk]. rewrite Hd, Hc. unfold Defaults.applyDefaults. rewrite <- Defaults.admissible_defaults, <- Defaults.admissible_iff in Ha.
  rewrite Ha. cbn [cfg]. destruct (decide (cfg s = Defaults.defaults h raw)); [done|].
  unfold leave. cbn [at_phase disk cfg ctl gen stopping tuned complaints]. unfold settle. cbn [cfg].
  destruct (PortsInUse.portsInUse (cfg s)); [|done]. cbn [at_phase default]. unfold begin. cbn [cfg tuned].
  unfold id. cbn [cfg tuned]. by rewrite He.
Qed.

(** A KCP server's file, its token and its web port. *)
Definition server_file (time : Z) (token proxy : string) (web : Z) : File :=
  mkFile 100 time (Ok (Settings.mkConfig
    (ServerCfg.mkServer "0.0.0.0:4000" "kcp" None 0 token true 0 0 "" "" (Some ["443"]) false 0 0 0 0 0 false web "" "" "" "" "" "" false 0 0 None
      false 0 0 0 false false false 0 0 "" Tuning.no_kcp Tuning.no_pck)
    (ClientCfg.mkClient "" None "" None 0 "" 0 0 false 0 "" "" false 0 0 0 0 0 false 0 "" "" 0 false "" false
       false 0 0 0 proxy "" "" 0 false false "" false false Tuning.no_kcp Tuning.no_pck)
    L3Cfg.none DirectCfg.none)).

Definition first_file : File := server_file 1 "one" "" 8080.
Definition second_file : File := server_file 2 "two" "" 8080.
Definition broken_file : File := mkFile 90 3 (Err "line 4: expected value").
Definition typo_file : File := server_file 4 "one" "sock5://127.0.0.1:1080" 8080.

(** Up and watching its first file. *)
Definition watching_first : state := exec Defaults.linux_host (boot Defaults.linux_host "fr" (Some first_file)) [Begin; FirstStat].

Definition raw_of (f : File) : Settings.Config := match content f with Ok c => c | Err _ => Settings.empty end.

Lemma run_faithful_witness :
  faithful Defaults.linux_host (versions (Some first_file) [Begin; FirstStat]) watching_first ∧ at_phase watching_first = Watching (100, 1) (0, 0) ∧
  is_Some (running watching_first).
Proof.
  split_and!; [exact (run_faithful Defaults.linux_host "fr" (Some first_file) [Begin; FirstStat])|by vm_compute|].
  destruct (running watching_first) eqn:E; [by eexists|by vm_compute in E].
Defined.

Lemma first_is_harmless f : f = first_file → harmless Defaults.linux_host (cfg watching_first) (Some f).
Proof. intros ->. unfold harmless. cbn [content first_file server_file]. split; [by vm_compute|]. apply Defaults.admissible_iff. by vm_compute. Qed.

Lemma harmless_edits_witness :
  undisturbed watching_first (exec Defaults.linux_host watching_first [Edit (Some broken_file); Poll; Load; Edit None; Poll; Edit (Some first_file); Poll; Load]) ∧
  complaints (exec Defaults.linux_host watching_first [Edit (Some broken_file); Poll; Load]) = ["line 4: expected value"].
Proof.
  assert (up watching_first) as Hu by by vm_compute.
  assert (harmless Defaults.linux_host (cfg watching_first) (disk watching_first)) as Hh by by apply first_is_harmless.
  destruct (harmless_edits Defaults.linux_host watching_first
    [Edit (Some broken_file); Poll; Load; Edit None; Poll; Edit (Some first_file); Poll; Load] Hu Hh) as [H1 H2].
  { repeat (apply Forall_cons; split); [done..|by apply first_is_harmless|done|done|done]. }
  split; [exact H1|]. destruct (H2 broken_file "line 4: expected value" (100, 1) (0, 0)) as [H3 _]; [by vm_compute|done|done|done|]. exact H3.
Defined.

Lemma edit_applied_witness :
  let s := exec Defaults.linux_host watching_first [Edit (Some second_file)] in
  let s' := exec Defaults.linux_host s [Poll; Load; Settle; Begin] in
  at_phase s' = Begun ∧ ServerCfg.Token (Settings.Server (cfg s')) = "two" ∧ gen s' = 2.
Proof.
  cbv zeta. set (s := exec Defaults.linux_host watching_first [Edit (Some second_file)]).
  destruct (Dispatch.runEngine (Defaults.defaults Defaults.linux_host (raw_of second_file)) (negb (tuned s))) as [e|f] eqn:E; [|by vm_compute in E].
  assert (cfg s ≠ Defaults.defaults Defaults.linux_host (raw_of second_file)) as Hn.
  { intros H. apply (f_equal (λ c, ServerCfg.Token (Settings.Server c))) in H. by vm_compute in H. }
  assert (Defaults.admissible Defaults.linux_host (raw_of second_file)) as Ha by (apply Defaults.admissible_iff; by vm_compute).
  assert (PortsInUse.portsInUse (cfg s) ≠ Panic) as Hports by by vm_compute.
  destruct (edit_applied Defaults.linux_host s second_file (raw_of second_file) (100, 1) (0, 0) e ltac:(by vm_compute) eq_refl
    ltac:(done) eq_refl Ha Hn Hports E) as (H1 & H2 & _ & H3 & _).
  split; [exact H1|]. rewrite H2, H3. split; vm_compute; reflexivity.
Defined.

(** A proxy scheme with a letter missing parses, and the working tunnel goes down
    with the process. *)
Lemma typo_kills :
  is_Some (running watching_first) ∧
  at_phase (exec Defaults.linux_host watching_first [Edit (Some typo_file); Poll; Load]) =
    Killed (InDefaults (Defaults.BadProxy (Outbound.NotAURL "sock5://127.0.0.1:1080"))).
Proof. split; [|by vm_compute]. destruct (running watching_first) eqn:E; [by eexists|by vm_compute in E]. Qed.

(** Polling, loading and asking about it. *)
Definition only_watches (e : event) : Prop := match e with Poll | Load => True | Request op _ => op ≠ OpRestartTransport | _ => False end.

Lemma unseen_stays h evs : ∀ s f b, at_phase s = Watching (fileFingerprint f) b → disk s = Some f → Forall only_watches evs →
  exec h s evs = s.
Proof.
  induction evs as [|e evs IH]; intros s f b Hp Hd Ho; [done|]. apply Forall_cons in Ho as [He Ho].
  cbn [exec fold_left]. assert (step h s e = s) as ->; [|by eapply IH].
  destruct e; try done; cbn [step].
  - by rewrite answer_quiet.
  - rewrite Hp, Hd. by destruct (decide (fileFingerprint f = fileFingerprint f)).
  - by rewrite Hp.
Qed.

(** An edit made just before a restart is asked for is never applied: the new
    generation takes the file it has not loaded for the one it runs. *)
Lemma edit_lost evs : Forall only_watches evs →
  let s := exec Defaults.linux_host watching_first ([Edit (Some second_file); Request OpRestartTransport (mkReading 0 0 None ""); Ended; Settle; Begin; FirstStat] ++ evs) in
  disk s = Some second_file ∧ ServerCfg.Token (Settings.Server (cfg s)) = "one" ∧ gen s = 2 ∧ is_Some (running s).
Proof.
  intros He. cbv zeta. rewrite exec_app.
  set (s := exec _ watching_first _). rewrite (unseen_stays _ evs s second_file (0, 0)); [|by vm_compute..|done].
  split_and!; [by vm_compute..|]. destruct (running s) eqn:E; [by eexists|by vm_compute in E].
Qed.

(** Asked between two generations, the socket says yes and nothing is restarted. *)
Lemma asked_between s next op m :
  at_phase s = Settling next → restart (ctl s) = Some (gen s) → op = OpRestartTransport →
  OK (fst (answer op (ctl s) m)) = true ∧
  ∀ h, running (step h s (Request op m)) = running s ∧ exec h s [Request op m; Settle; Begin] = exec h s [Settle; Begin].
Proof.
  intros Hp Hr ->. unfold answer. cbn [String.eqb OpRestartTransport OpPing OpStatus Ascii.eqb Bool.eqb]. unfold RestartTransport. rewrite Hr.
  split; [done|]. intros h. split; [cbn [step]; unfold answer, RestartTransport; cbn; by rewrite Hr|].
  cbn [exec fold_left]. assert (∃ b, step h s (Request OpRestartTransport m) =
    mkState (disk s) (cfg s) (at_phase s) (ctl s) (gen s) b (stopping s) (tuned s) (running s) (complaints s)) as [b ->].
  { cbn [step]. unfold answer, RestartTransport. cbn. rewrite Hr. by eexists. }
  cbn [step at_phase]. rewrite Hp. unfold settle. cbn [cfg]. destruct (PortsInUse.portsInUse (cfg s)).
  - cbn [at_phase step]. unfold begin. cbn [cfg tuned disk at_phase ctl gen stopping complaints]. by destruct (Dispatch.runEngine _ _).
  - done.
Qed.

End Run.
