(* ===== verification/DirectFile.v ===== *)
(** The file of a direct (layer-3) tunnel, as the management screens write,
    read and edit it.
    - Module [Toml]: a table of keys and values;
    - Module [SpoofTune]: the drawer of the forged-source carrier
      ([internal/manage/webapi_advanced.go], the Stealth group of [setup.go]);
    - Module [DirectSpec]: presets ([l3preset.go]), what a file says
      ([directrender.go], the keys of [config/l3.go]), filling a form and
      editing ([directwebapi.go]), and the names, devices and addresses still
      free ([directsetup.go]).

    A file is the keys it holds with their values, in the order they are
    written; comments, quoting and number formats are the work of the renderer
    and the TOML library and are left out. *)

From Stdlib Require Import Ascii String.
From S2P Require Import Prelude GoStr Spoof L3Encap L3Fec L3Path Ports GoNet Settings Checks Startup.
Import GoStr GoNet.
Open Scope string_scope.
Open Scope list_scope.
Open Scope Z_scope.

Module Toml.

Inductive value : Type := Str (s : string) | Int (n : Z) | Bool (b : bool) | Strs (l : list string).

Definition table : Type := list (string * value).

(** What a renderer writes: keys, each group under a condition. *)
Definition groups : Type := list (bool * table).
Definition written (l : groups) : table := concat (map (λ g : bool * table, if fst g then snd g else []) l).

Fixpoint same_key (a b : string) : bool :=
  match a, b with
  | EmptyString, EmptyString => true
  | String x a, String y b => if Ascii.eqb x y then same_key a b else false
  | _, _ => false
  end.

Definition lookup (k : string) (t : table) : option value :=
  option_map snd (List.find (λ kv : string * value, same_key (fst kv) k) t).

(** What decoding leaves in a field of each type. *)
Definition str (k : string) (t : table) : string := match lookup k t with Some (Str s) => s | _ => "" end.
Definition int (k : string) (t : table) : Z := match lookup k t with Some (Int n) => n | _ => 0 end.
Definition bool_ (k : string) (t : table) : bool := match lookup k t with Some (Bool b) => b | _ => false end.
Definition opt_bool (k : string) (t : table) : option bool := match lookup k t with Some (Bool b) => Some b | _ => None end.
Definition strs (k : string) (t : table) : Strings := match lookup k t with Some (Strs l) => Some l | _ => None end.

Lemma lookup_app k a b : lookup k (a ++ b) = match lookup k a with Some v => Some v | None => lookup k b end.
Proof. unfold lookup. induction a as [|[k' v] a IH]; [done|]. cbn [app List.find fst]. by destruct (same_key k' k). Qed.

Definition has (k : string) (g : bool * table) : bool := existsb (λ kv : string * value, same_key (fst kv) k) (snd g).

(** The key [k] is in one group at most. *)
Definition once (k : string) (l : groups) : bool := (length (List.filter (has k) l) <=? 1)%nat.

Lemma lookup_absent k g : has k g = false → lookup k (snd g) = None.
Proof.
  unfold has, lookup. induction (snd g) as [|[k' v] t IH]; [done|]. cbn [existsb List.find fst].
  destruct (same_key k' k); [done|]. apply IH.
Qed.

Lemma lookup_absents k l : List.filter (has k) l = [] → lookup k (written l) = None.
Proof.
  induction l as [|g l IH]; [done|]. cbn [List.filter]. destruct (has k g) eqn:E; [done|]. intros H.
  unfold written. cbn [map concat]. rewrite lookup_app. fold (written l). rewrite (IH H).
  destruct (fst g); [|done]. by rewrite lookup_absent.
Qed.

Lemma lookup_written k l : once k l = true →
  lookup k (written l) = match List.find (has k) l with Some g => if fst g then lookup k (snd g) else None | None => None end.
Proof.
  unfold once. induction l as [|g l IH]; [done|]. cbn [List.filter List.find]. unfold written. cbn [map concat]. fold (written l).
  rewrite lookup_app. destruct (has k g) eqn:E.
  - cbn [length]. intros H. apply Nat.leb_le in H. rewrite (lookup_absents k l) by (apply nil_length_inv; lia).
    destruct (fst g); [by destruct (lookup k (snd g))|done].
  - intros H. rewrite (IH H). destruct (fst g); [by rewrite lookup_absent|done].
Qed.

End Toml.

Module SpoofTune.
Import Tuning.

Record SpoofTune : Type := mkTune {
  Profile : string;
  Uplink : string;
  Downlink : string;
  SrcIPs : string;
  PeerIP : string;
  PeerSrcIP : string;
  Interface : string;
  XDPIface : string;
  SockBuf : Z;
  MTU : Z;
  ICMPReply : bool;
  TTLJitter : bool;
  RandomDSCP : bool;
  ShufflePort : bool;
  PortMin : Z;
  PortMax : Z;
  Padding : bool;
  PaddingMax : Z;
  FakeTLS : bool
}.

Definition spoofOf (s : SpoofConfig) : SpoofTune :=
  let src := if (0 <? length (items (SpoofSrcPool s)))%nat then Join (items (SpoofSrcPool s)) ", " else SpoofSrcIP s in
  {|
    Profile := SpoofProfile s;
    Uplink := SpoofUplink s;
    Downlink := SpoofDownlink s;
    SrcIPs := src;
    PeerIP := SpoofPeerIP s;
    PeerSrcIP := SpoofPeerSrcIP s;
    Interface := SpoofInterface s;
    XDPIface := SpoofXDPInterface s;
    SockBuf := SpoofSockBuf s;
    MTU := SpoofMTU s;
    ICMPReply := SpoofICMPReply s;
    TTLJitter := SpoofTTLJitter s;
    RandomDSCP := SpoofRandomDSCP s;
    ShufflePort := SpoofShufflePort s;
    PortMin := SpoofPortMin s;
    PortMax := SpoofPortMax s;
    Padding := SpoofPadding s;
    PaddingMax := SpoofPaddingMax s;
    FakeTLS := SpoofFakeTLS s
  |}.

Definition spoofProfiles : list string := ["udp"; "icmp"; "tcp"; "icmpv6"; "proto58"; "ipip"; "gre"].

Inductive error : Type :=
  | NotAProfile (what : string) | NotIPv4 (part : string) | NotOneIPv4 (what : string) | NoInterface (i : string)
  | Negative | PortRange | PortOrder.

Definition spoofProfile (what v : string) : result error string :=
  let v := ToLower (TrimSpace v) in
  if String.eqb v "" then Ok ""
  else if bool_decide (v ∈ spoofProfiles) then Ok v else Err (NotAProfile what).

Fixpoint ipv4_parts (l : list string) : result error (list string) :=
  match l with
  | [] => Ok []
  | p :: l =>
      let p := TrimSpace p in
      if String.eqb p "" then ipv4_parts l
      else if isIPv4 p then let? out := ipv4_parts l in Ok (p :: out) else Err (NotIPv4 p)
  end.

Definition parseIPv4List (raw : string) : result error (list string) := ipv4_parts (Split raw ",").

Definition optionalIPv4 (raw what : string) : result error string :=
  let raw := TrimSpace raw in
  if String.eqb raw "" then Ok "" else if isIPv4 raw then Ok raw else Err (NotOneIPv4 what).

Definition checkInterface (h : host) (raw : string) : result error string :=
  let raw := TrimSpace raw in
  if String.eqb raw "" then Ok "" else if has_interface h raw then Ok raw else Err (NoInterface raw).

(** [apply]: the settings after it. *)
Definition apply (h : host) (f : SpoofTune) (s : SpoofConfig) : result error SpoofConfig :=
  let? p := spoofProfile "packet profile" (Profile f) in
  let profile := if String.eqb p "" then "udp" else p in
  let? up := spoofProfile "uplink profile" (Uplink f) in
  let? down := spoofProfile "downlink profile" (Downlink f) in
  let? pool := parseIPv4List (SrcIPs f) in
  let? peer := optionalIPv4 (PeerIP f) "the peer's real IPv4" in
  let? peerSrc := optionalIPv4 (PeerSrcIP f) "the peer's forged source IPv4" in
  let? iface := checkInterface h (Interface f) in
  let? xdp := checkInterface h (XDPIface f) in
  let? _ := require (negb ((SockBuf f <? 0) || (MTU f <? 0) || (PaddingMax f <? 0))) Negative in
  let ranged := ShufflePort f && (negb (PortMin f =? 0) || negb (PortMax f =? 0)) in
  let? _ := require (negb (ranged && ((PortMin f <? 1) || (65535 <? PortMin f) || (PortMax f <? 1) || (65535 <? PortMax f)))) PortRange in
  let? _ := require (negb (ranged && (PortMax f <? PortMin f))) PortOrder in
  Ok {|
    SpoofProfile := profile;
    SpoofUplink := up;
    SpoofDownlink := down;
    SpoofSrcIP := default "" (head pool);
    SpoofSrcPool := if (1 <? length pool)%nat then Some pool else None;
    SpoofPeerIP := peer;
    SpoofInterface := iface;
    SpoofXDPInterface := xdp;
    SpoofSockBuf := SockBuf f;
    SpoofPeerSrcIP := peerSrc;
    SpoofICMPReply := ICMPReply f;
    SpoofMTU := MTU f;
    SpoofTTLJitter := TTLJitter f;
    SpoofRandomDSCP := RandomDSCP f;
    SpoofShufflePort := ShufflePort f;
    SpoofPortMin := if ranged then PortMin f else 0;
    SpoofPortMax := if ranged then PortMax f else 0;
    SpoofPadding := Padding f;
    SpoofPaddingMax := if Padding f then PaddingMax f else 0;
    SpoofFakeTLS := FakeTLS f && (String.eqb profile "tcp" || String.eqb (Uplink f) "tcp" || String.eqb (Downlink f) "tcp")
  |}.

Definition with_group (s : SpoofConfig) (on : bool) (pad lo hi : Z) (tls : bool) : SpoofConfig :=
  {|
    SpoofProfile := SpoofProfile s;
    SpoofUplink := SpoofUplink s;
    SpoofDownlink := SpoofDownlink s;
    SpoofSrcIP := SpoofSrcIP s;
    SpoofSrcPool := SpoofSrcPool s;
    SpoofPeerIP := SpoofPeerIP s;
    SpoofInterface := SpoofInterface s;
    SpoofXDPInterface := SpoofXDPInterface s;
    SpoofSockBuf := SpoofSockBuf s;
    SpoofPeerSrcIP := SpoofPeerSrcIP s;
    SpoofICMPReply := SpoofICMPReply s;
    SpoofMTU := SpoofMTU s;
    SpoofTTLJitter := on;
    SpoofRandomDSCP := on;
    SpoofShufflePort := on;
    SpoofPortMin := lo;
    SpoofPortMax := hi;
    SpoofPadding := on;
    SpoofPaddingMax := pad;
    SpoofFakeTLS := tls
  |}.

Definition applySpoofStealth (s : SpoofConfig) : SpoofConfig :=
  let (up, down) := Spoof.ResolveSpoofDirections (SpoofProfile s) (SpoofUplink s) (SpoofDownlink s) in
  with_group s true 64 49152 65535
    (Spoof.is_profile up Spoof.SpoofProfileTCP || Spoof.is_profile down Spoof.SpoofProfileTCP || SpoofFakeTLS s).

Definition clearSpoofStealth (s : SpoofConfig) : SpoofConfig := with_group s false 0 0 0 false.

Definition spoofStealthOn (s : SpoofConfig) : bool := SpoofPadding s || SpoofFakeTLS s.

Definition with_peer_ip (s : SpoofConfig) (ip : string) : SpoofConfig :=
  {|
    SpoofProfile := SpoofProfile s;
    SpoofUplink := SpoofUplink s;
    SpoofDownlink := SpoofDownlink s;
    SpoofSrcIP := SpoofSrcIP s;
    SpoofSrcPool := SpoofSrcPool s;
    SpoofPeerIP := ip;
    SpoofInterface := SpoofInterface s;
    SpoofXDPInterface := SpoofXDPInterface s;
    SpoofSockBuf := SpoofSockBuf s;
    SpoofPeerSrcIP := SpoofPeerSrcIP s;
    SpoofICMPReply := SpoofICMPReply s;
    SpoofMTU := SpoofMTU s;
    SpoofTTLJitter := SpoofTTLJitter s;
    SpoofRandomDSCP := SpoofRandomDSCP s;
    SpoofShufflePort := SpoofShufflePort s;
    SpoofPortMin := SpoofPortMin s;
    SpoofPortMax := SpoofPortMax s;
    SpoofPadding := SpoofPadding s;
    SpoofPaddingMax := SpoofPaddingMax s;
    SpoofFakeTLS := SpoofFakeTLS s
  |}.

End SpoofTune.

Module DirectSpec.
Import Toml SpoofTune.

Inductive directSide : Type := sideIran | sideKharej.

Definition is_iran (s : directSide) : bool := match s with sideIran => true | sideKharej => false end.
Definition side_String (s : directSide) : string := match s with sideIran => "iran" | sideKharej => "kharej" end.

Record l3Spec : Type := mkSpec {
  Name : string;
  Side : directSide;
  Carrier : string;
  SNIDomain : string;
  Encap : string;
  GREKey : Z;
  Addr : string;
  Token : string;
  Iface : string;
  LocalIP : string;
  PeerIP : string;
  MTU : Z;
  AutoMTU : option bool;
  SockBuf : Z;
  FECData : Z;
  FECParity : Z;
  Paths : Z;
  MSSClamp : Z;
  Preset : string;
  TxQueueLen : Z;
  Qdisc : string;
  Ports : list string;
  AcceptUDP : bool;
  MaxConnections : Z;
  BandwidthMbps : Z;
  Spoof : Tuning.SpoofConfig;
  Pck : Tuning.PckConfig
}.

(** ** What the file says *)

Definition set_str (key v : string) : bool * table := (negb (String.eqb v ""), [(key, Str v)]).
Definition set_num (key : string) (v : Z) : bool * table := (0 <? v, [(key, Int v)]).
Definition set_flag (key : string) (v : bool) : bool * table := (v, [(key, Bool true)]).
Definition set_list (key : string) (v : list string) : bool * table := ((0 <? length v)%nat, [(key, Strs (map TrimSpace v))]).

Definition writeSpoofKeys (s : Tuning.SpoofConfig) : groups :=
  [set_str "spoof_profile" (Tuning.SpoofProfile s);
  set_str "spoof_uplink" (Tuning.SpoofUplink s);
  set_str "spoof_downlink" (Tuning.SpoofDownlink s);
  set_str "spoof_src_ip" (Tuning.SpoofSrcIP s);
  set_list "spoof_src_pool" (items (Tuning.SpoofSrcPool s));
  set_str "spoof_peer_ip" (Tuning.SpoofPeerIP s);
  set_str "spoof_interface" (Tuning.SpoofInterface s);
  set_str "spoof_xdp_interface" (Tuning.SpoofXDPInterface s);
  set_num "spoof_sockbuf" (Tuning.SpoofSockBuf s);
  set_str "spoof_peer_src_ip" (Tuning.SpoofPeerSrcIP s);
  set_flag "spoof_icmp_reply" (Tuning.SpoofICMPReply s);
  set_num "spoof_mtu" (Tuning.SpoofMTU s);
  set_flag "spoof_ttl_jitter" (Tuning.SpoofTTLJitter s);
  set_flag "spoof_random_dscp" (Tuning.SpoofRandomDSCP s);
  set_flag "spoof_shuffle_port" (Tuning.SpoofShufflePort s);
  set_num "spoof_port_min" (Tuning.SpoofPortMin s);
  set_num "spoof_port_max" (Tuning.SpoofPortMax s);
  set_flag "spoof_padding" (Tuning.SpoofPadding s);
  set_num "spoof_padding_max" (Tuning.SpoofPaddingMax s);
  set_flag "spoof_fake_tls" (Tuning.SpoofFakeTLS s)].

Definition writePckKeys (p : Tuning.PckConfig) : groups :=
  [set_str "pck_interface" (Tuning.PckInterface p);
  set_str "pck_gateway_mac" (Tuning.PckGatewayMAC p);
  set_list "pck_flags" (items (Tuning.PckFlags p))].

Definition render (s : l3Spec) : table := written (
  [(true, [("mode", Str (if is_iran (Side s) then "dial" else "listen"));
           ("addr", Str (Addr s));
           ("token", Str (Token s));
           ("carrier", Str (Carrier s))]);
   (String.eqb (Carrier s) "sni" && negb (String.eqb (SNIDomain s) ""), [("sni_domain", Str (SNIDomain s))]);
   (true, [("encap", Str "gre")]);
   (negb (GREKey s =? 0), [("gre_key", Int (GREKey s))]);
   (true, [("iface", Str (Iface s));
           ("local_ip", Str (LocalIP s));
           ("peer_ip", Str (PeerIP s));
           ("mtu", Int (MTU s))]);
   (match AutoMTU s with Some b => negb b | None => false end, [("auto_mtu", Bool false)]);
   (negb (String.eqb (Preset s) ""), [("preset", Str (Preset s)); ("txqueuelen", Int (TxQueueLen s)); ("qdisc", Str (Qdisc s))]);
   (0 <? SockBuf s, [("sockbuf", Int (SockBuf s))]);
   ((0 <? FECData s) && (0 <? FECParity s), [("fec_data", Int (FECData s)); ("fec_parity", Int (FECParity s))]);
   (1 <? Paths s, [("paths", Int (Paths s))]);
   (negb (MSSClamp s =? 0), [("mss_clamp", Int (MSSClamp s))])] ++
  writeSpoofKeys (Spoof s) ++
  writePckKeys (Pck s) ++
  [((0 <? length (Ports s))%nat, [("ports", Strs (map TrimSpace (Ports s))); ("accept_udp", Bool (AcceptUDP s))]);
   ((0 <? length (Ports s))%nat && ((0 <? MaxConnections s) || (0 <? BandwidthMbps s)),
    [("max_connections", Int (MaxConnections s)); ("bandwidth_mbps", Int (BandwidthMbps s))])]).

(** The keys of [config.L3Config] and the tables it embeds. *)
Definition decode_spoof (t : table) : Tuning.SpoofConfig := {|
    Tuning.SpoofProfile := str "spoof_profile" t;
    Tuning.SpoofUplink := str "spoof_uplink" t;
    Tuning.SpoofDownlink := str "spoof_downlink" t;
    Tuning.SpoofSrcIP := str "spoof_src_ip" t;
    Tuning.SpoofSrcPool := strs "spoof_src_pool" t;
    Tuning.SpoofPeerIP := str "spoof_peer_ip" t;
    Tuning.SpoofInterface := str "spoof_interface" t;
    Tuning.SpoofXDPInterface := str "spoof_xdp_interface" t;
    Tuning.SpoofSockBuf := int "spoof_sockbuf" t;
    Tuning.SpoofPeerSrcIP := str "spoof_peer_src_ip" t;
    Tuning.SpoofICMPReply := bool_ "spoof_icmp_reply" t;
    Tuning.SpoofMTU := int "spoof_mtu" t;
    Tuning.SpoofTTLJitter := bool_ "spoof_ttl_jitter" t;
    Tuning.SpoofRandomDSCP := bool_ "spoof_random_dscp" t;
    Tuning.SpoofShufflePort := bool_ "spoof_shuffle_port" t;
    Tuning.SpoofPortMin := int "spoof_port_min" t;
    Tuning.SpoofPortMax := int "spoof_port_max" t;
    Tuning.SpoofPadding := bool_ "spoof_padding" t;
    Tuning.SpoofPaddingMax := int "spoof_padding_max" t;
    Tuning.SpoofFakeTLS := bool_ "spoof_fake_tls" t
  |}.

Definition decode_pck (t : table) : Tuning.PckConfig :=
  Tuning.mkPck (str "pck_interface" t) (str "pck_gateway_mac" t) (strs "pck_flags" t).

Definition decode (t : table) : L3Cfg.L3Config := {|
    L3Cfg.Mode := str "mode" t;
    L3Cfg.Addr := str "addr" t;
    L3Cfg.Token := str "token" t;
    L3Cfg.Carrier := str "carrier" t;
    L3Cfg.Encap := str "encap" t;
    L3Cfg.GREKey := int "gre_key" t;
    L3Cfg.SNIDomain := str "sni_domain" t;
    L3Cfg.Iface := str "iface" t;
    L3Cfg.LocalIP := str "local_ip" t;
    L3Cfg.PeerIP := str "peer_ip" t;
    L3Cfg.MTU := int "mtu" t;
    L3Cfg.SockBuf := int "sockbuf" t;
    L3Cfg.FECData := int "fec_data" t;
    L3Cfg.FECParity := int "fec_parity" t;
    L3Cfg.Paths := int "paths" t;
    L3Cfg.Preset := str "preset" t;
    L3Cfg.TxQueueLen := int "txqueuelen" t;
    L3Cfg.Qdisc := str "qdisc" t;
    L3Cfg.AutoMTU := opt_bool "auto_mtu" t;
    L3Cfg.MSSClamp := int "mss_clamp" t;
    L3Cfg.Ports := strs "ports" t;
    L3Cfg.AcceptUDP := bool_ "accept_udp" t;
    L3Cfg.MaxConnections := int "max_connections" t;
    L3Cfg.BandwidthMbps := int "bandwidth_mbps" t;
    L3Cfg.Spoof := decode_spoof t;
    L3Cfg.Pck := decode_pck t
  |}.

Definition orDefault (s d : string) : string := or_string s d.

Definition directSpecFrom (name : string) (l : L3Cfg.L3Config) : l3Spec := {|
    Name := name;
    Side := if EqualFold (TrimSpace (L3Cfg.Mode l)) "listen" then sideKharej else sideIran;
    Carrier := orDefault (L3Cfg.Carrier l) "udp";
    SNIDomain := "";
    Encap := orDefault (L3Cfg.Encap l) "gre";
    GREKey := L3Cfg.GREKey l;
    Addr := L3Cfg.Addr l;
    Token := L3Cfg.Token l;
    Iface := orDefault (L3Cfg.Iface l) "bp0";
    LocalIP := L3Cfg.LocalIP l;
    PeerIP := L3Cfg.PeerIP l;
    MTU := L3Cfg.MTU l;
    AutoMTU := L3Cfg.AutoMTU l;
    SockBuf := L3Cfg.SockBuf l;
    FECData := L3Cfg.FECData l;
    FECParity := L3Cfg.FECParity l;
    Paths := L3Cfg.Paths l;
    MSSClamp := L3Cfg.MSSClamp l;
    Preset := L3Cfg.Preset l;
    TxQueueLen := L3Cfg.TxQueueLen l;
    Qdisc := L3Cfg.Qdisc l;
    Ports := items (L3Cfg.Ports l);
    AcceptUDP := L3Cfg.AcceptUDP l;
    MaxConnections := L3Cfg.MaxConnections l;
    BandwidthMbps := L3Cfg.BandwidthMbps l;
    Spoof := L3Cfg.Spoof l;
    Pck := L3Cfg.Pck l
  |}.

(** ** Lemmas: reading back what was written *)

(** Reads one key of what [render] wrote. *)
Ltac read := unfold str, int, bool_, opt_bool, strs, render; rewrite lookup_written by reflexivity; cbv [has List.find app writeSpoofKeys writePckKeys set_str set_num set_flag set_list existsb fst snd lookup option_map same_key Ascii.eqb Bool.eqb orb].

(** What a file keeps of the forged-source settings. *)
Definition kept_list (l : list string) : Strings := if (0 <? length l)%nat then Some (map TrimSpace l) else None.
Definition kept_num (n : Z) : Z := if 0 <? n then n else 0.

Definition canon_spoof (s : Tuning.SpoofConfig) : Tuning.SpoofConfig := {|
    Tuning.SpoofProfile := Tuning.SpoofProfile s;
    Tuning.SpoofUplink := Tuning.SpoofUplink s;
    Tuning.SpoofDownlink := Tuning.SpoofDownlink s;
    Tuning.SpoofSrcIP := Tuning.SpoofSrcIP s;
    Tuning.SpoofSrcPool := kept_list (items (Tuning.SpoofSrcPool s));
    Tuning.SpoofPeerIP := Tuning.SpoofPeerIP s;
    Tuning.SpoofInterface := Tuning.SpoofInterface s;
    Tuning.SpoofXDPInterface := Tuning.SpoofXDPInterface s;
    Tuning.SpoofSockBuf := kept_num (Tuning.SpoofSockBuf s);
    Tuning.SpoofPeerSrcIP := Tuning.SpoofPeerSrcIP s;
    Tuning.SpoofICMPReply := Tuning.SpoofICMPReply s;
    Tuning.SpoofMTU := kept_num (Tuning.SpoofMTU s);
    Tuning.SpoofTTLJitter := Tuning.SpoofTTLJitter s;
    Tuning.SpoofRandomDSCP := Tuning.SpoofRandomDSCP s;
    Tuning.SpoofShufflePort := Tuning.SpoofShufflePort s;
    Tuning.SpoofPortMin := kept_num (Tuning.SpoofPortMin s);
    Tuning.SpoofPortMax := kept_num (Tuning.SpoofPortMax s);
    Tuning.SpoofPadding := Tuning.SpoofPadding s;
    Tuning.SpoofPaddingMax := kept_num (Tuning.SpoofPaddingMax s);
    Tuning.SpoofFakeTLS := Tuning.SpoofFakeTLS s
  |}.

Lemma str_read v : (match (if negb (String.eqb v "") then Some (Str v) else None) with Some (Str s) => s | _ => "" end) = v.
Proof. by destruct (String.eqb_spec v ""). Qed.

Lemma num_read v : (match (if 0 <? v then Some (Int v) else None) with Some (Int n) => n | _ => 0 end) = kept_num v.
Proof. unfold kept_num. by destruct (0 <? v). Qed.

Lemma flag_read (v : bool) : (match (if v then Some (Bool true) else None) with Some (Bool b) => b | _ => false end) = v.
Proof. by destruct v. Qed.

Lemma list_read v : (match (if (0 <? length v)%nat then Some (Strs (map TrimSpace v)) else None) with Some (Strs l) => Some l | _ => None end) = kept_list v.
Proof. unfold kept_list. by destruct (0 <? length v)%nat. Qed.

Ltac read_back :=
  read; first [apply str_read | apply num_read | apply flag_read | apply list_read | reflexivity].

Lemma decode_spoof_render s : decode_spoof (render s) = canon_spoof (Spoof s).
Proof. unfold decode_spoof, canon_spoof. f_equal; read_back. Qed.

Definition canon_pck (p : Tuning.PckConfig) : Tuning.PckConfig :=
  Tuning.mkPck (Tuning.PckInterface p) (Tuning.PckGatewayMAC p) (kept_list (items (Tuning.PckFlags p))).

(** What is read back of a file written from [s]. *)
Definition canon (s : l3Spec) : L3Cfg.L3Config :=
  let ports := (0 <? length (Ports s))%nat in
  let caps := ports && ((0 <? MaxConnections s) || (0 <? BandwidthMbps s)) in
  let fec := (0 <? FECData s) && (0 <? FECParity s) in
  let tuned := negb (String.eqb (Preset s) "") in
  {|
    L3Cfg.Mode := if is_iran (Side s) then "dial" else "listen";
    L3Cfg.Addr := Addr s;
    L3Cfg.Token := Token s;
    L3Cfg.Carrier := Carrier s;
    L3Cfg.Encap := "gre";
    L3Cfg.GREKey := GREKey s;
    L3Cfg.SNIDomain := if String.eqb (Carrier s) "sni" then SNIDomain s else "";
    L3Cfg.Iface := Iface s;
    L3Cfg.LocalIP := LocalIP s;
    L3Cfg.PeerIP := PeerIP s;
    L3Cfg.MTU := MTU s;
    L3Cfg.SockBuf := kept_num (SockBuf s);
    L3Cfg.FECData := if fec then FECData s else 0;
    L3Cfg.FECParity := if fec then FECParity s else 0;
    L3Cfg.Paths := if 1 <? Paths s then Paths s else 0;
    L3Cfg.Preset := Preset s;
    L3Cfg.TxQueueLen := if tuned then TxQueueLen s else 0;
    L3Cfg.Qdisc := if tuned then Qdisc s else "";
    L3Cfg.AutoMTU := if match AutoMTU s with Some b => negb b | None => false end then Some false else None;
    L3Cfg.MSSClamp := MSSClamp s;
    L3Cfg.Ports := kept_list (Ports s);
    L3Cfg.AcceptUDP := ports && AcceptUDP s;
    L3Cfg.MaxConnections := if caps then MaxConnections s else 0;
    L3Cfg.BandwidthMbps := if caps then BandwidthMbps s else 0;
    L3Cfg.Spoof := canon_spoof (Spoof s);
    L3Cfg.Pck := canon_pck (Pck s)
  |}.

Lemma decode_render s : decode (render s) = canon s.
Proof.
  unfold decode, canon. cbv zeta. f_equal; try (read; reflexivity).
  - read. by destruct (Z.eqb_spec (GREKey s) 0) as [->|].
  - read. by destruct (String.eqb_spec (Carrier s) "sni"), (String.eqb_spec (SNIDomain s) "").
  - read. apply num_read.
  - read. by destruct ((0 <? FECData s) && (0 <? FECParity s)).
  - read. by destruct ((0 <? FECData s) && (0 <? FECParity s)).
  - read. by destruct (1 <? Paths s).
  - read. by destruct (String.eqb_spec (Preset s) "").
  - read. by destruct (String.eqb_spec (Preset s) "").
  - read. by destruct (String.eqb_spec (Preset s) "").
  - read. by destruct (AutoMTU s) as [[]|].
  - read. by destruct (Z.eqb_spec (MSSClamp s) 0) as [->|].
  - read. apply list_read.
  - read. by destruct ((0 <? length (Ports s))%nat).
  - read. by destruct ((0 <? length (Ports s))%nat), (0 <? MaxConnections s), (0 <? BandwidthMbps s).
  - read. by destruct ((0 <? length (Ports s))%nat), (0 <? MaxConnections s), (0 <? BandwidthMbps s).
  - apply decode_spoof_render.
  - unfold decode_pck, canon_pck. f_equal; read_back.
Qed.

End DirectSpec.
