(* ===== verification/DirectPanel.v ===== *)
(** Direct (layer-3) tunnels as the management screens make and change them
    ([internal/manage/directwebapi.go], [l3preset.go], [directsetup.go]):
    - Module [Presets]: the named tunings;
    - Module [Box]: what a machine already has: names, devices and subnets in
      use, and those still free;
    - Module [Form]: creating a tunnel from a filled form, and what is left to
      the engine to check;
    - Module [Edit]: changing one, and what a change leaves alone;
    - Module [Drawer]: the settings of the forged-source carrier, shown and
      saved again. *)

From Stdlib Require Import Ascii String.
From S2P Require Import Prelude GoStr Spoof L3Encap L3Fec L3Path Ports GoNet Settings Checks Startup DirectFile.
Import GoStr GoNet.
Open Scope string_scope.
Open Scope list_scope.
Open Scope Z_scope.

Module Presets.
Import DirectSpec.

Definition PresetBalance : string := "balance".
Definition PresetTurbo : string := "turbo".
Definition PresetAggressive : string := "aggressive".

Record l3Preset : Type := mkPreset { PName : string; PTxQueueLen : Z; PSockBuf : Z; PQdisc : string }.

Definition l3Presets : list l3Preset :=
  [mkPreset PresetBalance 1024 (Z.shiftl 4 20) "fq_codel";
   mkPreset PresetTurbo 4096 (Z.shiftl 8 20) "fq_codel";
   mkPreset PresetAggressive 16384 (Z.shiftl 32 20) "fq_codel"].

Definition turbo : l3Preset := mkPreset PresetTurbo 4096 (Z.shiftl 8 20) "fq_codel".

Definition findL3Preset (name : string) : l3Preset :=
  default turbo (List.find (λ p, String.eqb (PName p) name) l3Presets).

(** [apply]. *)
Definition apply (p : l3Preset) (s : l3Spec) : l3Spec := {|
    Name := Name s;
    Side := Side s;
    Carrier := Carrier s;
    SNIDomain := SNIDomain s;
    Encap := Encap s;
    GREKey := GREKey s;
    Addr := Addr s;
    Token := Token s;
    Iface := Iface s;
    LocalIP := LocalIP s;
    PeerIP := PeerIP s;
    MTU := MTU s;
    AutoMTU := AutoMTU s;
    SockBuf := PSockBuf p;
    FECData := FECData s;
    FECParity := FECParity s;
    Paths := Paths s;
    MSSClamp := MSSClamp s;
    Preset := PName p;
    TxQueueLen := PTxQueueLen p;
    Qdisc := PQdisc p;
    Ports := Ports s;
    AcceptUDP := AcceptUDP s;
    MaxConnections := MaxConnections s;
    BandwidthMbps := BandwidthMbps s;
    Spoof := Spoof s;
    Pck := Pck s
  |}.

(** A preset is one of the three, whatever name is asked for. *)
Lemma findL3Preset_known name : findL3Preset name ∈ l3Presets.
Proof.
  unfold findL3Preset. destruct (List.find _ l3Presets) as [p|] eqn:E; [|apply list_elem_of_further, list_elem_of_here].
  apply List.find_some in E as [H _]. by apply list_elem_of_In.
Qed.

End Presets.

Module Box.
Import DirectSpec.

(** The machine as the screens see it: its tunnels by name, with the layer-3
    table of those that have one, and what each device or name looks like. *)
Record box : Type := mkBox { files : list (string * option L3Cfg.L3Config); hst : host }.

Definition name_char (c : ascii) : bool :=
  let n := Z.of_nat (nat_of_ascii c) in
  ((65 <=? n) && (n <=? 90)) || ((97 <=? n) && (n <=? 122)) || ((48 <=? n) && (n <=? 57)) ||
  Ascii.eqb c "." || Ascii.eqb c "_" || Ascii.eqb c "-".

Definition validName (name : string) : bool :=
  (1 <=? String.length name)%nat && (String.length name <=? 40)%nat && forallb name_char (list_ascii_of_string name).

Definition fileExists (b : box) (name : string) : bool := existsb (λ f, String.eqb (fst f) name) (files b).

(** [uniqueName] with the lines still to be typed; a console that has none left
    answers with nothing every time. [None] is a loop that has not ended. *)
Fixpoint uniqueName (b : box) (fuel : nat) (typed : list string) (name : string) : option string :=
  match fuel with
  | O => None
  | S fuel =>
      if negb (validName name) || fileExists b name then uniqueName b fuel (tail typed) (default "" (head typed)) else Some name
  end.

(** The layer-3 tables that name an engine. *)
Definition l3_tables (b : box) : list L3Cfg.L3Config := filter (λ l, L3Cfg.Enabled l = true) (omap snd (files b)).

(** [fmt.Sprintf] of a prefix and a number, the first of 256 not in [used]. *)
Definition first_free (used : list string) (name : Z → string) : option Z :=
  List.find (λ n, negb (existsb (String.eqb (name n)) used)) (map Z.of_nat (seq 0 256)).

Definition bp (i : Z) : string := "bp" +:+ Itoa i.

Definition freeL3Iface (b : box) : string :=
  match first_free (map (λ l, orDefault (L3Cfg.Iface l) "bp0") (l3_tables b)) bp with Some i => bp i | None => "bp0" end.

Definition l3Block (addr : string) : string :=
  let t := TrimSpace addr in
  let a := match Cut t "/" with Some (x, _) => x | None => t end in
  match cut_last a "." with Some (x, _) => x +:+ "." | None => "" end.

Definition block (n : Z) : string := "10.10." +:+ Itoa n +:+ ".".

Definition used_blocks (b : box) : list string :=
  concat (map (λ l, [l3Block (L3Cfg.LocalIP l); l3Block (L3Cfg.PeerIP l)]) (l3_tables b)).

Definition ends_of (side : directSide) (n : Z) : string * string :=
  if is_iran side then (block n +:+ "1/30", block n +:+ "2") else (block n +:+ "2/30", block n +:+ "1").

Definition freeL3Subnet (b : box) (side : directSide) : string * string :=
  ends_of side (default 0 (first_free (used_blocks b) block)).

(** ** Lemmas *)

Lemma uniqueName_free b fuel typed name :
  validName name = true → fileExists b name = false → uniqueName b (S fuel) typed name = Some name.
Proof. cbn [uniqueName]. by intros -> ->. Qed.

(** Whatever it answers is a name a file can be given. *)
Lemma uniqueName_sound b fuel : ∀ typed name n, uniqueName b fuel typed name = Some n → validName n = true ∧ fileExists b n = false.
Proof.
  induction fuel as [|fuel IH]; [done|]. intros typed name n. cbn [uniqueName].
  destruct (validName name) eqn:Ev, (fileExists b name) eqn:Ef; cbn [negb orb]; try apply IH. by intros [= <-].
Qed.

Lemma uniqueName_blank b fuel : uniqueName b fuel [] "" = None.
Proof. induction fuel as [|fuel IH]; [done|]. cbn [uniqueName]. change (validName "") with false. apply IH. Qed.

(** With nobody to type, a name that is taken is asked about for ever. *)
Lemma uniqueName_spins b fuel name : fileExists b name = true → uniqueName b fuel [] name = None.
Proof. intros H. destruct fuel as [|fuel]; [done|]. cbn [uniqueName]. rewrite H, orb_true_r. apply uniqueName_blank. Qed.

Lemma first_free_Some used name n : first_free used name = Some n → 0 ≤ n < 256 ∧ name n ∉ used.
Proof.
  unfold first_free. intros [Hin Hn]%List.find_some. split.
  - apply in_map_iff in Hin as (k & <- & Hk%in_seq). lia.
  - apply negb_true_iff in Hn. intros Hu. apply not_true_iff_false in Hn. apply Hn.
    apply existsb_exists. exists (name n). split; [by apply list_elem_of_In|apply String.eqb_refl].
Qed.

Lemma first_free_None used name : (∀ m n, 0 ≤ m < 256 → 0 ≤ n < 256 → name m = name n → m = n) →
  first_free used name = None → (256 ≤ length used)%nat.
Proof.
  unfold first_free. intros Hinj H.
  set (l := map name (map Z.of_nat (seq 0 256))).
  assert (NoDup l) as Hd.
  { unfold l. apply NoDup_fmap_2_strong; [|apply NoDup_fmap_2; [exact Nat2Z.inj|apply NoDup_seq]].
    intros x y Hx Hy. apply list_elem_of_In, in_map_iff in Hx as (i & <- & Hi%in_seq).
    apply list_elem_of_In, in_map_iff in Hy as (j & <- & Hj%in_seq). apply Hinj; lia. }
  assert (l ⊆ used) as Hsub.
  { intros x Hx. unfold l in Hx. apply list_elem_of_In, in_map_iff in Hx as (n & <- & Hn).
    pose proof (List.find_none _ _ H n Hn) as Hf. apply negb_false_iff, existsb_exists in Hf as (y & Hy & ->%String.eqb_eq).
    by apply list_elem_of_In. }
  replace 256%nat with (length l) by (unfold l; by rewrite !length_map, length_seq).
  apply NoDup_submseteq in Hsub; [|done]. by apply submseteq_length.
Qed.

End Box.

Module Free.
Import DirectSpec Box.

Lemma Itoa_byte_inj m n : 0 ≤ m < 256 → 0 ≤ n < 256 → Itoa m = Itoa n → m = n.
Proof. intros Hm Hn E. apply (f_equal Atoi) in E. rewrite !Atoi_Itoa in E by lia. by injection E. Qed.

Lemma bp_inj m n : 0 ≤ m < 256 → 0 ≤ n < 256 → bp m = bp n → m = n.
Proof. intros Hm Hn E%append_inv_l. by apply Itoa_byte_inj. Qed.

Lemma append_cancel_r a b s : a +:+ s = b +:+ s → a = b.
Proof. intros H. apply (f_equal list_ascii_of_string) in H. rewrite !list_ascii_app in H. apply app_inv_tail in H.
  apply (f_equal string_of_list_ascii) in H. by rewrite !string_of_list_ascii_of_string in H. Qed.

Lemma block_inj m n : 0 ≤ m < 256 → 0 ≤ n < 256 → block m = block n → m = n.
Proof. intros Hm Hn E%append_inv_l%append_cancel_r. by apply Itoa_byte_inj. Qed.

(** What the two ends of a block are: addresses the engine takes, in one block
    of their own, each side's the other's the other way round. *)
Definition ends_ok (n : Z) : bool :=
  let '(l, p) := ends_of sideIran n in
  let '(l', p') := ends_of sideKharej n in
  forallb (λ a, String.eqb (l3Block a) (block n)) [l; p; l'; p'] &&
  ParseCIDR l && ParseCIDR l' && bool_decide (is_Some (ParseIP p)) && bool_decide (is_Some (ParseIP p')) &&
  forallb (contains_char "/") [l; l'] && forallb (λ a, negb (contains_char "/" a)) [p; p'] &&
  forallb (λ a, String.eqb (TrimSpace a) a && negb (String.eqb a "")) [l; p; l'; p'] &&
  String.eqb l (p' +:+ "/30") && String.eqb l' (p +:+ "/30").

Lemma all_ends : forallb ends_ok (map Z.of_nat (seq 0 256)) = true.
Proof. by vm_compute. Qed.

Lemma ends_of_ok n : 0 ≤ n < 256 → ends_ok n = true.
Proof.
  intros H. apply (proj1 (forallb_forall _ _) all_ends). apply in_map_iff. exists (Z.to_nat n). split; [lia|]. apply in_seq. lia.
Qed.

Record pair_ok (side : directSide) (n : Z) : Prop := {
  p_local : L3Checks.validateTunnelAddr "local_ip" (fst (ends_of side n)) true = Ok tt;
  p_peer : L3Checks.validateTunnelAddr "peer_ip" (snd (ends_of side n)) false = Ok tt;
  p_blocks : l3Block (fst (ends_of side n)) = block n ∧ l3Block (snd (ends_of side n)) = block n;
  p_set : snd (ends_of side n) ≠ "";
  p_mirror : fst (ends_of sideIran n) = snd (ends_of sideKharej n) +:+ "/30" ∧ fst (ends_of sideKharej n) = snd (ends_of sideIran n) +:+ "/30"
}.

Lemma addr_plain field a allow : TrimSpace a = a → a ≠ "" →
  (contains_char "/" a = true → allow = true ∧ ParseCIDR a = true) → (contains_char "/" a = false → is_Some (ParseIP a)) →
  L3Checks.validateTunnelAddr field a allow = Ok tt.
Proof.
  intros Ht Hn Hc Hp. unfold L3Checks.validateTunnelAddr. rewrite Ht, (proj2 (String.eqb_neq _ _)) by done.
  destruct (contains_char "/" a); [destruct Hc as [-> ->]; done|destruct Hp as [? ->]; done].
Qed.

Lemma ends_pair side n : 0 ≤ n < 256 → pair_ok side n.
Proof.
  intros H%ends_of_ok. unfold ends_ok in H. destruct (ends_of sideIran n) as [l p] eqn:E1, (ends_of sideKharej n) as [l' p'] eqn:E2.
  repeat (apply andb_true_iff in H as [H ?]). cbn [forallb] in *. rewrite !andb_true_iff, !String.eqb_eq, ?negb_true_iff, ?String.eqb_neq, ?bool_decide_eq_true in *.
  destruct_and!. destruct side; rewrite ?E1, ?E2; split; rewrite ?E1, ?E2; cbn [fst snd]; try done.
  all: apply addr_plain; intros; first [done | congruence | split; done].
Qed.

(** With fewer than 128 layer-3 tunnels on the machine, the device and the
    subnet offered for the next are used by none of them, the engine takes both
    addresses, and the two sides of one block are each other's, the other way
    round. *)
Theorem fresh_network b side (H : (length (l3_tables b) < 128)%nat) :
  (∀ l, l ∈ l3_tables b → freeL3Iface b ≠ orDefault (L3Cfg.Iface l) "bp0") ∧
  (∀ l a, l ∈ l3_tables b → a ∈ [L3Cfg.LocalIP l; L3Cfg.PeerIP l] →
    l3Block (fst (freeL3Subnet b side)) ≠ l3Block a ∧ l3Block (snd (freeL3Subnet b side)) ≠ l3Block a) ∧
  (∃ n, 0 ≤ n < 256 ∧ freeL3Subnet b side = ends_of side n ∧ pair_ok side n).
Proof.
  split; [|assert (∃ n, first_free (used_blocks b) block = Some n) as [n Hn]].
  - intros l Hl. unfold freeL3Iface. set (used := map _ _). destruct (first_free used bp) as [i|] eqn:E.
    + apply first_free_Some in E as [_ Hf]. intros Heq. apply Hf. rewrite Heq. unfold used. by apply (list_elem_of_fmap_2 (λ x, orDefault (L3Cfg.Iface x) "bp0")).
    + apply first_free_None in E; [|exact bp_inj]. unfold used in E. rewrite length_map in E. lia.
  - destruct (first_free (used_blocks b) block) as [n|] eqn:E; [by exists n|].
    apply first_free_None in E; [|exact block_inj]. unfold used_blocks in E.
    assert (∀ k, length (concat (map (λ l, [l3Block (L3Cfg.LocalIP l); l3Block (L3Cfg.PeerIP l)]) k)) = (2 * length k)%nat) as Hc.
    { induction k as [|x k IH]; [done|]. cbn [map concat]. rewrite length_app, IH. cbn [length]. lia. }
    rewrite Hc in E. lia.
  - unfold freeL3Subnet. rewrite Hn. cbn [default]. unfold id. apply first_free_Some in Hn as [Hr Hf]. pose proof (ends_pair side n Hr) as Hp.
    split; [|by exists n]. intros l a Hl Ha. destruct (p_blocks _ _ Hp) as [-> ->].
    assert (block n ≠ l3Block a) as Hne; [|by split]. intros Heq. apply Hf. rewrite Heq. unfold used_blocks.
    apply list_elem_of_In, in_concat. exists [l3Block (L3Cfg.LocalIP l); l3Block (L3Cfg.PeerIP l)]. split.
    + apply in_map_iff. exists l. split; [done|]. by apply list_elem_of_In.
    + apply elem_of_cons in Ha as [-> | ->%list_elem_of_singleton]; [by left|right; by left].
Qed.

(** A machine with the first device and subnet taken. *)
Definition one_tunnel : box :=
  mkBox [("l3-kharej-9000", Some (decode [("mode", Toml.Str "listen"); ("local_ip", Toml.Str "10.10.0.2/30"); ("peer_ip", Toml.Str "10.10.0.1")]))] Defaults.linux_host.

Lemma fresh_network_witness : length (l3_tables one_tunnel) = 1%nat ∧ freeL3Iface one_tunnel = "bp1" ∧
  freeL3Subnet one_tunnel sideIran = ("10.10.1.1/30", "10.10.1.2") ∧
  ∃ n, 0 ≤ n < 256 ∧ freeL3Subnet one_tunnel sideIran = ends_of sideIran n ∧ pair_ok sideIran n.
Proof.
  split; [by vm_compute|]. split; [by vm_compute|]. split; [by vm_compute|].
  refine (proj2 (proj2 (fresh_network one_tunnel sideIran _))). apply Nat.ltb_lt. by vm_compute.
Defined.

End Free.

Module Form.
Import DirectSpec Box Presets.

Record NewDirectTunnel : Type := mkForm {
  FSide : string;
  FCarrier : string;
  FName : string;
  FToken : string;
  PeerAddr : string;
  TunnelPort : string;
  FPorts : string;
  FAcceptUDP : bool;
  FLocalIP : string;
  FPeerIP : string;
  FPreset : string;
  FSpoof : option SpoofTune.SpoofTune;
  Stealth : bool;
  FPaths : Z;
  FEC : bool;
  FSpoofPeerIP : string;
  FSNIDomain : string;
  FGREKey : Z;
  FMaxConnections : Z;
  FBandwidthMbps : Z
}.

Inductive error : Type :=
  | UnknownSide | NotOffered (carrier : string) | NotAPort (port : string) | BadName (name : string) | StillAsking
  | NeedsToken | NeedsAddress | NeedsPorts | RefusedPorts (spec : string) | BadDrawer (e : SpoofTune.error)
  | NotAnIP (ip : string) | NeedsPeer.

Definition carrierNames : list string := ["pck"; "udp"; "quic"; "sni"; "spoof"; "xdi"].
Definition offeredCarrier (name : string) : bool := bool_decide (name ∈ carrierNames).

Definition defaultL3MTU : Z := 1400.
(** [defaultL3FEC]. *)
Definition fecData : Z := 10.
Definition fecParity : Z := 3.

Definition drawer {A} (r : result SpoofTune.error A) : result error A := match r with Ok a => Ok a | Err e => Err (BadDrawer e) end.

Definition is_ip (s : string) : bool := match ParseIP s with Some _ => true | None => false end.

(** What the form says of the forged-source carrier. *)
Definition spoof_of (b : box) (side : directSide) (n : NewDirectTunnel) : result error Tuning.SpoofConfig :=
  let? s := match FSpoof n with Some t => drawer (SpoofTune.apply (hst b) t Tuning.no_spoof) | None => Ok Tuning.no_spoof end in
  let ip := TrimSpace (FSpoofPeerIP n) in
  let? s := if String.eqb ip "" then Ok s else if is_ip ip then Ok (SpoofTune.with_peer_ip s ip) else Err (NotAnIP ip) in
  let s := if Stealth n then SpoofTune.applySpoofStealth s else s in
  let? _ := require (is_iran side || is_ip (Tuning.SpoofPeerIP s)) NeedsPeer in
  Ok s.

Definition the_side (raw : string) : option directSide :=
  let s := ToLower (TrimSpace raw) in
  if String.eqb s "iran" then Some sideIran else if String.eqb s "kharej" then Some sideKharej else None.

(** [spec]. *)
Definition spec (b : box) (fuel : nat) (typed : list string) (n : NewDirectTunnel) : result error l3Spec :=
  match the_side (FSide n) with
  | None => Err UnknownSide
  | Some side =>
      let carrier := or_string (ToLower (TrimSpace (FCarrier n))) "pck" in
      let? _ := require (offeredCarrier carrier) (NotOffered (FCarrier n)) in
      let port := TrimSpace (TunnelPort n) in
      let? _ := require (Spec.ValidPort port) (NotAPort (TunnelPort n)) in
      let name := or_string (TrimSpace (FName n)) ("l3-" +:+ side_String side +:+ "-" +:+ port) in
      let? _ := require (validName name) (BadName name) in
      let? name := match uniqueName b fuel typed name with Some name => Ok name | None => Err StillAsking end in
      let token := TrimSpace (FToken n) in
      let? _ := require (negb (String.eqb token "")) NeedsToken in
      let host := TrimSpace (PeerAddr n) in
      let? addr :=
        if is_iran side then
          if String.eqb host "" then Err NeedsAddress else Ok (Net.JoinHostPort host port)
        else Ok (Net.JoinHostPort "0.0.0.0" port) in
      let local := TrimSpace (FLocalIP n) in
      let peer := TrimSpace (FPeerIP n) in
      let '(local, peer) := if String.eqb local "" || String.eqb peer "" then freeL3Subnet b side else (local, peer) in
      let? ports :=
        if is_iran side then
          let ports := Spec.ParsePorts (FPorts n) in
          let? _ := require (negb (length ports =? 0)%nat) NeedsPorts in
          match Spec.ValidatePortSpecs ports with Some p => Err (RefusedPorts p) | None => Ok ports end
        else Ok [] in
      let? spoof := if String.eqb carrier "spoof" then spoof_of b side n else Ok Tuning.no_spoof in
      Ok (apply (findL3Preset (ToLower (TrimSpace (FPreset n)))) {|
        Name := name;
        Side := side;
        Carrier := carrier;
        SNIDomain := ToLower (TrimSpace (FSNIDomain n));
        Encap := "gre";
        GREKey := FGREKey n;
        Addr := addr;
        Token := token;
        Iface := freeL3Iface b;
        LocalIP := local;
        PeerIP := peer;
        MTU := defaultL3MTU;
        AutoMTU := None;
        SockBuf := 0;
        FECData := if FEC n then fecData else 0;
        FECParity := if FEC n then fecParity else 0;
        Paths := if 1 <? FPaths n then FPaths n else 0;
        MSSClamp := 0;
        Preset := "";
        TxQueueLen := 0;
        Qdisc := "";
        Ports := ports;
        AcceptUDP := is_iran side && FAcceptUDP n;
        MaxConnections := FMaxConnections n;
        BandwidthMbps := FBandwidthMbps n;
        Spoof := spoof;
        Pck := Tuning.no_pck
      |})
  end.

(** ** Lemmas *)

(** What the form makes sure of. *)
Record filled (s : l3Spec) : Prop := {
  f_carrier : Carrier s ∈ carrierNames;
  f_token : TrimSpace (Token s) ≠ "" ∧ TrimSpace (Token s) = Token s;
  f_name : validName (Name s) = true;
  f_addr : Addr s ≠ "";
  f_iface : Iface s ≠ "";
  f_fec : (FECData s, FECParity s) = (0, 0) ∨ (FECData s, FECParity s) = (fecData, fecParity);
  f_paths : Paths s = 0 ∨ 1 < Paths s;
  f_mtu : MTU s = defaultL3MTU ∧ AutoMTU s = None ∧ MSSClamp s = 0;
  f_preset : ∃ p, p ∈ l3Presets ∧ (Preset s, TxQueueLen s, SockBuf s, Qdisc s) = (PName p, PTxQueueLen p, PSockBuf p, PQdisc p);
  f_ports : if is_iran (Side s) then Ports s ≠ [] ∧ Spec.ValidatePortSpecs (Ports s) = None ∧ map TrimSpace (Ports s) = Ports s else Ports s = [];
  f_peer : Carrier s = "spoof" → Side s = sideKharej → Tuning.SpoofPeerIP (Spoof s) ≠ "";
  f_udp : is_iran (Side s) = false → AcceptUDP s = false
}.

Lemma ParsePorts_trimmed raw : map TrimSpace (Spec.ParsePorts raw) = Spec.ParsePorts raw ∧ Forall (λ p, p ≠ "") (Spec.ParsePorts raw).
Proof.
  unfold Spec.ParsePorts. induction (Split raw ",") as [|x l [IH1 IH2]]; [by split|]. cbn [map].
  destruct (decide (TrimSpace x = "")) as [E|E].
  - rewrite filter_cons_False by (intros H; by apply H). by split.
  - rewrite filter_cons_True by done. cbn [map]. rewrite IH1, TrimSpace_idem. split; [done|]. by constructor.
Qed.

Lemma JoinHostPort_set h p : Net.JoinHostPort h p ≠ "".
Proof. unfold Net.JoinHostPort. destruct (contains_char ":" h); [done|]. by destruct h. Qed.

Lemma freeL3Iface_set b : freeL3Iface b ≠ "".
Proof. unfold freeL3Iface. by destruct (first_free _ bp). Qed.

Lemma spoof_of_peer b side n s : spoof_of b side n = Ok s → is_iran side = false → Tuning.SpoofPeerIP s ≠ "".
Proof.
  unfold spoof_of. intros H E. apply bind_Ok in H as (s1 & _ & H). apply bind_Ok in H as (s2 & _ & H).
  apply bind_Ok in H as ([] & H1%require_Ok & [= <-]). rewrite E in H1. cbn [orb] in H1. intros E2. rewrite E2 in H1. done.
Qed.

Lemma spec_filled b fuel typed n s : spec b fuel typed n = Ok s → filled s.
Proof.
  unfold spec. destruct (the_side (FSide n)) as [side|]; [|done]. intros H.
  apply bind_Ok in H as ([] & Hk%require_Ok & H). apply bind_Ok in H as ([] & _ & H). apply bind_Ok in H as ([] & _ & H).
  apply bind_Ok in H as (name & Hn & H). apply bind_Ok in H as ([] & Ht%require_Ok & H). apply bind_Ok in H as (addr & Ha & H).
  destruct (if _ || _ then freeL3Subnet b side else _) as [local peer].
  apply bind_Ok in H as (ports & Hp & H). apply bind_Ok in H as (spoof & Hs & [= <-]).
  destruct (uniqueName b fuel typed _) as [nm|] eqn:En; [|done]. injection Hn as <-. apply uniqueName_sound in En as [Hv _].
  pose proof (findL3Preset_known (ToLower (TrimSpace (FPreset n)))) as Hpre. revert Hpre. generalize (findL3Preset (ToLower (TrimSpace (FPreset n)))). intros p Hpre.
  split; cbn [apply Side Carrier Token Name Addr Iface FECData FECParity Paths MTU AutoMTU MSSClamp Preset TxQueueLen SockBuf Qdisc Ports Spoof AcceptUDP].
  - by apply bool_decide_eq_true in Hk.
  - rewrite TrimSpace_idem. split; [|done]. apply negb_true_iff in Ht. by apply String.eqb_neq.
  - exact Hv.
  - destruct (is_iran side); [destruct (String.eqb (TrimSpace (PeerAddr n)) ""); [done|]|]; injection Ha as <-; apply JoinHostPort_set.
  - apply freeL3Iface_set.
  - destruct (FEC n); [by right|by left].
  - destruct (Z.ltb_spec 1 (FPaths n)); [by right|by left].
  - done.
  - by exists p.
  - destruct (is_iran side); [|congruence]. apply bind_Ok in Hp as ([] & Hl%require_Ok & Hp).
    destruct (Spec.ValidatePortSpecs (Spec.ParsePorts (FPorts n))) eqn:E; [done|]. injection Hp as <-.
    split_and!; [by destruct (Spec.ParsePorts (FPorts n))|exact E|apply ParsePorts_trimmed].
  - intros E ->. rewrite E in Hs. by apply (spoof_of_peer _ _ _ _ Hs).
  - by intros ->.
Qed.

(** What each field of the form becomes. *)
Record made_of (b : box) (n : NewDirectTunnel) (s : l3Spec) : Prop := {
  m_side : the_side (FSide n) = Some (Side s);
  m_carrier : Carrier s = or_string (ToLower (TrimSpace (FCarrier n))) "pck";
  m_port : Spec.ValidPort (TrimSpace (TunnelPort n)) = true;
  m_addr : Addr s = Net.JoinHostPort (if is_iran (Side s) then TrimSpace (PeerAddr n) else "0.0.0.0") (TrimSpace (TunnelPort n));
  m_token : Token s = TrimSpace (FToken n);
  m_net : TrimSpace (FLocalIP n) ≠ "" → TrimSpace (FPeerIP n) ≠ "" → LocalIP s = TrimSpace (FLocalIP n) ∧ PeerIP s = TrimSpace (FPeerIP n);
  m_key : GREKey s = FGREKey n;
  m_sni : SNIDomain s = ToLower (TrimSpace (FSNIDomain n));
  m_paths : Paths s = if 1 <? FPaths n then FPaths n else 0;
  m_fec : (FECData s, FECParity s) = if FEC n then (fecData, fecParity) else (0, 0);
  m_ports : Ports s = if is_iran (Side s) then Spec.ParsePorts (FPorts n) else [];
  m_spoof : if String.eqb (Carrier s) "spoof" then spoof_of b (Side s) n = Ok (Spoof s) else Spoof s = Tuning.no_spoof
}.

Lemma spec_made b fuel typed n s : spec b fuel typed n = Ok s → made_of b n s.
Proof.
  unfold spec. destruct (the_side (FSide n)) as [side|] eqn:Eside; [|done]. intros H.
  apply bind_Ok in H as ([] & _ & H). apply bind_Ok in H as ([] & Hport%require_Ok & H). apply bind_Ok in H as ([] & _ & H).
  apply bind_Ok in H as (name & _ & H). apply bind_Ok in H as ([] & _ & H). apply bind_Ok in H as (addr & Ha & H).
  destruct (if _ || _ then freeL3Subnet b side else _) as [local peer] eqn:En.
  apply bind_Ok in H as (ports & Hp & H). apply bind_Ok in H as (spoof & Hs & [= <-]).
  split; cbn [apply Side Carrier Token Addr LocalIP PeerIP GREKey SNIDomain Paths FECData FECParity Ports Spoof]; try done.
  - destruct (is_iran side); [destruct (String.eqb (TrimSpace (PeerAddr n)) ""); [done|]|]; by injection Ha as <-.
  - intros H1 H2. rewrite (proj2 (String.eqb_neq _ _) H1), (proj2 (String.eqb_neq _ _) H2) in En. by injection En as <- <-.
  - by destruct (FEC n).
  - destruct (is_iran side); [|by injection Hp as <-]. apply bind_Ok in Hp as ([] & _ & Hp).
    destruct (Spec.ValidatePortSpecs (Spec.ParsePorts (FPorts n))); [done|]. by injection Hp as <-.
  - destruct (String.eqb (or_string (ToLower (TrimSpace (FCarrier n))) "pck") "spoof"); [exact Hs|by injection Hs as <-].
Qed.

(** What the form leaves to the engine to check. *)
Record runs (s : l3Spec) : Prop := {
  r_addr : is_Some (Net.SplitHostPort (Addr s)) ∧ TrimSpace (Addr s) ≠ "";
  r_local : L3Checks.validateTunnelAddr "local_ip" (LocalIP s) true = Ok tt;
  r_peer : PeerIP s ≠ "" → L3Checks.validateTunnelAddr "peer_ip" (PeerIP s) false = Ok tt;
  r_prefix : PeerIP s = "" → contains_char "/" (LocalIP s) = true;
  r_paths : Paths s ≤ 8 ∧ (1 < Paths s → Carrier s = "udp");
  r_ports : Ports s ≠ [] → ∃ ms, Portmap.Expand (Ports s) (PeerIP s) = Ok ms
}.

Lemma items_kept l : items (kept_list l) = map TrimSpace l.
Proof. unfold kept_list. by destruct l. Qed.

Lemma filled_ports s : filled s → map TrimSpace (Ports s) = Ports s.
Proof. intros [? ? ? ? ? ? ? ? ? Hp ? ?]. destruct (is_iran (Side s)); [apply Hp|by rewrite Hp]. Qed.

Lemma filled_written s flags : filled s → let c := Dispatch.l3_config (canon s) flags in
  (L3Checks.Mode c = if is_iran (Side s) then "dial" else "listen") ∧ L3Checks.Carrier c = Carrier s ∧
  L3Checks.FEC c = Fec.mkFEC (FECData s) (FECParity s) ∧ Multipath.Paths (L3Checks.Multipath c) = Paths s ∧
  L3Checks.TxQueueLen c = TxQueueLen s ∧ L3Checks.Qdisc c = Qdisc s ∧ L3Checks.Ports c = Ports s.
Proof.
  intros Hf c. subst c. cbn [Dispatch.l3_config canon L3Checks.Mode L3Checks.Carrier L3Checks.FEC L3Checks.Multipath L3Checks.TxQueueLen L3Checks.Qdisc L3Checks.Ports
    L3Cfg.Mode L3Cfg.Carrier L3Cfg.FECData L3Cfg.FECParity L3Cfg.Paths L3Cfg.TxQueueLen L3Cfg.Qdisc L3Cfg.Ports Multipath.Paths].
  rewrite items_kept, (filled_ports s Hf). destruct Hf as [_ _ _ _ _ Hfec Hpa _ (p & Hp & Hpre) _ _ _].
  injection Hpre as Hn -> _ ->.
  assert (negb (String.eqb (Preset s) "") = true) as -> by (rewrite Hn; by repeat (apply elem_of_cons in Hp as [->|Hp]; [done|]); apply elem_of_nil in Hp).
  split_and!; try done.
  - destruct Hfec as [[= -> ->]|[= -> ->]]; done.
  - destruct Hpa as [-> | H]; [done|]. by rewrite (proj2 (Z.ltb_lt _ _) H).
Qed.

Lemma filled_sound s flags : filled s → runs s → L3Checks.sound (Dispatch.l3_config (canon s) flags).
Proof.
  intros Hf Hr. pose proof (filled_written s flags Hf) as (Em & Ek & Ee & Ea & Eq & Ed & Ep).
  destruct Hf as [Hk [Ht _] _ _ Hi Hfec Hpa (Hm & _ & Hc) (p & Hp & Hpre) _ Hpeer _]. destruct Hr as [Ha Hl Hpi Hx Hpath Hports].
  injection Hpre as _ Ht1 _ Hq1.
  split; rewrite ?Em, ?Ek, ?Ee, ?Ea, ?Eq, ?Ed, ?Ep; try done.
  - destruct (is_iran (Side s)); auto.
  - revert Hk. unfold carrierNames. clear. intros H. repeat (apply elem_of_cons in H as [->|H]; [apply (bool_decide_unpack _); by vm_compute|]). by apply elem_of_nil in H.
  - intros E1 E2. apply Hpeer; [done|]. by destruct (Side s).
  - destruct Hfec as [[= -> ->]|[= -> ->]]; done.
  - split; [lia|]. apply Hpath.
  - rewrite Ht1. revert Hp. clear. intros H. repeat (apply elem_of_cons in H as [->|H]; [cbn; lia|]). by apply elem_of_nil in H.
  - rewrite Hq1. revert Hp. clear. intros H. repeat (apply elem_of_cons in H as [->|H]; [done|]). by apply elem_of_nil in H.
  - cbn. rewrite Hm. unfold L3Checks.minMTU, L3Checks.maxMTU, defaultL3MTU. lia.
  - cbn. rewrite Hm, Hc. right. unfold defaultL3MTU, MssClamp.OverheadV4. lia.
Qed.

Lemma Validate_keeps c c' : L3Checks.Validate c = Ok c' →
  L3Checks.Addr c' = L3Checks.Addr c ∧ L3Checks.LocalIP c' = L3Checks.LocalIP c ∧ L3Checks.PeerIP c' = L3Checks.PeerIP c ∧
  L3Checks.Multipath c' = L3Checks.Multipath c ∧ L3Checks.Ports c' = L3Checks.Ports c ∧
  L3Checks.Carrier c' = or_string (ToLower (TrimSpace (L3Checks.Carrier c))) L3Checks.CarrierUDP.
Proof. unfold L3Checks.Validate. intros H. repeat (apply bind_Ok in H as (? & _ & H)). by injection H as <-. Qed.

Lemma carrier_plain c : c ∈ carrierNames → or_string (ToLower (TrimSpace c)) L3Checks.CarrierUDP = c.
Proof. unfold carrierNames. intros H. repeat (apply elem_of_cons in H as [->|H]; [done|]). by apply elem_of_nil in H. Qed.

Lemma sound_runs s flags c' : filled s → L3Checks.Validate (Dispatch.l3_config (canon s) flags) = Ok c' → runs s.
Proof.
  intros Hf Hv. pose proof (filled_written s flags Hf) as (Em & Ek & Ee & Ea & Eq & Ed & Ep).
  pose proof (L3Checks.l3_sound _ _ Hv) as [_ Ha _ _ _ _ _ Hpa _ Hl Hpi Hx _ _ _ _ Hpo].
  apply Validate_keeps in Hv as (E1 & E2 & E3 & E4 & E5 & E6). rewrite E1, E2, E3, E4, E5, E6, Ek, Ea, Ep in *.
  rewrite (carrier_plain _ (f_carrier s Hf)) in Hpa. split; try done. by destruct Hpa as [[_ ?] ?].
Qed.

Lemma ValidPort_split port : Spec.ValidPort port = true →
  Net.SplitHostPort (Net.JoinHostPort "0.0.0.0" port) = Some ("0.0.0.0", port) ∧ TrimSpace (Net.JoinHostPort "0.0.0.0" port) ≠ "".
Proof.
  intros [n (_ & _ & Hne & Hc)]%Readers.ValidPort_value.
  change (Net.JoinHostPort "0.0.0.0" port) with ("0.0.0.0" +:+ String ":" port). split.
  - unfold Net.SplitHostPort. rewrite cut_last_app by (by apply Readers.port_free). cbn [contains_char append].
    assert (∀ c, Readers.port_char c = false → contains_char c port = false) as Hno by (intros; by apply contains_free, Readers.port_free).
    cbn. by rewrite !Hno.
  - rewrite TrimSpace_printable; [done|]. apply all_chars_app. split; [by repeat constructor|]. apply all_chars_cons. split; [done|]. by apply Readers.port_printable.
Qed.

(** What is written is what runs. *)
Lemma runs_as_written s flags c' : filled s → L3Checks.Validate (Dispatch.l3_config (canon s) flags) = Ok c' →
  c' = Dispatch.l3_config (canon s) flags ∧ runs s.
Proof.
  intros Hf Hv. pose proof (sound_runs _ _ _ Hf Hv) as Hs. split; [|done].
  rewrite (L3Checks.l3_fixed _ (filled_sound s flags Hf Hs)) in Hv. by injection Hv as <-.
Qed.

(** A subnet that was left to the panel is one the engine takes. *)
Lemma free_subnet_runs b side : ∃ n, 0 ≤ n < 256 ∧ freeL3Subnet b side = ends_of side n ∧ Free.pair_ok side n.
Proof.
  unfold freeL3Subnet. destruct (first_free (used_blocks b) block) as [n|] eqn:E; cbn [default]; unfold id.
  - apply first_free_Some in E as [H _]. exists n. split_and!; try done; try lia. by apply Free.ends_pair.
  - exists 0. split_and!; try done; try lia. by apply Free.ends_pair.
Qed.

(** A far end whose addresses were left to the panel needs nothing more. *)
Lemma far_end_runs b fuel typed n s : spec b fuel typed n = Ok s → Side s = sideKharej → TrimSpace (FLocalIP n) = "" → FPaths n ≤ 1 → runs s.
Proof.
  intros H Hs Hl Hp. revert H. unfold spec. destruct (the_side (FSide n)) as [side|]; [|done]. rewrite Hl. cbn [String.eqb orb].
  destruct (free_subnet_runs b side) as (k & Hk & E & [H1 H2 _ H3 _]). rewrite E. destruct (ends_of side k) as [local peer]. cbn [fst snd] in *. intros H.
  apply bind_Ok in H as ([] & _ & H). apply bind_Ok in H as ([] & Hport%require_Ok & H). apply bind_Ok in H as ([] & _ & H).
  apply bind_Ok in H as (name & _ & H). apply bind_Ok in H as ([] & _ & H). apply bind_Ok in H as (addr & Ha & H).
  apply bind_Ok in H as (ports & Hpo & H). apply bind_Ok in H as (spoof & _ & [= <-]). cbn [apply Side] in Hs. subst side. cbn [is_iran] in *.
  injection Ha as <-. injection Hpo as <-. apply ValidPort_split in Hport as [Hport Hne].
  split; cbn [apply Addr LocalIP PeerIP Paths Carrier Ports]; try done.
  rewrite (proj2 (Z.ltb_ge 1 (FPaths n))) by lia. by split.
Qed.

(** C25: a form that is accepted is one the engine opens exactly when its address
    splits, its tunnel addresses parse, its sockets fit the carrier and its ports
    expand; nothing the engine would fill in is left out of the file; and the far
    end needs only its address, port and token for that. *)
Theorem form_runs b fuel typed n s flags (H : spec b fuel typed n = Ok s) :
  let c := Dispatch.l3_config (decode (render s)) flags in
  (runs s → L3Checks.Validate c = Ok c) ∧
  (∀ c', L3Checks.Validate c = Ok c' → c' = c ∧ runs s) ∧
  (Side s = sideKharej → TrimSpace (FLocalIP n) = "" → FPaths n ≤ 1 → runs s).
Proof.
  pose proof (spec_filled _ _ _ _ _ H) as Hf. cbv zeta. rewrite decode_render.
  split_and!; [|intros c'; by apply runs_as_written|exact (far_end_runs _ _ _ _ _ H)].
  intros Hr. apply L3Checks.l3_fixed. by apply filled_sound.
Qed.

(** A far end on an empty machine, and one whose sockets do not fit. *)
Definition bare_box : box := mkBox [] Defaults.linux_host.
Definition bare_form (side carrier host ports local peer : string) (paths : Z) (fec : bool) : NewDirectTunnel :=
  mkForm side carrier "" " secret " host "9000" ports false local peer "" None false paths fec "" "" 0 0 0.

Lemma form_runs_witness : ∃ s,
  spec bare_box 1 [] (bare_form "Kharej" "" "" "" "" "" 0 true) = Ok s ∧ runs s ∧
  (Name s, Carrier s, Addr s, Iface s, LocalIP s, PeerIP s, Preset s) = ("l3-kharej-9000", "pck", "0.0.0.0:9000", "bp0", "10.10.0.2/30", "10.10.0.1", "turbo").
Proof.
  destruct (spec bare_box 1 [] (bare_form "Kharej" "" "" "" "" "" 0 true)) as [s|] eqn:E; [|by vm_compute in E].
  exists s. split; [done|]. assert (Side s = sideKharej ∧ (Name s, Carrier s, Addr s, Iface s, LocalIP s, PeerIP s, Preset s) = ("l3-kharej-9000", "pck", "0.0.0.0:9000", "bp0", "10.10.0.2/30", "10.10.0.1", "turbo")) as [Hs Hv].
  { revert E. vm_compute. by intros [= <-]. }
  split; [|exact Hv]. exact (proj2 (proj2 (form_runs _ _ _ _ _ [] E)) Hs eq_refl ltac:(done)).
Defined.

(** The form takes what the engine then refuses: sockets the carrier does not
    have, and addresses that are none. *)
Lemma form_takes_more : ∃ s t,
  spec bare_box 1 [] (bare_form "iran" "pck" "203.0.113.7" "443" "" "" 4 false) = Ok s ∧
  L3Checks.Validate (Dispatch.l3_config (decode (render s)) []) = Err (L3Checks.PathsNotUDP "pck") ∧
  spec bare_box 1 [] (bare_form "iran" "udp" "203.0.113.7" "443" "here" "there" 0 false) = Ok t ∧
  L3Checks.Validate (Dispatch.l3_config (decode (render t)) []) = Err (L3Checks.NotAnIP "local_ip" "here").
Proof.
  eexists _, _. split; [vm_compute; reflexivity|]. split; [vm_compute; reflexivity|]. split; [vm_compute; reflexivity|]. vm_compute; reflexivity.
Qed.

(** A form for a tunnel the machine has never comes back from the panel, where
    nobody is typing: no number of turns ends the loop. *)
Lemma apply_never_updates : ∀ fuel, spec (mkBox [("l3-kharej-9000", None)] Defaults.linux_host) fuel [] (bare_form "kharej" "" "" "" "" "" 0 false) = Err StillAsking.
Proof.
  intros fuel. unfold spec, bare_form. cbn [FSide FCarrier FName FToken TunnelPort].
  set (b := mkBox _ _). change (the_side "kharej") with (Some sideKharej). cbv iota.
  change (or_string (ToLower (TrimSpace "")) "pck") with "pck". change (TrimSpace "9000") with "9000".
  change (or_string (TrimSpace "") ("l3-" +:+ side_String sideKharej +:+ "-" +:+ "9000")) with "l3-kharej-9000".
  assert (offeredCarrier "pck" = true ∧ Spec.ValidPort "9000" = true ∧ validName "l3-kharej-9000" = true) as (-> & -> & ->) by (by vm_compute).
  cbn [require result_bind]. by rewrite uniqueName_spins.
Qed.

End Form.

Module Edit.
Import DirectSpec Box Presets.

Record DirectEdit : Type := mkEdit {
  EPorts : option string;
  EAcceptUDP : option bool;
  EPreset : option string;
  EMTU : option Z;
  EAutoMTU : option bool;
  EMaxConnections : option Z;
  EBandwidthMbps : option Z;
  ESpoof : option SpoofTune.SpoofTune;
  EStealth : option bool;
  EPaths : option Z;
  EFEC : option bool
}.

Definition no_edit : DirectEdit := mkEdit None None None None None None None None None None None.

Inductive error : Type :=
  | RefusedPorts (spec : string) | MTURange (n : Z) | NoForgedSource (carrier : string) | BadDrawer (e : SpoofTune.error)
  | PathsNotUDP (carrier : string) | BadPaths (e : Multipath.error).

Definition if_sent {A E B} (o : option A) (d : B) (f : A → result E B) : result E B := match o with Some a => f a | None => Ok d end.

Definition is_set {A} (o : option A) : bool := match o with Some _ => true | None => false end.

Definition carrier_is (l : L3Cfg.L3Config) (c d : string) : bool := EqualFold (TrimSpace (orDefault (L3Cfg.Carrier l) d)) c.

Definition edited_paths (l : L3Cfg.L3Config) (p : Z) : result error Z :=
  if (1 <? p) && negb (carrier_is l "udp" "udp") then Err (PathsNotUDP (orDefault (L3Cfg.Carrier l) "udp"))
  else match Multipath.Validate (Multipath.mkConfig p) with Some e => Err (BadPaths e) | None => Ok p end.

Definition edited_fec (l : L3Cfg.L3Config) (o : option bool) : Z * Z :=
  match o with Some true => (Form.fecData, Form.fecParity) | Some false => (0, 0) | None => (L3Cfg.FECData l, L3Cfg.FECParity l) end.

Definition edited_spoof (h : host) (l : L3Cfg.L3Config) (e : DirectEdit) : result error Tuning.SpoofConfig :=
  let? _ := require (negb ((is_set (ESpoof e) || is_set (EStealth e)) && negb (carrier_is l "spoof" ""))) (NoForgedSource (orDefault (L3Cfg.Carrier l) "udp")) in
  let? s := if_sent (ESpoof e) (L3Cfg.Spoof l) (λ t, match SpoofTune.apply h t (L3Cfg.Spoof l) with Ok s => Ok s | Err x => Err (BadDrawer x) end) in
  Ok (match EStealth e with Some true => SpoofTune.applySpoofStealth s | Some false => SpoofTune.clearSpoofStealth s | None => s end).

(** [applyDirectEdit]. *)
Definition applyDirectEdit (h : host) (l : L3Cfg.L3Config) (e : DirectEdit) : result error L3Cfg.L3Config :=
  let? ports := if_sent (EPorts e) (L3Cfg.Ports l) (λ raw,
    let ports := Spec.ParsePorts raw in
    match Spec.ValidatePortSpecs ports with Some p => Err (RefusedPorts p) | None => Ok (if (length ports =? 0)%nat then None else Some ports) end) in
  let? mtu := if_sent (EMTU e) (L3Cfg.MTU l) (λ m, if negb (m =? 0) && ((m <? 576) || (9000 <? m)) then Err (MTURange m) else Ok m) in
  let? spoof := edited_spoof h l e in
  let? paths := if_sent (EPaths e) (L3Cfg.Paths l) (edited_paths l) in
  Ok {|
    L3Cfg.Mode := L3Cfg.Mode l;
    L3Cfg.Addr := L3Cfg.Addr l;
    L3Cfg.Token := L3Cfg.Token l;
    L3Cfg.Carrier := L3Cfg.Carrier l;
    L3Cfg.Encap := L3Cfg.Encap l;
    L3Cfg.GREKey := L3Cfg.GREKey l;
    L3Cfg.SNIDomain := L3Cfg.SNIDomain l;
    L3Cfg.Iface := L3Cfg.Iface l;
    L3Cfg.LocalIP := L3Cfg.LocalIP l;
    L3Cfg.PeerIP := L3Cfg.PeerIP l;
    L3Cfg.MTU := mtu;
    L3Cfg.SockBuf := L3Cfg.SockBuf l;
    L3Cfg.FECData := fst (edited_fec l (EFEC e));
    L3Cfg.FECParity := snd (edited_fec l (EFEC e));
    L3Cfg.Paths := paths;
    L3Cfg.Preset := L3Cfg.Preset l;
    L3Cfg.TxQueueLen := L3Cfg.TxQueueLen l;
    L3Cfg.Qdisc := L3Cfg.Qdisc l;
    L3Cfg.AutoMTU := match EAutoMTU e with Some v => Some v | None => L3Cfg.AutoMTU l end;
    L3Cfg.MSSClamp := L3Cfg.MSSClamp l;
    L3Cfg.Ports := ports;
    L3Cfg.AcceptUDP := default (L3Cfg.AcceptUDP l) (EAcceptUDP e);
    L3Cfg.MaxConnections := default (L3Cfg.MaxConnections l) (EMaxConnections e);
    L3Cfg.BandwidthMbps := default (L3Cfg.BandwidthMbps l) (EBandwidthMbps e);
    L3Cfg.Spoof := spoof;
    L3Cfg.Pck := L3Cfg.Pck l
  |}.

(** [EditDirectSettings], up to the file it writes. *)
Definition EditDirectSettings (h : host) (name : string) (l : L3Cfg.L3Config) (e : DirectEdit) : result error Toml.table :=
  let? l := applyDirectEdit h l e in
  let s := directSpecFrom name l in
  let s := match EPreset e with Some p => apply (findL3Preset (ToLower (TrimSpace p))) s | None => s end in
  Ok (render s).

Record DirectSettings : Type := mkSettings {
  SName : string;
  SSide : string;
  SCarrier : string;
  SEncap : string;
  SAddr : string;
  SToken : string;
  SIface : string;
  SLocalIP : string;
  SPeerIP : string;
  SMTU : Z;
  SAutoMTU : bool;
  SPreset : string;
  SPorts : string;
  SAcceptUDP : bool;
  SMaxConnections : Z;
  SBandwidthMbps : Z;
  HoldsPorts : bool;
  SSpoof : SpoofTune.SpoofTune;
  SStealth : bool;
  SPaths : Z;
  SFEC : bool
}.

Definition l3Role (mode : string) : string := if EqualFold (TrimSpace mode) "listen" then "kharej" else "iran".

Definition l3EncapLabel (l : L3Cfg.L3Config) : string :=
  "GRE + Noise" +:+ (if L3Cfg.GREKey l =? 0 then "" else " (key " +:+ Itoa (L3Cfg.GREKey l) +:+ ")").

Definition directSettingsFrom (name : string) (l : L3Cfg.L3Config) : DirectSettings := {|
    SName := name;
    SSide := l3Role (L3Cfg.Mode l);
    SCarrier := orDefault (L3Cfg.Carrier l) "udp";
    SEncap := l3EncapLabel l;
    SAddr := L3Cfg.Addr l;
    SToken := L3Cfg.Token l;
    SIface := orDefault (L3Cfg.Iface l) "bp0";
    SLocalIP := L3Cfg.LocalIP l;
    SPeerIP := L3Cfg.PeerIP l;
    SMTU := L3Cfg.MTU l;
    SAutoMTU := L3Cfg.AutoMTUEnabled l;
    SPreset := orDefault (L3Cfg.Preset l) PresetTurbo;
    SPorts := Join (items (L3Cfg.Ports l)) ", ";
    SAcceptUDP := L3Cfg.AcceptUDP l;
    SMaxConnections := L3Cfg.MaxConnections l;
    SBandwidthMbps := L3Cfg.BandwidthMbps l;
    HoldsPorts := negb (EqualFold (TrimSpace (L3Cfg.Mode l)) "listen");
    SSpoof := SpoofTune.spoofOf (L3Cfg.Spoof l);
    SStealth := SpoofTune.spoofStealthOn (L3Cfg.Spoof l);
    SPaths := L3Cfg.Paths l;
    SFEC := (0 <? L3Cfg.FECData l) && (0 <? L3Cfg.FECParity l)
  |}.

(** ** Lemmas *)

Lemma kept_num_idem n : kept_num (kept_num n) = kept_num n.
Proof. unfold kept_num. destruct (Z.ltb_spec 0 n) as [H|H]; [by rewrite (proj2 (Z.ltb_lt _ _) H)|done]. Qed.

Lemma kept_list_idem l : kept_list (items (kept_list l)) = kept_list l.
Proof.
  rewrite Form.items_kept. unfold kept_list. rewrite length_map. destruct (0 <? length l)%nat; [|done]. f_equal.
  rewrite map_map. apply map_ext. apply TrimSpace_idem.
Qed.

Lemma kept_length l : (0 <? length (items (kept_list l)))%nat = (0 <? length l)%nat.
Proof. by rewrite Form.items_kept, length_map. Qed.

Lemma canon_spoof_idem s : canon_spoof (canon_spoof s) = canon_spoof s.
Proof. unfold canon_spoof at 1 3. f_equal; cbn; rewrite ?kept_num_idem, ?kept_list_idem; reflexivity. Qed.

Lemma canon_pck_idem p : canon_pck (canon_pck p) = canon_pck p.
Proof. unfold canon_pck. cbn. by rewrite kept_list_idem. Qed.

(** A file the screens wrote. *)
Definition screens_wrote (l : L3Cfg.L3Config) : Prop := ∃ s, l = canon s ∧ Carrier s ≠ "" ∧ Iface s ≠ "".

(** What no edit can change: which tunnel it is. *)
Record same_tunnel (l l' : L3Cfg.L3Config) : Prop := {
  k_mode : L3Cfg.Mode l' = L3Cfg.Mode l;
  k_addr : L3Cfg.Addr l' = L3Cfg.Addr l;
  k_token : L3Cfg.Token l' = L3Cfg.Token l;
  k_carrier : L3Cfg.Carrier l' = L3Cfg.Carrier l;
  k_encap : L3Cfg.Encap l' = L3Cfg.Encap l;
  k_key : L3Cfg.GREKey l' = L3Cfg.GREKey l;
  k_iface : L3Cfg.Iface l' = L3Cfg.Iface l;
  k_local : L3Cfg.LocalIP l' = L3Cfg.LocalIP l;
  k_peer : L3Cfg.PeerIP l' = L3Cfg.PeerIP l;
  k_clamp : L3Cfg.MSSClamp l' = L3Cfg.MSSClamp l;
  k_pck : L3Cfg.Pck l' = L3Cfg.Pck l
}.

(** The settings an edit may change, and what it leaves where it says nothing. *)
Record untouched (e : DirectEdit) (l l' : L3Cfg.L3Config) : Prop := {
  u_mtu : EMTU e = None → L3Cfg.MTU l' = L3Cfg.MTU l;
  u_auto : EAutoMTU e = None → L3Cfg.AutoMTU l' = L3Cfg.AutoMTU l;
  u_preset : EPreset e = None → L3Cfg.Preset l' = L3Cfg.Preset l ∧ L3Cfg.TxQueueLen l' = L3Cfg.TxQueueLen l ∧
    L3Cfg.Qdisc l' = L3Cfg.Qdisc l ∧ L3Cfg.SockBuf l' = L3Cfg.SockBuf l;
  u_paths : EPaths e = None → L3Cfg.Paths l' = L3Cfg.Paths l;
  u_fec : EFEC e = None → L3Cfg.FECData l' = L3Cfg.FECData l ∧ L3Cfg.FECParity l' = L3Cfg.FECParity l;
  u_spoof : ESpoof e = None → EStealth e = None → L3Cfg.Spoof l' = L3Cfg.Spoof l;
  u_ports : EPorts e = None → L3Cfg.Ports l' = L3Cfg.Ports l ∧
    (EAcceptUDP e = None → L3Cfg.AcceptUDP l' = L3Cfg.AcceptUDP l) ∧
    (EMaxConnections e = None → EBandwidthMbps e = None →
      L3Cfg.MaxConnections l' = L3Cfg.MaxConnections l ∧ L3Cfg.BandwidthMbps l' = L3Cfg.BandwidthMbps l)
}.

(** What an edit asks for is what the file then says. *)
Record changed (e : DirectEdit) (l l' : L3Cfg.L3Config) : Prop := {
  c_mtu : ∀ m, EMTU e = Some m → L3Cfg.MTU l' = m ∧ (m = 0 ∨ 576 ≤ m ≤ 9000);
  c_auto : ∀ v, EAutoMTU e = Some v → L3Cfg.AutoMTUEnabled l' = v;
  c_preset : ∀ p, EPreset e = Some p → ∃ q, q ∈ l3Presets ∧ q = findL3Preset (ToLower (TrimSpace p)) ∧
    (L3Cfg.Preset l', L3Cfg.TxQueueLen l', L3Cfg.Qdisc l', L3Cfg.SockBuf l') = (PName q, PTxQueueLen q, PQdisc q, PSockBuf q);
  c_paths : ∀ p, EPaths e = Some p → 0 ≤ p ≤ 8 ∧ (1 < p → EqualFold (TrimSpace (L3Cfg.Carrier l')) "udp" = true) ∧
    L3Cfg.Paths l' = if 1 <? p then p else 0;
  c_fec : ∀ v, EFEC e = Some v → (L3Cfg.FECData l', L3Cfg.FECParity l') = if v then (Form.fecData, Form.fecParity) else (0, 0);
  c_ports : ∀ raw, EPorts e = Some raw → Spec.ValidatePortSpecs (Spec.ParsePorts raw) = None ∧ items (L3Cfg.Ports l') = Spec.ParsePorts raw
}.

(** The same file with other settings of the forged-source carrier and a
    tuning. *)
Lemma written_back h name l e t : EditDirectSettings h name l e = Ok t → ∃ l1, applyDirectEdit h l e = Ok l1 ∧
  decode t = canon (match EPreset e with Some p => apply (findL3Preset (ToLower (TrimSpace p))) (directSpecFrom name l1) | None => directSpecFrom name l1 end).
Proof. unfold EditDirectSettings. intros (l1 & H1 & [= <-])%bind_Ok. exists l1. split; [done|]. by rewrite decode_render. Qed.

(** The projections of what an edit passes through. *)
Ltac fields := cbn [L3Cfg.Mode L3Cfg.Addr L3Cfg.Token L3Cfg.Carrier L3Cfg.Encap L3Cfg.GREKey L3Cfg.SNIDomain L3Cfg.Iface L3Cfg.LocalIP
    L3Cfg.PeerIP L3Cfg.MTU L3Cfg.SockBuf L3Cfg.FECData L3Cfg.FECParity L3Cfg.Paths L3Cfg.Preset L3Cfg.TxQueueLen L3Cfg.Qdisc L3Cfg.AutoMTU
    L3Cfg.MSSClamp L3Cfg.Ports L3Cfg.AcceptUDP L3Cfg.MaxConnections L3Cfg.BandwidthMbps L3Cfg.Spoof L3Cfg.Pck canon directSpecFrom apply
    Name Side Carrier SNIDomain Encap GREKey Addr Token Iface LocalIP PeerIP MTU AutoMTU SockBuf FECData FECParity Paths MSSClamp Preset
    TxQueueLen Qdisc Ports AcceptUDP MaxConnections BandwidthMbps Spoof Pck default] in *; unfold id in *.

Lemma side_kept s : is_iran (if EqualFold (TrimSpace (if is_iran s then "dial" else "listen")) "listen" then sideKharej else sideIran) = is_iran s.
Proof. by destruct s. Qed.

Lemma default_kept v d : v ≠ "" → orDefault v d = v.
Proof. unfold orDefault, or_string. by destruct (String.eqb_spec v ""). Qed.

Lemma applied h l e l1 : applyDirectEdit h l e = Ok l1 →
  (EPorts e = None → L3Cfg.Ports l1 = L3Cfg.Ports l) ∧
  (∀ raw, EPorts e = Some raw → Spec.ValidatePortSpecs (Spec.ParsePorts raw) = None ∧ items (L3Cfg.Ports l1) = Spec.ParsePorts raw) ∧
  (EMTU e = None → L3Cfg.MTU l1 = L3Cfg.MTU l) ∧
  (∀ m, EMTU e = Some m → L3Cfg.MTU l1 = m ∧ (m = 0 ∨ 576 ≤ m ≤ 9000)) ∧
  (ESpoof e = None → EStealth e = None → L3Cfg.Spoof l1 = L3Cfg.Spoof l) ∧
  (EPaths e = None → L3Cfg.Paths l1 = L3Cfg.Paths l) ∧
  (∀ p, EPaths e = Some p → 0 ≤ p ≤ 8 ∧ (1 < p → carrier_is l "udp" "udp" = true) ∧ L3Cfg.Paths l1 = p).
Proof.
  unfold applyDirectEdit. intros H. apply bind_Ok in H as (ports & Hp & H). apply bind_Ok in H as (mtu & Hm & H).
  apply bind_Ok in H as (spoof & Hs & H). apply bind_Ok in H as (paths & Ha & [= <-]). fields. split_and!.
  - intros E. rewrite E in Hp. by injection Hp as <-.
  - intros raw E. rewrite E in Hp. cbn [if_sent] in Hp. destruct (Spec.ValidatePortSpecs (Spec.ParsePorts raw)); [done|]. injection Hp as <-.
    split; [done|]. by destruct (Spec.ParsePorts raw).
  - intros E. rewrite E in Hm. by injection Hm as <-.
  - intros m E. rewrite E in Hm. cbn [if_sent] in Hm. destruct (negb (m =? 0) && _) eqn:Eb; [done|]. injection Hm as <-. split; [done|].
    apply andb_false_iff in Eb as [Eb|Eb]; [left; by apply negb_false_iff, Z.eqb_eq in Eb|right].
    apply orb_false_iff in Eb as [?%Z.ltb_ge ?%Z.ltb_ge]. lia.
  - intros E1 E2. unfold edited_spoof in Hs. rewrite E1, E2 in Hs. by injection Hs as <-.
  - intros E. rewrite E in Ha. by injection Ha as <-.
  - intros p E. rewrite E in Ha. cbn [if_sent] in Ha. unfold edited_paths in Ha.
    destruct ((1 <? p) && negb (carrier_is l "udp" "udp")) eqn:Eb; [done|]. destruct (Multipath.Validate (Multipath.mkConfig p)) eqn:Ev; [done|]. injection Ha as <-.
    unfold Multipath.Validate, Multipath.maxPaths in Ev. cbn [Multipath.Paths] in Ev.
    destruct (Z.ltb_spec p 0); [done|]. destruct (Z.ltb_spec 8 p); [done|]. split_and!; [lia|lia| |done].
    intros Hlt. apply Z.ltb_lt in Hlt. rewrite Hlt in Eb. by apply negb_false_iff in Eb.
Qed.

(** What no edit asks about passes as it is. *)
Lemma passed h l e l1 : applyDirectEdit h l e = Ok l1 → same_tunnel l l1 ∧ L3Cfg.SockBuf l1 = L3Cfg.SockBuf l ∧ L3Cfg.Preset l1 = L3Cfg.Preset l ∧
  L3Cfg.TxQueueLen l1 = L3Cfg.TxQueueLen l ∧ L3Cfg.Qdisc l1 = L3Cfg.Qdisc l ∧
  (L3Cfg.FECData l1, L3Cfg.FECParity l1) = edited_fec l (EFEC e) ∧
  L3Cfg.AutoMTU l1 = match EAutoMTU e with Some v => Some v | None => L3Cfg.AutoMTU l end ∧
  L3Cfg.AcceptUDP l1 = default (L3Cfg.AcceptUDP l) (EAcceptUDP e) ∧
  L3Cfg.MaxConnections l1 = default (L3Cfg.MaxConnections l) (EMaxConnections e) ∧
  L3Cfg.BandwidthMbps l1 = default (L3Cfg.BandwidthMbps l) (EBandwidthMbps e).
Proof.
  unfold applyDirectEdit. intros H. do 4 (apply bind_Ok in H as (? & _ & H)). injection H as <-.
  split_and!; try reflexivity; [by split|]. cbn. by destruct (edited_fec l (EFEC e)).
Qed.

(** A tuning changes four settings. *)
Lemma canon_apply p s : p ∈ l3Presets → let l := canon (apply p s) in
  (L3Cfg.Preset l, L3Cfg.TxQueueLen l, L3Cfg.Qdisc l, L3Cfg.SockBuf l) = (PName p, PTxQueueLen p, PQdisc p, PSockBuf p).
Proof. intros H. cbv zeta. fields. repeat (apply elem_of_cons in H as [->|H]; [done|]). by apply elem_of_nil in H. Qed.

(** The rest of a file is read back of one with a tuning as of one without. *)
Definition but_tuning (l l' : L3Cfg.L3Config) : Prop :=
  same_tunnel l l' ∧ L3Cfg.MTU l' = L3Cfg.MTU l ∧ L3Cfg.AutoMTU l' = L3Cfg.AutoMTU l ∧ L3Cfg.Paths l' = L3Cfg.Paths l ∧
  L3Cfg.FECData l' = L3Cfg.FECData l ∧ L3Cfg.FECParity l' = L3Cfg.FECParity l ∧ L3Cfg.Spoof l' = L3Cfg.Spoof l ∧
  L3Cfg.Ports l' = L3Cfg.Ports l ∧ L3Cfg.AcceptUDP l' = L3Cfg.AcceptUDP l ∧ L3Cfg.MaxConnections l' = L3Cfg.MaxConnections l ∧
  L3Cfg.BandwidthMbps l' = L3Cfg.BandwidthMbps l.

Lemma canon_apply_rest p s : but_tuning (canon s) (canon (apply p s)).
Proof. by repeat split. Qed.

(** What reading back does to the settings of a spec made from a file. *)
Lemma canon_from name l : L3Cfg.Mode l ∈ ["dial"; "listen"] → L3Cfg.Carrier l ≠ "" → L3Cfg.Iface l ≠ "" → L3Cfg.Encap l = "gre" →
  L3Cfg.Pck l = canon_pck (L3Cfg.Pck l) → same_tunnel l (canon (directSpecFrom name l)).
Proof.
  intros Hm Hc Hi He Hp. split; fields; rewrite ?default_kept by done; try done.
  by apply elem_of_cons in Hm as [-> | ->%list_elem_of_singleton].
Qed.

Lemma wrote_tunnel h name l e l1 : screens_wrote l → applyDirectEdit h l e = Ok l1 → same_tunnel l (canon (directSpecFrom name l1)).
Proof.
  intros (s & -> & Hc & Hi) H. apply passed in H as [[K1 K2 K3 K4 K5 K6 K7 K8 K9 K10 K11] _].
  assert (same_tunnel l1 (canon (directSpecFrom name l1))) as [J1 J2 J3 J4 J5 J6 J7 J8 J9 J10 J11].
  { apply canon_from; rewrite ?K1, ?K4, ?K5, ?K7, ?K11; fields; try done; [|by rewrite canon_pck_idem].
    destruct (is_iran (Side s)); [apply list_elem_of_here|apply list_elem_of_further, list_elem_of_here]. }
  split; congruence.
Qed.

Lemma wrote_untouched h name l e l1 : screens_wrote l → applyDirectEdit h l e = Ok l1 → EPreset e = None →
  untouched e l (canon (directSpecFrom name l1)).
Proof.
  intros (s & -> & Hc & Hi) H Hpre. pose proof (passed _ _ _ _ H) as (_ & P1 & P2 & P3 & P4 & P5 & P6 & P7 & P8 & P9).
  pose proof (applied _ _ _ _ H) as (A1 & _ & A3 & _ & A5 & A6 & _).
  split.
  - intros E. fields. by rewrite A3.
  - intros E. fields. rewrite P6, E. by destruct (AutoMTU s) as [[]|].
  - intros _. fields. rewrite P1, P2, P3, P4, kept_num_idem. by destruct (negb (String.eqb (Preset s) "")).
  - intros E. fields. rewrite A6 by done. destruct (Z.ltb_spec 1 (Paths s)) as [Hl|]; [by rewrite (proj2 (Z.ltb_lt _ _) Hl)|done].
  - intros E. fields. rewrite E in P5. cbn [edited_fec] in P5. injection P5 as -> ->.
    destruct (0 <? FECData s) eqn:E1, (0 <? FECParity s) eqn:E2; cbn [andb Z.ltb Z.compare]; by rewrite ?E1, ?E2.
  - intros E1 E2. fields. rewrite A5 by done. apply canon_spoof_idem.
  - intros E. pose proof (A1 E) as Hp. fields. rewrite Hp, kept_list_idem, kept_length. split; [done|]. split.
    + intros Ea. rewrite P7, Ea. cbn [default]. unfold id. by destruct (0 <? length (Ports s))%nat.
    + intros Em Eb. rewrite P8, P9, Em, Eb. cbn [default]. unfold id.
      destruct (0 <? length (Ports s))%nat; [cbn [andb]|done].
      destruct ((0 <? MaxConnections s) || (0 <? BandwidthMbps s)) eqn:Ec; [by rewrite Ec|done].
Qed.

Lemma wrote_changed h name l e l1 : screens_wrote l → applyDirectEdit h l e = Ok l1 → EPreset e = None →
  changed e l (canon (directSpecFrom name l1)).
Proof.
  intros (s & -> & Hc & Hi) H Hpre. pose proof (passed _ _ _ _ H) as ([_ _ _ Hk _ _ _ _ _ _ _] & _ & _ & _ & _ & P5 & P6 & _ & _ & _).
  pose proof (applied _ _ _ _ H) as (_ & A2 & _ & A4 & _ & _ & A7).
  split.
  - intros m E. fields. by apply A4.
  - intros v E. unfold L3Cfg.AutoMTUEnabled. fields. rewrite P6, E. by destruct v.
  - intros p E. congruence.
  - intros p E. destruct (A7 p E) as (H1 & H2 & H3). fields. rewrite H3, Hk, default_kept by done. split_and!; try done; try lia.
    unfold carrier_is in H2. fields. by rewrite default_kept in H2.
  - intros v E. fields. rewrite E in P5. destruct v; cbn [edited_fec] in P5; injection P5 as -> ->; done.
  - intros raw E. destruct (A2 raw E) as [H1 H2]. split; [done|]. fields. rewrite Form.items_kept, H2. apply Form.ParsePorts_trimmed.
Qed.

(** With a tuning the rest stands. *)
Lemma untouched_tuned e l l0 l1 : but_tuning l0 l1 → EPreset e ≠ None → untouched (mkEdit (EPorts e) (EAcceptUDP e) None (EMTU e) (EAutoMTU e)
    (EMaxConnections e) (EBandwidthMbps e) (ESpoof e) (EStealth e) (EPaths e) (EFEC e)) l l0 → untouched e l l1.
Proof.
  intros (_ & B1 & B2 & B3 & B4 & B5 & B6 & B7 & B8 & B9 & B10) Hp [U1 U2 _ U4 U5 U6 U7].
  split; intros; rewrite ?B1, ?B2, ?B3, ?B4, ?B5, ?B6, ?B7, ?B8, ?B9, ?B10; try done; auto.
Qed.

Definition but_preset (e : DirectEdit) : DirectEdit :=
  mkEdit (EPorts e) (EAcceptUDP e) None (EMTU e) (EAutoMTU e) (EMaxConnections e) (EBandwidthMbps e) (ESpoof e) (EStealth e) (EPaths e) (EFEC e).

Lemma changed_tuned e l l0 l1 p : but_tuning l0 l1 → EPreset e = Some p →
  (L3Cfg.Preset l1, L3Cfg.TxQueueLen l1, L3Cfg.Qdisc l1, L3Cfg.SockBuf l1) = (let q := findL3Preset (ToLower (TrimSpace p)) in (PName q, PTxQueueLen q, PQdisc q, PSockBuf q)) →
  changed (but_preset e) l l0 → changed e l l1.
Proof.
  intros (K & B1 & B2 & B3 & B4 & B5 & B6 & B7 & B8 & B9 & B10) Hp Hq [C1 C2 _ C4 C5 C6].
  split; unfold L3Cfg.AutoMTUEnabled in *; intros; rewrite ?B1, ?B2, ?B3, ?B4, ?B5, ?B6, ?B7, ?B8, ?B9, ?B10, ?(k_carrier _ _ K); auto.
  exists (findL3Preset (ToLower (TrimSpace p))). split_and!; [apply findL3Preset_known|congruence|exact Hq].
Qed.

(** An edit of a file the screens wrote leaves everything it does not
    mention as it was (which tunnel it is, the carriers' settings, the tuning),
    and the file then says what was asked for, within its bounds. *)
Theorem edit_keeps h name l e t (Hw : screens_wrote l) (H : EditDirectSettings h name l e = Ok t) :
  let l' := decode t in same_tunnel l l' ∧ untouched e l l' ∧ changed e l l'.
Proof.
  cbv zeta. destruct (written_back _ _ _ _ _ H) as (l1 & H1 & ->). destruct (EPreset e) as [p|] eqn:E.
  - pose proof (canon_apply_rest (findL3Preset (ToLower (TrimSpace p))) (directSpecFrom name l1)) as Hb.
    change (applyDirectEdit h l (but_preset e) = Ok l1) in H1.
    split_and!.
    + pose proof (wrote_tunnel _ name _ _ _ Hw H1) as [? ? ? ? ? ? ? ? ? ? ?]. destruct Hb as [[? ? ? ? ? ? ? ? ? ? ?] _]. split; congruence.
    + apply (untouched_tuned _ _ _ _ Hb); [congruence|]. exact (wrote_untouched _ name _ _ _ Hw H1 eq_refl).
    + apply (changed_tuned _ _ _ _ p Hb E); [apply canon_apply, findL3Preset_known|]. exact (wrote_changed _ name _ _ _ Hw H1 eq_refl).
  - split_and!; [exact (wrote_tunnel _ name _ _ _ Hw H1)|exact (wrote_untouched _ name _ _ _ Hw H1 E)|exact (wrote_changed _ name _ _ _ Hw H1 E)].
Qed.

(** A tunnel on the Iran side, and an edit that moves its ports and its tuning. *)
Definition iran_spec (carrier sni : string) : l3Spec :=
  mkSpec "edge" sideIran carrier sni "gre" 7 "203.0.113.7:9000" "secret" "bp0" "10.10.0.1/30" "10.10.0.2" 1400 None (Z.shiftl 8 20) 10 3 4 0
    PresetTurbo 4096 "fq_codel" ["443"] true 100 0 Tuning.no_spoof Tuning.no_pck.
Definition move_ports : DirectEdit := mkEdit (Some " 80, 8443=127.0.0.1:443 ") None (Some " Balance") (Some 1320) None None None None None (Some 2) None.

Lemma edit_keeps_witness : ∃ t, EditDirectSettings Defaults.linux_host "edge" (canon (iran_spec "udp" "")) move_ports = Ok t ∧
  let l' := decode t in
  same_tunnel (canon (iran_spec "udp" "")) l' ∧ L3Cfg.FECData l' = 10 ∧ L3Cfg.Preset l' = "balance" ∧ L3Cfg.MTU l' = 1320 ∧ L3Cfg.Paths l' = 2 ∧
  items (L3Cfg.Ports l') = ["80"; "8443=127.0.0.1:443"].
Proof.
  destruct (EditDirectSettings Defaults.linux_host "edge" (canon (iran_spec "udp" "")) move_ports) as [t|] eqn:E; [|by vm_compute in E].
  assert (screens_wrote (canon (iran_spec "udp" ""))) as Hw by (exists (iran_spec "udp" ""); by split_and!).
  destruct (edit_keeps _ _ _ _ _ Hw E) as (H1 & H2 & H3). exists t. split; [done|]. cbv zeta. split_and!; [exact H1| | | | |].
  - by destruct (u_fec _ _ _ H2 eq_refl) as [-> _].
  - destruct (c_preset _ _ _ H3 _ eq_refl) as (q & _ & -> & Hq). exact (f_equal (λ x, fst (fst (fst x))) Hq).
  - by apply (c_mtu _ _ _ H3).
  - destruct (c_paths _ _ _ H3 2 eq_refl) as (_ & _ & ->). done.
  - destruct (c_ports _ _ _ H3 _ eq_refl) as [_ ->]. by vm_compute.
Defined.

(** The domain an sni tunnel announces is lost by any edit, and so are the queue
    and discipline of a file that names no tuning. *)
Lemma edit_drops : ∃ t u,
  L3Cfg.SNIDomain (canon (iran_spec "sni" "www.example.ir")) = "www.example.ir" ∧
  EditDirectSettings Defaults.linux_host "edge" (canon (iran_spec "sni" "www.example.ir")) no_edit = Ok t ∧ L3Cfg.SNIDomain (decode t) = "" ∧
  let by_hand := decode [("mode", Toml.Str "dial"); ("addr", Toml.Str "203.0.113.7:9000"); ("token", Toml.Str "secret"); ("local_ip", Toml.Str "10.10.0.1/30"); ("txqueuelen", Toml.Int 500); ("qdisc", Toml.Str "cake")] in
  EditDirectSettings Defaults.linux_host "edge" by_hand no_edit = Ok u ∧ (L3Cfg.TxQueueLen (decode u), L3Cfg.Qdisc (decode u)) = (0, "").
Proof. eexists _, _. cbv zeta. repeat (split; [vm_compute; reflexivity|]). vm_compute; reflexivity. Qed.

End Edit.

Module Drawer.
Import SpoofTune Tuning.

(** ** Lemmas *)

Lemma TrimSpace_space s : TrimSpace (String " " s) = TrimSpace s.
Proof. rewrite <- (TrimSpace_left (String " " s)), <- (TrimSpace_left s). by f_equal. Qed.

Lemma Split_some s c : Split s c ≠ [].
Proof. destruct s as [|a s]; cbn [Split]; [done|]. destruct (Ascii.eqb a c); [done|]. by destruct (Split s c). Qed.

(** The parts of a list shown with commas, read again. *)
Lemma parts_shown l : l ≠ [] → Forall (free ",") l → map TrimSpace (Split (Join l ", ") ",") = map TrimSpace l.
Proof.
  intros Hl HF. induction HF as [|x l Hx HF IH]; [done|]. destruct l as [|y l]; [cbn [Join]; by rewrite Split_free|].
  change (Join (x :: y :: l) ", ") with (x +:+ String "," (String " " (Join (y :: l) ", "))).
  rewrite Split_app by done. cbn [map]. f_equal. specialize (IH ltac:(done)). etransitivity; [|exact IH]. clear.
  set (t := Join (y :: l) ", "). cbn [Split]. change (Ascii.eqb " " ",") with false. cbv iota.
  destruct (Split t ",") as [|a k] eqn:E; [by apply Split_some in E|]. cbn [map]. by rewrite TrimSpace_space.
Qed.

(** What the parts of a list of addresses come out as. *)
Lemma ipv4_parts_Ok l pool : ipv4_parts l = Ok pool → pool = filter (λ p, p ≠ "") (map TrimSpace l) ∧ Forall (λ p, isIPv4 p = true) pool.
Proof.
  revert pool. induction l as [|x l IH]; intros pool; cbn [ipv4_parts map]; [by intros [= <-]|].
  destruct (String.eqb_spec (TrimSpace x) "") as [E|E].
  - intros [-> HF]%IH. by rewrite filter_cons_False by (intros H; by apply H).
  - destruct (isIPv4 (TrimSpace x)) eqn:Ei; [|done]. intros (out & [-> HF]%IH & [= <-])%bind_Ok.
    rewrite filter_cons_True by done. split; [done|]. by constructor.
Qed.

Lemma ipv4_parts_intro l : Forall (λ p, TrimSpace p ≠ "" ∧ isIPv4 (TrimSpace p) = true) l → ipv4_parts l = Ok (map TrimSpace l).
Proof. induction 1 as [|x l [H1 H2] _ IH]; [done|]. cbn [ipv4_parts map]. rewrite (proj2 (String.eqb_neq _ _) H1), H2, IH. done. Qed.

Lemma ipv4_parts_trims l k : map TrimSpace l = map TrimSpace k → ipv4_parts l = ipv4_parts k.
Proof.
  revert k. induction l as [|x l IH]; intros [|y k]; try done. cbn [map ipv4_parts]. intros [= E1 E2]. rewrite E1. by rewrite (IH k E2).
Qed.

Lemma parse_pool raw pool : parseIPv4List raw = Ok pool → Forall (λ p, isIPv4 p = true ∧ TrimSpace p = p ∧ p ≠ "" ∧ free "," p) pool.
Proof.
  unfold parseIPv4List. intros [-> HF]%ipv4_parts_Ok. pose proof (Split_parts "," raw) as HS. revert HF HS.
  induction (Split raw ",") as [|x l IH]; [constructor|]. cbn [map]. intros HF [Hx HS]%Forall_cons.
  destruct (decide (TrimSpace x = "")) as [E|E].
  - rewrite filter_cons_False in * by (intros H; by apply H). by apply IH.
  - rewrite filter_cons_True in * by done. apply Forall_cons in HF as [Hi HF]. constructor; [|by apply IH].
    split_and!; [done|apply TrimSpace_idem|done|by apply free_TrimSpace].
Qed.

Lemma pool_again pool : Forall (λ p, isIPv4 p = true ∧ TrimSpace p = p ∧ p ≠ "" ∧ free "," p) pool → pool ≠ [] → parseIPv4List (Join pool ", ") = Ok pool.
Proof.
  intros HF Hn. unfold parseIPv4List. assert (map TrimSpace pool = pool) as Em.
  { clear Hn. induction HF as [|x l (_ & H & _) _ IH]; [done|]. cbn [map]. by rewrite H, IH. }
  rewrite (ipv4_parts_trims _ pool); [rewrite ipv4_parts_intro, Em; [done|]|apply parts_shown; [done|]].
  - eapply Forall_impl; [exact HF|]. intros p (H1 & H2 & H3 & _). cbv beta. by rewrite H2.
  - eapply Forall_impl; [exact HF|]. by intros p (_ & _ & _ & ?).
Qed.

Lemma spoofProfile_idem w v p : spoofProfile w v = Ok p → spoofProfile w p = Ok p.
Proof.
  unfold spoofProfile. destruct (String.eqb (ToLower (TrimSpace v)) ""); [by intros [= <-]|].
  case_bool_decide as H; [|done]. intros [= E]. rewrite E in H. clear E. unfold spoofProfiles in H.
  repeat (apply elem_of_cons in H as [->|H]; [by vm_compute|]). by apply elem_of_nil in H.
Qed.

Lemma spoofProfile_tcp w v p : spoofProfile w v = Ok p → String.eqb v "tcp" = true → p = "tcp".
Proof. intros H ->%String.eqb_eq. vm_compute in H. by injection H as <-. Qed.

Lemma optionalIPv4_idem w v p : optionalIPv4 v w = Ok p → optionalIPv4 p w = Ok p.
Proof.
  unfold optionalIPv4. destruct (String.eqb_spec (TrimSpace v) ""); [by intros [= <-]|]. destruct (isIPv4 (TrimSpace v)) eqn:E; [|done].
  intros [= <-]. rewrite TrimSpace_idem, E. by rewrite (proj2 (String.eqb_neq _ _)).
Qed.

Lemma checkInterface_idem h v p : checkInterface h v = Ok p → checkInterface h p = Ok p.
Proof.
  unfold checkInterface. destruct (String.eqb_spec (TrimSpace v) ""); [by intros [= <-]|]. destruct (has_interface h (TrimSpace v)) eqn:E; [|done].
  intros [= <-]. rewrite TrimSpace_idem, E. by rewrite (proj2 (String.eqb_neq _ _)).
Qed.

(** The drawer's text for the forged sources it saved. *)
Lemma shown_pool raw pool : parseIPv4List raw = Ok pool →
  let s := default "" (head pool) in let p : Strings := if (1 <? length pool)%nat then Some pool else None in
  parseIPv4List (if (0 <? length (items p))%nat then Join (items p) ", " else s) = Ok pool.
Proof.
  intros H%parse_pool. cbv zeta. destruct pool as [|x [|y l]]; [by vm_compute| |].
  - change (1 <? length [x])%nat with false. cbv iota. cbn [items default length Nat.ltb head]. apply (pool_again [x]); [done|done].
  - change (1 <? length (x :: y :: l))%nat with true. cbv iota. cbn [items default]. unfold id. change (0 <? length (x :: y :: l))%nat with true. cbv iota.
    by apply pool_again.
Qed.

Lemma nonneg_of a b c : negb ((a <? 0) || (b <? 0) || (c <? 0)) = true → 0 ≤ a ∧ 0 ≤ b ∧ 0 ≤ c.
Proof. intros [[?%Z.ltb_ge ?%Z.ltb_ge]%orb_false_iff ?%Z.ltb_ge]%negb_true_iff%orb_false_iff. done. Qed.

Lemma kept_nonneg n : 0 ≤ n → DirectSpec.kept_num n = n.
Proof. unfold DirectSpec.kept_num. destruct (Z.ltb_spec 0 n); lia. Qed.

Lemma kept_pool pool : Forall (λ p, isIPv4 p = true ∧ TrimSpace p = p ∧ p ≠ "" ∧ free "," p) pool →
  let p : Strings := if (1 <? length pool)%nat then Some pool else None in DirectSpec.kept_list (items p) = p.
Proof.
  intros HF. cbv zeta. destruct pool as [|x [|y l]]; [done|done|]. change (1 <? length (x :: y :: l))%nat with true. cbv iota.
  cbn [items default]. unfold id, DirectSpec.kept_list. change (0 <? length (x :: y :: l))%nat with true. cbv iota. f_equal.
  clear -HF. induction HF as [|p k (_ & H & _) _ IH]; [done|]. cbn [map]. by rewrite H, IH.
Qed.

(** The settings the drawer of the forged-source carrier saves are the ones
    it shows: saved again as they are shown they come out the same, over
    whatever was there, and a file keeps them whole. *)
Theorem drawer_roundtrip h f s0 s (H : apply h f s0 = Ok s) :
  (∀ s1, apply h (spoofOf s) s1 = Ok s) ∧ DirectSpec.canon_spoof s = s.
Proof.
  unfold apply in H. apply bind_Ok in H as (p & Hp & H). apply bind_Ok in H as (up & Hu & H). apply bind_Ok in H as (down & Hd & H).
  apply bind_Ok in H as (pool & Hpool & H). apply bind_Ok in H as (peer & Hpe & H). apply bind_Ok in H as (psrc & Hps & H).
  apply bind_Ok in H as (iface & Hi & H). apply bind_Ok in H as (xdp & Hx & H). apply bind_Ok in H as ([] & Hn%require_Ok%nonneg_of & H).
  apply bind_Ok in H as ([] & Hr%require_Ok%negb_true_iff & H). apply bind_Ok in H as ([] & Ho%require_Ok%negb_true_iff & H). injection H as <-.
  set (profile := if String.eqb p "" then "udp" else p).
  assert (spoofProfile "packet profile" profile = Ok profile ∧ String.eqb profile "" = false) as [Hprof Hpn].
  { subst profile. apply spoofProfile_idem in Hp. destruct (String.eqb_spec p "") as [_|Hne]; [by vm_compute|]. split; [done|by apply String.eqb_neq]. }
  set (ranged := ShufflePort f && (negb (PortMin f =? 0) || negb (PortMax f =? 0))) in *.
  set (tls := String.eqb profile "tcp" || String.eqb (Uplink f) "tcp" || String.eqb (Downlink f) "tcp").
  split.
  - intros s1. unfold apply, spoofOf.
    cbn [Profile Uplink Downlink SrcIPs PeerIP PeerSrcIP Interface XDPIface SockBuf SpoofTune.MTU ICMPReply TTLJitter RandomDSCP ShufflePort PortMin PortMax Padding PaddingMax FakeTLS
      SpoofProfile SpoofUplink SpoofDownlink SpoofSrcIP SpoofSrcPool SpoofPeerIP SpoofInterface SpoofXDPInterface SpoofSockBuf SpoofPeerSrcIP SpoofICMPReply SpoofMTU
      SpoofTTLJitter SpoofRandomDSCP SpoofShufflePort SpoofPortMin SpoofPortMax SpoofPadding SpoofPaddingMax SpoofFakeTLS].
    rewrite Hprof. cbn [result_bind]. rewrite Hpn, (spoofProfile_idem _ _ _ Hu), (spoofProfile_idem _ _ _ Hd), (shown_pool _ _ Hpool), (optionalIPv4_idem _ _ _ Hpe), (optionalIPv4_idem _ _ _ Hps),
      (checkInterface_idem _ _ _ Hi), (checkInterface_idem _ _ _ Hx). cbn [result_bind].
    assert ((SockBuf f <? 0) || (SpoofTune.MTU f <? 0) || ((if Padding f then PaddingMax f else 0) <? 0) = false) as ->.
    { destruct Hn as (? & ? & ?). rewrite !orb_false_iff, !Z.ltb_ge. destruct (Padding f); lia. }
    assert (ShufflePort f && (negb ((if ranged then PortMin f else 0) =? 0) || negb ((if ranged then PortMax f else 0) =? 0)) = ranged) as ->.
    { subst ranged. destruct (ShufflePort f); [cbn [andb]|done]. destruct (negb (PortMin f =? 0) || negb (PortMax f =? 0)) eqn:E; [exact E|done]. }
    cbn [negb require result_bind].
    assert (tls = true → String.eqb profile "tcp" || String.eqb up "tcp" || String.eqb down "tcp" = true) as Htls.
    { subst tls. intros [[->|E]%orb_true_iff|E]%orb_true_iff; [done| |].
      - by rewrite (spoofProfile_tcp _ _ _ Hu E), orb_true_r.
      - by rewrite (spoofProfile_tcp _ _ _ Hd E), orb_true_r. }
    destruct ranged; cbn [andb negb require result_bind] in *; [rewrite Hr, Ho|]; cbn [negb require result_bind];
      (f_equal; f_equal; [by destruct (Padding f)|]; destruct (FakeTLS f); [cbn [andb]|done]; destruct tls; [by rewrite Htls|done]).
  - unfold DirectSpec.canon_spoof.
    cbn [SpoofProfile SpoofUplink SpoofDownlink SpoofSrcIP SpoofSrcPool SpoofPeerIP SpoofInterface SpoofXDPInterface SpoofSockBuf SpoofPeerSrcIP SpoofICMPReply SpoofMTU
      SpoofTTLJitter SpoofRandomDSCP SpoofShufflePort SpoofPortMin SpoofPortMax SpoofPadding SpoofPaddingMax SpoofFakeTLS].
    destruct Hn as (? & ? & ?). apply parse_pool in Hpool.
    rewrite kept_pool by done. rewrite (kept_nonneg (SockBuf f)), (kept_nonneg (SpoofTune.MTU f)) by done. f_equal; apply kept_nonneg.
    + subst ranged. destruct (ShufflePort f && _); [|lia]. cbn [andb] in Hr. rewrite !orb_false_iff, !Z.ltb_ge in Hr. lia.
    + subst ranged. destruct (ShufflePort f && _); [|lia]. cbn [andb] in Hr. rewrite !orb_false_iff, !Z.ltb_ge in Hr. lia.
    + destruct (Padding f); lia.
Qed.

(** Two forged sources, a port range and padding. *)
Definition full_drawer : SpoofTune :=
  mkTune " TCP" "" "icmp" "198.51.100.1 ,198.51.100.2" "203.0.113.9" "" "" "" 65536 0 false true false true 40000 50000 true 64 true.

Lemma drawer_roundtrip_witness : ∃ s, apply Defaults.linux_host full_drawer no_spoof = Ok s ∧
  SrcIPs (spoofOf s) = "198.51.100.1, 198.51.100.2" ∧ SpoofFakeTLS s = true ∧ apply Defaults.linux_host (spoofOf s) no_spoof = Ok s.
Proof.
  destruct (apply Defaults.linux_host full_drawer no_spoof) as [s|] eqn:E; [|by vm_compute in E].
  exists s. split; [done|]. assert (SrcIPs (spoofOf s) = "198.51.100.1, 198.51.100.2" ∧ SpoofFakeTLS s = true) as [-> ->] by (revert E; vm_compute; by intros [= <-]).
  split_and!; try done. exact (proj1 (drawer_roundtrip _ _ _ _ E) no_spoof).
Defined.

End Drawer.
