(* ===== verification/Share.v ===== *)
(** Handing a tunnel to the other machine: the setup link and the form it
    becomes there ([internal/manage/sharelink.go], [peerform.go]), and the record
    of which tunnels have their other end on a managed server ([nodepair.go]).
    - Module [Object]: the flat JSON objects of a link;
    - Module [Link]: the link itself, written and read;
    - Module [Mirror]: the other end's form;
    - Module [Pairs]: tunnels and the servers that hold their other end.

    Compression is an interface, [Gzip]: what is compressed comes back whole.
    JSON is read as [encoding/json] writes it (flat objects without blanks, whole
    numbers), members in any order; other texts count as damaged. *)

From Stdlib Require Import Ascii String.
From S2P Require Import Prelude GoStr GoB64 AuditLog Spoof L3Encap L3Fec L3Path Ports GoNet GoSort Settings Checks Startup DirectFile DirectPanel.
Import GoStr GoNet.
Open Scope string_scope.
Open Scope list_scope.
Open Scope Z_scope.

(** [compress/gzip]: writing, and reading with whether the stream ended as it
    should; [None] is a header that is none. *)
Class Gzip : Type := {
  deflate : string → list Z;
  inflate : list Z → option (string * bool);
  deflate_bytes s : bytes_ok (deflate s);
  inflate_deflate s : inflate (deflate s) = Some (s, true)
}.

Module Object.
Import Json Toml.

(** ** Writing *)

Definition show (v : value) : string :=
  match v with
  | Str s => quoted s
  | Int n => Itoa n
  | Bool b => if b then "true" else "false"
  | Strs _ => "null"
  end.

Fixpoint members (comma : bool) (t : table) : string :=
  match t with
  | [] => ""
  | (k, v) :: t => member comma k (show v) +:+ members true t
  end.

Definition object (t : table) : string := "{" +:+ members false t +:+ "}".

(** ** Reading *)

Definition read_value (s : string) : option (value * string) :=
  match s with
  | String c _ =>
      if Ascii.eqb c quote then '(x, r) ← read_string s; Some (Str x, r)
      else match strip_prefix "true" s with
           | Some r => Some (Bool true, r)
           | None =>
               match strip_prefix "false" s with
               | Some r => Some (Bool false, r)
               | None => '(n, r) ← read_number s; Some (Int n, r)
               end
           end
  | EmptyString => None
  end.

Fixpoint read_members (fuel : nat) (s : string) : option (table * string) :=
  match fuel with
  | O => None
  | S fuel =>
      '(k, s) ← read_string s;
      s ← strip_prefix ":" s;
      '(v, s) ← read_value s;
      match strip_prefix "," s with
      | Some s => '(t, r) ← read_members fuel s; Some ((k, v) :: t, r)
      | None => Some ([(k, v)], s)
      end
  end.

(** Every member takes a byte at least. *)
Definition read_object (s : string) : option table :=
  s ← strip_prefix "{" s;
  match strip_prefix "}" s with
  | Some r => if String.eqb r "" then Some [] else None
  | None => '(t, r) ← read_members (String.length s) s; if String.eqb r "}" then Some t else None
  end.

(** The last member of a name is the one that counts. *)
Definition latest (t : table) : table := rev t.

(** ** Lemmas *)

(** A value that is read back as it was. *)
Definition plain (v : value) : Prop :=
  match v with Str s => utf8 s | Int n => -2^63 ≤ n < 2^63 | Bool _ => True | Strs _ => False end.

Definition ends (rest : string) : Prop := ∃ c r, rest = String c r ∧ numeric c = false.

Lemma Itoa_head n : ∃ c s, Itoa n = String c s ∧ Ascii.eqb c quote = false ∧ strip_prefix "true" (Itoa n) = None ∧ strip_prefix "false" (Itoa n) = None.
Proof.
  pose proof (Itoa_numeric n) as H. assert (Itoa n ≠ "") as Hn.
  { unfold Itoa. destruct (n <? 0); [done|]. by destruct (FormatUint_cons n) as (c & s & ->). }
  destruct (Itoa n) as [|c s]; [done|]. apply all_chars_cons in H as [H _]. exists c, s.
  split; [done|]. destruct c as [[] [] [] [] [] [] [] []]; try (by vm_compute in H); by vm_compute.
Qed.

Lemma strip_prefix_app_none p a b : (String.length p ≤ String.length a)%nat → strip_prefix p a = None → strip_prefix p (a +:+ b) = None.
Proof.
  revert a. induction p as [|x p IH]; intros a Hl H; [done|]. destruct a as [|y a]; [cbn in Hl; lia|]. cbn [strip_prefix String.append] in *.
  destruct (Ascii.eqb x y); [|done]. apply IH; [cbn in Hl; lia|done].
Qed.

Lemma digit_not_letter p n rest : (∃ c q, p = String c q ∧ numeric c = false) → strip_prefix p (Itoa n +:+ rest) = None.
Proof.
  intros (c & q & -> & Hc). pose proof (Itoa_numeric n) as H. destruct (Itoa_head n) as (d & s & E & _). rewrite E in *.
  apply all_chars_cons in H as [H _]. cbn [String.append strip_prefix]. destruct (Ascii.eqb_spec c d) as [->|]; [congruence|done].
Qed.

Lemma read_shown v rest : plain v → ends rest → read_value (show v +:+ rest) = Some (v, rest).
Proof.
  destruct v as [s|n|b|l]; cbn [plain show]; [intros Hs _|intros Hn (c & r & -> & Hc)|intros _ _|done].
  - unfold read_value. unfold quoted at 1. cbn [String.append]. rewrite Ascii.eqb_refl.
    change (String quote ((escape 0 s +:+ String quote "") +:+ rest)) with (quoted s +:+ rest). rewrite read_quoted. cbn. by rewrite Hs.
  - destruct (Itoa_head n) as (d & s & E & Hd & _).
    pose proof (read_written_number n c r Hn Hc) as Hr.
    pose proof (digit_not_letter "true" n (String c r) ltac:(by eexists _, _)) as Ht.
    pose proof (digit_not_letter "false" n (String c r) ltac:(by eexists _, _)) as Hf.
    rewrite E in *. cbn [String.append] in *. unfold read_value. by rewrite Hd, Ht, Hf, Hr.
  - by destruct b.
Qed.

(** A name that is written as it is. *)
Definition key_ok (k : string) : bool := String.eqb (escape 0 k) k && bool_decide (utf8 k).

Lemma key_read k rest : key_ok k = true → read_string (String quote (k +:+ String quote rest)) = Some (k, rest).
Proof.
  intros [E%String.eqb_eq Hu%bool_decide_eq_true]%andb_true_iff. pose proof (read_quoted k rest) as H. unfold quoted in H. rewrite E in H.
  cbn [String.append] in H. rewrite append_assoc in H. cbn [String.append] in H. by rewrite Hu in H.
Qed.

Lemma members_cons comma k v t : members comma ((k, v) :: t) = (if comma then "," else "") +:+ String quote (k +:+ String quote (String ":" (show v +:+ members true t))).
Proof.
  cbn [members]. unfold member. rewrite append_assoc. f_equal. cbn [String.append]. f_equal. rewrite append_assoc. f_equal.
Qed.

Definition member_ok (m : string * value) : Prop := key_ok (fst m) = true ∧ plain (snd m).

Lemma ends_members t : ends (members true t +:+ "}").
Proof. destruct t as [|[k v] t]; [by exists "}"%char, ""|]. rewrite members_cons. eexists _, _. cbn [String.append]. by split. Qed.

Lemma members_back t : ∀ fuel, t ≠ [] → Forall member_ok t → (length t ≤ fuel)%nat → read_members fuel (members false t +:+ "}") = Some (t, "}").
Proof.
  induction t as [|[k v] t IH]; [done|]. intros fuel _ [[Hk Hv] Ht]%Forall_cons Hf. destruct fuel as [|fuel]; [cbn in Hf; lia|].
  rewrite members_cons. cbn [String.append]. rewrite append_assoc. cbn [String.append read_members]. rewrite key_read by done.
  cbn [mbind option_bind strip_prefix]. change (Ascii.eqb ":" ":") with true. cbv iota. rewrite append_assoc. cbn [mbind option_bind].
  rewrite read_shown by (done || apply ends_members).
  cbn [mbind option_bind]. destruct t as [|[k2 v2] t]; [done|].
  assert (members true ((k2, v2) :: t) +:+ "}" = String "," (members false ((k2, v2) :: t) +:+ "}")) as -> by (by rewrite !members_cons).
  change (Ascii.eqb "," ",") with true. cbv iota. by rewrite IH by (done || (cbn [length] in *; lia)).
Qed.

Lemma members_length t comma : (length t ≤ String.length (members comma t))%nat.
Proof.
  revert comma. induction t as [|[k v] t IH]; intros comma; [cbn; lia|]. rewrite members_cons, length_append. cbn [String.length length].
  rewrite length_append. cbn [String.length]. rewrite length_append. specialize (IH true). lia.
Qed.

(** What is written is read back, member by member. *)
Lemma read_object_written t : Forall member_ok t → read_object (object t) = Some t.
Proof.
  intros H. unfold read_object, object. change (strip_prefix "{" ("{" +:+ members false t +:+ "}")) with (Some (members false t +:+ "}")).
  cbn [mbind option_bind]. destruct t as [|[k v] t]; [done|].
  assert (strip_prefix "}" (members false ((k, v) :: t) +:+ "}") = None) as -> by (by rewrite members_cons).
  rewrite members_back; [done|done|done|]. rewrite length_append. pose proof (members_length ((k, v) :: t) false). lia.
Qed.

(** Single members: the last of a name is the first. *)
Definition single (g : bool * table) : Prop := length (snd g) = 1%nat.

Lemma latest_written l : Forall single l → latest (written l) = written (rev l).
Proof.
  unfold latest, written. induction 1 as [|[b t] l Hg _ IH]; [done|]. cbn [map concat rev fst snd]. rewrite rev_app_distr, IH, map_app, concat_app.
  f_equal. cbn [map concat fst snd]. rewrite app_nil_r. destruct t as [|m [|? ?]]; try done. by destruct b.
Qed.

End Object.

Module Link.
Import Json Toml Object.

Definition shareScheme : string := "backpack://".
Definition shareVersion : string := "1".
Definition shareLimit : nat := 64 * 1024.

Record ShareLink : Type := mkLink {
  V : Z;
  Kind : string;
  From : string;
  Name : string;
  Tok : string;
  Tr : string;
  Encap : string;
  SNI : string;
  Port : string;
  Host : string;
  Preset : string;
  Ports : string;
  AcceptUDP : bool;
  MSS : Z;
  MTU : Z;
  LocalIP : string;
  PeerIP : string;
  FECData : Z;
  FECParity : Z;
  Paths : Z;
  Profile : string;
  Uplink : string;
  Downlink : string;
  SrcIPs : string;
  Stealth : bool;
  ICMPReply : bool
}.

Definition set_V (l : ShareLink) (v : Z) : ShareLink :=
  mkLink v (Kind l) (From l) (Name l) (Tok l) (Tr l) (Encap l) (SNI l) (Port l) (Host l) (Preset l) (Ports l) (AcceptUDP l) (MSS l) (MTU l)
    (LocalIP l) (PeerIP l) (FECData l) (FECParity l) (Paths l) (Profile l) (Uplink l) (Downlink l) (SrcIPs l) (Stealth l) (ICMPReply l).

(** ** The members of a link *)

Definition always (k : string) (v : value) : bool * table := (true, [(k, v)]).
Definition text (k s : string) : bool * table := (negb (String.eqb s ""), [(k, Str s)]).
Definition number (k : string) (n : Z) : bool * table := (negb (n =? 0), [(k, Int n)]).
Definition flag (k : string) (b : bool) : bool * table := (b, [(k, Bool true)]).

Definition cells (l : ShareLink) : groups :=
  [always "v" (Int (V l));
   always "k" (Str (Kind l));
   always "f" (Str (From l));
   text "n" (Name l);
   always "t" (Str (Tok l));
   always "tr" (Str (Tr l));
   text "e" (Encap l);
   text "sni" (SNI l);
   always "p" (Str (Port l));
   text "h" (Host l);
   text "pr" (Preset l);
   text "po" (Ports l);
   flag "u" (AcceptUDP l);
   number "m" (MSS l);
   number "mt" (MTU l);
   text "li" (LocalIP l);
   text "pi" (PeerIP l);
   number "fd" (FECData l);
   number "fp" (FECParity l);
   number "pa" (Paths l);
   text "sp" (Profile l);
   text "su" (Uplink l);
   text "sd" (Downlink l);
   text "ss" (SrcIPs l);
   flag "sl" (Stealth l);
   flag "si" (ICMPReply l)].

Definition Marshal (l : ShareLink) : string := object (written (cells l)).

Definition texts : list string := ["k"; "f"; "n"; "t"; "tr"; "e"; "sni"; "p"; "h"; "pr"; "po"; "li"; "pi"; "sp"; "su"; "sd"; "ss"].
Definition numbers : list string := ["v"; "m"; "mt"; "fd"; "fp"; "pa"].
Definition flags : list string := ["u"; "sl"; "si"].

(** The field a name is read into: its own, or one that differs in case. *)
Definition named (k : string) : string :=
  let all := texts ++ numbers ++ flags in
  if existsb (same_key k) all then k else default k (List.find (λ f, EqualFold f k) all).

(** A member of another type stops the reading. *)
Definition typed (m : string * value) : bool :=
  let known := existsb (same_key (fst m)) in
  match snd m with
  | Str _ => negb (known numbers) && negb (known flags)
  | Int _ => negb (known texts) && negb (known flags)
  | Bool _ => negb (known texts) && negb (known numbers)
  | Strs _ => true
  end.

Definition fields (t : table) : ShareLink := {|
    V := int "v" t;
    Kind := str "k" t;
    From := str "f" t;
    Name := str "n" t;
    Tok := str "t" t;
    Tr := str "tr" t;
    Encap := str "e" t;
    SNI := str "sni" t;
    Port := str "p" t;
    Host := str "h" t;
    Preset := str "pr" t;
    Ports := str "po" t;
    AcceptUDP := bool_ "u" t;
    MSS := int "m" t;
    MTU := int "mt" t;
    LocalIP := str "li" t;
    PeerIP := str "pi" t;
    FECData := int "fd" t;
    FECParity := int "fp" t;
    Paths := int "pa" t;
    Profile := str "sp" t;
    Uplink := str "su" t;
    Downlink := str "sd" t;
    SrcIPs := str "ss" t;
    Stealth := bool_ "sl" t;
    ICMPReply := bool_ "si" t
  |}.

Definition Unmarshal (s : string) : option ShareLink :=
  t ← read_object s;
  let t := map (λ m : string * value, (named (fst m), snd m)) t in
  if forallb typed t then Some (fields (latest t)) else None.

(** ** Encoding *)

Inductive error : Type :=
  | Uncarryable (field : string) | Blank | NotALink | Incomplete | OtherVersion (v : string) | Damaged | Truncated
  | NoSecret | NoKind.

(** The fields of a link that hold text, in their order, as they are spoken of. *)
Definition spoken (l : ShareLink) : list (string * string) :=
  [("tunnel kind", Kind l); ("side", From l); ("name", Name l); ("token", Tok l); ("transport", Tr l); ("encapsulation", Encap l);
   ("SNI", SNI l); ("port", Port l); ("address", Host l); ("preset", Preset l); ("Ports", Ports l); ("local address", LocalIP l);
   ("peer address", PeerIP l); ("packet profile", Profile l); ("uplink", Uplink l); ("downlink", Downlink l); ("source addresses", SrcIPs l)].

Definition firstUncarryableField (l : ShareLink) : option string :=
  option_map fst (List.find (λ f, negb (bool_decide (utf8 (snd f)))) (spoken l)).

Section codec.
Context `{Gzip}.

Definition Encode (l : ShareLink) : result error string :=
  let l := set_V l 1 in
  match firstUncarryableField l with
  | Some f => Err (Uncarryable f)
  | None => Ok (shareScheme +:+ shareVersion +:+ "." +:+ GoB64.EncodeToString GoB64.RawURLEncoding (deflate (Marshal l)))
  end.

(** [io.ReadAll] of an [io.LimitReader]. *)
Definition read_limited (text : string) (ended : bool) : option string :=
  if (shareLimit <=? String.length text)%nat then Some (substring 0 shareLimit text)
  else if ended then Some text else None.

Definition DecodeShareLink (s : string) : result error ShareLink :=
  let s := TrimSpace s in
  if String.eqb s "" then Err Blank
  else if negb (HasPrefix s shareScheme) then Err NotALink
  else
    match Cut (TrimPrefix s shareScheme) "." with
    | None => Err Incomplete
    | Some (ver, payload) =>
        if negb (String.eqb ver shareVersion) then Err (OtherVersion ver)
        else
          match GoB64.DecodeString GoB64.RawURLEncoding payload with
          | None => Err Damaged
          | Some gz =>
              match inflate gz with
              | None => Err Damaged
              | Some (text, ended) =>
                  match read_limited text ended with
                  | None => Err Truncated
                  | Some raw =>
                      match Unmarshal raw with
                      | None => Err Damaged
                      | Some out =>
                          if String.eqb (Tok out) "" || String.eqb (Tr out) "" then Err NoSecret
                          else if String.eqb (Kind out) "reverse" || String.eqb (Kind out) "direct" then Ok out
                          else Err NoKind
                      end
                  end
              end
          end
    end.

End codec.

(** ** Lemmas *)

Definition int64_ok (n : Z) : Prop := -2^63 ≤ n < 2^63.

Lemma find_forall {A} (p : A → bool) l : List.find p l = None → Forall (λ x, p x = false) l.
Proof. intros H. apply List.Forall_forall. intros x. by apply List.find_none. Qed.

Lemma uncarryable_none l : firstUncarryableField l = None → Forall (λ f, utf8 (snd f)) (spoken l).
Proof.
  unfold firstUncarryableField. destruct (List.find _ (spoken l)) eqn:E; [done|]. intros _. apply find_forall in E.
  eapply Forall_impl; [exact E|]. intros f. cbv beta. by case_bool_decide.
Qed.

(** The numbers of a link. *)
Definition sized (l : ShareLink) : Prop := Forall int64_ok [V l; MSS l; MTU l; FECData l; FECParity l; Paths l].

Lemma written_Forall (P : string * value → Prop) l : Forall (λ g : bool * table, fst g = true → Forall P (snd g)) l → Forall P (written l).
Proof.
  unfold written. induction 1 as [|[b t] l Hg _ IH]; [constructor|]. cbn [map concat fst snd]. apply Forall_app. split; [|done].
  destruct b; [by apply Hg|constructor].
Qed.

Lemma cells_ok l : Forall (λ f, utf8 (snd f)) (spoken l) → sized l → Forall member_ok (written (cells l)).
Proof.
  intros Hu Hn. apply written_Forall. unfold spoken in Hu. unfold sized in Hn.
  repeat match goal with H : Forall _ (_ :: _) |- _ => apply Forall_cons in H as [? H] end. cbn [snd] in *.
  unfold cells. repeat (constructor; [intros _; constructor; [split; [by vm_compute|cbn [snd plain]; done]|constructor]|]). constructor.
Qed.

Lemma cells_single l : Forall single (cells l).
Proof. unfold cells. repeat (constructor; [done|]). constructor. Qed.

Lemma cells_named l : map (λ m : string * value, (named (fst m), snd m)) (written (cells l)) = written (cells l).
Proof.
  assert (Forall (λ m : string * value, (named (fst m), snd m) = m) (written (cells l))) as H.
  { apply written_Forall. unfold cells. repeat (constructor; [intros _; constructor; [by vm_compute|constructor]|]). constructor. }
  induction H as [|m t Hm _ IH]; [done|]. cbn [map]. by rewrite Hm, IH.
Qed.

Lemma cells_typed l : forallb typed (written (cells l)) = true.
Proof.
  apply List.forallb_forall. intros m Hm. revert m Hm. apply List.Forall_forall. apply written_Forall.
  unfold cells. repeat (constructor; [intros _; constructor; [by vm_compute|constructor]|]). constructor.
Qed.

(** Reads one field of what [Marshal] wrote. *)
Ltac read_cell := unfold str, int, bool_, latest; rewrite ?latest_written by apply cells_single; rewrite lookup_written by reflexivity;
  cbv [cells always text number flag has List.find app rev existsb fst snd lookup option_map same_key Ascii.eqb Bool.eqb orb].

Lemma text_read v : (match (if negb (String.eqb v "") then Some (Str v) else None) with Some (Str s) => s | _ => "" end) = v.
Proof. by destruct (String.eqb_spec v ""). Qed.

Lemma number_read v : (match (if negb (v =? 0) then Some (Int v) else None) with Some (Int n) => n | _ => 0 end) = v.
Proof. by destruct (Z.eqb_spec v 0). Qed.

Lemma cell_flag (v : bool) : (match (if v then Some (Bool true) else None) with Some (Bool b) => b | _ => false end) = v.
Proof. by destruct v. Qed.

Lemma fields_written l : fields (latest (written (cells l))) = l.
Proof.
  rewrite latest_written by apply cells_single. destruct l. unfold fields.
  f_equal; (read_cell; first [reflexivity | apply text_read | apply number_read | apply cell_flag]).
Qed.

(** JSON forth and back. *)
Lemma Unmarshal_Marshal l : Forall (λ f, utf8 (snd f)) (spoken l) → sized l → Unmarshal (Marshal l) = Some l.
Proof.
  intros Hu Hn. unfold Unmarshal, Marshal. rewrite read_object_written by by apply cells_ok. cbn [mbind option_bind].
  rewrite cells_named, cells_typed. by rewrite fields_written.
Qed.

Lemma b64_printable d : 0 ≤ d < 64 → printable (GoB64.digit GoB64.RawURLEncoding d) = true.
Proof.
  intros H. assert (forallb (λ n, printable (GoB64.digit GoB64.RawURLEncoding (Z.of_nat n))) (seq 0 64) = true) as HA by (by vm_compute).
  rewrite forallb_forall in HA. specialize (HA (Z.to_nat d)). rewrite Z2Nat.id in HA by lia. apply HA, in_seq. lia.
Qed.

Lemma encoded_printable l : bytes_ok l → all_chars printable (GoB64.EncodeToString GoB64.RawURLEncoding l).
Proof.
  induction l as [|a|a b|a b c l IH] using GoB64.list_ind3; intros Hl; [constructor| | |]; rewrite !bytes_ok_cons in Hl; unfold byte_ok in Hl;
    cbn [GoB64.EncodeToString GoB64.padded]; repeat (apply all_chars_cons; split; [apply b64_printable; Z.to_euclidean_division_equations; lia|]);
    [constructor|constructor|apply IH; tauto].
Qed.

Lemma set_V_spoken l v : spoken (set_V l v) = spoken l.
Proof. done. Qed.

Lemma sized_set_V l : sized l → sized (set_V l 1).
Proof. unfold sized, int64_ok. rewrite !Forall_cons. intros H. destruct_and!. by split_and!. Qed.

Lemma find_clear {A} (p : A → bool) l : Forall (λ x, p x = false) l → List.find p l = None.
Proof. induction 1 as [|x l Hx _ IH]; [done|]. cbn [List.find]. by rewrite Hx. Qed.

Section facts.
Context `{Gzip}.

Lemma Encode_Ok l : (∃ s, Encode l = Ok s) ↔ Forall (λ f, utf8 (snd f)) (spoken l).
Proof.
  unfold Encode. cbv zeta. split.
  - intros [s Hs]. destruct (firstUncarryableField (set_V l 1)) eqn:E; [done|]. by apply uncarryable_none in E.
  - intros Hu. unfold firstUncarryableField. rewrite find_clear; [by eexists|]. eapply Forall_impl; [exact Hu|].
    intros f Hf. cbv beta in *. by rewrite bool_decide_eq_true_2.
Qed.

Lemma Encode_text l s : Encode l = Ok s →
  s = shareScheme +:+ (shareVersion +:+ "." +:+ GoB64.EncodeToString GoB64.RawURLEncoding (deflate (Marshal (set_V l 1)))) ∧
  all_chars printable s ∧ Forall (λ f, utf8 (snd f)) (spoken l).
Proof.
  intros Hs. assert (Forall (λ f, utf8 (snd f)) (spoken l)) as Hu by (apply Encode_Ok; by exists s).
  unfold Encode in Hs. cbv zeta in Hs. destruct (firstUncarryableField (set_V l 1)); [done|]. injection Hs as <-. split_and!; [done| |done].
  repeat (apply all_chars_cons; split; [done|]). apply encoded_printable, deflate_bytes.
Qed.

(** What the reader makes of the text of a link. *)
Definition judge (raw : option string) : result error ShareLink :=
  match raw with
  | None => Err Truncated
  | Some raw =>
      match Unmarshal raw with
      | None => Err Damaged
      | Some out =>
          if String.eqb (Tok out) "" || String.eqb (Tr out) "" then Err NoSecret
          else if String.eqb (Kind out) "reverse" || String.eqb (Kind out) "direct" then Ok out else Err NoKind
      end
  end.

Lemma Decode_link l s : Encode l = Ok s → DecodeShareLink s = judge (read_limited (Marshal (set_V l 1)) true).
Proof.
  intros Hs. destruct (Encode_text l s Hs) as (-> & Hp & _). unfold DecodeShareLink. rewrite (TrimSpace_printable _ Hp).
  set (rest := shareVersion +:+ "." +:+ _). change (String.eqb (shareScheme +:+ rest) "") with false. cbv iota.
  unfold HasPrefix, TrimPrefix. rewrite strip_prefix_app. cbn [negb]. subst rest. unfold shareVersion.
  set (payload := GoB64.EncodeToString _ _). change (Cut ("1" +:+ "." +:+ payload) ".") with (Some ("1", payload)).
  cbn [String.eqb Ascii.eqb Bool.eqb negb]. subst payload. rewrite GoB64.DecodeString_EncodeToString by apply deflate_bytes.
  by rewrite inflate_deflate.
Qed.

Lemma Decode_trim s t : TrimSpace t = TrimSpace s → DecodeShareLink t = DecodeShareLink s.
Proof. unfold DecodeShareLink. by intros ->. Qed.

(** Every link whose text is UTF-8 can be made, and only those; one that
    names its kind, token and transport and fits the reader's limit is read back
    as it was made, with whatever blanks the paste put around it. *)
Theorem share_roundtrip l :
  ((∃ s, Encode l = Ok s) ↔ Forall (λ f, utf8 (snd f)) (spoken l)) ∧
  (∀ s t, Encode l = Ok s → TrimSpace t = s → Tok l ≠ "" → Tr l ≠ "" → Kind l = "reverse" ∨ Kind l = "direct" → sized l →
    (String.length (Marshal (set_V l 1)) ≤ shareLimit)%nat → DecodeShareLink t = Ok (set_V l 1)).
Proof.
  split; [apply Encode_Ok|]. intros s t Hs Ht H1 H2 H3 Hn Hl. destruct (Encode_text l s Hs) as (_ & Hp & Hu).
  rewrite (Decode_trim s) by (by rewrite (TrimSpace_printable s Hp)). rewrite (Decode_link l s Hs).
  unfold read_limited. rewrite substring_all by done. destruct (shareLimit <=? _)%nat; cbn [judge]; rewrite Unmarshal_Marshal by (done || by apply sized_set_V).
  all: cbn [set_V Tok Tr Kind]; rewrite (proj2 (String.eqb_neq _ _) H1), (proj2 (String.eqb_neq _ _) H2); cbn [orb].
  all: destruct H3 as [-> | ->]; done.
Qed.

End facts.

(** Compression that only stores. *)
#[local] Instance stored : Gzip.
Proof.
  refine {| deflate := to_bytes; inflate := λ l, Some (of_bytes l, true) |}; [apply to_bytes_ok|].
  intros s. by rewrite of_to_bytes.
Defined.

Definition some_link (token : string) : ShareLink :=
  mkLink 0 "direct" "iran" "edge-iran" token "udp" "gre" "" "9000" "203.0.113.7" "turbo" "443, 8443" true 0 1400 "10.10.0.1/30" "10.10.0.2" 10 3 4 "" "" "" "" false false.

Lemma share_roundtrip_witness : ∃ s, Encode (some_link "a<b&c") = Ok s ∧ DecodeShareLink (" " +:+ s +:+ " ") = Ok (set_V (some_link "a<b&c") 1).
Proof.
  destruct (Encode (some_link "a<b&c")) as [s|] eqn:E; [|by vm_compute in E]. exists s. split; [done|].
  assert (TrimSpace (" " +:+ s +:+ " ") = s) as Ht by (revert E; vm_compute; by intros [= <-]).
  refine (proj2 (share_roundtrip (some_link "a<b&c")) s _ E Ht _ _ _ _ _); [done|done|by right|by repeat (constructor; [done|])|].
  apply Nat.leb_le. by vm_compute.
Defined.

End Link.

Module Mirror.
Import Link.

(** [strings.TrimSuffix]. *)
Definition TrimSuffix (s suffix : string) : string :=
  match strip_prefix (rev_string suffix) (rev_string s) with Some r => rev_string r | None => s end.

Definition PeerSide (l : ShareLink) : string := if EqualFold (From l) "iran" then "kharej" else "iran".

Definition peerName (l : ShareLink) : string :=
  if String.eqb (Name l) "" then "" else TrimSuffix (TrimSuffix (Name l) "-iran") "-kharej" +:+ "-" +:+ PeerSide l.

Definition hostOf (addr : string) : string := match Cut addr "/" with Some (a, _) => a | None => addr end.

Definition singleSource (l : string) : option string :=
  match filter (λ p, p ≠ "") (map TrimSpace (Split l ",")) with [one] => Some one | _ => None end.

Record PeerForm : Type := mkPeer {
  PKind : string;
  PSide : string;
  PName : string;
  PTransport : string;
  PCarrier : string;
  PSNIDomain : string;
  PEncap : string;
  PServerAddr : string;
  PTunnelPort : string;
  PToken : string;
  PPorts : string;
  PAcceptUDP : bool;
  PPreset : string;
  PMSS : Z;
  PMTU : Z;
  PLocalIP : string;
  PPeerIP : string;
  PPaths : Z;
  PFEC : bool;
  PSpoof : option SpoofTune.SpoofTune;
  PStealth : bool;
  PSpoofPeerIP : string;
  PPaired : list string;
  (** [Note] is set: the other end rotates several forged sources. *)
  ManySources : bool
}.

(** The spoof block of a form. *)
Definition spoof_tune (l : ShareLink) : SpoofTune.SpoofTune :=
  SpoofTune.mkTune (Profile l) (Uplink l) (Downlink l) "" "" (default "" (singleSource (SrcIPs l))) "" "" 0 0 (ICMPReply l) false false false 0 0 false 0 false.

Definition set_to (s : string) : bool := negb (String.eqb s "").

Definition spoofs (l : ShareLink) : bool :=
  String.eqb (Tr l) "spoof" || set_to (Profile l) || set_to (Uplink l) || set_to (Downlink l) || set_to (SrcIPs l).

Definition and_also (b : bool) (names : list string) : list string := if b then names else [].

(** Which fields came from the link, in the order they are named. *)
Definition paired (l : ShareLink) : list string :=
  let iran := String.eqb (PeerSide l) "iran" in
  ["token"; "tunnelPort"] ++
  (if String.eqb (Kind l) "reverse" then "transport" :: and_also (negb iran) ["serverAddr"]
   else
     and_also (set_to (SNI l)) ["sniDomain"] ++ ["carrier"] ++ and_also (set_to (Encap l)) ["encap"] ++
     and_also (set_to (PeerIP l)) ["localIp"; "peerIp"] ++ and_also iran ["serverAddr"]) ++
  and_also (1 <? Paths l) ["paths"] ++ and_also ((0 <? FECData l) && (0 <? FECParity l)) ["fec"] ++ and_also (0 <? MSS l) ["mss"] ++
  and_also (spoofs l) (["spoof.profile"] ++ and_also (set_to (Uplink l) || set_to (Downlink l)) ["spoof.uplink"; "spoof.downlink"] ++
    and_also (Stealth l) ["stealth"] ++ and_also (match singleSource (SrcIPs l) with Some _ => true | None => false end) ["spoof.peerSrcIP"] ++
    and_also (set_to (Host l)) ["spoofPeerIp"]).

Definition MirrorForPeer (l : ShareLink) : PeerForm :=
  let side := PeerSide l in
  let reverse := String.eqb (Kind l) "reverse" in
  let iran := String.eqb side "iran" in
  {|
    PKind := Kind l;
    PSide := side;
    PName := peerName l;
    PTransport := if reverse then Tr l else "";
    PCarrier := if reverse then "" else Tr l;
    PSNIDomain := if reverse then "" else SNI l;
    PEncap := if reverse then "" else Encap l;
    PServerAddr := if Bool.eqb reverse iran then "" else Host l;
    PTunnelPort := Port l;
    PToken := Tok l;
    PPorts := if iran then Ports l else "";
    PAcceptUDP := iran && AcceptUDP l;
    PPreset := Preset l;
    PMSS := MSS l;
    PMTU := MTU l;
    PLocalIP := if reverse then "" else PeerIP l;
    PPeerIP := if reverse then "" else hostOf (LocalIP l);
    PPaths := Paths l;
    PFEC := (0 <? FECData l) && (0 <? FECParity l);
    PSpoof := if spoofs l then Some (spoof_tune l) else None;
    PStealth := Stealth l;
    PSpoofPeerIP := if spoofs l then Host l else "";
    PPaired := paired l;
    ManySources := spoofs l && match singleSource (SrcIPs l) with Some _ => false | None => set_to (SrcIPs l) end
  |}.

(** ** The link of a tunnel *)

Definition addrPort (addr : string) : string := match Net.SplitHostPort addr with Some (_, p) => p | None => "" end.

Fixpoint distinct (seen l : list string) : list string :=
  match l with
  | [] => []
  | s :: l =>
      let s := TrimSpace s in
      if String.eqb s "" || existsb (String.eqb s) seen then distinct seen l else s :: distinct (s :: seen) l
  end.
Definition nonEmpty (l : list string) : list string := distinct [] l.

Inductive share_error : Type := NotShareable | NoToken | Unencodable (e : error).

Definition share_l3 (name host : string) (c : L3Cfg.L3Config) : ShareLink :=
  let sc := L3Cfg.Spoof c in
  {|
    V := 0;
    Kind := "direct";
    From := if EqualFold (TrimSpace (L3Cfg.Mode c)) "listen" then "kharej" else "iran";
    Name := name;
    Tok := L3Cfg.Token c;
    Tr := DirectSpec.orDefault (L3Cfg.Carrier c) "udp";
    Encap := "gre";
    SNI := L3Cfg.SNIDomain c;
    Port := addrPort (L3Cfg.Addr c);
    Host := TrimSpace host;
    Preset := L3Cfg.Preset c;
    Ports := Join (items (L3Cfg.Ports c)) ", ";
    AcceptUDP := L3Cfg.AcceptUDP c;
    MSS := 0;
    MTU := L3Cfg.MTU c;
    LocalIP := L3Cfg.LocalIP c;
    PeerIP := L3Cfg.PeerIP c;
    FECData := L3Cfg.FECData c;
    FECParity := L3Cfg.FECParity c;
    Paths := L3Cfg.Paths c;
    Profile := Tuning.SpoofProfile sc;
    Uplink := Tuning.SpoofUplink sc;
    Downlink := Tuning.SpoofDownlink sc;
    SrcIPs := Join (nonEmpty (Tuning.SpoofSrcIP sc :: items (Tuning.SpoofSrcPool sc))) ", ";
    Stealth := SpoofTune.spoofStealthOn sc;
    ICMPReply := Tuning.SpoofICMPReply sc
  |}.

Definition share_server (name host : string) (c : ServerCfg.ServerConfig) : ShareLink :=
  mkLink 0 "reverse" "iran" name (ServerCfg.Token c) (ServerCfg.Transport c) "" "" (addrPort (ServerCfg.BindAddr c)) (TrimSpace host)
    (ServerCfg.Preset c) (Join (items (ServerCfg.Ports c)) ", ") (ServerCfg.ForwardsUDP c) (ServerCfg.MSS c) 0 "" "" 0 0 0 "" "" "" "" false false.

Definition share_client (name host : string) (c : ClientCfg.ClientConfig) : ShareLink :=
  mkLink 0 "reverse" "kharej" name (ClientCfg.Token c) (ClientCfg.Transport c) "" "" (addrPort (ClientCfg.RemoteAddr c)) (TrimSpace host)
    (ClientCfg.Preset c) "" false (ClientCfg.MSS c) 0 "" "" 0 0 0 "" "" "" "" false false.

(** [ShareLinkFor], up to the link it encodes. *)
Definition share_of (name host : string) (c : Settings.Config) : result share_error ShareLink :=
  let? l :=
    if L3Cfg.Enabled (Settings.L3 c) then Ok (share_l3 name host (Settings.L3 c))
    else if set_to (ServerCfg.BindAddr (Settings.Server c)) then Ok (share_server name host (Settings.Server c))
    else if set_to (ClientCfg.RemoteAddr (Settings.Client c)) then Ok (share_client name host (Settings.Client c))
    else Err NotShareable in
  if String.eqb (Tok l) "" then Err NoToken else Ok l.

Definition ShareLinkFor `{Gzip} (name host : string) (c : Settings.Config) : result share_error string :=
  let? l := share_of name host c in
  match Encode l with Ok s => Ok s | Err e => Err (Unencodable e) end.

(** ** The form of the other end *)

(** What a link fills of the form of a reverse tunnel: its drawer is the UDP
    answer and the segment size. *)
Record NewTunnel : Type := mkNew {
  Role : string;
  NTransport : string;
  NName : string;
  NTunnelPort : string;
  NServerAddr : string;
  NToken : string;
  NPorts : string;
  NPreset : string;
  Tune : option (bool * Z)
}.

Definition ToNewTunnel (f : PeerForm) : NewTunnel :=
  let server := EqualFold (PSide f) "iran" in
  {|
    Role := if server then "server" else "client";
    NTransport := PTransport f;
    NName := PName f;
    NTunnelPort := PTunnelPort f;
    NServerAddr := if server then "" else PServerAddr f;
    NToken := PToken f;
    NPorts := PPorts f;
    NPreset := PPreset f;
    Tune := if PAcceptUDP f || (0 <? PMSS f) then Some (PAcceptUDP f, PMSS f) else None
  |}.

Definition ToNewDirectTunnel (f : PeerForm) : Form.NewDirectTunnel :=
  {|
    Form.FSide := if String.eqb (ToLower (TrimSpace (PSide f))) "iran" then "iran" else "kharej";
    Form.FCarrier := PCarrier f;
    Form.FName := PName f;
    Form.FToken := PToken f;
    Form.PeerAddr := PServerAddr f;
    Form.TunnelPort := PTunnelPort f;
    Form.FPorts := PPorts f;
    Form.FAcceptUDP := PAcceptUDP f;
    Form.FLocalIP := PLocalIP f;
    Form.FPeerIP := PPeerIP f;
    Form.FPreset := PPreset f;
    Form.FSpoof := PSpoof f;
    Form.Stealth := PStealth f;
    Form.FPaths := PPaths f;
    Form.FEC := PFEC f;
    Form.FSpoofPeerIP := PSpoofPeerIP f;
    Form.FSNIDomain := PSNIDomain f;
    Form.FGREKey := 0;
    Form.FMaxConnections := 0;
    Form.FBandwidthMbps := 0
  |}.

(** ** Lemmas *)

(** The port of an address that was put together and taken apart. *)
Lemma joined_port h p : free ":" p → free "]" p → snd (Engine.splitListenHost (Net.JoinHostPort h p)) = p.
Proof.
  intros Hp Hb. unfold Net.JoinHostPort. destruct (contains_char ":" h) eqn:E.
  - change ("[" +:+ h +:+ "]:" +:+ p) with ((String "[" h) +:+ String "]" (String ":" p)). unfold Engine.splitListenHost.
    rewrite cut_last_app by (apply all_chars_cons; by split). by rewrite (Cut_head (String ":" p) ":" p).
  - change (h +:+ ":" +:+ p) with (h +:+ String ":" p). apply contains_free in E. unfold Engine.splitListenHost.
    destruct (split_last "]" h) as [(x & y & -> & Hy)|Hn].
    + rewrite append_assoc. cbn [String.append]. assert (free "]" (y +:+ String ":" p)) as Hf by (apply free_app; split; [done|]; apply all_chars_cons; by split).
      rewrite cut_last_app by done. apply free_app in E as [_ E]. apply all_chars_cons in E as [_ E].
      pose proof (Cut_app y ":" "" p E) as Hc. cbn [String.append] in Hc. by rewrite Hc.
    + assert (free "]" (h +:+ String ":" p)) as Hf by (apply free_app; split; [done|]; apply all_chars_cons; by split).
      rewrite (cut_last_free "]") by done. by rewrite cut_last_app.
Qed.

Lemma port_of_joined h p : Spec.ValidPort p = true → is_Some (Net.SplitHostPort (Net.JoinHostPort h p)) → addrPort (Net.JoinHostPort h p) = p.
Proof.
  intros [n (_ & _ & _ & Hc)]%Readers.ValidPort_value [[x q] E]. unfold addrPort. rewrite E. apply Readers.SplitHostPort_port in E.
  unfold Readers.ports_text in E. rewrite joined_port in E by (by apply Readers.port_free). congruence.
Qed.

Lemma far_mode (listens : bool) l : From l = (if listens then "kharej" else "iran") → PeerSide l = if listens then "iran" else "kharej".
Proof. unfold PeerSide. intros ->. by destruct listens. Qed.

(** A profile written as the screens write it. *)
Definition plain_profile (p : string) : Prop := p ∈ "" :: SpoofTune.spoofProfiles.

Lemma profile_kept w p s : plain_profile p → SpoofTune.spoofProfile w p = Ok s → s = p.
Proof.
  unfold plain_profile, SpoofTune.spoofProfiles. intros H E.
  repeat (apply elem_of_cons in H as [->|H]; [vm_compute in E; by injection E as <-|]). by apply elem_of_nil in H.
Qed.

Definition directions (s : Tuning.SpoofConfig) : Spoof.SpoofProfile * Spoof.SpoofProfile :=
  Spoof.ResolveSpoofDirections (Tuning.SpoofProfile s) (Tuning.SpoofUplink s) (Tuning.SpoofDownlink s).

Definition plain_profiles (s : Tuning.SpoofConfig) : Prop :=
  plain_profile (Tuning.SpoofProfile s) ∧ plain_profile (Tuning.SpoofUplink s) ∧ plain_profile (Tuning.SpoofDownlink s).

(** The drawer a link opens sends what the other end sends. *)
Lemma tune_directions h l s0 s : plain_profile (Profile l) → plain_profile (Uplink l) → plain_profile (Downlink l) →
  SpoofTune.apply h (spoof_tune l) s0 = Ok s → directions s = Spoof.ResolveSpoofDirections (Profile l) (Uplink l) (Downlink l).
Proof.
  intros H1 H2 H3 H. unfold SpoofTune.apply in H. apply bind_Ok in H as (p & Hp & H). apply bind_Ok in H as (up & Hu & H). apply bind_Ok in H as (down & Hd & H).
  repeat (apply bind_Ok in H as (? & _ & H)). injection H as <-. cbn [spoof_tune SpoofTune.Profile SpoofTune.Uplink SpoofTune.Downlink] in *.
  apply (profile_kept _ _ _ H1) in Hp as ->. apply (profile_kept _ _ _ H2) in Hu as ->. apply (profile_kept _ _ _ H3) in Hd as ->.
  unfold directions, Spoof.ResolveSpoofDirections. cbn [Tuning.SpoofProfile Tuning.SpoofUplink Tuning.SpoofDownlink].
  destruct (String.eqb_spec (Profile l) "") as [->|]; [|done]. by destruct (String.eqb (Uplink l) ""), (String.eqb (Downlink l) "").
Qed.

(** The spoof settings the far end's form gives. *)
Lemma far_spoof b side n s t : Form.spoof_of b side n = Ok s → Form.FSpoof n = Some t → TrimSpace (Form.FSpoofPeerIP n) ≠ "" →
  ∃ s0, SpoofTune.apply (Box.hst b) t Tuning.no_spoof = Ok s0 ∧ directions s = directions s0 ∧
    Tuning.SpoofPeerIP s = TrimSpace (Form.FSpoofPeerIP n) ∧ Tuning.SpoofPeerSrcIP s = Tuning.SpoofPeerSrcIP s0.
Proof.
  unfold Form.spoof_of. intros H E Hip. rewrite E in H. apply bind_Ok in H as (s0 & H0 & H). cbv zeta in H. rewrite (proj2 (String.eqb_neq _ _) Hip) in H.
  apply bind_Ok in H as (s1 & H1 & H). apply bind_Ok in H as ([] & _ & [= <-]). destruct (Form.is_ip _); [|done]. injection H1 as <-.
  exists s0. split; [by destruct (SpoofTune.apply (Box.hst b) t Tuning.no_spoof); [injection H0 as <-|]|].
  destruct (Form.Stealth n); [|done]. unfold SpoofTune.applySpoofStealth. by destruct (Spoof.ResolveSpoofDirections _ _ _).
Qed.

Lemma Validate_more c c' : L3Checks.Validate c = Ok c' →
  L3Checks.Mode c' = ToLower (TrimSpace (L3Checks.Mode c)) ∧ L3Checks.Token c' = L3Checks.Token c ∧ L3Checks.FEC c' = L3Checks.FEC c ∧
  L3Checks.Spoof c' = L3Checks.Spoof c ∧ L3Checks.GREKey c' = L3Checks.GREKey c ∧ L3Checks.Encap c' = "gre" ∧ L3Checks.SNIDomain c' = L3Checks.SNIDomain c.
Proof. unfold L3Checks.Validate. intros H. repeat (apply bind_Ok in H as (? & _ & H)). by injection H as <-. Qed.

(** The two ends of a tunnel, as their engines are configured. [host] is the
    address the near end gave for itself. *)
Record ends_agree (host : string) (near far : L3Checks.Config) : Prop := {
  a_mode : (L3Checks.Mode near = "dial" ∧ L3Checks.Mode far = "listen") ∨ (L3Checks.Mode near = "listen" ∧ L3Checks.Mode far = "dial");
  a_token : L3Checks.Token far = TrimSpace (L3Checks.Token near);
  a_carrier : L3Checks.Carrier far = L3Checks.Carrier near;
  a_encap : L3Checks.Encap far = L3Checks.Encap near;
  a_port : addrPort (L3Checks.Addr far) = TrimSpace (addrPort (L3Checks.Addr near));
  a_dials : L3Checks.Mode far = "dial" → L3Checks.Addr far = Net.JoinHostPort (TrimSpace host) (addrPort (L3Checks.Addr far));
  a_net : TrimSpace (L3Checks.PeerIP near) ≠ "" → TrimSpace (hostOf (L3Checks.LocalIP near)) ≠ "" →
    L3Checks.LocalIP far = TrimSpace (L3Checks.PeerIP near) ∧ L3Checks.PeerIP far = TrimSpace (hostOf (L3Checks.LocalIP near));
  a_paths : Multipath.Enabled (L3Checks.Multipath far) = Multipath.Enabled (L3Checks.Multipath near) ∧
    (Multipath.Enabled (L3Checks.Multipath near) = true → L3Checks.Multipath far = L3Checks.Multipath near);
  a_fec : Fec.Enabled (L3Checks.FEC far) = Fec.Enabled (L3Checks.FEC near);
  a_sni : L3Checks.Carrier near = "sni" → L3Checks.SNIDomain far = ToLower (TrimSpace (L3Checks.SNIDomain near));
  a_spoof : L3Checks.Carrier near = "spoof" → TrimSpace host ≠ "" → plain_profiles (L3Checks.Spoof near) →
    directions (L3Checks.Spoof far) = directions (L3Checks.Spoof near) ∧ Tuning.SpoofPeerIP (L3Checks.Spoof far) = TrimSpace host
}.

Section pair.
Context (b : Box.box) (fuel : nat) (typed : list string) (name host : string) (l : L3Cfg.L3Config) (s : DirectSpec.l3Spec).

Definition far_form : Form.NewDirectTunnel := ToNewDirectTunnel (MirrorForPeer (share_l3 name host l)).

Context (written_mode : L3Cfg.Mode l = "dial" ∨ L3Cfg.Mode l = "listen")
        (written_carrier : L3Cfg.Carrier l ∈ "" :: Form.carrierNames)
        (made : Form.made_of b far_form s).

Lemma far_peer_side : PeerSide (share_l3 name host l) = if String.eqb (L3Cfg.Mode l) "listen" then "iran" else "kharej".
Proof using written_mode.
  apply far_mode. change (From (share_l3 name host l)) with (if EqualFold (TrimSpace (L3Cfg.Mode l)) "listen" then "kharej" else "iran").
  by destruct written_mode as [-> | ->].
Qed.

Lemma far_side : DirectSpec.Side s = if String.eqb (L3Cfg.Mode l) "listen" then DirectSpec.sideIran else DirectSpec.sideKharej.
Proof using written_mode made.
  pose proof (Form.m_side _ _ _ made) as H. change (Form.FSide far_form) with (if String.eqb (ToLower (TrimSpace (PeerSide (share_l3 name host l)))) "iran" then "iran" else "kharej") in H.
  assert (∀ i : bool, Form.the_side (if String.eqb (ToLower (TrimSpace (if i then "iran" else "kharej"))) "iran" then "iran" else "kharej") =
    Some (if i then DirectSpec.sideIran else DirectSpec.sideKharej)) as Hi by (intros []; by vm_compute).
  rewrite far_peer_side, Hi in H. by injection H as <-.
Qed.

Lemma far_fields : Form.FToken far_form = L3Cfg.Token l ∧ Form.TunnelPort far_form = addrPort (L3Cfg.Addr l) ∧
  Form.FLocalIP far_form = L3Cfg.PeerIP l ∧ Form.FPeerIP far_form = hostOf (L3Cfg.LocalIP l) ∧ Form.FPaths far_form = L3Cfg.Paths l ∧
  Form.FEC far_form = (0 <? L3Cfg.FECData l) && (0 <? L3Cfg.FECParity l) ∧ Form.FSNIDomain far_form = L3Cfg.SNIDomain l ∧
  (L3Cfg.Mode l = "listen" → Form.PeerAddr far_form = TrimSpace host).
Proof using written_mode.
  split_and!; try reflexivity. intros E.
  change (Form.PeerAddr far_form) with (if Bool.eqb false (String.eqb (PeerSide (share_l3 name host l)) "iran") then "" else TrimSpace host).
  rewrite far_peer_side, E. done.
Qed.

Lemma plain_carrier c : c ∈ "" :: Form.carrierNames →
  or_string (ToLower (TrimSpace (DirectSpec.orDefault c "udp"))) "pck" = DirectSpec.orDefault c "udp" ∧
  or_string (ToLower (TrimSpace c)) L3Checks.CarrierUDP = DirectSpec.orDefault c "udp".
Proof. unfold Form.carrierNames. intros H. repeat (apply elem_of_cons in H as [->|H]; [by vm_compute|]). by apply elem_of_nil in H. Qed.

Lemma far_carrier : DirectSpec.Carrier s = DirectSpec.orDefault (L3Cfg.Carrier l) "udp".
Proof using written_carrier made. rewrite (Form.m_carrier _ _ _ made). by apply (plain_carrier (L3Cfg.Carrier l)). Qed.

(** The mode either end runs in. *)
Lemma far_mode_of flags near : L3Checks.Validate (Dispatch.l3_config l flags) = Ok near → L3Checks.Mode near = L3Cfg.Mode l.
Proof using written_mode.
  intros H. destruct (Validate_more _ _ H) as (-> & _). change (L3Checks.Mode (Dispatch.l3_config l flags)) with (L3Cfg.Mode l).
  by destruct written_mode as [-> | ->].
Qed.

Lemma far_spoof_agrees : DirectSpec.Carrier s = "spoof" → TrimSpace host ≠ "" → plain_profiles (L3Cfg.Spoof l) →
  directions (DirectSpec.Spoof s) = directions (L3Cfg.Spoof l) ∧ Tuning.SpoofPeerIP (DirectSpec.Spoof s) = TrimSpace host.
Proof using written_carrier made.
  intros Hc Hh (P1 & P2 & P3). pose proof (Form.m_spoof _ _ _ made) as H. rewrite Hc in H. change (String.eqb "spoof" "spoof") with true in H. cbv iota in H.
  assert (spoofs (share_l3 name host l) = true) as Hk.
  { rewrite far_carrier in Hc. unfold spoofs. change (Tr (share_l3 name host l)) with (DirectSpec.orDefault (L3Cfg.Carrier l) "udp"). by rewrite Hc. }
  apply (far_spoof b _ far_form _ (spoof_tune (share_l3 name host l))) in H.
  - destruct H as (s0 & H0 & -> & -> & _). rewrite (tune_directions _ (share_l3 name host l) _ _ P1 P2 P3 H0). split; [done|].
    change (Form.FSpoofPeerIP far_form) with (if spoofs (share_l3 name host l) then TrimSpace host else ""). rewrite Hk. apply TrimSpace_idem.
  - change (Form.FSpoof far_form) with (if spoofs (share_l3 name host l) then Some (spoof_tune (share_l3 name host l)) else None). by rewrite Hk.
  - change (Form.FSpoofPeerIP far_form) with (if spoofs (share_l3 name host l) then TrimSpace host else ""). by rewrite Hk, TrimSpace_idem.
Qed.

End pair.

Lemma r_addr_joined s h p : Form.runs s → DirectSpec.Addr s = Net.JoinHostPort h p → Spec.ValidPort p = true →
  addrPort (DirectSpec.Addr s) = p ∧ is_Some (Net.SplitHostPort (DirectSpec.Addr s)).
Proof. intros [[Ha _] _ _ _ _ _] E Hp. split; [|done]. rewrite E in *. by apply port_of_joined. Qed.

(** A layer-3 tunnel handed over by its link comes up as the other half of
    itself: whatever form the other machine makes of it runs in the other mode,
    with the same token, carrier, encapsulation and port, the two private
    addresses exchanged, as many sockets, error correction on both ends or on
    neither, and the same packets in each direction; the side that dials dials
    the address it was given. *)
Theorem pair_agrees b fuel typed name host l flags flags' near s far
    (Hm : L3Cfg.Mode l = "dial" ∨ L3Cfg.Mode l = "listen") (Hc : L3Cfg.Carrier l ∈ "" :: Form.carrierNames)
    (Hn : L3Checks.Validate (Dispatch.l3_config l flags) = Ok near)
    (Hs : Form.spec b fuel typed (far_form name host l) = Ok s)
    (Hf : L3Checks.Validate (Dispatch.l3_config (DirectSpec.decode (DirectSpec.render s)) flags') = Ok far) :
  ends_agree host near far.
Proof.
  pose proof (Form.spec_made _ _ _ _ _ Hs) as M. pose proof (Form.spec_filled _ _ _ _ _ Hs) as F.
  rewrite DirectSpec.decode_render in Hf. apply (Form.runs_as_written _ _ _ F) in Hf as [-> R].
  destruct (Form.filled_written s flags' F) as (W1 & W2 & W3 & W4 & _).
  pose proof (far_mode_of l Hm _ _ Hn) as N1. pose proof (Validate_more _ _ Hn) as (_ & N2 & N3 & N4 & _ & N5 & N6).
  pose proof (Form.Validate_keeps _ _ Hn) as (N7 & N8 & N9 & N10 & _ & N11).
  pose proof (far_side b name host l s Hm M) as S1. pose proof (far_carrier b name host l s Hc M) as S2.
  change (L3Checks.Carrier (Dispatch.l3_config l flags)) with (L3Cfg.Carrier l) in N11. rewrite (proj2 (plain_carrier _ Hc)) in N11.
  destruct (far_fields name host l Hm) as (F1 & F2 & F3 & F4 & F5 & F6 & F7 & F8).
  assert (DirectSpec.Carrier s = "spoof" → TrimSpace host ≠ "" → plain_profiles (L3Cfg.Spoof l) →
    directions (DirectSpec.Spoof s) = directions (L3Cfg.Spoof l) ∧ Tuning.SpoofPeerIP (DirectSpec.Spoof s) = TrimSpace host) as Hspoof
    by (by apply (far_spoof_agrees b name host l)).
  destruct M as [_ _ M1 M2 M3 M4 _ M6 M7 M8 _ _]. rewrite F1, F2, F3, F4, F5, F6, F7 in *. destruct (r_addr_joined _ _ _ R M2 M1) as [A1 A2].
  split.
  - rewrite N1, W1, S1. destruct Hm as [-> | ->]; [by left|by right].
  - rewrite N2. exact M3.
  - by rewrite N11, W2, S2.
  - by rewrite N5.
  - rewrite N7. exact A1.
  - rewrite W1, S1. intros Hd. change (DirectSpec.Addr s = Net.JoinHostPort (TrimSpace host) (addrPort (DirectSpec.Addr s))).
    rewrite A1, M2, S1. destruct Hm as [E|E]; rewrite E in Hd |- *; [done|]. cbn [DirectSpec.is_iran String.eqb Ascii.eqb Bool.eqb].
    by rewrite F8, TrimSpace_idem.
  - rewrite N8, N9. exact M4.
  - rewrite N10. change (L3Checks.Multipath (Dispatch.l3_config l flags)) with (Multipath.mkConfig (L3Cfg.Paths l)).
    set (m := L3Checks.Multipath _) in *. destruct m as [p]. cbn [Multipath.Paths Multipath.Enabled] in *. subst p. rewrite M7. unfold Multipath.Enabled. cbn [Multipath.Paths].
    destruct (1 <? L3Cfg.Paths l) eqn:E; [by rewrite E|done].
  - rewrite N3, W3. change (L3Checks.FEC (Dispatch.l3_config l flags)) with (Fec.mkFEC (L3Cfg.FECData l) (L3Cfg.FECParity l)).
    unfold Fec.Enabled. cbn [Fec.Data Fec.Parity]. destruct ((0 <? L3Cfg.FECData l) && (0 <? L3Cfg.FECParity l)); by injection M8 as -> ->.
  - rewrite N11, N6. intros E. change ((if String.eqb (DirectSpec.Carrier s) "sni" then DirectSpec.SNIDomain s else "") = ToLower (TrimSpace (L3Cfg.SNIDomain l))).
    by rewrite S2, E.
  - rewrite N11, N4. intros E Hh Hp. rewrite <- S2 in E. exact (Hspoof E Hh Hp).
Qed.

(** A tunnel handed over to an empty machine: both engines' configurations. *)
Definition hand_over (l : L3Cfg.L3Config) : option (L3Checks.Config * L3Checks.Config) :=
  match L3Checks.Validate (Dispatch.l3_config l []), Form.spec Form.bare_box 1 [] (far_form "edge" "198.51.100.9" l) with
  | Ok near, Ok s =>
      match L3Checks.Validate (Dispatch.l3_config (DirectSpec.decode (DirectSpec.render s)) []) with Ok far => Some (near, far) | Err _ => None end
  | _, _ => None
  end.

Definition iran_end : L3Cfg.L3Config := DirectSpec.canon (Edit.iran_spec "udp" "").

Lemma pair_agrees_witness : ∃ near far, hand_over iran_end = Some (near, far) ∧ ends_agree "198.51.100.9" near far ∧
  (L3Checks.Mode far, L3Checks.LocalIP far, L3Checks.PeerIP far, Multipath.Paths (L3Checks.Multipath far)) = ("listen", "10.10.0.2", "10.10.0.1", 4).
Proof.
  destruct (L3Checks.Validate (Dispatch.l3_config iran_end [])) as [near|] eqn:En; [|by vm_compute in En].
  destruct (Form.spec Form.bare_box 1 [] (far_form "edge" "198.51.100.9" iran_end)) as [s|] eqn:Es; [|by vm_compute in Es].
  destruct (L3Checks.Validate (Dispatch.l3_config (DirectSpec.decode (DirectSpec.render s)) [])) as [far|] eqn:Ef.
  - exists near, far. split; [unfold hand_over; by rewrite En, Es, Ef|]. split.
    + refine (pair_agrees _ _ _ _ _ _ _ _ _ _ _ _ _ En Es Ef); [by left|apply (bool_decide_unpack _); by vm_compute].
    + vm_compute in Es. injection Es as <-. vm_compute in Ef. by injection Ef as <-.
  - exfalso. vm_compute in Es. injection Es as <-. by vm_compute in Ef.
Defined.

(** A link carries no encapsulation key: the two ends name different
    encapsulations. *)
Lemma key_not_carried : ∃ near far, hand_over iran_end = Some (near, far) ∧
  let enc c := Encap.mkGre (L3Checks.GREKey c) (negb (L3Checks.GREKey c =? 0)) in
  Encap.encapID (enc near) = "gre:7" ∧ Encap.encapID (enc far) = "gre".
Proof.
  destruct (hand_over iran_end) as [[near far]|] eqn:E; [|by vm_compute in E]. exists near, far. split; [done|].
  vm_compute in E. injection E as <- <-. split; by vm_compute.
Qed.

(** Another error correction scheme becomes the recommended one. *)
Definition scheme_end : L3Cfg.L3Config :=
  DirectSpec.decode [("mode", Toml.Str "dial"); ("addr", Toml.Str "203.0.113.7:9000"); ("token", Toml.Str "secret"); ("carrier", Toml.Str "udp");
    ("local_ip", Toml.Str "10.10.0.1/30"); ("peer_ip", Toml.Str "10.10.0.2"); ("fec_data", Toml.Int 20); ("fec_parity", Toml.Int 5)].

Lemma scheme_not_carried : ∃ near far, hand_over scheme_end = Some (near, far) ∧
  L3Checks.FEC near = Fec.mkFEC 20 5 ∧ L3Checks.FEC far = Fec.mkFEC 10 3.
Proof.
  destruct (hand_over scheme_end) as [[near far]|] eqn:E; [|by vm_compute in E]. exists near, far. split; [done|].
  vm_compute in E. injection E as <- <-. split; by vm_compute.
Qed.

(** Padding without the fake record becomes padding with it, which the near end
    does not send. *)
Definition padded_end : L3Cfg.L3Config :=
  DirectSpec.decode [("mode", Toml.Str "dial"); ("addr", Toml.Str "203.0.113.7:9000"); ("token", Toml.Str "secret"); ("carrier", Toml.Str "spoof");
    ("local_ip", Toml.Str "10.10.0.1/30"); ("peer_ip", Toml.Str "10.10.0.2"); ("spoof_profile", Toml.Str "tcp"); ("spoof_padding", Toml.Bool true)].

Lemma stealth_halves : ∃ near far, hand_over padded_end = Some (near, far) ∧
  (Tuning.SpoofPadding (L3Checks.Spoof near), Tuning.SpoofFakeTLS (L3Checks.Spoof near)) = (true, false) ∧
  (Tuning.SpoofPadding (L3Checks.Spoof far), Tuning.SpoofFakeTLS (L3Checks.Spoof far)) = (true, true) ∧
  Spoof.undoDPI (Spoof.mkDPI false false false 0 0 true 64 true) Spoof.SpoofProfileTCP [0; 3; 1; 2; 3] = None.
Proof.
  destruct (hand_over padded_end) as [[near far]|] eqn:E; [|by vm_compute in E]. exists near, far. split; [done|].
  vm_compute in E. injection E as <- <-. repeat (split; [by vm_compute|]). by vm_compute.
Qed.

End Mirror.

Module Pairs.

Record Pair : Type := mkPair { Node : string; PeerName : string }.

#[export] Instance pair_eq_dec : EqDecision Pair.
Proof. solve_decision. Defined.

(** The record as the file holds it; no file is an empty one. *)
Notation pairs := (gmap string Pair).

(** An operation with whether the file could be written. *)
Definition save (ok : bool) (before after : pairs) : pairs := if ok then after else before.

Definition NoteNodePair (tunnel node peerName : string) (ok : bool) (f : pairs) : pairs :=
  let tunnel := TrimSpace tunnel in
  let node := TrimSpace node in
  if String.eqb tunnel "" || String.eqb node "" then f
  else
    let peerName := TrimSpace peerName in
    let peerName := if negb (String.eqb peerName "") && negb (Box.validName peerName) then "" else peerName in
    save ok f (<[tunnel := mkPair node peerName]> f).

Definition PairFor (tunnel : string) (f : pairs) : option Pair :=
  p ← f !! TrimSpace tunnel; if String.eqb (Node p) "" then None else Some p.

Definition NodeFor (tunnel : string) (f : pairs) : option string := option_map Node (PairFor tunnel f).

Definition ForgetNodePair (tunnel : string) (ok : bool) (f : pairs) : pairs := save ok f (delete (TrimSpace tunnel) f).

Definition on_node (node : string) (m : string * Pair) : Prop := EqualFold (Node (snd m)) node = true.
#[export] Instance on_node_dec node m : Decision (on_node node m).
Proof. unfold on_node. apply _. Defined.

Definition ForgetNodePairs (node : string) (ok : bool) (f : pairs) : pairs :=
  save ok f (filter (λ m : string * Pair, ¬ on_node node m) f).

Definition TunnelsOnNode (node : string) (f : pairs) : list string :=
  GoSort.Strings (map_to_list (filter (λ m : string * Pair, on_node node m) f)).*1.

Inductive op : Type :=
  | Note (tunnel node peerName : string) (ok : bool)
  | Forget (tunnel : string) (ok : bool)
  | ForgetNode (node : string) (ok : bool).

Definition act (f : pairs) (o : op) : pairs :=
  match o with
  | Note t n p ok => NoteNodePair t n p ok f
  | Forget t ok => ForgetNodePair t ok f
  | ForgetNode n ok => ForgetNodePairs n ok f
  end.

(** ** Lemmas *)

(** What is recorded is safe to show: no name the far machine chose is kept
    unless it is one this machine could have chosen. *)
Definition shown_ok (f : pairs) : Prop :=
  map_Forall (λ t p, TrimSpace t = t ∧ t ≠ "" ∧ Node p ≠ "" ∧ (PeerName p = "" ∨ Box.validName (PeerName p) = true)) f.

Lemma save_ok ok f g : shown_ok f → shown_ok g → shown_ok (save ok f g).
Proof. by destruct ok. Qed.

Lemma act_shown f o : shown_ok f → shown_ok (act f o).
Proof.
  intros H. destruct o as [t n p ok|t ok|n ok]; cbn [act].
  - unfold NoteNodePair. cbv zeta. destruct (String.eqb_spec (TrimSpace t) "") as [|Ht]; [done|]. destruct (String.eqb_spec (TrimSpace n) "") as [|Hn]; [done|].
    cbn [orb]. apply save_ok; [done|]. apply map_Forall_insert_2; [|done]. cbn [Node PeerName]. split_and!; [apply TrimSpace_idem|done|done|].
    destruct (String.eqb_spec (TrimSpace p) "") as [E|E]; cbn [negb andb]; [by left|]. destruct (Box.validName (TrimSpace p)) eqn:Ev; [by right|by left].
  - apply save_ok; [done|]. by apply map_Forall_delete.
  - apply save_ok; [done|]. intros k p Hk. apply map_lookup_filter_Some in Hk as [Hk _]. by apply (H k p).
Qed.

Lemma TunnelsOnNode_elem node f t : t ∈ TunnelsOnNode node f ↔ ∃ p, f !! t = Some p ∧ EqualFold (Node p) node = true.
Proof.
  unfold TunnelsOnNode. rewrite GoSort.Strings_elem, list_elem_of_fmap. split.
  - intros ([k p] & -> & Hin%elem_of_map_to_list). apply map_lookup_filter_Some in Hin as [H1 H2]. by exists p.
  - intros (p & H1 & H2). exists (t, p). split; [done|]. apply elem_of_map_to_list, map_lookup_filter_Some. by split.
Qed.

(** The record of which tunnels have their other end elsewhere, after any
    operations: every entry names a tunnel and a server and a far name that is
    safe to show or none; a pairing that is noted is found again and listed under
    its server, in any case of its name; forgetting a server forgets its tunnels
    and no others; and what could not be written changes nothing. *)
Theorem pairs_sound ops (f := fold_left act ops ∅) :
  shown_ok f ∧
  (∀ t n p, TrimSpace t ≠ "" → TrimSpace n ≠ "" → let g := act f (Note t n p true) in
    NodeFor t g = Some (TrimSpace n) ∧ TrimSpace t ∈ TunnelsOnNode (TrimSpace n) g ∧ ∀ k, TrimSpace k ≠ TrimSpace t → PairFor k g = PairFor k f) ∧
  (∀ n, TunnelsOnNode n (act f (ForgetNode n true)) = [] ∧
    ∀ k p, PairFor k f = Some p → EqualFold (Node p) n = false → PairFor k (act f (ForgetNode n true)) = Some p) ∧
  (∀ k, PairFor k (act f (Forget k true)) = None) ∧
  (∀ o, (match o with Note _ _ _ ok | Forget _ ok | ForgetNode _ ok => ok end) = false → act f o = f).
Proof.
  assert (shown_ok f) as Hf.
  { assert (∀ g, shown_ok g → shown_ok (fold_left act ops g)) as HG; [|apply HG, map_Forall_empty].
    induction ops as [|o ops IH]; intros g Hg; cbn [fold_left]; [done|]. by apply IH, act_shown. }
  generalize f Hf. clear. intros f Hf. split_and!; [done| | | |].
  - intros t n p Ht Hn. cbv zeta. cbn [act]. unfold NoteNodePair. cbv zeta. rewrite (proj2 (String.eqb_neq _ _) Ht), (proj2 (String.eqb_neq _ _) Hn). cbn [orb save].
    split_and!.
    + unfold NodeFor, PairFor. rewrite lookup_insert_eq. cbn [mbind option_bind Node]. by rewrite (proj2 (String.eqb_neq _ _) Hn).
    + apply TunnelsOnNode_elem. rewrite lookup_insert_eq. eexists. split; [done|]. apply String.eqb_refl.
    + intros k Hk. unfold PairFor. by rewrite lookup_insert_ne.
  - intros n. cbn [act]. unfold ForgetNodePairs, save. split.
    + apply elem_of_nil_inv. intros t (p & Hp & He)%TunnelsOnNode_elem. apply map_lookup_filter_Some in Hp as [_ Hp]. by apply Hp.
    + intros k p Hk He. unfold PairFor in *. destruct (f !! TrimSpace k) as [q|] eqn:E; [|done]. cbn [mbind option_bind] in Hk.
      destruct (String.eqb (Node q) "") eqn:En; [done|]. injection Hk as ->.
      rewrite (proj2 (map_lookup_filter_Some _ _ _ p)); [cbn [mbind option_bind]; by rewrite En|]. split; [done|]. unfold on_node. cbn [snd]. by rewrite He.
  - intros k. unfold PairFor. cbn [act]. unfold ForgetNodePair, save. by rewrite lookup_delete_eq.
  - intros [t n p ok|t ok|n ok]; intros ->; cbn [act]; unfold NoteNodePair, ForgetNodePair, ForgetNodePairs, save; cbv zeta; [|done|done].
    by destruct (_ || _).
Qed.

Lemma pairs_sound_witness :
  let f := fold_left act [Note "edge" " Berlin " "<b>" true; Note "other" "paris" "edge-kharej" true] ∅ in
  PairFor "edge" f = Some (mkPair "Berlin" "") ∧ TunnelsOnNode "BERLIN" f = ["edge"] ∧
  NodeFor " t" (act f (Note " t" "n " "" true)) = Some "n" ∧ PairFor "edge" (act f (ForgetNode "berlin" true)) = None.
Proof.
  cbv zeta. split; [by vm_compute|]. split; [by vm_compute|]. split; [|by vm_compute].
  exact (proj1 (proj1 (proj2 (pairs_sound [Note "edge" " Berlin " "<b>" true; Note "other" "paris" "edge-kharej" true])) " t" "n " "" ltac:(done) ltac:(done))).
Defined.

End Pairs.
