(* ===== verification/RevFile.v ===== *)
(** The file of a reverse tunnel, as the management screens write, read and edit
    it.
    - Module [Kinds]: what a transport is, asked of its name
      ([internal/manage/spec/transport.go]);
    - Module [Bind]: where a control port listens ([spec/bind.go],
      [spec/addr.go]);
    - Module [Spec]: a tunnel as the screens hold it, the file it is rendered to
      and read back from ([manage/config.go], [edit.go], the keys of
      [config/config.go]);
    - Module [Tune]: the performance presets ([manage/preset.go]).

    A file is its tables, each the keys it holds with their values, as in
    [DirectFile]. Values have the types of their keys: a file with any other
    does not decode, and is no file here. *)

From Stdlib Require Import Ascii String.
From S2P Require Import Prelude GoStr Ports GoNet GoSort Settings Startup DirectFile DirectPanel.
Import GoStr GoNet.
Open Scope string_scope.
Open Scope list_scope.
Open Scope Z_scope.

Module Kinds.

Definition one_of (t : string) (l : list string) : bool := existsb (String.eqb t) l.

Definition IsMux (t : string) : bool := one_of t ["tcpmux"; "wsmux"; "wssmux"; "kcp"; "xdi"; "pck"].
Definition IsKCP (t : string) : bool := one_of t ["kcp"; "xdi"; "pck"].

Definition IsDatagram (t : string) : bool :=
  if HasPrefix t "l3/" then true
  else if HasPrefix t "direct/" then false
  else one_of t ["udp"; "kcp"; "xdi"; "quic"; "pck"].

Definition SupportsProxyProtocol (t : string) : bool :=
  one_of t ["tcp"; "tcpmux"; "kcp"; "wsmux"; "wssmux"; "stealth"; "quic"; "pck"].

Definition IsWS (t : string) : bool := one_of t ["ws"; "wss"; "wsmux"; "wssmux"].
Definition NeedsTLS (t : string) : bool := one_of t ["wss"; "wssmux"].

Definition ValidTransport (t : string) : bool :=
  one_of t ["tcp"; "tcpmux"; "udp"; "kcp"; "ws"; "wss"; "wsmux"; "wssmux"; "stealth"; "xdi"; "quic"; "pck"].

Lemma one_of_elem t l : one_of t l = true ↔ t ∈ l.
Proof.
  unfold one_of. rewrite existsb_exists. split.
  - intros (x & Hx & ->%String.eqb_eq). by apply list_elem_of_In.
  - intros H. exists t. split; [by apply list_elem_of_In|apply String.eqb_refl].
Qed.

(** A fact about every reverse transport is one about each of the twelve. *)
Lemma each_transport (P : string → bool) : forallb P ["tcp"; "tcpmux"; "udp"; "kcp"; "ws"; "wss"; "wsmux"; "wssmux"; "stealth"; "xdi"; "quic"; "pck"] = true →
  ∀ t, ValidTransport t = true → P t = true.
Proof. intros H t Ht%one_of_elem%list_elem_of_In. by apply (proj1 (forallb_forall P _) H). Qed.

End Kinds.

Module Bind.
Import Net Spec.

Record TunnelBind : Type := mkBind { Host : string; Port : string }.

Definition HasHost (b : TunnelBind) : bool := negb (String.eqb (Host b) "").

Definition Addr (b : TunnelBind) (ipv6 : bool) : string :=
  JoinHostPort (if HasHost b then Host b else if ipv6 then "::" else "0.0.0.0") (Port b).

Inductive error : Type := NoPort | NotAPort (p : string) | BareIPv6 (t : string) | NotAnAddress (t : string) | NotAnIP (h : string).

Definition ParseTunnelBind (text : string) : result error TunnelBind :=
  let text := TrimSpace text in
  if String.eqb text "" then Err NoPort
  else if negb (contains_char ":" text) then
    if ValidPort text then Ok (mkBind "" text) else Err (NotAPort text)
  else
    match SplitHostPort text with
    | None =>
        if (1 <? count_char ":" text)%nat && negb (HasPrefix text "[") then Err (BareIPv6 text) else Err (NotAnAddress text)
    | Some (host, port) =>
        if negb (ValidPort port) then Err (NotAPort port)
        else
          let host := TrimSpace host in
          if String.eqb host "" then Ok (mkBind "" port)
          else match ParseIP host with
          | None => Err (NotAnIP host)
          | Some _ => Ok (mkBind host port)
          end
    end.

(** [strings.Trim(s, "[]")]. *)
Definition TrimBrackets (s : string) : string :=
  let front := trim_with ["["; "]"] (String.length s) s in
  rev_string (trim_with ["["; "]"] (String.length front) (rev_string front)).

Definition IsWildcardBind (host : string) : bool := Kinds.one_of (TrimBrackets host) [""; "0.0.0.0"; "::"].

Definition SplitBindAddr (addr : string) : TunnelBind :=
  match SplitHostPort addr with
  | None => mkBind "" ""
  | Some (host, port) => mkBind (if IsWildcardBind host then "" else host) port
  end.

Definition BindHostOf (addr : string) : string := Host (SplitBindAddr addr).

Definition AddrHost (addr fallback : string) : string :=
  match SplitHostPort addr with Some (h, _) => if String.eqb h "" then fallback else h | None => fallback end.

Definition AddrPort (addr : string) : string := match SplitHostPort addr with Some (_, p) => p | None => "" end.

Example binds :
  map ParseTunnelBind ["443"; " 443 "; ":443"; "0.0.0.0:443"; "[::]:443"; "85.10.11.51:443"; "[2a01:4f8::1]:443"] =
    [Ok (mkBind "" "443"); Ok (mkBind "" "443"); Ok (mkBind "" "443"); Ok (mkBind "0.0.0.0" "443"); Ok (mkBind "::" "443");
     Ok (mkBind "85.10.11.51" "443"); Ok (mkBind "2a01:4f8::1" "443")] ∧
  map ParseTunnelBind [""; "0"; "65536"; "2a01:4f8::1:443"; "example.com:443"; "[::1]"; "1.2.3.4:"] =
    [Err NoPort; Err (NotAPort "0"); Err (NotAPort "65536"); Err (BareIPv6 "2a01:4f8::1:443"); Err (NotAnIP "example.com");
     Err (NotAnAddress "[::1]"); Err (NotAPort "")] ∧
  map TrimBrackets ["[::]"; "[[a]"; "]"; "a[b"] = ["::"; "a"; ""; "a[b"].
Proof. split_and!; vm_compute; reflexivity. Qed.

End Bind.

Module Spec.
Import Toml Kinds.
Import DirectSpec(kept_num).

Record TunnelSpec : Type := mkSpec {
  Name : string;
  Role : string;
  Transport : string;
  Preset : string;
  BindAddr : string;
  RemoteAddr : string;
  Token : string;
  Ports : list string;
  LoadBalance : bool;
  HealthFailover : bool;
  FallbackAddrs : list string;
  FallbackTransports : list string;
  FallbackDwell : Z;
  Nodelay : bool;
  Heartbeat : Z;
  KeepAlive : Z;
  ChannelSize : Z;
  ConnectionPool : Z;
  AggressivePool : bool;
  AcceptUDP : bool;
  LogLevel : string;
  LogFormat : string;
  MuxCon : Z;
  MuxVersion : Z;
  MuxFrameSize : Z;
  MuxRecvBuffer : Z;
  MuxStreamBuffer : Z;
  KCPMTU : Z;
  KCPInterval : Z;
  KCPResend : Z;
  KCPNoDelay : Z;
  KCPNoCongestion : Z;
  KCPSndWnd : Z;
  KCPRcvWnd : Z;
  KCPAckNoDelay : bool;
  KCPDataShards : Z;
  KCPParityShards : Z;
  PckInterface : string;
  PckGatewayMAC : string;
  PckFlags : list string;
  MSS : Z;
  SoRcvBuf : Z;
  SoSndBuf : Z;
  ProxyProtocol : bool;
  MaxConnections : Z;
  BandwidthMbps : Z;
  Sniffer : bool;
  WebPort : Z;
  WebBind : string;
  TLSCert : string;
  TLSKey : string;
  ACMEDomain : string;
  ACMEEmail : string;
  EdgeIP : string;
  SimpleAuth : bool;
  Proxy : string;
  LocalAddr : string;
  Interface : string;
  SOMark : Z;
  ZeroCopy : bool
}.

Definition noSpec : TunnelSpec := {|
    Name := "";
    Role := "";
    Transport := "";
    Preset := "";
    BindAddr := "";
    RemoteAddr := "";
    Token := "";
    Ports := [];
    LoadBalance := false;
    HealthFailover := false;
    FallbackAddrs := [];
    FallbackTransports := [];
    FallbackDwell := 0;
    Nodelay := false;
    Heartbeat := 0;
    KeepAlive := 0;
    ChannelSize := 0;
    ConnectionPool := 0;
    AggressivePool := false;
    AcceptUDP := false;
    LogLevel := "";
    LogFormat := "";
    MuxCon := 0;
    MuxVersion := 0;
    MuxFrameSize := 0;
    MuxRecvBuffer := 0;
    MuxStreamBuffer := 0;
    KCPMTU := 0;
    KCPInterval := 0;
    KCPResend := 0;
    KCPNoDelay := 0;
    KCPNoCongestion := 0;
    KCPSndWnd := 0;
    KCPRcvWnd := 0;
    KCPAckNoDelay := false;
    KCPDataShards := 0;
    KCPParityShards := 0;
    PckInterface := "";
    PckGatewayMAC := "";
    PckFlags := [];
    MSS := 0;
    SoRcvBuf := 0;
    SoSndBuf := 0;
    ProxyProtocol := false;
    MaxConnections := 0;
    BandwidthMbps := 0;
    Sniffer := false;
    WebPort := 0;
    WebBind := "";
    TLSCert := "";
    TLSKey := "";
    ACMEDomain := "";
    ACMEEmail := "";
    EdgeIP := "";
    SimpleAuth := false;
    Proxy := "";
    LocalAddr := "";
    Interface := "";
    SOMark := 0;
    ZeroCopy := false
  |}.

#[export] Instance spec_eta : Eta TunnelSpec := λ s, {|
    Name := Name s;
    Role := Role s;
    Transport := Transport s;
    Preset := Preset s;
    BindAddr := BindAddr s;
    RemoteAddr := RemoteAddr s;
    Token := Token s;
    Ports := Ports s;
    LoadBalance := LoadBalance s;
    HealthFailover := HealthFailover s;
    FallbackAddrs := FallbackAddrs s;
    FallbackTransports := FallbackTransports s;
    FallbackDwell := FallbackDwell s;
    Nodelay := Nodelay s;
    Heartbeat := Heartbeat s;
    KeepAlive := KeepAlive s;
    ChannelSize := ChannelSize s;
    ConnectionPool := ConnectionPool s;
    AggressivePool := AggressivePool s;
    AcceptUDP := AcceptUDP s;
    LogLevel := LogLevel s;
    LogFormat := LogFormat s;
    MuxCon := MuxCon s;
    MuxVersion := MuxVersion s;
    MuxFrameSize := MuxFrameSize s;
    MuxRecvBuffer := MuxRecvBuffer s;
    MuxStreamBuffer := MuxStreamBuffer s;
    KCPMTU := KCPMTU s;
    KCPInterval := KCPInterval s;
    KCPResend := KCPResend s;
    KCPNoDelay := KCPNoDelay s;
    KCPNoCongestion := KCPNoCongestion s;
    KCPSndWnd := KCPSndWnd s;
    KCPRcvWnd := KCPRcvWnd s;
    KCPAckNoDelay := KCPAckNoDelay s;
    KCPDataShards := KCPDataShards s;
    KCPParityShards := KCPParityShards s;
    PckInterface := PckInterface s;
    PckGatewayMAC := PckGatewayMAC s;
    PckFlags := PckFlags s;
    MSS := MSS s;
    SoRcvBuf := SoRcvBuf s;
    SoSndBuf := SoSndBuf s;
    ProxyProtocol := ProxyProtocol s;
    MaxConnections := MaxConnections s;
    BandwidthMbps := BandwidthMbps s;
    Sniffer := Sniffer s;
    WebPort := WebPort s;
    WebBind := WebBind s;
    TLSCert := TLSCert s;
    TLSKey := TLSKey s;
    ACMEDomain := ACMEDomain s;
    ACMEEmail := ACMEEmail s;
    EdgeIP := EdgeIP s;
    SimpleAuth := SimpleAuth s;
    Proxy := Proxy s;
    LocalAddr := LocalAddr s;
    Interface := Interface s;
    SOMark := SOMark s;
    ZeroCopy := ZeroCopy s
  |}.

#[export] Instance set_Name : Field Name := ltac:(set_field).
#[export] Instance set_Role : Field Role := ltac:(set_field).
#[export] Instance set_Transport : Field Transport := ltac:(set_field).
#[export] Instance set_Preset : Field Preset := ltac:(set_field).
#[export] Instance set_BindAddr : Field BindAddr := ltac:(set_field).
#[export] Instance set_RemoteAddr : Field RemoteAddr := ltac:(set_field).
#[export] Instance set_Token : Field Token := ltac:(set_field).
#[export] Instance set_Ports : Field Ports := ltac:(set_field).
#[export] Instance set_LoadBalance : Field LoadBalance := ltac:(set_field).
#[export] Instance set_HealthFailover : Field HealthFailover := ltac:(set_field).
#[export] Instance set_FallbackAddrs : Field FallbackAddrs := ltac:(set_field).
#[export] Instance set_FallbackTransports : Field FallbackTransports := ltac:(set_field).
#[export] Instance set_FallbackDwell : Field FallbackDwell := ltac:(set_field).
#[export] Instance set_Nodelay : Field Nodelay := ltac:(set_field).
#[export] Instance set_Heartbeat : Field Heartbeat := ltac:(set_field).
#[export] Instance set_KeepAlive : Field KeepAlive := ltac:(set_field).
#[export] Instance set_ChannelSize : Field ChannelSize := ltac:(set_field).
#[export] Instance set_ConnectionPool : Field ConnectionPool := ltac:(set_field).
#[export] Instance set_AggressivePool : Field AggressivePool := ltac:(set_field).
#[export] Instance set_AcceptUDP : Field AcceptUDP := ltac:(set_field).
#[export] Instance set_LogLevel : Field LogLevel := ltac:(set_field).
#[export] Instance set_LogFormat : Field LogFormat := ltac:(set_field).
#[export] Instance set_MuxCon : Field MuxCon := ltac:(set_field).
#[export] Instance set_MuxVersion : Field MuxVersion := ltac:(set_field).
#[export] Instance set_MuxFrameSize : Field MuxFrameSize := ltac:(set_field).
#[export] Instance set_MuxRecvBuffer : Field MuxRecvBuffer := ltac:(set_field).
#[export] Instance set_MuxStreamBuffer : Field MuxStreamBuffer := ltac:(set_field).
#[export] Instance set_KCPMTU : Field KCPMTU := ltac:(set_field).
#[export] Instance set_KCPInterval : Field KCPInterval := ltac:(set_field).
#[export] Instance set_KCPResend : Field KCPResend := ltac:(set_field).
#[export] Instance set_KCPNoDelay : Field KCPNoDelay := ltac:(set_field).
#[export] Instance set_KCPNoCongestion : Field KCPNoCongestion := ltac:(set_field).
#[export] Instance set_KCPSndWnd : Field KCPSndWnd := ltac:(set_field).
#[export] Instance set_KCPRcvWnd : Field KCPRcvWnd := ltac:(set_field).
#[export] Instance set_KCPAckNoDelay : Field KCPAckNoDelay := ltac:(set_field).
#[export] Instance set_KCPDataShards : Field KCPDataShards := ltac:(set_field).
#[export] Instance set_KCPParityShards : Field KCPParityShards := ltac:(set_field).
#[export] Instance set_PckInterface : Field PckInterface := ltac:(set_field).
#[export] Instance set_PckGatewayMAC : Field PckGatewayMAC := ltac:(set_field).
#[export] Instance set_PckFlags : Field PckFlags := ltac:(set_field).
#[export] Instance set_MSS : Field MSS := ltac:(set_field).
#[export] Instance set_SoRcvBuf : Field SoRcvBuf := ltac:(set_field).
#[export] Instance set_SoSndBuf : Field SoSndBuf := ltac:(set_field).
#[export] Instance set_ProxyProtocol : Field ProxyProtocol := ltac:(set_field).
#[export] Instance set_MaxConnections : Field MaxConnections := ltac:(set_field).
#[export] Instance set_BandwidthMbps : Field BandwidthMbps := ltac:(set_field).
#[export] Instance set_Sniffer : Field Sniffer := ltac:(set_field).
#[export] Instance set_WebPort : Field WebPort := ltac:(set_field).
#[export] Instance set_WebBind : Field WebBind := ltac:(set_field).
#[export] Instance set_TLSCert : Field TLSCert := ltac:(set_field).
#[export] Instance set_TLSKey : Field TLSKey := ltac:(set_field).
#[export] Instance set_ACMEDomain : Field ACMEDomain := ltac:(set_field).
#[export] Instance set_ACMEEmail : Field ACMEEmail := ltac:(set_field).
#[export] Instance set_EdgeIP : Field EdgeIP := ltac:(set_field).
#[export] Instance set_SimpleAuth : Field SimpleAuth := ltac:(set_field).
#[export] Instance set_Proxy : Field Proxy := ltac:(set_field).
#[export] Instance set_LocalAddr : Field LocalAddr := ltac:(set_field).
#[export] Instance set_Interface : Field Interface := ltac:(set_field).
#[export] Instance set_SOMark : Field SOMark := ltac:(set_field).
#[export] Instance set_ZeroCopy : Field ZeroCopy := ltac:(set_field).
(** ** The file *)

Definition doc : Type := list (string * table).

Definition section (k : string) (d : doc) : table :=
  match List.find (λ kt : string * table, same_key (fst kt) k) d with Some (_, t) => t | None => [] end.

Definition put_str (key v : string) : bool * table := (negb (String.eqb v ""), [(key, Str v)]).
Definition put_num (key : string) (v : Z) : bool * table := (0 <? v, [(key, Int v)]).
Definition put_flag (key : string) (v : bool) : bool * table := (v, [(key, Bool true)]).
Definition put_list (key : string) (v : list string) : bool * table := ((0 <? length v)%nat, [(key, Strs v)]).
(** A value, or what is read when it was not written. *)
Definition kept {A} (b : bool) (v d : A) : A := if b then v else d.

Definition only (b : bool) (g : bool * table) : bool * table := (b && fst g, snd g).

Definition monitorBind (configured : string) : string := if String.eqb configured "" then "127.0.0.1" else configured.

Definition writeTuning (s : TunnelSpec) : groups :=
  [put_num "mss" (MSS s); put_num "so_rcvbuf" (SoRcvBuf s); put_num "so_sndbuf" (SoSndBuf s)].

Definition writeKCP (s : TunnelSpec) : groups :=
  [(IsKCP (Transport s),
    [("kcp_mtu", Int (KCPMTU s));
     ("kcp_interval", Int (KCPInterval s));
     ("kcp_resend", Int (KCPResend s));
     ("kcp_nodelay", Int (KCPNoDelay s));
     ("kcp_nocongestion", Int (KCPNoCongestion s));
     ("kcp_sndwnd", Int (KCPSndWnd s));
     ("kcp_rcvwnd", Int (KCPRcvWnd s));
     ("kcp_acknodelay", Bool (KCPAckNoDelay s));
     ("kcp_datashards", Int (KCPDataShards s));
     ("kcp_parityshards", Int (KCPParityShards s))])].

Definition writePck (s : TunnelSpec) : groups :=
  let pck := String.eqb (Transport s) "pck" in
  [only pck (put_str "pck_interface" (PckInterface s));
   only pck (put_str "pck_gateway_mac" (PckGatewayMAC s));
   only pck (put_list "pck_flags" (PckFlags s))].

Definition writeFallbackChain (s : TunnelSpec) : groups :=
  [put_list "fallback_transports" (FallbackTransports s);
   only (0 <? length (FallbackTransports s))%nat (put_num "fallback_dwell" (FallbackDwell s))].

Definition render_server (s : TunnelSpec) : table := written (
  [(true, [("bind_addr", Str (BindAddr s)); ("transport", Str (Transport s))]);
   put_str "preset" (Preset s);
   (true, [("token", Str (Token s));
           ("channel_size", Int (ChannelSize s));
           ("keepalive_period", Int (KeepAlive s));
           ("nodelay", Bool (Nodelay s));
           ("heartbeat", Int (Heartbeat s));
           ("log_level", Str (LogLevel s))]);
   put_str "log_format" (LogFormat s)] ++
  writeTuning s ++
  writeKCP s ++
  writePck s ++
  [(true, [("accept_udp", Bool (AcceptUDP s))]);
   (NeedsTLS (Transport s), [("tls_cert", Str (TLSCert s)); ("tls_key", Str (TLSKey s))]);
   only (NeedsTLS (Transport s)) (put_str "acme_domain" (ACMEDomain s));
   only (NeedsTLS (Transport s) && negb (String.eqb (ACMEDomain s) "")) (put_str "acme_email" (ACMEEmail s));
   only (NeedsTLS (Transport s)) (put_flag "simple_auth" (SimpleAuth s));
   (IsMux (Transport s),
    [("mux_con", Int (MuxCon s));
     ("mux_version", Int (MuxVersion s));
     ("mux_framesize", Int (MuxFrameSize s));
     ("mux_recievebuffer", Int (MuxRecvBuffer s));
     ("mux_streambuffer", Int (MuxStreamBuffer s))]);
   (SupportsProxyProtocol (Transport s), [("proxy_protocol", Bool (ProxyProtocol s))]);
   put_flag "zero_copy" (ZeroCopy s);
   put_num "max_connections" (MaxConnections s);
   put_num "bandwidth_mbps" (BandwidthMbps s);
   (true, [("sniffer", Bool (Sniffer s))]);
   (0 <? WebPort s, [("web_port", Int (WebPort s)); ("web_bind", Str (monitorBind (WebBind s)))]);
   (true, [("ports", Strs (Ports s))])] ++
  writeFallbackChain s).

Definition render_client (s : TunnelSpec) : table := written (
  [(true, [("remote_addr", Str (RemoteAddr s))]);
   put_list "fallback_addrs" (FallbackAddrs s);
   (true, [("transport", Str (Transport s))])] ++
  writeFallbackChain s ++
  [put_str "preset" (Preset s);
   (true, [("token", Str (Token s));
           ("connection_pool", Int (ConnectionPool s));
           ("aggressive_pool", Bool (AggressivePool s));
           ("keepalive_period", Int (KeepAlive s));
           ("nodelay", Bool (Nodelay s))]);
   put_flag "load_balance" (LoadBalance s);
   put_flag "health_failover" (HealthFailover s);
   (true, [("retry_interval", Int 3); ("dial_timeout", Int 10); ("log_level", Str (LogLevel s))]);
   put_str "log_format" (LogFormat s)] ++
  writeTuning s ++
  writeKCP s ++
  writePck s ++
  [only (IsWS (Transport s)) (put_str "edge_ip" (EdgeIP s));
   only (NeedsTLS (Transport s)) (put_flag "simple_auth" (SimpleAuth s));
   put_str "proxy" (Proxy s);
   put_str "local_addr" (LocalAddr s);
   put_str "interface" (Interface s);
   (negb (SOMark s =? 0), [("so_mark", Int (SOMark s))]);
   put_flag "zero_copy" (ZeroCopy s);
   (IsMux (Transport s),
    [("mux_session", Int (MuxCon s));
     ("mux_version", Int (MuxVersion s));
     ("mux_framesize", Int (MuxFrameSize s));
     ("mux_recievebuffer", Int (MuxRecvBuffer s));
     ("mux_streambuffer", Int (MuxStreamBuffer s))]);
   (true, [("sniffer", Bool (Sniffer s))]);
   (0 <? WebPort s, [("web_port", Int (WebPort s)); ("web_bind", Str (monitorBind (WebBind s)))])]).

Definition Render (s : TunnelSpec) : doc :=
  if String.eqb (Role s) "server" then [("server", render_server s)] else [("client", render_client s)].

(** The keys of [config.ServerConfig], [config.ClientConfig] and what they embed, and of
    [config.DirectConfig]. *)
Definition decode_kcp (t : table) : Tuning.KCPConfig := {|
    Tuning.MTU := int "kcp_mtu" t;
    Tuning.Interval := int "kcp_interval" t;
    Tuning.Resend := int "kcp_resend" t;
    Tuning.NoDelay := int "kcp_nodelay" t;
    Tuning.NoCongestion := int "kcp_nocongestion" t;
    Tuning.SndWnd := int "kcp_sndwnd" t;
    Tuning.RcvWnd := int "kcp_rcvwnd" t;
    Tuning.AckNoDelay := bool_ "kcp_acknodelay" t;
    Tuning.DataShards := int "kcp_datashards" t;
    Tuning.ParityShards := int "kcp_parityshards" t
  |}.

Definition decode_server (t : table) : ServerCfg.ServerConfig := {|
    ServerCfg.BindAddr := str "bind_addr" t;
    ServerCfg.Transport := str "transport" t;
    ServerCfg.FallbackTransports := strs "fallback_transports" t;
    ServerCfg.FallbackDwell := int "fallback_dwell" t;
    ServerCfg.Token := str "token" t;
    ServerCfg.Nodelay := bool_ "nodelay" t;
    ServerCfg.Keepalive := int "keepalive_period" t;
    ServerCfg.ChannelSize := int "channel_size" t;
    ServerCfg.LogLevel := str "log_level" t;
    ServerCfg.LogFormat := str "log_format" t;
    ServerCfg.Ports := strs "ports" t;
    ServerCfg.PPROF := bool_ "pprof" t;
    ServerCfg.MuxSession := int "mux_session" t;
    ServerCfg.MuxVersion := int "mux_version" t;
    ServerCfg.MaxFrameSize := int "mux_framesize" t;
    ServerCfg.MaxReceiveBuffer := int "mux_recievebuffer" t;
    ServerCfg.MaxStreamBuffer := int "mux_streambuffer" t;
    ServerCfg.Sniffer := bool_ "sniffer" t;
    ServerCfg.WebPort := int "web_port" t;
    ServerCfg.WebBind := str "web_bind" t;
    ServerCfg.SnifferLog := str "sniffer_log" t;
    ServerCfg.TLSCertFile := str "tls_cert" t;
    ServerCfg.TLSKeyFile := str "tls_key" t;
    ServerCfg.ACMEDomain := str "acme_domain" t;
    ServerCfg.ACMEEmail := str "acme_email" t;
    ServerCfg.SimpleAuth := bool_ "simple_auth" t;
    ServerCfg.Heartbeat := int "heartbeat" t;
    ServerCfg.MuxCon := int "mux_con" t;
    ServerCfg.AcceptUDP := opt_bool "accept_udp" t;
    ServerCfg.SkipOptz := bool_ "skip_optz" t;
    ServerCfg.MSS := int "mss" t;
    ServerCfg.SO_RCVBUF := int "so_rcvbuf" t;
    ServerCfg.SO_SNDBUF := int "so_sndbuf" t;
    ServerCfg.SOPinTCP := bool_ "so_pin_tcp" t;
    ServerCfg.ZeroCopy := bool_ "zero_copy" t;
    ServerCfg.ProxyProtocol := bool_ "proxy_protocol" t;
    ServerCfg.MaxConnections := int "max_connections" t;
    ServerCfg.BandwidthMbps := int "bandwidth_mbps" t;
    ServerCfg.Preset := str "preset" t;
    ServerCfg.Kcp := decode_kcp t;
    ServerCfg.Pck := DirectSpec.decode_pck t
  |}.

Definition decode_client (t : table) : ClientCfg.ClientConfig := {|
    ClientCfg.RemoteAddr := str "remote_addr" t;
    ClientCfg.FallbackAddrs := strs "fallback_addrs" t;
    ClientCfg.Transport := str "transport" t;
    ClientCfg.FallbackTransports := strs "fallback_transports" t;
    ClientCfg.FallbackDwell := int "fallback_dwell" t;
    ClientCfg.Token := str "token" t;
    ClientCfg.ConnectionPool := int "connection_pool" t;
    ClientCfg.RetryInterval := int "retry_interval" t;
    ClientCfg.Nodelay := bool_ "nodelay" t;
    ClientCfg.Keepalive := int "keepalive_period" t;
    ClientCfg.LogLevel := str "log_level" t;
    ClientCfg.LogFormat := str "log_format" t;
    ClientCfg.PPROF := bool_ "pprof" t;
    ClientCfg.MuxSession := int "mux_session" t;
    ClientCfg.MuxVersion := int "mux_version" t;
    ClientCfg.MaxFrameSize := int "mux_framesize" t;
    ClientCfg.MaxReceiveBuffer := int "mux_recievebuffer" t;
    ClientCfg.MaxStreamBuffer := int "mux_streambuffer" t;
    ClientCfg.Sniffer := bool_ "sniffer" t;
    ClientCfg.WebPort := int "web_port" t;
    ClientCfg.WebBind := str "web_bind" t;
    ClientCfg.SnifferLog := str "sniffer_log" t;
    ClientCfg.DialTimeout := int "dial_timeout" t;
    ClientCfg.AggressivePool := bool_ "aggressive_pool" t;
    ClientCfg.EdgeIP := str "edge_ip" t;
    ClientCfg.SimpleAuth := bool_ "simple_auth" t;
    ClientCfg.SkipOptz := bool_ "skip_optz" t;
    ClientCfg.MSS := int "mss" t;
    ClientCfg.SO_RCVBUF := int "so_rcvbuf" t;
    ClientCfg.SO_SNDBUF := int "so_sndbuf" t;
    ClientCfg.Proxy := str "proxy" t;
    ClientCfg.LocalAddr := str "local_addr" t;
    ClientCfg.Interface := str "interface" t;
    ClientCfg.SOMark := int "so_mark" t;
    ClientCfg.SOPinTCP := bool_ "so_pin_tcp" t;
    ClientCfg.ZeroCopy := bool_ "zero_copy" t;
    ClientCfg.Preset := str "preset" t;
    ClientCfg.LoadBalance := bool_ "load_balance" t;
    ClientCfg.HealthFailover := bool_ "health_failover" t;
    ClientCfg.Kcp := decode_kcp t;
    ClientCfg.Pck := DirectSpec.decode_pck t
  |}.

Definition decode_direct (t : table) : DirectCfg.DirectConfig := {|
    DirectCfg.Role := str "role" t;
    DirectCfg.Addr := str "addr" t;
    DirectCfg.Token := str "token" t;
    DirectCfg.Transport := str "transport" t;
    DirectCfg.ServerName := str "server_name" t;
    DirectCfg.TLSCertFile := str "tls_cert" t;
    DirectCfg.TLSKeyFile := str "tls_key" t;
    DirectCfg.ACMEDomain := str "acme_domain" t;
    DirectCfg.ACMEEmail := str "acme_email" t;
    DirectCfg.Ports := strs "ports" t;
    DirectCfg.AcceptUDP := bool_ "accept_udp" t;
    DirectCfg.MaxConnections := int "max_connections" t;
    DirectCfg.BandwidthMbps := int "bandwidth_mbps" t;
    DirectCfg.Preset := str "preset" t;
    DirectCfg.Sessions := int "sessions" t;
    DirectCfg.DialTimeout := int "dial_timeout" t;
    DirectCfg.RetryInterval := int "retry_interval" t;
    DirectCfg.Keepalive := int "keepalive_period" t;
    DirectCfg.Nodelay := bool_ "nodelay" t;
    DirectCfg.MSS := int "mss" t;
    DirectCfg.MuxVersion := int "mux_version" t;
    DirectCfg.MaxFrameSize := int "mux_framesize" t;
    DirectCfg.MaxReceiveBuffer := int "mux_recievebuffer" t;
    DirectCfg.MaxStreamBuffer := int "mux_streambuffer" t
  |}.

(** [loadServerSpec] and [loadClientSpec], of a table that is there. *)
Definition server_spec (name : string) (c : ServerCfg.ServerConfig) : TunnelSpec := {|
    Name := name;
    Role := "server";
    Transport := ServerCfg.Transport c;
    Preset := ServerCfg.Preset c;
    BindAddr := ServerCfg.BindAddr c;
    RemoteAddr := "";
    Token := ServerCfg.Token c;
    Ports := items (ServerCfg.Ports c);
    LoadBalance := false;
    HealthFailover := false;
    FallbackAddrs := [];
    FallbackTransports := items (ServerCfg.FallbackTransports c);
    FallbackDwell := ServerCfg.FallbackDwell c;
    Nodelay := ServerCfg.Nodelay c;
    Heartbeat := ServerCfg.Heartbeat c;
    KeepAlive := ServerCfg.Keepalive c;
    ChannelSize := ServerCfg.ChannelSize c;
    ConnectionPool := 0;
    AggressivePool := false;
    AcceptUDP := ServerCfg.ForwardsUDP c;
    LogLevel := ServerCfg.LogLevel c;
    LogFormat := ServerCfg.LogFormat c;
    MuxCon := ServerCfg.MuxCon c;
    MuxVersion := ServerCfg.MuxVersion c;
    MuxFrameSize := ServerCfg.MaxFrameSize c;
    MuxRecvBuffer := ServerCfg.MaxReceiveBuffer c;
    MuxStreamBuffer := ServerCfg.MaxStreamBuffer c;
    KCPMTU := Tuning.MTU (ServerCfg.Kcp c);
    KCPInterval := Tuning.Interval (ServerCfg.Kcp c);
    KCPResend := Tuning.Resend (ServerCfg.Kcp c);
    KCPNoDelay := Tuning.NoDelay (ServerCfg.Kcp c);
    KCPNoCongestion := Tuning.NoCongestion (ServerCfg.Kcp c);
    KCPSndWnd := Tuning.SndWnd (ServerCfg.Kcp c);
    KCPRcvWnd := Tuning.RcvWnd (ServerCfg.Kcp c);
    KCPAckNoDelay := Tuning.AckNoDelay (ServerCfg.Kcp c);
    KCPDataShards := Tuning.DataShards (ServerCfg.Kcp c);
    KCPParityShards := Tuning.ParityShards (ServerCfg.Kcp c);
    PckInterface := Tuning.PckInterface (ServerCfg.Pck c);
    PckGatewayMAC := Tuning.PckGatewayMAC (ServerCfg.Pck c);
    PckFlags := items (Tuning.PckFlags (ServerCfg.Pck c));
    MSS := ServerCfg.MSS c;
    SoRcvBuf := ServerCfg.SO_RCVBUF c;
    SoSndBuf := ServerCfg.SO_SNDBUF c;
    ProxyProtocol := ServerCfg.ProxyProtocol c;
    MaxConnections := ServerCfg.MaxConnections c;
    BandwidthMbps := ServerCfg.BandwidthMbps c;
    Sniffer := ServerCfg.Sniffer c;
    WebPort := ServerCfg.WebPort c;
    WebBind := ServerCfg.WebBind c;
    TLSCert := ServerCfg.TLSCertFile c;
    TLSKey := ServerCfg.TLSKeyFile c;
    ACMEDomain := ServerCfg.ACMEDomain c;
    ACMEEmail := ServerCfg.ACMEEmail c;
    EdgeIP := "";
    SimpleAuth := ServerCfg.SimpleAuth c;
    Proxy := "";
    LocalAddr := "";
    Interface := "";
    SOMark := 0;
    ZeroCopy := ServerCfg.ZeroCopy c
  |}.

Definition client_spec (name : string) (c : ClientCfg.ClientConfig) : TunnelSpec := {|
    Name := name;
    Role := "client";
    Transport := ClientCfg.Transport c;
    Preset := ClientCfg.Preset c;
    BindAddr := "";
    RemoteAddr := ClientCfg.RemoteAddr c;
    Token := ClientCfg.Token c;
    Ports := [];
    LoadBalance := ClientCfg.LoadBalance c;
    HealthFailover := ClientCfg.HealthFailover c;
    FallbackAddrs := items (ClientCfg.FallbackAddrs c);
    FallbackTransports := items (ClientCfg.FallbackTransports c);
    FallbackDwell := ClientCfg.FallbackDwell c;
    Nodelay := ClientCfg.Nodelay c;
    Heartbeat := 0;
    KeepAlive := ClientCfg.Keepalive c;
    ChannelSize := 0;
    ConnectionPool := ClientCfg.ConnectionPool c;
    AggressivePool := ClientCfg.AggressivePool c;
    AcceptUDP := false;
    LogLevel := ClientCfg.LogLevel c;
    LogFormat := ClientCfg.LogFormat c;
    MuxCon := ClientCfg.MuxSession c;
    MuxVersion := ClientCfg.MuxVersion c;
    MuxFrameSize := ClientCfg.MaxFrameSize c;
    MuxRecvBuffer := ClientCfg.MaxReceiveBuffer c;
    MuxStreamBuffer := ClientCfg.MaxStreamBuffer c;
    KCPMTU := Tuning.MTU (ClientCfg.Kcp c);
    KCPInterval := Tuning.Interval (ClientCfg.Kcp c);
    KCPResend := Tuning.Resend (ClientCfg.Kcp c);
    KCPNoDelay := Tuning.NoDelay (ClientCfg.Kcp c);
    KCPNoCongestion := Tuning.NoCongestion (ClientCfg.Kcp c);
    KCPSndWnd := Tuning.SndWnd (ClientCfg.Kcp c);
    KCPRcvWnd := Tuning.RcvWnd (ClientCfg.Kcp c);
    KCPAckNoDelay := Tuning.AckNoDelay (ClientCfg.Kcp c);
    KCPDataShards := Tuning.DataShards (ClientCfg.Kcp c);
    KCPParityShards := Tuning.ParityShards (ClientCfg.Kcp c);
    PckInterface := Tuning.PckInterface (ClientCfg.Pck c);
    PckGatewayMAC := Tuning.PckGatewayMAC (ClientCfg.Pck c);
    PckFlags := items (Tuning.PckFlags (ClientCfg.Pck c));
    MSS := ClientCfg.MSS c;
    SoRcvBuf := ClientCfg.SO_RCVBUF c;
    SoSndBuf := ClientCfg.SO_SNDBUF c;
    ProxyProtocol := false;
    MaxConnections := 0;
    BandwidthMbps := 0;
    Sniffer := ClientCfg.Sniffer c;
    WebPort := ClientCfg.WebPort c;
    WebBind := ClientCfg.WebBind c;
    TLSCert := "";
    TLSKey := "";
    ACMEDomain := "";
    ACMEEmail := "";
    EdgeIP := ClientCfg.EdgeIP c;
    SimpleAuth := ClientCfg.SimpleAuth c;
    Proxy := ClientCfg.Proxy c;
    LocalAddr := ClientCfg.LocalAddr c;
    Interface := ClientCfg.Interface c;
    SOMark := ClientCfg.SOMark c;
    ZeroCopy := ClientCfg.ZeroCopy c
  |}.
(** ** Reading it *)

Definition decode (f : doc) : Settings.Config :=
  Settings.mkConfig (decode_server (section "server" f)) (decode_client (section "client" f))
    (DirectSpec.decode (section "l3" f)) (decode_direct (section "direct" f)).

(** The files of the machine, by the names of their tunnels; one that does not
    decode is [None]. *)
Notation files := (gmap string (option doc)).

Inductive error : Type := BadName (name : string) | NoSuchTunnel (name : string) | NotServer (name : string) | NotClient (name : string) | BadFile (name : string).

Definition loadServerSpec (d : files) (name : string) : result error TunnelSpec :=
  match d !! name with
  | Some (Some f) =>
      let sc := Settings.Server (decode f) in
      if String.eqb (ServerCfg.BindAddr sc) "" then Err (NotServer name) else Ok (server_spec name sc)
  | _ => Err (BadFile name)
  end.

Definition loadClientSpec (d : files) (name : string) : result error TunnelSpec :=
  match d !! name with
  | Some (Some f) =>
      let cc := Settings.Client (decode f) in
      if String.eqb (ClientCfg.RemoteAddr cc) "" then Err (NotClient name) else Ok (client_spec name cc)
  | _ => Err (BadFile name)
  end.

(** [os.Stat] finds a file whatever is in it. *)
Definition LoadSpec (d : files) (name : string) : result error TunnelSpec :=
  if negb (Box.validName name) then Err (BadName name)
  else match d !! name with
  | None => Err (NoSuchTunnel name)
  | Some _ => match loadServerSpec d name with Ok s => Ok s | Err _ => loadClientSpec d name end
  end.

(** The tunnels of the machine, as every screen lists them ([core/tunnel.go]). *)
Record Tunnel : Type := mkTunnel { tName : string; tRole : string; tTransport : string; tAddr : string; tPorts : list string }.

Definition DirectRole (resolved : string) : string := if String.eqb resolved "origin" then "kharej" else "iran".

Definition listed (name : string) (cfg : Settings.Config) : option Tunnel :=
  let s := Settings.Server cfg in
  let c := Settings.Client cfg in
  let d := Settings.Direct cfg in
  let l := Settings.L3 cfg in
  if negb (String.eqb (ServerCfg.BindAddr s) "") then
    Some (mkTunnel name "server" (ServerCfg.Transport s) (ServerCfg.BindAddr s) (items (ServerCfg.Ports s)))
  else if negb (String.eqb (ClientCfg.RemoteAddr c) "") then
    Some (mkTunnel name "client" (ClientCfg.Transport c) (ClientCfg.RemoteAddr c) [])
  else if DirectCfg.Enabled d then
    Some (mkTunnel name (DirectRole (DirectCfg.ResolvedRole d)) ("direct/" +:+ DirectSpec.orDefault (DirectCfg.Transport d) "tcp")
      (DirectCfg.Addr d) (items (DirectCfg.Ports d)))
  else if L3Cfg.Enabled l then
    Some (mkTunnel name (Edit.l3Role (L3Cfg.Mode l)) ("l3/" +:+ DirectSpec.orDefault (L3Cfg.Carrier l) "udp")
      (L3Cfg.Addr l) (items (L3Cfg.Ports l)))
  else None.

Definition List (d : files) : list Tunnel :=
  omap (λ n, d !! n ≫= λ o, o ≫= λ f, listed n (decode f)) (GoSort.Strings (map_to_list d).*1).

(** ** Reading back what was written *)

(** What a file keeps of a spec of each role. *)
Definition server_kept (s : TunnelSpec) : TunnelSpec := {|
    Name := Name s;
    Role := "server";
    Transport := Transport s;
    Preset := Preset s;
    BindAddr := BindAddr s;
    RemoteAddr := "";
    Token := Token s;
    Ports := Ports s;
    LoadBalance := false;
    HealthFailover := false;
    FallbackAddrs := [];
    FallbackTransports := FallbackTransports s;
    FallbackDwell := kept (0 <? length (FallbackTransports s))%nat (kept_num (FallbackDwell s)) 0;
    Nodelay := Nodelay s;
    Heartbeat := Heartbeat s;
    KeepAlive := KeepAlive s;
    ChannelSize := ChannelSize s;
    ConnectionPool := 0;
    AggressivePool := false;
    AcceptUDP := AcceptUDP s;
    LogLevel := LogLevel s;
    LogFormat := LogFormat s;
    MuxCon := kept (IsMux (Transport s)) (MuxCon s) 0;
    MuxVersion := kept (IsMux (Transport s)) (MuxVersion s) 0;
    MuxFrameSize := kept (IsMux (Transport s)) (MuxFrameSize s) 0;
    MuxRecvBuffer := kept (IsMux (Transport s)) (MuxRecvBuffer s) 0;
    MuxStreamBuffer := kept (IsMux (Transport s)) (MuxStreamBuffer s) 0;
    KCPMTU := kept (IsKCP (Transport s)) (KCPMTU s) 0;
    KCPInterval := kept (IsKCP (Transport s)) (KCPInterval s) 0;
    KCPResend := kept (IsKCP (Transport s)) (KCPResend s) 0;
    KCPNoDelay := kept (IsKCP (Transport s)) (KCPNoDelay s) 0;
    KCPNoCongestion := kept (IsKCP (Transport s)) (KCPNoCongestion s) 0;
    KCPSndWnd := kept (IsKCP (Transport s)) (KCPSndWnd s) 0;
    KCPRcvWnd := kept (IsKCP (Transport s)) (KCPRcvWnd s) 0;
    KCPAckNoDelay := kept (IsKCP (Transport s)) (KCPAckNoDelay s) false;
    KCPDataShards := kept (IsKCP (Transport s)) (KCPDataShards s) 0;
    KCPParityShards := kept (IsKCP (Transport s)) (KCPParityShards s) 0;
    PckInterface := kept (String.eqb (Transport s) "pck") (PckInterface s) "";
    PckGatewayMAC := kept (String.eqb (Transport s) "pck") (PckGatewayMAC s) "";
    PckFlags := kept (String.eqb (Transport s) "pck") (PckFlags s) [];
    MSS := kept_num (MSS s);
    SoRcvBuf := kept_num (SoRcvBuf s);
    SoSndBuf := kept_num (SoSndBuf s);
    ProxyProtocol := SupportsProxyProtocol (Transport s) && ProxyProtocol s;
    MaxConnections := kept_num (MaxConnections s);
    BandwidthMbps := kept_num (BandwidthMbps s);
    Sniffer := Sniffer s;
    WebPort := kept_num (WebPort s);
    WebBind := kept (0 <? WebPort s) (monitorBind (WebBind s)) "";
    TLSCert := kept (NeedsTLS (Transport s)) (TLSCert s) "";
    TLSKey := kept (NeedsTLS (Transport s)) (TLSKey s) "";
    ACMEDomain := kept (NeedsTLS (Transport s)) (ACMEDomain s) "";
    ACMEEmail := kept (NeedsTLS (Transport s) && negb (String.eqb (ACMEDomain s) "")) (ACMEEmail s) "";
    EdgeIP := "";
    SimpleAuth := NeedsTLS (Transport s) && SimpleAuth s;
    Proxy := "";
    LocalAddr := "";
    Interface := "";
    SOMark := 0;
    ZeroCopy := ZeroCopy s
  |}.

Definition client_kept (s : TunnelSpec) : TunnelSpec := {|
    Name := Name s;
    Role := "client";
    Transport := Transport s;
    Preset := Preset s;
    BindAddr := "";
    RemoteAddr := RemoteAddr s;
    Token := Token s;
    Ports := [];
    LoadBalance := LoadBalance s;
    HealthFailover := HealthFailover s;
    FallbackAddrs := FallbackAddrs s;
    FallbackTransports := FallbackTransports s;
    FallbackDwell := kept (0 <? length (FallbackTransports s))%nat (kept_num (FallbackDwell s)) 0;
    Nodelay := Nodelay s;
    Heartbeat := 0;
    KeepAlive := KeepAlive s;
    ChannelSize := 0;
    ConnectionPool := ConnectionPool s;
    AggressivePool := AggressivePool s;
    AcceptUDP := false;
    LogLevel := LogLevel s;
    LogFormat := LogFormat s;
    MuxCon := kept (IsMux (Transport s)) (MuxCon s) 0;
    MuxVersion := kept (IsMux (Transport s)) (MuxVersion s) 0;
    MuxFrameSize := kept (IsMux (Transport s)) (MuxFrameSize s) 0;
    MuxRecvBuffer := kept (IsMux (Transport s)) (MuxRecvBuffer s) 0;
    MuxStreamBuffer := kept (IsMux (Transport s)) (MuxStreamBuffer s) 0;
    KCPMTU := kept (IsKCP (Transport s)) (KCPMTU s) 0;
    KCPInterval := kept (IsKCP (Transport s)) (KCPInterval s) 0;
    KCPResend := kept (IsKCP (Transport s)) (KCPResend s) 0;
    KCPNoDelay := kept (IsKCP (Transport s)) (KCPNoDelay s) 0;
    KCPNoCongestion := kept (IsKCP (Transport s)) (KCPNoCongestion s) 0;
    KCPSndWnd := kept (IsKCP (Transport s)) (KCPSndWnd s) 0;
    KCPRcvWnd := kept (IsKCP (Transport s)) (KCPRcvWnd s) 0;
    KCPAckNoDelay := kept (IsKCP (Transport s)) (KCPAckNoDelay s) false;
    KCPDataShards := kept (IsKCP (Transport s)) (KCPDataShards s) 0;
    KCPParityShards := kept (IsKCP (Transport s)) (KCPParityShards s) 0;
    PckInterface := kept (String.eqb (Transport s) "pck") (PckInterface s) "";
    PckGatewayMAC := kept (String.eqb (Transport s) "pck") (PckGatewayMAC s) "";
    PckFlags := kept (String.eqb (Transport s) "pck") (PckFlags s) [];
    MSS := kept_num (MSS s);
    SoRcvBuf := kept_num (SoRcvBuf s);
    SoSndBuf := kept_num (SoSndBuf s);
    ProxyProtocol := false;
    MaxConnections := 0;
    BandwidthMbps := 0;
    Sniffer := Sniffer s;
    WebPort := kept_num (WebPort s);
    WebBind := kept (0 <? WebPort s) (monitorBind (WebBind s)) "";
    TLSCert := "";
    TLSKey := "";
    ACMEDomain := "";
    ACMEEmail := "";
    EdgeIP := kept (IsWS (Transport s)) (EdgeIP s) "";
    SimpleAuth := NeedsTLS (Transport s) && SimpleAuth s;
    Proxy := Proxy s;
    LocalAddr := LocalAddr s;
    Interface := Interface s;
    SOMark := SOMark s;
    ZeroCopy := ZeroCopy s
  |}.
(** Reads one key of what was written; what is left says whether it was. *)
Ltac read_key :=
  unfold str, int, bool_, opt_bool, strs, render_server, render_client;
  rewrite lookup_written by reflexivity;
  cbv [has List.find app writeTuning writeKCP writePck writeFallbackChain put_str put_num put_flag put_list only existsb fst snd lookup option_map same_key Ascii.eqb Bool.eqb orb andb].

(** One field of what is read, as the key it comes from. *)
Ltac expose :=
  lazymatch goal with
  | |- ?l = ?r => let l' := eval cbn -[str int bool_ opt_bool strs] in l in change (l' = r)
  end.

(** The cases of what was written and what was not. *)
Ltac settle :=
  unfold kept, kept_num;
  repeat match goal with
  | |- context [(0 <? length ?l)%nat] => destruct l; cbn [length Nat.ltb Nat.leb]
  | |- context [String.eqb ?a ?b] => destruct (String.eqb_spec a b); cbn [negb]
  | |- context [?a =? ?b] => destruct (Z.eqb_spec a b); cbn [negb]
  | |- context [if ?b then _ else _] => lazymatch b with context [if _ then _ else _] => fail | _ => destruct b end; cbn [negb]
  end; cbn [negb andb default]; first [reflexivity | congruence].

Lemma server_read s : server_spec (Name s) (decode_server (render_server s)) = server_kept s.
Proof.
  remember (render_server s) as t eqn:Et. unfold server_spec, server_kept, ServerCfg.ForwardsUDP. f_equal; try reflexivity.
  all: expose; rewrite Et; clear t Et; read_key; settle.
Qed.

Lemma client_read s : client_spec (Name s) (decode_client (render_client s)) = client_kept s.
Proof.
  remember (render_client s) as t eqn:Et. unfold client_spec, client_kept. f_equal; try reflexivity.
  all: expose; rewrite Et; clear t Et; read_key; settle.
Qed.

Definition spec_kept (s : TunnelSpec) : TunnelSpec := if String.eqb (Role s) "server" then server_kept s else client_kept s.

(** Two lists of groups that are written alike. *)
Definition alike (g h : bool * table) : Prop := fst g = fst h ∧ (fst g = true → snd g = snd h).

Lemma written_alike l k : Forall2 alike l k → written l = written k.
Proof.
  induction 1 as [|[b t] [c u] l k [H1 H2] _ IH]; [done|]. unfold written. cbn [map concat fst snd] in *. fold (written l) (written k).
  rewrite IH. subst c. destruct b; [by rewrite H2|done].
Qed.

Ltac cases :=
  unfold kept, kept_num, monitorBind in *;
  repeat (cbn [negb andb length Nat.ltb Nat.leb] in *;
    match goal with
    | |- context [String.eqb ?a ?b] => lazymatch a with context [if _ then _ else _] => fail | _ => destruct (String.eqb_spec a b) end
    | |- context [if ?b then _ else _] => lazymatch b with context [if _ then _ else _] => fail | _ => destruct b eqn:? end
    | |- context [?b && _] => lazymatch b with context [if _ then _ else _] => fail | context [andb _ _] => fail | _ => destruct b eqn:? end
    end);
  cbn [negb andb] in *; intros; first [reflexivity | congruence | discriminate].

Ltac same_groups :=
  apply written_alike;
  cbn -[Z.ltb Z.eqb String.eqb Nat.ltb IsMux IsKCP IsWS NeedsTLS SupportsProxyProtocol kept kept_num monitorBind];
  repeat apply Forall2_cons_2; try apply Forall2_nil_2; split;
  cbn [fst snd only put_str put_num put_list put_flag FallbackTransports FallbackDwell server_kept client_kept]; cases.

Lemma server_rewritten s : render_server (server_kept s) = render_server s.
Proof. unfold render_server. same_groups. Qed.

Lemma client_rewritten s : render_client (client_kept s) = render_client s.
Proof. unfold render_client. same_groups. Qed.

Lemma load_rendered d s :
  Box.validName (Name s) = true → (Role s = "server" ∧ BindAddr s ≠ "" ∨ Role s = "client" ∧ RemoteAddr s ≠ "") →
  LoadSpec (<[Name s := Some (Render s)]> d) (Name s) = Ok (spec_kept s).
Proof.
  intros Hn [[Hr Ha]|[Hr Ha]]; unfold LoadSpec, loadServerSpec, loadClientSpec, spec_kept, Render; rewrite Hn, lookup_insert_eq, Hr; cbn [negb String.eqb Ascii.eqb Bool.eqb].
  - unfold decode. cbn [Settings.Server section List.find same_key fst Ascii.eqb Bool.eqb].
    assert (ServerCfg.BindAddr (decode_server (render_server s)) = BindAddr s) as -> by (unfold decode_server; cbn [ServerCfg.BindAddr]; read_key; settle).
    destruct (String.eqb_spec (BindAddr s) ""); [done|]. by rewrite server_read.
  - unfold decode. cbn [Settings.Server Settings.Client section List.find same_key fst Ascii.eqb Bool.eqb].
    assert (String.eqb (ServerCfg.BindAddr (decode_server [])) "" = true) as -> by done.
    assert (ClientCfg.RemoteAddr (decode_client (render_client s)) = RemoteAddr s) as -> by (unfold decode_client; cbn [ClientCfg.RemoteAddr]; read_key; settle).
    destruct (String.eqb_spec (RemoteAddr s) ""); [done|]. by rewrite client_read.
Qed.

Lemma rendered_again s : (Role s = "server" ∨ Role s = "client") → Render (spec_kept s) = Render s.
Proof.
  unfold spec_kept, Render. intros [-> | ->]; cbn [String.eqb Ascii.eqb Bool.eqb]; cbn [Role server_kept client_kept String.eqb Ascii.eqb Bool.eqb];
  [by rewrite server_rewritten|by rewrite client_rewritten].
Qed.

(** C26: what is written of a tunnel is read back as the tunnel it was, less the
    settings its role and transport have no use for, and writing that again gives
    the same file: saving a tunnel nothing was changed on changes nothing, however
    often it is done. *)
Theorem spec_roundtrip d s (Hn : Box.validName (Name s) = true)
  (Ha : Role s = "server" ∧ BindAddr s ≠ "" ∨ Role s = "client" ∧ RemoteAddr s ≠ "") :
  let d' := <[Name s := Some (Render s)]> d in
  LoadSpec d' (Name s) = Ok (spec_kept s) ∧
  <[Name s := Some (Render (spec_kept s))]> d' = d' ∧
  spec_kept (spec_kept s) = spec_kept s ∧
  ∀ n, n ≠ Name s → LoadSpec d' n = LoadSpec d n.
Proof.
  cbv zeta. assert (Role s = "server" ∨ Role s = "client") as Hr by tauto.
  assert (Name (spec_kept s) = Name s ∧ Role (spec_kept s) = Role s ∧ (Role s = "server" → BindAddr (spec_kept s) = BindAddr s) ∧ (Role s = "client" → RemoteAddr (spec_kept s) = RemoteAddr s)) as (En & Er & Eb & Ec).
  { unfold spec_kept. destruct Hr as [-> | ->]; by cbn [String.eqb Ascii.eqb Bool.eqb]. }
  pose proof (load_rendered d s Hn Ha) as HL. split; [done|]. rewrite (rendered_again s Hr). split; [by rewrite insert_insert_eq|]. split.
  - pose proof (load_rendered d (spec_kept s)) as H. rewrite En, Er, (rendered_again s Hr), HL in H.
    symmetry. apply (Ok_inj (E:=error)), H; [done|]. destruct Ha as [[Hs Ha]|[Hs Ha]]; [left|right]; (split; [done|]); [by rewrite Eb|by rewrite Ec].
  - intros n Hne. unfold LoadSpec, loadServerSpec, loadClientSpec. by rewrite lookup_insert_ne by congruence.
Qed.

Definition kcp_server : TunnelSpec :=
  noSpec <| Name := "tehran" |> <| Role := "server" |> <| Transport := "kcp" |> <| BindAddr := "0.0.0.0:443" |> <| Token := "secret" |>
    <| Ports := ["8080=127.0.0.1:80"] |> <| KCPMTU := 1250 |> <| MSS := 1200 |> <| EdgeIP := "104.16.0.1" |>.

Lemma spec_roundtrip_witness :
  let d' := <["tehran" := Some (Render kcp_server)]> ∅ in
  LoadSpec d' "tehran" = Ok (spec_kept kcp_server) ∧ KCPMTU (spec_kept kcp_server) = 1250 ∧ EdgeIP (spec_kept kcp_server) = "".
Proof.
  split; [|split; reflexivity]. apply (spec_roundtrip ∅ kcp_server); [reflexivity|]. left. split; [reflexivity|discriminate].
Defined.

(** What no spec holds is lost: an edit puts the dial timeout and the pause
    between attempts back to what they start with, and drops the rest. *)
Definition tuned_client : doc :=
  [("client", [("remote_addr", Str "203.0.113.7:443"); ("transport", Str "tcp"); ("token", Str "secret"); ("dial_timeout", Int 25);
               ("retry_interval", Int 30); ("skip_optz", Bool true); ("so_pin_tcp", Bool true); ("sniffer_log", Str "/var/log/bp.json"); ("pprof", Bool true)])].

Lemma rewrite_forgets :
  let before := Settings.Client (decode tuned_client) in
  ∃ s, LoadSpec {["kharej" := Some tuned_client]} "kharej" = Ok s ∧
  let after := Settings.Client (decode (Render s)) in
  (ClientCfg.DialTimeout before, ClientCfg.RetryInterval before, ClientCfg.SkipOptz before, ClientCfg.SOPinTCP before, ClientCfg.SnifferLog before, ClientCfg.PPROF before) =
    (25, 30, true, true, "/var/log/bp.json", true) ∧
  (ClientCfg.DialTimeout after, ClientCfg.RetryInterval after, ClientCfg.SkipOptz after, ClientCfg.SOPinTCP after, ClientCfg.SnifferLog after, ClientCfg.PPROF after) =
    (10, 3, false, false, "", false).
Proof. eexists. split; [vm_compute; reflexivity|]. split; vm_compute; reflexivity. Qed.

(** The screens look for a server before a layer-3 tunnel, the engine the other
    way round: a file that names both is shown as the one and runs as the other. *)
Lemma listing_disagrees :
  let f := [("server", [("bind_addr", Str "0.0.0.0:443"); ("transport", Str "tcp")]);
            ("l3", [("mode", Str "dial"); ("addr", Str "203.0.113.7:51820"); ("token", Str "0123456789abcdef0123456789abcdef"); ("local_ip", Str "10.10.0.1/30"); ("peer_ip", Str "10.10.0.2")])] in
  map tRole (List {["both" := Some f]}) = ["server"] ∧
  match Dispatch.runEngine (decode f) true with Ok (Dispatch.RunsL3 _ _ _) => True | _ => False end.
Proof. split; [vm_compute; reflexivity|]. vm_compute. exact I. Qed.

End Spec.

Module Tune.
Import Spec.
Import Presets(PresetBalance, PresetTurbo, PresetAggressive).

Definition PresetThroughput : string := "throughput".

Record option_ : Type := mkOption { label : string; value : string; kcpOnly : bool }.

(** [presetOptions], in the order of the menus; descriptions are left out. *)
Definition presetOptions : list option_ :=
  [mkOption "Balance" PresetBalance false; mkOption "Turbo" PresetTurbo false;
   mkOption "Aggressive" PresetAggressive false; mkOption "Throughput" PresetThroughput true].

Definition validPreset (p : string) : bool := Kinds.one_of p [PresetBalance; PresetTurbo; PresetAggressive; PresetThroughput].

Definition presetSuitsTransport (preset transport : string) : bool :=
  if negb (String.eqb preset PresetThroughput) then true else String.eqb transport "kcp".

Definition presetOptionsFor (transport : string) : list option_ :=
  filter (λ o, kcpOnly o && negb (presetSuitsTransport (value o) transport) = false) presetOptions.

Definition presetLabel (v : string) : string :=
  match List.find (λ o, String.eqb (value o) v) presetOptions with
  | Some o => label o
  | None => if String.eqb v "" then "Custom" else v
  end.

(** The cases of both switches. *)
Definition applyKCPPreset (s : TunnelSpec) (preset : string) : TunnelSpec :=
  let s := s <| KCPMTU := 1250 |> <| KCPInterval := 10 |> <| KCPResend := 2 |> <| KCPNoDelay := 1 |>
             <| KCPNoCongestion := 1 |> <| KCPAckNoDelay := true |> in
  if String.eqb preset PresetBalance then
    s <| KCPSndWnd := 512 |> <| KCPRcvWnd := 512 |> <| KCPDataShards := 10 |> <| KCPParityShards := 2 |>
  else if String.eqb preset PresetTurbo then
    s <| KCPSndWnd := 1024 |> <| KCPRcvWnd := 1024 |> <| KCPDataShards := 10 |> <| KCPParityShards := 3 |>
  else if String.eqb preset PresetAggressive then
    s <| KCPSndWnd := 2048 |> <| KCPRcvWnd := 2048 |> <| KCPDataShards := 10 |> <| KCPParityShards := 4 |>
  else if String.eqb preset PresetThroughput then
    s <| KCPInterval := 20 |> <| KCPAckNoDelay := false |> <| KCPSndWnd := 4096 |> <| KCPRcvWnd := 4096 |>
      <| KCPDataShards := 10 |> <| KCPParityShards := 1 |>
  else s.

Definition MB : Z := 1024 * 1024.

Definition tune (s : TunnelSpec) (preset : string) : TunnelSpec :=
  if String.eqb preset PresetBalance then
    s <| KeepAlive := 75 |> <| Heartbeat := 40 |> <| ChannelSize := 2048 |> <| ConnectionPool := 4 |> <| AggressivePool := false |>
      <| SoRcvBuf := 4 * MB |> <| SoSndBuf := 4 * MB |> <| MuxCon := 4 |> <| MuxVersion := 2 |> <| MuxFrameSize := 32768 |>
      <| MuxRecvBuffer := 4 * MB |> <| MuxStreamBuffer := 256 * 1024 |>
  else if String.eqb preset PresetTurbo then
    s <| KeepAlive := 75 |> <| Heartbeat := 40 |> <| ChannelSize := 4096 |> <| ConnectionPool := 8 |> <| AggressivePool := false |>
      <| SoRcvBuf := 8 * MB |> <| SoSndBuf := 8 * MB |> <| MuxCon := 8 |> <| MuxVersion := 2 |> <| MuxFrameSize := 32768 |>
      <| MuxRecvBuffer := 16 * MB |> <| MuxStreamBuffer := 2 * MB |>
  else if String.eqb preset PresetAggressive then
    s <| KeepAlive := 60 |> <| Heartbeat := 25 |> <| ChannelSize := 8192 |> <| ConnectionPool := 16 |> <| AggressivePool := true |>
      <| SoRcvBuf := 32 * MB |> <| SoSndBuf := 32 * MB |> <| MuxCon := 16 |> <| MuxVersion := 2 |> <| MuxFrameSize := 65535 |>
      <| MuxRecvBuffer := 32 * MB |> <| MuxStreamBuffer := 16 * MB |>
  else if String.eqb preset PresetThroughput then
    s <| KeepAlive := 75 |> <| Heartbeat := 40 |> <| ChannelSize := 8192 |> <| ConnectionPool := 16 |> <| AggressivePool := false |>
      <| SoRcvBuf := 32 * MB |> <| SoSndBuf := 32 * MB |> <| MuxCon := 8 |> <| MuxVersion := 2 |> <| MuxFrameSize := 65535 |>
      <| MuxRecvBuffer := 64 * MB |> <| MuxStreamBuffer := 32 * MB |>
  else s.

Definition ApplyPreset (s : TunnelSpec) (preset : string) : TunnelSpec :=
  let preset := if validPreset preset then preset else PresetTurbo in
  applyKCPPreset (tune (s <| Preset := preset |> <| LogLevel := "info" |> <| Nodelay := true |>) preset) preset.

(** ** Properties *)

(** The preset that is applied is one of the four. *)
Lemma preset_cases p : ∀ P : string → Prop, P PresetBalance → P PresetTurbo → P PresetAggressive → P PresetThroughput →
  P (if validPreset p then p else PresetTurbo).
Proof.
  intros P H1 H2 H3 H4. destruct (validPreset p) eqn:E; [|done].
  apply Kinds.one_of_elem in E. rewrite !elem_of_cons in E. by destruct E as [-> |[-> |[-> |[-> |E%elem_of_nil]]]].
Qed.

(** What the transports and the error correction take: a frame length fits its
    two bytes and a stream's window the session's, the ARQ ticks within the
    bounds of its library, both shard counts are there and fit a block, and no
    buffer or pool is empty. *)
Record runnable (s : TunnelSpec) : Prop := {
  r_frame : 0 < MuxFrameSize s ≤ 65535;
  r_windows : 0 < MuxStreamBuffer s ≤ MuxRecvBuffer s;
  r_version : MuxVersion s = 1 ∨ MuxVersion s = 2;
  r_sessions : 0 < MuxCon s;
  r_mtu : 50 ≤ KCPMTU s ≤ 1500;
  r_tick : 10 ≤ KCPInterval s ≤ 5000;
  r_window : 32 ≤ KCPSndWnd s ∧ KCPSndWnd s ≤ KCPRcvWnd s;
  r_shards : 0 < KCPDataShards s ∧ 0 < KCPParityShards s ∧ KCPDataShards s + KCPParityShards s ≤ 256;
  r_pool : 0 < ConnectionPool s ∧ 0 < ChannelSize s ∧ 0 < KeepAlive s ∧ 0 < Heartbeat s;
  r_sockets : 0 < SoRcvBuf s ∧ 0 < SoSndBuf s
}.

(** A spec without what a preset decides. *)
Definition untuned (s : TunnelSpec) : TunnelSpec :=
  s <| Preset := "" |> <| LogLevel := "" |> <| Nodelay := false |> <| KeepAlive := 0 |> <| Heartbeat := 0 |> <| ChannelSize := 0 |>
    <| ConnectionPool := 0 |> <| AggressivePool := false |> <| SoRcvBuf := 0 |> <| SoSndBuf := 0 |> <| MuxCon := 0 |>
    <| MuxVersion := 0 |> <| MuxFrameSize := 0 |> <| MuxRecvBuffer := 0 |> <| MuxStreamBuffer := 0 |> <| KCPMTU := 0 |>
    <| KCPInterval := 0 |> <| KCPResend := 0 |> <| KCPNoDelay := 0 |> <| KCPNoCongestion := 0 |> <| KCPSndWnd := 0 |>
    <| KCPRcvWnd := 0 |> <| KCPAckNoDelay := false |> <| KCPDataShards := 0 |> <| KCPParityShards := 0 |>.

Lemma ApplyPreset_untuned s p : untuned (ApplyPreset s p) = untuned s.
Proof. unfold ApplyPreset. cbv zeta. apply (preset_cases p); destruct s; lazy; reflexivity. Qed.

Lemma ApplyPreset_last s p q : ApplyPreset (ApplyPreset s q) p = ApplyPreset s p.
Proof. unfold ApplyPreset. cbv zeta. apply (preset_cases p); apply (preset_cases q); destruct s; lazy; reflexivity. Qed.

Lemma ApplyPreset_named s p : validPreset p = true → Preset (ApplyPreset s p) = p.
Proof.
  intros H. unfold ApplyPreset. rewrite H. cbv zeta. pose proof (preset_cases p) as A. rewrite H in A.
  apply (A (λ x, Preset (applyKCPPreset (tune (s <| Preset := x |> <| LogLevel := "info" |> <| Nodelay := true |>) x) x) = x)); reflexivity.
Qed.

(** Whatever preset is asked for, every number it sets is one the transports
    and the error correction take; nothing of the preset before it is left; and
    nothing a preset does not decide (who the tunnel is, where it listens and
    dials, its ports, certificates, limits and segment cap) is touched. *)
Theorem presets_sound s p :
  runnable (ApplyPreset s p) ∧
  (∀ q, ApplyPreset (ApplyPreset s q) p = ApplyPreset s p) ∧
  untuned (ApplyPreset s p) = untuned s ∧
  (validPreset p = true → Preset (ApplyPreset s p) = p).
Proof.
  split_and!; [|intros q; apply ApplyPreset_last|apply ApplyPreset_untuned|apply ApplyPreset_named].
  unfold ApplyPreset. cbv zeta. apply (preset_cases p); split; lazy -[Z.lt Z.le Z.add]; lia.
Qed.

(** The menus offer a transport only presets it takes. *)
Lemma offered_suits t o : o ∈ presetOptionsFor t → validPreset (value o) = true ∧ (presetSuitsTransport (value o) t = true).
Proof.
  unfold presetOptionsFor. intros [Hf Ho]%list_elem_of_filter. split.
  - unfold presetOptions in Ho. rewrite !elem_of_cons in Ho. by destruct Ho as [-> |[-> |[-> |[-> |Ho%elem_of_nil]]]].
  - unfold presetOptions in Ho. rewrite !elem_of_cons in Ho. destruct Ho as [-> |[-> |[-> |[-> |Ho%elem_of_nil]]]]; try done.
    cbn [kcpOnly andb] in Hf. by apply negb_false_iff in Hf.
Qed.

End Tune.
