(* ===== verification/RevPanel.v ===== *)
(** Reverse tunnels as the panel and the menus make and change them
    ([internal/manage/webapi.go], [webapi_advanced.go], [edit.go],
    [portclash.go], [fallbackchain.go]):
    - Module [Relay]: the port mappings the bot adds for itself;
    - Module [Fine]: the drawer of tuning numbers, and which of them a form sent;
    - Module [Drawers]: the drawers of the packet carrier, of connectivity and of
      limits;
    - Module [Clash]: two tunnels that cannot both work;
    - Module [Create]: a tunnel from a filled form;
    - Module [Change]: the edits, one setting at a time or all in one form;
    - Modules [Made] and [Starts]: a tunnel that is made is read back, and starts;
    - Module [Keeps]: what an edit leaves alone;
    - Module [Faults]: where the screens fail.

    A form and an edit are functions to the spec that is saved; saving it is the
    subject of [ConfHist]. *)

From Stdlib Require Import Ascii String.
From S2P Require Import Prelude GoStr GoHash Pck Ports GoNet GoSort Settings Checks Startup DirectFile DirectPanel RevFile.
Import GoStr GoNet.
Open Scope string_scope.
Open Scope list_scope.
Open Scope Z_scope.

Module Relay.

Definition SocksInternalPort : Z := 1080.

Definition SocksPortForToken (token : string) : Z :=
  if String.eqb token "" then SocksInternalPort
  else 20000 + get_be (take 4 (Sha.sha256 (to_bytes ("backpack-socks-v1:" +:+ token)))) `mod` 20000.

Definition TelegramHost : string := "api.telegram.org:443".

Definition isTelegramPort (p : string) : bool := HasSuffix (TrimSpace p) ("=" +:+ TelegramHost).

Definition isBotRelayPort (p token : string) : bool :=
  let p := TrimSpace p in
  if isTelegramPort p then true
  else if HasSuffix p ("=127.0.0.1:" +:+ Itoa SocksInternalPort) then true
  else if String.eqb token "" then false
  else HasSuffix p ("=127.0.0.1:" +:+ Itoa (SocksPortForToken token)).

Definition VisiblePorts (ports : list string) (token : string) : list string := filter (λ p, isBotRelayPort p token = false) ports.
Definition hidden (ports : list string) (token : string) : list string := filter (λ p, isBotRelayPort p token = true) ports.

End Relay.

Module Fine.
Import Toml Spec.

Record FineTune : Type := mkFine {
  fNodelay : bool;
  fKeepAlive : Z;
  fHeartbeat : Z;
  fLogLevel : string;
  fLogJSON : bool;
  fMSS : Z;
  fChannelSize : Z;
  fAcceptUDP : bool;
  fConnectionPool : Z;
  fAggressivePool : bool;
  fMuxCon : Z;
  fMuxVersion : Z;
  fMuxFrameSize : Z;
  fMuxRecvBuffer : Z;
  fMuxStreamBuffer : Z;
  fKCPMTU : Z;
  fKCPInterval : Z;
  fKCPSndWnd : Z;
  fKCPRcvWnd : Z;
  fKCPDataShards : Z;
  fKCPParityShards : Z;
  fZeroCopy : bool;
  sent : option (list string)
}.

(** The fields by the keys they are posted under. *)
Definition fineTuneKeys : list (string * (FineTune → value)) :=
  [("nodelay", λ f, Bool (fNodelay f)); ("keepAlive", λ f, Int (fKeepAlive f)); ("heartbeat", λ f, Int (fHeartbeat f));
   ("logLevel", λ f, Str (fLogLevel f)); ("logJSON", λ f, Bool (fLogJSON f)); ("mss", λ f, Int (fMSS f));
   ("channelSize", λ f, Int (fChannelSize f)); ("acceptUDP", λ f, Bool (fAcceptUDP f));
   ("connectionPool", λ f, Int (fConnectionPool f)); ("aggressivePool", λ f, Bool (fAggressivePool f));
   ("muxCon", λ f, Int (fMuxCon f)); ("muxVersion", λ f, Int (fMuxVersion f)); ("muxFrameSize", λ f, Int (fMuxFrameSize f));
   ("muxRecvBuffer", λ f, Int (fMuxRecvBuffer f)); ("muxStreamBuffer", λ f, Int (fMuxStreamBuffer f));
   ("kcpMTU", λ f, Int (fKCPMTU f)); ("kcpInterval", λ f, Int (fKCPInterval f)); ("kcpSndWnd", λ f, Int (fKCPSndWnd f));
   ("kcpRcvWnd", λ f, Int (fKCPRcvWnd f)); ("kcpDataShards", λ f, Int (fKCPDataShards f));
   ("kcpParityShards", λ f, Int (fKCPParityShards f)); ("zeroCopy", λ f, Bool (fZeroCopy f))].

(** [UnmarshalJSON], of an object whose members are named as the form names them
    and have the types of their fields. *)
Definition UnmarshalJSON (m : table) : FineTune := {|
    fNodelay := bool_ "nodelay" m;
    fKeepAlive := int "keepAlive" m;
    fHeartbeat := int "heartbeat" m;
    fLogLevel := str "logLevel" m;
    fLogJSON := bool_ "logJSON" m;
    fMSS := int "mss" m;
    fChannelSize := int "channelSize" m;
    fAcceptUDP := bool_ "acceptUDP" m;
    fConnectionPool := int "connectionPool" m;
    fAggressivePool := bool_ "aggressivePool" m;
    fMuxCon := int "muxCon" m;
    fMuxVersion := int "muxVersion" m;
    fMuxFrameSize := int "muxFrameSize" m;
    fMuxRecvBuffer := int "muxRecvBuffer" m;
    fMuxStreamBuffer := int "muxStreamBuffer" m;
    fKCPMTU := int "kcpMTU" m;
    fKCPInterval := int "kcpInterval" m;
    fKCPSndWnd := int "kcpSndWnd" m;
    fKCPRcvWnd := int "kcpRcvWnd" m;
    fKCPDataShards := int "kcpDataShards" m;
    fKCPParityShards := int "kcpParityShards" m;
    fZeroCopy := bool_ "zeroCopy" m;
    sent := Some (map fst m)
  |}.

(** [has]. *)
Definition was_sent (f : FineTune) (key : string) : bool :=
  match sent f with None => true | Some l => Kinds.one_of key l end.

Definition notPreset (key : string) : bool := Kinds.one_of key ["logLevel"; "logJSON"; "acceptUDP"; "mss"; "zeroCopy"].

#[export] Instance value_eq_dec : EqDecision value.
Proof. solve_decision. Defined.

Definition with_sent (f : FineTune) (l : list string) : FineTune := {|
    fNodelay := fNodelay f;
    fKeepAlive := fKeepAlive f;
    fHeartbeat := fHeartbeat f;
    fLogLevel := fLogLevel f;
    fLogJSON := fLogJSON f;
    fMSS := fMSS f;
    fChannelSize := fChannelSize f;
    fAcceptUDP := fAcceptUDP f;
    fConnectionPool := fConnectionPool f;
    fAggressivePool := fAggressivePool f;
    fMuxCon := fMuxCon f;
    fMuxVersion := fMuxVersion f;
    fMuxFrameSize := fMuxFrameSize f;
    fMuxRecvBuffer := fMuxRecvBuffer f;
    fMuxStreamBuffer := fMuxStreamBuffer f;
    fKCPMTU := fKCPMTU f;
    fKCPInterval := fKCPInterval f;
    fKCPSndWnd := fKCPSndWnd f;
    fKCPRcvWnd := fKCPRcvWnd f;
    fKCPDataShards := fKCPDataShards f;
    fKCPParityShards := fKCPParityShards f;
    fZeroCopy := fZeroCopy f;
    sent := Some l
  |}.

Definition changedFrom (f before : FineTune) : FineTune :=
  with_sent f (map fst (filter (λ k : string * (FineTune → value), was_sent f (fst k) && bool_decide (snd k f ≠ snd k before) = true) fineTuneKeys)).

Definition touchesPreset (f : FineTune) : bool :=
  existsb (λ k : string * (FineTune → value), was_sent f (fst k) && negb (notPreset (fst k))) fineTuneKeys.

Definition tuneOf (s : TunnelSpec) : FineTune := {|
    fNodelay := Nodelay s;
    fKeepAlive := KeepAlive s;
    fHeartbeat := Heartbeat s;
    fLogLevel := LogLevel s;
    fLogJSON := String.eqb (LogFormat s) "json";
    fMSS := MSS s;
    fChannelSize := ChannelSize s;
    fAcceptUDP := AcceptUDP s;
    fConnectionPool := ConnectionPool s;
    fAggressivePool := AggressivePool s;
    fMuxCon := MuxCon s;
    fMuxVersion := MuxVersion s;
    fMuxFrameSize := MuxFrameSize s;
    fMuxRecvBuffer := MuxRecvBuffer s;
    fMuxStreamBuffer := MuxStreamBuffer s;
    fKCPMTU := KCPMTU s;
    fKCPInterval := KCPInterval s;
    fKCPSndWnd := KCPSndWnd s;
    fKCPRcvWnd := KCPRcvWnd s;
    fKCPDataShards := KCPDataShards s;
    fKCPParityShards := KCPParityShards s;
    fZeroCopy := ZeroCopy s;
    sent := None
  |}.

(** [setInt]: what is left in the field. *)
Definition setInt (dst v : Z) : Z := if 0 <? v then v else dst.

Definition log_level (f : FineTune) (s : TunnelSpec) : string :=
  let l := ToLower (TrimSpace (fLogLevel f)) in
  if Kinds.one_of l ["debug"; "info"; "warn"; "error"] then l else LogLevel s.

(** [apply]. *)
Definition apply (f : FineTune) (s : TunnelSpec) : TunnelSpec :=
  let given {A} (key : string) (v old : A) := if was_sent f key then v else old in
  s <| Nodelay := given "nodelay" (fNodelay f) (Nodelay s) |>
    <| AggressivePool := given "aggressivePool" (fAggressivePool f) (AggressivePool s) |>
    <| AcceptUDP := given "acceptUDP" (fAcceptUDP f) (AcceptUDP s) |>
    <| ZeroCopy := given "zeroCopy" (fZeroCopy f && String.eqb (Transport s) "tcp") (ZeroCopy s) |>
    <| Heartbeat := given "heartbeat" (fHeartbeat f) (Heartbeat s) |>
    <| KeepAlive := setInt (KeepAlive s) (fKeepAlive f) |>
    <| ChannelSize := setInt (ChannelSize s) (fChannelSize f) |>
    <| ConnectionPool := setInt (ConnectionPool s) (fConnectionPool f) |>
    <| MuxCon := setInt (MuxCon s) (fMuxCon f) |>
    <| MuxVersion := setInt (MuxVersion s) (fMuxVersion f) |>
    <| MuxFrameSize := setInt (MuxFrameSize s) (fMuxFrameSize f) |>
    <| MuxRecvBuffer := setInt (MuxRecvBuffer s) (fMuxRecvBuffer f) |>
    <| MuxStreamBuffer := setInt (MuxStreamBuffer s) (fMuxStreamBuffer f) |>
    <| KCPMTU := setInt (KCPMTU s) (fKCPMTU f) |>
    <| KCPInterval := setInt (KCPInterval s) (fKCPInterval f) |>
    <| KCPSndWnd := setInt (KCPSndWnd s) (fKCPSndWnd f) |>
    <| KCPRcvWnd := setInt (KCPRcvWnd s) (fKCPRcvWnd f) |>
    <| KCPDataShards := given "kcpDataShards" (fKCPDataShards f) (KCPDataShards s) |>
    <| KCPParityShards := given "kcpParityShards" (fKCPParityShards f) (KCPParityShards s) |>
    <| MSS := given "mss" (fMSS f) (MSS s) |>
    <| LogLevel := given "logLevel" (log_level f s) (LogLevel s) |>
    <| LogFormat := given "logJSON" (if fLogJSON f then "json" else "") (LogFormat s) |>
    <| Preset := if touchesPreset f then "" else Preset s |>.

Definition PresetTune (preset role transport : string) : FineTune :=
  tuneOf (Tune.ApplyPreset (noSpec <| Role := role |> <| Transport := transport |>) preset).

(** *** What a form does not send *)

Lemma same_key_refl k : same_key k k = true.
Proof. induction k as [|c k IH]; [done|]. cbn [same_key]. by rewrite Ascii.eqb_refl. Qed.

Lemma unposted (m : table) k : Toml.lookup k m = None → Kinds.one_of k (map fst m) = false.
Proof.
  unfold Toml.lookup. induction m as [|[k' v] m IH]; [done|]. cbn [List.find fst map]. destruct (same_key k' k) eqn:E; [done|]. intros H.
  change (String.eqb k k' || Kinds.one_of k (map fst m) = false). rewrite IH by done. rewrite orb_false_r. apply String.eqb_neq. intros ->.
  by rewrite same_key_refl in E.
Qed.

(** A field that was not posted is the tunnel's own afterwards. *)
Lemma unposted_kept (m : table) s : Forall (λ k : string * (FineTune → value), Toml.lookup (fst k) m = None →
  snd k (tuneOf (apply (UnmarshalJSON m) s)) = snd k (tuneOf s)) fineTuneKeys.
Proof.
  repeat (apply Forall_cons; split; [|]); [..|by apply Forall_nil]; cbn [fst]; intros H; pose proof (unposted _ _ H) as Hs;
  unfold apply, UnmarshalJSON, was_sent, int, bool_, str; cbn [sent fKeepAlive fChannelSize fConnectionPool fMuxCon fMuxVersion fMuxFrameSize fMuxRecvBuffer fMuxStreamBuffer fKCPMTU fKCPInterval fKCPSndWnd fKCPRcvWnd];
  rewrite ?H, ?Hs; reflexivity.
Qed.

Lemma filter_nil_each {A} (P : A → Prop) `{∀ x, Decision (P x)} l : Forall (λ x, ¬ P x) l → filter P l = [].
Proof. induction 1; [done|]. by rewrite filter_cons_False. Qed.

(** A drawer posted as it was shown asks for nothing. *)
Lemma shown_unchanged s l : sent (changedFrom (with_sent (tuneOf s) l) (tuneOf s)) = Some [].
Proof.
  unfold changedFrom. cbn [sent with_sent]. f_equal. enough (filter (λ k : string * (FineTune → value), was_sent (with_sent (tuneOf s) l) (fst k) && bool_decide (snd k (with_sent (tuneOf s) l) ≠ snd k (tuneOf s)) = true) fineTuneKeys = []) as -> by done.
  apply filter_nil_each. repeat (apply Forall_cons; split; [cbn [snd]; rewrite andb_comm; rewrite bool_decide_eq_false_2; [done|]; intros []; reflexivity|]). by apply Forall_nil.
Qed.

End Fine.

Module Drawers.
Import Spec.

(** The machine a form is filled on: its tunnels, its devices and network, the
    files that are there and whether a certificate can be written. *)
Record box : Type := mkBox { disk : files; hst : host; present : string → bool; can_write : bool }.

Inductive error : Type :=
  | Unreadable (e : Spec.error)
  | NoSuchRole (role : string) | UnknownTransport (t : string) | InvalidName (name : string)
  | BadTunnelPort (e : Bind.error) | NoToken | NoPorts | BadPorts (p : string) | BindsNothing | NoServerAddr
  | Clashes (other : string) | UnknownPreset (p : string) | UnsuitedPreset (p t : string) | NoCertificate
  | BadInterface (e : SpoofTune.error) | NotAMAC (m : string) | NegativeLimit
  | EdgeNotWS | EdgeNotIP | ProxyOverDatagram (t : string) | BadProxy (e : Outbound.proxy_error) | NotALocalIP | NoPortFor (addr : string)
  | ServerSetting | ClientSetting | NotTLS (t : string) | IPCertificate | NoServerPort | NoHeader (t : string) | NothingToChange
  | BadServerAddr | BadBackup (a : string) | NothingToBalance | Already | NotStream (t : string) | BadMSS | NotPck | BadFlags (e : Flags.error)
  | BadChain (e : Transport.error) | NegativeDwell.

(** *** The packet carrier *)

Record PckTune : Type := mkPckTune { pInterface : string; pGatewayMAC : string; pFlags : string }.

Definition pckOf (s : TunnelSpec) : PckTune := mkPckTune (PckInterface s) (PckGatewayMAC s) (Join (PckFlags s) ",").

Definition cleanPckFlags (raw : string) : list string :=
  filter (λ p, p ≠ "") (map (λ p, Flags.ToUpper (TrimSpace p)) (Split raw ",")).

Definition checkInterface (h : host) (raw : string) : result error string :=
  match SpoofTune.checkInterface h raw with Ok i => Ok i | Err e => Err (BadInterface e) end.

Definition pck_apply (h : host) (f : PckTune) (s : TunnelSpec) : result error TunnelSpec :=
  if negb (String.eqb (Transport s) "pck") then Ok s
  else
    let? iface := checkInterface h (pInterface f) in
    let mac := TrimSpace (pGatewayMAC f) in
    let? _ := require (String.eqb mac "" || ParseMAC mac) (NotAMAC mac) in
    Ok (s <| PckInterface := iface |> <| PckGatewayMAC := mac |> <| PckFlags := cleanPckFlags (pFlags f) |>).

(** *** Connectivity *)

Record ConnTune : Type := mkConn {
  cSimpleAuth : bool;
  cEdgeIP : string;
  cProxy : string;
  cInterface : string;
  cLocalAddr : string;
  cFallbackAddrs : string;
  cLoadBalance : bool;
  cHealthFailover : bool
}.

Definition connOf (s : TunnelSpec) : ConnTune := {|
    cSimpleAuth := SimpleAuth s;
    cEdgeIP := EdgeIP s;
    cProxy := Proxy s;
    cInterface := Interface s;
    cLocalAddr := LocalAddr s;
    cFallbackAddrs := Join (FallbackAddrs s) ", ";
    cLoadBalance := LoadBalance s;
    cHealthFailover := HealthFailover s
  |}.

(** The backup addresses, one by one. *)
Fixpoint backups (l : list string) (defaultPort : string) : result error (list string) :=
  match l with
  | [] => Ok []
  | p :: l =>
      let p := TrimSpace p in
      if String.eqb p "" then backups l defaultPort
      else
        let? p := match Net.SplitHostPort p with
                  | Some _ => Ok p
                  | None => if String.eqb defaultPort "" then Err (NoPortFor p) else Ok (Net.JoinHostPort (Bind.TrimBrackets p) defaultPort)
                  end in
        let? rest := backups l defaultPort in
        Ok (p :: rest)
  end.

Definition conn_apply (h : host) (f : ConnTune) (s : TunnelSpec) (defaultPort : string) : result error TunnelSpec :=
  let s := s <| SimpleAuth := cSimpleAuth f && Kinds.NeedsTLS (Transport s) |> in
  if negb (String.eqb (Role s) "client") then Ok s
  else
    let edge := TrimSpace (cEdgeIP f) in
    let? _ := require (String.eqb edge "" || Kinds.IsWS (Transport s)) EdgeNotWS in
    let? _ := require (String.eqb edge "" || match ParseIP edge with Some _ => true | None => false end) EdgeNotIP in
    let proxy := TrimSpace (cProxy f) in
    let? _ := require (String.eqb proxy "" || negb (Kinds.IsDatagram (Transport s))) (ProxyOverDatagram (Transport s)) in
    let? _ := if String.eqb proxy "" then Ok None
              else match Outbound.ParseProxy h proxy with Ok p => Ok p | Err e => Err (BadProxy e) end in
    let? iface := checkInterface h (cInterface f) in
    let local := TrimSpace (cLocalAddr f) in
    let? _ := require (String.eqb local "" || match ParseIP local with Some _ => true | None => false end) NotALocalIP in
    let? addrs := backups (Split (cFallbackAddrs f) ",") defaultPort in
    let haveBackups := (0 <? length addrs)%nat in
    let failover := cHealthFailover f && haveBackups in
    Ok (s <| EdgeIP := edge |> <| Proxy := proxy |> <| Interface := iface |> <| LocalAddr := local |> <| FallbackAddrs := addrs |>
          <| HealthFailover := failover |> <| LoadBalance := cLoadBalance f && haveBackups && negb failover |>).

(** *** Limits *)

Record TunnelLimits : Type := mkLimits { lMaxConnections : Z; lBandwidthMbps : Z }.

Definition limitsOf (s : TunnelSpec) : TunnelLimits := mkLimits (MaxConnections s) (BandwidthMbps s).

Definition limits_apply (f : TunnelLimits) (s : TunnelSpec) : result error TunnelSpec :=
  let? _ := require (negb ((lMaxConnections f <? 0) || (lBandwidthMbps f <? 0))) NegativeLimit in
  Ok (s <| MaxConnections := lMaxConnections f |> <| BandwidthMbps := lBandwidthMbps f |>).

(** [applyAdvanced]; a drawer that was not opened is [None]. *)
Definition applyAdvanced (h : host) (s : TunnelSpec) (pck : option PckTune) (conn : option ConnTune) (limits : option TunnelLimits)
    (defaultPort : string) : result error TunnelSpec :=
  let? s := match pck with Some f => pck_apply h f s | None => Ok s end in
  let? s := match conn with Some f => conn_apply h f s defaultPort | None => Ok s end in
  match limits with Some f => limits_apply f s | None => Ok s end.

Definition clearForTransport (s : TunnelSpec) : TunnelSpec :=
  let s := if negb (String.eqb (Transport s) "pck") then s <| PckInterface := "" |> <| PckGatewayMAC := "" |> <| PckFlags := [] |> else s in
  let s := if negb (Kinds.IsWS (Transport s)) then s <| EdgeIP := "" |> else s in
  let s := if negb (Kinds.NeedsTLS (Transport s)) then s <| SimpleAuth := false |> else s in
  if Kinds.IsDatagram (Transport s) then s <| Proxy := "" |> else s.

(** [EnsureSelfSignedCert]: the pair of a tunnel, there already or written now. *)
Definition certDir : string := "/etc/backpack/certs".

Definition EnsureSelfSignedCert (b : box) (name : string) : result error (string * string) :=
  let crt := certDir +:+ "/" +:+ name +:+ ".crt" in
  let key := certDir +:+ "/" +:+ name +:+ ".key" in
  if present b crt && present b key then Ok (crt, key)
  else if can_write b then Ok (crt, key) else Err NoCertificate.

Definition with_certificate (b : box) (s : TunnelSpec) : result error TunnelSpec :=
  let? p := EnsureSelfSignedCert b (Name s) in Ok (s <| TLSCert := fst p |> <| TLSKey := snd p |>).

End Drawers.

Module Clash.
Import Spec.

Definition sameBindHost (a b : string) : bool :=
  if Bind.IsWildcardBind a || Bind.IsWildcardBind b then true else EqualFold a b.

(** [clashAgainst]: the tunnel the new one cannot coexist with. *)
Definition clashAgainst (role addr newName : string) (existing : list Tunnel) : option string :=
  match Net.SplitHostPort addr with
  | None => None
  | Some (host, port) =>
      option_map tName (List.find (λ t,
        negb (EqualFold (tName t) newName) && String.eqb (tRole t) role &&
        match Net.SplitHostPort (tAddr t) with
        | None => false
        | Some (otherHost, otherPort) =>
            String.eqb otherPort port &&
            (if String.eqb role "server" then sameBindHost host otherHost else EqualFold otherHost host)
        end) existing)
  end.

Definition portClash (d : files) (role addr newName : string) : option string := clashAgainst role addr newName (List d).

End Clash.

Module Create.
Import Spec Drawers.

Record NewTunnel : Type := mkNew {
  nRole : string;
  nTransport : string;
  nName : string;
  nTunnelPort : string;
  nServerAddr : string;
  nToken : string;
  nPorts : string;
  nPreset : string;
  nIPv6 : bool;
  nProxyProtocol : bool;
  nTune : option Fine.FineTune;
  nPck : option PckTune;
  nConn : option ConnTune;
  nLimits : option TunnelLimits
}.

Definition of_opt {A} (e : A → error) (o : option A) : result error unit := match o with Some a => Err (e a) | None => Ok tt end.

(** Where the tunnel of a form listens or dials, with its ports. *)
Definition place (n : NewTunnel) (bind : Bind.TunnelBind) (s : TunnelSpec) : result error TunnelSpec :=
  if String.eqb (Role s) "server" then
    let ports := Ports.Spec.ParsePorts (nPorts n) in
    let? _ := require (0 <? length ports)%nat NoPorts in
    let? _ := of_opt BadPorts (Ports.Spec.ValidatePortSpecs ports) in
    Ok (s <| BindAddr := Bind.Addr bind (nIPv6 n) |> <| Spec.Ports := ports |>
          <| ProxyProtocol := Kinds.SupportsProxyProtocol (Transport s) && nProxyProtocol n |>)
  else
    let? _ := require (negb (Bind.HasHost bind)) BindsNothing in
    let host := Bind.TrimBrackets (TrimSpace (nServerAddr n)) in
    let? _ := require (negb (String.eqb host "")) NoServerAddr in
    Ok (s <| RemoteAddr := Net.JoinHostPort host (Bind.Port bind) |>).

Definition specFromNew (b : box) (n : NewTunnel) : result error TunnelSpec :=
  let? _ := require (Kinds.one_of (nRole n) ["server"; "client"]) (NoSuchRole (nRole n)) in
  let transport := ToLower (TrimSpace (nTransport n)) in
  let? _ := require (Kinds.ValidTransport transport) (UnknownTransport (nTransport n)) in
  let name := TrimSpace (nName n) in
  let? _ := require (Box.validName name) (InvalidName (nName n)) in
  let? bind := match Bind.ParseTunnelBind (nTunnelPort n) with Ok p => Ok p | Err e => Err (BadTunnelPort e) end in
  let token := TrimSpace (nToken n) in
  let? _ := require (negb (String.eqb token "")) NoToken in
  let? s := place n bind (noSpec <| Role := nRole n |> <| Transport := transport |> <| Name := name |> <| Token := token |>) in
  let? _ := of_opt Clashes (Clash.portClash (disk b) (Role s) (if String.eqb (Role s) "client" then RemoteAddr s else BindAddr s) (Name s)) in
  let p := TrimSpace (nPreset n) in
  let? _ := require (String.eqb p "" || Tune.validPreset p) (UnknownPreset p) in
  let? _ := require (Tune.presetSuitsTransport (nPreset n) (Transport s)) (UnsuitedPreset (nPreset n) (Transport s)) in
  let s := Tune.ApplyPreset s (nPreset n) in
  let s := match nTune n with Some f => Fine.apply f s | None => s end in
  let? s := if String.eqb (Role s) "server" && Kinds.NeedsTLS (Transport s) then with_certificate b s else Ok s in
  applyAdvanced (hst b) s (nPck n) (nConn n) (nLimits n) (Bind.Port bind).

End Create.
Module Change.
Import Spec Drawers Relay.

Definition load (b : box) (name : string) : result error TunnelSpec :=
  match LoadSpec (disk b) name with Ok s => Ok s | Err e => Err (Unreadable e) end.

Definition bind_of (text : string) : result error Bind.TunnelBind :=
  match Bind.ParseTunnelBind text with Ok p => Ok p | Err e => Err (BadTunnelPort e) end.

Definition switchTransport (b : box) (s : TunnelSpec) (transport : string) : result error TunnelSpec :=
  let? _ := require (Kinds.ValidTransport transport) (UnknownTransport transport) in
  let s := s <| Transport := transport |> in
  let s := if Kinds.IsMux transport && (MuxCon s <=? 0)
           then s <| MuxCon := 8 |> <| MuxVersion := 2 |> <| MuxFrameSize := 32768 |> <| MuxRecvBuffer := 4194304 |> <| MuxStreamBuffer := 65536 |>
           else s in
  let? s := if String.eqb (Role s) "server" && Kinds.NeedsTLS transport && (String.eqb (TLSCert s) "" || negb (present b (TLSCert s)))
            then with_certificate b s else Ok s in
  Ok (if Kinds.IsKCP transport && (KCPInterval s <=? 0)
      then Tune.applyKCPPreset s (if Tune.validPreset (Preset s) then Preset s else Presets.PresetTurbo)
      else s).

(** *** Everything in one form *)

Record TunnelEdit : Type := mkEdit {
  eServerAddr : string;
  eTunnelPort : string;
  ePorts : string;
  eTransport : string;
  ePreset : string;
  eTune : option Fine.FineTune;
  ePck : option PckTune;
  eConn : option ConnTune;
  eLimits : option TunnelLimits;
  eProxyProtocol : option bool;
  eACMEDomain : option string;
  eACMEEmail : option string
}.

(** A spec and whether it is still the one that was loaded. *)
Definition draft : Type := TunnelSpec * bool.

Definition edit_transport (b : box) (e : TunnelEdit) (d : draft) : result error draft :=
  let t := ToLower (TrimSpace (eTransport e)) in
  if negb (String.eqb t "") && negb (String.eqb t (Transport (fst d))) then
    let? s := switchTransport b (fst d) t in Ok (clearForTransport s, true)
  else Ok d.

Definition edit_preset (e : TunnelEdit) (d : draft) : result error draft :=
  let p := TrimSpace (ePreset e) in
  if negb (String.eqb p "") && negb (String.eqb p (Preset (fst d))) then
    let? _ := require (Tune.validPreset p) (UnknownPreset p) in
    let? _ := require (Tune.presetSuitsTransport p (Transport (fst d))) (UnsuitedPreset p (Transport (fst d))) in
    Ok (Tune.ApplyPreset (fst d) p, true)
  else Ok d.

(** The drawer, less what it shows unchanged. *)
Definition edit_tune (tune : option Fine.FineTune) (d : draft) : result error draft :=
  match tune with
  | Some f => match Fine.sent f with Some (_ :: _) => Ok (Fine.apply f (fst d), true) | _ => Ok d end
  | None => Ok d
  end.

Definition edit_certificate (b : box) (e : TunnelEdit) (d : draft) : result error draft :=
  let s := fst d in
  match eACMEDomain e, eACMEEmail e with
  | None, None => Ok d
  | dom, mail =>
      let domain := match dom with Some x => ToLower (TrimSpace x) | None => ACMEDomain s end in
      let email := match mail with Some x => TrimSpace x | None => ACMEEmail s end in
      let named := negb (String.eqb domain "") in
      let server := String.eqb (Role s) "server" in
      let? _ := require (negb (named && negb server)) ServerSetting in
      let? _ := require (negb (named && negb (Kinds.NeedsTLS (Transport s)))) (NotTLS (Transport s)) in
      let? _ := require (negb (named && match ParseIP domain with Some _ => true | None => false end)) IPCertificate in
      if negb (String.eqb domain (ACMEDomain s)) || negb (String.eqb email (ACMEEmail s)) then
        let s := s <| ACMEDomain := domain |> <| ACMEEmail := email |> in
        let? s := if Kinds.NeedsTLS (Transport s) && server && (String.eqb (TLSCert s) "" || negb (present b (TLSCert s)))
                  then with_certificate b s else Ok s in
        Ok (s, true)
      else Ok d
  end.

Definition edit_port (e : TunnelEdit) (d : draft) : result error draft :=
  let s := fst d in
  let spec := TrimSpace (eTunnelPort e) in
  if String.eqb spec "" then Ok d
  else
    let? bind := bind_of spec in
    if String.eqb (Role s) "server" then
      let want := if Bind.HasHost bind then Bind.Addr bind false
                  else Net.JoinHostPort (Bind.AddrHost (BindAddr s) "0.0.0.0") (Bind.Port bind) in
      Ok (if negb (String.eqb want (BindAddr s)) then (s <| BindAddr := want |>, true) else d)
    else
      let? _ := require (negb (Bind.HasHost bind)) BindsNothing in
      Ok (if negb (String.eqb (Bind.AddrPort (RemoteAddr s)) (Bind.Port bind))
          then (s <| RemoteAddr := Net.JoinHostPort (Bind.AddrHost (RemoteAddr s) "") (Bind.Port bind) |>, true) else d).

Definition edit_addr (e : TunnelEdit) (d : draft) : result error draft :=
  let s := fst d in
  let host := Bind.TrimBrackets (TrimSpace (eServerAddr e)) in
  if String.eqb host "" then Ok d
  else
    let? _ := require (String.eqb (Role s) "client") ClientSetting in
    let p := Bind.AddrPort (RemoteAddr s) in
    let? _ := require (Ports.Spec.ValidPort p) NoServerPort in
    let addr := Net.JoinHostPort host p in
    Ok (if negb (String.eqb addr (RemoteAddr s)) then (s <| RemoteAddr := addr |>, true) else d).

(** The ports of a form, with the mappings it never showed put back. *)
Definition new_ports (s : TunnelSpec) (given : list string) : result error TunnelSpec :=
  let clean := VisiblePorts given (Token s) in
  let? _ := require (0 <? length clean)%nat NoPorts in
  let? _ := Create.of_opt BadPorts (Ports.Spec.ValidatePortSpecs clean) in
  Ok (s <| Spec.Ports := clean ++ hidden (Spec.Ports s) (Token s) |>).

Definition edit_ports (e : TunnelEdit) (d : draft) : result error draft :=
  let raw := TrimSpace (ePorts e) in
  if String.eqb raw "" then Ok d
  else
    let? _ := require (String.eqb (Role (fst d)) "server") ServerSetting in
    let? s := new_ports (fst d) (Ports.Spec.ParsePorts raw) in
    Ok (s, true).

Definition edit_advanced (b : box) (e : TunnelEdit) (d : draft) : result error draft :=
  let s := fst d in
  match ePck e, eConn e, eLimits e with
  | None, None, None => Ok d
  | pck, conn, limits =>
      let port := Bind.AddrPort (if String.eqb (Role s) "client" then RemoteAddr s else BindAddr s) in
      let? s := applyAdvanced (hst b) s pck conn limits port in
      Ok (s, true)
  end.

Definition edit_header (e : TunnelEdit) (d : draft) : result error draft :=
  let s := fst d in
  match eProxyProtocol e with
  | None => Ok d
  | Some on =>
      let? _ := require (String.eqb (Role s) "server") ServerSetting in
      let? _ := require (negb (on && negb (Kinds.SupportsProxyProtocol (Transport s)))) (NoHeader (Transport s)) in
      Ok (if Bool.eqb (ProxyProtocol s) on then d else (s <| ProxyProtocol := on |>, true))
  end.

(** [EditTunnelSettings], to the spec it saves. *)
Definition edited (b : box) (s : TunnelSpec) (e : TunnelEdit) : result error TunnelSpec :=
  let tune := option_map (λ f, Fine.changedFrom f (Fine.tuneOf s)) (eTune e) in
  let? d := edit_transport b e (s, false) in
  let? d := edit_preset e d in
  let? d := edit_tune tune d in
  let? d := edit_certificate b e d in
  let? d := edit_port e d in
  let? d := edit_addr e d in
  let? d := edit_ports e d in
  let? d := edit_advanced b e d in
  let? d := edit_header e d in
  if snd d then Ok (fst d) else Err NothingToChange.

Definition EditTunnelSettings (b : box) (name : string) (e : TunnelEdit) : result error TunnelSpec :=
  let? s := load b name in edited b s e.

(** What the form is filled with. *)
Record TunnelSettings : Type := mkSettings {
  sName : string;
  sRole : string;
  sTransport : string;
  sServerHost : string;
  sTunnelPort : string;
  sBindHost : string;
  sPorts : list string;
  sPreset : string;
  sPresetName : string;
  sTune : Fine.FineTune;
  sPck : PckTune;
  sConn : ConnTune;
  sLimits : TunnelLimits;
  sProxyProtocol : bool;
  sACMEDomain : string;
  sACMEEmail : string
}.

Definition settings_of (s : TunnelSpec) : TunnelSettings :=
  let server := String.eqb (Role s) "server" in
  {|
    sName := Name s;
    sRole := Role s;
    sTransport := Transport s;
    sServerHost := if server then "" else Bind.AddrHost (RemoteAddr s) "";
    sTunnelPort := Bind.AddrPort (if server then BindAddr s else RemoteAddr s);
    sBindHost := if server then Bind.BindHostOf (BindAddr s) else "";
    sPorts := if server then VisiblePorts (Spec.Ports s) (Token s) else [];
    sPreset := Preset s;
    sPresetName := Tune.presetLabel (Preset s);
    sTune := Fine.tuneOf s;
    sPck := pckOf s;
    sConn := connOf s;
    sLimits := limitsOf s;
    sProxyProtocol := ProxyProtocol s;
    sACMEDomain := ACMEDomain s;
    sACMEEmail := ACMEEmail s
  |}.

Definition TunnelSettingsOf (b : box) (name : string) : result error TunnelSettings :=
  let? s := load b name in Ok (settings_of s).

(** *** One setting at a time *)

Definition EditTunnel (b : box) (name host tunnelPort : string) (ports : list string) : result error TunnelSpec :=
  let? s := load b name in
  let moved := negb (String.eqb tunnelPort "") || negb (String.eqb host "") in
  let? s :=
    if negb moved then Ok s
    else
      let? bind := if String.eqb tunnelPort "" then Ok (Bind.mkBind "" "") else bind_of tunnelPort in
      if String.eqb (Role s) "server" then
        let? _ := require (String.eqb host "") ClientSetting in
        Ok (s <| BindAddr := if Bind.HasHost bind then Bind.Addr bind false
                             else Net.JoinHostPort (Bind.AddrHost (BindAddr s) "0.0.0.0") (Bind.Port bind) |>)
      else
        let? _ := require (negb (Bind.HasHost bind)) BindsNothing in
        let h := if String.eqb host "" then Bind.AddrHost (RemoteAddr s) "" else Bind.TrimBrackets (TrimSpace host) in
        let p := if String.eqb (Bind.Port bind) "" then Bind.AddrPort (RemoteAddr s) else Bind.Port bind in
        let? _ := require (negb (String.eqb h "" || negb (Ports.Spec.ValidPort p))) BadServerAddr in
        Ok (s <| RemoteAddr := Net.JoinHostPort h p |>) in
  match ports with
  | [] => if moved then Ok s else Err NothingToChange
  | _ =>
      let? _ := require (String.eqb (Role s) "server") ServerSetting in
      new_ports s (filter (λ p, p ≠ "") (map TrimSpace ports))
  end.

(** One backup address as [SetFallbackAddrs] takes it. *)
Definition backup (primaryPort a : string) : result error string :=
  let (host, port) := match Net.SplitHostPort a with Some (h, p) => (h, p) | None => (a, "") end in
  let? port := if negb (String.eqb port "") then Ok port
               else if String.eqb primaryPort "" then Err (NoPortFor a) else Ok primaryPort in
  let? _ := require (Ports.Spec.ValidPort port) (BadBackup a) in
  let? _ := require (negb (String.eqb host "")) (BadBackup a) in
  let host := if contains_char ":" host && negb (HasPrefix host "[") then "[" +:+ host +:+ "]" else host in
  Ok (Net.JoinHostPort (Bind.TrimBrackets host) port).

Fixpoint collect (primaryPort : string) (seen l : list string) : result error (list string) :=
  match l with
  | [] => Ok []
  | a :: l =>
      let a := TrimSpace a in
      if String.eqb a "" then collect primaryPort seen l
      else
        let? full := backup primaryPort a in
        if bool_decide (full ∈ seen) then collect primaryPort seen l
        else let? rest := collect primaryPort (full :: seen) l in Ok (full :: rest)
  end.

Definition SetFallbackAddrs (b : box) (name : string) (addrs : list string) : result error TunnelSpec :=
  let? s := load b name in
  let? _ := require (String.eqb (Role s) "client") ClientSetting in
  let? clean := collect (Bind.AddrPort (RemoteAddr s)) [TrimSpace (RemoteAddr s)] addrs in
  Ok (s <| FallbackAddrs := clean |>).

Definition ChangeTransport (b : box) (name transport : string) : result error TunnelSpec :=
  let transport := ToLower (TrimSpace transport) in
  let? s := load b name in
  let? _ := require (negb (String.eqb (Transport s) transport)) Already in
  switchTransport b s transport.

Definition SetLoadBalance (b : box) (name : string) (on : bool) : result error TunnelSpec :=
  let? s := load b name in
  let? _ := require (String.eqb (Role s) "client") ClientSetting in
  let? _ := require (negb (on && (length (FallbackAddrs s) =? 0)%nat)) NothingToBalance in
  let? _ := require (negb (Bool.eqb (LoadBalance s) on)) Already in
  let s := s <| LoadBalance := on |> in
  Ok (if on then s <| HealthFailover := false |> else s).

Definition SetProxyProtocol (b : box) (name : string) (on : bool) : result error TunnelSpec :=
  let? s := load b name in
  let? _ := require (String.eqb (Role s) "server") ServerSetting in
  let? _ := require (Kinds.SupportsProxyProtocol (Transport s)) (NoHeader (Transport s)) in
  let? _ := require (negb (Bool.eqb (ProxyProtocol s) on)) Already in
  Ok (s <| ProxyProtocol := on |>).

Definition SetLimits (b : box) (name : string) (maxConns bandwidthMbps : Z) : result error TunnelSpec :=
  let? s := load b name in
  let? _ := require (String.eqb (Role s) "server") ServerSetting in
  let? _ := require (negb ((maxConns <? 0) || (bandwidthMbps <? 0))) NegativeLimit in
  Ok (s <| MaxConnections := maxConns |> <| BandwidthMbps := bandwidthMbps |>).

Definition SetAcceptUDP (b : box) (name : string) (on : bool) : result error TunnelSpec :=
  let? s := load b name in
  let? _ := require (String.eqb (Role s) "server") ServerSetting in
  let? _ := require (negb (Bool.eqb (AcceptUDP s) on)) Already in
  Ok (s <| AcceptUDP := on |>).

Definition minPathMTU : Z := 576.
Definition safeMSS (mtu : Z) : Z := mtu - 20 - 32.
Definition minMSS : Z := safeMSS minPathMTU.
Definition maxMSS : Z := 1500 - 20 - 20.

Definition SetMSS (b : box) (name : string) (mss : Z) : result error TunnelSpec :=
  let? s := load b name in
  let? _ := require (negb (Kinds.IsDatagram (Transport s))) (NotStream (Transport s)) in
  let? _ := require (negb (negb (mss =? 0) && ((mss <? minMSS) || (maxMSS <? mss)))) BadMSS in
  let? _ := require (negb (MSS s =? mss)) Already in
  Ok (s <| MSS := mss |>).

Definition SetPckFlags (b : box) (name : string) (flags : list string) : result error TunnelSpec :=
  let? s := load b name in
  let? _ := require (String.eqb (Transport s) "pck") NotPck in
  let clean := filter (λ f, f ≠ "") (map (λ f, TrimSpace (Flags.ToUpper f)) flags) in
  let? _ := match Flags.ParseTCPFlagList clean with Ok _ => Ok tt | Err e => Err (BadFlags e) end in
  Ok (s <| PckFlags := clean |>).

Definition ChangePreset (b : box) (name preset : string) : result error TunnelSpec :=
  let? _ := require (Tune.validPreset preset) (UnknownPreset preset) in
  let? s := load b name in
  let? _ := require (Tune.presetSuitsTransport preset (Transport s)) (UnsuitedPreset preset (Transport s)) in
  Ok (Tune.ApplyPreset s preset).

Definition SetCertificate (b : box) (name domain email : string) : result error TunnelSpec :=
  let? s := load b name in
  let? _ := require (String.eqb (Role s) "server") ServerSetting in
  let? _ := require (Kinds.NeedsTLS (Transport s)) (NotTLS (Transport s)) in
  let s := s <| ACMEDomain := domain |> <| ACMEEmail := email |> in
  if String.eqb (TLSCert s) "" || negb (present b (TLSCert s)) then with_certificate b s else Ok s.

(** [cleanChain]: what is kept of a list of carriers. *)
Fixpoint clean_list (seen l : list string) : list string :=
  match l with
  | [] => []
  | t :: l =>
      let t := ToLower (TrimSpace t) in
      if String.eqb t "" || bool_decide (t ∈ seen) then clean_list seen l else t :: clean_list (t :: seen) l
  end.

Definition cleanChain (primary : string) (l : list string) : result error (list string) :=
  let clean := clean_list [TrimSpace primary] l in
  match Settings.Transport.ValidateFallbackTransports primary clean with
  | Some e => Err (BadChain e)
  | None => Ok clean
  end.

Definition SetFallbackTransports (b : box) (name : string) (l : list string) (dwell : Z) : result error TunnelSpec :=
  let? s := load b name in
  let? clean := cleanChain (Transport s) l in
  let? _ := require (negb (dwell <? 0)) NegativeDwell in
  Ok (s <| FallbackTransports := clean |> <| FallbackDwell := dwell |>).

End Change.
(** ** What an accepted form makes *)

Module Made.
Import Spec Drawers Create Tune.

(** What tuning and certificates do not touch. *)
Definition core (s : TunnelSpec) : TunnelSpec :=
  (untuned s) <| TLSCert := "" |> <| TLSKey := "" |> <| AcceptUDP := false |> <| ZeroCopy := false |> <| MSS := 0 |> <| LogFormat := "" |>.

Lemma core_preset s p : core (ApplyPreset s p) = core s.
Proof. unfold core. by rewrite ApplyPreset_untuned. Qed.

Lemma core_fine f s : core (Fine.apply f s) = core s.
Proof. destruct s. lazy. reflexivity. Qed.

Lemma core_certificate b s s' : with_certificate b s = Ok s' → core s' = core s.
Proof.
  unfold with_certificate. intros (p & _ & H)%bind_Ok. injection H as <-. destruct s. lazy. reflexivity.
Qed.

Lemma erased {T} (E : TunnelSpec → TunnelSpec) (f : TunnelSpec → T) s s' : E s' = E s → (∀ s, f (E s) = f s) → f s' = f s.
Proof. intros H Hf. by rewrite <- (Hf s'), <- (Hf s), H. Qed.

Lemma from_core {T} (f : TunnelSpec → T) s s' : core s' = core s → (∀ s, f (core s) = f s) → f s' = f s.
Proof. intros H Hf. by rewrite <- (Hf s'), <- (Hf s), H. Qed.

(** What the drawers set. *)
Definition but_advanced (s : TunnelSpec) : TunnelSpec :=
  s <| PckInterface := "" |> <| PckGatewayMAC := "" |> <| PckFlags := [] |> <| SimpleAuth := false |> <| EdgeIP := "" |> <| Proxy := "" |>
    <| Interface := "" |> <| LocalAddr := "" |> <| FallbackAddrs := [] |> <| HealthFailover := false |> <| LoadBalance := false |>
    <| MaxConnections := 0 |> <| BandwidthMbps := 0 |>.

Lemma applyAdvanced_but h s pck conn limits port s' : applyAdvanced h s pck conn limits port = Ok s' → but_advanced s' = but_advanced s.
Proof.
  unfold applyAdvanced. intros H. apply bind_Ok in H as (s1 & H1 & H). apply bind_Ok in H as (s2 & H2 & H).
  assert (but_advanced s1 = but_advanced s) as <-.
  { destruct pck as [f|]; [|by injection H1 as <-]. unfold pck_apply in H1. destruct (negb _); [by injection H1 as <-|].
    do 2 (apply bind_Ok in H1 as (? & _ & H1)). injection H1 as <-. destruct s. lazy. reflexivity. }
  assert (but_advanced s2 = but_advanced s1) as <-.
  { destruct conn as [f|]; [|by injection H2 as <-]. unfold conn_apply in H2. destruct (negb _); [injection H2 as <-; destruct s1; lazy; reflexivity|].
    do 7 (apply bind_Ok in H2 as (? & _ & H2)). injection H2 as <-. destruct s1. lazy. reflexivity. }
  destruct limits as [f|]; [|by injection H as <-]. unfold limits_apply in H. apply bind_Ok in H as (? & _ & H). injection H as <-. destruct s2. lazy. reflexivity.
Qed.

(** What the engine needs to know of a spec. *)
Record made (h : host) (s : TunnelSpec) : Prop := {
  m_transport : Kinds.ValidTransport (Transport s) = true;
  m_name : Box.validName (Name s) = true;
  m_addr : Role s = "server" ∧ BindAddr s ≠ "" ∨ Role s = "client" ∧ RemoteAddr s ≠ "";
  m_chain : FallbackTransports s = [];
  m_mark : SOMark s = 0;
  m_proxy : is_Some (match Outbound.ParseProxy h (Proxy s) with Ok p => Some p | Err _ => None end) ∧
    (Proxy s ≠ "" → Kinds.IsDatagram (Transport s) = false);
  m_iface : Interface s ≠ "" → has_interface h (Interface s) = true;
  m_local : LocalAddr s ≠ "" → is_Some (ParseIP (LocalAddr s));
  m_pck : (PckGatewayMAC s ≠ "" → ParseMAC (PckGatewayMAC s) = true) ∧ (PckInterface s ≠ "" → has_interface h (PckInterface s) = true)
}.

Lemma made_core h s s' : core s' = core s → made h s → made h s'.
Proof.
  intros Hc [H1 H2 H3 H4 H5 H6 H7 H8 H9].
  assert (∀ T (f : TunnelSpec → T), (∀ s, f (core s) = f s) → f s' = f s) as C.
  { intros T f Hf. by apply from_core. }
  split; rewrite ?(C _ Transport), ?(C _ Name), ?(C _ Role), ?(C _ BindAddr), ?(C _ RemoteAddr), ?(C _ FallbackTransports), ?(C _ SOMark), ?(C _ Proxy),
    ?(C _ Interface), ?(C _ LocalAddr), ?(C _ PckGatewayMAC), ?(C _ PckInterface) by reflexivity; done.
Qed.

Lemma checkInterface_Ok h raw i : checkInterface h raw = Ok i → i ≠ "" → has_interface h i = true.
Proof.
  unfold checkInterface, SpoofTune.checkInterface. destruct (String.eqb_spec (TrimSpace raw) ""); [by intros [= <-]|].
  destruct (has_interface h (TrimSpace raw)) eqn:E; [|done]. by intros [= <-].
Qed.

Lemma pck_apply_made h f s s' : pck_apply h f s = Ok s' → made h s → made h s'.
Proof.
  unfold pck_apply. destruct (negb _); [by intros [= <-]|]. intros H [H1 H2 H3 H4 H5 H6 H7 H8 H9].
  apply bind_Ok in H as (i & Hi & H). apply bind_Ok in H as (u & Hm & H). injection H as <-. apply require_Ok' in Hm.
  split; try done. split; [|by apply (checkInterface_Ok h (pInterface f))].
  change (TrimSpace (pGatewayMAC f) ≠ "" → ParseMAC (TrimSpace (pGatewayMAC f)) = true). intros Hn%String.eqb_neq. by rewrite Hn in Hm.
Qed.

Lemma conn_apply_made h f s port s' : conn_apply h f s port = Ok s' → made h s → made h s'.
Proof.
  unfold conn_apply. intros H [H1 H2 H3 H4 H5 H6 H7 H8 H9].
  destruct (negb _); [injection H as <-; by split|].
  do 3 (apply bind_Ok in H as (?u & ? & H)). apply bind_Ok in H as (px & Hpx & H). apply bind_Ok in H as (i & Hi & H).
  apply bind_Ok in H as (? & Hl & H). apply bind_Ok in H as (addrs & _ & H). injection H as <-.
  apply require_Ok' in Hl. split; try done.
  - change (is_Some (match Outbound.ParseProxy h (TrimSpace (cProxy f)) with Ok p => Some p | Err _ => None end) ∧
      (TrimSpace (cProxy f) ≠ "" → Kinds.IsDatagram (Transport s) = false)).
    match goal with H : require (_ || negb (Kinds.IsDatagram _)) _ = _ |- _ => apply require_Ok' in H; rename H into Hd end.
    split.
    + destruct (String.eqb_spec (TrimSpace (cProxy f)) "") as [->|]; [by eexists|]. destruct (Outbound.ParseProxy h (TrimSpace (cProxy f))); [by eexists|done].
    + intros Hn%String.eqb_neq. rewrite Hn in Hd. cbn [orb] in Hd. by apply negb_true_iff in Hd.
  - by apply (checkInterface_Ok h (cInterface f)).
  - change (TrimSpace (cLocalAddr f) ≠ "" → is_Some (ParseIP (TrimSpace (cLocalAddr f)))). intros Hn%String.eqb_neq. rewrite Hn in Hl. cbn [orb] in Hl.
    by destruct (ParseIP (TrimSpace (cLocalAddr f))).
Qed.

Lemma applyAdvanced_made h s pck conn limits port s' : applyAdvanced h s pck conn limits port = Ok s' → made h s → made h s'.
Proof.
  unfold applyAdvanced. intros H Hs. apply bind_Ok in H as (s1 & H1 & H). apply bind_Ok in H as (s2 & H2 & H).
  assert (made h s1) as M1 by (destruct pck; [by eapply pck_apply_made|by injection H1 as <-]).
  assert (made h s2) as M2 by (destruct conn; [by eapply conn_apply_made|by injection H2 as <-]).
  destruct limits as [f|]; [|by injection H as <-]. unfold limits_apply in H. apply bind_Ok in H as (? & _ & H). injection H as <-.
  destruct M2. by split.
Qed.

Lemma plain_made h s : Kinds.ValidTransport (Transport s) = true → Box.validName (Name s) = true →
  (Role s = "server" ∧ BindAddr s ≠ "" ∨ Role s = "client" ∧ RemoteAddr s ≠ "") →
  FallbackTransports s = [] → SOMark s = 0 → Proxy s = "" → Interface s = "" → LocalAddr s = "" → PckGatewayMAC s = "" → PckInterface s = "" →
  made h s.
Proof.
  intros ? ? ? ? ? Hp Hi Hl Hg Hf. split; rewrite ?Hp, ?Hi, ?Hl, ?Hg, ?Hf; try done.
Qed.

(** The tunnel a form describes, before anything is tuned. *)
Lemma place_made h n bind role t name token s : place n bind (noSpec <| Role := role |> <| Transport := t |> <| Name := name |> <| Token := token |>) = Ok s →
  (role = "server" ∨ role = "client") → Kinds.ValidTransport t = true → Box.validName name = true →
  made h s ∧ Role s = role.
Proof.
  unfold place. cbn [Role assign set_Role set_Transport set_Name set_Token]. intros H Hr Ht Hn.
  destruct (String.eqb_spec role "server") as [E|E].
  - apply bind_Ok in H as (? & _ & H). apply bind_Ok in H as (? & _ & H). injection H as <-. split; [|done].
    apply plain_made; try done. left. split; [done|]. apply Form.JoinHostPort_set.
  - destruct Hr as [Hr|Hr]; [done|]. apply bind_Ok in H as (? & _ & H). apply bind_Ok in H as (? & _ & H). injection H as <-. split; [|done].
    apply plain_made; try done. right. split; [done|]. apply Form.JoinHostPort_set.
Qed.

Lemma specFromNew_made b n s : specFromNew b n = Ok s → made (hst b) s ∧ Role s = nRole n.
Proof.
  unfold specFromNew. intros H. apply bind_Ok in H as (? & Hr & H). apply bind_Ok in H as (? & Ht & H). apply bind_Ok in H as (? & Hn & H).
  apply bind_Ok in H as (bind & _ & H). apply bind_Ok in H as (? & _ & H). apply bind_Ok in H as (s1 & H1 & H).
  do 3 (apply bind_Ok in H as (? & _ & H)). apply bind_Ok in H as (s2 & H2 & H).
  apply require_Ok' in Hr, Ht, Hn. apply Kinds.one_of_elem in Hr. rewrite !elem_of_cons in Hr.
  apply (place_made (hst b)) in H1 as [M1 E1]; [|destruct Hr as [Hr|[Hr|Hr]]; [by left|by right|by apply elem_of_nil in Hr]|done|done].
  set (t1 := ApplyPreset s1 (nPreset n)) in *.
  set (t2 := match nTune n with Some f => Fine.apply f t1 | None => t1 end) in *.
  assert (core t2 = core s1) as C2 by (unfold t2; destruct (nTune n); rewrite ?core_fine; apply core_preset).
  assert (core s2 = core t2) as C3 by (destruct (_ && _) in H2; [by eapply core_certificate|by injection H2 as <-]).
  assert (made (hst b) s2) as M2 by (eapply made_core; [by rewrite C3|done]).
  split; [by eapply applyAdvanced_made|]. rewrite <- E1, <- (from_core Role _ _ C2), <- (from_core Role _ _ C3) by done.
  apply applyAdvanced_but in H. by rewrite <- (erased but_advanced Role _ _ H).
Qed.

(** *** What the engine makes of the file *)

Lemma nothing_else s : Settings.L3 (decode (Render s)) = L3Cfg.none ∧ Settings.Direct (decode (Render s)) = DirectCfg.none.
Proof. unfold Render, decode. destruct (String.eqb (Role s) "server"); split; reflexivity. Qed.

Lemma server_fields s (c := decode_server (render_server s)) :
  ServerCfg.BindAddr c = BindAddr s ∧ ServerCfg.Transport c = Transport s ∧ items (ServerCfg.FallbackTransports c) = FallbackTransports s ∧
  Tuning.PckInterface (ServerCfg.Pck c) = kept (String.eqb (Transport s) "pck") (PckInterface s) "" ∧
  Tuning.PckGatewayMAC (ServerCfg.Pck c) = kept (String.eqb (Transport s) "pck") (PckGatewayMAC s) "" ∧
  items (Tuning.PckFlags (ServerCfg.Pck c)) = kept (String.eqb (Transport s) "pck") (PckFlags s) [].
Proof.
  pose proof (server_read s) as E. fold c in E. split_and!;
  [exact (f_equal BindAddr E)|exact (f_equal Transport E)|exact (f_equal FallbackTransports E)|exact (f_equal PckInterface E)|exact (f_equal PckGatewayMAC E)|exact (f_equal PckFlags E)].
Qed.

Lemma client_fields s (c := decode_client (render_client s)) :
  ClientCfg.RemoteAddr c = RemoteAddr s ∧ ClientCfg.Transport c = Transport s ∧ items (ClientCfg.FallbackTransports c) = FallbackTransports s ∧
  Tuning.PckInterface (ClientCfg.Pck c) = kept (String.eqb (Transport s) "pck") (PckInterface s) "" ∧
  Tuning.PckGatewayMAC (ClientCfg.Pck c) = kept (String.eqb (Transport s) "pck") (PckGatewayMAC s) "" ∧
  items (Tuning.PckFlags (ClientCfg.Pck c)) = kept (String.eqb (Transport s) "pck") (PckFlags s) [] ∧
  ClientCfg.Proxy c = Proxy s ∧ ClientCfg.LocalAddr c = LocalAddr s ∧ ClientCfg.Interface c = Interface s ∧ ClientCfg.SOMark c = SOMark s.
Proof.
  pose proof (client_read s) as E. fold c in E. split_and!;
  [exact (f_equal RemoteAddr E)|exact (f_equal Transport E)|exact (f_equal FallbackTransports E)|exact (f_equal PckInterface E)|exact (f_equal PckGatewayMAC E)|exact (f_equal PckFlags E)|exact (f_equal Proxy E)|exact (f_equal LocalAddr E)|exact (f_equal Interface E)|exact (f_equal SOMark E)].
Qed.

(** What is left to the machine and to the carrier for a saved tunnel to start. *)
Record startable (h : host) (s : TunnelSpec) : Prop := {
  st_raw : Transport s = "xdi" ∨ Transport s = "pck" → goos h = "linux" ∧ euid h = 0;
  st_flags : Transport s = "pck" → ∃ l, Flags.ParseTCPFlagList (PckFlags s) = Ok l;
  st_route : Role s = "client" → LocalAddr s ≠ "" ∨ Interface s ≠ "" → Kinds.IsDatagram (Transport s) = false
}.

End Made.
Module Starts.
Import Spec Drawers Create Made Defaults.

Section on_host.
Context (h : host).

(** [net.ResolveTCPAddr] of an address that is written out. *)
Context (literals : ∀ a, is_Some (ParseIP a) → resolves h (Outbound.local_target a) = true).

Lemma no_l3 s : l3Carrier (decode (Render s)) = "".
Proof. unfold l3Carrier. by rewrite (proj1 (nothing_else s)). Qed.

(** The tables of the file, by role. *)
Lemma tables s : Role s = "server" ∨ Role s = "client" →
  Settings.Server (decode (Render s)) = (if String.eqb (Role s) "server" then decode_server (render_server s) else ServerCfg.none) ∧
  Settings.Client (decode (Render s)) = (if String.eqb (Role s) "server" then ClientCfg.none else decode_client (render_client s)).
Proof. intros [H|H]; unfold Render; rewrite H; split; reflexivity. Qed.

Lemma uses s t : Role s = "server" ∨ Role s = "client" → t ≠ "" → reverse_uses t (decode (Render s)) = String.eqb (Transport s) t.
Proof.
  intros Hr Ht%not_eq_sym%String.eqb_neq. unfold reverse_uses. destruct (tables s Hr) as [-> ->].
  destruct (String.eqb (Role s) "server").
  - rewrite (proj1 (proj2 (server_fields s))). cbn [ClientCfg.none ClientCfg.Transport]. by rewrite Ht, orb_false_r.
  - rewrite (proj1 (proj2 (client_fields s))). cbn [ServerCfg.none ServerCfg.Transport]. by rewrite Ht.
Qed.

Lemma pck_of s : Role s = "server" ∨ Role s = "client" → Transport s = "pck" →
  let p := pck_settings (decode (Render s)) in
  Tuning.PckInterface p = PckInterface s ∧ Tuning.PckGatewayMAC p = PckGatewayMAC s ∧ items (Tuning.PckFlags p) = PckFlags s.
Proof.
  intros Hr Ht. cbv zeta. unfold pck_settings. rewrite uses by done. rewrite Ht. change (String.eqb "pck" Transport.PCK) with true. cbn [negb].
  destruct (tables s Hr) as [-> ->]. destruct (String.eqb (Role s) "server").
  - change (String.eqb (ClientCfg.Transport ClientCfg.none) Transport.PCK) with false. cbv iota. destruct (server_fields s) as (_ & _ & _ & -> & -> & ->). by rewrite Ht.
  - destruct (client_fields s) as (_ & Et & _ & E1 & E2 & E3 & _). rewrite Et, Ht. change (String.eqb "pck" Transport.PCK) with true. cbv iota.
    by rewrite E1, E2, E3, Ht.
Qed.

Lemma datagrams_ignore t : Kinds.ValidTransport t = true → transportIgnoresOutbound t = Kinds.IsDatagram t.
Proof. intros H. apply (Kinds.each_transport (λ t, Bool.eqb (transportIgnoresOutbound t) (Kinds.IsDatagram t))) in H; [by apply Bool.eqb_prop|by vm_compute]. Qed.

Lemma not_spoof t : Kinds.ValidTransport t = true → t ≠ Transport.SPOOF.
Proof. intros H ->. by vm_compute in H. Qed.

(** Whether the route out of a client's file stops it. *)
Lemma route_made s : made h s → Role s = "server" ∨ Role s = "client" →
  (∃ p, Outbound.ParseProxy h (ClientCfg.Proxy (Settings.Client (decode (Render s)))) = Ok p ∧
    (Outbound.IsSet (outbound_of (Settings.Client (decode (Render s))) p) = true →
     Outbound.Validate h (outbound_of (Settings.Client (decode (Render s))) p) = Ok tt ∧
     transportIgnoresOutbound (ClientCfg.Transport (Settings.Client (decode (Render s)))) = false)) ↔
  (Role s = "client" → LocalAddr s ≠ "" ∨ Interface s ≠ "" → Kinds.IsDatagram (Transport s) = false).
Proof using literals.
  intros [Mt _ _ _ Mm [[p Mp] Md] Mi Ml _] Hr. destruct (tables s Hr) as [_ ->].
  destruct (String.eqb_spec (Role s) "server") as [E|E].
  { rewrite E. split; [done|]. intros _. exists None. by split. }
  destruct Hr as [Hr|Hr]; [done|]. destruct (client_fields s) as (_ & Ht & _ & _ & _ & _ & Hp & Hl & Hi & Hm).
  rewrite Ht, Hp. destruct (Outbound.ParseProxy h (Proxy s)) as [q|] eqn:Eq; [|done]. injection Mp as ->.
  assert (Outbound.Validate h (outbound_of (decode_client (render_client s)) p) = Ok tt) as HV.
  { apply Outbound.Validate_Ok. unfold outbound_of, Outbound.localTCPAddr. cbn [Outbound.LocalAddr Outbound.Interface Outbound.Mark].
    rewrite Hl, Hi, Hm, Mm. split_and!; [|done|lia]. destruct (String.eqb_spec (LocalAddr s) ""); [done|]. by apply literals, Ml. }
  rewrite datagrams_ignore by done. split.
  - intros (q & [= <-] & Hq) _ Hs. apply Hq. unfold Outbound.IsSet, outbound_of. cbn [Outbound.Proxy Outbound.LocalAddr Outbound.Interface Outbound.Mark].
    rewrite Hl, Hi. destruct Hs as [Hs%String.eqb_neq|Hs%String.eqb_neq]; rewrite Hs; by rewrite ?orb_true_r.
  - intros Hs. exists p. split; [done|]. intros Hset. split; [done|].
    unfold Outbound.IsSet, outbound_of in Hset. cbn [Outbound.Proxy Outbound.LocalAddr Outbound.Interface Outbound.Mark] in Hset. rewrite Hl, Hi, Hm, Mm in Hset.
    destruct (String.eqb_spec (LocalAddr s) "") as [_|H1]; [|by apply Hs; auto]. destruct (String.eqb_spec (Interface s) "") as [_|H2]; [|by apply Hs; auto].
    apply Md. intros E0. rewrite E0 in Eq. injection Eq as <-. by vm_compute in Hset.
Qed.

Lemma admissible_made s : made h s → admissible h (decode (Render s)) ↔ startable h s.
Proof using literals.
  intros M. pose proof M as [Mt _ Ma Mc _ _ _ _ [Mg Mf]]. assert (Role s = "server" ∨ Role s = "client") as Hr by tauto.
  assert (usesXdi (decode (Render s)) = String.eqb (Transport s) "xdi") as Ex by (unfold usesXdi; rewrite no_l3, uses by done; apply orb_false_r).
  assert (usesPck (decode (Render s)) = String.eqb (Transport s) "pck") as Ep by (unfold usesPck; rewrite no_l3, uses by done; apply orb_false_r).
  split.
  - intros [Ar Aroot _ _ Ap _]. rewrite Ex, Ep, no_l3 in Aroot. rewrite Ep in Ap. split.
    + intros [H|H]; apply Aroot; rewrite H; auto.
    + intros Ht. rewrite Ht in Ap. destruct (Ap eq_refl) as [Hfl _]. by rewrite (proj2 (proj2 (pck_of s Hr Ht))) in Hfl.
    + by apply route_made.
  - intros [Sr Sf So]. split.
    + by apply route_made.
    + rewrite Ex, Ep, no_l3. intros [H%String.eqb_eq|[H%String.eqb_eq|H]]; [auto|auto|done].
    + destruct (tables s Hr) as [-> ->]. destruct (String.eqb (Role s) "server").
      * rewrite (proj1 (proj2 (server_fields s))). split; [by apply not_spoof|done].
      * rewrite (proj1 (proj2 (client_fields s))). split; [done|by apply not_spoof].
    + by rewrite no_l3.
    + rewrite Ep. intros Ht%String.eqb_eq. cbv zeta. destruct (pck_of s Hr Ht) as (-> & -> & ->). split; [auto|done].
    + destruct (tables s Hr) as [-> ->]. destruct (String.eqb (Role s) "server").
      * rewrite (proj1 (proj2 (proj2 (server_fields s)))), Mc. done.
      * rewrite (proj1 (proj2 (proj2 (client_fields s)))), Mc. done.
Qed.

End on_host.

(** The engine a saved tunnel is. *)
Definition runs_as (s : TunnelSpec) (r : result Dispatch.fatal Dispatch.engine) : Prop :=
  match r with
  | Ok (Dispatch.RunsServer c _ i) => Role s = "server" ∧ ServerCfg.BindAddr c = BindAddr s ∧ i = Dispatch.mkIdentity (Transport s) "server"
  | Ok (Dispatch.RunsClient c _ i) => Role s = "client" ∧ ClientCfg.RemoteAddr c = RemoteAddr s ∧ i = Dispatch.mkIdentity (Transport s) "client"
  | _ => False
  end.

Lemma made_runs h s tune : made h s → runs_as s (Dispatch.runEngine (decode (Render s)) tune).
Proof.
  intros [_ _ Ma _ _ _ _ _ _]. unfold Dispatch.runEngine. destruct (nothing_else s) as [-> ->]. cbn [L3Cfg.Enabled L3Cfg.none].
  assert (L3Cfg.Enabled L3Cfg.none = false) as -> by done. assert (DirectCfg.Enabled DirectCfg.none = false) as -> by done.
  destruct Ma as [[Hr Ha]|[Hr Ha]]; destruct (tables s ltac:(auto)) as [-> ->]; rewrite Hr; cbn [String.eqb Ascii.eqb Bool.eqb].
  - destruct (server_fields s) as (-> & -> & _). apply String.eqb_neq in Ha. rewrite Ha. cbn [negb runs_as]. by destruct (server_fields s) as (-> & _).
  - cbn [ServerCfg.none ServerCfg.BindAddr String.eqb negb]. destruct (client_fields s) as (-> & -> & _). apply String.eqb_neq in Ha. rewrite Ha.
    cbn [negb runs_as]. by destruct (client_fields s) as (-> & _).
Qed.

(** C27: a form that is accepted is saved as a file that is read back as the tunnel
    it describes and that runs as it, a server where it was to listen or a client
    dialling where it was told. It gets past the start-up checks exactly when a
    carrier that needs a raw socket has Linux and root, the packet flags are ones
    the carrier sends, and a client that was pinned to a device or an address is
    not one of the carriers that leave by no route of their choosing. *)
Theorem created_starts b n s (literals : ∀ a, is_Some (ParseIP a) → resolves (hst b) (Outbound.local_target a) = true)
  (H : specFromNew b n = Ok s) :
  LoadSpec (<[Name s := Some (Render s)]> (disk b)) (Name s) = Ok (spec_kept s) ∧
  Role s = nRole n ∧
  runs_as s (Dispatch.runEngine (decode (Render s)) true) ∧
  (snd (snd (applyDefaults (hst b) (decode (Render s)))) = None ↔ startable (hst b) s).
Proof.
  apply specFromNew_made in H as [M E]. split_and!; [apply load_rendered; apply M|done|by eapply made_runs|].
  unfold applyDefaults. cbn [snd]. rewrite admissible_iff, admissible_defaults. by apply admissible_made.
Qed.

(** *** The control port *)

(** One address of a role that another cannot have beside it. *)
Definition contends (role a b : string) : bool :=
  match Net.SplitHostPort a, Net.SplitHostPort b with
  | Some (h, p), Some (h', p') => String.eqb p' p && (if String.eqb role "server" then Clash.sameBindHost h h' else EqualFold h' h)
  | _, _ => false
  end.

Lemma clashes_none role addr name l : Clash.clashAgainst role addr name l = None →
  ∀ t, t ∈ l → tRole t = role → EqualFold (tName t) name = false → contends role addr (tAddr t) = false.
Proof.
  unfold Clash.clashAgainst, contends. destruct (Net.SplitHostPort addr) as [[h p]|]; [|done]. intros H t Ht Hr Hn.
  destruct (List.find _ l) eqn:E; [done|]. apply list_elem_of_In in Ht. pose proof (List.find_none _ _ E t Ht) as F.
  cbv beta in F. rewrite Hn, Hr, String.eqb_refl in F. cbn [negb andb] in F. by destruct (Net.SplitHostPort (tAddr t)) as [[h' p']|].
Qed.

(** What a form is made of settles where the tunnel is. *)
Lemma specFromNew_alone b n s : specFromNew b n = Ok s →
  Clash.portClash (disk b) (Role s) (if String.eqb (Role s) "client" then RemoteAddr s else BindAddr s) (Name s) = None.
Proof.
  unfold specFromNew. intros H. do 3 (apply bind_Ok in H as (? & _ & H)). apply bind_Ok in H as (bind & _ & H). apply bind_Ok in H as (? & _ & H).
  apply bind_Ok in H as (s1 & _ & H). apply bind_Ok in H as (? & Hc & H). do 2 (apply bind_Ok in H as (? & _ & H)).
  apply bind_Ok in H as (s2 & H2 & H). apply applyAdvanced_but in H.
  set (t1 := Tune.ApplyPreset s1 (nPreset n)) in *. set (t2 := match nTune n with Some f => Fine.apply f t1 | None => t1 end) in *.
  assert (core s2 = core s1) as C.
  { assert (core t2 = core s1) as <- by (unfold t2; destruct (nTune n); rewrite ?core_fine; apply core_preset).
    destruct (_ && _) in H2; [by eapply core_certificate|by injection H2 as <-]. }
  assert (∀ T (f : TunnelSpec → T), (∀ s, f (but_advanced s) = f s) → (∀ s, f (core s) = f s) → f s = f s1) as G.
  { intros T f Hb Hf. rewrite <- (Hb s), H, Hb. by apply from_core. }
  rewrite (G _ Role), (G _ RemoteAddr), (G _ BindAddr), (G _ Name) by reflexivity.
  unfold of_opt in Hc. by destruct (Clash.portClash _ _ _ _).
Qed.

(** No tunnel of the machine that has the role of a newly accepted one, under
    a name that is not the new one's in other letters, listens on or dials a
    control port the new one would contend for: for two servers the same port with
    a host in common, a wildcard being every host, for two clients the same host
    and port. *)
Theorem created_alone b n s (H : specFromNew b n = Ok s) t :
  t ∈ List (disk b) → tRole t = Role s → EqualFold (tName t) (Name s) = false →
  contends (Role s) (if String.eqb (Role s) "client" then RemoteAddr s else BindAddr s) (tAddr t) = false.
Proof. apply specFromNew_alone in H. intros Ht Hr Hn. eapply clashes_none; eauto. Qed.

Definition empty_box : box := mkBox ∅ linux_host (λ _, false) true.
Definition wss_form : NewTunnel := mkNew "server" "wss" "tehran" "443" "" "secret" "80, 8443=443" "balance" false false None None None None.
Definition pck_form : NewTunnel :=
  mkNew "client" "pck" "tehran" "443" "203.0.113.7" "secret" "" "turbo" false false None (Some (mkPckTune "eth0" "" "PA,A")) None (Some (mkLimits 10 0)).

Lemma created_starts_witness :
  (∀ a, is_Some (ParseIP a) → resolves (hst empty_box) (Outbound.local_target a) = true) ∧
  (∃ s, specFromNew empty_box wss_form = Ok s ∧ Role s = "server" ∧ runs_as s (Dispatch.runEngine (decode (Render s)) true)) ∧
  (∃ s, specFromNew empty_box pck_form = Ok s ∧ Role s = "client" ∧ snd (snd (applyDefaults (hst empty_box) (decode (Render s)))) = None).
Proof.
  assert (∀ n, match specFromNew empty_box n with Ok _ => true | Err _ => false end = true → ∃ s, specFromNew empty_box n = Ok s) as G.
  { intros n. destruct (specFromNew empty_box n) as [s|]; [by exists s|done]. }
  assert (∀ a, is_Some (ParseIP a) → resolves (hst empty_box) (Outbound.local_target a) = true) as Hres by done.
  split; [done|]. split.
  - destruct (G wss_form) as [s Hs]; [by vm_compute|]. exists s. destruct (created_starts empty_box wss_form s Hres Hs) as (_ & Hr & H & _). split; [exact Hs|]. split; [exact Hr|exact H].
  - assert (specFromNew empty_box pck_form = Ok (match specFromNew empty_box pck_form with Ok s => s | Err _ => noSpec end)) as Hs by (vm_compute; reflexivity).
    set (s := match specFromNew empty_box pck_form with Ok s => s | Err _ => noSpec end) in *.
    exists s. destruct (created_starts empty_box pck_form s Hres Hs) as (_ & Hr & _ & Hst).
    split; [exact Hs|]. split; [exact Hr|]. apply Hst. split.
    + intros _. split; reflexivity.
    + intros _. exists (match Flags.ParseTCPFlagList (PckFlags s) with Ok l => l | Err _ => [] end). by vm_compute.
    + assert (LocalAddr s = "" ∧ Interface s = "") as [-> ->] by (split; vm_compute; reflexivity). intros _ [H|H]; destruct (H eq_refl).
Defined.

End Starts.
(** ** What an edit leaves alone *)

Module Keeps.
Import Spec Drawers Relay Change.
#[local] Notation but_advanced := Made.but_advanced.
#[local] Notation erased := Made.erased.

(** A spec without what each step of an edit may set. *)
Definition but_transport (s : TunnelSpec) : TunnelSpec :=
  s <| Transport := "" |> <| MuxCon := 0 |> <| MuxVersion := 0 |> <| MuxFrameSize := 0 |> <| MuxRecvBuffer := 0 |> <| MuxStreamBuffer := 0 |>
    <| TLSCert := "" |> <| TLSKey := "" |> <| KCPMTU := 0 |> <| KCPInterval := 0 |> <| KCPResend := 0 |> <| KCPNoDelay := 0 |>
    <| KCPNoCongestion := 0 |> <| KCPSndWnd := 0 |> <| KCPRcvWnd := 0 |> <| KCPAckNoDelay := false |> <| KCPDataShards := 0 |>
    <| KCPParityShards := 0 |> <| PckInterface := "" |> <| PckGatewayMAC := "" |> <| PckFlags := [] |> <| EdgeIP := "" |>
    <| SimpleAuth := false |> <| Proxy := "" |>.
Definition but_certificate (s : TunnelSpec) : TunnelSpec :=
  s <| ACMEDomain := "" |> <| ACMEEmail := "" |> <| TLSCert := "" |> <| TLSKey := "" |>.
Definition but_address (s : TunnelSpec) : TunnelSpec := s <| BindAddr := "" |> <| RemoteAddr := "" |>.
Definition but_ports (s : TunnelSpec) : TunnelSpec := s <| Spec.Ports := [] |>.
Definition but_header (s : TunnelSpec) : TunnelSpec := s <| ProxyProtocol := false |>.

Lemma certificate_kept b s s' : with_certificate b s = Ok s' → but_certificate s' = but_certificate s ∧ but_transport s' = but_transport s.
Proof. unfold with_certificate. intros (p & _ & H)%bind_Ok. injection H as <-. split; destruct s; lazy; reflexivity. Qed.

Lemma kcp_kept s p : but_transport (Tune.applyKCPPreset s p) = but_transport s.
Proof.
  unfold Tune.applyKCPPreset. cbv zeta. destruct (String.eqb p _); [destruct s; lazy; reflexivity|].
  do 3 (destruct (String.eqb p _); [destruct s; lazy; reflexivity|]). destruct s; lazy; reflexivity.
Qed.

Lemma cleared_kept s : but_transport (clearForTransport s) = but_transport s ∧ Transport (clearForTransport s) = Transport s.
Proof. unfold clearForTransport. cbv zeta. repeat go_case; split; destruct s; lazy; reflexivity. Qed.

Lemma switch_kept b s t s' : switchTransport b s t = Ok s' → but_transport s' = but_transport s ∧ Transport s' = t ∧ Kinds.ValidTransport t = true.
Proof.
  unfold switchTransport. intros H. apply bind_Ok in H as (? & Hv & H). apply require_Ok' in Hv.
  set (s1 := if Kinds.IsMux t && _ then _ else _) in H. apply bind_Ok in H as (s2 & H2 & H).
  assert (but_transport s1 = but_transport s ∧ Transport s1 = t) as [E1 E2].
  { unfold s1. destruct (Kinds.IsMux t && _); (split; [destruct s; lazy; reflexivity|done]). }
  assert (but_transport s2 = but_transport s1 ∧ Transport s2 = Transport s1) as [E3 E4].
  { clearbody s1. destruct (_ && _) in H2; [|by injection H2 as <-]. split; [by eapply certificate_kept|]. unfold with_certificate in H2. apply bind_Ok in H2 as (? & _ & H2). by injection H2 as <-. }
  rewrite <- E1, <- E3. assert (Transport s2 = t) as E5 by congruence. injection H as <-. clearbody s1. destruct (Kinds.IsKCP t && _); [|by rewrite E5]. split; [apply kcp_kept|]. split; [|done]. rewrite <- E5.
  unfold Tune.applyKCPPreset. cbv zeta. by repeat go_case.
Qed.

(** *** Each step *)

Lemma edit_transport_kept b e d d' : edit_transport b e d = Ok d' →
  but_transport (fst d') = but_transport (fst d) ∧
  (let t := ToLower (TrimSpace (eTransport e)) in
   t = "" ∧ d' = d ∨ t ≠ "" ∧ Transport (fst d') = t ∧ (t = Transport (fst d) ∧ d' = d ∨ Kinds.ValidTransport t = true)).
Proof.
  unfold edit_transport. cbv zeta. destruct (String.eqb_spec (ToLower (TrimSpace (eTransport e))) "") as [E|E]; cbn [negb andb]; [by intros [= <-]; auto|].
  destruct (String.eqb_spec (ToLower (TrimSpace (eTransport e))) (Transport (fst d))) as [E1|E1]; cbn [negb].
  { intros [= <-]. split; [done|]. right. rewrite E1 in *. auto. }
  intros H. apply bind_Ok in H as (s & (H1 & H2 & H3)%switch_kept & H). injection H as <-. cbn [fst].
  destruct (cleared_kept s) as [-> ->]. split; [done|]. right. split_and!; [done|done|by right].
Qed.

Lemma edit_preset_kept e d d' : edit_preset e d = Ok d' →
  Tune.untuned (fst d') = Tune.untuned (fst d) ∧ (TrimSpace (ePreset e) = "" → d' = d).
Proof.
  unfold edit_preset. cbv zeta. destruct (String.eqb_spec (TrimSpace (ePreset e)) "") as [E|E]; cbn [negb andb]; [by intros [= <-]|].
  destruct (negb _); [|by intros [= <-]]. intros H. do 2 (apply bind_Ok in H as (? & _ & H)). injection H as <-. cbn [fst]. by rewrite Tune.ApplyPreset_untuned.
Qed.

Lemma edit_tune_kept f d d' : edit_tune f d = Ok d' → Made.core (fst d') = Made.core (fst d) ∧ (f = None → d' = d).
Proof.
  unfold edit_tune. destruct f as [f|]; [|by intros [= <-]]. destruct (Fine.sent f) as [[|]|]; intros [= <-]; [done| |done].
  cbn [fst]. by rewrite Made.core_fine.
Qed.

Lemma edit_certificate_kept b e d d' : edit_certificate b e d = Ok d' → but_certificate (fst d') = but_certificate (fst d).
Proof.
  assert (∀ dom mail, (let s := fst d in
    let domain := match dom with Some x => ToLower (TrimSpace x) | None => ACMEDomain s end in
    let email := match mail with Some x => TrimSpace x | None => ACMEEmail s end in
    let named := negb (String.eqb domain "") in
    let server := String.eqb (Role s) "server" in
    let? _ := require (negb (named && negb server)) ServerSetting in
    let? _ := require (negb (named && negb (Kinds.NeedsTLS (Transport s)))) (NotTLS (Transport s)) in
    let? _ := require (negb (named && match ParseIP domain with Some _ => true | None => false end)) IPCertificate in
    if negb (String.eqb domain (ACMEDomain s)) || negb (String.eqb email (ACMEEmail s)) then
      let s := s <| ACMEDomain := domain |> <| ACMEEmail := email |> in
      let? s := if Kinds.NeedsTLS (Transport s) && server && (String.eqb (TLSCert s) "" || negb (present b (TLSCert s)))
                then with_certificate b s else Ok s in
      Ok (s, true)
    else Ok d) = Ok d' → but_certificate (fst d') = but_certificate (fst d)) as G.
  { cbv zeta. intros dom mail H. do 3 (apply bind_Ok in H as (? & _ & H)). destruct (_ || _) in H; [|by injection H as <-].
    apply bind_Ok in H as (s & H1 & H). injection H as <-. cbn [fst].
    destruct (_ && _) in H1; [apply certificate_kept in H1 as [-> _]|injection H1 as <-]; (destruct (fst d); lazy; reflexivity). }
  unfold edit_certificate. destruct (eACMEDomain e), (eACMEEmail e); [apply (G (Some _) (Some _))|apply (G (Some _) None)|apply (G None (Some _))|by intros [= <-]].
Qed.

Lemma edit_port_kept e d d' : edit_port e d = Ok d' → but_address (fst d') = but_address (fst d) ∧ (TrimSpace (eTunnelPort e) = "" → d' = d).
Proof.
  unfold edit_port. cbv zeta. destruct (String.eqb_spec (TrimSpace (eTunnelPort e)) ""); [by intros [= <-]|]. intros H. apply bind_Ok in H as (bind & _ & H).
  destruct (String.eqb (Role (fst d)) "server").
  - injection H as <-. destruct (negb (String.eqb _ (BindAddr _))); [|done]. split; [|done]. cbn [fst]. destruct (fst d). lazy. reflexivity.
  - apply bind_Ok in H as (? & _ & H). injection H as <-. destruct (negb (String.eqb _ (Bind.Port _))); [|done]. split; [|done]. cbn [fst]. destruct (fst d). lazy. reflexivity.
Qed.

Lemma edit_addr_kept e d d' : edit_addr e d = Ok d' →
  but_address (fst d') = but_address (fst d) ∧ (Bind.TrimBrackets (TrimSpace (eServerAddr e)) = "" → d' = d).
Proof.
  unfold edit_addr. cbv zeta. destruct (String.eqb_spec (Bind.TrimBrackets (TrimSpace (eServerAddr e))) ""); [by intros [= <-]|]. intros H.
  do 2 (apply bind_Ok in H as (? & _ & H)). injection H as <-. destruct (negb _); [|done]. split; [|done]. cbn [fst]. destruct (fst d). lazy. reflexivity.
Qed.

Lemma edit_advanced_kept b e d d' : edit_advanced b e d = Ok d' → but_advanced (fst d') = but_advanced (fst d).
Proof.
  unfold edit_advanced. destruct (ePck e), (eConn e), (eLimits e); intros H; try (apply bind_Ok in H as (s & H1%Made.applyAdvanced_but & H); by injection H as <-).
  by injection H as <-.
Qed.

Lemma edit_header_kept e d d' : edit_header e d = Ok d' → but_header (fst d') = but_header (fst d).
Proof.
  unfold edit_header. destruct (eProxyProtocol e); [|by intros [= <-]]. intros H. do 2 (apply bind_Ok in H as (? & _ & H)). injection H as <-.
  destruct (Bool.eqb _ _); [done|]. cbn [fst]. destruct (fst d). lazy. reflexivity.
Qed.

(** Two tests that never agree, and one asked twice. *)
Lemma filter_apart (P Q : string → Prop) `{∀ x, Decision (P x), ∀ x, Decision (Q x)} (l : list string) :
  (∀ x, P x → Q x → False) → filter P (filter Q l) = [].
Proof.
  intros HPQ. induction l as [|p l IH]; [done|]. destruct (decide (Q p)); [|by rewrite (filter_cons_False Q)].
  rewrite (filter_cons_True Q) by done. rewrite (filter_cons_False P); [done|]. intros ?. eauto.
Qed.

Lemma filter_again (P : string → Prop) `{∀ x, Decision (P x)} (l : list string) : filter P (filter P l) = filter P l.
Proof.
  induction l as [|p l IH]; [done|]. destruct (decide (P p)); [|by rewrite (filter_cons_False P)].
  rewrite (filter_cons_True P) by done. rewrite (filter_cons_True P) by done. by f_equal.
Qed.

(** The ports shown are the ones given; the others stay. *)
Lemma new_ports_kept s given s' : new_ports s given = Ok s' →
  but_ports s' = but_ports s ∧ hidden (Spec.Ports s') (Token s) = hidden (Spec.Ports s) (Token s) ∧
  VisiblePorts (Spec.Ports s') (Token s) = VisiblePorts given (Token s) ∧ VisiblePorts given (Token s) ≠ [] ∧ Forall (λ p, Ports.Spec.ValidPortSpec p = true) (VisiblePorts given (Token s)).
Proof.
  unfold new_ports. cbv zeta. intros H. apply bind_Ok in H as (? & Hn & H). apply bind_Ok in H as (u & Hv & H). injection H as <-. apply require_Ok' in Hn.
  change (but_ports (s <| Spec.Ports := VisiblePorts given (Token s) ++ hidden (Spec.Ports s) (Token s) |>) = but_ports s ∧
    hidden (VisiblePorts given (Token s) ++ hidden (Spec.Ports s) (Token s)) (Token s) = hidden (Spec.Ports s) (Token s) ∧
    VisiblePorts (VisiblePorts given (Token s) ++ hidden (Spec.Ports s) (Token s)) (Token s) = VisiblePorts given (Token s) ∧
    VisiblePorts given (Token s) ≠ [] ∧ Forall (λ p, Ports.Spec.ValidPortSpec p = true) (VisiblePorts given (Token s))).
  unfold hidden, VisiblePorts in *. rewrite !filter_app, (filter_apart (λ p, isBotRelayPort p (Token s) = true) (λ p, isBotRelayPort p (Token s) = false)) by congruence.
  rewrite (filter_apart (λ p, isBotRelayPort p (Token s) = false) (λ p, isBotRelayPort p (Token s) = true)) by congruence. rewrite !filter_again, app_nil_r. split_and!; [|done|done| |].
  - destruct s. lazy. reflexivity.
  - intros E. by rewrite E in Hn.
  - apply Forall_forall. intros p Hp. unfold Ports.Spec.ValidatePortSpecs, Create.of_opt in Hv.
    destruct (Ports.Spec.ValidPortSpec p) eqn:E; [done|]. destruct (head _) as [q|] eqn:Eq; [done|]. exfalso.
    assert (p ∈ filter (λ p, Ports.Spec.ValidPortSpec p = false) (filter (λ p0, isBotRelayPort p0 (Token s) = false) given)) as Hi by by apply list_elem_of_filter.
    destruct (filter (λ p, Ports.Spec.ValidPortSpec p = false) _); [by apply elem_of_nil in Hi|done].
Qed.

Lemma edit_ports_kept e d d' : edit_ports e d = Ok d' →
  but_ports (fst d') = but_ports (fst d) ∧ hidden (Spec.Ports (fst d')) (Token (fst d)) = hidden (Spec.Ports (fst d)) (Token (fst d)) ∧
  (let raw := TrimSpace (ePorts e) in
   raw = "" ∧ d' = d ∨
   raw ≠ "" ∧ VisiblePorts (Spec.Ports (fst d')) (Token (fst d)) = VisiblePorts (Ports.Spec.ParsePorts raw) (Token (fst d)) ∧
   Forall (λ p, Ports.Spec.ValidPortSpec p = true) (VisiblePorts (Spec.Ports (fst d')) (Token (fst d)))).
Proof.
  unfold edit_ports. cbv zeta. destruct (String.eqb_spec (TrimSpace (ePorts e)) "") as [E|E]; [intros [= <-]; auto|].
  intros H. apply bind_Ok in H as (? & _ & H). apply bind_Ok in H as (s & (H1 & H2 & H3 & _ & H4)%new_ports_kept & H). injection H as <-. cbn [fst].
  split_and!; [done|done|]. right. by rewrite H3.
Qed.

(** *** The whole edit *)

(** What no form changes. *)
Definition lasting (s : TunnelSpec) : string * string * string * list string * Z * bool * Z * string * Z :=
  (Name s, Role s, Token s, FallbackTransports s, FallbackDwell s, Sniffer s, WebPort s, WebBind s, SOMark s).

(** A spec that is looked up again. *)
Definition usable (s : TunnelSpec) : Prop :=
  Box.validName (Name s) = true ∧ (Role s = "server" ∧ BindAddr s ≠ "" ∨ Role s = "client" ∧ RemoteAddr s ≠ "").

(** The steps of an accepted edit, and what each leaves. *)
Ltac through H :=
  let d1 := fresh "d1" in let d2 := fresh "d2" in let d3 := fresh "d3" in let d4 := fresh "d4" in let d5 := fresh "d5" in
  let d6 := fresh "d6" in let d7 := fresh "d7" in let d8 := fresh "d8" in let d9 := fresh "d9" in
  unfold edited in H; cbv zeta in H;
  apply bind_Ok in H as (d1 & (Ht1 & Ht2)%edit_transport_kept & H); apply bind_Ok in H as (d2 & (Hp1 & Hp2)%edit_preset_kept & H);
  apply bind_Ok in H as (d3 & (Hf1 & Hf2)%edit_tune_kept & H); apply bind_Ok in H as (d4 & Hc1%edit_certificate_kept & H);
  apply bind_Ok in H as (d5 & Hb & H); apply bind_Ok in H as (d6 & Ha & H); apply bind_Ok in H as (d7 & Hq & H);
  apply bind_Ok in H as (d8 & Hv1%edit_advanced_kept & H); apply bind_Ok in H as (d9 & Hh1%edit_header_kept & H);
  destruct (snd d9); [injection H as <-|discriminate H];
  pose proof (edit_port_kept _ _ _ Hb) as [Hb1 Hb2]; pose proof (edit_addr_kept _ _ _ Ha) as [Ha1 Ha2];
  pose proof (edit_ports_kept _ _ _ Hq) as (Hq1 & Hq2 & Hq3); cbn [fst] in *.

Ltac carried f :=
  match goal with H : ?E ?s' = ?E ?s |- context [f ?s'] => rewrite (erased E f s s' H (λ _, eq_refl)) end.

Lemma edit_lasts b s e s' : edited b s e = Ok s' → lasting s' = lasting s.
Proof. intros H. through H. by do 9 carried lasting. Qed.

Lemma edit_addressed b s e s' : edited b s e = Ok s' → TrimSpace (eTunnelPort e) = "" → Bind.TrimBrackets (TrimSpace (eServerAddr e)) = "" →
  BindAddr s' = BindAddr s ∧ RemoteAddr s' = RemoteAddr s.
Proof. intros H Ep Ea. through H. specialize (Hb2 Ep). specialize (Ha2 Ea). subst d6 d5. split; [by do 7 carried BindAddr|by do 7 carried RemoteAddr]. Qed.

Lemma edit_carries b s e s' : edited b s e = Ok s' →
  let t := ToLower (TrimSpace (eTransport e)) in
  Transport s' = (if String.eqb t "" then Transport s else t) ∧ (Transport s' ≠ Transport s → Kinds.ValidTransport (Transport s') = true).
Proof.
  intros H. cbv zeta. through H. do 8 carried Transport. destruct Ht2 as [(-> & ->)|(Hn%String.eqb_neq & -> & Hv)]; [done|].
  rewrite Hn. split; [done|]. destruct Hv as [[-> _]|Hv]; [done|]. by intros _.
Qed.

Lemma edit_tuned b s e s' : edited b s e = Ok s' → TrimSpace (eTransport e) = "" → TrimSpace (ePreset e) = "" → eTune e = None →
  Fine.tuneOf s' = Fine.tuneOf s ∧ Preset s' = Preset s.
Proof.
  intros H Et Ep Ef. through H. rewrite Et in Ht2. specialize (Hp2 Ep). rewrite Ef in Hf2. specialize (Hf2 eq_refl). subst d3 d2.
  destruct Ht2 as [(_ & ->)|(Hn & _)]; [|done]. split; [by do 6 carried Fine.tuneOf|by do 6 carried Preset].
Qed.

Lemma edit_forwards b s e s' : edited b s e = Ok s' →
  hidden (Spec.Ports s') (Token s) = hidden (Spec.Ports s) (Token s) ∧
  (let raw := TrimSpace (ePorts e) in
   if String.eqb raw "" then Spec.Ports s' = Spec.Ports s
   else VisiblePorts (Spec.Ports s') (Token s) = VisiblePorts (Ports.Spec.ParsePorts raw) (Token s) ∧
        Forall (λ p, Ports.Spec.ValidPortSpec p = true) (VisiblePorts (Spec.Ports s') (Token s))).
Proof.
  intros H. through H. assert (Token (fst d6) = Token s) as Ek by (by do 6 carried Token). rewrite Ek in *.
  assert (Spec.Ports (fst d6) = Spec.Ports s) as Eq by (by do 6 carried Spec.Ports). rewrite Eq in *.
  do 2 carried Spec.Ports. split; [done|]. destruct Hq3 as [(-> & ->)|(Hn%String.eqb_neq & Hq3 & Hq4)]; [done|]. rewrite Hn. auto.
Qed.

(** An address that is set stays set. *)
Definition addressed (s : TunnelSpec) : Prop := Role s = "server" ∧ BindAddr s ≠ "" ∨ Role s = "client" ∧ RemoteAddr s ≠ "".

Lemma edit_port_addressed e d d' : edit_port e d = Ok d' → addressed (fst d) → addressed (fst d').
Proof.
  unfold edit_port, addressed. cbv zeta. destruct (String.eqb (TrimSpace (eTunnelPort e)) ""); [by intros [= <-]|]. intros H Hs. apply bind_Ok in H as (bind & _ & H).
  destruct (String.eqb_spec (Role (fst d)) "server") as [E|E].
  - injection H as <-. destruct (negb (String.eqb _ (BindAddr _))); [|done]. left. split; [done|]. cbn [fst].
    destruct (Bind.HasHost bind); apply Form.JoinHostPort_set.
  - apply bind_Ok in H as (? & _ & H). injection H as <-. destruct (negb (String.eqb _ (Bind.Port _))); [|done].
    destruct Hs as [[Hr _]|[Hr _]]; [by rewrite Hr in E|]. right. split; [done|]. apply Form.JoinHostPort_set.
Qed.

Lemma edit_addr_addressed e d d' : edit_addr e d = Ok d' → addressed (fst d) → addressed (fst d').
Proof.
  unfold edit_addr, addressed. cbv zeta. destruct (String.eqb _ ""); [by intros [= <-]|]. intros H Hs.
  apply bind_Ok in H as (? & Hr%require_Ok'%String.eqb_eq & H). apply bind_Ok in H as (? & _ & H). injection H as <-.
  destruct (negb _); [|done]. right. split; [done|]. apply Form.JoinHostPort_set.
Qed.

Lemma edit_usable b s e s' : edited b s e = Ok s' → usable s → usable s'.
Proof.
  intros H [Un Ua]. pose proof (edit_lasts b s e s' H) as L. through H.
  assert (Name (fst d9) = Name s ∧ Role (fst d9) = Role s) as [En Er] by (by unfold lasting in L; split; congruence).
  split; [by rewrite En|]. assert (addressed (fst d4)) as A4.
  { unfold addressed. do 4 carried Role. do 4 carried BindAddr. by do 4 carried RemoteAddr. }
  apply (edit_port_addressed _ _ _ Hb), (edit_addr_addressed _ _ _ Ha) in A4. unfold addressed in A4. do 3 carried Role. do 3 carried BindAddr. by do 3 carried RemoteAddr.
Qed.

(** A tunnel that was read can be looked up. *)
Lemma loaded_usable d name s : LoadSpec d name = Ok s → Name s = name ∧ usable s.
Proof.
  unfold LoadSpec. destruct (Box.validName name) eqn:En; [|done]. cbn [negb]. destruct (d !! name) as [f|] eqn:Ed; [|done].
  unfold loadServerSpec, loadClientSpec. rewrite Ed. destruct f as [f|]; [|done].
  destruct (String.eqb_spec (ServerCfg.BindAddr (Settings.Server (decode f))) "") as [E|E].
  - destruct (String.eqb_spec (ClientCfg.RemoteAddr (Settings.Client (decode f))) "") as [E1|E1]; [done|]. intros [= <-].
    split; [done|]. split; [done|]. by right.
  - intros [= <-]. split; [done|]. split; [done|]. by left.
Qed.

(** C28: whatever is set in the form of an existing tunnel, the edit that is saved
    keeps its name, role, token and carriers to fall back on and the mappings the
    bot made for itself; ports, addresses, carrier and tuning change only when the
    form gives them, and then to what it gives; and the file it writes is found and
    read back as that tunnel. *)
Theorem edit_keeps_tunnel b name e s s' (Hl : LoadSpec (disk b) name = Ok s) (He : EditTunnelSettings b name e = Ok s') :
  lasting s' = lasting s ∧
  hidden (Spec.Ports s') (Token s) = hidden (Spec.Ports s) (Token s) ∧
  (let raw := TrimSpace (ePorts e) in
   if String.eqb raw "" then Spec.Ports s' = Spec.Ports s
   else VisiblePorts (Spec.Ports s') (Token s) = VisiblePorts (Ports.Spec.ParsePorts raw) (Token s) ∧
        Forall (λ p, Ports.Spec.ValidPortSpec p = true) (VisiblePorts (Spec.Ports s') (Token s))) ∧
  (TrimSpace (eTunnelPort e) = "" → Bind.TrimBrackets (TrimSpace (eServerAddr e)) = "" → BindAddr s' = BindAddr s ∧ RemoteAddr s' = RemoteAddr s) ∧
  (let t := ToLower (TrimSpace (eTransport e)) in
   Transport s' = (if String.eqb t "" then Transport s else t) ∧ (Transport s' ≠ Transport s → Kinds.ValidTransport (Transport s') = true)) ∧
  (TrimSpace (eTransport e) = "" → TrimSpace (ePreset e) = "" → eTune e = None → Fine.tuneOf s' = Fine.tuneOf s ∧ Preset s' = Preset s) ∧
  LoadSpec (<[name := Some (Render s')]> (disk b)) name = Ok (spec_kept s').
Proof.
  unfold EditTunnelSettings, load in He. rewrite Hl in He. change (edited b s e = Ok s') in He.
  apply loaded_usable in Hl as [En U]. pose proof (edit_lasts _ _ _ _ He) as L. assert (Name s' = Name s) as En' by (unfold lasting in L; congruence).
  split; [done|]. destruct (edit_forwards _ _ _ _ He) as [Hh Hv]. split; [done|]. split; [done|]. split; [by eapply edit_addressed|].
  split; [by eapply edit_carries|]. split; [by eapply edit_tuned|]. rewrite <- En, <- En'. apply load_rendered; by apply (edit_usable _ _ _ _ He).
Qed.

(** A server with the mappings of the bot, as a machine would hold it. *)
Definition mapped_server : TunnelSpec :=
  noSpec <| Name := "tehran" |> <| Role := "server" |> <| Transport := "tcp" |> <| Token := "secret" |> <| BindAddr := "0.0.0.0:8080" |>
    <| Spec.Ports := ["443"; "40000=api.telegram.org:443"] |> <| Preset := "balance" |> <| KeepAlive := 75 |>.
Definition one_box : box := mkBox {["tehran" := Some (Render mapped_server)]} Defaults.linux_host (λ _, false) true.
Definition blank_edit : TunnelEdit := mkEdit "" "" "" "" "" None None None None None None None.
Definition to_wss : TunnelEdit := mkEdit "" "9090" "80, 443" "wss" "" None None None None None None None.

Definition made_of {E} (r : result E TunnelSpec) : TunnelSpec := match r with Ok s => s | Err _ => noSpec end.

Lemma edit_keeps_tunnel_witness :
  let s := made_of (LoadSpec (disk one_box) "tehran") in
  let s' := made_of (EditTunnelSettings one_box "tehran" to_wss) in
  lasting s' = lasting s ∧ Transport s' = "wss" ∧ BindAddr s' = "0.0.0.0:9090" ∧ Spec.Ports s' = ["80"; "443"; "40000=api.telegram.org:443"] ∧
  LoadSpec (<["tehran" := Some (Render s')]> (disk one_box)) "tehran" = Ok (spec_kept s').
Proof.
  cbv zeta. assert (LoadSpec (disk one_box) "tehran" = Ok (made_of (LoadSpec (disk one_box) "tehran"))) as Hl by (vm_compute; reflexivity).
  assert (EditTunnelSettings one_box "tehran" to_wss = Ok (made_of (EditTunnelSettings one_box "tehran" to_wss))) as He by (vm_compute; reflexivity).
  destruct (edit_keeps_tunnel one_box "tehran" to_wss _ _ Hl He) as (H1 & _ & _ & _ & _ & _ & H2).
  split; [exact H1|]. split; [by vm_compute|]. split; [by vm_compute|]. split; [by vm_compute|]. exact H2.
Defined.

Definition beside : Create.NewTunnel := Create.mkNew "server" "tcp" "second" "9443" "" "secret" "80" "" false false None None None None.

Lemma created_alone_witness :
  let s := made_of (Create.specFromNew one_box beside) in
  (length (List (disk one_box)) = 1)%nat ∧ Forall (λ t, Starts.contends (Role s) (BindAddr s) (tAddr t) = false) (List (disk one_box)) ∧
  Clash.portClash (disk one_box) "server" "10.0.0.1:8080" "second" = Some "tehran".
Proof.
  cbv zeta. split; [by vm_compute|]. split; [|by vm_compute].
  assert (Create.specFromNew one_box beside = Ok (made_of (Create.specFromNew one_box beside))) as H by (vm_compute; reflexivity).
  apply Forall_forall. intros t Ht. apply (Starts.created_alone one_box beside _ H t Ht).
  - assert (List (disk one_box) = [mkTunnel "tehran" "server" "tcp" "0.0.0.0:8080" ["443"; "40000=api.telegram.org:443"]]) as E by (vm_compute; reflexivity).
    rewrite E in Ht. apply list_elem_of_singleton in Ht as ->. vm_compute. reflexivity.
  - assert (List (disk one_box) = [mkTunnel "tehran" "server" "tcp" "0.0.0.0:8080" ["443"; "40000=api.telegram.org:443"]]) as E by (vm_compute; reflexivity).
    rewrite E in Ht. apply list_elem_of_singleton in Ht as ->. vm_compute. reflexivity.
Defined.

End Keeps.

(** ** What the forms do otherwise than they say *)

Module Faults.
Import Toml Spec Drawers Create Change Keeps.

(** A tunnel on Balance moved to Turbo on a form that posts the whole drawer with
    one of its fields changed, one no preset sets: it is on Turbo by name and on
    Balance by its numbers. *)
Definition balanced : TunnelSpec := Tune.ApplyPreset (mapped_server <| Transport := "tcpmux" |>) "balance".
Definition posted (f : Fine.FineTune) : Toml.table := map (λ k : string * (Fine.FineTune → value), (fst k, snd k f)) Fine.fineTuneKeys.
Definition edit_box : box := mkBox {["tehran" := Some (Render balanced)]} Defaults.linux_host (λ _, false) true.
Definition stored : TunnelSpec := made_of (LoadSpec (disk edit_box) "tehran").
Definition quieter : Fine.FineTune := Fine.UnmarshalJSON (posted (Fine.tuneOf (stored <| LogLevel := "warn" |>))).
Definition to_turbo : TunnelEdit := mkEdit "" "" "" "" "turbo" (Some quieter) None None None None None None.

Lemma edit_puts_back :
  let s := made_of (EditTunnelSettings edit_box "tehran" to_turbo) in
  let turbo := Tune.ApplyPreset stored "turbo" in
  Fine.sent (Fine.changedFrom quieter (Fine.tuneOf stored)) = Some ["logLevel"] ∧
  Preset s = "turbo" ∧ LogLevel s = "warn" ∧ (ChannelSize s, MuxCon s) = (2048, 4) ∧ (ChannelSize turbo, MuxCon turbo) = (4096, 8).
Proof. by vm_compute. Qed.

(** A preset with blanks around it passes for one that is known and is not one of
    them when it is applied; the one for a single transport passes on any. *)
Definition blank_preset : NewTunnel := mkNew "server" "wss" "tehran" "443" "" "secret" "80" " throughput " false false None None None None.

Lemma preset_substituted :
  let s := made_of (specFromNew Starts.empty_box blank_preset) in
  Preset s = "turbo" ∧ Tune.presetSuitsTransport "throughput" "wss" = false ∧
  specFromNew Starts.empty_box (mkNew "server" "wss" "tehran" "443" "" "secret" "80" "throughput" false false None None None None) = Err (UnsuitedPreset "throughput" "wss").
Proof. by vm_compute. Qed.

(** Two ways of writing a port are two ports. *)
Definition on_port (p : string) : NewTunnel := mkNew "server" "tcp" "second" p "" "secret" "80" "" false false None None None None.
Definition busy_box : box := mkBox {["first" := Some (Render (mapped_server <| BindAddr := "0.0.0.0:443" |>))]} Defaults.linux_host (λ _, false) true.

Lemma clash_is_textual :
  specFromNew busy_box (on_port "443") = Err (Clashes "first") ∧
  BindAddr (made_of (specFromNew busy_box (on_port "0443"))) = "0.0.0.0:0443".
Proof. by vm_compute. Qed.

(** A tunnel whose name differs in case only is another tunnel, with a file of its
    own, and is not looked at. *)
Lemma clash_folds_names :
  let s := made_of (specFromNew busy_box (mkNew "server" "tcp" "First" "443" "" "secret" "80" "" false false None None None None)) in
  BindAddr s = "0.0.0.0:443" ∧ length (List (<[Name s := Some (Render s)]> (disk busy_box))) = 2%nat.
Proof. by vm_compute. Qed.

(** An edit is not held against the other tunnels. *)
Definition two_box : box :=
  mkBox {["first" := Some (Render (mapped_server <| BindAddr := "0.0.0.0:443" |>)); "tehran" := Some (Render mapped_server)]} Defaults.linux_host (λ _, false) true.

Lemma edit_may_clash :
  let s := made_of (EditTunnelSettings two_box "tehran" (mkEdit "" "443" "" "" "" None None None None None None None)) in
  Starts.contends "server" (BindAddr s) "0.0.0.0:443" = true ∧ Clash.portClash (disk two_box) "server" (BindAddr s) "tehran" = Some "first".
Proof. by vm_compute. Qed.

(** The drawer takes flags the carrier has no name for, and the process that reads
    the file stops. *)
Definition odd_flags : NewTunnel := mkNew "client" "pck" "tehran" "443" "203.0.113.7" "secret" "" "" false false None (Some (mkPckTune "" "" "PA,X")) None None.

Lemma form_takes_any_flags :
  let s := made_of (specFromNew Starts.empty_box odd_flags) in
  PckFlags s = ["PA"; "X"] ∧ is_Some (snd (snd (Startup.Defaults.applyDefaults Startup.Defaults.linux_host (decode (Render s))))).
Proof. cbv zeta. split; [by vm_compute|]. apply (bool_decide_unpack _); by vm_compute. Qed.

(** A client pinned to a device keeps the pin when it moves to a carrier that
    cannot be, and does not start any more. *)
Definition pinned : TunnelSpec :=
  noSpec <| Name := "tehran" |> <| Role := "client" |> <| Transport := "tcp" |> <| Token := "secret" |> <| RemoteAddr := "203.0.113.7:443" |> <| Interface := "eth0" |>.
Definition pinned_box : box := mkBox {["tehran" := Some (Render pinned)]} Defaults.linux_host (λ _, false) true.

Lemma pinned_cannot_switch :
  let s := made_of (EditTunnelSettings pinned_box "tehran" (mkEdit "" "" "" "kcp" "" None None None None None None None)) in
  Transport s = "kcp" ∧ Interface s = "eth0" ∧
  snd (snd (Startup.Defaults.applyDefaults Startup.Defaults.linux_host (decode (Render pinned)))) = None ∧
  is_Some (snd (snd (Startup.Defaults.applyDefaults Startup.Defaults.linux_host (decode (Render s))))).
Proof. cbv zeta. split; [by vm_compute|]. split; [by vm_compute|]. split; [by vm_compute|]. apply (bool_decide_unpack _); by vm_compute. Qed.

End Faults.
