(* ===== verification/ConfHist.v ===== *)
(** Saving what a form or a menu changed, and going back
    ([internal/manage/edit.go], [confhist.go], [core/systemd.go],
    [core/ttlcache.go], [migrate.go], [webui/handlers_confhist.go]):
    - Module [TTL]: answers that are kept for a while and shared;
    - Module [Past]: the configurations a tunnel had before;
    - Module [Apply]: a new configuration on a running machine, all of it or
      none;
    - Module [Commit]: the edits of [RevPanel] through it, and undoing them;
    - Module [Browser]: the moment of an entry, to the browser and back;
    - Module [Migrate]: what an update corrects in the files of older versions.

    A machine is its files, the history kept of each, the units that are
    installed and what each service was started on. What the system answers is an
    argument: whether each call succeeds, and whether a service that was started
    on a file reports that it runs. A call to start or to stop a unit that fails
    leaves the unit as it was; one to restart it that fails leaves it stopped. *)

From Stdlib Require Import Ascii String.
From stdpp Require Import gmap strings sorting.
From S2P Require Import Prelude GoStr GoSort Settings Checks Startup DirectFile DirectPanel RevFile RevPanel.
Import GoStr.
Open Scope string_scope.
Open Scope list_scope.
Open Scope Z_scope.

(** ** Answers that are kept for a while *)

Module TTL.

Section cache.
Context {V : Type} (ttl prune : Z).

(** What is known of a key: somebody is asking, or what was answered and when. *)
Inductive entry : Type := Reading | Taken (v : V) (taken : Z).
#[local] Notation cache := (gmap string entry).

Inductive answer : Type := Wait | Hit (v : V) | Read.

(** [pruneLocked]. *)
Definition pruned (now : Z) (c : cache) : cache :=
  omap (λ e, match e with Reading => Some e | Taken _ t => if prune <? now - t then None else Some e end) c.

(** [Get] up to the point where it waits, returns or reads. *)
Definition Get (k : string) (now : Z) (c : cache) : answer * cache :=
  match c !! k with
  | Some Reading => (Wait, c)
  | Some (Taken v t) => if now - t <? ttl then (Hit v, c) else (Read, pruned now (<[k := Reading]> c))
  | None => (Read, pruned now (<[k := Reading]> c))
  end.

(** [Get] after its read returned. *)
Definition finish (k : string) (v : V) (now : Z) (c : cache) : cache := <[k := Taken v now]> c.

Definition Forget (c : cache) : cache := omap (λ e, match e with Reading => Some e | Taken _ _ => None end) c.

(** Callers, readers and those who change what is asked about: the reads that
    are under way and the ones that returned. *)
Record state : Type := mkState { held : cache; reading : list string; returned : list (string * V * Z) }.

Inductive step : state → state → Prop :=
  | Asks s k now : step s (mkState (snd (Get k now (held s)))
      (match fst (Get k now (held s)) with Read => k :: reading s | _ => reading s end) (returned s))
  | Returns s k v now l l' : reading s = l ++ k :: l' →
      step s (mkState (finish k v now (held s)) (l ++ l') ((k, v, now) :: returned s))
  | Forgets s : step s (mkState (Forget (held s)) (reading s) (returned s)).

Inductive reachable : state → Prop :=
  | Begins : reachable (mkState ∅ [] [])
  | Goes s s' : reachable s → step s s' → reachable s'.

Record honest (s : state) : Prop := {
  h_one : NoDup (reading s);
  h_marked : ∀ k, k ∈ reading s ↔ held s !! k = Some Reading;
  h_source : ∀ k v t, held s !! k = Some (Taken v t) → (k, v, t) ∈ returned s
}.

Lemma pruned_lookup now c k e : pruned now c !! k = Some e → c !! k = Some e.
Proof. unfold pruned. rewrite lookup_omap. destruct (c !! k) as [[|v t]|]; cbn; [done| |done]. by destruct (prune <? now - t). Qed.

Lemma pruned_reading now c k : pruned now c !! k = Some Reading ↔ c !! k = Some Reading.
Proof. unfold pruned. rewrite lookup_omap. destruct (c !! k) as [[|v t]|]; cbn; [done| |done]. by destruct (prune <? now - t). Qed.

Lemma Forget_lookup c k e : Forget c !! k = Some e ↔ c !! k = Some e ∧ e = Reading.
Proof.
  unfold Forget. rewrite lookup_omap. destruct (c !! k) as [[|v t]|]; cbn; [split; [by intros [= <-]|by intros [[= <-] _]]|split; [done|by intros [[= <-] ?]]|split; [done|by intros [? _]]].
Qed.

Lemma reading_marked now c k l : (∀ k, k ∈ l ↔ c !! k = Some Reading) → c !! k ≠ Some Reading → NoDup l →
  NoDup (k :: l) ∧ (∀ j, j ∈ k :: l ↔ pruned now (<[k := Reading]> c) !! j = Some Reading).
Proof.
  intros Hm Hk Hn. split; [constructor; [by rewrite Hm|done]|]. intros j. rewrite elem_of_cons, pruned_reading, Hm, lookup_insert.
  destruct (decide (k = j)); naive_solver.
Qed.

Lemma step_honest s s' : honest s → step s s' → honest s'.
Proof.
  intros [H1 H2 H3] Hs. destruct Hs as [s k now|s k v now l l' E|s]; cbn [held reading returned].
  - unfold Get. destruct (held s !! k) as [[|v t]|] eqn:Ek; cbn [fst snd]; [by split| |].
    + destruct (now - t <? ttl); cbn [fst snd]; [by split|]. destruct (reading_marked now (held s) k (reading s)) as [A B]; [done|congruence|done|].
      split; [done|done|]. intros j w u Hj%pruned_lookup. cbn [held] in Hj. rewrite lookup_insert in Hj. destruct (decide (k = j)); [done|by apply H3].
    + destruct (reading_marked now (held s) k (reading s)) as [A B]; [done|congruence|done|].
      split; [done|done|]. intros j w u Hj%pruned_lookup. cbn [held] in Hj. rewrite lookup_insert in Hj. destruct (decide (k = j)); [done|by apply H3].
  - rewrite E in *. assert (NoDup (k :: l ++ l')) as [Hk Hl]%NoDup_cons by (by rewrite Permutation_middle). split; cbn [held reading returned].
    + done.
    + intros j. unfold finish. rewrite lookup_insert. destruct (decide (k = j)) as [<-|Hj]; [by split|]. rewrite <- H2, !elem_of_app, elem_of_cons. naive_solver.
    + intros j w u. unfold finish. rewrite lookup_insert. destruct (decide (k = j)) as [<-|Hj]; [intros [= <- <-]; apply list_elem_of_here|]. intros ?%H3. by apply list_elem_of_further.
  - split; cbn [held reading returned]; [done| |].
    + intros k. rewrite Forget_lookup, H2. naive_solver.
    + intros k v t [? ?]%Forget_lookup. done.
Qed.

Lemma reachable_honest s : reachable s → honest s.
Proof.
  induction 1 as [|s s' _ IH Hs]; [|by eapply step_honest]. split; cbn; [constructor| |]; intros k; rewrite lookup_empty; [split; [intros []%elem_of_nil|done]|done].
Qed.

(** However many ask at once and whatever is forgotten meanwhile, one read of a key
    is under way at most, and what is answered without reading was returned by a
    read of that key less than the lifetime of an answer ago. *)
Theorem one_read_shared s k now v (Hs : reachable s) :
  NoDup (reading s) ∧ (fst (Get k now (held s)) = Read → k ∉ reading s) ∧
  (fst (Get k now (held s)) = Hit v → ∃ t, (k, v, t) ∈ returned s ∧ now - t < ttl).
Proof.
  apply reachable_honest in Hs as [H1 H2 H3]. split; [done|]. unfold Get. destruct (held s !! k) as [[|w t]|] eqn:E; cbn [fst].
  - by split.
  - destruct (Z.ltb_spec (now - t) ttl); cbn [fst]; split; [done| |by rewrite H2, E|done]. intros [= <-]. eauto.
  - split; [by rewrite H2, E|done].
Qed.

End cache.
Arguments entry : clear implicits.
Arguments answer : clear implicits.
Arguments state : clear implicits.

Lemma one_read_shared_witness :
  let c := finish "unit" true 5 (snd (@Get bool 2000 300000 "unit" 0 ∅)) in
  fst (Get 2000 300000 "unit" 1000 c) = Hit true ∧ ∃ t, ("unit", true, t) ∈ [("unit", true, 5)] ∧ 1000 - t < 2000.
Proof.
  cbv zeta. split; [by vm_compute|].
  apply (one_read_shared 2000 300000 (mkState (finish "unit" true 5 (snd (@Get bool 2000 300000 "unit" 0 ∅))) [] [("unit", true, 5)]) "unit" 1000 true); [|by vm_compute].
  apply (Goes 2000 300000 (mkState (snd (@Get bool 2000 300000 "unit" 0 ∅)) ["unit"] [])).
  - apply (Goes 2000 300000 (mkState ∅ [] [])); [apply Begins|]. exact (Asks 2000 300000 (mkState ∅ [] []) "unit" 0).
  - apply (Returns 2000 300000 (mkState (snd (@Get bool 2000 300000 "unit" 0 ∅)) ["unit"] []) "unit" true 5 [] []). reflexivity.
Defined.

(** What was forgotten while it was being read is answered again, for the whole of
    the lifetime: a unit that stops meanwhile is still running two seconds later. *)
Lemma forgets_too_early :
  let asked := snd (@Get bool 2000 300000 "unit" 0 ∅) in
  fst (Get 2000 300000 "unit" 2003 (finish "unit" true 4 (Forget asked))) = Hit true.
Proof. by vm_compute. Qed.

Definition unitStateTTL : Z := 2000.
Definition unitStatePrune : Z := 300000.

End TTL.

(** ** The configurations a tunnel had before *)

Module Past.

Section past.
Context {B : Type} (blank : B → bool).

Record ConfigChange : Type := mkChange { At : Z; Note : string; Prev : B }.

Definition confHistKeep : nat := 10.

(** [sort.Slice] by [At.After], as it sorts up to twelve: each entry moves up past
    the ones it is newer than. The sorted ones are kept oldest first. *)
Fixpoint move_up (c : ConfigChange) (sorted : list ConfigChange) : list ConfigChange :=
  match sorted with
  | d :: l => if At d <? At c then d :: move_up c l else c :: sorted
  | [] => [c]
  end.

Definition newest_first (l : list ConfigChange) : list ConfigChange := rev (foldl (λ s c, move_up c s) [] l).

(** [ConfigHistory]; a file that is missing or cannot be read is [None]. *)
Definition ConfigHistory (file : option (list ConfigChange)) : list ConfigChange :=
  match file with Some l => newest_first l | None => [] end.

(** [recordConfigChange]; [writable] tells whether the file can be written. *)
Definition recordConfigChange (file : option (list ConfigChange)) (prev : B) (note : string) (now : Z) (writable : bool) :
    option (list ConfigChange) :=
  if blank prev || negb writable then file
  else Some (take confHistKeep (mkChange now note prev :: ConfigHistory file)).

(** [ConfigChangeTimes], in seconds. *)
Definition ConfigChangeTimes (file : option (list ConfigChange)) : list Z :=
  map (λ c, At c / 1000000000) (rev (ConfigHistory file)).

(** [RestoreConfigFrom], to the entry it puts back. *)
Definition kept_from (file : option (list ConfigChange)) (at_ : Z) : option ConfigChange :=
  List.find (λ c, At c =? at_) (ConfigHistory file).

(** *** Lemmas *)

Definition older (a b : ConfigChange) : Prop := At a ≤ At b.
Definition in_order (l : list ConfigChange) : Prop := StronglySorted (flip older) l.

Lemma move_up_perm c s : move_up c s ≡ₚ c :: s.
Proof. induction s as [|d s IH]; [done|]. cbn [move_up]. destruct (At d <? At c); [|done]. rewrite IH. apply Permutation_swap. Qed.

Lemma move_up_sorted c s : StronglySorted older s → StronglySorted older (move_up c s).
Proof.
  induction 1 as [|d s Hs IH Hd]; [repeat constructor|]. cbn [move_up]. destruct (Z.ltb_spec (At d) (At c)).
  - constructor; [done|]. rewrite move_up_perm. constructor; [unfold older; lia|done].
  - constructor; [by constructor|]. constructor; [done|]. eapply Forall_impl; [exact Hd|]. unfold older. intros e He. cbv beta in *. lia.
Qed.

Lemma fold_up l s : StronglySorted older s → StronglySorted older (foldl (λ s c, move_up c s) s l) ∧ foldl (λ s c, move_up c s) s l ≡ₚ l ++ s.
Proof.
  revert s. induction l as [|c l IH]; intros s Hs; [done|]. cbn [foldl]. destruct (IH (move_up c s)) as [H1 H2]; [by apply move_up_sorted|].
  split; [done|]. rewrite H2, move_up_perm. by rewrite <- Permutation_middle.
Qed.

Lemma newest_first_perm l : newest_first l ≡ₚ l.
Proof. unfold newest_first. rewrite <- Permutation_rev. destruct (fold_up l [] (SSorted_nil _)) as [_ ->]. by rewrite app_nil_r. Qed.

Lemma StronglySorted_app_rev l c : StronglySorted (flip older) l → Forall (older c) l → StronglySorted (flip older) (l ++ [c]).
Proof.
  induction 1 as [|d l Hl IH Hd]; intros Hc; [repeat constructor|]. apply Forall_cons in Hc as [Hcd Hc]. cbn. constructor; [by apply IH|].
  apply Forall_app. split; [done|]. by repeat constructor.
Qed.

Lemma sorted_rev s : StronglySorted older s → in_order (rev s).
Proof.
  unfold in_order. induction 1 as [|d s Hs IH Hd]; [constructor|]. cbn [rev]. apply StronglySorted_app_rev; [done|]. by apply Forall_rev.
Qed.

Lemma newest_first_in_order l : in_order (newest_first l).
Proof. apply sorted_rev. by destruct (fold_up l [] (SSorted_nil _)). Qed.

(** A list in order is left as it is. *)
Lemma fold_in_order l s : in_order l → (∀ c d, c ∈ l → head s = Some d → older c d) → foldl (λ s c, move_up c s) s l = rev l ++ s.
Proof.
  revert s. induction l as [|c l IH]; intros s Hl Hs; [done|]. apply StronglySorted_inv in Hl as [Hl Hc]. cbn [foldl rev].
  assert (move_up c s = c :: s) as ->.
  { destruct s as [|d s]; [done|]. cbn [move_up]. assert (older c d) as H by (apply Hs; [apply list_elem_of_here|done]). unfold older in H.
    destruct (Z.ltb_spec (At d) (At c)); [lia|done]. }
  rewrite IH; [by rewrite <- app_assoc|done|]. intros e d He [= <-]. by apply (proj1 (Forall_forall _ _) Hc).
Qed.

Lemma newest_first_id l : in_order l → newest_first l = l.
Proof. intros H. unfold newest_first. rewrite fold_in_order; [by rewrite app_nil_r, rev_involutive|done|done]. Qed.

Lemma in_order_take n l : in_order l → in_order (take n l).
Proof.
  unfold in_order. intros H. revert n. induction H as [|d l Hl IH Hd]; intros [|n]; try constructor; [apply IH|]. by apply Forall_take.
Qed.

(** What a file of the history is like once it was written here. *)
Definition well_kept (file : option (list ConfigChange)) : Prop :=
  match file with Some l => (length l ≤ confHistKeep)%nat ∧ in_order l | None => True end.

Lemma history_of_file file : well_kept file → ConfigHistory file = match file with Some l => l | None => [] end.
Proof. destruct file as [l|]; [|done]. intros [_ H]. by apply newest_first_id. Qed.

(** A change that comes after every one that is kept goes to the front. *)
Lemma recorded file prev note now : blank prev = false → Forall (λ c, At c ≤ now) (ConfigHistory file) →
  let file' := recordConfigChange file prev note now true in
  ConfigHistory file' = mkChange now note prev :: take 9 (ConfigHistory file) ∧ well_kept file'.
Proof.
  intros Hb Hn. cbv zeta. unfold recordConfigChange. rewrite Hb. cbn [orb negb take confHistKeep].
  assert (in_order (mkChange now note prev :: take 9 (ConfigHistory file))) as Hi.
  { constructor; [apply in_order_take; destruct file; [apply newest_first_in_order|constructor]|]. apply Forall_take. exact Hn. }
  split; [by apply newest_first_id|]. split; [|done]. cbn [length]. rewrite length_take. unfold confHistKeep. lia.
Qed.

Lemma recorded_well file prev note now w : well_kept file → Forall (λ c, At c ≤ now) (ConfigHistory file) →
  well_kept (recordConfigChange file prev note now w).
Proof.
  intros Hw Hn. destruct (blank prev) eqn:Eb; [by unfold recordConfigChange; rewrite Eb|]. destruct w; [by apply (recorded file)|].
  unfold recordConfigChange. by rewrite orb_true_r.
Qed.

(** The entry of a moment no other entry has is the one of that change. *)
Lemma kept_front file prev note now : blank prev = false → Forall (λ c, At c ≤ now) (ConfigHistory file) →
  kept_from (recordConfigChange file prev note now true) now = Some (mkChange now note prev).
Proof. intros Hb Hn. unfold kept_from. destruct (recorded file prev note now Hb Hn) as [-> _]. cbn [List.find At]. by rewrite Z.eqb_refl. Qed.

End past.
Arguments ConfigChange : clear implicits.

End Past.

(** ** A configuration on a running machine *)

Module Apply.
Import Past.

Section apply.
Context {B : Type} (blank : B → bool).

Record machine : Type := mkMachine {
  conf : gmap string B;
  past : gmap string (list (ConfigChange B));
  units : gset string;
  services : gmap string B
}.

(** The services are the ones that were started, with the configuration they were
    started on. *)

#[export] Instance eta_machine : Eta machine := λ m, mkMachine (conf m) (past m) (units m) (services m).
#[export] Instance set_conf : Field conf. Proof. set_field. Defined.
#[export] Instance set_past : Field past. Proof. set_field. Defined.
#[export] Instance set_units : Field units. Proof. set_field. Defined.
#[export] Instance set_services : Field services. Proof. set_field. Defined.

(** What the system does when it is asked: each call by whether it succeeds, what
    [systemctl is-active] says of a service that has long been started, and what it
    says every half second after a start. *)
Record luck : Type := mkLuck {
  dir_made : bool;
  written : bool;
  unit_written : bool;
  reloaded : bool;
  started : bool;
  restarted : bool;
  put_back : bool;
  again : bool;
  filed : bool;
  steady : B → bool;
  answers : B → nat → bool;
  now : Z
}.

Inductive failure : Type := NoCurrent | NotSaved | NotRestarted | NotUp.

Definition IsActive (lk : luck) (name : string) (m : machine) : bool :=
  match services m !! name with Some b => steady lk b | None => false end.

(** [RestartService]: the unit reads the file that is there. *)
Definition RestartService (ok : bool) (name : string) (m : machine) : machine :=
  m <| services := match (if ok then conf m !! name else None) with
                   | Some b => <[name := b]> (services m)
                   | None => delete name (services m)
                   end |>.

(** [StartService]; a unit that is active stays on what it was started on. *)
Definition StartService (lk : luck) (name : string) (m : machine) : machine :=
  if IsActive lk name m then m else RestartService true name m.

Definition StopService (ok : bool) (name : string) (m : machine) : machine :=
  if ok then m <| services := delete name (services m) |> else m.

(** [WaitServiceActive], ten seconds of it: one question every half second, of
    which every fourth goes to the system and the others get its last answer. *)
Fixpoint WaitServiceActive (fuel k : nat) (ans : nat → bool) : bool :=
  match fuel with
  | O => false
  | S fuel =>
      if ans (4 * (k / 4))%nat then true
      else if (10000 <? 500 * Z.of_nat k)%Z then false
      else WaitServiceActive fuel (S k) ans
  end.

Definition comes_up (lk : luck) (b : B) : bool := WaitServiceActive 22 0 (answers lk b).

(** [revertSpec]. *)
Definition revertSpec (lk : luck) (name : string) (prev : B) (wasActive : bool) (m : machine) : machine :=
  let m := if put_back lk then m <| conf := <[name := prev]> (conf m) |> else m in
  if wasActive then RestartService (again lk) name m else StopService (again lk) name m.

(** [Save], with whether it got through. *)
Definition Save (lk : luck) (name : string) (b : B) (m : machine) : machine * bool :=
  if negb (dir_made lk && written lk) then (m, false)
  else
    let m := m <| conf := <[name := b]> (conf m) |> in
    if negb (unit_written lk) then (m, false)
    else
      let m := m <| units := {[name]} ∪ units m |> in
      if negb (reloaded lk && started lk) then (m, false) else (StartService lk name m, true).

(** From the restart on, of [applySpec] and [applyRawConfig] alike. *)
Definition bring_up (lk : luck) (name : string) (b prev : B) (wasActive : bool) (note : string) (m : machine) : machine * option failure :=
  let m := RestartService (restarted lk) name m in
  if negb (restarted lk) then (revertSpec lk name prev wasActive m, Some NotRestarted)
  else if negb (comes_up lk b) then (revertSpec lk name prev wasActive m, Some NotUp)
  else
    (m <| past := match recordConfigChange blank (past m !! name) prev note (now lk) (filed lk) with
                  | Some l => <[name := l]> (past m)
                  | None => past m
                  end |>, None).

Definition applySpec (lk : luck) (name : string) (b : B) (m : machine) : machine * option failure :=
  match conf m !! name with
  | None => (m, Some NoCurrent)
  | Some prev =>
      let wasActive := IsActive lk name m in
      let (m, saved) := Save lk name b m in
      if saved then bring_up lk name b prev wasActive "" m
      else (if put_back lk then m <| conf := <[name := prev]> (conf m) |> else m, Some NotSaved)
  end.

Definition applyRawConfig (lk : luck) (name : string) (b : B) (note : string) (m : machine) : machine * option failure :=
  match conf m !! name with
  | None => (m, Some NoCurrent)
  | Some prev =>
      let wasActive := IsActive lk name m in
      if written lk then bring_up lk name b prev wasActive note (m <| conf := <[name := b]> (conf m) |>)
      else (if put_back lk then m <| conf := <[name := prev]> (conf m) |> else m, Some NotSaved)
  end.

Inductive restore_error : Type := NotKept (at_ : Z) | Failed (e : failure).

Definition RestoreConfigFrom (lk : luck) (name : string) (at_ : Z) (note : string) (m : machine) : machine * option restore_error :=
  match kept_from (past m !! name) at_ with
  | None => (m, Some (NotKept at_))
  | Some c => let (m, e) := applyRawConfig lk name (Prev c) note m in (m, option_map Failed e)
  end.

(** *** What is left of a machine *)

#[local] Ltac fields := unfold assign, set_conf, set_past, set_units, set_services; cbn [conf past units services].

(** The wait ends well when one of the six questions it puts to the system does. *)
Lemma WaitServiceActive_iff ans : WaitServiceActive 22 0 ans = true ↔ ∃ k, k ∈ [0; 4; 8; 12; 16; 20]%nat ∧ ans k = true.
Proof.
  transitivity (existsb ans [0; 4; 8; 12; 16; 20]%nat = true).
  - enough (WaitServiceActive 22 0 ans = existsb ans [0; 4; 8; 12; 16; 20]%nat) as -> by done.
    cbv -[orb]. by destruct (ans 0%nat), (ans 4%nat), (ans 8%nat), (ans 12%nat), (ans 16%nat), (ans 20%nat).
  - rewrite existsb_exists. by setoid_rewrite list_elem_of_In.
Qed.

Lemma Save_Ok lk name b m m' : Save lk name b m = (m', true) →
  conf m' = <[name := b]> (conf m) ∧ past m' = past m ∧ units m' = {[name]} ∪ units m ∧
  (∀ c, <[name := c]> (services m') = <[name := c]> (services m)) ∧ delete name (services m') = delete name (services m).
Proof.
  unfold Save. destruct (negb (dir_made lk && written lk)); [done|]. destruct (negb (unit_written lk)); [done|].
  destruct (negb (reloaded lk && started lk)); [done|]. intros [= <-]. unfold StartService. destruct (IsActive _ _ _); [done|].
  unfold RestartService. fields. rewrite lookup_insert_eq. split_and!; try done; [intros c; by rewrite insert_insert_eq|by rewrite delete_insert_eq].
Qed.

Lemma Save_Err lk name b m m' : Save lk name b m = (m', false) →
  (conf m' = conf m ∨ conf m' = <[name := b]> (conf m)) ∧ past m' = past m ∧ services m' = services m.
Proof.
  unfold Save. destruct (negb (dir_made lk && written lk)); [intros [= <-]; auto|]. destruct (negb (unit_written lk)); [intros [= <-]; auto|].
  destruct (negb (reloaded lk && started lk)); [intros [= <-]; auto|done].
Qed.

Definition after_failure (lk : luck) (name : string) (prev : B) (m : machine) : gmap string B :=
  if IsActive lk name m then <[name := prev]> (services m) else delete name (services m).

Lemma reverted lk name b prev was m s : put_back lk = true → again lk = true → conf m = <[name := b]> s →
  let m' := revertSpec lk name prev was (RestartService (restarted lk) name m) in
  conf m' = <[name := prev]> s ∧ past m' = past m ∧ units m' = units m ∧
  services m' = if was then <[name := prev]> (services m) else delete name (services m).
Proof.
  intros Hb Ha Hc. cbv zeta. unfold revertSpec, RestartService, StopService. rewrite Hb, Ha.
  destruct was, (restarted lk); fields; rewrite ?Hc, ?lookup_insert_eq; fields;
    rewrite ?Hc, ?insert_insert_eq, ?lookup_insert_eq, ?insert_delete_eq, ?delete_insert_eq, ?delete_delete_eq; done.
Qed.

(** The last part of both, from a machine that has the new file. *)
Lemma bring_up_all lk name b prev was note m s m' r : put_back lk = true → again lk = true → conf m = <[name := b]> s →
  bring_up lk name b prev was note m = (m', r) →
  match r with
  | None => conf m' = <[name := b]> s ∧ services m' = <[name := b]> (services m) ∧ units m' = units m ∧ comes_up lk b = true ∧
      past m' !! name = recordConfigChange blank (past m !! name) prev note (now lk) (filed lk) ∧
      (∀ n, n ≠ name → past m' !! n = past m !! n)
  | Some e => e ≠ NotSaved ∧ conf m' = <[name := prev]> s ∧ past m' = past m ∧ units m' = units m ∧
      services m' = if was then <[name := prev]> (services m) else delete name (services m)
  end.
Proof.
  intros Hb Ha Hc. unfold bring_up. pose proof (reverted lk name b prev was m s Hb Ha Hc) as R. cbv zeta in R.
  destruct (restarted lk) eqn:Er; cbn [negb]; [|intros [= <- <-]; split; [done|exact R]].
  destruct (comes_up lk b) eqn:Eu; cbn [negb]; [|intros [= <- <-]; split; [done|exact R]].
  intros [= <- <-]. unfold RestartService. fields. rewrite Hc, lookup_insert_eq. split_and!; try done.
  - destruct (recordConfigChange _ _ _ _ _ _) eqn:E; [by rewrite lookup_insert_eq|]. unfold recordConfigChange in E. by destruct (_ || _) in E.
  - intros n Hn. destruct (recordConfigChange _ _ _ _ _ _); [|done]. by rewrite lookup_insert_ne.
Qed.

Lemma put_back_applied lk name b m prev m' r (Hp : conf m !! name = Some prev) (Hb : put_back lk = true) (Ha : again lk = true)
  (H : applySpec lk name b m = (m', r)) :
  match r with
  | None => conf m' = <[name := b]> (conf m) ∧ services m' = <[name := b]> (services m) ∧ name ∈ units m' ∧
      (∃ k, k ∈ [0; 4; 8; 12; 16; 20]%nat ∧ answers lk b k = true) ∧
      past m' !! name = recordConfigChange blank (past m !! name) prev "" (now lk) (filed lk) ∧
      (∀ n, n ≠ name → past m' !! n = past m !! n)
  | Some NotSaved => conf m' = conf m ∧ past m' = past m ∧ services m' = services m
  | Some _ => conf m' = conf m ∧ past m' = past m ∧ services m' = after_failure lk name prev m
  end.
Proof.
  unfold applySpec in H. rewrite Hp in H. destruct (Save lk name b m) as [m1 [|]] eqn:Es.
  - apply Save_Ok in Es as (E1 & E2 & E3 & E4 & E5). eapply bring_up_all in H; [|done|done|exact E1].
    destruct r as [e|].
    + destruct H as (Hn & H1 & H2 & _ & H3). rewrite H1, H2, H3, E2, E4, E5, (insert_id _ _ _ Hp).
      unfold after_failure. destruct e; [|by destruct Hn|..]; destruct (IsActive lk name m); auto.
    + destruct H as (H1 & H2 & H3 & H4 & H5 & H6). rewrite H1, H2, E4, E2 in *. split_and!; [done|done| |by apply WaitServiceActive_iff|done|done].
      rewrite H3, E3. set_solver.
  - injection H as <- <-. apply Save_Err in Es as (H1 & H2 & H3). rewrite Hb. fields. split_and!; [|done|done].
    destruct H1 as [-> | ->]; rewrite ?insert_insert_eq; by apply insert_id.
Qed.

(** C29: an edit that is saved is saved whole: the tunnel has the new file, runs on
    it, was seen running, and what it had before is filed, or nothing is left of
    it: the file and the history are the old ones, a tunnel that was running runs
    on the old file again and one that was not is stopped, and where the new file
    could not even be installed no service was touched. No other tunnel of the
    machine is concerned. *)
Theorem edit_is_transaction lk name b m prev m' r (Hp : conf m !! name = Some prev) (Hb : put_back lk = true) (Ha : again lk = true)
  (H : applySpec lk name b m = (m', r)) :
  match r with
  | None => conf m' = <[name := b]> (conf m) ∧ services m' = <[name := b]> (services m) ∧ name ∈ units m' ∧
      (∃ k, k ∈ [0; 4; 8; 12; 16; 20]%nat ∧ answers lk b k = true) ∧
      past m' !! name = recordConfigChange blank (past m !! name) prev "" (now lk) (filed lk) ∧
      (∀ n, n ≠ name → past m' !! n = past m !! n)
  | Some NotSaved => conf m' = conf m ∧ past m' = past m ∧ services m' = services m
  | Some _ => conf m' = conf m ∧ past m' = past m ∧ services m' = after_failure lk name prev m
  end.
Proof. exact (put_back_applied lk name b m prev m' r Hp Hb Ha H). Qed.


(** A file that comes up is put back when it is written and the unit restarted. *)
Lemma applyRaw_all lk name b note m prev : conf m !! name = Some prev → put_back lk = true → again lk = true →
  written lk = true → restarted lk = true → comes_up lk b = true →
  ∃ m', applyRawConfig lk name b note m = (m', None) ∧ conf m' = <[name := b]> (conf m) ∧ services m' = <[name := b]> (services m) ∧
    past m' !! name = recordConfigChange blank (past m !! name) prev note (now lk) (filed lk).
Proof.
  intros Hp Hb Ha Hw Hr Hu. unfold applyRawConfig. rewrite Hp, Hw. set (m1 := m <| conf := <[name := b]> (conf m) |>).
  destruct (bring_up lk name b prev (IsActive lk name m) note m1) as [m' r] eqn:E. pose proof E as E'.
  eapply bring_up_all in E' as R; [|done|done|reflexivity]. unfold bring_up in E. rewrite Hr, Hu in E. cbn [negb] in E. injection E as <- <-.
  eexists. split; [done|]. destruct R as (R1 & R2 & _ & _ & R3 & _). done.
Qed.

(** What an accepted edit replaced is what its moment brings back. *)
Lemma undone lk lk' name b m prev note m1 : conf m !! name = Some prev → blank prev = false → put_back lk = true → again lk = true → filed lk = true →
  Forall (λ c, At c ≤ now lk) (ConfigHistory (past m !! name)) →
  applySpec lk name b m = (m1, None) →
  put_back lk' = true → again lk' = true → written lk' = true → restarted lk' = true → comes_up lk' prev = true →
  ∃ m2, RestoreConfigFrom lk' name (now lk) note m1 = (m2, None) ∧ conf m2 = conf m ∧ services m2 = <[name := prev]> (services m) ∧
    past m2 !! name = recordConfigChange blank (past m1 !! name) b note (now lk') (filed lk').
Proof.
  intros Hp Hbl Hb Ha Hf Hn H Hb' Ha' Hw Hr Hu. pose proof (put_back_applied lk name b m prev m1 None Hp Hb Ha H) as (H1 & H2 & _ & _ & H3 & _).
  unfold RestoreConfigFrom. rewrite H3, Hf, (kept_front blank) by done. cbn [Prev].
  destruct (applyRaw_all lk' name prev note m1 b) as (m2 & -> & E1 & E2 & E3); [by rewrite H1, lookup_insert_eq|done..|].
  exists m2. split; [done|]. rewrite E1, E2, E3, H1, H2, !insert_insert_eq, H3, Hf. split; [by apply insert_id|done].
Qed.

End apply.
Arguments machine : clear implicits.
Arguments luck : clear implicits.

(** A tunnel that does not come up on the new file. *)
Definition dull : luck string := mkLuck true true true true true true true true true (String.eqb "old") (λ b _, String.eqb b "old") 7.
Definition running : machine string := mkMachine {["a" := "old"; "b" := "other"]} ∅ {["a"]} {["a" := "old"; "b" := "other"]}.

Lemma edit_is_transaction_witness :
  conf running !! "a" = Some "old" ∧ snd (applySpec (String.eqb "") dull "a" "new" running) = Some NotUp ∧
  let m' := fst (applySpec (String.eqb "") dull "a" "new" running) in
  conf m' = conf running ∧ services m' = after_failure dull "a" "old" running ∧ services m' !! "a" = Some "old".
Proof.
  split; [vm_compute; reflexivity|]. split; [vm_compute; reflexivity|]. cbv zeta.
  destruct (edit_is_transaction (String.eqb "") dull "a" "new" running "old" (fst (applySpec (String.eqb "") dull "a" "new" running)) (Some NotUp)) as (H1 & _ & H2);
    [vm_compute; reflexivity..|]. split; [exact H1|]. split; [exact H2|]. rewrite H2. vm_compute. reflexivity.
Defined.

End Apply.

(** ** The edits of a reverse tunnel *)

Module Commit.
Import Toml Spec Drawers Past Apply.

(** [pinPrimaryExit], with [reorderPrimary] ([exithealth.go]). *)
Definition reorderPrimary (oldPrimary : string) (fallbacks : list string) (newPrimary : string) : string * list string :=
  (newPrimary, oldPrimary :: filter (λ f, f ≠ newPrimary) fallbacks).

Definition pinPrimaryExit (name addr : string) (b : box) : result Drawers.error TunnelSpec :=
  let? s := Change.load b name in
  let? _ := require (negb (String.eqb addr (RemoteAddr s))) Already in
  let (primary, rest) := reorderPrimary (RemoteAddr s) (FallbackAddrs s) addr in
  Ok (s <| RemoteAddr := primary |> <| FallbackAddrs := rest |>).

(** No address is lost and none is there twice. *)
Lemma reordered p l a : NoDup (p :: l) → a ∈ l → fst (reorderPrimary p l a) :: snd (reorderPrimary p l a) ≡ₚ p :: l.
Proof.
  intros [Hp Hl]%NoDup_cons Ha. unfold reorderPrimary. cbn [fst snd]. etransitivity; [apply Permutation_swap|]. constructor. apply NoDup_Permutation; [|done|].
  - constructor; [rewrite list_elem_of_filter; naive_solver|]. by apply NoDup_filter.
  - intros x. rewrite elem_of_cons, list_elem_of_filter. destruct (decide (x = a)) as [-> |]; naive_solver.
Qed.

Section commit.
(** The machine apart from its tunnels, and which files are empty: one with a key
    in it is not. *)
Context (h : host) (present : string → bool) (can_write : bool).
Context (blank : option doc → bool) (blank_empty : ∀ d, blank (Some d) = true → d = []).

Definition box_of (m : machine (option doc)) : box := mkBox (conf m) h present can_write.

Inductive outcome : Type := Refused (e : Drawers.error) | Taken (name : string) | Undone (f : failure).

Definition commit (lk : luck (option doc)) (s : TunnelSpec) (m : machine (option doc)) : machine (option doc) * option outcome :=
  let (m, e) := applySpec blank lk (Name s) (Some (Render s)) m in (m, option_map Undone e).

(** Every setting that is changed goes this way. *)
Definition change (op : box → result Drawers.error TunnelSpec) (lk : luck (option doc)) (m : machine (option doc)) :
    machine (option doc) * option outcome :=
  match op (box_of m) with Err e => (m, Some (Refused e)) | Ok s => commit lk s m end.

(** [CreateTunnel], with whether the service came up. *)
Definition CreateTunnel (n : Create.NewTunnel) (lk : luck (option doc)) (m : machine (option doc)) : machine (option doc) * result outcome bool :=
  let name := TrimSpace (Create.nName n) in
  if Box.validName name && bool_decide (is_Some (conf m !! name)) then (m, Err (Taken name))
  else match Create.specFromNew (box_of m) n with
       | Err e => (m, Err (Refused e))
       | Ok s => let (m, saved) := Save lk (Name s) (Some (Render s)) m in
                 (m, if saved then Ok (IsActive lk (Name s) m) else Err (Undone NotSaved))
       end.

(** [ApplyTunnel]: whether it came up and whether it was made. *)
Definition ApplyTunnel (n : Create.NewTunnel) (lk : luck (option doc)) (m : machine (option doc)) : machine (option doc) * result outcome (bool * bool) :=
  match Create.specFromNew (box_of m) n with
  | Err e => (m, Err (Refused e))
  | Ok s =>
      if bool_decide (conf m !! Name s = None) then
        let (m, saved) := Save lk (Name s) (Some (Render s)) m in
        (m, if saved then Ok (IsActive lk (Name s) m, true) else Err (Undone NotSaved))
      else
        let (m, e) := commit lk s m in
        (m, match e with Some e => Err e | None => Ok (IsActive lk (Name s) m, false) end)
  end.

Lemma Render_some s : Render s ≠ [].
Proof. unfold Render. by destruct (String.eqb (Role s) "server"). Qed.

(** A machine that does what it is asked, on which the file comes up. *)
Record fair (lk : luck (option doc)) (b : option doc) : Prop := {
  f_back : put_back lk = true; f_again : again lk = true; f_written : written lk = true; f_restarted : restarted lk = true;
  f_filed : filed lk = true; f_up : comes_up lk b = true
}.

(** C30: an edit that was saved can be taken back by its moment: every file of the
    machine is again what it was, keys the program knows nothing of included, the
    tunnel runs on it, and the edit itself can be brought back the same way. *)
Theorem edit_then_undo op lk lk' m s prev m1 note (Hop : op (box_of m) = Ok s) (Hp : conf m !! Name s = Some (Some prev)) (Hn : prev ≠ [])
  (Hlk : put_back lk = true ∧ again lk = true ∧ filed lk = true) (Hlk' : fair lk' (Some prev))
  (Hold : Forall (λ c, At c ≤ now lk) (ConfigHistory (past m !! Name s))) (Hlater : now lk ≤ now lk') (H : change op lk m = (m1, None)) :
  conf m1 = <[Name s := Some (Render s)]> (conf m) ∧
  ∃ m2, RestoreConfigFrom blank lk' (Name s) (now lk) note m1 = (m2, None) ∧
    conf m2 = conf m ∧ services m2 = <[Name s := Some prev]> (services m) ∧
    kept_from (past m2 !! Name s) (now lk') = Some (mkChange (now lk') note (Some (Render s))).
Proof using h present can_write blank_empty.
  destruct Hlk as (Hb & Ha & Hf), Hlk' as [Hb' Ha' Hw' Hr' Hf' Hu'].
  assert (blank (Some prev) = false) as Hbl by (apply not_true_is_false; by intros ?%blank_empty).
  assert (blank (Some (Render s)) = false) as Hbl' by (apply not_true_is_false; intros E%blank_empty; by apply (Render_some s)).
  unfold change, commit in H. rewrite Hop in H. destruct (applySpec _ _ _ _ _) as [m1' [e|]] eqn:E in H; [done|]. injection H as ->.
  destruct (put_back_applied blank lk (Name s) (Some (Render s)) m (Some prev) m1 None Hp Hb Ha E) as (H1 & _ & _ & _ & H2 & _). split; [done|].
  destruct (undone blank lk lk' (Name s) (Some (Render s)) m (Some prev) note m1) as (m2 & R1 & R2 & R3 & R4); try done.
  exists m2. split_and!; [done|done|done|]. rewrite R4, Hf'. apply kept_front; [done|]. rewrite H2, Hf.
  destruct (recorded blank (past m !! Name s) (Some prev) "" (now lk) Hbl Hold) as [-> _]. constructor; [done|]. apply Forall_take.
  eapply Forall_impl; [exact Hold|]. cbv beta. lia.
Qed.

End commit.

(** A tunnel moved to another carrier and back, with the key its file has and no
    spec holds. *)
Definition hand_edited : doc :=
  [("client", [("remote_addr", Str "203.0.113.7:443"); ("transport", Str "tcp"); ("token", Str "secret"); ("dial_timeout", Int 25)])].
Definition lucky (at_ : Z) : luck (option doc) := mkLuck true true true true true true true true true (λ _, true) (λ _ _, true) at_.
Definition hand_machine : machine (option doc) :=
  mkMachine {["tehran" := Some hand_edited]} ∅ {["tehran"]} {["tehran" := Some hand_edited]}.
Definition to_ws : box → result Drawers.error TunnelSpec := λ b, Change.ChangeTransport b "tehran" "ws".
Definition spec_of (r : result Drawers.error TunnelSpec) : TunnelSpec := match r with Ok s => s | Err _ => noSpec end.

Lemma edit_then_undo_witness :
  let m1 := fst (change Defaults.linux_host (λ _, false) true (λ _, false) to_ws (lucky 100) hand_machine) in
  (∃ d, conf m1 !! "tehran" = Some (Some d) ∧ d ≠ hand_edited) ∧
  ∃ m2, RestoreConfigFrom (λ _, false) (lucky 200) "tehran" 100 "undo" m1 = (m2, None) ∧ conf m2 = {["tehran" := Some hand_edited]}.
Proof.
  cbv zeta. set (s := spec_of (to_ws (box_of Defaults.linux_host (λ _, false) true hand_machine))).
  destruct (edit_then_undo Defaults.linux_host (λ _, false) true (λ _, false) ltac:(done) to_ws (lucky 100) (lucky 200) hand_machine s hand_edited
    (fst (change Defaults.linux_host (λ _, false) true (λ _, false) to_ws (lucky 100) hand_machine)) "undo") as (H1 & m2 & H2 & H3 & _).
  - vm_compute. reflexivity.
  - vm_compute. reflexivity.
  - discriminate.
  - split_and!; reflexivity.
  - split; vm_compute; reflexivity.
  - cbn [past hand_machine]. rewrite lookup_empty. constructor.
  - cbn [now lucky]. lia.
  - vm_compute. reflexivity.
  - split; [|exists m2; split; [exact H2|exact H3]]. exists (Render s). rewrite H1. split; [vm_compute; reflexivity|]. vm_compute. discriminate.
Defined.

(** Nothing of that holds for what is answered a moment too early: a service is
    active as soon as it was started, so that a file it does not start with passes,
    and the file that worked is no longer there. *)
Definition stillborn : luck (option doc) :=
  mkLuck true true true true true true true true true (λ _, false) (λ _ k, (k =? 0)%nat) 100.

Lemma brief_start_accepted :
  let (m1, r) := change Defaults.linux_host (λ _, false) true (λ _, false) to_ws stillborn hand_machine in
  r = None ∧ IsActive stillborn "tehran" m1 = false ∧ conf m1 !! "tehran" ≠ conf hand_machine !! "tehran".
Proof. by vm_compute. Qed.

End Commit.

(** ** The moment of an entry, to the browser and back *)

Module Browser.
Import Past Apply.

Section handlers.
Context {B : Type} (blank : B → bool).

Inductive reply (T : Type) : Type := BadRequest | BadGateway (e : restore_error) | Done (t : T).
Arguments BadRequest {T}.
Arguments BadGateway {T}.
Arguments Done {T}.

(** [handleConfHistory], less how the moment is written out. *)
Definition handleConfHistory (name : string) (m : machine B) : reply (list (Z * string)) :=
  if String.eqb name "" then BadRequest else Done (map (λ c, (At c, Note c)) (ConfigHistory (past m !! name))).

(** [handleConfRestore] of a request that was decoded. *)
Definition handleConfRestore (lk : luck B) (name : string) (at_ : Z) (note : string) (m : machine B) : machine B * reply unit :=
  if String.eqb name "" || (at_ =? 0) then (m, BadRequest)
  else let (m, e) := RestoreConfigFrom blank lk name at_ note m in
       (m, match e with Some e => BadGateway e | None => Done tt end).

(** What is listed says nothing of the configurations. *)
Lemma listing_secret name (m m' : machine B) :
  map (λ c, (At c, Note c)) (ConfigHistory (past m !! name)) = map (λ c, (At c, Note c)) (ConfigHistory (past m' !! name)) →
  handleConfHistory name m = handleConfHistory name m'.
Proof. unfold handleConfHistory. by intros ->. Qed.

End handlers.

(** A number of the browser: the nearest with 53 bits, written with the fewest
    digits that are read as it again. *)
Definition js_number (n : Z) : Z :=
  let step := 2 ^ Z.max 0 (Z.log2 n - 52) in
  let q := n / step in
  let r := n mod step in
  let q := if 2 * r <? step then q else if step <? 2 * r then q + 1 else if Z.even q then q else q + 1 in
  q * step.

Definition nearest (p n : Z) : Z := (n + p / 2) / p * p.

Fixpoint fewest_digits (zeros : nat) (n : Z) : Z :=
  match zeros with
  | O => n
  | S z => let c := nearest (10 ^ Z.of_nat zeros) n in if js_number c =? n then c else fewest_digits z n
  end.

Definition js_echo (n : Z) : Z := fewest_digits 18 (js_number n).

(** What the panel shows of a change it cannot ask for: the nanoseconds do not
    survive the browser. *)
Definition afternoon : Z := 1750000000123456789.
Definition kept_machine : machine string :=
  mkMachine {["tehran" := "new"]} {["tehran" := [mkChange afternoon "" "old"]]} {["tehran"]} {["tehran" := "new"]}.
Definition willing : luck string := mkLuck true true true true true true true true true (λ _, true) (λ _ _, true) (afternoon + 1).

Lemma moment_lost :
  js_echo afternoon = 1750000000123456800 ∧
  snd (handleConfRestore (String.eqb "") willing "tehran" afternoon "" kept_machine) = Done unit tt ∧
  snd (handleConfRestore (String.eqb "") willing "tehran" (js_echo afternoon) "" kept_machine) = BadGateway unit (NotKept 1750000000123456800).
Proof. split_and!; vm_compute; reflexivity. Qed.

(** A moment below 2^53 would survive. *)
Lemma js_echo_small n : 0 ≤ n < 2 ^ 53 → js_number n = n.
Proof.
  intros Hn. unfold js_number. assert (Z.log2 n ≤ 52) as Hl.
  { destruct (decide (n = 0)) as [->|]; [by vm_compute|]. assert (Z.log2 n < 53) by (apply Z.log2_lt_pow2; lia). lia. }
  rewrite Z.max_l by lia. change (2 ^ 0) with 1. rewrite Z.div_1_r, Z.mod_1_r. change (2 * 0 <? 1) with true. cbv iota. lia.
Qed.

End Browser.

(** ** What an update corrects *)

Module Migrate.
Import Past.

(** [app.TunnelConfigMode]: 0600. *)
Definition TunnelConfigMode : Z := 384.

Record configFile : Type := mkFile { Body : string; Mode : Z }.

Definition Perm (mode : Z) : Z := Z.land mode 511.

Definition newline : ascii := "010".

(** A line that assigns to the key. *)
Definition assigns (key line : string) : bool :=
  let trimmed := TrimSpace line in
  HasPrefix trimmed key && HasPrefix (TrimSpace (TrimPrefix trimmed key)) "=".

Definition dropTOMLKey (body key : string) : string * bool :=
  let lines := Split body newline in
  let out := filter (λ l, assigns key l = false) lines in
  if existsb (assigns key) lines then (Join out (String newline ""), true) else (body, false).

(** The corrections of a file, each with whether it said something. *)
Definition config_mode_0600 (f : configFile) : configFile * bool :=
  if Perm (Mode f) =? TunnelConfigMode then (f, false) else (mkFile (Body f) TunnelConfigMode, true).

Definition drop_spoof_dst_ip (f : configFile) : configFile * bool :=
  let (out, removed) := dropTOMLKey (Body f) "spoof_dst_ip" in
  if removed then (mkFile out (Mode f), true) else (f, false).

Definition configMigrations : list (configFile → configFile * bool) := [config_mode_0600; drop_spoof_dst_ip].

Definition corrected (f : configFile) : configFile * nat :=
  foldl (λ s (g : configFile → configFile * bool), let (f, said) := g (fst s) in (f, if said then S (snd s) else snd s)) (f, 0%nat) configMigrations.

(** One file of the directory and what was kept of it: whether it can be written
    or its mode changed are [writable] and [chmod]. A line of the log is a note, or
    that something could not be done. *)
Inductive line : Type := Noted (name : string) (notes : nat) | CouldNotMigrate (name : string) | CouldNotSetMode (name : string).

Record disk : Type := mkDisk { configs : gmap string configFile; kept : gmap string (list (ConfigChange string)) }.

Definition migrate_one (writable chmod filed : bool) (now : Z) (note : string) (name : string) (d : disk) : disk * list line :=
  match configs d !! name with
  | None => (d, [])
  | Some f =>
      let (f', notes) := corrected f in
      if (notes =? 0)%nat then (d, [])
      else if negb (String.eqb (Body f) (Body f')) then
        let kept' := match recordConfigChange (String.eqb "") (kept d !! name) (Body f) note now filed with
                     | Some l => <[name := l]> (kept d)
                     | None => kept d
                     end in
        if writable then (mkDisk (<[name := mkFile (Body f') (Perm (Mode f'))]> (configs d)) kept', [Noted name notes])
        else (mkDisk (configs d) kept', [CouldNotMigrate name])
      else if negb (Perm (Mode f') =? Perm (Mode f)) then
        if chmod then (mkDisk (<[name := mkFile (Body f) (Perm (Mode f'))]> (configs d)) (kept d), [Noted name notes])
        else (d, [CouldNotSetMode name])
      else (d, [Noted name notes])
  end.

(** [migrateConfigsIn], each file at its own moment. *)
Fixpoint migrate_all (writable chmod filed : string → bool) (now : string → Z) (note : string) (names : list string) (d : disk) : disk * list line :=
  match names with
  | [] => (d, [])
  | n :: l =>
      let (d, a) := migrate_one (writable n) (chmod n) (filed n) (now n) note n d in
      let (d, b) := migrate_all writable chmod filed now note l d in
      (d, a ++ b)
  end.

Definition names (d : disk) : list string := GoSort.Strings (map fst (map_to_list (configs d))).

Definition changed (l : list line) : nat := length (List.filter (λ x, match x with Noted _ _ => true | _ => false end) l).

Definition migrateConfigsIn (writable chmod filed : string → bool) (now : string → Z) (note : string) (d : disk) : disk * nat :=
  let (d, log) := migrate_all writable chmod filed now note (names d) d in (d, changed log).

(** The one correction of the kernel: the port range, what was said and the value
    that is live afterwards. *)
Definition ephemeralDefaultLow : Z := 32768.
Definition ephemeralDefaultHigh : Z := 60999.
Definition wrote : string := "1024 65535".

Definition ephemeral_port_range (fields : list string) (writes : bool) : option bool * list string :=
  if negb (String.eqb (Join fields " ") wrote) then (None, fields)
  else if writes then (Some true, [Itoa ephemeralDefaultLow; Itoa ephemeralDefaultHigh]) else (Some false, fields).

(** *** Lemmas *)

Definition key : string := "spoof_dst_ip".
Definition lines_kept (body : string) : list string := filter (λ l, assigns key l = false) (Split body newline).

(** A file that needs nothing. *)
Definition right_file (f : configFile) : Prop := Perm (Mode f) = TunnelConfigMode ∧ existsb (assigns key) (Split (Body f) newline) = false.

Lemma none_kept body : existsb (assigns key) (Split body newline) = false → lines_kept body = Split body newline.
Proof.
  unfold lines_kept. induction (Split body newline) as [|x l IH]; [done|]. cbn [existsb]. intros [Hx Hl]%orb_false_iff.
  rewrite (filter_cons_True (λ l, assigns key l = false)) by done. by rewrite IH.
Qed.

Lemma kept_none body : existsb (assigns key) (Split (Join (lines_kept body) (String newline "")) newline) = false.
Proof.
  assert (Forall (λ l, assigns key l = false) (lines_kept body)) as Hk by (apply Forall_forall; intros x [Hx _]%list_elem_of_filter; done).
  assert (Forall (free newline) (lines_kept body)) as Hf.
  { apply Forall_forall. intros x [_ Hx]%list_elem_of_filter. by apply (proj1 (Forall_forall _ _) (Split_parts newline body)). }
  destruct (lines_kept body) as [|x l]; [by vm_compute|]. rewrite Split_Join by done. apply not_true_is_false. intros (y & Hy & Ha)%existsb_exists.
  apply list_elem_of_In in Hy. apply (proj1 (Forall_forall _ _) Hk) in Hy. congruence.
Qed.

Lemma corrected_right f : right_file f → corrected f = (f, 0%nat).
Proof.
  intros [Hm Hl]. unfold corrected, configMigrations. cbn [foldl fst snd]. unfold config_mode_0600. rewrite Hm. change (TunnelConfigMode =? TunnelConfigMode) with true. cbv iota.
  unfold drop_spoof_dst_ip, dropTOMLKey. cbn [fst]. unfold key in Hl. by rewrite Hl.
Qed.

Definition fixed (f : configFile) : configFile := mkFile (Join (lines_kept (Body f)) (String newline "")) TunnelConfigMode.

Lemma fixed_right f : right_file (fixed f).
Proof. split; [done|]. apply kept_none. Qed.

(** One pass over a file that can be written. *)
Lemma migrate_one_ok filed now note name d f : configs d !! name = Some f →
  ∃ f', configs (fst (migrate_one true true filed now note name d)) = <[name := f']> (configs d) ∧ right_file f' ∧
    Body f' = Join (lines_kept (Body f)) (String newline "") ∧ (right_file f → f' = f ∧ migrate_one true true filed now note name d = (d, [])).
Proof.
  intros Hf. unfold migrate_one. rewrite Hf. unfold corrected, configMigrations. cbn [foldl fst snd].
  unfold config_mode_0600, drop_spoof_dst_ip, dropTOMLKey. fold key.
  destruct (Z.eqb_spec (Perm (Mode f)) TunnelConfigMode) as [Em|Em]; cbn [fst snd Body Mode]; fold key; destruct (existsb (assigns key) (Split (Body f) newline)) eqn:El; cbn [fst snd Body Mode Nat.eqb]; fold (lines_kept (Body f)).
  - destruct (String.eqb_spec (Body f) (Join (lines_kept (Body f)) (String newline ""))) as [E|E]; cbn [negb].
    { exfalso. pose proof (kept_none (Body f)) as K. rewrite <- E in K. congruence. }
    eexists. cbn [fst configs]. split; [done|]. split; [|split; [done|]]; [|by intros [_ ?]; congruence].
    unfold right_file. cbn [Body Mode]. rewrite Em. split; [done|apply kept_none].
  - exists f. cbn [fst]. rewrite insert_id by done. rewrite none_kept, Join_Split by done. by split_and!.
  - destruct (String.eqb_spec (Body f) (Join (lines_kept (Body f)) (String newline ""))) as [E|E]; cbn [negb].
    { exfalso. pose proof (kept_none (Body f)) as K. rewrite <- E in K. congruence. }
    eexists. cbn [fst configs]. split; [done|]. split; [apply fixed_right|]. split; [done|]. by intros [? _].
  - rewrite String.eqb_refl. cbn [negb]. assert (Perm TunnelConfigMode =? Perm (Mode f) = false) as -> by (apply Z.eqb_neq; intros E; apply Em; by rewrite <- E).
    cbn [negb fst configs]. eexists. split; [done|]. rewrite none_kept, Join_Split by done. split; [by split|]. split; [done|]. by intros [? _].
Qed.

Section pass.
Context (filed : string → bool) (now : string → Z) (note : string).
Notation all_ok := (migrate_all (λ _, true) (λ _, true) filed now note).

(** What a pass makes of a file. *)
Definition corrects (f f' : configFile) : Prop :=
  right_file f' ∧ Body f' = Join (lines_kept (Body f)) (String newline "") ∧ (right_file f → f' = f).

Lemma migrate_all_right l d : (∀ n f, n ∈ l → configs d !! n = Some f → right_file f) → all_ok l d = (d, []).
Proof.
  induction l as [|n l IH]; [done|]. intros H. cbn [migrate_all].
  assert (migrate_one true true (filed n) (now n) note n d = (d, [])) as ->.
  { destruct (configs d !! n) as [f|] eqn:E; [|unfold migrate_one; by rewrite E].
    destruct (migrate_one_ok (filed n) (now n) note n d f E) as (f' & _ & _ & _ & Hr). apply Hr, (H n); [apply list_elem_of_here|done]. }
  rewrite IH; [done|]. intros m f Hm. apply H. by apply list_elem_of_further.
Qed.

Lemma migrate_all_ok l d : NoDup l →
  ∀ n, match configs d !! n with
       | Some f => ∃ f', configs (fst (all_ok l d)) !! n = Some f' ∧ (n ∈ l → corrects f f') ∧ (n ∉ l → f' = f)
       | None => configs (fst (all_ok l d)) !! n = None
       end.
Proof.
  intros Hl. revert d. induction Hl as [|m l Hm Hl IH]; intros d n.
  { cbn. destruct (configs d !! n) as [f|]; [|done]. exists f. split; [done|]. split; [by intros ?%elem_of_nil|done]. }
  cbn [migrate_all]. destruct (migrate_one true true (filed m) (now m) note m d) as [d1 a] eqn:E1.
  specialize (IH d1 n). destruct (all_ok l d1) as [d2 b] eqn:E2. cbn [fst] in *.
  destruct (configs d !! m) as [g|] eqn:Eg.
  - destruct (migrate_one_ok (filed m) (now m) note m d g Eg) as (g' & Hc & Hr & Hb & Hi). rewrite E1 in Hc, Hi. cbn [fst] in Hc. rewrite Hc in IH.
    destruct (decide (m = n)) as [<-|Hn].
    + rewrite lookup_insert_eq in IH. rewrite Eg. destruct IH as (f' & H1 & _ & H3). rewrite (H3 Hm) in H1. exists g'. split; [done|].
      split; [|intros Hx; destruct Hx; apply list_elem_of_here]. intros _. split_and!; [done|done|]. intros Hrg. by apply Hi.
    + rewrite lookup_insert_ne in IH by done. destruct (configs d !! n) as [f|]; [|done]. destruct IH as (f' & H1 & H2 & H3). exists f'.
      split; [done|]. rewrite elem_of_cons. split; [intros [->|?]; [done|by apply H2]|]. intros Hx. apply H3. tauto.
  - assert (d1 = d) as -> by (unfold migrate_one in E1; rewrite Eg in E1; by injection E1).
    destruct (configs d !! n) as [f|] eqn:Ef; [|done]. destruct IH as (f' & H1 & H2 & H3). exists f'. split; [done|]. rewrite elem_of_cons.
    split; [intros [->|?]; [congruence|by apply H2]|]. intros Hx. apply H3. tauto.
Qed.

Lemma names_all d n f : configs d !! n = Some f → n ∈ names d.
Proof.
  intros H. unfold names. rewrite GoSort.Strings_elem. apply list_elem_of_fmap. exists (n, f). split; [done|]. by apply elem_of_map_to_list.
Qed.

Lemma names_once d : NoDup (names d).
Proof. unfold names. rewrite GoSort.Strings_Permutation. apply NoDup_fst_map_to_list. Qed.

(** An update that can write the files leaves each of them as it was but for
    the lines that assign the key that is gone and for its mode, which is 0600, a
    file that needed nothing not being touched; and it has nothing to do the next
    time, whenever that is. *)
Theorem update_settles d :
  let d' := fst (migrateConfigsIn (λ _, true) (λ _, true) filed now note d) in
  (∀ n f, configs d !! n = Some f → ∃ f', configs d' !! n = Some f' ∧ corrects f f') ∧
  (∀ n, configs d !! n = None → configs d' !! n = None) ∧
  migrateConfigsIn (λ _, true) (λ _, true) filed now note d' = (d', 0%nat).
Proof.
  cbv zeta. unfold migrateConfigsIn. pose proof (migrate_all_ok (names d) d (names_once d)) as H.
  destruct (all_ok (names d) d) as [d' log]. cbn [fst] in *.
  assert (∀ n f, configs d !! n = Some f → ∃ f', configs d' !! n = Some f' ∧ corrects f f') as H1.
  { intros n f Hf. specialize (H n). rewrite Hf in H. destruct H as (f' & E & C & _). exists f'. split; [done|]. by eapply C, names_all. }
  split; [done|]. split; [intros n Hn; specialize (H n); by rewrite Hn in H|].
  rewrite migrate_all_right; [done|]. intros n f _ Hf. specialize (H n).
  destruct (configs d !! n) as [g|] eqn:Eg; [|congruence]. destruct (H1 n g Eg) as (f' & Hf' & C & _). by simplify_eq.
Qed.

End pass.

(** What was filed before the file could not be written is kept all the same: the
    list of what to go back to has the configuration that still runs. *)
Lemma filed_unchanged :
  let f := mkFile ("[l3]" +:+ String newline ("spoof_dst_ip = '10.0.0.1'" +:+ String newline "mode = 'dial'")) 384 in
  let d := mkDisk {["tehran" := f]} ∅ in
  let d' := fst (migrate_one false true true 100 "migrated" "tehran" d) in
  configs d' !! "tehran" = Some f ∧ kept d' !! "tehran" = Some [mkChange 100 "migrated" (Body f)].
Proof. by vm_compute. Qed.

End Migrate.
