(* ===== verification/DirectEngine.v ===== *)
(** The direct tunnel ([internal/tunnel/direct]), in which the side with the ports
    dials and the side with the service listens:
    - Module [Talk]: two ends of a connection, each a program that writes and
      reads;
    - Module [Proofs]: showing that both hold the token ([handshake.go]);
    - Module [Streams]: what a stream asks for and how it is answered, and
      datagrams on it ([handshake.go], [session.go], [origin.go], [target.go]);
    - Module [Pipe]: joining two connections ([origin.go]);
    - Module [Edge]: the sessions, which of them and which backend a connection
      gets, and what a connection and a flow do to the counters ([edge.go]).

    A connection delivers what is written to it in order and whole; what fails is a
    read when nothing more comes and a write when no more go out, which is an
    argument. Nonces are arguments. The stealth and WebSocket layers below, smux
    and the deadlines are left out. *)

From Stdlib Require Import Ascii String.
From S2P Require Import Prelude GoStr GoHash Limits GoNet Ports.
Import GoStr GoNet.
Open Scope string_scope.
Open Scope list_scope.
Open Scope Z_scope.

(** ** Two ends of a connection *)

Module Talk.

(** A program over a connection that ends with an [R]: it writes, or reads so many
    bytes, and says what it ends with where that fails. *)
Inductive party (R : Type) : Type :=
  | Halt (r : R)
  | Write (b : list Z) (failed : R) (k : party R)
  | ReadFull (n : nat) (failed : R) (k : list Z → party R).
Arguments Halt {R}.
Arguments Write {R}.
Arguments ReadFull {R}.

(** Alone, with all that will ever come in and the number of writes that go out:
    what it wrote, what it left unread, and its end. *)
Fixpoint play {R} (p : party R) (writes : nat) (input : list Z) : list Z * list Z * R :=
  match p with
  | Halt r => ([], input, r)
  | Write b failed k =>
      match writes with
      | O => ([], input, failed)
      | S writes => let '(out, rest, r) := play k writes input in (b ++ out, rest, r)
      end
  | ReadFull n failed k =>
      if (length input <? n)%nat then ([], [], failed) else play (k (take n input)) writes (drop n input)
  end.

(** Each end's next step with what is on its way to it; a write comes before a
    read, and an end that has to wait waits. *)
Definition advance {R} (p : party R) (inbox : list Z) : option (party R * list Z * list Z) :=
  match p with
  | Halt _ => None
  | Write b _ k => Some (k, inbox, b)
  | ReadFull n _ k => if (length inbox <? n)%nat then None else Some (k (take n inbox), drop n inbox, [])
  end.

(** Two ends and what is on its way to each, until neither goes on. *)
Fixpoint talk {A B} (fuel : nat) (p : party A) (q : party B) (to_p to_q : list Z) : party A * party B * list Z * list Z :=
  match fuel with
  | O => (p, q, to_p, to_q)
  | S fuel =>
      match advance p to_p with
      | Some (p, to_p, out) => talk fuel p q to_p (to_q ++ out)
      | None =>
          match advance q to_q with
          | Some (q, to_q, out) => talk fuel p q (to_p ++ out) to_q
          | None => (p, q, to_p, to_q)
          end
      end
  end.

(** *** One step at a time *)

Lemma talk_write {A B} n b f (k : party A) (q : party B) tp tq : talk (S n) (Write b f k) q tp tq = talk n k q tp (tq ++ b).
Proof. done. Qed.

Lemma talk_read {A B} n m f k (q : party B) (tp tq : list Z) rest : length tp = m →
  talk (A:=A) (S n) (ReadFull m f k) q (tp ++ rest) tq = talk n (k tp) q rest tq.
Proof.
  intros Hm. cbn [talk advance]. rewrite length_app. destruct (Nat.ltb_spec (length tp + length rest)%nat m); [lia|].
  by rewrite take_app_length', drop_app_length', app_nil_r by done.
Qed.

Lemma talk_other {A B} n (p : party A) (q q' : party B) tp tq tq' out : advance p tp = None → advance q tq = Some (q', tq', out) →
  talk (S n) p q tp tq = talk n p q' (tp ++ out) tq'.
Proof. intros H1 H2. cbn [talk]. by rewrite H1, H2. Qed.

Lemma talk_still {A B} n (p : party A) (q : party B) tp tq : advance p tp = None → advance q tq = None → talk n p q tp tq = (p, q, tp, tq).
Proof. intros H1 H2. destruct n; [done|]. cbn [talk]. by rewrite H1, H2. Qed.

Lemma advance_read {R} m f k (tp rest : list Z) : length tp = m → advance (R:=R) (ReadFull m f k) (tp ++ rest) = Some (k tp, rest, []).
Proof.
  intros Hm. cbn [advance]. rewrite length_app. destruct (Nat.ltb_spec (length tp + length rest)%nat m); [lia|].
  by rewrite take_app_length', drop_app_length' by done.
Qed.

End Talk.

(** ** Showing that both hold the token *)

Module Proofs.
Import Talk.

Definition nonceLen : nat := 32.
Definition proofLen : nat := 32.
Definition protocolVersion : Z := 1.

Inductive error : Type := BadProof | BadVersion | NotSent | NotRead.

(** [crypto/hmac] with SHA-256. *)
Definition hmac_sha256 (key msg : list Z) : list Z :=
  let key := if 64 <? zlen key then Sha.sha256 key else key in
  let key := key ++ replicate (64 - length key) 0 in
  Sha.sha256 (map (Z.lxor 0x5c) key ++ Sha.sha256 (map (Z.lxor 0x36) key ++ msg)).

Definition transcript (label : string) (nonceEdge nonceOrigin : list Z) : list Z :=
  to_bytes "backpack-direct-v1|" ++ to_bytes label ++ to_bytes "|" ++ nonceEdge ++ nonceOrigin.

Definition proof (token label : string) (nonceEdge nonceOrigin : list Z) : list Z :=
  hmac_sha256 (to_bytes token) (transcript label nonceEdge nonceOrigin).

Definition edgeHandshake (token : string) (nonceEdge : list Z) : party (result error unit) :=
  Write (protocolVersion :: nonceEdge) (Err NotSent)
    (ReadFull (nonceLen + proofLen) (Err NotRead) (λ reply,
      let nonceOrigin := take nonceLen reply in
      let given := drop nonceLen reply in
      if bool_decide (given = proof token "origin" nonceEdge nonceOrigin) then
        Write (proof token "edge" nonceEdge nonceOrigin) (Err NotSent) (Halt (Ok tt))
      else Halt (Err BadProof))).

Definition originHandshake (token : string) (nonceOrigin : list Z) : party (result error unit) :=
  ReadFull (1 + nonceLen) (Err NotRead) (λ opening,
    if negb (at_ opening 0 =? protocolVersion) then Halt (Err BadVersion)
    else
      let nonceEdge := drop 1 opening in
      Write (nonceOrigin ++ proof token "origin" nonceEdge nonceOrigin) (Err NotSent)
        (ReadFull proofLen (Err NotRead) (λ given,
          if bool_decide (given = proof token "edge" nonceEdge nonceOrigin) then Halt (Ok tt) else Halt (Err BadProof)))).

(** *** Lemmas *)

Lemma length_proof token label nE nO : length (proof token label nE nO) = proofLen.
Proof. apply Sha.length_sha256. Qed.

#[local] Opaque proof.

(** What was hashed tells the direction and both nonces apart. *)
Lemma transcript_inj l l' nE nO nE' nO' : l ∈ ["edge"; "origin"] → l' ∈ ["edge"; "origin"] →
  length nE = nonceLen → length nO = nonceLen → length nE' = nonceLen → length nO' = nonceLen →
  transcript l nE nO = transcript l' nE' nO' → l = l' ∧ nE = nE' ∧ nO = nO'.
Proof.
  intros Hl Hl' H1 H2 H3 H4 H. unfold transcript in H. apply app_inv_head in H.
  assert (l = l') as <-.
  { apply (f_equal length) in H. rewrite !length_app, H1, H2, H3, H4 in H. rewrite !elem_of_cons, elem_of_nil in Hl, Hl'.
    destruct Hl as [-> | [-> | []]], Hl' as [-> | [-> | []]]; first [done|vm_compute in H; done]. }
  apply app_inv_head, app_inv_head in H. apply app_inj_1 in H as [-> ->]; [done|congruence].
Qed.

(** Both ends with each other. *)
Lemma handshake_run t t' nE nO : length nE = nonceLen → length nO = nonceLen →
  talk 12 (edgeHandshake t nE) (originHandshake t' nO) [] [] =
    if bool_decide (proof t' "origin" nE nO = proof t "origin" nE nO) then
      (Halt (Ok tt), Halt (if bool_decide (proof t "edge" nE nO = proof t' "edge" nE nO) then Ok tt else Err BadProof), [], [])
    else (Halt (Err BadProof), ReadFull proofLen (Err NotRead) (λ given, if bool_decide (given = proof t' "edge" nE nO) then Halt (Ok tt) else Halt (Err BadProof)), [], []).
Proof.
  intros HE HO. unfold edgeHandshake, originHandshake. rewrite talk_write. cbn [app].
  erewrite talk_other; [|done|rewrite <- (app_nil_r (protocolVersion :: nE)); apply advance_read; cbn [length]; by rewrite HE].
  change (at_ (protocolVersion :: nE) 0 =? protocolVersion) with true. cbn [negb]. change (drop 1 (protocolVersion :: nE)) with nE. cbn [app].
  erewrite talk_other; [|done|done]. cbn [app]. set (reply := nO ++ proof t' "origin" nE nO).
  assert (length reply = (nonceLen + proofLen)%nat) as Hr by (unfold reply; by rewrite length_app, HO, length_proof).
  rewrite <- (app_nil_r reply), talk_read by done. cbv beta zeta. unfold reply. rewrite !take_app_length', !drop_app_length' by done.
  case_bool_decide as E1; [|by apply talk_still].
  rewrite talk_write. cbn [app]. erewrite talk_other; [|done|rewrite <- (app_nil_r (proof t "edge" nE nO)); apply advance_read, length_proof].
  case_bool_decide; by apply talk_still.
Qed.

(** The side that dials, against anything. *)
Lemma edge_alone t nE writes input : let '(out, rest, r) := play (edgeHandshake t nE) writes input in
  (out = [] ∨ out = protocolVersion :: nE) ∧ r ≠ Ok tt ∨
  r = Ok tt ∧ ∃ nO, length nO = nonceLen ∧ input = nO ++ proof t "origin" nE nO ++ rest ∧ out = protocolVersion :: nE ++ proof t "edge" nE nO.
Proof.
  unfold edgeHandshake. destruct writes as [|writes]; cbn [play]; [left; auto|].
  destruct (Nat.ltb_spec (length input) (nonceLen + proofLen)%nat) as [Hl|Hl]; [left; rewrite app_nil_r; auto|]. cbv zeta.
  set (reply := take (nonceLen + proofLen) input). assert (length reply = (nonceLen + proofLen)%nat) as Hr by (unfold reply; rewrite length_take; lia).
  case_bool_decide as E; [|left; cbn [play]; rewrite app_nil_r; auto].
  destruct writes as [|writes]; cbn [play]; [left; rewrite app_nil_r; auto|]. right. split; [done|]. exists (take nonceLen reply).
  split; [rewrite length_take, Hr; done|]. rewrite app_nil_r. split; [|done].
  rewrite <- E, app_assoc, take_drop. unfold reply. by rewrite take_drop.
Qed.

(** The side that listens, against anything. *)
Lemma origin_alone t nO writes input out rest : play (originHandshake t nO) writes input = (out, rest, Ok tt) →
  ∃ nE, length nE = nonceLen ∧ input = protocolVersion :: nE ++ proof t "edge" nE nO ++ rest.
Proof.
  unfold originHandshake. cbn [play]. destruct (Nat.ltb_spec (length input) (1 + nonceLen)%nat) as [Hl|Hl]; [done|].
  destruct input as [|v input]; [done|]. change (1 + nonceLen)%nat with (S nonceLen) in *. cbn [take drop length] in *. cbv zeta. change (at_ (v :: take nonceLen input) 0) with v.
  destruct (Z.eqb_spec v protocolVersion) as [->|]; cbn [negb]; [|done]. change (drop 1 (protocolVersion :: take nonceLen input)) with (take nonceLen input).
  destruct writes as [|writes]; [done|]. cbn [play]. destruct (Nat.ltb_spec (length (drop nonceLen input)) proofLen) as [|Hd]; [done|].
  case_bool_decide as E; cbn [play]; [|done]. intros [= <- <-]. exists (take nonceLen input). rewrite length_take.
  split; [lia|]. change (drop 0 (take nonceLen input)) with (take nonceLen input) in E. by rewrite <- E, !take_drop.
Qed.

(** C31: two ends with one token accept each other. Whoever answers a dialling end
    it accepts has written the proof of that token over the nonce of this very
    connection, and an end that does not accept has written its nonce at most, no
    proof. A listening end only accepts the proof over its own nonce of the
    direction towards it, so that nothing seen on another connection, in either
    direction, is one, unless the hash collides on the two. *)
Theorem direct_handshake t nE nO (HE : length nE = nonceLen) (HO : length nO = nonceLen) :
  talk 12 (edgeHandshake t nE) (originHandshake t nO) [] [] = (Halt (Ok tt), Halt (Ok tt), [], []) ∧
  (∀ writes input, let '(out, rest, r) := play (edgeHandshake t nE) writes input in
     (out = [] ∨ out = protocolVersion :: nE) ∧ r ≠ Ok tt ∨
     r = Ok tt ∧ ∃ nO', length nO' = nonceLen ∧ input = nO' ++ proof t "origin" nE nO' ++ rest) ∧
  (∀ writes nE' given rest out left label nE'' nO'', length nE' = nonceLen →
     play (originHandshake t nO) writes (protocolVersion :: nE' ++ given ++ rest) = (out, left, Ok tt) →
     label ∈ ["edge"; "origin"] → length nE'' = nonceLen → length nO'' = nonceLen → given = proof t label nE'' nO'' →
     (hmac_sha256 (to_bytes t) (transcript label nE'' nO'') = hmac_sha256 (to_bytes t) (transcript "edge" nE' nO) →
      transcript label nE'' nO'' = transcript "edge" nE' nO) →
     label = "edge" ∧ nE'' = nE' ∧ nO'' = nO).
Proof.
  split; [|split].
  - rewrite handshake_run by done. by rewrite !bool_decide_eq_true_2.
  - intros writes input. pose proof (edge_alone t nE writes input) as H. destruct (play _ _ _) as [[out rest] r].
    destruct H as [H|(Hr & nO' & H1 & H2 & _)]; [by left|right]. split; [done|]. by exists nO'.
  - intros writes nE' given rest out left label nE'' nO'' H1 Hp Hl H2 H3 -> Hc.
    apply origin_alone in Hp as (nE0 & H4 & Hi). injection Hi as Hi. apply app_inj_1 in Hi as [<- Hi]; [|congruence].
    apply app_inj_1 in Hi as [Hi _]; [|by rewrite !length_proof].
    assert (transcript label nE'' nO'' = transcript "edge" nE' nO) as Ht by (by apply Hc).
    apply transcript_inj in Ht; try done. apply list_elem_of_here.
Qed.

#[local] Transparent proof.

Definition ones : list Z := replicate 32 1.
Definition twos : list Z := replicate 32 2.

Lemma direct_handshake_witness :
  length ones = nonceLen ∧ length twos = nonceLen ∧
  talk 12 (edgeHandshake "secret" ones) (originHandshake "secret" twos) [] [] = (Halt (Ok tt), Halt (Ok tt), [], []) ∧
  snd (play (originHandshake "secret" twos) 1 (protocolVersion :: ones ++ proof "secret" "origin" ones twos)) = Err BadProof.
Proof.
  split; [reflexivity|]. split; [reflexivity|]. destruct (direct_handshake "secret" ones twos eq_refl eq_refl) as (H & _ & _).
  split; [exact H|]. vm_compute. reflexivity.
Defined.

End Proofs.

(** ** Streams *)

Module Streams.
Import Talk.

Definition streamOK : Z := 1.
Definition streamFailed : Z := 2.
Definition kindTCP : Z := 1.
Definition kindUDP : Z := 2.
Definition maxTargetLen : nat := 512.
Definition maxDatagram : Z := 65535.

Inductive error : Type := TargetLength (n : Z) | UnknownKind (k : Z) | NotRead | NotSent | TooLong (n : Z) | DoesNotFit (n : Z) | Unreachable (target : string).

(** *** What a stream asks for *)

(** The bytes of a request. *)
Definition request (kind : Z) (target : string) : result error (list Z) :=
  let n := length (to_bytes target) in
  if (n =? 0)%nat || (maxTargetLen <? n)%nat then Err (TargetLength (Z.of_nat n))
  else Ok (kind :: put_be 2 (Z.of_nat n) ++ to_bytes target).

Definition writeRequest {R} (kind : Z) (target : string) (failed : error → R) (k : party R) : party R :=
  match request kind target with Ok b => Write b (failed NotSent) k | Err e => Halt (failed e) end.

Definition readRequest {R} (failed : error → R) (k : Z → string → party R) : party R :=
  ReadFull 3 (failed NotRead) (λ head,
    let kind := at_ head 0 in
    if negb ((kind =? kindTCP) || (kind =? kindUDP)) then Halt (failed (UnknownKind kind))
    else
      let n := get_be (drop 1 head) in
      if (n =? 0) || (Z.of_nat maxTargetLen <? n) then Halt (failed (TargetLength n))
      else ReadFull (Z.to_nat n) (failed NotRead) (λ target, k kind (of_bytes target))).

(** *** Datagrams on a stream *)

(** [writeDatagram], to the bytes it writes. *)
Definition writeDatagram (payload : list Z) : result error (list Z) :=
  if maxDatagram <? zlen payload then Err (TooLong (zlen payload))
  else Ok (put_be 2 (zlen payload) ++ payload).

(** [readDatagram] into a buffer of [size], from what there is on the stream: the
    datagram and what is left. *)
Definition readDatagram (size : Z) (stream : list Z) : result error (list Z * list Z) :=
  if (length stream <? 2)%nat then Err NotRead
  else
    let n := get_be (take 2 stream) in
    let rest := drop 2 stream in
    if size <? n then Err (DoesNotFit n)
    else if zlen rest <? n then Err NotRead
    else Ok (take (Z.to_nat n) rest, drop (Z.to_nat n) rest).

(** The loops of [relayDatagrams] and of the pumps: what a socket gets from a
    stream until a read fails, and what goes on a stream from a socket until a
    write does. *)
Fixpoint to_socket (fuel : nat) (stream : list Z) : list (list Z) :=
  match fuel with
  | O => []
  | S fuel => match readDatagram maxDatagram stream with Ok (d, rest) => d :: to_socket fuel rest | Err _ => [] end
  end.

Fixpoint from_socket (datagrams : list (list Z)) : list Z :=
  match datagrams with
  | [] => []
  | d :: l => match writeDatagram d with Ok b => b ++ from_socket l | Err _ => [] end
  end.

(** *** What the listening side does not dial *)

Definition metadataAddrs : list (option (list Z)) :=
  map ParseIP ["169.254.169.254"; "100.100.100.200"; "fd00:ec2::254"; "169.254.169.253"].

(** [net.IP.Equal], of addresses of sixteen bytes. *)
Definition isMetadataAddr (ip : list Z) : bool :=
  existsb (λ m, match m with Some m => bool_decide (m = ip) | None => false end) metadataAddrs.

Inductive vet_error : Type := NotHostPort (target : string) | MetadataTarget.

(** [lookup] is [net.LookupIP]: the addresses of a name, or none where it fails. *)
Definition vetTarget (lookup : string → option (list (list Z))) (target : string) : result vet_error unit :=
  match Net.SplitHostPort target with
  | None => Err (NotHostPort target)
  | Some (host, _) =>
      match ParseIP host with
      | Some ip => if isMetadataAddr ip then Err MetadataTarget else Ok tt
      | None =>
          match lookup host with
          | None => Ok tt
          | Some ips => if existsb isMetadataAddr ips then Err MetadataTarget else Ok tt
          end
      end
  end.

(** *** The two ends of a stream *)

(** [openStream], after the session opened one. *)
Definition openStream (kind : Z) (target : string) : party (result error unit) :=
  writeRequest kind target Err
    (ReadFull 1 (Err NotRead) (λ answer,
      if at_ answer 0 =? streamOK then Halt (Ok tt) else Halt (Err (Unreachable target)))).

(** [serveStream], up to the copying: what it joined the stream to. [reach] is
    [dialBackend] without its vetting. *)
Definition serveStream (lookup : string → option (list (list Z))) (reach : Z → string → bool) : party (option (Z * string)) :=
  readRequest (λ _, None) (λ kind target,
    if match vetTarget lookup target with Ok _ => reach kind target | Err _ => false end then
      Write [streamOK] None (Halt (Some (kind, target)))
    else Write [streamFailed] None (Halt None)).

(** *** Lemmas *)

Lemma request_Ok kind target b : request kind target = Ok b →
  b = kind :: put_be 2 (Z.of_nat (length (to_bytes target))) ++ to_bytes target ∧ (0 < length (to_bytes target) ≤ maxTargetLen)%nat.
Proof.
  unfold request. destruct (Nat.eqb_spec (length (to_bytes target)) 0); [done|]. destruct (Nat.ltb_spec maxTargetLen (length (to_bytes target))); [done|].
  intros <-%Ok_inj. split; [done|]. cbv zeta. lia.
Qed.

(** A request that was written is read as what was asked. *)
Lemma request_read {R} kind target b rest writes (failed : error → R) k : request kind target = Ok b → kind = kindTCP ∨ kind = kindUDP →
  play (readRequest failed k) writes (b ++ rest) = play (k kind target) writes rest.
Proof.
  intros (-> & H0 & Hm)%request_Ok Hk. unfold maxTargetLen in Hm. unfold readRequest. set (n := length (to_bytes target)) in *.
  assert (((kind :: put_be 2 (Z.of_nat n)) ++ to_bytes target) ++ rest = (kind :: put_be 2 (Z.of_nat n)) ++ to_bytes target ++ rest) as Ha by (by rewrite <- app_assoc).
  change (kind :: put_be 2 (Z.of_nat n) ++ to_bytes target) with ((kind :: put_be 2 (Z.of_nat n)) ++ to_bytes target). rewrite Ha. cbn [play].
  rewrite length_app, length_app. fold n. cbn [length]. rewrite length_put_be.
  destruct (Nat.ltb_spec (3 + (n + length rest)) 3)%nat; [lia|]. cbv zeta.
  rewrite (take_app_length' _ _ 3), (drop_app_length' _ _ 3) by (cbn [length]; by rewrite length_put_be).
  change (at_ (kind :: put_be 2 (Z.of_nat n)) 0) with kind. change (drop 1 (kind :: put_be 2 (Z.of_nat n))) with (put_be 2 (Z.of_nat n)).
  rewrite get_put_be_small by lia. assert ((kind =? kindTCP) || (kind =? kindUDP) = true) as -> by (destruct Hk as [-> | ->]; done). cbn [negb].
  destruct (Z.eqb_spec (Z.of_nat n) 0); [lia|]. destruct (Z.ltb_spec (Z.of_nat maxTargetLen) (Z.of_nat n)); [unfold maxTargetLen in *; lia|]. cbn [orb play].
  rewrite Nat2Z.id, length_app. fold n. destruct (Nat.ltb_spec (n + length rest) n)%nat; [lia|].
  rewrite take_app_length', drop_app_length', of_to_bytes by done. done.
Qed.

(** The same with the other end, which waits for the answer. *)
Lemma request_talk {A B} n kind target b (failed : error → B) k (p : party A) : request kind target = Ok b → kind = kindTCP ∨ kind = kindUDP →
  advance p [] = None → talk (S (S n)) p (readRequest failed k) [] b = talk n p (k kind target) [] [].
Proof.
  intros (-> & H0 & Hm)%request_Ok Hk Hp. unfold maxTargetLen in Hm. unfold readRequest. set (m := length (to_bytes target)) in *.
  change (kind :: put_be 2 (Z.of_nat m) ++ to_bytes target) with ((kind :: put_be 2 (Z.of_nat m)) ++ to_bytes target).
  erewrite talk_other; [|done|apply advance_read; cbn [length]; by rewrite length_put_be]. cbv beta zeta.
  change (at_ (kind :: put_be 2 (Z.of_nat m)) 0) with kind. change (drop 1 (kind :: put_be 2 (Z.of_nat m))) with (put_be 2 (Z.of_nat m)).
  rewrite get_put_be_small by lia. assert ((kind =? kindTCP) || (kind =? kindUDP) = true) as -> by (destruct Hk as [-> | ->]; done). cbn [negb].
  destruct (Z.eqb_spec (Z.of_nat m) 0); [lia|]. destruct (Z.ltb_spec (Z.of_nat maxTargetLen) (Z.of_nat m)); [unfold maxTargetLen in *; lia|]. cbn [orb].
  erewrite talk_other; [|done|rewrite <- (app_nil_r (to_bytes target)); apply advance_read; unfold m; lia]. by rewrite of_to_bytes.
Qed.

Lemma datagram_read_back d b rest : writeDatagram d = Ok b → readDatagram maxDatagram (b ++ rest) = Ok (d, rest).
Proof.
  unfold writeDatagram. destruct (Z.ltb_spec maxDatagram (zlen d)) as [|Hd]; [done|]. intros <-%Ok_inj. unfold maxDatagram in *. pose proof (zlen_nonneg d).
  unfold readDatagram. rewrite <- app_assoc, length_app, length_put_be. destruct (Nat.ltb_spec (2 + length (d ++ rest)) 2)%nat; [lia|].
  rewrite take_app_length', drop_app_length' by (by rewrite length_put_be). rewrite get_put_be_small by lia. cbv zeta.
  destruct (Z.ltb_spec 65535 (zlen d)); [lia|]. rewrite zlen_app. pose proof (zlen_nonneg rest). destruct (Z.ltb_spec (zlen d + zlen rest) (zlen d)); [lia|].
  unfold zlen. rewrite Nat2Z.id, take_app_length', drop_app_length' by done. done.
Qed.

(** Every datagram whole and apart from the others. *)
Lemma datagrams_whole ds : Forall (λ d, zlen d ≤ maxDatagram) ds → ∀ fuel, (length ds < fuel)%nat → to_socket fuel (from_socket ds) = ds.
Proof.
  induction 1 as [|d ds Hd _ IH]; intros [|fuel] Hf; cbn [length] in Hf; [lia|done|lia|]. cbn [from_socket].
  destruct (writeDatagram d) as [b|e] eqn:E.
  - cbn [to_socket]. rewrite (datagram_read_back _ _ _ E). by rewrite IH by lia.
  - unfold writeDatagram in E. destruct (Z.ltb_spec maxDatagram (zlen d)); [lia|done].
Qed.

Lemma stream_run kind target b lookup reach : request kind target = Ok b → kind = kindTCP ∨ kind = kindUDP →
  talk 12 (openStream kind target) (serveStream lookup reach) [] [] =
    if match vetTarget lookup target with Ok _ => reach kind target | Err _ => false end then (Halt (Ok tt), Halt (Some (kind, target)), [], [])
    else (Halt (Err (Unreachable target)), Halt None, [], []).
Proof.
  intros Hb Hk. unfold openStream, writeRequest. rewrite Hb, talk_write. cbn [app]. unfold serveStream. rewrite (request_talk _ _ _ _ _ _ _ Hb Hk) by done.
  destruct (match vetTarget lookup target with Ok _ => reach kind target | Err _ => false end);
    (erewrite talk_other; [|done|done]); cbn [app]; (rewrite <- (app_nil_r [_]), talk_read by done); by apply talk_still.
Qed.

(** What is dialled is what was asked for and is no metadata address, as long as
    the name means at the dial what it meant when it was looked at. *)
Lemma vetted lookup target ip : vetTarget lookup target = Ok tt → ∀ host port, Net.SplitHostPort target = Some (host, port) →
  match ParseIP host with Some a => ip = a | None => ∃ ips, lookup host = Some ips ∧ ip ∈ ips end → isMetadataAddr ip = false.
Proof.
  unfold vetTarget. intros H host port Eh. rewrite Eh in H. revert H. destruct (ParseIP host) as [a|].
  - destruct (isMetadataAddr a) eqn:E; [done|]. by intros _ ->.
  - intros H (ips & Hl & Hi). rewrite Hl in H. destruct (existsb isMetadataAddr ips) eqn:E; [done|]. apply not_true_is_false. intros Ht.
    assert (existsb isMetadataAddr ips = true) as E'; [|congruence]. apply existsb_exists. exists ip. by rewrite <- list_elem_of_In.
Qed.

(** C32: a stream that is opened for a backend is joined to that backend and no
    other, of the kind that was asked for, exactly when the other end may and can
    reach it, and the opening end is told which; what it was told about is never an
    address that answers credentials, as long as the name still means what it meant
    when it was checked. The datagrams that go over a stream come out of it as they
    went in, whole, apart and in order. *)
Theorem stream_joins kind target lookup reach ds
  (Hr : is_ok (request kind target) = true) (Hk : kind = kindTCP ∨ kind = kindUDP) (Hd : Forall (λ d, zlen d ≤ maxDatagram) ds) :
  let '(e, o, left_e, left_o) := talk 12 (openStream kind target) (serveStream lookup reach) [] [] in
  left_e = [] ∧ left_o = [] ∧
  (e = Halt (Ok tt) ∧ o = Halt (Some (kind, target)) ∧ vetTarget lookup target = Ok tt ∧ reach kind target = true ∨
   e = Halt (Err (Unreachable target)) ∧ o = Halt None ∧ (vetTarget lookup target ≠ Ok tt ∨ reach kind target = false)) ∧
  (e = Halt (Ok tt) → ∀ host port ip, Net.SplitHostPort target = Some (host, port) →
     match ParseIP host with Some a => ip = a | None => ∃ ips, lookup host = Some ips ∧ ip ∈ ips end → isMetadataAddr ip = false) ∧
  to_socket (S (length ds)) (from_socket ds) = ds.
Proof.
  destruct (request kind target) as [b|] eqn:Eb; [|done]. rewrite (stream_run kind target b) by done.
  assert (∀ r, vetTarget lookup target = Ok r → r = tt) as Ht by (by intros []).
  assert (to_socket (S (length ds)) (from_socket ds) = ds) as Hds by (apply datagrams_whole; [done|lia]).
  destruct (vetTarget lookup target) as [[]|] eqn:Ev; [destruct (reach kind target) eqn:Er|];
    (split; [done|]; split; [done|]; split; [|split; [|done]]).
  - left. done.
  - intros _ host port ip. by apply vetted.
  - right. auto.
  - done.
  - right. split_and!; [done|done|by left].
  - done.
Qed.

Lemma stream_joins_witness :
  is_ok (request kindUDP "10.0.0.5:53") = true ∧
  talk 12 (openStream kindUDP "10.0.0.5:53") (serveStream (λ _, None) (λ _ _, true)) [] [] = (Halt (Ok tt), Halt (Some (kindUDP, "10.0.0.5:53")), [], []) ∧
  to_socket 4 (from_socket [[1; 2]; []; [3]]) = [[1; 2]; []; [3]].
Proof.
  split; [reflexivity|]. split; [vm_compute; reflexivity|].
  pose proof (stream_joins kindUDP "10.0.0.5:53" (λ _, None) (λ _ _, true) [[1; 2]; []; [3]] eq_refl (or_intror eq_refl)) as H.
  destruct (talk _ _ _ _ _) as [[[e o] l1] l2]. apply H. repeat (apply Forall_cons; split; [by vm_compute|]). by apply Forall_nil.
Defined.

(** The name is looked up again to dial it: one that means nothing when it is
    looked at, or something else, is dialled whatever it means then. *)
Lemma rebinding_reaches_metadata :
  vetTarget (λ _, None) "host.example:80" = Ok tt ∧ vetTarget (λ _, Some [[0; 0; 0; 0; 0; 0; 0; 0; 0; 0; 255; 255; 203; 0; 113; 7]]) "host.example:80" = Ok tt ∧
  vetTarget (λ _, Some [[0; 0; 0; 0; 0; 0; 0; 0; 0; 0; 255; 255; 169; 254; 169; 254]]) "host.example:80" = Err MetadataTarget.
Proof. by vm_compute. Qed.

End Streams.

(** ** Names *)

Module Names.

(** [Config.serverName], of the name that was configured and the address. *)
Definition serverName (name addr : string) : string :=
  if negb (String.eqb name "") then name
  else match Net.SplitHostPort addr with None => addr | Some (host, _) => host end.

(** [Config.hostForCert]. *)
Definition hostForCert (name addr : string) : string :=
  if negb (String.eqb name "") then name
  else match Net.SplitHostPort addr with
       | None => "localhost"
       | Some (host, _) => if bool_decide (host ∈ [""; "0.0.0.0"; "::"]) then "localhost" else host
       end.

(** A certificate always names something. *)
Lemma hostForCert_set name addr : hostForCert name addr ≠ "".
Proof.
  unfold hostForCert. destruct (String.eqb_spec name ""); cbn [negb]; [|done]. destruct (Net.SplitHostPort addr) as [[host port]|]; [|done].
  case_bool_decide as H; [done|]. intros ->. apply H, list_elem_of_here.
Qed.

End Names.

(** ** Joining two connections *)

Module Pipe.

(** One direction: what its source will still send, what its destination has, and
    whether the source has been read to its end. *)
Record direction : Type := mkDirection { to_come : list Z; delivered : list Z; at_end : bool }.

(** [pipe]: both directions and whether both connections were closed. *)
Record state : Type := mkState { forth : direction; back : direction; closed : bool }.

Definition copied (n : nat) (d : direction) : direction :=
  mkDirection (drop n (to_come d)) (delivered d ++ take n (to_come d)) (at_end d).
Definition ended (d : direction) : direction := mkDirection (to_come d) (delivered d) true.

(** [copyOne] moves what has come and ends when its source has; the first that
    ends closes both, as the end of the process does. A source that [ends] says so
    when it has sent everything. *)
Inductive step (ends_forth ends_back : bool) : state → state → Prop :=
  | Forth s n : closed s = false → at_end (forth s) = false → step ends_forth ends_back s (mkState (copied n (forth s)) (back s) false)
  | Back s n : closed s = false → at_end (back s) = false → step ends_forth ends_back s (mkState (forth s) (copied n (back s)) false)
  | ForthEnds s : closed s = false → ends_forth = true → to_come (forth s) = [] → step ends_forth ends_back s (mkState (ended (forth s)) (back s) false)
  | BackEnds s : closed s = false → ends_back = true → to_come (back s) = [] → step ends_forth ends_back s (mkState (forth s) (ended (back s)) false)
  | Closes s : at_end (forth s) || at_end (back s) = true → step ends_forth ends_back s (mkState (forth s) (back s) true).

Definition begins (a b : list Z) : state := mkState (mkDirection a [] false) (mkDirection b [] false) false.

Inductive reachable (ends_forth ends_back : bool) (a b : list Z) : state → Prop :=
  | Begins : reachable ends_forth ends_back a b (begins a b)
  | Goes s s' : reachable ends_forth ends_back a b s → step ends_forth ends_back s s' → reachable ends_forth ends_back a b s'.

Definition carries (sent : list Z) (d : direction) : Prop :=
  delivered d ++ to_come d = sent ∧ (at_end d = true → to_come d = []).

Lemma copied_carries sent n d : carries sent d → at_end d = false → carries sent (copied n d).
Proof. intros [H1 H2] He. split; cbn; [by rewrite <- app_assoc, take_drop|]. by rewrite He. Qed.

Lemma ended_carries sent d : carries sent d → to_come d = [] → carries sent (ended d).
Proof. intros [H1 H2] He. by split. Qed.

(** What a side gets is what the other sent, from its beginning, and both are kept
    open until one of them has been carried to its end. *)
Lemma pipe_carries ef eb a b s : reachable ef eb a b s →
  carries a (forth s) ∧ carries b (back s) ∧ (closed s = true → delivered (forth s) = a ∨ delivered (back s) = b).
Proof.
  induction 1 as [|s s' _ (Ha & Hb & Hc) Hs]; [by split_and!|]. destruct Hs as [s n Hcl He|s n Hcl He|s Hcl He Ht|s Hcl He Ht|s He]; cbn [forth back closed].
  - split_and!; [by apply copied_carries|done|done].
  - split_and!; [done|by apply copied_carries|done].
  - split_and!; [by apply ended_carries|done|done].
  - split_and!; [done|by apply ended_carries|done].
  - split_and!; [done|done|]. intros _. destruct Ha as [Ha1 Ha2], Hb as [Hb1 Hb2]. apply orb_true_iff in He as [He|He].
    + left. rewrite <- Ha1, (Ha2 He). by rewrite app_nil_r.
    + right. rewrite <- Hb1, (Hb2 He). by rewrite app_nil_r.
Qed.

(** A side that says it has sent everything is not answered any more: the end it
    announced closes the connection the answer was to come by. *)
Lemma half_close_cuts : ∃ s, reachable true false [71; 69; 84] [50; 48; 48] s ∧
  closed s = true ∧ delivered (forth s) = [71; 69; 84] ∧ delivered (back s) = [] ∧ to_come (back s) = [50; 48; 48].
Proof.
  set (d := mkDirection [] [71; 69; 84] true). set (r := mkDirection [50; 48; 48] [] false). exists (mkState d r true). split; [|by split_and!].
  apply (Goes _ _ _ _ (mkState d r false)); [|by apply (Closes _ _ (mkState d r false))].
  apply (Goes _ _ _ _ (mkState (mkDirection [] [71; 69; 84] false) r false)); [|by apply (ForthEnds _ _ (mkState (mkDirection [] [71; 69; 84] false) r false))].
  apply (Goes _ _ _ _ (begins [71; 69; 84] [50; 48; 48])); [apply Begins|by apply (Forth _ _ (begins [71; 69; 84] [50; 48; 48]) 3)].
Qed.

End Pipe.

(** ** The side with the ports *)

Module Edge.

(** *** Which session, which backend *)

(** What comes first of [l] from the cursor on. *)
Definition rotation {A} (cursor : Z) (l : list A) : list A :=
  let start := Z.to_nat (cursor `mod` zlen l) in drop start l ++ take start l.

Section sessions.
(** Sessions by their number, and whether each can carry anything. *)
Context (Usable : nat → bool).

(** [pickSession], with the cursor it leaves. *)
Definition pickSession (cursor : Z) (sessions : list nat) : option nat * Z :=
  match sessions with
  | [] => (None, cursor)
  | _ => (List.find Usable (rotation cursor sessions), cursor + 1)
  end.

Inductive error : Type := NoSession | NoBackend (last : option string).

(** [openFor]; [opens] is whether [openStream] succeeds. *)
Fixpoint first_open (opens : string → bool) (l : list string) (lastErr : option string) : result error string :=
  match l with
  | [] => Err (NoBackend lastErr)
  | t :: l => if opens t then Ok t else first_open opens l (Some t)
  end.

Definition openFor (opens : nat → string → bool) (cursor : Z) (sessions : list nat) (targets : list string) : result error (nat * string) * Z :=
  let (session, cursor) := pickSession cursor sessions in
  match session with
  | None => (Err NoSession, cursor)
  | Some s =>
      (match first_open (opens s) (rotation cursor targets) None with Ok t => Ok (s, t) | Err e => Err e end, cursor + 1)
  end.

Lemma cursor_perm {A} cursor (l : list A) : rotation cursor l ≡ₚ l.
Proof. unfold rotation. rewrite Permutation_app_comm. by rewrite take_drop. Qed.

Lemma first_open_spec opens l e : match first_open opens l e with
  | Ok t => ∃ a b, l = a ++ t :: b ∧ opens t = true ∧ Forall (λ x, opens x = false) a
  | Err _ => Forall (λ x, opens x = false) l
  end.
Proof.
  revert e. induction l as [|t l IH]; intros e; cbn [first_open]; [constructor|]. destruct (opens t) eqn:E; [by exists [], l|].
  specialize (IH (Some t)). destruct (first_open opens l (Some t)); [|by constructor]. destruct IH as (a' & b & -> & H1 & H2).
  exists (t :: a'), b. split; [done|]. split; [done|]. by constructor.
Qed.

Lemma pickSession_spec cursor sessions : match fst (pickSession cursor sessions) with
  | Some s => s ∈ sessions ∧ Usable s = true
  | None => ∀ s, s ∈ sessions → Usable s = false
  end.
Proof.
  unfold pickSession. destruct sessions as [|x l]; [by intros s ?%elem_of_nil|]. cbn [fst].
  destruct (List.find Usable (rotation cursor (x :: l))) as [s|] eqn:E.
  - apply List.find_some in E as [Hs Hu]. split; [|done]. apply list_elem_of_In in Hs. by rewrite cursor_perm in Hs.
  - intros s Hs. rewrite <- (cursor_perm cursor) in Hs. apply list_elem_of_In in Hs. by eapply List.find_none in E.
Qed.

(** *** The sessions that are kept up *)

(** [keepSession]: each of the loops is dialling, up, or waits to dial again. *)
Inductive keeper : Type := Dials | Up (s : nat) | Waits | Stopped.

Record edge : Type := mkEdge { sessions : list nat; count : Z; keepers : list keeper; next : nat }.

Definition addSession (s : nat) (e : edge) : edge := mkEdge (sessions e ++ [s]) (count e + 1) (keepers e) (next e).
Definition removeSession (s : nat) (e : edge) : edge :=
  mkEdge (filter (λ x, x ≠ s) (sessions e)) (if bool_decide (s ∈ sessions e) then count e - 1 else count e) (keepers e) (next e).
Definition become (i : nat) (k : keeper) (e : edge) : edge := mkEdge (sessions e) (count e) (<[i := k]> (keepers e)) (next e).

Inductive keeps : edge → edge → Prop :=
  | Established e i : keepers e !! i = Some Dials →
      keeps e (become i (Up (next e)) (addSession (next e) (mkEdge (sessions e) (count e) (keepers e) (S (next e)))))
  | NotEstablished e i : keepers e !! i = Some Dials → keeps e (become i Waits e)
  | Dropped e i s : keepers e !! i = Some (Up s) → keeps e (become i Waits (removeSession s e))
  | Again e i : keepers e !! i = Some Waits → keeps e (become i Dials e)
  | Ends e i : keepers e !! i ≠ None → keepers e !! i ≠ Some Stopped → (∀ s, keepers e !! i ≠ Some (Up s)) → keeps e (become i Stopped e)
  | EndsUp e i s : keepers e !! i = Some (Up s) → keeps e (become i Stopped (removeSession s e)).

Inductive kept (n : nat) : edge → Prop :=
  | Starts : kept n (mkEdge [] 0 (replicate n Dials) 0)
  | Goes e e' : kept n e → keeps e e' → kept n e'.

Definition ups (l : list keeper) : list nat := omap (λ k, match k with Up s => Some s | _ => None end) l.

Record tracked (n : nat) (e : edge) : Prop := {
  t_sessions : sessions e ≡ₚ ups (keepers e);
  t_once : NoDup (sessions e);
  t_count : count e = zlen (sessions e);
  t_keepers : length (keepers e) = n;
  t_next : Forall (λ s, (s < next e)%nat) (sessions e)
}.

Lemma ups_insert l i k k' : l !! i = Some k → ups (<[i := k']> l) ++ ups [k] ≡ₚ ups l ++ ups [k'].
Proof.
  intros H. rewrite <- (take_drop_middle l i k H) at 2. rewrite insert_take_drop by (by eapply lookup_lt_Some).
  unfold ups. rewrite !omap_app. change (k' :: drop (S i) l) with ([k'] ++ drop (S i) l). change (k :: drop (S i) l) with ([k] ++ drop (S i) l).
  rewrite !omap_app. set (a := omap _ (take i l)). set (b := omap _ (drop (S i) l)). rewrite <- !(assoc_L (++)). f_equiv. rewrite !(comm (++) b _), !(assoc_L (++)). f_equiv. apply (comm (++)).
Qed.

Lemma ups_away l i k' : l !! i ≠ None → (∀ s, l !! i ≠ Some (Up s)) → (∀ s, k' ≠ Up s) → ups (<[i := k']> l) ≡ₚ ups l.
Proof.
  intros Hi Hu Hk. destruct (l !! i) as [k|] eqn:E; [|done]. pose proof (ups_insert l i k k' E) as H.
  assert (ups [k'] = []) as R by (destruct k' as [|s| |]; [done|by destruct (Hk s)|done|done]).
  assert (ups [k] = []) as R' by (destruct k as [|s| |]; [done|by destruct (Hu s)|done|done]).
  by rewrite R, R', !app_nil_r in H.
Qed.

Lemma ups_up l i k s : l !! i = Some k → (∀ s, k ≠ Up s) → ups (<[i := Up s]> l) ≡ₚ s :: ups l.
Proof.
  intros E Hk. pose proof (ups_insert l i k (Up s) E) as H. assert (ups [k] = []) as R by (destruct k as [|x| |]; [done|by destruct (Hk x)|done|done]).
  rewrite R, app_nil_r in H. rewrite H. change (ups [Up s]) with [s]. by rewrite Permutation_app_comm.
Qed.

Lemma ups_down l i s k' : l !! i = Some (Up s) → (∀ s, k' ≠ Up s) → ups l ≡ₚ s :: ups (<[i := k']> l).
Proof.
  intros E Hk. pose proof (ups_insert l i (Up s) k' E) as H. assert (ups [k'] = []) as R by (destruct k' as [|x| |]; [done|by destruct (Hk x)|done|done]).
  rewrite R, app_nil_r in H. rewrite <- H. change (ups [Up s]) with [s]. by rewrite Permutation_app_comm.
Qed.

Lemma removed_tracked n e i s k' : tracked n e → keepers e !! i = Some (Up s) → (∀ s, k' ≠ Up s) → tracked n (become i k' (removeSession s e)).
Proof.
  intros [H1 H2 H3 H4 H5] E Hk. pose proof (ups_down _ _ _ _ E Hk) as Hd. rewrite <- H1 in Hd.
  assert (s ∈ sessions e) as Hs by (rewrite Hd; apply list_elem_of_here).
  assert (filter (λ x, x ≠ s) (sessions e) ≡ₚ ups (<[i := k']> (keepers e))) as Hf.
  { rewrite Hd. rewrite Hd in H2. apply NoDup_cons in H2 as [Hn _]. rewrite (filter_cons_False (λ x, x ≠ s)) by (by intros []).
    clear - Hn. induction (ups (<[i := k']> (keepers e))) as [|x l IH]; [done|]. apply not_elem_of_cons in Hn as [Hx Hn].
    rewrite (filter_cons_True (λ x, x ≠ s)) by done. by rewrite IH. }
  unfold become, removeSession. cbn [sessions count keepers next]. rewrite (bool_decide_eq_true_2 _ Hs). split; cbn [sessions count keepers next].
  - done.
  - by apply NoDup_filter.
  - rewrite H3. unfold zlen. rewrite (Permutation_length Hd), (Permutation_length Hf). cbn [length]. lia.
  - by rewrite length_insert.
  - rewrite Hf. rewrite Hd in H5. by apply Forall_cons in H5 as [_ ?].
Qed.

Lemma same_tracked n e i k' : tracked n e → keepers e !! i ≠ None → (∀ s, keepers e !! i ≠ Some (Up s)) → (∀ s, k' ≠ Up s) → tracked n (become i k' e).
Proof. intros [H1 H2 H3 H4 H5] Hn Hu Hk. split; cbn [become sessions count keepers next]; [by rewrite ups_away|done|done|by rewrite length_insert|done]. Qed.

Lemma kept_tracked n e : kept n e → tracked n e.
Proof.
  induction 1 as [|e e' _ H Hs].
  - split; cbn [sessions count keepers next]; [|constructor|done|by rewrite length_replicate|constructor].
    induction n as [|n IH]; [done|]. cbn [replicate]. exact IH.
  - destruct Hs as [e i E|e i E|e i s E|e i E|e i E1 E2 E3|e i s E].
    + destruct H as [H1 H2 H3 H4 H5]. unfold become, addSession. cbn [sessions count keepers next]. split; cbn [sessions count keepers next].
      * rewrite (ups_up _ _ _ _ E) by done. by rewrite <- H1, Permutation_app_comm.
      * apply NoDup_app. split; [done|]. split; [|by apply NoDup_singleton]. intros x Hx ->%list_elem_of_singleton.
        apply (proj1 (Forall_forall _ _) H5) in Hx. lia.
      * rewrite zlen_app, H3. done.
      * by rewrite length_insert.
      * apply Forall_app. split; [|by constructor; [lia|]]. eapply Forall_impl; [exact H5|]. cbn. lia.
    + apply same_tracked; [done|by rewrite E..|done].
    + by apply removed_tracked.
    + apply same_tracked; [done|by rewrite E..|done].
    + by apply same_tracked.
    + by apply removed_tracked.
Qed.

(** C33: the sessions a connection can get are those that are up, each once and no
    more than were asked for, and the figure that is reported is their number. Of
    them a usable one is chosen whenever there is one, and on it the first of the
    backends, in turn from where the cursor is, that opens, all being tried before
    the connection is refused. *)
Theorem edge_serves n e opens cursor targets (H : kept n e) :
  sessions e ≡ₚ ups (keepers e) ∧ NoDup (sessions e) ∧ count e = zlen (sessions e) ∧ (length (sessions e) ≤ n)%nat ∧
  match fst (openFor opens cursor (sessions e) targets) with
  | Ok (s, t) => s ∈ sessions e ∧ Usable s = true ∧
      ∃ a b, rotation (cursor + 1) targets = a ++ t :: b ∧ opens s t = true ∧ Forall (λ x, opens s x = false) a
  | Err NoSession => ∀ s, s ∈ sessions e → Usable s = false
  | Err (NoBackend _) => ∃ s, s ∈ sessions e ∧ Usable s = true ∧ ∀ t, t ∈ targets → opens s t = false
  end.
Proof.
  apply kept_tracked in H as [H1 H2 H3 H4 _]. split; [done|]. split; [done|]. split; [done|]. split.
  { rewrite (Permutation_length H1), <- H4. clear. unfold ups. induction (keepers e) as [|k l IH]; [done|]. destruct k; cbn in *; lia. }
  unfold openFor. pose proof (pickSession_spec cursor (sessions e)) as Hp.
  destruct (pickSession cursor (sessions e)) as [[s|] c] eqn:Ec; cbn [fst] in *; [|done].
  assert (c = cursor + 1) as -> by (unfold pickSession in Ec; destruct (sessions e); [done|]; by injection Ec as _ <-).
  destruct Hp as [Hs Hu]. pose proof (first_open_spec (opens s) (rotation (cursor + 1) targets) None) as Hf.
  assert (∀ l a, match first_open (opens s) l a with Err NoSession => False | _ => True end) as Hn.
  { intros l. induction l as [|t l IH]; intros a; cbn [first_open]; [done|]. destruct (opens s t); [done|apply IH]. }
  specialize (Hn (rotation (cursor + 1) targets) None). destruct (first_open _ _ _) as [t|[|lasterr]]; [done|done|].
  exists s. split; [done|]. split; [done|]. intros t Ht. rewrite <- (cursor_perm (cursor + 1)) in Ht. by apply (proj1 (Forall_forall _ _) Hf).
Qed.

End sessions.

Definition two_up : edge := mkEdge [0%nat; 1%nat] 2 [Up 0; Up 1] 2.

Lemma two_kept : kept 2 two_up.
Proof.
  apply (Goes _ (mkEdge [0%nat] 1 [Up 0; Dials] 1)).
  - apply (Goes _ (mkEdge [] 0 [Dials; Dials] 0)); [apply Starts|]. exact (Established (mkEdge [] 0 [Dials; Dials] 0) 0 eq_refl).
  - exact (Established (mkEdge [0%nat] 1 [Up 0; Dials] 1) 1 eq_refl).
Qed.

Lemma edge_serves_witness :
  NoDup (sessions two_up) ∧ fst (openFor (λ s, (s =? 1)%nat) (λ _ t, String.eqb t "b:80") 0 (sessions two_up) ["a:80"; "b:80"]) = Ok (1%nat, "b:80").
Proof.
  split; [|vm_compute; reflexivity].
  destruct (edge_serves (λ s, (s =? 1)%nat) 2 two_up (λ _ t, String.eqb t "b:80") 0 ["a:80"; "b:80"] two_kept) as (_ & H & _). exact H.
Defined.

(** The sessions and the backends take turns by one cursor, which a connection
    moves twice: of two sessions the first gets every connection, and of two
    backends the second is the one that is tried first, always. *)
Lemma turns_skip (s0 s1 : nat) (t0 t1 : string) k : 0 ≤ k →
  openFor (λ _, true) (λ _ _, true) (2 * k) [s0; s1] [t0; t1] = (Ok (s0, t1), 2 * (k + 1)).
Proof.
  intros Hk. unfold openFor, pickSession, rotation. change (zlen [s0; s1]) with 2. change (zlen [t0; t1]) with 2.
  assert ((2 * k) `mod` 2 = 0) as -> by (rewrite Z.mul_comm; apply Z.mod_mul; lia). cbn [Z.to_nat drop take app List.find].
  assert ((2 * k + 1) `mod` 2 = 1) as -> by (rewrite Z.add_comm, Z.mul_comm, Z.mod_add by lia; done). cbn [Z.to_nat Pos.to_nat Pos.iter_op Nat.add drop take app first_open].
  f_equal. lia.
Qed.

End Edge.
