(* ===== verification/Backup.v ===== *)
(** Backups of the configuration ([internal/manage/backup]):
    - Module [Names]: the names of an archive as paths ([restore.go]);
    - Module [Tree]: the configuration directory;
    - Module [Restore]: an archive laid over it, and put in its place
      ([restore.go], [backup.go]);
    - Module [Write]: the archive of a directory ([backup.go]);
    - Module [Keep]: which archives are kept ([backup.go]).

    An archive is what a tar reader makes of it: its entries, then its end or what
    was wrong with it. Contents are of a type of their own, with a size. Reading
    what is there and the space on the disk do not fail; a process writes the modes
    it asks for. *)

From Stdlib Require Import Ascii String.
From stdpp Require Import gmap strings sorting.
From S2P Require Import Prelude GoStr GoSort.
Import GoStr.
Open Scope string_scope.
Open Scope list_scope.
Open Scope Z_scope.

Module Names.

(** [filepath.Clean] of a relative path, to its elements; [.] is none. *)
Fixpoint clean (out l : list string) : list string :=
  match l with
  | [] => rev out
  | e :: l =>
      if String.eqb e "" || String.eqb e "." then clean out l
      else if String.eqb e ".." then
        match out with
        | x :: out' => if String.eqb x ".." then clean (".." :: out) l else clean out' l
        | [] => clean [".."] l
        end
      else clean (e :: out) l
  end.

Definition Clean (s : string) : list string := clean [] (Split s "/").

Definition nul : ascii := "000".

(** [safeRestoreName]: the elements of the path. *)
Definition safeRestoreName (name : string) : option (list string) :=
  if String.eqb name "" || contains_char "\" name || contains_char nul name then None
  else if HasPrefix name "/" then None
  else
    let l := Clean name in
    if bool_decide (l = []) || bool_decide (".." ∈ l) then None else Some l.

(** An element that is a name in a directory. *)
Definition element (e : string) : Prop := e ≠ "" ∧ e ≠ "." ∧ e ≠ ".." ∧ free "/" e ∧ free "\" e ∧ free nul e.

(** [filepath.Base], [filepath.Dir] and [filepath.Ext] of a clean path. *)
Definition Base (s : string) : string := match cut_last s "/" with Some (_, b) => b | None => s end.
Definition Dir (s : string) : string := match cut_last s "/" with Some (d, _) => d | None => "." end.
Definition Ext (s : string) : string := match cut_last (Base s) "." with Some (_, e) => "." +:+ e | None => "" end.

Definition ConfigDir : string := "/etc/backpack".
Definition TunnelConfigMode : Z := 384.

Definition isTunnelConfigPath (target : string) : bool :=
  if negb (String.eqb (Ext target) ".toml") then false
  else Contains target ("/" +:+ Base ConfigDir +:+ "/") || String.eqb (Base (Dir target)) (Base ConfigDir).

Definition restoredMode (target : string) (archived : Z) : Z :=
  if isTunnelConfigPath target then TunnelConfigMode else if archived =? 0 then 384 else archived.

(** *** Lemmas *)

Lemma clean_elements out l : Forall (λ e, e ≠ "" ∧ e ≠ "." ∧ free "/" e) out → Forall (free "/") l →
  Forall (λ e, e ≠ "" ∧ e ≠ "." ∧ free "/" e) (clean out l).
Proof.
  revert out. induction l as [|e l IH]; intros out Ho Hl; cbn [clean]; [by apply Forall_rev|]. apply Forall_cons in Hl as [He Hl].
  destruct (String.eqb_spec e ""); [by apply IH|]. destruct (String.eqb_spec e "."); [by apply IH|]. cbn [orb].
  destruct (String.eqb_spec e "..") as [->|].
  - destruct out as [|x out']; [apply IH; [|done]; by repeat constructor|]. apply Forall_cons in Ho as [Hx Ho].
    destruct (String.eqb x ".."); apply IH; try done. constructor; [done|by constructor].
  - apply IH; [|done]. by constructor.
Qed.

Lemma clean_id l : Forall element l → ∀ out, clean out l = rev out ++ l.
Proof.
  induction 1 as [|e l (H1 & H2 & H3 & _) _ IH]; intros out; cbn [clean]; [by rewrite app_nil_r|].
  apply String.eqb_neq in H1, H2, H3. rewrite H1, H2, H3. cbn [orb]. rewrite IH. cbn [rev]. by rewrite <- app_assoc.
Qed.

Lemma free_parts c s d : free d s → Forall (free d) (Split s c).
Proof.
  intros H. rewrite <- (Join_Split s c) in H. induction (Split s c) as [|x l IH]; [done|]. destruct l as [|y l]; [by repeat constructor|].
  change (free d (x +:+ String c (Join (y :: l) (String c "")))) in H. apply free_app in H as [Hx H]. constructor; [done|]. apply IH.
  unfold free in H. by apply all_chars_cons in H as [_ H].
Qed.

Lemma clean_parts (P : string → Prop) l : P ".." → Forall P l → ∀ out, Forall P out → Forall P (clean out l).
Proof.
  intros Hp. induction 1 as [|e l He _ IH]; intros out Ho; cbn [clean]; [by apply Forall_rev|].
  destruct (String.eqb e "" || String.eqb e "."); [by apply IH|]. destruct (String.eqb e "..").
  - destruct out as [|x out']; [apply IH; by repeat constructor|]. destruct (String.eqb x ".."); apply IH; [by constructor|by apply Forall_cons in Ho as [_ ?]].
  - apply IH. by constructor.
Qed.

(** What is let in names something below the directory. *)
Lemma safe_elements name l : safeRestoreName name = Some l → l ≠ [] ∧ Forall element l.
Proof.
  unfold safeRestoreName. destruct (String.eqb name ""); [done|]. destruct (contains_char "\" name) eqn:Eb; [done|]. destruct (contains_char nul name) eqn:En; [done|].
  cbn [orb]. destruct (HasPrefix name "/"); [done|]. case_bool_decide as H1; [done|]. case_bool_decide as H2; [done|]. cbn [orb]. intros [= <-]. split; [done|].
  apply contains_free in Eb, En. unfold Clean in *.
  pose proof (clean_elements [] (Split name "/") ltac:(constructor) (Split_parts "/" name)) as HA.
  pose proof (clean_parts (free "\") (Split name "/") ltac:(by repeat constructor) (free_parts _ _ _ Eb) [] ltac:(constructor)) as HB.
  pose proof (clean_parts (free nul) (Split name "/") ltac:(by repeat constructor) (free_parts _ _ _ En) [] ltac:(constructor)) as HC.
  apply Forall_forall. intros e He. destruct (proj1 (Forall_forall _ _) HA e He) as (A1 & A2 & A3).
  split_and!; [done|done| |done|by apply (proj1 (Forall_forall _ _) HB)|by apply (proj1 (Forall_forall _ _) HC)]. intros ->. done.
Qed.

Lemma free_Join c l : Forall (free c) l → free c "/" → free c (Join l "/").
Proof.
  intros H Hs. induction H as [|x l Hx Hl IH]; [constructor|]. destruct l as [|y l]; [done|]. change (free c (x +:+ "/" +:+ Join (y :: l) "/")).
  apply free_app. split; [done|]. apply free_app. by split.
Qed.

(** A path that is written down is read as that path, with a slash behind it too. *)
Lemma safe_Join l : l ≠ [] → Forall element l → safeRestoreName (Join l "/") = Some l ∧ safeRestoreName (Join l "/" +:+ "/") = Some l.
Proof.
  intros Hn Hl. assert (Forall (free "/") l) as Hf by (eapply Forall_impl; [exact Hl|]; intros e (_ & _ & _ & ? & _); done).
  assert (free "\" (Join l "/")) as Hb by (apply free_Join; [eapply Forall_impl; [exact Hl|]; intros e (_ & _ & _ & _ & ? & _); done|by repeat constructor]).
  assert (free nul (Join l "/")) as Hu by (apply free_Join; [eapply Forall_impl; [exact Hl|]; intros e (_ & _ & _ & _ & _ & ?); done|by repeat constructor]).
  assert (∃ c s, Join l "/" = String c s ∧ c ≠ "/"%char) as (c & s & Ec & Hc).
  { destruct l as [|x l]; [done|]. apply Forall_cons in Hl as [(Hx & _ & _ & Hx' & _) _]. destruct x as [|c s]; [done|]. apply all_chars_cons in Hx' as [Hx' _].
    assert (c ≠ "/"%char) by (intros ->; done). destruct l as [|y l]; [by exists c, s|]. exists c, (s +:+ "/" +:+ Join (y :: l) "/"). done. }
  assert (∀ t, HasPrefix (Join l "/" +:+ t) "/" = false ∧ String.eqb (Join l "/" +:+ t) "" = false) as Hp.
  { intros t. rewrite Ec. split; [|done]. unfold HasPrefix. cbn [strip_prefix append]. destruct (Ascii.eqb_spec "/" c) as [<-|]; [done|]. done. }
  assert (Split (Join l "/") "/" = l) as Hs by (by apply Split_Join).
  assert (Split (Join l "/" +:+ "/") "/" = l ++ [""]) as Hs'.
  { clear - Hf Hn. induction Hf as [|x l Hx Hl IH]; [done|]. destruct l as [|y l].
    - change (Join [x] "/" +:+ "/") with (x +:+ String "/" ""). by rewrite Split_app.
    - change (Join (x :: y :: l) "/" +:+ "/") with ((x +:+ "/" +:+ Join (y :: l) "/") +:+ "/"). rewrite !append_assoc.
      change (x +:+ "/" +:+ Join (y :: l) "/" +:+ "/") with (x +:+ String "/" (Join (y :: l) "/" +:+ "/")). rewrite Split_app by done. by rewrite IH. }
  assert (bool_decide (l = []) = false ∧ bool_decide (".." ∈ l) = false) as [HA HB].
  { split; apply bool_decide_eq_false_2; [done|]. intros Hi. apply (proj1 (Forall_forall _ _) Hl) in Hi as (_ & _ & ? & _). done. }
  unfold safeRestoreName, Clean. split.
  - destruct (Hp "") as [Hp1 Hp2]. rewrite append_nil_r in Hp1, Hp2. rewrite Hp1, Hp2, (proj2 (contains_free _ _) Hb), (proj2 (contains_free _ _) Hu), Hs, clean_id by done.
    cbn [rev app orb]. by rewrite HA, HB.
  - destruct (Hp "/") as [Hp1 Hp2]. rewrite Hp1, Hp2.
    assert (contains_char "\" (Join l "/" +:+ "/") = false) as -> by (apply contains_free, free_app; split; [done|by repeat constructor]).
    assert (contains_char nul (Join l "/" +:+ "/") = false) as -> by (apply contains_free, free_app; split; [done|by repeat constructor]). rewrite Hs'.
    assert (clean [] (l ++ [""]) = l) as ->.
    { clear - Hl. enough (∀ out, clean out (l ++ [""]) = rev out ++ l) as -> by done. induction Hl as [|e l (H1 & H2 & H3 & _) _ IH]; intros out; cbn [app clean]; [by rewrite app_nil_r|].
      apply String.eqb_neq in H1, H2, H3. rewrite H1, H2, H3. cbn [orb]. rewrite IH. cbn [rev]. by rewrite <- app_assoc. }
    cbn [orb]. by rewrite HA, HB.
Qed.

End Names.

(** ** The configuration directory *)

Module Tree.

Notation path := (list string).

Section tree.
Context {B : Type}.

Inductive node : Type := Directory (mode : Z) | File (b : B) (mode : Z) | Special.

(** [os.MkdirAll]: every directory on the way that is not there is made. *)
Fixpoint mkdir_from (here rest : path) (mode : Z) (t : gmap path node) : option (gmap path node) :=
  match rest with
  | [] => Some t
  | e :: rest =>
      let p := here ++ [e] in
      match t !! p with
      | Some (Directory _) => mkdir_from p rest mode t
      | Some _ => None
      | None => mkdir_from p rest mode (<[p := Directory mode]> t)
      end
  end.

Definition MkdirAll (p : path) (mode : Z) (t : gmap path node) : option (gmap path node) := mkdir_from [] p mode t.

(** A file that is created or truncated, filled and given its mode. *)
Definition write_file (p : path) (b : B) (mode : Z) (t : gmap path node) : option (gmap path node) :=
  match t !! p with Some (Directory _) | Some Special => None | _ => Some (<[p := File b mode]> t) end.

End tree.
Arguments node : clear implicits.
Notation tree B := (gmap (list string) (node B)).

End Tree.

(** ** An archive laid over the directory *)

Module Restore.
Import Names Tree.

Definition maxRestoreEntries : Z := 10000.
Definition maxRestoreFileBytes : Z := 64 * 2^20.
Definition maxRestoreBytes : Z := 256 * 2^20.
Definition backupMetaName : string := ".backpack-backup.json".
Definition fleetKeyName : string := "node.key".
Definition installPath : path := ["install_path"].
Definition webUIConfig : string := "webui.json".
Definition telegramConfig : string := "telegram.json".

Section restore.
(** Contents, and what the sidecar says of the schedule, unless it is damaged. *)
Context {B : Type} (size : B → Z) (sidecar : B → option Z).

Inductive kind : Type := TypeDir | TypeReg | TypeOther.
Record entry : Type := mkEntry { Name : string; Typeflag : kind; Mode : Z; Data : B }.

(** The entries and whether the archive ended well: the tar stream read to its
    end, and the compressed one to its checksum. *)
Record archive : Type := mkArchive { Entries : list entry; tar_ok : bool; gzip_ok : bool }.

Inductive error : Type :=
  | NotRegular | BrokenArchive | UnsafePath (name : string) | Twice (name : string) | TooMany | TooLarge (p : path) | TooMuch
  | NoDirectory (p : path) | NotWritable (p : path) | NotAFile (name : string) | Corrupt
  | NotMoved | LeftAsItWas | PreviousAside.

Record restoreContents : Type := mkContents {
  Files : Z;
  WebUIConfig : bool;
  TelegramConfig : bool;
  SawTunnelConfig : bool;
  AutoRefreshHours : Z;
  Warnings : nat
}.

Definition noteRestoredFile (c : restoreContents) (name : path) : restoreContents :=
  let base := List.last name "" in
  if String.eqb base webUIConfig then mkContents (Files c) true (TelegramConfig c) (SawTunnelConfig c) (AutoRefreshHours c) (Warnings c)
  else if String.eqb base telegramConfig then mkContents (Files c) (WebUIConfig c) true (SawTunnelConfig c) (AutoRefreshHours c) (Warnings c)
  else if HasSuffix base ".toml" then mkContents (Files c) (WebUIConfig c) (TelegramConfig c) true (AutoRefreshHours c) (Warnings c)
  else c.

Definition one_more (c : restoreContents) : restoreContents :=
  mkContents (Files c + 1) (WebUIConfig c) (TelegramConfig c) (SawTunnelConfig c) (AutoRefreshHours c) (Warnings c).

Definition read_sidecar (b : B) (c : restoreContents) : restoreContents :=
  match sidecar b with
  | Some h => mkContents (Files c) (WebUIConfig c) (TelegramConfig c) (SawTunnelConfig c) h (Warnings c)
  | None => mkContents (Files c) (WebUIConfig c) (TelegramConfig c) (SawTunnelConfig c) (AutoRefreshHours c) (S (Warnings c))
  end.

Definition ordinary (n : node B) : bool := match n with Special => false | _ => true end.

(** [seedStage]: a copy, of which there is none of what is neither a file nor a
    directory. *)
Definition seedStage (live : tree B) : result error (tree B) :=
  if bool_decide (map_Forall (λ _ n, ordinary n = true) live) then Ok live else Err NotRegular.

(** [stage] is where the tree is built, as a path of the machine. *)
Definition writeStagedFile (stage : string) (p : path) (e : entry) (t : tree B) : result error (tree B) :=
  match MkdirAll (removelast p) 493 t with
  | None => Err (NoDirectory p)
  | Some t =>
      match write_file p (Data e) (restoredMode (stage +:+ "/" +:+ Join p "/") (Z.land (Mode e) 511)) t with
      | Some t => Ok t
      | None => Err (NotWritable p)
      end
  end.

Record staging : Type := mkStaging { staged : tree B; contents : restoreContents; seen : list path; total : Z }.

(** One entry of the archive; [live] is the directory as it is. *)
Definition stage_entry (live : tree B) (stage : string) (e : entry) (s : staging) : result error staging :=
  if String.eqb (Name e) backupMetaName then Ok (mkStaging (staged s) (read_sidecar (Data e) (contents s)) (seen s) (total s))
  else match safeRestoreName (Name e) with
  | None => Err (UnsafePath (Name e))
  | Some p =>
      if bool_decide (p ∈ seen s) then Err (Twice (Name e))
      else
        let s := mkStaging (staged s) (contents s) (p :: seen s) (total s) in
        if maxRestoreEntries <? zlen (seen s) then Err TooMany
        else if bool_decide (p = installPath) && bool_decide (is_Some (live !! installPath)) then Ok s
        else match Typeflag e with
        | TypeDir =>
            match MkdirAll p 493 (staged s) with
            | Some t => Ok (mkStaging t (contents s) (seen s) (total s))
            | None => Err (NoDirectory p)
            end
        | TypeReg =>
            if maxRestoreFileBytes <? size (Data e) then Err (TooLarge p)
            else
              let total := total s + size (Data e) in
              if maxRestoreBytes <? total then Err TooMuch
              else match writeStagedFile stage p e (staged s) with
              | Ok t => Ok (mkStaging t (noteRestoredFile (one_more (contents s)) p) (seen s) total)
              | Err x => Err x
              end
        | TypeOther => Err (NotAFile (Name e))
        end
  end.

Fixpoint stage_entries (live : tree B) (stage : string) (l : list entry) (s : staging) : result error staging :=
  match l with
  | [] => Ok s
  | e :: l => match stage_entry live stage e s with Ok s => stage_entries live stage l s | Err x => Err x end
  end.

Definition stageRestore (a : archive) (live : tree B) (stage : string) : result error (tree B * restoreContents) :=
  match seedStage live with
  | Err x => Err x
  | Ok t =>
      match stage_entries live stage (Entries a) (mkStaging t (mkContents 0 false false false 0 0) [] 0) with
      | Err x => Err x
      | Ok s => if negb (tar_ok a) then Err BrokenArchive else if negb (gzip_ok a) then Err Corrupt else Ok (staged s, contents s)
      end
  end.

(** [commitRestore]: the directory, and what was moved aside. The renames are
    that of the live directory, that of the new one, and the one that takes the
    first back. *)
Definition commitRestore (aside place back : bool) (live staged : tree B) : option (tree B) * option (tree B) * result error unit :=
  if negb aside then (Some live, None, Err NotMoved)
  else if place then (Some staged, None, Ok tt)
  else if back then (Some live, None, Err LeftAsItWas) else (None, Some live, Err PreviousAside).

(** [Restore], up to the services. *)
Definition put (a : archive) (stage : string) (aside place back : bool) (live : tree B) : option (tree B) * option (tree B) * result error restoreContents :=
  match stageRestore a live stage with
  | Err x => (Some live, None, Err x)
  | Ok (t, c) =>
      let '(l, p, r) := commitRestore aside place back live t in
      (l, p, match r with Ok _ => Ok c | Err x => Err x end)
  end.

(** The services of the tunnels that are there afterwards: those whose unit, start
    and restart succeed were started, the others failed. *)
Definition services (saw : bool) (tunnels : list string) (unit_ok start_ok restart_ok : string → bool) : list string * Z * Z :=
  if negb saw then ([], 0, 0)
  else
    let good t := unit_ok t && start_ok t && restart_ok t in
    (tunnels, zlen (List.filter good tunnels), zlen (List.filter (λ t, negb (good t)) tunnels)).

End restore.
Arguments entry : clear implicits.
Arguments archive : clear implicits.

End Restore.

(** ** The archive of a directory *)

Module Write.
Import Names Tree Restore.

(** The order of [filepath.Walk]: by name in each directory, a directory before
    what is in it. *)
Fixpoint path_leb (a b : path) : bool :=
  match a, b with
  | [], _ => true
  | _ :: _, [] => false
  | x :: a, y :: b => if String.eqb x y then path_leb a b else String.ltb x y
  end.

Section write.
Context {B : Type}.

Definition before (a b : path * node B) : Prop := path_leb (fst a) (fst b) = true.

#[local] Instance before_dec : RelDecision before.
Proof. intros a b. apply bool_eq_dec. Defined.

Definition walk (root : tree B) : list (path * node B) := merge_sort before (map_to_list root).

(** An entry; [none] is the contents of a directory's. *)
Definition entry_of (none : B) (x : path * node B) : option (entry B) :=
  match x with
  | (p, Directory m) => Some (mkEntry (Join p "/" +:+ "/") TypeDir m none)
  | (p, File b m) => Some (mkEntry (Join p "/") TypeReg m b)
  | (_, Special) => None
  end.

(** [writeBackupEntries]: the sidecar and everything but the key of the fleet. *)
Definition writeBackupEntries (none meta : B) (root : tree B) : option (list (entry B)) :=
  entries ← mapM (entry_of none) (filter (λ x, fst x ≠ [fleetKeyName]) (walk root));
  Some (mkEntry backupMetaName TypeReg 384 meta :: entries).

End write.

End Write.

(** ** Which archives are kept *)

Module Keep.

Definition backupRetention : nat := 10.

(** The second archive of a second has a number behind its name. *)
Definition backup_name (stamp : string) (n : Z) : string :=
  if n =? 0 then "backpack-backup-" +:+ stamp +:+ ".tar.gz" else "backpack-backup-" +:+ stamp +:+ "-" +:+ Itoa n +:+ ".tar.gz".

Fixpoint free_name (fuel : nat) (n : Z) (stamp : string) (there : string → bool) : option string :=
  match fuel with
  | O => None
  | S fuel => if there (backup_name stamp n) then free_name fuel (n + 1) stamp there else Some (backup_name stamp n)
  end.

Definition freeBackupPath (stamp : string) (there : string → bool) : option string := free_name 100 0 stamp there.

(** [pruneBackups]: the archives that are removed. *)
Definition pruneBackups (names : list string) : list string :=
  if (length names <=? backupRetention)%nat then [] else drop backupRetention (rev (GoSort.Strings names)).

Definition partialAge : Z := 3600.

(** [sweepPartials]: the unfinished ones, with the time each was last written. *)
Definition sweepPartials (now : Z) (l : list (string * Z)) : list string :=
  map fst (List.filter (λ f : string * Z, partialAge <=? now - snd f) l).

(** What is kept is ten of them at most, and none of it older by its name than one
    that is removed. *)
Lemma pruned names : let gone := pruneBackups names in
  ∃ kept, kept ++ gone ≡ₚ names ∧ (length kept ≤ backupRetention)%nat ∧ ∀ k g, k ∈ kept → g ∈ gone → GoSort.str_le g k.
Proof.
  cbv zeta. unfold pruneBackups. destruct (Nat.leb_spec (length names) backupRetention).
  - exists names. rewrite app_nil_r. split; [done|]. split; [done|]. by intros k g _ ?%elem_of_nil.
  - exists (take backupRetention (rev (GoSort.Strings names))). rewrite take_drop. split; [rewrite <- Permutation_rev; apply GoSort.Strings_Permutation|].
    split; [rewrite length_take; lia|]. intros k g Hk Hg. pose proof (GoSort.Strings_sorted names) as Hs.
    rewrite <- (rev_involutive (GoSort.Strings names)), <- (take_drop backupRetention (rev (GoSort.Strings names))), rev_app_distr in Hs.
    apply list_elem_of_In, in_rev, list_elem_of_In in Hk, Hg. revert Hs. generalize (rev (drop backupRetention (rev (GoSort.Strings names)))) (rev (take backupRetention (rev (GoSort.Strings names)))) Hk Hg.
    clear. intros a b Hk Hg Hs. induction a as [|x a IH]; [by apply elem_of_nil in Hg|]. cbn in Hs. apply StronglySorted_inv in Hs as [Hs Hx].
    apply elem_of_cons in Hg as [->|Hg]; [|by apply IH]. apply (proj1 (Forall_forall _ _) Hx). apply elem_of_app. by right.
Qed.

(** Of two archives of one second the first counts as the newer. *)
Lemma suffix_sorts_before : GoSort.str_ltb (backup_name "20250101-000000" 1) (backup_name "20250101-000000" 0) = true ∧
  GoSort.str_ltb (backup_name "20250101-000000" 10) (backup_name "20250101-000000" 9) = true.
Proof. by vm_compute. Qed.

(** Of eleven archives, two of one second and nine later, the later of the two is
    the one that goes. *)
Lemma newer_of_a_second_goes :
  let later := map (λ d : string, backup_name ("2025010" +:+ d +:+ "-000000") 0) ["1"; "2"; "3"; "4"; "5"; "6"; "7"; "8"; "9"] in
  pruneBackups (backup_name "20241231-000000" 0 :: backup_name "20241231-000000" 1 :: later) = [backup_name "20241231-000000" 1].
Proof. by vm_compute. Qed.

(** What [filepath.Glob] makes of the directory. *)
Definition is_backup (name : string) : bool := HasPrefix name "backpack-backup-" && HasSuffix name ".tar.gz".

(** [publishBackup]: what is in the directory afterwards and the name of the
    archive. The steps that can fail are the mode of the unfinished file, what is
    written to it, that it reaches the disk, its end and its name. *)
Definition publishBackup {A} (stamp : string) (chmod : bool) (written : option A) (sync close rename : bool) (d : gmap string A) : gmap string A * option string :=
  match written with
  | Some a =>
      if negb (chmod && sync && close) then (d, None)
      else match freeBackupPath stamp (λ n, bool_decide (is_Some (d !! n))) with
      | None => (d, None)
      | Some n =>
          if negb rename then (d, None)
          else
            let d := <[n := a]> d in
            (foldr delete d (pruneBackups (List.filter is_backup (map fst (map_to_list d)))), Some n)
      end
  | None => (d, None)
  end.

Lemma free_unused fuel n stamp there name : free_name fuel n stamp there = Some name → there name = false.
Proof. revert n. induction fuel as [|fuel IH]; intros n H; cbn in H; [done|]. destruct (there (backup_name stamp n)) eqn:E; [by eapply IH|by injection H as <-]. Qed.

Lemma lookup_removed {A} (d : gmap string A) l n : foldr delete d l !! n = if bool_decide (n ∈ l) then None else d !! n.
Proof.
  induction l as [|x l IH]; [done|]. cbn [foldr]. destruct (decide (n = x)) as [->|Hn].
  - rewrite lookup_delete_eq, bool_decide_eq_true_2; [done|]. by left.
  - rewrite lookup_delete_ne, IH by done. by rewrite (bool_decide_ext (n ∈ x :: l) (n ∈ l)) by (rewrite elem_of_cons; tauto).
Qed.

(** An archive under its name is a whole one: what is not finished changes
    nothing, and what is has a name nothing had. *)
Lemma published {A} stamp chmod (written : option A) sync close rename d :
  let '(d', r) := publishBackup stamp chmod written sync close rename d in
  match r with
  | None => d' = d
  | Some n => ∃ a, written = Some a ∧ d !! n = None ∧ ∀ k, d' !! k = None ∨ d' !! k = if bool_decide (k = n) then Some a else d !! k
  end.
Proof.
  unfold publishBackup. destruct written as [a|]; [|done]. destruct (negb _); [done|]. destruct (freeBackupPath _ _) as [n|] eqn:E; [|done]. destruct (negb rename); [done|].
  exists a. split; [done|]. apply free_unused, bool_decide_eq_false, eq_None_not_Some in E. split; [done|]. intros k. rewrite lookup_removed. destruct (bool_decide (k ∈ _)); [by left|]. right.
  case_bool_decide as Hk; [subst; by rewrite lookup_insert_eq|by rewrite lookup_insert_ne by done].
Qed.

End Keep.

(** ** What a restore leaves *)

Module Sound.
Import Names Tree Restore Write.

Section tree.
Context {B : Type}.
Implicit Types (t : tree B) (p q : path).

Lemma mkdir_keeps here rest m t t' : mkdir_from here rest m t = Some t' → ∀ q n, t !! q = Some n → t' !! q = Some n.
Proof.
  revert here t. induction rest as [|e rest IH]; intros here t H q n Hq; cbn in H; [by injection H as <-|].
  destruct (t !! (here ++ [e])) as [[]|] eqn:E; try done; [exact (IH _ _ H q n Hq)|]. apply (IH _ _ H). rewrite lookup_insert_ne; [done|]. intros <-. by rewrite E in Hq.
Qed.

(** What is made is a directory on the way. *)
Lemma mkdir_makes here rest m t t' : mkdir_from here rest m t = Some t' → ∀ q, t !! q = None →
  t' !! q = None ∨ t' !! q = Some (Directory m) ∧ ∃ k, q = here ++ k ∧ k ≠ [] ∧ k `prefix_of` rest.
Proof.
  revert here t. induction rest as [|e rest IH]; intros here t H q Hq; cbn in H; [injection H as <-; by left|].
  assert (∀ t0, mkdir_from (here ++ [e]) rest m t0 = Some t' → t0 !! q = None →
    t' !! q = None ∨ t' !! q = Some (Directory m) ∧ ∃ k, q = here ++ k ∧ k ≠ [] ∧ k `prefix_of` e :: rest) as HA.
  { intros t0 H0 H1. destruct (IH _ _ H0 q H1) as [?|(? & k & -> & _ & Hp)]; [by left|]. right. split; [done|]. exists (e :: k). rewrite <- app_assoc. split; [done|].
    split; [done|]. by apply prefix_cons. }
  destruct (t !! (here ++ [e])) as [[]|] eqn:E; try done; [by apply (HA t)|].
  destruct (decide (q = here ++ [e])) as [->|Hn]; [|apply (HA _ H); by rewrite lookup_insert_ne].
  right. split; [eapply (mkdir_keeps _ _ _ _ _ H); by rewrite lookup_insert_eq|]. exists [e]. split; [done|]. split; [done|]. by exists rest.
Qed.

Lemma mkdir_there here rest m t t' : mkdir_from here rest m t = Some t' → rest ≠ [] → ∃ m', t' !! (here ++ rest) = Some (Directory m').
Proof.
  revert here t. induction rest as [|e rest IH]; intros here t H Hn; [done|]. cbn in H.
  assert (∀ t0 m0, t0 !! (here ++ [e]) = Some (Directory m0) → mkdir_from (here ++ [e]) rest m t0 = Some t' → ∃ m', t' !! (here ++ e :: rest) = Some (Directory m')) as HA.
  { intros t0 m0 H0 H1. destruct (decide (rest = [])) as [->|Hr]; [injection H1 as <-; by exists m0|].
    replace (here ++ e :: rest) with ((here ++ [e]) ++ rest) by (by rewrite <- app_assoc). by eapply IH. }
  destruct (t !! (here ++ [e])) as [[m0| |]|] eqn:E; try done; [by eapply HA|]. eapply HA; [|exact H]. by rewrite lookup_insert_eq.
Qed.

(** Nothing but directories on the way is enough. *)
Lemma mkdir_ok here rest m t : (∀ k n, k ≠ [] → k `prefix_of` rest → t !! (here ++ k) = Some n → ∃ m', n = Directory m') → is_Some (mkdir_from here rest m t).
Proof.
  revert here t. induction rest as [|e rest IH]; intros here t H; cbn; [done|].
  assert (∀ k, k `prefix_of` rest → (here ++ [e]) ++ k = here ++ e :: k ∧ e :: k `prefix_of` e :: rest) as Hk by (intros k ?; rewrite <- app_assoc; split; [done|by apply prefix_cons]).
  destruct (t !! (here ++ [e])) as [n|] eqn:E.
  - destruct (H [e] n ltac:(done) ltac:(by exists rest) E) as [m' ->]. apply IH. intros k n Hn Hp. destruct (Hk k Hp) as [-> ?]. by apply H.
  - apply IH. intros k n Hn Hp. destruct (Hk k Hp) as [-> ?]. destruct k as [|y k]; [done|]. rewrite lookup_insert_ne; [by apply H|]. intros He%app_inv_head. done.
Qed.

Lemma MkdirAll_keeps p m t t' : MkdirAll p m t = Some t' → ∀ q n, t !! q = Some n → t' !! q = Some n.
Proof. apply mkdir_keeps. Qed.

Lemma MkdirAll_makes p m t t' : MkdirAll p m t = Some t' → ∀ q, t !! q = None → t' !! q = None ∨ t' !! q = Some (Directory m) ∧ q ≠ [] ∧ q `prefix_of` p.
Proof. intros H q Hq. destruct (mkdir_makes _ _ _ _ _ H q Hq) as [?|(? & k & -> & ? & ?)]; [by left|by right]. Qed.

End tree.

Section staging.
Context {B : Type} (size : B → Z) (sidecar : B → option Z).
Implicit Types (t live : tree B) (p q : path) (e : entry B).

(** An entry that names a path of the directory. *)
Definition names e p : Prop := Name e ≠ backupMetaName ∧ safeRestoreName (Name e) = Some p.

Definition restored (stage : string) (p : path) e : node B := File (Data e) (restoredMode (stage +:+ "/" +:+ Join p "/") (Z.land (Mode e) 511)).

Lemma staged_file stage p e t t' : writeStagedFile stage p e t = Ok t' → ∃ t1, MkdirAll (removelast p) 493 t = Some t1 ∧ t' = <[p := restored stage p e]> t1.
Proof.
  unfold writeStagedFile. destruct (MkdirAll _ _ t) as [t1|]; [|done]. unfold write_file. fold (restored stage p e). intros H. exists t1. split; [done|].
  destruct (t1 !! p) as [[]|]; by try injection H as <-.
Qed.

(** What one entry does. *)
Inductive did (live : tree B) (stage : string) e (p : path) (t : tree B) : tree B → Prop :=
  | did_skip : p = installPath → is_Some (live !! installPath) → did live stage e p t t
  | did_dir t' : Typeflag e = TypeDir → MkdirAll p 493 t = Some t' → did live stage e p t t'
  | did_file t' : Typeflag e = TypeReg → ¬ (p = installPath ∧ is_Some (live !! installPath)) → MkdirAll (removelast p) 493 t = Some t' →
      did live stage e p t (<[p := restored stage p e]> t').

Lemma entry_did live stage e s s' : stage_entry size sidecar live stage e s = Ok s' →
  (Name e = backupMetaName ∧ staged s' = staged s ∧ seen s' = seen s) ∨
  ∃ p, names e p ∧ p ∉ seen s ∧ seen s' = p :: seen s ∧ did live stage e p (staged s) (staged s').
Proof.
  unfold stage_entry. destruct (String.eqb_spec (Name e) backupMetaName) as [|Hn]; [intros [= <-]; by left|].
  destruct (safeRestoreName (Name e)) as [p|] eqn:En; [|done]. case_bool_decide as Hs; [done|]. intros H. right. exists p. split; [done|]. split; [done|].
  cbv zeta in H. cbn [seen staged contents total] in H. destruct (_ <? _) in H; [done|].
  case_bool_decide as H1; cbn [andb] in H; [case_bool_decide as H2|].
  { injection H as <-. split; [done|]. by apply did_skip. }
  all: destruct (Typeflag e) eqn:Et in H; [destruct (MkdirAll p 493 (staged s)) as [t|] eqn:Em; [|done]; injection H as <-; split; [done|]; by apply did_dir| |done].
  all: destruct (_ <? _) in H; [done|]; destruct (_ <? _) in H; [done|]; destruct (writeStagedFile _ _ _ _) as [t|] eqn:Ew; [|done]; injection H as <-; split; [done|];
    apply staged_file in Ew as (t1 & Hm & ->); apply did_file; [done| |done]; intros [? ?]; done.
Qed.

Lemma did_keeps live stage e p t t' : did live stage e p t t' → ∀ q n, q ≠ p → t !! q = Some n → t' !! q = Some n.
Proof.
  intros [|? ? H|? ? ? H] q n Hq Hn; [done|by eapply MkdirAll_keeps|]. rewrite lookup_insert_ne by done. by eapply MkdirAll_keeps.
Qed.

Lemma prefix_removelast q p : q `prefix_of` removelast p → q `prefix_of` p.
Proof.
  intros H. destruct p as [|x p _] using rev_ind; [done|]. rewrite removelast_last in H. by apply prefix_app_r.
Qed.

Lemma did_makes live stage e p t t' : did live stage e p t t' → p ≠ [] → ∀ q n, t !! q = None → t' !! q = Some n →
  q ≠ [] ∧ q `prefix_of` p ∧ (n = Directory 493 ∨ q = p ∧ n = restored stage p e ∧ Typeflag e = TypeReg).
Proof.
  intros [|t1 ? H|t1 ? ? H] Hp q n Hq Hn; [by rewrite Hq in Hn| |].
  - destruct (MkdirAll_makes _ _ _ _ H q Hq) as [?|(HA & ? & ?)]; [congruence|]. split_and!; [done|done|left; congruence].
  - destruct (decide (q = p)) as [->|Hne].
    + rewrite lookup_insert_eq in Hn. injection Hn as <-. split_and!; [done|done|by right].
    + rewrite lookup_insert_ne in Hn by done. destruct (MkdirAll_makes _ _ _ _ H q Hq) as [?|(HA & ? & ?)]; [congruence|]. split_and!; [done|by apply prefix_removelast|left; congruence].
Qed.

(** What all of them do: what they do not name stays, a file they name is there
    with its contents, and what is new is on the way to a name. *)
Lemma entries_seen live stage l s s' : stage_entries size sidecar live stage l s = Ok s' → ∀ e p, e ∈ l → names e p → p ∉ seen s.
Proof.
  revert s. induction l as [|x l IH]; intros s H e p He Hp; [by apply elem_of_nil in He|]. cbn in H. destruct (stage_entry _ _ _ _ _ _) as [s1|] eqn:E; [|done].
  apply entry_did in E as [(Hm & _ & Hs)|(p' & Hx & Hs & Hs' & _)].
  - apply elem_of_cons in He as [->|He]; [destruct Hp as [? _]; done|]. rewrite <- Hs. by eapply IH.
  - apply elem_of_cons in He as [->|He]; [destruct Hx as [_ Hx], Hp as [_ Hp]; congruence|]. specialize (IH _ H e p He Hp). rewrite Hs' in IH. by apply not_elem_of_cons in IH as [_ ?].
Qed.

Lemma entries_keep live stage l s s' : stage_entries size sidecar live stage l s = Ok s' → ∀ q n, staged s !! q = Some n → (∀ e, e ∈ l → ¬ names e q) → staged s' !! q = Some n.
Proof.
  revert s. induction l as [|x l IH]; intros s H q n Hq Hl; cbn in H; [by injection H as <-|]. destruct (stage_entry _ _ _ _ _ _) as [s1|] eqn:E; [|done].
  eapply IH; [exact H| |intros e He; apply Hl; by right]. apply entry_did in E as [(_ & -> & _)|(p & Hx & _ & _ & Hd)]; [done|]. eapply did_keeps; [exact Hd| |done].
  intros ->. by apply (Hl x); [left|].
Qed.

Lemma entries_place live stage l s s' : stage_entries size sidecar live stage l s = Ok s' → ∀ e p, e ∈ l → names e p → Typeflag e = TypeReg →
  ¬ (p = installPath ∧ is_Some (live !! installPath)) → staged s' !! p = Some (restored stage p e).
Proof.
  revert s. induction l as [|x l IH]; intros s H e p He Hp Ht Hi; [by apply elem_of_nil in He|]. cbn in H. destruct (stage_entry _ _ _ _ _ _) as [s1|] eqn:E; [|done].
  apply elem_of_cons in He as [->|He]; [|by eapply IH]. apply entry_did in E as [(Hm & _ & _)|(p' & Hx & _ & Hs' & Hd)]; [by destruct Hp|].
  assert (p' = p) as -> by (destruct Hx as [_ Hx], Hp as [_ Hp]; congruence).
  eapply entries_keep; [exact H| |intros e He Hn; by eapply (entries_seen _ _ _ _ _ H e p He Hn); rewrite Hs'; left].
  destruct Hd as [| |]; [naive_solver|congruence|]. by rewrite lookup_insert_eq.
Qed.

Lemma entries_within live stage l s s' : stage_entries size sidecar live stage l s = Ok s' → ∀ q, is_Some (staged s' !! q) →
  is_Some (staged s !! q) ∨ ∃ e p, e ∈ l ∧ names e p ∧ q ≠ [] ∧ q `prefix_of` p.
Proof.
  revert s. induction l as [|x l IH]; intros s H q Hq; cbn in H; [injection H as <-; by left|]. destruct (stage_entry _ _ _ _ _ _) as [s1|] eqn:E; [|done].
  destruct (IH _ H q Hq) as [[n H1]|(e & p & He & Hr)]; [|right; exists e, p; split; [by right|done]].
  apply entry_did in E as [(_ & <- & _)|(p & Hx & _ & _ & Hd)]; [left; by exists n|]. destruct (staged s !! q) as [n'|] eqn:E0; [left; by exists n'|]. right. exists x, p.
  assert (p ≠ []) as Hp by (destruct Hx as [_ Hx]; apply safe_elements in Hx; tauto). destruct (did_makes _ _ _ _ _ _ Hd Hp q n E0 H1) as (? & ? & _). split_and!; [by left|done|done|done].
Qed.

(** The local install path is not written over. *)
Lemma install_kept live stage l s s' : stage_entries size sidecar live stage l s = Ok s' → ∀ n, live !! installPath = Some n → staged s !! installPath = Some n → staged s' !! installPath = Some n.
Proof.
  revert s. induction l as [|x l IH]; intros s H n Hl Hn; cbn in H; [by injection H as <-|]. destruct (stage_entry _ _ _ _ _ _) as [s1|] eqn:E; [|done].
  eapply IH; [exact H|done|]. apply entry_did in E as [(_ & -> & _)|(p & _ & _ & _ & Hd)]; [done|]. destruct (decide (p = installPath)) as [->|Hp]; [|by eapply did_keeps].
  destruct Hd as [|? ? Hm|? ? Hi]; [done|by eapply MkdirAll_keeps|]. exfalso. apply Hi. split; [done|by exists n].
Qed.

(** C34: a restore is all or nothing. One that fails leaves the directory as it was, or, when it could neither be replaced nor put back, the whole of it aside. One that succeeds has moved nothing aside, kept every file the archive does not name and the local install path, put every file the archive does name there with its contents, and made nothing that is not on the way to a name of the archive. *)
Theorem restore_all_or_nothing a stage aside place back live :
  let '(now, previous, r) := put size sidecar a stage aside place back live in
  match r with
  | Err x => now = Some live ∧ previous = None ∨ now = None ∧ previous = Some live ∧ x = PreviousAside ∧ aside = true ∧ place = false ∧ back = false
  | Ok c => previous = None ∧ tar_ok a = true ∧ gzip_ok a = true ∧ ∃ t, now = Some t ∧
      (∀ q n, live !! q = Some n → (∀ e, e ∈ Entries a → ¬ names e q) ∨ q = installPath → t !! q = Some n) ∧
      (∀ e p, e ∈ Entries a → names e p → Typeflag e = TypeReg → ¬ (p = installPath ∧ is_Some (live !! p)) → t !! p = Some (restored stage p e)) ∧
      (∀ q, is_Some (t !! q) → is_Some (live !! q) ∨ Forall element q ∧ ∃ e p, e ∈ Entries a ∧ names e p ∧ q ≠ [] ∧ q `prefix_of` p)
  end.
Proof.
  unfold put. destruct (stageRestore _ _ _ _ _) as [[t c]|x] eqn:E; [|by left]. unfold commitRestore. destruct aside; [|by left]. cbn [negb].
  destruct place; [|destruct back; [by left|by right]]. unfold stageRestore, seedStage in E. destruct (bool_decide _) in E; [|done].
  destruct (stage_entries _ _ _ _ _ _) as [s|] eqn:El in E; [|done]. destruct (tar_ok a) in *; [|done]. destruct (gzip_ok a) in *; [|done]. cbn [negb] in E. injection E as <- <-.
  split_and!; [done|done|done|]. exists (staged s). split; [done|]. split_and!.
  - intros q n Hq [Hn| ->]; [by eapply (entries_keep _ _ _ _ _ El)|]. eapply install_kept; [exact El|done|done].
  - intros e p He Hp Ht Hi. eapply entries_place; [exact El|done|done|done|]. intros [-> ?]. by apply Hi.
  - intros q Hq. destruct (entries_within _ _ _ _ _ El q Hq) as [?|(e & p & He & Hn & H1 & H2)]; [by left|]. right. split; [|by exists e, p].
    destruct Hn as [_ Hn]. apply safe_elements in Hn as [_ Hn]. destruct H2 as [k ->]. by apply Forall_app in Hn as [? _].
Qed.

End staging.

End Sound.

(** ** A backup and its restore *)

Module Return.
Import Names Tree Restore Write Sound.

Section return_.
Context {B : Type} (size : B → Z) (sidecar : B → option Z).
Implicit Types (root t : tree B) (p q : path) (none meta : B) (n : node B).

(** A configuration directory: names that can be written, in directories that are
    there, and neither a sidecar nor a key that is a directory. *)
Record wf root : Prop := {
  wf_names : ∀ p n, root !! p = Some n → p ≠ [] ∧ Forall element p ∧ n ≠ Special;
  wf_parents : ∀ p x n, root !! (p ++ [x]) = Some n → p ≠ [] → ∃ m, root !! p = Some (Directory m);
  wf_meta : root !! [backupMetaName] = None;
  wf_key : ∀ m, root !! [fleetKeyName] ≠ Some (Directory m)
}.

Definition weight (n : node B) : Z := match n with File b _ => size b | _ => 0 end.
Definition weights (l : list (path * node B)) : Z := foldr (λ x s, weight (snd x) + s) 0 l.

(** Within what a restore takes. *)
Record fits root : Prop := {
  fits_count : Z.of_nat (base.size root) ≤ maxRestoreEntries;
  fits_file : ∀ p b m, root !! p = Some (File b m) → 0 ≤ size b ≤ maxRestoreFileBytes;
  fits_total : weights (map_to_list root) ≤ maxRestoreBytes
}.

Lemma wf_above root q k n : wf root → root !! (q ++ k) = Some n → q ≠ [] → k ≠ [] → ∃ m, root !! q = Some (Directory m).
Proof.
  intros Hw. revert n. induction k as [|x k IH] using rev_ind; intros n H Hq Hk; [done|]. rewrite app_assoc in H.
  destruct (wf_parents _ Hw _ _ _ H) as [m Hm]; [by destruct q|]. destruct (decide (k = [])) as [->|Hk']; [rewrite app_nil_r in Hm; by exists m|by eapply IH].
Qed.

Lemma wf_prefix root p q n : wf root → root !! p = Some n → q `prefix_of` p → q ≠ [] → q = p ∨ ∃ m, root !! q = Some (Directory m).
Proof.
  intros Hw H [k ->] Hq. destruct (decide (k = [])) as [->|Hk]; [left; by rewrite app_nil_r|right; by eapply wf_above].
Qed.

(** The entry of a path names it. *)
Lemma entry_names none p n e : entry_of none (p, n) = Some e → p ≠ [] → Forall element p → p ≠ [backupMetaName] → names e p.
Proof.
  intros H Hn Hp Hm. destruct (safe_Join p Hn Hp) as [H1 H2]. assert (∀ s, safeRestoreName s = Some p → s ≠ backupMetaName) as Hs.
  { intros s Hs ->. apply Hm. replace (safeRestoreName backupMetaName) with (Some [backupMetaName]) in Hs by (by vm_compute). congruence. }
  destruct n; [| |done]; injection H as <-; split; cbn [Name]; try done; by apply Hs.
Qed.

(** What has been laid down so far is part of the directory. *)
Definition part root (stage : string) (t : tree B) : Prop := ∀ q n, t !! q = Some n →
  (n = Directory 493 ∧ ∃ m, root !! q = Some (Directory m)) ∨
  ((∃ b m, n = File b m) ∧ q ≠ [fleetKeyName] ∧ ∃ b m, root !! q = Some (File b m)).

Lemma part_mkdir root stage p n t : wf root → root !! p = Some n → part root stage t →
  ∀ k, k `prefix_of` p → (k = p → ∃ m, n = Directory m) → ∃ t', MkdirAll k 493 t = Some t' ∧ part root stage t'.
Proof.
  intros Hw Hp Ht k Hk Hkp.
  assert (∀ q, q ≠ [] → q `prefix_of` k → ∃ m, root !! q = Some (Directory m)) as HA.
  { intros q Hq Hqk. destruct (wf_prefix root p q n Hw Hp ltac:(by etrans) Hq) as [->|?]; [|done].
    destruct Hkp as [m ->]; [|by exists m]. apply (anti_symm prefix); done. }
  destruct (mkdir_ok [] k 493 t) as [t' Hm].
  { intros q x Hq Hqk Hx. destruct (HA q Hq Hqk) as [m Hd]. destruct (Ht _ _ Hx) as [(-> & _)|(_ & _ & b & m' & Hf)]; [by exists 493|]. cbn in Hf. congruence. }
  exists t'. split; [done|]. intros q x Hx. destruct (t !! q) as [y|] eqn:Ey.
  - rewrite (MkdirAll_keeps _ _ _ _ Hm _ _ Ey) in Hx. injection Hx as <-. by apply (Ht q).
  - destruct (MkdirAll_makes _ _ _ _ Hm q Ey) as [?|(? & Hq & Hqk)]; [congruence|]. left. split; [congruence|by apply HA].
Qed.

Lemma removelast_prefix p : removelast p `prefix_of` p.
Proof. destruct p as [|x p _] using rev_ind; [done|]. rewrite removelast_last. by exists [x]. Qed.

Lemma removelast_ne p : p ≠ [] → removelast p ≠ p.
Proof. intros Hp He. apply (f_equal length) in He. destruct p as [|x p _] using rev_ind; [done|]. rewrite removelast_last, length_app in He. cbn in He. lia. Qed.

(** One entry is taken. *)
Lemma entry_taken root none stage p n e s : wf root → fits root → root !! p = Some n → p ≠ [fleetKeyName] → entry_of none (p, n) = Some e →
  part root stage (staged s) → p ∉ seen s → zlen (seen s) < maxRestoreEntries → total s + weight n ≤ maxRestoreBytes →
  ∃ s', stage_entry size sidecar ∅ stage e s = Ok s' ∧ part root stage (staged s') ∧ seen s' = p :: seen s ∧ total s' = total s + weight n ∧
    is_Some (staged s' !! p).
Proof.
  intros Hw Hf Hp Hk He Ht Hs Hn Hb. destruct (wf_names _ Hw _ _ Hp) as (Hp0 & Hpe & _).
  destruct (entry_names none p n e He Hp0 Hpe) as [Hm Hs']; [intros ->; by rewrite (wf_meta _ Hw) in Hp|].
  unfold stage_entry. apply String.eqb_neq in Hm. rewrite Hm, Hs', bool_decide_eq_false_2 by done. cbv zeta. cbn [seen staged contents total].
  rewrite (proj2 (Z.ltb_ge _ _)) by (unfold zlen in *; cbn; lia). rewrite lookup_empty.
  rewrite (bool_decide_eq_false_2 (is_Some None)) by (by intros [? ?]). rewrite andb_false_r.
  destruct n as [m|b m|]; [| |done]; injection He as <-; cbn [Typeflag Data weight] in *.
  - destruct (part_mkdir root stage p _ (staged s) Hw Hp Ht p ltac:(done) ltac:(intros _; by exists m)) as (t' & Hm' & Ht'). rewrite Hm'.
    eexists. split; [reflexivity|]. cbn [staged seen total]. split_and!; [done|done|lia|]. destruct (mkdir_there _ _ _ _ _ Hm' Hp0) as [? H]. cbn in H. by rewrite H.
  - pose proof (fits_file _ Hf _ _ _ Hp) as Hz. rewrite (proj2 (Z.ltb_ge _ _)), (proj2 (Z.ltb_ge _ _)) by lia. unfold writeStagedFile.
    destruct (part_mkdir root stage p _ (staged s) Hw Hp Ht (removelast p) (removelast_prefix p) ltac:(intros ?; by destruct (removelast_ne p Hp0))) as (t' & Hm' & Ht'). rewrite Hm'.
    unfold write_file. fold (restored stage p (mkEntry (Join p "/") TypeReg m b)).
    assert (match t' !! p with Some (Directory _) | Some Special => None | _ => Some (<[p := restored stage p (mkEntry (Join p "/") TypeReg m b)]> t') end
      = Some (<[p := restored stage p (mkEntry (Join p "/") TypeReg m b)]> t')) as ->.
    { destruct (t' !! p) as [x|] eqn:Ex; [|done]. destruct x; [|done|]; destruct (Ht' _ _ Ex) as [(Hx & ? & H)|((? & ? & Hx) & _)]; congruence. }
    eexists. split; [reflexivity|]. cbn [staged seen total]. split_and!; [|done|lia|by rewrite lookup_insert_eq]. intros q x Hx. destruct (decide (q = p)) as [->|Hq].
    + right. rewrite lookup_insert_eq in Hx. injection Hx as <-. split; [by eexists _, _|]. split; [done|]. by exists b, m.
    + rewrite lookup_insert_ne in Hx by done. by apply Ht'.
Qed.

(** So are all of them, in whatever order. *)
Lemma entries_taken root none stage xs es : wf root → fits root → (∀ x, x ∈ xs → root !! fst x = Some (snd x) ∧ fst x ≠ [fleetKeyName]) → NoDup (fst <$> xs) →
  mapM (entry_of none) xs = Some es → ∀ s, part root stage (staged s) → (∀ x, x ∈ xs → fst x ∉ seen s) →
  zlen (seen s) + zlen xs ≤ maxRestoreEntries → total s + weights xs ≤ maxRestoreBytes →
  ∃ s', stage_entries size sidecar ∅ stage es s = Ok s' ∧ part root stage (staged s') ∧ ∀ p, (p ∈ fst <$> xs ∨ is_Some (staged s !! p)) → is_Some (staged s' !! p).
Proof.
  intros Hw Hf. revert es. induction xs as [|[p n] xs IH]; intros es Hx Hd He s Ht Hs Hn Hb.
  { injection He as <-. exists s. split_and!; [done|done|]. intros p [Hp|]; [by apply elem_of_nil in Hp|done]. }
  cbn in He. apply bind_Some in He as (e & He & Hr). apply bind_Some in Hr as (es' & Hes & [= <-]). rewrite fmap_cons in Hd. apply NoDup_cons in Hd as [Hd Hd'].
  destruct (Hx (p, n) ltac:(by left)) as [Hp Hk]. cbn [fst snd] in *.
  assert (0 ≤ weights xs) as Hw0.
  { assert (∀ x, x ∈ xs → root !! fst x = Some (snd x)) as HA by (intros x Hi; by apply Hx; right). clear - HA Hf. induction xs as [|[q y] xs IH]; [done|]. cbn.
    specialize (IH ltac:(intros x Hi; apply HA; by right)). specialize (HA (q, y) ltac:(by left)). cbn in HA.
    assert (0 ≤ weight y) by (destruct y; cbn; [lia|destruct (fits_file _ Hf _ _ _ HA); lia|lia]). unfold weights in *. cbn. lia. }
  change (weights ((p, n) :: xs)) with (weight n + weights xs) in Hb. unfold zlen in Hn. cbn [length] in Hn.
  destruct (entry_taken root none stage p n e s Hw Hf Hp Hk He Ht) as (s1 & E1 & Ht1 & Hs1 & Hz1 & Hi1); [by apply (Hs (p, n)); left|unfold zlen; lia|lia|].
  destruct (IH es' ltac:(intros x Hi; apply Hx; by right) Hd' Hes s1 Ht1) as (s' & E' & Ht' & Hc').
  - intros x Hi. rewrite Hs1. apply not_elem_of_cons. split; [|by apply Hs; right]. intros Hq. apply Hd. rewrite <- Hq. by apply list_elem_of_fmap_2.
  - rewrite Hs1. unfold zlen. cbn [length]. lia.
  - rewrite Hz1. lia.
  - exists s'. cbn. rewrite E1. split_and!; [done|done|]. intros q Hq. destruct (decide (q = p)) as [->|Hne]; [apply Hc'; by right|]. apply Hc'. destruct Hq as [Hq|[y Hy]].
    + apply elem_of_cons in Hq as [|]; [done|by left].
    + right. exists y. apply entry_did in E1 as [(_ & -> & _)|(p' & Hn' & _ & Hs'' & Hd1)]; [done|]. rewrite Hs1 in Hs''. injection Hs'' as <-. by eapply did_keeps.
Qed.

Lemma weights_perm l k : l ≡ₚ k → weights l = weights k.
Proof. induction 1 as [|x l k _ IH|x y l|]; unfold weights in *; cbn; lia. Qed.

Lemma weights_filter (P : path * node B → Prop) `{∀ x, Decision (P x)} l : (∀ x, x ∈ l → 0 ≤ weight (snd x)) → weights (filter P l) ≤ weights l.
Proof.
  induction l as [|x l IH]; intros Hl; [done|]. specialize (IH ltac:(intros y Hy; apply Hl; by right)). specialize (Hl x ltac:(by left)). rewrite filter_cons.
  unfold weights in *. destruct (decide (P x)); cbn; lia.
Qed.

(** C35: a backup that is restored on an empty machine gives the directory back: every file but the key of the fleet with its contents, and its mode but for what a restore does to modes; every directory; and nothing else. *)
Theorem backup_restores none meta stage root : wf root → fits root →
  ∃ l, writeBackupEntries none meta root = Some l ∧
  ∃ t c, stageRestore size sidecar (mkArchive l true true) ∅ stage = Ok (t, c) ∧
  ∀ p, t !! p = match root !! p with
    | Some (Directory _) => Some (Directory 493)
    | Some (File b m) => if bool_decide (p = [fleetKeyName]) then None else Some (File b (restoredMode (stage +:+ "/" +:+ Join p "/") (Z.land m 511)))
    | _ => None
    end.
Proof.
  intros Hw Hf. set (xs := filter (λ x, fst x ≠ [fleetKeyName]) (walk root)).
  assert (walk root ≡ₚ map_to_list root) as Hperm by apply merge_sort_Permutation.
  assert (∀ x, x ∈ xs ↔ root !! fst x = Some (snd x) ∧ fst x ≠ [fleetKeyName]) as Hx.
  { intros [p n]. unfold xs. rewrite list_elem_of_filter, Hperm, elem_of_map_to_list. cbn. tauto. }
  assert (NoDup (fst <$> xs)) as Hd.
  { apply NoDup_fmap_fst; [intros p y1 y2 [H1 _]%Hx [H2 _]%Hx; cbn in *; congruence|]. apply NoDup_filter. rewrite Hperm. apply NoDup_map_to_list. }
  assert (∃ es, mapM (entry_of none) xs = Some es) as [es Hes].
  { apply mapM_is_Some, Forall_forall. intros [p n] [Hn _]%Hx. destruct (wf_names _ Hw _ _ Hn) as (_ & _ & Hs). destruct n; [by eexists|by eexists|by destruct Hs]. }
  assert (weights xs ≤ maxRestoreBytes).
  { pose proof (fits_total _ Hf). rewrite <- (weights_perm _ _ Hperm) in *. etrans; [|eassumption]. apply weights_filter. intros x Hi. rewrite Hperm in Hi. destruct x as [p n].
    apply elem_of_map_to_list in Hi. destruct n; cbn; [lia| |lia]. by destruct (fits_file _ Hf _ _ _ Hi). }
  assert (zlen xs ≤ maxRestoreEntries).
  { pose proof (fits_count _ Hf). unfold zlen, xs. etrans; [apply Nat2Z.inj_le, length_filter|]. rewrite Hperm. by rewrite length_map_to_list. }
  exists (mkEntry backupMetaName TypeReg 384 meta :: es). unfold writeBackupEntries. fold xs. rewrite Hes. split; [done|].
  unfold stageRestore, seedStage. rewrite bool_decide_eq_true_2 by (by intros ? ? ?). cbn [Entries tar_ok gzip_ok negb]. cbn [stage_entries].
  set (s0 := mkStaging _ _ _ _). assert (∃ s1, stage_entry size sidecar ∅ stage (mkEntry backupMetaName TypeReg 384 meta) s0 = Ok s1 ∧ staged s1 = ∅ ∧ seen s1 = [] ∧ total s1 = 0) as (s1 & -> & H1 & H2 & H3) by (by eexists).
  destruct (entries_taken root none stage xs es Hw Hf ltac:(intros x; by apply Hx) Hd Hes s1) as (s' & E & Hp & Hc).
  { rewrite H1. intros q n Hq. done. }
  { rewrite H2. intros x _ Hi. by apply elem_of_nil in Hi. }
  { by rewrite H2. }
  { rewrite H3. lia. }
  rewrite E. exists (staged s'), (contents s'). split; [done|]. intros p.
  assert (∀ n, root !! p = Some n → p ≠ [fleetKeyName] → is_Some (staged s' !! p)) as Hi.
  { intros n Hn Hk. apply Hc. left. apply list_elem_of_fmap. exists (p, n). split; [done|]. by apply Hx. }
  destruct (staged s' !! p) as [y|] eqn:Ey.
  - destruct (Hp _ _ Ey) as [(-> & m & ->)|((b & m & ->) & Hk & b' & m' & Hr)]; [done|]. rewrite Hr, bool_decide_eq_false_2 by done. rewrite <- Ey.
    assert (∃ e, e ∈ es ∧ entry_of none (p, File b' m') = Some e) as (e & He & Heo).
    { apply mapM_Some in Hes. assert ((p, File b' m') ∈ xs) as [i Hl]%list_elem_of_lookup by (by apply Hx).
      destruct (Forall2_lookup_l _ _ _ _ _ Hes Hl) as (e & He & ?). exists e. split; [|done]. apply list_elem_of_lookup. by exists i. }
    destruct (wf_names _ Hw _ _ Hr) as (Hp0 & Hpe & _). assert (p ≠ [backupMetaName]) as Hm by (intros ->; by rewrite (wf_meta _ Hw) in Hr).
    rewrite (entries_place size sidecar _ _ _ _ _ E e p He (entry_names none p _ e Heo Hp0 Hpe Hm)); [by injection Heo as <-|by injection Heo as <-|].
    intros [_ [? ?]]. done.
  - destruct (root !! p) as [n|] eqn:Ep; [|done]. destruct (decide (p = [fleetKeyName])) as [->|Hk].
    + destruct n as [m|b m|]; [by destruct (wf_key _ Hw m)|done|done].
    + by destruct (Hi n eq_refl Hk).
Qed.

End return_.

(** An installation with a certificate and the key of its fleet. *)
Definition installed : tree string :=
  <[["iran.toml"] := File "token" 384]> (<[["certs"] := Directory 493]> (<[["certs"; "a.pem"] := File "pem" 420]> {[ ["node.key"] := File "key" 384 ]})).

Ltac each H := unfold installed in H; repeat (apply lookup_insert_Some in H as [[? ?]|[? H]]); [..|apply lookup_singleton_Some in H as [? ?]]; simplify_eq.

Lemma installed_wf : wf installed.
Proof.
  split.
  - intros p n H. each H; (split; [done|]; split; [|done]); repeat constructor; done.
  - intros p x n H Hp. unfold installed in H. repeat (apply lookup_insert_Some in H as [[He ?]|[? H]]); [..|apply lookup_singleton_Some in H as [He ?]];
      destruct p as [|y [|z [|? p]]]; simplify_eq/=; try done. by exists 493.
  - done.
  - intros m H. by vm_compute in H.
Qed.

Lemma installed_fits : fits (λ s, Z.of_nat (String.length s)) installed.
Proof. split; [by vm_compute| |by vm_compute]. intros p b m H. each H; by vm_compute. Qed.

Lemma backup_restores_witness : ∃ l, writeBackupEntries "" "{}" installed = Some l ∧
  ∃ t c, stageRestore (λ s, Z.of_nat (String.length s)) (λ _, Some 6) (mkArchive l true true) ∅ "/etc/.backpack-restore-1" = Ok (t, c) ∧
  t !! ["iran.toml"] = Some (File "token" 384) ∧ t !! ["certs"; "a.pem"] = Some (File "pem" 420) ∧ t !! ["node.key"] = None.
Proof.
  destruct (backup_restores (λ s, Z.of_nat (String.length s)) (λ _, Some 6) "" "{}" "/etc/.backpack-restore-1" installed installed_wf installed_fits)
    as (l & Hl & t & c & Ht & H).
  exists l. split; [exact Hl|]. exists t, c. split; [exact Ht|]. split; [|split]; rewrite H; vm_compute; reflexivity.
Defined.

(** A tunnel's file that was archived open to all is so again, the staging
    directory's name not being one the mode is taken back under. *)
Lemma open_mode_restored :
  let a := mkArchive [mkEntry "iran.toml" TypeReg 420 "token"] true true in
  match put (λ s, Z.of_nat (String.length s)) (λ _, Some 0) a "/etc/.backpack-restore-1" true true true ∅ with
  | (Some t, _, Ok _) => t !! ["iran.toml"] = Some (File "token" 420)
  | _ => False
  end ∧ restoredMode "/etc/backpack/iran.toml" 420 = 384.
Proof. by vm_compute. Qed.

(** The key of the fleet is not in the archive, and stays where it is. *)
Lemma key_kept :
  match writeBackupEntries "" "{}" installed with
  | Some l => match put (λ s, Z.of_nat (String.length s)) (λ _, Some 0) (mkArchive l true true) "/etc/.backpack-restore-1" true true true installed with
              | (Some t, _, Ok c) => t !! ["node.key"] = Some (File "key" 384) ∧ Files c = 2 ∧ SawTunnelConfig c = true
              | _ => False
              end
  | None => False
  end.
Proof. by vm_compute. Qed.

End Return.
