(* ===== verification/Update.v ===== *)
(** Updating the program itself ([internal/manage]):
    - Module [Version]: version numbers, tags and channels ([update.go],
      [channel.go]);
    - Module [Release]: where a release is fetched from and how it is vouched for
      ([update.go], [releasesig.go], [app/releasemsg.go]);
    - Module [Snapshot]: a copy of the installation and the way back to it
      ([backup/snapshot.go]);
    - Module [Install]: an update from the network and one from a file
      ([update.go], [localupdate.go]);
    - Module [Notice]: what is remembered of the last look for a release
      ([updatecheck.go]).

    A source answers a request for a URL with a status and a body, or does not
    answer. What the gzip and tar readers make of a file and the verification of a
    signature are arguments. What an update does to the configuration
    ([MigrateAfterUpdate]) is any function; whether a service comes up is asked of
    the binary and the configuration it comes up on. *)

From Stdlib Require Import Ascii String.
From stdpp Require Import gmap strings sorting.
From S2P Require Import Prelude GoStr GoHash GoB64 GoSort ConfHist Backup.
Import GoStr GoB64.
Open Scope string_scope.
Open Scope list_scope.
Open Scope Z_scope.

Module Version.

(** [strings.SplitN]. *)
Fixpoint SplitN (n : nat) (s : string) (c : ascii) : list string :=
  match n with
  | O => []
  | S O => [s]
  | S n => match Cut s (String c "") with Some (a, b) => a :: SplitN n b c | None => [s] end
  end.

Definition normVersion (v : string) : string := TrimPrefix (TrimSpace v) "v".

Definition verParts : nat := 4.

(** The digits a string begins with. *)
Fixpoint leading_digits (s : string) : string :=
  match s with
  | String c s => if is_digit c then String c (leading_digits s) else ""
  | "" => ""
  end.

(** [strconv.Atoi] of digits, of which the error is not looked at: none is zero
    and too many the largest there is. *)
Definition number (s : string) : Z :=
  match parse_digits 0 s with
  | Some n => if String.eqb s "" then 0 else Z.min n (2^63 - 1)
  | None => 0
  end.

Definition parseVer (v : string) : list Z :=
  let l := map (λ p, number (leading_digits p)) (SplitN verParts (normVersion v) ".") in
  l ++ repeat 0 (verParts - length l).

Fixpoint newer_parts (r l : list Z) : bool :=
  match r, l with
  | x :: r, y :: l => if x =? y then newer_parts r l else y <? x
  | _, _ => false
  end.

Definition newerVersion (remote local : string) : bool := newer_parts (parseVer remote) (parseVer local).

Definition isPrerelease (tag : string) : bool :=
  let v := TrimPrefix (TrimSpace tag) "v" in contains_char "-" v || contains_char "+" v.

(** [versionValidRe]: a number of at most four parts, each of digits. *)
Fixpoint all_digits (s : string) : bool :=
  match s with String c s => is_digit c && all_digits s | "" => true end.

Definition version_valid (s : string) : bool :=
  let l := Split (TrimPrefix s "v") "." in
  (length l <=? 4)%nat && forallb (λ p, negb (String.eqb p "") && all_digits p) l.

(** [tagNameRe], a quoted [tag_name], a colon and a quoted string that is not
    empty, with white space around the colon. *)
Definition quote : ascii := ascii_of_nat 34.

Definition blank (c : ascii) : bool := existsb (λ z, nat_of_ascii c =? z)%nat [32; 9; 10; 12; 13]%nat.

Fixpoint skip_blank (s : string) : string :=
  match s with String c t => if blank c then skip_blank t else s | "" => "" end.

Definition tag_at (s : string) : option (string * string) :=
  s ← strip_prefix (String quote ("tag_name" +:+ String quote "")) s;
  s ← strip_prefix ":" (skip_blank s);
  s ← strip_prefix (String quote "") (skip_blank s);
  ab ← Cut s (String quote "");
  if String.eqb (fst ab) "" then None else Some ab.

(** [FindAllStringSubmatch], from the left and without overlaps. *)
Fixpoint tags (fuel : nat) (s : string) : list string :=
  match fuel with
  | O => []
  | S fuel =>
      match s with
      | "" => []
      | String _ t => match tag_at s with Some (x, r) => x :: tags fuel r | None => tags fuel t end
      end
  end.

Definition all_tags (body : string) : list string := tags (String.length body) body.

(** The beta channel's choice among the tags. *)
Definition better (best tag : string) : string :=
  if String.eqb tag "" then best else if String.eqb best "" || newerVersion tag best then tag else best.

Definition pickTag (body : string) (beta : bool) : string :=
  match all_tags body with
  | [] => ""
  | (t :: _) as l =>
      if beta then fold_left better (map TrimSpace l) ""
      else let tag := TrimSpace t in if isPrerelease tag then "" else tag
  end.

Definition ChannelStable : string := "stable".
Definition ChannelBeta : string := "beta".

(** [Channel] and [SetChannel], of the file the choice is in. *)
Definition Channel (file : option string) : string :=
  match file with
  | Some b => if String.eqb (TrimSpace b) ChannelBeta then ChannelBeta else ChannelStable
  | None => ChannelStable
  end.

Definition SetChannel (channel : string) : string :=
  (if String.eqb channel ChannelBeta then ChannelBeta else ChannelStable) +:+ String "010" "".

(** *** Lemmas *)

Lemma length_SplitN n s c : (n ≠ 0)%nat → (1 ≤ length (SplitN n s c) ≤ n)%nat.
Proof.
  revert s. induction n as [|n IH]; intros s Hn; [done|]. destruct n as [|n]; [cbn; lia|]. change (SplitN (S (S n)) s c) with (match Cut s (String c "") with Some (a, b) => a :: SplitN (S n) b c | None => [s] end).
  destruct (Cut s _) as [[a b]|]; cbn [length]; [|lia]. specialize (IH b ltac:(lia)). lia.
Qed.

Lemma length_parseVer v : length (parseVer v) = verParts.
Proof.
  unfold parseVer. rewrite length_app, length_map, repeat_length. pose proof (length_SplitN verParts (normVersion v) "." ltac:(done)). lia.
Qed.

Lemma newer_parts_irrefl l : newer_parts l l = false.
Proof. induction l as [|x l IH]; [done|]. cbn. by rewrite Z.eqb_refl. Qed.

Lemma newer_parts_trans a b c : length a = length b → length b = length c → newer_parts a b = true → newer_parts b c = true → newer_parts a c = true.
Proof.
  revert b c. induction a as [|x a IH]; intros [|y b] [|z c] H1 H2; try done. cbn. intros Hx Hy.
  destruct (Z.eqb_spec x y) as [->|]; destruct (Z.eqb_spec y z) as [->|].
  - rewrite ?Z.eqb_refl. eapply IH; [..|exact Hx|exact Hy]; by simplify_eq/=.
  - done.
  - by destruct (Z.eqb_spec x z).
  - apply Z.ltb_lt in Hx, Hy. destruct (Z.eqb_spec x z); [lia|]. apply Z.ltb_lt. lia.
Qed.

Lemma newer_parts_total a b : length a = length b → newer_parts a b = false → newer_parts b a = false → a = b.
Proof.
  revert b. induction a as [|x a IH]; intros [|y b] H1; try done. cbn. rewrite (Z.eqb_sym y x). destruct (Z.eqb_spec x y) as [->|].
  - intros. f_equal. apply IH; [by simplify_eq/=|done|done].
  - intros ?%Z.ltb_ge ?%Z.ltb_ge. lia.
Qed.

Lemma newer_irrefl v : newerVersion v v = false.
Proof. apply newer_parts_irrefl. Qed.

Lemma newer_trans a b c : newerVersion a b = true → newerVersion b c = true → newerVersion a c = true.
Proof. apply newer_parts_trans; by rewrite !length_parseVer. Qed.

Lemma newer_asym a b : newerVersion a b = true → newerVersion b a = false.
Proof. intros H. destruct (newerVersion b a) eqn:E; [|done]. pose proof (newer_trans _ _ _ H E) as HA. by rewrite newer_irrefl in HA. Qed.

(** Two versions neither of which is newer read the same. *)
Lemma newer_total a b : newerVersion a b = false → newerVersion b a = false → parseVer a = parseVer b.
Proof. apply newer_parts_total. by rewrite !length_parseVer. Qed.

Lemma newer_le a b c : newerVersion a b = false → newerVersion c b = true → newerVersion c a = true.
Proof.
  intros H1 H2. destruct (newerVersion b a) eqn:E; [by eapply newer_trans|]. pose proof (newer_total _ _ H1 E) as HA. unfold newerVersion in *. by rewrite HA.
Qed.

Lemma better_best l best :
  let r := fold_left better l best in
  (r = best ∨ r ∈ l) ∧ (∀ t, t ∈ l → t ≠ "" → r ≠ "" ∧ newerVersion t r = false) ∧ (best ≠ "" → r ≠ "" ∧ newerVersion best r = false).
Proof.
  revert best. induction l as [|x l IH]; intros best; cbn [fold_left].
  { split_and!; [by left|by intros t ?%elem_of_nil|]. intros H. split; [done|apply newer_irrefl]. }
  destruct (IH (better best x)) as (H1 & H2 & H3). set (r := fold_left better l (better best x)) in *. cbv zeta.
  assert (better best x = best ∨ better best x = x) as Hb by (unfold better; repeat case_match; auto).
  assert (best ≠ "" → better best x ≠ "" ∧ newerVersion best (better best x) = false) as Hbest.
  { intros Hne. unfold better. destruct (String.eqb_spec x ""); [split; [done|apply newer_irrefl]|]. apply String.eqb_neq in Hne as E0. rewrite E0. cbn [orb].
    destruct (newerVersion x best) eqn:E; [split; [done|by apply newer_asym]|]. split; [done|apply newer_irrefl]. }
  assert (x ≠ "" → better best x ≠ "" ∧ newerVersion x (better best x) = false) as Hx.
  { intros Hne. unfold better. apply String.eqb_neq in Hne as E0. rewrite E0. destruct (String.eqb_spec best "") as [|]; cbn [orb]; [split; [done|apply newer_irrefl]|].
    destruct (newerVersion x best) eqn:E; [split; [done|apply newer_irrefl]|done]. }
  assert (∀ t, better best x ≠ "" ∧ newerVersion t (better best x) = false → r ≠ "" ∧ newerVersion t r = false) as Hr.
  { intros t [Hne Hn]. destruct (H3 Hne) as [H4 H5]. split; [done|]. destruct (newerVersion t r) eqn:E; [|done]. by rewrite (newer_le _ _ _ H5 E) in Hn. }
  split_and!.
  - destruct H1 as [->|H1]; [|right; by right]. destruct Hb as [->| ->]; [by left|right; by left].
  - intros t [->|Ht]%elem_of_cons Hne; [by apply Hr, Hx|by apply H2].
  - intros Hne. by apply Hr, Hbest.
Qed.

Lemma pickTag_beta body : let r := pickTag body true in
  (r = "" ∨ r ∈ map TrimSpace (all_tags body)) ∧ ∀ t, t ∈ map TrimSpace (all_tags body) → t ≠ "" → r ≠ "" ∧ newerVersion t r = false.
Proof.
  cbv zeta. unfold pickTag. destruct (all_tags body) as [|t l]; [split; [by left|by intros t ?%elem_of_nil]|].
  destruct (better_best (map TrimSpace (t :: l)) "") as (H1 & H2 & _). split; [exact H1|exact H2].
Qed.

Lemma pickTag_stable body : pickTag body false = "" ∨ isPrerelease (pickTag body false) = false.
Proof. unfold pickTag. destruct (all_tags body) as [|t l]; [by left|]. cbv zeta. destruct (isPrerelease (TrimSpace t)) eqn:E; [by left|by right]. Qed.

Lemma digits_free c s : is_digit c = false → all_digits s = true → free c s.
Proof.
  intros Hc. induction s as [|a s IH]; [constructor|]. cbn. intros [Ha Hs]%andb_prop. apply all_chars_cons. split; [|by apply IH].
  destruct (Ascii.eqb_spec a c) as [->|]; [by rewrite Hc in Ha|done].
Qed.

Lemma free_joined c l : Forall (free c) l → free c "." → free c (Join l ".").
Proof.
  intros H Hs. induction H as [|x l Hx Hl IH]; [constructor|]. destruct l as [|y l]; [done|]. change (free c (x +:+ "." +:+ Join (y :: l) ".")).
  apply free_app. split; [done|]. apply free_app. by split.
Qed.

(** A version of digits and dots is not a pre-release. *)
Lemma valid_release s : version_valid (TrimSpace s) = true → isPrerelease (TrimSpace s) = false.
Proof.
  unfold version_valid, isPrerelease. rewrite TrimSpace_idem. set (v := TrimPrefix (TrimSpace s) "v"). cbv zeta. intros [_ H]%andb_prop.
  assert (∀ c, is_digit c = false → free c "." → contains_char c v = false) as HA.
  { intros c Hc Hd. apply contains_free. rewrite <- (Join_Split v "."). apply free_joined; [|done]. apply Forall_forall. intros p Hp. apply digits_free; [done|].
    rewrite forallb_forall in H. apply list_elem_of_In, H, andb_prop in Hp. tauto. }
  rewrite !HA; [done|by vm_compute|by repeat constructor|by vm_compute|by repeat constructor].
Qed.

Lemma Channel_SetChannel c : Channel (Some (SetChannel c)) = if String.eqb c ChannelBeta then ChannelBeta else ChannelStable.
Proof. unfold SetChannel. destruct (String.eqb c ChannelBeta); by vm_compute. Qed.

(** A beta counts as newer than the release it led to, which the beta channel
    therefore does not pick, and a candidate as the same: neither machine is
    updated to the release. *)
Lemma beta_outranks_release :
  let body := String quote ("tag_name" +:+ String quote (":" +:+ String quote ("v1.6.0" +:+ String quote (", " +:+
    String quote ("tag_name" +:+ String quote (":" +:+ String quote ("v1.6.0-beta.2" +:+ String quote "")))))))  in
  pickTag body true = "v1.6.0-beta.2" ∧ newerVersion "v1.6.0" "v1.6.0-beta.2" = false ∧ newerVersion "v1.6.0-beta.2" "v1.6.0" = true ∧
  newerVersion "v1.6.0" "v1.6.0-rc1" = false.
Proof. by vm_compute. Qed.

End Version.

(** ** Where a release comes from *)

Module Release.
Import Version.

Definition RepoOwner : string := "AminMGMT".
Definition RepoName : string := "BackPack".

Definition repoURL : string := "https://github.com/" +:+ RepoOwner +:+ "/" +:+ RepoName.

(** [AssetArch] of [runtime.GOARCH] and the variant stamped in, and [AssetName]. *)
Definition AssetArch (GOARCH GOARM : string) : string :=
  if String.eqb GOARCH "arm" && negb (String.eqb GOARM "") then "armv" +:+ GOARM else GOARCH.

Definition AssetName (GOARCH GOARM : string) : string := "backpack_linux_" +:+ AssetArch GOARCH GOARM +:+ ".tar.gz".

(** The port of a tunnel's relay. *)
Definition SocksInternalPort : Z := 1080.

Definition SocksPortForToken (token : string) : Z :=
  if String.eqb token "" then SocksInternalPort
  else 20000 + get_be (take 4 (Sha.sha256 (to_bytes ("backpack-socks-v1:" +:+ token)))) `mod` 20000.

Definition strip_suffix (s suffix : string) : option string :=
  match strip_prefix (rev_string suffix) (rev_string s) with Some r => Some (rev_string r) | None => None end.

Fixpoint exposed (suffix : string) (ports : list string) : option string :=
  match ports with
  | [] => None
  | p :: ports =>
      match strip_suffix (TrimSpace p) suffix with
      | Some port => Some (match cut_last port ":" with Some (_, b) => b | None => port end)
      | None => exposed suffix ports
      end
  end.

Definition relayExposedPort (ports : list string) (token : string) : string :=
  match exposed ("=127.0.0.1:" +:+ Itoa SocksInternalPort) ports with
  | Some p => p
  | None => match exposed ("=127.0.0.1:" +:+ Itoa (SocksPortForToken token)) ports with Some p => p | None => "" end
  end.

(** An answer: its status, its body and whether that came to its end. *)
Record response : Type := mkResponse { StatusCode : Z; Body : string; whole : bool }.
Definition source : Type := string → option response.

(** [sources]: a tunnel that was chosen is the only one. *)
Definition sources (chosen : option source) (direct : source) (relay : option source) : list source :=
  match chosen with
  | Some c => [c]
  | None => direct :: match relay with Some r => [r] | None => [] end
  end.

(** The first source that gives something to go by. *)
Fixpoint first_of {A} (l : list source) (url : string) (use : response → option A) : option A :=
  match l with
  | [] => None
  | s :: l =>
      match s url with
      | Some r => match use r with Some a => Some a | None => first_of l url use end
      | None => first_of l url use
      end
  end.

Definition limited (n : Z) (b : string) : string := substring 0 (Z.to_nat n) b.

(** [io.ReadAll] of a body cut at a length. *)
Definition read_limited (n : Z) (r : response) : option string :=
  if negb (whole r) && (Z.of_nat (String.length (Body r)) <? n) then None else Some (limited n (Body r)).

Definition kb : Z := 1024.
Definition api_url (beta : bool) : string :=
  "https://api.github.com/repos/" +:+ RepoOwner +:+ "/" +:+ RepoName +:+ (if beta then "/releases?per_page=20" else "/releases/latest").
Definition raw_url : string := "https://raw.githubusercontent.com/" +:+ RepoOwner +:+ "/" +:+ RepoName +:+ "/main/VERSION".
Definition asset_url (tag name : string) : string := repoURL +:+ "/releases/download/" +:+ tag +:+ "/" +:+ name.

Definition filled (s : string) : option string := if String.eqb s "" then None else Some s.

Definition latestTag (beta : bool) (api raw : list source) : option string :=
  match first_of api (api_url beta) (λ r, if StatusCode r =? 200 then filled (pickTag (limited (256 * kb) (Body r)) beta) else None) with
  | Some tag => Some tag
  | None =>
      first_of raw raw_url (λ r,
        let v := TrimSpace (limited 64 (Body r)) in
        if (StatusCode r =? 200) && (version_valid v && negb beta) then Some v else None)
  end.

Definition downloadAsset (tag asset : string) (l : list source) : option string :=
  first_of l (asset_url tag asset) (λ r, if (StatusCode r =? 200) && whole r then Some (Body r) else None).

Definition hash_line (asset line : string) : option string :=
  match Fields line with
  | [h; name] => if String.eqb (TrimPrefix name "*") asset then Some (ToLower h) else None
  | _ => None
  end.

Fixpoint first_hash (asset : string) (lines : list string) : string :=
  match lines with
  | [] => ""
  | l :: lines => match hash_line asset l with Some h => h | None => first_hash asset lines end
  end.

Definition hashFor (sums asset : string) : string := first_hash asset (Split sums "010").

(** [fetchChecksums]: nothing, when no source is of use; the list and the hash
    otherwise, both empty when the release has none. *)
Definition fetchChecksums (tag asset : string) (l : list source) : option (string * string) :=
  first_of l (asset_url tag "SHA256SUMS") (λ r,
    if StatusCode r =? 404 then Some ("", "")
    else if negb (StatusCode r =? 200) then None
    else b ← read_limited (64 * kb) r; Some (b, hashFor b asset)).

Definition fetchReleaseAsset (tag name : string) (l : list source) : option string :=
  first_of l (asset_url tag name) (λ r, if negb (StatusCode r =? 200) then None else read_limited (64 * kb) r).

Definition verifyChecksum (content want : string) : bool := EqualFold (hex (Sha.sha256 (to_bytes content))) want.

Definition ReleaseSignedMessage (tag sums : string) : string := "backpack release " +:+ tag +:+ String "010" sums.

Definition sigAssetName : string := "SHA256SUMS.sig".
Definition PublicKeySize : nat := 32.

Inductive error : Type :=
  | NoTag | NoDownload | NoChecksums (tag : string) | NotListed (tag : string) | BadKey | NoSignature (tag : string) | Unreadable (tag : string)
  | NotSigned (tag : string) | Mismatch.

Section release.
(** [ed25519.Verify], of a key, a message and a signature. *)
Context (Verify : list Z → string → list Z → bool).

(** The release key of the build. *)
Definition releasesAreSigned (key : string) : bool := negb (String.eqb (TrimSpace key) "").

Definition checkReleaseSignature (pub : list Z) (tag sums sig : string) : result error unit :=
  match DecodeString StdEncoding (TrimSpace sig) with
  | None => Err (Unreadable tag)
  | Some raw => if Verify pub (ReleaseSignedMessage tag sums) raw then Ok tt else Err (NotSigned tag)
  end.

Definition verifyChecksumSignature (key tag sums : string) (l : list source) : result error unit :=
  if negb (releasesAreSigned key) then Ok tt
  else match DecodeString StdEncoding (TrimSpace key) with
  | None => Err BadKey
  | Some pub =>
      if negb (length pub =? PublicKeySize)%nat then Err BadKey
      else match fetchReleaseAsset tag sigAssetName l with
      | None => Err (NoSignature tag)
      | Some sig => checkReleaseSignature pub tag sums sig
      end
  end.

(** The sources each step finds. *)
Record network : Type := mkNetwork { for_api : list source; for_raw : list source; for_asset : list source; for_sums : list source; for_sig : list source }.

(** [ApplyUpdate], up to the snapshot: a tag and an archive, or that there is
    nothing newer. *)
Definition obtain (key running asset : string) (beta : bool) (n : network) : result error (option (string * string)) :=
  match latestTag beta (for_api n) (for_raw n) with
  | None => Err NoTag
  | Some tag =>
      if negb (newerVersion tag running) then Ok None
      else match downloadAsset tag asset (for_asset n) with
      | None => Err NoDownload
      | Some archive =>
          match fetchChecksums tag asset (for_sums n) with
          | None => Err (NoChecksums tag)
          | Some (sums, want) =>
              if String.eqb want "" then Err (NotListed tag)
              else match verifyChecksumSignature key tag sums (for_sig n) with
              | Err e => Err e
              | Ok _ => if verifyChecksum archive want then Ok (Some (tag, archive)) else Err Mismatch
              end
          end
      end
  end.

(** *** Lemmas *)

Lemma first_of_Some {A} l url (use : response → option A) a : first_of l url use = Some a → ∃ s r, s ∈ l ∧ s url = Some r ∧ use r = Some a.
Proof.
  induction l as [|s l IH]; [done|]. cbn. intros H. assert (first_of l url use = Some a → ∃ s0 r, s0 ∈ s :: l ∧ s0 url = Some r ∧ use r = Some a) as HA.
  { intros Hl. destruct (IH Hl) as (s0 & r & ? & ?). exists s0, r. split; [by right|done]. }
  destruct (s url) as [r|] eqn:E; [|by apply HA]. destruct (use r) as [x|] eqn:Ex; [|by apply HA]. exists s, r. split; [by left|]. split; [done|]. by rewrite Ex.
Qed.

Lemma latestTag_stable api raw tag : latestTag false api raw = Some tag → isPrerelease tag = false.
Proof.
  unfold latestTag. destruct (first_of api _ _) as [t|] eqn:E; intros H.
  - injection H as <-. apply first_of_Some in E as (_ & r & _ & _ & H). destruct (_ =? 200); [|done]. unfold filled in H. destruct (String.eqb_spec (pickTag (limited (256 * kb) (Body r)) false) ""); [done|].
    injection H as <-. by destruct (pickTag_stable (limited (256 * kb) (Body r))).
  - apply first_of_Some in H as (_ & r & _ & _ & H). cbv zeta in H. destruct (_ && _) eqn:E2; [|done]. injection H as <-. apply andb_prop in E2 as [_ E2].
    apply andb_prop in E2 as [E2 _]. by apply valid_release.
Qed.

(** A message is of one tag and one list: a tag that is asked for in a URL has no
    line break. *)
Lemma signed_message_inj tag sums tag' sums' : free "010" tag → free "010" tag' → ReleaseSignedMessage tag sums = ReleaseSignedMessage tag' sums' → tag = tag' ∧ sums = sums'.
Proof. intros H1 H2 H%append_inv_l. by apply split_unique in H. Qed.

(** What the updater goes on with. *)
Definition vouched (key asset tag archive : string) : Prop :=
  ∃ sums, hashFor sums asset ≠ "" ∧ EqualFold (hex (Sha.sha256 (to_bytes archive))) (hashFor sums asset) = true ∧
    (releasesAreSigned key = true → ∃ pub sig, DecodeString StdEncoding (TrimSpace key) = Some pub ∧ length pub = PublicKeySize ∧
       Verify pub (ReleaseSignedMessage tag sums) sig = true).

Lemma signature_checked key tag sums l : verifyChecksumSignature key tag sums l = Ok tt → releasesAreSigned key = true →
  ∃ pub sig, DecodeString StdEncoding (TrimSpace key) = Some pub ∧ length pub = PublicKeySize ∧ Verify pub (ReleaseSignedMessage tag sums) sig = true.
Proof.
  unfold verifyChecksumSignature. intros H Hr. rewrite Hr in H. cbn [negb] in H. destruct (DecodeString _ _) as [pub|]; [|done]. destruct (Nat.eqb_spec (length pub) PublicKeySize); [|done]. cbn [negb] in H.
  destruct (fetchReleaseAsset _ _ _) as [sig|]; [|done]. unfold checkReleaseSignature in H. destruct (DecodeString _ _) as [raw|]; [|done].
  destruct (Verify _ _ _) eqn:E; [|done]. by exists pub, raw.
Qed.

Lemma obtained key running asset beta n tag archive : obtain key running asset beta n = Ok (Some (tag, archive)) →
  newerVersion tag running = true ∧ vouched key asset tag archive ∧ (beta = false → isPrerelease tag = false).
Proof.
  unfold obtain. destruct (latestTag _ _ _) as [t|] eqn:Et; [|done]. destruct (newerVersion t running) eqn:En; [|done]. cbn [negb].
  destruct (downloadAsset _ _ _) as [a|]; [|done]. destruct (fetchChecksums _ _ _) as [[sums want]|] eqn:Es; [|done]. destruct (String.eqb_spec want ""); [done|].
  destruct (verifyChecksumSignature _ _ _ _) as [[]|] eqn:Ev; [|done]. destruct (verifyChecksum a want) eqn:Ec; [|done]. intros [= <- <-]. split; [done|].
  split; [|intros ->; by eapply latestTag_stable]. exists sums. apply first_of_Some in Es as (_ & r & _ & _ & H). destruct (_ =? 404); [by simplify_eq|]. destruct (_ =? 200); [|done]. cbn [negb] in H.
  apply bind_Some in H as (b & _ & H). injection H as -> <-. split; [done|]. split; [done|]. by eapply signature_checked.
Qed.

End release.

(** The port of a relay is between 20000 and 40000, but for a tunnel without a
    token. *)
Lemma relay_port token : token ≠ "" → 20000 ≤ SocksPortForToken token < 40000.
Proof. intros H. unfold SocksPortForToken. apply String.eqb_neq in H as ->. pose proof (Z.mod_pos_bound (get_be (take 4 (Sha.sha256 (to_bytes ("backpack-socks-v1:" +:+ token))))) 20000 eq_refl). lia. Qed.

End Release.

(** ** A copy of the installation *)

Module Snapshot.
Import Backup.Tree Backup.Write.

Notation file := (node string).

(** [copyFile]: a file that is there keeps its mode. *)
Definition copyFile (p : path) (b : string) (mode : Z) (t : tree string) : option (tree string) :=
  t ← MkdirAll (removelast p) 493 t;
  match t !! p with
  | Some (Directory _) | Some Special => None
  | Some (File _ m) => Some (<[p := File b m]> t)
  | None => Some (<[p := File b mode]> t)
  end.

(** One thing that is copied; what is neither a file nor a directory is not. *)
Definition copy_node (x : path * file) (t : tree string) : option (tree string) :=
  match x with
  | (p, Directory _) => MkdirAll p 493 t
  | (p, File b m) => copyFile p b m t
  | (_, Special) => Some t
  end.

Fixpoint copy_nodes (l : list (path * file)) (t : tree string) : option (tree string) :=
  match l with
  | [] => Some t
  | x :: l => t ← copy_node x t; copy_nodes l t
  end.

Definition copyTree (src dst : tree string) : option (tree string) := copy_nodes (walk src) dst.

Definition snapshotRetention : nat := 5.

(** The directories that are removed, of their names. *)
Definition pruneSnapshots (names : list string) : list string := drop snapshotRetention (rev (GoSort.Strings names)).

(** The program, the configuration and the units that are there. *)
Record machine : Type := mkMachine { binary : option string; config : option (tree string); units : gset string }.

Definition WebUIService : string := "backpack-webui.service".
Definition MonitorService : string := "backpack-monitor.service".

Record snapshot : Type := mkSnapshot { kept_binary : option string; kept_config : tree string; of_version : string }.

(** [TakeSnapshot]; [ok] is whether what it writes is written. *)
Definition TakeSnapshot (ok : bool) (running : string) (m : machine) : option snapshot :=
  if ok then
    t ← config m;
    t ← copyTree t ∅;
    Some (mkSnapshot (binary m) t running)
  else None.

Section tunnels.
(** Whether a file decodes to a tunnel, and the unit of a name. *)
Context (is_tunnel : string → bool) (ServiceName : string → string).

(** [core.List], of the names. *)
Definition List (t : option (tree string)) : list string :=
  match t with
  | None => []
  | Some t =>
      GoSort.Strings (omap (λ x : path * file, match x with
        | ([n], File b _) => if is_tunnel b then Release.strip_suffix n ".toml" else None
        | _ => None
        end) (map_to_list t))
  end.

(** [RestoreSnapshot]; [bin_ok] is whether the program is put back, [unit_ok]
    whether a unit is written. *)
Definition RestoreSnapshot (bin_ok : bool) (unit_ok : string → bool) (s : snapshot) (m : machine) : machine * bool :=
  match (match kept_binary s with Some b => if bin_ok then Some (mkMachine (Some b) (config m) (units m)) else None | None => Some m end) with
  | None => (m, false)
  | Some m =>
      match copyTree (kept_config s) (default ∅ (config m)) with
      | None => (m, false)
      | Some t =>
          let written := list_to_set (ServiceName <$> List.filter unit_ok (List (Some t))) in
          let monitor : gset string := if unit_ok MonitorService then {[ MonitorService ]} else ∅ in
          (mkMachine (binary m) (Some t) (units m ∪ written ∪ monitor), true)
      end
  end.

End tunnels.

(** *** Lemmas *)

Lemma copyFile_spec p b m t t' : copyFile p b m t = Some t' →
  (∃ m', t' !! p = Some (File b m')) ∧ ∀ q n, q ≠ p → t !! q = Some n → t' !! q = Some n.
Proof.
  unfold copyFile. intros H. apply bind_Some in H as (t1 & Hm & H). pose proof (Backup.Sound.MkdirAll_keeps _ _ _ _ Hm) as Hk.
  assert (∃ m', t' = <[p := File b m']> t1) as [m' ->] by (destruct (t1 !! p) as [[]|]; try done; injection H as <-; by eexists).
  split; [exists m'; by rewrite lookup_insert_eq|]. intros q n Hq Hn. rewrite lookup_insert_ne by done. by apply Hk.
Qed.

Lemma copy_node_keeps x t t' : copy_node x t = Some t' → ∀ q n, q ≠ fst x → t !! q = Some n → t' !! q = Some n.
Proof.
  destruct x as [p [m|b m|]]; cbn; intros H q n Hq Hn; [by eapply Backup.Sound.MkdirAll_keeps| |by simplify_eq].
  apply copyFile_spec in H as [_ H]. by apply H.
Qed.

Lemma copy_nodes_keep l t t' : copy_nodes l t = Some t' → ∀ q n, q ∉ fst <$> l → t !! q = Some n → t' !! q = Some n.
Proof.
  revert t. induction l as [|x l IH]; intros t H q n Hq Hn; cbn in H; [by simplify_eq|]. apply bind_Some in H as (t1 & H1 & H). cbn in Hq. apply not_elem_of_cons in Hq as [Hx Hq].
  eapply IH; [exact H|done|]. by eapply copy_node_keeps.
Qed.

Lemma copy_nodes_place l t t' : copy_nodes l t = Some t' → NoDup (fst <$> l) → ∀ p b m, (p, File b m) ∈ l → ∃ m', t' !! p = Some (File b m').
Proof.
  revert t. induction l as [|x l IH]; intros t H Hd p b m Hp; [by apply elem_of_nil in Hp|]. cbn in H. apply bind_Some in H as (t1 & H1 & H). cbn in Hd. apply NoDup_cons in Hd as [Hx Hd].
  apply elem_of_cons in Hp as [<-|Hp]; [|by eapply IH]. cbn in H1. apply copyFile_spec in H1 as [[m' Hm] _]. exists m'. by eapply copy_nodes_keep.
Qed.

(** What is copied has every file of what it is a copy of. *)
Lemma copyTree_files src dst t : copyTree src dst = Some t → ∀ p b m, src !! p = Some (File b m) → ∃ m', t !! p = Some (File b m').
Proof.
  intros H p b m Hp. assert (walk src ≡ₚ map_to_list src) as Hperm by apply merge_sort_Permutation.
  eapply copy_nodes_place; [exact H| |rewrite Hperm; by apply elem_of_map_to_list]. rewrite Hperm. apply NoDup_fst_map_to_list.
Qed.

End Snapshot.

(** ** An update *)

Module Install.
Import Version Release Snapshot Backup.Tree.

(** [filepath.Base] of a name in an archive. *)
Fixpoint strip_slashes (l : list ascii) : list ascii :=
  match l with c :: r => if Ascii.eqb c "/" then strip_slashes r else l | [] => [] end.

Definition Base (s : string) : string :=
  if String.eqb s "" then "."
  else
    let s := string_of_list_ascii (rev (strip_slashes (rev (list_ascii_of_string s)))) in
    if String.eqb s "" then "/" else Backup.Names.Base s.

Notation archive := (Backup.Restore.archive string).

(** [extractBinaryTo]: the first file of that name. *)
Fixpoint first_binary (l : list (Backup.Restore.entry string)) : option string :=
  match l with
  | [] => None
  | e :: l =>
      match Backup.Restore.Typeflag e with
      | Backup.Restore.TypeReg => if String.eqb (Base (Backup.Restore.Name e)) "backpack" then Some (Backup.Restore.Data e) else first_binary l
      | _ => first_binary l
      end
  end.

Definition extractBinaryTo (a : option archive) : option string := a ← a; first_binary (Backup.Restore.Entries a).

Definition InstallDir : string := "/root/BackPack".
Definition installPath : path := ["install_path"].

(** The record of the directory, when there is none. *)
Definition record_path (ok : bool) (t : option (tree string)) : option (tree string) :=
  let here := match (t ≫= (.!! installPath)) with Some (File b _) => TrimSpace b | _ => "" end in
  if negb (String.eqb here "") || negb ok then t
  else Snapshot.copyFile installPath (InstallDir +:+ String "010" "") 420 (default ∅ t) ≫= Some.

Inductive outcome : Type :=
  | NoSnapshot | NoBinary | NotReplaced
  | RolledBack (bad : list string) (version : string) | RollbackFailed (bad : list string).

Section install.
Context (is_tunnel : string → bool) (ServiceName : string → string).
(** The reader of archives, what an update does to the configuration, and whether
    a service comes up, in twenty seconds, on a program and a configuration. *)
Context (untar : string → option archive) (MigrateAfterUpdate : option (tree string) → option (tree string)).
Context (WaitServiceActive : option string → option (tree string) → string → bool).

(** What works. *)
Record luck : Type := mkLuck {
  snapshot_ok : bool; replaced : bool; recorded : bool; monitor_unit : bool;
  bin_back : bool; unit_back : string → bool
}.

Definition unhealthyAfterUpdate (m : machine) : list string :=
  let up := WaitServiceActive (binary m) (config m) in
  (if bool_decide (WebUIService ∈ units m) && negb (up WebUIService) then ["web panel"] else []) ++
  (if bool_decide (MonitorService ∈ units m) && negb (up MonitorService) then ["monitor"] else []) ++
  List.filter (λ t, bool_decide (ServiceName t ∈ units m) && negb (up (ServiceName t))) (List is_tunnel (config m)).

(** What an update from the network and one from a file have in common: from the
    snapshot to the check of the services, or back. *)
Definition install (lk : luck) (running archive : string) (m : machine) : machine * result outcome unit :=
  match TakeSnapshot (snapshot_ok lk) running m with
  | None => (m, Err NoSnapshot)
  | Some s =>
      match extractBinaryTo (untar archive) with
      | None => (m, Err NoBinary)
      | Some b =>
          if negb (replaced lk) then (m, Err NotReplaced)
          else
            let conf := MigrateAfterUpdate (record_path (recorded lk) (config m)) in
            let monitor : gset string := if monitor_unit lk then {[ MonitorService ]} else ∅ in
            let m' := mkMachine (Some b) conf (units m ∪ monitor) in
            match unhealthyAfterUpdate m' with
            | [] => (m', Ok tt)
            | bad =>
                match RestoreSnapshot is_tunnel ServiceName (bin_back lk) (unit_back lk) s m' with
                | (m'', true) => (m'', Err (RolledBack bad (of_version s)))
                | (m'', false) => (m'', Err (RollbackFailed bad))
                end
            end
      end
  end.

Inductive applied : Type := UpToDate | Refused (e : Release.error) | Tried (tag : string) (r : result outcome unit).

(** [ApplyUpdate]. *)
Definition ApplyUpdate (Verify : list Z → string → list Z → bool) (key running asset : string) (beta : bool) (n : network) (lk : luck) (m : machine) : machine * applied :=
  match obtain Verify key running asset beta n with
  | Err e => (m, Refused e)
  | Ok None => (m, UpToDate)
  | Ok (Some (tag, archive)) => let '(m', r) := install lk running archive m in (m', Tried tag r)
  end.

(** A directory with an archive, and a list of checksums beside it. *)
Inductive local_error : Type := Gone | Unlisted | Differs | Failed (o : outcome).

Definition list_name : string := "SHA256SUMS".

Definition names_other (asset : string) (dir : gmap string string) (line : string) : bool :=
  match rev (Fields line) with
  | name :: _ :: _ => let name := TrimPrefix name "*" in negb (String.eqb name asset) && bool_decide (is_Some (dir !! name))
  | _ => false
  end.

Definition namesAnotherFile (sums asset : string) (dir : gmap string string) : bool := existsb (names_other asset dir) (Split sums "010").

(** [ApplyLocalUpdate], of an archive and whether a list was beside it when it was
    found; [removed] is whether it can be removed. *)
Definition ApplyLocalUpdate (running asset : string) (listed removed : bool) (lk : luck) (dir : gmap string string) (m : machine) :
  machine * gmap string string * result local_error unit :=
  match dir !! asset with
  | None => (m, dir, Err Gone)
  | Some archive =>
      let checked :=
        if listed then
          match dir !! list_name with
          | None => Err Unlisted
          | Some sums =>
              let want := hashFor sums asset in
              if String.eqb want "" then Err Unlisted else if verifyChecksum archive want then Ok tt else Err Differs
          end
        else Ok tt in
      match checked with
      | Err e => (m, dir, Err e)
      | Ok _ =>
          let '(m', r) := install lk running archive m in
          match r with
          | Err o => (m', dir, Err (Failed o))
          | Ok _ =>
              let dir := if removed then delete asset dir else dir in
              let dir := if listed then match dir !! list_name with
                                        | Some sums => if namesAnotherFile sums asset dir then dir else delete list_name dir
                                        | None => dir
                                        end
                         else dir in
              (m', dir, Ok tt)
          end
      end
  end.

(** *** Lemmas *)

(** Every file that was there is there, with the program there was. *)
Definition back (m m' : machine) : Prop :=
  (∀ b, binary m = Some b → binary m' = Some b) ∧
  ∀ t, config m = Some t → ∃ t', config m' = Some t' ∧ ∀ p b mode, t !! p = Some (File b mode) → ∃ mode', t' !! p = Some (File b mode').

Lemma taken_files ok running m s : TakeSnapshot ok running m = Some s → kept_binary s = binary m ∧
  ∃ t, config m = Some t ∧ ∀ p b mode, t !! p = Some (File b mode) → ∃ mode', kept_config s !! p = Some (File b mode').
Proof.
  unfold TakeSnapshot. destruct ok; [|done]. intros H. apply bind_Some in H as (t & Ht & H). apply bind_Some in H as (t' & Hc & [= <-]). split; [done|]. exists t. split; [done|].
  by eapply copyTree_files.
Qed.

Lemma restored_back bin_ok unit_ok ok running m m1 m2 s : TakeSnapshot ok running m = Some s →
  RestoreSnapshot is_tunnel ServiceName bin_ok unit_ok s m1 = (m2, true) → back m m2.
Proof.
  intros (Hb & t & Ht & Hf)%taken_files H. unfold RestoreSnapshot in H. rewrite Hb in H. destruct (binary m) as [b|] eqn:Eb.
  - destruct bin_ok; [|done]. cbn [config binary units] in H. destruct (copyTree _ _) as [t'|] eqn:Ec; [|done]. injection H as <-. split; [intros c Hc; cbn; congruence|].
    intros t0 Ht0. rewrite Ht0 in Ht. injection Ht as ->. exists t'. split; [done|]. intros p c mode Hp. destruct (Hf _ _ _ Hp) as [mode' Hp']. by eapply copyTree_files.
  - destruct (copyTree _ _) as [t'|] eqn:Ec; [|done]. injection H as <-. split; [intros c Hc; congruence|].
    intros t0 Ht0. rewrite Ht0 in Ht. injection Ht as ->. exists t'. split; [done|]. intros p c mode Hp. destruct (Hf _ _ _ Hp) as [mode' Hp']. by eapply copyTree_files.
Qed.

Lemma installed lk running archive m m' r : install lk running archive m = (m', r) →
  match r with
  | Ok _ => unhealthyAfterUpdate m' = [] ∧ ∃ b, extractBinaryTo (untar archive) = Some b ∧ binary m' = Some b
  | Err (RolledBack _ _) => back m m'
  | Err (RollbackFailed _) => bin_back lk = false ∨ ∃ s, TakeSnapshot (snapshot_ok lk) running m = Some s ∧ copyTree (kept_config s) (default ∅ (MigrateAfterUpdate (record_path (recorded lk) (config m)))) = None
  | Err _ => m' = m
  end.
Proof.
  unfold install. destruct (TakeSnapshot _ _ _) as [s|] eqn:Es; [|by intros [= <- <-]]. destruct (extractBinaryTo _) as [b|] eqn:Eb; [|by intros [= <- <-]].
  destruct (replaced lk); [|by intros [= <- <-]]. cbn [negb]. cbv zeta. set (m1 := mkMachine _ _ _). destruct (unhealthyAfterUpdate m1) as [|x bad] eqn:Eu.
  - intros [= <- <-]. split; [done|]. by exists b.
  - destruct (RestoreSnapshot _ _ _ _ _ _) as [m2 [|]] eqn:Er; intros [= <- <-]; [by eapply restored_back|].
    unfold RestoreSnapshot in Er. destruct (kept_binary s); [destruct (bin_back lk); [|by left]|]; right; exists s; (split; [done|]); cbn [config] in Er; by destruct (copyTree _ _).
Qed.

(** C36: an update puts nothing in the place of the program that was not vouched for: it is newer than what runs, on the stable channel no pre-release, its archive has the checksum its release lists, and in a build with a release key that list is signed for that tag. It ends with every service up on it, or with nothing changed, or with the program and every file there was before back in place; only when the way back fails, which it says, is neither so. *)
Theorem update_or_back Verify key running asset beta n lk m :
  let '(m', r) := ApplyUpdate Verify key running asset beta n lk m in
  match r with
  | UpToDate | Refused _ => m' = m
  | Tried tag r =>
      ∃ archive, newerVersion tag running = true ∧ vouched Verify key asset tag archive ∧ (beta = false → isPrerelease tag = false) ∧
      match r with
      | Ok _ => unhealthyAfterUpdate m' = [] ∧ ∃ b, extractBinaryTo (untar archive) = Some b ∧ binary m' = Some b
      | Err (RolledBack _ _) => back m m'
      | Err (RollbackFailed _) => bin_back lk = false ∨ ∃ s, TakeSnapshot (snapshot_ok lk) running m = Some s ∧ copyTree (kept_config s) (default ∅ (MigrateAfterUpdate (record_path (recorded lk) (config m)))) = None
      | Err _ => m' = m
      end
  end.
Proof.
  unfold ApplyUpdate. destruct (obtain _ _ _ _ _ _) as [[[tag archive]|]|e] eqn:Eo; [|done|done]. destruct (install _ _ _ _) as [m' r] eqn:Ei. exists archive.
  apply obtained in Eo as (H1 & H2 & H3). split_and!; [done|done|done|]. by apply installed in Ei.
Qed.

(** An update from a file: the list that is there is believed, a failure leaves
    the directory as it was, and success takes the archive away. *)
Lemma local_update running asset listed removed lk dir m :
  let '(m', dir', r) := ApplyLocalUpdate running asset listed removed lk dir m in
  match r with
  | Ok _ => unhealthyAfterUpdate m' = [] ∧ (∃ a b, dir !! asset = Some a ∧ extractBinaryTo (untar a) = Some b ∧ binary m' = Some b ∧
              (listed = true → ∃ sums, dir !! list_name = Some sums ∧ verifyChecksum a (hashFor sums asset) = true)) ∧
            (removed = true → dir' !! asset = None) ∧ ∀ f, f ≠ asset → f ≠ list_name → dir' !! f = dir !! f
  | Err (Failed (RolledBack _ _)) => dir' = dir ∧ back m m'
  | Err (Failed (RollbackFailed _)) => dir' = dir
  | Err _ => dir' = dir ∧ m' = m
  end.
Proof.
  unfold ApplyLocalUpdate. destruct (dir !! asset) as [a|] eqn:Ea; [|done]. cbv zeta.
  assert (∀ r : result local_error unit, r = (if listed then
      match dir !! list_name with
      | None => Err Unlisted
      | Some sums => if String.eqb (hashFor sums asset) "" then Err Unlisted else if verifyChecksum a (hashFor sums asset) then Ok tt else Err Differs
      end else Ok tt) → match r with Ok _ => listed = true → ∃ sums, dir !! list_name = Some sums ∧ verifyChecksum a (hashFor sums asset) = true
                                  | Err e => match e with Failed _ => False | _ => True end end) as HA.
  { intros r ->. destruct listed; [|done]. destruct (dir !! list_name) as [sums|]; [|done]. destruct (String.eqb _ _); [done|]. destruct (verifyChecksum _ _) eqn:E; [|done]. intros _. by exists sums. }
  specialize (HA _ eq_refl). destruct (if listed then _ else _) as [[]|e]; [|by destruct e]. destruct (install _ _ _ _) as [m' r] eqn:Ei. apply installed in Ei.
  destruct r as [[]|o]; [|destruct o; tauto || (split; [done|exact Ei])]. destruct Ei as (H1 & b & H2 & H3). split; [done|]. split; [by exists a, b|].
  set (dir1 := if removed then delete asset dir else dir).
  assert (∀ d, d = dir1 ∨ d = delete list_name dir1 → (removed = true → d !! asset = None) ∧ ∀ f, f ≠ asset → f ≠ list_name → d !! f = dir !! f) as HB.
  { assert ((removed = true → dir1 !! asset = None) ∧ ∀ f, f ≠ asset → dir1 !! f = dir !! f) as [HC HD].
    { unfold dir1. destruct removed; [|done]. split; [intros _; apply lookup_delete_eq|]. intros f Hf. by rewrite lookup_delete_ne. }
    intros d [->| ->]; (split; [intros Hr|intros f Hf Hl]); [by apply HC|by apply HD| |rewrite lookup_delete_ne by done; by apply HD].
    destruct (decide (asset = list_name)) as [->|]; [apply lookup_delete_eq|]. rewrite lookup_delete_ne by done. by apply HC. }
  apply HB. destruct listed; [|by left]. destruct (dir1 !! list_name); [|by left]. destruct (namesAnotherFile _ _ _); [by left|by right].
Qed.

End install.

(** A release that is found, vouched for and put in place, and one whose tunnel
    does not come up on it. *)
Definition asset : string := AssetName "amd64" "".

Definition site (url : string) : option response :=
  if String.eqb url (api_url false) then Some (mkResponse 200 (String quote ("tag_name" +:+ String quote (": " +:+ String quote ("v2.0.0" +:+ String quote "")))) true)
  else if String.eqb url (asset_url "v2.0.0" asset) then Some (mkResponse 200 "tgz" true)
  else if String.eqb url (asset_url "v2.0.0" "SHA256SUMS") then Some (mkResponse 200 (hex (Sha.sha256 (to_bytes "tgz")) +:+ "  " +:+ asset) true)
  else if String.eqb url (asset_url "v2.0.0" "SHA256SUMS.sig") then Some (mkResponse 200 "c2ln" true)
  else None.

Definition online : network := let l := sources None (λ _, None) (Some site) in mkNetwork l l l l l.

Definition before : machine := mkMachine (Some "v1") (Some {[ ["iran.toml"] := File "tunnel" 384 ]}) {[ "backpack-iran.service" ]}.

Definition try (up : option string → string → bool) : machine * applied :=
  ApplyUpdate (λ s, String.eqb s "tunnel") (λ n, "backpack-" +:+ n +:+ ".service")
    (λ _, Some (Backup.Restore.mkArchive [Backup.Restore.mkEntry "./backpack" Backup.Restore.TypeReg 493 "v2"] true true)) (λ c, c) (λ b _, up b)
    (λ _ m _, HasPrefix m "backpack release v2.0.0") "uDVeC9NUFceAuhg53ZWbBNTVSaMC8tEvtwWmcDZmV9Q=" "v1.9.0" asset false online
    (mkLuck true true true true true (λ _, true)) before.

Lemma updates : match try (λ _ _, true) with
  | (m, Tried tag (Ok _)) => tag = "v2.0.0" ∧ binary m = Some "v2"
  | _ => False
  end.
Proof. by vm_compute. Qed.

Lemma goes_back : match try (λ b s, negb (bool_decide (b = Some "v2") && String.eqb s "backpack-iran.service")) with
  | (m, Tried _ (Err (RolledBack bad _))) => bad = ["iran"] ∧ binary m = Some "v1" ∧ (t ← config m; t !! ["iran.toml"]) = Some (File "tunnel" 384)
  | _ => False
  end.
Proof. by vm_compute. Qed.

End Install.

(** ** What is remembered of the last look *)

Module Notice.
Import Version.

(** [UpdateState]; times are seconds. *)
Record UpdateState : Type := mkState { Tag : string; Checked : Z; Notified : string }.
#[export] Instance UpdateState_eta : Eta UpdateState := fun s => mkState (Tag s) (Checked s) (Notified s).

Section notice.
(** The version that runs. *)
Context (running : string).

Definition UpdateAvailable (s : UpdateState) : option string :=
  if String.eqb (Tag s) "" || negb (newerVersion (Tag s) running) then None else Some (Tag s).

(** [refreshUpdateCheck], of what was found; what is not saved is not there. *)
Definition refreshUpdateCheck (now : Z) (found : option string) (saved : bool) (s : UpdateState) : UpdateState :=
  match found with
  | Some tag => if String.eqb tag "" || negb saved then s else mkState tag now (Notified s)
  | None => s
  end.

Definition RefreshUpdateCheckIfStale (maxAge now : Z) (found : option string) (saved : bool) (s : UpdateState) : UpdateState :=
  if now - Checked s <? maxAge then s else refreshUpdateCheck now found saved s.

Definition MarkUpdateNotified (tag : string) (saved : bool) (s : UpdateState) : UpdateState :=
  if saved then mkState (Tag s) (Checked s) tag else s.

Definition UpdateNeedsNotifying (s : UpdateState) : option string :=
  match UpdateAvailable s with
  | Some tag => if String.eqb (Notified s) tag then None else Some tag
  | None => None
  end.

(** A version is announced once, and only one that is newer than what runs; a look
    that finds nothing takes nothing back. *)
Lemma announced_once s tag : UpdateNeedsNotifying s = Some tag → newerVersion tag running = true ∧
  UpdateNeedsNotifying (MarkUpdateNotified tag true s) = None ∧
  ∀ now saved, UpdateNeedsNotifying (refreshUpdateCheck now None saved (MarkUpdateNotified tag true s)) = None.
Proof.
  unfold UpdateNeedsNotifying. destruct (UpdateAvailable s) as [t|] eqn:E; [|done]. destruct (String.eqb (Notified s) t); [done|]. intros [= ->].
  assert (UpdateAvailable (MarkUpdateNotified tag true s) = Some tag) as HA by exact E. cbn [refreshUpdateCheck]. rewrite HA. cbn [MarkUpdateNotified Notified]. rewrite String.eqb_refl.
  split; [|done]. unfold UpdateAvailable in E. destruct (String.eqb (Tag s) ""); [done|]. destruct (newerVersion (Tag s) running) eqn:En; [|done]. by injection E as <-.
Qed.

End notice.

(** Once the version that was found is the one that runs, there is nothing to
    say. *)
Lemma notice_goes s : UpdateAvailable (Tag s) s = None.
Proof. unfold UpdateAvailable. rewrite newer_irrefl, orb_true_r. done. Qed.

End Notice.
