(* ===== verification/RevUdp.v ===== *)
(** The reverse tunnel over UDP
    ([internal/server/transport/udp.go], [internal/client/transport/udp.go]):
    - Module [Table]: who sends to a socket, with what waits of each
      ([activeConnections] and the payload channels);
    - Module [Server]: one forwarded port: its flows, the pool's connections, the
      pairing of the two and the copying between them;
    - Module [Client]: a pool connection, until it has its target.

    The goroutines of the server that read the two sockets, pair, and copy take a
    step at a time, in any order; what one does under a lock is one step. The limiter
    and the pool are shared by all the forwarded ports of a tunnel: one port is
    followed in full, and what the others do to the two is events of their own,
    [deed]: they take and give back slots, take connections of the pool, write to
    those, read from them and drop them. A datagram is a string; times are
    milliseconds. The control channel is that of RevServer.v, the bandwidth limit
    and the counters are left out. *)

From Stdlib Require Import Ascii String.
From stdpp Require Import gmap strings relations.
From S2P Require Import Prelude GoStr RevWire RevPairing Ports.
Import GoStr.
Open Scope string_scope.
Open Scope list_scope.
Open Scope Z_scope.

Module Table.

(** An entry: [LocalUDPConn] and [TunnelUDPConn], with all that was ever put in
    its payload channel. *)
Record peer : Type := mkPeer { addr : string; timeCreated : Z; payload : list string; closed : bool; accepted : list string }.

(** [activeConnections], and every connection there was. *)
Record table : Type := mkTable { names : gmap string nat; peers : gmap nat peer; next : nat }.

Definition empty : table := mkTable ∅ ∅ 0.

(** [udpPayloadQueue]. *)
Definition udpPayloadQueue : nat := 256.

(** A new connection under an address. *)
Definition add (a : string) (now : Z) (t : table) : table :=
  mkTable (<[a := next t]> (names t)) (<[next t := mkPeer a now [] false []]> (peers t)) (S (next t)).

(** A datagram for a connection, unless there is no room. *)
Definition put (id : nat) (b : string) (t : table) : table :=
  match peers t !! id with
  | Some p =>
      if (length (payload p) <? udpPayloadQueue)%nat then
        mkTable (names t) (<[id := mkPeer (addr p) (timeCreated p) (payload p ++ [b]) (closed p) (accepted p ++ [b])]> (peers t)) (next t)
      else t
  | None => t
  end.

Definition take (id : nat) (t : table) : option (string * table) :=
  p ← peers t !! id;
  match payload p with
  | b :: q => Some (b, mkTable (names t) (<[id := mkPeer (addr p) (timeCreated p) q (closed p) (accepted p)]> (peers t)) (next t))
  | [] => None
  end.

(** [dropLocalFlow] and [dropTunnelConn], of the table: the channel is closed and
    the entry removed, if the entry is still this connection. *)
Definition drop_ (id : nat) (t : table) : table :=
  match peers t !! id with
  | Some p =>
      if bool_decide (names t !! addr p = Some id) then
        mkTable (delete (addr p) (names t)) (<[id := mkPeer (addr p) (timeCreated p) (payload p) true (accepted p)]> (peers t)) (next t)
      else t
  | None => t
  end.

(** *** The table and the connections somebody works on *)

Record ok (t : table) (live : list nat) : Prop := {
  ok_once : NoDup live;
  ok_live : ∀ id, id ∈ live → ∃ p, peers t !! id = Some p ∧ closed p = false ∧ names t !! addr p = Some id;
  ok_named : ∀ a id, names t !! a = Some id → id ∈ live ∧ ∃ p, peers t !! id = Some p ∧ addr p = a;
  ok_next : ∀ id p, peers t !! id = Some p → (id < next t)%nat
}.

Lemma ok_empty : ok empty [].
Proof. split; [constructor|by intros id ?%elem_of_nil|done|done]. Qed.

Lemma ok_perm t l k : l ≡ₚ k → ok t l → ok t k.
Proof. intros H [H1 H2 H3 H4]. split; [by rewrite <- H|intros id Hi; apply H2; by rewrite H|intros a id Hi; rewrite <- H; by apply H3|done]. Qed.

Lemma ok_add t l a now : ok t l → names t !! a = None → ok (add a now t) (next t :: l).
Proof.
  intros [H1 H2 H3 H4] Ha. assert (∀ id, id ∈ l → id ≠ next t) as Hl.
  { intros id Hi ->. destruct (H2 _ Hi) as (p & Hp & _). apply H4 in Hp. lia. }
  split.
  - constructor; [|done]. intros Hi. by apply Hl in Hi.
  - intros id [->|Hi]%elem_of_cons; cbn [peers names add].
    + eexists. rewrite lookup_insert_eq. split; [reflexivity|]. split; [done|]. cbn. by rewrite lookup_insert_eq.
    + destruct (H2 _ Hi) as (p & Hp & Hc & Hn). exists p. rewrite lookup_insert_ne by (apply not_eq_sym, Hl, Hi). split; [done|]. split; [done|].
      rewrite lookup_insert_ne; [done|]. intros Hx. rewrite <- Hx in Hn. congruence.
  - intros b id. cbn [peers names add]. rewrite lookup_insert_Some. intros [[<- <-]|[Hb Hn]].
    + split; [by left|]. eexists. rewrite lookup_insert_eq. split; [reflexivity|done].
    + destruct (H3 _ _ Hn) as (Hi & p & Hp & Hpa). split; [by right|]. exists p. rewrite lookup_insert_ne by (apply not_eq_sym, Hl, Hi). done.
  - intros id p. cbn [peers next add]. rewrite lookup_insert_Some. intros [[<- _]|[_ Hp]]; [lia|]. apply H4 in Hp. lia.
Qed.

(** What changes neither name nor whether it is closed leaves the table as it is. *)
Lemma ok_update t l id p p' : ok t l → peers t !! id = Some p → addr p' = addr p → closed p' = closed p →
  ok (mkTable (names t) (<[id := p']> (peers t)) (next t)) l.
Proof.
  intros [H1 H2 H3 H4] Hp Ha Hc. split; [done| | |]; cbn [peers names next].
  - intros i Hi. destruct (H2 _ Hi) as (q & Hq & Hqc & Hn). destruct (decide (i = id)) as [->|Hne].
    + exists p'. rewrite lookup_insert_eq. split; [done|]. rewrite Ha, Hc. by simplify_eq.
    + exists q. by rewrite lookup_insert_ne.
  - intros a i Hn. destruct (H3 _ _ Hn) as (Hi & q & Hq & Hqa). split; [done|]. destruct (decide (i = id)) as [->|Hne].
    + exists p'. rewrite lookup_insert_eq. split; [done|]. rewrite Ha. by simplify_eq.
    + exists q. by rewrite lookup_insert_ne.
  - intros i q. rewrite lookup_insert_Some. intros [[<- _]|[_ Hq]]; by eapply H4.
Qed.

Lemma ok_put t l id b : ok t l → ok (put id b t) l.
Proof. intros H. unfold put. destruct (peers t !! id) as [p|] eqn:E; [|done]. destruct (_ <? _)%nat; [|done]. by eapply ok_update. Qed.

Lemma ok_take t l id b t' : ok t l → take id t = Some (b, t') → ok t' l.
Proof.
  intros H Ht. unfold take in Ht. apply bind_Some in Ht as (p & Hp & Ht). destruct (payload p); [done|]. injection Ht as <- <-. by eapply ok_update.
Qed.

Lemma ok_drop t l id : ok t (id :: l) → ok (drop_ id t) l.
Proof.
  intros [H1 H2 H3 H4]. apply NoDup_cons in H1 as [Hi H1]. destruct (H2 id ltac:(by left)) as (p & Hp & Hc & Hn). unfold drop_. rewrite Hp, bool_decide_eq_true_2 by done.
  split; [done| | |]; cbn [peers names next].
  - intros i Hl. destruct (H2 i ltac:(by right)) as (q & Hq & Hqc & Hqn). assert (i ≠ id) by (intros ->; done). exists q. rewrite lookup_insert_ne by done. split; [done|]. split; [done|].
    rewrite lookup_delete_ne; [done|]. intros Ha. rewrite <- Ha in Hqn. congruence.
  - intros a i. rewrite lookup_delete_Some. intros [Ha Hi']. destruct (H3 _ _ Hi') as (Hm & q & Hq & Hqa). assert (i ≠ id) by (intros ->; congruence).
    apply elem_of_cons in Hm as [|Hm]; [done|]. split; [done|]. exists q. by rewrite lookup_insert_ne.
  - intros i q. rewrite lookup_insert_Some. intros [[<- _]|[_ Hq]]; by eapply H4.
Qed.

(** What an operation on one connection leaves of the others. *)
Lemma put_other t id b i : i ≠ id → peers (put id b t) !! i = peers t !! i.
Proof. intros H. unfold put. destruct (peers t !! id); [|done]. destruct (_ <? _)%nat; [|done]. cbn. by rewrite lookup_insert_ne. Qed.

Lemma take_other t id b t' i : take id t = Some (b, t') → i ≠ id → peers t' !! i = peers t !! i.
Proof. intros H Hi. unfold take in H. apply bind_Some in H as (p & Hp & H). destruct (payload p); [done|]. injection H as <- <-. cbn. by rewrite lookup_insert_ne. Qed.

Lemma drop_other t id i : i ≠ id → peers (drop_ id t) !! i = peers t !! i.
Proof. intros H. unfold drop_. destruct (peers t !! id); [|done]. destruct (bool_decide _); [|done]. cbn. by rewrite lookup_insert_ne. Qed.

Lemma add_other t a now i : i ≠ next t → peers (add a now t) !! i = peers t !! i.
Proof. intros H. cbn. by rewrite lookup_insert_ne. Qed.

(** What was put in and taken out: all that came is what was taken, then what
    waits. *)
Definition came (t : table) (id : nat) (w : list string) : Prop := ∃ p, peers t !! id = Some p ∧ accepted p = w ++ payload p.

Lemma came_put t id b i w : came t i w → came (put id b t) i w.
Proof.
  intros (p & Hp & Ha). destruct (decide (i = id)) as [->|Hi]; [|exists p; by rewrite put_other]. unfold put. rewrite Hp. destruct (_ <? _)%nat; [|by exists p].
  eexists. cbn. rewrite lookup_insert_eq. split; [reflexivity|]. cbn. by rewrite Ha, app_assoc.
Qed.

Lemma came_take t id b t' w : take id t = Some (b, t') → came t id w → came t' id (w ++ [b]).
Proof.
  intros H (p & Hp & Ha). unfold take in H. rewrite Hp in H. cbn in H. destruct (payload p) as [|b0 q]; [done|]. injection H as -> <-. eexists. cbn. rewrite lookup_insert_eq. split; [reflexivity|].
  cbn. by rewrite Ha, <- app_assoc.
Qed.

Lemma came_other t t' i w : peers t' !! i = peers t !! i → came t i w → came t' i w.
Proof. intros H (p & Hp & Ha). exists p. by rewrite H. Qed.

Lemma came_add t a now : came (add a now t) (next t) [].
Proof. eexists. cbn. rewrite lookup_insert_eq. by split. Qed.

(** What was taken stays the beginning of what came. *)
Definition began (t : table) (id : nat) (w : list string) : Prop := ∃ p k, peers t !! id = Some p ∧ accepted p = w ++ k.

Lemma came_began t id w : came t id w → began t id w.
Proof. intros (p & Hp & Ha). by exists p, (payload p). Qed.

Lemma began_put t id b i w : began t i w → began (put id b t) i w.
Proof.
  intros (p & k & Hp & Ha). destruct (decide (i = id)) as [->|Hi]; [|exists p, k; by rewrite put_other]. unfold put. rewrite Hp. destruct (_ <? _)%nat; [|by exists p, k].
  eexists _, (k ++ [b]). cbn. rewrite lookup_insert_eq. split; [reflexivity|]. cbn. by rewrite Ha, app_assoc.
Qed.

Lemma began_take t id b t' i w : take id t = Some (b, t') → began t i w → began t' i w.
Proof.
  intros H (p & k & Hp & Ha). destruct (decide (i = id)) as [->|Hi]; [|exists p, k; by rewrite (take_other _ _ _ _ _ H Hi)]. unfold take in H. rewrite Hp in H. cbn in H.
  destruct (payload p) as [|b0 q]; [done|]. injection H as -> <-. eexists _, k. cbn. rewrite lookup_insert_eq. by split.
Qed.

Lemma began_other t t' i w : peers t' !! i = peers t !! i → began t i w → began t' i w.
Proof. intros H (p & k & Hp & Ha). exists p, k. by rewrite H. Qed.

(** *** What is kept of what came from an address

    [took k h]: of the datagrams [h], those in [k] were kept, in their order; up to
    as many as a channel holds, all of them. *)
Definition took (k h : list string) : Prop := k `sublist_of` h ∧ ((length h ≤ udpPayloadQueue)%nat → k = h).

(** No connection is new, and of those there are only what waited is gone. *)
Definition shrinks (t t' : table) : Prop :=
  ∀ a id, names t' !! a = Some id → names t !! a = Some id ∧
    ∀ p, peers t !! id = Some p → ∃ p', peers t' !! id = Some p' ∧ accepted p' = accepted p ∧ payload p' `suffix_of` payload p.

Lemma shrinks_refl t : shrinks t t.
Proof. intros a id H. split; [done|]. intros p Hp. by exists p. Qed.

Lemma shrinks_take t id b t' : take id t = Some (b, t') → shrinks t t'.
Proof.
  intros H a i Hn. unfold take in H. apply bind_Some in H as (p & Hp & H). destruct (payload p) as [|b0 q] eqn:E; [done|]. injection H as <- <-. split; [done|].
  intros p0 Hp0. destruct (decide (i = id)) as [->|Hi]; [|exists p0; cbn; by rewrite lookup_insert_ne]. rewrite Hp in Hp0. injection Hp0 as <-.
  eexists. cbn. rewrite lookup_insert_eq. split; [reflexivity|]. split; [done|]. cbn. rewrite E. by exists [b0].
Qed.

Lemma shrinks_drop t id : shrinks t (drop_ id t).
Proof.
  unfold drop_. destruct (peers t !! id) as [p|] eqn:E; [|apply shrinks_refl]. destruct (bool_decide _) eqn:Eb; [|apply shrinks_refl]. apply bool_decide_eq_true in Eb.
  intros a i. cbn [names peers]. rewrite lookup_delete_Some. intros [Ha Hn]. split; [done|]. intros p0 Hp0. destruct (decide (i = id)) as [->|Hi].
  - rewrite E in Hp0. injection Hp0 as <-. eexists. rewrite lookup_insert_eq. by split.
  - exists p0. by rewrite lookup_insert_ne.
Qed.

(** A new one for which there was no room. *)
Lemma shrinks_refused t l a now : ok t l → names t !! a = None → shrinks t (drop_ (next t) (add a now t)).
Proof.
  intros H Ha b i. unfold drop_. cbn [add peers names next]. rewrite lookup_insert_eq. cbn [addr]. rewrite lookup_insert_eq, bool_decide_eq_true_2 by done. cbn [names peers].
  rewrite delete_insert_id by done. intros Hn. split; [done|]. intros p Hp. exists p. apply (ok_next _ _ H) in Hp as Hi. rewrite !lookup_insert_ne by lia. done.
Qed.

(** Each connection of a table has kept, but for what is still to come into its
    channel, what its address sent. *)
Definition filed (t : table) (arr : nat → list string) (o : string → nat → list string → Prop) : Prop :=
  ∀ a id, names t !! a = Some id → ∃ p h, peers t !! id = Some p ∧ payload p `suffix_of` accepted p ∧ took (accepted p ++ arr id) h ∧ o a id h.

Lemma filed_shrinks t t' arr o o' : filed t arr o → shrinks t t' → (∀ a id h, names t' !! a = Some id → o a id h → o' a id h) → filed t' arr o'.
Proof.
  intros HF HS HO a id Hn. destruct (HS a id Hn) as [Hn0 HP]. destruct (HF a id Hn0) as (p & h & Hp & Hs & Ht & Ho). destruct (HP p Hp) as (p' & Hp' & Ea & Ep).
  exists p', h. rewrite Ea. split_and!; [done|by etrans|done|by apply HO].
Qed.

Lemma took_put acc pay h (b : string) : pay `suffix_of` acc → took acc h →
  took (if (length pay <? udpPayloadQueue)%nat then acc ++ [b] else acc) (h ++ [b]).
Proof.
  intros [x ->] [H1 H2]. unfold took. rewrite !length_app. cbn [length]. destruct (Nat.ltb_spec (length pay) udpPayloadQueue) as [Hl|Hl].
  - split; [by apply sublist_app|]. intros Hh. by rewrite H2 by lia.
  - split; [by apply sublist_inserts_r|]. intros Hh. rewrite <- H2, length_app in Hh by lia. lia.
Qed.

Lemma put_named id b t : names (put id b t) = names t.
Proof. unfold put. destruct (peers t !! id); [|done]. by destruct (_ <? _)%nat. Qed.

(** What a datagram does to the connection it is for. *)
Lemma put_peer id b t p : peers t !! id = Some p → payload p `suffix_of` accepted p → ∃ p', peers (put id b t) !! id = Some p' ∧ payload p' `suffix_of` accepted p' ∧
  accepted p' = if (length (payload p) <? udpPayloadQueue)%nat then accepted p ++ [b] else accepted p.
Proof.
  intros Hp [x Hx]. unfold put. rewrite Hp. destruct (_ <? _)%nat; [|exists p; split_and!; [done|by exists x|done]].
  eexists. cbn [peers]. rewrite lookup_insert_eq. split; [reflexivity|]. cbn. split; [|done]. exists x. by rewrite Hx, app_assoc.
Qed.

Lemma filed_put t l from id b arr o o' : ok t l → filed t arr o → names t !! from = Some id → (∀ i, arr i = []) →
  (∀ h, o from id h → o' from id (h ++ [b])) → (∀ a i h, a ≠ from → o a i h → o' a i h) → filed (put id b t) arr o'.
Proof.
  intros HK HF Hn Ha H1 H2 a i. rewrite put_named. intros Hi. destruct (HF a i Hi) as (p & h & Hp & Hs & Ht & Ho). rewrite Ha, app_nil_r in Ht.
  destruct (decide (a = from)) as [->|Hne].
  - assert (i = id) as -> by congruence. destruct (put_peer id b t p Hp Hs) as (p' & Hp' & Hs' & Ea). exists p', (h ++ [b]).
    rewrite Ea, Ha, app_nil_r. split_and!; [done|by rewrite <- Ea|by apply took_put|by apply H1].
  - exists p, h. rewrite Ha, app_nil_r, put_other; [by split_and!; [| | |apply H2]|]. intros ->.
    destruct (ok_named _ _ HK _ _ Hi) as (_ & q & Hq & <-), (ok_named _ _ HK _ _ Hn) as (_ & q' & Hq' & <-). congruence.
Qed.

(** The first datagram of one, which came before. *)
Lemma filed_first t id b arr o o' : filed t arr o → arr id = [b] → (∀ i, i ≠ id → arr i = []) → (∀ a i h, o a i h → o' a i h) → filed (put id b t) (λ _, []) o'.
Proof.
  intros HF Hb Hn HO a i. rewrite put_named. intros Hi. destruct (HF a i Hi) as (p & h & Hp & Hs & Ht & Ho). destruct (decide (i = id)) as [->|Hne].
  - destruct (put_peer id b t p Hp Hs) as (p' & Hp' & Hs' & Ea). exists p', h. rewrite app_nil_r. split_and!; [done|done| |by apply HO].
    rewrite Hb in Ht. rewrite Ea. destruct (Nat.ltb_spec (length (payload p)) udpPayloadQueue) as [Hl|Hl]; [done|]. destruct Ht as [H1 H2]. split.
    + etrans; [|exact H1]. by apply sublist_inserts_r.
    + intros Hh. specialize (H2 Hh). rewrite <- H2, length_app in Hh. cbn [length] in Hh. destruct Hs as [x Hx]. rewrite Hx, length_app in Hh. lia.
  - exists p, h. rewrite put_other by done. rewrite (Hn i Hne) in Ht. by split_and!; [| | |apply HO].
Qed.

Lemma filed_add t l from now h arr arr' o o' : ok t l → filed t arr o → names t !! from = None → (∀ i, arr i = []) → (∀ i, i ≠ next t → arr' i = []) →
  took (arr' (next t)) h → o' from (next t) h → (∀ a i h, a ≠ from → o a i h → o' a i h) → filed (add from now t) arr' o'.
Proof.
  intros HK HF Hn Ha Ha' Ht Ho HO a i. cbn [add names]. rewrite lookup_insert_Some. intros [[<- <-]|[Hne Hi]].
  - eexists _, h. cbn [add peers]. rewrite lookup_insert_eq. split; [reflexivity|]. by split_and!.
  - destruct (HF a i Hi) as (p & h0 & Hp & Hs & Ht0 & Ho0). apply (ok_next _ _ HK) in Hp as Hlt. exists p, h0. rewrite add_other by lia. rewrite Ha in Ht0. rewrite Ha' by lia.
    by split_and!; [| | |apply HO].
Qed.

End Table.

Module Server.
Import Table Slots.

(** A pair that is copied between: the flow, the pool's connection, and which of
    the two directions still goes. *)
Record copy : Type := mkCopy { cl : nat; ct : nat; up : bool; down : bool }.

(** The loop that pairs: it waits for a flow, or has one and waits for a
    connection, or has returned. *)
Inductive looping : Type := Idle | Holding (l : nat) | Gone.

Record server : Type := mkServer {
  flows : table;                       (* the flows of the port *)
  lq : list nat;                       (* [udpChan] *)
  pending : option (nat * string);     (* a flow that was queued, its first datagram not yet in its channel *)
  handle : looping;                    (* [handleLoop] *)
  conns : table;                       (* the connections of the pool *)
  tq : list nat;                       (* [tunnelChannel] *)
  copies : list copy;                  (* [udpCopy] *)
  away : list nat;                     (* connections of the pool that other ports took *)
  active : Z;                          (* the limiter *)
  elsewhere : Z;                       (* the slots of it that other ports have *)
  ended : bool;                        (* the context of the run *)
  sent : gmap nat (list string);       (* what was written to each connection of the pool *)
  replies : gmap nat (list string)     (* and to the source of each flow *)
}.
#[export] Instance eta_server : Eta server := λ s, mkServer (flows s) (lq s) (pending s) (handle s) (conns s) (tq s) (copies s) (away s) (active s) (elsewhere s) (ended s) (sent s) (replies s).
#[export] Instance set_flows : Field flows. Proof. set_field. Defined.
#[export] Instance set_lq : Field lq. Proof. set_field. Defined.
#[export] Instance set_pending : Field pending. Proof. set_field. Defined.
#[export] Instance set_handle : Field handle. Proof. set_field. Defined.
#[export] Instance set_conns : Field conns. Proof. set_field. Defined.
#[export] Instance set_tq : Field tq. Proof. set_field. Defined.
#[export] Instance set_copies : Field copies. Proof. set_field. Defined.
#[export] Instance set_away : Field away. Proof. set_field. Defined.
#[export] Instance set_elsewhere : Field elsewhere. Proof. set_field. Defined.
#[export] Instance set_active : Field active. Proof. set_field. Defined.
#[export] Instance set_ended : Field ended. Proof. set_field. Defined.
#[export] Instance set_sent : Field sent. Proof. set_field. Defined.
#[export] Instance set_replies : Field replies. Proof. set_field. Defined.

Ltac fields :=
  unfold assign, set_flows, set_lq, set_pending, set_handle, set_conns, set_tq, set_copies, set_away, set_active, set_elsewhere, set_ended, set_sent, set_replies in *;
  cbn [flows lq pending handle conns tq copies away active elsewhere ended sent replies] in *.

Definition initial : server := mkServer empty [] None Idle empty [] [] [] 0 0 false ∅ ∅.

(** One write to a socket. *)
Definition say (id : nat) (b : string) (m : gmap nat (list string)) : gmap nat (list string) := <[id := default [] (m !! id) ++ [b]]> m.

(** The buffer a datagram is read into. *)
Definition buffer : Z := 16 * 1024.
Definition read (b : string) : string := substring 0 (Z.to_nat buffer) b.

(** What the other ports of the tunnel do to what they share with this one. *)
Inductive deed : Type :=
| Acquires                                  (* a slot, if there is one *)
| Releases                                  (* one of theirs *)
| Takes                                     (* the next connection of the pool *)
| Writes (k : nat) (b : string)             (* to one that they took *)
| Reads (k : nat)                           (* a datagram that came from it *)
| Drops (k : nat).                          (* it is dropped *)

Inductive event : Type :=
| Other (d : deed)
| Local (from b : string) (now : Z)         (* a datagram on the forwarded port *)
| First                                     (* the first one of a flow is put in its channel *)
| Tunnel (from b : string) (now : Z)        (* a datagram on the tunnel port *)
| Take (now : Z)                            (* the loop takes a flow *)
| Timer                                     (* its timer fires *)
| Pair (writes : bool)                      (* it takes a connection of the pool *)
| Leave                                     (* it sees the run's end *)
| Copy (k : nat) (upward writes : bool)     (* a direction of a pair carries a datagram *)
| Quit (k : nat) (upward : bool)            (* or ends: idle, or with the run *)
| Finish (k : nat)                          (* both have *)
| Cancel.

Section server.
(** The token, the target of the port, and the settings. *)
Context (Token target : string) (maxConns : Z) (ChannelSize : nat).

(** The reader of the forwarded port, [localListener]. *)
Definition local_datagram (from b : string) (now : Z) (s : server) : option server :=
  match pending s with
  | Some _ => None
  | None =>
      match names (flows s) !! from with
      | Some id => Some (s <| flows := put id (read b) (flows s) |>)
      | None =>
          match acquire maxConns (active s) with
          | None => Some s
          | Some n =>
              let id := next (flows s) in
              let t := add from now (flows s) in
              if (length (lq s) <? ChannelSize)%nat then
                Some (s <| flows := t |> <| active := n |> <| lq := lq s ++ [id] |> <| pending := Some (id, read b) |>)
              else Some (s <| flows := drop_ id t |> <| active := release maxConns n |>)
          end
      end
  end.

(** The send that follows; on a closed channel it panics. *)
Definition is_closed (id : nat) (t : table) : bool := match peers t !! id with Some p => closed p | None => false end.

Definition first_datagram (s : server) : option server :=
  match pending s with
  | Some (id, b) => if is_closed id (flows s) then None else Some (s <| flows := put id b (flows s) |> <| pending := None |>)
  | None => None
  end.

Definition panics (s : server) : Prop := ∃ id b, pending s = Some (id, b) ∧ is_closed id (flows s) = true.

(** The reader of the tunnel port, [acceptTunnelConn]. *)
Definition tunnel_datagram (from b : string) (now : Z) (s : server) : server :=
  match names (conns s) !! from with
  | Some id => s <| conns := put id (read b) (conns s) |>
  | None =>
      if negb (String.eqb (read b) Token) then s
      else
        let id := next (conns s) in
        let t := add from now (conns s) in
        if (length (tq s) <? ChannelSize)%nat then s <| conns := t |> <| tq := tq s ++ [id] |>
        else s <| conns := drop_ id t |>
  end.

(** [dropLocalFlow], with the slot. *)
Definition dropLocalFlow (id : nat) (s : server) : server := s <| flows := drop_ id (flows s) |> <| active := release maxConns (active s) |>.

Definition expired (now : Z) (id : nat) (t : table) : bool :=
  match peers t !! id with Some p => Pairing.pairingTimeout <? now - timeCreated p | None => false end.

(** [handleLoop]. *)
Definition loop_takes (now : Z) (s : server) : option server :=
  match handle s, lq s with
  | Idle, id :: q =>
      let s := s <| lq := q |> in
      Some (if expired now id (flows s) then dropLocalFlow id s else s <| handle := Holding id |>)
  | _, _ => None
  end.

Definition loop_pairs (writes : bool) (s : server) : option server :=
  match handle s, tq s with
  | Holding l, t :: q =>
      let s := s <| tq := q |> in
      Some (if writes then s <| sent := say t target (sent s) |> <| copies := copies s ++ [mkCopy l t true true] |> <| handle := Idle |>
            else s <| conns := drop_ t (conns s) |>)
  | _, _ => None
  end.

Definition loop_leaves (s : server) : option server :=
  if negb (ended s) then None
  else match handle s with
  | Idle => Some (s <| handle := Gone |>)
  | Holding l => Some (dropLocalFlow l s <| handle := Gone |>)
  | Gone => None
  end.

(** [udpLocalCopy] and [udpTunnelCopy], a datagram. *)
Definition stop (upward : bool) (c : copy) : copy := if upward then mkCopy (cl c) (ct c) false (down c) else mkCopy (cl c) (ct c) (up c) false.
Definition goes (upward : bool) (c : copy) : bool := if upward then up c else down c.

Definition copy_one (k : nat) (upward writes : bool) (s : server) : option server :=
  c ← copies s !! k;
  if negb (goes upward c) then None
  else if upward then
    x ← take (cl c) (flows s);
    let s := s <| flows := snd x |> in
    Some (if writes then s <| sent := say (ct c) (fst x) (sent s) |> else s <| copies := <[k := stop true c]> (copies s) |>)
  else
    x ← take (ct c) (conns s);
    let s := s <| conns := snd x |> in
    Some (if writes then s <| replies := say (cl c) (fst x) (replies s) |> else s <| copies := <[k := stop false c]> (copies s) |>).

Definition waits (id : nat) (t : table) : bool := match peers t !! id with Some p => negb (length (payload p) =? 0)%nat | None => false end.

(** Its end: when nothing has come for a while, or with the run. *)
Definition copy_quits (k : nat) (upward : bool) (s : server) : option server :=
  c ← copies s !! k;
  if negb (goes upward c) then None
  else if negb (ended s) && (if upward then waits (cl c) (flows s) else waits (ct c) (conns s)) then None
  else Some (s <| copies := <[k := stop upward c]> (copies s) |>).

Definition copy_finishes (k : nat) (s : server) : option server :=
  c ← copies s !! k;
  if up c || down c then None
  else Some (dropLocalFlow (cl c) s <| conns := drop_ (ct c) (conns s) |> <| copies := delete k (copies s) |>).

(** The other ports. *)
Definition others (d : deed) (s : server) : option server :=
  match d with
  | Acquires => n ← acquire maxConns (active s); Some (s <| active := n |> <| elsewhere := elsewhere s + 1 |>)
  | Releases => if 0 <? elsewhere s then Some (s <| active := release maxConns (active s) |> <| elsewhere := elsewhere s - 1 |>) else None
  | Takes => match tq s with t :: q => Some (s <| tq := q |> <| away := away s ++ [t] |>) | [] => None end
  | Writes k b => t ← away s !! k; Some (s <| sent := say t b (sent s) |>)
  | Reads k => t ← away s !! k; x ← take t (conns s); Some (s <| conns := snd x |>)
  | Drops k => t ← away s !! k; Some (s <| conns := drop_ t (conns s) |> <| away := delete k (away s) |>)
  end.

Definition exec (e : event) (s : server) : option server :=
  match e with
  | Other d => others d s
  | Local from b now => local_datagram from b now s
  | First => first_datagram s
  | Tunnel from b now => Some (tunnel_datagram from b now s)
  | Take now => loop_takes now s
  | Timer => match handle s with Holding _ => Some s | _ => None end
  | Pair writes => loop_pairs writes s
  | Leave => loop_leaves s
  | Copy k upward writes => copy_one k upward writes s
  | Quit k upward => copy_quits k upward s
  | Finish k => copy_finishes k s
  | Cancel => Some (s <| ended := true |>)
  end.

Definition step (s s' : server) : Prop := ∃ e, exec e s = Some s'.

Definition run (es : list event) (s : server) : option server := foldl (λ s e, s ≫= exec e) (Some s) es.

(** *** The invariant *)

Definition held (s : server) : list nat := match handle s with Holding l => [l] | _ => [] end.

(** The flows somebody has in hand, and the connections. *)
Definition working (s : server) : list nat := lq s ++ held s ++ map cl (copies s).
Definition pooled (s : server) : list nat := tq s ++ away s ++ map ct (copies s).

(** What was written of what came. *)
Definition follows (going : bool) (t : table) (id : nat) (w : list string) : Prop := if going then came t id w else began t id w.

Definition carries (s : server) (c : copy) : Prop :=
  (∃ w, sent s !! ct c = Some (target :: w) ∧ follows (up c) (flows s) (cl c) w) ∧
  follows (down c) (conns s) (ct c) (default [] (replies s !! cl c)).

Record sound (s : server) : Prop := {
  s_flows : ok (flows s) (working s);
  s_conns : ok (conns s) (pooled s);
  s_slots : limited maxConns = true → active s = zlen (working s) + elsewhere s;
  s_waiting : ∀ l, l ∈ lq s ++ held s → came (flows s) l [] ∧ replies s !! l = None;
  s_fresh : ∀ t, t ∈ tq s → came (conns s) t [] ∧ sent s !! t = None;
  s_copies : ∀ c, c ∈ copies s → carries s c;
  s_sent : ∀ t x, sent s !! t = Some x → (t < next (conns s))%nat;
  s_replies : ∀ l x, replies s !! l = Some x → (l < next (flows s))%nat;
  s_else : 0 ≤ elsewhere s
}.

Lemma initial_sound : sound initial.
Proof. split; try done; [apply ok_empty|apply ok_empty|by intros l ?%elem_of_nil|by intros t ?%elem_of_nil|by intros c ?%elem_of_nil]. Qed.

Lemma follows_put g t id b i w : follows g t i w → follows g (put id b t) i w.
Proof. destruct g; [apply came_put|apply began_put]. Qed.

Lemma follows_other g t t' i w : peers t' !! i = peers t !! i → follows g t i w → follows g t' i w.
Proof. destruct g; [apply came_other|apply began_other]. Qed.

Lemma follows_began g t i w : follows g t i w → began t i w.
Proof. destruct g; [apply came_began|done]. Qed.

Lemma follows_stop g t i w : follows g t i w → follows false t i w.
Proof. apply follows_began. Qed.

Lemma carries_frame s s' c : carries s c →
  (∀ g w, follows g (flows s) (cl c) w → follows g (flows s') (cl c) w) → (∀ g w, follows g (conns s) (ct c) w → follows g (conns s') (ct c) w) →
  sent s' !! ct c = sent s !! ct c → replies s' !! cl c = replies s !! cl c → carries s' c.
Proof. intros [(w & H1 & H2) H3] Hf Hc Hs Hr. split; [exists w; rewrite Hs; split; [done|by apply Hf]|rewrite Hr; by apply Hc]. Qed.

Lemma working_once s : sound s → NoDup (working s) ∧ NoDup (pooled s).
Proof. intros H. split; [apply (ok_once _ _ (s_flows _ H))|apply (ok_once _ _ (s_conns _ H))]. Qed.

Lemma new_flow s : sound s → ∀ l, l ∈ working s → l ≠ next (flows s).
Proof. intros H l Hl ->. destruct (ok_live _ _ (s_flows _ H) _ Hl) as (p & Hp & _). apply (ok_next _ _ (s_flows _ H)) in Hp. lia. Qed.

Lemma new_conn s : sound s → ∀ t, t ∈ pooled s → t ≠ next (conns s).
Proof. intros H t Ht ->. destruct (ok_live _ _ (s_conns _ H) _ Ht) as (p & Hp & _). apply (ok_next _ _ (s_conns _ H)) in Hp. lia. Qed.

Lemma copy_working s c : c ∈ copies s → cl c ∈ working s ∧ ct c ∈ pooled s.
Proof. intros H. unfold working, pooled. split; rewrite !elem_of_app; right; right; apply list_elem_of_fmap; by exists c. Qed.

Lemma waiting_working s l : l ∈ lq s ++ held s → l ∈ working s.
Proof. unfold working. rewrite !elem_of_app. tauto. Qed.

Lemma put_next t id b : next (put id b t) = next t.
Proof. unfold put. destruct (peers t !! id); [|done]. by destruct (_ <? _)%nat. Qed.

Lemma drop_next t id : next (drop_ id t) = next t.
Proof. unfold drop_. destruct (peers t !! id); [|done]. by destruct (bool_decide _). Qed.

Lemma take_next t id b t' : take id t = Some (b, t') → next t' = next t.
Proof. intros H. unfold take in H. apply bind_Some in H as (p & _ & H). destruct (payload p); [done|]. by injection H as <- <-. Qed.

(** Another datagram for a flow or a connection changes nothing of all this. *)
Lemma sound_put_flow s id b : sound s → sound (s <| flows := put id b (flows s) |>).
Proof.
  intros [H1 H2 H3 H4 H5 H6 H7 H8 H9]. split; fields; try done.
  - by apply ok_put.
  - intros l Hl. destruct (H4 l Hl). split; [by apply came_put|done].
  - intros c Hc. eapply carries_frame; [by apply H6| |done|done|done]. intros g w. apply follows_put.
  - intros l x Hx. rewrite put_next. by eapply H8.
Qed.

Lemma sound_put_conn s id b : sound s → sound (s <| conns := put id b (conns s) |>).
Proof.
  intros [H1 H2 H3 H4 H5 H6 H7 H8 H9]. split; fields; try done.
  - by apply ok_put.
  - intros t Ht. destruct (H5 t Ht). split; [by apply came_put|done].
  - intros c Hc. eapply carries_frame; [by apply H6|done| |done|done]. intros g w. apply follows_put.
  - intros l x Hx. rewrite put_next. by eapply H7.
Qed.

Lemma local_sound from b now s s' : sound s → local_datagram from b now s = Some s' → sound s'.
Proof.
  intros H He. unfold local_datagram in He. destruct (pending s); [done|]. destruct (names (flows s) !! from) as [id|] eqn:En; [injection He as <-; by apply sound_put_flow|].
  destruct (acquire maxConns (active s)) as [n|] eqn:Ea; [|by injection He as <-]. apply acquired in Ea as [Ha Hr]. pose proof (new_flow _ H) as Hnew.
  assert (∀ l, l ∈ working s → peers (add from now (flows s)) !! l = peers (flows s) !! l) as Hadd by (intros l Hl; by apply add_other, Hnew).
  destruct H as [H1 H2 H3 H4 H5 H6 H7 H8 H9]. destruct (_ <? _)%nat in He; injection He as <-.
  - split; fields; try done.
    + eapply ok_perm; [|by apply (ok_add _ _ from now H1 En)]. unfold working, held. fields. rewrite <- app_assoc. apply Permutation_middle.
    + intros HL. rewrite (Ha HL), (H3 HL). unfold working, held, zlen. fields. rewrite !length_app. cbn. lia.
    + intros l. rewrite <- app_assoc, !elem_of_app, list_elem_of_singleton. intros [Hl|[->|Hl]].
      * destruct (H4 l ltac:(apply elem_of_app; by left)). split; [|done]. eapply came_other; [|done]. apply Hadd, waiting_working, elem_of_app. by left.
      * split; [apply came_add|]. destruct (replies s !! next (flows s)) as [x|] eqn:E; [|done]. apply H8 in E. lia.
      * destruct (H4 l ltac:(apply elem_of_app; by right)). split; [|done]. eapply came_other; [|done]. apply Hadd, waiting_working, elem_of_app. by right.
    + intros c Hc. eapply carries_frame; [by apply H6| |done|done|done]. intros g w. apply follows_other, Hadd. by apply copy_working.
    + intros l x Hx. apply H8 in Hx. cbn. lia.
  - assert (∀ l, l ∈ working s → peers (drop_ (next (flows s)) (add from now (flows s))) !! l = peers (flows s) !! l) as Hdrop.
    { intros l Hl. rewrite drop_other by (by apply Hnew). by apply Hadd. }
    split; fields; try done.
    + apply ok_drop, (ok_add _ _ from now H1 En).
    + by rewrite Hr.
    + intros l Hl. destruct (H4 l Hl). split; [|done]. eapply came_other; [|done]. by apply Hdrop, waiting_working.
    + intros c Hc. eapply carries_frame; [by apply H6| |done|done|done]. intros g w. apply follows_other, Hdrop. by apply copy_working.
    + intros l x Hx. apply H8 in Hx. rewrite drop_next. cbn. lia.
Qed.

Lemma tunnel_sound from b now s : sound s → sound (tunnel_datagram from b now s).
Proof.
  intros H. unfold tunnel_datagram. destruct (names (conns s) !! from) as [id|] eqn:En; [by apply sound_put_conn|]. destruct (negb _); [done|].
  pose proof (new_conn _ H) as Hnew. assert (∀ t, t ∈ pooled s → peers (add from now (conns s)) !! t = peers (conns s) !! t) as Hadd by (intros t Ht; by apply add_other, Hnew).
  destruct H as [H1 H2 H3 H4 H5 H6 H7 H8 H9]. destruct (_ <? _)%nat.
  - split; fields; try done.
    + eapply ok_perm; [|by apply (ok_add _ _ from now H2 En)]. unfold pooled. fields. rewrite <- app_assoc. apply Permutation_middle.
    + intros t. rewrite elem_of_app, list_elem_of_singleton. intros [Ht| ->].
      * destruct (H5 t Ht). split; [|done]. eapply came_other; [|done]. apply Hadd. unfold pooled. apply elem_of_app. by left.
      * split; [apply came_add|]. destruct (sent s !! next (conns s)) as [x|] eqn:E; [|done]. apply H7 in E. lia.
    + intros c Hc. eapply carries_frame; [by apply H6|done| |done|done]. intros g w. apply follows_other, Hadd. by apply copy_working.
    + intros t x Hx. apply H7 in Hx. cbn. lia.
  - assert (∀ t, t ∈ pooled s → peers (drop_ (next (conns s)) (add from now (conns s))) !! t = peers (conns s) !! t) as Hdrop.
    { intros t Ht. rewrite drop_other by (by apply Hnew). by apply Hadd. }
    split; fields; try done.
    + apply ok_drop, (ok_add _ _ from now H2 En).
    + intros t Ht. destruct (H5 t Ht). split; [|done]. eapply came_other; [|done]. apply Hdrop. unfold pooled. apply elem_of_app. by left.
    + intros c Hc. eapply carries_frame; [by apply H6|done| |done|done]. intros g w. apply follows_other, Hdrop. by apply copy_working.
    + intros t x Hx. apply H7 in Hx. rewrite drop_next. cbn. lia.
Qed.

(** A flow that is given up by whoever has it. *)
Lemma ok_without t l id rest i : ok t l → l ≡ₚ id :: rest → i ∈ rest → ok (drop_ id t) rest ∧ peers (drop_ id t) !! i = peers t !! i.
Proof.
  intros H Hp Hi. assert (ok t (id :: rest)) as H' by (by eapply ok_perm). split; [by apply ok_drop|]. apply drop_other. intros ->. by destruct (proj1 (NoDup_cons _ _) (ok_once _ _ H')).
Qed.

Lemma sound_drop s s1 id : sound s → working s ≡ₚ id :: working s1 → tq s1 = tq s → away s1 = away s → copies s1 = copies s → (∀ l, l ∈ lq s1 ++ held s1 → l ∈ lq s ++ held s) →
  flows s1 = drop_ id (flows s) → conns s1 = conns s → active s1 = release maxConns (active s) → elsewhere s1 = elsewhere s → sent s1 = sent s → replies s1 = replies s → sound s1.
Proof.
  intros [H1 H2 H3 H4 H5 H6 H7 H8 H9] Hw Ht Hy Hc Hl Ef Ec Ea Ex Es Er.
  assert (∀ l, l ∈ working s1 → peers (flows s1) !! l = peers (flows s) !! l) as HA by (intros l Hl'; rewrite Ef; by eapply ok_without).
  split.
  - rewrite Ef. apply ok_drop. by eapply ok_perm.
  - unfold pooled in *. by rewrite Ec, Ht, Hy, Hc.
  - intros HL. rewrite Ea, Ex, (released _ _ HL), (H3 HL). unfold zlen. rewrite Hw. cbn [length]. lia.
  - intros l Hl'. rewrite Er. destruct (H4 l (Hl l Hl')). split; [|done]. eapply came_other; [|done]. by apply HA, waiting_working.
  - intros t Ht'. rewrite Ec, Es. apply H5. by rewrite <- Ht.
  - intros c Hc'. eapply carries_frame; [apply H6; by rewrite <- Hc| | |by rewrite Es|by rewrite Er].
    + intros g w. apply follows_other, HA. by apply copy_working.
    + intros g w. by rewrite Ec.
  - intros t x. rewrite Es, Ec. apply H7.
  - intros l x. rewrite Er, Ef, drop_next. apply H8.
  - by rewrite Ex.
Qed.

Lemma takes_sound now s s' : sound s → loop_takes now s = Some s' → sound s'.
Proof.
  intros H He. unfold loop_takes in He. destruct (handle s) eqn:Eh; [|done|done]. destruct (lq s) as [|id q] eqn:Eq; [done|]. cbv zeta in He.
  assert (working s ≡ₚ id :: (q ++ map cl (copies s))) as Hw by (unfold working, held; by rewrite Eh, Eq).
  destruct (expired _ _ _) in He; injection He as <-.
  - eapply sound_drop; [exact H|rewrite Hw; unfold working, held, dropLocalFlow; fields; by rewrite Eh|..]; unfold dropLocalFlow; fields; try done.
    intros l. unfold held. fields. rewrite Eh, Eq, !elem_of_app, elem_of_cons. tauto.
  - destruct H as [H1 H2 H3 H4 H5 H6 H7 H8 H9]. assert (working (s <| lq := q |> <| handle := Holding id |>) ≡ₚ working s) as Hp by (rewrite Hw; unfold working, held; fields; cbn; symmetry; apply Permutation_middle).
    split; try done.
    + eapply ok_perm; [symmetry; exact Hp|exact H1].
    + intros HL. unfold zlen. rewrite Hp. by apply H3.
    + intros l. unfold held. fields. rewrite elem_of_app, list_elem_of_singleton. intros Hl. apply H4. unfold held. rewrite Eq, Eh, elem_of_app, elem_of_cons. tauto.
Qed.

Lemma leaves_sound s s' : sound s → loop_leaves s = Some s' → sound s'.
Proof.
  intros H He. unfold loop_leaves in He. destruct (ended s); [|done]. cbn [negb] in He. destruct (handle s) as [|l|] eqn:Eh; [| |done]; injection He as <-.
  - destruct H as [H1 H2 H3 H4 H5 H6 H7 H8 H9]. split; try done; unfold working, held in *; fields; rewrite Eh in *; done.
  - eapply sound_drop; [exact H| | | | | | | | | | |]; unfold dropLocalFlow, working, held; fields; try done.
    + rewrite Eh. cbn. symmetry. apply Permutation_middle.
    + intros l'. rewrite !elem_of_app. intros [?|?]; [by left|]. by apply elem_of_nil in H0.
Qed.

Lemma say_same id b m : default [] (say id b m !! id) = default [] (m !! id) ++ [b].
Proof. unfold say. by rewrite lookup_insert_eq. Qed.

Lemma say_other id b m i : i ≠ id → say id b m !! i = m !! i.
Proof. intros H. unfold say. by rewrite lookup_insert_ne. Qed.

Lemma paired_sound writes s s' : sound s → loop_pairs writes s = Some s' → sound s'.
Proof.
  intros H He. unfold loop_pairs in He. destruct (handle s) as [|l|] eqn:Eh; [done| |done]. destruct (tq s) as [|t q] eqn:Eq; [done|]. cbv zeta in He.
  pose proof (working_once _ H) as [Hw1 Hw2]. destruct H as [H1 H2 H3 H4 H5 H6 H7 H8 H9].
  assert (pooled s = t :: (q ++ away s ++ map ct (copies s))) as Hp by (unfold pooled; by rewrite Eq). rewrite Hp in Hw2. apply NoDup_cons in Hw2 as [Ht Hw2].
  assert (∀ c, c ∈ copies s → ct c ≠ t) as Hct.
  { intros c Hc <-. apply Ht. rewrite !elem_of_app. do 2 right. apply list_elem_of_fmap. by exists c. }
  destruct writes; injection He as <-.
  - assert (working s ≡ₚ lq s ++ [] ++ map cl (copies s ++ [mkCopy l t true true])) as Hp1.
    { unfold working, held. rewrite Eh, map_app. cbn. rewrite (Permutation_app_comm (map cl (copies s))). done. }
    assert (pooled s ≡ₚ q ++ away s ++ map ct (copies s ++ [mkCopy l t true true])) as Hp2.
    { rewrite Hp, map_app, !app_assoc. cbn. rewrite (Permutation_app_comm _ [t]). done. }
    destruct (H4 l) as [Hl1 Hl2]; [unfold held; rewrite Eh, elem_of_app; right; by left|]. destruct (H5 t) as [Ht1 Ht2]; [rewrite Eq; by left|].
    assert (l ∉ map cl (copies s)) as Hl.
    { unfold working, held in Hw1. rewrite Eh in Hw1. apply NoDup_app in Hw1 as (_ & _ & Hw1). by apply NoDup_cons in Hw1 as [? _]. }
    split; fields; try done.
    + eapply ok_perm; [exact Hp1|exact H1].
    + eapply ok_perm; [exact Hp2|exact H2].
    + intros HL. rewrite (H3 HL). unfold zlen. by rewrite Hp1.
    + intros x. unfold held. fields. rewrite app_nil_r. intros Hx. apply H4, elem_of_app. by left.
    + intros x Hx. rewrite say_other by (intros ->; apply Ht, elem_of_app; by left). apply H5. rewrite Eq. by right.
    + intros c [Hc| ->%list_elem_of_singleton]%elem_of_app.
      * eapply carries_frame; [by apply H6|done|done| |done]. fields. apply say_other. by apply Hct.
      * split; [exists []|]; cbn [cl ct up down]; fields; [split; [unfold say; by rewrite lookup_insert_eq, Ht2|done]|by rewrite Hl2].
    + intros x y. destruct (decide (x = t)) as [->|Hx]; [|rewrite say_other by done; apply H7]. intros _.
      destruct (ok_live _ _ H2 t) as (p & Hp' & _); [rewrite Hp; by left|]. by eapply (ok_next _ _ H2).
  - assert (∀ x, x ∈ q ++ away s ++ map ct (copies s) → peers (drop_ t (conns s)) !! x = peers (conns s) !! x) as HA by (intros x Hx; apply drop_other; by intros ->).
    split; unfold working, pooled, held in *; fields; try done.
    + apply ok_drop. by rewrite <- Hp.
    + intros x Hx. destruct (H5 x) as [Hx1 Hx2]; [rewrite Eq; by right|]. split; [|done]. eapply came_other; [|done]. apply HA, elem_of_app. by left.
    + intros c Hc. eapply carries_frame; [by apply H6|done| |done|done]. intros g w. apply follows_other, HA. rewrite !elem_of_app. do 2 right. apply list_elem_of_fmap. by exists c.
    + intros x y Hx. rewrite drop_next. by eapply H7.
Qed.

(** *** The copying *)

(** Two pairs share neither a flow nor a connection. *)
Lemma apart s j k c c' : sound s → copies s !! k = Some c → copies s !! j = Some c' → j ≠ k → cl c' ≠ cl c ∧ ct c' ≠ ct c.
Proof.
  intros H Hk Hj Hn. destruct (working_once _ H) as [Hw Hp]. unfold working, pooled in *. apply NoDup_app in Hw as (_ & _ & Hw). apply NoDup_app in Hw as (_ & _ & Hw). apply NoDup_app in Hp as (_ & _ & Hp). apply NoDup_app in Hp as (_ & _ & Hp).
  split; intros He; apply Hn; [eapply (NoDup_lookup _ _ _ _ Hw)|eapply (NoDup_lookup _ _ _ _ Hp)]; change @map with (λ A B, @fmap list _ A B); cbv beta; rewrite list_lookup_fmap.
  all: rewrite ?Hj, ?Hk; cbn; try reflexivity; by rewrite ?He.
Qed.

(** A pair changes, and what it carries. *)
Lemma sound_copy s s1 k c c1 : sound s → copies s !! k = Some c → copies s1 = <[k := c1]> (copies s) → cl c1 = cl c → ct c1 = ct c →
  lq s1 = lq s → tq s1 = tq s → away s1 = away s → handle s1 = handle s → active s1 = active s → elsewhere s1 = elsewhere s →
  ok (flows s1) (working s) → next (flows s1) = next (flows s) → ok (conns s1) (pooled s) → next (conns s1) = next (conns s) →
  (∀ i, i ≠ cl c → peers (flows s1) !! i = peers (flows s) !! i ∧ replies s1 !! i = replies s !! i) →
  (∀ i, i ≠ ct c → peers (conns s1) !! i = peers (conns s) !! i ∧ sent s1 !! i = sent s !! i) →
  carries s1 c1 → sound s1.
Proof.
  intros H Hk Ec E1 E2 El Et Ey Eh Ea Ex Hf Hfn Hc Hcn Hi Hj Hcar.
  assert (map cl (copies s1) = map cl (copies s) ∧ map ct (copies s1) = map ct (copies s)) as [Hcl Hct].
  { rewrite Ec. change @map with (λ A B, @fmap list _ A B); cbv beta. rewrite !list_fmap_insert, E1, E2. split; apply list_insert_id; by rewrite list_lookup_fmap, Hk. }
  assert (working s1 = working s) as Hw by (unfold working, held; by rewrite El, Eh, Hcl). assert (pooled s1 = pooled s) as Hp by (unfold pooled; by rewrite Et, Ey, Hct).
  pose proof (apart s) as Hap. destruct (working_once _ H) as [Hn1 Hn2]. pose proof H as [H1 H2 H3 H4 H5 H6 H7 H8 H9]. assert (c ∈ copies s) as Hin by (apply list_elem_of_lookup; by exists k).
  split.
  - by rewrite Hw.
  - by rewrite Hp.
  - intros HL. by rewrite Ea, Ex, Hw, (H3 HL).
  - unfold held. rewrite El, Eh. intros l Hl. destruct (Hi l) as [Hl1 Hl2].
    + intros ->. unfold working in Hn1. rewrite app_assoc in Hn1. apply NoDup_app in Hn1 as (_ & Hn1 & _). apply (Hn1 _ Hl). apply list_elem_of_fmap. by exists c.
    + rewrite Hl2. destruct (H4 l Hl). split; [|done]. by eapply came_other.
  - rewrite Et. intros t Ht. destruct (Hj t) as [Ht1 Ht2].
    + intros ->. unfold pooled in Hn2. apply NoDup_app in Hn2 as (_ & Hn2 & _). apply (Hn2 _ Ht), elem_of_app. right. apply list_elem_of_fmap. by exists c.
    + rewrite Ht2. destruct (H5 t Ht). split; [|done]. by eapply came_other.
  - intros x Hx. rewrite Ec in Hx. apply list_elem_of_lookup in Hx as [j Hx]. apply list_lookup_insert_Some in Hx as [(-> & <- & _)|[Hjk Hx]]; [done|].
    destruct (Hap j k c x H Hk Hx ltac:(done)) as [Ha Hb]. destruct (Hi _ Ha), (Hj _ Hb). eapply carries_frame; [apply H6; apply list_elem_of_lookup; by exists j| | |done|done]; intros g w; by apply follows_other.
  - intros t x Hx. rewrite Hcn. destruct (decide (t = ct c)) as [->|Hne].
    + apply copy_working in Hin as [_ Hin]. destruct (ok_live _ _ H2 _ Hin) as (p & Hp' & _). by eapply (ok_next _ _ H2).
    + destruct (Hj t Hne) as [_ He]. rewrite He in Hx. by eapply H7.
  - intros l x Hx. rewrite Hfn. destruct (decide (l = cl c)) as [->|Hne].
    + apply copy_working in Hin as [Hin _]. destruct (ok_live _ _ H1 _ Hin) as (p & Hp' & _). by eapply (ok_next _ _ H1).
    + destruct (Hi l Hne) as [_ He]. rewrite He in Hx. by eapply H8.
  - by rewrite Ex.
Qed.

Lemma follows_take g t id b t' w : take id t = Some (b, t') → follows g t id w → follows false t' id w.
Proof. intros Ht Hw. eapply began_take; [exact Ht|]. by eapply follows_began. Qed.

Ltac kept Ht :=
  fields; try done;
  try (by symmetry; apply list_insert_id); try (eapply ok_take; [|exact Ht]; assumption); try (eapply take_next; exact Ht);
  try (intros i Hi; split; [first [done|eapply take_other; [exact Ht|done]]|first [done|by apply say_other]]).

Lemma one_sound k upward writes s s' : sound s → copy_one k upward writes s = Some s' → sound s'.
Proof.
  intros H He. unfold copy_one in He. apply bind_Some in He as (c & Hk & He). destruct (goes upward c) eqn:Eg; [|done]. cbn [negb] in He.
  pose proof (s_copies _ H c ltac:(apply list_elem_of_lookup; by exists k)) as [(w & Hw1 & Hw2) Hr].
  pose proof (s_flows _ H) as Hok1. pose proof (s_conns _ H) as Hok2.
  destruct upward; apply bind_Some in He as ([b t] & Ht & He); cbn [fst snd] in He; cbv zeta in He; cbn [goes] in Eg; rewrite Eg in *; destruct writes; injection He as <-.
  - eapply (sound_copy s _ k c c H Hk); kept Ht. split; fields; [|done]. exists (w ++ [b]). rewrite Eg. split; [unfold say; by rewrite lookup_insert_eq, Hw1|by eapply came_take].
  - eapply (sound_copy s _ k c (stop true c) H Hk); kept Ht. split; cbn [stop cl ct up down]; fields; [|done]. exists w. split; [done|by eapply (follows_take true)].
  - eapply (sound_copy s _ k c c H Hk); kept Ht. split; fields; [by exists w|]. rewrite Eg, say_same. by eapply came_take.
  - eapply (sound_copy s _ k c (stop false c) H Hk); kept Ht. split; cbn [stop cl ct up down]; fields; [by exists w|]. by eapply (follows_take true).
Qed.

Lemma quits_sound k upward s s' : sound s → copy_quits k upward s = Some s' → sound s'.
Proof.
  intros H He. unfold copy_quits in He. apply bind_Some in He as (c & Hk & He). destruct (goes upward c) eqn:Eg; [|done]. cbn [negb] in He. destruct (_ && _) in He; [done|]. injection He as <-.
  pose proof (s_copies _ H c ltac:(apply list_elem_of_lookup; by exists k)) as [(w & Hw1 & Hw2) Hr].
  eapply (sound_copy s _ k c (stop upward c) H Hk); fields; try done; try (by destruct upward); try exact (s_flows _ H); try exact (s_conns _ H).
  destruct upward; cbn [goes] in Eg; (split; cbn [stop cl ct up down]; fields; [exists w; split; [done|]|]); try done; by eapply follows_stop.
Qed.

Lemma finishes_sound k s s' : sound s → copy_finishes k s = Some s' → sound s'.
Proof.
  intros H He. unfold copy_finishes in He. apply bind_Some in He as (c & Hk & He). destruct (up c || down c); [done|]. injection He as <-.
  assert (copies s ≡ₚ c :: delete k (copies s)) as Hp by (by apply delete_Permutation).
  assert (working s ≡ₚ cl c :: (lq s ++ held s ++ map cl (delete k (copies s)))) as Hw.
  { unfold working. rewrite Hp at 1. cbn [map]. rewrite !app_assoc. symmetry. apply Permutation_middle. }
  assert (pooled s ≡ₚ ct c :: (tq s ++ away s ++ map ct (delete k (copies s)))) as Hq.
  { unfold pooled. rewrite Hp at 1. cbn [map]. rewrite !app_assoc. symmetry. apply Permutation_middle. }
  destruct H as [H1 H2 H3 H4 H5 H6 H7 H8 H9].
  assert (∀ l, l ∈ lq s ++ held s ++ map cl (delete k (copies s)) → peers (drop_ (cl c) (flows s)) !! l = peers (flows s) !! l) as HA by (intros l Hl; by eapply ok_without).
  assert (∀ t, t ∈ tq s ++ away s ++ map ct (delete k (copies s)) → peers (drop_ (ct c) (conns s)) !! t = peers (conns s) !! t) as HB by (intros t Ht; by eapply ok_without).
  split; unfold dropLocalFlow, working, pooled, held in *; fields; try done.
  - apply ok_drop. by eapply ok_perm.
  - apply ok_drop. by eapply ok_perm.
  - intros HL. rewrite (released _ _ HL), (H3 HL). unfold zlen. rewrite Hw. cbn [length]. lia.
  - intros l Hl. destruct (H4 l Hl). split; [|done]. eapply came_other; [|done]. apply HA. rewrite app_assoc. apply elem_of_app. by left.
  - intros t Ht. destruct (H5 t Ht). split; [|done]. eapply came_other; [|done]. apply HB, elem_of_app. by left.
  - intros x Hx. assert (cl x ∈ map cl (delete k (copies s)) ∧ ct x ∈ map ct (delete k (copies s))) as [Hx1 Hx2] by (split; apply list_elem_of_fmap; by exists x).
    eapply carries_frame; [apply H6; rewrite Hp; by right| | |done|done]; intros g w; apply follows_other; [apply HA|apply HB]; rewrite !elem_of_app; tauto.
  - intros t x Hx. rewrite drop_next. by eapply H7.
  - intros l x Hx. rewrite drop_next. by eapply H8.
Qed.

(** *** The other ports *)

(** Something of a connection they took is of none of this port's. *)
Lemma away_apart s k t : sound s → away s !! k = Some t → (t ∉ tq s) ∧ ∀ c, c ∈ copies s → ct c ≠ t.
Proof.
  intros H Hk. destruct (working_once _ H) as [_ Hp]. apply list_elem_of_lookup_2 in Hk. unfold pooled in Hp. apply NoDup_app in Hp as (_ & Hp1 & Hp). split.
  - intros Ht. apply (Hp1 _ Ht). apply elem_of_app. by left.
  - intros c Hc <-. apply NoDup_app in Hp as (_ & Hp & _). apply (Hp _ Hk), list_elem_of_fmap. by exists c.
Qed.

(** What they do to such a connection leaves the port as it is. *)
Lemma sound_away s s1 k t : sound s → away s !! k = Some t → ok (conns s1) (pooled s1) → next (conns s1) = next (conns s) →
  (∀ i, i ≠ t → peers (conns s1) !! i = peers (conns s) !! i ∧ sent s1 !! i = sent s !! i) →
  flows s1 = flows s → lq s1 = lq s → handle s1 = handle s → tq s1 = tq s → copies s1 = copies s → active s1 = active s → elsewhere s1 = elsewhere s → replies s1 = replies s → sound s1.
Proof.
  intros H Hk Hok En Hi Ef El Eh Et Ec Ea Ex Er. destruct (away_apart _ _ _ H Hk) as [Hq Hc].
  assert (t ∈ pooled s) as Hin by (unfold pooled; rewrite !elem_of_app; right; left; by eapply list_elem_of_lookup_2).
  destruct H as [H1 H2 H3 H4 H5 H6 H7 H8 H9]. assert (working s1 = working s ∧ held s1 = held s) as [Ew Ed] by (unfold working, held; by rewrite El, Eh, Ec). split.
  - by rewrite Ef, Ew.
  - done.
  - intros HL. by rewrite Ea, Ew, Ex, (H3 HL).
  - intros l. rewrite El, Ed, Ef, Er. apply H4.
  - intros x. rewrite Et. intros Hx. destruct (Hi x) as [Hx1 Hx2]; [by intros ->|]. rewrite Hx2. destruct (H5 x Hx). split; [by eapply came_other|done].
  - intros c. rewrite Ec. intros Hc'. destruct (Hi _ (Hc c Hc')) as [Hx1 Hx2]. eapply carries_frame; [by apply H6| | |done|by rewrite Er].
    + intros g w. by rewrite Ef.
    + intros g w. by apply follows_other.
  - intros x y Hx. rewrite En. destruct (decide (x = t)) as [->|Hn].
    + destruct (ok_live _ _ H2 _ Hin) as (p & Hp & _). by eapply (ok_next _ _ H2).
    + destruct (Hi x Hn) as [_ He]. rewrite He in Hx. by eapply H7.
  - intros l x. rewrite Er, Ef. apply H8.
  - by rewrite Ex.
Qed.

Lemma others_sound d s s' : sound s → others d s = Some s' → sound s'.
Proof.
  intros H He. destruct d; cbn [others] in He.
  - apply bind_Some in He as (n & Ha & He). injection He as <-. apply acquired in Ha as [Ha _]. destruct H as [H1 H2 H3 H4 H5 H6 H7 H8 H9]. split; fields; try done; [|lia].
    intros HL. rewrite (Ha HL), (H3 HL). unfold working, held. fields. lia.
  - destruct (Z.ltb_spec 0 (elsewhere s)) as [Hx|]; [|done]. injection He as <-. destruct H as [H1 H2 H3 H4 H5 H6 H7 H8 H9]. split; fields; try done; [|lia].
    intros HL. rewrite (released _ _ HL), (H3 HL). unfold working, held. fields. lia.
  - destruct (tq s) as [|t q] eqn:Eq; [done|]. injection He as <-. destruct H as [H1 H2 H3 H4 H5 H6 H7 H8 H9]. split; fields; try done.
    + eapply ok_perm; [|exact H2]. unfold pooled. fields. rewrite Eq, <- app_assoc. cbn. rewrite <- (Permutation_middle (away s)), <- (Permutation_middle q). done.
    + intros x Hx. apply H5. rewrite Eq. by right.
  - apply bind_Some in He as (t & Hk & He). injection He as <-. eapply sound_away; [exact H|exact Hk|..]; fields; try done; [apply (s_conns _ H)|].
    intros i Hi. split; [done|by apply say_other].
  - apply bind_Some in He as (t & Hk & He). apply bind_Some in He as ([b t'] & Ht & He). injection He as <-. eapply sound_away; [exact H|exact Hk|..]; fields; try done.
    + eapply ok_take; [|exact Ht]. apply (s_conns _ H).
    + by eapply take_next.
    + intros i Hi. split; [|done]. by eapply take_other.
  - apply bind_Some in He as (t & Hk & He). injection He as <-. eapply sound_away; [exact H|exact Hk|..]; fields; try done.
    + apply ok_drop. eapply ok_perm; [|apply (s_conns _ H)]. unfold pooled. fields. rewrite (delete_Permutation _ _ _ Hk) at 1. cbn. symmetry. apply Permutation_middle.
    + apply drop_next.
    + intros i Hi. split; [by apply drop_other|done].
Qed.

Lemma exec_sound e s s' : sound s → exec e s = Some s' → sound s'.
Proof.
  intros H He. destruct e; cbn [exec] in He.
  - by eapply others_sound.
  - by eapply local_sound.
  - unfold first_datagram in He. destruct (pending s) as [[id b]|]; [|done]. destruct (is_closed _ _); [done|]. injection He as <-. by destruct (sound_put_flow s id b H).
  - injection He as <-. by apply tunnel_sound.
  - by eapply takes_sound.
  - destruct (handle s); [done| |done]. by injection He as <-.
  - by eapply paired_sound.
  - by eapply leaves_sound.
  - by eapply one_sound.
  - by eapply quits_sound.
  - by eapply finishes_sound.
  - injection He as <-. by destruct H.
Qed.

Lemma reachable_sound s : rtc step initial s → sound s.
Proof.
  intros H. revert H. apply (rtc_ind_r (λ s, sound s)); [apply initial_sound|]. intros y z _ [e He] Hy. by eapply exec_sound.
Qed.

(** *** What came from where *)

(** The datagrams that came from an address to the forwarded port, as they are
    read, and to the tunnel port. *)
Definition heard (a : string) (es : list event) : list string :=
  omap (λ e, match e with Local from b _ => if decide (from = a) then Some (read b) else None | _ => None end) es.
Definition told (a : string) (es : list event) : list string :=
  omap (λ e, match e with Tunnel from b _ => if decide (from = a) then Some (read b) else None | _ => None end) es.

(** The flow [id] was opened by a datagram from [a], when there was none of [a],
    and from that one on [h] came from [a]. *)
Definition flow_since (es : list event) (a : string) (id : nat) (h : list string) : Prop :=
  ∃ es1 b now es2 s1 s2, es = es1 ++ Local a b now :: es2 ∧ run es1 initial = Some s1 ∧ names (flows s1) !! a = None ∧
    run (es1 ++ [Local a b now]) initial = Some s2 ∧ names (flows s2) !! a = Some id ∧ h = heard a (Local a b now :: es2).

(** The connection [id] of the pool was opened by the token, and from then on [h]
    came from its address. *)
Definition conn_since (es : list event) (a : string) (id : nat) (h : list string) : Prop :=
  ∃ es1 b now es2 s1 s2, es = es1 ++ Tunnel a b now :: es2 ∧ run es1 initial = Some s1 ∧ names (conns s1) !! a = None ∧ read b = Token ∧
    run (es1 ++ [Tunnel a b now]) initial = Some s2 ∧ names (conns s2) !! a = Some id ∧ h = told a es2.

(** The first datagram of a flow, before it is in its channel. *)
Definition arriving (s : server) (id : nat) : list string :=
  match pending s with Some (i, b) => if decide (i = id) then [b] else [] | None => [] end.

Definition traced (es : list event) (s : server) : Prop :=
  filed (flows s) (arriving s) (flow_since es) ∧ filed (conns s) (λ _, []) (conn_since es).

Lemma run_snoc es e s : run (es ++ [e]) s = run es s ≫= exec e.
Proof. unfold run. by rewrite foldl_snoc. Qed.

Lemma run_reached es s s' : run es s = Some s' → rtc step s s'.
Proof. apply foldl_steps. intros e x y He. by exists e. Qed.

Lemma heard_app a es es' : heard a (es ++ es') = heard a es ++ heard a es'.
Proof. apply omap_app. Qed.

Lemma told_app a es es' : told a (es ++ es') = told a es ++ told a es'.
Proof. apply omap_app. Qed.

Lemma flow_since_snoc es e a id h : flow_since es a id h → flow_since (es ++ [e]) a id (h ++ heard a [e]).
Proof.
  intros (es1 & b & now & es2 & s1 & s2 & -> & H1 & H2 & H3 & H4 & ->). exists es1, b, now, (es2 ++ [e]), s1, s2. rewrite <- app_assoc.
  split_and!; try done. change (Local a b now :: es2 ++ [e]) with ((Local a b now :: es2) ++ [e]). by rewrite heard_app.
Qed.

Lemma conn_since_snoc es e a id h : conn_since es a id h → conn_since (es ++ [e]) a id (h ++ told a [e]).
Proof.
  intros (es1 & b & now & es2 & s1 & s2 & -> & H1 & H2 & H3 & H4 & H5 & ->). exists es1, b, now, (es2 ++ [e]), s1, s2. rewrite <- app_assoc.
  split_and!; try done. by rewrite told_app.
Qed.

Lemma flow_since_none es e a id h : heard a [e] = [] → flow_since es a id h → flow_since (es ++ [e]) a id h.
Proof. intros He H%(flow_since_snoc es e). by rewrite He, app_nil_r in H. Qed.

Lemma conn_since_none es e a id h : told a [e] = [] → conn_since es a id h → conn_since (es ++ [e]) a id h.
Proof. intros He H%(conn_since_snoc es e). by rewrite He, app_nil_r in H. Qed.

(** What leaves the flows but for what it takes, and the connections. *)
Definition flows_shrink (e : event) : bool := match e with Local _ _ _ | First => false | _ => true end.
Definition conns_shrink (e : event) : bool := match e with Tunnel _ _ _ => false | _ => true end.

Lemma shrinks_flows e s s' : flows_shrink e = true → exec e s = Some s' → shrinks (flows s) (flows s') ∧ pending s' = pending s.
Proof.
  intros Hq Hx. destruct e as [d| | | | | | | | | | |]; cbn [flows_shrink exec] in *; try done.
  - destruct d; cbn [others] in Hx; repeat (apply bind_Some in Hx as (? & _ & Hx)); try (destruct (_ <? _); [|done]); try (destruct (tq s); [done|]); injection Hx as <-; by split; [apply shrinks_refl|].
  - injection Hx as <-. unfold tunnel_datagram. destruct (names _ !! _); [by split; [apply shrinks_refl|]|]. destruct (negb _); [by split; [apply shrinks_refl|]|]. destruct (_ <? _)%nat; by split; [apply shrinks_refl|].
  - unfold loop_takes in Hx. destruct (handle s); [|done|done]. destruct (lq s); [done|]. cbv zeta in Hx. destruct (expired _ _ _) in Hx; injection Hx as <-; split; try done; [apply shrinks_drop|apply shrinks_refl].
  - destruct (handle s); [done| |done]. injection Hx as <-. by split; [apply shrinks_refl|].
  - unfold loop_pairs in Hx. destruct (handle s); [done| |done]. destruct (tq s); [done|]. cbv zeta in Hx. destruct writes; injection Hx as <-; by split; [apply shrinks_refl|].
  - unfold loop_leaves in Hx. destruct (negb _); [done|]. destruct (handle s); [| |done]; injection Hx as <-; split; try done; [apply shrinks_refl|apply shrinks_drop].
  - unfold copy_one in Hx. apply bind_Some in Hx as (c & _ & Hx). destruct (negb _); [done|]. destruct upward; apply bind_Some in Hx as ([b t] & Ht & Hx); cbv zeta in Hx; cbn [fst snd] in Hx.
    + destruct writes; injection Hx as <-; (split; [|done]); by eapply shrinks_take.
    + destruct writes; injection Hx as <-; by split; [apply shrinks_refl|].
  - unfold copy_quits in Hx. apply bind_Some in Hx as (c & _ & Hx). destruct (negb _); [done|]. destruct (_ && _); [done|]. injection Hx as <-. by split; [apply shrinks_refl|].
  - unfold copy_finishes in Hx. apply bind_Some in Hx as (c & _ & Hx). destruct (_ || _); [done|]. injection Hx as <-. split; [apply shrinks_drop|done].
  - injection Hx as <-. by split; [apply shrinks_refl|].
Qed.

Lemma shrinks_conns e s s' : conns_shrink e = true → exec e s = Some s' → shrinks (conns s) (conns s').
Proof.
  intros Hq Hx. destruct e as [d| | | | | | | | | | |]; cbn [conns_shrink exec] in *; try done.
  - destruct d; cbn [others] in Hx.
    + apply bind_Some in Hx as (n & _ & Hx). injection Hx as <-. apply shrinks_refl.
    + destruct (_ <? _); [|done]. injection Hx as <-. apply shrinks_refl.
    + destruct (tq s); [done|]. injection Hx as <-. apply shrinks_refl.
    + apply bind_Some in Hx as (t & _ & Hx). injection Hx as <-. apply shrinks_refl.
    + apply bind_Some in Hx as (t & _ & Hx). apply bind_Some in Hx as ([b t'] & Ht & Hx). injection Hx as <-. by eapply shrinks_take.
    + apply bind_Some in Hx as (t & _ & Hx). injection Hx as <-. apply shrinks_drop.
  - unfold local_datagram in Hx. destruct (pending s); [done|]. destruct (names _ !! _); [injection Hx as <-; apply shrinks_refl|]. destruct (acquire _ _); [|injection Hx as <-; apply shrinks_refl].
    destruct (_ <? _)%nat in Hx; injection Hx as <-; apply shrinks_refl.
  - unfold first_datagram in Hx. destruct (pending s) as [[]|]; [|done]. destruct (is_closed _ _); [done|]. injection Hx as <-. apply shrinks_refl.
  - unfold loop_takes in Hx. destruct (handle s); [|done|done]. destruct (lq s); [done|]. cbv zeta in Hx. destruct (expired _ _ _) in Hx; injection Hx as <-; apply shrinks_refl.
  - destruct (handle s); [done| |done]. injection Hx as <-. apply shrinks_refl.
  - unfold loop_pairs in Hx. destruct (handle s); [done| |done]. destruct (tq s); [done|]. cbv zeta in Hx. destruct writes; injection Hx as <-; [apply shrinks_refl|apply shrinks_drop].
  - unfold loop_leaves in Hx. destruct (negb _); [done|]. destruct (handle s); [| |done]; injection Hx as <-; apply shrinks_refl.
  - unfold copy_one in Hx. apply bind_Some in Hx as (c & _ & Hx). destruct (negb _); [done|]. destruct upward; apply bind_Some in Hx as ([b t] & Ht & Hx); cbv zeta in Hx; cbn [fst snd] in Hx.
    + destruct writes; injection Hx as <-; apply shrinks_refl.
    + destruct writes; injection Hx as <-; by eapply shrinks_take.
  - unfold copy_quits in Hx. apply bind_Some in Hx as (c & _ & Hx). destruct (negb _); [done|]. destruct (_ && _); [done|]. injection Hx as <-. apply shrinks_refl.
  - unfold copy_finishes in Hx. apply bind_Some in Hx as (c & _ & Hx). destruct (_ || _); [done|]. injection Hx as <-. apply shrinks_drop.
  - injection Hx as <-. apply shrinks_refl.
Qed.

Lemma took_all k : took k k.
Proof. by split. Qed.

Lemma traced_local es s from b now s' : sound s → run es initial = Some s → filed (flows s) (arriving s) (flow_since es) → local_datagram from b now s = Some s' →
  filed (flows s') (arriving s') (flow_since (es ++ [Local from b now])).
Proof.
  intros HS Hr HF Hx. pose proof (s_flows _ HS) as HK. set (e := Local from b now).
  assert (run (es ++ [e]) initial = Some s') as Hr' by (rewrite run_snoc, Hr; exact Hx).
  assert (heard from [e] = [read b]) as Hh by (cbn; by rewrite decide_True).
  assert (∀ a i h, a ≠ from → flow_since es a i h → flow_since (es ++ [e]) a i h) as HO.
  { intros a i h Ha. apply flow_since_none. cbn. by rewrite decide_False by done. }
  unfold local_datagram in Hx. destruct (pending s) eqn:Ep; [done|]. assert (∀ i, arriving s i = []) as Ha by (intros i; unfold arriving; by rewrite Ep).
  destruct (names (flows s) !! from) as [id|] eqn:En.
  { injection Hx as <-. fields. apply (filed_put _ _ from id _ (arriving s) (flow_since es) _ HK HF En Ha); [|done].
    intros h Hs%(flow_since_snoc es e). by rewrite Hh in Hs. }
  destruct (acquire _ _) as [n|].
  2:{ injection Hx as <-. apply (filed_shrinks _ _ _ _ _ HF (shrinks_refl _)). intros a i h Hi. apply HO. intros ->. congruence. }
  destruct (_ <? _)%nat in Hx; injection Hx as <-; fields.
  - apply (filed_add _ _ from now [read b] (arriving s) _ (flow_since es) _ HK HF En Ha); [| | |done].
    + intros i Hi. unfold arriving. fields. by rewrite decide_False.
    + unfold arriving. fields. rewrite decide_True by done. apply took_all.
    + exists es, b, now, [], s. eexists. split_and!; [done|exact Hr|done|exact Hr'| |]; [fields; cbn [add names]; by rewrite lookup_insert_eq|by rewrite <- Hh].
  - apply (filed_shrinks _ _ (arriving s) _ _ HF); [by eapply shrinks_refused|]. intros a i h Hi. apply HO. intros ->.
    apply (shrinks_refused _ _ from now HK En) in Hi as [Hi _]. congruence.
Qed.

Lemma traced_tunnel es s from b now : sound s → run es initial = Some s → filed (conns s) (λ _, []) (conn_since es) →
  filed (conns (tunnel_datagram from b now s)) (λ _, []) (conn_since (es ++ [Tunnel from b now])).
Proof.
  intros HS Hr HF. pose proof (s_conns _ HS) as HK. set (e := Tunnel from b now). set (s' := tunnel_datagram from b now s).
  assert (run (es ++ [e]) initial = Some s') as Hr' by (rewrite run_snoc, Hr; done).
  assert (told from [e] = [read b]) as Hh by (cbn; by rewrite decide_True).
  assert (∀ a i h, a ≠ from → conn_since es a i h → conn_since (es ++ [e]) a i h) as HO.
  { intros a i h Ha. apply conn_since_none. cbn. by rewrite decide_False by done. }
  unfold s', tunnel_datagram in *. destruct (names (conns s) !! from) as [id|] eqn:En.
  { fields. apply (filed_put _ _ from id _ _ (conn_since es) _ HK HF En); [done| |done].
    intros h Hs%(conn_since_snoc es e). by rewrite Hh in Hs. }
  destruct (negb _) eqn:Et.
  { apply (filed_shrinks _ _ _ _ _ HF (shrinks_refl _)). intros a i h Hi. apply HO. intros ->. congruence. }
  apply negb_false_iff, String.eqb_eq in Et. destruct (_ <? _)%nat; fields.
  - apply (filed_add _ _ from now [] (λ _, []) _ (conn_since es) _ HK HF En); [done|done|apply took_all| |done].
    exists es, b, now, [], s. eexists. split_and!; [done|exact Hr|done|done|exact Hr'| |done]. fields. cbn [add names]. by rewrite lookup_insert_eq.
  - apply (filed_shrinks _ _ _ _ _ HF); [by eapply shrinks_refused|]. intros a i h Hi. apply HO. intros ->.
    apply (shrinks_refused _ _ from now HK En) in Hi as [Hi _]. congruence.
Qed.

Lemma traced_first es s s' : filed (flows s) (arriving s) (flow_since es) → first_datagram s = Some s' →
  filed (flows s') (arriving s') (flow_since (es ++ [First])).
Proof.
  intros HF Hx. unfold first_datagram in Hx. destruct (pending s) as [[id b]|] eqn:Ep; [|done]. destruct (is_closed _ _); [done|]. injection Hx as <-. fields.
  apply (filed_first _ id b (arriving s) (flow_since es)); [done| | |intros a i h; by apply flow_since_none].
  - unfold arriving. rewrite Ep. by rewrite decide_True.
  - intros i Hi. unfold arriving. rewrite Ep. by rewrite decide_False.
Qed.

(** Every flow, and every connection of the pool, has what came from its address. *)
Lemma traced_run es : ∀ s, run es initial = Some s → traced es s.
Proof.
  induction es as [|e es IH] using rev_ind; intros s' Hr.
  { injection Hr as <-. split; intros a id Hi; cbn in Hi; by rewrite lookup_empty in Hi. }
  pose proof Hr as Hr'. rewrite run_snoc in Hr. apply bind_Some in Hr as (s & Hr & Hx). destruct (IH s Hr) as [HF HC]. pose proof (reachable_sound _ (run_reached _ _ _ Hr)) as HS. split.
  - destruct (flows_shrink e) eqn:Ef.
    + destruct (shrinks_flows e s s' Ef Hx) as [Hs Hp]. assert (arriving s' = arriving s) as -> by (unfold arriving; by rewrite Hp).
      apply (filed_shrinks _ _ _ _ _ HF Hs). intros a i h _. apply flow_since_none. by destruct e.
    + destruct e; try done; cbn [exec] in Hx; [by eapply traced_local|by eapply traced_first].
  - destruct (conns_shrink e) eqn:Ec.
    + apply (filed_shrinks _ _ _ _ _ HC (shrinks_conns e s s' Ec Hx)). intros a i h _. apply conn_since_none. by destruct e.
    + destruct e; try done. cbn [exec] in Hx. injection Hx as <-. by apply traced_tunnel.
Qed.

End server.

End Server.

(** ** A connection of the pool at the client *)

Module Client.

(** [SG_Ping], as a datagram, and the buffer the target is read into. *)
Definition ping : string := String (ascii_of_nat (Z.to_nat Wire.SG_Ping)) "".
Definition buffer : Z := 47.
Definition cut (b : string) : string := substring 0 (Z.to_nat buffer) b.

(** [handleTunnelConn] and [localDialer]: what the datagrams of a connection come
    to, a backend and what it is sent. *)
Fixpoint handleTunnelConn (l : list string) : option (string * list string) :=
  match l with
  | [] => None
  | b :: l =>
      if String.eqb b ping then handleTunnelConn l
      else match Engine.ResolveRemoteAddr (cut b) with
      | Some (_, addr) => Some (Backends.firstBackend addr, l)
      | None => None
      end
  end.

Lemma cut_short b : Z.of_nat (String.length b) ≤ buffer → cut b = b.
Proof. intros H. apply substring_all. unfold buffer in *. lia. Qed.

Lemma pings_skipped n l : handleTunnelConn (replicate n ping ++ l) = handleTunnelConn l.
Proof. induction n as [|n IH]; [done|]. cbn. by rewrite IH. Qed.

(** A target of more than forty-seven characters is cut, here in its port. *)
Lemma long_target_cut :
  let target := "game.servers.of.a.rather.long.name.internal:8443" in
  String.length target = 48%nat ∧ Engine.ResolveRemoteAddr target = Some (8443, target) ∧
  handleTunnelConn [target; "x"] = Some ("game.servers.of.a.rather.long.name.internal:844", ["x"]).
Proof. by vm_compute. Qed.

End Client.

(** ** The port and its pool *)

Module Port.
Import Table Slots Server.

Section port.
Context (Token target : string) (maxConns : Z) (ChannelSize : nat).

Notation step := (Server.step Token target maxConns ChannelSize).
Notation exec := (Server.exec Token target maxConns ChannelSize).


(** The other ports touch neither the queue nor the loop, nor end the run. *)
Lemma others_frame d s s' : others maxConns d s = Some s' → ended s' = ended s ∧ handle s' = handle s ∧ lq s' = lq s.
Proof.
  intros Hx. destruct d; cbn [others] in Hx; repeat (apply bind_Some in Hx as (? & _ & Hx)); try (destruct (_ <? _); [|done]); try (destruct (tq s); [done|]); by injection Hx as <-.
Qed.

(** A flow the loop has in hand waits for a connection of the pool, and nothing
    else: its timer changes nothing, however often it fires, and the flows behind
    it wait too. *)
Definition quiet (e : event) : bool := match e with Pair _ | Cancel => false | _ => true end.

Lemma held_stays e s s' l : quiet e = true → ended s = false → handle s = Holding l → exec e s = Some s' →
  ended s' = false ∧ handle s' = Holding l ∧ lq s `prefix_of` lq s'.
Proof.
  intros Hq He Hh Hx. destruct e; cbn [quiet Server.exec] in *; try done.
  - destruct (others_frame _ _ _ Hx) as (-> & -> & ->). by rewrite He, Hh.
  - unfold local_datagram in Hx. destruct (pending s); [done|]. destruct (names _ !! _); [by injection Hx as <-|]. destruct (acquire _ _); [|by injection Hx as <-].
    destruct (_ <? _)%nat in Hx; injection Hx as <-; fields; (split; [done|]; split; [done|]); [by apply prefix_app_r|done].
  - unfold first_datagram in Hx. destruct (pending s) as [[]|]; [|done]. destruct (is_closed _ _); [done|]. by injection Hx as <-.
  - injection Hx as <-. unfold tunnel_datagram. destruct (names _ !! _); [done|]. destruct (negb _); [done|]. by destruct (_ <? _)%nat.
  - unfold loop_takes in Hx. by rewrite Hh in Hx.
  - rewrite Hh in Hx. by injection Hx as <-.
  - unfold loop_leaves in Hx. by rewrite He in Hx.
  - unfold copy_one in Hx. apply bind_Some in Hx as (c & _ & Hx). destruct (negb _); [done|]. destruct upward; apply bind_Some in Hx as (x & _ & Hx); destruct writes; by injection Hx as <-.
  - unfold copy_quits in Hx. apply bind_Some in Hx as (c & _ & Hx). destruct (negb _); [done|]. destruct (_ && _); [done|]. by injection Hx as <-.
  - unfold copy_finishes in Hx. apply bind_Some in Hx as (c & _ & Hx). destruct (_ || _); [done|]. by injection Hx as <-.
Qed.

Definition quiet_step (s s' : server) : Prop := ∃ e, quiet e = true ∧ exec e s = Some s'.

Lemma held_forever s s' l : ended s = false → handle s = Holding l → rtc quiet_step s s' → handle s' = Holding l ∧ lq s `prefix_of` lq s'.
Proof.
  intros He Hh Hr. revert He Hh. induction Hr as [s|s s1 s' (e & Hq & Hx) _ IH]; intros He Hh; [done|].
  destruct (held_stays _ _ _ _ Hq He Hh Hx) as (He1 & Hh1 & Hp). destruct (IH He1 Hh1) as [Hh' Hp']. split; [done|by etrans].
Qed.

(** What is left in the queue of a run whose loop has returned stays there, with
    its slots. *)
Lemma left_stays s s' : handle s = Gone → rtc step s s' → handle s' = Gone ∧ lq s `prefix_of` lq s'.
Proof.
  intros Hh Hr. revert Hh. induction Hr as [s|s s1 s' [e Hx] _ IH]; intros Hh; [done|].
  assert (handle s1 = Gone ∧ lq s `prefix_of` lq s1) as [Hh1 Hp].
  { destruct e; cbn [Server.exec] in *; try done.
    - destruct (others_frame _ _ _ Hx) as (_ & -> & ->). by rewrite Hh.
    - unfold local_datagram in Hx. destruct (pending s); [done|]. destruct (names _ !! _); [by injection Hx as <-|]. destruct (acquire _ _); [|by injection Hx as <-].
      destruct (_ <? _)%nat in Hx; injection Hx as <-; fields; (split; [done|]); [by apply prefix_app_r|done].
    - unfold first_datagram in Hx. destruct (pending s) as [[]|]; [|done]. destruct (is_closed _ _); [done|]. by injection Hx as <-.
    - injection Hx as <-. unfold tunnel_datagram. destruct (names _ !! _); [done|]. destruct (negb _); [done|]. by destruct (_ <? _)%nat.
    - unfold loop_takes in Hx. by rewrite Hh in Hx.
    - by rewrite Hh in Hx.
    - unfold loop_pairs in Hx. by rewrite Hh in Hx.
    - unfold loop_leaves in Hx. destruct (negb _); [done|]. by rewrite Hh in Hx.
    - unfold copy_one in Hx. apply bind_Some in Hx as (c & _ & Hx). destruct (negb _); [done|]. destruct upward; apply bind_Some in Hx as (x & _ & Hx); destruct writes; by injection Hx as <-.
    - unfold copy_quits in Hx. apply bind_Some in Hx as (c & _ & Hx). destruct (negb _); [done|]. destruct (_ && _); [done|]. by injection Hx as <-.
    - unfold copy_finishes in Hx. apply bind_Some in Hx as (c & _ & Hx). destruct (_ || _); [done|]. by injection Hx as <-.
    - by injection Hx as <-. }
  destruct (IH Hh1) as [Hh' Hp']. split; [done|by etrans].
Qed.

(** Once there are as many of them as the limit, no flow is let in. *)
Lemma left_refuses s s' : rtc step initial s → handle s = Gone → 0 < maxConns → maxConns ≤ zlen (lq s) → rtc step s s' → acquire maxConns (active s') = None.
Proof.
  intros Hr Hh Hm Hn Hs. destruct (left_stays _ _ Hh Hs) as [_ Hp]. apply prefix_length in Hp.
  assert (rtc step initial s') as Hr' by (by etrans). apply reachable_sound in Hr' as H. assert (limited maxConns = true) as HL by (by apply Z.ltb_lt).
  pose proof (s_slots _ _ _ H HL) as Ha. pose proof (s_else _ _ _ H) as Hx. unfold acquire. rewrite HL. destruct (_ <=? _) eqn:E; [|done]. apply Z.leb_le in E. unfold zlen, working in *. rewrite length_app in Ha. lia.
Qed.

End port.

(** *** Runs *)

(** One flow that is paired and answered, and one that waits; another port has a
    slot, and a connection of the pool that nothing came from. *)
Definition talk : list event :=
  [Other Acquires; Tunnel "198.51.100.8:40000" "token" 0; Other Takes; Other (Writes 0 "9001"); Tunnel "198.51.100.7:40000" "token" 0; Local "203.0.113.9:5000" "hello" 10; First; Take 11; Pair true; Local "203.0.113.9:5000" "again" 12; Copy 0 true true;
   Tunnel "198.51.100.7:40000" "welcome" 13; Copy 0 false true; Local "203.0.113.10:6000" "and me" 14; First; Take 15].

Definition reached (es : list event) : server := default initial (Server.run "token" "127.0.0.1:27015" 1000 8 es initial).


(** The run ends between a flow's being queued and its first datagram's being put
    in its channel: the loop closes the channel, and the send panics. *)
Lemma first_datagram_panics : ∃ s, rtc (Server.step "token" "9000" 0 8) initial s ∧ panics s.
Proof.
  set (es := [Local "203.0.113.9:5000" "hello" 10; Take 11; Cancel; Leave]).
  exists (default initial (Server.run "token" "9000" 0 8 es initial)). split; [apply (run_reached _ _ _ _ es); by vm_compute|]. exists 0%nat, "hello". split; by vm_compute.
Qed.

(** With a limit of one, a flow that was queued when the run ended keeps every
    later one out. *)
Lemma queued_slot_lost : ∃ s, rtc (Server.step "token" "9000" 1 8) initial s ∧ ∀ s', rtc (Server.step "token" "9000" 1 8) s s' → acquire 1 (active s') = None.
Proof.
  set (es := [Local "203.0.113.9:5000" "hello" 10; First; Cancel; Leave]).
  exists (default initial (Server.run "token" "9000" 1 8 es initial)). assert (rtc (Server.step "token" "9000" 1 8) initial (default initial (Server.run "token" "9000" 1 8 es initial))) as Hr.
  { apply (run_reached _ _ _ _ es). by vm_compute. }
  split; [exact Hr|]. intros s' Hs. eapply left_refuses; [exact Hr|by vm_compute|done|by vm_compute|exact Hs].
Qed.

(** A datagram of more than 16384 bytes is cut. *)
Lemma long_datagram_cut b : buffer < Z.of_nat (String.length b) → read b ≠ b.
Proof.
  intros H He. assert (∀ n s, (String.length (substring 0 n s) ≤ n)%nat) as HA by (induction n as [|n IH]; intros [|c s]; cbn; [lia|lia|lia|specialize (IH s); lia]).
  specialize (HA (Z.to_nat buffer) b). unfold read in He. rewrite He in HA. assert (0 ≤ buffer) by done. lia.
Qed.

End Port.
