(* ===== verification/RevMux.v ===== *)
(** Sessions that carry many connections, on the server end of a reverse tunnel
    (Module [Mux]): what a mux transport does with a session
    ([internal/server/transport/muxsession.go], [requeueLocal] of [pairing.go]),
    and the connections that come to its forwarded ports
    ([tcpmux.go], [udpAdmitter] of [udpforward.go]).

    One run of the transport. Each session has a goroutine, which takes a step at
    a time, as do the listeners and the streams that are carried, in any order.
    The counters are [int32]s that stay far from their bounds. *)

From stdpp Require Import list relations.
From S2P Require Import Prelude RevPairing.
Open Scope list_scope.
Open Scope Z_scope.

Module Mux.
Import Slots.

(** [LocalTCPConn], and whether it is a flow of datagrams. *)
Record conn : Type := mkConn { cid : nat; timeCreated : Z; udp : bool }.

(** Where the loop of a session is: about to take a slot, in its [select], with a
    connection, with a stream for it, or gone, its session having failed or the
    run having ended. *)
Inductive place : Type := Top | Waiting | Has (c : conn) | Opened (c : conn) | Failed | Left.

(** A session: the slots that are taken ([counter]) and the connections it
    carries. *)
Record session : Type := mkSession { counter : nat; at_ : place; relays : list conn }.

Record mux : Type := mkMux {
  active : Z;                  (* the limiter *)
  streams : Z;                 (* [streamCounter] *)
  sessions : Z;                (* [sessionCounter] *)
  local : list conn;           (* [localChannel] *)
  requests : nat;              (* what was asked for through [reqNewConnChan] *)
  live : list session;         (* the sessions there were *)
  flows : Z;                   (* how many flows of datagrams were let in *)
  ended : bool
}.
#[export] Instance eta_mux : Eta mux := λ s, mkMux (active s) (streams s) (sessions s) (local s) (requests s) (live s) (flows s) (ended s).
#[export] Instance set_active : Field active. Proof. set_field. Defined.
#[export] Instance set_streams : Field streams. Proof. set_field. Defined.
#[export] Instance set_sessions : Field sessions. Proof. set_field. Defined.
#[export] Instance set_local : Field local. Proof. set_field. Defined.
#[export] Instance set_requests : Field requests. Proof. set_field. Defined.
#[export] Instance set_live : Field live. Proof. set_field. Defined.
#[export] Instance set_flows : Field flows. Proof. set_field. Defined.
#[export] Instance set_ended : Field ended. Proof. set_field. Defined.

Ltac fields :=
  unfold assign, set_active, set_streams, set_sessions, set_local, set_requests, set_live, set_flows, set_ended in *;
  cbn [active streams sessions local requests live flows ended] in *.

Definition initial : mux := mkMux 0 0 0 [] 0 [] 0 false.

Inductive event : Type :=
| AcceptTcp (c : conn)               (* [acceptLocalConn] *)
| AcceptUdp (c : conn)               (* [udpAdmitter] *)
| Start                              (* [handleLoop] takes a session *)
| Next (k : nat)                     (* a session's loop takes a slot of it *)
| Receive (k : nat) (now : Z)        (* and a connection *)
| Open (k : nat) (ok : bool)
| Announce (k : nat) (ok : bool)
| End (k i : nat)                    (* a connection that is carried ends *)
| Leave (k : nat)
| Cancel.

Section mux.
(** [MaxConnections], [ChannelSize] and [MuxCon]. *)
Context (maxConns : Z) (ChannelSize muxCon : nat).

Definition room (s : mux) : bool := (length (local s) <? ChannelSize)%nat.

(** The stream counter and the question whether to ask for another session. *)
Definition acceptLocalConn (c : conn) (s : mux) : mux :=
  match acquire maxConns (active s) with
  | None => s
  | Some n =>
      if room s then
        let s := s <| active := n |> <| local := local s ++ [mkConn (cid c) (timeCreated c) false] |> <| streams := streams s + 1 |> in
        if sessions s * Z.of_nat muxCon <=? streams s then s <| requests := S (requests s) |> else s
      else s <| active := release maxConns n |>
  end.

(** A flow of datagrams is queued as a connection is, and a session asked for. *)
Definition udpAdmitter (c : conn) (s : mux) : mux :=
  match acquire maxConns (active s) with
  | None => s
  | Some n =>
      if room s then
        s <| active := n |> <| local := local s ++ [mkConn (cid c) (timeCreated c) true] |> <| requests := S (requests s) |> <| flows := flows s + 1 |>
      else s <| active := release maxConns n |>
  end.

Definition handleLoop (s : mux) : mux := s <| sessions := sessions s + 1 |> <| live := live s ++ [mkSession 0 Top []] |>.

Definition set_session (k : nat) (x : session) (s : mux) : mux := s <| live := <[k := x]> (live s) |>.

(** [requeueLocal], and the stream counter when there is no room. *)
Definition requeueLocal (c : conn) (s : mux) : mux :=
  if room s then s <| local := local s ++ [c] |> else s <| active := release maxConns (active s) |> <| streams := streams s - 1 |>.

(** [failed]. *)
Definition failed (c : conn) (s : mux) : mux :=
  let s := requeueLocal c (s <| sessions := sessions s - 1 |>) in s <| requests := S (requests s) |>.

Definition expired (now : Z) (c : conn) : bool := Pairing.pairingTimeout <? now - timeCreated c.

(** A connection is done with: its slot goes back and it is no longer counted. *)
Definition gone (s : mux) : mux := s <| active := release maxConns (active s) |> <| streams := streams s - 1 |>.

(** [muxSession.run], by its steps. *)
Definition next_ (k : nat) (s : mux) : option mux :=
  x ← live s !! k;
  match at_ x with
  | Top => if (counter x <? muxCon)%nat then Some (set_session k (mkSession (S (counter x)) Waiting (relays x)) s) else None
  | _ => None
  end.

Definition receive (k : nat) (now : Z) (s : mux) : option mux :=
  x ← live s !! k;
  match at_ x, local s with
  | Waiting, c :: q =>
      let s := s <| local := q |> in
      Some (if expired now c then gone (set_session k (mkSession (counter x - 1) Top (relays x)) s)
            else set_session k (mkSession (counter x) (Has c) (relays x)) s)
  | _, _ => None
  end.

Definition open (k : nat) (ok : bool) (s : mux) : option mux :=
  x ← live s !! k;
  match at_ x with
  | Has c => Some (if ok then set_session k (mkSession (counter x) (Opened c) (relays x)) s
                   else failed c (set_session k (mkSession (counter x) Failed (relays x)) s))
  | _ => None
  end.

Definition announce (k : nat) (ok : bool) (s : mux) : option mux :=
  x ← live s !! k;
  match at_ x with
  | Opened c => Some (if ok then set_session k (mkSession (counter x) Top (relays x ++ [c])) s
                      else requeueLocal c (set_session k (mkSession (counter x - 1) Top (relays x)) s))
  | _ => None
  end.

Definition end_ (k i : nat) (s : mux) : option mux :=
  x ← live s !! k;
  _ ← relays x !! i;
  Some (gone (set_session k (mkSession (counter x - 1) (at_ x) (delete i (relays x))) s)).

Definition leave (k : nat) (s : mux) : option mux :=
  if negb (ended s) then None
  else
    x ← live s !! k;
    match at_ x with Waiting => Some (set_session k (mkSession (counter x) Left (relays x)) s) | _ => None end.

Definition exec (e : event) (s : mux) : option mux :=
  match e with
  | AcceptTcp c => Some (acceptLocalConn c s)
  | AcceptUdp c => Some (udpAdmitter c s)
  | Start => Some (handleLoop s)
  | Next k => next_ k s
  | Receive k now => receive k now s
  | Open k ok => open k ok s
  | Announce k ok => announce k ok s
  | End k i => end_ k i s
  | Leave k => leave k s
  | Cancel => Some (s <| ended := true |>)
  end.

Definition step (s s' : mux) : Prop := ∃ e, exec e s = Some s'.
Definition run (es : list event) (s : mux) : option mux := foldl (λ s e, s ≫= exec e) (Some s) es.

(** *** What is counted *)

(** The connections a session has in hand, and all that are in flight. *)
Definition hand (p : place) : nat := match p with Has _ | Opened _ => 1 | _ => 0 end.
Definition load (x : session) : nat := hand (at_ x) + length (relays x).
Definition inflight (s : mux) : Z := zlen (local s) + Z.of_nat (sum_list_with load (live s)).

(** A session that has not failed, and the slots it should have taken. *)
Definition standing (x : session) : nat := match at_ x with Failed => 0 | _ => 1 end.
Definition taken (p : place) : nat := match p with Waiting | Has _ | Opened _ => 1 | _ => 0 end.

Definition exact (x : session) : Prop :=
  match at_ x with Failed | Left => True | p => counter x = (taken p + length (relays x))%nat end ∧ (length (relays x) + taken (at_ x) ≤ muxCon)%nat.

Record balanced (s : mux) : Prop := {
  b_slots : limited maxConns = true → active s = inflight s;
  b_streams : streams s + flows s = inflight s;
  b_sessions : sessions s = Z.of_nat (sum_list_with standing (live s));
  b_exact : Forall exact (live s)
}.

Lemma sum_set (f : session → nat) k x y l : l !! k = Some x → (sum_list_with f (<[k := y]> l) + f x = sum_list_with f l + f y)%nat.
Proof. apply Pairing.sum_insert. Qed.

(** A step of a session: what it does to the counts, by what it does to the
    session. *)
Lemma balanced_set s k x y s' : balanced s → live s !! k = Some x → live s' = <[k := y]> (live s) → exact y →
  (limited maxConns = true → active s' - active s = zlen (local s') - zlen (local s) + Z.of_nat (load y) - Z.of_nat (load x)) →
  streams s' + flows s' - streams s - flows s = zlen (local s') - zlen (local s) + Z.of_nat (load y) - Z.of_nat (load x) →
  sessions s' - sessions s = Z.of_nat (standing y) - Z.of_nat (standing x) → balanced s'.
Proof.
  intros [H1 H2 H3 H4] Hk El Hy Ha Hst Hse. pose proof (sum_set load k x y (live s) Hk) as HL. pose proof (sum_set standing k x y (live s) Hk) as HS. unfold inflight in *.
  split; unfold inflight; rewrite ?El.
  - intros Hl. specialize (H1 Hl). specialize (Ha Hl). lia.
  - lia.
  - lia.
  - by apply Forall_insert.
Qed.

Lemma exact_at s k x : balanced s → live s !! k = Some x → exact x.
Proof. intros H Hk. by apply (Forall_lookup_1 _ _ _ _ (b_exact _ H) Hk). Qed.

Ltac counts := fields; unfold zlen, load, standing, exact; cbn [at_ relays hand counter taken]; rewrite ?length_app; cbn [length]; try lia.

Lemma exec_balanced e s s' : balanced s → exec e s = Some s' → balanced s'.
Proof.
  intros H He. destruct e; cbn [exec] in He.
  - injection He as <-. unfold acceptLocalConn. destruct (acquire _ _) as [n|] eqn:Ea; [|done]. apply acquired in Ea as [Ha Hr]. destruct H as [H1 H2 H3 H4]. unfold inflight in *.
    destruct (room s); [|split; unfold inflight; fields; try done; by rewrite Hr]. cbv zeta.
    destruct (_ <=? _); (split; unfold inflight, zlen in *; fields; rewrite ?length_app; cbn [length]; [intros HL; specialize (Ha HL); specialize (H1 HL); lia|lia|done|done]).
  - injection He as <-. unfold udpAdmitter. destruct (acquire _ _) as [n|] eqn:Ea; [|done]. apply acquired in Ea as [Ha Hr]. destruct H as [H1 H2 H3 H4]. unfold inflight in *.
    destruct (room s); [|split; unfold inflight; fields; try done; by rewrite Hr].
    split; unfold inflight, zlen in *; fields; rewrite ?length_app; cbn [length]; [intros HL; specialize (Ha HL); specialize (H1 HL); lia|lia|done|done].
  - injection He as <-. unfold handleLoop. destruct H as [H1 H2 H3 H4]. unfold inflight in *. split; unfold inflight; fields; rewrite ?sum_list_with_app; cbn; try lia.
    + intros HL. specialize (H1 HL). lia.
    + apply Forall_app. split; [done|]. constructor; [|done]. split; [done|cbn; lia].
  - unfold next_ in He. apply bind_Some in He as (x & Hk & He). destruct (at_ x) eqn:Ex; try done. destruct (_ <? _)%nat eqn:El; [|done]. injection He as <-. apply Nat.ltb_lt in El.
    pose proof (exact_at _ _ _ H Hk) as [He1 He2]. rewrite Ex in *. unfold set_session. eapply (balanced_set s k x _ _ H Hk); [fields; reflexivity|..]; counts; rewrite ?Ex; cbn [hand taken] in *; try lia.
  - unfold receive in He. apply bind_Some in He as (x & Hk & He). destruct (at_ x) eqn:Ex; try done. destruct (local s) as [|c q] eqn:Eq; [done|]. injection He as <-.
    pose proof (exact_at _ _ _ H Hk) as [He1 He2]. rewrite Ex in *. unfold set_session, gone. cbn [taken] in *.
    destruct (expired _ _); (eapply (balanced_set s k x _ _ H Hk); [fields; reflexivity|..]; counts; rewrite ?Ex, ?Eq; cbn [hand taken length] in *; try lia).
    intros HL. rewrite (released _ _ HL). lia.
  - unfold open in He. apply bind_Some in He as (x & Hk & He). destruct (at_ x) eqn:Ex; try done. injection He as <-.
    pose proof (exact_at _ _ _ H Hk) as [He1 He2]. rewrite Ex in *. cbn [taken] in *. destruct ok; unfold set_session, failed, requeueLocal, room.
    + eapply (balanced_set s k x _ _ H Hk); [fields; reflexivity|..]; counts; rewrite ?Ex; cbn [hand taken length] in *; try lia.
    + fields. destruct (_ <? _)%nat; (eapply (balanced_set s k x _ _ H Hk); [fields; reflexivity|..]; counts; rewrite ?Ex; cbn [hand taken length] in *; try lia).
      intros HL. rewrite (released _ _ HL). lia.
  - unfold announce in He. apply bind_Some in He as (x & Hk & He). destruct (at_ x) eqn:Ex; try done. injection He as <-.
    pose proof (exact_at _ _ _ H Hk) as [He1 He2]. rewrite Ex in *. cbn [taken] in *. destruct ok; unfold set_session, requeueLocal, room.
    + eapply (balanced_set s k x _ _ H Hk); [fields; reflexivity|..]; counts; rewrite ?Ex; cbn [hand taken length] in *; try lia.
    + fields. destruct (_ <? _)%nat; (eapply (balanced_set s k x _ _ H Hk); [fields; reflexivity|..]; counts; rewrite ?Ex; cbn [hand taken length] in *; try lia).
      intros HL. rewrite (released _ _ HL). lia.
  - unfold end_ in He. apply bind_Some in He as (x & Hk & He). apply bind_Some in He as (c & Hi & He). injection He as <-.
    pose proof (exact_at _ _ _ H Hk) as [He1 He2]. pose proof (length_delete (relays x) i (ex_intro _ c Hi)) as Hd. apply lookup_lt_Some in Hi. unfold set_session, gone.
    eapply (balanced_set s k x _ _ H Hk); [fields; reflexivity|..]; counts; rewrite ?Hd; try lia.
    + revert He1 He2. destruct (at_ x); cbn; intros; (split; [try done|]; lia).
    + intros HL. rewrite (released _ _ HL). lia.
  - unfold leave in He. destruct (negb _); [done|]. apply bind_Some in He as (x & Hk & He). destruct (at_ x) eqn:Ex; try done. injection He as <-.
    pose proof (exact_at _ _ _ H Hk) as [He1 He2]. rewrite Ex in *. cbn [taken] in *. unfold set_session.
    eapply (balanced_set s k x _ _ H Hk); [fields; reflexivity|..]; counts; rewrite ?Ex; cbn [hand taken length] in *; try lia.
  - injection He as <-. by destruct H.
Qed.

Lemma initial_balanced : balanced initial.
Proof. by split. Qed.

Lemma reachable_balanced s : rtc step initial s → balanced s.
Proof. intros H. revert H. apply (rtc_ind_r (λ s, balanced s)); [apply initial_balanced|]. intros y z _ [e He] Hy. by eapply exec_balanced. Qed.

(** C38: in every state the server gets to: the slots of the limit that are taken are those of the connections that are queued, in a session's hand or carried, so none is lost however a session fails; the session counter is the number of sessions that have not failed; a session carries at most as many connections as it may, and as long as it carries fewer its loop takes the next one; and the stream counter is what is in flight, less every flow of datagrams there ever was. *)
Theorem mux_balanced s : rtc step initial s →
  (limited maxConns = true → active s = inflight s) ∧
  sessions s = Z.of_nat (sum_list_with standing (live s)) ∧
  streams s = inflight s - flows s ∧
  (∀ k x, live s !! k = Some x → (length (relays x) ≤ muxCon)%nat ∧ (at_ x = Top → (length (relays x) < muxCon)%nat → is_Some (exec (Next k) s))).
Proof.
  intros [H1 H2 H3 H4]%reachable_balanced. split_and!; [done|done|lia|]. intros k x Hk. rewrite Forall_lookup in H4. destruct (H4 _ _ Hk) as [Hc Hn]. split; [lia|].
  intros Ht Hl. rewrite Ht in Hc. cbn [taken] in Hc. assert ((counter x <? muxCon)%nat = true) as HL by (apply Nat.ltb_lt; lia).
  cbn [exec]. unfold next_, mbind, option_bind. rewrite Hk, Ht, HL. by eexists.
Qed.

Lemma run_reaches es s' : run es initial = Some s' → rtc step initial s'.
Proof. apply foldl_steps. intros e s t He. by exists e. Qed.

End mux.

(** A connection that is carried, one whose announcement fails and which waits
    again, one that waits too long, and a session that fails with one. *)
Definition day : list event :=
  [Start; AcceptTcp (mkConn 1 0 false); Next 0; Receive 0 5; Open 0 true; Announce 0 true; AcceptTcp (mkConn 2 10 false); Next 0; Receive 0 12; Open 0 true; Announce 0 false;
   Next 0; Receive 0 9000; Start; AcceptTcp (mkConn 3 9001 false); Next 1; Receive 1 9002; Open 1 false].

Definition reached (es : list event) : mux := default initial (run 4 8 2 es initial).

Lemma mux_balanced_witness : let s := reached day in
  active s = inflight s ∧ inflight s = 2 ∧ sessions s = 1 ∧ streams s = 2 - flows s.
Proof.
  cbv zeta. assert (rtc (step 4 8 2) initial (reached day)) as Hr by (apply (run_reaches 4 8 2 day); vm_compute; reflexivity).
  destruct (mux_balanced 4 8 2 (reached day) Hr) as (H1 & H2 & H3 & _). assert (inflight (reached day) = 2) as Hi by (vm_compute; reflexivity).
  split; [apply H1; reflexivity|]. split; [exact Hi|]. split; [rewrite H2; vm_compute; reflexivity|]. rewrite H3, Hi. reflexivity.
Defined.

(** Each flow of datagrams takes one off the stream counter for good: after as many
    of them as a session has room for, a connection that finds every session full
    asks for no other. *)
Definition flow (n : nat) : list event := [AcceptUdp (mkConn n 0 true); Next 0; Receive 0 1; Open 0 true; Announce 0 true; End 0 0].

Lemma datagrams_starve_pool :
  let before := reached (Start :: flow 1 ++ flow 2 ++ [AcceptTcp (mkConn 3 0 false); Next 0; Receive 0 1; Open 0 true; Announce 0 true;
                                                       AcceptTcp (mkConn 4 0 false); Next 0; Receive 0 1; Open 0 true; Announce 0 true]) in
  let after := acceptLocalConn 4 8 2 (mkConn 5 0 false) before in
  Forall (λ x, length (relays x) = 2%nat) (live before) ∧ streams before = 0 ∧ requests after = requests before ∧
  requests (acceptLocalConn 4 8 2 (mkConn 5 0 false) (reached [Start; AcceptTcp (mkConn 3 0 false); Next 0; Receive 0 1; Open 0 true; Announce 0 true;
                                                       AcceptTcp (mkConn 4 0 false); Next 0; Receive 0 1; Open 0 true; Announce 0 true])) = 2%nat.
Proof. cbv zeta. split; [vm_compute; by repeat constructor|]. by vm_compute. Qed.

End Mux.
