(* ===== verification/Proxy.v ===== *)
(** The proxies a node runs for itself ([internal/socks], [internal/localproxy]),
    and the PROXY protocol:
    - Module [Addr]: addresses as text;
    - Module [Header]: the header that tells a backend who is calling
      ([internal/utils/handlers/proxy_protocol.go]);
    - Module [Socks]: one connection to the SOCKS5 proxy, from the greeting to
      what it is joined to ([socks5.go]);
    - Module [Associate]: datagrams through it ([udpassociate.go]);
    - Module [Local]: which proxy runs, and whom it lets in ([localproxy.go],
      [httpproxy.go]).

    A connection is the bytes a client sends before it ends or is silent for
    too long, and what is written back. Dialling, resolving and listening are
    arguments; so is what net/http makes of a request. *)

From Stdlib Require Import Ascii String.
From stdpp Require Import gmap strings relations.
From S2P Require Import Prelude GoStr GoHash GoB64 RevWire Ports GoNet.
Import GoStr.
Open Scope string_scope.
Open Scope list_scope.
Open Scope Z_scope.

Module Addr.

Definition hex_digits (v : Z) : string :=
  let d (k : Z) := String (hex_digit (v `div` 16 ^ k `mod` 16)) "" in
  if v <? 16 then d 0 else if v <? 256 then d 1 +:+ d 0 else if v <? 4096 then d 2 +:+ d 1 +:+ d 0 else d 3 +:+ d 2 +:+ d 1 +:+ d 0.

Fixpoint groups (b : list Z) : list Z :=
  match b with
  | x :: y :: b => (256 * x + y) :: groups b
  | _ => []
  end.

(** How many zeros a list starts with. *)
Fixpoint zeros (l : list Z) : nat := match l with 0 :: l => S (zeros l) | _ => O end.

(** The first of the longest runs of zeros: where it is and how long. *)
Fixpoint longest (i : nat) (l : list Z) (best : nat * nat) : nat * nat :=
  match l with
  | [] => best
  | _ :: r => longest (S i) r (if (best.2 <? zeros l)%nat then (i, zeros l) else best)
  end.

Definition spelled (l : list Z) : string := Join (map hex_digits l) ":".

(** [net.IP.String] of four or sixteen bytes. *)
Definition String_ (ip : list Z) : string :=
  let dotted (b : list Z) := Join (map Itoa b) "." in
  if (length ip =? 4)%nat then dotted ip
  else match GoNet.To4 ip with
       | Some b => dotted b
       | None =>
           let g := groups ip in
           let run := longest 0 g (O, 1%nat) in
           if (run.2 <? 2)%nat then spelled g
           else spelled (take run.1 g) +:+ "::" +:+ spelled (drop (run.1 + run.2) g)
       end.

Example spelling :
  map String_ [[10; 0; 0; 1]; GoNet.mapped [127; 0; 0; 1]; repeat 0 16; repeat 0 15 ++ [1];
    [32; 1; 13; 184; 0; 0; 0; 0; 0; 0; 255; 0; 0; 66; 131; 41]; [0; 1; 0; 0; 0; 2; 0; 0; 0; 0; 0; 3; 0; 0; 0; 0]; [0; 1; 0; 0; 0; 2; 0; 3; 0; 4; 0; 5; 0; 6; 171; 205]] =
  ["10.0.0.1"; "127.0.0.1"; "::"; "::1"; "2001:db8::ff00:42:8329"; "1:0:2::3:0:0"; "1:0:2:3:4:5:6:abcd"].
Proof. by vm_compute. Qed.

End Addr.

Module Header.

(** The magic, then version and command. *)
Definition magic : list Z := [13; 10; 13; 10; 0; 13; 10; 81; 85; 73; 84; 10].

Definition buildProxyProtocolV2Header (srcIP dstIP : string) (srcPort dstPort : Z) : option (list Z) :=
  match GoNet.ParseIP srcIP, GoNet.ParseIP dstIP with
  | Some src, Some dst =>
      let ports := put_be 2 (u16 srcPort) ++ put_be 2 (u16 dstPort) in
      match GoNet.To4 src, GoNet.To4 dst with
      | Some src, Some dst => Some (magic ++ [33] ++ [17] ++ put_be 2 12 ++ src ++ dst ++ ports)
      | _, _ => Some (magic ++ [33] ++ [33] ++ put_be 2 36 ++ src ++ dst ++ ports)
      end
  | _, _ => None
  end.

(** The ends of a connection: of TCP, with an address and a port, or not. *)
Inductive conn_addr : Type := TCPAddr (ip : list Z) (port : Z) | OtherAddr.

(** [WriteProxyProtocol], to the header that is written. *)
Definition WriteProxyProtocol (RemoteAddr LocalAddr : conn_addr) : option (list Z) :=
  match RemoteAddr, LocalAddr with
  | TCPAddr src sport, TCPAddr dst dport => buildProxyProtocolV2Header (Addr.String_ src) (Addr.String_ dst) sport dport
  | _, _ => None
  end.

(** How a backend reads it: the addresses, the ports, and the rest of the stream. *)
Definition read_header (s : list Z) : option (list Z * list Z * Z * Z * list Z) :=
  m ← Wire.ReadFull 12 s;
  if negb (bool_decide (m.1 = magic)) then None else
  h ← Wire.ReadFull 4 m.2;
  if negb (at_ h.1 0 =? 33) then None else
  match (if at_ h.1 1 =? 17 then Some 4%nat else if at_ h.1 1 =? 33 then Some 16%nat else None) with
  | None => None
  | Some n =>
      b ← Wire.ReadFull (Z.to_nat (get_be (drop 2 h.1))) h.2;
      if (length b.1 <? 2 * n + 4)%nat then None else
      Some (take n b.1, take n (drop n b.1), get_be (slice b.1 (2 * n) (2 * n + 2)), get_be (slice b.1 (2 * n + 2) (2 * n + 4)), b.2)
  end.

Lemma octet_Itoa v : 0 ≤ v < 256 → GoNet.octet (Itoa v) = Some v ∧ free "." (Itoa v) ∧ (∀ t, GoNet.address_kind (Itoa v +:+ String "." t) = Some "."%char).
Proof.
  intros H. assert (v ∈ seqZ 0 256) as Hv by (apply elem_of_seqZ; lia).
  assert (forallb (λ v, bool_decide (GoNet.octet (Itoa v) = Some v) && (forallb (λ x, negb (Ascii.eqb x ".")) (list_ascii_of_string (Itoa v)) &&
    forallb (λ c, negb (bool_decide (c ∈ ["."; ":"; "%"]%char))) (list_ascii_of_string (Itoa v)))) (seqZ 0 256) = true) as HF by (by vm_compute).
  rewrite forallb_forall in HF. apply list_elem_of_In, HF in Hv. apply andb_true_iff in Hv as [H1%bool_decide_eq_true [H2 H3]%andb_true_iff].
  split_and!; [done|by apply Forall_forall; intros x Hx; rewrite forallb_forall in H2; apply H2, list_elem_of_In|]. intros t.
  clear -H3. induction (Itoa v) as [|c s IH]; [done|]. cbn [list_ascii_of_string forallb] in H3. apply andb_true_iff in H3 as [Hc%negb_true_iff H3]. cbn [append GoNet.address_kind]. rewrite Hc. by apply IH.
Qed.

(** An IPv4 address that is spelled out is read back. *)
Lemma ParseIP_String ip : length ip = 4%nat → bytes_ok ip → GoNet.ParseIP (Addr.String_ ip) = Some (GoNet.mapped ip).
Proof.
  intros Hl Hb. unfold Addr.String_. rewrite Hl. change (4 =? 4)%nat with true. cbn iota. destruct ip as [|a [|b [|c [|d [|]]]]]; try done.
  rewrite !bytes_ok_cons in Hb. destruct Hb as (Ha & Hb & Hc & Hd & _). unfold byte_ok in *.
  destruct (octet_Itoa a Ha) as (Oa & Fa & Ka), (octet_Itoa b Hb) as (Ob & Fb & _), (octet_Itoa c Hc) as (Oc & Fc & _), (octet_Itoa d Hd) as (Od & Fd & _).
  unfold GoNet.ParseIP. assert (Join (map Itoa [a; b; c; d]) "." = Itoa a +:+ String "." (Join (map Itoa [b; c; d]) ".")) as E by done.
  rewrite E, Ka, <- E. cbn iota. unfold GoNet.parseIPv4. rewrite Split_Join by (done || by repeat constructor). cbn [map]. by rewrite Oa, Ob, Oc, Od.
Qed.

(** A backend reads off the header the address and the port of the client, those
    it was called at, and then the stream as the client sent it. *)
Lemma proxy_header_read src dst sport dport rest : length src = 4%nat → length dst = 4%nat → bytes_ok src → bytes_ok dst →
  0 ≤ sport < 2^16 → 0 ≤ dport < 2^16 →
  ∃ h, WriteProxyProtocol (TCPAddr src sport) (TCPAddr dst dport) = Some h ∧ read_header (h ++ rest) = Some (src, dst, sport, dport, rest).
Proof.
  intros Ls Ld Hs Hd Hsp Hdp. unfold WriteProxyProtocol, buildProxyProtocolV2Header. rewrite !ParseIP_String by done.
  assert (∀ ip, GoNet.To4 (GoNet.mapped ip) = Some ip) as HT by (intros ip; unfold GoNet.To4; by rewrite bool_decide_true).
  rewrite !HT, !u16_small by done. eexists. split; [reflexivity|]. unfold read_header.
  destruct src as [|a [|b [|c [|d [|]]]]], dst as [|a' [|b' [|c' [|d' [|]]]]]; try done. rewrite <- !app_assoc.
  rewrite (Wire.ReadFull_app magic). cbn [mbind option_bind fst snd]. rewrite bool_decide_true by done. cbn [negb].
  pose proof (get_put_be_small 2 sport Hsp) as Gs. pose proof (get_put_be_small 2 dport Hdp) as Gd.
  assert (∀ v, ∃ x y, put_be 2 v = [x; y]) as HP by (intros v; by eexists _, _).
  destruct (HP sport) as (x & y & Es), (HP dport) as (z & w & Ed). rewrite Es, Ed in *. cbn [app].
  change (Wire.ReadFull 4 (33 :: 17 :: put_be 2 12 ++ ?s)) with (Some ([33; 17; 0; 12], s)). cbn [mbind option_bind fst snd].
  change (negb (at_ [33; 17; 0; 12] 0 =? 33)) with false. change (at_ [33; 17; 0; 12] 1 =? 17) with true. cbn iota.
  change (Z.to_nat (get_be (drop 2 [33; 17; 0; 12]))) with 12%nat. cbn [app].
  change (Wire.ReadFull 12 (a :: b :: c :: d :: a' :: b' :: c' :: d' :: x :: y :: z :: w :: rest)) with (Some ([a; b; c; d; a'; b'; c'; d'; x; y; z; w], rest)).
  cbn [mbind option_bind fst snd length Nat.ltb Nat.leb Nat.mul Nat.add]. unfold slice. cbn [drop take Nat.sub]. by rewrite Gs, Gd.
Qed.

End Header.

Module Socks.
Import RevWire.Wire.

Definition ver5 : Z := 5.
Definition authUP : Z := 2.
Definition authNone : Z := 0.
Definition cmdConn : Z := 1.
Definition cmdUDP : Z := 3.
Definition atypIPv4 : Z := 1.
Definition atypHost : Z := 3.
Definition atypIPv6 : Z := 4.
Definition repOK : Z := 0.

Notation AuthFunc := (string → string → bool).

(** What became of a connection: it is closed, it is joined to a target with
    what the client has sent already, or it keeps a relay of datagrams open. *)
Inductive ending : Type := Closed | Piped (target : string) (rest : list Z) | Relaying.

Definition says {A} (b : list Z) (x : list Z * A) : list Z * A := (b ++ x.1, x.2).

Definition reply (code : Z) : list Z := [ver5; code; 0; atypIPv4; 0; 0; 0; 0; 0; 0].

Fixpoint hasMethod (methods : list Z) (m : Z) : bool :=
  match methods with
  | [] => false
  | x :: methods => if x =? m then true else hasMethod methods m
  end.

(** What is left to read once the credentials are accepted. *)
Definition readAuth (auth : AuthFunc) (s : list Z) : option (list Z) :=
  h ← ReadFull 2 s;
  if negb (at_ h.1 0 =? 1) then None else
  user ← ReadFull (Z.to_nat (at_ h.1 1)) h.2;
  pl ← ReadFull 1 user.2;
  pass ← ReadFull (Z.to_nat (at_ pl.1 0)) pl.2;
  if auth (of_bytes user.1) (of_bytes pass.1) then Some pass.2 else None.

Definition readAddr (atyp : Z) (s : list Z) : option (string * list Z) :=
  if atyp =? atypIPv4 then b ← ReadFull 4 s; Some (Addr.String_ b.1, b.2)
  else if atyp =? atypIPv6 then b ← ReadFull 16 s; Some (Addr.String_ b.1, b.2)
  else if atyp =? atypHost then
    l ← ReadFull 1 s; b ← ReadFull (Z.to_nat (at_ l.1 0)) l.2; Some (of_bytes b.1, b.2)
  else None.

(** A bound UDP address: its four or sixteen bytes and its port. *)
Record UDPAddr : Type := mkUDP { IP : list Z; Port : Z }.

Definition udpBindReply (a : UDPAddr) : list Z :=
  [ver5; repOK; 0] ++
  match (if (length (IP a) =? 4)%nat then Some (IP a) else GoNet.To4 (IP a)) with
  | Some ip4 => atypIPv4 :: ip4
  | None => atypIPv6 :: IP a
  end ++ put_be 2 (u16 (Port a)).

Section handle.
(** Whether a target answers, and where a relay is bound. *)
Context (dial : string → bool) (listen : option UDPAddr).

Definition handleUDPAssociate : list Z * ending :=
  match listen with
  | None => (reply 1, Closed)
  | Some bound => (udpBindReply bound, Relaying)
  end.

(** The second half of [handle]: the request. *)
Definition request (s : list Z) : list Z * ending :=
  match ReadFull 4 s with
  | None => (reply 7, Closed)
  | Some (head, s) =>
      if negb (at_ head 0 =? ver5) then (reply 7, Closed) else
      match readAddr (at_ head 3) s with
      | None => (reply 8, Closed)
      | Some (host, s) =>
          match ReadFull 2 s with
          | None => (reply 1, Closed)
          | Some (portBuf, s) =>
              if at_ head 1 =? cmdConn then
                let target := Net.JoinHostPort host (Itoa (get_be portBuf)) in
                if dial target then (reply repOK, Piped target s) else (reply 5, Closed)
              else if at_ head 1 =? cmdUDP then handleUDPAssociate
              else (reply 7, Closed)
          end
      end
  end.

Definition handle (auth : option AuthFunc) (s : list Z) : list Z * ending :=
  match ReadFull 2 s with
  | None => ([], Closed)
  | Some (br, s) =>
      if negb (at_ br 0 =? ver5) then ([], Closed) else
      match ReadFull (Z.to_nat (at_ br 1)) s with
      | None => ([], Closed)
      | Some (methods, s) =>
          match auth with
          | None =>
              if negb (hasMethod methods authNone) then ([ver5; 255], Closed)
              else says [ver5; authNone] (request s)
          | Some auth =>
              if negb (hasMethod methods authUP) then ([ver5; 255], Closed)
              else says [ver5; authUP]
                match readAuth auth s with
                | None => ([1; 1], Closed)
                | Some s => says [1; 0] (request s)
                end
          end
      end
  end.
End handle.

(** *** How a client asks ([RFC 1928], [RFC 1929]) *)

Inductive destination : Type := V4 (b : list Z) | V6 (b : list Z) | Named (name : string).

Definition dst_ok (d : destination) : Prop :=
  match d with
  | V4 b => length b = 4%nat
  | V6 b => length b = 16%nat
  | Named s => (String.length s < 256)%nat
  end.

Definition host_of (d : destination) : string := match d with V4 b | V6 b => Addr.String_ b | Named s => s end.

Definition addressed (d : destination) : list Z :=
  match d with
  | V4 b => atypIPv4 :: b
  | V6 b => atypIPv6 :: b
  | Named s => atypHost :: Z.of_nat (String.length s) :: to_bytes s
  end.

Definition target_of (d : destination) (port : Z) : string := Net.JoinHostPort (host_of d) (Itoa port).

Definition greeting (methods : list Z) : list Z := ver5 :: zlen methods :: methods.
Definition credentials (user pass : string) : list Z :=
  1 :: Z.of_nat (String.length user) :: to_bytes user ++ Z.of_nat (String.length pass) :: to_bytes pass.
Definition asks (cmd : Z) (d : destination) (port : Z) : list Z := [ver5; cmd; 0] ++ addressed d ++ put_be 2 port.

(** *** Reading what was asked *)

Lemma ReadFull_all n a b : length a = n → ReadFull n (a ++ b) = Some (a, b).
Proof. intros <-. apply ReadFull_app. Qed.

Lemma ReadFull_1 a s : ReadFull 1 (a :: s) = Some ([a], s).
Proof. done. Qed.

Lemma ReadFull_2 a b s : ReadFull 2 (a :: b :: s) = Some ([a; b], s).
Proof. done. Qed.

Lemma ReadFull_4 a b c d s : ReadFull 4 (a :: b :: c :: d :: s) = Some ([a; b; c; d], s).
Proof. done. Qed.

Lemma ReadFull_Some n s a r : ReadFull n s = Some (a, r) → s = a ++ r ∧ length a = n.
Proof.
  unfold ReadFull. destruct (Nat.ltb_spec (length s) n); [done|]. intros [= <- <-]. split; [by rewrite take_drop|]. rewrite length_take. lia.
Qed.

Lemma at_0 x l : at_ (x :: l) 0 = x.
Proof. done. Qed.

Lemma at_1 x y l : at_ (x :: y :: l) 1 = y.
Proof. done. Qed.

Lemma readAddr_addressed d rest : dst_ok d →
  readAddr (at_ (addressed d) 0) (drop 1 (addressed d) ++ rest) = Some (host_of d, rest).
Proof.
  destruct d as [b|b|s]; cbn [dst_ok addressed host_of drop]; intros H; unfold readAddr; rewrite at_0.
  - change (atypIPv4 =? atypIPv4) with true. cbn iota. by rewrite (ReadFull_all 4) by done.
  - change (atypIPv6 =? atypIPv4) with false. change (atypIPv6 =? atypIPv6) with true. cbn iota. by rewrite (ReadFull_all 16) by done.
  - change (atypHost =? atypIPv4) with false. change (atypHost =? atypIPv6) with false. change (atypHost =? atypHost) with true. cbn iota.
    rewrite <- app_comm_cons, ReadFull_1. cbn [mbind option_bind fst snd]. rewrite at_0, Nat2Z.id, ReadFull_all by apply length_to_bytes.
    cbn [mbind option_bind fst snd]. by rewrite of_to_bytes.
Qed.

Lemma readAuth_credentials auth user pass rest :
  readAuth auth (credentials user pass ++ rest) = if auth user pass then Some rest else None.
Proof.
  unfold readAuth, credentials. cbn [app]. rewrite <- !app_assoc. cbn [app].
  rewrite ReadFull_2. cbn [mbind option_bind fst snd]. rewrite at_0, at_1, Nat2Z.id, ReadFull_all by apply length_to_bytes. cbn [negb Z.eqb Pos.eqb mbind option_bind fst snd].
  rewrite ReadFull_1. cbn [mbind option_bind fst snd]. rewrite at_0, Nat2Z.id, ReadFull_all by apply length_to_bytes. cbn [mbind option_bind fst snd].
  by rewrite !of_to_bytes.
Qed.

Lemma hasMethod_In m l : hasMethod l m = true ↔ m ∈ l.
Proof.
  induction l as [|x l IH]; cbn; [split; [done|by intros ?%elem_of_nil]|]. rewrite elem_of_cons, <- IH. destruct (Z.eqb_spec x m) as [->|]; [tauto|].
  split; [by right|]. intros [->|?]; done.
Qed.

Lemma to_of_bytes l : bytes_ok l → to_bytes (of_bytes l) = l.
Proof.
  intros H. unfold to_bytes, of_bytes, chars. rewrite list_ascii_of_string_of_list_ascii, map_map. induction H as [|x l Hx _ IH]; [done|]. cbn [map]. rewrite IH. f_equal.
  unfold byte_ok in Hx. rewrite nat_ascii_embedding by lia. lia.
Qed.

Lemma request_asks dial listen cmd d port rest : dst_ok d → 0 ≤ port < 2^16 →
  request dial listen (asks cmd d port ++ rest) =
    if cmd =? cmdConn then if dial (target_of d port) then (reply repOK, Piped (target_of d port) rest) else (reply 5, Closed)
    else if cmd =? cmdUDP then handleUDPAssociate listen else (reply 7, Closed).
Proof.
  intros Hd Hp. unfold request, asks. assert (∃ k t, addressed d = k :: t) as (k & t & Ea) by (destruct d; eauto).
  pose proof (readAddr_addressed d (put_be 2 port ++ rest) Hd) as HR. rewrite Ea in HR |- *. rewrite at_0 in HR. change (drop 1 (k :: t)) with t in HR. rewrite <- !app_assoc. cbn [app].
  rewrite ReadFull_4. cbn iota. change (at_ [ver5; cmd; 0; k] 0) with ver5. change (at_ [ver5; cmd; 0; k] 1) with cmd.
  change (at_ [ver5; cmd; 0; k] 3) with k. change (negb (ver5 =? ver5)) with false. cbn iota. rewrite HR.
  rewrite (ReadFull_all 2) by apply length_put_be. rewrite get_put_be_small by done. done.
Qed.

Lemma request_piped dial listen s t r : (request dial listen s).2 = Piped t r → dial t = true.
Proof.
  unfold request. destruct (ReadFull 4 s) as [[head s1]|]; [|done]. destruct (negb _); [done|]. destruct (readAddr _ s1) as [[host s2]|]; [|done].
  destruct (ReadFull 2 s2) as [[b s3]|]; [|done]. destruct (_ =? cmdConn).
  - cbv zeta. destruct (dial _) eqn:Ed; [|done]. by intros [= <- _].
  - destruct (_ =? cmdUDP); [|done]. unfold handleUDPAssociate. by destruct listen.
Qed.

(** What is read as credentials was sent as credentials. *)
Lemma readAuth_Some auth s r : bytes_ok s → readAuth auth s = Some r →
  ∃ user pass, auth user pass = true ∧ s = credentials user pass ++ r.
Proof.
  intros Hs. unfold readAuth. intros H. apply bind_Some in H as ([h s1] & Eh & H). cbn [fst snd] in H.
  destruct (Z.eqb_spec (at_ h 0) 1) as [E1|]; [|done]. cbn [negb] in H. apply bind_Some in H as ([u s2] & Eu & H). apply bind_Some in H as ([p s3] & Ep & H).
  apply bind_Some in H as ([w s4] & Ew & H). cbn [fst snd] in *. destruct (auth _ _) eqn:Ea; [|done]. injection H as <-.
  apply ReadFull_Some in Eh as [-> Hh], Eu as [-> Hu], Ep as [-> Hp], Ew as [-> Hw].
  destruct h as [|x [|y [|]]]; try done. destruct p as [|z [|]]; try done. cbn [at_ lookup list_lookup default] in *.
  rewrite !bytes_ok_app, !bytes_ok_cons in Hs. destruct Hs as ((_ & Hy & _) & Hu' & (Hz & _) & Hw' & _). unfold byte_ok in *.
  change (at_ [x; y] 0) with x in E1. change (at_ [x; y] 1) with y in Hu. change (at_ [z] 0) with z in Hw. subst x.
  exists (of_bytes u), (of_bytes w). split; [done|]. unfold credentials. rewrite !to_of_bytes by done. rewrite <- !length_to_bytes, !to_of_bytes by done.
  rewrite Hu, Hw, !Z2Nat.id by lia. cbn [app]. by rewrite <- !app_assoc.
Qed.

End Socks.

Module Associate.
Import Socks.

(** [net.IP.Equal]. *)
Definition to16 (ip : list Z) : list Z := if (length ip =? 4)%nat then GoNet.mapped ip else ip.
Definition Equal (a b : list Z) : bool := bool_decide (to16 a = to16 b).

(** Destination, port, data, and the header replies are given. *)
Definition parseUDPDatagram (b : list Z) : option (string * Z * list Z * list Z) :=
  if (length b <? 4)%nat || negb (at_ b 2 =? 0) then None else
  let atyp := at_ b 3 in
  let split (host : string) (pos : nat) := Some (host, get_be (slice b pos (pos + 2)), drop (pos + 2) b, take (pos + 2) b) in
  if atyp =? atypIPv4 then
    if (length b <? 4 + 4 + 2)%nat then None else split (Addr.String_ (slice b 4 8)) 8%nat
  else if atyp =? atypIPv6 then
    if (length b <? 4 + 16 + 2)%nat then None else split (Addr.String_ (slice b 4 20)) 20%nat
  else if atyp =? atypHost then
    if (length b <? 4 + 1)%nat then None else
    let l := Z.to_nat (at_ b 4) in
    if (length b <? 5 + l + 2)%nat then None else split (of_bytes (slice b 5 (5 + l))) (5 + l)%nat
  else None.

(** The size of the buffers datagrams are read into. *)
Definition buffer : nat := 64 * 1024.

(** One association, and what passed through it: [came] from whom, [sent] to
    which destination, [heard] from which, [answered] to whom. [flows] has the
    header of each. *)
Record relay : Type := mkRelay {
  client : option UDPAddr;
  flows : gmap string (list Z);
  closed : bool;
  came : list (UDPAddr * list Z);
  sent : list (string * list Z);
  heard : list (string * list Z);
  answered : list (UDPAddr * list Z)
}.

Definition fresh : relay := mkRelay None ∅ false [] [] [] [].

Inductive event : Type :=
| Datagram (from : UDPAddr) (b : list Z) (opens writes : bool)   (* [serve] reads one *)
| Reply (dst : string) (data : list Z) (writes : bool)           (* [pumpReplies] reads one *)
| Idle (dst : string)                                            (* its socket fails or is silent *)
| Close.                                                         (* the control connection ends *)

Definition same (a b : UDPAddr) : bool := (Port a =? Port b) && Equal (IP a) (IP b).

(** [forward]; the socket of a flow may be gone when it is written to. *)
Definition forward (dst : string) (data header : list Z) (opens writes : bool) (s : relay) : relay :=
  let out (s : relay) :=
    if writes then mkRelay (client s) (flows s) (closed s) (came s) (sent s ++ [(dst, data)]) (heard s) (answered s) else s in
  match flows s !! dst with
  | Some _ => out s
  | None =>
      if opens then out (mkRelay (client s) (<[dst := header]> (flows s)) (closed s) (came s) (sent s) (heard s) (answered s))
      else s
  end.

Definition datagram (from : UDPAddr) (b : list Z) (opens writes : bool) (s : relay) : relay :=
  let b := take buffer b in
  let s := mkRelay (client s) (flows s) (closed s) (came s ++ [(from, b)]) (sent s) (heard s) (answered s) in
  let go (s : relay) :=
    match parseUDPDatagram b with
    | None => s
    | Some (host, port, data, hdr) => forward (Net.JoinHostPort host (Itoa port)) data hdr opens writes s
    end in
  match client s with
  | None => go (mkRelay (Some from) (flows s) (closed s) (came s) (sent s) (heard s) (answered s))
  | Some c => if same from c then go s else s
  end.

(** The end of a pump. *)
Definition done_ (dst : string) (s : relay) : relay :=
  mkRelay (client s) (delete dst (flows s)) (closed s) (came s) (sent s) (heard s) (answered s).

Definition reply_ (dst : string) (data : list Z) (writes : bool) (s : relay) : option relay :=
  header ← flows s !! dst;
  let data := take (buffer - length header) data in
  let s := mkRelay (client s) (flows s) (closed s) (came s) (sent s) (heard s ++ [(dst, data)]) (answered s) in
  match client s with
  | None => Some (done_ dst s)
  | Some c =>
      if writes && negb (closed s) then
        Some (mkRelay (client s) (flows s) (closed s) (came s) (sent s) (heard s) (answered s ++ [(c, header ++ data)]))
      else Some (done_ dst s)
  end.

Definition exec (e : event) (s : relay) : option relay :=
  match e with
  | Datagram from b opens writes => if closed s then None else Some (datagram from b opens writes s)
  | Reply dst data writes => reply_ dst data writes s
  | Idle dst => if bool_decide (is_Some (flows s !! dst)) then Some (done_ dst s) else None
  | Close => Some (mkRelay (client s) (flows s) true (came s) (sent s) (heard s) (answered s))
  end.

Definition run (es : list event) (s : relay) : option relay := foldl (λ s e, s ≫= exec e) (Some s) es.
Definition step (s s' : relay) : Prop := ∃ e, exec e s = Some s'.

(** *** Headers *)

Definition target (host : string) (port : Z) : string := Net.JoinHostPort host (Itoa port).

(** A header is one whatever comes after it. *)
Definition names (hdr : list Z) (host : string) (port : Z) : Prop :=
  ∀ data, parseUDPDatagram (hdr ++ data) = Some (host, port, data, hdr).

Lemma slice_take_app (b d : list Z) lo hi n : (hi ≤ n ≤ length b)%nat → slice (take n b ++ d) lo hi = slice b lo hi.
Proof.
  intros H. unfold slice. destruct (decide (lo ≤ hi)%nat); [|by replace (hi - lo)%nat with O by lia].
  rewrite drop_app_le by (rewrite length_take; lia). rewrite take_app_le by (rewrite length_drop, length_take; lia).
  rewrite skipn_firstn_comm, take_take. f_equal. lia.
Qed.

Lemma at_take_app (b d : list Z) i n : (i < n ≤ length b)%nat → at_ (take n b ++ d) i = at_ b i.
Proof. intros H. unfold at_. rewrite lookup_app_l by (rewrite length_take; lia). by rewrite lookup_take_lt by lia. Qed.

Lemma parse_splits b host port data hdr : parseUDPDatagram b = Some (host, port, data, hdr) → b = hdr ++ data ∧ names hdr host port.
Proof.
  unfold parseUDPDatagram. destruct (Nat.ltb_spec (length b) 4) as [|H4]; [done|]. destruct (at_ b 2 =? 0) eqn:E2; [|done]. cbn [orb negb].
  assert (∀ n, (n + 2 ≤ length b)%nat → (4 ≤ n)%nat → ∀ d, length (take (n + 2) b ++ d) = (n + 2 + length d)%nat ∧ at_ (take (n + 2) b ++ d) 2 = at_ b 2 ∧ at_ (take (n + 2) b ++ d) 3 = at_ b 3
    ∧ slice (take (n + 2) b ++ d) n (n + 2) = slice b n (n + 2) ∧ drop (n + 2) (take (n + 2) b ++ d) = d ∧ take (n + 2) (take (n + 2) b ++ d) = take (n + 2) b) as HT.
  { intros n Hn H4' d. assert (length (take (n + 2) b) = (n + 2)%nat) as HL by (rewrite length_take; lia).
    rewrite length_app, HL, !at_take_app, slice_take_app by lia. split_and!; try done; [by rewrite drop_app_length'|by rewrite take_app_length']. }
  assert (∀ n h, (n + 2 ≤ length b)%nat → (4 ≤ n)%nat → Some (h, get_be (slice b n (n + 2)), drop (n + 2) b, take (n + 2) b) = Some (host, port, data, hdr) →
    b = hdr ++ data ∧ h = host ∧ port = get_be (slice b n (n + 2)) ∧ hdr = take (n + 2) b) as HS.
  { intros n h Hn Hn' [= -> <- <- <-]. by rewrite take_drop. }
  destruct (at_ b 3 =? atypIPv4) eqn:E3; [|destruct (at_ b 3 =? atypIPv6) eqn:E4; [|destruct (at_ b 3 =? atypHost) eqn:E5; [|done]]].
  - destruct (Nat.ltb_spec (length b) (4 + 4 + 2)) as [|HL]; [done|]. intros (HB & <- & -> & ->)%HS; [|lia..]. split; [done|]. intros d.
    destruct (HT 8%nat ltac:(lia) ltac:(lia) d) as (T1 & T2 & T3 & T4 & T5 & T6). unfold parseUDPDatagram. rewrite T1, T2, T3, E2, E3, T4, T5, T6, slice_take_app by lia.
    change (8 + 2)%nat with 10%nat. by destruct d.
  - destruct (Nat.ltb_spec (length b) (4 + 16 + 2)) as [|HL]; [done|]. intros (HB & <- & -> & ->)%HS; [|lia..]. split; [done|]. intros d.
    destruct (HT 20%nat ltac:(lia) ltac:(lia) d) as (T1 & T2 & T3 & T4 & T5 & T6). unfold parseUDPDatagram. rewrite T1, T2, T3, E2, E3, E4, T4, T5, T6, slice_take_app by lia.
    by destruct d.
  - destruct (Nat.ltb_spec (length b) (4 + 1)) as [|HL]; [done|]. set (l := Z.to_nat (at_ b 4)). destruct (Nat.ltb_spec (length b) (5 + l + 2)) as [|HL']; [done|].
    intros (HB & <- & -> & ->)%HS; [|lia..]. split; [done|]. intros d. destruct (HT (5 + l)%nat ltac:(lia) ltac:(lia) d) as (T1 & T2 & T3 & T4 & T5 & T6).
    unfold parseUDPDatagram. rewrite T1, T2, T3, E2, E3, E4, E5. cbn [negb orb]. rewrite (at_take_app b d 4) by lia. fold l.
    rewrite T4, T5, T6, (slice_take_app b d 5) by lia.
    destruct (Nat.ltb_spec (5 + l + 2 + length d) 4); [lia|]. destruct (Nat.ltb_spec (5 + l + 2 + length d) (4 + 1)); [lia|]. by destruct (Nat.ltb_spec (5 + l + 2 + length d) (5 + l + 2)); [lia|].
Qed.

(** *** Whom a relay serves *)

Record sound (s : relay) : Prop := {
  r_first : client s = option_map fst (head (came s));
  r_flows : ∀ dst hdr, flows s !! dst = Some hdr → ∃ host port, names hdr host port ∧ dst = target host port;
  r_sent : ∀ dst data, (dst, data) ∈ sent s →
    ∃ c from host port hdr, client s = Some c ∧ same from c = true ∧ (from, hdr ++ data) ∈ came s ∧ names hdr host port ∧ dst = target host port;
  r_answered : ∀ to b, (to, b) ∈ answered s →
    client s = Some to ∧ ∃ host port data hdr, parseUDPDatagram b = Some (host, port, data, hdr) ∧ (target host port, data) ∈ heard s
}.

Lemma same_refl a : same a a = true.
Proof. unfold same, Equal. rewrite Z.eqb_refl. by apply bool_decide_eq_true. Qed.

Lemma sound_done dst s : sound s → sound (done_ dst s).
Proof. intros [H1 H2 H3 H4]. split; cbn; try done. intros d hdr [_ Hd]%lookup_delete_Some. by apply H2. Qed.

(** What is forwarded came from the client, addressed to where it goes. *)
Lemma sound_forward from hdr host port data opens writes s c :
  sound s → client s = Some c → same from c = true → (from, hdr ++ data) ∈ came s → names hdr host port →
  sound (forward (target host port) data hdr opens writes s).
Proof.
  intros H Hc Hs Hb Hn.
  assert (∀ s', sound s' → client s' = client s → came s' = came s →
    sound (if writes then mkRelay (client s') (flows s') (closed s') (came s') (sent s' ++ [(target host port, data)]) (heard s') (answered s') else s')) as HO.
  { intros s' [H1 H2 H3 H4] Ec Em. destruct writes; [|by split]. split; cbn; try done. intros d x [Hi|[= -> ->]%list_elem_of_singleton]%elem_of_app; [by apply H3|].
    exists c, from, host, port, hdr. by rewrite Ec, Em. }
  unfold forward. destruct (flows s !! _) eqn:Ef; [by apply HO|]. destruct opens; [|done]. apply HO; [|done..]. destruct H as [H1 H2 H3 H4]. split; cbn; try done.
  intros d h. rewrite lookup_insert_Some. intros [[<- <-]|[_ Hd]]; [by exists host, port|by apply H2].
Qed.

Lemma sound_datagram from b opens writes s : sound s → sound (datagram from b opens writes s).
Proof.
  intros [H1 H2 H3 H4]. unfold datagram. generalize (take buffer b) as b'. clear b. intros b'.
  assert (∀ cl, cl = option_map fst (head (came s ++ [(from, b')])) → (∀ c, client s = Some c → cl = Some c) →
    sound (mkRelay cl (flows s) (closed s) (came s ++ [(from, b')]) (sent s) (heard s) (answered s))) as HA.
  { intros cl Ecl Hcl. split; cbn; try done.
    - intros d x Hi. destruct (H3 _ _ Hi) as (c & f & h & p & hd & Hc & Hs & Hm & Hr). exists c, f, h, p, hd. rewrite (Hcl _ Hc). split_and!; try tauto. apply elem_of_app. by left.
    - intros to x Hi. destruct (H4 _ _ Hi) as [Hc Hr]. by rewrite (Hcl _ Hc). }
  assert (∀ s' c, sound s' → client s' = Some c → same from c = true → (from, b') ∈ came s' →
    sound match parseUDPDatagram b' with None => s' | Some (host, port, data, hdr) => forward (Net.JoinHostPort host (Itoa port)) data hdr opens writes s' end) as HG.
  { intros s' c Hs' Hc Hs Hm. destruct (parseUDPDatagram b') as [[[[host port] data] hdr]|] eqn:Ep; [|done]. apply parse_splits in Ep as [Eb Hn].
    eapply sound_forward; [done|exact Hc|exact Hs|by rewrite <- Eb|exact Hn]. }
  assert ((from, b') ∈ came s ++ [(from, b')]) as Hin by (apply elem_of_app; right; by left). cbn [client flows closed came sent heard answered].
  destruct (client s) as [c|] eqn:Ec.
  - assert (sound (mkRelay (Some c) (flows s) (closed s) (came s ++ [(from, b')]) (sent s) (heard s) (answered s))) as HS.
    { apply HA; [by destruct (came s)|]. by intros ? [= ->]. }
    destruct (same from c) eqn:Es; [|done]. by eapply HG.
  - assert (sound (mkRelay (Some from) (flows s) (closed s) (came s ++ [(from, b')]) (sent s) (heard s) (answered s))) as HS.
    { apply HA; [by destruct (came s)|done]. }
    eapply HG; [exact HS|done|apply same_refl|exact Hin].
Qed.

Lemma sound_reply dst data writes s s' : sound s → reply_ dst data writes s = Some s' → sound s'.
Proof.
  intros H. unfold reply_. destruct (flows s !! dst) as [header|] eqn:Ef; [|done]. cbn [mbind option_bind]. generalize (take (buffer - length header) data) as d. intros d.
  destruct H as [H1 H2 H3 H4]. assert (∀ an, (∀ to b, (to, b) ∈ an → client s = Some to ∧ ∃ host port data hdr, parseUDPDatagram b = Some (host, port, data, hdr) ∧ (target host port, data) ∈ heard s ++ [(dst, d)]) →
    sound (mkRelay (client s) (flows s) (closed s) (came s) (sent s) (heard s ++ [(dst, d)]) an)) as HA by (intros an Han; by split).
  assert (∀ to b, (to, b) ∈ answered s → client s = Some to ∧ ∃ host port data hdr, parseUDPDatagram b = Some (host, port, data, hdr) ∧ (target host port, data) ∈ heard s ++ [(dst, d)]) as HO.
  { intros to b Hi. destruct (H4 _ _ Hi) as (Hc & h & p & x & hd & Hp & Hh). split; [done|]. exists h, p, x, hd. split; [done|]. apply elem_of_app. by left. }
  destruct (client s) as [c|] eqn:Ec; cbn [client flows closed came sent heard answered].
  - destruct (writes && _); intros [= <-]; [|apply sound_done; by apply HA].
    apply HA. intros to b [Hi|[= -> ->]%list_elem_of_singleton]%elem_of_app; [by apply HO|]. split; [done|].
    destruct (H2 _ _ Ef) as (host & port & Hn & ->). exists host, port, d, header. split; [apply Hn|]. apply elem_of_app. right. by left.
  - intros [= <-]. apply sound_done. by apply HA.
Qed.

Lemma relay_steps_sound e s s' : sound s → exec e s = Some s' → sound s'.
Proof.
  intros H. destruct e as [from b opens writes|dst data writes|dst|]; cbn [exec].
  - destruct (closed s); [done|]. intros [= <-]. by apply sound_datagram.
  - by apply sound_reply.
  - destruct (bool_decide _); [|done]. intros [= <-]. by apply sound_done.
  - intros [= <-]. by destruct H.
Qed.

(** However datagrams, replies and the ends of flows interleave, a relay serves
    one client, the first that sent to it: what leaves is the data of datagrams
    of that client, each to the destination its header names, and what comes back
    goes to that client, under a header that names where it came from, so that
    the client reads off it exactly what was said. *)
Theorem relay_for_client s : rtc step fresh s →
  client s = option_map fst (head (came s)) ∧
  (∀ dst data, (dst, data) ∈ sent s →
    ∃ c from host port hdr, client s = Some c ∧ same from c = true ∧ (from, hdr ++ data) ∈ came s ∧
      parseUDPDatagram (hdr ++ data) = Some (host, port, data, hdr) ∧ dst = target host port) ∧
  (∀ to b, (to, b) ∈ answered s →
    client s = Some to ∧ ∃ host port data hdr, parseUDPDatagram b = Some (host, port, data, hdr) ∧ (target host port, data) ∈ heard s).
Proof.
  intros Hr. assert (sound s) as [H1 H2 H3 H4].
  { revert Hr. apply (rtc_ind_r (λ s, sound s)); [by split; cbn; try done; intros ?? ?%elem_of_nil|]. intros y z _ [e He] Hy. by eapply relay_steps_sound. }
  split_and!; [done| |done]. intros dst data Hi. destruct (H3 _ _ Hi) as (c & f & h & p & hdr & Hc & Hs & Hm & Hn & Hd). exists c, f, h, p, hdr. by split_and!.
Qed.

(** A question to a name server and its answer, a stranger, and the end. *)
Definition asked : list Z := [0; 0; 0; 1; 1; 1; 1; 1; 0; 53] ++ to_bytes "query".
Definition exchange : list event :=
  [Datagram (mkUDP [127; 0; 0; 1] 40000) asked true true; Reply "1.1.1.1:53" (to_bytes "answer") true;
   Datagram (mkUDP [127; 0; 0; 1] 40001) asked true true; Close; Idle "1.1.1.1:53"].

Lemma relay_for_client_witness : rtc step fresh (default fresh (run exchange fresh)) ∧
  sent (default fresh (run exchange fresh)) = [("1.1.1.1:53", to_bytes "query")] ∧
  answered (default fresh (run exchange fresh)) = [(mkUDP [127; 0; 0; 1] 40000, [0; 0; 0; 1; 1; 1; 1; 1; 0; 53] ++ to_bytes "answer")] ∧
  client (default fresh (run exchange fresh)) = Some (mkUDP [127; 0; 0; 1] 40000).
Proof.
  assert (rtc step fresh (default fresh (run exchange fresh))) as Hr.
  { apply (foldl_steps exec step exchange); [intros e x y He; by exists e|]. by vm_compute. }
  split; [exact Hr|]. split; [by vm_compute|]. split; [by vm_compute|].
  destruct (relay_for_client _ Hr) as (H & _). rewrite H. by vm_compute.
Defined.

End Associate.

Module Local.
Import RevWire.Wire Socks.

(** [Config]; the kind is what the file says. *)
Definition SOCKS5 : string := "socks5".
Definition HTTP : string := "http".
Record Config : Type := mkConfig { Enabled : bool; Type_ : string; Port : Z; Username : string; Password : string }.

(** [Load], from what decoding the file filled in, if there is one. *)
Definition Load (file : option Config) : Config :=
  let c := default (mkConfig false "" 0 "" "") file in
  if String.eqb (Type_ c) "" then mkConfig (Enabled c) SOCKS5 (Port c) (Username c) (Password c) else c.

(** [subtle.ConstantTimeCompare]. *)
Definition ConstantTimeCompare (x y : list Z) : Z := if bool_decide (x = y) then 1 else 0.

Definition authFunc (c : Config) : option AuthFunc :=
  if String.eqb (Username c) "" && String.eqb (Password c) "" then None
  else Some (λ u p,
    let user := ConstantTimeCompare (to_bytes u) (to_bytes (Username c)) in
    let pass := ConstantTimeCompare (to_bytes p) (to_bytes (Password c)) in
    Z.land user pass =? 1).

Definition Addr (c : Config) : string := "127.0.0.1:" +:+ Itoa (Port c).

(** [Run]: what is served, where and to whom. *)
Inductive service : Type := Nothing | Http (addr : string) (auth : option AuthFunc) | Socks5 (addr : string) (auth : option AuthFunc).

Definition Run (file : option Config) : service :=
  let c := Load file in
  if negb (Enabled c) || (Port c <=? 0) then Nothing
  else if String.eqb (Type_ c) HTTP then Http (Addr c) (authFunc c)
  else Socks5 (Addr c) (authFunc c).

(** *** The HTTP proxy *)

(** A request as net/http gives it, a header once at most, by its canonical
    name. *)
Record Request : Type := mkRequest { Method : string; Host : string; Header : gmap string string }.

Definition Get (h : gmap string string) (k : string) : string := default "" (h !! k).

(** [strings.SplitN] in two. *)
Definition SplitN2 (s sep : string) : list string := match Cut s sep with Some (a, b) => [a; b] | None => [s] end.

Definition authorized (auth : option AuthFunc) (r : Request) : bool :=
  match auth with
  | None => true
  | Some auth =>
      match SplitN2 (Get (Header r) "Proxy-Authorization") " " with
      | [kind; rest] =>
          if negb (EqualFold kind "Basic") then false else
          match GoB64.DecodeString GoB64.StdEncoding rest with
          | None => false
          | Some raw =>
              match SplitN2 (of_bytes raw) ":" with
              | [u; p] => auth u p
              | _ => false
              end
          end
      | _ => false
      end
  end.

(** What a client is answered: it must authenticate, it is joined to a host, the
    reply of the server it asked, or that nothing was reached. *)
Inductive answer (R : Type) : Type := Denied | Joined (host : string) | Forwarded (reply : R) | BadGateway.
Arguments Denied {R}.
Arguments Joined {R} host.
Arguments Forwarded {R} reply.
Arguments BadGateway {R}.

(** What is sent on of a request that is not to be joined, [handleHTTP]. *)
Definition stripped (r : Request) : Request :=
  mkRequest (Method r) (Host r) (delete "Proxy-Connection" (delete "Proxy-Authorization" (Header r))).

Section http.
(** The hosts that answer, and the servers. *)
Context {R : Type} (dial : string → bool) (RoundTrip : Request → option R).

Definition handleConnect (r : Request) : answer R := if dial (Host r) then Joined (Host r) else BadGateway.

Definition handleHTTP (r : Request) : answer R :=
  match RoundTrip (stripped r) with Some reply => Forwarded reply | None => BadGateway end.

Definition ServeHTTP (auth : option AuthFunc) (r : Request) : answer R :=
  if negb (authorized auth r) then Denied
  else if String.eqb (Method r) "CONNECT" then handleConnect r
  else handleHTTP r.
End http.

(** *** Who gets in *)

Lemma authFunc_exact c auth : authFunc c = Some auth → ∀ u p, auth u p = true ↔ u = Username c ∧ p = Password c.
Proof.
  unfold authFunc. destruct (_ && _); [done|]. intros [= <-] u p. unfold ConstantTimeCompare.
  destruct (bool_decide_reflect (to_bytes u = to_bytes (Username c))) as [Hu|Hu], (bool_decide_reflect (to_bytes p = to_bytes (Password c))) as [Hp|Hp]; cbn; split; try done.
  - intros _. by split; apply to_bytes_inj.
  - intros [_ ->]. done.
  - intros [-> _]. done.
  - intros [-> _]. done.
Qed.

Lemma authFunc_open c : authFunc c = None ↔ Username c = "" ∧ Password c = "".
Proof.
  unfold authFunc. destruct (String.eqb_spec (Username c) ""), (String.eqb_spec (Password c) ""); cbn; split; try done; tauto.
Qed.

(** The line a browser sends for a user and a password is taken as that pair. *)
Definition basic (user pass : string) : string := "Basic " +:+ GoB64.EncodeToString GoB64.StdEncoding (to_bytes (user +:+ ":" +:+ pass)).

Lemma authorized_basic auth m h hd user pass : free ":" user →
  Get hd "Proxy-Authorization" = basic user pass → authorized (Some auth) (mkRequest m h hd) = auth user pass.
Proof.
  intros Hf Hh. unfold authorized, SplitN2. cbn [Header]. rewrite Hh. unfold basic.
  change ("Basic " +:+ ?x) with ("Basic" +:+ String " " ("" +:+ x)). rewrite Cut_app by (by repeat constructor). change (negb (EqualFold "Basic" "Basic")) with false. cbn iota.
  cbn [append]. rewrite GoB64.DecodeString_EncodeToString by apply to_bytes_ok. rewrite of_to_bytes.
  change (user +:+ String ":" pass) with (user +:+ String ":" ("" +:+ pass)). by rewrite Cut_app.
Qed.

(** *** Both proxies at the door *)

Lemma says_ending {A} b (x : list Z * A) : (says b x).2 = x.2.
Proof. done. Qed.

(** A connection that is not closed was greeted and let in. *)
Lemma handle_in dial listen auth s : bytes_ok s → (handle dial listen (Some auth) s).2 ≠ Closed →
  ∃ methods user pass rest, s = greeting methods ++ credentials user pass ++ rest ∧ authUP ∈ methods ∧ auth user pass = true ∧
    (handle dial listen (Some auth) s).2 = (request dial listen rest).2.
Proof.
  intros Hs. unfold handle. destruct (ReadFull 2 s) as [[br s1]|] eqn:Eb; [|done]. destruct (Z.eqb_spec (at_ br 0) ver5) as [E5|]; [|done]. cbn [negb].
  destruct (ReadFull _ s1) as [[methods s2]|] eqn:Em; [|done]. destruct (hasMethod methods authUP) eqn:Eh; [|done]. cbn [negb]. rewrite !says_ending.
  apply ReadFull_Some in Eb as [-> Hb], Em as [-> Hm]. rewrite !bytes_ok_app in Hs. destruct Hs as (Hb' & Hm' & Hr).
  destruct (readAuth auth s2) as [rest|] eqn:Ea; [|done]. intros _. apply readAuth_Some in Ea as (user & pass & Hp & ->); [|done].
  exists methods, user, pass, rest. rewrite says_ending. split_and!; [|by apply hasMethod_In|done|done].
  destruct br as [|x [|y [|]]]; try done. rewrite at_0 in E5. rewrite at_1 in Hm. rewrite !bytes_ok_cons in Hb'. unfold byte_ok in *. subst x.
  unfold greeting, zlen. rewrite Hm, Z2Nat.id by lia. done.
Qed.

Lemma handle_asks dial listen auth methods d port rest : dst_ok d → 0 ≤ port < 2^16 →
  (match auth with Some _ => authUP | None => authNone end) ∈ methods →
  ∀ cred, match auth with None => cred = [] | Some a => ∃ u p, cred = credentials u p ∧ a u p = true end →
  (handle dial listen auth (greeting methods ++ cred ++ asks cmdConn d port ++ rest)).2 =
    if dial (target_of d port) then Piped (target_of d port) rest else Closed.
Proof.
  intros Hd Hp Hm cred Hc. unfold handle, greeting. cbn [app]. rewrite ReadFull_2, at_0, at_1. change (negb (ver5 =? ver5)) with false. cbn iota.
  unfold zlen. rewrite Nat2Z.id, ReadFull_app. apply hasMethod_In in Hm. destruct auth as [a|].
  - rewrite Hm. cbn [negb]. rewrite says_ending. destruct Hc as (u & p & -> & Ha). rewrite readAuth_credentials, Ha, says_ending, request_asks by done.
    change (cmdConn =? cmdConn) with true. cbn iota. by destruct (dial _).
  - rewrite Hm, Hc. cbn [negb app]. rewrite says_ending, request_asks by done. change (cmdConn =? cmdConn) with true. cbn iota. by destruct (dial _).
Qed.

Lemma authorized_in auth r : authorized (Some auth) r = true →
  ∃ kind enc raw u p, Get (Header r) "Proxy-Authorization" = kind +:+ " " +:+ enc ∧ EqualFold kind "Basic" = true ∧
    GoB64.DecodeString GoB64.StdEncoding enc = Some raw ∧ of_bytes raw = u +:+ ":" +:+ p ∧ auth u p = true.
Proof.
  unfold authorized, SplitN2. destruct (Cut _ " ") as [[kind enc]|] eqn:Ec; [|done]. destruct (EqualFold kind "Basic") eqn:Ek; [|done]. cbn [negb].
  destruct (GoB64.DecodeString _ enc) as [raw|] eqn:Ed; [|done]. destruct (Cut _ ":") as [[u p]|] eqn:Eu; [|done]. intros Ha.
  exists kind, enc, raw, u, p. split_and!; [by apply Cut_Some in Ec|done|done|by apply Cut_Some in Eu|done].
Qed.

(** C39: The built-in proxy with credentials set lets nobody else in, whichever
    protocol it speaks: a SOCKS5 connection gets past the door only by sending
    exactly the configured pair, and then only to a target that answers; an
    HTTP request is acted on only when its header decodes to that pair, and
    what is sent on does not carry it. Who does present what is asked, in any
    form of address and with any bytes sent ahead, is joined to exactly the
    target named, with those bytes, when it answers. *)
Theorem proxy_gate c (dial : string → bool) listen :
  (∀ auth s, authFunc c = Some auth → bytes_ok s → (handle dial listen (Some auth) s).2 ≠ Closed →
    (∃ methods rest, s = greeting methods ++ credentials (Username c) (Password c) ++ rest) ∧
    ∀ target rest, (handle dial listen (Some auth) s).2 = Piped target rest → dial target = true) ∧
  (∀ methods d port rest, dst_ok d → 0 ≤ port < 2^16 → (match authFunc c with Some _ => authUP | None => authNone end) ∈ methods →
    (handle dial listen (authFunc c) (greeting methods ++ (match authFunc c with Some _ => credentials (Username c) (Password c) | None => [] end) ++ asks cmdConn d port ++ rest)).2 =
      if dial (target_of d port) then Piped (target_of d port) rest else Closed) ∧
  (∀ auth R (RoundTrip : Request → option R) r, authFunc c = Some auth → ServeHTTP dial RoundTrip (Some auth) r ≠ Denied →
    ∃ kind enc raw, Get (Header r) "Proxy-Authorization" = kind +:+ " " +:+ enc ∧ EqualFold kind "Basic" = true ∧
      GoB64.DecodeString GoB64.StdEncoding enc = Some raw ∧ of_bytes raw = Username c +:+ ":" +:+ Password c) ∧
  (∀ auth R (RoundTrip : Request → option R) m h hd, authFunc c = Some auth → free ":" (Username c) → Get hd "Proxy-Authorization" = basic (Username c) (Password c) →
    ServeHTTP dial RoundTrip (Some auth) (mkRequest m h hd) =
      if String.eqb m "CONNECT" then if dial h then Joined h else BadGateway
      else match RoundTrip (stripped (mkRequest m h hd)) with Some reply => Forwarded reply | None => BadGateway end) ∧
  (∀ r, Header (stripped r) !! "Proxy-Authorization" = None).
Proof.
  split_and!.
  - intros auth s Ha Hs Hn. destruct (handle_in _ _ _ _ Hs Hn) as (methods & user & pass & rest & Es & _ & Hp & Er).
    apply (authFunc_exact _ _ Ha) in Hp as [-> ->]. split; [by exists methods, rest|]. intros t r. rewrite Er. apply request_piped.
  - intros methods d port rest Hd Hp Hm. apply handle_asks; try done. destruct (authFunc c) as [a|] eqn:Ea; [|done].
    exists (Username c), (Password c). split; [done|]. by apply (authFunc_exact _ _ Ea).
  - intros auth R RoundTrip r Ha. unfold ServeHTTP. destruct (authorized _ r) eqn:E; [|done]. intros _.
    apply authorized_in in E as (kind & enc & raw & u & p & Hg & Hk & Hd & Hr & Hp). apply (authFunc_exact _ _ Ha) in Hp as [-> ->]. by exists kind, enc, raw.
  - intros auth R RoundTrip m h hd Ha Hf Hg. unfold ServeHTTP. rewrite (authorized_basic _ _ _ _ (Username c) (Password c)) by done.
    assert (auth (Username c) (Password c) = true) as -> by (by apply (authFunc_exact _ _ Ha)). done.
  - intros r. cbn. by rewrite lookup_delete_ne, lookup_delete_eq by done.
Qed.

Lemma proxy_gate_witness :
  let c := mkConfig true SOCKS5 1080 "operator" "secret" in
  let dial := String.eqb "example.org:443" in
  (handle dial None (authFunc c) (greeting [0; 2] ++ credentials "operator" "secret" ++ asks cmdConn (Named "example.org") 443 ++ [22; 3; 1])).2 = Piped "example.org:443" [22; 3; 1] ∧
  (handle dial None (authFunc c) (greeting [0; 2] ++ credentials "operator" "other" ++ asks cmdConn (Named "example.org") 443)).2 = Closed ∧
  Run (Some c) = Socks5 "127.0.0.1:1080" (authFunc c).
Proof.
  cbv zeta. split_and!; [|by vm_compute|done].
  destruct (proxy_gate (mkConfig true SOCKS5 1080 "operator" "secret") (String.eqb "example.org:443") None) as (_ & H & _).
  refine (eq_trans (H [0; 2] (Named "example.org") 443 [22; 3; 1] _ _ _) _); [cbn; lia|lia|right; by left|by vm_compute].
Defined.

End Local.
