(* ===== verification/Metrics.v ===== *)
(** What a running tunnel reports of itself ([internal/metrics]) and what the
    panel makes of successive reports:
    - Module [Metrics]: the counters of a process, one snapshot of them, the
      collector that writes it ([metrics.go], [pool.go], [startMetrics] of
      [cmd/cmd.go]);
    - Module [Life]: processes, generations and writes one after another;
    - Module [Rates]: the speeds the panel draws ([rateTracker] of
      [webui/stats.go]).

    Times are nanoseconds. The counters are 64 bits wide and wrap. A quotient
    the code keeps in floating point is its two terms. The file is replaced
    whole. *)

From Stdlib Require Import Ascii String Sorted.
From stdpp Require Import gmap strings relations.
From S2P Require Import Prelude.
Open Scope string_scope.
Open Scope list_scope.
Open Scope Z_scope.

Module Metrics.

Record LocalServiceState : Type := mkService { Addr : string; Why : string; Failures : Z; Since : Z }.
Record PoolStats : Type := mkPool { Live : Z; Target : Z; Configured : Z; Mbps : Z }.
Record KCPStats : Type := mkKCP {
  PacketsIn : Z; PacketsOut : Z; Retransmitted : Z; Lost : Z; Duplicated : Z; FECRecovered : Z; FECErrors : Z }.

(** Less the process's own use of the machine and the uptime as text. *)
Record Snapshot : Type := mkSnapshot {
  Name : string;
  Transport : string;
  Role : string;
  Taken : Z;
  BytesIn : Z;
  BytesOut : Z;
  Peer : string;
  Connected : option bool;
  KCP : option KCPStats;
  Pool : option PoolStats;
  LocalService : option LocalServiceState
}.

(** The values of the process. *)
Record process : Type := mkProcess {
  peerAddr : option string;
  connected : option bool;
  localService : option LocalServiceState;
  bytesIn : Z;
  bytesOut : Z;
  pool : PoolStats
}.
#[export] Instance eta_process : Eta process := λ s, mkProcess (peerAddr s) (connected s) (localService s) (bytesIn s) (bytesOut s) (pool s).
#[export] Instance set_peerAddr : Field peerAddr. Proof. set_field. Defined.
#[export] Instance set_connected : Field connected. Proof. set_field. Defined.
#[export] Instance set_localService : Field localService. Proof. set_field. Defined.
#[export] Instance set_bytesIn : Field bytesIn. Proof. set_field. Defined.
#[export] Instance set_bytesOut : Field bytesOut. Proof. set_field. Defined.
#[export] Instance set_pool : Field pool. Proof. set_field. Defined.

Ltac fields :=
  unfold assign, set_peerAddr, set_connected, set_localService, set_bytesIn, set_bytesOut, set_pool in *;
  cbn [peerAddr connected localService bytesIn bytesOut pool] in *.

Definition started : process := mkProcess None None None 0 0 (mkPool 0 0 0 0).

Definition ReportPeer (addr : string) (g : process) : process := g <| peerAddr := Some addr |> <| connected := Some true |>.
Definition ClearPeer (g : process) : process := g <| peerAddr := None |> <| connected := Some false |>.
Definition currentPeer (g : process) : string := default "" (peerAddr g).

(** The round of [ReportLocalDialFailure] whose exchange succeeds. *)
Definition ReportLocalDialFailure (addr why : string) (now : Z) (g : process) : process :=
  let next :=
    match localService g with
    | Some old =>
        if String.eqb (Addr old) addr && String.eqb (Why old) why
        then mkService addr why (u64 (Failures old + 1)) (Since old)
        else mkService addr why 1 now
    | None => mkService addr why 1 now
    end in
  g <| localService := Some next |>.

Definition ReportLocalDialSuccess (g : process) : process :=
  match localService g with Some _ => g <| localService := None |> | None => g end.

Definition ReportPool (live target configured mbps : Z) (g : process) : process := g <| pool := mkPool live target configured mbps |>.
Definition ClearPool (g : process) : process := g <| pool := mkPool 0 0 0 0 |>.
Definition PoolState (g : process) : PoolStats := pool g.

Definition AddBytes (i o : Z) (g : process) : process :=
  let g := if 0 <? i then g <| bytesIn := u64 (bytesIn g + i) |> else g in
  if 0 <? o then g <| bytesOut := u64 (bytesOut g + o) |> else g.

(** [countedConn.Read] and [Write] of a connection that moved [n] bytes. *)
Definition Read_ (n : Z) (g : process) : process := if 0 <? n then g <| bytesIn := u64 (bytesIn g + n) |> else g.
Definition Write_ (n : Z) (g : process) : process := if 0 <? n then g <| bytesOut := u64 (bytesOut g + n) |> else g.

Definition Traffic (g : process) : Z * Z := (bytesIn g, bytesOut g).

(** [LossPercent]: a quotient, of which 0 is none. *)
Definition LossPercent (k : option KCPStats) : Z * Z :=
  match k with
  | None => (0, 1)
  | Some k => if PacketsOut k =? 0 then (0, 1) else (u64 (Retransmitted k + Lost k) * 100, PacketsOut k)
  end.

(** What a collector starts from. *)
Record Collector : Type := mkCollector { baseIn : Z; baseOut : Z; name : string; transport : string; role : string }.

(** [prev] is the file, if there is one that can be read. *)
Definition NewCollector (name transport role : string) (prev : option Snapshot) : Collector :=
  match prev with
  | Some s => mkCollector (BytesIn s) (BytesOut s) name transport role
  | None => mkCollector 0 0 name transport role
  end.

(** [own] is what an engine that counts for itself says, [snmp] what kcp-go
    counts. *)
Definition snapshot (c : Collector) (g : process) (own : option (Z * Z)) (snmp : KCPStats) (now : Z) : Snapshot :=
  let (liveIn, liveOut) := Traffic g in
  let p := PoolState g in
  mkSnapshot (name c) (transport c) (role c) now
    match own with Some (i, _) => i | None => u64 (baseIn c + liveIn) end
    match own with Some (_, o) => o | None => u64 (baseOut c + liveOut) end
    (currentPeer g) (connected g)
    (if String.eqb (transport c) "kcp" then Some snmp else None)
    (if 0 <? Configured p then Some p else None)
    (localService g).

(** [Write], with the file it replaces. *)
Definition Write (ok : bool) (s : Snapshot) (file : option Snapshot) : option Snapshot := if ok then Some s else file.

(** *** The last hop *)

(** A connection that was handed over or not, and when. *)
Inductive dial : Type := Failed (addr why : string) (now : Z) | Worked.

Definition dialled (d : dial) (g : process) : process :=
  match d with
  | Failed addr why now => ReportLocalDialFailure addr why now g
  | Worked => ReportLocalDialSuccess g
  end.

(** The failures a history ends with that are all of one kind, the last first. *)
Fixpoint run_of (addr why : string) (ds : list dial) : list Z :=
  match ds with
  | Failed a w now :: ds => if String.eqb a addr && String.eqb w why then now :: run_of addr why ds else []
  | _ => []
  end.

Definition all (ds : list dial) : process := fold_right dialled started ds.

Lemma last_shift {A} (l : list A) x d : List.last (x :: l) d = List.last l x.
Proof. revert x d. induction l as [|y l IH]; intros x d; [done|]. change (List.last (x :: y :: l) d) with (List.last (y :: l) d). by rewrite !IH. Qed.

(** What is said of the last hop, after any history (the last first): how often in
    a row it failed in the way it did last, and since when. *)
Lemma last_hop ds : Z.of_nat (length ds) < 2^64 →
  localService (all ds) =
    match ds with
    | Failed addr why now :: ds' =>
        Some (mkService addr why (Z.of_nat (S (length (run_of addr why ds')))) (List.last (run_of addr why ds') now))
    | _ => None
    end.
Proof.
  unfold all. induction ds as [|[addr why now|] ds IH]; cbn [fold_right dialled length]; intros HL; [done| |].
  - assert (Z.of_nat (length ds) < 2^64) as HL' by lia. specialize (IH HL'). unfold ReportLocalDialFailure. fields. rewrite IH. clear IH.
    destruct ds as [|[a w n|] ds]; cbn [run_of]; [done| |done]. cbn [Addr Why Failures Since].
    destruct (String.eqb_spec a addr) as [->|]; [destruct (String.eqb_spec w why) as [->|]|]; cbn [andb]; try done.
    assert (length (run_of addr why ds) ≤ length ds)%nat as HR.
    { clear. induction ds as [|[a w n|] ds IH]; cbn [run_of length]; [lia| |lia]. destruct (_ && _); cbn [length]; lia. }
    cbn [length] in *. rewrite u64_small by lia. do 2 f_equal; [lia|].
    symmetry. apply last_shift.
  - unfold ReportLocalDialSuccess. destruct (localService _) eqn:E; [done|exact E].
Qed.

End Metrics.

Module Life.
Import Metrics.

(** A tunnel from the point of view of its totals: the process that runs, with
    the collector of its generation and what its engine has counted for itself,
    the file, and all that was ever [carried]. *)
Record tunnel : Type := mkTunnel {
  proc : process;
  collector : option Collector;
  engine : option (Z * Z);
  file : option Snapshot;
  carried : Z * Z
}.
#[export] Instance eta_tunnel : Eta tunnel := λ s, mkTunnel (proc s) (collector s) (engine s) (file s) (carried s).
#[export] Instance set_proc : Field proc. Proof. set_field. Defined.
#[export] Instance set_collector : Field collector. Proof. set_field. Defined.
#[export] Instance set_engine : Field engine. Proof. set_field. Defined.
#[export] Instance set_file : Field file. Proof. set_field. Defined.
#[export] Instance set_carried : Field carried. Proof. set_field. Defined.

Ltac life :=
  unfold assign, set_proc, set_collector, set_engine, set_file, set_carried in *;
  cbn [proc collector engine file carried] in *.

Definition never_ran : tunnel := mkTunnel started None None None (0, 0).

(** Whether the engine of this tunnel counts for itself, as that of layer 3 does,
    what it is recorded under, and what kcp-go says. *)
Section life.
Context (counts : bool) (name transport role : string) (snmp : KCPStats).

(** One write of the collector of the generation. *)
Definition write (now : Z) (ok : bool) (t : tunnel) : tunnel :=
  match collector t with
  | Some c => t <| file := Write ok (snapshot c (proc t) (engine t) snmp now) (file t) |>
  | None => t
  end.

(** [startMetrics], in a generation whose engine is new. *)
Definition generation (now : Z) (ok : bool) (t : tunnel) : tunnel :=
  write now ok (t <| collector := Some (NewCollector name transport role (file t)) |> <| engine := (if counts then Some (0, 0) else None) |>).

Inductive event : Type :=
| Start (now : Z) (ok : bool)        (* the process starts *)
| Carry (i o : Z)                    (* bytes pass *)
| Tick (now : Z) (ok : bool)
| Stop (now : Z) (ok : bool)         (* it ends, writing once more *)
| Reload (now : Z) (ok ok' : bool).  (* its file was edited: another generation *)

Definition exec (e : event) (t : tunnel) : tunnel :=
  match e with
  | Start now ok => generation now ok (t <| proc := started |>)
  | Carry i o =>
      let t := t <| carried := ((carried t).1 + i, (carried t).2 + o) |> in
      match engine t with
      | Some (a, b) => t <| engine := Some (u64 (a + i), u64 (b + o)) |>
      | None => t <| proc := AddBytes i o (proc t) |>
      end
  | Tick now ok => write now ok t
  | Stop now ok => (write now ok t) <| proc := started |> <| collector := None |> <| engine := None |>
  | Reload now ok ok' => generation now ok' (write now ok t)
  end.

Definition run (es : list event) : tunnel := foldl (flip exec) never_ran es.

(** A life without an edit, whose last write always succeeds: processes that start
    and stop, and carry no negative amounts. *)
Definition orderly (running : bool) (e : event) : Prop :=
  match e with
  | Start _ ok => running = false
  | Carry i o => running = true ∧ 0 ≤ i ∧ 0 ≤ o
  | Tick _ _ => running = true
  | Stop _ ok => running = true ∧ ok = true
  | Reload _ _ _ => False
  end.

Definition runs (running : bool) (e : event) : bool := match e with Start _ _ => true | Stop _ _ => false | _ => running end.

Fixpoint orderly_all (running : bool) (es : list event) : Prop :=
  match es with [] => True | e :: es => orderly running e ∧ orderly_all (runs running e) es end.

(** The totals a snapshot taken now would have. *)
Definition total (t : tunnel) : option (Z * Z) :=
  c ← collector t; let s := snapshot c (proc t) (engine t) snmp 0 in Some (BytesIn s, BytesOut s).

Definition kept (f : option Snapshot) : Z * Z := match f with Some s => (BytesIn s, BytesOut s) | None => (0, 0) end.

End life.

Lemma u64_add a b : u64 (a + u64 b) = u64 (a + b).
Proof. unfold u64. by rewrite Z.add_mod_idemp_r by lia. Qed.

Lemma bytesIn_added i o g : 0 ≤ i → 0 ≤ bytesIn g < 2^64 → bytesIn (AddBytes i o g) = u64 (bytesIn g + i).
Proof.
  intros Hi Hg. unfold AddBytes. fields. destruct (Z.ltb_spec 0 i), (Z.ltb_spec 0 o); fields; try done; (replace i with 0 by lia; by rewrite Z.add_0_r, u64_small).
Qed.

Lemma bytesOut_added i o g : 0 ≤ o → 0 ≤ bytesOut g < 2^64 → bytesOut (AddBytes i o g) = u64 (bytesOut g + o).
Proof.
  intros Ho Hg. unfold AddBytes. fields. destruct (Z.ltb_spec 0 i), (Z.ltb_spec 0 o); fields; try done; (replace o with 0 by lia; by rewrite Z.add_0_r, u64_small).
Qed.

(** What the totals stand for while a process runs, and between two. *)
Definition sound (running : bool) (t : tunnel) : Prop :=
  engine t = None ∧
  if running then
    ∃ c, collector t = Some c ∧ 0 ≤ bytesIn (proc t) < 2^64 ∧ 0 ≤ bytesOut (proc t) < 2^64 ∧
      u64 (baseIn c + bytesIn (proc t)) = u64 (carried t).1 ∧ u64 (baseOut c + bytesOut (proc t)) = u64 (carried t).2
  else collector t = None ∧ kept (file t) = (u64 (carried t).1, u64 (carried t).2).

Lemma write_same snmp now ok t : proc (write snmp now ok t) = proc t ∧ collector (write snmp now ok t) = collector t ∧
  engine (write snmp now ok t) = engine t ∧ carried (write snmp now ok t) = carried t.
Proof. unfold write. destruct (collector t) eqn:E; life; by rewrite ?E. Qed.

(** A write records what a snapshot shows. *)
Lemma write_kept snmp now t c : collector t = Some c → engine t = None →
  kept (file (write snmp now true t)) = (u64 (baseIn c + bytesIn (proc t)), u64 (baseOut c + bytesOut (proc t))).
Proof. intros Hc He. unfold write. rewrite Hc. life. by rewrite He. Qed.

Lemma exec_sound_totals name transport role snmp running e t : sound running t → orderly running e → sound (runs running e) (exec false name transport role snmp e t).
Proof.
  intros [He H] Ho. destruct e as [now ok|i o|now ok|now ok|now ok ok']; cbn [orderly runs exec] in *; [subst running|destruct Ho as (-> & Hi & Ho)|subst running|destruct Ho as [-> ->]|done].
  - destruct H as [Hc Hk]. unfold generation. match goal with |- sound _ (write _ _ _ ?x) => destruct (write_same snmp now ok x) as (W1 & W2 & W3 & W4) end. unfold sound. rewrite W1, W2, W3, W4.
    life. split; [done|]. eexists. split; [reflexivity|]. cbn [bytesIn bytesOut started]. split; [lia|]. split; [lia|]. rewrite !Z.add_0_r.
    unfold kept, NewCollector in *. destruct (file t) as [s|]; injection Hk as H1 H2; cbn [baseIn baseOut].
    + rewrite H1, H2. unfold u64. by rewrite !Z.mod_mod by lia.
    + by rewrite <- H1, <- H2.
  - destruct H as (c & Hc & Hb & Hb' & H1 & H2). unfold sound. life. rewrite He. life. split; [done|]. exists c. rewrite bytesIn_added, bytesOut_added, !u64_add by done.
    split; [done|]. split; [apply u64_range|]. split; [apply u64_range|]. cbn [fst snd]. rewrite !Z.add_assoc.
    rewrite (Z.add_comm _ i), <- u64_add, H1, u64_add, Z.add_comm. split; [done|]. by rewrite (Z.add_comm _ o), <- u64_add, H2, u64_add, Z.add_comm.
  - unfold sound. destruct (write_same snmp now ok t) as (-> & -> & -> & ->). by split.
  - destruct H as (c & Hc & Hb & Hb' & H1 & H2). unfold sound. life. destruct (write_same snmp now true t) as (_ & _ & _ & ->). split; [done|]. split; [done|]. by rewrite (write_kept _ _ _ c), H1, H2.
Qed.

(** Through any number of processes that start, carry, write now and then, and
    stop, of which none is edited in place: what a process shows at any moment, and
    what is on disk between two, is all that was ever carried, in the width of the
    counters. *)
Theorem totals_kept name transport role snmp es (t := run false name transport role snmp es) : orderly_all false es →
  let running := foldl runs false es in
  (running = true → total snmp t = Some (u64 (carried t).1, u64 (carried t).2)) ∧
  (running = false → kept (file t) = (u64 (carried t).1, u64 (carried t).2)).
Proof.
  intros Ho. cbv zeta. assert (∀ es running t, sound running t → orderly_all running es → sound (foldl runs running es) (foldl (flip (exec false name transport role snmp)) t es)) as HS.
  { clear. intros es. induction es as [|e es IH]; intros running t Hs Ho; [done|]. destruct Ho as [He Ho]. cbn [foldl flip]. apply IH; [|done]. by apply exec_sound_totals. }
  assert (sound (foldl runs false es) t) as [He H] by (by apply HS).
  split; intros E; rewrite E in H.
  - destruct H as (c & Hc & _ & _ & H1 & H2). unfold total. rewrite Hc. cbn -[u64 Z.add]. rewrite He. cbn -[u64 Z.add]. by rewrite H1, H2.
  - by destruct H.
Qed.

Definition none : KCPStats := mkKCP 0 0 0 0 0 0 0.

Lemma totals_kept_witness :
  let es := [Start 0 true; Carry 100 40; Tick 30 false; Carry 1 1; Stop 60 true; Start 70 false; Carry 5 5] in
  orderly_all false es ∧ total none (run false "iran" "tcp" "server" none es) = Some (106, 46).
Proof.
  cbv zeta. assert (orderly_all false [Start 0 true; Carry 100 40; Tick 30 false; Carry 1 1; Stop 60 true; Start 70 false; Carry 5 5]) as H by (cbn; repeat split; lia).
  split; [exact H|]. destruct (totals_kept "iran" "tcp" "server" none _ H) as [H1 _]. rewrite H1; by vm_compute.
Defined.

(** An edit is taken up in the same process, by a generation with a collector of
    its own: it starts from the file, in which what this process carried is already,
    and adds what the process counts, which goes on: everything carried so far is
    counted again. *)
Theorem reload_counts_twice name transport role snmp n m : 0 ≤ n < 2^62 → 0 ≤ m < 2^62 →
  let t := run false name transport role snmp [Start 0 true; Carry n m; Reload 1 true true] in
  carried t = (n, m) ∧ total snmp t = Some (2 * n, 2 * m) ∧ kept (file t) = (2 * n, 2 * m).
Proof.
  intros Hn Hm. cbv zeta. assert (∀ k, 0 ≤ k < 2^62 → (if 0 <? k then u64 k else 0) = k) as HK.
  { intros k Hk. destruct (Z.ltb_spec 0 k); [apply u64_small; lia|lia]. }
  assert (proc (run false name transport role snmp [Start 0 true; Carry n m]) = AddBytes n m started) as Hp by done.
  assert (bytesIn (AddBytes n m started) = n ∧ bytesOut (AddBytes n m started) = m) as [Ei Eo].
  { rewrite bytesIn_added, bytesOut_added by (cbn; lia). cbn [bytesIn bytesOut started]. by rewrite !Z.add_0_l, !u64_small by lia. }
  unfold run. cbn [foldl flip exec]. unfold generation, write. cbn -[AddBytes u64 Z.add Z.mul]. rewrite Ei, Eo.
  rewrite !Z.add_0_l, (u64_small n), (u64_small m), !u64_small by lia. split_and!; [done| |]; cbn -[Z.mul]; repeat f_equal; lia.
Qed.

Lemma reload_counts_twice_witness : total none (run false "iran" "tcp" "server" none [Start 0 true; Carry 1000 10; Reload 1 true true]) = Some (2000, 20).
Proof. exact (proj1 (proj2 (reload_counts_twice "iran" "tcp" "server" none 1000 10 ltac:(lia) ltac:(lia)))). Defined.

(** The totals of an engine that counts for itself are those of its generation:
    with the next process they start from nothing, on disk as well. *)
Theorem own_totals_lost name transport role snmp n m :
  let t := run true name transport role snmp [Start 0 true; Carry n m; Stop 1 true; Start 2 true] in
  carried t = (n, m) ∧ total snmp t = Some (0, 0) ∧ kept (file t) = (0, 0).
Proof. cbv zeta. split_and!; [|done|done]. unfold run. by cbn. Qed.

End Life.

Module Rates.
Import Metrics.

Definition rateKeep : nat := 48.

(** A point: when, and what passed each way in how long. *)
Record RatePoint : Type := mkRate { T : Z; In : Z; Out : Z; over : Z }.

Record rateTracker : Type := mkTracker { last : gmap string Snapshot; hist : gmap string (list RatePoint) }.

Definition empty : rateTracker := mkTracker ∅ ∅.

Definition history (r : rateTracker) (name : string) : list RatePoint := default [] (hist r !! name).

(** [time.Time.Unix] of nanoseconds. *)
Definition Unix (t : Z) : Z := t `div` 10^9.

Definition keep (h : list RatePoint) : list RatePoint := if (rateKeep <? length h)%nat then drop (length h - rateKeep) h else h.

Definition sample (name : string) (snap : Snapshot) (r : rateTracker) : rateTracker * list RatePoint :=
  let r :=
    match last r !! name with
    | Some prev =>
        if Taken snap =? Taken prev then r else
        let secs := Taken snap - Taken prev in
        let hist :=
          if (0 <? secs) && (BytesIn prev <=? BytesIn snap) && (BytesOut prev <=? BytesOut snap) then
            <[name := keep (history r name ++ [mkRate (Unix (Taken snap)) (BytesIn snap - BytesIn prev) (BytesOut snap - BytesOut prev) secs])]> (hist r)
          else hist r in
        mkTracker (<[name := snap]> (last r)) hist
    | None => mkTracker (<[name := snap]> (last r)) (hist r)
    end in
  (r, history r name).

Definition samples (ps : list (string * Snapshot)) (r : rateTracker) : rateTracker :=
  foldl (λ r p, (sample p.1 p.2 r).1) r ps.

(** The snapshots of one tunnel in a sequence of polls. *)
Definition of_tunnel (name : string) (ps : list (string * Snapshot)) : list Snapshot :=
  map snd (filter (λ p, p.1 = name) ps).

(** The points of successive snapshots, a poll that sees the one before again
    aside. *)
Fixpoint points (prev : Snapshot) (ss : list Snapshot) : list RatePoint :=
  match ss with
  | [] => []
  | s :: ss =>
      if Taken s =? Taken prev then points prev ss else
      let secs := Taken s - Taken prev in
      (if (0 <? secs) && (BytesIn prev <=? BytesIn s) && (BytesOut prev <=? BytesOut s)
       then [mkRate (Unix (Taken s)) (BytesIn s - BytesIn prev) (BytesOut s - BytesOut prev) secs] else []) ++ points s ss
  end.

Definition drawn (ss : list Snapshot) : list RatePoint := match ss with [] => [] | s :: ss => points s ss end.

(** The last of a list. *)
Definition latest {A} (n : nat) (l : list A) : list A := drop (length l - n) l.

Lemma keep_latest h : keep h = latest rateKeep h.
Proof. unfold keep, latest. destruct (Nat.ltb_spec rateKeep (length h)); [done|]. by replace (length h - rateKeep)%nat with O by lia. Qed.

Lemma latest_snoc {A} n (l : list A) x : (0 < n)%nat → latest n (latest n l ++ [x]) = latest n (l ++ [x]).
Proof.
  intros Hn. unfold latest. rewrite !length_app, length_drop. cbn [length].
  destruct (decide (length l ≤ n)%nat).
  - replace (length l - n)%nat with O by lia. rewrite drop_0. f_equal. lia.
  - rewrite <- (drop_app_le l [x] (length l - n)) by lia. rewrite drop_drop. f_equal. lia.
Qed.

Lemma latest_short {A} n (l : list A) : (length l ≤ n)%nat → latest n l = l.
Proof. intros H. unfold latest. by replace (length l - n)%nat with O by lia. Qed.

Lemma length_latest {A} n (l : list A) : (length (latest n l) ≤ n)%nat.
Proof. unfold latest. rewrite length_drop. lia. Qed.

Lemma latest_app {A} n (l k : list A) : (0 < n)%nat → latest n (latest n l ++ k) = latest n (l ++ k).
Proof.
  intros Hn. revert l. induction k as [|x k IH]; intros l; [rewrite !app_nil_r; by apply latest_short, length_latest|].
  change (x :: k) with ([x] ++ k). rewrite !app_assoc, <- (IH (latest n l ++ [x])), latest_snoc by done. apply IH.
Qed.

(** A poll of one tunnel leaves the others. *)
Lemma sample_other name name' s r : name ≠ name' →
  last (sample name s r).1 !! name' = last r !! name' ∧ history (sample name s r).1 name' = history r name'.
Proof.
  intros Hn. unfold sample, history. cbn [fst]. destruct (last r !! name) as [prev|]; [destruct (_ =? _); [done|]|]; cbn [last hist].
  - destruct (_ && _); by rewrite ?lookup_insert_ne.
  - by rewrite lookup_insert_ne.
Qed.

(** One poll, with the points of those to come. *)
Lemma sample_points name s r prev ss : last r !! name = Some prev →
  ∃ prev', last (sample name s r).1 !! name = Some prev' ∧
    latest rateKeep (history (sample name s r).1 name ++ points prev' ss) = latest rateKeep (history r name ++ points prev (s :: ss)).
Proof.
  intros Hp. unfold sample. rewrite Hp. cbn [fst points]. destruct (_ =? _) eqn:E; [by exists prev|]. exists s. cbn [last]. split; [by rewrite lookup_insert_eq|].
  destruct (_ && _); unfold history; cbn [hist]; rewrite ?lookup_insert_eq; cbn [default from_option id]; [|done].
  fold (history r name). by rewrite keep_latest, latest_app, <- app_assoc by (unfold rateKeep; lia).
Qed.

Lemma sample_short name s r : (length (history r name) ≤ rateKeep)%nat → (length (history (sample name s r).1 name) ≤ rateKeep)%nat.
Proof.
  intros H. unfold sample, history in *. cbn [fst]. destruct (last r !! name) as [prev|]; [destruct (_ =? _); [done|]|]; cbn [hist]; [|done].
  destruct (_ && _); [|done]. rewrite lookup_insert_eq. cbn [default from_option id]. rewrite keep_latest. apply length_latest.
Qed.

Lemma samples_from name ps r prev : last r !! name = Some prev → (length (history r name) ≤ rateKeep)%nat →
  history (samples ps r) name = latest rateKeep (history r name ++ points prev (of_tunnel name ps)) ∧ (length (history (samples ps r) name) ≤ rateKeep)%nat.
Proof.
  unfold samples, of_tunnel. revert r prev. induction ps as [|[n s] ps IH]; intros r prev Hp Hh; [cbn; by rewrite app_nil_r, latest_short|].
  cbn [foldl fst snd]. rewrite filter_cons. cbn [fst]. destruct (decide (n = name)) as [->|Hn]; cbn [map snd].
  - destruct (sample_points name s r prev (map snd (filter (λ p, p.1 = name) ps)) Hp) as (prev' & Hp' & <-). apply IH; [done|by apply sample_short].
  - destruct (sample_other n name s r Hn) as [El Eh]. rewrite <- El in Hp. rewrite <- Eh in Hh |- *. by apply IH.
Qed.

(** What is drawn for a tunnel, however many pages poll and in whatever order they
    see the tunnels, is the last points of its own snapshots: a snapshot seen twice
    makes no point, nor does one whose counters went back. *)
Theorem rates_drawn name ps :
  history (samples ps empty) name = latest rateKeep (drawn (of_tunnel name ps)) ∧
  (length (history (samples ps empty) name) ≤ rateKeep)%nat.
Proof.
  assert (∀ r, last r !! name = None → history r name = [] →
    history (samples ps r) name = latest rateKeep (drawn (of_tunnel name ps)) ∧ (length (history (samples ps r) name) ≤ rateKeep)%nat) as H; [|by apply H].
  induction ps as [|[n s] ps IH]; intros r Hl Hh; [unfold samples; cbn [foldl]; rewrite Hh; split; [done|cbn; lia]|].
  unfold of_tunnel. rewrite filter_cons. cbn [fst]. change (samples ((n, s) :: ps) r) with (samples ps (sample n s r).1). destruct (decide (n = name)) as [->|Hn]; cbn [map snd drawn].
  - assert (last (sample name s r).1 !! name = Some s ∧ history (sample name s r).1 name = []) as [El Eh].
    { unfold sample, history in *. rewrite Hl. cbn [fst last hist]. by rewrite lookup_insert_eq. }
    destruct (samples_from name ps _ s El) as [H1 H2]; [rewrite Eh; cbn; lia|]. rewrite Eh in H1. exact (conj H1 H2).
  - destruct (sample_other n name s r Hn) as [El Eh]. apply IH; congruence.
Qed.

(** The points of a tunnel whose counters do not go back, each over the time it
    took, make up all that passed in between. *)
Lemma points_sum prev ss : StronglySorted (λ a b, Taken a < Taken b ∧ BytesIn a ≤ BytesIn b ∧ BytesOut a ≤ BytesOut b) (prev :: ss) →
  foldr (λ p n, In p + n) 0 (points prev ss) = BytesIn (List.last ss prev) - BytesIn prev ∧
  foldr (λ p n, over p + n) 0 (points prev ss) = Taken (List.last ss prev) - Taken prev.
Proof.
  revert prev. induction ss as [|s ss IH]; intros prev HS; [cbn; lia|]. apply StronglySorted_inv in HS as [HS HF]. apply Forall_cons in HF as [(Ht & Hi & Ho) _].
  cbn [points]. destruct (Z.eqb_spec (Taken s) (Taken prev)); [lia|]. zbool. cbn [andb app foldr In over]. destruct (IH s HS) as [-> ->].
  assert (List.last (s :: ss) prev = List.last ss s) as -> by (apply last_shift). lia.
Qed.

End Rates.
