(* ===== verification/Health.v ===== *)
(** Whether a tunnel is up, and what its card in the panel shows:
    - Module [Sockets]: the socket table, as [ss] prints it
      ([internal/manage/watchdog.go], [internal/webui/stats.go]);
    - Module [Verdict]: the judgement of the watchdog and that of the screens
      ([watchdog.go], [directhealth.go], [health.go]);
    - Module [Far]: what the server at the other end says of the last hop, asked
      for in the background ([internal/webui/farservice.go]);
    - Module [Identity]: the addresses of this machine and where they are
      ([stats.go], [internal/geo/geo.go]);
    - Module [Card]: the card ([gatherTunnels] and [fillNetwork] of [stats.go]).

    What systemd, [ss], the probes and the providers of locations answer are
    arguments. Times are nanoseconds; a time that was never set is [None]. *)

From Stdlib Require Import Ascii String.
From stdpp Require Import gmap strings relations.
From S2P Require Import Prelude GoStr GoNet Ports Settings RevFile Fleet Metrics.
Import GoStr.
Open Scope string_scope.
Open Scope list_scope.
Open Scope Z_scope.

Definition Second : Z := 10^9.

Module Sockets.

Definition newline : ascii := "010".

(** The local and the remote address of a line: its last two columns. *)
Definition columns (line : string) : option (string * string) :=
  match rev (Fields line) with
  | peer :: here :: _ => Some (here, peer)
  | _ => None
  end.

Definition establishedPairs (out : option string) : list (string * string) :=
  match out with None => [] | Some o => omap columns (Split o newline) end.

(** [hasRealPeer]: a remote end, not the wildcard of a listener. *)
Definition hasRealPeer (peer : string) : bool :=
  match Net.SplitHostPort peer with
  | None => false
  | Some (host, port) => negb (Kinds.one_of port ["*"; "0"]) && negb (Kinds.one_of host ["*"; ""; "0.0.0.0"; "::"; "[::]"])
  end.

Definition establishedUDPPairs (out : option string) : list (string * string) :=
  filter (λ p, hasRealPeer p.2 = true) (establishedPairs out).

Definition portOf (hostPort : string) : string := match Net.SplitHostPort hostPort with Some (_, p) => p | None => "" end.

Definition splitHostPort (addr : string) : string * string := match Net.SplitHostPort addr with Some hp => hp | None => (addr, "") end.

(** Something connected to this port. *)
Definition reached (port : string) (pairs : list (string * string)) : bool := existsb (λ p, String.eqb (portOf p.1) port) pairs.

(** This connection is one to that host and port; a host that is an address has to
    be the peer's. *)
Definition leads_to (host port : string) (p : string * string) : bool :=
  match Net.SplitHostPort p.2 with
  | None => false
  | Some (peerHost, peerPort) =>
      String.eqb peerPort port &&
      match GoNet.ParseIP host with
      | None => true
      | Some want => match GoNet.ParseIP peerHost with Some got => bool_decide (got = want) | None => false end
      end
  end.

(** *** The peers of the listening tunnels *)

Record peerConn : Type := mkPeer { IP : string; RTT : Z }.

(** The number that starts a text, a numerator and a power of ten, as digits before and after the point; other
    characters end it, and a second point makes it none. *)
Definition finish (whole : option Z) (frac : option (Z * Z)) : option (Z * Z) :=
  match whole, frac with
  | None, None | None, Some (_, 1) => None
  | w, None => Some (default 0 w, 1)
  | w, Some (n, scale) => Some (default 0 w * scale + n, scale)
  end.

Fixpoint number (s : string) (whole : option Z) (frac : option (Z * Z)) : option (Z * Z) :=
  match s with
  | "" => finish whole frac
  | String c r =>
      match digit_value c with
      | Some d =>
          match frac with
          | None => number r (Some (10 * default 0 whole + d)) None
          | Some (n, scale) => number r whole (Some (10 * n + d, 10 * scale))
          end
      | None =>
          if Ascii.eqb c "." then match frac with None => number r whole (Some (0, 1)) | Some _ => None end
          else finish whole frac
      end
  end.

(** [parseRTT]: the round trip in whole milliseconds, a half rounded up. *)
Definition parseRTT (line : string) : Z :=
  match Cut line "rtt:" with
  | None => -1
  | Some (_, rest) => match number rest None None with Some (n, scale) => (2 * n + scale) `div` (2 * scale) | None => -1 end
  end.

(** [parsePeers]: what was found so far, by port, and the connection whose
    information may follow. *)
Record reading : Type := mkReading { byPort : gmap string (list peerConn); cur : option (string * peerConn) }.

Definition flush (r : reading) : reading :=
  match cur r with
  | None => r
  | Some (port, c) =>
      let l := default [] (byPort r !! port) in
      mkReading (if existsb (λ d, String.eqb (IP d) (IP c)) l then byPort r else <[port := l ++ [c]]> (byPort r)) None
  end.

Definition read_line (want : list string) (r : reading) (line : string) : reading :=
  match line with
  | "" => r
  | String c _ =>
      if Ascii.eqb c " " || Ascii.eqb c "009" then
        match cur r with
        | Some (port, p) => mkReading (byPort r) (Some (port, mkPeer (IP p) (parseRTT line)))
        | None => r
        end
      else
        let r := flush r in
        match columns line with
        | None => r
        | Some (here, peer) =>
            let (_, lp) := splitHostPort here in
            if negb (Kinds.one_of lp want) then r else
            let (ph, _) := splitHostPort peer in
            if Kinds.one_of ph [""; "127.0.0.1"; "::1"] then r else mkReading (byPort r) (Some (lp, mkPeer ph (-1)))
        end
  end.

Definition parsePeers (out : string) (want : list string) : gmap string (list peerConn) :=
  byPort (flush (foldl (read_line want) (mkReading ∅ None) (Split out newline))).

(** *** What is found *)

Record found (want : list string) (m : gmap string (list peerConn)) : Prop := {
  f_wanted : ∀ port l, m !! port = Some l → port ∈ want;
  f_once : ∀ port l, m !! port = Some l → NoDup (map IP l);
  f_real : ∀ port l, m !! port = Some l → Forall (λ c, IP c ∉ [""; "127.0.0.1"; "::1"]) l
}.

Definition pending_ok (want : list string) (c : option (string * peerConn)) : Prop :=
  match c with Some (port, p) => port ∈ want ∧ IP p ∉ [""; "127.0.0.1"; "::1"] | None => True end.

Lemma flush_found want r : found want (byPort r) → pending_ok want (cur r) → found want (byPort (flush r)).
Proof.
  intros [H1 H2 H3] HP. unfold flush. destruct (cur r) as [[port c]|]; [|by split]. destruct HP as [Hw Hr]. cbn [byPort].
  destruct (existsb _ _) eqn:E; [by split|]. assert (∀ l, default [] (byPort r !! port) = l → NoDup (map IP l) ∧ Forall (λ c, IP c ∉ [""; "127.0.0.1"; "::1"]) l) as HL.
  { intros l <-. destruct (byPort r !! port) as [l|] eqn:El; cbn [default from_option id]; [by split; [eapply H2|eapply H3]|]. split; constructor. }
  destruct (HL _ eq_refl) as [L1 L2]. split; intros q l; rewrite lookup_insert_Some; intros [[<- <-]|[Hq Hl]]; eauto.
  - rewrite map_app. apply NoDup_app. split; [done|]. split; [|apply NoDup_singleton]. intros x Hx ->%list_elem_of_singleton.
    apply not_true_iff_false in E. apply E, existsb_exists. change @map with (λ A B, @fmap list _ A B) in Hx. apply list_elem_of_fmap in Hx as (d & Ed & Hd).
    exists d. split; [by apply list_elem_of_In|]. by apply String.eqb_eq.
  - apply Forall_app. split; [done|]. by repeat constructor.
Qed.

Lemma line_found want r line : found want (byPort r) → pending_ok want (cur r) →
  found want (byPort (read_line want r line)) ∧ pending_ok want (cur (read_line want r line)).
Proof.
  intros H HP. unfold read_line. destruct line as [|c line]; [done|]. destruct (_ || _).
  - destruct (cur r) as [[port p]|] eqn:E; [|by rewrite E]. by split.
  - pose proof (flush_found _ _ H HP) as HF. assert (cur (flush r) = None) as HN by (unfold flush; by destruct (cur r) as [[??]|] eqn:E).
    destruct (columns _) as [[here peer]|]; [|by rewrite HN]. destruct (splitHostPort here) as [hh lp]. destruct (Kinds.one_of lp want) eqn:Ew; cbn [negb]; [|by rewrite HN].
    destruct (splitHostPort peer) as [ph pp]. destruct (Kinds.one_of ph _) eqn:Er; [by rewrite HN|]. split; [done|]. cbn. split; [by apply Kinds.one_of_elem|].
    intros Hi. apply Kinds.one_of_elem in Hi. congruence.
Qed.

(** Each wanted port has the machines connected to it, each once, and neither this
    machine nor nobody. *)
Theorem peers_found out want : found want (parsePeers out want).
Proof.
  unfold parsePeers. assert (∀ lines r, found want (byPort r) → pending_ok want (cur r) →
    found want (byPort (foldl (read_line want) r lines)) ∧ pending_ok want (cur (foldl (read_line want) r lines))) as HG.
  { intros lines. induction lines as [|l lines IH]; intros r H HP; [done|]. destruct (line_found want r l H HP). by apply IH. }
  destruct (HG (Split out newline) (mkReading ∅ None)) as [H HP]; [|done|by apply flush_found].
  split; intros port l; cbn; by rewrite lookup_empty.
Qed.

Example reading_ss :
  let nl := String newline "" in
  map_to_list (parsePeers ("0      0      10.0.0.1:443   5.6.7.8:55001" +:+ nl +:+ "	 cubic rtt:42.6/1.2 ato:40" +:+ nl +:+
    "0      0      10.0.0.1:443   5.6.7.8:55002" +:+ nl +:+ "	 cubic rtt:99/1" +:+ nl +:+ "0 0 10.0.0.1:22 1.1.1.1:9" +:+ nl +:+ "0 0 10.0.0.1:443 127.0.0.1:9" +:+ nl) ["443"]) =
    [("443", [mkPeer "5.6.7.8" 43])] ∧
  map parseRTT ["rtt:0.5/0"; "rtt:.4"; "rtt:/"; "no"; "rtt:1.2.3"] = [1; 0; -1; -1; -1].
Proof. by vm_compute. Qed.

End Sockets.

Module Verdict.
Import RevFile.Spec Sockets.

(** What a check looks at: the snapshots, which tunnels are installed and whose
    service is active, the two socket tables, and the clock. *)
Record machine : Type := mkMachine {
  snapshots : gmap string Metrics.Snapshot;
  installed : string → bool;
  IsActive : string → bool;
  tcp : list (string * string);
  udp : list (string * string);
  now : Z
}.

Definition IsDirectKind (t : Tunnel) : bool := HasPrefix (tTransport t) "direct/" || HasPrefix (tTransport t) "l3/".
Definition DialsOut (t : Tunnel) : bool := String.eqb (tRole t) "client" || String.eqb (tRole t) "iran".
Definition TunnelDirection (t : Tunnel) : string := if IsDirectKind t then "direct" else "reverse".
Definition TunnelCarrier (t : Tunnel) : string := match Cut (tTransport t) "/" with Some (_, rest) => rest | None => tTransport t end.

Definition datagramPeerWindow : Z := 90 * Second.

(** A snapshot that still means something. *)
Definition fresh (m : machine) (name : string) : option Metrics.Snapshot :=
  s ← snapshots m !! name; if datagramPeerWindow <? now m - Metrics.Taken s then None else Some s.

(** Whether it is so, if that is known. *)
Definition datagramPeer (m : machine) (name : string) : option bool :=
  s ← fresh m name; Some (negb (String.eqb (Metrics.Peer s) "")).

Definition engineSaysConnected (m : machine) (name : string) : option bool := s ← fresh m name; Metrics.Connected s.

Definition serviceDown (m : machine) (name : string) : option Metrics.LocalServiceState := s ← fresh m name; Metrics.LocalService s.

(** [directHealthy]: healthy, and whether that is known. *)
Definition directHealthy (m : machine) (t : Tunnel) : bool * bool :=
  if HasPrefix (tTransport t) "l3/" then match datagramPeer m (tName t) with Some b => (b, true) | None => (false, false) end
  else if negb (HasPrefix (tTransport t) "direct/") then (false, false)
  else match Net.SplitHostPort (tAddr t) with
       | None => (true, false)
       | Some (host, port) =>
           if String.eqb (tRole t) "kharej" then (reached port (tcp m), true)
           else (existsb (leads_to host port) (tcp m), true)
       end.

(** [tunnelHealthy], the question of the watchdog. *)
Definition tunnelHealthy (m : machine) (t : Tunnel) : bool :=
  if IsDirectKind t then let (healthy, known) := directHealthy m t in healthy || negb known
  else match engineSaysConnected m (tName t) with
  | Some connected => connected
  | None =>
      if Kinds.IsDatagram (tTransport t) && String.eqb (tRole t) "server" then true else
      let pairs := if Kinds.IsDatagram (tTransport t) then udp m else tcp m in
      match Net.SplitHostPort (tAddr t) with
      | None => true
      | Some (host, port) =>
          if String.eqb (tRole t) "server" then reached port pairs else existsb (leads_to host port) pairs
      end
  end.

Definition directStateDetail (t : Tunnel) (connected known : bool) : string :=
  if negb known then "running, but it has not reported its state yet"
  else if connected then "peer connected"
  else if String.eqb (tRole t) "kharej" then "running, but the Iran server has not connected yet"
  else "running, but not connected to the kharej server".

Record Health : Type := mkHealth {
  Installed : bool; Active : bool; Connected : bool; State : string; Detail : string; ServiceDown : option Metrics.LocalServiceState }.

Section health.
(** A time as the hour and minute of this machine. *)
Context (clock : Z → string).

Definition serviceDownDetail (d : Metrics.LocalServiceState) : string :=
  let what :=
    if String.eqb (Metrics.Why d) "refused" then "is not listening"
    else if String.eqb (Metrics.Why d) "timeout" then "is not answering — a firewall on that machine, or a wedged service"
    else "is not answering" in
  "the tunnel is up, but " +:+ Metrics.Addr d +:+ " on the far server " +:+ what +:+ ": " +:+ Itoa (Metrics.Failures d) +:+
    " connection(s) refused since " +:+ clock (Metrics.Since d).

(** [tunnelHealthWith], the question of the screens. *)
Definition tunnelHealthWith (m : machine) (t : Tunnel) : Health :=
  let i := installed m (tName t) in
  let a := IsActive m (tName t) in
  if negb i then mkHealth i a false "stopped" "no systemd unit — the tunnel is not installed" None
  else if negb a then mkHealth i a false "stopped" "service is not running" None
  else
    let c := tunnelHealthy m t in
    let c := if Kinds.IsDatagram (tTransport t) then match datagramPeer m (tName t) with Some b => b | None => c end else c in
    if IsDirectKind t then
      let (connected, known) := directHealthy m t in
      let c := connected && known in
      mkHealth i a c (if c then "online" else if negb known then "unknown" else "offline") (directStateDetail t connected known) None
    else if c then
      match serviceDown m (tName t) with
      | Some d => mkHealth i a c "online" (serviceDownDetail d) (Some d)
      | None => mkHealth i a c "online" "peer connected" None
      end
    else mkHealth i a c "offline"
           (if String.eqb (tRole t) "server" then "running, but no client is connected yet" else "running, but not connected to the server") None.

Definition AllHealth (m : machine) (ts : list Tunnel) : gmap string Health :=
  foldl (λ out t, <[tName t := tunnelHealthWith m t]> out) ∅ ts.

(** *** The two questions *)

(** What an engine of this version writes: it names a peer only while it says it
    holds one. *)
Definition agrees (s : Metrics.Snapshot) : Prop := Metrics.Peer s ≠ "" → Metrics.Connected s = Some true.

Lemma datagram_not_direct t : IsDirectKind t = true → HasPrefix (tTransport t) "l3/" = false → Kinds.IsDatagram (tTransport t) = false.
Proof.
  unfold IsDirectKind, Kinds.IsDatagram. destruct (HasPrefix _ "l3/"); [done|]. rewrite orb_false_r. by intros ->.
Qed.

Lemma directHealthy_unknown m t : IsDirectKind t = true → (directHealthy m t).2 = true →
  (HasPrefix (tTransport t) "l3/" = true ∧ datagramPeer m (tName t) = Some (directHealthy m t).1) ∨
  (HasPrefix (tTransport t) "l3/" = false ∧ is_Some (Net.SplitHostPort (tAddr t))).
Proof.
  intros Hd. unfold directHealthy, IsDirectKind in *. destruct (HasPrefix _ "l3/"); [destruct (datagramPeer _ _); [by left|done]|].
  rewrite orb_false_r in Hd. rewrite Hd. cbn [negb]. destruct (Net.SplitHostPort _) as [[h p]|]; [|done]. intros _. by right.
Qed.

(** A report of the engine that is not older than a minute and a half. *)
Definition report (m : machine) (t : Tunnel) (s : Metrics.Snapshot) : Prop :=
  snapshots m !! tName t = Some s ∧ now m - Metrics.Taken s ≤ 90 * Second.

(** The end of a tunnel that waits to be connected to. *)
Definition listens (t : Tunnel) : bool := String.eqb (tRole t) (if IsDirectKind t then "kharej" else "server").

(** A connection of the kernel's that is this tunnel's: to its port, at the end that
    listens; from the other, to the port of the address it dials, and, if that is
    an address and no name, to that very address. *)
Definition own_connection (t : Tunnel) (p : string * string) : Prop :=
  ∃ host port, Net.SplitHostPort (tAddr t) = Some (host, port) ∧
    if listens t then portOf p.1 = port
    else ∃ peer, Net.SplitHostPort p.2 = Some (peer, port) ∧ ∀ ip, GoNet.ParseIP host = Some ip → GoNet.ParseIP peer = Some ip.

(** No report says whether it is connected. *)
Definition silent (m : machine) (t : Tunnel) : Prop := ∀ s, report m t s → Metrics.Connected s = None.

(** The table of the kernel's that its carrier is in. *)
Definition table (m : machine) (t : Tunnel) : list (string * string) := if Kinds.IsDatagram (tTransport t) then udp m else tcp m.

(** What can show that a tunnel is up: the engine; the kernel, where the engine is
    not asked or does not say; and, for a reverse tunnel whose engine does not say
    and of which the kernel cannot, nothing at all. *)
Definition evidence (m : machine) (t : Tunnel) : Prop :=
  (∃ s, report m t s ∧ (Metrics.Peer s ≠ "" ∨ Metrics.Connected s = Some true)) ∨
  ((HasPrefix (tTransport t) "direct/" = true ∨ IsDirectKind t = false ∧ silent m t) ∧ ∃ p, p ∈ table m t ∧ own_connection t p) ∨
  (IsDirectKind t = false ∧ silent m t ∧
    (Net.SplitHostPort (tAddr t) = None ∨ Kinds.IsDatagram (tTransport t) = true ∧ tRole t = "server")).

Lemma fresh_report m t s : fresh m (tName t) = Some s ↔ report m t s.
Proof.
  unfold fresh, report. destruct (snapshots m !! tName t) as [s'|]; cbn [mbind option_bind]; [|by split; [|intros [? _]]].
  unfold datagramPeerWindow. destruct (Z.ltb_spec (90 * Second) (now m - Metrics.Taken s')); split; try done.
  - intros [[= ->] ?]. lia.
  - intros [= ->]. by split.
  - by intros [? _].
Qed.

Lemma engine_report m t : engineSaysConnected m (tName t) = None ↔ ∀ s, report m t s → Metrics.Connected s = None.
Proof.
  unfold engineSaysConnected. split.
  - intros H s Hs%fresh_report. by rewrite Hs in H.
  - intros H. destruct (fresh m (tName t)) as [s|] eqn:E; [|done]. cbn. by apply H, fresh_report.
Qed.

Lemma peer_reported m t : datagramPeer m (tName t) = Some true → evidence m t.
Proof.
  unfold datagramPeer. destruct (fresh m (tName t)) as [s|] eqn:E; [|done]. cbn. intros [= H%negb_true_iff%String.eqb_neq].
  left. exists s. split; [by apply fresh_report|by left].
Qed.

Lemma connected_reported m t : engineSaysConnected m (tName t) = Some true → evidence m t.
Proof.
  unfold engineSaysConnected. destruct (fresh m (tName t)) as [s|] eqn:E; [|done]. cbn. intros H.
  left. exists s. split; [by apply fresh_report|by right].
Qed.

Lemma reached_elem port pairs : reached port pairs = true → ∃ p, p ∈ pairs ∧ portOf p.1 = port.
Proof. intros (p & Hp & E)%existsb_exists. exists p. split; [by apply list_elem_of_In|by apply String.eqb_eq]. Qed.

Lemma leads_elem host port pairs : existsb (leads_to host port) pairs = true → ∃ p peer, p ∈ pairs ∧
  Net.SplitHostPort p.2 = Some (peer, port) ∧ ∀ ip, GoNet.ParseIP host = Some ip → GoNet.ParseIP peer = Some ip.
Proof.
  intros (p & Hp & E)%existsb_exists. unfold leads_to in E. destruct (Net.SplitHostPort p.2) as [[peer q]|] eqn:Es; [|done].
  apply andb_prop in E as [->%String.eqb_eq E]. exists p, peer. split; [by apply list_elem_of_In|]. split; [done|]. intros ip Hip. rewrite Hip in E.
  destruct (GoNet.ParseIP peer); [|done]. by apply bool_decide_eq_true in E as ->.
Qed.

Lemma seen_in_table m t host port : HasPrefix (tTransport t) "direct/" = true ∨ IsDirectKind t = false ∧ silent m t →
  Net.SplitHostPort (tAddr t) = Some (host, port) →
  (if listens t then reached port (table m t) else existsb (leads_to host port) (table m t)) = true → evidence m t.
Proof.
  intros Hi Ha H. right. left. split; [done|]. destruct (listens t) eqn:El.
  - apply reached_elem in H as (p & Hp & E). exists p. split; [done|]. exists host, port. by rewrite El.
  - apply leads_elem in H as (p & peer & Hp & E). exists p. split; [done|]. exists host, port. rewrite El. split; [done|]. by exists peer.
Qed.

Lemma reverse_seen m t : IsDirectKind t = false → tunnelHealthy m t = true → evidence m t.
Proof.
  intros Hd. unfold tunnelHealthy. rewrite Hd. destruct (engineSaysConnected m (tName t)) as [c|] eqn:Ee; [intros ->; by apply connected_reported|].
  pose proof (proj1 (engine_report m t) Ee) as Hq.
  destruct (Kinds.IsDatagram _ && _) eqn:Ek; [apply andb_true_iff in Ek as [Ek Er%String.eqb_eq]; intros _; do 2 right; by (split_and!; [| |right])|].
  destruct (Net.SplitHostPort _) as [[host port]|] eqn:Ea; [|intros _; do 2 right; by (split_and!; [| |left])].
  intros H. apply (seen_in_table m t host port); [by right|done|]. unfold listens. rewrite Hd. exact H.
Qed.

Lemma direct_seen m t : IsDirectKind t = true → directHealthy m t = (true, true) → evidence m t.
Proof.
  intros Hd. unfold directHealthy. destruct (HasPrefix (tTransport t) "l3/") eqn:El.
  - destruct (datagramPeer _ _) as [b|] eqn:E; [|done]. intros [= ->]. by apply peer_reported.
  - destruct (HasPrefix (tTransport t) "direct/") eqn:Ep; [|done]. destruct (Net.SplitHostPort _) as [[host port]|] eqn:Ea; [|done].
    intros H. apply (seen_in_table m t host port); [by left|done|]. unfold listens, table. rewrite Hd, (datagram_not_direct t Hd El).
    by destruct (String.eqb (tRole t) "kharej"); injection H as H.
Qed.

(** When nothing is known of a direct tunnel. *)
Definition unreported (m : machine) (t : Tunnel) : Prop :=
  if HasPrefix (tTransport t) "l3/" then ¬ ∃ s, report m t s
  else HasPrefix (tTransport t) "direct/" = true ∧ Net.SplitHostPort (tAddr t) = None.

Lemma unknown_unreported m t : IsDirectKind t = true → (directHealthy m t).2 = false ↔ unreported m t.
Proof.
  intros Hd. unfold directHealthy, unreported. unfold IsDirectKind in Hd. destruct (HasPrefix _ "l3/") eqn:El.
  - unfold datagramPeer. destruct (fresh m (tName t)) as [s|] eqn:E; cbn.
    + split; [done|]. intros []. exists s. by apply fresh_report.
    + split; [|done]. intros _ [s Hs%fresh_report]. congruence.
  - rewrite orb_false_r in Hd. rewrite Hd. cbn [negb]. destruct (Net.SplitHostPort _) as [[h p]|]; [|by split].
    split; [by destruct (String.eqb _ _)|by intros [_ ?]].
Qed.

(** A peer that is named is one the engine says it holds. *)
Lemma peer_connected m name : (∀ s, snapshots m !! name = Some s → agrees s) → datagramPeer m name = Some true → engineSaysConnected m name = Some true.
Proof.
  intros Hs. unfold datagramPeer, engineSaysConnected, fresh. destruct (snapshots m !! name) as [s|] eqn:E; [|done]. cbn [mbind option_bind]. destruct (_ <? _); [done|].
  cbn [mbind option_bind]. destruct (String.eqb_spec (Metrics.Peer s) ""); [done|]. intros _. by apply (Hs s).
Qed.

(** The cases of a state that is one of the four. *)
Ltac each_claim :=
  split; [by repeat constructor|split; [|split; [|split]]];
  first [done|by intros (? & ? & ? & ?)|by intros _ [?|?]|idtac].

(** C40: The light of a tunnel is on only when something says so that is of now: the
    engine, in a report of the last ninety seconds; or, where no such report says
    whether it is connected or the engine is not asked, a connection in the kernel's
    table of its carrier, to its port, at the end that listens, or to the address it
    dials; or, for a reverse tunnel of which no such report speaks, where the kernel
    has no answer: the listening end of a datagram carrier and an address that has
    no port. The watchdog, which asks for
    other reasons, does not call a tunnel down that is shown online, and one that is
    not online is one it may restart, or one of which nothing is known: a layer-3
    tunnel without such a report, or a direct one whose address cannot be read. *)
Theorem light_is_true m t (h := tunnelHealthWith m t) :
  (∀ s, snapshots m !! tName t = Some s → agrees s) →
  (State h ∈ ["stopped"; "offline"; "unknown"; "online"]) ∧
  (State h = "online" → installed m (tName t) = true ∧ IsActive m (tName t) = true ∧ tunnelHealthy m t = true ∧ evidence m t) ∧
  (State h = "offline" → IsDirectKind t = true ∨ Kinds.IsDatagram (tTransport t) = false → tunnelHealthy m t = false) ∧
  (State h = "unknown" ↔ installed m (tName t) = true ∧ IsActive m (tName t) = true ∧ IsDirectKind t = true ∧ unreported m t).
Proof.
  intros Hs. unfold h, tunnelHealthWith. destruct (installed m (tName t)), (IsActive m (tName t)); cbn [negb State].
  2-4: by each_claim.
  destruct (IsDirectKind t) eqn:Ed.
  - assert (tunnelHealthy m t = (directHealthy m t).1 || negb (directHealthy m t).2) as ET by (unfold tunnelHealthy; rewrite Ed; by destruct (directHealthy m t)).
    rewrite ET, <- (unknown_unreported m t Ed). pose proof (direct_seen m t Ed) as HD.
    destruct (directHealthy m t) as [[] []]; cbn [andb negb orb fst snd State]; each_claim; try done; try (by intros [_ [_ [_ ?]]]).
    intros _. split_and!; try done. by apply HD.
  - set (c := if Kinds.IsDatagram (tTransport t) then _ else _).
    assert (c = true → tunnelHealthy m t = true ∧ evidence m t) as HC.
    { unfold c. destruct (Kinds.IsDatagram _) eqn:Ek; [|intros H; split; [done|by apply reverse_seen]].
      destruct (datagramPeer m (tName t)) as [[]|] eqn:Ep; [|done|intros H; split; [done|by apply reverse_seen]].
      intros _. split; [|by apply peer_reported]. apply (peer_connected _ _ Hs) in Ep. unfold tunnelHealthy. by rewrite Ed, Ep. }
    destruct c eqn:Ec.
    + destruct (HC eq_refl) as [H1 H2]. by destruct (serviceDown m (tName t)); cbn [State]; each_claim.
    + cbn [State]. each_claim; try done. intros _ [?|Ek]; [done|]. unfold c in Ec. by rewrite Ek in Ec.
Qed.

End health.

(** A tunnel inside ping whose engine names a peer, on a machine whose socket table
    shows nothing. *)
Definition seen_by_engine : machine :=
  mkMachine {["x" := Metrics.mkSnapshot "x" "xdi" "client" 0 1 1 "203.0.113.5" (Some true) None None None]} (λ _, true) (λ _, true) [] [] (60 * Second).

Lemma light_is_true_witness :
  let t := mkTunnel "x" "client" "xdi" "203.0.113.5:443" [] in
  State (tunnelHealthWith (λ _, "") seen_by_engine t) = "online" ∧ tunnelHealthy seen_by_engine t = true ∧ evidence seen_by_engine t.
Proof.
  cbv zeta. destruct (light_is_true (λ _, "") seen_by_engine (mkTunnel "x" "client" "xdi" "203.0.113.5:443" [])) as (_ & H & _).
  { intros s Hs. unfold seen_by_engine in Hs. cbn [snapshots tName] in Hs. rewrite lookup_singleton_eq in Hs. injection Hs as <-. done. }
  split; [by vm_compute|]. destruct H as (_ & _ & H1 & H2); [by vm_compute|by split].
Defined.

(** Ninety-one seconds later the same report is of no use. *)
Example old_report_dark :
  let m := mkMachine (snapshots seen_by_engine) (λ _, true) (λ _, true) [] [] (91 * Second) in
  let light transport := State (tunnelHealthWith (λ _, "") m (mkTunnel "x" "client" transport "203.0.113.5:443" [])) in
  map light ["xdi"; "tcp"; "l3/udp"] = ["offline"; "offline"; "unknown"].
Proof. by vm_compute. Qed.

End Verdict.

Module Far.

Definition farServiceTTL : Z := 60 * Second.

(** [farServiceEntry]. *)
Record entry : Type := mkEntry { byTunnel : gmap string string; when_ : option Z; inFlight : bool }.

(** The cache, the calls under way, and a history: what was [asked] when, and what
    was [answered] when. *)
Record cache : Type := mkCache {
  seen : gmap string entry;
  calls : gmap string nat;
  asked : list (string * Z);
  answered : list (string * Z)
}.

Definition empty : cache := mkCache ∅ ∅ [] [].

Definition underway (c : cache) (server : string) : nat := default O (calls c !! server).

Definition stale (e : option entry) (now : Z) : bool :=
  match e with
  | None => true
  | Some e => match when_ e with None => true | Some t => farServiceTTL <? now - t end
  end.

(** [lookup] of a panel that has a fleet. *)
Definition lookup_ (server tunnel : string) (now : Z) (c : cache) : cache * string :=
  if String.eqb server "" then (c, "") else
  let e := seen c !! server in
  let known := default (mkEntry ∅ None false) e in
  let c' :=
    if stale e now && negb (inFlight known) then
      mkCache (<[server := mkEntry (byTunnel known) (when_ known) true]> (seen c)) (<[server := S (underway c server)]> (calls c)) (asked c ++ [(server, now)]) (answered c)
    else c in
  (c', default "" (byTunnel known !! tunnel)).

(** What an answer says, tunnel by tunnel. *)
Definition sentences (states : list Protocol.TunnelState) : gmap string string :=
  foldl (λ m st, let s := TrimSpace (Protocol.ServiceDown st) in if String.eqb s "" then m else <[Protocol.Name st := s]> m) ∅ states.

(** The end of [refresh]; a server that did not answer said nothing. *)
Definition refreshed (server : string) (answer : option (list Protocol.TunnelState)) (now : Z) (c : cache) : option cache :=
  match underway c server with
  | O => None
  | S n =>
      Some (mkCache (<[server := mkEntry (match answer with Some l => sentences l | None => ∅ end) (Some now) false]> (seen c)) (<[server := n]> (calls c)) (asked c) (answered c ++ [(server, now)]))
  end.

Definition forget (server : string) (c : cache) : cache := mkCache (delete server (seen c)) (calls c) (asked c) (answered c).

Inductive event : Type :=
| Look (server tunnel : string) (now : Z)
| Answer (server : string) (answer : option (list Protocol.TunnelState)) (now : Z)
| Forget (server : string).

Definition exec (e : event) (c : cache) : option cache :=
  match e with
  | Look server tunnel now => Some (lookup_ server tunnel now c).1
  | Answer server answer now => refreshed server answer now c
  | Forget server => Some (forget server c)
  end.

Definition step (keeps : bool) (c c' : cache) : Prop := ∃ e, exec e c = Some c' ∧ (keeps = true → match e with Forget _ => False | _ => True end).

(** The time of the last of a history that is of a server. *)
Definition last_of (server : string) (l : list (string * Z)) : option Z := List.last (map (λ p, Some p.2) (filter (λ p, p.1 = server) l)) None.

Lemma last_of_snoc server l p : last_of server (l ++ [p]) = if decide (p.1 = server) then Some p.2 else last_of server l.
Proof.
  unfold last_of. rewrite filter_app, map_app, filter_cons, filter_nil. destruct (decide _); cbn [map]; [apply List.last_last|by rewrite app_nil_r].
Qed.

Lemma last_of_elem server l t : last_of server l = Some t → (server, t) ∈ l.
Proof.
  induction l as [|[n u] l IH] using rev_ind; [done|]. rewrite last_of_snoc. cbn [fst snd]. intros H. apply elem_of_app.
  destruct (decide (n = server)) as [->|]; [injection H as ->; right; by left|left; by apply IH].
Qed.

(** While no server leaves the fleet: a call is under way exactly where the cache
    says so, and what is not under way was answered when the cache says. *)
Record polite (c : cache) : Prop := {
  p_one : ∀ server, underway c server = match seen c !! server with Some e => if inFlight e then 1%nat else O | None => O end;
  p_when : ∀ server e, seen c !! server = Some e → inFlight e = false → is_Some (when_ e) ∧ when_ e = last_of server (answered c);
  p_known : ∀ server, is_Some (last_of server (asked c)) → is_Some (seen c !! server);
  p_spaced : ∀ pre server t post, asked c = pre ++ (server, t) :: post → is_Some (last_of server pre) → ∃ a, (server, a) ∈ answered c ∧ farServiceTTL < t - a
}.

Lemma polite_empty : polite empty.
Proof.
  split; [done| | |]; cbn.
  - by intros server e H%lookup_empty_Some.
  - by intros server [t Ht].
  - intros pre server t post H. by destruct pre.
Qed.

Lemma polite_look server tunnel now c : polite c → polite (lookup_ server tunnel now c).1.
Proof.
  intros H. unfold lookup_. destruct (String.eqb server ""); [done|]. destruct (stale _ _ && _) eqn:E; [|done]. apply andb_true_iff in E as [Es Ef%negb_true_iff]. cbn [fst].
  destruct H as [H1 H2 H3 H4]. assert (underway c server = O) as HU.
  { rewrite H1. destruct (seen c !! server) as [e|]; [cbn in Ef; by rewrite Ef|done]. }
  split; cbn [seen calls asked answered].
  - intros q. unfold underway in HU |- *. cbn [calls]. destruct (decide (q = server)) as [->|Hq]; [rewrite !lookup_insert_eq; cbn [default from_option id inFlight]; by rewrite HU|]. rewrite !lookup_insert_ne by done. apply H1.
  - intros q e. rewrite lookup_insert_Some. intros [[<- <-]|[Hq Hl]]; [done|by apply H2].
  - intros q. rewrite last_of_snoc. cbn [fst snd]. destruct (decide (server = q)) as [->|Hq]; [by rewrite lookup_insert_eq|]. rewrite lookup_insert_ne by done. apply H3.
  - intros pre q t post Ha Hu. destruct post as [|x post _] using rev_ind.
    + apply app_inj_tail in Ha as [Ea [= <- <-]]. subst pre. destruct (H3 _ Hu) as [e Ee]. rewrite Ee in *. cbn in Ef. destruct (H2 _ _ Ee Ef) as [[a Ha] Hw]. exists a. split.
      * apply last_of_elem. congruence.
      * unfold stale in Es. rewrite Ha in Es. by apply Z.ltb_lt in Es.
    + change ((q, t) :: post ++ [x]) with (((q, t) :: post) ++ [x]) in Ha. rewrite app_assoc in Ha. apply app_inj_tail in Ha as [Ha _]. by eapply H4.
Qed.

Lemma polite_answer server answer now c c' : polite c → refreshed server answer now c = Some c' → polite c'.
Proof.
  intros [H1 H2 H3 H4]. unfold refreshed. destruct (underway c server) as [|n] eqn:EU; [done|]. intros [= <-].
  assert (n = O) as -> by (rewrite H1 in EU; destruct (seen c !! server) as [[? ? []]|]; cbn in EU; congruence).
  split; cbn [seen calls asked answered].
  - intros q. unfold underway. cbn [calls]. destruct (decide (q = server)) as [->|Hq]; [by rewrite !lookup_insert_eq|]. rewrite !lookup_insert_ne by done. apply H1.
  - intros q e. rewrite lookup_insert_Some, last_of_snoc. cbn [fst snd]. intros [[<- <-]|[Hq Hl]] Hf; [by rewrite decide_True|]. rewrite decide_False by done. by apply H2.
  - intros q Hq. destruct (decide (q = server)) as [->|Hn]; [by rewrite lookup_insert_eq|]. rewrite lookup_insert_ne by done. by apply H3.
  - intros pre q t post Ha Hu. destruct (H4 _ _ _ _ Ha Hu) as (a & Hi & Hl). exists a. split; [|done]. apply elem_of_app. by left.
Qed.

(** However many pages poll, and whatever the servers do: while none of them is
    dropped from the fleet, a server has one call under way at most, and is asked
    again only when the last thing asked was answered, or failed, more than the
    minute before. What a poll shows is what that server last said, from the
    cache. *)
Theorem far_polite c : rtc (step true) empty c →
  (∀ server, (underway c server ≤ 1)%nat) ∧
  (∀ pre server t post, asked c = pre ++ (server, t) :: post → is_Some (last_of server pre) → ∃ a, (server, a) ∈ answered c ∧ farServiceTTL < t - a) ∧
  (∀ server tunnel now, server ≠ "" → (lookup_ server tunnel now c).2 = default "" (byTunnel (default (mkEntry ∅ None false) (seen c !! server)) !! tunnel)).
Proof.
  intros Hr. assert (polite c) as [H1 H2 H3 H4].
  { revert Hr. apply (rtc_ind_r (λ c, polite c)); [apply polite_empty|]. intros y z _ ([server tunnel now|server answer now|server] & He & Hk) Hy; cbn [exec] in He.
    - injection He as <-. by apply polite_look.
    - by eapply polite_answer.
    - by destruct (Hk eq_refl). }
  split_and!; [|exact H4|].
  - intros server. rewrite H1. destruct (seen c !! server) as [e|]; [destruct (inFlight e)|]; lia.
  - intros server tunnel now Hs. unfold lookup_. by destruct (String.eqb_spec server "").
Qed.

(** A server that is dropped and added again while it is being asked is asked a
    second time at once. *)
Lemma forgotten_twice : ∃ c, rtc (step false) empty c ∧ underway c "tehran" = 2%nat.
Proof.
  exists (default empty (foldl (λ c e, c ≫= exec e) (Some empty) [Look "tehran" "t" 0; Forget "tehran"; Look "tehran" "t" 1])). split; [|by vm_compute].
  apply (foldl_steps exec (step false) [Look "tehran" "t" 0; Forget "tehran"; Look "tehran" "t" 1]); [|by vm_compute]. intros e x y He. by exists e.
Qed.

End Far.

Module Identity.

(** *** Where an address is, [internal/geo] *)

Record Info : Type := mkInfo { Country : string; Code : string; City : string; ISP : string }.

Notation geoCache := (gmap string (Info * Z)).

Definition geoTTL : Z := 6 * 3600 * Second.

(** The first provider that knows something. *)
Fixpoint ask (providers : list (string → option Info)) (ip : string) : option Info :=
  match providers with
  | [] => None
  | p :: providers =>
      match p ip with
      | Some g => if negb (String.eqb (Country g) "") || negb (String.eqb (ISP g) "") then Some g else ask providers ip
      | None => ask providers ip
      end
  end.

Definition Lookup (providers : list (string → option Info)) (ip : string) (now : Z) (c : geoCache) : geoCache * option Info :=
  if String.eqb ip "" || String.eqb ip "-" then (c, None) else
  let asks := match ask providers ip with Some g => (<[ip := (g, now)]> c, Some g) | None => (c, None) end in
  match c !! ip with
  | Some (g, at_) => if now - at_ <? geoTTL then (c, Some g) else asks
  | None => asks
  end.

(** *** Who this machine is *)

Record identityInfo : Type := mkIdentity { ipv4 : string; ipv6 : string; location : string; isp : string; ipv4Source : string }.

Record identity_cache : Type := mkCache { idCur : identityInfo; idRefreshed : option Z; idBusy : bool }.

Definition unknown : identity_cache := mkCache (mkIdentity "" "" "" "" "") None false.

(** [identity]: what is shown, and whether it is looked up again. *)
Definition identity (now : Z) (c : identity_cache) : identity_cache * identityInfo * bool :=
  let cur := idCur c in
  let ttl := if String.eqb (ipv4 cur) "" || String.eqb (location cur) "" || String.eqb (isp cur) "" then 30 * Second else 3600 * Second in
  let old := match idRefreshed c with None => true | Some t => ttl <? now - t end in
  if negb (idBusy c) && old then (mkCache cur (idRefreshed c) true, cur, true) else (c, cur, false).

(** The cities of [strings.Trim(s, ", ")]. *)
Definition trim_cut (s : string) : string :=
  let t := trim_with [","; " "] (String.length s) s in rev_string (trim_with [","; " "] (String.length t) (rev_string t)).

Definition or_ (a b : string) : string := if String.eqb a "" then b else a.

(** [refreshIdentity], from what was found. *)
Definition refreshIdentity (found4 source found6 : string) (g : option Info) (now : Z) (c : identity_cache) : identity_cache :=
  let cur := idCur c in
  let place := match g with Some g => trim_cut (TrimSpace (City g +:+ ", " +:+ Country g)) | None => "" end in
  let by_ := match g with Some g => ISP g | None => "" end in
  mkCache (mkIdentity (or_ found4 (ipv4 cur)) (or_ found6 (ipv6 cur)) (or_ place (location cur)) (or_ by_ (isp cur))
             (if String.eqb found4 "" then ipv4Source cur else source)) (Some now) false.

(** A round that finds nothing blanks nothing. *)
Lemma or_keeps a b : b ≠ "" → or_ a b ≠ "".
Proof. intros H. unfold or_. by destruct (String.eqb_spec a ""). Qed.

(** An address that changed while its place could not be looked up is shown with
    the place and the network of the one before. *)
Lemma place_of_another now : ∃ c, c = refreshIdentity "198.51.100.7" "interface" "" None now (refreshIdentity "192.0.2.1" "interface" "" (Some (mkInfo "Germany" "DE" "Berlin" "Hetzner")) 0 unknown) ∧
  ipv4 (idCur c) = "198.51.100.7" ∧ location (idCur c) = "Berlin, Germany" ∧ isp (idCur c) = "Hetzner".
Proof. eexists. split; [reflexivity|]. by vm_compute. Qed.

(** Whoever asks, one lookup of the identity is under way at a time, and a complete
    answer stands for an hour. *)
Lemma one_lookup now c : (identity now c).2 = true → idBusy c = false ∧ idBusy (identity now c).1.1 = true ∧
  ∀ t, idRefreshed c = Some t → 30 * Second < now - t ∧ (ipv4 (idCur c) ≠ "" → location (idCur c) ≠ "" → isp (idCur c) ≠ "" → 3600 * Second < now - t).
Proof.
  unfold identity. destruct (negb (idBusy c) && _) eqn:E; [|done]. apply andb_true_iff in E as [Eb%negb_true_iff Eo]. intros _. split; [done|]. split; [done|].
  intros t Ht. rewrite Ht in Eo. apply Z.ltb_lt in Eo. unfold Second in *. destruct (String.eqb_spec (ipv4 (idCur c)) ""), (String.eqb_spec (location (idCur c)) ""), (String.eqb_spec (isp (idCur c)) ""); cbn [orb] in Eo; (split; [lia|intros; try done; lia]).
Qed.

End Identity.

Module Card.
Import RevFile.Spec Sockets Verdict Identity.

(** The part of [TunnelInfo] that says how the tunnel is. *)
Record card : Type := mkCard {
  Ping : Z; cState : string; PeerLocation : string; PeerISP : string; PeerCountry : string; cServiceDown : string }.
#[export] Instance eta_card : Eta card := λ s, mkCard (Ping s) (cState s) (PeerLocation s) (PeerISP s) (PeerCountry s) (cServiceDown s).
#[export] Instance set_Ping : Field Ping. Proof. set_field. Defined.
#[export] Instance set_cState : Field cState. Proof. set_field. Defined.
#[export] Instance set_PeerLocation : Field PeerLocation. Proof. set_field. Defined.
#[export] Instance set_PeerISP : Field PeerISP. Proof. set_field. Defined.
#[export] Instance set_PeerCountry : Field PeerCountry. Proof. set_field. Defined.
#[export] Instance set_cServiceDown : Field cServiceDown. Proof. set_field. Defined.

(** What can be asked: of a provider of locations, by ping, by a connection, of a
    resolver; of the server at the other end, from the cache; and what the fleet
    knows of it. *)
Record probes : Type := mkProbes {
  geo : string → option Info;
  icmpPing : string → Z;
  tcpPing : string → string → Z;
  resolveIP : string → string;
  said : string → string → string;
  managed : string → option Info
}.

Definition peerHost (peer : string) : string :=
  if String.eqb peer "" then "" else match Net.SplitHostPort peer with Some (host, _) => host | None => peer end.

Definition TrimSuffix (s suf : string) : string := if HasSuffix s suf then substring 0 (String.length s - String.length suf) s else s.

(** The place of an address on a card. *)
Definition located (q : probes) (ip : string) (c : card) : card :=
  match geo q ip with
  | Some g => c <| PeerLocation := TrimSpace (City g +:+ ", " +:+ Country g) |> <| PeerISP := ISP g |> <| PeerCountry := Code g |>
  | None => c
  end.

(** The side that listens: the machine connected to its port, or the one the
    engine names. *)
Definition listening (q : probes) (t : Tunnel) (h : Health) (peers : list peerConn) (snap : option Metrics.Snapshot) (c : card) : card :=
  let peers :=
    match peers, snap with
    | [], Some s => let ip := peerHost (Metrics.Peer s) in if String.eqb ip "" then [] else [mkPeer ip (-1)]
    | _, _ => peers
    end in
  let c :=
    match peers with
    | [] => c
    | p :: _ => located q (IP p) (c <| Ping := (if RTT p <? 0 then icmpPing q (IP p) else RTT p) |>)
    end in
  c <| cState := State h |>.

Definition resolvable (h : string) : bool := negb (Kinds.one_of h [""; "0.0.0.0"; "::"; "[::]"]).

(** The side that dials. *)
Definition dialling (q : probes) (t : Tunnel) (h : Health) (pair : option (string * string)) (c : card) : card :=
  let (host, port) := splitHostPort (tAddr t) in
  let datagram := Kinds.IsDatagram (tTransport t) in
  let c :=
    if resolvable host then
      let ip := resolveIP q host in
      let c :=
        if datagram then if negb (String.eqb ip "") then c <| Ping := icmpPing q ip |> else c
        else c <| Ping := tcpPing q host port |> in
      if negb (String.eqb ip "") then located q ip c else c
    else c in
  let c := c <| cState := State h |> in
  let c := if String.eqb (cState c) "online" && resolvable host && negb datagram && (Ping c <? 0) then c <| cState := "offline" |> else c in
  let c :=
    match pair with
    | Some (node, _) =>
        if String.eqb (PeerCountry c) "" || String.eqb (PeerLocation c) "" then
          match managed q node with
          | Some n =>
              let c := if String.eqb (PeerCountry c) "" then c <| PeerCountry := Country n |> else c in
              let c := if String.eqb (PeerLocation c) "" then c <| PeerLocation := TrimSpace (TrimSuffix (City n +:+ ", " +:+ Country n) ", ") |> else c in
              if String.eqb (PeerISP c) "" then c <| PeerISP := ISP n |> else c
          | None => c
          end
        else c
    | None => c
    end in
  let online := String.eqb (cState c) "online" in
  let c := match ServiceDown h with Some _ => if online then c <| cServiceDown := Detail h |> else c | None => c end in
  match pair with
  | Some (node, name) => if String.eqb (cServiceDown c) "" && online then c <| cServiceDown := said q node name |> else c
  | None => c
  end.

(** One tunnel of [gatherTunnels]. *)
Definition gather (q : probes) (t : Tunnel) (h : Health) (peersByPort : gmap string (list peerConn)) (snap : option Metrics.Snapshot) (pair : option (string * string)) : card :=
  let c := mkCard (-1) "" "" "" "" "" in
  if negb (DialsOut t) then listening q t h (default [] (peersByPort !! (splitHostPort (tAddr t)).2)) snap c
  else dialling q t h pair c.

Lemma located_state q ip c : cState (located q ip c) = cState c ∧ Ping (located q ip c) = Ping c ∧ cServiceDown (located q ip c) = cServiceDown c.
Proof. unfold located. by destruct (geo q ip). Qed.

Lemma listening_card q t h peers snap c : cState (listening q t h peers snap c) = State h ∧ cServiceDown (listening q t h peers snap c) = cServiceDown c.
Proof.
  unfold listening. split; [done|]. set (l := match peers with [] => _ | _ => _ end). destruct l as [|p l]; [done|]. cbn.
  match goal with |- cServiceDown ?x = _ => change x with (located q (IP p) (c <| Ping := (if RTT p <? 0 then icmpPing q (IP p) else RTT p) |>)) end.
  by destruct (located_state q (IP p) (c <| Ping := (if RTT p <? 0 then icmpPing q (IP p) else RTT p) |>)) as (_ & _ & ->).
Qed.

(** The side that listens has the state of its health check, and nothing is ever
    said on its card of the service at the other end: the server there is not
    asked, whatever it has to say. *)
Theorem listening_never_asked q t h m snap pair : DialsOut t = false →
  cState (gather q t h m snap pair) = State h ∧ cServiceDown (gather q t h m snap pair) = "".
Proof. intros Hd. unfold gather. rewrite Hd. cbn [negb]. apply listening_card. Qed.

Lemma listening_never_asked_witness :
  let t := mkTunnel "iran" "server" "tcp" "0.0.0.0:443" [] in
  let q := mkProbes (λ _, None) (λ _, -1) (λ _ _, -1) (λ h, h) (λ _ _, "the service is down") (λ _, None) in
  cServiceDown (gather q t (mkHealth true true true "online" "peer connected" None) ∅ None (Some ("kharej", "tunnel"))) = "".
Proof. cbv zeta. apply (listening_never_asked _ (mkTunnel "iran" "server" "tcp" "0.0.0.0:443" [])). by vm_compute. Defined.

(** *** The totals and the speed of the machine, [fillNetwork] *)

Record netSample : Type := mkSample { sent : Z; recv : Z; at_ : Z }.

(** The sum of what the cards show. *)
Definition totals (snaps : list Metrics.Snapshot) : Z * Z :=
  foldl (λ s x, (u64 (s.1 + Metrics.BytesIn x), u64 (s.2 + Metrics.BytesOut x))) (0, 0) snaps.

(** The speed each way, as bytes and the time they took; nothing is said the first
    time. *)
Definition speed (prev : option netSample) (cur : netSample) : option ((Z * Z) * (Z * Z)) :=
  match prev with
  | None => None
  | Some prev =>
      let d := at_ cur - at_ prev in
      if 0 <? d then Some ((u64 (sent cur - sent prev), d), (u64 (recv cur - recv prev), d)) else None
  end.

(** The counters are those of all interfaces together: they fall when one goes,
    as that of a layer-3 tunnel does when it stops, and the speed is then close to
    all a counter can hold. *)
Theorem speed_of_a_fall prev cur : 0 ≤ sent cur < sent prev → sent prev < 2^63 → at_ prev < at_ cur →
  ∃ n down, speed (Some prev) cur = Some ((n, at_ cur - at_ prev), down) ∧ 2^63 < n.
Proof.
  intros Hs Hp Ht. unfold speed. zbool. do 2 eexists. split; [reflexivity|]. unfold u64. assert ((sent cur - sent prev) mod 2^64 = sent cur - sent prev + 2^64) as ->; [|lia].
  symmetry. apply (Z.mod_unique _ _ (-1)); lia.
Qed.

Lemma speed_of_a_fall_witness : ∃ n down, speed (Some (mkSample 1000 0 0)) (mkSample 10 0 1) = Some ((n, 1), down) ∧ 2^63 < n.
Proof. apply (speed_of_a_fall (mkSample 1000 0 0) (mkSample 10 0 1)); cbn; lia. Defined.

End Card.
